(* ===== verification/_CoqProject ===== *)
-Q . S2P
Prelude.v
Bits.v
GoBits.v
BitStream.v
Float64.v
GoStrings.v
GoSort.v
GoParse.v
GoFormat.v
Gorilla.v
GorillaIter.v
GorillaProofs.v
GorillaTheorems.v
LRU.v
LRUTheorems.v
Trie.v
TrieTheorems.v
Tags.v
TagsTheorems.v
Repr.v
ReprTheorems.v
ReprCache.v
Aggs.v
Aggregator.v
AggregatorTheorems.v
Splitter.v
SplitterTheorems.v
Formatter.v
StatItem.v
Accumulate.v
AccumulateTheorems.v
AccumulateRaces.v
Accumulator.v
AccumulatorTheorems.v
AccConfig.v
Prereg.v
Consistent.v
ConsistentTheorems.v
HasherPool.v
Series.v
RawData.v
Resample.v
ResampleTheorems.v
QueryTheorems.v
WriteCache.v
WriteCacheTheorems.v
PipelineTheorems.v
Wire.v
WireTheorems.v
ProtoSeries.v
ProtoSeriesTheorems.v
ProtoPipeline.v
ChunkCache.v
ChunkCacheTheorems.v
Rollup.v
ReadCache.v
Dispatch.v
WriterLoop.v
AggLoop.v
AggLoopTheorems.v
Messages.v
MessagesTheorems.v
Kafka.v
Msgp.v
MsgpShape.v
MsgpShapeTheorems.v
MsgpStream.v
MsgpStreamTheorems.v
MsgpMessages.v
MsgpMessagesTheorems.v
MsgpackSeries.v
IndexUtils.v
MetricIndex.v
TagIndex.v
RamIndexer.v
JLexer.v
EasyJson.v
EasyJsonTheorems.v
Routing.v
HasherConf.v
