(* ===== verification/Prelude.v ===== *)
(** * Cadent: a verification of the metrics server's core

    Cadent is a metrics proxy and store written in Go
    ([src/src/cadent/server]).  Lines arrive, are split into keys and
    fields ([splitter]), matched against filters that name a backend
    ([prereg]), and sent to one of its servers, which a consistent hash
    chooses ([hasherpool.go], [serverpool.go]), or accumulated between
    flushes ([accumulator]); what a flush hands out goes back into the
    server as lines and on to the aggregators as statistics
    ([schemas/repr]).  The aggregation loop hands aggregated statistics to
    writers, which keep them in caches of series ([writers/metrics],
    [series], over the bit stream of [utils], protobuf or MessagePack) and
    store these as blocks, indexed by name in tries ([utils/trie]) and
    caches ([lrucache]); blocks are rolled up to coarser resolutions and
    read back for queries as items that are cut, quantized, resampled and
    merged ([schemas/metrics]).  Servers send each other metrics in
    envelopes ([schemas/series]) in protobuf or MessagePack.  This library
    models that core as executable functions and proves what each part
    promises to the next.

    ** Files

    - [Prelude]: machine integers with their wrap-around, errors, the
      tactics and hint databases; [Bits]: bits of words and of byte lists;
      [Float64]: IEEE doubles as 64-bit patterns with Go's comparisons,
      conversions and arithmetic; [GoStrings], [GoParse], [GoFormat] and
      [GoSort]: what the code uses of [strings], [bytes], [strconv], [fmt]
      and [sort].  [sort.Sort] is the class
      [GoSort] (a permutation, sorted for an order), with insertion sort as
      an instance: no theorem depends on the order of equal elements.
    - [GoBits], [BitStream]: the vendored [Clz] and
      [Ctz], and [utils/bitstream.go].  A stream is the record of the code
      (bytes and the number of bits left in the current byte); the
      predicates [written] and [readable] relate it to the list of its bits.
    - [Gorilla], [GorillaIter], [GorillaProofs], [GorillaTheorems]:
      [series/gorilla.go], writer and iterator; the proofs carry a relation
      between the writer's and the reader's state point by point.
    - [LRU], [LRUTheorems]: [lrucache/lrucache.go] and [ttlcache.go], with
      a heap of list elements, refining a list of entries.
    - [Trie], [TrieTheorems]: [utils/trie/trie.go], refining finite maps.
    - [Tags], [TagsTheorems]: [schemas/repr/tags.go] and [metric2.go].
    - [Repr], [ReprTheorems]: [schemas/repr/repr.go]: names with their
      cached unique ids, and statistics.
    - [ReprCache]: [schemas/repr/cache.go], refining a
      bounded queue.
    - [Aggs]: [schemas/repr/aggs.go].  The cache of guesses
      is used through the class [MemoCache]; the LRU cache is an instance.
    - [Aggregator], [AggregatorTheorems]: [schemas/repr/aggregator.go] and
      [multiagg.go].  The module [AddRaces] has additions and clearings as
      steps at the grain of the locks.
    - [Splitter], [SplitterTheorems]: the six line parsers of [splitter]
      (Graphite, Statsd, Carbon2, OpenTSDB, JSON and regular expressions).
      An item that comes from a pool is an argument, with the fields of its
      last use.
    - [Formatter]: the three formatters of
      [accumulator] ([graphite_fmt.go], [statsd_fmt.go],
      [carbontwo_fmt.go]), against the splitters that read their lines.
    - [StatItem]: the items an accumulator holds: the ones of
      [graphite.go], [carbontwo.go] and [json.go], which differ in their
      names only, and the counters, gauges, timers and sets of
      [statsd.go].  An item does not write to a formatter but returns the
      list of its calls ([FmtCall]).
    - [Accumulate], [AccumulateTheorems]: the accumulators of the four
      formats, from lines and from statistics to items, with their flushes.
      The class [LineAccumulator] states what a format promises, and the
      theorems on sequences of lines and flushes are proved against it.
    - [AccumulateRaces]: the goroutine of the lines and the flushes of a
      Graphite accumulator as steps between which the table's lock is free
      or an item can change ([race_next]), the items in a store.
    - [Accumulator], [AccumulatorTheorems]: [accumulator.go]: the flush
      that turns items into lines, splits them again and posts them, and
      the loop of [Start] over the events it selects ([loop_event]).
    - [AccConfig]: [accumulator/config.go] with the
      duration parser it uses.
    - [Prereg]: [prereg/filter.go] and
      [prereg/config.go].
    - [Consistent], [ConsistentTheorems]: the vendored ring
      ([wyndhblb/consistent]); the hash functions are a parameter.
    - [HasherPool]: [hasherpool.go] and
      [serverpool.go] over the ring, with the cache of lookups behind the
      class [HasherCache], of which the LRU cache is an instance.
    - [Series]: the iterator interface of [series/interface.go] as the
      class [TimeSeriesIter], the registry of formats and the list format
      ([series/registry.go], [series/repr.go]).
    - [RawData], [Resample], [ResampleTheorems], [QueryTheorems]:
      [schemas/metrics/metrics.go]: the points and items of a query, read
      from stored blocks, resampled, quantized and merged.
    - [WriteCache], [WriteCacheTheorems]: [writers/metrics/cache_single.go],
      the cache between the aggregators and the writers, over any series
      with the interface [TimeSeries]; the class [SeriesLaws] states what it
      needs of a series.
    - [PipelineTheorems]: the Gorilla and list formats as instances of
      [SeriesLaws], and the way of a point from the write cache through
      stored blocks to a query.
    - [Wire], [WireTheorems]: the code the protobuf generator writes for a
      message, from the list of its fields: [Size], [MarshalTo] backwards
      into a buffer of that size, and the loop of [Unmarshal] with its
      varints, its skipping of unknown fields and its panics.  A field is a
      record of these operations with its getter and setter.
    - [ProtoSeries], [ProtoSeriesTheorems], [ProtoPipeline]:
      [series/protobuf.go] with its messages ([protobuf.pb.go]), and the
      write cache over such series.
    - [Messages], [MessagesTheorems]: the protobuf messages of [schemas/*],
      each the list of its fields.
    - [Kafka]: the envelopes of
      [schemas/series/series_kafka.go] with the pools they come from.
    - [Msgp]: the vendored MessagePack library
      ([tinylib/msgp]) on bytes.  A read is one switch on the first byte
      ([form]), which bytes and streams share.
    - [MsgpShape], [MsgpShapeTheorems]: the code the MessagePack generator
      writes for a type, from its [shape]; [denote] gives the type of the
      objects, slices with the spare elements behind their length.
      [encode] and [decode] are written against the classes [Sink] and
      [Source], whose laws the theorems use.
    - [MsgpStream], [MsgpStreamTheorems]: the buffered writer of
      [write.go] and the buffered reader of [read.go] and [philhofer/fwd]
      as instances, over any [io.Writer] and [io.Reader] (the classes
      [IoWriter] and [IoReader] with their laws).
    - [MsgpMessages], [MsgpMessagesTheorems]: the 59 types with generated
      MessagePack methods ([*_msgp.go]), each with its shape and its five
      methods.
    - [MsgpackSeries]: [series/msgpack.go] over
      that writer and reader.
    - [ChunkCache], [ChunkCacheTheorems]: [writers/metrics/cache_chunk.go],
      the write cache in chunks of time with its log.
    - [Rollup]: [writers/metrics/rollup.go] over any
      database with the operations of [DBMetrics].
    - [ReadCache]: [writers/metrics/readcache.go] over
      the LRU cache.
    - [Dispatch]: [dispatch/dispatch.go], queue,
      dispatcher and workers as a step function [fire] on labels.
    - [WriterLoop]: [writers/writer.go], its queue
      over a heap of pooled nodes, and [utils/once.go].
    - [AggLoop], [AggLoopTheorems]: [accumulator/aggloop.go] with the names
      of the drivers ([writers/metrics/registry.go]), over the aggregators
      and the writer loops.
    - [Routing]: the way of a line through a server: the reading of lines
      ([clienttcp.go], [clientudp.go], [clienthttp.go]), the filters, the
      accumulator and the hashers ([server.go], [backends.go]), and the
      writers ([output.go]); the network is an argument.
    - [HasherConf]: the sections and lists of servers of
      [config/hashers.go], and the hashers and servers made from them
      ([server.go], [cmd/cadent/cadent.go]); URLs and regular expressions
      are parameters, the order in which a map is visited an argument.
    - [IndexUtils]: the globs, segments and tag queries of
      [writers/indexer/utils.go] and [segments.go]; a pattern of [regexp]
      is a parameter, [GoRange] an order in which a map may be visited.
    - [MetricIndex]: [writers/indexer/metric_ram.go], the index of names
      with its trie and its databases (the class [LevelDB]), refining a
      finite map of names.
    - [TagIndex]: [writers/indexer/tag_ram.go].  A lock that is never
      released is kept in the state, and a call that waits for it for ever
      answers [Hangs].
    - [RamIndexer]: [writers/indexer/ram.go] over the two, the registry of
      indexers and the three caches in front of them ([cache.go],
      [tagcache.go], [readcache.go]).
    - [JLexer]: the vendored lexer and writer of [mailru/easyjson].  The
      first error stays in the lexer, as in the code, and every later call
      sees it.
    - [EasyJson], [EasyJsonTheorems]: the code the easyjson generator writes
      for a type, from its shape ([jshape], [jfields]), and the 41 types
      with generated JSON methods ([*_easyjson.go]).

    ** Conventions

    An operation that changes its receiver returns the new receiver.  A
    result [None] is a panic of the Go code (a nil dereference or an index
    out of range) or, in a function with a fuel, a loop that needs more
    steps; errors are values.  Mutexes serialise the methods and are left
    out, except where a method takes one twice: [AccumulateRaces],
    [AggregatorTheorems.AddRaces], [Dispatch], [WriterLoop] and [AggLoop]
    are about interleavings.
    There a goroutine's next move is a label and firing it goes on, waits
    or panics; their theorems hold for every order of the moves.  The moves
    are as small as the source's critical sections but for one: an addition
    to the aggregators is a single move in [AggLoop], where the source lets
    go of the lock before it updates an element; what that does to one
    aggregator is in [AggregatorTheorems.AddRaces].
    [time.Now()] is an argument, and a channel is the list of what is sent
    or received.  Generated decoders return an [outcome] (a value, an
    error, a panic, or too little fuel), the MessagePack ones a [res] that
    also has the object and the rest of the input as they are after an
    error.  An object from a [sync.Pool] is any object put back before, or
    a new one ([pick]).  Pointers are kept where sharing can be observed: the
    elements of the linked lists, the items of [AccumulateRaces], and the
    name of a statistic, whose cached id an operation fills in.  Elsewhere
    an object is the value of its fields, and theorems are about objects
    that are not shared: a name whose tags another name points to
    ([ReprTheorems.shared_tags_stale]), bytes that two readers shift
    ([BitStream.reading_spoils_bytes]) and an object whose pointers meet are
    outside them.  Go's maps are finite maps; where the code
    iterates over one, the theorems hold for every order or the result is a
    map again.

    Code outside the repository is a parameter: [farm.Hash64], the snappy
    functions, the iterators of the third-party series formats, the hash
    functions of the ring, [regexp], [time.Parse] with a layout, the JSON
    codec, [math.Pow], [fmt.Fprintf] of a value as its format, the outcome
    of a connection test, and that of setting up a writer or a reader,
    which may be a panic.  Nothing is assumed about them but what a theorem
    names: a text that [FormatFloat] makes is read back by [ParseFloat]; an
    [io.Reader] gives its data without an error and the end by itself.

    ** Fuel

    [collect] and [drain] (iterating to the end of a series) take a bound
    on the number of points, and the theorems hold for every bound larger
    than that number.  The loops over a time range take [range_fuel], the
    number of steps between start and end and one more, which is enough as
    long as the times stay below 2^32: the theorems on resampling, merging
    and quantizing prove that a result is reached.  The loop over the
    flushed text takes one turn per byte and one more, each turn reading
    at least a byte ([read_loop_terminates]); [GetN] on the ring takes one
    turn per point, enough when the circle has as many servers as are
    asked for ([ring_getN_servers]) and not otherwise ([getN_hangs]); the
    binary search takes one turn per point.  The decoders take one round
    a byte, for all their loops together: that this is enough on any bytes
    is proved ([schema_reading_ends], [msgp_reading_ends],
    [json_reading_ends]); reading a
    stream takes one round per byte the reader still has, filling a buffer
    one round per byte asked for.

    ** What is proved

    - Storage: writing and reading bit fields are inverse; a Gorilla series
      gives back the points added to it within its domain, at its
      resolution and with the sum alone for those it stores short; what is
      stored in any number of blocks is, in whole seconds, what a query
      reads; a steady point costs seven bits; reading past the end is an
      error.
    - The write cache: under any sequence of additions, expiries, queue
      updates and pops no accepted point is lost, doubled or reordered; its
      byte count and number of keys; the fullest series is written first;
      and, with the Gorilla format, a query of the stored blocks shows one
      point for each point it accepted; popping writes every series in the
      end.
    - The other stores: the chunked cache keeps every accepted point in the
      chunk that was current and its log covers them; protobuf and
      MessagePack series deliver what they were given; rolling up keeps the
      counts and the grid; a read from the read cache gives the kept points
      of the window.
    - The aggregation loop: in any order of its moves, in which additions
      are not interrupted, no observation is lost but those dropped at a
      full writer, and its writers have their aggregators unless a
      configuration splits them; the writers' queue is
      a bounded first-in first-out list and writes in order.  When the
      dispatch queue jams, and that it finishes when no job fails.
    - Messages: every protobuf type of the schemas, and every MessagePack
      type but three, is read back from what is written, for MessagePack
      into any object whose pointers do not meet, and by stream in whatever
      pieces a reader gives the bytes; sizes are exact or
      enough; decoders end on any bytes; an empty key makes the MessagePack
      decoders panic; a list of metrics arrives through its envelope, and
      what an object from the pool adds to a protobuf message.
    - JSON: every message is read back from what is written, unless it
      holds a [DataPoint] or a float that has no text; reading ends on any
      bytes.
    - Indexes: the index of names refines a finite map, and a query with
      globs answers the nodes that match, each once, as long as no name
      with a multiple of sixteen segments is deleted; the index of tags
      answers with the tags and values that were added and with ids that
      have the tag, those just added among them; the
      queue in front of an indexer hands out a name once.  What is culled
      does not come back, and a query for tags blocks every later write.
    - Lines: which lines the Graphite splitter refuses and what it makes of
      the others; what the Graphite, Carbon2 and Statsd formatters print is
      read back by the splitters.
    - Accumulation: an item summarises exactly the values accepted under
      its key since the last flush, and over any lines and flushes no value
      is lost or handed out twice, as long as a flush is not interrupted;
      interleaved with lines, one flush at a time and without kept keys, it
      hands nothing out twice and loses at most the values of lines that
      were under way at the same time.  A flush ends, posts items with the
      fields of accumulated ones, and a Graphite accumulator's items, when
      they are printable, come back from its own output.
    - Configuration: accepted flush times are nested; an accumulator that
      is returned is complete; the first matching filter decides where a
      line goes.
    - Routing: a line that is not rejected or accumulated is queued once for
      each server that the rings name for its key, whatever the caches and
      queues are like, and never for another backend; a message is sent at
      least once or its job fails; which lines of a client are taken.
    - From the configuration to the ring: a file is accepted exactly when
      all its sections are and one listens, in whatever order they are
      visited; every server of an accepted file starts unless its
      accumulator names the default section; for every key the server of a
      section names as many distinct servers of each of its lists as there
      are copies to make.
    - Servers: the ring gives every key the first point past its hash, a
      new server takes keys only for itself, removing one moves only its
      keys, [GetN] ends with distinct servers; the cache in front of it
      does not answer with what is no longer so, as long as servers are
      purged by the URL they were added with; the health checks, as they
      are written, never drop a server.
    - Containers: the LRU cache, the trie and the statistics cache refine
      their abstract specifications under every sequence of calls; lookups
      after insertions, capacity bounds, expiry, wildcard queries.
    - Identity: the cached unique id is that of the current key and tags,
      as long as the tags are not shared, does not depend on the order of the tags, and survives its text
      form; tags survive theirs; the Metrics 2.0 split and merges.
    - Aggregation: the entry of a bucket is the summary of exactly its
      points, at every resolution independently; when additions interleave,
      none counts twice and none is lost that met no other; statistics and points
      merge as they should; minimum, maximum and odd medians.
    - Queries: resampling and merging end, keep the grid and lose no
      count; quantizing fills the grid; cutting to a window.
    - Deviations: theorems that state what the code does where that is not
      what it means to do (series of fewer than four values, lost tag
      lists, even medians, the shared cache of guesses, stale ids, signed
      gauges, the search of [GetN] that does not end, and others) say so in
      their comments.

    ** Not modelled

    Sockets and the scheduling of goroutines and of the workers of a
    server; its status pages and its shutdown; database
    drivers and the indexers and writers that are queries to one
    (Cassandra, MySQL, Elasticsearch, Kafka, Redis, files); HTTP and RPC;
    the series of gob, JSON and codec, whose bytes are made by libraries
    that are not in the sources or by reflection; the reading of
    configuration files; logging, gauges and printed summaries; the tickers
    that wait for a rounded time. Of the generated messages:
    [UidMetricList], a list of itself; the protobuf form of
    [WhisperRenderItem], which holds a map; the MessagePack forms of
    [MetricFindItems] and [MetricTagItems], whose methods use nil
    elements; the JSON of [DBSeries] and [DBSeriesList], whose id is any
    value, and of [ReprList], whose times the standard library writes;
    getters, descriptors and random populators. *)
From stdpp Require Export base tactics option list list_numbers numbers gmap strings.
From Stdlib Require Export ZArith Lia Bool.

#[global] Set Default Goal Selector "!".
#[global] Set Warnings "-clear-no-such-hyp".

Open Scope Z_scope.

(** ** Machine integers

    A Go integer of width [w] is a [Z] in its range; arithmetic wraps
    with [wrap w] (unsigned) and [swrap w] (signed, two's complement). *)

Definition wrap (w z : Z) : Z := z mod 2 ^ w.

Definition swrap (w z : Z) : Z := (z + 2 ^ (w - 1)) mod 2 ^ w - 2 ^ (w - 1).

Abbreviation u8 := (wrap 8).
Abbreviation u32 := (wrap 32).
Abbreviation u64 := (wrap 64).
Abbreviation i32 := (swrap 32).
Abbreviation i64 := (swrap 64).

(** Go's [x << k] on an unsigned integer of width [w] with an unsigned
    shift count: a count of [w] or more gives zero. *)
Definition shl (w x k : Z) : Z := if w <=? k then 0 else wrap w (Z.shiftl x k).

(** Go's [x >> k] on an unsigned integer of width [w]. *)
Definition shr (w x k : Z) : Z := if w <=? k then 0 else Z.shiftr x k.

Definition in_width (w z : Z) : Prop := 0 <= z < 2 ^ w.

#[global] Arguments wrap : simpl never.
#[global] Arguments swrap : simpl never.
#[global] Arguments shl : simpl never.
#[global] Arguments shr : simpl never.
#[global] Arguments in_width : simpl never.
#[global] Arguments Z.pow : simpl never.

(** ** Errors and panics

    A Go function that returns [(T, error)] returns [inl v] or [inr err]
    here: the zero value that accompanies an error is never used by the
    callers.  A computation that can stop with a runtime panic (an index
    out of range, a nil dereference, a nil map) is in [option], and
    [None] is the panic. *)

Inductive goerror :=
| EOF
| GoError (msg : string).

#[export] Instance goerror_eq_dec : EqDecision goerror.
Proof. solve_decision. Defined.

(** ** Hint databases and tactics *)

Create HintDb cadent.
Create Rewrite HintDb cadent.

(** Case split on the boolean comparisons of the goal and of the
    hypotheses, turning each into the proposition it decides. *)
Ltac bool_to_prop :=
  repeat match goal with
  | H : (_ && _)%bool = true |- _ => apply andb_true_iff in H; destruct H
  | H : (_ || _)%bool = false |- _ => apply orb_false_iff in H; destruct H
  | H : negb _ = true |- _ => apply negb_true_iff in H
  | H : negb _ = false |- _ => apply negb_false_iff in H
  | H : (_ <? _) = true |- _ => apply Z.ltb_lt in H
  | H : (_ <? _) = false |- _ => apply Z.ltb_ge in H
  | H : (_ <=? _) = true |- _ => apply Z.leb_le in H
  | H : (_ <=? _) = false |- _ => apply Z.leb_gt in H
  | H : (_ >? _) = true |- _ => rewrite Z.gtb_ltb in H
  | H : (_ >? _) = false |- _ => rewrite Z.gtb_ltb in H
  | H : (_ >=? _) = true |- _ => rewrite Z.geb_leb in H
  | H : (_ >=? _) = false |- _ => rewrite Z.geb_leb in H
  | H : (_ =? _) = true |- _ => apply Z.eqb_eq in H
  | H : (_ =? _) = false |- _ => apply Z.eqb_neq in H
  end.

(** Destruct the scrutinee of every [if] of the goal. *)
Ltac case_if :=
  match goal with
  | |- context [if ?b then _ else _] =>
      let E := fresh "E" in destruct b eqn:E; bool_to_prop
  end.

Ltac case_ifs := repeat case_if.

(** Decide a boolean comparison that linear arithmetic settles. *)
Ltac bool_lia :=
  match goal with
  | |- (_ <? _) = true => apply Z.ltb_lt; lia
  | |- (_ <? _) = false => apply Z.ltb_ge; lia
  | |- (_ <=? _) = true => apply Z.leb_le; lia
  | |- (_ <=? _) = false => apply Z.leb_gt; lia
  | |- (_ >? _) = _ => rewrite Z.gtb_ltb; bool_lia
  | |- (_ >=? _) = _ => rewrite Z.geb_leb; bool_lia
  | |- (_ =? _) = true => apply Z.eqb_eq; lia
  | |- (_ =? _) = false => apply Z.eqb_neq; lia
  end.

(** Rewrite an [if] whose test linear arithmetic settles. *)
Tactic Notation "if_true" :=
  match goal with |- context [if ?b then _ else _] =>
    replace b with true by (symmetry; bool_lia) end.

Tactic Notation "if_false" :=
  match goal with |- context [if ?b then _ else _] =>
    replace b with false by (symmetry; bool_lia) end.

(** ** Lemmas on machine integers *)

Lemma pow2_pos (n : Z) : 0 <= n -> 0 < 2 ^ n.
Proof. intros. apply Z.pow_pos_nonneg; lia. Qed.

Lemma wrap_range (w z : Z) : 0 <= w -> in_width w (wrap w z).
Proof. intros. apply Z.mod_pos_bound, pow2_pos. lia. Qed.

Lemma wrap_id (w z : Z) : in_width w z -> wrap w z = z.
Proof. intros. by apply Z.mod_small. Qed.

Lemma wrap_wrap (w z : Z) : wrap w (wrap w z) = wrap w z.
Proof. apply Zmod_mod. Qed.

Lemma wrap_add_l (w x y : Z) : wrap w (wrap w x + y) = wrap w (x + y).
Proof. apply Zplus_mod_idemp_l. Qed.

Lemma wrap_add_r (w x y : Z) : wrap w (x + wrap w y) = wrap w (x + y).
Proof. apply Zplus_mod_idemp_r. Qed.

(** A narrower wrap forgets a wider one. *)
Lemma wrap_wrap_le (m w z : Z) : 0 <= m <= w -> wrap m (wrap w z) = wrap m z.
Proof.
  intros. apply Z.mod_mod_divide. exists (2 ^ (w - m)).
  rewrite <- Z.pow_add_r by lia. f_equal. lia.
Qed.

Lemma swrap_range (w z : Z) : 0 < w -> - 2 ^ (w - 1) <= swrap w z < 2 ^ (w - 1).
Proof.
  intros. unfold swrap.
  assert (Hw : 2 ^ w = 2 * 2 ^ (w - 1)).
  { rewrite <- Z.pow_succ_r by lia. f_equal. lia. }
  pose proof (pow2_pos (w - 1) ltac:(lia)).
  pose proof (Z.mod_pos_bound (z + 2 ^ (w - 1)) (2 ^ w) ltac:(lia)). lia.
Qed.

Lemma swrap_id (w z : Z) :
  0 < w -> - 2 ^ (w - 1) <= z < 2 ^ (w - 1) -> swrap w z = z.
Proof.
  intros Hw0 Hz. unfold swrap.
  assert (Hw : 2 ^ w = 2 * 2 ^ (w - 1)).
  { rewrite <- Z.pow_succ_r by lia. f_equal. lia. }
  rewrite Z.mod_small; lia.
Qed.

(** Reading a signed value back as unsigned forgets the sign wrap. *)
Lemma wrap_swrap (w z : Z) : 0 < w -> wrap w (swrap w z) = wrap w z.
Proof.
  intros. unfold wrap, swrap.
  rewrite Zminus_mod_idemp_l. f_equal. lia.
Qed.

#[export] Hint Resolve pow2_pos wrap_range swrap_range : cadent.
#[export] Hint Rewrite wrap_wrap wrap_add_l wrap_add_r : cadent.

(** ** Lemmas on lists *)

Lemma filter_all {A} (P : A -> Prop) `{!forall x, Decision (P x)} (l : list A) :
  Forall P l -> filter P l = l.
Proof.
  induction 1 as [|x l Hx _ IH]; [done|]. by rewrite filter_cons_True, IH.
Qed.

(** [l[i]] for a Go int [i]: an index out of range panics. *)
Definition at_index {A} (l : list A) (i : Z) : option A :=
  if i <? 0 then None else l !! Z.to_nat i.

Lemma at_index_Some {A} (l : list A) (i : Z) :
  0 <= i < Z.of_nat (length l) -> exists x, at_index l i = Some x /\ x ∈ l.
Proof.
  intros Hi. unfold at_index. if_false.
  destruct (lookup_lt_is_Some_2 l (Z.to_nat i)) as [x Hx]; [lia|]. exists x. split; [done|].
  by eapply list_elem_of_lookup_2.
Qed.
