(* ===== verification/Bits.v ===== *)
(** Bit lists: the most-significant-first view of machine words that the
    bit stream and the Gorilla codec share, and the leading- and
    trailing-zero counts of the vendored [go-bits] package. *)
From S2P Require Import Prelude.

(** [bits_of n z]: the low [n] bits of [z], most significant first. *)
Fixpoint bits_of (n : nat) (z : Z) : list bool :=
  match n with
  | O => []
  | S m => Z.testbit z (Z.of_nat m) :: bits_of m z
  end.

(** [Z_of_bits l]: the number whose binary digits, most significant
    first, are [l]. *)
Definition Z_of_bits (l : list bool) : Z :=
  fold_left (fun a (b : bool) => 2 * a + Z.b2z b) l 0.

(** The bits of a byte array, most significant bit of each byte first. *)
Definition bytes_bits (l : list Z) : list bool := l ≫= bits_of 8.

Lemma length_bits_of (n : nat) (z : Z) : length (bits_of n z) = n.
Proof. induction n; simpl; congruence. Qed.

Lemma bits_of_ext (n : nat) (x y : Z) :
  (forall i, 0 <= i < Z.of_nat n -> Z.testbit x i = Z.testbit y i) ->
  bits_of n x = bits_of n y.
Proof.
  induction n as [|n IH]; intros H; [done|]. simpl. f_equal.
  - apply H. lia.
  - apply IH. intros. apply H. lia.
Qed.

Lemma bits_of_inj (n : nat) (x y : Z) :
  bits_of n x = bits_of n y ->
  forall i, 0 <= i < Z.of_nat n -> Z.testbit x i = Z.testbit y i.
Proof.
  induction n as [|n IH]; intros H i Hi; [lia|]. simpl in H. injection H as H1 H2.
  destruct (decide (i = Z.of_nat n)) as [->|]; [done|]. apply IH; [done|lia].
Qed.

Lemma bits_of_app (m n : nat) (z : Z) :
  bits_of (m + n) z = bits_of m (Z.shiftr z (Z.of_nat n)) ++ bits_of n z.
Proof.
  induction m as [|m IH]; [done|]. simpl. rewrite IH. f_equal.
  rewrite Z.shiftr_spec by lia. f_equal. lia.
Qed.

Lemma bits_of_mod (n : nat) (w z : Z) :
  Z.of_nat n <= w -> bits_of n (z mod 2 ^ w) = bits_of n z.
Proof.
  intros. apply bits_of_ext. intros. apply Z.mod_pow2_bits_low. lia.
Qed.

Lemma bits_of_lor (n : nat) (x y : Z) :
  bits_of n (Z.lor x y) = zip_with orb (bits_of n x) (bits_of n y).
Proof. induction n; simpl; [done|]. by rewrite Z.lor_spec, IHn. Qed.

Lemma bits_of_0 (n : nat) : bits_of n 0 = replicate n false.
Proof. induction n; simpl; [done|]. by rewrite IHn, Z.testbit_0_l. Qed.

(** A left shift by [k] appends [k] zero bits. *)
Lemma bits_of_shiftl (n : nat) (z k : Z) :
  0 <= k <= Z.of_nat n ->
  bits_of n (Z.shiftl z k) =
  bits_of (n - Z.to_nat k) z ++ replicate (Z.to_nat k) false.
Proof.
  intros Hk. replace n with ((n - Z.to_nat k) + Z.to_nat k)%nat at 1 by lia.
  rewrite bits_of_app. f_equal.
  - apply bits_of_ext. intros. rewrite Z.shiftr_spec, Z.shiftl_spec by lia.
    f_equal. lia.
  - rewrite <- bits_of_0. apply bits_of_ext. intros.
    rewrite Z.testbit_0_l. apply Z.shiftl_spec_low. lia.
Qed.

Lemma Z_of_bits_fold (l : list bool) (a : Z) :
  fold_left (fun a (b : bool) => 2 * a + Z.b2z b) l a =
  a * 2 ^ Z.of_nat (length l) + Z_of_bits l.
Proof.
  unfold Z_of_bits. revert a. induction l as [|b l IH]; intros a.
  - simpl. lia.
  - cbn [fold_left length]. rewrite IH, (IH (2 * 0 + Z.b2z b)).
    rewrite Nat2Z.inj_succ, Z.pow_succ_r by lia. lia.
Qed.

Lemma Z_of_bits_app (l1 l2 : list bool) :
  Z_of_bits (l1 ++ l2) = Z_of_bits l1 * 2 ^ Z.of_nat (length l2) + Z_of_bits l2.
Proof.
  unfold Z_of_bits at 1. rewrite fold_left_app. apply Z_of_bits_fold.
Qed.

Lemma Z_of_bits_bound (l : list bool) :
  0 <= Z_of_bits l < 2 ^ Z.of_nat (length l).
Proof.
  induction l as [|b l IH] using rev_ind; [cbn; lia|].
  rewrite Z_of_bits_app, length_app, Nat2Z.inj_add, Z.pow_add_r by lia.
  destruct b; cbn in *; lia.
Qed.

(** Reading back the bits of a word gives the word modulo the width. *)
Lemma Z_of_bits_of (n : nat) (z : Z) :
  Z_of_bits (bits_of n z) = z mod 2 ^ Z.of_nat n.
Proof.
  revert z. induction n as [|n IH]; intros z; [cbn; by rewrite Z.mod_1_r|].
  replace (S n) with (n + 1)%nat by lia.
  rewrite bits_of_app, Z_of_bits_app, IH, length_bits_of.
  rewrite Nat2Z.inj_add, Z.pow_add_r, Z.shiftr_div_pow2 by lia.
  cbn [bits_of]. change (Z.of_nat 1) with 1. change (2 ^ 1) with 2.
  pose proof (pow2_pos (Z.of_nat n) ltac:(lia)).
  rewrite (Z.mul_comm (2 ^ Z.of_nat n) 2), Z.rem_mul_r by lia.
  unfold Z_of_bits. cbn [fold_left length]. rewrite Z.bit0_mod.
  change (Z.of_nat 1) with 1. change (2 ^ 1) with 2. lia.
Qed.

Lemma bits_of_Z_of_bits (l : list bool) : bits_of (length l) (Z_of_bits l) = l.
Proof.
  induction l as [|b l IH] using rev_ind; [done|].
  rewrite length_app, Z_of_bits_app. cbn [length]. rewrite bits_of_app.
  change (Z.of_nat 1) with 1. change (2 ^ 1) with 2.
  replace (Z_of_bits [b]) with (Z.b2z b) by (destruct b; done).
  f_equal.
  - etransitivity; [|exact IH]. f_equal. rewrite Z.shiftr_div_pow2 by lia.
    change (2 ^ 1) with 2. destruct b; cbn [Z.b2z].
    + rewrite Z.div_add_l by lia. change (1 / 2) with 0. lia.
    + rewrite Z.add_0_r. apply Z.div_mul. lia.
  - cbn [bits_of]. f_equal. rewrite Z.add_comm, (Z.mul_comm _ 2).
    apply Z.add_b2z_double_bit0.
Qed.

Lemma bytes_bits_app (l1 l2 : list Z) :
  bytes_bits (l1 ++ l2) = bytes_bits l1 ++ bytes_bits l2.
Proof. apply bind_app. Qed.

Lemma bytes_bits_snoc (l : list Z) (b : Z) :
  bytes_bits (l ++ [b]) = bytes_bits l ++ bits_of 8 b.
Proof. rewrite bytes_bits_app. f_equal. Qed.

Lemma bytes_bits_cons (b : Z) (l : list Z) :
  bytes_bits (b :: l) = bits_of 8 b ++ bytes_bits l.
Proof. done. Qed.

Lemma length_bytes_bits (l : list Z) : length (bytes_bits l) = (8 * length l)%nat.
Proof.
  induction l; [done|]. rewrite bytes_bits_cons, length_app, length_bits_of.
  simpl length. lia.
Qed.

Lemma testbit_high (w z i : Z) : in_width w z -> w <= i -> Z.testbit z i = false.
Proof.
  intros Hz Hi. destruct (Z.lt_ge_cases w 0).
  - unfold in_width in Hz. rewrite Z.pow_neg_r in Hz by done. lia.
  - rewrite <- (wrap_id w z) by done. by apply Z.mod_pow2_bits_high.
Qed.

(** A number without bits at or above [w] fits in [w] bits. *)
Lemma in_width_testbit (w z : Z) :
  0 <= w -> (forall i, w <= i -> Z.testbit z i = false) -> in_width w z.
Proof.
  intros Hw Hz. cut (z = wrap w z); [intros ->; by apply wrap_range|].
  apply Z.bits_inj'. intros i Hi. unfold wrap. destruct (Z.lt_ge_cases i w).
  - by rewrite Z.mod_pow2_bits_low by lia.
  - rewrite Z.mod_pow2_bits_high by lia. by apply Hz.
Qed.

Lemma lor_in_width (w x y : Z) :
  0 <= w -> in_width w x -> in_width w y -> in_width w (Z.lor x y).
Proof.
  intros Hw Hx Hy. apply in_width_testbit; [done|]. intros i Hi.
  rewrite Z.lor_spec, (testbit_high w x), (testbit_high w y) by done. done.
Qed.

Lemma lxor_in_width (w x y : Z) :
  0 <= w -> in_width w x -> in_width w y -> in_width w (Z.lxor x y).
Proof.
  intros Hw Hx Hy. apply in_width_testbit; [done|]. intros i Hi.
  rewrite Z.lxor_spec, (testbit_high w x), (testbit_high w y) by done. done.
Qed.

Lemma shl_in_width (w x k : Z) : 0 <= w -> in_width w (shl w x k).
Proof.
  intros. unfold shl. case_if; [|by apply wrap_range].
  pose proof (pow2_pos w). unfold in_width. lia.
Qed.

Lemma shr_in_width (w x k : Z) : 0 <= k -> in_width w x -> in_width w (shr w x k).
Proof.
  intros Hk [Hx Hx']. unfold shr, in_width. case_if; [lia|].
  rewrite Z.shiftr_div_pow2 by lia. pose proof (pow2_pos k Hk).
  split; [apply Z.div_pos; lia|].
  apply Z.div_lt_upper_bound; nia.
Qed.

(** The bits of a number that fits in the low [m] of [n + m] places. *)
Lemma bits_of_small (n m : nat) (z : Z) :
  in_width (Z.of_nat m) z ->
  bits_of (n + m) z = replicate n false ++ bits_of m z.
Proof.
  intros [H0 H1]. rewrite bits_of_app. f_equal.
  rewrite Z.shiftr_div_pow2, Z.div_small by lia. apply bits_of_0.
Qed.

Lemma bits_of_1 (n : nat) : bits_of (n + 1) 1 = replicate n false ++ [true].
Proof. rewrite bits_of_small by (unfold in_width; simpl; lia). done. Qed.

Lemma zip_orb (y w : list bool) :
  zip_with orb (y ++ replicate (length w) false) (replicate (length y) false ++ w) = y ++ w.
Proof.
  rewrite zip_with_app by (by rewrite length_replicate). f_equal.
  - induction y as [|b y IH]; simpl; [done|]. by rewrite IH, orb_false_r.
  - induction w as [|b w IH]; simpl; [done|]. by rewrite IH.
Qed.

#[export] Hint Resolve lor_in_width lxor_in_width shl_in_width shr_in_width : cadent.
#[export] Hint Rewrite length_bits_of length_bytes_bits bytes_bits_snoc : cadent.

#[global] Arguments bits_of : simpl never.
#[global] Arguments bytes_bits : simpl never.
#[global] Arguments Z_of_bits : simpl never.

(** Signed and unsigned wraps of numbers that agree modulo the width. *)
Lemma wrap_mod_eq (w x y : Z) : x mod 2 ^ w = y mod 2 ^ w -> wrap w x = wrap w y.
Proof. done. Qed.

Lemma swrap_wrap (w z : Z) : 0 < w -> swrap w (wrap w z) = swrap w z.
Proof. intros. unfold swrap, wrap. by rewrite Zplus_mod_idemp_l. Qed.

Lemma i64_add_l (a b : Z) : i64 (i64 a + b) = i64 (a + b).
Proof.
  rewrite <- (swrap_wrap 64 (i64 a + b)), <- (swrap_wrap 64 (a + b)) by lia. f_equal.
  rewrite <- (wrap_add_l 64 (i64 a) b), <- (wrap_add_l 64 a b). by rewrite wrap_swrap.
Qed.
