(* ===== verification/GoBits.v ===== *)
(** The vendored [github.com/dgryski/go-bits] package: [Clz] and [Ctz],
    the leading- and trailing-zero counts the Gorilla codec uses, by the
    package's portable branch-halving code. *)
From S2P Require Import Prelude Bits.

(** One halving step of [Clz]: when the top [k] bits are zero, count
    them and shift them out. *)
Definition clz_step (k : Z) (p : Z * Z) : Z * Z :=
  let '(n, x) := p in
  if shr 64 x (64 - k) =? 0 then (u64 (n + k), shl 64 x k) else (n, x).

Definition Clz (x : Z) : Z :=
  let '(n, x) :=
    clz_step 2 (clz_step 4 (clz_step 8 (clz_step 16 (clz_step 32 (1, x))))) in
  u64 (n - shr 64 x 63).

(** One halving step of [Ctz]. *)
Definition ctz_step (k : Z) (p : Z * Z) : Z * Z :=
  let '(n, x) := p in
  if Z.land x (Z.ones k) =? 0 then (u64 (n + k), shr 64 x k) else (n, x).

Definition Ctz (x : Z) : Z :=
  if x =? 0 then 64 else
  let '(n, x) :=
    ctz_step 2 (ctz_step 4 (ctz_step 8 (ctz_step 16 (ctz_step 32 (0, x))))) in
  if Z.land x 1 =? 0 then u64 (n + 1) else n.

(** [clz_inv x0 k (n, x)]: [x] is [x0] shifted left by [n - 1] places
    without loss, and its leading one is among the top [k] bits. *)
Definition clz_inv (x0 k : Z) (p : Z * Z) : Prop :=
  let '(n, x) := p in
  1 <= n <= 65 - k /\ x = x0 * 2 ^ (n - 1) /\ 2 ^ (64 - k) <= x < 2 ^ 64.

Lemma clz_step_inv (x0 k : Z) (p : Z * Z) :
  0 < k <= 32 -> clz_inv x0 (2 * k) p -> clz_inv x0 k (clz_step k p).
Proof.
  destruct p as [n x]. intros Hk (Hn & Hx & Hl & Hu). unfold clz_step, shr.
  if_false. rewrite Z.shiftr_div_pow2 by lia.
  pose proof (pow2_pos (64 - k) ltac:(lia)).
  case_if; simpl.
  - assert (x < 2 ^ (64 - k)) by (apply Z.div_small_iff in E; lia).
    assert (Hxk : x * 2 ^ k < 2 ^ 64).
    { replace 64 with (64 - k + k) at 1 by lia. rewrite Z.pow_add_r by lia. nia. }
    unfold shl. if_false. rewrite wrap_id by (unfold in_width; lia).
    rewrite Z.shiftl_mul_pow2, wrap_id by (unfold in_width; nia || lia).
    split; [lia|]. split.
    + replace (n + k - 1) with (n - 1 + k) by lia.
      rewrite Z.pow_add_r by lia. nia.
    + split; [|done]. replace (64 - k) with (64 - 2 * k + k) by lia.
      rewrite Z.pow_add_r by lia. nia.
  - split; [lia|]. split; [done|]. split; [|done].
    destruct (Z.lt_ge_cases x (2 ^ (64 - k))) as [Hlt|]; [|done].
    pose proof (pow2_pos (64 - 2 * k) ltac:(lia)).
    rewrite Z.div_small in E by lia. lia.
Qed.

(** The portable [Clz] is the leading-zero count: shifting the argument
    left by it brings the leading one to bit 63. *)
Lemma Clz_spec (x : Z) :
  0 < x < 2 ^ 64 ->
  0 <= Clz x < 64 /\ 2 ^ 63 <= x * 2 ^ Clz x < 2 ^ 64.
Proof.
  intros Hx. unfold Clz.
  assert (H0 : clz_inv x 64 (1, x)) by (simpl; lia).
  apply (clz_step_inv x 32) in H0; [|lia].
  apply (clz_step_inv x 16) in H0; [|lia].
  apply (clz_step_inv x 8) in H0; [|lia].
  apply (clz_step_inv x 4) in H0; [|lia].
  apply (clz_step_inv x 2) in H0; [|lia].
  destruct (clz_step 2 _) as [n y]. destruct H0 as (Hn & Hy & Hl & Hu).
  unfold shr. if_false. rewrite Z.shiftr_div_pow2 by lia.
  change (64 - 2) with 62 in *.
  destruct (Z.lt_ge_cases y (2 ^ 63)) as [Hlt|Hge].
  - rewrite Z.div_small, wrap_id by (unfold in_width; lia).
    rewrite Z.sub_0_r. split; [lia|].
    assert (Hp : x * 2 ^ n = 2 * y).
    { rewrite Hy. replace n with (n - 1 + 1) at 1 by lia.
      rewrite Z.pow_add_r by lia. lia. }
    lia.
  - assert (Hq : y / 2 ^ 63 = 1).
    { symmetry. apply Z.div_unique with (r := y - 2 ^ 63); lia. }
    rewrite Hq, wrap_id by (unfold in_width; lia). lia.
Qed.

(** [ctz_inv x0 k (n, x)]: [x0] is [x] followed by [n] zero bits, and
    the lowest one of [x] is among its low [k] bits. *)
Definition ctz_inv (x0 k : Z) (p : Z * Z) : Prop :=
  let '(n, x) := p in
  0 <= n <= 64 - k /\ x0 = x * 2 ^ n /\ 0 < x < 2 ^ (64 - n) /\ x mod 2 ^ k <> 0.

Lemma ctz_step_inv (x0 k : Z) (p : Z * Z) :
  0 < k <= 32 -> ctz_inv x0 (2 * k) p -> ctz_inv x0 k (ctz_step k p).
Proof.
  destruct p as [n x]. intros Hk (Hn & Hx & Hp & Hm). unfold ctz_step.
  rewrite Z.land_ones by lia. pose proof (pow2_pos k ltac:(lia)).
  case_if; simpl; [|lia].
  assert (Hq : x = x / 2 ^ k * 2 ^ k).
  { pose proof (Z.div_mod x (2 ^ k)). lia. }
  unfold shr. if_false. rewrite Z.shiftr_div_pow2, wrap_id by (unfold in_width; lia).
  set (q := x / 2 ^ k) in *. split; [lia|]. split.
  - rewrite (Z.add_comm n), Z.pow_add_r by lia. nia.
  - split.
    + replace (64 - n) with (64 - (n + k) + k) in Hp by lia.
      rewrite Z.pow_add_r in Hp by lia. nia.
    + contradict Hm. rewrite Hq. replace (2 * k) with (k + k) by lia.
      rewrite Z.pow_add_r, Z.mul_mod_distr_r by lia. lia.
Qed.

(** The portable [Ctz] is the trailing-zero count of a non-zero word. *)
Lemma Ctz_spec (x : Z) :
  0 < x < 2 ^ 64 ->
  0 <= Ctz x < 64 /\ x mod 2 ^ Ctz x = 0 /\ (x / 2 ^ Ctz x) mod 2 = 1.
Proof.
  intros Hx. unfold Ctz. if_false.
  assert (H0 : ctz_inv x 64 (0, x)).
  { simpl. split; [lia|]. split; [lia|]. split; [lia|].
    rewrite Z.mod_small by lia. lia. }
  apply (ctz_step_inv x 32) in H0; [|lia].
  apply (ctz_step_inv x 16) in H0; [|lia].
  apply (ctz_step_inv x 8) in H0; [|lia].
  apply (ctz_step_inv x 4) in H0; [|lia].
  apply (ctz_step_inv x 2) in H0; [|lia].
  destruct (ctz_step 2 _) as [n y]. destruct H0 as (Hn & Hy & Hp & Hm).
  change (Z.land y 1) with (Z.land y (Z.ones 1)). rewrite Z.land_ones by lia.
  change (2 ^ 1) with 2. change (2 ^ 2) with 4 in Hm.
  pose proof (pow2_pos n ltac:(lia)).
  case_if.
  - rewrite wrap_id by (unfold in_width; lia).
    assert (Hz : x = y / 2 * 2 ^ (n + 1)).
    { rewrite Z.pow_add_r by lia. change (2 ^ 1) with 2.
      pose proof (Z.div_mod y 2). nia. }
    rewrite Hz, Z.mod_mul, Z.div_mul by (pose proof (pow2_pos (n + 1)); lia).
    split; [lia|]. split; [done|]. pose proof (Z.rem_mul_r y 2 2 ltac:(lia) ltac:(lia)).
    change (2 * 2) with 4 in *. pose proof (Z.mod_pos_bound (y / 2) 2 ltac:(lia)). clear Hx Hz Hy. lia.
  - rewrite Hy, Z.mod_mul, Z.div_mul by lia.
    split; [lia|]. split; [done|]. pose proof (Z.mod_pos_bound y 2). lia.
Qed.

(** The reference definitions the portable code is equivalent to. *)
Lemma Clz_log2 (x : Z) : 0 < x < 2 ^ 64 -> Clz x = 63 - Z.log2 x.
Proof.
  intros Hx. destruct (Clz_spec x Hx) as [Hc Hb].
  cut (Z.log2 x = 63 - Clz x); [lia|].
  apply Z.log2_unique; [lia|]. set (c := Clz x) in *.
  assert (H63 : 2 ^ 63 = 2 ^ (63 - c) * 2 ^ c) by (rewrite <- Z.pow_add_r by lia; f_equal; lia).
  assert (H64 : 2 ^ 64 = 2 ^ (Z.succ (63 - c)) * 2 ^ c) by (rewrite <- Z.pow_add_r by lia; f_equal; lia).
  pose proof (pow2_pos c ltac:(lia)). nia.
Qed.

(** No bit of [x] at or above [64 - Clz x] is set. *)
Lemma Clz_bound (x : Z) : 0 < x < 2 ^ 64 -> x < 2 ^ (64 - Clz x).
Proof.
  intros Hx. rewrite Clz_log2 by done.
  replace (64 - (63 - Z.log2 x)) with (Z.succ (Z.log2 x)) by lia.
  apply Z.log2_spec. lia.
Qed.

#[export] Hint Resolve Clz_spec Ctz_spec Clz_bound : cadent.
