(* ===== verification/BitStream.v ===== *)
(** [utils/bitstream.go]: the bit stream under the Gorilla series.

    The stream is a byte array with a bit cursor: for a writer [count] is
    the number of free low bits of the last byte, for a reader the number
    of unread (high) bits of the first one.  [wbits] and [rbits] are the
    abstract bit sequences, and the theorems show that every write
    appends to the first and every read takes from the front of the
    second, so that the byte-level shifting implements a queue of bits.

    A reader of the source has no bytes of its own: it shifts those of
    the slice it was given.  The reader here is the value of what it still
    has to read, which is what its results depend on; [array_after] is what
    is left in the slice, and [reading_spoils_bytes] shows that a slice that
    has been read gives other bits to a second reader.  The theorems are
    about one reader of bytes that nobody else reads.

    The properties of the bit stream: a sequence of fields of any widths
    reads back as it was written, whatever the byte alignment; the end of
    the data is reported as [EOF]; and the leading and trailing zero
    counts used to choose the fields are the mathematical ones. *)
From S2P Require Import Prelude Bits GoBits.

Record BitStream := mkBitStream {
  stream : list Z;
  count : Z;
  bitsWritten : Z;
  bitsRead : Z
}.

Definition NewBReader (b : list Z) : BitStream := mkBitStream b 8 0 0.

Definition NewBWriter : BitStream := mkBitStream [] 0 0 0.

Definition SetStream (b : BitStream) (bs : list Z) : BitStream :=
  mkBitStream bs (count b) (bitsWritten b) (bitsRead b).

(** The argument is ignored, as in the source. *)
Definition SetCount (b : BitStream) (c : Z) : BitStream :=
  mkBitStream (stream b) 8 (bitsWritten b) (bitsRead b).

Definition Len (b : BitStream) : Z := Z.quot (bitsWritten b) 8.

Definition Clone (b : BitStream) : BitStream :=
  mkBitStream (stream b) (count b) (Z.of_nat (length (stream b))) 0.

Definition Bytes (b : BitStream) : list Z := stream b.

(** [if b.count == 0 { b.stream = append(b.stream, 0); b.count = 8 }] *)
Definition fresh_byte (b : BitStream) : BitStream :=
  if count b =? 0
  then mkBitStream (stream b ++ [0]) 8 (bitsWritten b) (bitsRead b)
  else b.

(** [b.stream[len-1] = f(b.stream[len-1])]; an empty stream panics. *)
Definition update_last (f : Z -> Z) (l : list Z) : option (list Z) :=
  match l with
  | [] => None
  | _ => Some (alter f (length l - 1)%nat l)
  end.

Definition WriteBit (b : BitStream) (bit : bool) : option BitStream :=
  let b := fresh_byte b in
  s ← (if bit
       then update_last (fun x => Z.lor x (shl 8 1 (u8 (count b - 1)))) (stream b)
       else Some (stream b));
  Some (mkBitStream s (u8 (count b - 1)) (bitsWritten b + 1) (bitsRead b)).

Definition WriteByte (b : BitStream) (byt : Z) : option BitStream :=
  let b := fresh_byte b in
  s ← update_last (fun x => Z.lor x (shr 8 byt (u8 (8 - count b)))) (stream b);
  Some (mkBitStream (s ++ [shl 8 byt (count b)]) (count b) (bitsWritten b + 8) (bitsRead b)).

Fixpoint WriteBytes (b : BitStream) (bs : list Z) : option BitStream :=
  match bs with
  | [] => Some b
  | by_ :: bs => b ← WriteByte b by_; WriteBytes b bs
  end.

(** The two loops of [WriteBits]; the fuel bounds the iterations, each
    of which decreases [nbits]. *)
Fixpoint WriteBits_bytes (fuel : nat) (b : BitStream) (u nbits : Z)
  : option (BitStream * Z * Z) :=
  match fuel with
  | O => Some (b, u, nbits)
  | S fuel =>
      if nbits >=? 8 then
        b ← WriteByte b (u8 (shr 64 u 56));
        WriteBits_bytes fuel b (shl 64 u 8) (nbits - 8)
      else Some (b, u, nbits)
  end.

Fixpoint WriteBits_bits (fuel : nat) (b : BitStream) (u nbits : Z)
  : option (BitStream * Z * Z) :=
  match fuel with
  | O => Some (b, u, nbits)
  | S fuel =>
      if nbits >? 0 then
        b ← WriteBit b (shr 64 u 63 =? 1);
        WriteBits_bits fuel b (shl 64 u 1) (nbits - 1)
      else Some (b, u, nbits)
  end.

Definition WriteBits (b : BitStream) (u nbits : Z) : option BitStream :=
  let u := shl 64 u (u64 (64 - nbits)) in
  '(b, u, nbits) ← WriteBits_bytes (Z.to_nat nbits) b u nbits;
  '(b, u, nbits) ← WriteBits_bits (Z.to_nat nbits) b u nbits;
  Some (mkBitStream (stream b) (count b) (bitsWritten b + nbits) (bitsRead b)).

Definition ReadBit (b : BitStream) : (bool + goerror) * BitStream :=
  match stream b with
  | [] => (inr EOF, b)
  | _ :: tl =>
      let read (s : list Z) (c : Z) :=
        match s with
        | [] => (inr EOF, mkBitStream [] (count b) (bitsWritten b) (bitsRead b))
        | x :: s' =>
            (inl (negb (Z.land x 128 =? 0)),
             mkBitStream (shl 8 x 1 :: s') (u8 (c - 1)) (bitsWritten b) (bitsRead b + 1))
        end in
      if count b =? 0 then read tl 8 else read (stream b) (count b)
  end.

Definition ReadByte (b : BitStream) : (Z + goerror) * BitStream :=
  match stream b with
  | [] => (inr EOF, b)
  | _ :: tl =>
      let read (s : list Z) (c : Z) :=
        match s with
        | [] => (inr EOF, mkBitStream [] c (bitsWritten b) (bitsRead b))
        | x :: s' =>
            if c =? 8
            then (inl x, mkBitStream s 0 (bitsWritten b) (bitsRead b + 8))
            else
              match s' with
              | [] => (inr EOF, mkBitStream [] c (bitsWritten b) (bitsRead b))
              | y :: s'' =>
                  (inl (Z.lor x (shr 8 y c)),
                   mkBitStream (shl 8 y (u8 (8 - c)) :: s'') c
                     (bitsWritten b) (bitsRead b + 8))
              end
        end in
      if count b =? 0
      then match tl with
           | [] => (inr EOF, mkBitStream [] 0 (bitsWritten b) (bitsRead b))
           | _ => read tl 8
           end
      else read (stream b) (count b)
  end.

Fixpoint ReadBytes_loop (n : nat) (b : BitStream) (acc : list Z)
  : (list Z + goerror) * BitStream :=
  match n with
  | O => (inl acc, b)
  | S n =>
      match ReadByte b with
      | (inl x, b) => ReadBytes_loop n b (acc ++ [x])
      | (inr e, b) => (inr e, b)
      end
  end.

Definition ReadBytes (b : BitStream) (n : Z) : (list Z + goerror) * BitStream :=
  if (length (stream b) =? 0)%nat then (inr EOF, b)
  else if Z.of_nat (length (stream b)) <? n then (inr EOF, b)
  else ReadBytes_loop (Z.to_nat n) b [].

Fixpoint ReadBits_bytes (fuel : nat) (b : BitStream) (u nbits : Z)
  : (Z * Z + goerror) * BitStream :=
  match fuel with
  | O => (inl (u, nbits), b)
  | S fuel =>
      if nbits >=? 8 then
        match ReadByte b with
        | (inr e, b) => (inr e, b)
        | (inl byt, b) => ReadBits_bytes fuel b (Z.lor (shl 64 u 8) byt) (nbits - 8)
        end
      else (inl (u, nbits), b)
  end.

Fixpoint ReadBits_bits (fuel : nat) (b : BitStream) (u nbits : Z)
  : (Z * Z + goerror) * BitStream :=
  match fuel with
  | O => (inl (u, nbits), b)
  | S fuel =>
      if nbits >? 0 then
        match ReadBit b with
        | (inr e, b) => (inr e, b)
        | (inl bit, b) =>
            let u := shl 64 u 1 in
            ReadBits_bits fuel b (if bit : bool then Z.lor u 1 else u) (nbits - 1)
        end
      else (inl (u, nbits), b)
  end.

Definition ReadBits (b : BitStream) (nbits : Z) : (Z + goerror) * BitStream :=
  match ReadBits_bytes (Z.to_nat nbits) b 0 nbits with
  | (inr e, b) => (inr e, b)
  | (inl (u, nbits), b) =>
      match ReadBits_bits (Z.to_nat nbits) b u nbits with
      | (inr e, b) => (inr e, b)
      | (inl (u, nbits), b) =>
          (inl u, mkBitStream (stream b) (count b) (bitsWritten b) (bitsRead b + nbits))
      end
  end.

(** [encoding/binary] big-endian of one byte, then the raw bytes. *)
Definition MarshalBinary (b : BitStream) : list Z := count b :: stream b.

Definition UnmarshalBinary (b : BitStream) (bIn : list Z) : option goerror * BitStream :=
  match bIn with
  | [] => (Some EOF, b)
  | c :: s => (None, mkBitStream s c (bitsWritten b) (bitsRead b))
  end.

(** ** The writer as an append-only bit sequence *)

(** [written b bs]: the writer [b] holds exactly the bits [bs]; the
    [count] free bits of its last byte are zero. *)
Definition written (b : BitStream) (bs : list bool) : Prop :=
  Forall (in_width 8) (stream b) /\ 0 <= count b <= 8 /\
  bytes_bits (stream b) = bs ++ replicate (Z.to_nat (count b)) false.

Lemma written_NewBWriter : written NewBWriter [].
Proof. repeat split; simpl; by try lia. Qed.

Lemma written_fresh_byte (b : BitStream) (bs : list bool) :
  written b bs -> written (fresh_byte b) bs /\ 0 < count (fresh_byte b).
Proof.
  intros (Hf & Hc & Hb). unfold fresh_byte. case_if; [|split; [done|lia]].
  rewrite E in Hb. rewrite app_nil_r in Hb. split; [|done].
  split; [|split; [simpl; lia|]]; simpl.
  - apply Forall_app; split; [done|]. constructor; [unfold in_width; lia|constructor].
  - by rewrite bytes_bits_snoc, Hb.
Qed.

(** With room left, the last byte splits into its written bits and its
    zero tail. *)
Lemma written_last (b : BitStream) (bs : list bool) :
  written b bs -> 0 < count b ->
  exists l x y, stream b = l ++ [x] /\ in_width 8 x /\ Forall (in_width 8) l /\
    bs = bytes_bits l ++ y /\ length y = Z.to_nat (8 - count b) /\
    bits_of 8 x = y ++ replicate (Z.to_nat (count b)) false.
Proof.
  intros (Hf & Hc & Hb) Hpos. destruct (stream b) as [|x l _] using rev_ind.
  { apply (f_equal length) in Hb. rewrite length_app, length_replicate in Hb. simpl in Hb. lia. }
  apply Forall_app in Hf as [Hl Hx]. rewrite Forall_singleton in Hx.
  rewrite bytes_bits_snoc in Hb.
  assert (Hlen : length bs = (length (bytes_bits l) + Z.to_nat (8 - count b))%nat).
  { apply (f_equal length) in Hb. rewrite !length_app, length_replicate in Hb.
    rewrite length_bits_of in Hb. lia. }
  exists l, x, (drop (length (bytes_bits l)) bs).
  assert (Hbs : bs = bytes_bits l ++ drop (length (bytes_bits l)) bs).
  { rewrite <- (take_drop (length (bytes_bits l)) bs) at 1. f_equal.
    apply (f_equal (take (length (bytes_bits l)))) in Hb.
    rewrite take_app_length in Hb. rewrite take_app_le in Hb by lia. done. }
  split; [done|]. split; [exact Hx|]. split; [exact Hl|]. split; [exact Hbs|]. split.
  - rewrite length_drop. lia.
  - rewrite Hbs, <- app_assoc in Hb at 1. by apply app_inv_head in Hb.
Qed.

Lemma update_last_snoc (f : Z -> Z) (l : list Z) (x : Z) :
  update_last f (l ++ [x]) = Some (l ++ [f x]).
Proof.
  unfold update_last. destruct (l ++ [x]) eqn:E; [by destruct l|]. rewrite <- E.
  f_equal. rewrite length_app. simpl. replace (length l + 1 - 1)%nat with (length l + 0)%nat by lia.
  rewrite alter_app_r. done.
Qed.

(** Or-ing a word into the zero tail of a byte writes it there. *)
Lemma bits_of_or_tail (x z : Z) (y w : list bool) (c : nat) :
  bits_of 8 x = y ++ replicate c false ->
  bits_of 8 z = replicate (length y) false ++ w -> length w = c ->
  bits_of 8 (Z.lor x z) = y ++ w.
Proof. intros Hx Hz <-. by rewrite bits_of_lor, Hx, Hz, zip_orb. Qed.

Lemma u8_small (z : Z) : 0 <= z < 256 -> u8 z = z.
Proof. intros. by apply wrap_id. Qed.

Lemma WriteBit_written (b : BitStream) (bs : list bool) (bit : bool) :
  written b bs -> exists b', WriteBit b bit = Some b' /\ written b' (bs ++ [bit]).
Proof.
  intros Hw. unfold WriteBit. apply written_fresh_byte in Hw as [Hw Hpos].
  set (f := fresh_byte b) in *. clearbody f.
  pose proof Hw as (Hf & Hc & Hb).
  rewrite u8_small by lia. destruct bit; simpl.
  - destruct (written_last f bs Hw Hpos) as (l & x & y & Hs & Hx & Hl & -> & Hy & Hbx).
    rewrite Hs, update_last_snoc. simpl. eexists; split; [done|].
    split; [|split]; simpl; [|lia|].
    + apply Forall_app; split; [done|]. apply Forall_singleton.
      apply lor_in_width; [lia|done|]. by apply shl_in_width.
    + rewrite bytes_bits_snoc, <- !app_assoc. f_equal.
      erewrite bits_of_or_tail with (w := true :: replicate (Z.to_nat (count f - 1)) false);
        [|exact Hbx| |].
      * done.
      * unfold shl. if_false. unfold wrap. rewrite bits_of_mod by lia.
        rewrite bits_of_shiftl by lia. rewrite Hy.
        replace (8 - Z.to_nat (count f - 1))%nat with (Z.to_nat (8 - count f) + 1)%nat by lia.
        by rewrite bits_of_1, <- app_assoc.
      * simpl. rewrite length_replicate. lia.
  - eexists; split; [done|]. split; [done|]. split; simpl; [lia|].
    rewrite Hb, <- app_assoc. f_equal.
    replace (Z.to_nat (count f)) with (S (Z.to_nat (count f - 1))) by lia. done.
Qed.

Lemma WriteByte_written (b : BitStream) (bs : list bool) (byt : Z) :
  written b bs -> in_width 8 byt ->
  exists b', WriteByte b byt = Some b' /\ written b' (bs ++ bits_of 8 byt).
Proof.
  intros Hw Hbyt. unfold WriteByte. apply written_fresh_byte in Hw as [Hw Hpos].
  set (f := fresh_byte b) in *. clearbody f. pose proof Hw as (Hf & Hc & Hb).
  destruct (written_last f bs Hw Hpos) as (l & x & y & Hs & Hx & Hl & -> & Hy & Hbx).
  rewrite Hs, update_last_snoc, u8_small by lia. simpl. eexists; split; [done|].
  split; [|split]; simpl; [|lia|].
  - apply Forall_app; split; [apply Forall_app; split; [done|]|];
      apply Forall_singleton; [|by apply shl_in_width].
    apply lor_in_width; [lia|done|]. apply shr_in_width; [lia|done].
  - rewrite !bytes_bits_snoc, <- !app_assoc. f_equal.
    assert (Hsplit : bits_of 8 byt = bits_of (Z.to_nat (count f)) (Z.shiftr byt (8 - count f))
                     ++ bits_of (Z.to_nat (8 - count f)) byt).
    { replace 8%nat with (Z.to_nat (count f) + Z.to_nat (8 - count f))%nat at 1 by lia.
      rewrite bits_of_app. do 3 f_equal. lia. }
    rewrite Hsplit, <- app_assoc.
    erewrite bits_of_or_tail with (w := bits_of (Z.to_nat (count f)) (Z.shiftr byt (8 - count f)));
      [|exact Hbx| |apply length_bits_of].
    + rewrite <- !app_assoc. do 2 f_equal. unfold shl. case_if.
      * replace (count f) with 8 by lia. done.
      * unfold wrap. rewrite bits_of_mod by lia. rewrite bits_of_shiftl by lia.
        do 2 f_equal; lia.
    + unfold shr. if_false. rewrite Hy.
      replace 8%nat with (Z.to_nat (8 - count f) + Z.to_nat (count f))%nat at 1 by lia.
      apply bits_of_small. rewrite Z2Nat.id by lia. unfold in_width in *.
      rewrite Z.shiftr_div_pow2 by lia. pose proof (pow2_pos (8 - count f) ltac:(lia)).
      split; [apply Z.div_pos; lia|]. apply Z.div_lt_upper_bound; [lia|].
      rewrite <- Z.pow_add_r by lia. replace (8 - count f + count f) with 8 by lia. lia.
Qed.

Lemma WriteBytes_written (l : list Z) (b : BitStream) (bs : list bool) :
  written b bs -> Forall (in_width 8) l ->
  exists b', WriteBytes b l = Some b' /\ written b' (bs ++ bytes_bits l).
Proof.
  revert b bs. induction l as [|x l IH]; intros b bs Hw Hl; simpl.
  - exists b. by rewrite app_nil_r.
  - apply Forall_cons in Hl as [Hx Hl].
    destruct (WriteByte_written b bs x Hw Hx) as (b1 & -> & Hw1). simpl.
    destruct (IH b1 _ Hw1 Hl) as (b2 & -> & Hw2). exists b2. split; [done|].
    by rewrite bytes_bits_cons, app_assoc.
Qed.

Lemma bits_of_64_top (k : nat) (u : Z) :
  (k <= 64)%nat -> in_width 64 u ->
  exists l, bits_of 64 u = bits_of k (shr 64 u (64 - Z.of_nat k)) ++ l /\
    bits_of 64 (shl 64 u (Z.of_nat k)) = l ++ replicate k false /\ length l = (64 - k)%nat.
Proof.
  intros Hk Hu. exists (bits_of (64 - k) u).
  split; [|split; [|apply length_bits_of]].
  - replace 64%nat with (k + (64 - k))%nat at 1 by lia. rewrite bits_of_app.
    f_equal. unfold shr. case_if.
    + assert (k = 0)%nat as -> by lia. done.
    + do 2 f_equal. lia.
  - unfold shl. case_if.
    + assert (k = 64)%nat as -> by lia. done.
    + unfold wrap. rewrite bits_of_mod by lia. rewrite bits_of_shiftl by lia.
      by rewrite Nat2Z.id.
Qed.

Lemma WriteBits_bytes_written (fuel : nat) (b : BitStream) (bs : list bool) (u n : Z) :
  written b bs -> in_width 64 u -> 0 <= n <= 64 -> (Z.to_nat n <= fuel)%nat ->
  exists b' u' n' bs1, WriteBits_bytes fuel b u n = Some (b', u', n') /\
    written b' (bs ++ bs1) /\ in_width 64 u' /\ 0 <= n' < 8 /\
    take (Z.to_nat n) (bits_of 64 u) = bs1 ++ take (Z.to_nat n') (bits_of 64 u').
Proof.
  revert b bs u n. induction fuel as [|fuel IH]; intros b bs u n Hw Hu Hn Hf; simpl.
  { exists b, u, n, []. rewrite app_nil_r. split_and!; (done || lia). }
  case_if; [|exists b, u, n, []; rewrite app_nil_r; split_and!; (done || lia)].
  assert (Hsr : in_width 8 (shr 64 u 56)).
  { unfold shr. if_false. unfold in_width in *. rewrite Z.shiftr_div_pow2 by lia.
    split; [apply Z.div_pos; lia|apply Z.div_lt_upper_bound; lia]. }
  rewrite (wrap_id 8) by done.
  destruct (WriteByte_written b bs _ Hw Hsr) as (b1 & -> & Hw1). simpl.
  destruct (bits_of_64_top 8 u ltac:(lia) Hu) as (l & H1 & H2 & Hl).
  change (64 - Z.of_nat 8) with 56 in H1. change (Z.of_nat 8) with 8 in H2.
  destruct (IH b1 _ (shl 64 u 8) (n - 8) Hw1) as (b2 & u2 & n2 & bs2 & -> & Hw2 & Hu2 & Hn2 & Ht);
    [by apply shl_in_width|lia|lia|].
  exists b2, u2, n2, (bits_of 8 (shr 64 u 56) ++ bs2).
  rewrite app_assoc. split_and!; try (done || lia).
  rewrite H1, take_app_ge by (rewrite length_bits_of; lia). rewrite <- app_assoc. f_equal.
  rewrite <- Ht, H2, length_bits_of, take_app_le by lia. f_equal. lia.
Qed.

Lemma shr_63_bit (u : Z) : in_width 64 u -> bits_of 1 (shr 64 u 63) = [shr 64 u 63 =? 1].
Proof.
  intros [H0 H1]. unfold shr. if_false. rewrite Z.shiftr_div_pow2 by lia.
  assert (0 <= u / 2 ^ 63 < 2).
  { split; [apply Z.div_pos; lia|apply Z.div_lt_upper_bound; lia]. }
  set (q := u / 2 ^ 63) in *. assert (q = 0 \/ q = 1) as [->| ->] by lia; done.
Qed.

Lemma WriteBits_bits_written (fuel : nat) (b : BitStream) (bs : list bool) (u n : Z) :
  written b bs -> in_width 64 u -> 0 <= n < 8 -> (Z.to_nat n <= fuel)%nat ->
  exists b' u', WriteBits_bits fuel b u n = Some (b', u', 0) /\
    written b' (bs ++ take (Z.to_nat n) (bits_of 64 u)).
Proof.
  revert b bs u n. induction fuel as [|fuel IH]; intros b bs u n Hw Hu Hn Hf; cbn [WriteBits_bits].
  { assert (n = 0) by lia. subst n. exists b, u. split; [done|].
    change (Z.to_nat 0) with 0%nat. rewrite take_0, app_nil_r. exact Hw. }
  case_if; bool_to_prop.
  2: { assert (n = 0) by lia. subst n. exists b, u. split; [done|].
       change (Z.to_nat 0) with 0%nat. rewrite take_0, app_nil_r. exact Hw. }
  destruct (WriteBit_written b bs (shr 64 u 63 =? 1) Hw) as (b1 & -> & Hw1). simpl.
  destruct (bits_of_64_top 1 u ltac:(lia) Hu) as (l & H1 & H2 & Hl).
  change (64 - Z.of_nat 1) with 63 in H1. change (Z.of_nat 1) with 1 in H2.
  rewrite shr_63_bit in H1 by done.
  destruct (IH b1 _ (shl 64 u 1) (n - 1) Hw1) as (b2 & u2 & -> & Hw2);
    [by apply shl_in_width|lia|lia|].
  exists b2, u2. split; [done|]. rewrite <- app_assoc in Hw2.
  rewrite H1. rewrite H2, take_app_le in Hw2 by lia.
  replace (Z.to_nat n) with (S (Z.to_nat (n - 1))) by lia. exact Hw2.
Qed.

(** Writing [n] bits of a word appends its low [n] bits. *)
Lemma WriteBits_written (b : BitStream) (bs : list bool) (u n : Z) :
  written b bs -> 0 <= n <= 64 ->
  exists b', WriteBits b u n = Some b' /\ written b' (bs ++ bits_of (Z.to_nat n) u).
Proof.
  intros Hw Hn. unfold WriteBits. rewrite wrap_id by (unfold in_width; lia).
  assert (Hbits : take (Z.to_nat n) (bits_of 64 (shl 64 u (64 - n))) = bits_of (Z.to_nat n) u).
  { unfold shl. case_if.
    - assert (n = 0) as -> by lia. done.
    - unfold wrap. rewrite bits_of_mod, bits_of_shiftl by lia.
      replace (64 - Z.to_nat (64 - n))%nat with (Z.to_nat n) by lia.
      rewrite take_app_le, take_ge by (rewrite length_bits_of; lia). done. }
  edestruct (WriteBits_bytes_written (Z.to_nat n) b bs (shl 64 u (64 - n)) n)
    as (b1 & u1 & n1 & bs1 & -> & Hw1 & Hu1 & Hn1 & Ht); [done|by apply shl_in_width|lia|lia|].
  simpl. destruct (WriteBits_bits_written (Z.to_nat n1) b1 (bs ++ bs1) u1 n1)
    as (b2 & u2 & -> & Hw2); [done..|lia|lia|].
  simpl. eexists. split; [done|]. rewrite <- Hbits, Ht, app_assoc. exact Hw2.
Qed.

#[export] Hint Resolve written_NewBWriter : cadent.

(** ** The reader as a queue of bits *)

(** [readable b bs]: the unread bits of [b] are [bs].  The head byte
    holds its [count] unread bits at the top, zeros below. *)
Definition readable (b : BitStream) (bs : list bool) : Prop :=
  Forall (in_width 8) (stream b) /\ 0 <= count b <= 8 /\
  match stream b with
  | [] => bs = []
  | x :: tl =>
      exists y, length y = Z.to_nat (count b) /\ bs = y ++ bytes_bits tl /\
        (0 < count b -> bits_of 8 x = y ++ replicate (8 - Z.to_nat (count b)) false)
  end.

Lemma readable_NewBReader (l : list Z) :
  Forall (in_width 8) l -> readable (NewBReader l) (bytes_bits l).
Proof.
  intros Hl. split; [done|]. split; [simpl; lia|]. destruct l as [|x l]; [done|].
  exists (bits_of 8 x). by rewrite length_bits_of, app_nil_r.
Qed.

Lemma bits_of_8_inj (x y : Z) :
  in_width 8 x -> in_width 8 y -> bits_of 8 x = bits_of 8 y -> x = y.
Proof.
  intros Hx Hy H. apply Z.bits_inj'. intros i Hi. destruct (Z.lt_ge_cases i 8).
  - apply (bits_of_inj 8 x y H). lia.
  - by rewrite (testbit_high 8 x), (testbit_high 8 y).
Qed.

(** A stream whose cursor is at the end of its head byte reads like the
    stream that starts at the next byte. *)
Lemma readable_next (b : BitStream) (bs : list bool) :
  readable b bs -> count b = 0 ->
  match stream b with
  | [] => bs = []
  | _ :: tl => Forall (in_width 8) tl /\ bs = bytes_bits tl
  end.
Proof.
  intros (Hf & _ & H) Hc. destruct (stream b) as [|x tl]; [done|].
  destruct H as (y & Hy & -> & _). rewrite Hc in Hy. apply nil_length_inv in Hy as ->.
  by apply Forall_cons in Hf as [_ Hf].
Qed.

Lemma head_bit (x : Z) (bit : bool) (l : list bool) :
  bits_of 8 x = bit :: l -> in_width 8 x ->
  negb (Z.land x 128 =? 0) = bit /\ bits_of 8 (shl 8 x 1) = l ++ [false].
Proof.
  change (bits_of 8 x) with (Z.testbit x 7 :: bits_of 7 x).
  intros H Hx. assert (Z.testbit x 7 = bit) as <- by congruence.
  assert (H2 : bits_of 7 x = l) by congruence. split.
  - replace (Z.land x 128) with (if Z.testbit x 7 then 128 else 0).
    { by destruct (Z.testbit x 7). }
    apply Z.bits_inj'. intros i Hi. rewrite Z.land_spec.
    change 128 with (2 ^ 7). destruct (decide (i = 7)) as [->|].
    + rewrite Z.pow2_bits_true by lia. destruct (Z.testbit x 7); done.
    + rewrite (Z.pow2_bits_false 7 i) by lia. rewrite andb_false_r.
      destruct (Z.testbit x 7); [by apply Z.pow2_bits_false|apply Z.testbit_0_l].
  - unfold shl. if_false. unfold wrap. rewrite bits_of_mod, bits_of_shiftl by lia.
    by rewrite <- H2.
Qed.

Lemma ReadBit_readable (b : BitStream) (bit : bool) (bs : list bool) :
  readable b (bit :: bs) -> exists b', ReadBit b = (inl bit, b') /\ readable b' bs.
Proof.
  intros Hr. unfold ReadBit. destruct (decide (count b = 0)) as [Hc|Hc].
  - pose proof (readable_next b _ Hr Hc) as Hn. rewrite Hc. simpl.
    destruct (stream b) as [|x tl]; [done|]. destruct Hn as [Hf Hb].
    destruct tl as [|z tl]; [done|]. apply Forall_cons in Hf as [Hz Hf].
    rewrite bytes_bits_cons in Hb.
    destruct (bits_of 8 z) as [|b0 l] eqn:Ez; [done|]. injection Hb as <- ->.
    destruct (head_bit z bit l Ez Hz) as [Hhd Htl]. rewrite Hhd.
    change (u8 (8 - 1)) with 7.
    eexists; split; [done|]. split; [|split; [simpl; lia|]].
    + constructor; [by apply shl_in_width|done].
    + apply (f_equal length) in Ez. rewrite length_bits_of in Ez. simpl in Ez.
      exists l. simpl. split; [lia|]. split; [done|].
      intros _. by rewrite Htl.
  - destruct Hr as (Hf & Hcr & Hb). rewrite (proj2 (Z.eqb_neq _ _) Hc).
    destruct (stream b) as [|x tl]; [done|]. destruct Hb as (y & Hy & Hbs & Hx).
    apply Forall_cons in Hf as [Hxw Hf]. specialize (Hx ltac:(lia)).
    destruct y as [|b0 y]; [simpl in Hy; lia|]. injection Hbs as <- ->.
    destruct (head_bit x bit _ Hx Hxw) as [Hhd Htl]. rewrite Hhd, u8_small by lia.
    eexists; split; [done|]. split; [|split; [simpl; lia|]].
    + constructor; [by apply shl_in_width|done].
    + simpl in Hy |- *. exists y. split; [lia|]. split; [done|].
      intros _. rewrite Htl, <- app_assoc. f_equal.
      replace (8 - Z.to_nat (count b - 1))%nat with ((8 - Z.to_nat (count b)) + 1)%nat by lia.
      by rewrite replicate_add.
Qed.

Lemma ReadBit_eof (b : BitStream) :
  readable b [] -> exists b', ReadBit b = (inr EOF, b') /\ readable b' [].
Proof.
  intros Hr. unfold ReadBit. pose proof Hr as (Hf & Hcr & Hb).
  destruct (stream b) as [|x tl] eqn:Es.
  { eexists; split; [done|]. exact Hr. }
  destruct Hb as (y & Hy & Hbs & Hx). symmetry in Hbs. apply app_nil in Hbs as [-> Htl].
  simpl in Hy. assert (count b = 0) as -> by lia. simpl.
  destruct tl as [|z tl]; [|by rewrite bytes_bits_cons in Htl].
  eexists; split; [done|]. split; [done|]. by split; [simpl; lia|].
Qed.

Lemma ReadByte_readable (b : BitStream) (v : Z) (bs : list bool) :
  readable b (bits_of 8 v ++ bs) -> in_width 8 v ->
  exists b', ReadByte b = (inl v, b') /\ readable b' bs.
Proof.
  intros Hr Hv. unfold ReadByte. destruct (decide (count b = 0)) as [Hc|Hc].
  - pose proof (readable_next b _ Hr Hc) as Hn. rewrite Hc. simpl.
    destruct (stream b) as [|x tl]; [done|]. destruct Hn as [Hf Hb].
    destruct tl as [|z tl]; [done|]. apply Forall_cons in Hf as [Hz Hf].
    rewrite bytes_bits_cons in Hb. apply app_inj_1 in Hb as [Hvz ->]; [|by rewrite !length_bits_of].
    apply bits_of_8_inj in Hvz as ->; [|done..]. eexists; split; [done|].
    split; [by constructor|]. split; [simpl; lia|]. exists []. by split_and!.
  - destruct Hr as (Hf & Hcr & Hb). rewrite (proj2 (Z.eqb_neq _ _) Hc).
    destruct (stream b) as [|x tl]; [done|]. destruct Hb as (y & Hy & Hbs & Hx).
    specialize (Hx ltac:(lia)). pose proof Hf as Hf'. apply Forall_cons in Hf as [Hxw Hf].
    case_if.
    + rewrite E in Hy, Hx. rewrite app_nil_r in Hx. subst y.
      apply app_inj_1 in Hbs as [Hvz ->]; [|by rewrite !length_bits_of].
      apply bits_of_8_inj in Hvz as ->; [|done..]. eexists; split; [done|].
      split; [done|]. split; [simpl; lia|]. exists []. by split_and!.
    + destruct tl as [|z tl].
      { apply (f_equal length) in Hbs. rewrite !length_app, length_bits_of in Hbs. simpl in Hbs. lia. }
      apply Forall_cons in Hf as [Hz Hf]. rewrite bytes_bits_cons in Hbs.
      set (c := count b) in *.
      assert (Hzs : bits_of 8 z = bits_of (8 - Z.to_nat c) (Z.shiftr z c) ++ bits_of (Z.to_nat c) z).
      { replace 8%nat with ((8 - Z.to_nat c) + Z.to_nat c)%nat at 1 by lia.
        rewrite bits_of_app, Z2Nat.id by lia. done. }
      assert (Hor : bits_of 8 (Z.lor x (shr 8 z c)) = y ++ bits_of (8 - Z.to_nat c) (Z.shiftr z c)).
      { eapply bits_of_or_tail; [exact Hx| |apply length_bits_of].
        unfold shr. if_false. rewrite Hy.
        replace 8%nat with (Z.to_nat c + (8 - Z.to_nat c))%nat at 1 by lia.
        apply bits_of_small. unfold in_width in *. rewrite Z.shiftr_div_pow2 by lia.
        pose proof (pow2_pos c ltac:(lia)). split; [apply Z.div_pos; lia|].
        apply Z.div_lt_upper_bound; [lia|]. rewrite <- Z.pow_add_r by lia.
        replace (c + Z.of_nat (8 - Z.to_nat c)) with 8 by lia. lia. }
      rewrite Hzs, <- (app_assoc (bits_of (8 - Z.to_nat c) _)), app_assoc in Hbs.
      apply app_inj_1 in Hbs as [Hvz ->];
        [|rewrite length_app, !length_bits_of; lia].
      rewrite <- Hor in Hvz. apply bits_of_8_inj in Hvz as ->;
        [|done|apply lor_in_width; [lia|done|apply shr_in_width; [lia|done]]].
      eexists; split; [done|]. split; [|split; [simpl; lia|]]; simpl.
      * constructor; [by apply shl_in_width|done].
      * exists (bits_of (Z.to_nat c) z). rewrite length_bits_of. split; [done|].
        split; [done|]. intros _. rewrite u8_small by lia. unfold shl. if_false.
        unfold wrap. rewrite bits_of_mod, bits_of_shiftl by lia. do 2 f_equal; lia.
Qed.

Lemma ReadByte_eof (b : BitStream) (bs : list bool) :
  readable b bs -> (length bs < 8)%nat ->
  exists b', ReadByte b = (inr EOF, b').
Proof.
  intros (Hf & Hcr & Hb) Hlen. unfold ReadByte.
  destruct (stream b) as [|x tl]; [by eexists|].
  destruct Hb as (y & Hy & -> & Hx). rewrite length_app, length_bytes_bits in Hlen.
  assert (tl = []) as -> by (destruct tl; [done|simpl in Hlen; lia]).
  case_if; [by eexists|]. if_false. by eexists.
Qed.

Lemma take_8_bits (l : list bool) :
  (8 <= length l)%nat ->
  exists v, in_width 8 v /\ l = bits_of 8 v ++ drop 8 l /\ Z_of_bits (take 8 l) = v.
Proof.
  intros Hl. exists (Z_of_bits (take 8 l)).
  assert (Hlen : length (take 8 l) = 8%nat) by (rewrite length_take; lia).
  split; [|split; [|done]].
  - pose proof (Z_of_bits_bound (take 8 l)) as H. rewrite Hlen in H. exact H.
  - pose proof (bits_of_Z_of_bits (take 8 l)) as H. rewrite Hlen in H.
    by rewrite H, take_drop.
Qed.

Lemma ReadBytes_loop_readable (l : list Z) (b : BitStream) (bs : list bool) (acc : list Z) :
  readable b (bytes_bits l ++ bs) -> Forall (in_width 8) l ->
  exists b', ReadBytes_loop (length l) b acc = (inl (acc ++ l), b') /\ readable b' bs.
Proof.
  revert b acc. induction l as [|x l IH]; intros b acc Hr Hl; simpl.
  { exists b. by rewrite app_nil_r. }
  apply Forall_cons in Hl as [Hx Hl]. rewrite bytes_bits_cons, <- app_assoc in Hr.
  destruct (ReadByte_readable b x _ Hr Hx) as (b1 & -> & Hr1).
  destruct (IH b1 (acc ++ [x]) Hr1 Hl) as (b2 & -> & Hr2). exists b2.
  by rewrite <- app_assoc.
Qed.

(** At a byte boundary [ReadBytes] returns the next bytes. *)
Lemma ReadBytes_readable (l rest : list Z) (b : BitStream) :
  stream b = l ++ rest -> count b = 8 -> l <> [] -> Forall (in_width 8) (l ++ rest) ->
  exists b', ReadBytes b (Z.of_nat (length l)) = (inl l, b') /\ readable b' (bytes_bits rest).
Proof.
  intros Hs Hc Hl Hf. unfold ReadBytes. rewrite Hs.
  rewrite length_app. destruct l as [|x l]; [done|]. simpl. if_false.
  change (S (length l)) with (length (x :: l)). rewrite Nat2Z.id.
  apply (ReadBytes_loop_readable (x :: l) b _ []); [|exact (proj1 (proj1 (Forall_app _ _ _) Hf))].
  rewrite <- bytes_bits_app. split; [by rewrite Hs|]. split; [lia|]. rewrite Hs. simpl.
  exists (bits_of 8 x). rewrite length_bits_of, Hc, app_nil_r. by split_and!.
Qed.

Lemma lor_shl_byte (u v : Z) :
  0 <= u < 2 ^ 56 -> in_width 8 v -> Z.lor (shl 64 u 8) v = u * 2 ^ 8 + v.
Proof.
  intros Hu Hv. unfold shl. if_false. unfold wrap.
  rewrite Z.shiftl_mul_pow2, Z.mod_small by lia.
  rewrite <- Z.shiftl_mul_pow2 by lia. symmetry.
  rewrite Z.add_nocarry_lxor, <- Z.lxor_lor; try done.
  all: apply Z.bits_inj'; intros i Hi; rewrite Z.land_spec, Z.testbit_0_l;
    destruct (Z.lt_ge_cases i 8);
    [by rewrite Z.shiftl_spec_low|by rewrite (testbit_high 8 v), andb_false_r].
Qed.

Lemma lor_shl_bit (u : Z) (bit : bool) :
  0 <= u < 2 ^ 63 ->
  (if bit then Z.lor (shl 64 u 1) 1 else shl 64 u 1) = u * 2 + Z.b2z bit.
Proof.
  intros Hu. unfold shl. if_false. unfold wrap.
  rewrite Z.shiftl_mul_pow2, Z.mod_small by lia. change (2 ^ 1) with 2.
  destruct bit; simpl Z.b2z; [|lia]. rewrite (Z.mul_comm u 2).
  rewrite <- Z.double_spec. destruct u; [done|done|lia].
Qed.

Lemma ReadBits_bytes_readable (fuel : nat) (b : BitStream) (l0 l bs : list bool) :
  readable b (l ++ bs) -> (length l0 + length l <= 64)%nat -> (length l <= fuel)%nat ->
  exists b' l1 l2, l = l1 ++ l2 /\ (length l2 < 8)%nat /\ readable b' (l2 ++ bs) /\
    ReadBits_bytes fuel b (Z_of_bits l0) (Z.of_nat (length l)) =
      (inl (Z_of_bits (l0 ++ l1), Z.of_nat (length l2)), b').
Proof.
  revert b l0 l. induction fuel as [|fuel IH]; intros b l0 l Hr Hlen Hf; simpl.
  { exists b, [], l. rewrite app_nil_r. split_and!; [done|lia|done|done]. }
  case_if; bool_to_prop.
  2: { exists b, [], l. rewrite app_nil_r. split_and!; [done|lia|done|done]. }
  destruct (take_8_bits l ltac:(lia)) as (v & Hv & Hl & Hz).
  rewrite Hl, <- app_assoc in Hr.
  destruct (ReadByte_readable b v _ Hr Hv) as (b1 & -> & Hr1).
  destruct (IH b1 (l0 ++ bits_of 8 v) (drop 8 l) Hr1)
    as (b2 & l1 & l2 & Hd & Hl2 & Hr2 & Heq);
    [rewrite length_app, length_bits_of, length_drop; lia|rewrite length_drop; lia|].
  exists b2, (bits_of 8 v ++ l1), l2. split_and!; [|done|done|].
  - etransitivity; [exact Hl|]. by rewrite Hd, app_assoc.
  - rewrite app_assoc, <- Heq. f_equal; [|rewrite length_drop; lia].
    pose proof (Z_of_bits_bound l0). rewrite lor_shl_byte; [|split; [lia|]|done].
    + rewrite Z_of_bits_app, length_bits_of, Z_of_bits_of.
      change (Z.of_nat 8) with 8. rewrite (Z.mod_small v) by done. lia.
    + eapply Z.lt_le_trans; [apply H|]. apply Z.pow_le_mono_r; lia.
Qed.

Lemma ReadBits_bits_readable (fuel : nat) (b : BitStream) (l0 l bs : list bool) :
  readable b (l ++ bs) -> (length l0 + length l <= 64)%nat -> (length l <= fuel)%nat ->
  exists b', readable b' bs /\
    ReadBits_bits fuel b (Z_of_bits l0) (Z.of_nat (length l)) = (inl (Z_of_bits (l0 ++ l), 0), b').
Proof.
  revert b l0 l. induction fuel as [|fuel IH]; intros b l0 l Hr Hlen Hf.
  { destruct l; [|simpl in Hf; lia]. exists b. by rewrite app_nil_r. }
  cbn [ReadBits_bits]. destruct l as [|bit l]; [exists b; by rewrite app_nil_r|].
  simpl in Hlen, Hf. rewrite Z.gtb_ltb, (proj2 (Z.ltb_lt 0 _)) by (simpl; lia). simpl in Hr.
  destruct (ReadBit_readable b bit _ Hr) as (b1 & -> & Hr1).
  destruct (IH b1 (l0 ++ [bit]) l Hr1) as (b2 & Hr2 & Heq);
    [rewrite length_app; simpl; lia|lia|].
  exists b2. split; [done|]. rewrite <- app_assoc in Heq. simpl in Heq. rewrite <- Heq.
  f_equal; [|simpl; lia]. pose proof (Z_of_bits_bound l0).
  rewrite lor_shl_bit.
  - rewrite Z_of_bits_app. destruct bit; done.
  - split; [lia|]. eapply Z.lt_le_trans; [apply H|]. apply Z.pow_le_mono_r; lia.
Qed.

(** Reading [n <= 64] bits returns the number they spell and consumes
    them. *)
Lemma ReadBits_readable (b : BitStream) (l bs : list bool) :
  readable b (l ++ bs) -> (length l <= 64)%nat ->
  exists b', ReadBits b (Z.of_nat (length l)) = (inl (Z_of_bits l), b') /\ readable b' bs.
Proof.
  intros Hr Hlen. unfold ReadBits. rewrite Nat2Z.id.
  destruct (ReadBits_bytes_readable (length l) b [] l bs Hr) as (b1 & l1 & l2 & -> & Hl2 & Hr1 & Heq);
    [simpl; lia|done|].
  change (Z_of_bits []) with 0 in Heq. rewrite Heq, Nat2Z.id.
  rewrite length_app in Hlen.
  destruct (ReadBits_bits_readable (length l2) b1 l1 l2 bs Hr1) as (b2 & Hr2 & Heq2); [lia|lia|].
  rewrite app_nil_l, Heq2. eexists. split; [done|exact Hr2].
Qed.

Lemma ReadBits_bits_eof (fuel : nat) (b : BitStream) (u n : Z) (bs : list bool) :
  readable b bs -> Z.of_nat (length bs) < n -> (Z.to_nat n <= fuel)%nat ->
  exists b', ReadBits_bits fuel b u n = (inr EOF, b').
Proof.
  revert b u n bs. induction fuel as [|fuel IH]; intros b u n bs Hr Hlen Hf; [lia|].
  cbn [ReadBits_bits]. rewrite Z.gtb_ltb, (proj2 (Z.ltb_lt 0 _)) by (simpl; lia). destruct bs as [|bit bs].
  - destruct (ReadBit_eof b Hr) as (b1 & -> & _). by eexists.
  - destruct (ReadBit_readable b bit bs Hr) as (b1 & -> & Hr1). simpl in Hlen.
    apply (IH b1 _ _ bs Hr1); lia.
Qed.

Lemma ReadBits_bytes_eof (fuel : nat) (b : BitStream) (u n : Z) (bs : list bool) :
  readable b bs -> Z.of_nat (length bs) < n -> (Z.to_nat n <= fuel)%nat ->
  match ReadBits_bytes fuel b u n with
  | (inr e, _) => e = EOF
  | (inl (_, n'), b') => exists bs', readable b' bs' /\ Z.of_nat (length bs') < n'
  end.
Proof.
  revert b u n bs. induction fuel as [|fuel IH]; intros b u n bs Hr Hlen Hf; [lia|].
  cbn [ReadBits_bytes]. case_if; bool_to_prop; [|by exists bs].
  destruct (decide (8 <= length bs)%nat) as [H8|H8].
  - destruct (take_8_bits bs H8) as (v & Hv & Hl & _). rewrite Hl in Hr.
    destruct (ReadByte_readable b v _ Hr Hv) as (b1 & -> & Hr1).
    apply (IH b1 _ _ _ Hr1); [rewrite length_drop|]; lia.
  - destruct (ReadByte_eof b bs Hr ltac:(lia)) as (b1 & ->). done.
Qed.

(** Asking for more bits than are left is an [io.EOF]. *)
Lemma ReadBits_eof (b : BitStream) (bs : list bool) (n : Z) :
  readable b bs -> Z.of_nat (length bs) < n -> exists b', ReadBits b n = (inr EOF, b').
Proof.
  intros Hr Hlen. unfold ReadBits.
  pose proof (ReadBits_bytes_eof (Z.to_nat n) b 0 n bs Hr Hlen ltac:(lia)) as H.
  destruct (ReadBits_bytes _ b 0 n) as [[[u n']|e] b1]; [|subst; by eexists].
  destruct H as (bs' & Hr' & Hl').
  destruct (ReadBits_bits_eof (Z.to_nat n') b1 u n' bs' Hr' Hl' ltac:(lia)) as (b2 & ->).
  by eexists.
Qed.

Lemma written_Bytes (b : BitStream) (bs : list bool) :
  written b bs ->
  Forall (in_width 8) (Bytes b) /\
  bytes_bits (Bytes b) = bs ++ replicate (Z.to_nat (count b)) false.
Proof. by intros (Hf & _ & Hb). Qed.

Lemma written_Clone (b : BitStream) (bs : list bool) : written b bs -> written (Clone b) bs.
Proof. done. Qed.

(** Reading back a field of [n] bits written from the word [u]. *)
Lemma ReadBits_field (b : BitStream) (u n : Z) (bs : list bool) :
  readable b (bits_of (Z.to_nat n) u ++ bs) -> 0 <= n <= 64 ->
  exists b', ReadBits b n = (inl (u mod 2 ^ n), b') /\ readable b' bs.
Proof.
  intros Hr Hn. destruct (ReadBits_readable b _ _ Hr) as (b' & Heq & Hr');
    [rewrite length_bits_of; lia|].
  rewrite length_bits_of, Z2Nat.id, Z_of_bits_of, Z2Nat.id in Heq by lia. by exists b'.
Qed.

(** Advance a reader over one bit, or over one field. *)
Tactic Notation "read_bit" hyp(H) "as" ident(H') :=
  let b := fresh "b" in let E := fresh "E" in
  cbn [app] in H; destruct (ReadBit_readable _ _ _ H) as (b & E & H'); rewrite E; clear E.
Tactic Notation "read_field" hyp(H) "as" ident(H') :=
  let b := fresh "b" in let E := fresh "E" in
  destruct (ReadBits_field _ _ _ _ H ltac:(lia)) as (b & E & H'); rewrite E; clear E.

(** Run one write whose specification is known. *)
Tactic Notation "write_bit" hyp(H) "as" ident(H') :=
  let b := fresh "b" in let E := fresh "E" in
  match goal with |- context [WriteBit _ ?bit] =>
    destruct (WriteBit_written _ _ bit H) as (b & E & H'); rewrite E; clear E;
    cbn [mbind option_bind] end.
Tactic Notation "write_field" hyp(H) "as" ident(H') :=
  let b := fresh "b" in let E := fresh "E" in
  match goal with |- context [WriteBits _ ?u ?n] =>
    destruct (WriteBits_written _ _ u n H ltac:(lia)) as (b & E & H'); rewrite E; clear E;
    cbn [mbind option_bind] end.

(** ** Theorems *)

(** ** Sequences of fields *)

(** A field is a word and the number of its low bits that are written. *)
Fixpoint WriteFields (b : BitStream) (fs : list (Z * Z)) : option BitStream :=
  match fs with
  | [] => Some b
  | (u, n) :: fs => b ← WriteBits b u n; WriteFields b fs
  end.

Fixpoint ReadFields (b : BitStream) (ns : list Z) : (list Z + goerror) * BitStream :=
  match ns with
  | [] => (inl [], b)
  | n :: ns =>
      match ReadBits b n with
      | (inr e, b) => (inr e, b)
      | (inl u, b) =>
          match ReadFields b ns with
          | (inr e, b) => (inr e, b)
          | (inl us, b) => (inl (u :: us), b)
          end
      end
  end.

Definition field_ok (f : Z * Z) : Prop := 0 <= f.2 <= 64.

Definition fields_bits (fs : list (Z * Z)) : list bool :=
  concat (map (fun f => bits_of (Z.to_nat f.2) f.1) fs).

Lemma WriteFields_written (fs : list (Z * Z)) (b : BitStream) (bs : list bool) :
  written b bs -> Forall field_ok fs ->
  exists b', WriteFields b fs = Some b' /\ written b' (bs ++ fields_bits fs).
Proof.
  revert b bs. induction fs as [|[u n] fs IH]; intros b bs Hw Hfs.
  { exists b. unfold fields_bits. simpl. by rewrite app_nil_r. }
  apply Forall_cons in Hfs as [Hn Hfs]. unfold field_ok in Hn. simpl in Hn.
  cbn [WriteFields]. write_field Hw as Hw1.
  destruct (IH _ _ Hw1 Hfs) as (b' & E & Hw2). exists b'. split; [done|].
  by rewrite <- app_assoc in Hw2.
Qed.

Lemma ReadFields_readable (fs : list (Z * Z)) (b : BitStream) (bs : list bool) :
  readable b (fields_bits fs ++ bs) -> Forall field_ok fs ->
  exists b', ReadFields b (map snd fs) = (inl (map (fun f => f.1 mod 2 ^ f.2) fs), b') /\
    readable b' bs.
Proof.
  revert b. induction fs as [|[u n] fs IH]; intros b Hr Hfs; [by exists b|].
  apply Forall_cons in Hfs as [Hn Hfs]. unfold field_ok in Hn. simpl in Hn.
  unfold fields_bits in Hr. simpl in Hr. rewrite <- app_assoc in Hr.
  cbn [map snd ReadFields]. read_field Hr as Hr1.
  destruct (IH _ Hr1 Hfs) as (b' & -> & Hr2). by exists b'.
Qed.

(** Writing any sequence of fields of at most 64 bits to an empty
    stream never panics, and a reader over its bytes gives back each
    field's low bits in order, across byte boundaries and leaves at
    most one byte of padding, all zero. *)
Theorem fields_roundtrip (fs : list (Z * Z)) :
  Forall field_ok fs ->
  exists b r pad, WriteFields NewBWriter fs = Some b /\
    ReadFields (NewBReader (Bytes b)) (map snd fs) =
      (inl (map (fun f => f.1 mod 2 ^ f.2) fs), r) /\
    readable r (replicate pad false) /\ (pad <= 8)%nat.
Proof.
  intros Hfs.
  destruct (WriteFields_written fs NewBWriter [] written_NewBWriter Hfs) as (b & E & Hw).
  destruct (written_Bytes b _ Hw) as [Hd Hbits]. rewrite app_nil_l in Hbits.
  pose proof (readable_NewBReader _ Hd) as Hr. rewrite Hbits in Hr.
  destruct (ReadFields_readable _ _ _ Hr Hfs) as (r & Er & Hr').
  exists b, r, (Z.to_nat (count b)). split_and!; try done. destruct Hw as (_ & Hc & _). lia.
Qed.

Lemma fields_roundtrip_witness :
  exists b r pad, WriteFields NewBWriter [(5, 3); (300, 9); (-1, 64)] = Some b /\
    ReadFields (NewBReader (Bytes b)) [3; 9; 64] = (inl [5; 300; 2 ^ 64 - 1], r) /\
    readable r (replicate pad false) /\ (pad <= 8)%nat.
Proof.
  apply (fields_roundtrip [(5, 3); (300, 9); (-1, 64)]).
  repeat (constructor; [split; apply Z.leb_le; reflexivity|]). constructor.
Defined.

(** Reading more bits than a reader has left is reported as the end
    of the data, never as a value and never as a panic. *)
Theorem ReadBits_past_end (data : list Z) (n : Z) :
  Forall (in_width 8) data -> 8 * Z.of_nat (length data) < n ->
  exists b', ReadBits (NewBReader data) n = (inr EOF, b').
Proof.
  intros Hd Hn. apply (ReadBits_eof _ (bytes_bits data)); [by apply readable_NewBReader|].
  rewrite length_bytes_bits. lia.
Qed.

Lemma ReadBits_past_end_witness : exists b', ReadBits (NewBReader [255; 1]) 17 = (inr EOF, b').
Proof.
  apply (ReadBits_past_end [255; 1] 17); [|reflexivity].
  repeat (constructor; [split; [apply Z.leb_le|apply Z.ltb_lt]; reflexivity|]). constructor.
Defined.

(** The slice a reader was given, after it went from one state to another:
    the bytes it has dropped, as they were when it dropped them, and the
    rest, whose first byte has been shifted. *)
Definition array_after (b b' : BitStream) : list Z :=
  take (length (stream b) - length (stream b')) (stream b) ++ stream b'.

Example reading_spoils_bytes :
  let b := NewBReader [171; 205] in
  let '(r, b') := ReadBits b 4 in
  r = inl 10 /\ array_after b b' = [176; 205] /\ (ReadBits (NewBReader (array_after b b')) 4).1 = inl 11.
Proof. vm_compute. done. Qed.

(** The branchy leading- and trailing-zero counts are the
    mathematical ones on every non-zero 64-bit word: [Clz x] is
    [63 - log2 x], and [Ctz x] is the number of the lowest bit set. *)
Theorem Clz_Ctz_exact (x : Z) :
  in_width 64 x -> x <> 0 ->
  Clz x = 63 - Z.log2 x /\ Z.testbit x (Ctz x) = true /\
  forall i, 0 <= i < Ctz x -> Z.testbit x i = false.
Proof.
  intros Hx Hne. unfold in_width in Hx. destruct (Ctz_spec x ltac:(lia)) as (Hc & Hz & Hodd).
  split; [apply Clz_log2; lia|]. split.
  - by apply Z.testbit_true; [lia|].
  - intros i Hi. rewrite <- (Z.mod_pow2_bits_low x (Ctz x) i) by lia.
    by rewrite Hz, Z.bits_0.
Qed.

Lemma Clz_Ctz_exact_witness :
  Clz 40 = 63 - Z.log2 40 /\ Z.testbit 40 (Ctz 40) = true /\
  forall i, 0 <= i < Ctz 40 -> Z.testbit 40 i = false.
Proof. apply (Clz_Ctz_exact 40); [split; reflexivity || discriminate|discriminate]. Defined.
