(* ===== verification/Float64.v ===== *)
(** Go's [float64]: IEEE 754 binary64 values represented by their bit
    patterns, as [math.Float64bits] gives them, with comparison,
    conversion and arithmetic.  Arithmetic goes through the Standard
    Library's executable specification [SpecFloat]; comparison is on the
    sign-magnitude order of the patterns. *)
From Stdlib Require Import Floats.SpecFloat.
From S2P Require Import Prelude Bits.

(** A float64 is its 64-bit pattern: [math.Float64bits] and
    [math.Float64frombits] are the identity on this representation. *)
Definition float64 := Z.

Definition Float64bits (f : float64) : Z := f.
Definition Float64frombits (b : Z) : float64 := b.

Definition exp_field (f : float64) : Z := (f / 2 ^ 52) mod 2 ^ 11.
Definition frac_field (f : float64) : Z := f mod 2 ^ 52.
Definition signbit (f : float64) : bool := 2 ^ 63 <=? f.

(** [math.IsNaN], [math.IsInf(f, 0)]. *)
Definition IsNaN (f : float64) : bool := (exp_field f =? 2047) && negb (frac_field f =? 0).
Definition IsInf (f : float64) : bool := (exp_field f =? 2047) && (frac_field f =? 0).

(** [math.NaN()]. *)
Definition NaN : float64 := 0x7FF8000000000001.

(** The order key of a pattern: its magnitude with its sign, so that
    both zeros have key 0. *)
Definition fkey (f : float64) : Z := if signbit f then 2 ^ 63 - f else f.

(** Go's [<], [>], [==] and [!=] on float64. *)
Definition flt (x y : float64) : bool :=
  negb (IsNaN x) && negb (IsNaN y) && (fkey x <? fkey y).
Definition fgt (x y : float64) : bool := flt y x.
Definition feq (x y : float64) : bool :=
  negb (IsNaN x) && negb (IsNaN y) && (fkey x =? fkey y).

(** Conversion of an integer to the nearest float64, ties to even. *)
Definition float_of_Z (n : Z) : float64 :=
  if n =? 0 then 0 else
  let m := Z.abs n in
  let e := Z.log2 m in
  let q :=
    if e <=? 52 then m * 2 ^ (52 - e)
    else
      let q := m / 2 ^ (e - 52) in
      let r := m mod 2 ^ (e - 52) in
      let half := 2 ^ (e - 53) in
      if (half <? r) || ((half =? r) && Z.odd q) then q + 1 else q in
  (if n <? 0 then 2 ^ 63 else 0) + (e + 1023) * 2 ^ 52 + (q - 2 ^ 52).

(** Truncation toward zero, for the conversions to integer types; the
    result for a NaN, an infinity or a value out of the target's range is
    implementation-defined in Go and is not relied on. *)
Definition trunc (f : float64) : Z :=
  let e := exp_field f - 1075 in
  let m := frac_field f + (if exp_field f =? 0 then 0 else 2 ^ 52) in
  let v := if 0 <=? e then m * 2 ^ e else m / 2 ^ (- e) in
  if signbit f then - v else v.

Definition uint32_of_float (f : float64) : Z := u32 (trunc f).
Definition int64_of_float (f : float64) : Z := i64 (trunc f).

(** Patterns to and from the executable specification. *)
Definition decode (f : float64) : spec_float :=
  let s := signbit f in
  let m := frac_field f in
  if exp_field f =? 2047 then (if m =? 0 then S754_infinity s else S754_nan)
  else if exp_field f =? 0 then
    match m with Zpos p => S754_finite s p (-1074) | _ => S754_zero s end
  else
    match m + 2 ^ 52 with
    | Zpos p => S754_finite s p (exp_field f - 1075)
    | _ => S754_nan
    end.

Definition with_sign (s : bool) (b : Z) : float64 := (if s then 2 ^ 63 else 0) + b.

Definition encode (x : spec_float) : float64 :=
  match x with
  | S754_zero s => with_sign s 0
  | S754_infinity s => with_sign s (2047 * 2 ^ 52)
  | S754_nan => NaN
  | S754_finite s m e =>
      with_sign s (if Zpos m <? 2 ^ 52 then Zpos m
                   else (e + 1075) * 2 ^ 52 + (Zpos m - 2 ^ 52))
  end.

Definition fadd (x y : float64) : float64 := encode (SFadd 53 1024 (decode x) (decode y)).
Definition fsub (x y : float64) : float64 := encode (SFsub 53 1024 (decode x) (decode y)).
Definition fmul (x y : float64) : float64 := encode (SFmul 53 1024 (decode x) (decode y)).
Definition fdiv (x y : float64) : float64 := encode (SFdiv 53 1024 (decode x) (decode y)).
Definition fsqrt (x : float64) : float64 := encode (SFsqrt 53 1024 (decode x)).

#[global] Arguments IsNaN : simpl never.
#[global] Arguments IsInf : simpl never.
#[global] Arguments flt : simpl never.
#[global] Arguments feq : simpl never.
#[global] Arguments fadd : simpl never.
#[global] Arguments fsub : simpl never.
#[global] Arguments fmul : simpl never.
#[global] Arguments fdiv : simpl never.
#[global] Arguments float_of_Z : simpl never.
#[global] Arguments trunc : simpl never.

Example f_one : float_of_Z 1 = 0x3FF0000000000000. Proof. reflexivity. Qed.
Example f_add : fadd (float_of_Z 1) (float_of_Z 2) = float_of_Z 3. Proof. vm_compute. reflexivity. Qed.
Example f_div : fdiv (float_of_Z 1) (float_of_Z 3) = 0x3FD5555555555555. Proof. vm_compute. reflexivity. Qed.
Example f_sqrt : fsqrt (float_of_Z 2) = 0x3FF6A09E667F3BCD. Proof. vm_compute. reflexivity. Qed.
Example f_big : float_of_Z (2^53+1) = float_of_Z (2^53). Proof. vm_compute. reflexivity. Qed.
Example f_neg : trunc (float_of_Z (-5)) = -5. Proof. vm_compute. reflexivity. Qed.

(** ** Comparison *)

Lemma flt_irrefl (x : float64) : flt x x = false.
Proof. unfold flt. rewrite Z.ltb_irrefl. apply andb_false_r. Qed.

Lemma flt_trans (x y z : float64) : flt x y = true -> flt y z = true -> flt x z = true.
Proof.
  unfold flt. intros. bool_to_prop. repeat (apply andb_true_iff; split);
    try (by apply negb_true_iff). apply Z.ltb_lt. lia.
Qed.

Lemma flt_asym (x y : float64) : flt x y = true -> flt y x = false.
Proof.
  unfold flt. intros. bool_to_prop. apply andb_false_iff. right. apply Z.ltb_ge. lia.
Qed.

Lemma flt_NaN_l (x y : float64) : IsNaN x = true -> flt x y = false.
Proof. unfold flt. by intros ->. Qed.

Lemma flt_NaN_r (x y : float64) : IsNaN y = true -> flt x y = false.
Proof. unfold flt. intros ->. by rewrite andb_false_r. Qed.

Lemma IsNaN_NaN : IsNaN NaN = true.
Proof. reflexivity. Qed.

Lemma feq_refl (x : float64) : IsNaN x = false -> feq x x = true.
Proof. unfold feq. intros ->. simpl. apply Z.eqb_refl. Qed.

(** ** Integer conversions *)

(** The pattern of an integer that has at most 53 significant bits. *)
Lemma float_of_Z_fields (n : Z) :
  0 < n < 2 ^ 53 ->
  let e := Z.log2 n in
  exp_field (float_of_Z n) = e + 1023 /\
  frac_field (float_of_Z n) = n * 2 ^ (52 - e) - 2 ^ 52 /\
  signbit (float_of_Z n) = false.
Proof.
  intros Hn e. unfold float_of_Z. if_false. rewrite (Z.abs_eq n) by lia.
  pose proof (Z.log2_spec n ltac:(lia)) as [He1 He2]. fold e in He1, He2 |- *.
  assert (He : 0 <= e < 53).
  { split; [apply Z.log2_nonneg|]. apply Z.log2_lt_pow2; lia. }
  replace (e <=? 52) with true by (symmetry; bool_lia).
  replace (n <? 0) with false by (symmetry; bool_lia).
  rewrite Z.pow_succ_r in He2 by lia.
  assert (H52 : 2 ^ 52 = 2 ^ e * 2 ^ (52 - e)) by (rewrite <- Z.pow_add_r by lia; f_equal; lia).
  pose proof (pow2_pos (52 - e) ltac:(lia)).
  set (q := n * 2 ^ (52 - e)). assert (Hq : 2 ^ 52 <= q < 2 * 2 ^ 52) by nia.
  unfold exp_field, frac_field, signbit.
  replace (0 + (e + 1023) * 2 ^ 52 + (q - 2 ^ 52)) with ((q - 2 ^ 52) + (e + 1023) * 2 ^ 52) by lia.
  rewrite Z.div_add, Z.div_small, Z_mod_plus_full by lia.
  split_and!; [apply Z.mod_small; lia|apply Z.mod_small; lia|].
  apply Z.leb_gt. nia.
Qed.

(** An integer below 2^53 survives the conversion to float64 and back. *)
Lemma trunc_float_of_Z (n : Z) : 0 <= n < 2 ^ 53 -> trunc (float_of_Z n) = n.
Proof.
  intros Hn. destruct (decide (n = 0)) as [->|]; [reflexivity|].
  destruct (float_of_Z_fields n ltac:(lia)) as (Hexp & Hfrac & Hs).
  unfold trunc. rewrite Hexp, Hfrac, Hs.
  set (e := Z.log2 n) in *.
  assert (He : 0 <= e < 53).
  { split; [apply Z.log2_nonneg|]. apply Z.log2_lt_pow2; lia. }
  replace (e + 1023 =? 0) with false by (symmetry; bool_lia).
  rewrite Z.sub_add. replace (e + 1023 - 1075) with (e - 52) by lia. case_if.
  - replace e with 52 by lia. rewrite Z.sub_diag, Z.pow_0_r. lia.
  - replace (- (e - 52)) with (52 - e) by lia.
    apply Z.div_mul. pose proof (pow2_pos (52 - e) ltac:(lia)). lia.
Qed.

Lemma uint32_float_roundtrip (n : Z) : in_width 32 n -> uint32_of_float (float_of_Z n) = n.
Proof.
  intros Hn. unfold uint32_of_float, in_width in *.
  rewrite trunc_float_of_Z by lia. by apply wrap_id.
Qed.

Lemma int64_float_roundtrip (n : Z) :
  0 <= n < 2 ^ 53 -> int64_of_float (float_of_Z n) = n.
Proof.
  intros Hn. unfold int64_of_float. rewrite trunc_float_of_Z by done.
  apply swrap_id; lia.
Qed.

(** Every int64 converts to a 64-bit pattern. *)
Lemma float_of_Z_width (n : Z) : - 2 ^ 63 <= n <= 2 ^ 63 -> in_width 64 (float_of_Z n).
Proof.
  intros Hn. unfold float_of_Z. case_if; [done|].
  set (m := Z.abs n). assert (Hm : 0 < m <= 2 ^ 63) by lia.
  pose proof (Z.log2_spec m ltac:(lia)) as [He1 He2].
  assert (He : 0 <= Z.log2 m < 64).
  { split; [apply Z.log2_nonneg|]. apply Z.log2_lt_pow2; lia. }
  set (e := Z.log2 m) in *. rewrite Z.pow_succ_r in He2 by lia.
  match goal with |- in_width _ (_ + (?q - _)) => assert (Hq : 2 ^ 52 <= q <= 2 * 2 ^ 52) end.
  { case_if.
    - assert (H52 : 2 ^ 52 = 2 ^ e * 2 ^ (52 - e)) by (rewrite <- Z.pow_add_r by lia; f_equal; lia).
      pose proof (pow2_pos (52 - e) ltac:(lia)). nia.
    - assert (H52 : 2 ^ e = 2 ^ 52 * 2 ^ (e - 52)) by (rewrite <- Z.pow_add_r by lia; f_equal; lia).
      pose proof (pow2_pos (e - 52) ltac:(lia)).
      assert (2 ^ 52 <= m / 2 ^ (e - 52) < 2 * 2 ^ 52).
      { split; [apply Z.div_le_lower_bound; lia|apply Z.div_lt_upper_bound; lia]. }
      case_if; lia. }
  unfold in_width. destruct (n <? 0); lia.
Qed.

#[export] Hint Resolve float_of_Z_width : cadent.
