(* ===== verification/GoStrings.v ===== *)
(** The parts of Go's [strings] and [strconv] packages the sources use:
    [Split], [Join], [Replace], [HasPrefix] and the case mapping of ASCII
    letters. *)
From S2P Require Import Prelude.

(** [strings.Split s sep] for a non-empty [sep] (the only use in the
    sources): the pieces of [s] between the non-overlapping occurrences of
    [sep], found from left to right.  [skip] bytes of a separator just
    found remain to be passed over; [cur] is the piece being read. *)
Fixpoint split_from (sep : string) (skip : nat) (cur s : string) : list string :=
  match s with
  | EmptyString => [cur]
  | String c s' =>
      match skip with
      | S k => split_from sep k cur s'
      | O =>
          if String.prefix sep s
          then cur :: split_from sep (String.length sep - 1) "" s'
          else split_from sep 0 (cur +:+ String c "") s'
      end
  end.

Definition Split (s sep : string) : list string := split_from sep 0 "" s.

(** [strings.Join parts sep]. *)
Fixpoint Join (parts : list string) (sep : string) : string :=
  match parts with
  | [] => ""
  | [p] => p
  | p :: ps => p +:+ sep +:+ Join ps sep
  end.

Definition HasPrefix (s p : string) : bool := String.prefix p s.

(** [strings.Contains]. *)
Fixpoint Contains (s sub : string) : bool :=
  String.prefix sub s ||
  match s with
  | EmptyString => false
  | String _ s' => Contains s' sub
  end.

Lemma Contains_cons (c : Ascii.ascii) (s sub : string) :
  Contains (String c s) sub = String.prefix sub (String c s) || Contains s sub.
Proof. reflexivity. Qed.

(** [[]byte(s)]. *)
Definition string_bytes (s : string) : list Z :=
  (fun a => Z.of_N (Ascii.N_of_ascii a)) <$> String.list_ascii_of_string s.

(** ** Split and Join are inverse *)

Lemma string_app_cons (c : Ascii.ascii) (a b : string) : String c a +:+ b = String c (a +:+ b).
Proof. reflexivity. Qed.

Lemma string_app_assoc (a b c : string) : a +:+ (b +:+ c) = (a +:+ b) +:+ c.
Proof. induction a as [|x a IH]; [done|]. by rewrite !string_app_cons, IH. Qed.

Lemma string_app_nil_l (a : string) : "" +:+ a = a.
Proof. reflexivity. Qed.

Lemma string_app_nil_r (a : string) : a +:+ "" = a.
Proof. induction a as [|x a IH]; [done|]. by rewrite string_app_cons, IH. Qed.

Lemma string_length_app (a b : string) :
  String.length (a +:+ b) = (String.length a + String.length b)%nat.
Proof. induction a as [|x a IH]; [done|]. rewrite string_app_cons. simpl. by rewrite IH. Qed.

Lemma split_from_nonempty (sep : string) (skip : nat) (cur s : string) :
  split_from sep skip cur s <> [].
Proof.
  revert skip cur. induction s as [|c s IH]; intros skip cur; [done|]. simpl.
  destruct skip; [|apply IH]. destruct (match sep with "" => true | _ => _ end); [done|apply IH].
Qed.

Lemma prefix_split (p s : string) : String.prefix p s = true -> exists r, s = p +:+ r.
Proof.
  revert s. induction p as [|a p IH]; intros s H; [by exists s|].
  destruct s as [|b s]; [done|]. simpl in H. destruct (Ascii.ascii_dec a b) as [->|]; [|done].
  destruct (IH s H) as (r & ->). by exists r.
Qed.

(** Skipping a separator that is there. *)
Lemma split_from_skip (sep cur a r : string) (k : nat) :
  String.length a = k -> split_from sep k cur (a +:+ r) = split_from sep 0 cur r.
Proof.
  revert k. induction a as [|c a IH]; intros k <-; [done|]. rewrite string_app_cons. simpl. by apply IH.
Qed.

Lemma Join_cons (p : string) (ps : list string) (sep : string) :
  ps <> [] -> Join (p :: ps) sep = p +:+ sep +:+ Join ps sep.
Proof. by destruct ps. Qed.

Lemma Join_split_from (n : nat) (sep cur s : string) :
  sep <> ""%string -> (String.length s <= n)%nat ->
  Join (split_from sep 0 cur s) sep = cur +:+ s.
Proof.
  intros Hsep. revert cur s. induction n as [|n IH]; intros cur s Hn.
  { destruct s; [|simpl in Hn; lia]. simpl. by rewrite string_app_nil_r. }
  destruct s as [|c s]; [simpl; by rewrite string_app_nil_r|].
  cbn [split_from]. destruct (String.prefix sep (String c s)) eqn:E.
  - destruct (prefix_split _ _ E) as (r & Hr). destruct sep as [|a sep]; [done|].
    rewrite string_app_cons in Hr. injection Hr as <- ->. simpl String.length. rewrite Nat.sub_succ, Nat.sub_0_r.
    rewrite split_from_skip by done. rewrite Join_cons by apply split_from_nonempty.
    rewrite IH; [done|]. simpl in Hn. 
    rewrite string_length_app in Hn. lia.
  - rewrite IH by (simpl in Hn; lia). by rewrite <- string_app_assoc.
Qed.

Lemma Join_Split (s sep : string) : sep <> ""%string -> Join (Split s sep) sep = s.
Proof. intros Hsep. by apply (Join_split_from (String.length s)). Qed.

Lemma Split_inj (s s' sep : string) : sep <> ""%string -> Split s sep = Split s' sep -> s = s'.
Proof.
  intros Hsep H. by rewrite <- (Join_Split s sep), <- (Join_Split s' sep), H.
Qed.

Lemma Split_nonempty (s sep : string) : Split s sep <> [].
Proof. apply split_from_nonempty. Qed.

(** ** Single-byte separators *)

Fixpoint no_char (c : Ascii.ascii) (s : string) : bool :=
  match s with
  | EmptyString => true
  | String x s => negb (bool_decide (x = c)) && no_char c s
  end.

Definition sep1 (c : Ascii.ascii) : string := String c "".

Lemma split_from_no_char (c : Ascii.ascii) (cur s r : string) :
  no_char c s = true -> split_from (sep1 c) 0 cur (s +:+ r) = split_from (sep1 c) 0 (cur +:+ s) r.
Proof.
  revert cur. induction s as [|x s IH]; intros cur H; [by rewrite string_app_nil_r|].
  simpl in H. bool_to_prop. rewrite string_app_cons. cbn [split_from].
  rewrite bool_decide_eq_false in H. unfold sep1. cbn [String.prefix].
  destruct (Ascii.ascii_dec c x) as [->|_]; [done|]. rewrite IH by done.
  by rewrite <- string_app_assoc, string_app_cons.
Qed.

Lemma split_from_no_char_end (c : Ascii.ascii) (cur s : string) :
  no_char c s = true -> split_from (sep1 c) 0 cur s = [cur +:+ s].
Proof.
  intros H. rewrite <- (string_app_nil_r s) at 1. by rewrite split_from_no_char.
Qed.

Lemma Split_no_char (c : Ascii.ascii) (s : string) : no_char c s = true -> Split s (sep1 c) = [s].
Proof. intros H. unfold Split. by rewrite split_from_no_char_end. Qed.

Lemma prefix_nil (s : string) : String.prefix "" s = true.
Proof. by destruct s. Qed.

Lemma Split_Join (c : Ascii.ascii) (parts : list string) :
  parts <> [] -> Forall (fun p => no_char c p = true) parts ->
  Split (Join parts (sep1 c)) (sep1 c) = parts.
Proof.
  unfold Split. induction parts as [|p parts IH]; intros Hne Hf; [done|].
  apply Forall_cons in Hf as [Hp Hf]. destruct parts as [|p' parts].
  { simpl. by rewrite split_from_no_char_end. }
  rewrite Join_cons, split_from_no_char by done. unfold sep1 at 2. rewrite string_app_cons.
  cbn [split_from]. unfold sep1 at 1. cbn [String.prefix].
  destruct (Ascii.ascii_dec c c) as [_|]; [|done]. rewrite prefix_nil. f_equal. by apply IH.
Qed.

Lemma no_char_app (c : Ascii.ascii) (a b : string) :
  no_char c (a +:+ b) = no_char c a && no_char c b.
Proof.
  induction a as [|x a IH]; [done|]. rewrite string_app_cons. simpl. by rewrite IH, andb_assoc.
Qed.

Lemma Contains_no_char (c : Ascii.ascii) (s : string) :
  no_char c s = true -> Contains s (sep1 c) = false.
Proof.
  induction s as [|x s IH]; intros H; [done|]. simpl in H. bool_to_prop.
  rewrite bool_decide_eq_false in H. cbn [Contains]. rewrite IH by done. unfold sep1.
  cbn [String.prefix]. by destruct (Ascii.ascii_dec c x) as [->|].
Qed.

Lemma no_char_Join (c : Ascii.ascii) (parts : list string) (sep : string) :
  no_char c sep = true -> Forall (fun p => no_char c p = true) parts ->
  no_char c (Join parts sep) = true.
Proof.
  intros Hsep Hf. induction Hf as [|p parts Hp Hf IH]; [done|]. destruct parts as [|p' parts]; [done|].
  rewrite Join_cons by done. by rewrite !no_char_app, Hp, Hsep, IH.
Qed.

(** ** [strings.ToLower] on ASCII letters *)

Definition lower_ascii (a : Ascii.ascii) : Ascii.ascii :=
  let n := Ascii.N_of_ascii a in
  if ((65 <=? n) && (n <=? 90))%N then Ascii.ascii_of_N (n + 32) else a.

Fixpoint ToLower (s : string) : string :=
  match s with
  | EmptyString => ""
  | String a s => String (lower_ascii a) (ToLower s)
  end.

(** ** [strconv.FormatUint] and [strconv.ParseUint]

    Both take the base, between 2 and 36; numbers are 64-bit. *)

Definition digit36 (d : Z) : Ascii.ascii :=
  Ascii.ascii_of_N (Z.to_N (if d <? 10 then 48 + d else 87 + d)).

(** The digits of [n] in front of [acc]; the fuel bounds their number. *)
Fixpoint format_go (base : Z) (fuel : nat) (n : Z) (acc : string) : string :=
  match fuel with
  | O => acc
  | S fuel =>
      if n <? base then String (digit36 n) acc
      else format_go base fuel (n / base) (String (digit36 (n mod base)) acc)
  end.

(** Sixty-four digits are enough for 64 bits in every base. *)
Definition FormatUint (n base : Z) : string := format_go base 64 n "".

Definition value36 (a : Ascii.ascii) : option Z :=
  let c := Z.of_N (Ascii.N_of_ascii a) in
  if (48 <=? c) && (c <=? 57) then Some (c - 48)
  else if (97 <=? c) && (c <=? 122) then Some (c - 87)
  else if (65 <=? c) && (c <=? 90) then Some (c - 55)
  else None.

Fixpoint parse_go (base n : Z) (s : string) : option Z :=
  match s with
  | EmptyString => Some n
  | String a s =>
      d ← value36 a;
      if (d <? base) && (n * base + d <? 2 ^ 64) then parse_go base (n * base + d) s else None
  end.

(** [None] is the error: empty, not a number, or out of range. *)
Definition ParseUint (s : string) (base : Z) : option Z :=
  if bool_decide (s = ""%string) then None else parse_go base 0 s.

Lemma value_digit36 (d : Z) : 0 <= d < 36 -> value36 (digit36 d) = Some d.
Proof.
  intros Hd. unfold value36, digit36. rewrite Ascii.N_ascii_embedding by (case_if; lia).
  rewrite Z2N.id by (case_if; lia).
  destruct (d <? 10) eqn:E; bool_to_prop.
  - rewrite (proj2 (Z.leb_le 48 _)), (proj2 (Z.leb_le _ 57)) by lia. simpl. f_equal. lia.
  - rewrite (proj2 (Z.leb_le 48 _)), (proj2 (Z.leb_gt _ 57)) by lia. simpl.
    rewrite (proj2 (Z.leb_le 97 _)), (proj2 (Z.leb_le _ 122)) by lia. simpl. f_equal. lia.
Qed.

Lemma parse_format_go (base : Z) (fuel : nat) (n : Z) (acc : string) :
  2 <= base <= 36 -> 0 <= n < base ^ Z.of_nat fuel -> n < 2 ^ 64 -> (0 < fuel)%nat ->
  parse_go base 0 (format_go base fuel n acc) = parse_go base n acc.
Proof.
  intros Hb. revert n acc. induction fuel as [|fuel IH]; intros n acc Hn H64 Hf; [lia|].
  cbn [format_go]. destruct (n <? base) eqn:E; bool_to_prop.
  - cbn [parse_go]. rewrite value_digit36 by lia. cbn [mbind option_bind].
    by rewrite !(proj2 (Z.ltb_lt _ _)) by lia.
  - assert (Hq : n / base < base ^ Z.of_nat fuel).
    { apply Z.div_lt_upper_bound; [lia|]. rewrite <- Z.pow_succ_r by lia.
      replace (Z.succ (Z.of_nat fuel)) with (Z.of_nat (S fuel)) by lia. lia. }
    pose proof (Z.div_mod n base ltac:(lia)). pose proof (Z.mod_pos_bound n base ltac:(lia)).
    assert (1 <= n / base) by (apply Z.div_le_lower_bound; lia).
    assert (n / base <= n) by (apply Z.div_le_upper_bound; nia).
    rewrite IH; [|split; lia|lia|].
    + cbn [parse_go]. rewrite value_digit36 by lia. cbn [mbind option_bind].
      replace (n / base * base + n mod base) with n by lia. by rewrite !(proj2 (Z.ltb_lt _ _)) by lia.
    + destruct fuel; [|lia]. rewrite Z.pow_0_r in Hq. lia.
Qed.

Lemma format_go_nonempty (base : Z) (fuel : nat) (n : Z) (acc : string) :
  (0 < fuel)%nat -> exists a s, format_go base fuel n acc = String a s.
Proof.
  revert n acc. induction fuel as [|fuel IH]; intros n acc Hf; [lia|]. simpl.
  destruct (n <? base); [eauto|]. destruct fuel; [simpl; eauto|]. apply IH. lia.
Qed.

Lemma FormatUint_nonempty (n base : Z) : exists a s, FormatUint n base = String a s.
Proof. apply format_go_nonempty. lia. Qed.

Lemma Parse_Format (n base : Z) :
  2 <= base <= 36 -> in_width 64 n -> ParseUint (FormatUint n base) base = Some n.
Proof.
  intros Hb [H0 H64]. unfold ParseUint, FormatUint.
  destruct (format_go_nonempty base 64 n "" ltac:(lia)) as (a & s & E).
  rewrite bool_decide_false by (by rewrite E).
  apply (parse_format_go base 64 n ""); [done| |done|lia]. split; [done|].
  apply (Z.lt_le_trans _ _ _ H64). apply Z.pow_le_mono_l. lia.
Qed.

(** A property of characters that every digit has holds of a formatted
    number. *)
Fixpoint all_chars (P : Ascii.ascii -> bool) (s : string) : bool :=
  match s with
  | EmptyString => true
  | String a s => P a && all_chars P s
  end.

Lemma all_chars_app (P : Ascii.ascii -> bool) (s t : string) :
  all_chars P (s +:+ t) = all_chars P s && all_chars P t.
Proof.
  induction s as [|a s IH]; [done|]. rewrite string_app_cons. cbn [all_chars]. by rewrite IH, andb_assoc.
Qed.

Lemma all_chars_impl (P Q : Ascii.ascii -> bool) (s : string) :
  (forall a, P a = true -> Q a = true) -> all_chars P s = true -> all_chars Q s = true.
Proof.
  intros HPQ. induction s as [|a s IH]; [done|]. cbn [all_chars]. intros H. bool_to_prop.
  by rewrite HPQ, IH.
Qed.

Lemma format_go_chars (P : Ascii.ascii -> bool) (base : Z) (fuel : nat) (n : Z) (acc : string) :
  (forall d, 0 <= d < base -> P (digit36 d) = true) -> 2 <= base -> 0 <= n ->
  all_chars P acc = true -> all_chars P (format_go base fuel n acc) = true.
Proof.
  intros HP Hb. revert n acc. induction fuel as [|fuel IH]; intros n acc Hn Hacc; [done|]. cbn [format_go].
  destruct (n <? base) eqn:E; bool_to_prop.
  - cbn [all_chars]. by rewrite HP, Hacc by lia.
  - apply IH; [by apply Z.div_pos; lia|]. cbn [all_chars].
    by rewrite HP, Hacc by (apply Z.mod_pos_bound; lia).
Qed.

Lemma all_chars_no_char (c : Ascii.ascii) (s : string) :
  all_chars (fun a => negb (bool_decide (a = c))) s = no_char c s.
Proof. induction s as [|a s IH]; [done|]. cbn [all_chars no_char]. by rewrite IH. Qed.
