(* ===== verification/GoSort.v ===== *)
(** The order of strings and [sort.Sort]: the parts of Go's [strings] and
    [sort] packages the sources sort with. *)
From S2P Require Import Prelude GoStrings.

(** ** [strings.Compare]: lexicographic order on bytes *)

Fixpoint Compare (a b : string) : comparison :=
  match a, b with
  | EmptyString, EmptyString => Eq
  | EmptyString, String _ _ => Lt
  | String _ _, EmptyString => Gt
  | String x a, String y b =>
      match N.compare (Ascii.N_of_ascii x) (Ascii.N_of_ascii y) with
      | Eq => Compare a b
      | c => c
      end
  end.

Definition string_less (a b : string) : bool :=
  match Compare a b with Lt => true | _ => false end.

Lemma N_of_ascii_inj (x y : Ascii.ascii) : Ascii.N_of_ascii x = Ascii.N_of_ascii y -> x = y.
Proof. intros H. by rewrite <- (Ascii.ascii_N_embedding x), H, Ascii.ascii_N_embedding. Qed.

Lemma Compare_eq (a b : string) : Compare a b = Eq <-> a = b.
Proof.
  revert b. induction a as [|x a IH]; intros [|y b]; simpl; try done.
  destruct (N.compare_spec (Ascii.N_of_ascii x) (Ascii.N_of_ascii y)) as [H|H|H].
  - apply N_of_ascii_inj in H as ->. rewrite IH. split; [by intros ->|by intros [= ->]].
  - split; [done|]. intros [= -> _]. lia.
  - split; [done|]. intros [= -> _]. lia.
Qed.

Lemma Compare_antisym (a b : string) : Compare b a = CompOpp (Compare a b).
Proof.
  revert b. induction a as [|x a IH]; intros [|y b]; simpl; try done.
  rewrite N.compare_antisym. destruct (N.compare _ _); simpl; [apply IH|done|done].
Qed.

Lemma Compare_lt_trans (a b c : string) : Compare a b = Lt -> Compare b c = Lt -> Compare a c = Lt.
Proof.
  revert b c. induction a as [|x a IH]; intros [|y b] [|z c]; simpl; try done.
  destruct (N.compare_spec (Ascii.N_of_ascii x) (Ascii.N_of_ascii y)),
    (N.compare_spec (Ascii.N_of_ascii y) (Ascii.N_of_ascii z)),
    (N.compare_spec (Ascii.N_of_ascii x) (Ascii.N_of_ascii z)); try done; try lia. apply IH.
Qed.

(** ** [sort.Sort] *)

(** [less] is a strict weak order on the elements of [l]. *)
Record weak_order_on {A} (less : A -> A -> bool) (l : list A) : Prop := {
  wo_irrefl : forall x, x ∈ l -> less x x = false;
  wo_trans : forall x y z, x ∈ l -> y ∈ l -> z ∈ l ->
    less x y = true -> less y z = true -> less x z = true;
  wo_negtrans : forall x y z, x ∈ l -> y ∈ l -> z ∈ l ->
    less x y = false -> less y z = false -> less x z = false
}.

(** No element is less than an earlier one. *)
Definition sorted {A} (less : A -> A -> bool) (l : list A) : Prop :=
  forall i j x y, (i < j)%nat -> l !! i = Some x -> l !! j = Some y -> less y x = false.

(** What [sort.Sort] documents: the result is a permutation of the data,
    in ascending order when [Less] is a strict weak order.  It is not
    guaranteed to be stable. *)
Class GoSort := {
  sort_Sort : forall {A : Type}, (A -> A -> bool) -> list A -> list A;
  sort_perm : forall A (less : A -> A -> bool) l, sort_Sort less l ≡ₚ l;
  sort_sorted : forall A (less : A -> A -> bool) l,
    weak_order_on less l -> sorted less (sort_Sort less l)
}.

(** Insertion sort is such a sort. *)
Fixpoint insert_sorted {A} (less : A -> A -> bool) (x : A) (l : list A) : list A :=
  match l with
  | [] => [x]
  | y :: l => if less x y then x :: y :: l else y :: insert_sorted less x l
  end.

Definition insertion_sort {A} (less : A -> A -> bool) (l : list A) : list A :=
  foldr (insert_sorted less) [] l.

Lemma insert_sorted_perm {A} (less : A -> A -> bool) (x : A) (l : list A) :
  insert_sorted less x l ≡ₚ x :: l.
Proof.
  induction l as [|y l IH]; [done|]. simpl. destruct (less x y); [done|]. rewrite IH. constructor.
Qed.

Lemma insertion_sort_perm {A} (less : A -> A -> bool) (l : list A) : insertion_sort less l ≡ₚ l.
Proof.
  induction l as [|x l IH]; [done|]. simpl. by rewrite insert_sorted_perm, IH.
Qed.

Lemma weak_order_mono {A} (less : A -> A -> bool) (l l' : list A) :
  (forall x, x ∈ l' -> x ∈ l) -> weak_order_on less l -> weak_order_on less l'.
Proof. intros Hsub [H1 H2 H3]. constructor; eauto 10. Qed.

Lemma sorted_cons {A} (less : A -> A -> bool) (x : A) (l : list A) :
  sorted less (x :: l) <-> Forall (fun y => less y x = false) l /\ sorted less l.
Proof.
  split.
  - intros H. split.
    + apply Forall_lookup_2. intros i y Hy. by apply (H 0%nat (S i) x y); [lia| |].
    + intros i j y z Hij Hi Hj. by apply (H (S i) (S j) y z); [lia| |].
  - intros [Hf H] [|i] [|j] y z Hij Hi Hj; try lia.
    + injection Hi as <-. by apply (Forall_lookup_1 _ _ _ _ Hf Hj).
    + by apply (H i j y z); [lia| |].
Qed.

Lemma insert_sorted_sorted {A} (less : A -> A -> bool) (x : A) (l : list A) :
  weak_order_on less (x :: l) -> sorted less l -> sorted less (insert_sorted less x l).
Proof.
  induction l as [|y l IH]; intros Hwo Hs; [intros [|?] [|?] ??; simpl; (done || lia)|].
  simpl. apply sorted_cons in Hs as [Hf Hs]. destruct (less x y) eqn:E.
  - apply sorted_cons. split; [|by apply sorted_cons].
    assert (Hyx : less y x = false).
    { destruct (less y x) eqn:E'; [|done]. exfalso.
      assert (less x x = true) by (apply (wo_trans _ _ Hwo x y x); set_solver).
      rewrite (wo_irrefl _ _ Hwo) in H; [done|set_solver]. }
    constructor; [done|]. rewrite Forall_forall in *. intros z Hz.
    apply (wo_negtrans _ _ Hwo z y x); set_solver.
  - apply sorted_cons. split.
    + rewrite (insert_sorted_perm less x l). by constructor.
    + apply IH; [|done]. revert Hwo. apply weak_order_mono. set_solver.
Qed.

Lemma insertion_sort_sorted {A} (less : A -> A -> bool) (l : list A) :
  weak_order_on less l -> sorted less (insertion_sort less l).
Proof.
  induction l as [|x l IH]; intros Hwo; [intros i j y z _ Hi; done|]. simpl.
  apply insert_sorted_sorted.
  - revert Hwo. apply weak_order_mono. intros y. by rewrite (insertion_sort_perm less l).
  - apply IH. revert Hwo. apply weak_order_mono. set_solver.
Qed.

Definition insertion_GoSort : GoSort :=
  {| sort_Sort := @insertion_sort;
     sort_perm := @insertion_sort_perm;
     sort_sorted := @insertion_sort_sorted |}.

(** A sorted list is determined by its elements when no two of them are
    incomparable. *)
Lemma sorted_unique {A} (less : A -> A -> bool) (l l' : list A) :
  l ≡ₚ l' -> sorted less l -> sorted less l' ->
  (forall x y, x ∈ l -> y ∈ l -> less x y = false -> less y x = false -> x = y) -> l = l'.
Proof.
  revert l'. induction l as [|x l IH]; intros l' Hp Hs Hs' Hinj.
  { by apply Permutation_nil_l in Hp as ->. }
  destruct l' as [|y l']; [by apply Permutation_nil_r in Hp|].
  assert (x = y) as <-.
  { apply sorted_cons in Hs as [Hf _]. apply sorted_cons in Hs' as [Hf' _].
    rewrite Forall_forall in Hf, Hf'.
    assert (Hy : y ∈ x :: l) by (rewrite Hp; by left).
    assert (Hx : x ∈ y :: l') by (rewrite <- Hp; by left).
    apply elem_of_cons in Hy as [->|Hy]; [done|]. apply elem_of_cons in Hx as [->|Hx]; [done|].
    apply Hinj; [by left|by right|by apply Hf'|by apply Hf]. }
  f_equal. apply sorted_cons in Hs as [_ Hs]. apply sorted_cons in Hs' as [_ Hs'].
  apply IH; [by apply Permutation_cons_inv in Hp|done|done|]. intros; apply Hinj; by try right.
Qed.
