(* ===== verification/GoParse.v ===== *)
(** Go's text functions the line formats rest on: [strings.Fields],
    [strings.TrimSpace], [strings.Replace] and [strings.Replacer], and of
    [strconv] [ParseInt], [FormatInt], [ParseBool] and [ParseFloat].

    Strings are byte strings.  White space is Unicode's, in its UTF-8
    encoding: the first byte of such an encoding is never a continuation
    byte, so looking for the encodings byte by byte finds what decoding
    rune by rune finds. *)
From Stdlib Require Import Floats.SpecFloat.
From S2P Require Import Prelude Bits Float64 GoStrings.

Definition code (a : Ascii.ascii) : Z := Z.of_N (Ascii.N_of_ascii a).

(** The width of the white space [s] starts with, 0 when it starts with
    something else ([unicode.IsSpace]). *)
Definition space_len (s : string) : nat :=
  match s with
  | EmptyString => 0
  | String a s1 =>
      let x := code a in
      if ((9 <=? x) && (x <=? 13)) || (x =? 32) then 1
      else
        match s1 with
        | EmptyString => 0
        | String b s2 =>
            let y := code b in
            if (x =? 0xC2) && ((y =? 0x85) || (y =? 0xA0)) then 2
            else
              match s2 with
              | EmptyString => 0
              | String c _ =>
                  let z := code c in
                  if ((x =? 0xE1) && (y =? 0x9A) && (z =? 0x80))
                     || ((x =? 0xE2) && (y =? 0x80)
                         && (((0x80 <=? z) && (z <=? 0x8A)) || (z =? 0xA8) || (z =? 0xA9) || (z =? 0xAF)))
                     || ((x =? 0xE2) && (y =? 0x81) && (z =? 0x9F))
                     || ((x =? 0xE3) && (y =? 0x80) && (z =? 0x80))
                  then 3 else 0
              end
        end
  end.

(** [strings.Fields]: the words between runs of white space; [skip]
    bytes of a space just met remain to be passed over. *)
Definition flush_word (cur : string) : list string :=
  if bool_decide (cur = ""%string) then [] else [cur].

Fixpoint fields_from (skip : nat) (cur s : string) : list string :=
  match s with
  | EmptyString => flush_word cur
  | String c s' =>
      match skip with
      | S k => fields_from k cur s'
      | O =>
          match space_len s with
          | O => fields_from 0 (cur +:+ String c "") s'
          | S k => flush_word cur ++ fields_from k "" s'
          end
      end
  end.

Definition Fields (s : string) : list string := fields_from 0 "" s.

(** [strings.TrimSpace] and [bytes.TrimSpace]. *)
Fixpoint trim_left (skip : nat) (s : string) : string :=
  match s with
  | EmptyString => ""
  | String _ s' =>
      match skip with
      | S k => trim_left k s'
      | O => match space_len s with O => s | S k => trim_left k s' end
      end
  end.

Fixpoint trim_right (s : string) : string :=
  if bool_decide (trim_left 0 s = ""%string) then ""
  else match s with
       | EmptyString => ""
       | String c s' => String c (trim_right s')
       end.

Definition TrimSpace (s : string) : string := trim_right (trim_left 0 s).

(** [strings.NewReplacer] with non-empty old strings: at each position
    the pairs are tried in order, and a replacement is not searched
    again. *)
Fixpoint first_old (pairs : list (string * string)) (s : string) : option (string * string) :=
  match pairs with
  | [] => None
  | (old, new) :: pairs => if String.prefix old s then Some (old, new) else first_old pairs s
  end.

Fixpoint replacer_from (pairs : list (string * string)) (skip : nat) (s : string) : string :=
  match s with
  | EmptyString => ""
  | String c s' =>
      match skip with
      | S k => replacer_from pairs k s'
      | O =>
          match first_old pairs s with
          | Some (old, new) => new +:+ replacer_from pairs (String.length old - 1) s'
          | None => String c (replacer_from pairs 0 s')
          end
      end
  end.

Definition Replacer_Replace (pairs : list (string * string)) (s : string) : string :=
  replacer_from pairs 0 s.

(** [strings.Replace] of every occurrence of a non-empty [old], and of
    the first one only. *)
Definition ReplaceAll (s old new : string) : string := Replacer_Replace [(old, new)] s.

Fixpoint ReplaceFirst (s old new : string) : string :=
  match s with
  | EmptyString => ""
  | String c s' =>
      if String.prefix old s
      then new +:+ String.substring (String.length old) (String.length s - String.length old) s
      else String c (ReplaceFirst s' old new)
  end.

(** An optional sign and what follows it. *)
Definition split_sign (s : string) : bool * string :=
  match s with
  | String a r => if code a =? 45 then (true, r) else if code a =? 43 then (false, r) else (false, s)
  | EmptyString => (false, s)
  end.

(** [strconv.ParseInt(s, 10, 64)]; [None] is an error of either kind. *)
Definition ParseInt (s : string) : option Z :=
  let '(neg, digits) := split_sign s in
  un ← ParseUint digits 10;
  if neg then (if un <=? 2 ^ 63 then Some (- un) else None)
  else (if un <? 2 ^ 63 then Some un else None).

(** [strconv.FormatInt(n, 10)], and [%d] of [fmt]. *)
Definition FormatInt (n : Z) : string :=
  if n <? 0 then "-" +:+ FormatUint (- n) 10 else FormatUint n 10.

(** [strconv.ParseBool]. *)
Definition ParseBool (s : string) : option bool :=
  if bool_decide (s ∈ ["1"; "t"; "T"; "true"; "TRUE"; "True"]%string) then Some true
  else if bool_decide (s ∈ ["0"; "f"; "F"; "false"; "FALSE"; "False"]%string) then Some false
  else None.

(** ** [strconv.ParseFloat(s, 64)]

    A sign, decimal digits with at most one point among them, and an
    optional exponent; or the names of the infinities and of NaN.  The
    result is the nearest float64, ties to even; a value whose rounding
    is infinite is a range error. *)

Definition digit10 (a : Ascii.ascii) : option Z :=
  let x := code a in
  if (48 <=? x) && (x <=? 57) then Some (x - 48) else None.

(** The mantissa [m], whether a point and a digit were seen and how many
    digits followed the point, with what is left of the text. *)
Fixpoint read_mantissa (m frac : Z) (dot dig : bool) (s : string) : Z * Z * bool * string :=
  match s with
  | EmptyString => (m, frac, dig, "")
  | String a s' =>
      match digit10 a with
      | Some d => read_mantissa (m * 10 + d) (if dot then frac + 1 else frac) dot true s'
      | None =>
          if (code a =? 46) && negb dot then read_mantissa m frac true dig s'
          else (m, frac, dig, s)
      end
  end.

(** The exponent's digits; a number of five digits or more is not
    accumulated further. *)
Fixpoint read_exp (e : Z) (s : string) : option Z :=
  match s with
  | EmptyString => Some e
  | String a s' => d ← digit10 a; read_exp (if e <? 10000 then e * 10 + d else e) s'
  end.

Definition read_exponent (s : string) : option Z :=
  match s with
  | EmptyString => Some 0
  | String a s' =>
      if (code a =? 101) || (code a =? 69) then
        match s' with
        | EmptyString => None
        | String b r =>
            let '(sign, r) :=
              if code b =? 45 then (-1, r) else if code b =? 43 then (1, r) else (1, s') in
            if bool_decide (r = ""%string) then None else e ← read_exp 0 r; Some (sign * e)
        end
      else None
  end.

(** The correctly rounded value of [m * 10 ^ e10], with a sign. *)
Definition float_of_decimal (neg : bool) (m e10 : Z) : float64 :=
  match m with
  | Zpos p =>
      encode
        (if 0 <=? e10
         then binary_normalize 53 1024 ((if neg then -1 else 1) * Zpos p * 10 ^ e10) 0 neg
         else SFdiv 53 1024 (S754_finite neg p 0)
                    (S754_finite false (Z.to_pos (10 ^ (- e10))) 0))
  | _ => with_sign neg 0
  end.

Definition float_special (s : string) : option float64 :=
  let l := ToLower s in
  if bool_decide (l ∈ ["inf"; "infinity"; "+inf"; "+infinity"]%string) then Some (with_sign false (2047 * 2 ^ 52))
  else if bool_decide (l ∈ ["-inf"; "-infinity"]%string) then Some (with_sign true (2047 * 2 ^ 52))
  else if bool_decide (l = "nan"%string) then Some NaN
  else None.

Definition ParseFloat (s : string) : option float64 :=
  match float_special s with
  | Some f => Some f
  | None =>
      let '(neg, r) := split_sign s in
      let '(m, frac, dig, rest) := read_mantissa 0 0 false false r in
      if dig then
        e ← read_exponent rest;
        let f := float_of_decimal neg m (e - frac) in
        if IsInf f then None else Some f
      else None
  end.

Example pf_int : ParseFloat "42" = Some (float_of_Z 42). Proof. vm_compute. reflexivity. Qed.
Example pf_neg : ParseFloat "-0.5e1" = Some (float_of_Z (-5)). Proof. vm_compute. reflexivity. Qed.
Example pf_tenth : ParseFloat ".1" = Some 0x3FB999999999999A. Proof. vm_compute. reflexivity. Qed.
Example pf_bad : (ParseFloat "", ParseFloat ".", ParseFloat "1.2.3", ParseFloat "1e", ParseFloat "1e400") =
  (None, None, None, None, None).
Proof. vm_compute. reflexivity. Qed.
Example pf_min : (ParseFloat "5e-324", ParseFloat "1.7976931348623157e308") = (Some 1, Some 0x7FEFFFFFFFFFFFFF).
Proof. vm_compute. reflexivity. Qed.
Example fields_ex : Fields " a  b	c " = ["a"; "b"; "c"]%string. Proof. reflexivity. Qed.
Example trim_ex : TrimSpace "  a b  " = "a b"%string. Proof. reflexivity. Qed.
Example replacer_ex : Replacer_Replace [("..", "."); (",", "_")]%string "a...b,c" = "a..b_c"%string.
Proof. reflexivity. Qed.
Example replace1_ex : ReplaceFirst "stats.a.stats.b" "stats." "" = "a.stats.b"%string. Proof. reflexivity. Qed.
Example int_ex : (ParseInt "-12", ParseInt "9223372036854775808", FormatInt (-90)) = (Some (-12), None, "-90"%string).
Proof. vm_compute. reflexivity. Qed.

(** ** Words *)

(** A text no suffix of which starts with white space. *)
Fixpoint no_space (w : string) : bool :=
  (space_len w =? 0)%nat &&
  match w with
  | EmptyString => true
  | String _ w' => no_space w'
  end.

Definition is_word (w : string) : Prop := w <> ""%string /\ no_space w = true.

#[export] Instance is_word_dec (w : string) : Decision (is_word w) := _.

(** Visible ASCII never is, and never completes, white space. *)
Definition visible (a : Ascii.ascii) : bool := (33 <=? code a) && (code a <? 127).

Definition ascii_char (a : Ascii.ascii) : bool := code a <? 128.

Ltac space_case :=
  repeat match goal with
  | |- context [if ?b then _ else _] => destruct b eqn:?
  end; bool_to_prop; try lia; try done.

Lemma space_len_cons (a : Ascii.ascii) (s : string) : visible a = true -> space_len (String a s) = 0%nat.
Proof.
  unfold visible. intros Ha. bool_to_prop. unfold space_len.
  replace (((9 <=? code a) && (code a <=? 13)) || (code a =? 32)) with false.
  2:{ symmetry. apply orb_false_iff; split; [apply andb_false_iff; right|]; bool_lia. }
  destruct s as [|b [|c s]]; [done| |].
  - by replace (code a =? 0xC2) with false by (symmetry; bool_lia).
  - replace (code a =? 0xC2) with false by (symmetry; bool_lia).
    replace (code a =? 0xE1) with false by (symmetry; bool_lia).
    replace (code a =? 0xE2) with false by (symmetry; bool_lia).
    by replace (code a =? 0xE3) with false by (symmetry; bool_lia).
Qed.

(** ASCII behind a text leaves what the text starts with unchanged. *)
Lemma space_len_app (s r : string) (c : Ascii.ascii) :
  s <> ""%string -> space_len s = 0%nat -> ascii_char c = true ->
  space_len (s +:+ String c r) = 0%nat.
Proof.
  unfold ascii_char. intros Hs H0 Hc. bool_to_prop.
  assert (Hne : forall k, 128 <= k -> (code c =? k) = false) by (intros k Hk; bool_lia).
  assert (Hle : (0x80 <=? code c) = false) by bool_lia.
  destruct s as [|x [|y [|z s]]]; [done| | |exact H0].
  - change (String x "" +:+ String c r) with (String x (String c r)). unfold space_len in *.
    destruct (((9 <=? code x) && (code x <=? 13)) || (code x =? 32)); [done|].
    rewrite !Hne by lia. cbn [orb andb]. rewrite !andb_false_r. cbn [orb andb].
    destruct r as [|d r]; [done|]. by rewrite ?andb_false_r.
  - change (String x (String y "") +:+ String c r) with (String x (String y (String c r))).
    unfold space_len in *. destruct (((9 <=? code x) && (code x <=? 13)) || (code x =? 32)); [done|].
    destruct ((code x =? 0xC2) && _); [done|]. rewrite !Hne by lia. rewrite Hle. cbn [orb andb].
    by rewrite !andb_false_r.
Qed.

Lemma fields_from_word (w cur r : string) (c : Ascii.ascii) :
  no_space w = true -> ascii_char c = true ->
  fields_from 0 cur (w +:+ String c r) = fields_from 0 (cur +:+ w) (String c r).
Proof.
  revert cur. induction w as [|a w IH]; intros cur Hw Hc; [by rewrite string_app_nil_r|].
  cbn [no_space] in Hw. apply andb_true_iff in Hw as [H0 Hw]. apply Nat.eqb_eq in H0.
  pose proof (space_len_app (String a w) r c ltac:(done) H0 Hc) as H1.
  rewrite string_app_cons in *. cbn [fields_from]. rewrite H1, IH by done. by rewrite <- string_app_assoc.
Qed.

Lemma fields_from_word_end (w cur : string) :
  no_space w = true -> fields_from 0 cur w = flush_word (cur +:+ w).
Proof.
  revert cur. induction w as [|a w IH]; intros cur Hw; [by rewrite string_app_nil_r|].
  cbn [no_space] in Hw. apply andb_true_iff in Hw as [H0 Hw]. apply Nat.eqb_eq in H0.
  cbn [fields_from]. rewrite H0, IH by done. by rewrite <- string_app_assoc.
Qed.

Lemma flush_word_cons (w : string) : w <> ""%string -> flush_word w = [w].
Proof. intros H. unfold flush_word. by rewrite bool_decide_false. Qed.

Definition space : Ascii.ascii := Ascii.ascii_of_N 32.
Definition newline : Ascii.ascii := Ascii.ascii_of_N 10.

(** [Fields] of words joined by single spaces, with or without a newline
    at the end. *)
Lemma Fields_Join (ws : list string) :
  Forall is_word ws -> Fields (Join ws (sep1 space)) = ws.
Proof.
  unfold Fields. induction 1 as [|w ws [Hne Hw] Hws IH]; [done|]. destruct ws as [|w' ws].
  { cbn [Join]. rewrite fields_from_word_end by done. by apply flush_word_cons. }
  rewrite Join_cons by done. unfold sep1 at 1. rewrite string_app_cons.
  rewrite fields_from_word by done. cbn [fields_from].
  replace (space_len (String space ("" +:+ Join (w' :: ws) (sep1 space)))) with 1%nat by done.
  change ("" +:+ w) with w. rewrite flush_word_cons by done.
  change ("" +:+ Join (w' :: ws) (sep1 space)) with (Join (w' :: ws) (sep1 space)). by rewrite IH.
Qed.

Lemma Fields_Join_line (ws : list string) :
  Forall is_word ws -> Fields (Join ws (sep1 space) +:+ sep1 newline) = ws.
Proof.
  unfold Fields. induction 1 as [|w ws [Hne Hw] Hws IH]; [done|]. destruct ws as [|w' ws].
  { cbn [Join]. unfold sep1. rewrite fields_from_word by done. cbn [fields_from].
    replace (space_len (String newline "")) with 1%nat by done. change ("" +:+ w) with w.
    rewrite flush_word_cons by done. done. }
  rewrite Join_cons by done. unfold sep1 at 1. rewrite <- string_app_assoc, !string_app_cons.
  rewrite fields_from_word by done. cbn [fields_from].
  replace (space_len (String space _)) with 1%nat by done.
  change ("" +:+ w) with w. rewrite flush_word_cons by done.
  change ("" +:+ Join (w' :: ws) (sep1 space)) with (Join (w' :: ws) (sep1 space)). by rewrite IH.
Qed.

Lemma no_space_visible (s : string) : all_chars visible s = true -> no_space s = true.
Proof.
  induction s as [|a s IH]; [done|]. cbn [all_chars no_space]. intros H. bool_to_prop.
  by rewrite space_len_cons, IH.
Qed.

(** White space a text starts with stays when the text is longer. *)
Lemma space_len_prefix (s r : string) : space_len (s +:+ r) = 0%nat -> space_len s = 0%nat.
Proof.
  destruct s as [|x [|y [|z s]]]; [done| | |done]; rewrite ?string_app_cons; unfold space_len.
  - by destruct (((9 <=? code x) && (code x <=? 13)) || (code x =? 32)).
  - destruct (((9 <=? code x) && (code x <=? 13)) || (code x =? 32)); [done|].
    by destruct ((code x =? 0xC2) && ((code y =? 0x85) || (code y =? 0xA0))).
Qed.

(** No suffix of [cur], read on into [s], starts with white space. *)
Fixpoint clean_before (cur s : string) : Prop :=
  match cur with
  | EmptyString => True
  | String _ cur' => space_len (cur +:+ s) = 0%nat /\ clean_before cur' s
  end.

Lemma clean_before_no_space (cur s : string) : clean_before cur s -> no_space cur = true.
Proof.
  induction cur as [|a cur IH]; [done|]. intros [H0 H]. cbn [no_space].
  by rewrite (space_len_prefix _ _ H0), IH.
Qed.

Lemma clean_before_snoc (cur s : string) (c : Ascii.ascii) :
  clean_before cur (String c s) -> space_len (String c s) = 0%nat -> clean_before (cur +:+ String c "") s.
Proof.
  induction cur as [|a cur IH]; intros H Hc; [by split|]. destruct H as [H0 H].
  rewrite string_app_cons. cbn [clean_before]. rewrite <- string_app_cons, <- string_app_assoc.
  split; [exact H0|]. by apply IH.
Qed.

Lemma flush_word_words (w : string) : no_space w = true -> Forall is_word (flush_word w).
Proof.
  intros H. unfold flush_word. case_bool_decide; [constructor|]. by constructor.
Qed.

Lemma fields_from_words (s : string) (skip : nat) (cur : string) :
  (skip = 0%nat -> clean_before cur s) -> (skip <> 0%nat -> cur = ""%string) ->
  Forall is_word (fields_from skip cur s).
Proof.
  revert skip cur. induction s as [|c s IH]; intros skip cur H0 Hs; cbn [fields_from].
  { apply flush_word_words. destruct skip as [|k]; [by eapply clean_before_no_space, H0|by rewrite Hs]. }
  destruct skip as [|k].
  - destruct (space_len (String c s)) as [|k] eqn:E.
    + apply IH; [|done]. intros _. by apply clean_before_snoc; [apply H0|].
    + apply Forall_app. split; [by eapply flush_word_words, clean_before_no_space, H0|]. by apply IH.
  - rewrite Hs by done. by apply IH.
Qed.

Lemma Fields_words (s : string) : Forall is_word (Fields s).
Proof. by apply fields_from_words. Qed.

(** ** Numbers as text *)

Definition isdig (a : Ascii.ascii) : bool := (48 <=? code a) && (code a <=? 57).

Lemma isdig_visible (a : Ascii.ascii) : isdig a = true -> visible a = true.
Proof. unfold isdig, visible. intros H. bool_to_prop. apply andb_true_iff. split; bool_lia. Qed.

Lemma isdig_digit36 (d : Z) : 0 <= d < 10 -> isdig (digit36 d) = true.
Proof.
  intros Hd. unfold isdig, code, digit36. rewrite (proj2 (Z.ltb_lt d 10)) by lia.
  rewrite Ascii.N_ascii_embedding, Z2N.id by lia. apply andb_true_iff. split; bool_lia.
Qed.

Lemma FormatUint_digits (n : Z) : 0 <= n -> all_chars isdig (FormatUint n 10) = true.
Proof. intros Hn. apply format_go_chars; [apply isdig_digit36|lia|done|done]. Qed.

Lemma FormatUint_visible (n : Z) : 0 <= n -> all_chars visible (FormatUint n 10) = true.
Proof. intros Hn. by eapply all_chars_impl, FormatUint_digits; [apply isdig_visible|]. Qed.

Lemma FormatInt_visible (n : Z) : all_chars visible (FormatInt n) = true.
Proof.
  unfold FormatInt. case_if; [rewrite all_chars_app; apply andb_true_iff; split; [done|]|];
    apply FormatUint_visible; lia.
Qed.

Lemma FormatInt_nonempty (n : Z) : FormatInt n <> ""%string.
Proof.
  unfold FormatInt. case_if; [done|]. destruct (FormatUint_nonempty n 10) as (a & s & ->). done.
Qed.

Lemma FormatInt_word (n : Z) : is_word (FormatInt n).
Proof. split; [apply FormatInt_nonempty|apply no_space_visible, FormatInt_visible]. Qed.

(** The first digit of a number is not a sign. *)
Lemma format_go_no_sign (fuel : nat) (n : Z) (acc : string) :
  0 <= n -> (0 < fuel)%nat -> split_sign (format_go 10 fuel n acc) = (false, format_go 10 fuel n acc).
Proof.
  revert n acc. induction fuel as [|fuel IH]; intros n acc Hn Hf; [lia|]. cbn [format_go].
  assert (Hd : forall d r, 0 <= d < 10 -> split_sign (String (digit36 d) r) = (false, String (digit36 d) r)).
  { intros d r Hd. unfold split_sign, code, digit36. rewrite (proj2 (Z.ltb_lt d 10)) by lia.
    rewrite Ascii.N_ascii_embedding, Z2N.id by lia.
    by rewrite !(proj2 (Z.eqb_neq _ _)) by lia. }
  case_if; [apply Hd; lia|]. destruct fuel as [|fuel].
  - cbn [format_go]. apply Hd. apply Z.mod_pos_bound. lia.
  - apply IH; [apply Z.div_pos; lia|lia].
Qed.

Lemma ParseInt_FormatInt (n : Z) : - 2 ^ 63 <= n < 2 ^ 63 -> ParseInt (FormatInt n) = Some n.
Proof.
  intros Hn. unfold ParseInt, FormatInt. case_if.
  - change (split_sign ("-" +:+ FormatUint (- n) 10)) with (true, FormatUint (- n) 10).
    cbv beta iota. rewrite Parse_Format by (unfold in_width; lia). cbn [mbind option_bind].
    rewrite (proj2 (Z.leb_le _ _)) by lia. f_equal. lia.
  - unfold FormatUint at 1. rewrite format_go_no_sign by lia.
    change (format_go 10 64 n "") with (FormatUint n 10).
    cbv beta iota. rewrite Parse_Format by (unfold in_width; lia). cbn [mbind option_bind].
    by rewrite (proj2 (Z.ltb_lt _ _)) by lia.
Qed.

(** What [ParseInt] accepts is in the range of an int64. *)
Lemma ParseInt_range (s : string) (n : Z) : ParseInt s = Some n -> - 2 ^ 63 <= n < 2 ^ 63.
Proof.
  assert (Hu : forall s u m, 0 <= m -> parse_go 10 m s = Some u -> 0 <= u).
  { induction s0 as [|a s0 IH]; intros u m Hm; cbn [parse_go]; [intros [= <-]; lia|].
    destruct (value36 a) as [d|] eqn:Ed; cbn [mbind option_bind]; [|done].
    assert (0 <= d) by (unfold value36 in Ed; repeat case_match; simplify_eq; bool_to_prop; lia).
    case_if; [|done]. apply IH. lia. }
  unfold ParseInt. destruct (split_sign s) as [neg digits].
  destruct (ParseUint digits 10) as [u|] eqn:E; cbn [mbind option_bind]; [|done].
  assert (0 <= u) by (unfold ParseUint in E; case_bool_decide; [done|]; by eapply Hu; [|exact E]).
  destruct neg; case_if; intros [= <-]; lia.
Qed.

(** ** Trimming keeps the words *)

(** The continuation bytes of UTF-8: no white space starts with one. *)
Definition continuation (a : Ascii.ascii) : bool := (0x80 <=? code a) && (code a <=? 0xBF).

Lemma space_len_continuation (a : Ascii.ascii) (s : string) :
  continuation a = true -> space_len (String a s) = 0%nat.
Proof.
  unfold continuation. intros Ha. bool_to_prop. unfold space_len.
  replace (((9 <=? code a) && (code a <=? 13)) || (code a =? 32)) with false.
  2:{ symmetry. apply orb_false_iff; split; [apply andb_false_iff; right|]; bool_lia. }
  assert (Hne : forall k, 0xC0 <= k -> (code a =? k) = false) by (intros k Hk; bool_lia).
  destruct s as [|b [|c s]]; [done| |]; by rewrite !Hne by lia.
Qed.

(** White space is its first byte followed by continuation bytes. *)
Lemma space_len_split (a : Ascii.ascii) (s : string) (k : nat) :
  space_len (String a s) = S k ->
  exists e r, s = e +:+ r /\ String.length e = k /\ all_chars continuation e = true /\
              forall r', space_len (String a (e +:+ r')) = S k.
Proof.
  unfold space_len at 1. destruct (((9 <=? code a) && (code a <=? 13)) || (code a =? 32)) eqn:E0.
  { intros [= <-]. exists ""%string, s. unfold space_len. by rewrite E0. }
  destruct s as [|b s]; [done|].
  destruct ((code a =? 0xC2) && ((code b =? 0x85) || (code b =? 0xA0))) eqn:E1.
  { intros [= <-]. exists (String b ""), s. split; [done|]. split; [done|]. split.
    - cbn [all_chars]. rewrite andb_true_r. unfold continuation. bool_to_prop.
      match goal with H : _ || _ = true |- _ => apply orb_true_iff in H as [H|H] end;
        bool_to_prop; apply andb_true_iff; split; bool_lia.
    - intros r'. change (String b "" +:+ r') with (String b r').
      unfold space_len. by rewrite E0, E1. }
  destruct s as [|c s]; [done|].
  match goal with |- (if ?b then _ else _) = _ -> _ => destruct b eqn:E2; [|done] end.
  intros [= <-]. exists (String b (String c "")), s. split; [done|]. split; [done|]. split.
  - cbn [all_chars]. rewrite andb_true_r. unfold continuation.
    repeat match goal with
    | H : _ || _ = true |- _ => apply orb_true_iff in H as [H|H]
    | _ => progress bool_to_prop
    end; repeat (apply andb_true_iff; split); bool_lia.
  - intros r'. change (String b (String c "") +:+ r') with (String b (String c r')).
    unfold space_len. by rewrite E0, E1, E2.
Qed.

Lemma trim_right_continuation (e r : string) :
  all_chars continuation e = true -> trim_right (e +:+ r) = e +:+ trim_right r.
Proof.
  induction e as [|a e IH]; [done|]. cbn [all_chars]. intros H. apply andb_true_iff in H as [Ha He].
  rewrite !string_app_cons. cbn [trim_right].
  assert (Ht : trim_left 0 (String a (e +:+ r)) = String a (e +:+ r)).
  { cbn [trim_left]. by rewrite space_len_continuation. }
  rewrite Ht, bool_decide_false by done. by rewrite IH.
Qed.

Lemma trim_right_prefix (s : string) : exists r, s = trim_right s +:+ r.
Proof.
  induction s as [|c s (r & IH)]; [by exists ""%string|]. cbn [trim_right].
  case_bool_decide; [by exists (String c s)|]. exists r. by rewrite string_app_cons, <- IH.
Qed.

Lemma fields_trim_left (s : string) (skip : nat) :
  fields_from 0 "" (trim_left skip s) = fields_from skip "" s.
Proof.
  revert skip. induction s as [|c s IH]; intros skip; [done|]. cbn [trim_left]. destruct skip as [|k]; [|apply IH].
  cbn [fields_from]. destruct (space_len (String c s)) as [|k] eqn:E.
  - cbn [fields_from]. by rewrite E.
  - rewrite IH. done.
Qed.

(** A text of white space only. *)
Lemma fields_all_space (s : string) (skip : nat) :
  trim_left skip s = ""%string -> forall cur, fields_from skip cur s = flush_word cur.
Proof.
  revert skip. induction s as [|c s IH]; intros skip Ht cur; [done|]. cbn [trim_left fields_from] in *.
  destruct skip as [|k]; [|by apply IH].
  destruct (space_len (String c s)) as [|k]; [done|]. rewrite IH by done.
  unfold flush_word at 2. simpl. apply app_nil_r.
Qed.

Lemma fields_skip (e cur r : string) :
  fields_from (String.length e) cur (e +:+ r) = fields_from 0 cur r.
Proof.
  induction e as [|a e IH]; [done|]. rewrite string_app_cons. cbn [String.length fields_from]. apply IH.
Qed.

Lemma fields_trim_right (n : nat) (s cur : string) :
  (String.length s <= n)%nat -> fields_from 0 cur (trim_right s) = fields_from 0 cur s.
Proof.
  revert s cur. induction n as [|n IH]; intros s cur Hn.
  { by destruct s; [|simpl in Hn; lia]. }
  destruct s as [|c s]; [done|]. cbn [trim_right]. case_bool_decide as Ht.
  { by rewrite (fields_all_space (String c s) 0 Ht). }
  cbn [String.length] in Hn. cbn [fields_from]. destruct (space_len (String c s)) as [|k] eqn:E.
  - destruct (trim_right_prefix s) as (r & Hr).
    rewrite (space_len_prefix (String c (trim_right s)) r) by (by rewrite string_app_cons, <- Hr).
    apply IH. lia.
  - destruct (space_len_split _ _ _ E) as (e & r & -> & Hk & Hc & Hsp).
    rewrite trim_right_continuation, Hsp by done. f_equal. subst k. rewrite !fields_skip.
    apply IH. rewrite string_length_app in Hn. lia.
Qed.

Lemma Fields_TrimSpace (s : string) : Fields (TrimSpace s) = Fields s.
Proof.
  unfold Fields, TrimSpace. rewrite (fields_trim_right (String.length (trim_left 0 s))) by lia.
  apply fields_trim_left.
Qed.

(** ** Replacing what is not there *)

Lemma ReplaceAll_id (s old new : string) : Contains s old = false -> ReplaceAll s old new = s.
Proof.
  unfold ReplaceAll, Replacer_Replace. induction s as [|c s IH]; intros H; [done|].
  cbn [Contains] in H. apply orb_false_iff in H as [Hp H]. cbn [replacer_from first_old].
  by rewrite Hp, IH.
Qed.

Lemma prefix_app (p a b : string) : String.prefix p a = true -> String.prefix p (a +:+ b) = true.
Proof.
  revert a. induction p as [|x p IH]; intros a H; [by destruct (a +:+ b)|].
  destruct a as [|y a]; [done|]. rewrite string_app_cons. cbn [String.prefix] in *.
  destruct (Ascii.ascii_dec x y); [by apply IH|done].
Qed.

Lemma Contains_app_l (a b sub : string) : Contains (a +:+ b) sub = false -> Contains a sub = false.
Proof.
  induction a as [|c a IH]; intros H.
  - cbn [Contains]. rewrite orb_false_r. change ("" +:+ b) with b in H.
    destruct sub; [|done]. exfalso. by destruct b; cbn [Contains] in H; rewrite prefix_nil in H.
  - rewrite string_app_cons in H. cbn [Contains] in *. apply orb_false_iff in H as [Hp H].
    rewrite IH by done. rewrite orb_false_r.
    destruct (String.prefix sub (String c a)) eqn:E; [|done].
    apply (prefix_app _ _ b) in E. by rewrite string_app_cons, Hp in E.
Qed.

Lemma Contains_app_r (a b sub : string) : Contains (a +:+ b) sub = false -> Contains b sub = false.
Proof.
  induction a as [|c a IH]; [done|]. rewrite string_app_cons. cbn [Contains]. intros H.
  apply orb_false_iff in H as [_ H]. by apply IH.
Qed.

Lemma trim_left_suffix (s : string) (skip : nat) : exists l, s = l +:+ trim_left skip s.
Proof.
  revert skip. induction s as [|c s IH]; intros skip; [by exists ""%string|]. cbn [trim_left].
  assert (Hk : forall k, exists l, String c s = l +:+ trim_left k s).
  { intros k. destruct (IH k) as (l & Hl). exists (String c l). by rewrite string_app_cons, <- Hl. }
  destruct skip as [|k]; [|apply Hk]. destruct (space_len (String c s)); [by exists ""%string|apply Hk].
Qed.

Lemma Contains_TrimSpace (s sub : string) : Contains s sub = false -> Contains (TrimSpace s) sub = false.
Proof.
  intros H. unfold TrimSpace. destruct (trim_left_suffix s 0) as (l & Hl).
  destruct (trim_right_prefix (trim_left 0 s)) as (r & Hr). rewrite Hl, Hr in H.
  by apply Contains_app_r, Contains_app_l in H.
Qed.

(** ** Doubled characters *)

Definition doubled (d : Ascii.ascii) : string := String d (String d "").

Lemma Contains_doubled_cons (d a : Ascii.ascii) (s : string) :
  a <> d -> Contains (String a s) (doubled d) = Contains s (doubled d).
Proof.
  intros Ha. cbn [Contains]. unfold doubled at 1. cbn [String.prefix].
  by destruct (Ascii.ascii_dec d a) as [->|].
Qed.

(** A character in between keeps what is doubled on either side. *)
Lemma Contains_doubled_sep (d c : Ascii.ascii) (a b : string) :
  c <> d -> Contains (a +:+ String c b) (doubled d) = Contains a (doubled d) || Contains b (doubled d).
Proof.
  intros Hc. induction a as [|x a IH].
  - rewrite string_app_nil_l, Contains_doubled_cons by done. done.
  - rewrite string_app_cons. cbn [Contains]. rewrite IH, orb_assoc. do 2 f_equal.
    unfold doubled. cbn [String.prefix]. destruct (Ascii.ascii_dec d x) as [->|]; [|done].
    destruct a as [|y a].
    + rewrite string_app_nil_l. cbn [String.prefix]. by destruct (Ascii.ascii_dec x c) as [Heq|]; [congruence|].
    + rewrite string_app_cons. cbn [String.prefix]. destruct (Ascii.ascii_dec x y); [|done].
      by rewrite !GoStrings.prefix_nil.
Qed.

Lemma Contains_doubled_no_char (d : Ascii.ascii) (s : string) :
  no_char d s = true -> Contains s (doubled d) = false.
Proof.
  induction s as [|a s IH]; [done|]. cbn [no_char]. intros H. apply andb_true_iff in H as [Ha Hs].
  apply negb_true_iff, bool_decide_eq_false in Ha. rewrite Contains_doubled_cons by done. by apply IH.
Qed.

(** Once between texts without it is not twice. *)
Lemma Contains_doubled_once (d : Ascii.ascii) (a b : string) :
  no_char d a = true -> no_char d b = true -> Contains (a +:+ String d b) (doubled d) = false.
Proof.
  intros Ha Hb. induction a as [|x a IH].
  - rewrite string_app_nil_l. cbn [Contains]. rewrite Contains_doubled_no_char by done. rewrite orb_false_r.
    unfold doubled. cbn [String.prefix]. destruct (Ascii.ascii_dec d d); [|done].
    destruct b as [|y b]; [done|]. cbn [no_char] in Hb. apply andb_true_iff in Hb as [Hy _].
    apply negb_true_iff, bool_decide_eq_false in Hy.
    cbn [String.prefix]. destruct (Ascii.ascii_dec d y) as [Heq|]; [congruence|done].
  - cbn [no_char] in Ha. apply andb_true_iff in Ha as [Hx Ha]. apply negb_true_iff, bool_decide_eq_false in Hx.
    rewrite string_app_cons, Contains_doubled_cons by done. by apply IH.
Qed.

Lemma Contains_doubled_Join (d c : Ascii.ascii) (ws : list string) :
  c <> d -> Forall (fun w => Contains w (doubled d) = false) ws ->
  Contains (Join ws (sep1 c)) (doubled d) = false.
Proof.
  intros Hc Hw. induction Hw as [|w ws Hw Hws IH]; [done|]. destruct ws as [|w' ws]; [done|].
  rewrite Join_cons by done. unfold sep1 at 1. rewrite string_app_cons, string_app_nil_l.
  by rewrite Contains_doubled_sep, Hw, IH.
Qed.

Lemma isdig_no_char (d : Ascii.ascii) (s : string) :
  isdig d = false -> all_chars isdig s = true -> no_char d s = true.
Proof.
  intros Hd. induction s as [|a s IH]; [done|]. cbn [all_chars no_char]. intros H.
  apply andb_true_iff in H as [Ha Hs]. rewrite IH, andb_true_r by done.
  apply negb_true_iff, bool_decide_eq_false. intros ->. congruence.
Qed.
