(* ===== verification/GoFormat.v ===== *)
(** [%v] of [fmt] on a float64: the shortest decimal text that
    [strconv.ParseFloat] reads back as the same number, in the [%g]
    format. *)
From S2P Require Import Prelude Bits Float64 GoStrings GoParse.

(** A finite non-zero magnitude [m * 2 ^ e] as a fraction [v / den], with
    the ends of the interval that rounds to it over the same denominator.
    Below a power of two the interval is half as wide. *)
Definition scaled (m e : Z) : Z * Z * Z * Z :=
  let lo := if (m =? 2 ^ 52) && (e >? -1074) then 4 * m - 1 else 4 * m - 2 in
  let k := e - 2 in
  if 0 <=? k then (4 * m * 2 ^ k, lo * 2 ^ k, (4 * m + 2) * 2 ^ k, 1)
  else (4 * m, lo, 4 * m + 2, 2 ^ (- k)).

(** The decimal exponent [dp] with [10 ^ (dp - 1) <= v / den < 10 ^ dp];
    the search starts at an estimate that is never too large. *)
Fixpoint decimal_point (fuel : nat) (v den dp : Z) : Z :=
  match fuel with
  | O => dp
  | S fuel =>
      let below := if 0 <=? dp then v <? 10 ^ dp * den else v * 10 ^ (- dp) <? den in
      if below then dp else decimal_point fuel v den (dp + 1)
  end.

(** [x * 10 ^ k] for an integer [x] over [den], compared with an integer:
    the numerator and denominator of [x / den * 10 ^ k]. *)
Definition shift10 (x den k : Z) : Z * Z := if 0 <=? k then (x * 10 ^ k, den) else (x, den * 10 ^ (- k)).

(** The shortest digits: the [n]-digit number below the value or the one
    above it, when it is in the interval; the nearer one, or the even one,
    when both are.  Seventeen digits always are enough. *)
Fixpoint shortest (fuel : nat) (v lo hi den dp : Z) (even : bool) (n : Z) : Z * Z :=
  match fuel with
  | O => (0, 0)
  | S fuel =>
      let '(vn, vd) := shift10 v den (n - dp) in
      let '(ln, ld) := shift10 lo den (n - dp) in
      let '(hn, hd) := shift10 hi den (n - dp) in
      let t := vn / vd in
      let okdown := (ln <? t * ld) || (even && (ln =? t * ld)) in
      let okup := ((t + 1) * hd <? hn) || (even && ((t + 1) * hd =? hn)) in
      let twice := 2 * (vn - t * vd) in
      let up := (vd <? twice) || ((vd =? twice) && Z.odd t) in
      if okdown && okup then (if up then t + 1 else t, n)
      else if okdown then (t, n)
      else if okup then (t + 1, n)
      else shortest fuel v lo hi den dp even (n + 1)
  end.

(** Trailing zeros are not digits. *)
Fixpoint strip_zeros (fuel : nat) (t : Z) : Z :=
  match fuel with
  | O => t
  | S fuel => if (t mod 10 =? 0) && (0 <? t) then strip_zeros fuel (t / 10) else t
  end.

(** The digits and the decimal point of a finite non-zero magnitude. *)
Definition shortest_digits (m e : Z) : string * Z :=
  let '(v, lo, hi, den) := scaled m e in
  let dp := decimal_point 700 v den ((Z.log2 m + e) * 3 / 10 - 2) in
  let '(t, n) := shortest 20 v lo hi den dp (Z.even m) 1 in
  let digits := FormatUint (strip_zeros 20 t) 10 in
  (digits, if t =? 10 ^ n then dp + 1 else dp).

Fixpoint zeros (n : nat) : string := match n with O => "" | S n => "0" +:+ zeros n end.

(** [%e]: one digit, the others behind a point, and an exponent of at
    least two digits. *)
Definition fmtE (ds : string) (dp : Z) : string :=
  let exp := dp - 1 in
  let head := String.substring 0 1 ds in
  let rest := String.substring 1 (String.length ds - 1) ds in
  let mant := if bool_decide (rest = ""%string) then head else head +:+ "." +:+ rest in
  let digits := FormatUint (Z.abs exp) 10 in
  mant +:+ "e" +:+ (if exp <? 0 then "-" else "+") +:+ (if Z.abs exp <? 10 then "0" else "") +:+ digits.

(** [%f] with the digits there are. *)
Definition fmtF (ds : string) (dp : Z) : string :=
  let nd := Z.of_nat (String.length ds) in
  if 0 <? dp then
    let whole := String.substring 0 (Z.to_nat dp) ds +:+ zeros (Z.to_nat (dp - nd)) in
    if dp <? nd then whole +:+ "." +:+ String.substring (Z.to_nat dp) (Z.to_nat (nd - dp)) ds else whole
  else if 0 <? nd - dp then "0." +:+ zeros (Z.to_nat (- dp)) +:+ ds
  else "0".

Definition fmt_g (ds : string) (dp : Z) : string :=
  if (dp - 1 <? -4) || (6 <=? dp - 1) then fmtE ds dp else fmtF ds dp.

Definition FormatFloat (f : float64) : string :=
  if IsNaN f then "NaN"
  else
    let sign := if signbit f then "-"%string else ""%string in
    if IsInf f then (if signbit f then "-Inf" else "+Inf")
    else
      let m := frac_field f + (if exp_field f =? 0 then 0 else 2 ^ 52) in
      let e := (if exp_field f =? 0 then 1 else exp_field f) - 1075 in
      if m =? 0 then sign +:+ "0"
      else let '(ds, dp) := shortest_digits m e in sign +:+ fmt_g ds dp.

Example ff_ints : (FormatFloat (float_of_Z 42), FormatFloat (float_of_Z 100000), FormatFloat (float_of_Z 1000000),
  FormatFloat (float_of_Z (-7))) = ("42", "100000", "1e+06", "-7")%string.
Proof. vm_compute. reflexivity. Qed.
Example ff_fracs : (FormatFloat 0x3FB999999999999A, FormatFloat 0x3FD5555555555555, FormatFloat 0x3F1A36E2EB1C432D,
  FormatFloat 0x3EB0C6F7A0B5ED8D) = ("0.1", "0.3333333333333333", "0.0001", "1e-06")%string.
Proof. vm_compute. reflexivity. Qed.
Example ff_ends : (FormatFloat 1, FormatFloat 0x7FEFFFFFFFFFFFFF, FormatFloat 0x0010000000000000) =
  ("5e-324", "1.7976931348623157e+308", "2.2250738585072014e-308")%string.
Proof. vm_compute. reflexivity. Qed.

(** ** The text is one visible word *)

Lemma substring_visible (P : Ascii.ascii -> bool) (s : string) (i n : nat) :
  all_chars P s = true -> all_chars P (String.substring i n s) = true.
Proof.
  revert i n. induction s as [|a s IH]; intros i n H; [by destruct i, n|].
  cbn [all_chars] in H. apply andb_true_iff in H as [Ha Hs].
  destruct i as [|i]; cbn [String.substring]; [|by apply IH].
  destruct n as [|n]; [done|]. cbn [all_chars]. by rewrite Ha, IH.
Qed.

Lemma zeros_visible (n : nat) : all_chars visible (zeros n) = true.
Proof. induction n as [|n IH]; [done|]. cbn [zeros]. by rewrite all_chars_app, IH. Qed.

Lemma fmtE_visible (ds : string) (dp : Z) :
  all_chars visible ds = true -> all_chars visible (fmtE ds dp) = true.
Proof.
  intros H. unfold fmtE. rewrite !all_chars_app, FormatUint_visible by apply Z.abs_nonneg.
  rewrite !andb_true_iff. split_and!; try done; [|by case_if|by case_if].
  case_bool_decide; [by apply substring_visible|].
  rewrite !all_chars_app, !substring_visible by done. done.
Qed.

Lemma fmtF_visible (ds : string) (dp : Z) :
  all_chars visible ds = true -> all_chars visible (fmtF ds dp) = true.
Proof.
  intros H. unfold fmtF. case_ifs; rewrite ?all_chars_app, ?zeros_visible, ?substring_visible, ?H by done; done.
Qed.

Lemma shift10_pos (x den k : Z) : 0 <= x -> 0 < den -> 0 <= (shift10 x den k).1 /\ 0 < (shift10 x den k).2.
Proof.
  intros Hx Hd. unfold shift10. assert (Hp : forall k, 0 <= k -> 0 < 10 ^ k) by (intros; apply Z.pow_pos_nonneg; lia).
  case_if; simpl; [specialize (Hp k); nia|specialize (Hp (- k)); nia].
Qed.

Lemma shortest_nonneg (fuel : nat) (v lo hi den dp : Z) (even : bool) (n : Z) :
  0 <= v -> 0 < den -> 0 <= (shortest fuel v lo hi den dp even n).1.
Proof.
  intros Hv Hd. revert n. induction fuel as [|fuel IH]; intros n; [done|]. cbn [shortest].
  pose proof (shift10_pos v den (n - dp) Hv Hd) as Hs. destruct (shift10 v den (n - dp)) as [vn vd].
  destruct (shift10 lo den (n - dp)), (shift10 hi den (n - dp)). cbn [fst snd] in Hs.
  assert (0 <= vn / vd) by (apply Z.div_pos; lia). repeat case_match; simpl; try lia; apply IH.
Qed.

Lemma strip_zeros_nonneg (fuel : nat) (t : Z) : 0 <= t -> 0 <= strip_zeros fuel t.
Proof.
  revert t. induction fuel as [|fuel IH]; intros t Ht; [done|]. cbn [strip_zeros]. case_if; [|done].
  apply IH, Z.div_pos; lia.
Qed.

Lemma shortest_digits_digits (m e : Z) : 0 <= m -> all_chars isdig (shortest_digits m e).1 = true.
Proof.
  intros Hm. unfold shortest_digits.
  assert (Hs : 0 <= (scaled m e).1.1.1 /\ 0 < (scaled m e).2).
  { unfold scaled. case_if; simpl; (split; [|try apply pow2_pos; lia]); [|lia].
    pose proof (pow2_pos (e - 2)). nia. }
  destruct (scaled m e) as [[[v lo] hi] den]. cbn [fst snd] in Hs.
  set (dp := decimal_point _ _ _ _).
  pose proof (shortest_nonneg 20 v lo hi den dp (Z.even m) 1) as Ht.
  destruct (shortest _ _ _ _ _ _ _ _) as [t n]. cbn [fst] in *.
  apply FormatUint_digits, strip_zeros_nonneg, Ht; lia.
Qed.

Lemma shortest_digits_visible (m e : Z) : 0 <= m -> all_chars visible (shortest_digits m e).1 = true.
Proof. intros Hm. by eapply all_chars_impl, shortest_digits_digits; [apply isdig_visible|]. Qed.

Lemma FormatFloat_visible (f : float64) : all_chars visible (FormatFloat f) = true.
Proof.
  unfold FormatFloat. case_if; [done|]. case_if; [by case_if|].
  set (m := frac_field f + _). set (e := _ - 1075).
  assert (Hm : 0 <= m).
  { unfold m, frac_field. pose proof (Z.mod_pos_bound f (2 ^ 52) ltac:(lia)). case_if; lia. }
  pose proof (shortest_digits_visible m e Hm) as Hd. destruct (shortest_digits m e) as [ds dp].
  assert (Hsign : all_chars visible (if signbit f then "-" else "") = true) by (by case_if).
  case_if; rewrite all_chars_app, Hsign; [done|].
  unfold fmt_g. case_if; [by apply fmtE_visible|by apply fmtF_visible].
Qed.

Lemma substring_nonempty (ds : string) (n : nat) :
  ds <> ""%string -> (0 < n)%nat -> String.substring 0 n ds <> ""%string.
Proof. intros Hd Hn. destruct ds; [done|]. by destruct n; [lia|]. Qed.

Lemma app_nonempty_l (a b : string) : a <> ""%string -> a +:+ b <> ""%string.
Proof. by destruct a. Qed.

Lemma fmt_g_nonempty (ds : string) (dp : Z) : ds <> ""%string -> fmt_g ds dp <> ""%string.
Proof.
  intros Hd. unfold fmt_g. case_if.
  - unfold fmtE. apply app_nonempty_l. case_bool_decide; [by apply substring_nonempty; [|lia]|].
    by apply app_nonempty_l, substring_nonempty; [|lia].
  - unfold fmtF. case_if; [|by case_if]. bool_to_prop.
    assert (Hw : forall b, String.substring 0 (Z.to_nat dp) ds +:+ b <> ""%string).
    { intros b. apply app_nonempty_l, substring_nonempty; [done|lia]. }
    case_if; [by apply app_nonempty_l|done].
Qed.

Lemma FormatFloat_word (f : float64) : is_word (FormatFloat f).
Proof.
  split; [|apply no_space_visible, FormatFloat_visible].
  unfold FormatFloat. case_if; [done|]. case_if; [by case_if|].
  set (m := frac_field f + _). set (e := _ - 1075).
  case_if; [by case_if|]. unfold shortest_digits. destruct (scaled m e) as [[[v lo] hi] den].
  destruct (shortest _ _ _ _ _ _ _ _) as [t n]. case_if; [done|]. rewrite string_app_nil_l.
  apply fmt_g_nonempty. by destruct (FormatUint_nonempty (strip_zeros 20 t) 10) as (a & s & ->).
Qed.

(** ** No character other than a digit occurs twice in a row *)

Lemma zeros_digits (n : nat) : all_chars isdig (zeros n) = true.
Proof. induction n as [|n IH]; [done|]. cbn [zeros]. by rewrite all_chars_app, IH. Qed.

Definition dot : Ascii.ascii := Ascii.ascii_of_N 46.
Definition equals : Ascii.ascii := Ascii.ascii_of_N 61.

Lemma no_char_app_true (c : Ascii.ascii) (a b : string) :
  no_char c a = true -> no_char c b = true -> no_char c (a +:+ b) = true.
Proof. intros Ha Hb. by rewrite no_char_app, Ha, Hb. Qed.

Lemma fmt_g_dots (ds : string) (dp : Z) :
  all_chars isdig ds = true -> Contains (fmt_g ds dp) (doubled dot) = false.
Proof.
  intros Hd. assert (Hsub : forall i n, no_char dot (String.substring i n ds) = true).
  { intros i n. apply isdig_no_char; [done|]. by apply substring_visible. }
  assert (Hz : forall n, no_char dot (zeros n) = true) by (intros n; apply isdig_no_char, zeros_digits; done).
  unfold fmt_g. case_if.
  - unfold fmtE. set (digits := FormatUint _ _).
    assert (Hx : no_char dot digits = true).
    { apply isdig_no_char; [done|]. apply FormatUint_digits, Z.abs_nonneg. }
    assert (Hr : no_char dot ("e" +:+ (if dp - 1 <? 0 then "-" else "+") +:+
                   (if Z.abs (dp - 1) <? 10 then "0" else "") +:+ digits) = true).
    { rewrite !no_char_app, Hx. by repeat case_if. }
    case_bool_decide.
    + apply Contains_doubled_no_char. by apply no_char_app_true.
    + rewrite <- string_app_assoc. change "."%string with (String dot ""). rewrite <- string_app_assoc.
      rewrite string_app_cons, string_app_nil_l. apply Contains_doubled_once; [done|].
      by apply no_char_app_true.
  - unfold fmtF. case_if; [case_if|case_if].
    + change "."%string with (String dot ""). rewrite string_app_cons, string_app_nil_l.
      apply Contains_doubled_once; [by apply no_char_app_true|done].
    + apply Contains_doubled_no_char. by apply no_char_app_true.
    + change (Contains ("0" +:+ String dot (zeros (Z.to_nat (- dp)) +:+ ds)) (doubled dot) = false).
      apply Contains_doubled_once; [done|]. apply no_char_app_true; [done|].
      by apply isdig_no_char.
    + done.
Qed.

(** The characters [%v] writes; the equal sign and the colon are not
    among them. *)
Definition float_char (a : Ascii.ascii) : bool :=
  isdig a || bool_decide (a = dot) ||
  existsb (fun c => code a =? c) [43; 45; 101; 73; 78; 97; 102; 110].

Lemma isdig_float_char (a : Ascii.ascii) : isdig a = true -> float_char a = true.
Proof. unfold float_char. by intros ->. Qed.

Lemma fmt_g_chars (ds : string) (dp : Z) :
  all_chars isdig ds = true -> all_chars float_char (fmt_g ds dp) = true.
Proof.
  intros Hd. assert (Hf : forall s, all_chars isdig s = true -> all_chars float_char s = true).
  { intros s. apply all_chars_impl, isdig_float_char. }
  assert (Hsub : forall i n, all_chars float_char (String.substring i n ds) = true).
  { intros i n. apply Hf. by apply substring_visible. }
  unfold fmt_g, fmtE, fmtF. case_if.
  - rewrite !all_chars_app, (Hf (FormatUint _ _)) by apply FormatUint_digits, Z.abs_nonneg.
    rewrite !andb_true_iff. split_and!; try done; [|by case_if|by case_if].
    case_bool_decide; [done|]. by rewrite !all_chars_app, !Hsub.
  - case_if; [case_if|case_if]; rewrite ?all_chars_app, ?Hsub, ?(Hf (zeros _)), ?(Hf ds) by (done || apply zeros_digits); done.
Qed.

Lemma FormatFloat_cases (f : float64) :
  FormatFloat f ∈ ["NaN"; "-Inf"; "+Inf"; "0"; "-0"]%string \/
  exists sign ds dp, (sign = ""%string \/ sign = "-"%string) /\ all_chars isdig ds = true /\
    FormatFloat f = sign +:+ fmt_g ds dp.
Proof.
  unfold FormatFloat. case_if; [left; set_solver|]. case_if; [case_if; left; set_solver|].
  set (m := frac_field f + _). set (e := _ - 1075).
  assert (Hm : 0 <= m).
  { unfold m, frac_field. pose proof (Z.mod_pos_bound f (2 ^ 52) ltac:(lia)). case_if; lia. }
  case_if; [case_if; left; set_solver|].
  pose proof (shortest_digits_digits m e Hm) as Hd. destruct (shortest_digits m e) as [ds dp].
  right. exists (if signbit f then "-"%string else ""%string), ds, dp. split_and!; [|done|done].
  case_if; [by right|by left].
Qed.

Lemma FormatFloat_dots (f : float64) : Contains (FormatFloat f) (doubled dot) = false.
Proof.
  destruct (FormatFloat_cases f) as [H|(sign & ds & dp & Hs & Hd & ->)].
  - set (w := FormatFloat f) in *. clearbody w. rewrite !elem_of_cons in H.
    by destruct_or!; subst; [..|apply not_elem_of_nil in H].
  - destruct Hs as [-> | ->]; [by apply fmt_g_dots|].
    change ("-" +:+ fmt_g ds dp) with (String (Ascii.ascii_of_N 45) (fmt_g ds dp)).
    rewrite Contains_doubled_cons by done. by apply fmt_g_dots.
Qed.

Lemma FormatFloat_chars (f : float64) : all_chars float_char (FormatFloat f) = true.
Proof.
  destruct (FormatFloat_cases f) as [H|(sign & ds & dp & Hs & Hd & ->)].
  - set (w := FormatFloat f) in *. clearbody w. rewrite !elem_of_cons in H.
    by destruct_or!; subst; [..|apply not_elem_of_nil in H].
  - rewrite all_chars_app, fmt_g_chars by done. by destruct Hs as [-> | ->].
Qed.

Lemma FormatFloat_no_char (c : Ascii.ascii) (f : float64) :
  float_char c = false -> no_char c (FormatFloat f) = true.
Proof.
  intros Hc. rewrite <- all_chars_no_char. eapply all_chars_impl, FormatFloat_chars.
  intros a Ha. apply negb_true_iff, bool_decide_eq_false. intros ->. congruence.
Qed.
