(* ===== verification/Gorilla.v ===== *)
(** [series/gorilla.go] and the time helpers of [series/utils.go]: the
    Gorilla time series writer and iterator.

    A point is a time and five values (min, max, last, sum, count); the
    time is delta-of-delta coded, each value is coded by the XOR with its
    predecessor inside a reusable window of significant bits, and the
    nanosecond part of the time is coded like a value.  The mutex of the
    source is not modelled: every method that takes it runs to the end
    before another starts.  [Copy] is left out: it gives the copy bytes of
    its own but lets it share the slices of current values and of leading
    and trailing zeros, and no other modelled code calls it. *)
From S2P Require Import Prelude Bits GoBits BitStream Float64 GoStrings.

(** ** Times *)

Definition second : Z := 10 ^ 9.

Definition splitNano (t : Z) : Z * Z :=
  if t <=? 2147483647 then (u32 t, 0)
  else (u32 (t / second), u32 (t mod second)).

Definition combineSecNano (ts tns : Z) : Z := i64 (ts * second + tns).

Definition sameFloatVals (min max last sum : float64) : bool :=
  feq min max && feq min last && feq min sum.

(** ** The writer *)

Definition GORILLA_BIN_SERIES_TAG_NANOSECOND : string := "gorn".
Definition GORILLA_BIN_SERIES_TAG_SECOND : string := "gors".
Definition GORILLA_BIN_SERIES_TAG_NANO_SMART : string := "gort".
Definition GORILLA_NAME : string := "gorilla".

Definition errNegativeTimeDelta : goerror :=
  GoError "Gorilla format cannot have out-of-order time points".

Record Options := mkOptions {
  NumValues : Z;
  HighTimeResolution : bool;
  Handler : string
}.

Definition NewOptions (values : Z) (high_res : bool) : Options :=
  mkOptions values high_res "n/a".
Definition NewDefaultOptions : Options := mkOptions 5 false "n/a".

Record GorillaTimeSeries := mkGorilla {
  curCount : Z;
  fullResolution : bool;
  smartEncoding : bool;
  Ts : Z;
  Tms : Z;
  curTime : Z;
  curDelta : Z;
  curTimeMs : float64;
  leadingMs : Z;
  trailingMs : Z;
  numValues : Z;
  curVals : list float64;
  leading : list Z;
  trailing : list Z;
  bw : BitStream
}.

(** Field updates. *)
Definition set_bw (s : GorillaTimeSeries) (b : BitStream) : GorillaTimeSeries :=
  mkGorilla (curCount s) (fullResolution s) (smartEncoding s) (Ts s) (Tms s) (curTime s)
    (curDelta s) (curTimeMs s) (leadingMs s) (trailingMs s) (numValues s) (curVals s)
    (leading s) (trailing s) b.

Definition set_time (s : GorillaTimeSeries) (t d : Z) : GorillaTimeSeries :=
  mkGorilla (curCount s) (fullResolution s) (smartEncoding s) (Ts s) (Tms s) t
    d (curTimeMs s) (leadingMs s) (trailingMs s) (numValues s) (curVals s)
    (leading s) (trailing s) (bw s).

Definition set_ms (s : GorillaTimeSeries) (v : float64) (l t : Z) : GorillaTimeSeries :=
  mkGorilla (curCount s) (fullResolution s) (smartEncoding s) (Ts s) (Tms s) (curTime s)
    (curDelta s) v l t (numValues s) (curVals s) (leading s) (trailing s) (bw s).

Definition set_val (s : GorillaTimeSeries) (idx : nat) (v : float64) : GorillaTimeSeries :=
  mkGorilla (curCount s) (fullResolution s) (smartEncoding s) (Ts s) (Tms s) (curTime s)
    (curDelta s) (curTimeMs s) (leadingMs s) (trailingMs s) (numValues s)
    (<[idx := v]> (curVals s)) (leading s) (trailing s) (bw s).

Definition set_window (s : GorillaTimeSeries) (idx : nat) (l t : Z) : GorillaTimeSeries :=
  mkGorilla (curCount s) (fullResolution s) (smartEncoding s) (Ts s) (Tms s) (curTime s)
    (curDelta s) (curTimeMs s) (leadingMs s) (trailingMs s) (numValues s) (curVals s)
    (<[idx := l]> (leading s)) (<[idx := t]> (trailing s)) (bw s).

Definition incr_count (s : GorillaTimeSeries) : GorillaTimeSeries :=
  mkGorilla (curCount s + 1) (fullResolution s) (smartEncoding s) (Ts s) (Tms s) (curTime s)
    (curDelta s) (curTimeMs s) (leadingMs s) (trailingMs s) (numValues s) (curVals s)
    (leading s) (trailing s) (bw s).

Definition no_window : Z := 255.

Definition writeHeader (s : GorillaTimeSeries) : option GorillaTimeSeries :=
  let n := Z.to_nat (numValues s) in
  b ← WriteBytes (bw s)
        (string_bytes (if fullResolution s then GORILLA_BIN_SERIES_TAG_NANO_SMART
                       else GORILLA_BIN_SERIES_TAG_SECOND));
  b ← WriteBits b (numValues s) 8;
  b ← WriteBits b (Ts s) 32;
  b ← (if fullResolution s then WriteBits b (Tms s) 32 else Some b);
  Some (mkGorilla (curCount s) (fullResolution s) (smartEncoding s) (Ts s) (Tms s) (curTime s)
          (curDelta s) (if fullResolution s then float_of_Z (Tms s) else curTimeMs s)
          no_window 0 (numValues s) (replicate n 0) (replicate n no_window) (replicate n 0) b).

Definition NewGoriallaTimeSeries (t0 : Z) (options : Options) : option GorillaTimeSeries :=
  let '(ts, tms) := splitNano t0 in
  writeHeader (mkGorilla 0 (HighTimeResolution options) true ts tms 0 0 0 0 0
                 (u8 (NumValues options)) [] [] [] NewBWriter).

(** The end-of-stream record. *)
Definition setFinished (b : BitStream) : option BitStream :=
  b ← WriteBits b 0x0f 4;
  b ← WriteBits b 0xffffffff 32;
  WriteBit b false.

Definition Finish (s : GorillaTimeSeries) : option GorillaTimeSeries :=
  b ← setFinished (bw s); Some (set_bw s b).

Definition series_Count (s : GorillaTimeSeries) : Z := curCount s.

Definition series_Bytes (s : GorillaTimeSeries) : option (list Z) :=
  b ← setFinished (Clone (bw s)); Some (Bytes b).

Definition series_Len (s : GorillaTimeSeries) : Z := Len (bw s).

Definition StartTime (s : GorillaTimeSeries) : Z := combineSecNano (Ts s) (Tms s).

Definition LastTime (s : GorillaTimeSeries) : Z :=
  combineSecNano (curTime s) (uint32_of_float (curTimeMs s)).

Definition series_UnmarshalBinary (s : GorillaTimeSeries) (data : list Z) : GorillaTimeSeries :=
  set_bw s (SetStream (bw s) data).

Definition compressValue (s : GorillaTimeSeries) (curV newV : float64) (lead trail : Z)
  : option (GorillaTimeSeries * Z * Z) :=
  let vDelta := Z.lxor (Float64bits newV) (Float64bits curV) in
  if vDelta =? 0 then
    b ← WriteBit (bw s) false; Some (set_bw s b, lead, trail)
  else
    b ← WriteBit (bw s) true;
    let n_leading := u8 (Clz vDelta) in
    let n_trailing := u8 (Ctz vDelta) in
    let n_leading := if n_leading >=? 32 then 31 else n_leading in
    if negb (lead =? 255) && (n_leading >=? lead) && (n_trailing >=? trail) then
      b ← WriteBit b false;
      b ← WriteBits b (shr 64 vDelta trail) (64 - lead - trail);
      Some (set_bw s b, lead, trail)
    else
      b ← WriteBit b true;
      b ← WriteBits b n_leading 5;
      let sigbits := u8 (64 - n_leading - n_trailing) in
      b ← WriteBits b sigbits 6;
      b ← WriteBits b (shr 64 vDelta n_trailing) sigbits;
      Some (set_bw s b, n_leading, n_trailing).

Definition addValue (s : GorillaTimeSeries) (idx : nat) (v : float64) (isfirst : bool)
  : option GorillaTimeSeries :=
  cur ← curVals s !! idx;
  if isfirst then
    b ← WriteBits (bw s) (Float64bits v) 64;
    Some (set_bw (set_val s idx v) b)
  else
    l ← leading s !! idx;
    t ← trailing s !! idx;
    '(s, l, t) ← compressValue s cur v l t;
    Some (set_val (set_window s idx l t) idx v).

(** The nanosecond part of a time, coded against the previous one. *)
Definition addTimeMs (s : GorillaTimeSeries) (utms : Z) : option GorillaTimeSeries :=
  '(s, l, t) ← compressValue s (curTimeMs s) (float_of_Z utms) (leadingMs s) (trailingMs s);
  Some (set_ms s (float_of_Z utms) l t).

(** The delta-of-delta prefix codes. *)
Definition writeDod (b : BitStream) (dod : Z) : option BitStream :=
  if dod =? 0 then WriteBit b false
  else if (-63 <=? dod) && (dod <=? 64) then
    b ← WriteBits b 0x02 2; WriteBits b (u64 dod) 7
  else if (-255 <=? dod) && (dod <=? 256) then
    b ← WriteBits b 0x06 3; WriteBits b (u64 dod) 9
  else if (-2047 <=? dod) && (dod <=? 2048) then
    b ← WriteBits b 0x0e 4; WriteBits b (u64 dod) 12
  else
    b ← WriteBits b 0x0f 4; WriteBits b (u64 dod) 32.

Definition AddTime (s : GorillaTimeSeries) (t : Z) : option (option goerror * GorillaTimeSeries) :=
  let '(ut, utms) := splitNano t in
  if curTime s =? 0 then
    let d := u32 (ut - Ts s) in
    b ← WriteBits (bw s) d 14;
    let s := set_bw (set_time s ut d) b in
    s ← (if fullResolution s then addTimeMs s utms else Some s);
    Some (None, s)
  else
    let tDelta := u32 (ut - curTime s) in
    if tDelta <? 0 then Some (Some errNegativeTimeDelta, s) else
    b ← writeDod (bw s) (i32 (u32 (tDelta - curDelta s)));
    let s := set_bw (set_time s ut tDelta) b in
    s ← (if fullResolution s then addTimeMs s utms else Some s);
    Some (None, s).

Record point := mkPoint {
  pt_time : Z;
  pt_min : float64;
  pt_max : float64;
  pt_last : float64;
  pt_sum : float64;
  pt_count : Z
}.

(** [switch s.numValues]. *)
Definition addValues (s : GorillaTimeSeries) (p : point) (start : bool)
  : option GorillaTimeSeries :=
  if numValues s =? 5 then
    s ← addValue s 0 (pt_min p) start;
    s ← addValue s 1 (pt_max p) start;
    s ← addValue s 2 (pt_last p) start;
    s ← addValue s 3 (pt_sum p) start;
    addValue s 4 (float_of_Z (pt_count p)) start
  else if numValues s =? 4 then
    s ← addValue s 0 (pt_min p) start;
    s ← addValue s 1 (pt_max p) start;
    s ← addValue s 2 (pt_last p) start;
    addValue s 3 (pt_sum p) start
  else if numValues s =? 3 then
    s ← addValue s 0 (pt_min p) start;
    s ← addValue s 1 (pt_max p) start;
    addValue s 2 (pt_last p) start
  else if numValues s =? 2 then
    s ← addValue s 0 (pt_min p) start;
    addValue s 1 (pt_max p) start
  else addValue s 0 (pt_min p) start.

Definition is_small (p : point) : bool :=
  (pt_count p =? 1) || sameFloatVals (pt_min p) (pt_max p) (pt_last p) (pt_sum p).

Definition AddPoint (s : GorillaTimeSeries) (p : point)
  : option (option goerror * GorillaTimeSeries) :=
  let start := curTime s =? 0 in
  '(err, s) ← AddTime s (pt_time p);
  match err with
  | Some e => Some (Some e, s)
  | None =>
      if smartEncoding s && (numValues s >? 3) then
        if is_small p then
          b ← WriteBit (bw s) false;
          s ← addValue (set_bw s b) 3 (pt_sum p) start;
          Some (None, incr_count s)
        else
          b ← WriteBit (bw s) true;
          s ← addValues (set_bw s b) p start;
          Some (None, incr_count s)
      else
        s ← addValues s p start;
        Some (None, incr_count s)
  end.
