(* ===== verification/GorillaIter.v ===== *)
(** [series/gorilla.go]: the Gorilla iterator. *)
From S2P Require Import Prelude Bits GoBits BitStream Float64 GoStrings Gorilla.

Record GorillaIter := mkIter {
  it_Ts : Z;
  it_fullResolution : bool;
  it_smartEncoding : bool;
  it_curSmartEnc : bool;
  it_curTime : Z;
  it_curVals : list float64;
  it_numValues : Z;
  it_curTimeMs : float64;
  it_leadingMs : Z;
  it_trailingMs : Z;
  it_br : BitStream;
  it_leading : list Z;
  it_trailing : list Z;
  it_start : bool;
  it_finished : bool;
  it_tDelta : Z;
  it_err : option goerror
}.

(** Field updates. *)
Definition it_set_br (it : GorillaIter) (b : BitStream) : GorillaIter :=
  mkIter (it_Ts it) (it_fullResolution it) (it_smartEncoding it) (it_curSmartEnc it)
    (it_curTime it) (it_curVals it) (it_numValues it) (it_curTimeMs it) (it_leadingMs it)
    (it_trailingMs it) b (it_leading it) (it_trailing it) (it_start it) (it_finished it)
    (it_tDelta it) (it_err it).

Definition it_fail (it : GorillaIter) (b : BitStream) (e : goerror) : GorillaIter :=
  mkIter (it_Ts it) (it_fullResolution it) (it_smartEncoding it) (it_curSmartEnc it)
    (it_curTime it) (it_curVals it) (it_numValues it) (it_curTimeMs it) (it_leadingMs it)
    (it_trailingMs it) b (it_leading it) (it_trailing it) (it_start it) (it_finished it)
    (it_tDelta it) (Some e).

Definition it_set_finished (it : GorillaIter) : GorillaIter :=
  mkIter (it_Ts it) (it_fullResolution it) (it_smartEncoding it) (it_curSmartEnc it)
    (it_curTime it) (it_curVals it) (it_numValues it) (it_curTimeMs it) (it_leadingMs it)
    (it_trailingMs it) (it_br it) (it_leading it) (it_trailing it) (it_start it) true
    (it_tDelta it) (it_err it).

Definition it_set_time (it : GorillaIter) (t d : Z) : GorillaIter :=
  mkIter (it_Ts it) (it_fullResolution it) (it_smartEncoding it) (it_curSmartEnc it)
    t (it_curVals it) (it_numValues it) (it_curTimeMs it) (it_leadingMs it)
    (it_trailingMs it) (it_br it) (it_leading it) (it_trailing it) (it_start it)
    (it_finished it) d (it_err it).

Definition it_set_ms (it : GorillaIter) (v : float64) (l t : Z) : GorillaIter :=
  mkIter (it_Ts it) (it_fullResolution it) (it_smartEncoding it) (it_curSmartEnc it)
    (it_curTime it) (it_curVals it) (it_numValues it) v l t (it_br it) (it_leading it)
    (it_trailing it) (it_start it) (it_finished it) (it_tDelta it) (it_err it).

Definition it_set_val (it : GorillaIter) (i : nat) (v : float64) (l t : Z) : GorillaIter :=
  mkIter (it_Ts it) (it_fullResolution it) (it_smartEncoding it) (it_curSmartEnc it)
    (it_curTime it) (<[i := v]> (it_curVals it)) (it_numValues it) (it_curTimeMs it)
    (it_leadingMs it) (it_trailingMs it) (it_br it) (<[i := l]> (it_leading it))
    (<[i := t]> (it_trailing it)) (it_start it) (it_finished it) (it_tDelta it) (it_err it).

Definition it_set_start (it : GorillaIter) (b : bool) : GorillaIter :=
  mkIter (it_Ts it) (it_fullResolution it) (it_smartEncoding it) (it_curSmartEnc it)
    (it_curTime it) (it_curVals it) (it_numValues it) (it_curTimeMs it) (it_leadingMs it)
    (it_trailingMs it) (it_br it) (it_leading it) (it_trailing it) b (it_finished it)
    (it_tDelta it) (it_err it).

Definition it_set_smart (it : GorillaIter) (b : bool) : GorillaIter :=
  mkIter (it_Ts it) (it_fullResolution it) (it_smartEncoding it) b
    (it_curTime it) (it_curVals it) (it_numValues it) (it_curTimeMs it) (it_leadingMs it)
    (it_trailingMs it) (it_br it) (it_leading it) (it_trailing it) (it_start it)
    (it_finished it) (it_tDelta it) (it_err it).

Definition errNotGorilla : goerror := GoError "Not a valid Gorilla Series".

(** ["hh != A && hh != B && hh != C"]. *)
Definition known_tag (hh : list Z) : bool :=
  bool_decide (hh = string_bytes GORILLA_BIN_SERIES_TAG_NANOSECOND) ||
  bool_decide (hh = string_bytes GORILLA_BIN_SERIES_TAG_SECOND) ||
  bool_decide (hh = string_bytes GORILLA_BIN_SERIES_TAG_NANO_SMART).

Definition NewGorillaIterFromBStream (br : BitStream) : GorillaIter + goerror :=
  match ReadBytes (SetCount br 8) 4 with
  | (inr e, _) => inr e
  | (inl hh, br) =>
      if negb (known_tag hh) then inr errNotGorilla else
      let fullrez := negb (bool_decide (hh = string_bytes GORILLA_BIN_SERIES_TAG_SECOND)) in
      match ReadBits br 8 with
      | (inr e, _) => inr e
      | (inl numvals, br) =>
          match ReadBits br 32 with
          | (inr e, _) => inr e
          | (inl t0, br) =>
              let n := Z.to_nat (u8 numvals) in
              let mk ms br :=
                mkIter (u32 t0) fullrez true false 0 (replicate n 0) (u8 numvals) ms 0 0 br
                  (replicate n 0) (replicate n 0) true false 0 None in
              if fullrez then
                match ReadBits br 32 with
                | (inr e, _) => inr e
                | (inl v, br) => inl (mk (float_of_Z v) br)
                end
              else inl (mk 0 br)
          end
      end
  end.

Definition NewGorillaIterFromBytes (b : list Z) : GorillaIter + goerror :=
  NewGorillaIterFromBStream (NewBReader b).

(** [uncompressValue]: the four results and the iterator with its
    reader advanced. *)
Definition uncompressValue (it : GorillaIter) (curV : float64) (o_leading o_trailing : Z)
  : bool * float64 * Z * Z * GorillaIter :=
  if it_start it then
    match ReadBits (it_br it) 64 with
    | (inr e, b) => (false, 0, o_leading, o_trailing, it_fail it b e)
    | (inl tbits, b) => (true, Float64frombits tbits, o_leading, o_trailing, it_set_br it b)
    end
  else
    match ReadBit (it_br it) with
    | (inr e, b) => (false, curV, o_leading, o_trailing, it_fail it b e)
    | (inl false, b) => (true, curV, o_leading, o_trailing, it_set_br it b)
    | (inl true, b) =>
        let finish (leading trailing : Z) (b : BitStream) :=
          let nbits := u8 (64 - leading - trailing) in
          match ReadBits b nbits with
          | (inr e, b) => (false, curV, leading, trailing, it_fail it b e)
          | (inl bits, b) =>
              (true, Float64frombits (Z.lxor (Float64bits curV) (shl 64 bits trailing)),
               leading, trailing, it_set_br it b)
          end in
        match ReadBit b with
        | (inr e, b) => (false, curV, o_leading, o_trailing, it_fail it b e)
        | (inl false, b) => finish o_leading o_trailing b
        | (inl true, b) =>
            match ReadBits b 5 with
            | (inr e, b) => (false, 0, o_leading, o_trailing, it_fail it b e)
            | (inl bits, b) =>
                let leading := u8 bits in
                match ReadBits b 6 with
                | (inr e, b) => (false, 0, o_leading, o_trailing, it_fail it b e)
                | (inl bits, b) =>
                    let mbits := if u8 bits =? 0 then 64 else u8 bits in
                    finish leading (u8 (64 - leading - mbits)) b
                end
            end
        end
    end.

(** [it.curTimeMs, it.leadingMs, it.trailingMs = it.uncompressValue(...)] *)
Definition readTimeMs (it : GorillaIter) : bool * GorillaIter :=
  let '(ok, v, l, t, it) :=
    uncompressValue it (it_curTimeMs it) (it_leadingMs it) (it_trailingMs it) in
  (ok, it_set_ms it v l t).

(** The prefix of the delta-of-delta code: at most four bits, stopping
    at the first zero. *)
Fixpoint readPrefix (n : nat) (d : Z) (b : BitStream) : (Z + goerror) * BitStream :=
  match n with
  | O => (inl d, b)
  | S n =>
      let d := shl 8 d 1 in
      match ReadBit b with
      | (inr e, b) => (inr e, b)
      | (inl false, b) => (inl d, b)
      | (inl true, b) => readPrefix n (Z.lor d 1) b
      end
  end.

Definition dod_size (d : Z) : Z :=
  if d =? 0x02 then 7 else if d =? 0x06 then 9 else if d =? 0x0e then 12 else 0.

(** The rest of [readTimeDelta] once [dod] is known. *)
Definition applyDod (it : GorillaIter) (dod : Z) : bool * GorillaIter :=
  let tDelta := u32 (it_tDelta it + u32 dod) in
  let it := it_set_time it (u32 (it_curTime it + tDelta)) tDelta in
  if negb (it_fullResolution it) then (true, it) else readTimeMs it.

Definition readTimeDelta (it : GorillaIter) : bool * GorillaIter :=
  if it_start it then
    match ReadBits (it_br it) 14 with
    | (inr e, b) => (false, it_fail it b e)
    | (inl tDelta, b) =>
        let d := u32 tDelta in
        let it := it_set_time (it_set_br it b) (u32 (it_Ts it + d)) d in
        if it_fullResolution it then
          let '(ok, it) := readTimeMs (it_set_start it false) in
          (ok, it_set_start it true)
        else (true, it)
    end
  else
    match readPrefix 4 0 (it_br it) with
    | (inr e, b) => (false, it_fail it b e)
    | (inl d, b) =>
        if d =? 0x0f then
          match ReadBits b 32 with
          | (inr e, b) => (false, it_fail it b e)
          | (inl bits, b) =>
              if bits =? 0xffffffff then (false, it_set_finished (it_set_br it b))
              else applyDod (it_set_br it b) (i32 bits)
          end
        else
          let sz := dod_size d in
          if negb (sz =? 0) then
            match ReadBits b sz with
            | (inr e, b) => (false, it_fail it b e)
            | (inl bits, b) =>
                let bits := if bits >? 2 ^ (sz - 1) then u64 (bits - 2 ^ sz) else bits in
                applyDod (it_set_br it b) (i32 bits)
            end
          else applyDod (it_set_br it b) 0
    end.

(** [it.curVals[idx]], panicking out of range. *)
Definition readValue (it : GorillaIter) (idx : nat) : option (bool * GorillaIter) :=
  cur ← it_curVals it !! idx;
  l ← it_leading it !! idx;
  t ← it_trailing it !! idx;
  let '(ok, v, l, t, it) := uncompressValue it cur l t in
  Some (ok, it_set_val it idx v l t).

Fixpoint readValues (n : nat) (i : nat) (it : GorillaIter) : option (bool * GorillaIter) :=
  match n with
  | O => Some (true, it)
  | S n =>
      '(ok, it) ← readValue it i;
      if negb ok then Some (false, it) else readValues n (S i) it
  end.

Definition Next (it : GorillaIter) : option (bool * GorillaIter) :=
  if bool_decide (it_err it <> None) || it_finished it then Some (false, it) else
  let '(ok, it) := readTimeDelta it in
  if negb ok then Some (false, it) else
  let it := it_set_smart it true in
  let body it :=
    '(ok, it) ← (if negb (it_curSmartEnc it) then readValue it 3
                 else readValues (Z.to_nat (it_numValues it)) 0 it);
    if negb ok then Some (false, it) else Some (true, it_set_start it false) in
  if it_smartEncoding it then
    match ReadBit (it_br it) with
    | (inr e, b) => Some (false, it_fail (it_set_smart it false) b e)
    | (inl bit, b) => body (it_set_smart (it_set_br it b) bit)
    end
  else body it.

Definition Values (it : GorillaIter) : option (Z * float64 * float64 * float64 * float64 * Z) :=
  let t := combineSecNano (it_curTime it) (uint32_of_float (it_curTimeMs it)) in
  if negb (it_curSmartEnc it) then
    v ← it_curVals it !! 3%nat; Some (t, v, v, v, v, 1)
  else
    mi ← it_curVals it !! 0%nat;
    mx ← it_curVals it !! 1%nat;
    ls ← it_curVals it !! 2%nat;
    su ← it_curVals it !! 3%nat;
    ct ← it_curVals it !! 4%nat;
    Some (t, mi, mx, ls, su, int64_of_float ct).

Definition Error (it : GorillaIter) : option goerror := it_err it.

(** [Iter() (TimeSeriesIter, error)]. *)
Definition series_Iter (s : GorillaTimeSeries) : option (GorillaIter + goerror) :=
  data ← series_Bytes s; Some (NewGorillaIterFromBytes data).

(** [for iter.Next() { ... iter.Values() ... }]: what a consumer sees.
    [None] is a panic; the fuel bounds the number of points. *)
Fixpoint drain (fuel : nat) (it : GorillaIter)
  : option (list (Z * float64 * float64 * float64 * float64 * Z) * GorillaIter) :=
  match fuel with
  | O => Some ([], it)
  | S fuel =>
      '(ok, it) ← Next it;
      if negb ok then Some ([], it) else
      v ← Values it;
      '(vs, it) ← drain fuel it;
      Some (v :: vs, it)
  end.

(** Adding a list of points, stopping at the first error. *)
Fixpoint AddPoints (s : GorillaTimeSeries) (ps : list point)
  : option (option goerror * GorillaTimeSeries) :=
  match ps with
  | [] => Some (None, s)
  | p :: ps =>
      '(err, s) ← AddPoint s p;
      match err with Some e => Some (Some e, s) | None => AddPoints s ps end
  end.

