(* ===== verification/GorillaProofs.v ===== *)
(** The Gorilla round trip: a series of points written by [AddPoint] and
    finished by [Bytes] is read back by the iterator, point by point. *)
From S2P Require Import Prelude Bits GoBits BitStream Float64 GoStrings Gorilla GorillaIter.

(** ** Delta-of-delta codes *)

Lemma i32_field (n dod : Z) :
  1 <= n <= 31 -> - 2 ^ (n - 1) < dod <= 2 ^ (n - 1) ->
  i32 (let bits := u64 dod mod 2 ^ n in
       if bits >? 2 ^ (n - 1) then u64 (bits - 2 ^ n) else bits) = dod.
Proof.
  intros Hn Hd. assert (Hp : 2 ^ n = 2 * 2 ^ (n - 1)).
  { rewrite <- Z.pow_succ_r by lia. f_equal. lia. }
  pose proof (pow2_pos (n - 1) ltac:(lia)).
  assert (Hle : 2 ^ (n - 1) <= 2 ^ 30) by (apply Z.pow_le_mono_r; lia).
  assert (Hmod : u64 dod mod 2 ^ n = dod mod 2 ^ n) by (apply wrap_wrap_le; lia).
  cbv zeta. rewrite Hmod. destruct (Z.lt_ge_cases dod 0) as [Hneg|Hpos].
  - replace (dod mod 2 ^ n) with (dod + 2 ^ n)
      by (symmetry; rewrite <- (Z_mod_plus_full dod 1), Z.mul_1_l; apply Z.mod_small; lia).
    rewrite Z.gtb_ltb. if_true.
    replace (dod + 2 ^ n - 2 ^ n) with dod by lia.
    rewrite <- (swrap_wrap 32), wrap_wrap_le, swrap_wrap by lia. apply swrap_id; lia.
  - rewrite Z.mod_small by lia. rewrite Z.gtb_ltb. if_false. apply swrap_id; lia.
Qed.

(** The prefix codes the reader recognises. *)
Lemma readPrefix_codes (b : BitStream) (rest : list bool) (d : Z) (code : list bool) :
  In (d, code) [(0x02, [true; false]); (0x06, [true; true; false]);
                (0x0e, [true; true; true; false]); (0x0f, [true; true; true; true]);
                (0x00, [false])] ->
  readable b (code ++ rest) ->
  exists b', readPrefix 4 0 b = (inl d, b') /\ readable b' rest.
Proof.
  intros Hin Hr. repeat destruct Hin as [[= <- <-]|Hin]; try done;
    cbn [readPrefix];
    repeat match goal with
    | H : readable ?b (_ :: _) |- context [ReadBit ?b] => let H' := fresh in read_bit H as H'
    | H : readable ?b ((_ :: _) ++ _) |- context [ReadBit ?b] => let H' := fresh in read_bit H as H'
    end; eexists; (split; [reflexivity|done]).
Qed.

(** What the writer of a delta-of-delta promises to the reader: the
    stream [r] has gained a code from which the reader takes [dod]. *)
Definition dod_coded (r : option BitStream) (bs : list bool) (dod : Z) : Prop :=
  exists b' code, r = Some b' /\ written b' (bs ++ code) /\
    forall it rest, it_start it = false -> readable (it_br it) (code ++ rest) ->
      exists b'', readTimeDelta it = applyDod (it_set_br it b'') dod /\ readable b'' rest.

(** A short code: prefix [d] of [k] bits, then [n] bits. *)
Lemma short_dod_coded (b : BitStream) (bs pre : list bool) (dod k n d : Z) :
  written b bs -> 0 <= k <= 64 -> 1 <= n <= 31 ->
  bits_of (Z.to_nat k) d = pre -> d <> 0x0f -> dod_size d = n ->
  In (d, pre) [(0x02, [true; false]); (0x06, [true; true; false]);
               (0x0e, [true; true; true; false])] ->
  - 2 ^ (n - 1) < dod <= 2 ^ (n - 1) ->
  dod_coded (b ← WriteBits b d k; WriteBits b (u64 dod) n) bs dod.
Proof.
  intros Hw Hk Hn Hpre Hne Hsz Hin Hr. unfold dod_coded.
  write_field Hw as Hw1. write_field Hw1 as Hw2. eexists _, (pre ++ bits_of (Z.to_nat n) (u64 dod)).
  split; [done|]. split; [by rewrite app_assoc, <- Hpre|].
  intros it rest Hst Hread. rewrite <- app_assoc in Hread.
  unfold readTimeDelta. rewrite Hst.
  destruct (readPrefix_codes (it_br it) _ d pre ltac:(simpl in *; tauto) Hread) as (r1 & -> & Hr1).
  rewrite (proj2 (Z.eqb_neq d 0x0f) Hne), Hsz, (proj2 (Z.eqb_neq n 0)) by lia.
  cbn [negb]. read_field Hr1 as Hr2. eexists. split; [|done]. f_equal. by apply i32_field.
Qed.

(** Only -1 has the pattern of the end marker. *)
Lemma dod_not_end (dod : Z) : - 2 ^ 31 <= dod < 2 ^ 31 -> dod <> -1 -> (u32 dod =? 0xffffffff) = false.
Proof.
  intros Hd Hne. apply Z.eqb_neq. unfold wrap. intros Heq. destruct (Z.lt_ge_cases dod 0).
  - rewrite <- (Z_mod_plus_full dod 1), Z.mod_small in Heq by lia. lia.
  - rewrite Z.mod_small in Heq by lia. lia.
Qed.

Lemma wide_dod_coded (b : BitStream) (bs : list bool) (dod : Z) :
  written b bs -> - 2 ^ 31 <= dod < 2 ^ 31 -> dod <> -1 ->
  dod_coded (b ← WriteBits b 0x0f 4; WriteBits b (u64 dod) 32) bs dod.
Proof.
  intros Hw Hd Hne. unfold dod_coded. write_field Hw as Hw1. write_field Hw1 as Hw2.
  eexists _, ([true; true; true; true] ++ bits_of 32 (u64 dod)).
  split; [done|]. split; [by rewrite app_assoc|].
  intros it rest Hst Hread. rewrite <- app_assoc in Hread. unfold readTimeDelta. rewrite Hst.
  destruct (readPrefix_codes (it_br it) _ 0x0f _ ltac:(simpl; tauto) Hread) as (r1 & -> & Hr1).
  rewrite Z.eqb_refl. change 32%nat with (Z.to_nat 32) in Hr1. read_field Hr1 as Hr2.
  fold (wrap 32 (u64 dod)). rewrite wrap_wrap_le, dod_not_end by lia.
  eexists. split; [|done]. f_equal. rewrite swrap_wrap by lia. apply swrap_id; lia.
Qed.

Lemma writeDod_spec (b : BitStream) (bs : list bool) (dod : Z) :
  written b bs -> - 2 ^ 31 <= dod < 2 ^ 31 -> dod_coded (writeDod b dod) bs dod.
Proof.
  intros Hw Hd. unfold writeDod. destruct (dod =? 0) eqn:E0; bool_to_prop.
  { subst dod. unfold dod_coded. write_bit Hw as Hw1. eexists _, [false]. split; [done|]. split; [done|].
    intros it rest Hst Hread. unfold readTimeDelta. rewrite Hst.
    destruct (readPrefix_codes (it_br it) rest 0 [false] ltac:(simpl; tauto) Hread) as (r1 & -> & Hr1).
    by exists r1. }
  destruct ((-63 <=? dod) && (dod <=? 64)) eqn:E1; bool_to_prop.
  { apply (short_dod_coded _ _ [true; false] _ 2 7 0x02); try done; try lia; simpl; tauto. }
  destruct ((-255 <=? dod) && (dod <=? 256)) eqn:E2; bool_to_prop.
  { apply (short_dod_coded _ _ [true; true; false] _ 3 9 0x06); try done; try lia; simpl; tauto. }
  destruct ((-2047 <=? dod) && (dod <=? 2048)) eqn:E3; bool_to_prop.
  { apply (short_dod_coded _ _ [true; true; true; false] _ 4 12 0x0e); try done; try lia; simpl; tauto. }
  apply wide_dod_coded; [done|done|lia].
Qed.

(** ** XOR-compressed values *)

(** A window of significant bits: none yet, or [lead] leading and
    [trail] trailing zeros with at least one bit between them. *)
Definition window_ok (lead trail : Z) : Prop :=
  (lead = 255 /\ trail = 0) \/ (0 <= lead <= 31 /\ 0 <= trail /\ lead + trail <= 63).

(** The reader has the writer's window, once the writer has one. *)
Definition window_match (lead trail o_lead o_trail : Z) : Prop :=
  lead = 255 \/ (o_lead = lead /\ o_trail = trail).

(** A word with [l] leading and [t] trailing zeros is recovered from the
    bits between them. *)
Lemma window_bits (x l t : Z) :
  0 <= l -> 0 <= t -> l + t <= 63 -> 0 <= x < 2 ^ (64 - l) -> x mod 2 ^ t = 0 ->
  shl 64 (shr 64 x t mod 2 ^ (64 - l - t)) t = x.
Proof.
  intros Hl Ht Hlt Hx Hm. unfold shl, shr. rewrite !(proj2 (Z.leb_gt 64 t)) by lia.
  rewrite Z.shiftr_div_pow2 by lia. pose proof (pow2_pos t ltac:(lia)).
  assert (Hxt : x = x / 2 ^ t * 2 ^ t) by (pose proof (Z.div_mod x (2 ^ t)); lia).
  assert (Hsmall : x / 2 ^ t < 2 ^ (64 - l - t)).
  { apply Z.div_lt_upper_bound; [lia|]. rewrite <- Z.pow_add_r by lia.
    replace (t + (64 - l - t)) with (64 - l) by lia. lia. }
  rewrite Z.mod_small by (split; [apply Z.div_pos; lia|lia]).
  rewrite Z.shiftl_mul_pow2, <- Hxt by lia. apply wrap_id. unfold in_width.
  assert (2 ^ (64 - l) <= 2 ^ 64) by (apply Z.pow_le_mono_r; lia). lia.
Qed.

(** The zero counts of a XOR difference bound its bits. *)
Lemma Clz_Ctz_sum (x : Z) : 0 < x < 2 ^ 64 -> Clz x + Ctz x <= 63.
Proof.
  intros Hx. pose proof (Clz_bound x Hx). pose proof (Clz_spec x Hx) as [Hc _].
  pose proof (Ctz_spec x Hx) as (Hct & Hm & Hodd).
  destruct (Z.le_gt_cases (Clz x + Ctz x) 63) as [|Hgt]; [done|].
  assert (2 ^ (64 - Clz x) <= 2 ^ Ctz x) by (apply Z.pow_le_mono_r; lia).
  rewrite Z.div_small in Hodd by lia. done.
Qed.

Lemma mod_pow2_le (x m n : Z) : 0 <= m <= n -> x mod 2 ^ n = 0 -> x mod 2 ^ m = 0.
Proof.
  intros Hmn Hx. pose proof (wrap_wrap_le m n x Hmn) as H. unfold wrap in H.
  rewrite Hx in H. rewrite <- H. apply Z.mod_0_l. pose proof (pow2_pos m). lia.
Qed.

Lemma lxor_cancel (x y : Z) : Z.lxor y (Z.lxor x y) = x.
Proof. by rewrite Z.lxor_comm, Z.lxor_assoc, Z.lxor_nilpotent, Z.lxor_0_r. Qed.

(** The clamped window of a non-zero difference. *)
Lemma fresh_window (x : Z) :
  0 < x < 2 ^ 64 ->
  let nl := if u8 (Clz x) >=? 32 then 31 else u8 (Clz x) in
  let nt := u8 (Ctz x) in
  0 <= nl <= 31 /\ 0 <= nt /\ nl + nt <= 63 /\ x < 2 ^ (64 - nl) /\ x mod 2 ^ nt = 0.
Proof.
  intros Hx. pose proof (Clz_spec x Hx) as [Hc _].
  pose proof (Ctz_spec x Hx) as (Hct & Hm & _).
  pose proof (Clz_Ctz_sum x Hx). pose proof (Clz_bound x Hx).
  rewrite !u8_small by lia. cbv zeta. rewrite Z.geb_leb. case_if.
  - split_and!; try lia. assert (2 ^ (64 - Clz x) <= 2 ^ (64 - 31)) by (apply Z.pow_le_mono_r; lia).
    lia.
  - split_and!; lia.
Qed.

(** Reading the significant bits of a difference in the window
    [l], [t] xors it into the current value. *)
Lemma read_window (b : BitStream) (x curV l t : Z) (rest : list bool) :
  0 <= l -> 0 <= t -> l + t <= 63 -> 0 <= x < 2 ^ (64 - l) -> x mod 2 ^ t = 0 ->
  readable b (bits_of (Z.to_nat (64 - l - t)) (shr 64 x t) ++ rest) ->
  exists b', readable b' rest /\ forall A (k : BitStream -> Z -> A) (e : BitStream -> goerror -> A),
    match ReadBits b (u8 (64 - l - t)) with
    | (inr er, b) => e b er
    | (inl bits, b) => k b (Z.lxor curV (shl 64 bits t))
    end = k b' (Z.lxor curV x).
Proof.
  intros Hl Ht Hlt Hx Hm Hr. rewrite u8_small by lia.
  destruct (ReadBits_field _ _ _ _ Hr ltac:(lia)) as (b' & -> & Hr').
  exists b'. split; [done|]. intros. by rewrite window_bits.
Qed.

(** [decodes code curV newV w w']: reading [code] with the current value
    [curV] and the writer's window [w] gives [newV] and the window [w']. *)
Definition decodes (code : list bool) (curV newV : float64) (w w' : Z * Z) : Prop :=
  forall it ol ot rest, it_start it = false -> window_match w.1 w.2 ol ot ->
    readable (it_br it) (code ++ rest) ->
    exists b ol' ot',
      uncompressValue it curV ol ot = (true, newV, ol', ot', it_set_br it b) /\
      readable b rest /\ window_match w'.1 w'.2 ol' ot'.

(** Codes with the window of the previous value. *)
Lemma decodes_reuse (x curV l t : Z) :
  0 <= l <= 31 -> 0 <= t -> l + t <= 63 -> 0 <= x < 2 ^ (64 - l) -> x mod 2 ^ t = 0 ->
  decodes ([true; false] ++ bits_of (Z.to_nat (64 - l - t)) (shr 64 x t))
    curV (Z.lxor curV x) (l, t) (l, t).
Proof.
  intros Hl Ht Hlt Hx Hm it ol ot rest Hst [?|[-> ->]] Hr; simpl in *; [lia|].
  unfold uncompressValue. rewrite Hst. read_bit Hr as Hr1. read_bit Hr1 as Hr2.
  destruct (read_window _ x curV l t rest ltac:(lia) Ht Hlt Hx Hm Hr2) as (r & Hr3 & Heq).
  exists r, l, t. split; [|split; [done|by right]].
  apply (Heq _ (fun b v => (true, v, l, t, it_set_br it b))
               (fun b e => (false, curV, l, t, it_fail it b e))).
Qed.

(** Codes that carry their own window. *)
Lemma decodes_fresh (x curV l t : Z) (w : Z * Z) :
  0 <= l <= 31 -> 0 <= t -> l + t <= 63 -> 0 <= x < 2 ^ (64 - l) -> x mod 2 ^ t = 0 ->
  decodes ([true; true] ++ bits_of (Z.to_nat 5) l ++ bits_of (Z.to_nat 6) (64 - l - t) ++
           bits_of (Z.to_nat (64 - l - t)) (shr 64 x t))
    curV (Z.lxor curV x) w (l, t).
Proof.
  intros Hl Ht Hlt Hx Hm it ol ot rest Hst _ Hr. rewrite <- !app_assoc in Hr.
  unfold uncompressValue. rewrite Hst. read_bit Hr as Hr1. read_bit Hr1 as Hr2.
  read_field Hr2 as Hr3.
  read_field Hr3 as Hr4.
  assert (Hl5 : u8 (l mod 2 ^ 5) = l).
  { change (2 ^ 5) with 32. rewrite Z.mod_small by lia. apply u8_small. lia. }
  assert (Ht6 : u8 (64 - l - (if u8 ((64 - l - t) mod 2 ^ 6) =? 0 then 64
                              else u8 ((64 - l - t) mod 2 ^ 6))) = t).
  { change (2 ^ 6) with 64. destruct (decide (64 - l - t = 64)) as [E6|].
    - rewrite E6. change (u8 (64 mod 64)) with 0. simpl. rewrite u8_small; lia.
    - rewrite Z.mod_small, !(u8_small (64 - l - t)) by lia. if_false. rewrite u8_small; lia. }
  rewrite Hl5, Ht6.
  destruct (read_window _ x curV l t rest ltac:(lia) Ht Hlt Hx Hm Hr4) as (r & Hr5 & Heq).
  exists r, l, t. split; [|split; [done|by right]].
  apply (Heq _ (fun b v => (true, v, l, t, it_set_br it b))
               (fun b e => (false, curV, l, t, it_fail it b e))).
Qed.

(** What [compressValue] promises to [uncompressValue]. *)
Lemma compressValue_spec (s : GorillaTimeSeries) (bs : list bool) (curV newV lead trail : Z) :
  written (bw s) bs -> in_width 64 curV -> in_width 64 newV -> window_ok lead trail ->
  exists b' l' t' code,
    compressValue s curV newV lead trail = Some (set_bw s b', l', t') /\
    written b' (bs ++ code) /\ window_ok l' t' /\
    decodes code curV newV (lead, trail) (l', t').
Proof.
  intros Hw Hc Hn Hok. unfold compressValue, Float64bits.
  pose proof (lxor_in_width 64 newV curV ltac:(lia) Hn Hc) as Hx. unfold in_width in Hx.
  destruct (Z.lxor newV curV =? 0) eqn:E0; bool_to_prop.
  { apply Z.lxor_eq in E0 as ->. write_bit Hw as Hw1.
    eexists _, lead, trail, [false]. split; [done|]. split; [done|]. split; [done|].
    intros it ol ot rest Hst Hm Hr. unfold uncompressValue. rewrite Hst. read_bit Hr as Hr1.
    by eexists _, ol, ot. }
  pose proof (lxor_cancel newV curV) as Hnew. set (x := Z.lxor newV curV) in *. clearbody x.
  subst newV.
  pose proof (fresh_window x ltac:(lia)) as Hfw. cbv zeta in Hfw. write_bit Hw as Hw1.
  set (nl := if u8 (Clz x) >=? 32 then 31 else u8 (Clz x)) in *.
  set (nt := u8 (Ctz x)) in *. destruct Hfw as (Hnl & Hnt & Hlt & Hxl & Hxm).
  destruct (negb (lead =? 255) && (nl >=? lead) && (nt >=? trail)) eqn:E1.
  - bool_to_prop. destruct Hok as [[? _]|(Hl & Ht & Hltr)]; [lia|].
    write_bit Hw1 as Hw2. write_field Hw2 as Hw3.
    eexists _, lead, trail, _. split; [done|].
    split; [rewrite <- !app_assoc in Hw3; exact Hw3|]. split; [by right|].
    assert (2 ^ (64 - nl) <= 2 ^ (64 - lead)) by (apply Z.pow_le_mono_r; lia).
    apply decodes_reuse; try lia. apply (mod_pow2_le x trail nt); [lia|done].
  - write_bit Hw1 as Hw2. write_field Hw2 as Hw3. rewrite (u8_small (64 - nl - nt)) by lia.
    write_field Hw3 as Hw4. write_field Hw4 as Hw5.
    eexists _, nl, nt, _. split; [done|].
    split; [rewrite <- !app_assoc in Hw5; exact Hw5|]. split; [by right|].
    apply decodes_fresh; done || lia.
Qed.

(** ** Value slots *)

(** The parts of the writer and of the iterator that coding a value
    leaves alone. *)
Definition whead (s : GorillaTimeSeries) :=
  (curCount s, fullResolution s, smartEncoding s, Ts s, Tms s, curTime s, curDelta s,
   curTimeMs s, leadingMs s, trailingMs s, numValues s).

Definition ihead (it : GorillaIter) :=
  (it_Ts it, it_fullResolution it, it_smartEncoding it, it_curSmartEnc it, it_curTime it,
   it_numValues it, it_curTimeMs it, it_leadingMs it, it_trailingMs it, it_start it,
   it_finished it, it_tDelta it, it_err it).

Definition slots_ok (s : GorillaTimeSeries) : Prop :=
  length (curVals s) = 5%nat /\ length (leading s) = 5%nat /\ length (trailing s) = 5%nat /\
  Forall (in_width 64) (curVals s) /\ Forall2 window_ok (leading s) (trailing s).

Definition slots_match (s : GorillaTimeSeries) (it : GorillaIter) : Prop :=
  it_curVals it = curVals s /\ length (it_leading it) = 5%nat /\
  length (it_trailing it) = 5%nat /\
  forall i l t ol ot, leading s !! i = Some l -> trailing s !! i = Some t ->
    it_leading it !! i = Some ol -> it_trailing it !! i = Some ot -> window_match l t ol ot.

(** [reads code s s' start f]: an iterator in step with [s] that runs
    [f] over [code] ends in step with [s']. *)
Definition reads (code : list bool) (s s' : GorillaTimeSeries) (start : bool)
  (f : GorillaIter -> option (bool * GorillaIter)) : Prop :=
  forall it rest, it_start it = start -> slots_match s it ->
    readable (it_br it) (code ++ rest) ->
    exists it', f it = Some (true, it') /\ readable (it_br it') rest /\
      slots_match s' it' /\ ihead it' = ihead it.

Lemma slots_match_insert (s s' : GorillaTimeSeries) (it : GorillaIter) (b : BitStream)
  (i : nat) (v l t ol ot : Z) :
  slots_match s it -> curVals s' = <[i := v]> (curVals s) ->
  leading s' = <[i := l]> (leading s) -> trailing s' = <[i := t]> (trailing s) ->
  window_match l t ol ot -> slots_match s' (it_set_val (it_set_br it b) i v ol ot).
Proof.
  intros (Hv & Hl & Ht & Hm) Ev El Et Hw. split; [by rewrite Ev, <- Hv|].
  split; [by simpl; rewrite length_insert|]. split; [by simpl; rewrite length_insert|].
  intros j l' t' ol' ot'. rewrite El, Et. simpl. rewrite !list_lookup_insert_Some.
  intros [(<- & <- & ?)|(? & ?)] [(? & <- & ?)|(? & ?)]
    [(? & <- & ?)|(? & ?)] [(? & <- & ?)|(? & ?)]; try done. by eapply Hm.
Qed.

(** What [addValue] promises to [readValue]. *)
Lemma addValue_spec (s : GorillaTimeSeries) (bs : list bool) (i : nat) (v : float64) (start : bool) :
  written (bw s) bs -> slots_ok s -> (i < 5)%nat -> in_width 64 v ->
  exists s' code, addValue s i v start = Some s' /\ written (bw s') (bs ++ code) /\
    slots_ok s' /\ whead s' = whead s /\ curVals s' = <[i := v]> (curVals s) /\
    reads code s s' start (fun it => readValue it i).
Proof.
  intros Hw (Hv5 & Hl5 & Ht5 & Hvw & Hwin) Hi Hv. unfold addValue.
  destruct (lookup_lt_is_Some_2 (curVals s) i ltac:(lia)) as [cur Hcur].
  destruct (lookup_lt_is_Some_2 (leading s) i ltac:(lia)) as [l Hl].
  destruct (lookup_lt_is_Some_2 (trailing s) i ltac:(lia)) as [t Ht].
  pose proof (Forall2_lookup_lr _ _ _ _ _ _ Hwin Hl Ht) as Hok.
  assert (Hnext : forall it, slots_match s it -> exists ol ot,
    it_curVals it !! i = Some cur /\ it_leading it !! i = Some ol /\
    it_trailing it !! i = Some ot /\ window_match l t ol ot).
  { intros it (Hiv & Hil & Hit & Hm).
    destruct (lookup_lt_is_Some_2 (it_leading it) i ltac:(lia)) as [ol Hol].
    destruct (lookup_lt_is_Some_2 (it_trailing it) i ltac:(lia)) as [ot Hot].
    exists ol, ot. rewrite Hiv. split_and!; try done. by eapply Hm. }
  rewrite Hcur. cbn [mbind option_bind]. destruct start.
  - write_field Hw as Hw1. eexists _, _. split; [done|]. split; [exact Hw1|].
    split; [|split; [done|split; [done|]]].
    { split_and!; simpl; rewrite ?length_insert; try done. by apply Forall_insert. }
    intros it rest Hst Hm Hr. destruct (Hnext it Hm) as (ol & ot & E1 & E2 & E3 & Hwm).
    unfold readValue, uncompressValue, Float64frombits, Float64bits in *.
    rewrite E1, E2, E3. cbn [mbind option_bind]. rewrite Hst. read_field Hr as Hr1.
    rewrite Z.mod_small by done. eexists. split; [done|]. split; [done|]. split; [|done].
    apply (slots_match_insert s _ it b0 i v l t ol ot Hm); try done; simpl;
      by rewrite list_insert_id.
  - rewrite Hl, Ht. cbn [mbind option_bind].
    pose proof (proj1 (Forall_lookup _ _) Hvw i cur Hcur) as Hcw.
    destruct (compressValue_spec s bs cur v l t Hw Hcw Hv Hok)
      as (b' & l' & t' & code & -> & Hw' & Hok' & Hdec). cbn [mbind option_bind].
    eexists _, code. split; [done|]. split; [exact Hw'|]. split; [|split; [done|split; [done|]]].
    { split_and!; simpl; rewrite ?length_insert; try done.
      - by apply Forall_insert. - by apply Forall2_insert. }
    intros it rest Hst Hm Hr. destruct (Hnext it Hm) as (ol & ot & E1 & E2 & E3 & Hwm).
    destruct (Hdec it ol ot rest Hst Hwm Hr) as (b'' & ol' & ot' & Eu & Hr' & Hwm').
    unfold readValue. rewrite E1, E2, E3. cbn [mbind option_bind]. rewrite Eu.
    eexists. split; [done|]. split; [done|]. split; [|done].
    by apply (slots_match_insert s _ it b'' i v l' t' ol' ot' Hm).
Qed.

(** Writing consecutive slots, as the [switch] of [AddPoint] does. *)
Fixpoint addFrom (s : GorillaTimeSeries) (i : nat) (vs : list float64) (start : bool)
  : option GorillaTimeSeries :=
  match vs with
  | [] => Some s
  | v :: vs => s ← addValue s i v start; addFrom s (S i) vs start
  end.

Definition put_all (i : nat) (vs cur : list float64) : list float64 :=
  take i cur ++ vs ++ drop (i + length vs) cur.

Lemma put_all_cons (i : nat) (v : float64) (vs cur : list float64) :
  (i + S (length vs) <= length cur)%nat ->
  put_all (S i) vs (<[i := v]> cur) = put_all i (v :: vs) cur.
Proof.
  intros Hl. unfold put_all. simpl length.
  rewrite (take_S_r _ i v) by (apply list_lookup_insert_eq; lia).
  rewrite take_insert_ge, drop_insert_lt by lia. rewrite <- app_assoc. simpl.
  by rewrite Nat.add_succ_r.
Qed.

Lemma addFrom_spec (vs : list float64) (s : GorillaTimeSeries) (bs : list bool) (i : nat) (start : bool) :
  written (bw s) bs -> slots_ok s -> (i + length vs <= 5)%nat -> Forall (in_width 64) vs ->
  exists s' code, addFrom s i vs start = Some s' /\ written (bw s') (bs ++ code) /\
    slots_ok s' /\ whead s' = whead s /\ curVals s' = put_all i vs (curVals s) /\
    reads code s s' start (readValues (length vs) i).
Proof.
  revert s bs i. induction vs as [|v vs IH]; intros s bs i Hw Hok Hi Hvs; simpl in *.
  - exists s, []. rewrite app_nil_r. split_and!; try done.
    + unfold put_all. simpl. rewrite Nat.add_0_r. by rewrite take_drop.
    + intros it rest _ Hm Hr. by exists it.
  - apply Forall_cons in Hvs as [Hv Hvs].
    destruct (addValue_spec s bs i v start Hw Hok ltac:(lia) Hv)
      as (s1 & c1 & -> & Hw1 & Hok1 & Hh1 & Hc1 & Hr1). cbn [mbind option_bind].
    destruct (IH s1 _ (S i) Hw1 Hok1 ltac:(lia) Hvs)
      as (s2 & c2 & -> & Hw2 & Hok2 & Hh2 & Hc2 & Hr2).
    exists s2, (c1 ++ c2). rewrite app_assoc. split_and!; try done; [by rewrite Hh2| |].
    + rewrite Hc2, Hc1. apply put_all_cons. destruct Hok as [-> _]. lia.
    + intros it rest Hst Hm Hr. rewrite <- app_assoc in Hr.
      destruct (Hr1 it _ Hst Hm Hr) as (it1 & -> & Hread1 & Hm1 & Hih1). simpl.
      assert (it_start it1 = start) by (injection Hih1; congruence).
      destruct (Hr2 it1 rest ltac:(done) Hm1 Hread1) as (it2 & -> & Hread2 & Hm2 & Hih2).
      exists it2. split_and!; try done. by rewrite Hih2.
Qed.

Definition point_vals (p : point) : list float64 :=
  [pt_min p; pt_max p; pt_last p; pt_sum p; float_of_Z (pt_count p)].

Lemma addValues_addFrom (s : GorillaTimeSeries) (p : point) (start : bool) :
  numValues s = 5 -> addValues s p start = addFrom s 0 (point_vals p) start.
Proof.
  intros Hn. unfold addValues. rewrite Hn. simpl.
  repeat match goal with
  | |- context [addValue ?s ?i ?v ?b] =>
      destruct (addValue s i v b) eqn:?; cbn [mbind option_bind]; try done
  end.
Qed.

(** ** Points *)

(** The writer's invariant for five-value series. *)
Definition series_ok (s : GorillaTimeSeries) : Prop :=
  slots_ok s /\ smartEncoding s = true /\ numValues s = 5 /\
  in_width 64 (curTimeMs s) /\ window_ok (leadingMs s) (trailingMs s) /\
  in_width 32 (Ts s) /\ in_width 32 (curTime s) /\ in_width 32 (curDelta s) /\
  (fullResolution s = false -> curTimeMs s = 0).

(** The iterator agrees with the writer on everything but the time. *)
Definition iter_sync (s : GorillaTimeSeries) (it : GorillaIter) : Prop :=
  slots_match s it /\ it_Ts it = Ts s /\ it_fullResolution it = fullResolution s /\
  it_smartEncoding it = true /\ it_numValues it = 5 /\ it_curTimeMs it = curTimeMs s /\
  window_match (leadingMs s) (trailingMs s) (it_leadingMs it) (it_trailingMs it) /\
  it_finished it = false /\ it_err it = None.

Definition time_sync (s : GorillaTimeSeries) (it : GorillaIter) : Prop :=
  it_curTime it = curTime s /\ it_tDelta it = curDelta s.

Definition iter_match (s : GorillaTimeSeries) (it : GorillaIter) : Prop :=
  iter_sync s it /\ it_start it = (curTime s =? 0) /\ (curTime s <> 0 -> time_sync s it).

(** The times the format can carry after the state [s]: the seconds are
    not zero (zero marks "no point yet"), and the first delta fits in 14
    bits. *)
Definition time_ok (s : GorillaTimeSeries) (t : Z) : Prop :=
  (splitNano t).1 <> 0 /\ (curTime s = 0 -> u32 ((splitNano t).1 - Ts s) < 2 ^ 14).

Lemma splitNano_range (t : Z) : in_width 32 (splitNano t).1 /\ 0 <= (splitNano t).2 < 10 ^ 9.
Proof.
  unfold splitNano, second. case_if; simpl.
  - split; [by apply wrap_range|lia].
  - split; [by apply wrap_range|]. pose proof (Z.mod_pos_bound t (10 ^ 9)).
    rewrite wrap_id; unfold in_width; lia.
Qed.

(** Coding the nanosecond part. *)
Lemma addTimeMs_spec (s : GorillaTimeSeries) (bs : list bool) (ns : Z) :
  written (bw s) bs -> series_ok s -> 0 <= ns < 10 ^ 9 ->
  exists b l t code, addTimeMs s ns = Some (set_ms (set_bw s b) (float_of_Z ns) l t) /\
    written b (bs ++ code) /\ window_ok l t /\ in_width 64 (float_of_Z ns) /\
    forall it rest, it_start it = false -> it_curTimeMs it = curTimeMs s ->
      window_match (leadingMs s) (trailingMs s) (it_leadingMs it) (it_trailingMs it) ->
      readable (it_br it) (code ++ rest) ->
      exists b' ol ot, readTimeMs it = (true, it_set_ms (it_set_br it b') (float_of_Z ns) ol ot) /\
        readable b' rest /\ window_match l t ol ot.
Proof.
  intros Hw (_ & _ & _ & Hms & Hwin & _) Hns.
  assert (Hf : in_width 64 (float_of_Z ns)) by (apply float_of_Z_width; lia).
  destruct (compressValue_spec s bs (curTimeMs s) (float_of_Z ns) _ _ Hw Hms Hf Hwin)
    as (b & l & t & code & E & Hw' & Hok & Hdec).
  exists b, l, t, code. unfold addTimeMs. rewrite E. split_and!; try done; try apply Hf.
  intros it rest Hst Hcur Hm Hr.
  destruct (Hdec it _ _ rest Hst Hm Hr) as (b' & ol & ot & Eu & Hr' & Hm').
  exists b', ol, ot. unfold readTimeMs. by rewrite Hcur, Eu.
Qed.

(** The state after a time has been coded, with the bit stream [b] and
    the nanosecond coder in the state [ms]. *)
Definition after_time (s : GorillaTimeSeries) (t d : Z) (b : BitStream) (ms : Z * Z * Z)
  : GorillaTimeSeries :=
  set_ms (set_bw (set_time s t d) b) ms.1.1 ms.1.2 ms.2.

Lemma after_time_ok (s : GorillaTimeSeries) (t d : Z) (b : BitStream) (v l tr : Z) :
  series_ok s -> in_width 32 t -> in_width 32 d -> in_width 64 v -> window_ok l tr ->
  (fullResolution s = false -> v = 0) ->
  series_ok (after_time s t d b (v, l, tr)).
Proof.
  intros (Hsl & Hsm & Hnv & _ & _ & HTs & _ & _ & _) Ht Hd Hv Hw Hz.
  split_and!; try done.
Qed.

(** The coded time: the code of the seconds followed, at full
    resolution, by the code of the nanoseconds. *)
Definition reads_time (code : list bool) (s s' : GorillaTimeSeries) : Prop :=
  forall it rest, iter_match s it -> readable (it_br it) (code ++ rest) ->
    exists it', readTimeDelta it = (true, it') /\ readable (it_br it') rest /\
      iter_sync s' it' /\ time_sync s' it' /\ it_start it' = it_start it.

Lemma set_ms_same (s : GorillaTimeSeries) (t d : Z) (b : BitStream) :
  set_bw (set_time s t d) b = after_time s t d b (curTimeMs s, leadingMs s, trailingMs s).
Proof. done. Qed.

(** The end of a time: the nanoseconds at full resolution, nothing
    otherwise. *)
Definition readTimeTail (it : GorillaIter) : bool * GorillaIter :=
  if negb (it_fullResolution it) then (true, it) else readTimeMs it.

Lemma time_tail_spec (s : GorillaTimeSeries) (bs : list bool) (ut d ns : Z) (b : BitStream) :
  written b bs -> series_ok s -> in_width 32 ut -> in_width 32 d -> 0 <= ns < 10 ^ 9 ->
  exists b' ms code,
    (s ← (if fullResolution s then addTimeMs (set_bw (set_time s ut d) b) ns
          else Some (set_bw (set_time s ut d) b));
     Some (@None goerror, s)) = Some (None, after_time s ut d b' ms) /\
    written b' (bs ++ code) /\ series_ok (after_time s ut d b' ms) /\
    ms.1.1 = (if fullResolution s then float_of_Z ns else 0) /\
    forall it rest, iter_sync s it -> readable (it_br it) (code ++ rest) -> it_start it = false ->
      exists r ol ot,
        readTimeTail it = (true, it_set_ms (it_set_br it r) ms.1.1 ol ot) /\
        readable r rest /\ window_match ms.1.2 ms.2 ol ot.
Proof.
  intros Hw Hok Hut Hd Hns. pose proof Hok as (_ & _ & _ & Hms & Hwin & _ & _ & _ & Hz).
  unfold readTimeTail. destruct (fullResolution s) eqn:Hfull.
  - destruct (addTimeMs_spec (set_bw (set_time s ut d) b) _ ns Hw) as
      (b1 & l & t & code & -> & Hw2 & Hwok & Hfw & Hread);
      [rewrite set_ms_same; apply after_time_ok; try done; congruence|done|].
    exists b1, (float_of_Z ns, l, t), code. split; [done|]. split; [done|].
    split; [apply after_time_ok; try done; congruence|]. split; [done|].
    intros it rest (_ & _ & Hf & _ & _ & Hm & Hwm & _) Hr Hst. rewrite Hf, Hfull. cbn [negb].
    by apply Hread.
  - exists b, (curTimeMs s, leadingMs s, trailingMs s), []. rewrite app_nil_r.
    split; [done|]. split; [done|]. split; [apply after_time_ok; try done; by intros _; apply Hz|].
    split; [by apply Hz|]. intros it rest (_ & _ & Hf & _ & _ & Hm & Hwm & _) Hr _.
    exists (it_br it), (it_leadingMs it), (it_trailingMs it). rewrite Hf, Hfull. cbn [negb].
    split; [|done]. simpl. rewrite <- Hm. by destruct it.
Qed.

(** The iterator after a time has been read. *)
Lemma iter_sync_time (s : GorillaTimeSeries) (it : GorillaIter) (ut d : Z)
  (b r : BitStream) (ms : Z * Z * Z) (ol ot : Z) (st : bool) :
  iter_sync s it -> window_match ms.1.2 ms.2 ol ot ->
  let s' := after_time s ut d b ms in
  let it' := it_set_start (it_set_ms (it_set_br (it_set_time it ut d) r) ms.1.1 ol ot) st in
  iter_sync s' it' /\ time_sync s' it'.
Proof. intros (? & ? & ? & ? & ? & ? & ? & ? & ?) Hwm. split; [split_and!; done|done]. Qed.

Lemma first_delta (Ts ut : Z) :
  in_width 32 ut -> u32 (ut - Ts) < 2 ^ 14 ->
  u32 (u32 (ut - Ts) mod 2 ^ 14) = u32 (ut - Ts) /\ u32 (Ts + u32 (ut - Ts)) = ut.
Proof.
  intros Hut H14. assert (Hd : in_width 32 (u32 (ut - Ts))) by (by apply wrap_range).
  split; [rewrite Z.mod_small by (unfold in_width in Hd; lia); by apply wrap_id|].
  rewrite wrap_add_r. replace (Ts + (ut - Ts)) with ut by lia. by apply wrap_id.
Qed.

(** The first time of a series: 14 bits of delta from the start time. *)
Lemma first_time_spec (s : GorillaTimeSeries) (bs : list bool) (ut ns : Z) :
  written (bw s) bs -> series_ok s -> curTime s = 0 -> in_width 32 ut ->
  0 <= ns < 10 ^ 9 -> u32 (ut - Ts s) < 2 ^ 14 ->
  let d := u32 (ut - Ts s) in
  exists b ms code,
    (b ← WriteBits (bw s) d 14;
     let s := set_bw (set_time s ut d) b in
     s ← (if fullResolution s then addTimeMs s ns else Some s);
     Some (@None goerror, s)) = Some (None, after_time s ut d b ms) /\
    written b (bs ++ code) /\ series_ok (after_time s ut d b ms) /\
    ms.1.1 = (if fullResolution s then float_of_Z ns else 0) /\
    reads_time code s (after_time s ut d b ms).
Proof.
  intros Hw Hok Hc0 Hut Hns Hd14 d. destruct (first_delta _ _ Hut Hd14) as [Hdd Hback].
  fold d in Hdd, Hback. write_field Hw as Hw1. cbv zeta.
  change (fullResolution (set_bw _ _)) with (fullResolution s).
  destruct (time_tail_spec s _ ut d ns b Hw1 Hok Hut ltac:(by apply wrap_range) Hns)
    as (b1 & ms & code & -> & Hw2 & Hok2 & Hms & Hread).
  exists b1, ms, (bits_of (Z.to_nat 14) d ++ code). rewrite app_assoc. do 4 (split; [done|]).
  intros it rest (Hsync & Hst & _) Hr. rewrite <- app_assoc in Hr.
  unfold readTimeDelta. rewrite Hst, Hc0. cbn [Z.eqb]. read_field Hr as Hr1.
  assert (HT : it_Ts it = Ts s) by apply Hsync. rewrite !Hdd, HT, Hback.
  destruct (Hread (it_set_start (it_set_time (it_set_br it b0) ut d) false) rest)
    as (r & ol & ot & E & Hr2 & Hwm); [done..|].
  destruct (iter_sync_time s it ut d b1 r ms ol ot true Hsync Hwm) as [Hs' Ht'].
  unfold readTimeTail in E. simpl it_fullResolution in *.
  destruct (it_fullResolution it); cbn [negb] in E.
  - rewrite E. eexists. split; [done|]. split; [done|]. by split; [|split].
  - injection E as E1 E3 E4 E2. exists (it_set_time (it_set_br it b0) ut d).
    split; [done|]. split; [by simpl; rewrite E2|].
    destruct Hs' as (? & ? & ? & ? & ? & ? & Hwm' & ? & ?).
    split; [|split; [done|by simpl; rewrite Hst, Hc0]].
    split_and!; try done; simpl in *; congruence.
Qed.

(** A later time: the delta-of-delta code. *)
Lemma next_delta (cur delta ut : Z) :
  in_width 32 ut ->
  let d := u32 (ut - cur) in
  u32 (delta + u32 (i32 (u32 (d - delta)))) = d /\ u32 (cur + d) = ut.
Proof.
  intros Hut d. assert (Hd : in_width 32 d) by (by apply wrap_range). split.
  - rewrite wrap_swrap, wrap_wrap, wrap_add_r by lia.
    replace (delta + (d - delta)) with d by lia. by apply wrap_id.
  - unfold d. rewrite wrap_add_r. replace (cur + (ut - cur)) with ut by lia. by apply wrap_id.
Qed.

Lemma next_time_spec (s : GorillaTimeSeries) (bs : list bool) (ut ns : Z) :
  written (bw s) bs -> series_ok s -> curTime s <> 0 -> in_width 32 ut ->
  0 <= ns < 10 ^ 9 ->
  let d := u32 (ut - curTime s) in
  exists b ms code,
    (b ← writeDod (bw s) (i32 (u32 (d - curDelta s)));
     let s := set_bw (set_time s ut d) b in
     s ← (if fullResolution s then addTimeMs s ns else Some s);
     Some (@None goerror, s)) = Some (None, after_time s ut d b ms) /\
    written b (bs ++ code) /\ series_ok (after_time s ut d b ms) /\
    ms.1.1 = (if fullResolution s then float_of_Z ns else 0) /\
    reads_time code s (after_time s ut d b ms).
Proof.
  intros Hw Hok Hc0 Hut Hns d.
  destruct (next_delta (curTime s) (curDelta s) ut Hut) as [Hdelta Hback]. fold d in Hdelta, Hback.
  set (dod := i32 (u32 (d - curDelta s))) in *.
  destruct (writeDod_spec (bw s) bs dod Hw) as (b & code & -> & Hw1 & Hread1);
    [apply (swrap_range 32); lia|].
  cbn [mbind option_bind]. cbv zeta. change (fullResolution (set_bw _ _)) with (fullResolution s).
  destruct (time_tail_spec s _ ut d ns b Hw1 Hok Hut ltac:(by apply wrap_range) Hns)
    as (b1 & ms & code2 & -> & Hw2 & Hok2 & Hms & Hread2).
  exists b1, ms, (code ++ code2). rewrite app_assoc. do 4 (split; [done|]).
  intros it rest (Hsync & Hst & Hts) Hr. rewrite <- app_assoc in Hr.
  destruct (Hts Hc0) as [Ht HD]. rewrite (proj2 (Z.eqb_neq _ _) Hc0) in Hst.
  destruct (Hread1 it _ Hst Hr) as (r1 & -> & Hr1).
  destruct (Hread2 (it_set_time (it_set_br it r1) ut d) rest)
    as (r & ol & ot & E & Hr2 & Hwm); [done..|].
  destruct (iter_sync_time s it ut d b1 r ms ol ot false Hsync Hwm) as [Hs' Ht'].
  exists (it_set_ms (it_set_br (it_set_time it ut d) r) ms.1.1 ol ot).
  split; [|by split; [|split]].
  etrans; [|exact E]. unfold applyDod, readTimeTail. simpl. by rewrite HD, Hdelta, Ht, Hback.
Qed.

Lemma AddTime_spec (s : GorillaTimeSeries) (bs : list bool) (t : Z) :
  written (bw s) bs -> series_ok s -> time_ok s t ->
  exists s' code, AddTime s t = Some (None, s') /\ written (bw s') (bs ++ code) /\
    series_ok s' /\ curVals s' = curVals s /\ curTime s' = (splitNano t).1 /\
    curTimeMs s' = (if fullResolution s then float_of_Z (splitNano t).2 else 0) /\
    fullResolution s' = fullResolution s /\ Ts s' = Ts s /\ reads_time code s s'.
Proof.
  intros Hw Hok [Hne H14]. destruct (splitNano_range t) as [Hut Hns].
  unfold AddTime. destruct (splitNano t) as [ut ns]. cbn [fst snd] in *.
  destruct (curTime s =? 0) eqn:E; bool_to_prop.
  - destruct (first_time_spec s bs ut ns Hw Hok E Hut Hns (H14 E))
      as (b & ms & code & Heq & Hw' & Hok' & Hms & Hr).
    cbv zeta in *. rewrite Heq. by eexists _, code.
  - assert (Hge : (u32 (ut - curTime s) <? 0) = false).
    { apply Z.ltb_ge. pose proof (wrap_range 32 (ut - curTime s)). unfold in_width in *. lia. }
    destruct (next_time_spec s bs ut ns Hw Hok E Hut Hns)
      as (b & ms & code & Heq & Hw' & Hok' & Hms & Hr).
    cbv zeta in *. rewrite Hge, Heq. by eexists _, code.
Qed.

Definition point_ok (p : point) : Prop :=
  in_width 64 (pt_min p) /\ in_width 64 (pt_max p) /\ in_width 64 (pt_last p) /\
  in_width 64 (pt_sum p) /\ - 2 ^ 63 <= pt_count p < 2 ^ 63.

(** What a reader sees of a point: the time at the series' resolution;
    the five values, or the sum alone when the point is small. *)
Definition decoded (full : bool) (p : point) : Z * float64 * float64 * float64 * float64 * Z :=
  let '(ut, ns) := splitNano (pt_time p) in
  let t := combineSecNano ut (if full then ns else 0) in
  if is_small p then (t, pt_sum p, pt_sum p, pt_sum p, pt_sum p, 1)
  else (t, pt_min p, pt_max p, pt_last p, pt_sum p, int64_of_float (float_of_Z (pt_count p))).

Lemma point_vals_ok (p : point) : point_ok p -> Forall (in_width 64) (point_vals p).
Proof.
  intros (H1 & H2 & H3 & H4 & H5). unfold point_vals.
  repeat (constructor; [done || (apply float_of_Z_width; lia)|]). constructor.
Qed.

Lemma decoded_time (s : GorillaTimeSeries) (t : Z) (full : bool) :
  curTimeMs s = (if full then float_of_Z (splitNano t).2 else 0) ->
  uint32_of_float (curTimeMs s) = (if full then (splitNano t).2 else 0).
Proof.
  intros ->. destruct full; [|done]. apply uint32_float_roundtrip.
  pose proof (splitNano_range t). unfold in_width. lia.
Qed.

(** Coding the values of a point leaves the rest of the series as it is. *)
Lemma series_ok_values (s s' : GorillaTimeSeries) :
  series_ok s -> slots_ok s' -> whead s' = whead s -> series_ok s'.
Proof.
  unfold series_ok.
  intros (_ & Hr) Hsl Hh. unfold whead in Hh. injection Hh as ? ? ? ? ? ? ? ? ? ? ?.
  split; [done|]. by repeat match goal with H : _ s' = _ s |- _ => rewrite H; clear H end.
Qed.

Lemma iter_sync_values (s s' : GorillaTimeSeries) (it it' : GorillaIter) :
  iter_sync s it -> time_sync s it -> slots_match s' it' -> whead s' = whead s ->
  ihead it' = ihead it -> iter_sync s' it' /\ time_sync s' it'.
Proof.
  unfold iter_sync, time_sync.
  intros (_ & Hr) [Ht Hd] Hm Hh Hi. unfold whead, ihead in *.
  injection Hh as ? ? ? ? ? ? ? ? ? ? ?. injection Hi as ? ? ? ? ? ? ? ? ? ? ? ? ?.
  repeat match goal with
  | H : _ s' = _ s |- _ => rewrite H; clear H
  | H : _ it' = _ it |- _ => rewrite H; clear H
  end. done.
Qed.

(** One point: what [AddPoint] promises to [Next] and [Values]. *)
Definition reads_point (code : list bool) (s s' : GorillaTimeSeries) (p : point) : Prop :=
  forall it rest, iter_match s it -> readable (it_br it) (code ++ rest) ->
    exists it', Next it = Some (true, it') /\ readable (it_br it') rest /\
      iter_match s' it' /\ Values it' = Some (decoded (fullResolution s) p).

Lemma put_all_5 (vs cur : list float64) :
  length vs = 5%nat -> length cur = 5%nat -> put_all 0 vs cur = vs.
Proof.
  intros Hv Hc. unfold put_all. rewrite take_0, Hv, drop_ge by lia. apply app_nil_r.
Qed.

(** The values of a point, small or full, after its time. *)
Lemma values_spec (s : GorillaTimeSeries) (bs : list bool) (p : point) (start : bool) :
  written (bw s) bs -> series_ok s -> point_ok p ->
  exists s' code,
    (if is_small p then
       b ← WriteBit (bw s) false; addValue (set_bw s b) 3 (pt_sum p) start
     else
       b ← WriteBit (bw s) true; addValues (set_bw s b) p start) = Some s' /\
    written (bw s') (bs ++ negb (is_small p) :: code) /\ slots_ok s' /\ whead s' = whead s /\
    (if is_small p then curVals s' !! 3%nat = Some (pt_sum p)
     else curVals s' = point_vals p) /\
    reads code s s' start
      (if is_small p then fun it => readValue it 3 else readValues 5 0).
Proof.
  intros Hw (Hsl & _ & Hnv & _) Hp. pose proof Hp as (_ & _ & _ & Hsum & _).
  destruct (is_small p).
  - write_bit Hw as Hw1.
    destruct (addValue_spec (set_bw s b) _ 3 (pt_sum p) start Hw1 Hsl ltac:(lia) Hsum)
      as (s' & code & -> & Hw2 & Hok & Hh & Hv & Hr).
    exists s', code. rewrite <- app_assoc in Hw2. split_and!; try done.
    rewrite Hv. apply list_lookup_insert_eq. destruct Hsl as [Hl5 _]. simpl. lia.
  - write_bit Hw as Hw1. rewrite addValues_addFrom by done.
    destruct (addFrom_spec (point_vals p) (set_bw s b) _ 0 start Hw1 Hsl ltac:(simpl; lia)
      (point_vals_ok p Hp)) as (s' & code & -> & Hw2 & Hok & Hh & Hv & Hr).
    exists s', code. rewrite <- app_assoc in Hw2. split_and!; try done.
    rewrite Hv. apply put_all_5; [done|]. apply Hsl.
Qed.

(** Reading a point whose time and values have been coded. *)
Lemma reads_point_spec (s s1 s2 : GorillaTimeSeries) (c1 c2 : list bool) (p : point) :
  (splitNano (pt_time p)).1 <> 0 -> curTime s1 = (splitNano (pt_time p)).1 ->
  curTimeMs s1 = (if fullResolution s then float_of_Z (splitNano (pt_time p)).2 else 0) ->
  numValues s1 = 5 -> smartEncoding s1 = true -> reads_time c1 s s1 -> whead s2 = whead s1 ->
  (if is_small p then curVals s2 !! 3%nat = Some (pt_sum p) else curVals s2 = point_vals p) ->
  reads c2 s1 s2 (curTime s =? 0)
    (if is_small p then fun it => readValue it 3 else readValues 5 0) ->
  reads_point (c1 ++ negb (is_small p) :: c2) s (incr_count s2) p.
Proof.
  intros Hne Hct Hms Hnv Hsmart Hr1 Hh2 Hv2 Hr2 it rest Hmatch Hr. rewrite <- app_assoc in Hr.
  pose proof Hmatch as ((_ & _ & _ & _ & _ & _ & _ & Hfin & Herr) & Hst & _).
  destruct (Hr1 it _ Hmatch Hr) as (it1 & Er1 & Hread1 & Hsync1 & Hts1 & Hst1).
  pose proof Hsync1 as (Hsm1 & _ & _ & Hse1 & Hn1 & _).
  unfold Next. rewrite Herr, Hfin, Er1. cbn [negb orb bool_decide]. simpl (_ || _).
  cbn [negb]. change (it_smartEncoding (it_set_smart it1 true)) with (it_smartEncoding it1).
  rewrite Hse1. cbn [app] in Hread1. destruct (ReadBit_readable _ _ _ Hread1) as (r & Eb & Hread2).
  change (it_br (it_set_smart it1 true)) with (it_br it1). rewrite Eb.
  set (it2 := it_set_smart (it_set_br (it_set_smart it1 true) r) (negb (is_small p))).
  destruct (Hr2 it2 rest) as (it3 & Er3 & Hread3 & Hsm3 & Hih3);
    [simpl; by rewrite Hst1, Hst|exact Hsm1|done|].
  destruct (iter_sync_values s1 s2 it2 it3) as [Hsync3 Hts3]; try done.
  replace (if negb (it_curSmartEnc it2) then readValue it2 3
           else readValues (Z.to_nat (it_numValues it2)) 0 it2) with (Some (true, it3))
    by (simpl; rewrite Hn1, negb_involutive; by destruct (is_small p)).
  cbn [mbind option_bind negb]. eexists. split; [done|]. split; [done|].
  unfold whead in Hh2. injection Hh2 as _ _ _ _ _ Hct2 _ Hms2 _ _ _.
  unfold ihead in Hih3. injection Hih3 as _ _ _ Hsm _ _ _ _ _ _ _ _ _.
  split.
  - split; [done|]. split; [|done]. simpl. rewrite Hct2, Hct. symmetry. by apply Z.eqb_neq.
  - destruct Hts3 as [Htime _]. destruct Hsync3 as ((Hcv & _) & _ & _ & _ & _ & Hcms & _).
    unfold Values, decoded. simpl. rewrite Hsm, negb_involutive, Htime, Hct2, Hct, Hcms, Hcv.
    rewrite Hms2, (decoded_time s1 _ _ Hms).
    destruct (splitNano (pt_time p)) as [ut ns]. simpl.
    destruct (is_small p); by rewrite Hv2.
Qed.

Lemma AddPoint_spec (s : GorillaTimeSeries) (bs : list bool) (p : point) :
  written (bw s) bs -> series_ok s -> point_ok p -> time_ok s (pt_time p) ->
  exists s' code, AddPoint s p = Some (None, s') /\ written (bw s') (bs ++ code) /\
    series_ok s' /\ curTime s' <> 0 /\ fullResolution s' = fullResolution s /\
    reads_point code s s' p.
Proof.
  intros Hw Hok Hp Ht. destruct (AddTime_spec s bs (pt_time p) Hw Hok Ht)
    as (s1 & c1 & E1 & Hw1 & Hok1 & _ & Hct & Hms & Hfull & _ & Hr1).
  destruct (values_spec s1 _ p (curTime s =? 0) Hw1 Hok1 Hp)
    as (s2 & c2 & E2 & Hw2 & Hsl2 & Hh2 & Hv2 & Hr2).
  pose proof Hok1 as (_ & Hsmart & Hnv & _). pose proof Ht as [Hne _].
  exists (incr_count s2), (c1 ++ negb (is_small p) :: c2). split; [|split; [by rewrite app_assoc|]].
  - unfold AddPoint. rewrite E1. cbn [mbind option_bind]. rewrite Hsmart, Hnv. simpl (_ && _).
    destruct (is_small p), (WriteBit (bw s1) _); cbn [mbind option_bind] in *; try done;
      by rewrite E2.
  - split; [exact (series_ok_values s1 s2 Hok1 Hsl2 Hh2)|].
    split; [|split; [|by apply (reads_point_spec s s1 s2 c1 c2 p Hne)]];
      unfold whead in Hh2; injection Hh2; simpl; congruence.
Qed.

(** ** Whole series *)

Definition reads_points (code : list bool) (s s' : GorillaTimeSeries) (ps : list point) : Prop :=
  forall it rest, iter_match s it -> readable (it_br it) (code ++ rest) ->
    exists it', readable (it_br it') rest /\ iter_match s' it' /\
      forall fuel, drain (length ps + fuel) it =
        ('(vs, it'') ← drain fuel it'; Some (map (decoded (fullResolution s)) ps ++ vs, it'')).

Lemma AddPoints_spec (ps : list point) (s : GorillaTimeSeries) (bs : list bool) :
  written (bw s) bs -> series_ok s ->
  Forall (fun p => point_ok p /\ (splitNano (pt_time p)).1 <> 0) ps ->
  (forall p, head ps = Some p -> time_ok s (pt_time p)) ->
  exists s' code, AddPoints s ps = Some (None, s') /\ written (bw s') (bs ++ code) /\
    series_ok s' /\ (ps <> [] -> curTime s' <> 0) /\ reads_points code s s' ps.
Proof.
  revert s bs. induction ps as [|p ps IH]; intros s bs Hw Hok Hps Hhd.
  { exists s, []. rewrite app_nil_r. split_and!; try done. intros it rest Hm Hr. exists it.
    split_and!; try done. intros fuel. simpl. by destruct (drain fuel it) as [[vs it'']|]. }
  apply Forall_cons in Hps as [[Hp Hne] Hps].
  destruct (AddPoint_spec s bs p Hw Hok Hp (Hhd p eq_refl))
    as (s1 & c1 & E1 & Hw1 & Hok1 & Hct1 & Hf1 & Hr1).
  destruct (IH s1 _ Hw1 Hok1 Hps) as (s2 & c2 & E2 & Hw2 & Hok2 & Hct2 & Hr2).
  { intros q Hq. split; [|done]. destruct ps as [|q' ps]; [done|]. injection Hq as <-.
    by apply Forall_cons in Hps as [[_ ?] _]. }
  exists s2, (c1 ++ c2). cbn [AddPoints]. rewrite E1. cbn [mbind option_bind].
  split; [done|]. split; [by rewrite app_assoc|]. split; [done|]. split.
  { intros _. destruct ps; [injection E2 as <-; done|by apply Hct2]. }
  intros it rest Hm Hr. rewrite <- app_assoc in Hr.
  destruct (Hr1 it _ Hm Hr) as (it1 & En & Hread1 & Hm1 & Ev).
  destruct (Hr2 it1 rest Hm1 Hread1) as (it2 & Hread2 & Hm2 & Hd).
  exists it2. split_and!; try done. intros fuel. cbn [length Nat.add drain].
  rewrite En. cbn [mbind option_bind negb]. rewrite Ev, Hd, Hf1. cbn [mbind option_bind].
  by destruct (drain fuel it2) as [[vs it'']|].
Qed.

Lemma bytes_bits_prefix (l data : list Z) (rest : list bool) :
  Forall (in_width 8) l -> Forall (in_width 8) data ->
  bytes_bits data = bytes_bits l ++ rest ->
  exists data', data = l ++ data' /\ bytes_bits data' = rest.
Proof.
  revert data. induction l as [|x l IH]; intros data Hl Hd H; [by exists data|].
  apply Forall_cons in Hl as [Hx Hl]. rewrite bytes_bits_cons, <- app_assoc in H.
  destruct data as [|y data]; [done|]. apply Forall_cons in Hd as [Hy Hd].
  rewrite bytes_bits_cons in H. apply app_inj_1 in H as [Hxy H]; [|by rewrite !length_bits_of].
  apply bits_of_8_inj in Hxy as ->; [|done..].
  destruct (IH data Hl Hd H) as (data' & -> & Hd'). by exists data'.
Qed.

Definition header_tag (full : bool) : list Z :=
  string_bytes (if full then GORILLA_BIN_SERIES_TAG_NANO_SMART else GORILLA_BIN_SERIES_TAG_SECOND).

Lemma header_tag_ok (full : bool) : Forall (in_width 8) (header_tag full).
Proof. destruct full; repeat (constructor; [done|]); constructor. Qed.

Lemma fresh_slots_ok (s : GorillaTimeSeries) :
  curVals s = replicate 5 0 -> leading s = replicate 5 no_window ->
  trailing s = replicate 5 0 -> slots_ok s.
Proof.
  intros Hv Hl Ht. unfold slots_ok. rewrite Hv, Hl, Ht, !length_replicate. split_and!; try done.
  - by apply Forall_replicate.
  - apply Forall2_replicate. by left.
Qed.

Lemma fresh_slots_match (s : GorillaTimeSeries) (it : GorillaIter) :
  leading s = replicate 5 no_window -> it_curVals it = curVals s ->
  it_leading it = replicate 5 0 -> it_trailing it = replicate 5 0 -> slots_match s it.
Proof.
  intros Hl Hv Hil Hit. unfold slots_match. rewrite Hl, Hv, Hil, Hit, !length_replicate.
  split_and!; try done. intros i l t ol ot [-> _]%lookup_replicate. by left.
Qed.

(** Reading the tag of a serialised series. *)
Lemma read_tag (full : bool) (data : list Z) (rest : list bool) :
  Forall (in_width 8) data -> bytes_bits data = bytes_bits (header_tag full) ++ rest ->
  exists r, ReadBytes (SetCount (NewBReader data) 8) 4 = (inl (header_tag full), r) /\
    readable r rest.
Proof.
  intros Hd Hbits.
  destruct (bytes_bits_prefix _ data _ (header_tag_ok full) Hd Hbits) as (data' & -> & <-).
  destruct (ReadBytes_readable (header_tag full) data'
              (SetCount (NewBReader (header_tag full ++ data')) 8))
    as (r & E & Hr); [done|done|by destruct full|done|].
  exists r. split; [|done]. rewrite <- E. by destruct full.
Qed.

(** The header an empty series writes, and the iterator it gives. *)
Lemma NewGorilla_spec (t0 : Z) (full : bool) (h : string) :
  exists s header, NewGoriallaTimeSeries t0 (mkOptions 5 full h) = Some s /\
    written (bw s) header /\ series_ok s /\ curTime s = 0 /\ Ts s = (splitNano t0).1 /\
    fullResolution s = full /\
    forall data rest, Forall (in_width 8) data -> bytes_bits data = header ++ rest ->
      exists it, NewGorillaIterFromBytes data = inl it /\ readable (it_br it) rest /\
        iter_match s it.
Proof.
  unfold NewGoriallaTimeSeries. destruct (splitNano_range t0) as [HTs HTms].
  destruct (splitNano t0) as [ts tms]. cbn [fst snd] in *. unfold writeHeader.
  cbn [fullResolution numValues bw Ts Tms NumValues HighTimeResolution].
  destruct (WriteBytes_written _ NewBWriter [] written_NewBWriter (header_tag_ok full))
    as (b1 & E1 & Hw1). unfold header_tag in E1. rewrite E1. cbn [mbind option_bind].
  change (u8 5) with 5. write_field Hw1 as Hw2. write_field Hw2 as Hw3. clear E1.
  assert (Htms : in_width 64 (float_of_Z tms)) by (apply float_of_Z_width; lia).
  assert (Hmsz : tms mod 2 ^ 32 = tms) by (apply Z.mod_small; lia).
  assert (Htsz : u32 (ts mod 2 ^ 32) = ts) by (rewrite Z.mod_small by done; by apply wrap_id).
  destruct full.
  - write_field Hw3 as Hw4. eexists _, _. split; [done|]. split; [exact Hw4|].
    split; [split; [by apply fresh_slots_ok|split_and!; try done; by left]|].
    do 3 (split; [done|]). intros data rest Hd Hbits. rewrite app_nil_l, <- !app_assoc in Hbits.
    destruct (read_tag true data _ Hd Hbits) as (r1 & E & Hr1).
    unfold NewGorillaIterFromBytes, NewGorillaIterFromBStream. rewrite E. cbn iota.
    read_field Hr1 as Hr2. read_field Hr2 as Hr3. cbn iota. read_field Hr3 as Hr4.
    rewrite Hmsz, Htsz. eexists. split; [done|]. split; [exact Hr4|].
    split; [|done]. split; [by apply fresh_slots_match|]. split_and!; try done. by left.
  - eexists _, _. split; [done|]. split; [exact Hw3|].
    split; [split; [by apply fresh_slots_ok|split_and!; try done; by left]|].
    do 3 (split; [done|]). intros data rest Hd Hbits. rewrite app_nil_l, <- !app_assoc in Hbits.
    destruct (read_tag false data _ Hd Hbits) as (r1 & E & Hr1).
    unfold NewGorillaIterFromBytes, NewGorillaIterFromBStream. rewrite E. cbn iota.
    read_field Hr1 as Hr2. read_field Hr2 as Hr3. cbn iota.
    rewrite Htsz. eexists. split; [done|]. split; [exact Hr3|].
    split; [|done]. split; [by apply fresh_slots_match|]. split_and!; try done. by left.
Qed.

Definition end_marker : list bool :=
  bits_of (Z.to_nat 4) 0x0f ++ bits_of (Z.to_nat 32) 0xffffffff ++ [false].

Lemma setFinished_spec (b : BitStream) (bs : list bool) :
  written b bs -> exists b', setFinished b = Some b' /\ written b' (bs ++ end_marker).
Proof.
  intros Hw. unfold setFinished. write_field Hw as Hw1. write_field Hw1 as Hw2.
  write_bit Hw2 as Hw3. eexists. split; [done|]. by rewrite <- !app_assoc in Hw3.
Qed.

(** The end marker stops the iterator without an error. *)
Lemma Next_end (s : GorillaTimeSeries) (it : GorillaIter) (rest : list bool) :
  iter_match s it -> curTime s <> 0 -> readable (it_br it) (end_marker ++ rest) ->
  exists it', Next it = Some (false, it') /\ it_finished it' = true /\ it_err it' = None.
Proof.
  intros ((_ & _ & _ & _ & _ & _ & _ & Hfin & Herr) & Hst & _) Hne Hr.
  unfold Next. rewrite Herr, Hfin. simpl (_ || _). cbn iota.
  unfold readTimeDelta. rewrite Hst, (proj2 (Z.eqb_neq _ _) Hne).
  unfold end_marker in Hr. rewrite <- !app_assoc in Hr.
  destruct (readPrefix_codes (it_br it) _ 0x0f _ ltac:(simpl; tauto) Hr) as (r1 & -> & Hr1).
  rewrite Z.eqb_refl. read_field Hr1 as Hr2.
  change (0xffffffff mod 2 ^ 32 =? 0xffffffff) with true. cbn [negb].
  eexists. split; [done|]. done.
Qed.

Lemma drain_end (s : GorillaTimeSeries) (it : GorillaIter) (rest : list bool) (fuel : nat) :
  iter_match s it -> curTime s <> 0 -> readable (it_br it) (end_marker ++ rest) ->
  exists it', drain (S fuel) it = Some ([], it') /\ it_finished it' = true /\ it_err it' = None.
Proof.
  intros Hm Hne Hr. destruct (Next_end s it rest Hm Hne Hr) as (it' & E & Hf & He).
  exists it'. cbn [drain]. by rewrite E.
Qed.

(** ** A whole series

    Header, points and end marker, written and read back. *)
Lemma series_reads_back (t0 : Z) (full : bool) (h : string) (p : point) (ps : list point)
  (fuel : nat) :
  Forall (fun p => point_ok p /\ (splitNano (pt_time p)).1 <> 0) (p :: ps) ->
  u32 ((splitNano (pt_time p)).1 - (splitNano t0).1) < 2 ^ 14 ->
  (length (p :: ps) < fuel)%nat ->
  exists s0 s data it it',
    NewGoriallaTimeSeries t0 (mkOptions 5 full h) = Some s0 /\
    AddPoints s0 (p :: ps) = Some (None, s) /\
    series_Bytes s = Some data /\
    NewGorillaIterFromBytes data = inl it /\
    drain fuel it = Some (map (decoded full) (p :: ps), it') /\
    it_finished it' = true /\ it_err it' = None.
Proof.
  intros Hps H14 Hfuel.
  destruct (NewGorilla_spec t0 full h) as (s0 & header & E0 & Hw0 & Hok0 & Hc0 & HTs & Hf0 & Hread0).
  pose proof (Forall_inv Hps) as [_ Hne].
  destruct (AddPoints_spec (p :: ps) s0 header Hw0 Hok0 Hps)
    as (s & code & E1 & Hw1 & _ & Hct & Hread1).
  { intros q [= <-]. split; [done|]. intros _. by rewrite HTs. }
  destruct (setFinished_spec (Clone (bw s)) _ (written_Clone _ _ Hw1)) as (b & E2 & Hw2).
  destruct (written_Bytes b _ Hw2) as [Hd Hbits]. rewrite <- !app_assoc in Hbits.
  destruct (Hread0 _ _ Hd Hbits) as (it & E3 & Hr0 & Hm0).
  destruct (Hread1 it _ Hm0 Hr0) as (it1 & Hr1 & Hm1 & Hdrain).
  destruct (drain_end s it1 _ (fuel - length (p :: ps) - 1) Hm1 (Hct ltac:(done)) Hr1)
    as (it' & Ed & Hfin & Herr).
  exists s0, s, (Bytes b), it, it'. unfold series_Bytes. rewrite E2. split_and!; try done.
  replace fuel with (length (p :: ps) + S (fuel - length (p :: ps) - 1))%nat by lia.
  rewrite Hdrain, Ed, Hf0. cbn [mbind option_bind]. by rewrite app_nil_r.
Qed.
