(* ===== verification/GorillaTheorems.v ===== *)
(** The properties of the Gorilla series: the round trip of a series
    through its bytes, the coding of single values, and what the format
    does outside its domain. *)
From S2P Require Import Prelude Bits GoBits BitStream Float64 GoStrings Gorilla GorillaIter GorillaProofs.

(** C1: A five-value Gorilla series round-trips, within the format's
    domain: seconds that are not zero and a first point less than 2^14
    seconds after the start time (as 32-bit wrap-around).  Whatever 64-bit
    value patterns are added there, at either time resolution, no write
    panics or errors, and iterating over the bytes of the series yields the
    added points in order, one for one -- each time at the series'
    resolution, with nanoseconds only when the series has them; the five
    values bit for bit, or, for a point coded short because its count is
    one or its values coincide, the sum alone -- and then stops at the end
    marker without an error. *)
Theorem gorilla_roundtrip (t0 : Z) (full : bool) (h : string) (p : point) (ps : list point)
  (fuel : nat) :
  Forall (fun p => point_ok p /\ (splitNano (pt_time p)).1 <> 0) (p :: ps) ->
  u32 ((splitNano (pt_time p)).1 - (splitNano t0).1) < 2 ^ 14 ->
  (length (p :: ps) < fuel)%nat ->
  exists s0 s data it it',
    NewGoriallaTimeSeries t0 (mkOptions 5 full h) = Some s0 /\
    AddPoints s0 (p :: ps) = Some (None, s) /\
    series_Bytes s = Some data /\
    NewGorillaIterFromBytes data = inl it /\
    drain fuel it = Some (map (decoded full) (p :: ps), it') /\
    it_finished it' = true /\ it_err it' = None.
Proof. apply series_reads_back. Qed.

(** Three points at nanosecond resolution, the second one coded short. *)
Definition sample_points : list point :=
  [ mkPoint 1500000000123456789 (float_of_Z 1) (float_of_Z 2) (float_of_Z 2) (float_of_Z 3) 2;
    mkPoint 1500000010000000000 (float_of_Z 1) (float_of_Z 1) (float_of_Z 1) (float_of_Z 1) 1;
    mkPoint 1500000009000000001 (float_of_Z 2) (float_of_Z 3) (float_of_Z 1) (float_of_Z 3) 7 ].

Lemma gorilla_roundtrip_witness :
  exists s0 s data it it',
    NewGoriallaTimeSeries 1500000000000000000 (mkOptions 5 true "n/a") = Some s0 /\
    AddPoints s0 sample_points = Some (None, s) /\
    series_Bytes s = Some data /\
    NewGorillaIterFromBytes data = inl it /\
    drain 10 it = Some (map (decoded true) sample_points, it') /\
    it_finished it' = true /\ it_err it' = None.
Proof.
  apply (gorilla_roundtrip 1500000000000000000 true "n/a"
           (mkPoint 1500000000123456789 (float_of_Z 1) (float_of_Z 2) (float_of_Z 2) (float_of_Z 3) 2)
           (tail sample_points) 10).
  - repeat (constructor; [split; [vm_compute; split_and!; (reflexivity || discriminate)|vm_compute; discriminate]|]).
    constructor.
  - reflexivity.
  - simpl. lia.
Defined.

(** The out-of-order guard of [AddTime] can never fire: the delta it
    tests for being negative is unsigned.  Out-of-order points are
    therefore accepted (and, by the round trip, read back as added). *)
Theorem AddTime_never_errors (s : GorillaTimeSeries) (t : Z) (e : goerror)
  (s' : GorillaTimeSeries) : AddTime s t <> Some (Some e, s').
Proof.
  unfold AddTime. destruct (splitNano t) as [ut ns]. intros H.
  pose proof (wrap_range 32 (ut - curTime s) ltac:(lia)) as Hr. unfold in_width in Hr.
  rewrite (proj2 (Z.ltb_ge (u32 (ut - curTime s)) 0)) in H by lia. cbv zeta in H.
  repeat match type of H with
  | (if ?b then _ else _) = _ => destruct b
  | mbind _ ?m = _ => destruct m; [cbn [mbind option_bind] in H|discriminate H]
  end; discriminate H.
Qed.

(** A value equal to its predecessor costs one zero bit. *)
Lemma addValue_repeated (s : GorillaTimeSeries) (bs : list bool) (i : nat) (v : float64) :
  written (bw s) bs -> slots_ok s -> curVals s !! i = Some v ->
  exists s', addValue s i v false = Some s' /\ written (bw s') (bs ++ [false]) /\
    slots_ok s' /\ curVals s' = curVals s /\ numValues s' = numValues s.
Proof.
  intros Hw (H1 & H2 & H3 & H4 & H5) Hv.
  assert (Hi : (i < 5)%nat) by (rewrite <- H1; by eapply lookup_lt_Some).
  destruct (lookup_lt_is_Some_2 (leading s) i) as [l Hl]; [lia|].
  destruct (lookup_lt_is_Some_2 (trailing s) i) as [t Ht]; [lia|].
  unfold addValue. rewrite Hv, Hl, Ht. cbn [mbind option_bind].
  unfold compressValue. rewrite Z.lxor_nilpotent. simpl (0 =? 0).
  write_bit Hw as Hw1. eexists. split; [done|]. split; [done|].
  assert (E : curVals (set_val (set_window (set_bw s b) i l t) i v) = curVals s)
    by (simpl; by apply list_insert_id).
  split; [|done]. split_and!; simpl; rewrite ?length_insert; try done.
  - by rewrite list_insert_id.
  - by rewrite !list_insert_id.
Qed.

Lemma addFrom_repeated (vs : list float64) (s : GorillaTimeSeries) (bs : list bool) (i : nat) :
  written (bw s) bs -> slots_ok s -> (forall j v, vs !! j = Some v -> curVals s !! (i + j)%nat = Some v) ->
  exists s', addFrom s i vs false = Some s' /\
    written (bw s') (bs ++ replicate (length vs) false).
Proof.
  revert s bs i. induction vs as [|v vs IH]; intros s bs i Hw Hsl Hv.
  { exists s. by rewrite app_nil_r. }
  destruct (addValue_repeated s bs i v Hw Hsl) as (s1 & E & Hw1 & Hsl1 & Hv1 & _).
  { rewrite <- (Hv 0%nat v eq_refl). f_equal. lia. }
  destruct (IH s1 _ (S i) Hw1 Hsl1) as (s2 & E2 & Hw2).
  { intros j w Hj. rewrite Hv1, <- (Hv (S j) w Hj). f_equal. lia. }
  exists s2. cbn [addFrom]. rewrite E. cbn [mbind option_bind]. split; [done|].
  by rewrite <- app_assoc in Hw2.
Qed.

(** A steady series is stored at seven bits a point: at one-second
    resolution a point that keeps the interval and all five values of its
    predecessor appends exactly the bits [0] (the interval), [1] (five
    values follow) and five zeros; if it is coded short, exactly three
    zeros. *)
Theorem steady_point_cost (s : GorillaTimeSeries) (bs : list bool) (p : point) :
  written (bw s) bs -> series_ok s -> fullResolution s = false -> curTime s <> 0 ->
  u32 ((splitNano (pt_time p)).1 - curTime s) = curDelta s ->
  curVals s = point_vals p ->
  exists s', AddPoint s p = Some (None, s') /\
    written (bw s') (bs ++ if is_small p then [false; false; false]
                           else [false; true; false; false; false; false; false]).
Proof.
  intros Hw (Hsl & Hsm & Hnv & _ & _ & _ & _ & Hcd & _) Hfull Hct Hd Hv.
  assert (Hd0 : (curDelta s <? 0) = false) by (apply Z.ltb_ge, Hcd).
  unfold AddPoint, AddTime. destruct (splitNano (pt_time p)) as [ut ns]. simpl in Hd.
  rewrite (proj2 (Z.eqb_neq _ _) Hct), Hd, Hd0, Z.sub_diag. cbv zeta.
  change (i32 (u32 0)) with 0. unfold writeDod at 1. simpl (0 =? 0). cbn iota.
  write_bit Hw as Hw1. change (fullResolution (set_bw _ _)) with (fullResolution s).
  rewrite Hfull. cbn [mbind option_bind].
  change (smartEncoding (set_bw _ _)) with (smartEncoding s).
  change (numValues (set_bw _ _)) with (numValues s). rewrite Hsm, Hnv. simpl (_ && _). cbn iota.
  change (bw (set_bw (set_time s ut (curDelta s)) b)) with b. destruct (is_small p).
  - write_bit Hw1 as Hw2.
    destruct (addValue_repeated (set_bw (set_bw (set_time s ut (curDelta s)) b) b0) _ 3 (pt_sum p) Hw2 Hsl)
      as (s' & -> & Hw3 & _); [simpl; by rewrite Hv|].
    eexists. split; [done|]. by rewrite <- !app_assoc in Hw3.
  - write_bit Hw1 as Hw2. rewrite addValues_addFrom by done.
    destruct (addFrom_repeated (point_vals p) (set_bw (set_bw (set_time s ut (curDelta s)) b) b0) _ 0 Hw2 Hsl)
      as (s' & -> & Hw3); [intros j v Hj; simpl; by rewrite Hv|].
    eexists. split; [done|]. by rewrite <- !app_assoc in Hw3.
Qed.

(** The state after a first point at 1500000010 in a series that starts
    at 1500000000, and the bits it has written. *)
Definition steady_point (t : Z) : point :=
  mkPoint t (float_of_Z 1) (float_of_Z 2) (float_of_Z 2) (float_of_Z 3) 2.

Definition steady_state : GorillaTimeSeries :=
  match NewGoriallaTimeSeries 1500000000 NewDefaultOptions with
  | Some s => match AddPoint s (steady_point 1500000010) with Some (_, s) => s | None => s end
  | None => mkGorilla 0 false false 0 0 0 0 0 0 0 0 [] [] [] NewBWriter
  end.

Definition steady_bits : list bool :=
  let b := bw steady_state in
  take (8 * length (stream b) - Z.to_nat (count b)) (bytes_bits (stream b)).

Lemma steady_point_cost_witness :
  exists s', AddPoint steady_state (steady_point 1500000020) = Some (None, s') /\
    written (bw s') (steady_bits ++ [false; true; false; false; false; false; false]).
Proof.
  apply (steady_point_cost steady_state steady_bits (steady_point 1500000020));
    [| |vm_compute; (reflexivity || discriminate)..].
  - vm_compute. split_and!; try (reflexivity || discriminate).
    repeat (constructor; [split; (reflexivity || discriminate)|]). constructor.
  - unfold series_ok, slots_ok, in_width.
    replace (leading steady_state) with (replicate 5 no_window) by (vm_compute; reflexivity).
    replace (trailing steady_state) with (replicate 5 0) by (vm_compute; reflexivity).
    replace (curVals steady_state) with (point_vals (steady_point 0)) by (vm_compute; reflexivity).
    split_and!;
      lazymatch goal with
      | |- Forall2 _ _ _ => apply Forall2_replicate; by left
      | |- window_ok _ _ => by left
      | |- Forall _ _ => repeat (constructor; [split; vm_compute; (reflexivity || discriminate)|]);
                         constructor
      | |- _ => vm_compute; (reflexivity || discriminate)
      end.
Defined.

(** Write one point to a new series and read it back: [Some] when the
    series, its bytes and its iterator are made, with the outcome of the
    first [Next] (inner [None] is its panic). *)
Definition read_first (t0 : Z) (o : Options) (p : point) : option (option (bool * GorillaIter)) :=
  s ← NewGoriallaTimeSeries t0 o;
  '(_, s) ← AddPoint s p;
  it ← series_Iter s;
  match it with inl it => Some (Next it) | inr _ => None end.

(** A series with one, two or three values per point cannot be read
    back: the writer marks the short form only for series of more than
    three values, but the iterator always expects the mark, takes the
    sign bit of the first value for it and indexes the missing fourth
    slot. *)
Theorem narrow_series_panics (n : Z) :
  1 <= n <= 3 ->
  read_first 1500000000 (NewOptions n false) (steady_point 1500000010) = Some None.
Proof.
  intros Hn. assert (n = 1 \/ n = 2 \/ n = 3) as [-> |[-> | ->]] by lia; vm_compute; reflexivity.
Qed.

Lemma narrow_series_panics_witness :
  read_first 1500000000 (NewOptions 2 false) (steady_point 1500000010) = Some None.
Proof. apply (narrow_series_panics 2). lia. Defined.
