(* ===== verification/LRU.v ===== *)
(** [lrucache/lrucache.go] and [lrucache/ttlcache.go]: the LRU caches.

    The cache is a doubly linked list of elements and a table from keys
    to the same elements.  Elements are pointers: the model keeps a heap
    from element identifiers to entries, the list as the sequence of its
    identifiers (front first) and the table as a map from keys to
    identifiers, so that a stale table entry or an element unlinked from
    only one of the two would be visible.  [time.Now()] is the argument
    [now]; the mutex serialises the methods.  [None] is a nil
    dereference. *)
From S2P Require Import Prelude.

(** ** The code *)

(** The interface [Value]. *)
Class Value (V : Type) := Size : V -> Z.

Section LRU.
Context {V : Type} `{!Value V}.

Record entry := mkEntry {
  e_key : string;
  e_value : V;
  e_size : Z;
  e_time : Z
}.

Record LRUCache := mkLRU {
  elems : gmap nat entry;
  order : list nat;
  table : gmap string nat;
  size : Z;
  capacity : Z;
  next_id : nat
}.

Definition NewLRUCache (cap : Z) : LRUCache := mkLRU ∅ [] ∅ 0 cap 0.

Definition GetCapacity (lru : LRUCache) : Z := capacity lru.

(** [list.Remove]. *)
Definition unlink (id : nat) (l : list nat) : list nat := filter (fun x => x <> id) l.

Definition moveToFront (lru : LRUCache) (id : nat) (now : Z) : option LRUCache :=
  e ← elems lru !! id;
  Some (mkLRU (<[id := mkEntry (e_key e) (e_value e) (e_size e) now]> (elems lru))
          (id :: unlink id (order lru)) (table lru) (size lru) (capacity lru) (next_id lru)).

(** The [for] of the source returns in its first iteration. *)
Definition checkCapacity (lru : LRUCache) : option (string * option V * LRUCache) :=
  if size lru >? capacity lru then
    id ← last (order lru);
    e ← elems lru !! id;
    Some (e_key e, Some (e_value e),
          mkLRU (elems lru) (unlink id (order lru)) (delete (e_key e) (table lru))
            (u64 (size lru - u64 (e_size e))) (capacity lru) (next_id lru))
  else Some (""%string, None, lru).

Definition addNew (lru : LRUCache) (key : string) (value : V) (now : Z)
  : option (string * option V * LRUCache) :=
  let id := next_id lru in
  let e := mkEntry key value (Size value) now in
  checkCapacity
    (mkLRU (<[id := e]> (elems lru)) (id :: order lru) (<[key := id]> (table lru))
       (u64 (size lru + u64 (e_size e))) (capacity lru) (S id)).

Definition updateInplace (lru : LRUCache) (id : nat) (value : V) (now : Z)
  : option (string * option V * LRUCache) :=
  e ← elems lru !! id;
  let valueSize := Size value in
  let sizeDiff := i64 (valueSize - e_size e) in
  let lru :=
    mkLRU (<[id := mkEntry (e_key e) value valueSize (e_time e)]> (elems lru)) (order lru)
      (table lru) (u64 (size lru + u64 sizeDiff)) (capacity lru) (next_id lru) in
  lru ← moveToFront lru id now;
  checkCapacity lru.

Definition Get (lru : LRUCache) (key : string) (now : Z) : option (option V * LRUCache) :=
  match table lru !! key with
  | None => Some (None, lru)
  | Some id =>
      lru ← moveToFront lru id now;
      e ← elems lru !! id;
      Some (Some (e_value e), lru)
  end.

Definition Set_ (lru : LRUCache) (key : string) (value : V) (now : Z)
  : option (string * option V * LRUCache) :=
  match table lru !! key with
  | Some id => updateInplace lru id value now
  | None => addNew lru key value now
  end.

Definition SetIfAbsent (lru : LRUCache) (key : string) (value : V) (now : Z) : option LRUCache :=
  match table lru !! key with
  | Some id => moveToFront lru id now
  | None => '(_, _, lru) ← addNew lru key value now; Some lru
  end.

Definition Delete (lru : LRUCache) (key : string) : option (string * option V * LRUCache) :=
  match table lru !! key with
  | None => Some (""%string, None, lru)
  | Some id =>
      e ← elems lru !! id;
      Some (key, Some (e_value e),
            mkLRU (elems lru) (unlink id (order lru)) (delete key (table lru))
              (u64 (size lru - u64 (e_size e))) (capacity lru) (next_id lru))
  end.

Definition Clear (lru : LRUCache) : LRUCache :=
  mkLRU (elems lru) [] ∅ 0 (capacity lru) (next_id lru).

Definition SetCapacity (lru : LRUCache) (cap : Z) : option LRUCache :=
  '(_, _, lru) ← checkCapacity
    (mkLRU (elems lru) (order lru) (table lru) (size lru) cap (next_id lru));
  Some lru.

(** The entries from front to back. *)
Definition entries (lru : LRUCache) : option (list entry) :=
  mapM (fun id => elems lru !! id) (order lru).

(** Length, size, capacity and the access time of the last entry. *)
Definition Stats (lru : LRUCache) : option (Z * Z * Z * option Z) :=
  oldest ← (match last (order lru) with
            | None => Some None
            | Some id => e ← elems lru !! id; Some (Some (e_time e))
            end);
  Some (Z.of_nat (length (order lru)), size lru, capacity lru, oldest).

Definition Keys (lru : LRUCache) : option (list string) :=
  l ← entries lru; Some (map e_key l).

Definition Items (lru : LRUCache) : option (list (string * V)) :=
  l ← entries lru; Some (map (fun e => (e_key e, e_value e)) l).

(** ** The specification: a list of entries, most recent first *)

Definition sizes (l : list entry) : Z := foldr (fun e s => e_size e + s) 0 l.

Definition find_key (key : string) (l : list entry) : option entry :=
  list_find (fun e => e_key e = key) l ≫= fun x => Some x.2.

Definition without (key : string) (l : list entry) : list entry :=
  filter (fun e => e_key e <> key) l.

Definition spec_touch (e : entry) (now : Z) : entry :=
  mkEntry (e_key e) (e_value e) (e_size e) now.

(** At most one eviction, of the least recently used entry. *)
Definition spec_evict (cap : Z) (l : list entry) : string * option V * list entry :=
  if u64 (sizes l) >? cap then
    match last l with
    | Some e => (e_key e, Some (e_value e), take (length l - 1) l)
    | None => (""%string, None, l)
    end
  else (""%string, None, l).

Definition spec_get (l : list entry) (key : string) (now : Z) : option V * list entry :=
  match find_key key l with
  | None => (None, l)
  | Some e => (Some (e_value e), spec_touch e now :: without key l)
  end.

Definition spec_set (cap : Z) (l : list entry) (key : string) (value : V) (now : Z)
  : string * option V * list entry :=
  spec_evict cap (mkEntry key value (Size value) now :: without key l).

Definition spec_delete (l : list entry) (key : string) : string * option V * list entry :=
  match find_key key l with
  | None => (""%string, None, l)
  | Some e => (key, Some (e_value e), without key l)
  end.

(** ** Invariant and abstraction *)

(** [lru] represents the entry list [l]: the list and the table hold the
    same elements, no key occurs twice, and the size is the sum of the
    entries' sizes (as a 64-bit word). *)
Record lru_repr (lru : LRUCache) (l : list entry) : Prop := {
  repr_nodup : NoDup (order lru);
  repr_entries : Forall2 (fun id e => elems lru !! id = Some e) (order lru) l;
  repr_table : forall k id,
    table lru !! k = Some id <->
    id ∈ order lru /\ exists e, elems lru !! id = Some e /\ e_key e = k;
  repr_fresh : forall id e, elems lru !! id = Some e -> (id < next_id lru)%nat;
  repr_size : size lru = u64 (sizes l);
  repr_cap : in_width 64 (capacity lru)
}.

End LRU.

Arguments entry : clear implicits.
Arguments LRUCache : clear implicits.

(** ** [ttlcache.go] *)

(** The interface [TTLValue].  [IsExpired] reads the clock; [Touch]
    rewrites the value's deadline, so it returns the value it leaves. *)
Class TTLValue (V : Type) := {
  TTL_Size :: Value V;
  IsExpired : Z -> V -> bool;
  Touch : Z -> Z -> V -> V
}.

Section TTL.
Context {V : Type} `{!TTLValue V}.

Record TTLLRUCache := mkTTL {
  lc : LRUCache V;
  default_ttl : Z
}.

Definition NewTTLLRUCache (cap ttl : Z) : TTLLRUCache := mkTTL (NewLRUCache cap) ttl.

Definition TTL_Delete (c : TTLLRUCache) (key : string)
  : option (string * option V * TTLLRUCache) :=
  '(rk, rv, l) ← Delete (lc c) key; Some (rk, rv, mkTTL l (default_ttl c)).

Definition TTL_Clear (c : TTLLRUCache) : TTLLRUCache := mkTTL (Clear (lc c)) (default_ttl c).

Definition TTL_SetCapacity (c : TTLLRUCache) (cap : Z) : option TTLLRUCache :=
  l ← SetCapacity (lc c) cap; Some (mkTTL l (default_ttl c)).

(** [Touch] mutates the value the entry holds. *)
Definition touch_entry (c : TTLLRUCache) (id : nat) (now : Z) : option (V * LRUCache V) :=
  e ← elems (lc c) !! id;
  let v := Touch now (default_ttl c) (e_value e) in
  Some (v, mkLRU (<[id := mkEntry (e_key e) v (e_size e) (e_time e)]> (elems (lc c)))
             (order (lc c)) (table (lc c)) (size (lc c)) (capacity (lc c)) (next_id (lc c))).

Definition TTL_Get (c : TTLLRUCache) (key : string) (now : Z) : option (option V * TTLLRUCache) :=
  match table (lc c) !! key with
  | None => Some (None, c)
  | Some id =>
      e ← elems (lc c) !! id;
      if IsExpired now (e_value e) then
        '(_, _, l) ← Delete (lc c) key;
        Some (None, mkTTL l (default_ttl c))
      else
        '(v, l) ← touch_entry c id now;
        l ← moveToFront l id now;
        Some (Some v, mkTTL l (default_ttl c))
  end.

Definition TTL_Set (c : TTLLRUCache) (key : string) (value : V) (now : Z)
  : option (string * option V * TTLLRUCache) :=
  '(rk, rv, l) ← Set_ (lc c) key (Touch now (default_ttl c) value) now;
  Some (rk, rv, mkTTL l (default_ttl c)).

Definition TTL_SetIfAbsent (c : TTLLRUCache) (key : string) (value : V) (now : Z)
  : option TTLLRUCache :=
  l ← SetIfAbsent (lc c) key (Touch now (default_ttl c) value) now;
  Some (mkTTL l (default_ttl c)).

End TTL.

Arguments TTLLRUCache : clear implicits.
