(* ===== verification/LRUTheorems.v ===== *)
(** The LRU cache implements its specification: a list of entries, most
    recent first, from which at most one entry is evicted per insertion. *)
From S2P Require Import Prelude LRU.

Section proofs.
Context {V : Type} `{!Value V}.
Implicit Types (lru : LRUCache V) (l : list (entry V)) (k : string) (e : entry V).

Ltac in_list := rewrite ?elem_of_app, ?elem_of_cons in *; tauto.

(** ** The specification's lists *)

Lemma sizes_app l1 l2 : sizes (l1 ++ l2) = sizes l1 + sizes l2.
Proof. induction l1 as [|e l1 IH]; simpl; [done|]. rewrite IH. lia. Qed.

Lemma without_notin l k : Forall (fun e => e_key e <> k) l -> without k l = l.
Proof. apply filter_all. Qed.

Lemma without_split l1 l2 e :
  Forall (fun x => e_key x <> e_key e) l1 -> Forall (fun x => e_key x <> e_key e) l2 ->
  without (e_key e) (l1 ++ e :: l2) = l1 ++ l2.
Proof.
  intros H1 H2. unfold without. rewrite filter_app, filter_cons_False by tauto.
  by rewrite !filter_all.
Qed.

Lemma find_key_notin l k : Forall (fun e => e_key e <> k) l -> find_key k l = None.
Proof.
  intros H. unfold find_key. destruct (list_find _ l) as [[i e]|] eqn:E; [|done].
  apply list_find_Some in E as (Hi & Hk & _). destruct (Forall_lookup_1 _ _ _ _ H Hi Hk).
Qed.

Lemma find_key_split l1 l2 e :
  Forall (fun x => e_key x <> e_key e) l1 -> find_key (e_key e) (l1 ++ e :: l2) = Some e.
Proof.
  intros H. unfold find_key. rewrite (proj2 (list_find_Some _ _ (length l1) e)); [done|].
  split; [by apply list_lookup_middle|]. split; [done|]. intros j y Hj Hlt.
  rewrite lookup_app_l in Hj by done. by apply (Forall_lookup_1 _ _ _ _ H Hj).
Qed.

(** ** The representation *)

Lemma unlink_split (o1 o2 : list nat) (id : nat) :
  NoDup (o1 ++ id :: o2) -> unlink id (o1 ++ id :: o2) = o1 ++ o2.
Proof.
  intros Hnd. apply NoDup_app in Hnd as (_ & Hdis & [Hni _]%NoDup_cons).
  unfold unlink. rewrite filter_app, filter_cons_False by tauto.
  rewrite !filter_all; [done| |]; apply Forall_forall; intros x Hx ->; [by apply Hni|].
  apply (Hdis id Hx). by left.
Qed.

(** Two elements of the list with the same key are the same element. *)
Lemma repr_key_inj lru l id id' e e' :
  lru_repr lru l -> id ∈ order lru -> id' ∈ order lru ->
  elems lru !! id = Some e -> elems lru !! id' = Some e' -> e_key e = e_key e' -> id = id'.
Proof.
  intros Hr Hi Hi' He He' Hk.
  assert (H1 : table lru !! e_key e = Some id) by (apply (repr_table _ _ Hr); eauto).
  assert (H2 : table lru !! e_key e' = Some id') by (apply (repr_table _ _ Hr); eauto).
  congruence.
Qed.

(** The element of a key splits the list and its entries. *)
Lemma repr_split lru l o1 id o2 :
  lru_repr lru l -> order lru = o1 ++ id :: o2 ->
  exists l1 e l2, l = l1 ++ e :: l2 /\ elems lru !! id = Some e /\
    Forall2 (fun id e => elems lru !! id = Some e) o1 l1 /\
    Forall2 (fun id e => elems lru !! id = Some e) o2 l2 /\
    Forall (fun x => e_key x <> e_key e) l1 /\ Forall (fun x => e_key x <> e_key e) l2.
Proof.
  intros Hr Ho. pose proof (repr_entries _ _ Hr) as HF. rewrite Ho in HF.
  apply Forall2_app_inv_l in HF as (l1 & l2' & HF1 & HF2 & ->).
  apply Forall2_cons_inv_l in HF2 as (e & l2 & He & HF2 & ->).
  pose proof (repr_nodup _ _ Hr) as Hnd. rewrite Ho in Hnd.
  apply NoDup_app in Hnd as (_ & Hdis & [Hni _]%NoDup_cons).
  exists l1, e, l2. split_and!; try done; apply Forall_lookup_2; intros i x Hx Hk.
  - destruct (Forall2_lookup_r _ _ _ _ _ HF1 Hx) as (id' & Hid & He').
    assert (id' = id) as ->.
    { apply (repr_key_inj lru _ id' id x e Hr); rewrite ?Ho; try done; [|in_list].
      apply elem_of_app; left. by eapply list_elem_of_lookup_2. }
    apply (Hdis id); [by eapply list_elem_of_lookup_2|by left].
  - destruct (Forall2_lookup_r _ _ _ _ _ HF2 Hx) as (id' & Hid & He').
    assert (Hin : id' ∈ o2) by (by eapply list_elem_of_lookup_2).
    assert (id' = id) as ->; [|done].
    apply (repr_key_inj lru _ id' id x e Hr); rewrite ?Ho; try done; in_list.
Qed.

Lemma repr_lookup lru l k id :
  lru_repr lru l -> table lru !! k = Some id -> exists o1 o2, order lru = o1 ++ id :: o2.
Proof.
  intros Hr Hk. apply (repr_table _ _ Hr) in Hk as [Hin _].
  by apply list_elem_of_split in Hin as (o1 & o2 & ->); eauto.
Qed.

Lemma repr_absent lru l k :
  lru_repr lru l -> table lru !! k = None -> Forall (fun e => e_key e <> k) l.
Proof.
  intros Hr Hk. apply Forall_lookup_2. intros i e He <-.
  destruct (Forall2_lookup_r _ _ _ _ _ (repr_entries _ _ Hr) He) as (id & Hid & Hel).
  assert (table lru !! e_key e = Some id); [|congruence].
  apply (repr_table _ _ Hr). split; [by eapply list_elem_of_lookup_2|eauto].
Qed.

Lemma elems_cons_unlink (o1 o2 : list nat) (id x : nat) :
  x ∈ id :: o1 ++ o2 <-> x ∈ o1 ++ id :: o2.
Proof. rewrite elem_of_cons, !elem_of_app, elem_of_cons. tauto. Qed.

(** Writing a new entry for an element, with the same key, and linking
    it at the front. *)
Lemma repr_front lru o1 id o2 l1 e l2 (e' : entry V) (sz : Z) :
  lru_repr lru (l1 ++ e :: l2) -> order lru = o1 ++ id :: o2 -> elems lru !! id = Some e ->
  Forall2 (fun id e => elems lru !! id = Some e) o1 l1 ->
  Forall2 (fun id e => elems lru !! id = Some e) o2 l2 ->
  e_key e' = e_key e -> sz = u64 (sizes (e' :: l1 ++ l2)) ->
  lru_repr (mkLRU (<[id := e']> (elems lru)) (id :: unlink id (order lru)) (table lru) sz
              (capacity lru) (next_id lru)) (e' :: l1 ++ l2).
Proof.
  intros Hr Ho He HF1 HF2 Hk Hsz. pose proof (repr_nodup _ _ Hr) as Hnd. rewrite Ho in Hnd.
  assert (Hni : id ∉ o1 ++ o2).
  { apply NoDup_app in Hnd as (_ & Hdis & [? _]%NoDup_cons).
    intros Hx. apply elem_of_app in Hx as [Hx|Hx]; [|done]. apply (Hdis id Hx). by left. }
  rewrite Ho, unlink_split by done. constructor; simpl.
  - apply NoDup_cons. split; [done|]. apply NoDup_app in Hnd as (? & Hdis & [? ?]%NoDup_cons).
    apply NoDup_app. split_and!; try done. intros x Hx Hx'. apply (Hdis x Hx). by right.
  - constructor; [by rewrite lookup_insert_eq|].
    apply (Forall2_impl (fun id e => elems lru !! id = Some e /\ id ∈ o1 ++ o2)).
    + apply Forall2_same_length_lookup_2; [by rewrite !length_app, (Forall2_length _ _ _ HF1), (Forall2_length _ _ _ HF2)|].
      intros i x y Hx Hy. split; [|by eapply list_elem_of_lookup_2].
      by apply (Forall2_lookup_lr _ _ _ _ _ _ (Forall2_app HF1 HF2) Hx).
    + intros x y [Hx Hin]. rewrite lookup_insert_ne; [done|congruence].
  - intros k x. rewrite (repr_table _ _ Hr k x), Ho, elems_cons_unlink.
    destruct (decide (x = id)) as [->|Hne].
    + rewrite lookup_insert_eq. split; intros [? (y & Hy & <-)]; split; try done;
        [exists e'|exists e]; split; congruence.
    + by rewrite lookup_insert_ne.
  - intros x y. destruct (decide (x = id)) as [->|Hne].
    + intros _. by apply (repr_fresh _ _ Hr id e).
    + rewrite lookup_insert_ne by done. apply (repr_fresh _ _ Hr).
  - done.
  - apply (repr_cap _ _ Hr).
Qed.

(** Unlinking an element from the list and from the table. *)
Lemma repr_remove lru o1 id o2 l1 e l2 :
  lru_repr lru (l1 ++ e :: l2) -> order lru = o1 ++ id :: o2 -> elems lru !! id = Some e ->
  Forall2 (fun id e => elems lru !! id = Some e) o1 l1 ->
  Forall2 (fun id e => elems lru !! id = Some e) o2 l2 ->
  lru_repr (mkLRU (elems lru) (unlink id (order lru)) (delete (e_key e) (table lru))
              (u64 (size lru - u64 (e_size e))) (capacity lru) (next_id lru)) (l1 ++ l2).
Proof.
  intros Hr Ho He HF1 HF2. pose proof (repr_nodup _ _ Hr) as Hnd. rewrite Ho in Hnd.
  rewrite Ho, unlink_split by done. constructor; simpl.
  - apply NoDup_app in Hnd as (? & Hdis & [? ?]%NoDup_cons).
    apply NoDup_app. split_and!; try done. intros x Hx Hx'. apply (Hdis x Hx). by right.
  - by apply Forall2_app.
  - intros k x. rewrite lookup_delete_Some, (repr_table _ _ Hr k x), Ho. split.
    + intros [Hne [Hin (y & Hy & <-)]]. split; [|eauto]. apply elems_cons_unlink in Hin.
      apply elem_of_cons in Hin as [->|]; [congruence|done].
    + intros [Hin (y & Hy & <-)]. assert (x ∈ o1 ++ id :: o2) by in_list.
      split; [|eauto]. intros Hk.
      assert (id = x) as ->; [by apply (repr_key_inj lru _ _ _ e y Hr); rewrite ?Ho; try done; in_list|].
      apply NoDup_app in Hnd as (_ & Hdis & [? _]%NoDup_cons).
      apply elem_of_app in Hin as [H1|]; [|done]. apply (Hdis x H1). by left.
  - apply (repr_fresh _ _ Hr).
  - rewrite (repr_size _ _ Hr), !sizes_app. simpl. unfold wrap.
    rewrite <- Zminus_mod. f_equal. lia.
  - apply (repr_cap _ _ Hr).
Qed.

(** ** Every operation refines the specification *)

Lemma moveToFront_refines lru l k id now :
  lru_repr lru l -> table lru !! k = Some id ->
  exists e lru', moveToFront lru id now = Some lru' /\ find_key k l = Some e /\
    lru_repr lru' (spec_touch e now :: without k l) /\
    elems lru' !! id = Some (spec_touch e now) /\ capacity lru' = capacity lru.
Proof.
  intros Hr Hk. destruct (repr_lookup _ _ _ _ Hr Hk) as (o1 & o2 & Ho).
  destruct (repr_split _ _ _ _ _ Hr Ho) as (l1 & e & l2 & -> & He & HF1 & HF2 & HN1 & HN2).
  assert (e_key e = k) as <-.
  { apply (repr_table _ _ Hr) in Hk as [_ (e' & He' & <-)]. congruence. }
  exists e. unfold moveToFront. rewrite He. eexists. split; [done|].
  split; [by apply find_key_split|]. rewrite without_split by done. split; [|split; [|done]].
  - apply (repr_front lru o1 id o2 l1 e l2); try done.
    rewrite (repr_size _ _ Hr). simpl. rewrite !sizes_app. simpl. f_equal. lia.
  - simpl. by rewrite lookup_insert_eq.
Qed.

Lemma checkCapacity_refines lru l :
  lru_repr lru l ->
  exists lru', checkCapacity lru = Some ((spec_evict (capacity lru) l).1, lru') /\
    lru_repr lru' (spec_evict (capacity lru) l).2 /\ capacity lru' = capacity lru.
Proof.
  intros Hr. unfold checkCapacity, spec_evict. rewrite <- (repr_size _ _ Hr).
  destruct (size lru >? capacity lru) eqn:E; [|by exists lru].
  pose proof (repr_cap _ _ Hr) as Hcap. unfold in_width in Hcap. bool_to_prop.
  destruct (last (order lru)) as [id|] eqn:Hl.
  - apply last_Some in Hl as (o & Ho).
    destruct (repr_split _ _ _ _ _ Hr Ho) as (l1 & e & l2 & -> & He & HF1 & HF2 & HN1 & _).
    apply Forall2_nil_inv_l in HF2 as ->. cbn [mbind option_bind]. rewrite He.
    rewrite last_snoc, length_app. simpl (length [e]).
    replace (length l1 + 1 - 1)%nat with (length l1) by lia. rewrite take_app_length.
    eexists. split; [done|]. split; [|done].
    replace l1 with (l1 ++ []) by apply app_nil_r.
    by apply (repr_remove lru o id [] l1 e []).
  - apply last_None in Hl. pose proof (repr_entries _ _ Hr) as HF. rewrite Hl in HF.
    apply Forall2_nil_inv_l in HF as ->. rewrite (repr_size _ _ Hr) in E. simpl in E.
    change (u64 0) with 0 in E. lia.
Qed.

Lemma addNew_refines lru l k v now :
  lru_repr lru l -> table lru !! k = None ->
  exists lru', addNew lru k v now = Some ((spec_set (capacity lru) l k v now).1, lru') /\
    lru_repr lru' (spec_set (capacity lru) l k v now).2 /\ capacity lru' = capacity lru.
Proof.
  intros Hr Hk. unfold addNew, spec_set. pose proof (repr_absent _ _ _ Hr Hk) as Habs.
  rewrite without_notin by done. set (e := mkEntry k v (Size v) now).
  refine (checkCapacity_refines (mkLRU _ _ _ _ (capacity lru) _) (e :: l) _).
  assert (Hfresh : forall id x, elems lru !! id = Some x -> id <> next_id lru).
  { intros id x Hx ->. apply (repr_fresh _ _ Hr) in Hx. lia. }
  assert (Hin : forall id, id ∈ order lru -> id <> next_id lru).
  { intros id [i Hi]%list_elem_of_lookup_1.
    destruct (Forall2_lookup_l _ _ _ _ _ (repr_entries _ _ Hr) Hi) as (x & _ & Hx). by eapply Hfresh. }
  constructor; simpl.
  - apply NoDup_cons. split; [intros H; by apply (Hin _ H)|apply (repr_nodup _ _ Hr)].
  - constructor; [by rewrite lookup_insert_eq|].
    apply (Forall2_impl _ _ _ _ (repr_entries _ _ Hr)). intros id x Hx.
    rewrite lookup_insert_ne; [done|]. intros <-. by apply (Hfresh _ _ Hx).
  - intros k' id. destruct (decide (k' = k)) as [->|Hne].
    + rewrite lookup_insert_eq. split.
      * intros [= <-]. split; [by left|]. exists e. by rewrite lookup_insert_eq.
      * intros [[->|Hid]%elem_of_cons (x & Hx & Hxk)]; [done|]. exfalso.
        rewrite lookup_insert_ne in Hx by (symmetry; by apply Hin).
        assert (table lru !! k = Some id) by (apply (repr_table _ _ Hr); eauto). congruence.
    + rewrite lookup_insert_ne, (repr_table _ _ Hr k' id) by done. split.
      * intros [Hid (x & Hx & Hxk)]. split; [by right|]. exists x.
        by rewrite lookup_insert_ne by (symmetry; by apply Hin).
      * intros [[->|Hid]%elem_of_cons (x & Hx & Hxk)].
        -- rewrite lookup_insert_eq in Hx. injection Hx as <-. by destruct Hne.
        -- rewrite lookup_insert_ne in Hx by (symmetry; by apply Hin). eauto.
  - intros id x. destruct (decide (id = next_id lru)) as [->|Hne]; [lia|].
    rewrite lookup_insert_ne by done. intros Hx. apply (repr_fresh _ _ Hr) in Hx. lia.
  - rewrite (repr_size _ _ Hr), wrap_add_l, wrap_add_r. f_equal. lia.
  - apply (repr_cap _ _ Hr).
Qed.

Lemma updateInplace_refines lru l k id v now :
  lru_repr lru l -> table lru !! k = Some id ->
  exists lru', updateInplace lru id v now = Some ((spec_set (capacity lru) l k v now).1, lru') /\
    lru_repr lru' (spec_set (capacity lru) l k v now).2 /\ capacity lru' = capacity lru.
Proof.
  intros Hr Hk. destruct (repr_lookup _ _ _ _ Hr Hk) as (o1 & o2 & Ho).
  destruct (repr_split _ _ _ _ _ Hr Ho) as (l1 & e & l2 & -> & He & HF1 & HF2 & HN1 & HN2).
  assert (e_key e = k) as <-.
  { apply (repr_table _ _ Hr) in Hk as [_ (e' & He' & <-)]. congruence. }
  unfold updateInplace, spec_set, moveToFront. rewrite He. cbn [mbind option_bind elems].
  rewrite lookup_insert_eq. cbn [mbind option_bind]. simpl. rewrite insert_insert_eq.
  rewrite without_split by done.
  refine (checkCapacity_refines (mkLRU _ _ _ _ (capacity lru) _) _ _).
  apply (repr_front lru o1 id o2 l1 e l2); try done.
  rewrite wrap_swrap, wrap_add_r, (repr_size _ _ Hr), wrap_add_l, !sizes_app by lia. simpl.
  rewrite sizes_app. f_equal. lia.
Qed.

Lemma Set_refines lru l k v now :
  lru_repr lru l ->
  exists lru', Set_ lru k v now = Some ((spec_set (capacity lru) l k v now).1, lru') /\
    lru_repr lru' (spec_set (capacity lru) l k v now).2 /\ capacity lru' = capacity lru.
Proof.
  intros Hr. unfold Set_. destruct (table lru !! k) eqn:Hk;
    [by apply updateInplace_refines|by apply addNew_refines].
Qed.

Lemma Get_refines lru l k now :
  lru_repr lru l ->
  exists lru', Get lru k now = Some ((spec_get l k now).1, lru') /\
    lru_repr lru' (spec_get l k now).2 /\ capacity lru' = capacity lru.
Proof.
  intros Hr. unfold Get, spec_get. destruct (table lru !! k) as [id|] eqn:Hk.
  - destruct (moveToFront_refines lru l k id now Hr Hk) as (e & lru' & -> & -> & Hr' & He & Hc).
    exists lru'. cbn [mbind option_bind]. by rewrite He.
  - rewrite find_key_notin by (by eapply repr_absent). by exists lru.
Qed.

Lemma SetIfAbsent_refines lru l k v now :
  lru_repr lru l ->
  exists lru', SetIfAbsent lru k v now = Some lru' /\
    lru_repr lru' (match find_key k l with
                   | Some e => spec_touch e now :: without k l
                   | None => (spec_set (capacity lru) l k v now).2
                   end) /\ capacity lru' = capacity lru.
Proof.
  intros Hr. unfold SetIfAbsent. destruct (table lru !! k) as [id|] eqn:Hk.
  - destruct (moveToFront_refines lru l k id now Hr Hk) as (e & lru' & -> & -> & Hr' & _ & Hc).
    by exists lru'.
  - rewrite find_key_notin by (by eapply repr_absent).
    destruct (addNew_refines lru l k v now Hr Hk) as (lru' & -> & Hr' & Hc).
    exists lru'. by destruct (spec_set _ l k v now) as [[]].
Qed.

Lemma Delete_refines lru l k :
  lru_repr lru l ->
  exists lru', Delete lru k = Some ((spec_delete l k).1, lru') /\
    lru_repr lru' (spec_delete l k).2 /\ capacity lru' = capacity lru.
Proof.
  intros Hr. unfold Delete, spec_delete. destruct (table lru !! k) as [id|] eqn:Hk.
  - destruct (repr_lookup _ _ _ _ Hr Hk) as (o1 & o2 & Ho).
    destruct (repr_split _ _ _ _ _ Hr Ho) as (l1 & e & l2 & -> & He & HF1 & HF2 & HN1 & HN2).
    assert (e_key e = k) as <-.
    { apply (repr_table _ _ Hr) in Hk as [_ (e' & He' & <-)]. congruence. }
    rewrite He, find_key_split, without_split by done. eexists. split; [done|].
    split; [|done]. by apply (repr_remove lru o1 id o2).
  - rewrite find_key_notin by (by eapply repr_absent). by exists lru.
Qed.

Lemma Clear_refines lru l : lru_repr lru l -> lru_repr (Clear lru) [].
Proof.
  intros Hr. constructor; simpl;
    [apply NoDup_nil_2|constructor| |apply (repr_fresh _ _ Hr)|done|apply (repr_cap _ _ Hr)].
  intros k id. rewrite lookup_empty. split; [done|]. intros [Hid _]. by apply elem_of_nil in Hid.
Qed.

Lemma SetCapacity_refines lru l cap :
  lru_repr lru l -> in_width 64 cap ->
  exists lru', SetCapacity lru cap = Some lru' /\ lru_repr lru' (spec_evict cap l).2 /\
    capacity lru' = cap.
Proof.
  intros Hr Hcap. unfold SetCapacity.
  destruct (checkCapacity_refines
    (mkLRU (elems lru) (order lru) (table lru) (size lru) cap (next_id lru)) l)
    as (lru' & -> & Hr' & Hc).
  { destruct Hr. by constructor. }
  exists lru'. cbn [capacity] in *. by destruct (spec_evict cap l) as [[]].
Qed.

Lemma entries_refines lru l : lru_repr lru l -> entries lru = Some l.
Proof. intros Hr. apply mapM_Some_2, (repr_entries _ _ Hr). Qed.

(** ** Runs of operations *)

Inductive op :=
| OGet (k : string) (now : Z)
| OSet (k : string) (v : V) (now : Z)
| OSetIfAbsent (k : string) (v : V) (now : Z)
| ODelete (k : string)
| OClear
| OSetCapacity (cap : Z)
| OItems.

Inductive result :=
| RValue (v : option V)
| RRemoved (k : string) (v : option V)
| RUnit
| RItems (l : list (string * V)).

Definition exec lru (o : op) : option (result * LRUCache V) :=
  match o with
  | OGet k now => '(v, lru) ← Get lru k now; Some (RValue v, lru)
  | OSet k v now => '(rk, rv, lru) ← Set_ lru k v now; Some (RRemoved rk rv, lru)
  | OSetIfAbsent k v now => lru ← SetIfAbsent lru k v now; Some (RUnit, lru)
  | ODelete k => '(rk, rv, lru) ← Delete lru k; Some (RRemoved rk rv, lru)
  | OClear => Some (RUnit, Clear lru)
  | OSetCapacity cap => lru ← SetCapacity lru cap; Some (RUnit, lru)
  | OItems => l ← Items lru; Some (RItems l, lru)
  end.

Definition spec_exec (st : Z * list (entry V)) (o : op) : result * (Z * list (entry V)) :=
  let '(cap, l) := st in
  match o with
  | OGet k now => let '(v, l) := spec_get l k now in (RValue v, (cap, l))
  | OSet k v now => let '(rk, rv, l) := spec_set cap l k v now in (RRemoved rk rv, (cap, l))
  | OSetIfAbsent k v now =>
      (RUnit, (cap, match find_key k l with
                    | Some e => spec_touch e now :: without k l
                    | None => (spec_set cap l k v now).2
                    end))
  | ODelete k => let '(rk, rv, l) := spec_delete l k in (RRemoved rk rv, (cap, l))
  | OClear => (RUnit, (cap, []))
  | OSetCapacity c => (RUnit, (c, (spec_evict c l).2))
  | OItems => (RItems (map (fun e => (e_key e, e_value e)) l), (cap, l))
  end.

Fixpoint exec_all lru (ops : list op) : option (list result * LRUCache V) :=
  match ops with
  | [] => Some ([], lru)
  | o :: ops =>
      '(r, lru) ← exec lru o;
      '(rs, lru) ← exec_all lru ops;
      Some (r :: rs, lru)
  end.

Fixpoint spec_exec_all (st : Z * list (entry V)) (ops : list op)
  : list result * (Z * list (entry V)) :=
  match ops with
  | [] => ([], st)
  | o :: ops =>
      let '(r, st) := spec_exec st o in
      let '(rs, st) := spec_exec_all st ops in
      (r :: rs, st)
  end.

Definition op_ok (o : op) : Prop :=
  match o with OSetCapacity cap => in_width 64 cap | _ => True end.

Lemma exec_refines lru l (o : op) :
  lru_repr lru l -> op_ok o ->
  exists lru', exec lru o = Some ((spec_exec (capacity lru, l) o).1, lru') /\
    capacity lru' = (spec_exec (capacity lru, l) o).2.1 /\
    lru_repr lru' (spec_exec (capacity lru, l) o).2.2.
Proof.
  intros Hr Ho. destruct o as [k now|k v now|k v now|k| |cap|]; cbn [exec spec_exec].
  - destruct (Get_refines lru l k now Hr) as (lru' & -> & ? & ?). exists lru'.
    by destruct (spec_get l k now).
  - destruct (Set_refines lru l k v now Hr) as (lru' & -> & ? & ?). exists lru'.
    by destruct (spec_set (capacity lru) l k v now) as [[]].
  - destruct (SetIfAbsent_refines lru l k v now Hr) as (lru' & -> & ? & ?). by exists lru'.
  - destruct (Delete_refines lru l k Hr) as (lru' & -> & ? & ?). exists lru'.
    by destruct (spec_delete l k) as [[]].
  - eexists. split; [done|]. split; [done|]. by eapply Clear_refines.
  - destruct (SetCapacity_refines lru l cap Hr Ho) as (lru' & -> & ? & ?). by exists lru'.
  - unfold Items. rewrite (entries_refines lru l Hr). by exists lru.
Qed.

Lemma exec_all_refines (ops : list op) lru l :
  lru_repr lru l -> Forall op_ok ops ->
  exists lru', exec_all lru ops = Some ((spec_exec_all (capacity lru, l) ops).1, lru') /\
    capacity lru' = (spec_exec_all (capacity lru, l) ops).2.1 /\
    lru_repr lru' (spec_exec_all (capacity lru, l) ops).2.2.
Proof.
  revert lru l. induction ops as [|o ops IH]; intros lru l Hr Hops; [by exists lru|].
  apply Forall_cons in Hops as [Ho Hops].
  destruct (exec_refines lru l o Hr Ho) as (lru1 & E1 & Hc1 & Hr1).
  destruct (IH lru1 _ Hr1 Hops) as (lru2 & E2 & Hc2 & Hr2).
  exists lru2. cbn [exec_all spec_exec_all]. rewrite E1. cbn [mbind option_bind].
  destruct (spec_exec (capacity lru, l) o) as [r [cap1 l1]]. cbn [fst snd] in *. subst cap1.
  rewrite E2. by destruct (spec_exec_all (capacity lru1, l1) ops) as [rs [cap2 l2]].
Qed.

Lemma NewLRUCache_repr cap : in_width 64 cap -> lru_repr (@NewLRUCache V cap) [].
Proof.
  intros Hcap. constructor; simpl; [apply NoDup_nil_2|constructor| | |done|done].
  - intros k id. rewrite lookup_empty. split; [done|]. intros [Hid _]. by apply elem_of_nil in Hid.
  - intros id e. by rewrite lookup_empty.
Qed.

(** ** Looking a key up after an insertion *)

(** What [Get] would answer. *)
Definition peek lru k : option (option V) := fst <$> Get lru k 0.

Lemma peek_refines lru l k : lru_repr lru l -> peek lru k = Some (e_value <$> find_key k l).
Proof.
  intros Hr. unfold peek. destruct (Get_refines lru l k 0 Hr) as (lru' & -> & _).
  unfold spec_get. by destruct (find_key k l).
Qed.

Lemma find_key_cons e l k :
  find_key k (e :: l) = if decide (e_key e = k) then Some e else find_key k l.
Proof.
  unfold find_key. simpl. destruct (decide (e_key e = k)); [done|].
  by destruct (list_find _ l) as [[]|].
Qed.

Lemma find_key_without l k k' : k' <> k -> find_key k' (without k l) = find_key k' l.
Proof.
  intros Hne. induction l as [|e l IH]; [done|]. unfold without. rewrite filter_cons, find_key_cons.
  destruct (decide (e_key e <> k)) as [Hk|Hk%dec_stable]; fold (without k l).
  - by rewrite find_key_cons, IH.
  - rewrite decide_False; [done|congruence].
Qed.

Definition keys_distinct l : Prop := NoDup (map e_key l).

Lemma repr_keys_distinct lru l : lru_repr lru l -> keys_distinct l.
Proof.
  intros Hr. apply NoDup_alt. intros i j k Hi Hj. rewrite list_lookup_fmap in Hi, Hj.
  apply fmap_Some in Hi as (e & Hi & ->). apply fmap_Some in Hj as (e' & Hj & Hk).
  destruct (Forall2_lookup_r _ _ _ _ _ (repr_entries _ _ Hr) Hi) as (id & Hid & He).
  destruct (Forall2_lookup_r _ _ _ _ _ (repr_entries _ _ Hr) Hj) as (id' & Hid' & He').
  apply (NoDup_lookup _ _ _ id (repr_nodup _ _ Hr) Hid).
  by rewrite (repr_key_inj lru l id id' e e' Hr) by (done || by eapply list_elem_of_lookup_2).
Qed.

Lemma keys_distinct_without l k : keys_distinct l -> keys_distinct (without k l).
Proof.
  unfold keys_distinct. induction l as [|e l IH]; [done|].
  intros [Hni Hnd]%NoDup_cons. unfold without. rewrite filter_cons. fold (without k l).
  case_decide; [|by apply IH]. simpl. apply NoDup_cons. split; [|by apply IH].
  intros Hin. apply Hni. apply list_elem_of_fmap in Hin as (x & -> & Hx).
  apply list_elem_of_filter in Hx as [_ Hx]. by apply list_elem_of_fmap_2.
Qed.

Lemma find_key_evict cap l k :
  keys_distinct l ->
  let '(rk, rv, l') := spec_evict cap l in
  find_key k l' = if decide (rv <> None /\ rk = k) then None else find_key k l.
Proof.
  intros Hnd. unfold spec_evict. destruct (_ >? _); [|rewrite decide_False; [done|tauto]].
  destruct (last l) as [e|] eqn:Hl; [|rewrite decide_False; [done|tauto]].
  apply last_Some in Hl as (l1 & ->). rewrite length_app. simpl (length [e]).
  replace (length l1 + 1 - 1)%nat with (length l1) by lia. rewrite take_app_length.
  unfold keys_distinct in Hnd. rewrite map_app in Hnd. apply NoDup_app in Hnd as (_ & Hdis & _).
  assert (Hne : Forall (fun x => e_key x <> e_key e) l1).
  { apply Forall_forall. intros x Hx Hk. apply (Hdis (e_key e)); [|by left].
    rewrite <- Hk. by apply list_elem_of_fmap_2. }
  clear Hdis. case_decide as Hd.
  - destruct Hd as [_ <-]. by apply find_key_notin.
  - assert (Hk : e_key e <> k) by (intros Hk; by apply Hd).
    clear Hne Hd. induction l1 as [|x l1 IH]; simpl.
    + rewrite find_key_cons, decide_False; done.
    + rewrite !find_key_cons, IH. done.
Qed.

(** ** Sizes *)

(** The cache of one size [sz]: every value put in has that size. *)
Definition op_size (sz : Z) (o : op) : Prop :=
  match o with
  | OSet _ v _ | OSetIfAbsent _ v _ => Size v = sz
  | OSetCapacity _ => False
  | _ => True
  end.

Definition uniform (sz cap : Z) l : Prop :=
  Forall (fun e => e_size e = sz) l /\ sizes l <= cap.

Lemma sizes_uniform sz l : Forall (fun e => e_size e = sz) l -> sizes l = sz * Z.of_nat (length l).
Proof. induction 1 as [|e l <- _ IH]; simpl; lia. Qed.

Lemma uniform_sublist sz cap l l' : 0 <= sz -> l' `sublist_of` l -> uniform sz cap l -> uniform sz cap l'.
Proof.
  intros Hsz Hsub [Hf Hs]. assert (Hf' : Forall (fun e => e_size e = sz) l').
  { apply Forall_forall. intros x Hx. rewrite Forall_forall in Hf. apply Hf.
    by eapply elem_of_sublist. }
  split; [done|]. rewrite (sizes_uniform _ _ Hf) in Hs. rewrite (sizes_uniform _ _ Hf').
  apply sublist_length in Hsub. nia.
Qed.

Lemma without_sublist l k : without k l `sublist_of` l.
Proof. apply sublist_filter. Qed.

Lemma uniform_evict sz cap e l :
  0 <= sz -> cap + sz < 2 ^ 64 -> e_size e = sz -> uniform sz cap l ->
  uniform sz cap (spec_evict cap (e :: l)).2.
Proof.
  intros Hsz Hcap He [Hf Hs].
  assert (Hf' : Forall (fun e => e_size e = sz) (e :: l)) by (by constructor).
  assert (Hs' : sizes (e :: l) = sz + sizes l) by (simpl; lia).
  assert (0 <= sizes l) by (rewrite (sizes_uniform _ _ Hf); lia).
  unfold spec_evict. rewrite wrap_id by (unfold in_width; lia).
  destruct (_ >? _) eqn:E; bool_to_prop; [|by split].
  destruct (last (e :: l)) as [x|] eqn:Hl; [|by apply last_None in Hl].
  apply last_Some in Hl as (l1 & Hl1). rewrite Hl1, length_app. simpl (length [x]).
  replace (length l1 + 1 - 1)%nat with (length l1) by lia. rewrite take_app_length. simpl.
  rewrite Hl1 in Hf'. apply Forall_app in Hf' as [Hf1 Hx]. rewrite Forall_singleton in Hx.
  split; [done|]. rewrite Hl1, sizes_app in Hs'. simpl in Hs'. lia.
Qed.

Lemma find_key_size sz cap l k e : uniform sz cap l -> find_key k l = Some e -> e_size e = sz.
Proof.
  intros [Hf _] H. unfold find_key in H. destruct (list_find _ l) as [[i x]|] eqn:E; [|done].
  injection H as <-. apply list_find_Some in E as (Hi & _). by apply (Forall_lookup_1 _ _ _ _ Hf Hi).
Qed.

Lemma length_without l k e : find_key k l = Some e -> (length (without k l) < length l)%nat.
Proof.
  induction l as [|x l IH]; [done|]. rewrite find_key_cons. unfold without. rewrite filter_cons.
  fold (without k l). intros H. destruct (decide (e_key x = k)) as [Hk|Hk].
  - rewrite decide_False by tauto. pose proof (sublist_length _ _ (without_sublist l k)). simpl. lia.
  - rewrite decide_True by done. simpl. apply IH in H. lia.
Qed.

Lemma uniform_touch sz cap l k e now :
  0 <= sz -> uniform sz cap l -> find_key k l = Some e ->
  uniform sz cap (spec_touch e now :: without k l).
Proof.
  intros Hsz Hu Hk. pose proof (find_key_size _ _ _ _ _ Hu Hk) as He. pose proof (length_without _ _ _ Hk).
  destruct (uniform_sublist sz cap l _ Hsz (without_sublist l k) Hu) as [Hf _].
  destruct Hu as [Hf0 Hs]. assert (Hf' : Forall (fun e => e_size e = sz) (spec_touch e now :: without k l))
    by (by constructor).
  split; [done|]. rewrite (sizes_uniform _ _ Hf'). rewrite (sizes_uniform _ _ Hf0) in Hs. simpl. nia.
Qed.

Lemma uniform_exec sz cap l (o : op) :
  0 <= sz -> cap + sz < 2 ^ 64 -> op_size sz o -> uniform sz cap l ->
  (spec_exec (cap, l) o).2.1 = cap /\ uniform sz cap (spec_exec (cap, l) o).2.2.
Proof.
  intros Hsz Hcap Ho Hu.
  assert (Hset : forall k v now, Size v = sz -> uniform sz cap (spec_set cap l k v now).2).
  { intros k v now Hv. apply uniform_evict; try done.
    by apply (uniform_sublist _ _ l); [|apply without_sublist|]. }
  destruct o as [k now|k v now|k v now|k| | |]; cbn [spec_exec op_size] in *.
  - unfold spec_get. destruct (find_key k l) eqn:E; [|done]. split; [done|]. by apply uniform_touch.
  - specialize (Hset k v now Ho). by destruct (spec_set cap l k v now) as [[]].
  - split; [done|]. simpl. destruct (find_key k l) eqn:E; [by apply uniform_touch|by apply Hset].
  - unfold spec_delete. destruct (find_key k l); [|done]. split; [done|].
    by apply (uniform_sublist _ _ l); [|apply without_sublist|].
  - split; [done|]. by apply (uniform_sublist _ _ l); [|apply sublist_nil_l|].
  - done.
  - done.
Qed.

Lemma uniform_exec_all sz cap (ops : list op) l :
  0 <= sz -> cap + sz < 2 ^ 64 -> Forall (op_size sz) ops -> uniform sz cap l ->
  uniform sz cap (spec_exec_all (cap, l) ops).2.2.
Proof.
  intros Hsz Hcap. revert l. induction ops as [|o ops IH]; intros l Hops Hu; [done|].
  apply Forall_cons in Hops as [Ho Hops].
  destruct (uniform_exec sz cap l o Hsz Hcap Ho Hu) as [Hc Hu1]. cbn [spec_exec_all].
  destruct (spec_exec (cap, l) o) as [r [c l1]]. cbn [fst snd] in *. subst c.
  specialize (IH l1 Hops Hu1). by destruct (spec_exec_all (cap, l1) ops) as [rs [c2 l2]].
Qed.

End proofs.

Arguments op : clear implicits.
Arguments result : clear implicits.

(** ** The properties *)

(** Values that are their own size. *)
Definition sized : Type := Z.
#[export] Instance sized_Value : Value sized := fun v => v.

(** C10: The linked list and table of the cache implement a list of
    entries, most recent first: whatever the sequence of calls on a new
    cache, no call dereferences nil, every call returns what the
    specification returns ([Get] refreshes its entry, [Set] puts its entry
    first and evicts at most the last one, [Delete] removes), and at the
    end the list and the table still hold the same elements and the size
    is the sum of the sizes. *)
Theorem lru_refines_spec {V : Type} `{!Value V} (cap : Z) (ops : list (op V)) :
  in_width 64 cap -> Forall op_ok ops ->
  exists lru, exec_all (NewLRUCache cap) ops = Some ((spec_exec_all (cap, []) ops).1, lru) /\
    capacity lru = (spec_exec_all (cap, []) ops).2.1 /\
    lru_repr lru (spec_exec_all (cap, []) ops).2.2.
Proof.
  intros Hcap Hops. apply (exec_all_refines ops (NewLRUCache cap) []); [|done].
  by apply NewLRUCache_repr.
Qed.

Definition sample_ops : list (op sized) :=
  [OSet "a" 2 10; OSet "b" 1 11; OGet "a" 12; OSet "c" 1 13; OItems; OSetCapacity 2; OItems].

Definition sample_results : list (result sized) * (Z * list (entry sized)) :=
  ([RRemoved "" None; RRemoved "" None; RValue (Some 2); RRemoved "b" (Some 1);
    RItems [("c"%string, 1); ("a"%string, 2)]; RUnit; RItems [("c"%string, 1)]],
   (2, [mkEntry "c" 1 1 13])).

Lemma sample_results_eq : spec_exec_all (3, []) sample_ops = sample_results.
Proof. vm_compute. reflexivity. Qed.

Lemma lru_refines_spec_witness :
  exists lru, exec_all (NewLRUCache 3) sample_ops = Some (sample_results.1, lru) /\
    capacity lru = 2 /\ lru_repr lru [mkEntry "c" (1 : sized) 1 13].
Proof.
  destruct (lru_refines_spec (V := sized) 3 sample_ops) as (lru & H).
  - split; reflexivity || discriminate.
  - repeat (constructor; [done || (split; reflexivity || discriminate)|]). constructor.
  - exists lru. by rewrite sample_results_eq in H.
Defined.

(** What an insertion does to lookups: after [Set k v] the evicted
    key (if any) is absent, [k] answers [v] unless it is itself the
    evicted key, and every other key answers as before. *)
Theorem lru_get_after_set {V : Type} `{!Value V} (lru lru' : LRUCache V) (l : list (entry V))
  (k k' rk : string) (v : V) (rv : option V) (now : Z) :
  lru_repr lru l -> Set_ lru k v now = Some (rk, rv, lru') ->
  peek lru' k' =
    if decide (rv <> None /\ rk = k') then Some None
    else if decide (k = k') then Some (Some v) else peek lru k'.
Proof.
  intros Hr Hset. destruct (Set_refines lru l k v now Hr) as (lru1 & E & Hr1 & _).
  rewrite Hset in E. injection E as Er <-.
  rewrite (peek_refines _ _ k' Hr1), (peek_refines _ _ k' Hr).
  unfold spec_set in *. set (l1 := mkEntry k v (Size v) now :: without k l) in *.
  assert (Hd : keys_distinct l1).
  { apply NoDup_cons. split; [|by eapply keys_distinct_without, repr_keys_distinct].
    intros Hin. apply list_elem_of_fmap in Hin as (x & Hx & Hx').
    apply list_elem_of_filter in Hx' as [Hne _]. by apply Hne. }
  pose proof (find_key_evict (capacity lru) l1 k' Hd) as Hf.
  destruct (spec_evict (capacity lru) l1) as [[rk1 rv1] l2]. simpl in Er |- *. injection Er as <- <-.
  rewrite Hf. case_decide; [done|]. unfold l1. rewrite find_key_cons. simpl.
  destruct (decide (k = k')) as [<-|Hne]; [done|]. by rewrite find_key_without.
Qed.

Definition sample_cache : LRUCache sized :=
  match exec_all (NewLRUCache 3) (take 3 sample_ops) with
  | Some (_, lru) => lru
  | None => NewLRUCache 3
  end.

Lemma sample_cache_repr :
  lru_repr sample_cache [mkEntry "a" (2 : sized) 2 12; mkEntry "b" (1 : sized) 1 11].
Proof.
  destruct (exec_all_refines (V := sized) (take 3 sample_ops) (NewLRUCache 3) [])
    as (lru & E & _ & Hr).
  - apply NewLRUCache_repr. split; reflexivity || discriminate.
  - repeat (constructor; [done|]). constructor.
  - unfold sample_cache. rewrite E.
    by replace (spec_exec_all _ _) with
      ([RRemoved "" None; RRemoved "" None; RValue (Some (2 : sized))],
       (3, [mkEntry "a" (2 : sized) 2 12; mkEntry "b" (1 : sized) 1 11])) in Hr
      by (vm_compute; reflexivity).
Qed.

Lemma lru_get_after_set_witness :
  exists lru', Set_ sample_cache "c" (1 : sized) 13 = Some ("b"%string, Some (1 : sized), lru') /\
    peek lru' "b" = Some None /\ peek lru' "c" = Some (Some (1 : sized)) /\
    peek lru' "a" = peek sample_cache "a".
Proof.
  eexists. split; [vm_compute; reflexivity|]. split_and!.
  - by erewrite (lru_get_after_set sample_cache _ _ "c" "b" "b" 1 (Some 1) 13 sample_cache_repr).
  - by erewrite (lru_get_after_set sample_cache _ _ "c" "c" "b" 1 (Some 1) 13 sample_cache_repr).
  - by erewrite (lru_get_after_set sample_cache _ _ "c" "a" "b" 1 (Some 1) 13 sample_cache_repr).
Defined.

(** When all values have one size, as in the hasher pools, the
    cache never holds more than its capacity, whatever the sequence of
    calls (a capacity with room for one more value below 2^64). *)
Theorem lru_uniform_bound {V : Type} `{!Value V} (cap sz : Z) (ops : list (op V)) :
  0 <= cap -> 0 <= sz -> cap + sz < 2 ^ 64 -> Forall (op_size sz) ops ->
  exists rs lru, exec_all (NewLRUCache cap) ops = Some (rs, lru) /\ size lru <= cap /\
    size lru = sz * Z.of_nat (length (order lru)).
Proof.
  intros Hcap0 Hsz Hcap Hops.
  destruct (exec_all_refines ops (NewLRUCache cap) []) as (lru & E & _ & Hr).
  { apply NewLRUCache_repr. unfold in_width. lia. }
  { apply (Forall_impl _ _ _ Hops). by intros []. }
  eexists _, lru. split; [exact E|].
  destruct (uniform_exec_all sz cap ops []) as [Hf Hs]; [done..|by split|]. simpl capacity in *.
  set (l := (spec_exec_all (cap, []) ops).2.2) in *.
  rewrite (repr_size _ _ Hr), (Forall2_length _ _ _ (repr_entries _ _ Hr)).
  rewrite (sizes_uniform sz l Hf) in *. rewrite wrap_id by (unfold in_width; nia). lia.
Qed.

Lemma lru_uniform_bound_witness :
  exists rs lru, exec_all (NewLRUCache 2) [OSet "a" (1 : sized) 1; OSet "b" (1 : sized) 2;
    OSet "c" (1 : sized) 3] = Some (rs, lru) /\ size lru <= 2 /\
    size lru = 1 * Z.of_nat (length (order lru)).
Proof.
  apply (lru_uniform_bound 2 1); [lia..|]. repeat (constructor; [done|]). constructor.
Defined.

(** With values of several sizes the bound fails: one insertion
    evicts one entry, even when that leaves the cache over its
    capacity. *)
Theorem lru_over_capacity :
  exists rs lru, exec_all (NewLRUCache 10) [OSet "a" (1 : sized) 1; OSet "b" (15 : sized) 2] =
    Some (rs, lru) /\ size lru > capacity lru.
Proof. eexists _, _. split; [vm_compute; reflexivity|]. reflexivity. Qed.

(** The TTL cache never answers with an expired value: a lookup
    that finds one removes its entry (from the list and from the table)
    and misses; a lookup that finds a live value extends its deadline,
    returns the extended value, stores it and makes it the most recent. *)
Theorem ttl_get_spec {V : Type} `{!TTLValue V} (c : TTLLRUCache V) (l : list (entry V))
  (k : string) (now : Z) :
  lru_repr (lc c) l ->
  exists r c', TTL_Get c k now = Some (r, c') /\
    match find_key k l with
    | None => r = None /\ c' = c
    | Some e =>
        if IsExpired now (e_value e) then r = None /\ lru_repr (lc c') (without k l)
        else
          let v := Touch now (default_ttl c) (e_value e) in
          r = Some v /\ lru_repr (lc c') (mkEntry k v (e_size e) now :: without k l)
    end.
Proof.
  intros Hr. unfold TTL_Get. destruct (table (lc c) !! k) as [id|] eqn:Hk.
  2: { rewrite find_key_notin by (by eapply repr_absent). by exists None, c. }
  destruct (repr_lookup _ _ _ _ Hr Hk) as (o1 & o2 & Ho).
  destruct (repr_split _ _ _ _ _ Hr Ho) as (l1 & e & l2 & -> & He & HF1 & HF2 & HN1 & HN2).
  assert (e_key e = k) as <-.
  { apply (repr_table _ _ Hr) in Hk as [_ (e' & He' & <-)]. congruence. }
  rewrite He, find_key_split by done. cbn [mbind option_bind].
  destruct (IsExpired now (e_value e)).
  - destruct (Delete_refines (lc c) _ (e_key e) Hr) as (lru' & -> & Hr' & _).
    unfold spec_delete in *. rewrite find_key_split in * by done. by eexists _, _.
  - unfold touch_entry, moveToFront. rewrite He. cbn [mbind option_bind elems].
    rewrite lookup_insert_eq. cbn [mbind option_bind]. simpl. rewrite insert_insert_eq.
    eexists _, _. split; [done|]. split; [done|]. rewrite without_split by done.
    apply (repr_front (lc c) o1 id o2 l1 e l2); try done.
    rewrite (repr_size _ _ Hr), !sizes_app. simpl. rewrite sizes_app. f_equal. lia.
Qed.

(** A value with a deadline. *)
Record timed := mkTimed { deadline : Z }.
#[export] Instance timed_TTLValue : TTLValue timed :=
  {| TTL_Size := fun _ => 1;
     IsExpired := fun now v => deadline v <? now;
     Touch := fun now ttl _ => mkTimed (now + ttl) |}.

Definition sample_ttl : TTLLRUCache timed :=
  match TTL_Set (NewTTLLRUCache 5 10) "a" (mkTimed 0) 100 with
  | Some (_, _, c) => c
  | None => NewTTLLRUCache 5 10
  end.

Lemma ttl_get_spec_witness :
  (exists r c', TTL_Get sample_ttl "a" 105 = Some (r, c') /\ r = Some (mkTimed 115) /\
     lru_repr (lc c') [mkEntry "a" (mkTimed 115) 1 105]) /\
  (exists r c', TTL_Get sample_ttl "a" 111 = Some (r, c') /\ r = None /\ lru_repr (lc c') []).
Proof.
  assert (Hr : lru_repr (lc sample_ttl) [mkEntry "a" (mkTimed 110) 1 100]).
  { destruct (Set_refines (NewLRUCache 5) [] "a" (mkTimed 110) 100) as (lru & E & Hr & _).
    { apply NewLRUCache_repr. split; reflexivity || discriminate. }
    unfold sample_ttl, TTL_Set.
    change (Set_ _ "a" _ 100) with (Set_ (NewLRUCache 5) "a" (mkTimed 110) 100). by rewrite E. }
  split.
  - exact (ttl_get_spec sample_ttl _ "a" 105 Hr).
  - exact (ttl_get_spec sample_ttl _ "a" 111 Hr).
Defined.
