(* ===== verification/Trie.v ===== *)
(** [utils/trie/trie.go]: the segment trie of the RAM indexer.

    A tree node has a value ([None] is Go's nil) and a map of children.
    The nodes form a tree that only its own methods change, so a node is
    a value here and writing to a child writes it back in its parent.
    The locks serialise the methods.  [Children] hands out the live map of
    children, which the model returns as the map at that time. *)
From S2P Require Import Prelude GoStrings.

Section Trie.
Context {V : Type}.

#[warnings="-register-all"]
Inductive Tree := mkTree (value : option V) (children : gmap string Tree).

Definition value (t : Tree) : option V := let '(mkTree v _) := t in v.
Definition children (t : Tree) : gmap string Tree := let '(mkTree _ c) := t in c.

Record Trie := mkTrie {
  root : Tree;
  delim : string;
  length_ : Z
}.

Definition DEFAULT_DELIM : string := ".".

Definition newTree : Tree := mkTree None ∅.

Definition New (d : string) : Trie :=
  mkTrie newTree (if bool_decide (d = ""%string) then DEFAULT_DELIM else d) 0.

Definition Len (tr : Trie) : Z := length_ tr.

(** The loop of [Put]: the tree after it, and whether [length] grows. *)
Fixpoint put (t : Tree) (parts : list string) (v : option V) : Tree * bool :=
  match parts with
  | [] => (t, false)
  | part :: parts =>
      let child := default newTree (children t !! part) in
      let '(child, grows) :=
        match parts with
        | [] => (mkTree v (children child), bool_decide (value child = None))
        | _ => put child parts v
        end in
      (mkTree (value t) (<[part := child]> (children t)), grows)
  end.

Definition Put (tr : Trie) (key : string) (v : option V) : Trie :=
  let '(t, grows) := put (root tr) (Split key (delim tr)) v in
  mkTrie t (delim tr) (if grows then length_ tr + 1 else length_ tr).

Fixpoint get (t : Tree) (parts : list string) : option V :=
  match parts with
  | [] => None
  | part :: parts =>
      match children t !! part with
      | None => None
      | Some child =>
          match parts with
          | [] => value child
          | _ => get child parts
          end
      end
  end.

Definition Get (tr : Trie) (key : string) : option V :=
  get (root tr) (Split key (delim tr)).

Definition Has (tr : Trie) (key : string) : bool := bool_decide (Get tr key <> None).

(** The loop of [Pop]: the value and the tree after it. *)
Fixpoint pop (t : Tree) (parts : list string) : option V * Tree :=
  match parts with
  | [] => (None, t)
  | part :: parts =>
      match children t !! part with
      | None => (None, t)
      | Some child =>
          match parts with
          | [] =>
              (value child,
               mkTree (value t)
                 (if bool_decide (children child = ∅) then delete part (children t)
                  else <[part := mkTree None (children child)]> (children t)))
          | _ =>
              let '(v, child) := pop child parts in
              (v, mkTree (value t) (<[part := child]> (children t)))
          end
      end
  end.

Definition Pop (tr : Trie) (key : string) : option V * Trie :=
  let '(v, t) := pop (root tr) (Split key (delim tr)) in
  (v, mkTrie t (delim tr) (if bool_decide (v <> None) then length_ tr - 1 else length_ tr)).

Definition Clear (tr : Trie) : Trie := mkTrie (mkTree (value (root tr)) ∅) (delim tr) 0.

(** [m[key] = value] for all of [v]: the new bindings win. *)
Definition merge_into {X} (v m : gmap string X) : gmap string X := v ∪ m.

(** [match]: the loop over [parts] with the recursion at a ["*"]. *)
Fixpoint match_ (delim : string) (parts : list string) (keys : list string) (t : Tree)
  : gmap string V :=
  match parts with
  | [] =>
      match value t with
      | Some v => {[ Join keys delim := v ]}
      | None => ∅
      end
  | part :: parts =>
      if bool_decide (part = "*"%string) then
        map_fold (fun segment child m => merge_into (match_ delim parts (keys ++ [segment]) child) m)
          ∅ (children t)
      else
        match children t !! part with
        | None => ∅
        | Some child =>
            match parts with
            | [] =>
                match value child with
                | Some v => {[ Join (keys ++ [part]) delim := v ]}
                | None => ∅
                end
            | _ => match_ delim parts (keys ++ [part]) child
            end
        end
  end.

Definition Match (tr : Trie) (pattern : string) : gmap string V :=
  match_ (delim tr) (Split pattern (delim tr)) [] (root tr).

(** What [Children] puts in its map: a map of nodes, or a value (nil
    included). *)
Inductive child_value :=
| CTrees (c : gmap string Tree)
| CValue (v : option V).

Definition child_of (t : Tree) : child_value :=
  if bool_decide (children t = ∅) then CValue (value t) else CTrees (children t).

Fixpoint children_ (delim : string) (parts : list string) (keys : list string) (t : Tree)
  : gmap string child_value :=
  match parts with
  | [] => {[ Join keys delim := child_of t ]}
  | part :: parts =>
      if bool_decide (part = "*"%string) then
        map_fold (fun segment child m => merge_into (children_ delim parts (keys ++ [segment]) child) m)
          ∅ (children t)
      else
        match children t !! part with
        | None => ∅
        | Some child =>
            match parts with
            | [] => {[ Join (keys ++ [part]) delim := child_of child ]}
            | _ => children_ delim parts (keys ++ [part]) child
            end
        end
  end.

Definition Children (tr : Trie) (pattern : string) : gmap string child_value :=
  children_ (delim tr) (Split pattern (delim tr)) [] (root tr).

(** [_childrenFlat]: neither kind of child is a [map[string]interface{}]
    (a node map is a [map[string]*Tree]), so the type switch always takes
    its default branch; the prefix of the only caller is empty. *)
Definition childrenFlat (delim prefix : string) (childs m : gmap string child_value)
  : gmap string child_value :=
  let base := if bool_decide (prefix = ""%string) then ""%string else prefix +:+ delim in
  map_fold (fun k val m => <[base +:+ k := val]> m) m childs.

Definition ChildrenFlat (tr : Trie) (pattern : string) : gmap string child_value :=
  childrenFlat (delim tr) "" (Children tr pattern) ∅.

Fixpoint map_ (delim : string) (t : Tree) (keys : list string) {struct t} : gmap string V :=
  let '(mkTree v c) := t in
  map_fold (fun segment child m => merge_into (map_ delim child (keys ++ [segment])) m)
    (match v with Some v => {[ Join keys delim := v ]} | None => ∅ end) c.

Definition Map (tr : Trie) : gmap string V := map_ (delim tr) (root tr) [].

(** [matched]: the stored keys as patterns. *)
Fixpoint matched (delim : string) (parts : list string) (keys : list string) (t : Tree)
  : gmap string V :=
  match parts with
  | [] =>
      match value t with
      | Some v => {[ Join keys delim := v ]}
      | None => ∅
      end
  | part :: parts =>
      let star :=
        match children t !! "*"%string with
        | Some child => matched delim parts (keys ++ ["*"%string]) child
        | None => ∅
        end in
      match children t !! part with
      | Some child => merge_into (matched delim parts (keys ++ [part]) child) star
      | None => star
      end
  end.

Definition Matched (tr : Trie) (s : string) : gmap string V :=
  matched (delim tr) (Split s (delim tr)) [] (root tr).

End Trie.

Arguments Tree : clear implicits.
Arguments Trie : clear implicits.
