(* ===== verification/TrieTheorems.v ===== *)
(** The trie implements a finite map from keys to values: [Put], [Get],
    [Pop], [Clear] and [Len] are the map's insertion, lookup, deletion,
    emptying and size; [Match], [Matched] and [Map] are its filters. *)
From S2P Require Import Prelude GoStrings Trie.

Section proofs.
Context {V : Type}.
Implicit Types (t : Tree V) (tr : Trie V) (ps : list string).

(** ** Values along a path *)

Fixpoint tval t (path : list string) : option V :=
  match path with
  | [] => value t
  | p :: path => c ← children t !! p; tval c path
  end.

Lemma get_tval t ps : ps <> [] -> get t ps = tval t ps.
Proof.
  revert t. induction ps as [|p ps IH]; intros t Hne; [done|]. simpl.
  destruct (children t !! p) as [c|]; [|done]. destruct ps as [|p' ps]; [done|]. by apply IH.
Qed.

Lemma tval_newTree ps : tval newTree ps = None.
Proof. by destruct ps. Qed.

Lemma tval_child t p ps : tval (default newTree (children t !! p)) ps = tval t (p :: ps).
Proof. simpl. destruct (children t !! p); [done|]. apply tval_newTree. Qed.

Lemma put_tval t ps v path :
  ps <> [] ->
  tval (put t ps v).1 path = (if decide (path = ps) then v else tval t path) /\
  (put t ps v).2 = bool_decide (tval t ps = None).
Proof.
  revert t path. induction ps as [|p ps IH]; intros t path Hne; [done|]. clear Hne.
  rewrite <- (tval_child t p ps). cbn [put].
  set (c := default newTree (children t !! p)).
  assert (Hc : forall path', tval c path' = tval t (p :: path')) by (intros; apply tval_child).
  destruct ps as [|p' ps].
  - split; [|done]. destruct path as [|q path]; [done|]. simpl.
    destruct (decide (q = p)) as [->|Hq].
    + rewrite lookup_insert_eq. simpl. destruct path as [|q' path]; [by rewrite decide_True|].
      rewrite decide_False by congruence. exact (Hc (q' :: path)).
    + rewrite lookup_insert_ne, decide_False by congruence. done.
  - destruct (put c (p' :: ps) v) as [c' g] eqn:E.
    pose proof (fun path' => IH c path' ltac:(done)) as IHc. rewrite E in IHc. cbn [fst snd] in *.
    split; [|apply (IHc [])]. destruct path as [|q path]; [done|]. cbn [tval children].
    destruct (decide (q = p)) as [->|Hq].
    + rewrite lookup_insert_eq. cbn [mbind option_bind]. rewrite (proj1 (IHc path)), Hc.
      destruct (decide (path = p' :: ps)) as [->|Hp]; [by rewrite decide_True|].
      by rewrite decide_False by congruence.
    + rewrite lookup_insert_ne, decide_False by congruence. done.
Qed.

Lemma tval_leaf t p path : children t = ∅ -> tval t (p :: path) = None.
Proof. intros H. simpl. by rewrite H, lookup_empty. Qed.

Lemma pop_tval t ps path :
  ps <> [] ->
  (pop t ps).1 = tval t ps /\
  tval (pop t ps).2 path = (if decide (path = ps) then None else tval t path).
Proof.
  revert t path. induction ps as [|p ps IH]; intros t path Hne; [done|]. clear Hne. cbn [pop].
  destruct (children t !! p) as [c|] eqn:Hp.
  2: { simpl. rewrite Hp. split; [done|]. case_decide as Hd; [|done]. rewrite Hd. simpl. by rewrite Hp. }
  destruct ps as [|p' ps].
  - split; [simpl; by rewrite Hp|]. destruct path as [|q path]; [done|]. cbn [tval children snd].
    destruct (decide (q = p)) as [->|Hq].
    + rewrite Hp. case_bool_decide as Hc.
      * rewrite lookup_delete_eq. simpl. destruct path as [|q' path]; [by rewrite decide_True|].
        rewrite decide_False by congruence. simpl. by rewrite Hc, lookup_empty.
      * rewrite lookup_insert_eq. simpl. destruct path as [|q' path]; [by rewrite decide_True|].
        by rewrite decide_False by congruence.
    + rewrite decide_False by congruence.
      case_bool_decide; [by rewrite lookup_delete_ne|by rewrite lookup_insert_ne].
  - destruct (pop c (p' :: ps)) as [w c'] eqn:E.
    pose proof (fun path' => IH c path' ltac:(done)) as IHc. rewrite E in IHc. cbn [fst snd] in *.
    split; [rewrite (proj1 (IHc [])); cbn [tval]; by rewrite Hp|].
    destruct path as [|q path]; [done|]. cbn [tval children].
    destruct (decide (q = p)) as [->|Hq].
    + rewrite lookup_insert_eq, Hp. cbn [mbind option_bind]. rewrite (proj2 (IHc path)).
      destruct (decide (path = p' :: ps)) as [->|Hn]; [by rewrite decide_True|].
      by rewrite decide_False by congruence.
    + by rewrite lookup_insert_ne, decide_False by congruence.
Qed.

(** ** The represented map *)

Record trie_repr tr (m : gmap string V) : Prop := {
  trie_delim : delim tr <> ""%string;
  trie_get : forall key, Get tr key = m !! key;
  trie_len : Len tr = Z.of_nat (size m);
  trie_paths : forall path v, tval (root tr) path = Some v ->
    exists key, path = Split key (delim tr)
}.

Lemma Get_tval tr key : Get tr key = tval (root tr) (Split key (delim tr)).
Proof. apply get_tval, Split_nonempty. Qed.

Lemma New_repr d : trie_repr (New d) ∅.
Proof.
  constructor; try done.
  - simpl. by case_bool_decide.
  - intros key. by rewrite Get_tval, tval_newTree.
  - intros path v. simpl. by rewrite tval_newTree.
Qed.

Lemma Put_repr tr m key v : trie_repr tr m -> trie_repr (Put tr key (Some v)) (<[key := v]> m).
Proof.
  intros [Hd Hg Hl Hp]. unfold Put, Len in *.
  pose proof (fun path => put_tval (root tr) (Split key (delim tr)) (Some v) path
    (Split_nonempty _ _)) as Ht.
  destruct (put (root tr) _ _) as [t g]. cbn [fst snd] in Ht. constructor; simpl; [done| | |].
  - intros key'. rewrite Get_tval. simpl. rewrite (proj1 (Ht _)), <- Get_tval, Hg.
    destruct (decide (key' = key)) as [->|Hne].
    + by rewrite decide_True, lookup_insert_eq.
    + rewrite decide_False, lookup_insert_ne; try done. intros Heq. by apply Split_inj in Heq.
  - rewrite (proj2 (Ht [])), <- Get_tval, Hg, Hl.
    destruct (m !! key) eqn:E; [by rewrite map_size_insert_Some by done|].
    rewrite map_size_insert_None by done. simpl. lia.
  - intros path w. rewrite (proj1 (Ht path)). case_decide; [by exists key|apply Hp].
Qed.

Lemma Pop_repr tr m key :
  trie_repr tr m ->
  (Pop tr key).1 = m !! key /\ trie_repr (Pop tr key).2 (delete key m).
Proof.
  intros [Hd Hg Hl Hp]. unfold Pop, Len in *.
  pose proof (fun path => pop_tval (root tr) (Split key (delim tr)) path (Split_nonempty _ _)) as Ht.
  destruct (pop (root tr) _) as [w t]. cbn [fst snd] in *.
  rewrite <- Get_tval, Hg in Ht. pose proof (proj1 (Ht [])) as ->. split; [done|].
  constructor; simpl; [done| | |].
  - intros key'. rewrite Get_tval. simpl. rewrite (proj2 (Ht _)), <- Get_tval, Hg.
    destruct (decide (key' = key)) as [->|Hne].
    + by rewrite decide_True, lookup_delete_eq.
    + rewrite decide_False, lookup_delete_ne; try done. intros Heq. by apply Split_inj in Heq.
  - rewrite map_size_delete, Hl. destruct (m !! key) eqn:E; [|done].
    rewrite bool_decide_true by done. assert (size m <> 0%nat); [|lia].
    intros Hz. apply map_size_empty_iff in Hz as ->. done.
  - intros path v. rewrite (proj2 (Ht path)). case_decide; [done|apply Hp].
Qed.

Lemma Clear_repr tr m : trie_repr tr m -> trie_repr (Clear tr) ∅.
Proof.
  intros [Hd Hg Hl Hp]. constructor; try done.
  - intros key. rewrite Get_tval. simpl. pose proof (Split_nonempty key (delim tr)).
    by destruct (Split key (delim tr)).
  - intros path v. destruct path as [|p path]; simpl; [apply (Hp [])|]. done.
Qed.

(** ** Wildcard queries *)

(** A fold that unions pairwise disjoint maps. *)
Lemma fold_union_lookup {A} (f : string -> A -> gmap string V) (m0 : gmap string V)
  (cs : gmap string A) (k : string) (v : V) :
  (forall i j x y w w', cs !! i = Some x -> cs !! j = Some y -> f i x !! k = Some w ->
     f j y !! k = Some w' -> i = j) ->
  (forall i x, cs !! i = Some x -> is_Some (m0 !! k) -> f i x !! k = None) ->
  map_fold (fun i x m => merge_into (f i x) m) m0 cs !! k = Some v <->
  m0 !! k = Some v \/ exists i x, cs !! i = Some x /\ f i x !! k = Some v.
Proof.
  apply (map_fold_weak_ind (fun r cs => (forall i j x y w w', cs !! i = Some x ->
    cs !! j = Some y -> f i x !! k = Some w -> f j y !! k = Some w' -> i = j) ->
    (forall i x, cs !! i = Some x -> is_Some (m0 !! k) -> f i x !! k = None) ->
    r !! k = Some v <-> m0 !! k = Some v \/ exists i x, cs !! i = Some x /\ f i x !! k = Some v)).
  { intros _ _. split; [by left|]. intros [?|(i & x & Hi & _)]; done. }
  intros i x m r Hi IH Hdis H0. unfold merge_into. rewrite lookup_union_Some_raw, IH; clear IH.
  - split.
    + intros [Hf|[Hf [Hm|(j & y & Hj & Hy)]]]; [right; exists i, x|by left|right; exists j, y].
      * by rewrite lookup_insert_eq.
      * rewrite lookup_insert_ne; [done|]. intros ->. congruence.
    + intros [Hm|(j & y & Hj & Hy)].
      * right. split; [|by left]. apply (H0 i x); [by rewrite lookup_insert_eq|by exists v].
      * destruct (decide (i = j)) as [<-|Hne].
        -- rewrite lookup_insert_eq in Hj. injection Hj as <-. by left.
        -- rewrite lookup_insert_ne in Hj by done. right. split; [|right; by exists j, y].
           destruct (f i x !! k) as [w|] eqn:Hf; [|done]. exfalso. apply Hne.
           apply (Hdis i j x y w v); [by rewrite lookup_insert_eq| |done..].
           by rewrite lookup_insert_ne.
  - intros j j' y y' w w' Hj Hj'. apply Hdis; rewrite lookup_insert_ne; try done; congruence.
  - intros j y Hj. apply H0. rewrite lookup_insert_ne; [done|congruence].
Qed.

(** Valued paths below a node are told apart by their joined keys. *)
Definition paths_inj (d : string) (keys : list string) t : Prop :=
  forall p p' v v', tval t p = Some v -> tval t p' = Some v' ->
    Join (keys ++ p) d = Join (keys ++ p') d -> p = p'.

Lemma paths_inj_child d keys t p c :
  paths_inj d keys t -> children t !! p = Some c -> paths_inj d (keys ++ [p]) c.
Proof.
  intros Hinj Hc q q' v v' Hq Hq' Hj. rewrite <- !app_assoc in Hj.
  assert (p :: q = p :: q'); [|congruence].
  apply (Hinj _ _ v v'); [simpl; by rewrite Hc|simpl; by rewrite Hc|done].
Qed.

(** The segment [s] of a key is matched by the segment [p] of a pattern. *)
Definition seg_match (p s : string) : Prop := p = "*"%string \/ p = s.

Lemma match_nil d keys t k v :
  (match value t with Some v => {[ Join keys d := v ]} | None => ∅ end : gmap string V) !! k = Some v <->
  k = Join keys d /\ value t = Some v.
Proof.
  destruct (value t) as [w|]; [|by rewrite lookup_empty; split; [|intros []]].
  rewrite lookup_singleton_Some. naive_solver.
Qed.

(** The last part of a literal pattern is the general case. *)
Lemma match_last d ps keys p (c : Tree V) :
  match ps with
  | [] => match value c with Some v => {[ Join (keys ++ [p]) d := v ]} | None => ∅ end
  | _ => match_ d ps (keys ++ [p]) c
  end = match_ d ps (keys ++ [p]) c.
Proof. by destruct ps. Qed.

Lemma match_lookup d ps keys t k v :
  paths_inj d keys t ->
  match_ d ps keys t !! k = Some v <->
  exists path, k = Join (keys ++ path) d /\ Forall2 seg_match ps path /\ tval t path = Some v.
Proof.
  revert keys t v. induction ps as [|p ps IH]; intros keys t v Hinj; cbn [match_].
  { rewrite match_nil. split.
    - intros [-> Hv]. exists []. rewrite app_nil_r. by split_and!.
    - intros (path & -> & HF & Hv). apply Forall2_nil_inv_l in HF as ->. by rewrite app_nil_r. }
  assert (Hchild : forall s c w, children t !! s = Some c ->
    match_ d ps (keys ++ [s]) c !! k = Some w <->
    exists path, k = Join (keys ++ s :: path) d /\ Forall2 seg_match ps path /\
      tval t (s :: path) = Some w).
  { intros s c w Hc. rewrite (IH (keys ++ [s]) c) by (by eapply paths_inj_child).
    simpl. rewrite Hc. by setoid_rewrite <- app_assoc. }
  case_bool_decide as Hp.
  - subst p. rewrite fold_union_lookup.
    + split.
      * intros [?|(s & c & Hc & (path & -> & HF & Hv)%(Hchild s c v Hc))]; [done|].
        exists (s :: path). split; [done|]. split; [constructor; [by left|done]|done].
      * intros (path & -> & HF & Hv). apply Forall2_cons_inv_l in HF as (s & path' & _ & HF & ->).
        right. destruct (children t !! s) as [c|] eqn:Hc; [|simpl in Hv; by rewrite Hc in Hv].
        exists s, c. split; [done|]. apply (Hchild s c v Hc). eauto.
    + intros i j x y w w' Hi Hj (q & -> & _ & Hq)%(Hchild i x w Hi)
        (q' & Hj' & _ & Hq')%(Hchild j y w' Hj).
      assert (i :: q = j :: q') by (by eapply Hinj). congruence.
    + intros i x _ []. done.
  - destruct (children t !! p) as [c|] eqn:Hc.
    + rewrite match_last, (Hchild p c v Hc). split.
      * intros (path & -> & HF & Hv). exists (p :: path). split_and!; try done.
        constructor; [by right|done].
      * intros (path & -> & HF & Hv). apply Forall2_cons_inv_l in HF as (s & path' & [?|<-] & HF & ->);
          [done|]. eauto.
    + rewrite lookup_empty. split; [done|]. intros (path & _ & HF & Hv).
      apply Forall2_cons_inv_l in HF as (s & path' & [?|<-] & HF & ->); [done|].
      simpl in Hv. by rewrite Hc in Hv.
Qed.

Lemma matched_lookup d ps keys t k v :
  paths_inj d keys t ->
  matched d ps keys t !! k = Some v <->
  exists path, k = Join (keys ++ path) d /\ Forall2 (fun s p => seg_match p s) ps path /\
    tval t path = Some v.
Proof.
  revert keys t v. induction ps as [|p ps IH]; intros keys t v Hinj; cbn [matched].
  { rewrite match_nil. split.
    - intros [-> Hv]. exists []. rewrite app_nil_r. by split_and!.
    - intros (path & -> & HF & Hv). apply Forall2_nil_inv_l in HF as ->. by rewrite app_nil_r. }
  set (sub s := match children t !! s with
                | Some c => matched d ps (keys ++ [s]) c | None => ∅ end).
  assert (Hsub : forall s w, sub s !! k = Some w <->
    exists path, k = Join (keys ++ s :: path) d /\
      Forall2 (fun s p => seg_match p s) ps path /\ tval t (s :: path) = Some w).
  { intros s w. unfold sub. simpl. destruct (children t !! s) as [c|] eqn:Hc.
    - rewrite (IH (keys ++ [s]) c) by (by eapply paths_inj_child). by setoid_rewrite <- app_assoc.
    - rewrite lookup_empty. split; [done|]. by intros (? & _ & _ & ?). }
  replace (match children t !! p with Some c => _ | None => _ end)
    with (merge_into (sub p) (sub "*"%string)).
  2: { unfold sub at 1, merge_into. destruct (children t !! p); [done|]. by rewrite left_id_L by apply _. }
  unfold merge_into. rewrite lookup_union_Some_raw, !Hsub. split.
  - intros [(path & -> & HF & Hv)|[_ (path & -> & HF & Hv)]]; eexists (_ :: path);
      (split; [done|split; [|done]]); (constructor; [|done]); [by right|by left].
  - intros (path & -> & HF & Hv). apply Forall2_cons_inv_l in HF as (s & path' & Hs & HF & ->).
    destruct (decide (s = p)) as [->|Hne]; [left; eauto|]. destruct Hs as [->|]; [|done].
    right. split; [|eauto]. destruct (sub p !! _) as [w|] eqn:E; [|done].
    apply Hsub in E as (q & Hq & _ & Hw).
    assert ("*"%string :: path' = p :: q) by (by eapply Hinj). congruence.
Qed.

(** Induction on a tree: the number of nodes of a child is smaller. *)
Fixpoint nodes t : nat :=
  let '(mkTree _ c) := t in map_fold (fun _ child n => (nodes child + n)%nat) 1%nat c.

Lemma nodes_child t p (c : Tree V) : children t !! p = Some c -> (nodes c < nodes t)%nat.
Proof.
  destruct t as [v cs]. simpl.
  cut (forall q x, cs !! q = Some x ->
    (nodes x < map_fold (fun _ child n => (nodes child + n)%nat) 1%nat cs)%nat); [eauto|].
  apply (map_fold_weak_ind (fun n cs => (0 < n)%nat /\
    forall q x, cs !! q = Some x -> (nodes x < n)%nat)); [split; [lia|done]|].
  intros i x m r _ [Hr IH]. split; [lia|]. intros q y.
  rewrite lookup_insert_Some. intros [[_ <-]|[_ Hy]]; [lia|]. apply IH in Hy. lia.
Qed.

Lemma tree_ind_children (P : Tree V -> Prop) :
  (forall t, (forall p c, children t !! p = Some c -> P c) -> P t) -> forall t, P t.
Proof.
  intros Hstep t. induction t as [t IH] using (induction_ltof1 _ nodes).
  apply Hstep. intros p c Hc. by apply IH, (nodes_child t p).
Qed.

(** The full map of a tree. *)
Lemma map_lookup d t keys k v :
  paths_inj d keys t ->
  map_ d t keys !! k = Some v <->
  exists path, k = Join (keys ++ path) d /\ tval t path = Some v.
Proof.
  revert keys v. induction t as [t IH] using tree_ind_children. intros keys v Hinj.
  assert (Hchild : forall s c w, children t !! s = Some c ->
    map_ d c (keys ++ [s]) !! k = Some w <->
    exists path, k = Join (keys ++ s :: path) d /\ tval t (s :: path) = Some w).
  { intros s c w Hc. rewrite (IH s c Hc (keys ++ [s])) by (by eapply paths_inj_child).
    simpl. rewrite Hc. by setoid_rewrite <- app_assoc. }
  assert (Hroot := fun w => match_nil d keys t k w).
  assert (Hself : forall w, value t = Some w -> tval t [] = Some w) by done.
  destruct t as [val cs]. cbn [map_]. cbn [value children] in Hroot, Hchild, Hself.
  rewrite fold_union_lookup, Hroot.
  - split.
    + intros [[-> ->]|(s & c & Hc & (path & -> & Hv)%(Hchild s c v Hc))]; [exists []|by exists (s :: path)].
      by rewrite app_nil_r.
    + intros ([|s path] & -> & Hv); [rewrite app_nil_r; by left|]. right.
      pose proof Hv as Hv'. simpl in Hv. destruct (cs !! s) as [c|] eqn:Hc; [|done].
      exists s, c. split; [done|]. apply (Hchild s c v Hc). eauto.
  - intros i j x y w w' Hi Hj (q & -> & Hq)%(Hchild i x w Hi) (q' & Hj' & Hq')%(Hchild j y w' Hj).
    assert (i :: q = j :: q') by (by eapply Hinj). congruence.
  - intros i x Hi [w [Hk Hw]%Hroot]. destruct (map_ d x (keys ++ [i]) !! k) as [w'|] eqn:E; [|done].
    apply (Hchild i x w' Hi) in E as (q & Hq & Hv'). exfalso.
    assert (([] : list string) = i :: q); [|done].
    apply (Hinj _ _ w w'); [by apply Hself|done|]. rewrite app_nil_r. congruence.
Qed.

Lemma trie_paths_inj tr m : trie_repr tr m -> paths_inj (delim tr) [] (root tr).
Proof.
  intros [Hd Hg Hl Hp] p p' v v' Hv Hv'. simpl.
  destruct (Hp _ _ Hv) as (key & ->). destruct (Hp _ _ Hv') as (key' & ->).
  rewrite !Join_Split by done. by intros ->.
Qed.

(** Valued paths are the keys of the represented map. *)
Lemma trie_keys tr m key v :
  trie_repr tr m ->
  m !! key = Some v <-> tval (root tr) (Split key (delim tr)) = Some v.
Proof. intros Hr. by rewrite <- (trie_get _ _ Hr), Get_tval. Qed.

(** A query that collects the valued paths satisfying [P] is a filter. *)
Lemma query_filter tr m (r : gmap string V) (P : list string -> Prop)
  `{!forall p, Decision (P p)} :
  trie_repr tr m ->
  (forall k v, r !! k = Some v <->
     exists path, k = Join path (delim tr) /\ P path /\ tval (root tr) path = Some v) ->
  r = filter (fun kv => P (Split kv.1 (delim tr))) m.
Proof.
  intros Hr Hq. apply map_eq. intros k. apply option_eq. intros v.
  rewrite Hq, map_lookup_filter_Some, (trie_keys tr m k v Hr). simpl. split.
  - intros (path & -> & HP & Hv). destruct (trie_paths _ _ Hr _ _ Hv) as (key & ->).
    rewrite Join_Split by apply (trie_delim _ _ Hr). done.
  - intros [Hv HP]. exists (Split k (delim tr)). rewrite Join_Split by apply (trie_delim _ _ Hr). done.
Qed.

(** ** Nodes, and the query for children *)

Fixpoint node t (path : list string) : option (Tree V) :=
  match path with
  | [] => Some t
  | p :: path => c ← children t !! p; node c path
  end.

Lemma tval_node t path : tval t path = (nd ← node t path; value nd).
Proof. revert t. induction path as [|p path IH]; intros t; [done|]. simpl. by destruct (children t !! p) as [c|]; [apply IH|]. Qed.

Lemma node_app t p q : node t (p ++ q) = (nd ← node t p; node nd q).
Proof. revert t. induction p as [|s p IH]; intros t; [done|]. simpl. by destruct (children t !! s) as [c|]; [apply IH|]. Qed.

Lemma node_newTree path nd : node newTree path = Some nd -> path = [].
Proof. by destruct path. Qed.

(** [Put] makes the nodes of its path, [Pop] makes none. *)
Lemma node_put t ps v path : is_Some (node (put t ps v).1 path) -> is_Some (node t path) \/ path `prefix_of` ps.
Proof.
  revert t path. induction ps as [|p ps IH]; intros t path Hn; [by left|]. destruct path as [|q path]; [by left|].
  cbn [put] in Hn. set (c := default newTree (children t !! p)) in *.
  assert (Hc : forall path, is_Some (node c path) -> is_Some (node t (p :: path)) \/ path = []).
  { intros path' Hp. simpl. unfold c in Hp. destruct (children t !! p); simpl in *; [by left|right].
    destruct Hp as [? Hp]. by apply node_newTree in Hp. }
  destruct (decide (q = p)) as [->|Hq].
  - assert (Hs : is_Some (node t (p :: path)) \/ path `prefix_of` ps).
    { destruct ps as [|p' ps].
      - cbn [node children fst] in Hn. rewrite lookup_insert_eq in Hn. cbn [mbind option_bind] in Hn.
        destruct path as [|s path]; [right; done|]. destruct (Hc (s :: path)); [done|by left|done].
      - destruct (put c (p' :: ps) v) as [c' g] eqn:E. cbn [node children fst] in Hn. rewrite lookup_insert_eq in Hn.
        cbn [mbind option_bind] in Hn. specialize (IH c path). rewrite E in IH. destruct (IH Hn) as [Hn'|Hp]; [|by right].
        destruct (Hc path Hn') as [? | ->]; [by left|]. right. by eexists. }
    destruct Hs as [?|[r ->]]; [by left|]. right. by exists r.
  - left. destruct ps as [|p' ps]; [|destruct (put c (p' :: ps) v)]; cbn [node children fst] in *;
      by rewrite lookup_insert_ne in Hn by done.
Qed.

Lemma node_pop t ps path : is_Some (node (pop t ps).2 path) -> is_Some (node t path).
Proof.
  revert t path. induction ps as [|p ps IH]; intros t path Hn; [done|]. destruct path as [|q path]; [done|].
  cbn [pop] in Hn. destruct (children t !! p) as [c|] eqn:Hp; [|done]. simpl.
  destruct ps as [|p' ps].
  - cbn [node children snd] in Hn. case_bool_decide; (destruct (decide (q = p)) as [->|Hq];
      [rewrite ?lookup_delete_eq, ?lookup_insert_eq in Hn|rewrite ?lookup_delete_ne, ?lookup_insert_ne in Hn by done; done]).
    + by destruct Hn.
    + rewrite Hp. simpl in *. by destruct path.
  - destruct (pop c (p' :: ps)) as [w c'] eqn:E. cbn [node children snd] in Hn.
    destruct (decide (q = p)) as [->|Hq]; [|by rewrite lookup_insert_ne in Hn by done].
    rewrite lookup_insert_eq in Hn. rewrite Hp. simpl in *. specialize (IH c path). rewrite E in IH. by apply IH.
Qed.

(** Nodes of one depth are told apart by their joined keys. *)
Definition nodes_inj (d : string) (keys : list string) t : Prop :=
  forall p p', is_Some (node t p) -> is_Some (node t p') -> length p = length p' ->
    Join (keys ++ p) d = Join (keys ++ p') d -> p = p'.

Lemma nodes_inj_child d keys t p c :
  nodes_inj d keys t -> children t !! p = Some c -> nodes_inj d (keys ++ [p]) c.
Proof.
  intros Hinj Hc q q' Hq Hq' Hl Hj. rewrite <- !app_assoc in Hj.
  assert (p :: q = p :: q'); [|congruence]. apply Hinj; simpl; rewrite ?Hc; try done. by f_equal.
Qed.

Lemma children_last d ps keys p (c : Tree V) :
  match ps with [] => {[ Join (keys ++ [p]) d := child_of c ]} | _ => children_ d ps (keys ++ [p]) c end =
  children_ d ps (keys ++ [p]) c.
Proof. by destruct ps. Qed.

Lemma seg_match_length ps path : Forall2 seg_match ps path -> length ps = length path.
Proof. apply Forall2_length. Qed.

End proofs.

Section children.
Context {V : Type}.
Implicit Types (t : Tree V) (tr : Trie V) (ps : list string).

Lemma children_lookup d ps keys t k (cv : child_value (V := V)) :
  nodes_inj d keys t ->
  children_ d ps keys t !! k = Some cv <->
  exists path nd, k = Join (keys ++ path) d /\ Forall2 seg_match ps path /\ node t path = Some nd /\ cv = child_of nd.
Proof.
  revert keys t cv. induction ps as [|p ps IH]; intros keys t cv Hinj; cbn [children_].
  { rewrite lookup_singleton_Some. split.
    - intros [<- <-]. exists [], t. rewrite app_nil_r. by split_and!.
    - intros (path & nd & -> & HF & Hn & ->). apply Forall2_nil_inv_l in HF as ->. simpl in Hn. simplify_eq. by rewrite app_nil_r. }
  assert (Hchild : forall s c w, children t !! s = Some c ->
    children_ d ps (keys ++ [s]) c !! k = Some w <->
    exists path nd, k = Join (keys ++ s :: path) d /\ Forall2 seg_match ps path /\
      node t (s :: path) = Some nd /\ w = child_of nd).
  { intros s c w Hc. rewrite (IH (keys ++ [s]) c) by (by eapply nodes_inj_child).
    simpl. rewrite Hc. by setoid_rewrite <- app_assoc. }
  case_bool_decide as Hp.
  - subst p. rewrite fold_union_lookup.
    + split.
      * intros [?|(s & c & Hc & (path & nd & -> & HF & Hv & ->)%(Hchild s c cv Hc))]; [done|].
        exists (s :: path), nd. split; [done|]. split; [constructor; [by left|done]|done].
      * intros (path & nd & -> & HF & Hv & ->). apply Forall2_cons_inv_l in HF as (s & path' & _ & HF & ->).
        right. destruct (children t !! s) as [c|] eqn:Hc; [|simpl in Hv; by rewrite Hc in Hv].
        exists s, c. split; [done|]. apply (Hchild s c _ Hc). eauto 10.
    + intros i j x y w w' Hi Hj (q & nd & -> & HF & Hq & _)%(Hchild i x w Hi)
        (q' & nd' & Hj' & HF' & Hq' & _)%(Hchild j y w' Hj).
      apply seg_match_length in HF, HF'.
      assert (i :: q = j :: q') by (apply Hinj; [by eexists|by eexists|simpl; congruence|done]). congruence.
    + intros i x _ []. done.
  - destruct (children t !! p) as [c|] eqn:Hc.
    + rewrite children_last, (Hchild p c cv Hc). split.
      * intros (path & nd & -> & HF & Hv & ->). exists (p :: path), nd. split_and!; try done.
        constructor; [by right|done].
      * intros (path & nd & -> & HF & Hv & ->). apply Forall2_cons_inv_l in HF as (s & path' & [?|<-] & HF & ->);
          [done|]. eauto 10.
    + rewrite lookup_empty. split; [done|]. intros (path & nd & _ & HF & Hv & _).
      apply Forall2_cons_inv_l in HF as (s & path' & [?|<-] & HF & ->); [done|].
      simpl in Hv. by rewrite Hc in Hv.
Qed.

End children.

#[export] Instance seg_match_dec p s : Decision (seg_match p s).
Proof. unfold seg_match. apply _. Defined.

(** ** Runs of operations *)

Inductive trie_op (V : Type) :=
| TPut (key : string) (v : V)
| TPop (key : string)
| TClear.
Arguments TPut {V}.
Arguments TPop {V}.
Arguments TClear {V}.

Definition trie_exec {V} (tr : Trie V) (o : trie_op V) : Trie V :=
  match o with
  | TPut key v => Put tr key (Some v)
  | TPop key => (Pop tr key).2
  | TClear => Clear tr
  end.

Definition map_exec {V} (m : gmap string V) (o : trie_op V) : gmap string V :=
  match o with
  | TPut key v => <[key := v]> m
  | TPop key => delete key m
  | TClear => ∅
  end.

Lemma trie_exec_repr {V} (ops : list (trie_op V)) (tr : Trie V) (m : gmap string V) :
  trie_repr tr m -> trie_repr (foldl trie_exec tr ops) (foldl map_exec m ops).
Proof.
  revert tr m. induction ops as [|o ops IH]; intros tr m Hr; [done|]. simpl. apply IH.
  destruct o; simpl; [by apply Put_repr|by apply Pop_repr|by eapply Clear_repr].
Qed.

(** C11: The trie is a finite map.  After any sequence of [Put] (of
    non-nil values), [Pop] and [Clear] on a new trie, whatever its
    delimiter, [Get] answers as the map built by the same insertions and
    deletions, [Len] is its size and [Map] returns it. *)
Theorem trie_refines_map {V : Type} (d : string) (ops : list (trie_op V)) :
  let tr := foldl trie_exec (New d) ops in
  let m := foldl map_exec ∅ ops in
  (forall key, Get tr key = m !! key) /\ Len tr = Z.of_nat (size m) /\ Map tr = m.
Proof.
  intros tr m. assert (Hr : trie_repr tr m) by apply trie_exec_repr, New_repr.
  split_and!; [apply (trie_get _ _ Hr)|apply (trie_len _ _ Hr)|].
  rewrite (query_filter tr m (Map tr) (fun _ => True) Hr).
  - apply map_filter_id. done.
  - intros k v. unfold Map. rewrite map_lookup by (by eapply trie_paths_inj). simpl. naive_solver.
Qed.

(** A wildcard query returns exactly the keys of the trie that have
    as many segments as the pattern and agree with it at every segment
    that is not ["*"], with their values. *)
Theorem trie_match_filter {V : Type} (d : string) (ops : list (trie_op V)) (pattern : string) :
  let tr := foldl trie_exec (New d) ops in
  Match tr pattern =
  filter (fun kv => Forall2 seg_match (Split pattern (delim tr)) (Split kv.1 (delim tr)))
    (foldl map_exec ∅ ops).
Proof.
  intros tr. assert (Hr : trie_repr tr (foldl map_exec ∅ ops)) by apply trie_exec_repr, New_repr.
  apply (query_filter tr _ _ (fun path => Forall2 seg_match (Split pattern (delim tr)) path) Hr).
  intros k v. unfold Match. by rewrite match_lookup by (by eapply trie_paths_inj).
Qed.

(** The reverse query: the stored keys, read as patterns, that match
    a string, with their values. *)
Theorem trie_matched_filter {V : Type} (d : string) (ops : list (trie_op V)) (s : string) :
  let tr := foldl trie_exec (New d) ops in
  Matched tr s =
  filter (fun kv => Forall2 (fun s p => seg_match p s) (Split s (delim tr)) (Split kv.1 (delim tr)))
    (foldl map_exec ∅ ops).
Proof.
  intros tr. assert (Hr : trie_repr tr (foldl map_exec ∅ ops)) by apply trie_exec_repr, New_repr.
  apply (query_filter tr _ _ (fun path => Forall2 (fun s p => seg_match p s) (Split s (delim tr)) path) Hr).
  intros k v. unfold Matched. by rewrite matched_lookup by (by eapply trie_paths_inj).
Qed.

(** [ChildrenFlat] does not flatten: the type switch of its helper
    names a map type that no value has, so the result is the unflattened
    [Children]. *)
Theorem ChildrenFlat_is_Children {V : Type} (tr : Trie V) (pattern : string) :
  ChildrenFlat tr pattern = Children tr pattern.
Proof.
  unfold ChildrenFlat, childrenFlat. rewrite bool_decide_true by done.
  generalize (Children tr pattern). intros c.
  apply (map_fold_weak_ind (fun r c => r = c)); [done|]. intros i x m r _ ->. done.
Qed.
