(* ===== verification/Tags.v ===== *)
(** [schemas/repr/tags.go] and [schemas/repr/metric2.go]: tag lists, their
    text forms, and the split into identifying and meta tags.

    A [SortingTags] is a list of name/value pairs.  Methods that change
    the list they are called on return the changed list; a method that
    also returns a (possibly different) list returns both. *)
From S2P Require Import Prelude GoStrings GoSort.

(** ** Tags *)

Definition SPACE_SEPARATOR : string := " ".
Definition DOT_SEPARATOR : string := ".".
Definition COMMA_SEPARATOR : string := ",".
Definition EQUAL_SEPARATOR : string := "=".
Definition COLON_SEPARATOR : string := ":".
Definition IS_SEPARATOR : string := "_is_".

Record Tag := mkTag {
  tag_Name : string;
  tag_Value : string
}.

#[export] Instance Tag_eq_dec : EqDecision Tag.
Proof. solve_decision. Defined.

Definition Tag_Join (t : Tag) (sep : string) : string := tag_Name t +:+ sep +:+ tag_Value t.

Abbreviation SortingTags := (list Tag).

(** One element of the input: the first separator that splits it wins;
    the third and later pieces are dropped. *)
Definition tag_of (tgs : string) : option Tag :=
  let spls := Split tgs EQUAL_SEPARATOR in
  let spls := if (length spls <? 2)%nat then Split tgs IS_SEPARATOR else spls in
  let spls := if (length spls <? 2)%nat then Split tgs COLON_SEPARATOR else spls in
  match spls with
  | name :: val :: _ => Some (mkTag name val)
  | _ => None
  end.

Definition SortingTagsFromArray (keys : list string) : SortingTags := omap tag_of keys.

Definition SortingTagsFromString (key : string) : SortingTags :=
  SortingTagsFromArray
    (if Contains key COMMA_SEPARATOR then Split key COMMA_SEPARATOR
     else if Contains key DOT_SEPARATOR then Split key DOT_SEPARATOR
     else Split key SPACE_SEPARATOR).

Definition tags_Less (a b : Tag) : bool := string_less (tag_Name a) (tag_Name b).

Definition IsEmpty (s : SortingTags) : bool := (length s =? 0)%nat.

Definition StringList (s : SortingTags) : list string :=
  map (fun t => tag_Name t +:+ "=" +:+ tag_Value t) s.

Definition ToStringSep (s : SortingTags) (wordsep tagsep : string) : string :=
  Join (map (fun t => Tag_Join t wordsep) s) tagsep.

Definition BaseString (s : SortingTags) : string :=
  ToStringSep s EQUAL_SEPARATOR SPACE_SEPARATOR.

(** What [WriteBytes] writes. *)
Fixpoint WriteBytes (s : SortingTags) (wordsep tagsep : string) : string :=
  match s with
  | [] => ""
  | t :: s =>
      tag_Name t +:+ wordsep +:+ tag_Value t +:+
      (if (0 <? length s)%nat then tagsep else ""%string) +:+ WriteBytes s wordsep tagsep
  end.

Fixpoint Find (s : SortingTags) (name : string) : string :=
  match s with
  | [] => ""
  | t :: s => if bool_decide (tag_Name t = name) then tag_Value t else Find s name
  end.

(** Overwrite the first tag of that name, or append. *)
Fixpoint Set_ (s : SortingTags) (name val : string) : SortingTags :=
  match s with
  | [] => [mkTag name val]
  | t :: s =>
      if bool_decide (tag_Name t = name) then mkTag (tag_Name t) val :: s else t :: Set_ s name val
  end.

(** The loop of [Merge] and [MergeList]: for every incoming tag,
    overwrite the first tag of its name or append it. *)
Fixpoint merge_loop (s tags : SortingTags) : SortingTags :=
  match tags with
  | [] => s
  | t :: tags => merge_loop (Set_ s (tag_Name t) (tag_Value t)) tags
  end.

(** The receiver afterwards, and the returned list: merging into an
    empty receiver returns the argument and leaves the receiver empty. *)
Definition Merge (s tags : SortingTags) : SortingTags * SortingTags :=
  if (length tags =? 0)%nat then (s, s)
  else if (length s =? 0)%nat then (s, tags)
  else let s := merge_loop s tags in (s, s).

(** [SetTags] converts its argument and leaves the receiver alone. *)
Definition SetTags (s tgs : SortingTags) : SortingTags * SortingTags := (s, tgs).

Definition MergeList (s tags : SortingTags) : SortingTags * SortingTags :=
  if (length tags =? 0)%nat then (s, s)
  else if (length s =? 0)%nat then let '(s, _) := SetTags s tags in (s, s)
  else let s := merge_loop s tags in (s, s).

Definition MergeTagLists (ina inb : list Tag) : list Tag :=
  if (length ina =? 0)%nat && (length inb =? 0)%nat then ina
  else if (length ina =? 0)%nat then inb
  else if (length inb =? 0)%nat then ina
  else
    let '(tgs, _) := SetTags [] ina in
    (MergeList tgs inb).2.

Definition same_tag (a b : Tag) : bool :=
  bool_decide (tag_Name a = tag_Name b) && bool_decide (tag_Value a = tag_Value b).

(** The number of pairs of equal tags. *)
Definition have_ct (s tags : SortingTags) : Z :=
  foldl (fun ct tag => foldl (fun ct o => if same_tag tag o then ct + 1 else ct) ct s) 0 tags.

Definition HasAllTags (s tags : SortingTags) : bool :=
  if (length tags =? 0)%nat then true
  else if (length s =? 0)%nat && (0 <? length tags)%nat then false
  else have_ct s tags =? Z.of_nat (length tags).

Definition Unit_ (s : SortingTags) : string := Find s "unit".

Definition Mtype (s : SortingTags) : string :=
  let got := Find s "mtype" in
  if bool_decide (got = ""%string) then Find s "target_type" else got.

Definition Stat (s : SortingTags) : string := Find s "stat".

(** ** Metrics 2.0 *)

Definition METRICS2_ID_TAGS : list string :=
  ["host"; "http_method"; "http_code"; "device"; "unit"; "what"; "type"; "result"; "stat";
   "bin_max"; "direction"; "mtype"; "unit"; "file"; "line"; "env"; "dc"; "zone"]%string.

Fixpoint is_in (name : string) (l : list string) : bool :=
  match l with
  | [] => false
  | t :: l => if bool_decide (name = t) then true else is_in name l
  end.

Definition IsMetric2Tag (name : string) : bool := is_in name METRICS2_ID_TAGS.

(** [nTag.Set] or [nMeta.Set], by the kind of the name. *)
Definition set_by_kind (tm : SortingTags * SortingTags) (t : Tag) : SortingTags * SortingTags :=
  if IsMetric2Tag (tag_Name t)
  then (Set_ tm.1 (tag_Name t) (tag_Value t), tm.2)
  else (tm.1, Set_ tm.2 (tag_Name t) (tag_Value t)).

(** [Set] on a pointer: a nil pointer is dereferenced and panics. *)
Definition Set_ptr (p : option SortingTags) (name val : string) : option (option SortingTags) :=
  s ← p; Some (Some (Set_ s name val)).

(** The result pointers start as nil.  The list gives the map's entries
    in the order of the iteration. *)
Fixpoint Metric2FromMap_loop (nTag nMeta : option SortingTags) (intag : list (string * string))
  : option (option SortingTags * option SortingTags) :=
  match intag with
  | [] => Some (nTag, nMeta)
  | (nkey, nval) :: intag =>
      if IsMetric2Tag nkey then
        nTag ← Set_ptr nTag nkey nval; Metric2FromMap_loop nTag nMeta intag
      else
        nMeta ← Set_ptr nMeta nkey nval; Metric2FromMap_loop nTag nMeta intag
  end.

Definition Metric2FromMap (intag : list (string * string))
  : option (option SortingTags * option SortingTags) :=
  Metric2FromMap_loop None None intag.

Definition SplitIntoMetric2Tags (intag inmeta : SortingTags) : SortingTags * SortingTags :=
  if IsEmpty inmeta && IsEmpty intag then (intag, inmeta)
  else foldl set_by_kind (foldl set_by_kind ([], []) inmeta) intag.

Definition MergeMetric2Tags (newtags intag inmeta : SortingTags) : SortingTags * SortingTags :=
  if IsEmpty newtags then (intag, inmeta)
  else foldl set_by_kind (intag, inmeta) newtags.
