(* ===== verification/TagsTheorems.v ===== *)
(** The properties of tag lists: the text forms round-trip, [Set], [Merge]
    and the Metrics 2.0 split keep the last value given to a name, and
    [HasAllTags] decides inclusion. *)
From Stdlib Require Import Ascii.
From S2P Require Import Prelude GoStrings GoSort Tags.

Implicit Types (s tags : SortingTags) (name n : string).

Definition names s : list string := map tag_Name s.

(** ** Lookup *)

(** Two tag lists that answer every name alike. *)
Definition tags_equiv s s' : Prop := forall n, Find s n = Find s' n.

#[export] Instance tags_equivalence : Equivalence tags_equiv.
Proof.
  split; unfold tags_equiv; [done|by intros s s' H n|].
  intros s1 s2 s3 H1 H2 n. by rewrite H1.
Qed.

Lemma Find_Set s name val n : Find (Set_ s name val) n = if decide (name = n) then val else Find s n.
Proof.
  induction s as [|t s IH]; simpl.
  - by case_bool_decide; [rewrite decide_True|rewrite decide_False].
  - case_bool_decide as H1; simpl; case_bool_decide as H2; rewrite ?IH.
    + by rewrite decide_True by congruence.
    + by rewrite decide_False by congruence.
    + by rewrite decide_False by congruence.
    + done.
Qed.

#[export] Instance Set_Proper : Proper (tags_equiv ==> eq ==> eq ==> tags_equiv) Set_.
Proof. intros s s' H n ? <- v ? <- m. by rewrite !Find_Set, H. Qed.

#[export] Instance merge_loop_Proper : Proper (tags_equiv ==> eq ==> tags_equiv) merge_loop.
Proof.
  intros s s' H tags ? <-. revert s s' H. induction tags as [|t tags IH]; intros s s' H; [done|].
  simpl. apply IH. by rewrite H.
Qed.

Lemma names_Set s name val :
  names (Set_ s name val) = if decide (name ∈ names s) then names s else names s ++ [name].
Proof.
  induction s as [|t s IH]; [done|]. simpl. case_bool_decide as H.
  - rewrite decide_True by (rewrite <- H; by left). done.
  - simpl. rewrite IH. destruct (decide (name ∈ names s)) as [Hin|Hni].
    + rewrite decide_True; [done|by right].
    + rewrite decide_False; [done|]. intros [->|]%elem_of_cons; done.
Qed.

Lemma NoDup_names_Set s name val : NoDup (names s) -> NoDup (names (Set_ s name val)).
Proof.
  intros H. rewrite names_Set. case_decide as Hd; [done|].
  apply NoDup_app. split; [done|]. split; [|apply NoDup_singleton].
  intros x Hx. by intros ->%list_elem_of_singleton.
Qed.

(** The value a sequence of assignments leaves for a name. *)
Definition last_value tags n : option string :=
  tag_Value <$> last (filter (fun t => tag_Name t = n) tags).

Lemma last_value_cons t tags n :
  last_value (t :: tags) n =
  match last_value tags n with
  | Some v => Some v
  | None => if decide (tag_Name t = n) then Some (tag_Value t) else None
  end.
Proof.
  unfold last_value. rewrite filter_cons. case_decide as H.
  - rewrite last_cons. by destruct (last (filter _ tags)).
  - by destruct (last (filter _ tags)).
Qed.

Lemma last_value_app tags tags' n :
  last_value (tags ++ tags') n =
  match last_value tags' n with Some v => Some v | None => last_value tags n end.
Proof.
  induction tags as [|t tags IH].
  { change (last_value [] n) with (@None string). by destruct (last_value tags' n) eqn:E. }
  simpl. rewrite !last_value_cons, IH. by destruct (last_value tags' n).
Qed.

Lemma Find_merge_loop s tags n :
  Find (merge_loop s tags) n = default (Find s n) (last_value tags n).
Proof.
  revert s. induction tags as [|t tags IH]; intros s; [done|]. simpl.
  rewrite IH, last_value_cons, Find_Set. destruct (last_value tags n); [done|]. by case_decide.
Qed.

Lemma NoDup_names_merge s tags : NoDup (names s) -> NoDup (names (merge_loop s tags)).
Proof.
  revert s. induction tags as [|t tags IH]; intros s H; [done|]. simpl.
  apply IH, NoDup_names_Set, H.
Qed.

(** Merging tag lists keeps, for every name, the last incoming
    value, and the receiver's value when there is none; no name occurs
    twice if none did. *)
Theorem Merge_spec s tags n :
  s <> [] ->
  Find (Merge s tags).2 n = default (Find s n) (last_value tags n) /\
  (Merge s tags).1 = (Merge s tags).2 /\
  (NoDup (names s) -> NoDup (names (Merge s tags).2)).
Proof.
  intros Hs. unfold Merge. destruct tags as [|t tags]; [done|]. destruct s as [|x s]; [done|].
  simpl (length _ =? 0)%nat. cbn iota zeta. split_and!; [apply Find_merge_loop|done|].
  apply NoDup_names_merge.
Qed.

Lemma Merge_spec_witness :
  Find (Merge [mkTag "host" "a"; mkTag "dc" "x"] [mkTag "dc" "y"; mkTag "dc" "z"]).2 "dc" = "z"%string /\
  (Merge [mkTag "host" "a"; mkTag "dc" "x"] [mkTag "dc" "y"; mkTag "dc" "z"]).1 =
  (Merge [mkTag "host" "a"; mkTag "dc" "x"] [mkTag "dc" "y"; mkTag "dc" "z"]).2 /\
  (NoDup ["host"; "dc"]%string ->
   NoDup (names (Merge [mkTag "host" "a"; mkTag "dc" "x"] [mkTag "dc" "y"; mkTag "dc" "z"]).2)).
Proof.
  apply (Merge_spec [mkTag "host" "a"; mkTag "dc" "x"] [mkTag "dc" "y"; mkTag "dc" "z"] "dc"). done.
Defined.

(** [MergeTagLists] loses everything: it drops the result of
    [SetTags] twice, so merging two non-empty lists gives the empty
    list. *)
Theorem MergeTagLists_empty (ina inb : list Tag) :
  ina <> [] -> inb <> [] -> MergeTagLists ina inb = [].
Proof. by destruct ina, inb. Qed.

Lemma MergeTagLists_empty_witness : MergeTagLists [mkTag "a" "1"] [mkTag "b" "2"] = [].
Proof. by apply (MergeTagLists_empty [mkTag "a" "1"] [mkTag "b" "2"]). Defined.

(** ** Metrics 2.0 *)

Lemma set_by_kind_fold (l : list Tag) (tm : SortingTags * SortingTags) n :
  let r := foldl set_by_kind tm l in
  Find r.1 n = (if IsMetric2Tag n then default (Find tm.1 n) (last_value l n) else Find tm.1 n) /\
  Find r.2 n = (if IsMetric2Tag n then Find tm.2 n else default (Find tm.2 n) (last_value l n)).
Proof.
  revert tm. induction l as [|t l IH]; intros tm; [by destruct (IsMetric2Tag n)|].
  cbn [foldl]. cbv zeta in *. destruct (IH (set_by_kind tm t)) as [-> ->].
  rewrite last_value_cons. unfold set_by_kind.
  destruct (IsMetric2Tag (tag_Name t)) eqn:E; cbn [fst snd]; rewrite Find_Set;
    destruct (decide (tag_Name t = n)) as [<-|]; rewrite ?E;
    destruct (last_value l _); try done; by destruct (IsMetric2Tag n).
Qed.

(** The Metrics 2.0 split: every name that identifies a metric is
    looked up in the first result and every other name in the second, and
    each answers with the last value given (an identifying tag list
    overrides the meta list). *)
Theorem SplitIntoMetric2Tags_spec (intag inmeta : SortingTags) n :
  let r := SplitIntoMetric2Tags intag inmeta in
  let v := default ""%string (last_value (inmeta ++ intag) n) in
  Find r.1 n = (if IsMetric2Tag n then v else ""%string) /\
  Find r.2 n = (if IsMetric2Tag n then ""%string else v).
Proof.
  cbv zeta. unfold SplitIntoMetric2Tags, IsEmpty.
  destruct (_ && _) eqn:E.
  - bool_to_prop. destruct intag, inmeta; try done. by destruct (IsMetric2Tag n).
  - destruct (set_by_kind_fold intag (foldl set_by_kind ([], []) inmeta) n) as [-> ->].
    destruct (set_by_kind_fold inmeta ([], []) n) as [-> ->]. rewrite last_value_app.
    destruct (IsMetric2Tag n), (last_value intag n); done.
Qed.

(** Building Metrics 2.0 tags from any non-empty map panics: the
    result lists are nil pointers that [Set] dereferences. *)
Theorem Metric2FromMap_panics (intag : list (string * string)) :
  intag <> [] -> Metric2FromMap intag = None.
Proof.
  destruct intag as [|[k v] intag]; [done|]. intros _. unfold Metric2FromMap. simpl.
  by destruct (IsMetric2Tag k).
Qed.

Lemma Metric2FromMap_panics_witness : Metric2FromMap [("host", "a")]%string = None.
Proof. by apply (Metric2FromMap_panics [("host", "a")]%string). Defined.

(** ** Text forms *)

Definition separators : list Ascii.ascii := [" "; ","; "."; "="]%char.

(** The name and the value contain no separator. *)
Definition clean_string (x : string) : Prop := Forall (fun c => no_char c x = true) separators.

Definition clean (t : Tag) : Prop := clean_string (tag_Name t) /\ clean_string (tag_Value t).

Lemma clean_no_char (c : Ascii.ascii) (x : string) :
  c ∈ separators -> clean_string x -> no_char c x = true.
Proof. intros Hc Hx. unfold clean_string in Hx. rewrite Forall_forall in Hx. by apply Hx. Qed.

Lemma Tag_Join_no_char (c : Ascii.ascii) (t : Tag) :
  c ∈ [" "; ","; "."]%char -> clean t -> no_char c (Tag_Join t "=") = true.
Proof.
  intros Hc [Hn Hv]. unfold Tag_Join. rewrite !no_char_app.
  rewrite (clean_no_char c _ ltac:(set_solver) Hn), (clean_no_char c _ ltac:(set_solver) Hv).
  rewrite andb_true_r. simpl. rewrite bool_decide_false; [done|]. intros <-. set_solver.
Qed.

Lemma tag_of_Join (t : Tag) : clean t -> tag_of (Tag_Join t "=") = Some t.
Proof.
  intros [Hn Hv]. unfold tag_of, EQUAL_SEPARATOR.
  change (Tag_Join t "=") with (Join [tag_Name t; tag_Value t] (sep1 "=")).
  change "="%string with (sep1 "=") at 1 2 3 4. rewrite Split_Join.
  - simpl. by destruct t.
  - done.
  - constructor; [|constructor; [|constructor]]; apply clean_no_char; (done || set_solver).
Qed.

Lemma omap_tag_of s : Forall clean s -> omap tag_of (map (fun t => Tag_Join t "=") s) = s.
Proof. induction 1 as [|t s Ht _ IH]; [done|]. simpl. rewrite (tag_of_Join t Ht). f_equal. exact IH. Qed.

Lemma joined_no_char (c : Ascii.ascii) s :
  c ∈ [" "; ","; "."]%char -> Forall clean s ->
  Forall (fun p => no_char c p = true) (map (fun t => Tag_Join t "=") s).
Proof.
  intros Hc Hs. apply Forall_fmap. apply (Forall_impl _ _ _ Hs). intros t. by apply Tag_Join_no_char.
Qed.

Lemma Split_tags (c : Ascii.ascii) s :
  c ∈ [" "; ","; "."]%char -> Forall clean s -> s <> [] ->
  Split (ToStringSep s "=" (sep1 c)) (sep1 c) = map (fun t => Tag_Join t "=") s.
Proof.
  intros Hc Hs Hne. apply Split_Join; [by destruct s|]. by apply joined_no_char.
Qed.

Lemma ToStringSep_no_char (c d : Ascii.ascii) s :
  c ∈ [" "; ","; "."]%char -> c <> d -> Forall clean s ->
  no_char c (ToStringSep s "=" (sep1 d)) = true.
Proof.
  intros Hc Hne Hs. apply no_char_Join; [|by apply joined_no_char].
  simpl. by rewrite bool_decide_false.
Qed.

Lemma Contains_app (a b sub : string) : Contains (a +:+ (sub +:+ b)) sub = true.
Proof.
  induction a as [|x a IH].
  - change ("" +:+ (sub +:+ b)) with (sub +:+ b).
    assert (Hp : String.prefix sub (sub +:+ b) = true).
    { induction sub as [|y sub IHs]; [apply prefix_nil|]. rewrite string_app_cons. simpl.
      by destruct (Ascii.ascii_dec y y). }
    destruct (sub +:+ b); simpl in *; by rewrite Hp.
  - rewrite string_app_cons. cbn [Contains]. rewrite IH. apply orb_true_r.
Qed.

(** Tags round-trip through their text: parsing the printed form of
    a tag list gives the list back, for the space-separated form used in
    unique ids and for the comma-separated one, when no name or value
    contains a separator. *)
Theorem tags_text_roundtrip s :
  Forall clean s ->
  SortingTagsFromString (BaseString s) = s /\
  SortingTagsFromString (ToStringSep s EQUAL_SEPARATOR COMMA_SEPARATOR) = s.
Proof.
  intros Hs. unfold SortingTagsFromString, SortingTagsFromArray, BaseString.
  change EQUAL_SEPARATOR with "="%string. change SPACE_SEPARATOR with (sep1 " ").
  change COMMA_SEPARATOR with (sep1 ","). change DOT_SEPARATOR with (sep1 ".").
  destruct s as [|t s]; [done|]. split.
  - rewrite !Contains_no_char by (apply ToStringSep_no_char; (done || set_solver)).
    rewrite Split_tags by (done || set_solver). by apply omap_tag_of.
  - destruct s as [|t' s].
    + rewrite Forall_singleton in Hs. change (ToStringSep [t] "=" (sep1 ",")) with (Tag_Join t "=").
      assert (Hc : forall c, c ∈ [" "; ","; "."]%char -> no_char c (Tag_Join t "=") = true)
        by (intros; by apply Tag_Join_no_char).
      rewrite !Contains_no_char, Split_no_char by (apply Hc; set_solver).
      apply (omap_tag_of [t]). by constructor.
    + replace (Contains (ToStringSep (t :: t' :: s) "=" (sep1 ",")) (sep1 ",")) with true.
      * rewrite Split_tags by (done || set_solver). by apply omap_tag_of.
      * unfold ToStringSep. cbn [map]. rewrite Join_cons by done. symmetry. apply Contains_app.
Qed.

Lemma tags_text_roundtrip_witness :
  SortingTagsFromString "host=a dc=east" = [mkTag "host" "a"; mkTag "dc" "east"] /\
  SortingTagsFromString "host=a,dc=east" = [mkTag "host" "a"; mkTag "dc" "east"].
Proof.
  apply (tags_text_roundtrip [mkTag "host" "a"; mkTag "dc" "east"]).
  repeat (constructor; [split; repeat (constructor; [done|]); constructor|]). constructor.
Defined.

(** ** Inclusion *)

Lemma count_foldl s (t : Tag) (ct : Z) :
  foldl (fun ct o => if same_tag t o then ct + 1 else ct) ct s =
  ct + Z.of_nat (length (filter (fun o => o = t) s)).
Proof.
  revert ct. induction s as [|o s IH]; intros ct; simpl; [lia|]. rewrite IH, filter_cons.
  replace (same_tag t o) with (bool_decide (o = t)).
  2: { unfold same_tag. destruct t, o. simpl. repeat case_bool_decide; simpl; congruence. }
  case_decide; [rewrite bool_decide_true by done|rewrite bool_decide_false by done]; simpl; lia.
Qed.

Lemma count_NoDup s (t : Tag) :
  NoDup s -> length (filter (fun o => o = t) s) = if decide (t ∈ s) then 1%nat else 0%nat.
Proof.
  induction 1 as [|o s Hni Hnd IH]; [by rewrite decide_False by apply not_elem_of_nil|].
  rewrite filter_cons. destruct (decide (o = t)) as [->|Hne].
  - rewrite decide_True by (by left). simpl. rewrite IH, decide_False; done.
  - rewrite IH. destruct (decide (t ∈ s)); [rewrite decide_True by (by right)|rewrite decide_False]; try done.
    by intros [->|]%elem_of_cons.
Qed.

Lemma have_ct_spec s tags :
  NoDup s -> have_ct s tags = Z.of_nat (length (filter (fun t => t ∈ s) tags)).
Proof.
  intros Hnd. unfold have_ct.
  assert (H : forall ct, foldl (fun ct tag =>
    foldl (fun ct o => if same_tag tag o then ct + 1 else ct) ct s) ct tags =
    ct + Z.of_nat (length (filter (fun t => t ∈ s) tags))); [|by rewrite H].
  induction tags as [|t tags IH]; intros ct; simpl; [lia|]. rewrite IH, count_foldl, count_NoDup by done.
  rewrite filter_cons. case_decide; simpl; lia.
Qed.

(** [HasAllTags] decides whether every asked tag is present, on a
    list without repeated tags. *)
Theorem HasAllTags_spec s tags :
  NoDup s -> HasAllTags s tags = true <-> (forall t, t ∈ tags -> t ∈ s).
Proof.
  intros Hnd. unfold HasAllTags. destruct tags as [|t tags].
  { simpl. split; [|done]. intros _ t Ht. by apply elem_of_nil in Ht. }
  destruct s as [|o s].
  { simpl. split; [done|]. intros H. specialize (H t). rewrite elem_of_nil in H. destruct H. by left. }
  simpl (length (t :: tags) =? 0)%nat. simpl (_ && _). cbn iota.
  rewrite Z.eqb_eq, have_ct_spec by done. rewrite Nat2Z.inj_iff. split.
  - intros H. rewrite <- Forall_forall. generalize dependent (t :: tags). intros l H.
    induction l as [|x l IH]; [done|]. rewrite filter_cons in H. case_decide as Hx.
    + constructor; [done|]. apply IH. simpl in H. lia.
    + pose proof (length_filter (fun t => t ∈ o :: s) l). simpl in H. lia.
  - intros H. rewrite filter_all; [done|]. by apply Forall_forall.
Qed.

Lemma HasAllTags_spec_witness :
  HasAllTags [mkTag "a" "1"; mkTag "b" "2"] [mkTag "b" "2"] = true <->
  (forall t, t ∈ [mkTag "b" "2"] -> t ∈ [mkTag "a" "1"; mkTag "b" "2"]).
Proof.
  apply (HasAllTags_spec [mkTag "a" "1"; mkTag "b" "2"] [mkTag "b" "2"]).
  apply (bool_decide_unpack _). reflexivity.
Defined.
