(* ===== verification/Repr.v ===== *)
(** [schemas/repr/repr.go]: the names and the points of the statistics.

    [StatName] caches its unique id; [StatRepr] is one aggregated point.
    Methods that change the receiver return it.  Tag lists are values:
    that [Copy] shares them between names is not modelled. *)
From stdpp Require Export pretty.
From S2P Require Import Prelude Float64 GoStrings GoSort Tags.

Open Scope Z_scope.

(** ** Hashes *)

(** [hash/fnv]'s 64-bit FNV-1a; the pool of [utils.GetFnv64a] resets a
    hash before it is used. *)
Definition fnv_offset : Z := 14695981039346656037.
Definition fnv_prime : Z := 1099511628211.

Definition fnv64a (data : list Z) : Z :=
  foldl (fun h b => u64 (Z.lxor h b * fnv_prime)) fnv_offset data.

Inductive TagMode := TAG_METRICS2 | TAG_ALLTAGS.
Inductive HashMode := HASH_FNV | HASH_FARM.

#[export] Instance TagMode_eq_dec : EqDecision TagMode.
Proof. solve_decision. Defined.
#[export] Instance HashMode_eq_dec : EqDecision HashMode.
Proof. solve_decision. Defined.

(** [math.MinInt64] as a float. *)
Definition MinInt64 : float64 := float_of_Z (- 2 ^ 63).

Definition CheckFloat (fl : float64) : float64 :=
  if IsNaN fl || IsInf fl || feq fl MinInt64 then 0 else fl.

(** ** Names *)

Record StatName := mkName {
  Key : string;
  uniqueId : Z;
  uniqueIdstr : string;
  Resolution : Z;
  Ttl : Z;
  tagMode : TagMode;
  hashMode : HashMode;
  Tags : SortingTags;
  MetaTags : SortingTags
}.

Definition set_uid (s : StatName) (id : Z) (str : string) : StatName :=
  mkName (Key s) id str (Resolution s) (Ttl s) (tagMode s) (hashMode s) (Tags s) (MetaTags s).

Definition set_tags (s : StatName) (tags meta : SortingTags) : StatName :=
  mkName (Key s) (uniqueId s) (uniqueIdstr s) (Resolution s) (Ttl s) (tagMode s) (hashMode s)
    tags meta.

Definition SetTagMode (s : StatName) (mode : string) : StatName :=
  let newM := if bool_decide (mode = "all"%string) then TAG_ALLTAGS else TAG_METRICS2 in
  if bool_decide (tagMode s <> newM)
  then mkName (Key s) 0 "" (Resolution s) (Ttl s) newM (hashMode s) (Tags s) (MetaTags s)
  else s.

Definition SetHashMode (s : StatName) (mode : string) : StatName :=
  let newM := if bool_decide (mode = "farm"%string) then HASH_FARM else HASH_FNV in
  if bool_decide (hashMode s <> newM)
  then mkName (Key s) 0 "" (Resolution s) (Ttl s) (tagMode s) newM (Tags s) (MetaTags s)
  else s.

Definition SetKey (s : StatName) (name : string) : StatName :=
  let s := if bool_decide (name <> Key s) then set_uid s 0 "" else s in
  mkName name (uniqueId s) (uniqueIdstr s) (Resolution s) (Ttl s) (tagMode s) (hashMode s)
    (Tags s) (MetaTags s).

Definition SetUid (s : StatName) (id : Z) : StatName := set_uid s id "".

Definition StringToUniqueId (inid : string) : Z := default 0 (ParseUint inid 36).

Definition SetUidString (s : StatName) (id : string) : StatName :=
  set_uid s (StringToUniqueId id) id.

(** The values of the fields.  The source copies the slices of tags, not
    the tags: original and copy point to the same ones, which [Set] and
    [Merge] change in place ([ReprTheorems.shared_tags_stale]).  So a copy
    stands for its original only as long as neither's tags are changed. *)
Definition name_Copy (s : StatName) : StatName :=
  mkName (Key s) (uniqueId s) (uniqueIdstr s) (Resolution s) (Ttl s) (tagMode s) (hashMode s)
    (Tags s) (MetaTags s).

Section hashed.
Context `{!GoSort}.
(** [farm.Hash64] of [github.com/dgryski/go-farm]. *)
Variable farm_Hash64 : list Z -> Z.

Definition hashIt (s : StatName) (data : list Z) : Z :=
  match hashMode s with
  | HASH_FNV => fnv64a data
  | HASH_FARM => farm_Hash64 data
  end.

(** Sorting happens in place: the name keeps the sorted list. *)
Definition SortedTags (s : StatName) : SortingTags * StatName :=
  let tags := if (0 <? length (Tags s))%nat then sort_Sort tags_Less (Tags s) else Tags s in
  (tags, set_tags s tags (MetaTags s)).

Definition SortedMetaTags (s : StatName) : SortingTags * StatName :=
  let meta := if (0 <? length (MetaTags s))%nat then sort_Sort tags_Less (MetaTags s)
              else MetaTags s in
  (meta, set_tags s (Tags s) meta).

Definition UniqueIdAllTagsString (s : StatName) : string * StatName :=
  let '(tags, s) := SortedTags s in
  let '(meta, s) := SortedMetaTags s in
  (Key s +:+ ":" +:+ BaseString tags +:+ ":" +:+ BaseString meta, s).

(** [s.Key + ":" + s.SortedTags().BaseString()]. *)
Definition key_tags_string (s : StatName) : string * StatName :=
  let '(tags, s) := SortedTags s in
  (Key s +:+ ":" +:+ BaseString tags, s).

Definition UniqueId (s : StatName) : Z * StatName :=
  if uniqueId s >? 0 then (uniqueId s, s)
  else
    let '(str, s) :=
      match tagMode s with
      | TAG_ALLTAGS =>
          if (0 <? length (MetaTags s))%nat then UniqueIdAllTagsString s else key_tags_string s
      | TAG_METRICS2 => key_tags_string s
      end in
    let s := set_uid s (hashIt s (string_bytes str)) (uniqueIdstr s) in
    (uniqueId s, s).

Definition UniqueIdAllTags (s : StatName) : Z * StatName :=
  let '(str, s) := UniqueIdAllTagsString s in (hashIt s (string_bytes str), s).

Definition UniqueIdString (s : StatName) : string * StatName :=
  if bool_decide (uniqueIdstr s = ""%string) then
    let '(id, s) := UniqueId s in
    let s := set_uid s (uniqueId s) (FormatUint id 36) in
    (uniqueIdstr s, s)
  else (uniqueIdstr s, s).

(** Both branches of the loop append. *)
Definition MergeTags (s : StatName) (tags : SortingTags) : SortingTags * StatName :=
  let s := foldl (fun s tag =>
    if existsb (fun o => bool_decide (tag_Name tag = tag_Name o)) (Tags s)
    then set_tags s (Tags s ++ [mkTag (tag_Name tag) (tag_Value tag)]) (MetaTags s)
    else set_tags s (Tags s ++ [mkTag (tag_Name tag) (tag_Value tag)]) (MetaTags s)) s tags in
  (Tags s, s).

Definition name_ByteSize (s : StatName) : Z * StatName :=
  let '(tags, s) := SortedTags s in
  (Z.of_nat (String.length (Key s +:+ BaseString tags)), s).

Definition IsBlank (s : StatName) : bool := (String.length (Key s) =? 0)%nat.

Definition Name (s : StatName) : string * StatName :=
  let '(tags, s) := SortedTags s in
  (Join (Key s :: map (fun t => Tag_Join t EQUAL_SEPARATOR) tags) ".", s).

(** [itgs] is a pointer.  The result of [Merge] is dropped in the first
    case; in the second the pointers to the name's own lists are what
    [MergeMetric2Tags] changes, and the result of the split is dropped. *)
Definition name_MergeMetric2Tags (s : StatName) (itgs : option SortingTags) : StatName :=
  match itgs with
  | None => s
  | Some itgs =>
      let s :=
        match tagMode s with
        | TAG_ALLTAGS => set_tags s (Merge (Tags s) itgs).1 []
        | TAG_METRICS2 =>
            let '(tags, meta) := MergeMetric2Tags itgs (Tags s) (MetaTags s) in
            set_tags s tags meta
        end in
      set_uid s 0 ""
  end.

(** ** Points *)

Record StatRepr := mkRepr {
  r_Name : option StatName;
  Time : Z;
  Min : float64;
  Max : float64;
  Last : float64;
  Sum : float64;
  Count : Z
}.

Definition NullStatRepr : StatRepr := mkRepr None 0 NaN NaN NaN NaN 0.
Definition ZeroStatRepr : StatRepr := mkRepr None 0 0 0 0 0 0.

(** A [time.Time] is its nanoseconds since the Unix epoch. *)
Definition ToTime (s : StatRepr) : Z :=
  if Time s >? 2147483647 then Time s else Time s * 10 ^ 9.

Definition ToUnix (s : StatRepr) : Z :=
  if Time s >? 2147483647 then u32 (Time s / 10 ^ 9) else u32 (Time s).

Definition with_name (s : StatRepr) (n : StatName) : StatRepr :=
  mkRepr (Some n) (Time s) (Min s) (Max s) (Last s) (Sum s) (Count s).

Definition repr_UniqueId (s : StatRepr) : option (Z * StatRepr) :=
  n ← r_Name s;
  let '(tags, n') := SortedTags n in
  let str := Key n +:+ ":" +:+ pretty (Resolution n) +:+ ":" +:+ BaseString tags in
  Some (hashIt n (string_bytes str), with_name s n').

(** The receiver may be nil. *)
Definition repr_ByteSize (s : option StatRepr) : option (Z * option StatRepr) :=
  match s with
  | None => Some (0, None)
  | Some s =>
      n ← r_Name s;
      let '(sz, n) := name_ByteSize n in
      Some (sz + 8 * 64, Some (with_name s n))
  end.

Definition repr_Copy (s : StatRepr) : StatRepr :=
  mkRepr (name_Copy <$> r_Name s) (Time s) (Min s) (Max s) (Last s) (Sum s) (Count s).

Definition repr_Merge (s stat : StatRepr) : StatRepr :=
  if Time stat <? Time s then
    let out := repr_Copy s in
    mkRepr (r_Name out) (Time out)
      (if fgt (Min out) (Min stat) then Min stat else Min out)
      (if flt (Max out) (Max stat) then Max stat else Max out)
      (Last out) (fadd (Sum out) (Sum stat)) (i64 (Count out + Count stat))
  else
    let out := repr_Copy stat in
    mkRepr (r_Name out) (Time out)
      (if fgt (Min out) (Min s) then Min s else Min out)
      (if flt (Max out) (Max s) then Max s else Max out)
      (Last out) (fadd (Sum out) (Sum s)) (i64 (Count out + Count s)).

Definition MergeInPlace (s stat : StatRepr) : StatRepr :=
  mkRepr (r_Name s) (Time s)
    (if fgt (Min s) (Min stat) && negb (IsNaN (Min stat)) then Min stat else Min s)
    (if flt (Max s) (Max stat) && negb (IsNaN (Max stat)) then Max stat else Max s)
    (Last s)
    (if negb (IsNaN (Sum stat)) then fadd (Sum s) (Sum stat) else Sum s)
    (i64 (Count s + Count stat)).

Definition repr_SetKey (s : StatRepr) (name : string) : option StatRepr :=
  n ← r_Name s; Some (with_name s (SetKey n name)).

Definition UniqueKey (s : StatRepr) : option (string * StatRepr) :=
  n ← r_Name s;
  let '(id, n) := UniqueId n in
  Some (pretty id +:+ ":" +:+ pretty (Time s), with_name s n).

(** Both names keep the id they compute. *)
Definition IsSameStat (s stat : StatRepr) : option (bool * StatRepr * StatRepr) :=
  n ← r_Name s;
  n' ← r_Name stat;
  let '(id, n) := UniqueId n in
  let '(id', n') := UniqueId n' in
  Some ((id =? id') && (Time s =? Time stat), with_name s n, with_name stat n').

Fixpoint ContainsSelf (s : StatRepr) (stats : list StatRepr)
  : option (bool * StatRepr * list StatRepr) :=
  match stats with
  | [] => Some (false, s, [])
  | s2 :: stats =>
      '(same, s, s2) ← IsSameStat s s2;
      if same : bool then Some (true, s, s2 :: stats)
      else
        '(b, s, stats) ← ContainsSelf s stats;
        Some (b, s, s2 :: stats)
  end.

(** [StatReprSlice.Less]; the elements are pointers. *)
Definition reprs_Less (a b : option StatRepr) : bool :=
  match a, b with
  | Some a, Some b => Time a <? Time b
  | _, _ => false
  end.

(** ** Lists of points *)

(** The zero [time.Time], in the year one. *)
Definition zero_time : Z := - 62135596800 * 10 ^ 9.

(** [Time.Second]: the second within the minute. *)
Definition Second (t : Z) : Z := (t / 10 ^ 9) mod 60.

Record ReprList := mkReprList {
  MinTime : Z;
  MaxTime : Z;
  Reprs : list StatRepr
}.

Definition new_ReprList : ReprList := mkReprList zero_time zero_time [].

Definition ReprList_Add (s : ReprList) (stat : StatRepr) : ReprList :=
  let toT := ToTime stat in
  mkReprList
    (if Second (MinTime s) =? 0 then toT else MinTime s)
    (if Second toT >? Second (MaxTime s) then toT else MaxTime s)
    (Reprs s ++ [stat]).

Definition ReprList_Len (s : ReprList) : Z := Z.of_nat (length (Reprs s)).

End hashed.
