(* ===== verification/ReprTheorems.v ===== *)
(** The properties of names and points: unique ids do not depend on the
    order of the tags, round-trip through their base-36 text, and are kept
    coherent by the setters; merging points is commutative up to the name
    and bounds every merged value. *)
From S2P Require Import Prelude Float64 GoStrings GoSort Tags TagsTheorems Repr.

Section ids.
Context {GS : GoSort} (farm_Hash64 : list Z -> Z).
(** [farm.Hash64] returns a [uint64]. *)
Hypothesis farm_range : forall data, in_width 64 (farm_Hash64 data).
Implicit Types (s : StatName) (tags : SortingTags).

(** ** Sorting tags *)

Lemma tags_Less_order tags : weak_order_on tags_Less tags.
Proof.
  unfold tags_Less, string_less. constructor.
  - intros x _. by rewrite (proj2 (Compare_eq _ _)).
  - intros x y z _ _ _. destruct (Compare (tag_Name x) (tag_Name y)) eqn:E1; try done.
    destruct (Compare (tag_Name y) (tag_Name z)) eqn:E2; try done.
    by rewrite (Compare_lt_trans _ _ _ E1 E2).
  - intros x y z _ _ _ H1 H2. destruct (Compare (tag_Name x) (tag_Name z)) eqn:E; try done. exfalso.
    destruct (Compare (tag_Name y) (tag_Name x)) eqn:Eyx.
    + apply Compare_eq in Eyx. rewrite Eyx, E in H2. done.
    + rewrite (Compare_lt_trans _ _ _ Eyx E) in H2. done.
    + rewrite Compare_antisym, Eyx in H1. done.
Qed.

(** With distinct names the sorted list depends only on the set of tags. *)
Lemma sort_tags_perm tags tags' :
  tags ≡ₚ tags' -> NoDup (names tags) -> sort_Sort tags_Less tags = sort_Sort tags_Less tags'.
Proof.
  intros Hp Hnd. apply (sorted_unique tags_Less).
  - by rewrite !sort_perm.
  - apply sort_sorted, tags_Less_order.
  - apply sort_sorted, tags_Less_order.
  - intros x y Hx Hy H1 H2. rewrite sort_perm in Hx, Hy.
    assert (Hn : tag_Name x = tag_Name y).
    { unfold tags_Less, string_less in *. rewrite Compare_antisym in H2.
      destruct (Compare (tag_Name x) (tag_Name y)) eqn:E; try done. by apply Compare_eq. }
    apply list_elem_of_lookup in Hx as [i Hi], Hy as [j Hj].
    assert (i = j); [|congruence].
    apply (NoDup_lookup (names tags) i j (tag_Name x) Hnd); unfold names;
      rewrite list_lookup_fmap; [by rewrite Hi|by rewrite Hj, Hn].
Qed.

Definition sorted_tags tags : SortingTags :=
  if (0 <? length tags)%nat then sort_Sort tags_Less tags else tags.

Lemma sorted_tags_perm tags tags' :
  tags ≡ₚ tags' -> NoDup (names tags) -> sorted_tags tags = sorted_tags tags'.
Proof.
  intros Hp Hnd. unfold sorted_tags. rewrite <- (Permutation_length Hp).
  destruct (0 <? length tags)%nat eqn:E; [by apply sort_tags_perm|].
  apply Nat.ltb_ge in E. destruct tags; [|simpl in E; lia]. by apply Permutation_nil_l in Hp.
Qed.

(** The text that is hashed into the unique id. *)
Definition id_text s : string :=
  match tagMode s with
  | TAG_ALLTAGS =>
      if (0 <? length (MetaTags s))%nat
      then Key s +:+ ":" +:+ BaseString (sorted_tags (Tags s)) +:+ ":" +:+
           BaseString (sorted_tags (MetaTags s))
      else Key s +:+ ":" +:+ BaseString (sorted_tags (Tags s))
  | TAG_METRICS2 => Key s +:+ ":" +:+ BaseString (sorted_tags (Tags s))
  end.

Definition fresh_id s : Z := hashIt farm_Hash64 s (string_bytes (id_text s)).

Lemma UniqueId_fresh s : uniqueId s = 0 -> (UniqueId farm_Hash64 s).1 = fresh_id s.
Proof.
  intros H0. unfold UniqueId. rewrite H0. simpl (0 >? 0). cbn iota. unfold fresh_id, id_text.
  unfold UniqueIdAllTagsString, key_tags_string, SortedTags, SortedMetaTags.
  destruct (tagMode s); [done|]. by destruct (0 <? length (MetaTags s))%nat.
Qed.

(** ** Coherence of the cached id *)

(** The tag lists name each tag once. *)
Definition distinct s : Prop := NoDup (names (Tags s)) /\ NoDup (names (MetaTags s)).

(** The cached id, once there, is the hash of the current fields, and
    the cached text is that of the id. *)
Definition coherent s : Prop :=
  (uniqueId s = 0 \/ uniqueId s = fresh_id s) /\
  (uniqueIdstr s = ""%string \/ uniqueIdstr s = FormatUint (fresh_id s) 36) /\ distinct s.

Lemma names_perm tags tags' : tags ≡ₚ tags' -> NoDup (names tags) -> NoDup (names tags').
Proof. intros Hp Hnd. unfold names in *. by rewrite <- Hp. Qed.

Lemma sorted_tags_is_perm tags : sorted_tags tags ≡ₚ tags.
Proof. unfold sorted_tags. destruct (_ <? _)%nat; [apply sort_perm|done]. Qed.

(** Names that differ in the order of their tags only. *)
Definition same_up_to_order s s' : Prop :=
  Key s' = Key s /\ tagMode s' = tagMode s /\ hashMode s' = hashMode s /\
  Tags s' ≡ₚ Tags s /\ MetaTags s' ≡ₚ MetaTags s.

Lemma fresh_id_order s s' : distinct s -> same_up_to_order s s' -> fresh_id s' = fresh_id s.
Proof.
  intros [H1 H2] (HK & HT & HH & Ht & Hm). unfold fresh_id, hashIt, id_text.
  rewrite HK, HT, HH, (Permutation_length Hm).
  rewrite (sorted_tags_perm (Tags s') (Tags s)), (sorted_tags_perm (MetaTags s') (MetaTags s));
    try done; by eapply names_perm.
Qed.

Lemma distinct_order s s' : distinct s -> same_up_to_order s s' -> distinct s'.
Proof. intros [H1 H2] (_ & _ & _ & Ht & Hm). split; by eapply names_perm. Qed.

Lemma UniqueId_order s :
  same_up_to_order s (UniqueId farm_Hash64 s).2 /\
  uniqueIdstr (UniqueId farm_Hash64 s).2 = uniqueIdstr s /\
  uniqueId (UniqueId farm_Hash64 s).2 = (UniqueId farm_Hash64 s).1.
Proof.
  unfold UniqueId. destruct (uniqueId s >? 0); [done|].
  unfold UniqueIdAllTagsString, key_tags_string, SortedTags, SortedMetaTags.
  fold (sorted_tags (Tags s)). 
  destruct (tagMode s) eqn:E; [|destruct (0 <? length (MetaTags s))%nat eqn:Em]; simpl;
    fold (sorted_tags (Tags s)); rewrite ?Em; (split; [|done]); split_and!; try done;
    try apply sorted_tags_is_perm; apply sort_perm.
Qed.

Lemma fnv64a_range (data : list Z) : in_width 64 (fnv64a data).
Proof.
  unfold fnv64a. assert (H0 : in_width 64 fnv_offset) by (split; reflexivity || discriminate).
  revert H0. generalize fnv_offset. induction data as [|b data IH]; intros h Hh; [done|].
  simpl. apply IH. by apply wrap_range.
Qed.

Lemma fresh_id_range s : in_width 64 (fresh_id s).
Proof. unfold fresh_id, hashIt. destruct (hashMode s); [apply fnv64a_range|apply farm_range]. Qed.

Lemma UniqueId_coherent s :
  coherent s -> (UniqueId farm_Hash64 s).1 = fresh_id s /\ coherent (UniqueId farm_Hash64 s).2.
Proof.
  intros (Hid & Hstr & Hd). destruct (UniqueId_order s) as (Ho & Hs & Hi).
  assert (Hval : (UniqueId farm_Hash64 s).1 = fresh_id s).
  { destruct Hid as [H0|Hid]; [by apply UniqueId_fresh|].
    pose proof (fresh_id_range s) as Hr. unfold in_width in Hr.
    destruct (decide (uniqueId s = 0)) as [E|E]; [by apply UniqueId_fresh|]. unfold UniqueId.
    rewrite Z.gtb_ltb, (proj2 (Z.ltb_lt 0 (uniqueId s))) by lia. done. }
  split; [done|]. unfold coherent. rewrite Hi, Hs, (fresh_id_order s _ Hd Ho).
  split; [by right|split; [done|by eapply distinct_order]].
Qed.

Lemma UniqueIdString_coherent s :
  coherent s ->
  (UniqueIdString farm_Hash64 s).1 = FormatUint (fresh_id s) 36 /\
  coherent (UniqueIdString farm_Hash64 s).2.
Proof.
  intros Hc. unfold UniqueIdString. case_bool_decide as He.
  - destruct (UniqueId_coherent s Hc) as [Hv Hc']. destruct (UniqueId_order s) as (Ho & _ & Hi).
    pose proof Hc as (_ & _ & Hd). pose proof (fresh_id_order s _ Hd Ho) as Hf.
    destruct (UniqueId farm_Hash64 s) as [id s']. cbn [fst snd] in *. simpl.
    split; [by rewrite Hv|]. destruct Hc' as (Hid & _ & Hd').
    split; [done|]. split; [|done]. right. simpl. by rewrite Hv, <- Hf.
  - destruct Hc as (Hid & [|Hstr] & Hd); [done|]. simpl. by split; [|split; [|split; [right|]]].
Qed.

Lemma SortedTags_coherent s : coherent s -> coherent (SortedTags s).2.
Proof.
  intros (Hid & Hstr & Hd). unfold SortedTags. fold (sorted_tags (Tags s)).
  assert (Ho : same_up_to_order s (set_tags s (sorted_tags (Tags s)) (MetaTags s)))
    by (split_and!; try done; apply sorted_tags_is_perm).
  unfold coherent. cbn [snd]. rewrite (fresh_id_order s _ Hd Ho).
  split; [done|split; [done|by eapply distinct_order]].
Qed.

Lemma reset_coherent s : distinct s -> uniqueId s = 0 -> uniqueIdstr s = ""%string -> coherent s.
Proof. intros Hd H0 Hs. split; [by left|]. split; [by left|done]. Qed.

Lemma set_by_kind_distinct (l : list Tag) (tm : SortingTags * SortingTags) :
  NoDup (names tm.1) /\ NoDup (names tm.2) ->
  NoDup (names (foldl set_by_kind tm l).1) /\ NoDup (names (foldl set_by_kind tm l).2).
Proof.
  revert tm. induction l as [|t l IH]; intros tm [H1 H2]; [done|]. cbn [foldl]. apply IH.
  unfold set_by_kind. destruct (IsMetric2Tag _); split; try done; by apply NoDup_names_Set.
Qed.

Lemma name_MergeMetric2Tags_coherent s itgs : coherent s -> coherent (name_MergeMetric2Tags s itgs).
Proof.
  intros Hc. destruct itgs as [itgs|]; [|done]. destruct Hc as (_ & _ & [H1 H2]).
  unfold name_MergeMetric2Tags. destruct (tagMode s).
  - destruct (MergeMetric2Tags itgs (Tags s) (MetaTags s)) as [t m] eqn:E.
    apply reset_coherent; [|done|done]. unfold distinct. simpl.
    unfold MergeMetric2Tags in E. destruct (IsEmpty itgs); [by injection E as <- <-|].
    pose proof (set_by_kind_distinct itgs (Tags s, MetaTags s) (conj H1 H2)) as H. by rewrite E in H.
  - apply reset_coherent; [|done|done]. unfold distinct. simpl. split; [|apply NoDup_nil_2].
    unfold Tags.Merge. destruct (length itgs =? 0)%nat; [exact H1|].
    destruct (length (Tags s) =? 0)%nat; [exact H1|]. by apply NoDup_names_merge.
Qed.

Lemma SetKey_coherent s name : coherent s -> coherent (SetKey s name).
Proof.
  intros Hc. unfold SetKey. case_bool_decide as Hn.
  - destruct Hc as (_ & _ & Hd). by apply reset_coherent.
  - rewrite Hn. by destruct s.
Qed.

Lemma SetTagMode_coherent s mode : coherent s -> coherent (SetTagMode s mode).
Proof.
  intros Hc. unfold SetTagMode. case_bool_decide as Hn; [|done].
  destruct Hc as (_ & _ & Hd). by apply reset_coherent.
Qed.

Lemma SetHashMode_coherent s mode : coherent s -> coherent (SetHashMode s mode).
Proof.
  intros Hc. unfold SetHashMode. case_bool_decide as Hn; [|done].
  destruct Hc as (_ & _ & Hd). by apply reset_coherent.
Qed.

(** ** Runs of operations on a name *)

Inductive name_op :=
| NSetKey (k : string)
| NSetTagMode (m : string)
| NSetHashMode (m : string)
| NMergeMetric2Tags (tags : option SortingTags)
| NUniqueId
| NUniqueIdString
| NName.

Definition name_exec s (o : name_op) : StatName :=
  match o with
  | NSetKey k => SetKey s k
  | NSetTagMode m => SetTagMode s m
  | NSetHashMode m => SetHashMode s m
  | NMergeMetric2Tags tags => name_MergeMetric2Tags s tags
  | NUniqueId => (UniqueId farm_Hash64 s).2
  | NUniqueIdString => (UniqueIdString farm_Hash64 s).2
  | NName => (Name s).2
  end.

Lemma name_exec_coherent s (o : name_op) : coherent s -> coherent (name_exec s o).
Proof.
  intros Hc. destruct o; simpl.
  - by apply SetKey_coherent.
  - by apply SetTagMode_coherent.
  - by apply SetHashMode_coherent.
  - by apply name_MergeMetric2Tags_coherent.
  - by apply UniqueId_coherent.
  - by apply UniqueIdString_coherent.
  - by apply SortedTags_coherent.
Qed.

Lemma name_run_coherent (ops : list name_op) s : coherent s -> coherent (foldl name_exec s ops).
Proof. revert s. induction ops as [|o ops IH]; intros s Hc; [done|]. by apply IH, name_exec_coherent. Qed.

(** C33: The cached unique id of a name follows the name.  Take a name
    without a cached id, whose tags have distinct names, as have its meta
    tags, and whose tags no other name points to.  After any sequence of
    changes of its key and modes, Metrics 2.0 tag merges, requests of its
    ids and of its text, [UniqueId] is the hash of the current key and
    tags, and [UniqueIdString] its base-36 text.  ([Copy] and [MergeTags]
    are not among the operations: [shared_tags_stale] and
    [MergeTags_stale_id] show ids they leave stale.) *)
Theorem unique_id_coherent s (ops : list name_op) :
  uniqueId s = 0 -> uniqueIdstr s = ""%string -> distinct s ->
  let s' := foldl name_exec s ops in
  (UniqueId farm_Hash64 s').1 = fresh_id s' /\
  (UniqueIdString farm_Hash64 s').1 = FormatUint (fresh_id s') 36.
Proof.
  intros H0 Hs Hd s'. assert (Hc : coherent s') by (apply name_run_coherent; by apply reset_coherent).
  split; [by apply UniqueId_coherent|by apply UniqueIdString_coherent].
Qed.

(** The unique id does not depend on the order in which tags were
    given. *)
Theorem unique_id_tag_order s s' :
  uniqueId s = 0 -> uniqueId s' = 0 -> distinct s -> same_up_to_order s s' ->
  (UniqueId farm_Hash64 s').1 = (UniqueId farm_Hash64 s).1.
Proof.
  intros H0 H0' Hd Ho. rewrite !UniqueId_fresh by done. by apply fresh_id_order.
Qed.

(** The text of an id reads back as the id. *)
Theorem unique_id_text_roundtrip s :
  uniqueIdstr s = ""%string -> in_width 64 (uniqueId s) ->
  StringToUniqueId (UniqueIdString farm_Hash64 s).1 = (UniqueId farm_Hash64 s).1.
Proof.
  intros Hs Hr. unfold UniqueIdString, StringToUniqueId. rewrite bool_decide_true by done.
  assert (Hid : in_width 64 (UniqueId farm_Hash64 s).1).
  { destruct (uniqueId s >? 0) eqn:E; [unfold UniqueId; by rewrite E|].
    rewrite UniqueId_fresh; [apply fresh_id_range|]. bool_to_prop. unfold in_width in Hr. lia. }
  destruct (UniqueId farm_Hash64 s) as [id s']. cbn [fst] in *. simpl. by rewrite Parse_Format.
Qed.

End ids.

(** ** Witnesses *)

#[local] Existing Instance insertion_GoSort.

Definition sample_name (tags : SortingTags) : StatName :=
  mkName "a.b" 0 "" 0 0 TAG_METRICS2 HASH_FNV tags [].

Definition sample_tags : SortingTags := [mkTag "host" "h1"; mkTag "dc" "east"].

(** The FNV hash also stands for the other hash function here. *)
Lemma sample_farm_range (data : list Z) : in_width 64 (fnv64a data).
Proof. apply fnv64a_range. Qed.

Lemma sample_distinct : distinct (sample_name sample_tags).
Proof. split; apply (bool_decide_unpack _); reflexivity. Qed.

Definition sample_name_ops : list name_op :=
  [NUniqueId; NSetKey "a.c"; NUniqueIdString; NMergeMetric2Tags (Some [mkTag "dc" "west"]);
   NSetHashMode "farm"; NName].

Lemma unique_id_coherent_witness :
  let s' := foldl (name_exec fnv64a) (sample_name sample_tags) sample_name_ops in
  (UniqueId fnv64a s').1 = fresh_id fnv64a s' /\
  (UniqueIdString fnv64a s').1 = FormatUint (fresh_id fnv64a s') 36.
Proof.
  apply (unique_id_coherent fnv64a sample_farm_range (sample_name sample_tags) sample_name_ops);
    [reflexivity|reflexivity|exact sample_distinct].
Defined.

Lemma unique_id_tag_order_witness :
  (UniqueId fnv64a (sample_name (reverse sample_tags))).1 =
  (UniqueId fnv64a (sample_name sample_tags)).1.
Proof.
  apply (unique_id_tag_order fnv64a (sample_name sample_tags) (sample_name (reverse sample_tags)));
    [reflexivity|reflexivity|exact sample_distinct|].
  split_and!; try reflexivity. apply reverse_Permutation.
Defined.

Lemma unique_id_text_roundtrip_witness :
  StringToUniqueId (UniqueIdString fnv64a (sample_name sample_tags)).1 =
  (UniqueId fnv64a (sample_name sample_tags)).1.
Proof.
  apply (unique_id_text_roundtrip fnv64a sample_farm_range (sample_name sample_tags));
    [reflexivity|split; reflexivity || discriminate].
Defined.

(** [MergeTags] leaves a stale id: it changes the tags without
    clearing the cached id, which then differs from the id of the same
    name and tags computed afresh. *)
Theorem MergeTags_stale_id :
  let s := (UniqueId fnv64a (sample_name sample_tags)).2 in
  let s' := (MergeTags s [mkTag "env" "prod"]).2 in
  (UniqueId fnv64a s').1 <> fresh_id fnv64a s'.
Proof. vm_compute. discriminate. Qed.

(** *** Names that share tags

    [Copy] gives the copy the addresses of the original's tags.  Here the
    tags live in a store and a name has addresses; its other fields are in
    a [StatName] whose lists of tags are not looked at. *)

Record name_ref := mkRef { nr_fields : StatName; nr_tags : list nat; nr_meta : list nat }.

Definition deref (h : list Tag) (r : name_ref) : StatName :=
  let at_ ls := omap (fun l => h !! l) ls in set_tags (nr_fields r) (at_ (nr_tags r)) (at_ (nr_meta r)).

(** [Copy]. *)
Definition ref_Copy (r : name_ref) : name_ref := mkRef (name_Copy (nr_fields r)) (nr_tags r) (nr_meta r).

(** [SortingTags.Set]: the first tag of the name is changed in place. *)
Fixpoint ref_Set (h : list Tag) (all ls : list nat) (name val : string) : list Tag * list nat :=
  match ls with
  | [] => (h ++ [mkTag name val], all ++ [length h])
  | l :: ls =>
      match h !! l with
      | Some t => if bool_decide (tag_Name t = name) then (<[l := mkTag name val]> h, all) else ref_Set h all ls name val
      | None => ref_Set h all ls name val
      end
  end.

(** [MergeMetric2Tags] in the default tag mode. *)
Definition ref_merge (h : list Tag) (r : name_ref) (itgs : SortingTags) : list Tag * name_ref :=
  let step '(h, tags, meta) t :=
    if IsMetric2Tag (tag_Name t)
    then let '(h, tags) := ref_Set h tags tags (tag_Name t) (tag_Value t) in (h, tags, meta)
    else let '(h, meta) := ref_Set h meta meta (tag_Name t) (tag_Value t) in (h, tags, meta) in
  let '(h, tags, meta) := foldl step (h, nr_tags r, nr_meta r) itgs in
  (h, mkRef (set_uid (nr_fields r) 0 "") tags meta).

(** A name whose id has been asked for is copied, and a tag is merged into
    the original: the original is what the model of values says, the copy
    has the new tag, too, and still the old id. *)
Example shared_tags_stale :
  let h := sample_tags in
  let s := mkRef (UniqueId fnv64a (sample_name sample_tags)).2 [1; 0]%nat [] in
  let cp := ref_Copy s in
  let '(h, s) := ref_merge h s [mkTag "dc" "west"] in
  deref h s = name_MergeMetric2Tags (UniqueId fnv64a (sample_name sample_tags)).2 (Some [mkTag "dc" "west"]) /\
  (UniqueId fnv64a (deref h s)).1 = fresh_id fnv64a (deref h s) /\
  (UniqueId fnv64a (deref h cp)).1 <> fresh_id fnv64a (deref h cp).
Proof. vm_compute. split; [reflexivity|]. split; [reflexivity|discriminate]. Qed.

(** ** Merging points *)

(** [m] is the lesser (or equal) of [a] and [b]. *)
Definition is_fmin (a b m : float64) : Prop :=
  (m = a \/ m = b) /\ flt a m = false /\ flt b m = false.

Definition is_fmax (a b m : float64) : Prop :=
  (m = a \/ m = b) /\ flt m a = false /\ flt m b = false.

Lemma fmin_pick (a b : float64) : is_fmin a b (if fgt a b then b else a).
Proof.
  unfold fgt. destruct (flt b a) eqn:E.
  - split; [by right|]. split; [by apply flt_asym|apply flt_irrefl].
  - split; [by left|]. by split; [apply flt_irrefl|].
Qed.

Lemma fmax_pick (a b : float64) : is_fmax a b (if flt a b then b else a).
Proof.
  destruct (flt a b) eqn:E.
  - split; [by right|]. split; [by apply flt_asym|apply flt_irrefl].
  - split; [by left|]. by split; [apply flt_irrefl|].
Qed.

Lemma is_fmin_comm (a b m : float64) : is_fmin a b m -> is_fmin b a m.
Proof. unfold is_fmin. tauto. Qed.

Lemma is_fmax_comm (a b m : float64) : is_fmax a b m -> is_fmax b a m.
Proof. unfold is_fmax. tauto. Qed.

(** Merging two points: the time and the last value are those of
    the later point (the argument on a tie), the minimum and the maximum
    bound both, the counts add up (as 64-bit integers), and the sum adds
    the other point's sum to the later one's. *)
Theorem repr_Merge_spec (s stat : StatRepr) :
  let m := repr_Merge s stat in
  let later := if Time stat <? Time s then s else stat in
  let other := if Time stat <? Time s then stat else s in
  Time m = Z.max (Time s) (Time stat) /\ Last m = Last later /\ r_Name m = name_Copy <$> r_Name later /\
  is_fmin (Min s) (Min stat) (Min m) /\ is_fmax (Max s) (Max stat) (Max m) /\
  Count m = i64 (Count s + Count stat) /\ Sum m = fadd (Sum later) (Sum other).
Proof.
  unfold repr_Merge. cbv zeta. destruct (Time stat <? Time s) eqn:E; bool_to_prop; simpl.
  - split_and!; try done; [lia|apply fmin_pick|apply fmax_pick].
  - split_and!; try done; [lia|apply is_fmin_comm, fmin_pick|apply is_fmax_comm, fmax_pick|].
    f_equal. lia.
Qed.

(** The time range of a [ReprList] does not follow its points: it
    compares the seconds within the minute, so a later point in a later
    minute can fail to raise the maximum, and an earlier point can raise
    it. *)
Theorem ReprList_Add_max_wrong :
  let at_ t := mkRepr None t 0 0 0 0 1 in
  let l := ReprList_Add (ReprList_Add new_ReprList (at_ 1500000059)) (at_ 1500000100) in
  MaxTime l = 1500000059 * 10 ^ 9 /\ ToTime (at_ 1500000100) = 1500000100 * 10 ^ 9.
Proof. split; vm_compute; reflexivity. Qed.
