(* ===== verification/ReprCache.v ===== *)
(** [schemas/repr/cache.go]: the bounded first-in-first-out cache of the
    last statistics of every metric, and the queue that specifies it.

    As in the LRU caches, list elements are pointers: the list holds
    element identifiers with the id of the metric, the items of the table
    point back at their element.  [None] is a nil dereference.

    The cache of statistics refines a queue: the oldest metric leaves
    first, adding to a metric keeps its place, and the table and the list
    stay consistent. *)
From S2P Require Import Prelude Float64 GoStrings GoSort Tags Repr.

Open Scope Z_scope.

(** ** The code *)

Definition REPR_CACHE_ITEMS : Z := 100000.

Record cacherItem := mkCacher {
  keyele : option nat;
  reprs : ReprList
}.

Record ReprCache := mkReprCache {
  MaxSize : Z;
  itemList : list (nat * Z);
  cache : gmap Z cacherItem;
  next_ele : nat
}.

Definition NewReprCache (size : Z) : ReprCache :=
  mkReprCache (if size <=? 0 then REPR_CACHE_ITEMS else size) [] ∅ 0.

Definition cache_Len (s : ReprCache) : Z := Z.of_nat (length (itemList s)).

(** [itemList.Remove(element.keyele)] and [delete(cache, key)]; the
    element is no longer reachable from the cache. *)
Definition remove_item (s : ReprCache) (key : Z) (element : cacherItem)
  : option (ReprList * ReprCache) :=
  e ← keyele element;
  Some (reprs element,
        mkReprCache (MaxSize s) (filter (fun x => x.1 <> e) (itemList s)) (delete key (cache s))
          (next_ele s)).

Definition cache_Delete (s : ReprCache) (key : Z) : option (option ReprList * ReprCache) :=
  match cache s !! key with
  | None => Some (None, s)
  | Some element => '(r, s) ← remove_item s key element; Some (Some r, s)
  end.

(** The front is dereferenced before it is tested. *)
Definition cache_Pop (s : ReprCache) : option (option ReprList * ReprCache) :=
  k ← head (itemList s);
  element ← cache s !! k.2;
  '(r, s) ← remove_item s k.2 element;
  Some (Some r, s).

Definition checkSize (s : ReprCache) : option (option ReprList * ReprCache) :=
  if cache_Len s >=? MaxSize s then
    k ← head (itemList s);
    element ← cache s !! k.2;
    '(r, s) ← remove_item s k.2 element;
    Some (Some r, s)
  else Some (None, s).

(** The id is kept in the name, which the stored statistic shares. *)
Definition cache_Add `{!GoSort} (farm_Hash64 : list Z -> Z) (s : ReprCache) (stat : StatRepr)
  : option (option ReprList * ReprCache) :=
  name ← r_Name stat;
  let '(k, name) := UniqueId farm_Hash64 name in
  let stat := with_name stat name in
  match cache s !! k with
  | None =>
      '(old, s) ← checkSize s;
      let e := next_ele s in
      let r_list := mkCacher (Some e) (ReprList_Add new_ReprList stat) in
      Some (old, mkReprCache (MaxSize s) (itemList s ++ [(e, k)]) (<[k := r_list]> (cache s)) (S e))
  | Some gots =>
      let gots := mkCacher (keyele gots) (ReprList_Add (reprs gots) stat) in
      Some (None, mkReprCache (MaxSize s) (itemList s) (<[k := gots]> (cache s)) (next_ele s))
  end.

Definition cache_Get (s : ReprCache) (key : Z) : option ReprList := reprs <$> cache s !! key.

(** ** The specification: a queue of metrics, oldest first *)

Abbreviation queue := (list (Z * ReprList)).

Fixpoint q_find (k : Z) (q : queue) : option ReprList :=
  match q with
  | [] => None
  | (k', r) :: q => if k =? k' then Some r else q_find k q
  end.

Definition q_delete (k : Z) (q : queue) : queue := filter (fun x => x.1 <> k) q.

(** Add to the metric's list in place, or at the end of the queue, at
    the cost of the oldest metric when there are [n] already. *)
Definition q_add (n k : Z) (stat : StatRepr) (q : queue) : option ReprList * queue :=
  match q_find k q with
  | Some _ =>
      (None, map (fun x => if x.1 =? k then (k, ReprList_Add x.2 stat) else x) q)
  | None =>
      let new := (k, ReprList_Add new_ReprList stat) in
      match q with
      | x :: rest => if Z.of_nat (length q) >=? n then (Some x.2, rest ++ [new]) else (None, q ++ [new])
      | [] => (None, [new])
      end
  end.

(** ** Theorems *)

(** The cache holds the queue. *)
Record holds (s : ReprCache) (q : queue) : Prop := {
  holds_max : 0 < MaxSize s;
  holds_keys : map snd (itemList s) = map fst q;
  holds_nodup : NoDup (map fst q);
  holds_eles : NoDup (map fst (itemList s));
  holds_fresh : Forall (fun x => (x.1 < next_ele s)%nat) (itemList s);
  holds_cache : forall k c, cache s !! k = Some c <->
    exists e r, (e, k) ∈ itemList s /\ (k, r) ∈ q /\ c = mkCacher (Some e) r
}.

(** ** Lists of pairs with unique components *)

Lemma nodup_fst_inj {A B : Type} (l : list (A * B)) (x : A) (y y' : B) :
  NoDup (map fst l) -> (x, y) ∈ l -> (x, y') ∈ l -> y = y'.
Proof.
  induction l as [|[a b] l IH]; intros Hn H1 H2; [by apply not_elem_of_nil in H1|].
  apply NoDup_cons in Hn as [Hni Hn].
  assert (Hno : forall z, (a, z) ∈ l -> False).
  { intros z Hz. apply Hni. apply list_elem_of_fmap. by exists (a, z). }
  apply elem_of_cons in H1 as [H1|H1], H2 as [H2|H2].
  - congruence.
  - injection H1 as -> ->. by exfalso; eapply Hno.
  - injection H2 as -> ->. by exfalso; eapply Hno.
  - by apply IH.
Qed.

Lemma nodup_snd_inj {A B : Type} (l : list (A * B)) (x x' : A) (y : B) :
  NoDup (map snd l) -> (x, y) ∈ l -> (x', y) ∈ l -> x = x'.
Proof.
  intros Hn H1 H2. apply (nodup_fst_inj (map (fun p => (p.2, p.1)) l) y).
  - by rewrite map_map.
  - apply list_elem_of_fmap. by exists (x, y).
  - apply list_elem_of_fmap. by exists (x', y).
Qed.

Lemma map_filter {A B : Type} (f : A -> B) (P : B -> Prop) {D : forall y, Decision (P y)}
  {D' : forall x, Decision (P (f x))} (l : list A) :
  map f (@filter _ _ _ (fun x => P (f x)) D' l) = @filter _ _ _ P D (map f l).
Proof.
  induction l as [|x l IH]; [done|]. cbn [map]. rewrite !filter_cons.
  unfold decide. destruct (D' x), (D (f x)); cbn [map]; rewrite ?IH; done.
Qed.

Lemma filter_in_ext {A : Type} (P Q : A -> Prop) `{!forall x, Decision (P x), !forall x, Decision (Q x)}
  (l : list A) : Forall (fun x => P x <-> Q x) l -> filter P l = filter Q l.
Proof.
  induction 1 as [|x l Hx _ IH]; [done|]. rewrite !filter_cons, IH.
  destruct (decide (P x)), (decide (Q x)); tauto.
Qed.

Lemma q_find_spec (k : Z) (r : ReprList) (q : queue) :
  NoDup (map fst q) -> q_find k q = Some r <-> (k, r) ∈ q.
Proof.
  intros Hn. split.
  - induction q as [|[k' r'] q IH]; [done|]. apply NoDup_cons in Hn as [_ Hn]. cbn [q_find].
    case_if; bool_to_prop; intros Hq; apply elem_of_cons; [left; congruence|right; by apply IH].
  - induction q as [|[k' r'] q IH]; [by intros ?%not_elem_of_nil|]. cbn [q_find]. intros Hq.
    destruct (k =? k') eqn:E; bool_to_prop.
    + subst. f_equal. apply (nodup_fst_inj _ k' _ _ Hn); [apply elem_of_cons; by left|done].
    + apply NoDup_cons in Hn as [_ Hn]. apply IH; [done|]. apply elem_of_cons in Hq as [Hq|Hq]; congruence.
Qed.

Lemma q_find_None (k : Z) (q : queue) : q_find k q = None -> k ∉ map fst q.
Proof.
  induction q as [|[k' r'] q IH]; intros H Hk; [by apply not_elem_of_nil in Hk|].
  cbn [q_find] in H. destruct (k =? k') eqn:E; [done|]. bool_to_prop.
  apply elem_of_cons in Hk as [Hk|Hk]; [done|]. by apply IH.
Qed.

Lemma q_delete_head (x : Z * ReprList) (q : queue) :
  NoDup (map fst (x :: q)) -> q_delete x.1 (x :: q) = q.
Proof.
  intros [Hni _]%NoDup_cons. unfold q_delete. rewrite filter_cons, decide_False by (intros H; by apply H).
  induction q as [|y q IH]; [done|]. rewrite filter_cons, decide_True.
  - f_equal. apply IH. intros H. apply Hni. apply elem_of_cons. by right.
  - intros E. apply Hni. rewrite <- E. apply elem_of_cons. by left.
Qed.

(** ** Looking up and removing *)

Lemma holds_item (s : ReprCache) (q : queue) (k : Z) (r : ReprList) :
  holds s q -> (k, r) ∈ q -> exists e, (e, k) ∈ itemList s.
Proof.
  intros H Hk. assert (Hin : k ∈ map snd (itemList s)).
  { rewrite (holds_keys _ _ H). apply list_elem_of_fmap. by exists (k, r). }
  apply list_elem_of_fmap in Hin as ([e k'] & -> & He). by exists e.
Qed.

Lemma holds_find (s : ReprCache) (q : queue) (k : Z) :
  holds s q ->
  match q_find k q with
  | Some r => exists e, cache s !! k = Some (mkCacher (Some e) r) /\ (e, k) ∈ itemList s
  | None => cache s !! k = None
  end.
Proof.
  intros H. destruct (q_find k q) as [r|] eqn:E.
  - apply q_find_spec in E; [|apply H]. destruct (holds_item s q k r H E) as [e He].
    exists e. split; [|done]. apply (holds_cache _ _ H). by exists e, r.
  - destruct (cache s !! k) as [c|] eqn:Ec; [|done].
    apply (holds_cache _ _ H) in Ec as (e & r & _ & Hr & _).
    exfalso. apply (q_find_None _ _ E). apply list_elem_of_fmap. by exists (k, r).
Qed.

Lemma remove_item_spec (s : ReprCache) (q : queue) (k : Z) (e : nat) (r : ReprList) :
  holds s q -> (e, k) ∈ itemList s -> (k, r) ∈ q ->
  exists s', remove_item s k (mkCacher (Some e) r) = Some (r, s') /\ holds s' (q_delete k q) /\
    MaxSize s' = MaxSize s.
Proof.
  intros H He Hr. eexists. split; [done|]. split; [|done].
  pose proof H as [Hm Hk Hn Hne Hf Hc].
  assert (Hks : NoDup (map snd (itemList s))) by (by rewrite Hk).
  assert (E : filter (fun x => x.1 <> e) (itemList s) = filter (fun x => x.2 <> k) (itemList s)).
  { apply filter_in_ext, Forall_forall. intros [e' k'] Hx. simpl. split; intros Hneq ->; apply Hneq.
    - by apply (nodup_snd_inj (itemList s) e' e k Hks).
    - by apply (nodup_fst_inj (itemList s) e k' k Hne). }
  assert (Hks' : map snd (filter (fun x : nat * Z => x.2 <> k) (itemList s)) = map fst (q_delete k q)).
  { rewrite (map_filter snd (fun y => y <> k)), Hk. unfold q_delete. by rewrite (map_filter fst (fun y => y <> k)). }
  constructor; cbn [MaxSize itemList cache next_ele]; rewrite ?E; try done.
  - unfold q_delete. rewrite (map_filter fst (fun y => y <> k)). by apply NoDup_filter.
  - rewrite <- E, (map_filter fst (fun y => y <> e)). by apply NoDup_filter.
  - apply Forall_forall. intros x [_ Hx]%list_elem_of_filter. rewrite Forall_forall in Hf. by apply Hf.
  - intros k0 c. rewrite lookup_delete_Some, Hc. split.
    + intros [Hneq (e0 & r0 & H1 & H2 & ->)]. exists e0, r0. unfold q_delete.
      rewrite !list_elem_of_filter. simpl. by split_and!; try done; congruence.
    + intros (e0 & r0 & [H1 H1']%list_elem_of_filter & [H2 H2']%list_elem_of_filter & ->). simpl in *.
      split; [congruence|]. by exists e0, r0.
Qed.

Lemma holds_New (size : Z) : holds (NewReprCache size) [].
Proof.
  constructor; simpl; try constructor.
  - case_if; bool_to_prop; unfold REPR_CACHE_ITEMS; lia.
  - by rewrite lookup_empty.
  - by intros (e & r & H%not_elem_of_nil & _).
Qed.

Lemma holds_Delete (s : ReprCache) (q : queue) (k : Z) :
  holds s q ->
  exists s', cache_Delete s k = Some (q_find k q, s') /\ MaxSize s' = MaxSize s /\
    holds s' (match q_find k q with Some _ => q_delete k q | None => q end).
Proof.
  intros H. unfold cache_Delete. pose proof (holds_find s q k H) as Hf.
  destruct (q_find k q) as [r|] eqn:E.
  - destruct Hf as (e & -> & He). apply q_find_spec in E; [|apply H].
    destruct (remove_item_spec s q k e r H He E) as (s' & -> & Hs' & Hm). by exists s'.
  - rewrite Hf. by exists s.
Qed.

(** Taking the oldest metric. *)
Lemma holds_pop_front (s : ReprCache) (x : Z * ReprList) (q : queue) :
  holds s (x :: q) ->
  exists e k element s', head (itemList s) = Some (e, k) /\ cache s !! k = Some element /\
    remove_item s k element = Some (x.2, s') /\ MaxSize s' = MaxSize s /\ holds s' q.
Proof.
  intros H. destruct x as [k r]. pose proof (holds_keys _ _ H) as Hk.
  destruct (itemList s) as [|[e k'] l] eqn:El; [done|]. injection Hk as -> Hk.
  assert (He : (e, k) ∈ itemList s) by (rewrite El; apply elem_of_cons; by left).
  assert (Hr : (k, r) ∈ (k, r) :: q) by (apply elem_of_cons; by left).
  destruct (remove_item_spec s _ k e r H He Hr) as (s' & E & Hs' & Hm).
  exists e, k, (mkCacher (Some e) r), s'. split_and!; try done.
  - apply (holds_cache _ _ H). by exists e, r.
  - change k with ((k, r).1) in Hs'. rewrite q_delete_head in Hs'; [done|]. apply H.
Qed.

Lemma holds_Pop (s : ReprCache) (q : queue) :
  holds s q ->
  match q with
  | [] => cache_Pop s = None
  | x :: q => exists s', cache_Pop s = Some (Some x.2, s') /\ MaxSize s' = MaxSize s /\ holds s' q
  end.
Proof.
  intros H. unfold cache_Pop. destruct q as [|x q].
  - pose proof (holds_keys _ _ H) as Hk. destruct (itemList s); [done|discriminate Hk].
  - destruct (holds_pop_front s x q H) as (e & k & el & s' & -> & Ec & Er & Hm & Hs').
    cbn [mbind option_bind snd]. rewrite Ec. cbn [mbind option_bind]. rewrite Er. by exists s'.
Qed.

(** A new metric at the end of the queue. *)
Lemma holds_append (s : ReprCache) (q : queue) (k : Z) (r : ReprList) :
  holds s q -> k ∉ map fst q ->
  holds (mkReprCache (MaxSize s) (itemList s ++ [(next_ele s, k)])
           (<[k := mkCacher (Some (next_ele s)) r]> (cache s)) (S (next_ele s))) (q ++ [(k, r)]).
Proof.
  intros [Hm Hk Hn Hne Hf Hc] Hni.
  assert (Hnk : forall e, (e, k) ∈ itemList s -> False).
  { intros e He. apply Hni. rewrite <- Hk. apply list_elem_of_fmap. by exists (e, k). }
  assert (Hnq : forall r, (k, r) ∈ q -> False).
  { intros r' Hr. apply Hni. apply list_elem_of_fmap. by exists (k, r'). }
  constructor; cbn [MaxSize itemList cache next_ele]; try done.
  - rewrite !map_app, Hk. done.
  - rewrite map_app. apply NoDup_app. split_and!; [done| |apply NoDup_singleton].
    intros x Hx Hx'. apply list_elem_of_singleton in Hx' as ->. done.
  - rewrite map_app. apply NoDup_app. split_and!; [done| |apply NoDup_singleton].
    intros x Hx Hx'. apply list_elem_of_singleton in Hx' as ->. apply list_elem_of_fmap in Hx as (y & Ey & Hy).
    rewrite Forall_forall in Hf. specialize (Hf y Hy). simpl in Ey, Hf. lia.
  - apply Forall_app. split; [|constructor; [simpl; lia|constructor]].
    apply (Forall_impl _ _ _ Hf). simpl. lia.
  - intros k0 c. rewrite lookup_insert_Some, Hc. setoid_rewrite elem_of_app.
    setoid_rewrite list_elem_of_singleton. split.
    + intros [[-> <-]|[Hneq (e & r' & H1 & H2 & ->)]]; [by exists (next_ele s), r; auto|by exists e, r'; auto].
    + intros (e & r' & [H1|H1] & [H2|H2] & ->).
      * right. split; [intros ->; by eapply Hnk|]. by exists e, r'.
      * injection H2 as -> ->. by exfalso; eapply Hnk.
      * injection H1 as -> ->. by exfalso; eapply Hnq.
      * left. split; congruence.
Qed.

(** Adding to a metric in its place. *)
Lemma holds_update (s : ReprCache) (q : queue) (k : Z) (e : nat) (r : ReprList) (f : ReprList -> ReprList) :
  holds s q -> (e, k) ∈ itemList s -> (k, r) ∈ q ->
  holds (mkReprCache (MaxSize s) (itemList s) (<[k := mkCacher (Some e) (f r)]> (cache s)) (next_ele s))
    (map (fun x => if x.1 =? k then (k, f x.2) else x) q).
Proof.
  intros [Hm Hk Hn Hne Hf Hc] He Hr. set (g := fun x => _).
  assert (Hg : map fst (map g q) = map fst q).
  { rewrite map_map. apply map_ext. intros [k' r']. unfold g. simpl. case_if; bool_to_prop; done. }
  constructor; cbn [MaxSize itemList cache next_ele]; try done; rewrite ?Hg; try done.
  intros k0 c. rewrite lookup_insert_Some, Hc. split.
  - intros [[-> <-]|[Hneq (e0 & r0 & H1 & H2 & ->)]].
    + exists e, (f r). split_and!; try done. apply list_elem_of_fmap. exists (k0, r).
      unfold g. simpl. by rewrite Z.eqb_refl.
    + exists e0, r0. split_and!; try done. apply list_elem_of_fmap. exists (k0, r0).
      unfold g. simpl. by rewrite (proj2 (Z.eqb_neq k0 k)).
  - intros (e0 & r0 & H1 & ([k1 r1] & E & H2)%list_elem_of_fmap & ->). unfold g in E. simpl in E.
    destruct (k1 =? k) eqn:Ek; bool_to_prop; injection E as -> ->.
    + left. split; [done|]. subst k1. rewrite (nodup_fst_inj q k r1 r) by done.
      rewrite (nodup_snd_inj (itemList s) e0 e k) by (done || by rewrite Hk). done.
    + right. split; [congruence|]. by exists e0, r1.
Qed.

Section adding.
Context {GS : GoSort}.
Variable farm_Hash64 : list Z -> Z.

Lemma holds_Add (s : ReprCache) (q : queue) (stat : StatRepr) (n : StatName) :
  holds s q -> r_Name stat = Some n ->
  let '(k, n') := UniqueId farm_Hash64 n in
  let '(old, q') := q_add (MaxSize s) k (with_name stat n') q in
  exists s', cache_Add farm_Hash64 s stat = Some (old, s') /\ MaxSize s' = MaxSize s /\ holds s' q'.
Proof.
  intros H Hn. unfold cache_Add. rewrite Hn. cbn [mbind option_bind].
  destruct (UniqueId farm_Hash64 n) as [k n']. unfold q_add.
  pose proof (holds_find s q k H) as Hf. destruct (q_find k q) as [r|] eqn:E.
  - destruct Hf as (e & -> & He). apply q_find_spec in E; [|apply H]. eexists. split; [done|].
    split; [done|]. by apply (holds_update s q k e r (fun l => ReprList_Add l (with_name stat n'))).
  - rewrite Hf. apply q_find_None in E. unfold checkSize, cache_Len.
    assert (Hlen : length (itemList s) = length q).
    { rewrite <- (length_map snd), (holds_keys _ _ H). apply length_map. }
    rewrite Hlen. destruct q as [|x q].
    + rewrite Z.geb_leb, (proj2 (Z.leb_gt _ _)) by (pose proof (holds_max _ _ H); simpl; lia).
      cbn [mbind option_bind]. eexists. split; [done|]. split; [done|]. by apply (holds_append s []).
    + destruct (Z.of_nat (length (x :: q)) >=? MaxSize s).
      * destruct (holds_pop_front s x q H) as (e & k' & el & s' & -> & Ec & Er & Hm & Hs').
        cbn [mbind option_bind snd]. rewrite Ec. cbn [mbind option_bind]. rewrite Er. cbn [mbind option_bind].
        eexists. split; [done|]. cbn [MaxSize]. split; [done|]. apply holds_append; [done|].
        intros Hin. apply E. apply elem_of_cons. by right.
      * cbn [mbind option_bind]. eexists. split; [done|]. split; [done|]. by apply holds_append.
Qed.

(** ** Runs *)

Inductive op := OpAdd (stat : StatRepr) | OpGet (k : Z) | OpDelete (k : Z) | OpPop.

Definition do_op (s : ReprCache) (o : op) : option (option ReprList * ReprCache) :=
  match o with
  | OpAdd stat => cache_Add farm_Hash64 s stat
  | OpGet k => Some (cache_Get s k, s)
  | OpDelete k => cache_Delete s k
  | OpPop => cache_Pop s
  end.

(** The same on the queue; a statistic without a name and taking from an
    empty queue have no result. *)
Definition q_op (n : Z) (q : queue) (o : op) : option (option ReprList * queue) :=
  match o with
  | OpAdd stat =>
      name ← r_Name stat;
      let '(k, name) := UniqueId farm_Hash64 name in
      Some (q_add n k (with_name stat name) q)
  | OpGet k => Some (q_find k q, q)
  | OpDelete k => Some (q_find k q, match q_find k q with Some _ => q_delete k q | None => q end)
  | OpPop => match q with [] => None | x :: q => Some (Some x.2, q) end
  end.

Fixpoint run {S : Type} (step : S -> op -> option (option ReprList * S)) (s : S) (os : list op)
  : option (list (option ReprList) * S) :=
  match os with
  | [] => Some ([], s)
  | o :: os => '(r, s) ← step s o; '(rs, s) ← run step s os; Some (r :: rs, s)
  end.

Lemma holds_op (s : ReprCache) (q : queue) (o : op) :
  holds s q ->
  match q_op (MaxSize s) q o with
  | None => do_op s o = None
  | Some (r, q') => exists s', do_op s o = Some (r, s') /\ MaxSize s' = MaxSize s /\ holds s' q'
  end.
Proof.
  intros H. destruct o as [stat|k|k|]; cbn [q_op do_op].
  - destruct (r_Name stat) as [n|] eqn:En; cbn [mbind option_bind].
    + pose proof (holds_Add s q stat n H En) as Ha. destruct (UniqueId farm_Hash64 n). by destruct (q_add _ _ _ _).
    + unfold cache_Add. by rewrite En.
  - exists s. split_and!; try done. pose proof (holds_find s q k H) as Hf. unfold cache_Get.
    destruct (q_find k q); [destruct Hf as (e & -> & _)|rewrite Hf]; done.
  - apply holds_Delete, H.
  - pose proof (holds_Pop s q H). by destruct q.
Qed.

(** The cache of statistics is a bounded queue.  Whatever sequence
    of additions, lookups, deletions and pops is run on a new cache, its
    results are those of the queue: a new metric goes to the end and, in
    a full cache, hands out the oldest one; a metric that is already there
    keeps its place.  The cache fails exactly when the queue has no
    result. *)
Theorem repr_cache_fifo (size : Z) (os : list op) :
  fst <$> run do_op (NewReprCache size) os =
  fst <$> run (q_op (MaxSize (NewReprCache size))) [] os.
Proof.
  pose proof (holds_New size) as H. remember (NewReprCache size) as s eqn:E. clear E.
  remember (MaxSize s) as n eqn:En. generalize dependent ([] : queue).
  revert s En. induction os as [|o os IH]; intros s En q H; [done|]. cbn [run].
  pose proof (holds_op s q o H) as Ho. rewrite <- En in Ho.
  destruct (q_op n q o) as [[r q']|]; [|by rewrite Ho].
  destruct Ho as (s' & -> & Hm & Hs'). cbn [mbind option_bind].
  specialize (IH s' ltac:(congruence) q' Hs').
  destruct (run do_op s' os) as [[? ?]|], (run (q_op n) q' os) as [[? ?]|]; simpl in *; congruence.
Qed.

Lemma q_add_bound (n k : Z) (stat : StatRepr) (q : queue) :
  0 < n -> Z.of_nat (length q) <= n -> Z.of_nat (length (q_add n k stat q).2) <= n.
Proof.
  intros Hn Hq. unfold q_add. destruct (q_find k q); simpl; [by rewrite length_map|].
  destruct q as [|x q]; [simpl; lia|]. rewrite Z.geb_leb. case_if; simpl in *; rewrite length_app; simpl;
    bool_to_prop; lia.
Qed.

Lemma q_op_bound (n : Z) (q q' : queue) (o : op) (r : option ReprList) :
  0 < n -> Z.of_nat (length q) <= n -> q_op n q o = Some (r, q') -> Z.of_nat (length q') <= n.
Proof.
  intros Hn Hq. destruct o as [stat|k|k|]; cbn [q_op].
  - destruct (r_Name stat) as [name|]; [|done]. cbn [mbind option_bind].
    destruct (UniqueId farm_Hash64 name) as [k m]. intros [= E].
    pose proof (q_add_bound n k (with_name stat m) q Hn Hq) as Hb. by rewrite E in Hb.
  - by intros [= _ <-].
  - intros [= _ <-]. destruct (q_find k q); [|done].
    etrans; [|exact Hq]. apply inj_le, length_filter.
  - destruct q as [|x q]; [done|]. intros [= _ <-]. simpl in Hq. lia.
Qed.

(** Whatever is run on a new cache, it never holds more metrics
    than its bound. *)
Theorem repr_cache_bound (size : Z) (os : list op) (rs : list (option ReprList)) (s : ReprCache) :
  run do_op (NewReprCache size) os = Some (rs, s) -> cache_Len s <= MaxSize (NewReprCache size).
Proof.
  pose proof (holds_New size) as H. assert (Hb : Z.of_nat (length ([] : queue)) <= MaxSize (NewReprCache size))
    by (apply Z.lt_le_incl, (holds_max _ _ H)).
  remember (NewReprCache size) as s0 eqn:E. clear E. remember (MaxSize s0) as n eqn:En.
  generalize dependent ([] : queue). revert s0 En rs.
  induction os as [|o os IH]; intros s0 En rs q H Hb Hrun; cbn [run] in Hrun.
  - injection Hrun as <- <-. unfold cache_Len.
    by rewrite <- (length_map snd), (holds_keys _ _ H), length_map.
  - pose proof (holds_op s0 q o H) as Ho. rewrite <- En in Ho.
    destruct (q_op n q o) as [[r q']|] eqn:Eq; [|by rewrite Ho in Hrun].
    destruct Ho as (s' & Es & Hm & Hs'). rewrite Es in Hrun. cbn [mbind option_bind] in Hrun.
    destruct (run do_op s' os) as [[rs' s'']|] eqn:Er; [|done]. cbn [mbind option_bind] in Hrun.
    injection Hrun as <- <-. apply (IH s' ltac:(congruence) rs' q' Hs'); [|done].
    apply (q_op_bound n q q' o r); [|done..]. rewrite En. apply H.
Qed.

End adding.

#[local] Existing Instance insertion_GoSort.

Definition sample_stat (key : string) : StatRepr :=
  mkRepr (Some (mkName key 0 "" 0 0 TAG_METRICS2 HASH_FNV [] [])) 1500000000000000000 0 0 0 0 1.

(** Two metrics fit; the third takes the place of the first. *)
Lemma repr_cache_bound_witness :
  exists rs s, run (do_op (fun _ => 0)) (NewReprCache 2)
      [OpAdd (sample_stat "a"); OpAdd (sample_stat "b"); OpAdd (sample_stat "c")] = Some (rs, s) /\
    map (fun r => option_map ReprList_Len r) rs = [None; None; Some 1] /\
    cache_Len s <= MaxSize (NewReprCache 2).
Proof.
  set (os := [_; _; _]).
  destruct (run (do_op (fun _ => 0)) (NewReprCache 2) os) as [[rs s]|] eqn:E; [|vm_compute in E; discriminate E].
  exists rs, s. split; [done|]. split.
  - vm_compute in E. injection E as <- _. reflexivity.
  - apply (repr_cache_bound (fun _ => 0) 2 os rs s E).
Defined.
