(* ===== verification/Aggs.v ===== *)
(** [schemas/repr/aggs.go]: which function aggregates a metric, guessed
    from its name or its [stat] tag, and the functions themselves; and the
    methods of [repr.go] that use them.

    The guesses are remembered in an LRU cache that both guessing
    functions share.  They are modelled against the interface [MemoCache],
    which states what they need of a cache; the LRU cache implements it.

    The properties of the aggregation functions: the remembered guesses
    equal the computed ones as long as one function uses the cache,
    minimum and maximum bound their inputs, and what the median and the
    shared cache do wrong. *)
From S2P Require Import Prelude Float64 GoStrings GoSort LRU LRUTheorems Tags Repr.

Open Scope Z_scope.

Definition MEAN : Z := 1.
Definition SUM : Z := 2.
Definition FIRST : Z := 3.
Definition LAST : Z := 4.
Definition MIN : Z := 5.
Definition MAX : Z := 6.
Definition STD : Z := 7.
Definition MEDIAN : Z := 8.
Definition COUNT : Z := 9.

Definition aggMap : gmap string Z :=
  list_to_map
    [("min", MIN); ("lower", MIN);
     ("max", MAX); ("upper", MAX);
     ("rawcount", COUNT); ("numstats", COUNT);
     ("hit", SUM); ("hits", SUM); ("sum", SUM); ("count", SUM); ("counts", SUM);
     ("request", SUM); ("requests", SUM); ("ok", SUM); ("error", SUM); ("errors", SUM);
     ("select", SUM); ("selects", SUM); ("selected", SUM);
     ("insert", SUM); ("inserts", SUM); ("inserted", SUM);
     ("update", SUM); ("updates", SUM); ("updated", SUM);
     ("delete", SUM); ("deletes", SUM); ("deleted", SUM);
     ("consume", SUM); ("consumed", SUM); ("set", SUM); ("sets", SUM);
     ("gauge", LAST); ("last", LAST); ("abs", LAST); ("absolute", LAST);
     ("median", MEDIAN); ("middle", MEDIAN);
     ("std", STD)]%string.

(** ** The regular expressions [".*<name>_[0-9]+$"] *)

Fixpoint all_digits (s : string) : bool :=
  match s with
  | EmptyString => true
  | String a s =>
      ((48 <=? Ascii.N_of_ascii a) && (Ascii.N_of_ascii a <=? 57))%N && all_digits s
  end.

Definition digits1 (s : string) : bool := negb (bool_decide (s = ""%string)) && all_digits s.

(** [pre] followed by at least one digit and nothing else. *)
Definition pre_digits (pre s : string) : bool :=
  String.prefix pre s &&
  digits1 (String.substring (String.length pre) (String.length s - String.length pre) s).

(** The search is not anchored at the start: any suffix may match. *)
Fixpoint reg_num (name s : string) : bool :=
  pre_digits (name +:+ "_") s ||
  match s with
  | EmptyString => false
  | String _ s => reg_num name s
  end.

Definition upperReg := reg_num "upper".
Definition upperMaxReg := reg_num "max".
Definition lowerReg := reg_num "lower".
Definition lowerMinReg := reg_num "min".
Definition medianReg := reg_num "median".
Definition countReg := reg_num "count".
Definition stdReg := reg_num "std".

(** The [switch] of [AggTypeFromTag]. *)
Definition tag_switch (stat : string) : Z :=
  if lowerMinReg stat || lowerReg stat then MIN
  else if upperReg stat || upperMaxReg stat then MAX
  else if countReg stat then SUM
  else if stdReg stat then STD
  else if medianReg stat then MEDIAN
  else MEAN.

(** The [switch] of [GuessReprValueFromKey]. *)
Definition key_switch (metric last_path : string) : Z :=
  if HasPrefix metric "stats_count" || HasPrefix metric "stats.count" ||
     HasPrefix metric "stats.set" || HasPrefix metric "stats.sets" || countReg metric then SUM
  else if HasPrefix metric "stats.gauge" then LAST
  else if upperMaxReg last_path || upperReg last_path then MAX
  else if lowerMinReg last_path || lowerReg last_path then MIN
  else if HasPrefix metric "stats.median" || medianReg last_path then MEDIAN
  else MEAN.

(** ** The cache *)

Definition aggItem : Type := Z.
#[export] Instance aggItem_Value : Value aggItem := fun _ => 32.

(** What a memo table promises: a predicate that holds of every value
    put in holds of every value got out, whatever is evicted in between,
    and no call panics. *)
Class MemoCache (C V : Type) := {
  memo_get : C -> string -> Z -> option (option V * C);
  memo_set : C -> string -> V -> Z -> option C;
  memo_ok : (string -> V -> Prop) -> C -> Prop;
  memo_get_ok : forall P c k now, memo_ok P c ->
    exists v c', memo_get c k now = Some (v, c') /\ memo_ok P c' /\
      (forall x, v = Some x -> P k x);
  memo_set_ok : forall P c k v now, memo_ok P c -> P k v ->
    exists c', memo_set c k v now = Some c' /\ memo_ok P c'
}.

Section guess.
Context {C : Type} {MC : MemoCache C aggItem}.

Definition AggTypeFromTag (c : C) (stat : string) (now : Z) : option (Z * C) :=
  let stat := ToLower stat in
  match aggMap !! stat with
  | Some cached => Some (cached, c)
  | None =>
      '(v, c) ← memo_get c stat now;
      match v with
      | Some v => Some (v, c)
      | None =>
          let gots := tag_switch stat in
          c ← memo_set c stat gots now;
          Some (gots, c)
      end
  end.

Definition last_path_of (metric : string) : string :=
  ToLower (default ""%string (last (Split metric "."))).

Definition GuessReprValueFromKey (c : C) (metric : string) (now : Z) : option (Z * C) :=
  '(v, c) ← memo_get c metric now;
  match v with
  | Some v => Some (v, c)
  | None =>
      let last_path := last_path_of metric in
      let got :=
        match aggMap !! last_path with
        | Some got => got
        | None => key_switch metric last_path
        end in
      c ← memo_set c metric got now;
      Some (got, c)
  end.

(** [StatName.AggType] of [repr.go]. *)
Definition AggType (c : C) (s : StatName) (now : Z) : option (Z * C) :=
  let h_stat := Find (Tags s) "stat" in
  if bool_decide (h_stat <> ""%string) then AggTypeFromTag c h_stat now
  else GuessReprValueFromKey c (Key s) now.

End guess.

(** ** The functions *)

Section accumulate.
Context `{!GoSort}.
(** [math.Pow]. *)
Variable math_Pow : float64 -> float64 -> float64.

(** [AggFloat64.Less]. *)
Definition agg_Less (a b : float64) : bool := flt (fsub a b) 0.

Definition fsum (vals : list float64) : float64 := foldl fadd 0 vals.

Definition f_two : float64 := 0x4000000000000000.

(** [ACCUMULATE_FUNC[agg](vals)]: the value, and the slice as the
    in-place sort leaves it.  An unknown key gives a nil function. *)
Definition ACCUMULATE_FUNC (agg : Z) (vals : list float64)
  : option (float64 * list float64) :=
  let n := length vals in
  if agg =? SUM then Some (fsum vals, vals)
  else if agg =? MEAN then
    if (n =? 0)%nat then Some (0, vals)
    else Some (fdiv (fsum vals) (float_of_Z (Z.of_nat n)), vals)
  else if agg =? MEDIAN then
    if (n =? 0)%nat then Some (0, vals)
    else
      let vals := sort_Sort agg_Less vals in
      let use_v := (n / 2)%nat in
      if ((n mod 2 =? 0) && (3 <? n))%nat then
        a ← vals !! (use_v - 1)%nat;
        b ← vals !! (use_v + 1)%nat;
        Some (fdiv (fadd a b) f_two, vals)
      else
        a ← vals !! use_v; Some (a, vals)
  else if agg =? MAX then
    if (n =? 0)%nat then Some (0, vals)
    else
      let vals := sort_Sort agg_Less vals in
      a ← vals !! (n - 1)%nat; Some (a, vals)
  else if agg =? MIN then
    if (n =? 0)%nat then Some (0, vals)
    else
      let vals := sort_Sort agg_Less vals in
      a ← vals !! 0%nat; Some (a, vals)
  else if agg =? FIRST then
    if (n =? 0)%nat then Some (0, vals) else a ← vals !! 0%nat; Some (a, vals)
  else if agg =? COUNT then Some (float_of_Z (Z.of_nat n), vals)
  else if agg =? LAST then
    if (n =? 0)%nat then Some (0, vals) else a ← vals !! (n - 1)%nat; Some (a, vals)
  else if agg =? STD then
    if (n =? 0)%nat then Some (0, vals)
    else
      let mean := fdiv (fsum vals) (float_of_Z (Z.of_nat n)) in
      let std := foldl (fun std item => fadd std (math_Pow (fsub item mean) f_two)) 0 vals in
      Some (fsqrt (fdiv std (float_of_Z (Z.of_nat n))), vals)
  else None.

End accumulate.

(** [StatRepr.AggValue] of [repr.go]. *)
Definition AggValue (s : StatRepr) (aggfunc : Z) : float64 :=
  if aggfunc =? SUM then Sum s
  else if aggfunc =? MIN then Min s
  else if aggfunc =? MAX then Max s
  else if aggfunc =? LAST then Last s
  else if Count s >? 0 then fdiv (Sum s) (float_of_Z (Count s))
  else NaN.

(** ** Theorems *)

(** ** The LRU cache is a memo table *)

Section memo.
Context {V : Type} `{!Value V}.

Definition lru_memo_ok (P : string -> V -> Prop) (c : LRUCache V) : Prop :=
  exists l, lru_repr c l /\ Forall (fun e => P (e_key e) (e_value e)) l.

Lemma Forall_without (P : entry V -> Prop) (l : list (entry V)) (k : string) :
  Forall P l -> Forall P (without k l).
Proof. intros H. apply Forall_forall. intros e [_ He]%list_elem_of_filter. rewrite Forall_forall in H. by apply H. Qed.

Lemma Forall_evict (P : entry V -> Prop) (cap : Z) (l : list (entry V)) :
  Forall P l -> Forall P (spec_evict cap l).2.
Proof.
  intros H. unfold spec_evict. destruct (_ >? _); [|done].
  destruct (last l); [|done]. simpl. by apply Forall_take.
Qed.

Lemma find_key_Forall (P : string -> V -> Prop) (l : list (entry V)) (k : string) (e : entry V) :
  Forall (fun e => P (e_key e) (e_value e)) l -> find_key k l = Some e -> P k (e_value e) /\ e_key e = k.
Proof.
  intros H Hk. unfold find_key in Hk. destruct (list_find _ l) as [[i x]|] eqn:E; [|done].
  injection Hk as <-. apply list_find_Some in E as (Hi & <- & _).
  split; [|done]. apply (Forall_lookup_1 _ _ _ _ H Hi).
Qed.

Lemma lru_memo_get P (c : LRUCache V) k now :
  lru_memo_ok P c ->
  exists v c', Get c k now = Some (v, c') /\ lru_memo_ok P c' /\ (forall x, v = Some x -> P k x).
Proof.
  intros (l & Hr & Hf). destruct (Get_refines c l k now Hr) as (c' & E & Hr' & _).
  exists (spec_get l k now).1, c'. split; [done|]. unfold spec_get in *.
  destruct (find_key k l) as [e|] eqn:Hk; simpl in *; [|by split; [exists l|]].
  destruct (find_key_Forall P l k e Hf Hk) as [He Hek].
  split; [|by intros x [= <-]]. eexists. split; [done|].
  constructor; [by simpl; rewrite Hek|by apply Forall_without].
Qed.

Lemma lru_memo_set P (c : LRUCache V) k v now :
  lru_memo_ok P c -> P k v ->
  exists c', ('(_, _, c) ← LRU.Set_ c k v now; Some c) = Some c' /\ lru_memo_ok P c'.
Proof.
  intros (l & Hr & Hf) Hp. destruct (Set_refines c l k v now Hr) as (c' & E & Hr' & _).
  exists c'. rewrite E. destruct (spec_set (capacity c) l k v now) as [[rk rv] l'] eqn:Es.
  split; [done|]. exists l'. split; [done|]. change l' with (rk, rv, l').2. rewrite <- Es.
  apply Forall_evict. constructor; [done|by apply Forall_without].
Qed.

#[export] Instance lru_MemoCache : MemoCache (LRUCache V) V :=
  {| memo_get := Get;
     memo_set := fun c k v now => '(_, _, c) ← LRU.Set_ c k v now; Some c;
     memo_ok := lru_memo_ok;
     memo_get_ok := lru_memo_get;
     memo_set_ok := lru_memo_set |}.

Lemma lru_memo_new P (cap : Z) : in_width 64 cap -> lru_memo_ok P (@NewLRUCache V cap).
Proof. intros Hcap. exists []. split; [by apply NewLRUCache_repr|constructor]. Qed.

End memo.

(** ** Guesses *)

(** The answer without a cache. *)
Definition guess_key (metric : string) : Z :=
  match aggMap !! last_path_of metric with
  | Some got => got
  | None => key_switch metric (last_path_of metric)
  end.

Definition guess_tag (stat : string) : Z :=
  match aggMap !! ToLower stat with
  | Some got => got
  | None => tag_switch (ToLower stat)
  end.

Section guesses.
Context {C : Type} {MC : MemoCache C aggItem}.

Definition guesses_ok (c : C) : Prop := memo_ok (fun k v => v = guess_key k) c.

Lemma Guess_correct (c : C) (metric : string) (now : Z) :
  guesses_ok c ->
  exists c', GuessReprValueFromKey c metric now = Some (guess_key metric, c') /\ guesses_ok c'.
Proof.
  intros Hc. unfold GuessReprValueFromKey.
  destruct (memo_get_ok _ c metric now Hc) as (v & c1 & -> & Hc1 & Hv). cbn [mbind option_bind].
  destruct v as [v|]; [rewrite (Hv v eq_refl); by exists c1|].
  destruct (memo_set_ok _ c1 metric (guess_key metric) now Hc1 eq_refl) as (c2 & E2 & Hc2).
  exists c2. change (match aggMap !! last_path_of metric with Some got => got | None => _ end)
    with (guess_key metric). by rewrite E2.
Qed.

(** A sequence of guesses. *)
Fixpoint guess_all (c : C) (metrics : list (string * Z)) : option (list Z * C) :=
  match metrics with
  | [] => Some ([], c)
  | (m, now) :: metrics =>
      '(g, c) ← GuessReprValueFromKey c m now;
      '(gs, c) ← guess_all c metrics;
      Some (g :: gs, c)
  end.

Lemma guess_all_correct (metrics : list (string * Z)) (c : C) :
  guesses_ok c ->
  exists c', guess_all c metrics = Some (map (fun m => guess_key m.1) metrics, c') /\ guesses_ok c'.
Proof.
  revert c. induction metrics as [|[m now] metrics IH]; intros c Hc; [by exists c|].
  destruct (Guess_correct c m now Hc) as (c1 & E1 & Hc1). destruct (IH c1 Hc1) as (c2 & E2 & Hc2).
  exists c2. simpl. rewrite E1. cbn [mbind option_bind]. by rewrite E2.
Qed.

End guesses.

(** The cache of guesses is transparent to [GuessReprValueFromKey]:
    for any sequence of metrics, with hits, misses and evictions, every
    answer is the one computed without a cache, and no call panics.
    Proved against the memo interface, which the LRU cache implements. *)
Theorem guess_cache_transparent (cap : Z) (metrics : list (string * Z)) :
  in_width 64 cap ->
  exists c', guess_all (C := LRUCache aggItem) (NewLRUCache cap) metrics =
    Some (map (fun m => guess_key m.1) metrics, c').
Proof.
  intros Hcap. destruct (guess_all_correct (C := LRUCache aggItem) metrics (NewLRUCache cap))
    as (c' & E & _); [by apply lru_memo_new|]. by exists c'.
Qed.

Lemma guess_cache_transparent_witness :
  exists c', guess_all (C := LRUCache aggItem) (NewLRUCache 40)
    [("stats.gauges.x", 1); ("a.upper_90", 2); ("stats.gauges.x", 3)]%string =
    Some ([LAST; MAX; LAST], c').
Proof.
  apply (guess_cache_transparent 40 [("stats.gauges.x", 1); ("a.upper_90", 2); ("stats.gauges.x", 3)]%string).
  split; reflexivity || discriminate.
Defined.

(** The two guessing functions share their cache under keys that do
    not say which of them computed the answer: asking for the tag
    ["std_99"] changes what the metric of that name is aggregated with. *)
Theorem guess_depends_on_history :
  let c := @NewLRUCache aggItem 10485760 in
  fst <$> GuessReprValueFromKey c "std_99" 1 = Some MEAN /\
  fst <$> ('(_, c) ← AggTypeFromTag c "std_99" 1; GuessReprValueFromKey c "std_99" 2) = Some STD.
Proof. split; vm_compute; reflexivity. Qed.

(** ** The aggregation functions *)

Section accumulate_facts.
Context {GS : GoSort} (math_Pow : float64 -> float64 -> float64).

(** The values compare by subtraction as they compare directly: none is
    a NaN, and a difference of distinct floats does not round to zero. *)
Definition comparable (vals : list float64) : Prop :=
  (forall x, x ∈ vals -> IsNaN x = false) /\
  (forall x y, x ∈ vals -> y ∈ vals -> agg_Less x y = flt x y).

Lemma flt_neg_trans (x y z : float64) :
  IsNaN x = false -> IsNaN y = false -> IsNaN z = false ->
  flt x y = false -> flt y z = false -> flt x z = false.
Proof.
  unfold flt. intros -> -> ->. simpl. rewrite !Z.ltb_ge. lia.
Qed.

Lemma agg_Less_order (vals : list float64) : comparable vals -> weak_order_on agg_Less vals.
Proof.
  intros [Hn Hl]. constructor.
  - intros x Hx. rewrite Hl by done. apply flt_irrefl.
  - intros x y z Hx Hy Hz. rewrite !Hl by done. apply flt_trans.
  - intros x y z Hx Hy Hz. rewrite !Hl by done. apply flt_neg_trans; by apply Hn.
Qed.

Lemma sorted_vals (vals : list float64) :
  comparable vals -> let s := sort_Sort agg_Less vals in
  s ≡ₚ vals /\
  forall i j x y, (i <= j)%nat -> s !! i = Some x -> s !! j = Some y -> flt y x = false.
Proof.
  intros Hc s. pose proof (sort_perm _ agg_Less vals) as Hp. fold s in Hp.
  pose proof (sort_sorted _ agg_Less vals (agg_Less_order vals Hc)) as Hs. fold s in Hs.
  split; [done|]. intros i j x y Hij Hx Hy. destruct (decide (i = j)) as [->|Hne].
  - rewrite Hx in Hy. injection Hy as ->. apply flt_irrefl.
  - destruct Hc as [_ Hl]. rewrite <- Hl by (rewrite <- Hp; by eapply list_elem_of_lookup_2).
    apply (Hs i j x y); [lia|done|done].
Qed.

Lemma length_pos (vals : list float64) : vals <> [] -> (0 < length vals)%nat.
Proof. destruct vals; simpl; [done|lia]. Qed.

(** [MIN] and [MAX] return an element of the slice that no element
    is below (above). *)
Theorem min_max_bound (vals : list float64) :
  vals <> [] -> comparable vals ->
  exists lo hi vals', ACCUMULATE_FUNC math_Pow MIN vals = Some (lo, vals') /\
    ACCUMULATE_FUNC math_Pow MAX vals = Some (hi, vals') /\ vals' ≡ₚ vals /\
    lo ∈ vals /\ hi ∈ vals /\ forall x, x ∈ vals -> flt x lo = false /\ flt hi x = false.
Proof.
  intros Hne Hc. destruct (sorted_vals vals Hc) as [Hp Hs].
  set (s := sort_Sort agg_Less vals) in *. pose proof (length_pos vals Hne) as Hlen.
  pose proof (Permutation_length Hp) as Hl.
  destruct (lookup_lt_is_Some_2 s 0) as [lo Hlo]; [lia|].
  destruct (lookup_lt_is_Some_2 s (length vals - 1)) as [hi Hhi]; [lia|].
  exists lo, hi, s. unfold ACCUMULATE_FUNC. simpl. fold s.
  rewrite (proj2 (Nat.eqb_neq (length vals) 0)) by lia. rewrite Hlo, Hhi.
  split; [done|]. split; [done|]. split; [done|].
  split; [rewrite <- Hp; by eapply list_elem_of_lookup_2|].
  split; [rewrite <- Hp; by eapply list_elem_of_lookup_2|].
  intros x Hx. rewrite <- Hp in Hx. apply list_elem_of_lookup in Hx as [i Hi].
  split; [by apply (Hs 0%nat i lo x); [lia| |]|].
  apply (Hs i (length vals - 1)%nat x hi); try done. apply lookup_lt_Some in Hi. lia.
Qed.

(** The median of an odd number of values has as many values on
    either side: it is the middle element of the sorted slice. *)
Theorem median_odd (vals : list float64) :
  Nat.Odd (length vals) -> comparable vals ->
  exists m vals', ACCUMULATE_FUNC math_Pow MEDIAN vals = Some (m, vals') /\ vals' ≡ₚ vals /\
    vals' !! (length vals / 2)%nat = Some m /\
    (forall i x, (i <= length vals / 2)%nat -> vals' !! i = Some x -> flt m x = false) /\
    (forall i x, (length vals / 2 <= i)%nat -> vals' !! i = Some x -> flt x m = false).
Proof.
  intros Hodd Hc. destruct (sorted_vals vals Hc) as [Hp Hs].
  set (s := sort_Sort agg_Less vals) in *. pose proof (Permutation_length Hp) as Hl.
  assert (Hmod : (length vals mod 2 = 1)%nat).
  { destruct Hodd as [q ->]. rewrite Nat.add_comm, Nat.mul_comm, Nat.Div0.mod_add. done. }
  assert (Hlt : (length vals / 2 < length vals)%nat)
    by (destruct Hodd as [q ->]; apply Nat.div_lt; lia).
  destruct (lookup_lt_is_Some_2 s (length vals / 2)) as [m Hm]; [lia|].
  exists m, s. unfold ACCUMULATE_FUNC. simpl (MEDIAN =? SUM). simpl (MEDIAN =? MEAN).
  simpl (MEDIAN =? MEDIAN). cbn iota. fold s.
  rewrite (proj2 (Nat.eqb_neq (length vals) 0)) by lia. rewrite Hmod. simpl (_ && _). cbn iota.
  rewrite Hm. split; [done|]. split; [done|]. split; [done|].
  split; intros i x Hi Hx; [by apply (Hs i (length vals / 2)%nat)|by apply (Hs (length vals / 2)%nat i)].
Qed.

End accumulate_facts.

#[local] Existing Instance insertion_GoSort.

Definition sample_vals : list float64 := map float_of_Z [3; 1; 2].

Lemma sample_comparable : comparable sample_vals.
Proof.
  assert (H : forallb (fun x => negb (IsNaN x) &&
    forallb (fun y => eqb (agg_Less x y) (flt x y)) sample_vals) sample_vals = true)
    by (vm_compute; reflexivity).
  rewrite forallb_forall in H. split.
  - intros x Hx. apply list_elem_of_In, H in Hx. bool_to_prop. done.
  - intros x y Hx Hy. apply list_elem_of_In, H in Hx. bool_to_prop.
    rewrite forallb_forall in H1. apply list_elem_of_In, H1 in Hy. by apply eqb_prop.
Qed.

Lemma min_max_bound_witness :
  exists lo hi vals', ACCUMULATE_FUNC fmul MIN sample_vals = Some (lo, vals') /\
    ACCUMULATE_FUNC fmul MAX sample_vals = Some (hi, vals') /\ vals' ≡ₚ sample_vals /\
    lo ∈ sample_vals /\ hi ∈ sample_vals /\
    forall x, x ∈ sample_vals -> flt x lo = false /\ flt hi x = false.
Proof. apply (min_max_bound fmul sample_vals); [discriminate|exact sample_comparable]. Defined.

Lemma median_odd_witness :
  exists m vals', ACCUMULATE_FUNC fmul MEDIAN sample_vals = Some (m, vals') /\ vals' ≡ₚ sample_vals /\
    vals' !! 1%nat = Some m /\
    (forall i x, (i <= 1)%nat -> vals' !! i = Some x -> flt m x = false) /\
    (forall i x, (1 <= i)%nat -> vals' !! i = Some x -> flt x m = false).
Proof.
  apply (median_odd fmul sample_vals); [by exists 1%nat|exact sample_comparable].
Defined.

(** The median of an even number of values averages the wrong
    pair: of 1, 2, 3 and 4 it is 3, the mean of the second and the fourth
    value. *)
Theorem median_even_wrong :
  fst <$> ACCUMULATE_FUNC fmul MEDIAN (map float_of_Z [1; 2; 3; 4]) = Some (float_of_Z 3).
Proof. vm_compute. reflexivity. Qed.
