(* ===== verification/Aggregator.v ===== *)
(** [schemas/repr/aggregator.go] and [schemas/repr/multiagg.go]: points
    grouped by name and time bucket, at one or at several resolutions.

    An element of [Items] is a pointer that only the aggregator holds
    until it is handed out, so it is a value here.  (A job that has looked
    an element up can still update it after it has been handed out; see
    [AggregatorTheorems.AddRaces].)  [Add] also caches the
    unique id in the name of the point it is given: it returns that point.
    The methods run one after the other: the mutex covers less of [Add]. *)
From S2P Require Import Prelude Float64 GoStrings GoSort Tags Repr.

Open Scope Z_scope.

Record Aggregator := mkAgg {
  Items : gmap string StatRepr;
  agg_Resolution : Z
}.

Definition NewAggregator (res : Z) : Aggregator := mkAgg ∅ res.

(** [Time.Truncate]: down to a multiple of the duration since the zero
    time; a duration that is not positive changes nothing. *)
Definition Truncate (t d : Z) : Z := if d <=? 0 then t else t - (t - zero_time) mod d.

Definition ResolutionTime (sa : Aggregator) (t : Z) : Z := Truncate t (agg_Resolution sa).

(** [Time.UnixNano]. *)
Definition UnixNano (t : Z) : Z := i64 t.

Definition MapKey (sa : Aggregator) (id : string) (t : Z) : string :=
  id +:+ "-" +:+ pretty (UnixNano (ResolutionTime sa t)).

Definition agg_Len (sa : Aggregator) : Z := Z.of_nat (size (Items sa)).

Definition GetAndClear (sa : Aggregator) : gmap string StatRepr * Aggregator :=
  (Items sa, mkAgg ∅ (agg_Resolution sa)).

(** [Duration.Seconds]. *)
Definition Seconds (d : Z) : float64 :=
  fadd (float_of_Z (Z.quot d (10 ^ 9))) (fdiv (float_of_Z (Z.rem d (10 ^ 9))) (float_of_Z (10 ^ 9))).

Definition set_resolution (n : StatName) (r : Z) : StatName :=
  mkName (Key n) (uniqueId n) (uniqueIdstr n) r (Ttl n) (tagMode n) (hashMode n) (Tags n) (MetaTags n).

(** The update of an element that is already there. *)
Definition combine (res_time res : Z) (e stat : StatRepr) : option StatRepr :=
  n ← r_Name e;
  Some (mkRepr (Some (set_resolution n (uint32_of_float (Seconds res)))) (UnixNano res_time)
          (if fgt (Min e) (Min stat) then Min stat else Min e)
          (if flt (Max e) (Max stat) then Max stat else Max e)
          (Last stat) (fadd (Sum e) (Sum stat)) (i64 (Count e + Count stat))).

Section agg.
Context `{!GoSort}.
Variable farm_Hash64 : list Z -> Z.

(** Sorted by time; the order of the map's iteration is that of
    [map_to_list]. *)
Definition GetListAndClear (sa : Aggregator) : list (option StatRepr) * Aggregator :=
  let out := map (fun kv => Some kv.2) (map_to_list (Items sa)) in
  (sort_Sort reprs_Less out, mkAgg ∅ (agg_Resolution sa)).

Definition Add (sa : Aggregator) (stat : StatRepr) : option (StatRepr * Aggregator) :=
  let tT := ToTime stat in
  let res_time := ResolutionTime sa tT in
  n ← r_Name stat;
  let '(idstr, n) := UniqueIdString farm_Hash64 n in
  let stat := with_name stat n in
  let mK := MapKey sa idstr tT in
  match Items sa !! mK with
  | None => Some (stat, mkAgg (<[mK := repr_Copy stat]> (Items sa)) (agg_Resolution sa))
  | Some element =>
      element ← combine res_time (agg_Resolution sa) element stat;
      Some (stat, mkAgg (<[mK := element]> (Items sa)) (agg_Resolution sa))
  end.

Definition agg_Clear (sa : Aggregator) : Aggregator := mkAgg ∅ (agg_Resolution sa).

(** ** Several resolutions *)

Record MultiAggregator := mkMulti {
  Aggs : gmap Z Aggregator;
  Resolutions : list Z
}.

(** The aggregators are keyed by the number of seconds, a [float64]. *)
Definition NewMulti (res : list Z) : MultiAggregator :=
  mkMulti (foldl (fun m dur => <[Seconds dur := NewAggregator dur]> m) ∅ res) res.

Definition multi_Get (ma : MultiAggregator) (dur : Z) : option Aggregator := Aggs ma !! Seconds dur.

Definition multi_Len (ma : MultiAggregator) : Z := Z.of_nat (length (Resolutions ma)).

(** The loop over the resolutions; a missing aggregator is a nil
    pointer. *)
Fixpoint multi_loop (aggs : gmap Z Aggregator) (stat : StatRepr) (durs : list Z)
  : option (StatRepr * gmap Z Aggregator) :=
  match durs with
  | [] => Some (stat, aggs)
  | dur :: durs =>
      sa ← aggs !! Seconds dur;
      '(stat, sa) ← Add sa stat;
      multi_loop (<[Seconds dur := sa]> aggs) stat durs
  end.

Definition multi_Add (ma : MultiAggregator) (stat : StatRepr)
  : option (StatRepr * MultiAggregator) :=
  '(stat, aggs) ← multi_loop (Aggs ma) stat (Resolutions ma);
  Some (stat, mkMulti aggs (Resolutions ma)).

Definition multi_Clear (ma : MultiAggregator) (dur : Z) : option MultiAggregator :=
  sa ← Aggs ma !! Seconds dur;
  Some (mkMulti (<[Seconds dur := agg_Clear sa]> (Aggs ma)) (Resolutions ma)).

End agg.
