(* ===== verification/AggregatorTheorems.v ===== *)
(** The properties of the aggregators: buckets, keys, grouping, the
    independence of the resolutions, and what additions and clearings that
    interleave do to an aggregator ([AddRaces]). *)
From S2P Require Import Prelude Bits Float64 GoStrings GoSort Tags TagsTheorems Repr ReprTheorems Aggregator.

Open Scope Z_scope.

(** ** Buckets *)

(** The bucket of a time starts at a multiple of the resolution
    (counted from the zero time), at most the resolution before it; times
    share their bucket exactly when no multiple separates them. *)
Theorem bucket_spec (t t' d : Z) :
  0 < d ->
  Truncate t d <= t < Truncate t d + d /\ (Truncate t d - zero_time) mod d = 0 /\
  Truncate (Truncate t d) d = Truncate t d /\
  (Truncate t d = Truncate t' d <-> (t - zero_time) / d = (t' - zero_time) / d).
Proof.
  intros Hd. unfold Truncate. rewrite (proj2 (Z.leb_gt d 0)) by lia.
  set (x := t - zero_time). set (y := t' - zero_time).
  pose proof (Z.mod_pos_bound x d Hd). pose proof (Z.div_mod x d ltac:(lia)) as Hx.
  pose proof (Z.div_mod y d ltac:(lia)) as Hy.
  assert (Ht : t = x + zero_time) by (unfold x; lia). assert (Ht' : t' = y + zero_time) by (unfold y; lia).
  assert (Hal : (t - x mod d - zero_time) mod d = 0).
  { replace (t - x mod d - zero_time) with (x / d * d) by lia. apply Z_mod_mult. }
  split; [lia|]. split; [done|]. split; [rewrite Hal; lia|]. rewrite Ht, Ht'. split; intros Heq; [|nia].
  apply (Z.mul_reg_r _ _ d); lia.
Qed.

Lemma bucket_spec_witness :
  Truncate 25 10 <= 25 < Truncate 25 10 + 10 /\ (Truncate 25 10 - zero_time) mod 10 = 0 /\
  Truncate (Truncate 25 10) 10 = Truncate 25 10 /\
  (Truncate 25 10 = Truncate 29 10 <-> (25 - zero_time) / 10 = (29 - zero_time) / 10).
Proof. apply (bucket_spec 25 29 10). lia. Defined.

(** ** Keys *)

Definition dash : Ascii.ascii := Ascii.ascii_of_N 45.

(** The first dash ends the id. *)
Lemma dash_split (a b x y : string) :
  no_char dash a = true -> no_char dash b = true ->
  a +:+ (sep1 dash +:+ x) = b +:+ (sep1 dash +:+ y) -> a = b /\ x = y.
Proof.
  revert b. induction a as [|c a IH]; intros [|c' b] Ha Hb Heq.
  - change (String dash x = String dash y) in Heq. by injection Heq as ->.
  - change ("" +:+ (sep1 dash +:+ x)) with (String dash x) in Heq. rewrite string_app_cons in Heq.
    injection Heq as <- _. cbn [no_char] in Hb. by rewrite bool_decide_true in Hb by done.
  - change ("" +:+ (sep1 dash +:+ y)) with (String dash y) in Heq. rewrite string_app_cons in Heq.
    injection Heq as -> _. cbn [no_char] in Ha. by rewrite bool_decide_true in Ha by done.
  - rewrite !string_app_cons in Heq. injection Heq as <- Heq. simpl in Ha, Hb. bool_to_prop.
    destruct (IH b) as [-> ->]; done.
Qed.

Lemma id_text_no_dash (n : Z) : 0 <= n -> no_char dash (FormatUint n 36) = true.
Proof.
  intros Hn. rewrite <- all_chars_no_char. apply format_go_chars; [|lia|done|done].
  intros d Hd. apply negb_true_iff, bool_decide_eq_false. intros Heq.
  pose proof (value_digit36 d Hd) as Hv. rewrite Heq in Hv. by vm_compute in Hv.
Qed.

(** The keys of the aggregator are injective: two points share a
    key exactly when they have the same id and the same bucket (for ids
    without a dash, as base-36 ids are, and buckets in the 64-bit range). *)
Theorem MapKey_injective (sa : Aggregator) (id id' : string) (t t' : Z) :
  no_char dash id = true -> no_char dash id' = true ->
  - 2 ^ 63 <= ResolutionTime sa t < 2 ^ 63 -> - 2 ^ 63 <= ResolutionTime sa t' < 2 ^ 63 ->
  MapKey sa id t = MapKey sa id' t' <->
  id = id' /\ ResolutionTime sa t = ResolutionTime sa t'.
Proof.
  intros Hid Hid' Ht Ht'. unfold MapKey. split.
  - intros Heq. change "-"%string with (sep1 dash) in Heq.
    destruct (dash_split _ _ _ _ Hid Hid' Heq) as [-> Hp]. split; [done|].
    apply (inj pretty) in Hp. unfold UnixNano in Hp. by rewrite !swrap_id in Hp by (lia || done).
  - by intros [-> ->].
Qed.

Lemma MapKey_injective_witness :
  MapKey (NewAggregator 10) "2r" 25 = MapKey (NewAggregator 10) "2r" 29 <->
  "2r"%string = "2r"%string /\
  ResolutionTime (NewAggregator 10) 25 = ResolutionTime (NewAggregator 10) 29.
Proof.
  apply (MapKey_injective (NewAggregator 10) "2r" "2r" 25 29);
    [reflexivity|reflexivity|vm_compute; split; (reflexivity || discriminate)..].
Defined.

(** ** Grouping *)

Section grouping.
Context {GS : GoSort} (farm_Hash64 : list Z -> Z).
Implicit Types (sa : Aggregator) (stats : list StatRepr).

(** The point as [Add] leaves it: its name has its id. *)
Definition touched (s : StatRepr) : StatRepr :=
  match r_Name s with
  | Some n => with_name s (UniqueIdString farm_Hash64 n).2
  | None => s
  end.

Definition key_of (res : Z) (s : StatRepr) : string :=
  match r_Name s with
  | Some n => MapKey (NewAggregator res) (UniqueIdString farm_Hash64 n).1 (ToTime s)
  | None => ""
  end.

(** What a group of points becomes: a copy of the first one, updated
    with each of the others. *)
Definition combine_all (res : Z) (e : StatRepr) stats : option StatRepr :=
  foldl (fun e s => e ← e; combine (Truncate (ToTime s) res) res e (touched s)) (Some e) stats.

Definition group (res : Z) stats : option StatRepr :=
  match stats with
  | [] => None
  | s :: stats => combine_all res (repr_Copy (touched s)) stats
  end.

Fixpoint Add_all sa stats : option Aggregator :=
  match stats with
  | [] => Some sa
  | s :: stats => '(_, sa) ← Add farm_Hash64 sa s; Add_all sa stats
  end.

Definition named (s : StatRepr) : Prop := is_Some (r_Name s).

Lemma combine_named (t res : Z) (e s : StatRepr) :
  named e -> exists e', combine t res e s = Some e' /\ named e'.
Proof. intros [n Hn]. unfold combine. rewrite Hn. eexists. split; [done|]. by eexists. Qed.

Lemma group_snoc res stats s :
  stats <> [] -> group res (stats ++ [s]) =
  (e ← group res stats; combine (Truncate (ToTime s) res) res e (touched s)).
Proof.
  destruct stats as [|x stats]; [done|]. intros _. simpl. unfold combine_all. by rewrite foldl_app.
Qed.

Lemma group_named res stats :
  Forall named stats -> stats <> [] -> exists e, group res stats = Some e /\ named e.
Proof.
  induction stats as [|s stats IH] using rev_ind; intros Hn Hne; [done|].
  apply Forall_app in Hn as [Hn Hs]. rewrite Forall_singleton in Hs. destruct stats as [|x stats].
  - exists (repr_Copy (touched s)). split; [done|]. destruct Hs as [n Hs].
    unfold touched, named. rewrite Hs. by eexists.
  - rewrite group_snoc by done. destruct IH as (e & -> & He); [done|done|].
    by apply combine_named.
Qed.

(** The groups of the points added so far. *)
Definition grouped sa stats : Prop :=
  forall k, Items sa !! k = group (agg_Resolution sa) (filter (fun s => key_of (agg_Resolution sa) s = k) stats).

Lemma Add_grouped sa stats s :
  grouped sa stats -> Forall named stats -> named s ->
  exists sa', Add farm_Hash64 sa s = Some (touched s, sa') /\
    agg_Resolution sa' = agg_Resolution sa /\ grouped sa' (stats ++ [s]).
Proof.
  intros Hg Hn [n Hs]. unfold Add. rewrite Hs. cbn [mbind option_bind].
  set (res := agg_Resolution sa) in *.
  assert (Ht : touched s = with_name s (UniqueIdString farm_Hash64 n).2) by (unfold touched; by rewrite Hs).
  assert (Hk : key_of res s = MapKey sa (UniqueIdString farm_Hash64 n).1 (ToTime s))
    by (unfold key_of; by rewrite Hs).
  destruct (UniqueIdString farm_Hash64 n) as [idstr n']. cbn [fst snd] in *.
  rewrite <- Hk, <- Ht. pose proof (Hg (key_of res s)) as Hks. fold res in Hks.
  assert (Hother : forall k, k <> key_of res s ->
    filter (fun x => key_of res x = k) (stats ++ [s]) = filter (fun x => key_of res x = k) stats).
  { intros k Hk'. rewrite filter_app, filter_cons_False by congruence. by rewrite filter_nil, app_nil_r. }
  assert (Hsame : filter (fun x => key_of res x = key_of res s) (stats ++ [s]) =
    filter (fun x => key_of res x = key_of res s) stats ++ [s])
    by (by rewrite filter_app, filter_cons_True).
  destruct (filter (fun x => key_of res x = key_of res s) stats) as [|x l] eqn:Ef.
  - rewrite Hks. simpl. eexists. split; [done|]. split; [done|]. intros k. simpl. fold res.
    destruct (decide (k = key_of res s)) as [->|Hne].
    + by rewrite lookup_insert_eq, Hsame.
    + by rewrite lookup_insert_ne, Hother by done.
  - assert (Hnl : Forall named (x :: l)).
    { rewrite <- Ef. apply Forall_forall. intros y [_ Hy]%list_elem_of_filter.
      rewrite Forall_forall in Hn. by apply Hn. }
    destruct (group_named res (x :: l) Hnl ltac:(done)) as (e & Ee & He). rewrite Hks, Ee.
    destruct (combine_named (ResolutionTime sa (ToTime s)) res e (touched s) He) as (e' & E' & _).
    cbn iota beta. rewrite E'. cbn [mbind option_bind]. eexists. split; [done|]. split; [done|].
    intros k. simpl. fold res. destruct (decide (k = key_of res s)) as [->|Hne].
    + rewrite lookup_insert_eq, Hsame, group_snoc, Ee by done. by rewrite <- E'.
    + by rewrite lookup_insert_ne, Hother by done.
Qed.

Lemma Add_all_grouped stats sa stats0 :
  grouped sa stats0 -> Forall named stats0 -> Forall named stats ->
  exists sa', Add_all sa stats = Some sa' /\ agg_Resolution sa' = agg_Resolution sa /\
    grouped sa' (stats0 ++ stats).
Proof.
  revert sa stats0. induction stats as [|s stats IH]; intros sa stats0 Hg Hn0 Hn.
  { exists sa. by rewrite app_nil_r. }
  apply Forall_cons in Hn as [Hs Hn].
  destruct (Add_grouped sa stats0 s Hg Hn0 Hs) as (sa1 & E & Hres & Hg1).
  destruct (IH sa1 (stats0 ++ [s]) Hg1) as (sa2 & E2 & Hres2 & Hg2);
    [apply Forall_app; split; [done|by constructor]|done|].
  exists sa2. simpl. rewrite E. cbn [mbind option_bind]. split; [done|].
  split; [congruence|]. by rewrite <- app_assoc in Hg2.
Qed.

(** ** Bounds of a group *)

(** A point with ordered bounds and a count in the range of its type. *)
Definition well_ordered (s : StatRepr) : Prop :=
  IsNaN (Min s) = false /\ IsNaN (Max s) = false /\ - 2 ^ 63 <= Count s < 2 ^ 63.

(** [e] summarises the points [l]. *)
Record summary (e : StatRepr) (l : list StatRepr) : Prop := {
  sum_count : Count e = i64 (foldr (fun s n => Count s + n) 0 l);
  sum_last : Some (Last e) = Last <$> last l;
  sum_min : Forall (fun s => flt (Min s) (Min e) = false) l;
  sum_max : Forall (fun s => flt (Max e) (Max s) = false) l;
  sum_in : Exists (fun s => Min e = Min s) l /\ Exists (fun s => Max e = Max s) l
}.

Lemma flt_le_trans (x y z : float64) :
  IsNaN y = false -> flt y x = false -> flt z y = false -> flt z x = false.
Proof.
  unfold flt. intros ->. destruct (IsNaN x), (IsNaN z); simpl; try done. rewrite !Z.ltb_ge. lia.
Qed.

Lemma touched_fields (s : StatRepr) :
  Min (touched s) = Min s /\ Max (touched s) = Max s /\ Last (touched s) = Last s /\
  Count (touched s) = Count s.
Proof. unfold touched. by destruct (r_Name s). Qed.

Lemma counts_app (l : list StatRepr) (s : StatRepr) :
  foldr (fun s n => Count s + n) 0 (l ++ [s]) = foldr (fun s n => Count s + n) 0 l + Count s.
Proof. induction l as [|x l IH]; simpl; lia. Qed.

Lemma summary_snoc (t res : Z) (e e' s : StatRepr) (l : list StatRepr) :
  summary e l -> Forall well_ordered l -> well_ordered s -> combine t res e (touched s) = Some e' ->
  summary e' (l ++ [s]).
Proof.
  intros [Hc Hl Hmin Hmax [Hi1 Hi2]] Hn (Hn1 & Hn2 & _) E. unfold combine in E.
  destruct (r_Name e) as [n|]; [|done]. cbn [mbind option_bind] in E. injection E as <-.
  destruct (touched_fields s) as (-> & -> & -> & ->).
  destruct (fmin_pick (Min e) (Min s)) as (Hm & Hm1 & Hm2).
  destruct (fmax_pick (Max e) (Max s)) as (Hx & Hx1 & Hx2).
  assert (Hne : IsNaN (Min e) = false /\ IsNaN (Max e) = false).
  { rewrite Forall_forall in Hn. apply Exists_exists in Hi1 as (a & Ha & ->), Hi2 as (b & Hb & ->).
    split; [by apply (Hn a)|by apply (Hn b)]. }
  destruct Hne as [Hne1 Hne2]. constructor; simpl.
  - rewrite counts_app, Hc. apply i64_add_l.
  - by rewrite last_snoc.
  - apply Forall_app. split; [|by constructor]. apply (Forall_impl _ _ _ Hmin). intros x Hx'.
    by apply (flt_le_trans _ (Min e)).
  - apply Forall_app. split; [|by constructor]. apply (Forall_impl _ _ _ Hmax). intros x Hx'.
    by apply (flt_le_trans _ (Max e)).
  - rewrite !Exists_app, !Exists_cons, !Exists_nil. split.
    + destruct Hm as [->| ->]; tauto.
    + destruct Hx as [->| ->]; tauto.
Qed.

Lemma group_summary (res : Z) (l : list StatRepr) :
  Forall named l -> Forall well_ordered l -> l <> [] -> exists e, group res l = Some e /\ summary e l.
Proof.
  induction l as [|s l IH] using rev_ind; intros Hn Hnn Hne; [done|].
  apply Forall_app in Hn as [Hn Hs], Hnn as [Hnn Hsn]. rewrite Forall_singleton in Hs, Hsn.
  destruct l as [|x l].
  - exists (repr_Copy (touched s)). split; [done|].
    destruct (touched_fields s) as (H1 & H2 & H3 & H4).
    constructor; simpl; rewrite ?H1, ?H2, ?H3, ?H4; try done.
    + destruct Hsn as (_ & _ & Hcs). rewrite Z.add_0_r, swrap_id; [done|lia|exact Hcs].
    + constructor; [apply flt_irrefl|done].
    + constructor; [apply flt_irrefl|done].
    + split; by constructor.
  - destruct IH as (e & Ee & He); [done..|]. rewrite group_snoc, Ee by done.
    destruct (group_named res (x :: l) Hn ltac:(done)) as (e1 & Ee1 & Hne1). rewrite Ee in Ee1.
    injection Ee1 as <-.
    destruct (combine_named (Truncate (ToTime s) res) res e (touched s) Hne1) as (e' & E' & _).
    exists e'. split; [done|]. by eapply summary_snoc.
Qed.

(** ** Lists *)

Lemma reprs_Less_order (l : list (option StatRepr)) :
  Forall is_Some l -> weak_order_on reprs_Less l.
Proof.
  intros Hl. rewrite Forall_forall in Hl. constructor.
  - intros x Hx. destruct (Hl x Hx) as [r ->]. simpl. apply Z.ltb_irrefl.
  - intros x y z Hx Hy Hz. destruct (Hl x Hx) as [a ->], (Hl y Hy) as [b ->], (Hl z Hz) as [c ->].
    simpl. rewrite !Z.ltb_lt. lia.
  - intros x y z Hx Hy Hz. destruct (Hl x Hx) as [a ->], (Hl y Hy) as [b ->], (Hl z Hz) as [c ->].
    simpl. rewrite !Z.ltb_ge. lia.
Qed.

(** C16: The aggregator groups: after adding any list of named points to
    a new aggregator, the entry of a key is a copy of the first point with
    that key updated with every later one in order, and there is no entry
    for any other key. *)
Theorem aggregator_groups (res : Z) stats :
  Forall named stats ->
  exists sa, Add_all (NewAggregator res) stats = Some sa /\
    forall k, Items sa !! k = group res (filter (fun s => key_of res s = k) stats).
Proof.
  intros Hn. destruct (Add_all_grouped stats (NewAggregator res) []) as (sa & E & Hres & Hg);
    [done|constructor|done|].
  exists sa. split; [done|]. intros k. rewrite (Hg k), Hres. done.
Qed.

(** An entry summarises its group: its count is the sum of the
    counts (as 64-bit integers), its last value that of the last point
    added, and its minimum and maximum are attained by a point of the
    group and bound all of them. *)
Theorem aggregator_summarises (res : Z) stats (k : string) (e : StatRepr) (sa : Aggregator) :
  Forall named stats -> Forall well_ordered stats ->
  Add_all (NewAggregator res) stats = Some sa -> Items sa !! k = Some e ->
  summary e (filter (fun s => key_of res s = k) stats).
Proof.
  intros Hn Hw E Hk.
  destruct (Add_all_grouped stats (NewAggregator res) []) as (sa' & E' & Hres & Hg);
    [done|constructor|done|]. rewrite E in E'. injection E' as <-. rewrite (Hg k), Hres in Hk. simpl in Hk.
  set (l := filter (fun s => key_of res s = k) stats) in *.
  assert (Hsub : forall P : StatRepr -> Prop, Forall P stats -> Forall P l).
  { intros P HP. apply Forall_forall. intros x [_ Hx]%list_elem_of_filter.
    rewrite Forall_forall in HP. by apply HP. }
  destruct (group_summary res l) as (e' & Ee & Hs); [by apply Hsub|by apply Hsub|by intros Hl; rewrite Hl in Hk|].
  rewrite Ee in Hk. by injection Hk as <-.
Qed.

(** [GetListAndClear] hands out every entry, in time order, and
    leaves the aggregator empty. *)
Theorem GetListAndClear_spec sa :
  let '(out, sa') := GetListAndClear sa in
  Items sa' = ∅ /\ agg_Resolution sa' = agg_Resolution sa /\
  out ≡ₚ map (fun kv => Some kv.2) (map_to_list (Items sa)) /\
  forall i j a b, (i < j)%nat -> out !! i = Some (Some a) -> out !! j = Some (Some b) ->
    Time a <= Time b.
Proof.
  unfold GetListAndClear. set (l := map (fun kv => Some kv.2) (map_to_list (Items sa))).
  split_and!; [done|done|apply sort_perm|]. intros i j a b Hij Hi Hj.
  assert (Hl : Forall is_Some l) by (apply Forall_fmap, Forall_true; by eexists).
  pose proof (sort_sorted _ reprs_Less l (reprs_Less_order l Hl) i j _ _ Hij Hi Hj) as Hs.
  simpl in Hs. bool_to_prop. lia.
Qed.

(** ** Several resolutions *)

Lemma Add_total sa s :
  named s -> (forall k e, Items sa !! k = Some e -> named e) ->
  exists sa', Add farm_Hash64 sa s = Some (touched s, sa') /\ agg_Resolution sa' = agg_Resolution sa.
Proof.
  intros [n Hs] Hn. unfold Add, touched. rewrite Hs. cbn [mbind option_bind].
  destruct (UniqueIdString farm_Hash64 n) as [idstr n']. cbn [snd].
  destruct (Items sa !! _) as [e|] eqn:E; [|by eexists].
  destruct (combine_named (ResolutionTime sa (ToTime s)) (agg_Resolution sa) e (with_name s n') (Hn _ _ E))
    as (e' & -> & _). by eexists.
Qed.

Lemma UniqueIdString_nonempty (n : StatName) : (UniqueIdString farm_Hash64 n).1 <> ""%string.
Proof.
  unfold UniqueIdString. case_bool_decide as E; [|done].
  destruct (UniqueId farm_Hash64 n) as [id n']. simpl.
  destruct (FormatUint_nonempty id 36) as (a & str & Hs). by rewrite Hs.
Qed.

Lemma UniqueIdString_twice (n : StatName) :
  UniqueIdString farm_Hash64 (UniqueIdString farm_Hash64 n).2 = UniqueIdString farm_Hash64 n.
Proof.
  pose proof (UniqueIdString_nonempty n) as Hne. unfold UniqueIdString in *.
  case_bool_decide as E.
  - destruct (UniqueId farm_Hash64 n) as [id n']. simpl in *. by rewrite bool_decide_false.
  - simpl. by rewrite bool_decide_false.
Qed.

(** A point whose name already has its id is added like the first time. *)
Lemma Add_touched sa s : Add farm_Hash64 sa (touched s) = Add farm_Hash64 sa s.
Proof.
  unfold touched. destruct (r_Name s) as [n|] eqn:Hs; [|done]. unfold Add. rewrite Hs. simpl.
  rewrite UniqueIdString_twice. by destruct (UniqueIdString farm_Hash64 n).
Qed.

Lemma Add_returns_touched sa s s' sa' : Add farm_Hash64 sa s = Some (s', sa') -> s' = touched s.
Proof.
  unfold Add, touched. destruct (r_Name s) as [n|]; [|done]. cbn [mbind option_bind].
  destruct (UniqueIdString farm_Hash64 n) as [idstr n']. cbn [snd].
  destruct (Items sa !! _) as [e|]; [|by intros [= <- _]].
  destruct (combine _ _ _ _); [|done]. by intros [= <- _].
Qed.

(** One point goes once to each of the listed aggregators. *)
Lemma multi_loop_spec (durs : list Z) (aggs : gmap Z Aggregator) s s0 (f : Z -> Aggregator) :
  NoDup (map Seconds durs) -> (s0 = s \/ s0 = touched s) ->
  (forall d, d ∈ durs -> exists sa, aggs !! Seconds d = Some sa /\
     exists s', Add farm_Hash64 sa s = Some (s', f d)) ->
  exists s1 aggs', multi_loop farm_Hash64 aggs s0 durs = Some (s1, aggs') /\
    (forall d, d ∈ durs -> aggs' !! Seconds d = Some (f d)) /\
    (forall k, k ∉ map Seconds durs -> aggs' !! k = aggs !! k).
Proof.
  revert aggs s0. induction durs as [|d durs IH]; intros aggs s0 Hnd Hs0 Hall.
  { exists s0, aggs. split; [done|]. split; [|done]. intros d Hd. by apply elem_of_nil in Hd. }
  apply NoDup_cons in Hnd as [Hni Hnd]. destruct (Hall d) as (sa & Hsa & s' & E); [by left|].
  assert (E0 : Add farm_Hash64 sa s0 = Some (s', f d)) by (destruct Hs0 as [->| ->]; rewrite ?Add_touched; done).
  pose proof (Add_returns_touched _ _ _ _ E) as ->.
  destruct (IH (<[Seconds d := f d]> aggs) (touched s) Hnd) as (s1 & aggs' & El & Hin & Hout);
    [by right| |].
  { intros d' Hd'. destruct (Hall d') as (sa' & Hsa' & Hx); [by right|]. exists sa'.
    split; [|done]. rewrite lookup_insert_ne; [done|]. intros Heq. apply Hni. rewrite Heq.
    by apply list_elem_of_fmap_2. }
  exists s1, aggs'. simpl. rewrite Hsa. cbn [mbind option_bind]. rewrite E0. cbn [mbind option_bind].
  split; [done|]. split.
  - intros d' [->|Hd']%elem_of_cons; [|by apply Hin]. rewrite (Hout _ Hni). apply lookup_insert_eq.
  - intros k Hk. rewrite Hout by (intros ?; apply Hk; by right).
    rewrite lookup_insert_ne; [done|]. intros <-. apply Hk. by left.
Qed.

Fixpoint multi_Add_all (ma : MultiAggregator) stats : option MultiAggregator :=
  match stats with
  | [] => Some ma
  | s :: stats => '(_, ma) ← multi_Add farm_Hash64 ma s; multi_Add_all ma stats
  end.

Lemma NewMulti_lookup (durs durs' : list Z) (m : gmap Z Aggregator) d :
  NoDup (map Seconds (durs ++ durs')) ->
  (forall d, d ∈ durs -> m !! Seconds d = Some (NewAggregator d)) -> d ∈ durs ++ durs' ->
  foldl (fun m dur => <[Seconds dur := NewAggregator dur]> m) m durs' !! Seconds d =
  Some (NewAggregator d).
Proof.
  revert durs m. induction durs' as [|x durs' IH]; intros durs m Hnd Hm Hd.
  { apply Hm. by rewrite app_nil_r in Hd. }
  simpl. apply (IH (durs ++ [x])); rewrite <- ?app_assoc; try done.
  intros d' [Hd'|Hd']%elem_of_app.
  - rewrite lookup_insert_ne; [by apply Hm|]. intros Heq. rewrite map_app in Hnd.
    apply NoDup_app in Hnd as (_ & Hdis & _). apply (Hdis (Seconds d')).
    + by apply list_elem_of_fmap_2.
    + rewrite <- Heq. by left.
  - apply list_elem_of_singleton in Hd' as ->. apply lookup_insert_eq.
Qed.

Lemma multi_Add_all_spec stats (ma : MultiAggregator) (f : Z -> Aggregator) :
  NoDup (map Seconds (Resolutions ma)) ->
  (forall d, d ∈ Resolutions ma -> exists sa, multi_Get ma d = Some sa /\ Add_all sa stats = Some (f d)) ->
  exists ma', multi_Add_all ma stats = Some ma' /\
    forall d, d ∈ Resolutions ma -> multi_Get ma' d = Some (f d).
Proof.
  revert ma. induction stats as [|s stats IH]; intros ma Hnd Hall.
  { exists ma. split; [done|]. intros d Hd. destruct (Hall d Hd) as (sa & Hsa & [= <-]). done. }
  assert (Hstep : forall d, d ∈ Resolutions ma -> exists sa sa1,
    multi_Get ma d = Some sa /\ Add farm_Hash64 sa s = Some (touched s, sa1) /\ Add_all sa1 stats = Some (f d)).
  { intros d Hd. destruct (Hall d Hd) as (sa & Hsa & E). simpl in E.
    destruct (Add farm_Hash64 sa s) as [[s' sa1]|] eqn:Ea; [|done].
    pose proof (Add_returns_touched _ _ _ _ Ea) as ->. by exists sa, sa1. }
  set (g d := match multi_Get ma d with
              | Some sa => match Add farm_Hash64 sa s with Some (_, sa1) => sa1 | None => sa end
              | None => NewAggregator d end).
  destruct (multi_loop_spec (Resolutions ma) (Aggs ma) s s g Hnd) as (s1 & aggs' & El & Hin & _); [by left| |].
  { intros d Hd. destruct (Hstep d Hd) as (sa & sa1 & Hsa & Ea & _). exists sa. split; [done|].
    exists (touched s). unfold g. by rewrite Hsa, Ea. }
  simpl. unfold multi_Add. rewrite El. cbn [mbind option_bind].
  apply (IH (mkMulti aggs' (Resolutions ma))); [done|].
  intros d Hd. exists (g d). split; [by apply Hin|].
  destruct (Hstep d Hd) as (sa & sa1 & Hsa & Ea & E). unfold g. by rewrite Hsa, Ea.
Qed.

(** The resolutions do not interfere: adding points to a
    multi-aggregator with distinct resolutions leaves, for each of them,
    exactly what adding the points to an aggregator of that resolution
    alone leaves. *)
Theorem multi_independent (durs : list Z) stats :
  NoDup (map Seconds durs) -> Forall named stats ->
  exists ma, multi_Add_all (NewMulti durs) stats = Some ma /\
    forall d, d ∈ durs -> multi_Get ma d = Add_all (NewAggregator d) stats /\
                         is_Some (multi_Get ma d).
Proof.
  intros Hnd Hn.
  assert (Hall : forall d, exists sa, Add_all (NewAggregator d) stats = Some sa).
  { intros d. destruct (Add_all_grouped stats (NewAggregator d) []) as (sa & E & _);
      [done|constructor|done|]. by exists sa. }
  set (f d := default (NewAggregator d) (Add_all (NewAggregator d) stats)).
  assert (Hf : forall d, Add_all (NewAggregator d) stats = Some (f d)).
  { intros d. unfold f. by destruct (Hall d) as (sa & ->). }
  destruct (multi_Add_all_spec stats (NewMulti durs) f Hnd) as (ma & E & Hget).
  { intros d Hd. exists (NewAggregator d). split; [|apply Hf].
    apply (NewMulti_lookup [] durs); [done| |done]. intros d' Hd'. by apply elem_of_nil in Hd'. }
  exists ma. split; [done|]. intros d Hd. rewrite (Hget d Hd), (Hf d). split; [done|by eexists].
Qed.

End grouping.

(** ** Additions that interleave

    The workers of the dispatcher run [Add] at the same time.  Each looks its
    element up under the read lock ([ALook]); a new element is inserted
    under the write lock ([AInsert]); one that was found is updated with no
    lock held, which is a reading ([ALoad]) and a writing ([AStore]) of it.
    [GetListAndClear] is one critical section ([AClear]).  So the elements
    live in a store, and the table and the lists that were handed out hold
    addresses: an element can be updated after it has been handed out.  An
    element's fields are read together and written together; the theorem
    speaks of its count only. *)

Module AddRaces.

(** An element, and the additions it is made of, which only observe. *)
Record cell := mkCell { c_elem : StatRepr; c_parts : list nat }.

Inductive add_phase := AMissing | AFound (l : nat) | ALoaded (l : nat) (c : cell).

(** A call of [Add] under way; [ad_met]: at the same time as another call or
    a clearing. *)
Record adding := mkAdding {
  ad_stat : StatRepr;
  ad_key : string;
  ad_time : Z;
  ad_phase : add_phase;
  ad_met : bool
}.

(** A call that has returned: the count it added, whether it met another,
    and the address of its element. *)
Record added := mkAdded { dn_count : Z; dn_met : bool; dn_at : nat }.

Record add_state := mkAdds {
  ag_cells : list cell;
  ag_items : gmap string nat;
  ag_jobs : gmap nat adding;
  ag_out : list (list nat);
  ag_done : gmap nat added
}.

Definition ag_start : add_state := mkAdds [] ∅ ∅ [] ∅.

Inductive add_label := ALook (j : nat) (stat : StatRepr) | ALoad (j : nat) | AStore (j : nat) | AInsert (j : nat) | AClear.

Definition met (a : adding) : adding := mkAdding (ad_stat a) (ad_key a) (ad_time a) (ad_phase a) true.
Definition at_phase (a : adding) (p : add_phase) : adding := mkAdding (ad_stat a) (ad_key a) (ad_time a) p (ad_met a).

Definition ag_finish (s : add_state) (j : nat) (a : adding) (cells : list cell) (items : gmap string nat) (l : nat) : add_state :=
  mkAdds cells items (delete j (ag_jobs s)) (ag_out s) (<[j := mkAdded (Count (ad_stat a)) (ad_met a) l]> (ag_done s)).

(** [None]: the step cannot be taken, or the name is nil. *)
Definition add_next (farm_Hash64 : list Z -> Z) `{!GoSort} (res : Z) (s : add_state) (lab : add_label) : option add_state :=
  match lab with
  | ALook j stat =>
      if decide (ag_jobs s !! j = None /\ ag_done s !! j = None) then
        let sa := NewAggregator res in
        let tT := ToTime stat in
        n ← r_Name stat;
        let '(idstr, n) := UniqueIdString farm_Hash64 n in
        let mK := MapKey sa idstr tT in
        let phase := match ag_items s !! mK with Some l => AFound l | None => AMissing end in
        let a := mkAdding (with_name stat n) mK (ResolutionTime sa tT) phase (negb (bool_decide (ag_jobs s = ∅))) in
        Some (mkAdds (ag_cells s) (ag_items s) (<[j := a]> (met <$> ag_jobs s)) (ag_out s) (ag_done s))
      else None
  | ALoad j =>
      a ← ag_jobs s !! j;
      match ad_phase a with
      | AFound l =>
          c ← ag_cells s !! l;
          Some (mkAdds (ag_cells s) (ag_items s) (<[j := at_phase a (ALoaded l c)]> (ag_jobs s)) (ag_out s) (ag_done s))
      | _ => None
      end
  | AStore j =>
      a ← ag_jobs s !! j;
      match ad_phase a with
      | ALoaded l c =>
          e ← combine (ad_time a) res (c_elem c) (ad_stat a);
          Some (ag_finish s j a (<[l := mkCell e (c_parts c ++ [j])]> (ag_cells s)) (ag_items s) l)
      | _ => None
      end
  | AInsert j =>
      a ← ag_jobs s !! j;
      match ad_phase a with
      | AMissing =>
          let l := length (ag_cells s) in
          Some (ag_finish s j a (ag_cells s ++ [mkCell (repr_Copy (ad_stat a)) [j]]) (<[ad_key a := l]> (ag_items s)) l)
      | _ => None
      end
  | AClear =>
      Some (mkAdds (ag_cells s) ∅ (met <$> ag_jobs s) (ag_out s ++ [(map_to_list (ag_items s)).*2]) (ag_done s))
  end.

Fixpoint add_exec (farm_Hash64 : list Z -> Z) `{!GoSort} (res : Z) (s : add_state) (ls : list add_label) : option add_state :=
  match ls with
  | [] => Some s
  | l :: ls => s ← add_next farm_Hash64 res s l; add_exec farm_Hash64 res s ls
  end.

(** The elements in the table and in the lists handed out. *)
Definition ag_held (s : add_state) : list nat := (map_to_list (ag_items s)).*2 ++ concat (ag_out s).
Definition ag_elements (s : add_state) : list cell := omap (fun l => ag_cells s !! l) (ag_held s).

(** The count of the additions. *)
Definition parts_count (s : add_state) (js : list nat) : Z :=
  foldr (fun j n => default 0 (dn_count <$> ag_done s !! j) + n) 0 js.

(** What is added is a point with a name and a 64-bit count. *)
Definition label_ok (l : add_label) : Prop :=
  match l with ALook _ stat => named stat /\ - 2 ^ 63 <= Count stat < 2 ^ 63 | _ => True end.

Section races.
Context `{!GoSort} (farm_Hash64 : list Z -> Z) (res : Z).

(** A version of the element at [l]: its count is that of the additions it
    is made of, each of which has returned and updated this element. *)
Record version (s : add_state) (l : nat) (c : cell) : Prop := {
  v_count : Count (c_elem c) = i64 (parts_count s (c_parts c));
  v_named : named (c_elem c);
  v_once : NoDup (c_parts c);
  v_done : forall j, j ∈ c_parts c -> exists d, ag_done s !! j = Some d /\ dn_at d = l
}.

(** An addition that met no other has updated the element at [l]. *)
Definition alone (s : add_state) (j l : nat) : Prop :=
  exists d, ag_done s !! j = Some d /\ dn_met d = false /\ dn_at d = l.

Definition job_ok (s : add_state) (j : nat) (a : adding) : Prop :=
  ag_done s !! j = None /\ - 2 ^ 63 <= Count (ad_stat a) < 2 ^ 63 /\ named (ad_stat a) /\
  (ad_met a = false -> forall j' a', ag_jobs s !! j' = Some a' -> j' = j) /\
  match ad_phase a with
  | AMissing => (ad_met a = false -> ag_items s !! ad_key a = None) /\
      forall l, ag_items s !! ad_key a = Some l -> forall i, ~ alone s i l
  | AFound l => (l < length (ag_cells s))%nat /\ (ad_met a = false -> ag_items s !! ad_key a = Some l)
  | ALoaded l c => (l < length (ag_cells s))%nat /\ (ad_met a = false -> ag_items s !! ad_key a = Some l) /\
      version s l c /\ forall i, alone s i l -> i ∈ c_parts c
  end.

Record add_inv (s : add_state) : Prop := {
  ai_cells : forall l c, ag_cells s !! l = Some c -> version s l c;
  ai_alone : forall i l, alone s i l -> l ∈ ag_held s /\ exists c, ag_cells s !! l = Some c /\ i ∈ c_parts c;
  ai_done : forall j d, ag_done s !! j = Some d -> (dn_at d < length (ag_cells s))%nat;
  ai_jobs : forall j a, ag_jobs s !! j = Some a -> job_ok s j a;
  ai_held : NoDup (ag_held s) /\ forall l, l ∈ ag_held s -> (l < length (ag_cells s))%nat
}.

(** *** The steps keep the invariant *)

Lemma parts_count_grow (s s' : add_state) (js : list nat) :
  (forall j, j ∈ js -> ag_done s' !! j = ag_done s !! j) -> parts_count s' js = parts_count s js.
Proof.
  unfold parts_count. induction js as [|j js IH]; intros Hd; [done|]. cbn. rewrite Hd by (by left). rewrite IH; [done|].
  intros j' Hj. apply Hd. by right.
Qed.

Lemma parts_count_snoc (s : add_state) (js : list nat) (j : nat) :
  parts_count s (js ++ [j]) = parts_count s js + default 0 (dn_count <$> ag_done s !! j).
Proof. unfold parts_count. induction js as [|x js IH]; cbn in *; lia. Qed.

(** The additions that have returned stay so. *)
Lemma version_grow (s s' : add_state) (l : nat) (c : cell) :
  (forall j d, ag_done s !! j = Some d -> ag_done s' !! j = Some d) -> version s l c -> version s' l c.
Proof.
  intros Hg [H1 H2 H3 H4]. split; [|done|done|].
  - rewrite H1. f_equal. symmetry. apply parts_count_grow. intros j Hj. destruct (H4 j Hj) as (d & Hd & _).
    by rewrite (Hg j d Hd), Hd.
  - intros j Hj. destruct (H4 j Hj) as (d & Hd & Hl). exists d. split; [by apply Hg|done].
Qed.

(** One more addition to a version. *)
Lemma version_add (s s' : add_state) (l j : nat) (c : cell) (a : adding) (e : StatRepr) :
  (forall i d, ag_done s !! i = Some d -> ag_done s' !! i = Some d) -> ag_done s !! j = None ->
  ag_done s' !! j = Some (mkAdded (Count (ad_stat a)) (ad_met a) l) -> version s l c ->
  combine (ad_time a) res (c_elem c) (ad_stat a) = Some e -> version s' l (mkCell e (c_parts c ++ [j])).
Proof.
  intros Hg Hj Hj' Hv E. pose proof (version_grow s s' l c Hg Hv) as [H1 H2 H3 H4].
  assert (Hnew : j ∉ c_parts c).
  { intros Hin. destruct (v_done _ _ _ Hv j Hin) as (d & Hd & _). congruence. }
  destruct H2 as [n Hn]. unfold combine in E. rewrite Hn in E. cbn [mbind option_bind] in E. injection E as <-.
  split; cbn [c_elem c_parts Count].
  - rewrite parts_count_snoc, Hj', H1. apply i64_add_l.
  - by eexists.
  - apply NoDup_app. split_and!; [done| |apply NoDup_singleton]. intros x Hx ->%list_elem_of_singleton. done.
  - intros x [Hx| ->%list_elem_of_singleton]%elem_of_app; [by apply H4|]. by eexists.
Qed.

Lemma held_insert (s : add_state) (k : string) (l : nat) :
  (map_to_list (<[k := l]> (ag_items s))).*2 ≡ₚ l :: (map_to_list (delete k (ag_items s))).*2.
Proof.
  rewrite <- insert_delete_eq. change (l :: (map_to_list (delete k (ag_items s))).*2) with (((k, l) :: map_to_list (delete k (ag_items s))).*2).
  apply fmap_Permutation, map_to_list_insert, lookup_delete_eq.
Qed.

Lemma held_delete (m : gmap string nat) (k : string) (l : nat) :
  m !! k = Some l -> (map_to_list m).*2 ≡ₚ l :: (map_to_list (delete k m)).*2.
Proof.
  intros Hk. rewrite <- (insert_id m k l Hk) at 1. rewrite <- insert_delete_eq.
  change (l :: (map_to_list (delete k m)).*2) with (((k, l) :: map_to_list (delete k m)).*2).
  apply fmap_Permutation, map_to_list_insert, lookup_delete_eq.
Qed.

(** A step that leaves elements, table and returned additions alone. *)
Lemma job_ok_met (s : add_state) (jobs : gmap nat adding) (items : gmap string nat) (out : list (list nat)) (j : nat) (a : adding) :
  (forall k l, items !! k = Some l -> ag_items s !! k = Some l) -> job_ok s j a ->
  job_ok (mkAdds (ag_cells s) items jobs out (ag_done s)) j (met a).
Proof.
  intros Hi (H1 & H2 & H3 & _ & H5). do 4 (split; [done|]). cbn. destruct (ad_phase a) as [|l|l c].
  - split; [done|]. intros l Hl. apply H5. by apply Hi.
  - by split; [apply H5|].
  - destruct H5 as (H5 & _ & [V1 V2 V3 V4] & H6). by split_and!.
Qed.

Lemma add_inv_look (s : add_state) (j : nat) (a : adding) :
  add_inv s -> ag_jobs s !! j = None -> ag_done s !! j = None -> - 2 ^ 63 <= Count (ad_stat a) < 2 ^ 63 -> named (ad_stat a) ->
  ad_phase a = match ag_items s !! ad_key a with Some l => AFound l | None => AMissing end ->
  ad_met a = negb (bool_decide (ag_jobs s = ∅)) ->
  add_inv (mkAdds (ag_cells s) (ag_items s) (<[j := a]> (met <$> ag_jobs s)) (ag_out s) (ag_done s)).
Proof.
  intros [H1 H2 H3 H4 H5] Hj Hd Hc Hn Hp Hm. split; try done.
  - intros l c Hl. destruct (H1 l c Hl) as [V1 V2 V3 V4]. by split.
  - intros j' a' Hj'. cbn in Hj'. destruct (decide (j' = j)) as [->|Hne].
    + rewrite lookup_insert_eq in Hj'. injection Hj' as <-. do 3 (split; [done|]). split.
      * intros Hmet. rewrite Hmet in Hm. symmetry in Hm. apply negb_false_iff, bool_decide_eq_true in Hm. cbn. rewrite Hm.
        intros j' a'. rewrite fmap_empty, insert_empty. by intros [<- _]%lookup_singleton_Some.
      * rewrite Hp. cbn. destruct (ag_items s !! ad_key a) as [l|] eqn:El; [|done]. split; [|done]. apply H5.
        apply elem_of_app. left. apply list_elem_of_fmap. exists (ad_key a, l). split; [done|]. by apply elem_of_map_to_list.
    + rewrite lookup_insert_ne, lookup_fmap in Hj' by done. destruct (ag_jobs s !! j') as [a0|] eqn:E; [|done].
      injection Hj' as <-. by apply job_ok_met, H4.
Qed.

Lemma add_inv_load (s : add_state) (j l : nat) (a : adding) (c : cell) :
  add_inv s -> ag_jobs s !! j = Some a -> ad_phase a = AFound l -> ag_cells s !! l = Some c ->
  add_inv (mkAdds (ag_cells s) (ag_items s) (<[j := at_phase a (ALoaded l c)]> (ag_jobs s)) (ag_out s) (ag_done s)).
Proof.
  intros [H1 H2 H3 H4 H5] Hj Hp Hc. split; try done.
  - intros l' c' Hl. destruct (H1 l' c' Hl) as [V1 V2 V3 V4]. by split.
  - assert (Hone : forall j' a', <[j := at_phase a (ALoaded l c)]> (ag_jobs s) !! j' = Some a' -> exists a0, ag_jobs s !! j' = Some a0).
    { intros j' a'. destruct (decide (j' = j)) as [->|Hne]; [by eexists|]. rewrite lookup_insert_ne by done. by eexists. }
    intros j' a' Hj'. cbn in Hj'. destruct (decide (j' = j)) as [->|Hne].
    + rewrite lookup_insert_eq in Hj'. injection Hj' as <-. destruct (H4 j a Hj) as (J1 & J2 & J3 & J4 & J5). rewrite Hp in J5.
      do 3 (split; [done|]). split.
      * intros Hm j' a' Hj'. destruct (Hone j' a' Hj') as [a0 Ha0]. by eapply J4.
      * cbn. destruct J5 as [J5 J6]. destruct (H1 l c Hc) as [V1 V2 V3 V4]. split_and!; try done.
        intros i Hi. destruct (H2 i l Hi) as (_ & c' & Hc' & Hin). congruence.
    + rewrite lookup_insert_ne in Hj' by done. destruct (H4 j' a' Hj') as (J1 & J2 & J3 & J4 & J5). do 3 (split; [done|]). split.
      * intros Hm j2 a2 Hj2. destruct (Hone j2 a2 Hj2) as [a0 Ha0]. by eapply J4.
      * destruct (ad_phase a') as [| |l' c']; [done|done|]. destruct J5 as (K1 & K2 & [V1 V2 V3 V4] & K4). by split_and!.
Qed.

(** An addition returns, having written the element at [l]. *)
Lemma add_inv_finish (s : add_state) (j l : nat) (a : adding) (cells : list cell) (items : gmap string nat) (c : cell) :
  let s' := ag_finish s j a cells items l in
  add_inv s -> ag_jobs s !! j = Some a ->
  cells !! l = Some c -> version s' l c -> j ∈ c_parts c -> (forall i, alone s i l -> i ∈ c_parts c) ->
  (length (ag_cells s) <= length cells)%nat -> (forall l', l' <> l -> cells !! l' = ag_cells s !! l') ->
  (forall k l', items !! k = Some l' -> ag_items s !! k = Some l' \/ forall i, ~ alone s i l') ->
  NoDup (ag_held s') -> (forall l', l' ∈ ag_held s' -> (l' < length cells)%nat) ->
  (forall i l', alone s i l' -> l' ∈ ag_held s') -> (ad_met a = false -> l ∈ ag_held s') ->
  add_inv s'.
Proof.
  intros s' [H1 H2 H3 H4 H5] Hj Hc Hv Hin Hal Hlen Hsame Hit Hnd Hlt Hheld Hnew.
  destruct (H4 j a Hj) as (J1 & _ & _ & J4 & _).
  assert (Hdj : ag_done s' !! j = Some (mkAdded (Count (ad_stat a)) (ad_met a) l)) by apply lookup_insert_eq.
  assert (Hgrow : forall i d, ag_done s !! i = Some d -> ag_done s' !! i = Some d).
  { intros i d Hi. cbn. rewrite lookup_insert_ne; [done|]. congruence. }
  assert (Halone : forall i l', alone s' i l' -> alone s i l' \/ (i = j /\ l' = l /\ ad_met a = false)).
  { intros i l' (d & Hd & Hm & Hl). cbn in Hd. destruct (decide (i = j)) as [->|Hne].
    - rewrite lookup_insert_eq in Hd. injection Hd as <-. by right.
    - rewrite lookup_insert_ne in Hd by done. left. by exists d. }
  split.
  - intros l' c' Hl'. cbn in Hl'. destruct (decide (l' = l)) as [->|Hne]; [by simplify_eq|].
    rewrite Hsame in Hl' by done. apply (version_grow s); [done|by apply H1].
  - intros i l' [Hi|(-> & -> & Hm)]%Halone.
    + split; [by eapply Hheld|]. destruct (decide (l' = l)) as [->|Hne]; [by exists c; split; [|apply Hal]|].
      destruct (H2 i l' Hi) as (_ & c' & Hc' & Hi'). exists c'. cbn. by rewrite Hsame.
    + split; [by apply Hnew|]. by exists c.
  - intros i d Hd. cbn in Hd |- *. destruct (decide (i = j)) as [->|Hne].
    + rewrite lookup_insert_eq in Hd. injection Hd as <-. cbn. by eapply lookup_lt_Some.
    + rewrite lookup_insert_ne in Hd by done. specialize (H3 i d Hd). lia.
  - intros j' a' Hj'. cbn in Hj'. apply lookup_delete_Some in Hj' as [Hne Hj'].
    destruct (H4 j' a' Hj') as (K1 & K2 & K3 & K4 & K5).
    assert (Hm : ad_met a = true) by (destruct (ad_met a); [done|]; by destruct Hne; rewrite (J4 eq_refl j' a' Hj')).
    assert (Hm' : ad_met a' = true) by (destruct (ad_met a'); [done|]; by destruct Hne; rewrite (K4 eq_refl j a Hj)).
    assert (Hold : forall i l', alone s' i l' -> alone s i l').
    { intros i l' [Hi|(_ & _ & Hf)]%Halone; [done|congruence]. }
    split; [cbn; by rewrite lookup_insert_ne|]. do 2 (split; [done|]). rewrite Hm'. split; [done|].
    rewrite Hm' in K5. destruct (ad_phase a') as [|l'|l' c'].
    + split; [done|]. intros l' Hl' i Hi%Hold. destruct (Hit _ _ Hl') as [Hl2|Hl2]; [|by eapply Hl2].
      by apply (proj2 K5 l' Hl2 i).
    + split; [|done]. cbn. destruct K5 as [K5 _]. lia.
    + destruct K5 as (K5 & _ & K6 & K7). split_and!; [cbn; lia|done|by apply (version_grow s)|]. intros i Hi%Hold. by apply K7.
  - done.
Qed.

Lemma add_inv_store (s : add_state) (j l : nat) (a : adding) (c : cell) (e : StatRepr) :
  add_inv s -> ag_jobs s !! j = Some a -> ad_phase a = ALoaded l c -> combine (ad_time a) res (c_elem c) (ad_stat a) = Some e ->
  add_inv (ag_finish s j a (<[l := mkCell e (c_parts c ++ [j])]> (ag_cells s)) (ag_items s) l).
Proof.
  intros Hinv Hj Hp E. pose proof Hinv as [H1 H2 H3 H4 H5]. destruct (H4 j a Hj) as (J1 & J2 & J3 & J4 & J5).
  rewrite Hp in J5. destruct J5 as (K1 & K2 & K3 & K4). apply (add_inv_finish s j l a _ _ (mkCell e (c_parts c ++ [j]))); try done.
  - by apply list_lookup_insert_eq.
  - eapply (version_add s _ l j c a e); try done; [|apply lookup_insert_eq]. intros i d Hi. cbn. rewrite lookup_insert_ne; [done|congruence].
  - apply elem_of_app. right. by apply list_elem_of_singleton.
  - intros i Hi. apply elem_of_app. left. by apply K4.
  - by rewrite length_insert.
  - intros l' Hne. by rewrite list_lookup_insert_ne.
  - intros k l' Hl. by left.
  - apply H5.
  - rewrite length_insert. apply H5.
  - intros i l' Hi. by apply (H2 i).
  - intros Hm. apply elem_of_app. left. apply list_elem_of_fmap. exists (ad_key a, l). split; [done|].
    apply elem_of_map_to_list. by apply K2.
Qed.

Lemma add_inv_insert (s : add_state) (j : nat) (a : adding) :
  add_inv s -> ag_jobs s !! j = Some a -> ad_phase a = AMissing ->
  let l := length (ag_cells s) in
  add_inv (ag_finish s j a (ag_cells s ++ [mkCell (repr_Copy (ad_stat a)) [j]]) (<[ad_key a := l]> (ag_items s)) l).
Proof.
  intros Hinv Hj Hp l. pose proof Hinv as [H1 H2 H3 H4 [H5 H6]]. destruct (H4 j a Hj) as (J1 & J2 & J3 & J4 & J5).
  rewrite Hp in J5. destruct J5 as [K1 K2].
  assert (Hfresh : forall i, ~ alone s i l).
  { intros i (d & Hd & _ & Hl). specialize (H3 i d Hd). unfold l in Hl. lia. }
  set (s' := ag_finish _ _ _ _ _ _).
  assert (Hperm : ag_held s' ≡ₚ l :: (map_to_list (delete (ad_key a) (ag_items s))).*2 ++ concat (ag_out s)).
  { unfold ag_held. cbn. by rewrite held_insert. }
  assert (Hsub : forall x, x ∈ (map_to_list (delete (ad_key a) (ag_items s))).*2 -> exists k, k <> ad_key a /\ ag_items s !! k = Some x).
  { intros x ([k y] & -> & Hk%elem_of_map_to_list)%list_elem_of_fmap. apply lookup_delete_Some in Hk as [Hne Hk]. exists k. split; [by apply not_eq_sym|done]. }
  assert (Hin : forall x, x ∈ (map_to_list (delete (ad_key a) (ag_items s))).*2 ++ concat (ag_out s) -> x ∈ ag_held s).
  { intros x [Hx|Hx]%elem_of_app; apply elem_of_app; [left|by right]. destruct (Hsub x Hx) as (k & _ & Hk).
    apply list_elem_of_fmap. exists (k, x). split; [done|]. by apply elem_of_map_to_list. }
  apply (add_inv_finish s j l a _ _ (mkCell (repr_Copy (ad_stat a)) [j])); try done.
  - by apply list_lookup_middle.
  - destruct J3 as [n Hn]. split; cbn [c_elem c_parts].
    + unfold parts_count. cbn. rewrite lookup_insert_eq. cbn. rewrite Z.add_0_r. symmetry. apply swrap_id; lia.
    + unfold named. cbn. rewrite Hn. by eexists.
    + apply NoDup_singleton.
    + intros i ->%list_elem_of_singleton. eexists. split; [apply lookup_insert_eq|done].
  - by left.
  - intros i Hi. by destruct (Hfresh i).
  - rewrite length_app. lia.
  - intros l' Hne. destruct (decide (l' < l)%nat) as [Hlt|Hge]; [by apply lookup_app_l|].
    rewrite !lookup_ge_None_2; [done|unfold l in *; lia|rewrite length_app; cbn; unfold l in *; lia].
  - intros k l' [[<- <-]|[_ Hk]]%lookup_insert_Some; [by right|by left].
  - fold s'. rewrite Hperm. apply NoDup_cons. split; [intros Hl%Hin%H6; unfold l in Hl; lia|].
    destruct (ag_items s !! ad_key a) as [x|] eqn:Ex; [|by rewrite delete_id by done].
    unfold ag_held in H5. rewrite (held_delete _ _ _ Ex) in H5. by apply NoDup_cons in H5 as [_ ?].
  - fold s'. intros x. rewrite Hperm, length_app. cbn [length]. intros [->|Hx%Hin%H6]%elem_of_cons; [|lia]. unfold l. lia.
  - intros i l' Hi. fold s'. rewrite Hperm. right. destruct (H2 i l' Hi) as [[Hh|Hh]%elem_of_app _]; apply elem_of_app; [left|by right].
    apply list_elem_of_fmap in Hh as ([k y] & -> & Hk%elem_of_map_to_list). apply list_elem_of_fmap. exists (k, y). split; [done|].
    apply elem_of_map_to_list. rewrite lookup_delete_ne; [done|]. intros <-. by destruct (K2 y Hk i).
  - intros _. fold s'. rewrite Hperm. by left.
Qed.

Lemma add_inv_clear (s : add_state) :
  add_inv s -> add_inv (mkAdds (ag_cells s) ∅ (met <$> ag_jobs s) (ag_out s ++ [(map_to_list (ag_items s)).*2]) (ag_done s)).
Proof.
  intros [H1 H2 H3 H4 [H5 H6]]. set (s' := mkAdds _ _ _ _ _).
  assert (Hperm : ag_held s' ≡ₚ ag_held s).
  { unfold ag_held. cbn. rewrite map_to_list_empty, concat_app. cbn. rewrite app_nil_r. apply Permutation_app_comm. }
  split.
  - intros l c Hl. destruct (H1 l c Hl) as [V1 V2 V3 V4]. by split.
  - intros i l Hi. rewrite Hperm. by apply (H2 i l).
  - done.
  - intros j a Hj. cbn in Hj. rewrite lookup_fmap in Hj. destruct (ag_jobs s !! j) as [a0|] eqn:E; [|done]. injection Hj as <-.
    apply job_ok_met; [|by apply H4]. intros k l. by rewrite lookup_empty.
  - rewrite Hperm. split; [done|]. intros l. rewrite Hperm. apply H6.
Qed.

Lemma add_next_inv (s s' : add_state) (lab : add_label) :
  add_inv s -> label_ok lab -> add_next farm_Hash64 res s lab = Some s' -> add_inv s'.
Proof.
  intros Hinv Hok. destruct lab as [j stat|j|j|j|]; cbn [add_next].
  - destruct (decide _) as [[Hj Hd]|]; [|done]. destruct Hok as [[n Hn] Hc]. rewrite Hn. cbn [mbind option_bind].
    destruct (UniqueIdString farm_Hash64 n) as [idstr n']. intros [= <-]. by apply add_inv_look; try done; eexists.
  - destruct (ag_jobs s !! j) as [a|] eqn:Ej; [|done]. cbn [mbind option_bind]. destruct (ad_phase a) as [|l|l c] eqn:Ep; try done.
    destruct (ag_cells s !! l) as [c|] eqn:Ec; [|done]. cbn [mbind option_bind]. intros [= <-]. by apply add_inv_load.
  - destruct (ag_jobs s !! j) as [a|] eqn:Ej; [|done]. cbn [mbind option_bind]. destruct (ad_phase a) as [|l|l c] eqn:Ep; try done.
    destruct (combine _ _ _ _) as [e|] eqn:Ec; [|done]. cbn [mbind option_bind]. intros [= <-]. by apply add_inv_store.
  - destruct (ag_jobs s !! j) as [a|] eqn:Ej; [|done]. cbn [mbind option_bind]. destruct (ad_phase a) as [|l|l c] eqn:Ep; try done.
    intros [= <-]. by apply add_inv_insert.
  - intros [= <-]. by apply add_inv_clear.
Qed.

Lemma add_exec_inv (ls : list add_label) (s s' : add_state) :
  add_inv s -> Forall label_ok ls -> add_exec farm_Hash64 res s ls = Some s' -> add_inv s'.
Proof.
  revert s. induction ls as [|l ls IH]; intros s Hinv Hls; cbn [add_exec]; [by intros [= <-]|].
  apply Forall_cons in Hls as [Hl Hls]. destruct (add_next farm_Hash64 res s l) as [s1|] eqn:E; [|done].
  cbn [mbind option_bind]. apply IH; [by eapply add_next_inv|done].
Qed.

Lemma add_inv_start : add_inv ag_start.
Proof.
  assert (He : forall {A} (i : nat) (x : A), (∅ : gmap nat A) !! i = Some x -> False) by (intros A i x; by rewrite lookup_empty).
  split.
  - intros l c Hl. by destruct l.
  - intros i l (d & Hd & _). by destruct (He _ i d).
  - intros i d Hd. by destruct (He _ i d).
  - intros i a Ha. by destruct (He _ i a).
  - split; [constructor|]. intros l Hl. by apply elem_of_nil in Hl.
Qed.

(** The versions of distinct elements have no addition in common. *)
Lemma versions_apart (s : add_state) (ls : list nat) :
  (forall l c, ag_cells s !! l = Some c -> version s l c) -> NoDup ls ->
  NoDup (omap (fun l => ag_cells s !! l) ls ≫= c_parts).
Proof.
  intros Hv. induction 1 as [|l ls Hl Hnd IH]; [constructor|]. cbn [omap list_omap].
  destruct (ag_cells s !! l) as [c|] eqn:Ec; [|done]. cbn [mbind list_bind]. apply NoDup_app. split_and!; [by apply (Hv l)| |done].
  intros j Hj (c' & Hj' & Hc')%list_elem_of_bind. apply list_elem_of_omap in Hc' as (l' & Hl' & Ec').
  destruct (v_done _ _ _ (Hv l c Ec) j Hj) as (d & Hd & <-). destruct (v_done _ _ _ (Hv l' c' Ec') j Hj') as (d' & Hd' & <-).
  by simplify_eq.
Qed.

(** C34: Additions to an aggregator from any number of workers, interleaved
    with one another and with clearings at the grain of the locks, of points
    that have a name and 64-bit counts.  Every element in the table or in a
    list that was handed out is made of additions that have returned, and
    its count is theirs, as a 64-bit integer; no addition is part of two
    elements or twice of one; and every addition that returned without
    having been under way at the same time as another or as a clearing is
    part of one. *)
Theorem additions_race (ls : list add_label) (s : add_state) :
  Forall label_ok ls -> add_exec farm_Hash64 res ag_start ls = Some s ->
  Forall (fun c => Count (c_elem c) = i64 (parts_count s (c_parts c)) /\
                   Forall (fun j => is_Some (ag_done s !! j)) (c_parts c)) (ag_elements s) /\
  NoDup (ag_elements s ≫= c_parts) /\
  forall j d, ag_done s !! j = Some d -> dn_met d = false -> j ∈ ag_elements s ≫= c_parts.
Proof.
  intros Hls Hr. destruct (add_exec_inv ls ag_start s add_inv_start Hls Hr) as [H1 H2 H3 H4 [H5 H6]]. split_and!.
  - apply Forall_forall. intros c (l & _ & Hc)%list_elem_of_omap. destruct (H1 l c Hc) as [V1 _ _ V4]. split; [done|].
    apply Forall_forall. intros j Hj. destruct (V4 j Hj) as (d & Hd & _). by eexists.
  - by apply versions_apart.
  - intros j d Hd Hm. destruct (H2 j (dn_at d)) as (Hl & c & Hc & Hj); [by exists d|].
    apply list_elem_of_bind. exists c. split; [done|]. apply list_elem_of_omap. by exists (dn_at d).
Qed.

End races.

End AddRaces.

(** ** Witnesses *)

#[local] Existing Instance insertion_GoSort.

Definition sample_stat (t mn mx : Z) : StatRepr :=
  mkRepr (Some (sample_name sample_tags)) t (float_of_Z mn) (float_of_Z mx) (float_of_Z mx)
    (float_of_Z (mn + mx)) 2.

Definition sample_stats : list StatRepr :=
  [sample_stat 1500000001 1 5; sample_stat 1500000003 2 9; sample_stat 1500000012 4 4].

Lemma sample_named : Forall named sample_stats.
Proof. repeat (constructor; [by eexists|]). constructor. Qed.

Lemma sample_well_ordered : Forall well_ordered sample_stats.
Proof.
  repeat (constructor; [split_and!; vm_compute; (reflexivity || discriminate)|]). constructor.
Qed.

Definition ten_seconds : Z := 10 * 10 ^ 9.

Lemma aggregator_groups_witness :
  exists sa, Add_all fnv64a (NewAggregator ten_seconds) sample_stats = Some sa /\
    forall k, Items sa !! k = group fnv64a ten_seconds (filter (fun s => key_of fnv64a ten_seconds s = k) sample_stats).
Proof. apply (aggregator_groups fnv64a ten_seconds sample_stats), sample_named. Defined.

Definition sample_key : string := key_of fnv64a ten_seconds (sample_stat 1500000001 1 5).

Lemma aggregator_summarises_witness :
  exists sa e, Add_all fnv64a (NewAggregator ten_seconds) sample_stats = Some sa /\
    Items sa !! sample_key = Some e /\
    summary e (filter (fun s => key_of fnv64a ten_seconds s = sample_key) sample_stats).
Proof.
  destruct (Add_all_grouped fnv64a sample_stats (NewAggregator ten_seconds) [])
    as (sa & E & Hres & Hg); [done|constructor|exact sample_named|].
  assert (Hne : filter (fun s => key_of fnv64a ten_seconds s = sample_key) sample_stats <> [])
    by (vm_compute; discriminate).
  assert (Hnf : Forall named (filter (fun s => key_of fnv64a ten_seconds s = sample_key) sample_stats)).
  { apply Forall_forall. intros x [_ Hx]%list_elem_of_filter.
    pose proof sample_named as Hn. rewrite Forall_forall in Hn. by apply Hn. }
  destruct (group_named fnv64a ten_seconds _ Hnf Hne) as (e & Ee & _).
  exists sa, e. assert (Hk : Items sa !! sample_key = Some e) by (rewrite (Hg sample_key), Hres; exact Ee).
  split_and!; [done|done|].
  exact (aggregator_summarises fnv64a ten_seconds sample_stats sample_key e sa
           sample_named sample_well_ordered E Hk).
Defined.

(** *** Additions that interleave *)

Import AddRaces.

Definition race_stat : StatRepr := sample_stat 1500000001 1 5.

(** Three additions after one another, the last of them after a clearing;
    two more at the same time, one of which is lost. *)
Definition race_steps : list add_label :=
  [ALook 0 race_stat; AInsert 0; ALook 1 race_stat; ALoad 1; AStore 1; AClear; ALook 2 race_stat; AInsert 2;
   ALook 3 race_stat; ALook 4 race_stat; ALoad 3; ALoad 4; AStore 3; AStore 4].

Definition race_view (s : add_state) : list (Z * list nat) * list (nat * bool) :=
  ((fun c => (Count (c_elem c), c_parts c)) <$> ag_elements s, (fun p => (p.1, dn_met p.2)) <$> map_to_list (ag_done s)).

Lemma additions_race_witness :
  exists s, add_exec fnv64a ten_seconds ag_start race_steps = Some s /\
    (race_view s).1 = [(4, [2; 4]%nat); (4, [0; 1]%nat)] /\
    (forall j d, ag_done s !! j = Some d -> dn_met d = false -> j ∈ ag_elements s ≫= c_parts).
Proof.
  assert (Hok : Forall label_ok race_steps).
  { repeat constructor; try (by eexists); vm_compute; (reflexivity || discriminate). }
  assert (Hr : is_Some (add_exec fnv64a ten_seconds ag_start race_steps)) by (vm_compute; by eexists).
  destruct Hr as [s Hr]. exists s. split; [exact Hr|]. split.
  - assert (Hv : (fun s => (race_view s).1) <$> add_exec fnv64a ten_seconds ag_start race_steps = Some [(4, [2; 4]%nat); (4, [0; 1]%nat)])
      by (vm_compute; reflexivity). rewrite Hr in Hv. by injection Hv.
  - apply (additions_race fnv64a ten_seconds race_steps s Hok Hr).
Defined.

Lemma multi_independent_witness :
  exists ma, multi_Add_all fnv64a (NewMulti [10 ^ 9; ten_seconds]) sample_stats = Some ma /\
    forall d, d ∈ [10 ^ 9; ten_seconds] ->
      multi_Get ma d = Add_all fnv64a (NewAggregator d) sample_stats /\ is_Some (multi_Get ma d).
Proof.
  apply (multi_independent fnv64a [10 ^ 9; ten_seconds] sample_stats); [|exact sample_named].
  apply (bool_decide_unpack _). vm_compute. reflexivity.
Defined.
