(* ===== verification/Splitter.v ===== *)
(** [splitter]: the parsers of incoming lines.  Each turns a line of its
    format into a [SplitItem] that carries the key the line is routed by,
    the time and the text.

    The items come from pools: [ProcessLine] takes what [Pool.Get]
    returned ([None] for a nil) and sets the fields the code sets, so an
    item keeps the other fields it had when it was put back.  The clock is
    an argument.  [time.Parse] and the regular expressions of [regexp],
    and [encoding/json], are arguments of the definitions that use them. *)
From S2P Require Import Prelude Bits Float64 GoStrings GoParse Tags Repr.

Open Scope Z_scope.

Definition DOUBLE_SPACE_SEPARATOR : string := "  ".

(** ** The interface *)

Inductive Phase := Parsed | AccumulatedParsed | Sent.
Inductive Origin := TCP | UDP | HTTP | Other.

#[export] Instance Phase_eq_dec : EqDecision Phase.
Proof. solve_decision. Defined.
#[export] Instance Origin_eq_dec : EqDecision Origin.
Proof. solve_decision. Defined.

(** The struct types that implement [SplitItem]. *)
Inductive ItemType := GraphiteSplitItem | StatsdSplitItem | CarbonTwoSplitItem | RegexSplitItem | JsonSplitItem.

#[export] Instance ItemType_eq_dec : EqDecision ItemType.
Proof. solve_decision. Defined.

(** The structs have these fields in common; a Statsd item has no
    [intime], and only the CarbonTwo item has [infields]. *)
Record SplitItem := mkItem {
  item_type : ItemType;
  inkey : string;
  inline : string;
  intime : Z;
  infields : list string;
  inphase : Phase;
  inorigin : Origin;
  inoname : string;
  item_tags : list (string * string)
}.

(** [new(T)]: the zero values are [Parsed] and [TCP]. *)
Definition new_item (ty : ItemType) : SplitItem :=
  mkItem ty "" "" zero_time [] Parsed TCP "" [].

Definition HasTime (g : SplitItem) : bool :=
  match item_type g with
  | StatsdSplitItem => false
  | RegexSplitItem => intime g =? zero_time
  | _ => true
  end.

Definition Timestamp (g : SplitItem) : Z :=
  match item_type g with StatsdSplitItem => zero_time | _ => intime g end.

Definition IsValid (g : SplitItem) : bool :=
  match item_type g with
  | JsonSplitItem => (0 <? String.length (inkey g))%nat
  | _ => (0 <? String.length (inline g))%nat
  end.

Definition SetPhase (g : SplitItem) (n : Phase) : SplitItem :=
  mkItem (item_type g) (inkey g) (inline g) (intime g) (infields g) n (inorigin g) (inoname g) (item_tags g).

Definition SetOrigin (g : SplitItem) (n : Origin) : SplitItem :=
  mkItem (item_type g) (inkey g) (inline g) (intime g) (infields g) (inphase g) n (inoname g) (item_tags g).

Definition SetOriginName (g : SplitItem) (n : string) : SplitItem :=
  mkItem (item_type g) (inkey g) (inline g) (intime g) (infields g) (inphase g) (inorigin g) n (item_tags g).

(** [getGraphiteItem] and its siblings: what the pool returned, or a new
    item. *)
Definition get_item (ty : ItemType) (pooled : option SplitItem) : SplitItem :=
  default (new_item ty) pooled.

(** [PutSplitItem]: the pool of the item's type gets it. *)
Definition Pools := ItemType -> list SplitItem.

Definition PutSplitItem (p : Pools) (item : SplitItem) : Pools :=
  fun ty => if decide (ty = item_type item) then item :: p ty else p ty.

(** A time in seconds, or in nanoseconds when it is too large for
    seconds. *)
Definition nano_or_second (i : Z) : Z := if i >? 2147483647 then i else i * 10 ^ 9.

(** [t.Unix()]. *)
Definition Unix (t : Z) : Z := t / 10 ^ 9.

(** ** Statsd: <key>:<value>|<type> *)

Definition StatsdSplitter_ProcessLine (pooled : option SplitItem) (line : string) : SplitItem + goerror :=
  match Split line COLON_SEPARATOR with
  | key :: _ :: _ =>
      let si := get_item StatsdSplitItem pooled in
      inl (mkItem StatsdSplitItem key line (intime si) (infields si) Parsed Other (inoname si) (item_tags si))
  | _ => inr (GoError ("Invalid Statsd line: " +:+ line))
  end.

(** ** Graphite: <key> <value> <time> <things> *)

Definition ErrBadGraphiteLine : goerror := GoError "Invalid Graphite/Space line".
Definition ErrBadGraphiteLineTime : goerror := GoError "Invalid Graphite Time Field".

Definition MinTimeDelta : Z := 362 * 24 * 60 * 60.

(** The map of bytes to replace is the package variable; [init] assigns a
    local variable of the same name, so it stays nil and has no key. *)
Definition GRAPHITE_REPLACER_BYTE_MAP : list (Ascii.ascii * Ascii.ascii) := [].

Fixpoint replace_bytes (m : list (Ascii.ascii * Ascii.ascii)) (bs : string) : string :=
  match bs with
  | EmptyString => ""
  | String b bs =>
      String (default b (snd <$> find (fun kv => bool_decide (kv.1 = b)) m)) (replace_bytes m bs)
  end.

Definition graphiteByteReplace (bs : string) : string :=
  let bs := replace_bytes GRAPHITE_REPLACER_BYTE_MAP (TrimSpace bs) in
  let bs := ReplaceAll bs ".." "." in
  ReplaceAll bs "==" "=".

Record GraphiteSplitter := mkGraphite {
  keyIndex : Z;
  timeIndex : Z;
  failOnBadTime : bool
}.

(** The values of a configuration that the splitters look at. *)
Inductive confval := ConfInt (n : Z) | ConfBool (b : bool) | ConfString (s : string) | ConfStrings (l : list string).

Definition conf_int (conf : gmap string confval) (k : string) (d : Z) : Z :=
  match conf !! k with Some (ConfInt n) => n | _ => d end.

Definition conf_bool (conf : gmap string confval) (k : string) (d : bool) : bool :=
  match conf !! k with Some (ConfBool b) => b | _ => d end.

Definition NewGraphiteSplitter (conf : gmap string confval) : GraphiteSplitter :=
  mkGraphite (conf_int conf "key_index" 0) (conf_int conf "time_index" 2)
             (conf_bool conf "fail_on_bad_time" true).

(** The time of the fields: [None] is the panic of a negative index. The
    difference of two int64 wraps; [float64] keeps its comparison with
    the bound. *)
Definition graphite_time (g : GraphiteSplitter) (now : Z) (graphiteArray : list string) : option (Z + goerror) :=
  if Z.of_nat (length graphiteArray) >? timeIndex g then
    text ← at_index graphiteArray (timeIndex g);
    match ParseInt text with
    | Some i =>
        let t := nano_or_second i in
        if failOnBadTime g && (Z.abs (i64 (Unix t - Unix now)) >? MinTimeDelta)
        then Some (inr ErrBadGraphiteLineTime) else Some (inl t)
    | None => if failOnBadTime g then Some (inr ErrBadGraphiteLineTime) else Some (inl zero_time)
    end
  else Some (inl zero_time).

Definition GraphiteSplitter_ProcessLine (g : GraphiteSplitter) (pooled : option SplitItem) (now : Z)
    (line : string) : option (SplitItem + goerror) :=
  let line := graphiteByteReplace line in
  let graphiteArray := Fields line in
  if Z.of_nat (length graphiteArray) >? keyIndex g then
    r ← graphite_time g now graphiteArray;
    match r with
    | inr err => Some (inr err)
    | inl t =>
        let gi := get_item GraphiteSplitItem pooled in
        key ← at_index graphiteArray (keyIndex g);
        Some (inl (mkItem GraphiteSplitItem key line t (infields gi) Parsed Other (inoname gi) (item_tags gi)))
    end
  else Some (inr ErrBadGraphiteLine).

(** ** OpenTSDB: put <key> <value> <time> <tag> <tag> *)

Definition OPENTSDB_CMD : string := "put ".
Definition errBadOpenTSDBLine : goerror := GoError "Invalid OpenTSDB line".

(** The inner splitter is zero but for its indices: it does not fail on a
    bad time. *)
Definition NewOpenTSDBSplitter : GraphiteSplitter := mkGraphite 0 2 false.

Definition OpenTSDBSplitter_ProcessLine (g : GraphiteSplitter) (pooled : option SplitItem) (now : Z)
    (line : string) : option (SplitItem + goerror) :=
  if (String.length line <? 4)%nat then Some (inr errBadOpenTSDBLine)
  else if bool_decide (String.substring 0 4 line = OPENTSDB_CMD)
  then GraphiteSplitter_ProcessLine g pooled now (String.substring 4 (String.length line - 4) line)
  else Some (inr errBadOpenTSDBLine).

(** ** Carbon2: <intrinsic_tags>  <meta_tags> <value> <timestamp> *)

Definition errCarbonTwoNotValid : goerror := GoError "Invalid Carbon2.0 line".

Definition CARBONTWO_REPLACER : list (string * string) :=
  [(".."%string, "."%string); (","%string, "_"%string); ("*"%string, "_"%string); ("("%string, "_"%string);
   (")"%string, "_"%string); ("{"%string, "_"%string); ("}"%string, "_"%string)].

(** The key and the values behind it. *)
Definition carbontwo_parts (line : string) : (string * list string) + goerror :=
  match Split line DOUBLE_SPACE_SEPARATOR with
  | [] | [_] =>
      let t_vs := Fields line in
      let l_f := length t_vs in
      if (l_f <? 3)%nat then inr errCarbonTwoNotValid
      else inl (GoStrings.Join (take (l_f - 2) t_vs) SPACE_SEPARATOR, drop (l_f - 2) t_vs)
  | key :: meta :: _ => inl (key, Fields meta)
  end.

(** [None] is the panic of a tag without an equal sign. *)
Definition carbontwo_tag (v : string) : option (string * string) :=
  match Split v EQUAL_SEPARATOR with
  | name :: val :: _ => Some (name, val)
  | _ => None
  end.

(** The tags are read when there are at least two. *)
Definition carbontwo_item (pooled : option SplitItem) (line key : string) (vals : list string) (t : Z)
    : option (SplitItem + goerror) :=
  otags ← (if (4 <=? length vals)%nat
           then mapM carbontwo_tag (take (length vals - 2) vals) else Some []);
  let gi := get_item CarbonTwoSplitItem pooled in
  Some (inl (mkItem CarbonTwoSplitItem key line t vals Parsed Other (inoname gi) otags)).

Definition CarbonTwoSplitter_ProcessLine (pooled : option SplitItem) (now : Z) (inline : string)
    : option (SplitItem + goerror) :=
  let line := Replacer_Replace CARBONTWO_REPLACER inline in
  match carbontwo_parts line with
  | inr err => Some (inr err)
  | inl (key, vals) =>
      let l_vals := length vals in
      if (l_vals <? 2)%nat then Some (inr errCarbonTwoNotValid)
      else
        intime_ ← vals !! (l_vals - 1)%nat;
        match ParseInt intime_ with
        | Some i =>
            if i <=? 0 then Some (inr errCarbonTwoNotValid)
            else carbontwo_item pooled line key vals (nano_or_second i)
        | None => carbontwo_item pooled line key vals now
        end
  end.

(** ** Regular expressions, JSON, and the registry *)

Section Registry.

(** [regexp.Regexp], its [FindAllSubmatch(line, -1)] ([None] is nil), and
    [time.Parse]; [json.Unmarshal] into one item and into a list, and
    [json.Marshal]. *)
Context {Regexp : Type} (FindAllSubmatch : Regexp -> string -> option (list (list string))).
Context (time_Parse : string -> string -> option Z).

Record RegExSplitter := mkRegEx {
  key_regex : Regexp;
  key_regex_names : list string;
  key_index : Z;
  time_index : Z;
  time_layout : string
}.

(** The last name of a kind wins; the zero value is 0. *)
Fixpoint name_index (want : string) (i found : Z) (names : list string) : Z :=
  match names with
  | [] => found
  | n :: names => name_index want (i + 1) (if bool_decide (n = want) then i else found) names
  end.

(** The configuration's regular expression is not a [confval]; [None]
    among the arguments is a missing key, and the type assertion panics. *)
Definition NewRegExSplitter (re : option Regexp) (conf : gmap string confval) : option RegExSplitter :=
  re ← re;
  match conf !! "regexpNames"%string with
  | Some (ConfStrings names) =>
      let mk layout := mkRegEx re names (name_index "Key" 0 0 names) (name_index "Timestamp" 0 0 names) layout in
      match conf !! "timeLayout"%string with
      | None => Some (mk ""%string)
      | Some (ConfString layout) => Some (mk layout)
      | Some _ => None
      end
  | _ => None
  end.

Definition RegExSplitter_ProcessLine (job : RegExSplitter) (pooled : option SplitItem) (line : string)
    : option (SplitItem + goerror) :=
  match FindAllSubmatch (key_regex job) line with
  | None => Some (inr (GoError "Regex not matched"))
  | Some matched =>
      m0 ← matched !! 0%nat;
      if Z.of_nat (length m0) <? key_index job + 1 then Some (inr (GoError "Named matches not found"))
      else
        key_param ← at_index m0 (key_index job + 1);
        t ← (if (time_index job >? 0) && (0 <? String.length (time_layout job))%nat then
               time_param ← at_index m0 (time_index job + 1);
               Some (default zero_time (time_Parse (time_layout job) time_param))
             else Some zero_time);
        if (0 <? String.length key_param)%nat then
          let ri := get_item RegexSplitItem pooled in
          Some (inl (mkItem RegexSplitItem key_param line t (infields ri) Parsed Other (inoname ri) (item_tags ri)))
        else Some (inr (GoError "Invalid Regex (cannot find key) line"))
  end.

(** [JsonStructSplitItem]; the tags in the order the map is visited. *)
Record JsonStruct := mkJson {
  js_Metric : string;
  js_Value : float64;
  js_Time : Z;
  js_Tags : list (string * string)
}.

Context (Unmarshal : string -> JsonStruct + goerror).
Context (UnmarshalList : string -> list JsonStruct + goerror).
Context (Marshal : JsonStruct -> string + goerror).

Definition errBadJsonLine : goerror := GoError "Invalid Json object".

(** An error of [Marshal] is returned with the item; its text is then
    empty. *)
Definition ParseJson (pooled : option SplitItem) (jItem : JsonStruct) : (SplitItem * option goerror) + goerror :=
  if (String.length (js_Metric jItem) =? 0)%nat then inr errBadJsonLine
  else
    let splItem := get_item JsonSplitItem pooled in
    let tags := if (0 <? length (js_Tags jItem))%nat then js_Tags jItem else item_tags splItem in
    let '(line, err) := match Marshal jItem with inl b => (b, None) | inr e => (""%string, Some e) end in
    inl (mkItem JsonSplitItem (js_Metric jItem) line (nano_or_second (js_Time jItem)) (infields splItem)
                (inphase splItem) (inorigin splItem) (inoname splItem) tags, err).

Definition JsonSplitter_ProcessLine (pooled : option SplitItem) (line : string)
    : (SplitItem * option goerror) + goerror :=
  match Unmarshal line with
  | inr err => inr err
  | inl j => ParseJson pooled j
  end.

(** The items parsed before the first error, and the error; the pool is
    asked once per item. *)
Fixpoint parse_jsons (pool : list (option SplitItem)) (jItems : list JsonStruct)
    (jsonitems : list SplitItem) : list SplitItem * option goerror :=
  match jItems with
  | [] => (jsonitems, None)
  | item :: rest =>
      match ParseJson (default None (head pool)) item with
      | inr err | inl (_, Some err) => (jsonitems, Some err)
      | inl (j, None) => parse_jsons (tail pool) rest (jsonitems ++ [j])
      end
  end.

Definition JsonSplitter_ProcessLines (pool : list (option SplitItem)) (line : string)
    : list SplitItem * option goerror :=
  match UnmarshalList line with
  | inr err => ([], Some err)
  | inl [] => ([], Some errBadJsonLine)
  | inl jItems => parse_jsons pool jItems []
  end.

Inductive Splitter :=
| TheStatsd
| TheGraphite (g : GraphiteSplitter)
| TheCarbonTwo
| TheRegEx (r : RegExSplitter)
| TheOpenTSDB (g : GraphiteSplitter)
| TheJson.

Definition NewSplitterItem (name : string) (re : option Regexp) (conf : gmap string confval)
    : option (Splitter + goerror) :=
  if bool_decide (name = "statsd"%string) then Some (inl TheStatsd)
  else if bool_decide (name = "graphite"%string) then Some (inl (TheGraphite (NewGraphiteSplitter conf)))
  else if bool_decide (name = "carbon2"%string) then Some (inl TheCarbonTwo)
  else if bool_decide (name = "regex"%string) then r ← NewRegExSplitter re conf; Some (inl (TheRegEx r))
  else if bool_decide (name = "opentsdb"%string) then Some (inl (TheOpenTSDB NewOpenTSDBSplitter))
  else if bool_decide (name = "json"%string) then Some (inl TheJson)
  else Some (inr (GoError ("Invalid splitter `" +:+ name +:+ "`"))).

Definition Splitter_Name (s : Splitter) : string :=
  match s with
  | TheStatsd => "statsd"
  | TheGraphite _ => "graphite"
  | TheCarbonTwo => "carbon2"
  | TheRegEx _ => "regex"
  | TheOpenTSDB _ => "opentsdb"
  | TheJson => "json"
  end.

(** The interface's [ProcessLine]; [None] is a panic.  A caller drops the
    item that comes with an error. *)
Definition ProcessLine (s : Splitter) (pooled : option SplitItem) (now : Z) (line : string)
    : option (SplitItem + goerror) :=
  match s with
  | TheStatsd => Some (StatsdSplitter_ProcessLine pooled line)
  | TheGraphite g => GraphiteSplitter_ProcessLine g pooled now line
  | TheCarbonTwo => CarbonTwoSplitter_ProcessLine pooled now line
  | TheRegEx r => RegExSplitter_ProcessLine r pooled line
  | TheOpenTSDB g => OpenTSDBSplitter_ProcessLine g pooled now line
  | TheJson =>
      Some match JsonSplitter_ProcessLine pooled line with
           | inl (j, None) => inl j
           | inl (_, Some err) | inr err => inr err
           end
  end.

End Registry.
