(* ===== verification/SplitterTheorems.v ===== *)
(** The splitters: what an accepted line gives, which lines are refused,
    and when parsing panics. *)
From S2P Require Import Prelude Bits Float64 GoStrings GoParse Tags Repr Splitter.

Open Scope Z_scope.

(** ** Statsd *)

Lemma split_from_head (c : Ascii.ascii) (cur s : string) :
  no_char c s = false ->
  exists k r rest, s = k +:+ (sep1 c +:+ r) /\ no_char c k = true /\
    split_from (sep1 c) 0 cur s = (cur +:+ k) :: rest /\ rest <> [].
Proof.
  revert cur. induction s as [|a s IH]; intros cur H; [done|]. cbn [no_char] in H.
  cbn [split_from]. unfold sep1 at 2. cbn [String.prefix].
  destruct (Ascii.ascii_dec c a) as [<-|Hne].
  - exists ""%string, s, (split_from (sep1 c) 0 "" s). rewrite GoStrings.prefix_nil, string_app_nil_r.
    split_and!; [done|done|done|apply split_from_nonempty].
  - rewrite bool_decide_false in H by congruence. cbn [negb andb] in H.
    destruct (IH (cur +:+ String a "") H) as (k & r & rest & -> & Hk & Hs & Hr).
    exists (String a k), r, rest. split_and!; [by rewrite !string_app_cons| |by rewrite Hs, <- string_app_assoc|done].
    cbn [no_char]. by rewrite bool_decide_false by congruence.
Qed.

Definition colon : Ascii.ascii := Ascii.ascii_of_N 58.

(** The Statsd splitter accepts a line exactly when it has a colon;
    the key is the text before the first one, and the item carries the
    line unchanged. *)
Theorem statsd_split_spec (pooled : option SplitItem) (line : string) :
  match StatsdSplitter_ProcessLine pooled line with
  | inl item =>
      (exists rest, line = inkey item +:+ ":" +:+ rest) /\ no_char colon (inkey item) = true /\
      inline item = line /\ IsValid item = true /\ HasTime item = false /\
      inphase item = Parsed /\ inorigin item = Other
  | inr _ => no_char colon line = true
  end.
Proof.
  unfold StatsdSplitter_ProcessLine, COLON_SEPARATOR. change ":"%string with (sep1 colon).
  destruct (no_char colon line) eqn:E.
  - by rewrite Split_no_char.
  - destruct (split_from_head colon "" line E) as (k & r & rest & -> & Hk & Hs & Hr). unfold Split. rewrite Hs.
    destruct rest as [|x rest]; [done|]. cbn [inkey inline inphase inorigin HasTime item_type].
    split_and!; [by exists r|done|done| |done|done|done].
    unfold IsValid. cbn [item_type inline]. apply Nat.ltb_lt. rewrite !string_length_app. simpl. lia.
Qed.

(** ** Graphite *)

(** The byte map is empty, so only the doubled dots and equal signs are
    replaced. *)
Lemma replace_bytes_nil (bs : string) : replace_bytes [] bs = bs.
Proof. induction bs as [|b bs IH]; [done|]. cbn [replace_bytes]. by rewrite IH. Qed.

Lemma graphiteByteReplace_eq (bs : string) :
  graphiteByteReplace bs = ReplaceAll (ReplaceAll (TrimSpace bs) ".." ".") "==" "=".
Proof. unfold graphiteByteReplace, GRAPHITE_REPLACER_BYTE_MAP. by rewrite replace_bytes_nil. Qed.

(** A line without doubled dots or equal signs keeps its words. *)
Lemma graphiteByteReplace_Fields (line : string) :
  Contains line ".." = false -> Contains line "==" = false -> Fields (graphiteByteReplace line) = Fields line.
Proof.
  intros Hd He. rewrite graphiteByteReplace_eq.
  rewrite (ReplaceAll_id _ ".."), (ReplaceAll_id _ "==") by (by apply Contains_TrimSpace).
  apply Fields_TrimSpace.
Qed.

Lemma at_index_word (line : string) (i : Z) (w : string) : at_index (Fields line) i = Some w -> is_word w.
Proof.
  unfold at_index. case_if; [done|]. intros H. by eapply Forall_lookup_1; [apply Fields_words|].
Qed.

(** A time the splitter does not refuse is near the clock. *)
Lemma near_clock (t now : Z) :
  - 2 ^ 63 <= t < 2 ^ 63 -> 0 <= now < 2 ^ 62 -> Z.abs (i64 (t - now)) <= MinTimeDelta ->
  Z.abs (t - now) <= MinTimeDelta.
Proof.
  intros Ht Hn. unfold MinTimeDelta. destruct (Z_lt_dec (t - now) (- 2 ^ 63)) as [Hl|Hl].
  - unfold swrap. rewrite <- (Z_mod_plus_full _ 1). rewrite Z.mod_small by lia. lia.
  - rewrite swrap_id by lia. done.
Qed.

Lemma nano_or_second_Unix (i : Z) :
  - 2 ^ 63 <= i < 2 ^ 63 -> - 2 ^ 63 <= Unix (nano_or_second i) < 2 ^ 63.
Proof.
  intros Hi. unfold Unix, nano_or_second. case_if.
  - split; [apply Z.div_le_lower_bound|apply Z.div_lt_upper_bound]; lia.
  - rewrite Z_div_mult by lia. lia.
Qed.

Lemma graphite_time_near (g : GraphiteSplitter) (now : Z) (arr : list string) (t : Z) :
  0 <= Unix now < 2 ^ 62 -> failOnBadTime g = true -> timeIndex g < Z.of_nat (length arr) ->
  graphite_time g now arr = Some (inl t) -> Z.abs (Unix t - Unix now) <= MinTimeDelta.
Proof.
  intros Hn Hf Hi. unfold graphite_time. rewrite Hf. replace (_ >? _) with true by (symmetry; bool_lia).
  destruct (at_index arr (timeIndex g)) as [text|]; cbn [mbind option_bind]; [|done].
  destruct (ParseInt text) as [i|] eqn:Ei; [|done]. cbn [andb]. case_if; [done|]. intros [= <-].
  apply ParseInt_range in Ei. apply near_clock; [by apply nano_or_second_Unix|done|lia].
Qed.

(** An item of the Graphite splitter is well formed: its key is the
    word at the key index, non-empty and without white space, its text is
    the cleaned line, it is valid, freshly parsed and of no origin, and,
    when bad times are refused and the line has a time field, its time is
    within the allowed distance of the clock. *)
Theorem graphite_split_item (g : GraphiteSplitter) (pooled : option SplitItem) (now : Z) (line : string)
    (item : SplitItem) :
  GraphiteSplitter_ProcessLine g pooled now line = Some (inl item) -> 0 <= Unix now < 2 ^ 62 ->
  is_word (inkey item) /\ at_index (Fields (inline item)) (keyIndex g) = Some (inkey item) /\
  inline item = graphiteByteReplace line /\ IsValid item = true /\ HasTime item = true /\
  inphase item = Parsed /\ inorigin item = Other /\
  (failOnBadTime g = true -> timeIndex g < Z.of_nat (length (Fields (inline item))) ->
   Z.abs (Unix (Timestamp item) - Unix now) <= MinTimeDelta).
Proof.
  intros H Hn. unfold GraphiteSplitter_ProcessLine in H. set (l := graphiteByteReplace line) in *.
  destruct (Z.of_nat (length (Fields l)) >? keyIndex g) eqn:Ek; [|done].
  destruct (graphite_time g now (Fields l)) as [[t|err]|] eqn:Et; cbn [mbind option_bind] in H; [|done|done].
  destruct (at_index (Fields l) (keyIndex g)) as [key|] eqn:Ekey; cbn [mbind option_bind] in H; [|done].
  injection H as <-. cbn [inkey inline inphase inorigin HasTime item_type Timestamp intime].
  split_and!; try done; [by eapply at_index_word|..].
  - unfold IsValid. cbn [item_type inline]. apply Nat.ltb_lt. destruct l; [|simpl; lia].
    unfold at_index in Ekey. by destruct (keyIndex g <? 0).
  - intros Hf Hi. by eapply graphite_time_near.
Qed.

Lemma graphite_time_total (g : GraphiteSplitter) (now : Z) (arr : list string) :
  0 <= timeIndex g -> exists r, graphite_time g now arr = Some r.
Proof.
  intros Hi. unfold graphite_time. case_if; [|by eexists]. bool_to_prop.
  destruct (at_index_Some arr (timeIndex g) ltac:(lia)) as (x & -> & _). cbn [mbind option_bind].
  destruct (ParseInt x); [destruct (_ && _)|destruct (failOnBadTime g)]; by eexists.
Qed.

(** The time field is there and is not a time near the clock. *)
Definition bad_time (g : GraphiteSplitter) (now : Z) (arr : list string) : Prop :=
  exists text, at_index arr (timeIndex g) = Some text /\
    match ParseInt text with
    | Some i => Z.abs (i64 (Unix (nano_or_second i) - Unix now)) > MinTimeDelta
    | None => True
    end.

Lemma graphite_time_err (g : GraphiteSplitter) (now : Z) (arr : list string) (e : goerror) :
  graphite_time g now arr = Some (inr e) ->
  e = ErrBadGraphiteLineTime /\ failOnBadTime g = true /\ bad_time g now arr.
Proof.
  unfold graphite_time, bad_time. case_if; [|done]. destruct (at_index arr (timeIndex g)) as [text|] eqn:Et; [|done].
  cbn [mbind option_bind]. destruct (ParseInt text) as [i|] eqn:Ei.
  - destruct (failOnBadTime g); cbn [andb]; [|done]. case_if; [|done]. intros [= <-].
    split_and!; [done|done|]. exists text. rewrite Ei. split; [done|lia].
  - case_if; [|done]. intros [= <-]. split_and!; [done|done|]. exists text. by rewrite Ei.
Qed.

Lemma graphite_time_ok (g : GraphiteSplitter) (now : Z) (arr : list string) (t : Z) :
  graphite_time g now arr = Some (inl t) -> failOnBadTime g = true -> ~ bad_time g now arr.
Proof.
  unfold graphite_time, bad_time. intros H Hf (text & Hat & Hbad). rewrite Hf, Hat in H.
  destruct (Z.of_nat (length arr) >? timeIndex g) eqn:E; bool_to_prop.
  - cbn [mbind option_bind] in H. destruct (ParseInt text) as [i|]; [|done]. cbn [andb] in H.
    by replace (_ >? _) with true in H by (symmetry; bool_lia).
  - unfold at_index in Hat. destruct (timeIndex g <? 0) eqn:E0; [done|]. bool_to_prop.
    apply lookup_lt_Some in Hat. lia.
Qed.

(** With indices that are not negative the Graphite splitter returns
    on every line, and it refuses a line exactly when the key field is
    missing, or bad times are refused and the time field is not a time
    near the clock. *)
Theorem graphite_split_errors (g : GraphiteSplitter) (pooled : option SplitItem) (now : Z) (line : string) :
  0 <= keyIndex g -> 0 <= timeIndex g ->
  let arr := Fields (graphiteByteReplace line) in
  exists r, GraphiteSplitter_ProcessLine g pooled now line = Some r /\
    (r = inr ErrBadGraphiteLine <-> Z.of_nat (length arr) <= keyIndex g) /\
    (r = inr ErrBadGraphiteLineTime <->
     keyIndex g < Z.of_nat (length arr) /\ failOnBadTime g = true /\ bad_time g now arr) /\
    (forall e, r = inr e -> e = ErrBadGraphiteLine \/ e = ErrBadGraphiteLineTime).
Proof.
  intros Hk Ht arr. unfold GraphiteSplitter_ProcessLine. fold arr. case_if; bool_to_prop.
  - destruct (graphite_time_total g now arr Ht) as ([t|err] & Hgt); rewrite Hgt; cbn [mbind option_bind].
    + destruct (at_index_Some arr (keyIndex g) ltac:(lia)) as (key & -> & _). cbn [mbind option_bind].
      eexists. split; [done|]. split; [split; [done|lia]|]. split; [|done]. split; [done|].
      intros (_ & Hf & Hb). by destruct (graphite_time_ok _ _ _ _ Hgt Hf).
    + destruct (graphite_time_err _ _ _ _ Hgt) as (-> & Hf & Hb). eexists. split; [done|].
      split; [split; [done|lia]|]. split; [|intros e [= <-]; by right]. split; [|done]. intros _.
      split; [lia|done].
  - eexists. split; [done|]. split; [done|]. split; [|intros e [= <-]; by left].
    split; [done|]. intros (? & _). lia.
Qed.

(** ** OpenTSDB *)

Lemma substring_0_app (p r : string) : String.substring 0 (String.length p) (p +:+ r) = p.
Proof. induction p as [|a p IH]; [by destruct r|]. rewrite string_app_cons. simpl. by rewrite IH. Qed.

Lemma substring_all (r : string) : String.substring 0 (String.length r) r = r.
Proof. induction r as [|a r IH]; [done|]. simpl. by rewrite IH. Qed.

(** The OpenTSDB splitter is the Graphite splitter behind the command;
    it keeps a line whose time is bad. *)
Lemma opentsdb_is_graphite (pooled : option SplitItem) (now : Z) (line : string) :
  OpenTSDBSplitter_ProcessLine NewOpenTSDBSplitter pooled now ("put " +:+ line) =
  GraphiteSplitter_ProcessLine (mkGraphite 0 2 false) pooled now line.
Proof.
  unfold OpenTSDBSplitter_ProcessLine. change ("put " +:+ line) with (OPENTSDB_CMD +:+ line).
  rewrite string_length_app. change (String.length OPENTSDB_CMD) with 4%nat.
  replace (4 + String.length line <? 4)%nat with false by (symmetry; apply Nat.ltb_ge; lia).
  rewrite bool_decide_true by apply (substring_0_app OPENTSDB_CMD line).
  replace (4 + String.length line - 4)%nat with (String.length line) by lia.
  unfold NewOpenTSDBSplitter. f_equal. change (OPENTSDB_CMD +:+ line) with ("put " +:+ line).
  cbn [String.append String.substring]. apply substring_all.
Qed.

(** ** Carbon2 *)

(** The words behind the key, and the key, come from the line; the time is
    positive or the clock's. *)
Lemma carbontwo_item_fields (pooled : option SplitItem) (line key : string) (vals : list string) (t : Z)
    (item : SplitItem) :
  carbontwo_item pooled line key vals t = Some (inl item) ->
  inkey item = key /\ inline item = line /\ intime item = t /\ infields item = vals /\
  inphase item = Parsed /\ inorigin item = Other /\
  (length (item_tags item) = 0 \/ length (item_tags item) = length vals - 2)%nat.
Proof.
  unfold carbontwo_item. case_if.
  - destruct (mapM _ _) as [otags|] eqn:Em; cbn [mbind option_bind]; [|done]. intros [= <-].
    split_and!; try done. right. cbn [item_tags]. apply length_mapM in Em. rewrite <- Em.
    rewrite length_take. lia.
  - cbn [mbind option_bind]. intros [= <-]. split_and!; try done. by left.
Qed.

(** A meta tag without an equal sign makes the Carbon2 splitter panic,
    when there are at least two of them. *)
Example carbontwo_split_panics :
  CarbonTwoSplitter_ProcessLine None 0 "mtype=count unit=jiff  host tag=b 12 1465866540" = None.
Proof. vm_compute. reflexivity. Qed.

(** A single meta tag is not recorded. *)
Example carbontwo_one_tag_dropped :
  (item_tags <$> (CarbonTwoSplitter_ProcessLine None 0 "mtype=count unit=jiff  host=a 12 1465866540" ≫=
     fun r => match r with inl i => Some i | inr _ => None end)) = Some [].
Proof. vm_compute. reflexivity. Qed.

(** ** Regular expressions *)

Section RegEx.
Context {Regexp : Type} (FindAllSubmatch : Regexp -> string -> option (list (list string))).
Context (time_Parse : string -> string -> option Z).

(** With the names of the groups as [SubexpNames] gives them, where the
    name at index [i] is that of group [i], the splitter reads the group
    behind the key's: it panics when the key's group is the last. *)
Lemma regex_key_last_panics (job : RegExSplitter) (pooled : option SplitItem) (line : string)
    (groups : list string) (more : list (list string)) :
  FindAllSubmatch (key_regex job) line = Some (groups :: more) ->
  0 <= key_index job -> Z.of_nat (length groups) = key_index job + 1 ->
  RegExSplitter_ProcessLine FindAllSubmatch time_Parse job pooled line = None.
Proof.
  intros Hm Hk Hl. unfold RegExSplitter_ProcessLine. rewrite Hm. cbn [lookup list_lookup mbind option_bind].
  rewrite Hl. if_false. unfold at_index. if_false. 
  by rewrite (lookup_ge_None_2 groups (Z.to_nat (key_index job + 1))) by lia.
Qed.

End RegEx.

(** ** Witnesses *)

Definition sample_split : SplitItem :=
  mkItem GraphiteSplitItem "a.b" "a.b 1 100 h=x" (100 * 10 ^ 9) [] Parsed Other "" [].

Lemma graphite_split_item_witness :
  is_word (inkey sample_split) /\ at_index (Fields (inline sample_split)) 0 = Some "a.b"%string /\
  inline sample_split = graphiteByteReplace " a..b 1 100 h==x " /\ IsValid sample_split = true /\
  HasTime sample_split = true /\ inphase sample_split = Parsed /\ inorigin sample_split = Other /\
  (true = true -> 2 < Z.of_nat (length (Fields (inline sample_split))) ->
   Z.abs (Unix (Timestamp sample_split) - Unix (50 * 10 ^ 9)) <= MinTimeDelta).
Proof.
  apply (graphite_split_item (mkGraphite 0 2 true) None (50 * 10 ^ 9) " a..b 1 100 h==x " sample_split).
  - vm_compute. reflexivity.
  - vm_compute. done.
Defined.

Lemma graphite_split_errors_witness :
  exists r, GraphiteSplitter_ProcessLine (mkGraphite 0 2 true) None 0 "a.b 1 x" = Some r /\
    (r = inr ErrBadGraphiteLine <-> Z.of_nat 3 <= 0) /\
    (r = inr ErrBadGraphiteLineTime <->
     0 < Z.of_nat 3 /\ true = true /\ bad_time (mkGraphite 0 2 true) 0 ["a.b"; "1"; "x"]%string) /\
    (forall e, r = inr e -> e = ErrBadGraphiteLine \/ e = ErrBadGraphiteLineTime).
Proof. apply (graphite_split_errors (mkGraphite 0 2 true) None 0 "a.b 1 x"); vm_compute; done. Defined.
