(* ===== verification/Formatter.v ===== *)
(** [accumulator/*_fmt.go]: the formatters, which print a metric in one of
    the line formats.

    A formatter writes through a pointer to the name: merging the
    accumulator's tags changes it, and the Carbon2 formatter also sets
    and sorts tags.  So a call returns the text and the name it leaves.
    The clock is an argument.

    What the formatters print, the splitter of the same format reads
    back: the key, the time and the tags survive. *)
From S2P Require Import Prelude Bits Float64 GoStrings GoParse GoFormat GoSort Tags Repr Splitter.
From S2P Require Import SplitterTheorems.

Open Scope Z_scope.

Definition DATAGRAM_SEPARATOR : string := "|#".
Definition NEWLINE_SEPARATOR : string := sep1 newline.

(** [int32(time.Now().Unix())] when no time is given. *)
Definition stamp (now tstamp : Z) : Z := if tstamp <=? 0 then i32 (Unix now) else tstamp.

Section formatters.
Context `{!GoSort}.

Definition GraphiteFormatter_Write (now : Z) (name : StatName) (val : float64) (tstamp : Z)
    (stats_type : string) (tags : option SortingTags) : string * StatName :=
  let tstamp := stamp now tstamp in
  let name := name_MergeMetric2Tags name tags in
  let buf := Key name +:+ " " +:+ FormatFloat val +:+ " " +:+ FormatInt tstamp in
  let buf := if negb (IsEmpty (Tags name))
             then buf +:+ SPACE_SEPARATOR +:+ WriteBytes (Tags name) EQUAL_SEPARATOR SPACE_SEPARATOR
             else buf in
  let buf := if negb (IsEmpty (MetaTags name))
             then let buf := if negb (IsEmpty (Tags name)) then buf +:+ SPACE_SEPARATOR else buf in
                  buf +:+ WriteBytes (MetaTags name) EQUAL_SEPARATOR SPACE_SEPARATOR
             else buf in
  (buf +:+ NEWLINE_SEPARATOR, name).

Definition statsd_type (stats_type : string) : string :=
  if bool_decide (stats_type = "g"%string) || bool_decide (stats_type = "gauge"%string) then "g"
  else if bool_decide (stats_type = "ms"%string) || bool_decide (stats_type = "rate"%string) then "ms"
  else "c".

(** The key without one prefix of each kind, wherever it occurs. *)
Definition statsd_key (key : string) : string :=
  ReplaceFirst (ReplaceFirst (ReplaceFirst key "stats.counters." "") "stats.gauges." "") "stats.timers." "".

Definition StatsdFormatter_Write (now : Z) (name : StatName) (val : float64) (tstamp : Z)
    (stats_type : string) (tags : option SortingTags) : string * StatName :=
  let stats_type := statsd_type stats_type in
  let name := name_MergeMetric2Tags name tags in
  let buf := statsd_key (Key name) +:+ ":" +:+ FormatFloat val +:+ "|" +:+ stats_type in
  let e_tags := IsEmpty (Tags name) in
  let buf := if negb e_tags
             then buf +:+ DATAGRAM_SEPARATOR +:+ WriteBytes (Tags name) COLON_SEPARATOR COMMA_SEPARATOR
             else buf in
  let buf := if negb (IsEmpty (MetaTags name))
             then buf +:+ (if negb e_tags then COMMA_SEPARATOR else DATAGRAM_SEPARATOR) +:+
                  WriteBytes (MetaTags name) COLON_SEPARATOR COMMA_SEPARATOR
             else buf in
  (buf +:+ NEWLINE_SEPARATOR, name).

Definition carbontwo_mtype (stats_type : string) : string :=
  if bool_decide (stats_type = "g"%string) || bool_decide (stats_type = "gauge"%string) then "gauge"
  else if bool_decide (stats_type = "ms"%string) || bool_decide (stats_type = "rate"%string) then "rate"
  else "count".

(** The unit is looked up with [Mtype], as the type is. *)
Definition CarbonTwoFormatter_Write (now : Z) (name : StatName) (val : float64) (tstamp : Z)
    (stats_type : string) (tags : option SortingTags) : string * StatName :=
  let tstamp := stamp now tstamp in
  let name := name_MergeMetric2Tags name tags in
  let tags_empty := IsEmpty (Tags name) in
  let '(mtype, name) :=
    let mtype := Mtype (Tags name) in
    if bool_decide (mtype = ""%string) then
      let mtype := carbontwo_mtype stats_type in
      (mtype, if negb tags_empty then set_tags name (Tags.Set_ (Tags name) "mtype" mtype) (MetaTags name) else name)
    else (mtype, name) in
  let '(unit, name) :=
    let unit := Mtype (Tags name) in
    if bool_decide (unit = ""%string) then
      ("jiff"%string, if negb tags_empty then set_tags name (Tags.Set_ (Tags name) "unit" "jiff") (MetaTags name) else name)
    else (unit, name) in
  let '(buf, name) :=
    if negb tags_empty then
      let name := set_tags name (sort_Sort tags_Less (Tags name)) (MetaTags name) in
      (WriteBytes (Tags name) EQUAL_SEPARATOR SPACE_SEPARATOR, name)
    else
      (WriteBytes [mkTag "mtype" mtype; mkTag "unit" unit; mkTag "what" (Key name)]
                  EQUAL_SEPARATOR SPACE_SEPARATOR, name) in
  let '(buf, name) :=
    if negb (IsEmpty (MetaTags name)) then
      let name := set_tags name (Tags name) (sort_Sort tags_Less (MetaTags name)) in
      (buf +:+ DOUBLE_SPACE_SEPARATOR +:+ WriteBytes (MetaTags name) EQUAL_SEPARATOR SPACE_SEPARATOR, name)
    else (buf, name) in
  let buf := buf +:+ SPACE_SEPARATOR +:+ FormatFloat val +:+ " " +:+ FormatInt tstamp in
  (buf +:+ NEWLINE_SEPARATOR, name).

Inductive FormatterItem := GraphiteFormatter | StatsdFormatter | CarbonTwoFormatter.

Definition NewFormatterItem (name : string) : FormatterItem + goerror :=
  if bool_decide (name = "graphite"%string) then inl GraphiteFormatter
  else if bool_decide (name = "statsd"%string) then inl StatsdFormatter
  else if bool_decide (name = "carbon2"%string) || bool_decide (name = "carbontwo"%string)
  then inl CarbonTwoFormatter
  else inr (GoError ("Invalid formatter " +:+ name)).

(** [FormatterItem.Write]. *)
Definition fmt_Write (f : FormatterItem) : Z -> StatName -> float64 -> Z -> string ->
    option SortingTags -> string * StatName :=
  match f with
  | GraphiteFormatter => GraphiteFormatter_Write
  | StatsdFormatter => StatsdFormatter_Write
  | CarbonTwoFormatter => CarbonTwoFormatter_Write
  end.

End formatters.

(** ** Theorems *)

Lemma WriteBytes_Join (s : SortingTags) (w t : string) :
  Tags.WriteBytes s w t = GoStrings.Join (map (fun x => Tag_Join x w) s) t.
Proof.
  induction s as [|x s IH]; [done|]. cbn [Tags.WriteBytes map]. rewrite IH. unfold Tag_Join at 1.
  destruct s as [|y s]; [simpl; by rewrite string_app_nil_r|].
  rewrite (Join_cons (Tag_Join x w)) by done. cbn [length Nat.ltb Nat.leb]. unfold Tag_Join at 1.
  by rewrite <- !string_app_assoc.
Qed.

Lemma Join_app (a b : list string) (sep : string) :
  a <> [] -> b <> [] -> GoStrings.Join (a ++ b) sep = GoStrings.Join a sep +:+ sep +:+ GoStrings.Join b sep.
Proof.
  intros Ha Hb. induction a as [|x a IH]; [done|]. destruct a as [|y a].
  - simpl app. by rewrite Join_cons.
  - change ((x :: y :: a) ++ b) with (x :: ((y :: a) ++ b)). rewrite !Join_cons, IH by done.
    by rewrite <- !string_app_assoc.
Qed.

(** ** Graphite *)

Definition eq_text (t : Tag) : string := Tag_Join t EQUAL_SEPARATOR.

(** The words of a Graphite line. *)
Definition graphite_words (name : StatName) (val : float64) (tstamp : Z) : list string :=
  [Key name; FormatFloat val; FormatInt tstamp] ++ map eq_text (Tags name ++ MetaTags name).

Lemma graphite_line (now : Z) (name : StatName) (val : float64) (tstamp : Z) (ty : string)
    (tags : option SortingTags) :
  let name' := name_MergeMetric2Tags name tags in
  Tags name' <> [] \/ MetaTags name' = [] ->
  GraphiteFormatter_Write now name val tstamp ty tags =
  (GoStrings.Join (graphite_words name' val (stamp now tstamp)) (sep1 space) +:+ sep1 newline, name').
Proof.
  intros name' Hmeta. unfold GraphiteFormatter_Write. fold name'. f_equal. unfold NEWLINE_SEPARATOR. f_equal.
  unfold graphite_words. set (ts := FormatInt (stamp now tstamp)). rewrite !WriteBytes_Join. fold eq_text.
  change SPACE_SEPARATOR with (sep1 space). change " "%string with (sep1 space).
  rewrite map_app. assert (Hb : Key name' +:+ sep1 space +:+ FormatFloat val +:+ sep1 space +:+ ts =
    GoStrings.Join [Key name'; FormatFloat val; ts] (sep1 space)) by done. rewrite Hb.
  destruct (Tags name') as [|t tl] eqn:Et.
  - destruct Hmeta as [|Hm]; [done|]. rewrite Hm. done.
  - assert (Ht : map eq_text (t :: tl) <> []) by done. cbn [IsEmpty length Nat.eqb negb].
    change (map (fun x => Tag_Join x EQUAL_SEPARATOR)) with (map eq_text).
    destruct (MetaTags name') as [|m ml] eqn:Em.
    + cbn [IsEmpty length Nat.eqb negb map]. rewrite app_nil_r. by rewrite Join_app.
    + assert (Hml : map eq_text (m :: ml) <> []) by done. cbn [IsEmpty length Nat.eqb negb].
      rewrite (Join_app [_; _; _]) by done. rewrite (Join_app (map eq_text (t :: tl))) by done.
      by rewrite <- !string_app_assoc.
Qed.

(** Words in which neither dots nor equal signs are doubled. *)
Definition clean_word (w : string) : Prop :=
  is_word w /\ Contains w (doubled dot) = false /\ Contains w (doubled equals) = false.

Lemma FormatInt_clean (n : Z) : clean_word (FormatInt n).
Proof.
  assert (Hc : forall c, isdig c = false -> code c <> 45 -> no_char c (FormatInt n) = true).
  { intros c Hc H45. unfold FormatInt. case_if.
    - apply no_char_app_true; [|by apply isdig_no_char, FormatUint_digits; [|lia]].
      cbn [no_char]. rewrite bool_decide_false; [done|]. by intros <-.
    - by apply isdig_no_char, FormatUint_digits; [|lia]. }
  split; [apply FormatInt_word|]. split; apply Contains_doubled_no_char, Hc; done.
Qed.

Lemma FormatFloat_clean (f : float64) : clean_word (FormatFloat f).
Proof.
  split; [apply FormatFloat_word|]. split; [apply FormatFloat_dots|].
  by apply Contains_doubled_no_char, FormatFloat_no_char.
Qed.

Lemma graphite_words_clean (name : StatName) (val : float64) (tstamp : Z) :
  clean_word (Key name) -> Forall (fun t => clean_word (eq_text t)) (Tags name ++ MetaTags name) ->
  Forall clean_word (graphite_words name val tstamp).
Proof.
  intros Hk Ht. unfold graphite_words. apply Forall_app. split.
  - constructor; [done|]. constructor; [apply FormatFloat_clean|]. constructor; [apply FormatInt_clean|constructor].
  - by apply Forall_fmap.
Qed.

Lemma clean_line_Fields (ws : list string) :
  Forall clean_word ws ->
  Fields (graphiteByteReplace (GoStrings.Join ws (sep1 space) +:+ sep1 newline)) = ws.
Proof.
  intros Hw. assert (Hd : forall d, d <> space -> d <> newline ->
    Forall (fun w => Contains w (doubled d) = false) ws ->
    Contains (GoStrings.Join ws (sep1 space) +:+ sep1 newline) (doubled d) = false).
  { intros d Hs Hn Hf. unfold sep1 at 2. rewrite Contains_doubled_sep by done.
    by rewrite Contains_doubled_Join by done. }
  rewrite graphiteByteReplace_Fields.
  - apply Fields_Join_line. eapply Forall_impl; [exact Hw|]. by intros w [? _].
  - apply (Hd dot); [done|done|]. eapply Forall_impl; [exact Hw|]. by intros w (_ & ? & _).
  - apply (Hd equals); [done|done|]. eapply Forall_impl; [exact Hw|]. by intros w (_ & _ & ?).
Qed.

Section graphite.
Context (now clock : Z) (name : StatName) (val : float64) (tstamp : Z) (ty : string) (tags : option SortingTags).

Let name' := name_MergeMetric2Tags name tags.
Let line := (GraphiteFormatter_Write now name val tstamp ty tags).1.

Lemma graphite_line_split (pooled : option SplitItem) :
  clean_word (Key name') -> Forall (fun t => clean_word (eq_text t)) (Tags name' ++ MetaTags name') ->
  Tags name' <> [] \/ MetaTags name' = [] ->
  0 < tstamp < 2 ^ 31 -> Z.abs (tstamp - Unix clock) <= MinTimeDelta ->
  exists item,
    GraphiteSplitter_ProcessLine (NewGraphiteSplitter ∅) pooled clock line = Some (inl item) /\
    inkey item = Key name' /\ Timestamp item = tstamp * 10 ^ 9 /\
    Fields (inline item) =
      [Key name'; FormatFloat val; FormatInt tstamp] ++ map eq_text (Tags name' ++ MetaTags name').
Proof.
  intros Hk Ht Hm Hts Hnear. unfold line. rewrite graphite_line by done. cbn [fst]. fold name'.
  replace (stamp now tstamp) with tstamp by (unfold stamp; by if_false).
  pose proof (clean_line_Fields _ (graphite_words_clean name' val tstamp Hk Ht)) as Hf.
  unfold GraphiteSplitter_ProcessLine. rewrite Hf.
  change (keyIndex (NewGraphiteSplitter ∅)) with 0.
  replace (Z.of_nat (length (graphite_words name' val tstamp)) >? 0) with true
    by (symmetry; unfold graphite_words; rewrite length_app; simpl; bool_lia).
  assert (Hgt : graphite_time (NewGraphiteSplitter ∅) clock (graphite_words name' val tstamp) =
                Some (inl (tstamp * 10 ^ 9))).
  { unfold graphite_time. change (timeIndex (NewGraphiteSplitter ∅)) with 2.
    replace (Z.of_nat (length (graphite_words name' val tstamp)) >? 2) with true
      by (symmetry; unfold graphite_words; rewrite length_app; simpl; bool_lia).
    change (at_index (graphite_words name' val tstamp) 2) with (Some (FormatInt tstamp)).
    cbn [mbind option_bind]. rewrite ParseInt_FormatInt by lia.
    change (failOnBadTime (NewGraphiteSplitter ∅)) with true.
    unfold nano_or_second. replace (tstamp >? 2147483647) with false by (symmetry; bool_lia).
    unfold Unix at 1. rewrite Z_div_mult by lia.
    rewrite swrap_id by (unfold MinTimeDelta in Hnear; pose proof (Z.abs_le (tstamp - Unix clock) MinTimeDelta); unfold MinTimeDelta in *; lia).
    cbn [andb]. by if_false. }
  rewrite Hgt. cbn [mbind option_bind].
  change (at_index (graphite_words name' val tstamp) 0) with (Some (Key name')). cbn [mbind option_bind].
  eexists. split; [done|]. split_and!; [done|done|]. exact Hf.
Qed.

(** A line the Graphite formatter prints is accepted by the Graphite
    splitter, with the key, the second and all the words the formatter
    wrote, when the name is made of clean words, its tags are not meta
    tags only, and the time is near the splitter's clock. *)
Theorem graphite_format_split (pooled : option SplitItem) :
  clean_word (Key name') -> Forall (fun t => clean_word (eq_text t)) (Tags name' ++ MetaTags name') ->
  Tags name' <> [] \/ MetaTags name' = [] ->
  0 < tstamp < 2 ^ 31 -> Z.abs (tstamp - Unix clock) <= MinTimeDelta ->
  exists item,
    GraphiteSplitter_ProcessLine (NewGraphiteSplitter ∅) pooled clock line = Some (inl item) /\
    inkey item = Key name' /\ Timestamp item = tstamp * 10 ^ 9 /\
    Fields (inline item) =
      [Key name'; FormatFloat val; FormatInt tstamp] ++ map eq_text (Tags name' ++ MetaTags name').
Proof. apply graphite_line_split. Qed.

End graphite.

(** A line whose tags are all meta tags is refused: no space separates
    the time from the first of them. *)
Example graphite_meta_only_refused :
  let name := mkName "a.b" 0 "" 0 0 TAG_METRICS2 HASH_FNV [] [mkTag "host" "h1"] in
  let line := (GraphiteFormatter_Write 0 name (float_of_Z 3) 1500000000 "c" None).1 in
  GraphiteSplitter_ProcessLine (NewGraphiteSplitter ∅) None (1500000000 * 10 ^ 9) line =
  Some (inr ErrBadGraphiteLineTime).
Proof. vm_compute. reflexivity. Qed.

(** ** Statsd *)

(** The Statsd splitter reads the formatter's key back, without the
    prefixes the formatter removes. *)
Lemma statsd_format_split (now : Z) (name : StatName) (val : float64) (tstamp : Z) (ty : string)
    (tags : option SortingTags) (pooled : option SplitItem) :
  let name' := name_MergeMetric2Tags name tags in
  no_char colon (statsd_key (Key name')) = true ->
  exists item, StatsdSplitter_ProcessLine pooled (StatsdFormatter_Write now name val tstamp ty tags).1 = inl item /\
    inkey item = statsd_key (Key name').
Proof.
  intros name' Hk. unfold StatsdFormatter_Write. fold name'. cbn [fst].
  match goal with |- context [StatsdSplitter_ProcessLine _ ?l] => set (line := l) end.
  assert (Hl : exists r, line = statsd_key (Key name') +:+ (sep1 colon +:+ r)).
  { unfold line. change ":"%string with (sep1 colon).
    repeat case_if; rewrite <- ?string_app_assoc; by eexists. }
  destruct Hl as (r & ->). unfold StatsdSplitter_ProcessLine, COLON_SEPARATOR, Split.
  change ":"%string with (sep1 colon). rewrite split_from_no_char by done. unfold sep1 at 2.
  rewrite string_app_cons, !string_app_nil_l. cbn [split_from]. unfold sep1 at 1. cbn [String.prefix].
  destruct (Ascii.ascii_dec colon colon); [|done]. rewrite GoStrings.prefix_nil.
  destruct (split_from (sep1 colon) (String.length (sep1 colon) - 1) "" r) as [|x rest] eqn:E.
  { by apply split_from_nonempty in E. }
  by eexists.
Qed.

(** ** Carbon2 *)

(** The characters the Carbon2 splitter replaces. *)
Definition replaced_char (a : Ascii.ascii) : bool :=
  existsb (fun c => code a =? c) [44; 42; 40; 41; 123; 125].

Definition kept_char (a : Ascii.ascii) : bool := negb (replaced_char a).

Lemma prefix1 (x a : Ascii.ascii) (s : string) : String.prefix (String x "") (String a s) = bool_decide (x = a).
Proof.
  cbn [String.prefix]. destruct (Ascii.ascii_dec x a) as [->|]; [by rewrite GoStrings.prefix_nil, bool_decide_true|].
  by rewrite bool_decide_false.
Qed.

Lemma Replacer_id (s : string) :
  Contains s (doubled dot) = false -> all_chars kept_char s = true -> Replacer_Replace CARBONTWO_REPLACER s = s.
Proof.
  unfold Replacer_Replace. induction s as [|a s IH]; intros Hd Hc; [done|].
  cbn [Contains] in Hd. apply orb_false_iff in Hd as [Hp Hd]. cbn [all_chars] in Hc.
  apply andb_true_iff in Hc as [Ha Hc]. cbn [replacer_from].
  assert (Hx : forall x, replaced_char x = true -> String.prefix (String x "") (String a s) = false).
  { intros x Hx. rewrite prefix1, bool_decide_eq_false. intros ->. unfold kept_char in Ha. by rewrite Hx in Ha. }
  replace (first_old CARBONTWO_REPLACER (String a s)) with (@None (string * string)).
  2:{ unfold CARBONTWO_REPLACER, first_old. change ".."%string with (doubled dot). rewrite Hp.
      by rewrite !Hx. }
  by rewrite IH.
Qed.

(** Words the Carbon2 splitter leaves alone. *)
Definition plain_word (w : string) : Prop :=
  is_word w /\ Contains w (doubled dot) = false /\ all_chars kept_char w = true.

Lemma FormatFloat_plain (f : float64) : plain_word (FormatFloat f).
Proof.
  split; [apply FormatFloat_word|]. split; [apply FormatFloat_dots|].
  eapply all_chars_impl, FormatFloat_chars. intros a Ha. unfold kept_char, replaced_char. apply negb_true_iff.
  unfold float_char, isdig in Ha. apply not_true_iff_false. intros Hx. cbn [existsb] in Hx.
  assert (Hcode : code a = 44 \/ code a = 42 \/ code a = 40 \/ code a = 41 \/ code a = 123 \/ code a = 125).
  { rewrite !orb_true_iff in Hx. rewrite !Z.eqb_eq in Hx. naive_solver. }
  rewrite !orb_true_iff, andb_true_iff, !Z.leb_le, bool_decide_eq_true in Ha. cbn [existsb] in Ha.
  rewrite !orb_true_iff, !Z.eqb_eq in Ha. destruct Ha as [[Ha| ->]|Ha]; [lia| |naive_solver lia].
  vm_compute in Hcode. naive_solver.
Qed.

Lemma FormatInt_plain (n : Z) : plain_word (FormatInt n).
Proof.
  destruct (FormatInt_clean n) as (Hw & Hd & _). split; [done|]. split; [done|].
  assert (Hdig : forall a, isdig a = true -> kept_char a = true).
  { intros a Ha. unfold isdig in Ha. unfold kept_char, replaced_char. cbn [existsb]. bool_to_prop.
    rewrite !(proj2 (Z.eqb_neq _ _)) by lia. done. }
  assert (Hu : forall m, 0 <= m -> all_chars kept_char (FormatUint m 10) = true).
  { intros m Hm. by eapply all_chars_impl, FormatUint_digits. }
  unfold FormatInt. case_if; [rewrite all_chars_app|]; rewrite Hu by lia; done.
Qed.

(** The text in front of the first separator, when no separator begins in
    it. *)
Lemma split_from_sep2 (c : Ascii.ascii) (cur a b : string) :
  Contains (a +:+ String c "") (doubled c) = false ->
  split_from (doubled c) 0 cur (a +:+ doubled c +:+ b) = (cur +:+ a) :: split_from (doubled c) 0 "" b.
Proof.
  revert cur. induction a as [|x a IH]; intros cur H.
  - rewrite string_app_nil_l, string_app_nil_r. unfold doubled at 2. rewrite !string_app_cons, string_app_nil_l.
    cbn [split_from]. unfold doubled at 1. cbn [String.prefix]. destruct (Ascii.ascii_dec c c); [|done].
    rewrite GoStrings.prefix_nil. done.
  - rewrite string_app_cons in *. cbn [Contains] in H. apply orb_false_iff in H as [Hp H].
    cbn [split_from]. replace (String.prefix (doubled c) (String x (a +:+ doubled c +:+ b))) with false.
    + rewrite IH by done. by rewrite <- string_app_assoc.
    + symmetry. unfold doubled in *. cbn [String.prefix] in *. destruct (Ascii.ascii_dec c x); [|done].
      destruct a as [|y a]; rewrite ?string_app_nil_l, ?string_app_cons in *; cbn [String.prefix] in *.
      * by destruct (Ascii.ascii_dec c c); [rewrite ?GoStrings.prefix_nil in Hp|].
      * destruct (Ascii.ascii_dec c y); [|done]. by rewrite GoStrings.prefix_nil in Hp.
Qed.

Lemma split_from_sep2_none (c : Ascii.ascii) (cur s : string) :
  Contains s (doubled c) = false -> split_from (doubled c) 0 cur s = [cur +:+ s].
Proof.
  revert cur. induction s as [|x s IH]; intros cur H; [by rewrite string_app_nil_r|].
  cbn [Contains] in H. apply orb_false_iff in H as [Hp H]. cbn [split_from]. rewrite Hp, IH by done.
  by rewrite <- string_app_assoc.
Qed.

(** Words have no space, so words joined by one have no two in a row. *)
Lemma word_no_char (c : Ascii.ascii) (w : string) :
  (forall w', space_len (String c w') <> 0%nat) -> is_word w -> no_char c w = true.
Proof.
  intros Hc [_ H]. induction w as [|a w IH]; [done|]. cbn [no_space] in H. apply andb_true_iff in H as [H0 H].
  cbn [no_char]. rewrite IH, andb_true_r by done. apply negb_true_iff, bool_decide_eq_false. intros ->.
  by apply Nat.eqb_eq, Hc in H0.
Qed.

Lemma word_no_space_char (w : string) : is_word w -> no_char space w = true.
Proof. by apply word_no_char. Qed.

Lemma Join_words_spaces (ws : list string) :
  ws <> [] -> Forall is_word ws ->
  Contains (GoStrings.Join ws (sep1 space) +:+ sep1 space) (doubled space) = false.
Proof.
  intros Hne Hw. induction Hw as [|w ws Hw Hws IH]; [done|]. pose proof (word_no_space_char w Hw) as Hs.
  destruct ws as [|w' ws].
  - cbn [GoStrings.Join]. by apply Contains_doubled_once.
  - rewrite Join_cons by done. unfold sep1 at 1. rewrite string_app_cons, string_app_nil_l.
    specialize (IH ltac:(done)). set (r := GoStrings.Join (w' :: ws) (sep1 space)) in *.
    assert (Hr : exists x r', r +:+ sep1 space = String x r' /\ x <> space).
    { apply Forall_cons in Hws as [Hw' _]. pose proof (word_no_space_char w' Hw') as Hs'. destruct Hw' as [Hne' _].
      destruct w' as [|x w']; [done|]. unfold r. cbn [no_char] in Hs'. apply andb_true_iff in Hs' as [Hx _].
      apply negb_true_iff, bool_decide_eq_false in Hx.
      destruct ws as [|w'' ws]; [cbn [GoStrings.Join]|rewrite Join_cons by done];
        rewrite ?string_app_cons; by eexists _, _. }
    destruct Hr as (x & r' & Hr & Hx). rewrite <- string_app_assoc, string_app_cons.
    rewrite Hr in *. clear - Hs IH Hx. induction w as [|a w IHw].
    + rewrite string_app_nil_l, Contains_cons, IH, orb_false_r. unfold doubled. cbn [String.prefix].
      destruct (Ascii.ascii_dec space space); [|done]. by destruct (Ascii.ascii_dec space x) as [Heq|]; [congruence|].
    + cbn [no_char] in Hs. apply andb_true_iff in Hs as [Ha Hs]. apply negb_true_iff, bool_decide_eq_false in Ha.
      rewrite string_app_cons, Contains_doubled_cons by done. by apply IHw.
Qed.

Lemma IsEmpty_true (s : SortingTags) : IsEmpty s = true -> s = [].
Proof. unfold IsEmpty. intros H. apply Nat.eqb_eq in H. by destruct s. Qed.

Section carbontwo.
Context `{!GoSort}.
Context (now clock : Z) (name : StatName) (val : float64) (tstamp : Z) (ty : string) (tags : option SortingTags).

Let name1 := name_MergeMetric2Tags name tags.

(** The tags the formatter writes in front: those of the name with a type
    set when it had none, or the type, a unit and the key when it has no
    tags. *)
Definition written_tags : SortingTags :=
  let mtype := if bool_decide (Mtype (Tags name1) = ""%string) then carbontwo_mtype ty else Mtype (Tags name1) in
  if IsEmpty (Tags name1) then [mkTag "mtype" mtype; mkTag "unit" "jiff"; mkTag "what" (Key name1)]
  else
    let t1 := if bool_decide (Mtype (Tags name1) = ""%string) then Tags.Set_ (Tags name1) "mtype" mtype
              else Tags name1 in
    let t2 := if bool_decide (Mtype t1 = ""%string) then Tags.Set_ t1 "unit" "jiff" else t1 in
    sort_Sort tags_Less t2.

Definition written_meta : SortingTags :=
  if IsEmpty (MetaTags name1) then [] else sort_Sort tags_Less (MetaTags name1).

Lemma carbontwo_line :
  (CarbonTwoFormatter_Write now name val tstamp ty tags).1 =
  GoStrings.Join (map eq_text written_tags) (sep1 space) +:+
  (if IsEmpty (MetaTags name1) then ""%string
   else doubled space +:+ GoStrings.Join (map eq_text written_meta) (sep1 space)) +:+
  sep1 space +:+ FormatFloat val +:+ sep1 space +:+ FormatInt (stamp now tstamp) +:+ sep1 newline.
Proof.
  unfold CarbonTwoFormatter_Write, written_tags, written_meta. fold name1.
  destruct (IsEmpty (Tags name1)) eqn:Ee.
  - apply IsEmpty_true in Ee. rewrite Ee. change (Mtype []) with ""%string.
    rewrite (bool_decide_true (""%string = ""%string)) by done. cbn [negb]. rewrite Ee. change (Mtype []) with ""%string.
    rewrite (bool_decide_true (""%string = ""%string)) by done. cbn [negb].
    destruct (IsEmpty (MetaTags name1)); cbn [negb fst]; rewrite !WriteBytes_Join, <- !string_app_assoc; done.
  - cbn [negb]. set (mt := carbontwo_mtype ty).
    assert (Hm : Mtype (Tags name1) <> ""%string \/ Mtype (Tags name1) = ""%string) by (destruct (decide (Mtype (Tags name1) = ""%string)); tauto).
    destruct Hm as [Hm|Hm].
    + rewrite !(bool_decide_false (Mtype (Tags name1) = ""%string)) by done.
      destruct (IsEmpty (MetaTags name1)) eqn:Em; cbn [negb fst set_tags Tags MetaTags]; rewrite ?Em; cbn [negb fst];
        rewrite !WriteBytes_Join, <- !string_app_assoc; done.
    + rewrite !(bool_decide_true (Mtype (Tags name1) = ""%string)) by done. cbn [set_tags Tags MetaTags].
      destruct (bool_decide (Mtype (Tags.Set_ (Tags name1) "mtype" mt) = ""%string));
      destruct (IsEmpty (MetaTags name1)) eqn:Em; cbn [negb fst set_tags Tags MetaTags]; rewrite ?Em; cbn [negb fst];
        rewrite !WriteBytes_Join, <- !string_app_assoc; done.
Qed.

Lemma plain_Join_Replacer (a b : list string) (sep : string) (c : Ascii.ascii) :
  Forall plain_word a -> Forall plain_word b -> sep = ""%string \/ sep = sep1 space \/ sep = doubled space ->
  c <> dot -> kept_char c = true ->
  let s := GoStrings.Join a (sep1 space) +:+ String c (sep +:+ GoStrings.Join b (sep1 space) +:+ sep1 newline) in
  Replacer_Replace CARBONTWO_REPLACER s = s.
Proof.
  intros Ha Hb Hsep Hc Hk s.
  assert (Hd : forall ws, Forall plain_word ws -> Contains (GoStrings.Join ws (sep1 space)) (doubled dot) = false).
  { intros ws Hws. apply Contains_doubled_Join; [done|]. eapply Forall_impl; [exact Hws|]. by intros w (_ & ? & _). }
  assert (Hch : forall ws, Forall plain_word ws -> all_chars kept_char (GoStrings.Join ws (sep1 space)) = true).
  { intros ws Hws. induction Hws as [|w ws (_ & _ & Hw) Hws IH]; [done|]. destruct ws; [done|].
    rewrite Join_cons by done. by rewrite !all_chars_app, Hw, IH. }
  apply Replacer_id; unfold s.
  - rewrite Contains_doubled_sep by done. rewrite Hd by done. cbn [orb].
    assert (Hn : Contains (GoStrings.Join b (sep1 space) +:+ sep1 newline) (doubled dot) = false).
    { unfold sep1 at 2. rewrite Contains_doubled_sep by done. by rewrite Hd. }
    destruct Hsep as [->|[->| ->]]; unfold sep1 at 1, doubled at 1; rewrite ?string_app_cons, ?string_app_nil_l;
      rewrite ?Contains_doubled_cons by done; done.
  - rewrite all_chars_app, Hch by done. cbn [all_chars andb]. rewrite Hk. rewrite !all_chars_app, Hch by done.
    by destruct Hsep as [->|[->| ->]].
Qed.

Lemma carbontwo_tag_text (t : Tag) :
  no_char equals (tag_Name t) = true -> no_char equals (tag_Value t) = true ->
  carbontwo_tag (eq_text t) = Some (tag_Name t, tag_Value t).
Proof.
  intros Hn Hv. unfold carbontwo_tag, eq_text, Tag_Join, EQUAL_SEPARATOR. change "="%string with (sep1 equals).
  change (tag_Name t +:+ sep1 equals +:+ tag_Value t) with
    (GoStrings.Join [tag_Name t; tag_Value t] (sep1 equals)).
  rewrite Split_Join; [done|done|]. by repeat constructor.
Qed.

Lemma carbontwo_tags_text (ts : SortingTags) :
  Forall (fun t => no_char equals (tag_Name t) = true /\ no_char equals (tag_Value t) = true) ts ->
  mapM carbontwo_tag (map eq_text ts) = Some (map (fun t => (tag_Name t, tag_Value t)) ts).
Proof.
  induction 1 as [|t ts [Hn Hv] _ IH]; [done|]. cbn [map mapM]. rewrite carbontwo_tag_text by done.
  cbn [mbind option_bind mret option_ret]. by rewrite IH.
Qed.

(** What is behind the tags: the meta tags, the value and the time. *)
Definition written_vals : list string :=
  map eq_text written_meta ++ [FormatFloat val; FormatInt (stamp now tstamp)].

Lemma carbontwo_line_sep :
  (CarbonTwoFormatter_Write now name val tstamp ty tags).1 =
  GoStrings.Join (map eq_text written_tags) (sep1 space) +:+
  (if IsEmpty (MetaTags name1) then sep1 space else doubled space) +:+
  GoStrings.Join written_vals (sep1 space) +:+ sep1 newline.
Proof.
  rewrite carbontwo_line. f_equal. unfold written_vals, written_meta. fold name1.
  destruct (IsEmpty (MetaTags name1)) eqn:Em.
  - rewrite string_app_nil_l. cbn [map app GoStrings.Join]. by rewrite <- !string_app_assoc.
  - assert (Hne : map eq_text (sort_Sort tags_Less (MetaTags name1)) <> []).
    { intros Hnil. pose proof (sort_perm _ tags_Less (MetaTags name1)) as Hp.
      apply map_eq_nil in Hnil. rewrite Hnil in Hp. apply Permutation_nil in Hp. rewrite Hp in Em. done. }
    rewrite Join_app by done. cbn [GoStrings.Join]. by rewrite <- !string_app_assoc.
Qed.

Hypothesis tags_plain : Forall (fun t => plain_word (eq_text t)) (written_tags ++ written_meta).
Hypothesis tags_some : written_tags <> [].

Lemma written_vals_plain : Forall plain_word written_vals.
Proof using tags_plain.
  apply Forall_app in tags_plain as [_ Hm]. apply Forall_app. split; [by apply Forall_fmap|].
  constructor; [apply FormatFloat_plain|]. constructor; [apply FormatInt_plain|constructor].
Qed.

Lemma plain_is_word (ws : list string) : Forall plain_word ws -> Forall is_word ws.
Proof. intros Hw. eapply Forall_impl; [exact Hw|]. by intros w [? _]. Qed.

Lemma carbontwo_parts_line :
  let line := (CarbonTwoFormatter_Write now name val tstamp ty tags).1 in
  Replacer_Replace CARBONTWO_REPLACER line = line /\
  carbontwo_parts line = inl (GoStrings.Join (map eq_text written_tags) (sep1 space), written_vals).
Proof using tags_plain tags_some.
  pose proof written_vals_plain as Hvp. pose proof tags_plain as Htp. apply Forall_app in Htp as [Htp _].
  assert (Htw : Forall plain_word (map eq_text written_tags)) by (by apply Forall_fmap).
  assert (Htne : map eq_text written_tags <> []) by (by destruct written_tags).
  assert (Hvne : written_vals <> []) by (unfold written_vals; by destruct (map eq_text written_meta)).
  intros line. unfold line. rewrite carbontwo_line_sep.
  set (tw := map eq_text written_tags) in *. destruct (IsEmpty (MetaTags name1)) eqn:Em.
  - split.
    { by apply (plain_Join_Replacer tw written_vals "" space); [| |left|..]. }
    rewrite !string_app_assoc. rewrite <- (string_app_assoc _ (sep1 space)), <- Join_app by done.
    assert (Hw : Forall is_word (tw ++ written_vals)) by (apply Forall_app; split; by apply plain_is_word).
    unfold carbontwo_parts, Split. change DOUBLE_SPACE_SEPARATOR with (doubled space).
    rewrite split_from_sep2_none.
    2:{ unfold sep1 at 2. rewrite Contains_doubled_sep by done.
        rewrite (Contains_app_l _ (sep1 space)); [done|]. apply Join_words_spaces; [by destruct tw|done]. }
    rewrite Fields_Join_line by done.
    assert (Hlen : length written_vals = 2%nat).
    { unfold written_vals, written_meta. fold name1. by rewrite Em. }
    rewrite length_app, Hlen. assert (0 < length tw)%nat by (by destruct tw; [|simpl; lia]).
    replace (length tw + 2 <? 3)%nat with false by (symmetry; apply Nat.ltb_ge; lia).
    replace (length tw + 2 - 2)%nat with (length tw) by lia. by rewrite take_app_length, drop_app_length.
  - split.
    { by apply (plain_Join_Replacer tw written_vals (sep1 space) space); [| |right; left|..]. }
    unfold carbontwo_parts, Split. change DOUBLE_SPACE_SEPARATOR with (doubled space).
    rewrite split_from_sep2 by (apply Join_words_spaces; [done|by apply plain_is_word]).
    rewrite split_from_sep2_none.
    2:{ unfold sep1 at 2. rewrite Contains_doubled_sep by done.
        rewrite (Contains_app_l _ (sep1 space)); [done|]. apply Join_words_spaces; [done|by apply plain_is_word]. }
    rewrite ?string_app_nil_l, Fields_Join_line by (by apply plain_is_word). done.
Qed.

End carbontwo.

Section carbontwo_roundtrip.
Context `{!GoSort}.
Context (now clock : Z) (name : StatName) (val : float64) (tstamp : Z) (ty : string) (tags : option SortingTags).

Let wtags := written_tags name ty tags.
Let wmeta := written_meta name tags.

(** A line the Carbon2 formatter prints is accepted by the Carbon2
    splitter: the key is the text of the tags, the fields are the meta
    tags, the value and the time, the time is the one printed, and the
    meta tags are read back when there are at least two of them. *)
Theorem carbontwo_format_split (pooled : option SplitItem) :
  Forall (fun t => plain_word (eq_text t)) (wtags ++ wmeta) -> wtags <> [] ->
  Forall (fun t => no_char equals (tag_Name t) = true /\ no_char equals (tag_Value t) = true) wmeta ->
  0 < tstamp < 2 ^ 31 ->
  exists item,
    CarbonTwoSplitter_ProcessLine pooled clock (CarbonTwoFormatter_Write now name val tstamp ty tags).1 =
      Some (inl item) /\
    inkey item = GoStrings.Join (map eq_text wtags) (sep1 space) /\
    infields item = map eq_text wmeta ++ [FormatFloat val; FormatInt tstamp] /\
    Timestamp item = tstamp * 10 ^ 9 /\
    item_tags item = if (2 <=? length wmeta)%nat then map (fun t => (tag_Name t, tag_Value t)) wmeta else [].
Proof.
  intros Hp Hne Heq Hts. destruct (carbontwo_parts_line now name val tstamp ty tags Hp Hne) as [Hr Hparts].
  assert (Hstamp : stamp now tstamp = tstamp) by (unfold stamp; by if_false).
  unfold CarbonTwoSplitter_ProcessLine. rewrite Hr, Hparts. unfold written_vals. rewrite Hstamp.
  fold wmeta. rewrite !length_app, length_map. cbn [length].
  replace (length wmeta + 2 <? 2)%nat with false by (symmetry; apply Nat.ltb_ge; lia).
  rewrite lookup_app_r by (rewrite length_map; lia). rewrite length_map.
  replace (length wmeta + 2 - 1 - length wmeta)%nat with 1%nat by lia. cbn [lookup list_lookup mbind option_bind].
  rewrite ParseInt_FormatInt by lia. if_false. unfold nano_or_second. if_false.
  unfold carbontwo_item. rewrite length_app, length_map. cbn [length].
  replace (length wmeta + 2 - 2)%nat with (length (map eq_text wmeta)) by (rewrite length_map; lia).
  rewrite take_app_length. rewrite carbontwo_tags_text by done.
  destruct (decide (2 <= length wmeta)%nat) as [Hl|Hl].
  - replace (4 <=? length wmeta + 2)%nat with true by (symmetry; apply Nat.leb_le; lia).
    replace (2 <=? length wmeta)%nat with true by (symmetry; apply Nat.leb_le; lia). by eexists.
  - replace (4 <=? length wmeta + 2)%nat with false by (symmetry; apply Nat.leb_gt; lia).
    replace (2 <=? length wmeta)%nat with false by (symmetry; apply Nat.leb_gt; lia). by eexists.
Qed.

End carbontwo_roundtrip.

(** ** Witnesses *)

#[local] Existing Instance insertion_GoSort.

Definition sample_name : StatName :=
  mkName "web.requests" 0 "" 0 0 TAG_METRICS2 HASH_FNV [mkTag "unit" "jiff"; mkTag "mtype" "count"]
         [mkTag "host" "h1"; mkTag "dc" "eu"].

Ltac word_check :=
  repeat match goal with
  | |- Forall _ _ => constructor
  | |- _ /\ _ => split
  | |- clean_word _ => split
  | |- plain_word _ => split
  | |- is_word _ => split
  end; try done; try (vm_compute; done).

Lemma graphite_format_split_witness :
  exists item,
    GraphiteSplitter_ProcessLine (NewGraphiteSplitter ∅) None (1500000100 * 10 ^ 9)
      (GraphiteFormatter_Write 0 sample_name (float_of_Z 3) 1500000000 "c" None).1 = Some (inl item) /\
    inkey item = "web.requests"%string /\ Timestamp item = 1500000000 * 10 ^ 9 /\
    Fields (inline item) =
      ["web.requests"%string; FormatFloat (float_of_Z 3); FormatInt 1500000000] ++
      ["unit=jiff"; "mtype=count"; "host=h1"; "dc=eu"]%string.
Proof.
  apply (graphite_format_split 0 (1500000100 * 10 ^ 9) sample_name (float_of_Z 3) 1500000000 "c" None None).
  - word_check.
  - word_check.
  - by left.
  - lia.
  - vm_compute. done.
Defined.

Lemma carbontwo_format_split_witness :
  exists item,
    CarbonTwoSplitter_ProcessLine None 0
      (CarbonTwoFormatter_Write 0 sample_name (float_of_Z 3) 1500000000 "c" None).1 = Some (inl item) /\
    inkey item = "mtype=count unit=jiff"%string /\
    infields item = ["dc=eu"; "host=h1"]%string ++ [FormatFloat (float_of_Z 3); FormatInt 1500000000] /\
    Timestamp item = 1500000000 * 10 ^ 9 /\
    item_tags item = [("dc", "eu"); ("host", "h1")]%string.
Proof.
  destruct (carbontwo_format_split 0 0 sample_name (float_of_Z 3) 1500000000 "c" None None)
    as (item & Hl & Hk & Hf & Ht & Hg).
  - vm_compute. word_check.
  - by vm_compute.
  - vm_compute. word_check.
  - lia.
  - exists item. rewrite Hk, Hf, Ht, Hg. split_and!; [exact Hl|..]; vm_compute; reflexivity.
Defined.
