(* ===== verification/StatItem.v ===== *)
(** The [StatItem]s of [accumulator/]: the values collected for one
    metric between two flushes.

    The items of [graphite.go], [carbontwo.go] and [json.go] are the same
    code; those of [statsd.go] are a counter or gauge, a timer, and a set.
    The mutexes serialise the methods.  The field [Resolution] is never
    set and is left out, as is [Tags] of the Statsd items.

    [Write] prints an item through a formatter.  It returns what it
    writes and the item afterwards.  A Statsd item prints under names it
    makes; what the formatter does to tags those names share with the
    item's own is not tracked. *)
From S2P Require Import Prelude Bits Float64 GoStrings GoParse GoFormat GoSort Tags Repr Aggs Aggregator.
From S2P Require Import Splitter Formatter.

Open Scope Z_scope.

(** [math.MinInt64] as a float64: no value was seen. *)
Definition ACC_MIN_FLAG : float64 := MinInt64.

Definition is_flag (f : float64) : bool := feq f ACC_MIN_FLAG.

(** ** The item of Graphite, Carbon2 and JSON *)

Record BaseStatItem := mkBase {
  b_InKey : StatName;
  b_Values : list float64;
  b_InType : string;
  b_ReduceFunc : Z;
  b_Time : Z;
  b_Min : float64;
  b_Max : float64;
  b_Sum : float64;
  b_Last : float64;
  b_Count : Z
}.

Definition base_Repr (s : BaseStatItem) : StatRepr :=
  mkRepr (Some (b_InKey s)) (UnixNano (b_Time s)) (CheckFloat (b_Min s)) (CheckFloat (b_Max s))
         (CheckFloat (b_Last s)) (CheckFloat (b_Sum s)) (b_Count s).

Definition base_ZeroOut (s : BaseStatItem) : BaseStatItem :=
  mkBase (b_InKey s) [] (b_InType s) (b_ReduceFunc s) zero_time ACC_MIN_FLAG ACC_MIN_FLAG 0 ACC_MIN_FLAG 0.

Definition base_Merge (s : BaseStatItem) (stat : StatRepr) : BaseStatItem :=
  mkBase (b_InKey s) (b_Values s) (b_InType s) (b_ReduceFunc s) (b_Time s)
    (if is_flag (b_Min s) || fgt (b_Min s) (Min stat) then Min stat else b_Min s)
    (if is_flag (b_Max s) || flt (b_Max s) (Max stat) then Max stat else b_Max s)
    (fadd (b_Sum s) (Sum stat))
    (if (b_Time s <? ToTime stat) || is_flag (b_Last s) then Last stat else b_Last s)
    (i64 (b_Count s + Count stat)).

Definition base_Accumulate (s : BaseStatItem) (val : float64) : BaseStatItem :=
  if IsInf val || IsNaN val then s
  else
    mkBase (b_InKey s) (b_Values s ++ [val]) (b_InType s) (b_ReduceFunc s) (b_Time s)
      (if is_flag (b_Min s) || fgt (b_Min s) val then val else b_Min s)
      (if is_flag (b_Max s) || flt (b_Max s) val then val else b_Max s)
      (fadd (b_Sum s) val) val (i64 (b_Count s + 1)).

(** ** Statsd counters and gauges *)

Record StatsdBaseStatItem := mkStatsd {
  s_InKey : StatName;
  s_Count : Z;
  s_Min : float64;
  s_Max : float64;
  s_Sum : float64;
  s_Last : float64;
  s_InType : string;
  s_start_time : Z
}.

(** The time of the point is not set. *)
Definition statsd_Repr (s : StatsdBaseStatItem) : StatRepr :=
  mkRepr (Some (s_InKey s)) 0 (CheckFloat (s_Min s)) (CheckFloat (s_Max s)) (CheckFloat (s_Last s))
         (CheckFloat (s_Sum s)) (s_Count s).

Definition statsd_ZeroOut (s : StatsdBaseStatItem) : StatsdBaseStatItem :=
  mkStatsd (s_InKey s) 0 ACC_MIN_FLAG ACC_MIN_FLAG 0 ACC_MIN_FLAG (s_InType s) 0.

Definition statsd_Accumulate (now : Z) (s : StatsdBaseStatItem) (val sample : float64) : StatsdBaseStatItem :=
  if IsInf val || IsNaN val then s
  else
    mkStatsd (s_InKey s) (i64 (s_Count s + 1))
      (if is_flag (s_Min s) || fgt (s_Min s) val then val else s_Min s)
      (if is_flag (s_Max s) || flt (s_Max s) val then val else s_Max s)
      (if bool_decide (s_InType s = "c"%string) then fadd (s_Sum s) (fmul val sample)
       else if bool_decide (s_InType s = "g"%string) then val
       else if bool_decide (s_InType s = "-g"%string) then fsub (s_Sum s) val
       else if bool_decide (s_InType s = "+g"%string) then fadd (s_Sum s) val
       else s_Sum s)
      val (s_InType s)
      (if s_start_time s =? 0 then Unix now else s_start_time s).

(** ** Statsd timers *)

Record StatsdTimerStatItem := mkTimer {
  t_InKey : StatName;
  t_InType : string;
  t_Count : Z;
  t_Min : float64;
  t_Max : float64;
  t_Sum : float64;
  t_Last : float64;
  t_SampleSum : float64;
  t_Values : list float64;
  t_PercentThreshold : list float64;
  t_start_time : Z
}.

Definition timer_Repr (now : Z) (s : StatsdTimerStatItem) : StatRepr :=
  mkRepr (Some (t_InKey s)) (UnixNano now) (CheckFloat (t_Min s)) (CheckFloat (t_Max s)) (CheckFloat (t_Last s))
         (CheckFloat (t_Sum s)) (t_Count s).

Definition timer_ZeroOut (s : StatsdTimerStatItem) : StatsdTimerStatItem :=
  mkTimer (t_InKey s) (t_InType s) 0 ACC_MIN_FLAG ACC_MIN_FLAG 0 ACC_MIN_FLAG 0 [] (t_PercentThreshold s) 0.

Definition timer_Accumulate (now : Z) (s : StatsdTimerStatItem) (val sample : float64) : StatsdTimerStatItem :=
  if IsInf val || IsNaN val then s
  else
    mkTimer (t_InKey s) (t_InType s) (i64 (t_Count s + 1))
      (if is_flag (t_Min s) || fgt (t_Min s) val then val else t_Min s)
      (if is_flag (t_Max s) || flt (t_Max s) val then val else t_Max s)
      (fadd (t_Sum s) val) val (fadd (t_SampleSum s) sample) (t_Values s ++ [val]) (t_PercentThreshold s)
      (if t_start_time s =? 0 then Unix now else t_start_time s).

(** ** Statsd sets *)

Record StatsdSetStatItem := mkSet {
  set_InKey : StatName;
  set_InType : string;
  set_Values : gset Z;
  set_start_time : Z
}.

Definition set_Repr (now : Z) (s : StatsdSetStatItem) : StatRepr :=
  let ct := Z.of_nat (base.size (set_Values s)) in
  let f := float_of_Z ct in
  mkRepr (Some (set_InKey s)) (UnixNano now) f f f f ct.

Definition set_ZeroOut (s : StatsdSetStatItem) : StatsdSetStatItem :=
  mkSet (set_InKey s) (set_InType s) ∅ 0.

(** [uint64(val)]; the result for a value out of range is
    implementation-defined and is not relied on. *)
Definition uint64_of_float (f : float64) : Z := u64 (trunc f).

Definition set_Accumulate (now : Z) (s : StatsdSetStatItem) (val : float64) : StatsdSetStatItem :=
  if IsInf val || IsNaN val then s
  else mkSet (set_InKey s) (set_InType s) ({[ uint64_of_float val ]} ∪ set_Values s)
             (if set_start_time s =? 0 then Unix now else set_start_time s).

(** ** The interface *)

Inductive StatItem :=
| GraphiteItem (b : BaseStatItem)
| CarbonTwoItem (b : BaseStatItem)
| JsonItem (b : BaseStatItem)
| StatsdItem (s : StatsdBaseStatItem)
| TimerItem (t : StatsdTimerStatItem)
| SetItem (s : StatsdSetStatItem).

Definition item_Key (i : StatItem) : StatName :=
  match i with
  | GraphiteItem b | CarbonTwoItem b | JsonItem b => b_InKey b
  | StatsdItem s => s_InKey s
  | TimerItem t => t_InKey t
  | SetItem s => set_InKey s
  end.

Definition item_Accumulate (now : Z) (i : StatItem) (val sample : float64) : StatItem :=
  match i with
  | GraphiteItem b => GraphiteItem (base_Accumulate b val)
  | CarbonTwoItem b => CarbonTwoItem (base_Accumulate b val)
  | JsonItem b => JsonItem (base_Accumulate b val)
  | StatsdItem s => StatsdItem (statsd_Accumulate now s val sample)
  | TimerItem t => TimerItem (timer_Accumulate now t val sample)
  | SetItem s => SetItem (set_Accumulate now s val)
  end.

Definition item_ZeroOut (i : StatItem) : StatItem :=
  match i with
  | GraphiteItem b => GraphiteItem (base_ZeroOut b)
  | CarbonTwoItem b => CarbonTwoItem (base_ZeroOut b)
  | JsonItem b => JsonItem (base_ZeroOut b)
  | StatsdItem s => StatsdItem (statsd_ZeroOut s)
  | TimerItem t => TimerItem (timer_ZeroOut t)
  | SetItem s => SetItem (set_ZeroOut s)
  end.

Definition item_Repr (now : Z) (i : StatItem) : StatRepr :=
  match i with
  | GraphiteItem b | CarbonTwoItem b | JsonItem b => base_Repr b
  | StatsdItem s => statsd_Repr s
  | TimerItem t => timer_Repr now t
  | SetItem s => set_Repr now s
  end.

(** ** Printing *)

(** One call of the formatter. *)
Record FmtCall := mkCall {
  c_name : StatName;
  c_val : float64;
  c_tstamp : Z;
  c_type : string
}.

(** The options of the Statsd accumulator; [GetOption] returns these
    fields. *)
Record StatsdOptions := mkOptions {
  LegacyStatsd : bool;
  Prefix : string;
  Suffix : string;
  GaugePrefix : string;
  TimerPrefix : string;
  SetPrefix : string;
  CounterPrefix : string;
  Thresholds : list float64
}.

(** A new name with the tags and modes of [n]. *)
Definition made_name (key : string) (n : StatName) : StatName :=
  mkName key 0 "" 0 0 (tagMode n) (hashMode n) (Tags n) (MetaTags n).

Definition dotted (s : string) : string := if (0 <? String.length s)%nat then s +:+ "." else "".

Definition statsd_prefix (root pref sufix : string) : string := dotted root +:+ dotted pref +:+ dotted sufix.

(** The seconds since the last flush, at least one when they are zero. *)
Definition ticks (now start : Z) : Z := let tick := i64 (Unix now - start) in if tick =? 0 then 1 else tick.

Definition is_gauge (ty : string) : bool :=
  bool_decide (ty = "g"%string) || bool_decide (ty = "-g"%string) || bool_decide (ty = "+g"%string).

Definition statsd_Write (now : Z) (ops : StatsdOptions) (s : StatsdBaseStatItem) : list FmtCall * StatsdBaseStatItem :=
  let f_key := statsd_prefix (Prefix ops) (CounterPrefix ops) (Suffix ops) in
  let tick := ticks now (s_start_time s) in
  let in_key := Key (s_InKey s) in
  let s' := mkStatsd (s_InKey s) (s_Count s) (s_Min s) (s_Max s) (s_Sum s) (s_Last s) (s_InType s) (Unix now) in
  if is_gauge (s_InType s) then
    let f_key := Prefix ops +:+ "." +:+ GaugePrefix ops +:+ "." +:+ dotted (Suffix ops) in
    let name := mkName (f_key +:+ in_key) 0 "" 0 0 (tagMode (s_InKey s)) (hashMode (s_InKey s)) [] [] in
    ([mkCall name (s_Last s) 0 "g"], s')
  else
    let val := s_Sum s in
    let val_p_s := fdiv val (float_of_Z tick) in
    if LegacyStatsd ops then
      let rate_pref := "stats_counts." +:+ dotted (Suffix ops) in
      ([mkCall (made_name (f_key +:+ in_key) (s_InKey s)) val_p_s 0 "c";
        mkCall (made_name (rate_pref +:+ in_key) (s_InKey s)) val 0 "c"], s')
    else
      ([mkCall (made_name (f_key +:+ "count." +:+ in_key) (s_InKey s)) val 0 "c";
        mkCall (made_name (f_key +:+ "rate." +:+ in_key) (s_InKey s)) val_p_s 0 "c"], s').

(** The name of a set is made without its tag mode. *)
Definition set_Write (ops : StatsdOptions) (s : StatsdSetStatItem) : list FmtCall :=
  let f_key := statsd_prefix (Prefix ops) (SetPrefix ops) (Suffix ops) +:+ Key (set_InKey s) in
  let n := set_InKey s in
  [mkCall (mkName f_key 0 "" 0 0 TAG_METRICS2 (hashMode n) (Tags n) (MetaTags n))
          (float_of_Z (Z.of_nat (base.size (set_Values s)))) 0 "s"].

(** [math.Floor], [math.Ceil] and [math.Abs]. *)
Definition fabs (f : float64) : float64 := f mod 2 ^ 63.
Definition fneg (f : float64) : float64 := if signbit f then f - 2 ^ 63 else f + 2 ^ 63.
Definition ffloor (f : float64) : float64 :=
  if IsNaN f || IsInf f || (1075 <=? exp_field f) || feq (float_of_Z (trunc f)) f then f
  else float_of_Z (if signbit f then trunc f - 1 else trunc f).
Definition fceil (f : float64) : float64 := fneg (ffloor (fneg f)).

Definition f_half : float64 := 0x3FE0000000000000.
Definition f_1 : float64 := 0x3FF0000000000000.
Definition f_100 : float64 := 0x4059000000000000.

(** [round] of [statsd.go]. *)
Definition round (a : float64) : float64 :=
  if flt a 0 then fceil (fsub a f_half) else ffloor (fadd a f_half).

(** [statdFloat64arr.Less]. *)
Definition statsd_Less (a b : float64) : bool := flt (fsub a b) 0.

(** The running sums; the first is the minimum. *)
Fixpoint cum_from (prev : float64) (vs : list float64) : list float64 :=
  match vs with
  | [] => []
  | v :: vs => let c := fadd v prev in c :: cum_from c vs
  end.

Definition cumulativeValues (mn : float64) (vs : list float64) : list float64 := mn :: cum_from mn (tail vs).

(** What the loop over the thresholds carries from one to the next. *)
Record threshold_state := mkThr {
  thr_sum : float64;
  thr_mean : float64;
  thr_boundary : float64;
  thr_num : Z
}.

Section timer.
Context `{!GoSort}.
(** [math.Pow]. *)
Variable math_Pow : float64 -> float64 -> float64.

(** One threshold: [None] is an index out of range.  The name is the
    percentage; a threshold of no values is skipped. *)
Definition threshold_step (f_key : string) (n : StatName) (count : Z) (values cums : list float64)
    (st : threshold_state) (pct : float64) : option (list FmtCall * threshold_state) :=
  let small := flt (fabs pct) f_1 in
  let multi := if small then f_1 else fdiv f_1 f_100 in
  let per_mul := if small then f_100 else f_1 in
  let p_name := FormatInt (int64_of_float (fmul (fabs pct) per_mul)) in
  let calls st :=
    let call suffix val ty := mkCall (made_name (f_key +:+ suffix +:+ p_name) n) val 0 ty in
    [call ".count_"%string (float_of_Z (thr_num st)) "c"%string; call ".mean_"%string (thr_mean st) "g"%string;
     call ".sum_"%string (thr_sum st) "g"%string;
     call (if fgt pct 0 then ".upper_"%string else ".lower_"%string) (thr_boundary st) "g"%string] in
  if count >? 1 then
    let num := int64_of_float (round (fmul (fmul (fabs pct) multi) (float_of_Z count))) in
    if num =? 0 then Some ([], mkThr (thr_sum st) (thr_mean st) (thr_boundary st) 0)
    else
      '(boundary, sum) ←
        (if fgt pct 0 then
           b ← at_index values (num - 1); s ← at_index cums (num - 1); Some (b, s)
         else
           b ← at_index values (count - num); s1 ← at_index cums (count - 1);
           s2 ← at_index cums (count - num - 1); Some (b, fsub s1 s2));
      let st := mkThr sum (fdiv sum (float_of_Z num)) boundary num in
      Some (calls st, st)
  else Some (calls st, st).

Fixpoint threshold_loop (f_key : string) (n : StatName) (count : Z) (values cums : list float64)
    (st : threshold_state) (pcts : list float64) : option (list FmtCall) :=
  match pcts with
  | [] => Some []
  | pct :: pcts =>
      '(calls, st) ← threshold_step f_key n count values cums st pct;
      rest ← threshold_loop f_key n count values cums st pcts;
      Some (calls ++ rest)
  end.

(** The values are sorted in place.  The middle is tested for being even,
    not the number of values. *)
Definition timer_Write (now : Z) (ops : StatsdOptions) (s : StatsdTimerStatItem)
    : option (list FmtCall * StatsdTimerStatItem) :=
  let n := t_InKey s in
  let f_key := statsd_prefix (Prefix ops) (TimerPrefix ops) (Suffix ops) +:+ Key n in
  let count := t_Count s in
  let fcount := float_of_Z count in
  let avg := fdiv (t_Sum s) fcount in
  let values := sort_Sort statsd_Less (t_Values s) in
  let cums := cumulativeValues (t_Min s) values in
  let std := foldl (fun std v => fadd std (math_Pow (fsub v avg) f_two)) 0 values in
  let std := fsqrt (fdiv std fcount) in
  let tick := ticks now (t_start_time s) in
  let mn := if is_flag (t_Min s) then 0 else t_Min s in
  let mx := if is_flag (t_Max s) then 0 else t_Max s in
  let call suffix val ty := mkCall (made_name (f_key +:+ suffix) n) val 0 ty in
  let head := [call ".count"%string (t_SampleSum s) "c"%string;
               call ".count_ps"%string (fdiv (t_SampleSum s) (float_of_Z tick)) "c"%string;
               call ".lower"%string mn "g"%string; call ".upper"%string mx "g"%string;
               call ".sum"%string (t_Sum s) "g"%string] in
  let zero := if count =? 0
              then [call ".mean"%string 0 "g"%string; call ".std"%string 0 "g"%string;
                    call ".median"%string 0 "g"%string] else [] in
  body ← (if count >? 0 then
            let mid := count / 2 in
            median ← (if Z.even mid then at_index values mid
                      else if count >? 1 then
                        a ← at_index values (mid - 1); b ← at_index values mid; Some (fdiv (fadd a b) f_two)
                      else Some 0);
            thr ← threshold_loop f_key n count values cums (mkThr (t_Min s) (t_Min s) (t_Max s) count)
                    (Thresholds ops);
            Some ([call ".mean"%string avg "g"%string; call ".std"%string std "g"%string;
                   call ".median"%string median "g"%string] ++ thr)
          else Some []);
  Some (head ++ zero ++ body,
        mkTimer n (t_InType s) count (t_Min s) (t_Max s) (t_Sum s) (t_Last s) (t_SampleSum s) values
                (t_PercentThreshold s) (Unix now)).

(** The item of Graphite and its kin prints its reduced value under its own
    name, which the formatter may change; the reduction may sort the
    values. *)
Definition base_Write (f : FormatterItem) (now : Z) (tags : option SortingTags) (ty : string) (s : BaseStatItem)
    : option (string * BaseStatItem) :=
  '(val, values) ← ACCUMULATE_FUNC math_Pow (b_ReduceFunc s) (b_Values s);
  let '(text, name) := fmt_Write f now (b_InKey s) val (i32 (Unix (b_Time s))) ty tags in
  Some (text, mkBase name values (b_InType s) (b_ReduceFunc s) (b_Time s) (b_Min s) (b_Max s) (b_Sum s)
                     (b_Last s) (b_Count s)).

Definition render (f : FormatterItem) (now : Z) (tags : option SortingTags) (calls : list FmtCall) : string :=
  foldr (fun c acc => (fmt_Write f now (c_name c) (c_val c) (c_tstamp c) (c_type c) tags).1 +:+ acc) ""%string calls.

Definition item_Write (f : FormatterItem) (now : Z) (tags : option SortingTags) (ops : StatsdOptions) (i : StatItem)
    : option (string * StatItem) :=
  match i with
  | GraphiteItem b => '(t, b) ← base_Write f now tags "c" b; Some (t, GraphiteItem b)
  | CarbonTwoItem b => '(t, b) ← base_Write f now tags (Mtype (Tags (b_InKey b))) b; Some (t, CarbonTwoItem b)
  | JsonItem b => '(t, b) ← base_Write f now tags "c" b; Some (t, JsonItem b)
  | StatsdItem s => let '(calls, s) := statsd_Write now ops s in Some (render f now tags calls, StatsdItem s)
  | TimerItem t => '(calls, t) ← timer_Write now ops t; Some (render f now tags calls, TimerItem t)
  | SetItem s => Some (render f now tags (set_Write ops s), SetItem s)
  end.

End timer.
