(* ===== verification/Accumulate.v ===== *)
(** [accumulator/{graphite,carbontwo,json,statsd}.go]: the accumulators.
    Each collects incoming lines in one [StatItem] per metric (and, but
    for Statsd, per time bucket) until it is flushed.

    The items of the map are pointers the accumulator owns, so updating
    one is an insertion.  The order in which a flush visits the map is
    that of [map_to_list].  The cache of aggregation types the new items
    are given is threaded through.  A handler returns [None] when it
    panics, and otherwise the state and the error.  The read lock and the
    write lock are taken around single accesses; the theorems of this
    file and the next treat each handler as one step, and [Accumulator]
    says what an interleaving of a flush and a line can lose. *)
From S2P Require Import Prelude Bits Float64 GoStrings GoParse GoFormat GoSort LRU LRUTheorems.
From S2P Require Import Tags Repr Aggs Aggregator Splitter Formatter StatItem.

Open Scope Z_scope.

(** [flushedList]: only [Stats] is filled. *)
Definition flushedList := list StatRepr.

(** ** What the accumulators share *)

(** The item of a key, made when it is missing, updated. *)
Definition upsert (m : gmap string StatItem) (key : string) (new : StatItem) (f : StatItem -> StatItem)
    : gmap string StatItem :=
  <[key := f (default new (m !! key))]> m.

(** [Reset]: the items are zeroed or dropped. *)
Definition reset (keep : bool) (m : gmap string StatItem) : gmap string StatItem :=
  if keep then item_ZeroOut <$> m else ∅.

(** [FlushList]. *)
Definition flush_list (keep : bool) (now : Z) (m : gmap string StatItem) : flushedList * gmap string StatItem :=
  ((fun kv => item_Repr now kv.2) <$> map_to_list m, reset keep m).

Section flush.
Context `{!GoSort}.
Variable math_Pow : float64 -> float64 -> float64.

(** [Flush]: every item is printed and then listed. *)
Fixpoint flush_items (f : FormatterItem) (now : Z) (tags : option SortingTags) (ops : StatsdOptions)
    (items : list (string * StatItem)) : option (string * flushedList * list (string * StatItem)) :=
  match items with
  | [] => Some (""%string, [], [])
  | (k, i) :: items =>
      '(text, i) ← item_Write math_Pow f now tags ops i;
      '(rest, fl, items) ← flush_items f now tags ops items;
      Some (text +:+ rest, item_Repr now i :: fl, (k, i) :: items)
  end.

Definition flush (f : FormatterItem) (keep : bool) (now : Z) (tags : option SortingTags) (ops : StatsdOptions)
    (m : gmap string StatItem) : option (string * flushedList * gmap string StatItem) :=
  '(text, fl, items) ← flush_items f now tags ops (map_to_list m);
  Some (text, fl, reset keep (list_to_map items)).

End flush.

(** ** Graphite, Carbon2 and JSON *)

(** The three structs have the same fields. *)
Record BinAccumulate := mkBin {
  bin_Stats : gmap string StatItem;
  bin_InTags : option SortingTags;
  bin_InKeepKeys : bool;
  bin_Resolution : Z;
  bin_TagMode : TagMode;
  bin_HashMode : HashMode
}.

Definition set_stats (a : BinAccumulate) (m : gmap string StatItem) : BinAccumulate :=
  mkBin m (bin_InTags a) (bin_InKeepKeys a) (bin_Resolution a) (bin_TagMode a) (bin_HashMode a).

(** [ResolutionTime] and [MapKey]. *)
Definition bin_ResolutionTime (a : BinAccumulate) (t : Z) : Z := Truncate t (bin_Resolution a).

Definition bin_MapKey (a : BinAccumulate) (name : string) (t : Z) : string :=
  name +:+ "-" +:+ pretty (UnixNano (bin_ResolutionTime a t)).

Definition bin_Reset (a : BinAccumulate) : BinAccumulate := set_stats a (reset (bin_InKeepKeys a) (bin_Stats a)).

Definition bin_FlushList (a : BinAccumulate) (now : Z) : flushedList * BinAccumulate :=
  let '(fl, m) := flush_list (bin_InKeepKeys a) now (bin_Stats a) in (fl, set_stats a m).

Definition new_name (key : string) (tags meta : SortingTags) (a : BinAccumulate) : StatName :=
  mkName key 0 "" 0 0 (bin_TagMode a) (bin_HashMode a) tags meta.

(** A new item, before any value. *)
Definition fresh_base (nm : StatName) (ty : string) (agg t : Z) : BaseStatItem :=
  mkBase nm [] ty agg t ACC_MIN_FLAG ACC_MIN_FLAG 0 ACC_MIN_FLAG 0.

Definition with_item_name (s : StatName) (mode : TagMode) : StatName :=
  mkName (Key s) (uniqueId s) (uniqueIdstr s) (Resolution s) (Ttl s) mode (hashMode s) (Tags s) (MetaTags s).

Section lines.
Context `{!GoSort}.
Context {C : Type} {MC : MemoCache C aggItem}.

(** The words of a Graphite line, parsed: the key, the value, the time and
    the tags. *)
Definition graphite_parse (now : Z) (line : string) : (string * float64 * Z * SortingTags) + goerror :=
  let stats_arr := Fields line in
  match stats_arr with
  | key :: val :: intime_ :: rest =>
      let t := match ParseInt intime_ with Some i => i * 10 ^ 9 | None => now end in
      match ParseFloat val with
      | None => inr (GoError ("Accumulate: Bad Value | Invalid Graphite line `" +:+ line +:+ "`"))
      | Some f_val => inl (key, f_val, t, SortingTagsFromArray rest)
      end
  | _ => inr (GoError ("Accumulate: Invalid Graphite line `" +:+ line +:+ "`"))
  end.

(** The tags and the meta tags, by the tag mode. *)
Definition graphite_tags (mode : TagMode) (tags : SortingTags) : SortingTags * SortingTags :=
  match mode with
  | TAG_ALLTAGS => (tags, [])
  | TAG_METRICS2 => SplitIntoMetric2Tags [] tags
  end.

Definition graphite_ProcessLine (a : BinAccumulate) (c : C) (now : Z) (line : string)
    : option (BinAccumulate * C * option goerror) :=
  match graphite_parse now line with
  | inr err => Some (a, c, Some err)
  | inl (key, f_val, t, tags) =>
      let '(tgs, meta) := graphite_tags (bin_TagMode a) tags in
      let tgs := sort_Sort tags_Less tgs in
      let stat_key := bin_MapKey a (key +:+ ToStringSep tgs DOT_SEPARATOR DOT_SEPARATOR) t in
      match bin_Stats a !! stat_key with
      | Some gots =>
          Some (set_stats a (<[stat_key := item_Accumulate now gots f_val f_1]> (bin_Stats a)), c, None)
      | None =>
          let nm := new_name key tgs meta a in
          '(agg, c) ← AggType c nm now;
          let gots := GraphiteItem (fresh_base nm "graphite" agg (bin_ResolutionTime a t)) in
          Some (set_stats a (<[stat_key := item_Accumulate now gots f_val f_1]> (bin_Stats a)), c, None)
      end
  end.

(** The tags are sorted only when there are some. *)
Definition graphite_ProcessLineToRepr (a : BinAccumulate) (now : Z) (line : string) : StatRepr + goerror :=
  match graphite_parse now line with
  | inr err => inr err
  | inl (key, fVal, t, tags) =>
      let '(tgs, meta) :=
        if (3 <? length (Fields line))%nat then
          let '(tgs, meta) := graphite_tags (bin_TagMode a) tags in (sort_Sort tags_Less tgs, meta)
        else ([], []) in
      inl (mkRepr (Some (new_name key tgs meta a)) (UnixNano t) 0 0 0 fVal 1)
  end.

(** The name of a point as [ProcessRepr] leaves it, and the tags of the
    key.  In the mode of all tags the result of the merge is not used, and
    an empty list of tags stays empty. *)
Definition repr_tags (mode : TagMode) (n : StatName) : StatName :=
  let '(tgs, n) := SortedTags n in
  match mode with
  | TAG_ALLTAGS =>
      let tgs := (Tags.Merge tgs (MetaTags n)).1 in
      set_tags n (sort_Sort tags_Less tgs) []
  | TAG_METRICS2 =>
      let '(tgs, meta) := SplitIntoMetric2Tags tgs (MetaTags n) in
      set_tags n (sort_Sort tags_Less tgs) meta
  end.

(** The point is accumulated when its count is one, merged otherwise. *)
Definition base_add_repr (now : Z) (b : BaseStatItem) (stat : StatRepr) : BaseStatItem :=
  if Count stat =? 1 then base_Accumulate b (Sum stat) else base_Merge b stat.

(** The point given comes back with its name changed; a nil name panics. *)
Definition graphite_ProcessRepr (a : BinAccumulate) (c : C) (now : Z) (stat : StatRepr)
    : option (BinAccumulate * C * StatRepr) :=
  n ← r_Name stat;
  let n := repr_tags (bin_TagMode a) n in
  let stat := with_name stat n in
  let stat_key := bin_MapKey a (Key n +:+ ToStringSep (Tags n) DOT_SEPARATOR DOT_SEPARATOR) (ToTime stat) in
  match bin_Stats a !! stat_key with
  | Some (GraphiteItem b) =>
      Some (set_stats a (<[stat_key := GraphiteItem (base_add_repr now b stat)]> (bin_Stats a)), c, stat)
  | Some _ => None
  | None =>
      let n := with_item_name n (bin_TagMode a) in
      '(agg, c) ← AggType c n now;
      let b := mkBase n [] "graphite" agg (bin_ResolutionTime a (ToTime stat)) (Min stat) (Max stat) 0
                      (Last stat) 0 in
      Some (set_stats a (<[stat_key := GraphiteItem (base_add_repr now b stat)]> (bin_Stats a)), c,
            with_name stat n)
  end.

(** ** Carbon2 *)

Definition errAccUnitRequired : goerror := GoError "unit Tag is required".
Definition errAccMTypeRequired : goerror := GoError "mtype Tag is required".

(** The key's text and the values; with no double space the key is the
    whole line.  [None] is the panic of a line without words. *)
Definition carbon_parts (line : string) : option (string * list string) :=
  match Split line DOUBLE_SPACE_SEPARATOR with
  | [] | [_] =>
      match Fields line with
      | [] => None
      | _ :: vals => Some (line, vals)
      end
  | key :: meta :: _ => Some (key, Fields meta)
  end.

(** The tags of the key, the meta tags, the value and the time. *)
Definition carbon_parse (now : Z) (line : string)
    : option ((SortingTags * SortingTags * float64 * Z) + goerror) :=
  '(key, vals) ← carbon_parts line;
  let lVals := length vals in
  if (lVals <? 2)%nat then Some (inr (GoError ("Accumulate: Invalid CarbonTwo line `" +:+ line +:+ "`")))
  else
    intime_ ← vals !! (lVals - 1)%nat;
    val_ ← vals !! (lVals - 2)%nat;
    let t := match ParseInt intime_ with Some i => nano_or_second i | None => now end in
    Some match ParseFloat val_ with
         | None => inr (GoError ("Accumulate: Bad Value | Invalid CarbonTwo line `" +:+ line +:+ "`"))
         | Some fVal =>
             let tags := SortingTagsFromString key in
             if bool_decide (Unit_ tags = ""%string) then inr errAccUnitRequired
             else if bool_decide (Mtype tags = ""%string) then inr errAccMTypeRequired
             else inl (tags, SortingTagsFromArray (take (lVals - 2) vals), fVal, t)
         end.

(** The result of the merge is not used: it is the receiver, unless that
    was empty, which the test for a unit excludes. *)
Definition carbon_ProcessLine (a : BinAccumulate) (c : C) (now : Z) (line : string)
    : option (BinAccumulate * C * option goerror) :=
  r ← carbon_parse now line;
  match r with
  | inr err => Some (a, c, Some err)
  | inl (tags, metaTags, fVal, t) =>
      let '(tags, metaTags) :=
        match bin_TagMode a with
        | TAG_ALLTAGS => ((Tags.Merge tags metaTags).1, [])
        | TAG_METRICS2 => (tags, metaTags)
        end in
      let tags := sort_Sort tags_Less tags in
      let unique_key := ToStringSep tags IS_SEPARATOR DOT_SEPARATOR in
      let stat_key := bin_MapKey a unique_key t in
      match bin_Stats a !! stat_key with
      | Some gots =>
          Some (set_stats a (<[stat_key := item_Accumulate now gots fVal f_1]> (bin_Stats a)), c, None)
      | None =>
          '(agg, c) ← AggTypeFromTag c (Stat tags) now;
          let gots := CarbonTwoItem (fresh_base (new_name unique_key tags metaTags a) "carbontwo" agg
                                                (bin_ResolutionTime a t)) in
          Some (set_stats a (<[stat_key := item_Accumulate now gots fVal f_1]> (bin_Stats a)), c, None)
      end
  end.

Definition carbon_ProcessLineToRepr (a : BinAccumulate) (now : Z) (line : string) : option (StatRepr + goerror) :=
  r ← carbon_parse now line;
  Some match r with
       | inr err => inr err
       | inl (tags, metaTags, fVal, t) =>
           let '(tags, metaTags) :=
             match bin_TagMode a with
             | TAG_ALLTAGS => ((Tags.Merge tags metaTags).2, [])
             | TAG_METRICS2 => (tags, metaTags)
             end in
           let tags := sort_Sort tags_Less tags in
           let unique_key := ToStringSep tags IS_SEPARATOR DOT_SEPARATOR in
           inl (mkRepr (Some (new_name unique_key tags metaTags a)) (UnixNano t) 0 0 0 fVal 1)
       end.

Definition carbon_ProcessRepr (a : BinAccumulate) (c : C) (now : Z) (stat : StatRepr)
    : option (BinAccumulate * C * StatRepr) :=
  n ← r_Name stat;
  let n := repr_tags (bin_TagMode a) n in
  let stat := with_name stat n in
  let statKey := bin_MapKey a (ToStringSep (Tags n) IS_SEPARATOR DOT_SEPARATOR) (ToTime stat) in
  match bin_Stats a !! statKey with
  | Some (CarbonTwoItem b) =>
      Some (set_stats a (<[statKey := CarbonTwoItem (base_add_repr now b stat)]> (bin_Stats a)), c, stat)
  | Some _ => None
  | None =>
      '(agg, c) ← AggTypeFromTag c (Stat (Tags n)) now;
      let b := fresh_base n "carbontwo" agg (bin_ResolutionTime a (ToTime stat)) in
      Some (set_stats a (<[statKey := CarbonTwoItem (base_add_repr now b stat)]> (bin_Stats a)), c, stat)
  end.

(** ** JSON *)

(** [json.Unmarshal] of a line. *)
Variable Unmarshal : string -> JsonStruct + goerror.

Definition json_time (now : Z) (spl : JsonStruct) : Z :=
  if js_Time spl >? 0 then nano_or_second (js_Time spl) else now.

(** The tags and meta tags by the tag mode: the pointers [Metric2FromMap]
    returns are dereferenced, and a nil one panics. *)
Definition json_tags (mode : TagMode) (spl : JsonStruct) : option (SortingTags * SortingTags) :=
  match mode with
  | TAG_ALLTAGS => Some ([], [])
  | TAG_METRICS2 =>
      '(tgs, meta) ← Metric2FromMap (js_Tags spl);
      tgs ← tgs; meta ← meta; Some (tgs, meta)
  end.

Definition json_ProcessLine (a : BinAccumulate) (c : C) (now : Z) (line : string)
    : option (BinAccumulate * C * option goerror) :=
  match Unmarshal line with
  | inr err => Some (a, c, Some err)
  | inl spl =>
      let t := json_time now spl in
      '(tgs, metatags) ← json_tags (bin_TagMode a) spl;
      let stat_key := bin_MapKey a (js_Metric spl +:+ ToStringSep tgs DOT_SEPARATOR DOT_SEPARATOR) t in
      match bin_Stats a !! stat_key with
      | Some gots =>
          Some (set_stats a (<[stat_key := item_Accumulate now gots (js_Value spl) f_1]> (bin_Stats a)), c, None)
      | None =>
          let nm := new_name (js_Metric spl) tgs metatags a in
          '(agg, c) ← AggType c nm now;
          let gots := JsonItem (fresh_base nm "json" agg (bin_ResolutionTime a t)) in
          Some (set_stats a (<[stat_key := item_Accumulate now gots (js_Value spl) f_1]> (bin_Stats a)), c, None)
      end
  end.

Definition json_ProcessLineToRepr (a : BinAccumulate) (now : Z) (line : string) : option (StatRepr + goerror) :=
  match Unmarshal line with
  | inr err => Some (inr err)
  | inl spl =>
      let t := json_time now spl in
      '(tgs, metatags) ← json_tags (bin_TagMode a) spl;
      Some (inl (mkRepr (Some (new_name (js_Metric spl) tgs metatags a)) (UnixNano t) 0 0 0 (js_Value spl) 1))
  end.

(** The meta tags stay in the mode of all tags, the hash mode is set, and
    the point is merged whatever its count. *)
Definition json_repr_name (a : BinAccumulate) (n : StatName) : StatName :=
  let n := match bin_TagMode a with
           | TAG_ALLTAGS => set_tags (repr_tags TAG_ALLTAGS n) (Tags (repr_tags TAG_ALLTAGS n)) (MetaTags n)
           | TAG_METRICS2 => repr_tags TAG_METRICS2 n
           end in
  mkName (Key n) (uniqueId n) (uniqueIdstr n) (Resolution n) (Ttl n) (tagMode n) (bin_HashMode a) (Tags n) (MetaTags n).

Definition json_ProcessRepr (a : BinAccumulate) (c : C) (now : Z) (stat : StatRepr)
    : option (BinAccumulate * C * StatRepr) :=
  n ← r_Name stat;
  let n := json_repr_name a n in
  let stat := with_name stat n in
  let stat_key := bin_MapKey a (Key n +:+ ToStringSep (Tags n) DOT_SEPARATOR DOT_SEPARATOR) (ToTime stat) in
  match bin_Stats a !! stat_key with
  | Some (JsonItem b) =>
      Some (set_stats a (<[stat_key := JsonItem (base_Merge b stat)]> (bin_Stats a)), c, stat)
  | Some _ => None
  | None =>
      let n := with_item_name n (bin_TagMode a) in
      '(agg, c) ← AggType c n now;
      let b := mkBase n [] "graphite" agg (bin_ResolutionTime a (ToTime stat)) (Min stat) (Max stat) 0
                      (Last stat) 0 in
      Some (set_stats a (<[stat_key := JsonItem (base_Merge b stat)]> (bin_Stats a)), c,
            with_name stat n)
  end.

(** ** Statsd *)

Record StatsdAccumulate := mkStatsdAcc {
  sd_Stats : gmap string StatItem;
  sd_InTags : option SortingTags;
  sd_InKeepKeys : bool;
  sd_TagMode : TagMode;
  sd_HashMode : HashMode;
  sd_options : StatsdOptions
}.

Definition sd_set_stats (a : StatsdAccumulate) (m : gmap string StatItem) : StatsdAccumulate :=
  mkStatsdAcc m (sd_InTags a) (sd_InKeepKeys a) (sd_TagMode a) (sd_HashMode a) (sd_options a).

(** 0.90, 0.95 and 0.99. *)
Definition default_thresholds : list float64 := [0x3FECCCCCCCCCCCCD; 0x3FEE666666666666; 0x3FEFAE147AE147AE].

Definition default_options : StatsdOptions :=
  mkOptions true "stats" "" "gauges" "timers" "sets" "counters" default_thresholds.

(** The numbers of a list, up to the first that is not one. *)
Fixpoint parse_thresholds (vals : list string) (acc : list float64) : list float64 * bool :=
  match vals with
  | [] => (acc, true)
  | v :: vals => match ParseFloat v with Some f => parse_thresholds vals (acc ++ [f]) | None => (acc, false) end
  end.

(** The errors of [SetOptions]; the function and the text [strconv] names
    in its own are left out. *)
Definition errOption : goerror := GoError "Options require two arguments".
Definition errParse : goerror := GoError "invalid syntax".

(** One option: the options afterwards, and the error that stops the
    loop. *)
Definition set_option (o : StatsdOptions) (k v : string) : StatsdOptions * option goerror :=
  let '(mkOptions leg pre suf g t s c th) := o in
  if bool_decide (k = "legacyNamespace"%string) then
    match ParseBool v with Some ok => (mkOptions ok pre suf g t s c th, None) | None => (o, Some errParse) end
  else if bool_decide (k = "prefixGauge"%string) then (mkOptions leg pre suf v t s c th, None)
  else if bool_decide (k = "prefixTimer"%string) then (mkOptions leg pre suf g v s c th, None)
  else if bool_decide (k = "prefixSet"%string) then (mkOptions leg pre suf g t v c th, None)
  else if bool_decide (k = "prefixCounter"%string) then (mkOptions leg pre suf g t s v th, None)
  else if bool_decide (k = "globalSuffix"%string) then (mkOptions leg pre v g t s c th, None)
  else if bool_decide (k = "globalPrefix"%string) then (mkOptions leg v suf g t s c th, None)
  else if bool_decide (k = "percentThreshold"%string) then
    let '(th, ok) := parse_thresholds (Split v ",") [] in
    (mkOptions leg pre suf g t s c th, if ok then None else Some errParse)
  else (o, None).

Fixpoint set_options (o : StatsdOptions) (ops : list (list string)) : StatsdOptions * option goerror :=
  match ops with
  | [] => (o, None)
  | [k; v] :: ops =>
      match set_option o k v with
      | (o, None) => set_options o ops
      | (o, Some err) => (o, Some err)
      end
  | _ :: _ => (o, Some errOption)
  end.

Definition SetOptions (a : StatsdAccumulate) (ops : list (list string)) : StatsdAccumulate * option goerror :=
  let '(o, err) := set_options default_options ops in
  (mkStatsdAcc (sd_Stats a) (sd_InTags a) (sd_InKeepKeys a) (sd_TagMode a) (sd_HashMode a) o, err).

(** [fmt.Fprintf(w, s)] with no operands: what it writes. *)
Variable Sprintf0 : string -> string.

(** A line, parsed: key, type, the value's text, its number (0 for a
    set), the sample rate, the text of the tags and the tags. *)
Record statsd_parsed := mkParsed {
  p_key : string;
  p_type : string;
  p_text : string;
  p_val : float64;
  p_sample : float64;
  p_tagstr : string;
  p_tags : SortingTags
}.

(** The sample part, when there is one: the rate and the text in front of
    the at sign. *)
Definition statsd_sample (line val : string) (valType : list string) : (float64 * string) + goerror :=
  match valType with
  | [_; _; s] =>
      match Split s "@" with
      | [pre; rate] =>
          match ParseFloat rate with
          | Some r => inl (r, pre)
          | None => inr (GoError ("Accumulate: Bad Sample number | Invalid Statds line `" +:+ line +:+ "`"))
          end
      | _ => inr (GoError ("Accumulate: Sample | Invalid Statds line `" +:+ line +:+ "`"))
      end
  | _ => inl (f_1, val)
  end.

(** A gauge whose value's text occurs in a minus sign or in a plus sign. *)
Definition gauge_type (cType val : string) : string :=
  if bool_decide (cType = "g"%string) then
    if Contains "-" val then "-g" else if Contains "+" val then "+g" else cType
  else cType.

Definition statsd_parse (line : string) : statsd_parsed + goerror :=
  let got_tags := Split line "|#" in
  match Split (default ""%string (head got_tags)) ":" with
  | key :: vt :: _ =>
      let valType := Split vt "|" in
      let val := default ""%string (head valType) in
      let cType := gauge_type (default "c"%string (valType !! 1%nat)) val in
      match (if bool_decide (cType = "s"%string) then Some 0 else ParseFloat val) with
      | None => inr (GoError ("Accumulate: Bad Value | Invalid Statds line `" +:+ line +:+ "`"))
      | Some fVal =>
          match statsd_sample line val valType with
          | inr err => inr err
          | inl (sample, val) =>
              let '(tags, tagstr) :=
                match got_tags with
                | _ :: t :: _ => (sort_Sort tags_Less (SortingTagsFromString t), t)
                | _ => ([], ""%string)
                end in
              inl (mkParsed key cType val fVal sample tagstr tags)
          end
      end
  | _ => inr (GoError ("Accumulate: Invalid Statds line `" +:+ line +:+ "`"))
  end.

Definition statsd_key_of (p : statsd_parsed) : string := p_key p +:+ "|" +:+ p_type p +:+ "|#" +:+ p_tagstr p.

(** A new item, by the type. *)
Definition statsd_new (a : StatsdAccumulate) (p : statsd_parsed) : StatItem :=
  let nm := mkName (p_key p) 0 "" 0 0 (sd_TagMode a) (sd_HashMode a) (p_tags p) [] in
  if bool_decide (p_type p = "ms"%string) || bool_decide (p_type p = "h"%string) then
    TimerItem (mkTimer nm "ms" 0 ACC_MIN_FLAG ACC_MIN_FLAG 0 ACC_MIN_FLAG 0 [] default_thresholds 0)
  else if bool_decide (p_type p = "s"%string) then SetItem (mkSet nm "s" ∅ 0)
  else StatsdItem (mkStatsd nm 0 ACC_MIN_FLAG ACC_MIN_FLAG 0 ACC_MIN_FLAG (p_type p) 0).

(** The number accumulated: for a set, the hash of the text. *)
Definition statsd_value (p : statsd_parsed) : float64 :=
  if bool_decide (p_type p = "s"%string) then float_of_Z (fnv64a (string_bytes (Sprintf0 (p_text p)))) else p_val p.

Definition statsd_ProcessLine (a : StatsdAccumulate) (now : Z) (line : string) : StatsdAccumulate * option goerror :=
  match statsd_parse line with
  | inr err => (a, Some err)
  | inl p =>
      (sd_set_stats a (upsert (sd_Stats a) (statsd_key_of p) (statsd_new a p)
         (fun i => item_Accumulate now i (statsd_value p) (fdiv f_1 (p_sample p)))), None)
  end.

(** The value is not parsed: the sum is zero over the sample rate. *)
Definition statsd_ProcessLineToRepr (a : StatsdAccumulate) (now : Z) (line : string) : StatRepr + goerror :=
  let got_tags := Split line "|#" in
  match Split (default ""%string (head got_tags)) ":" with
  | key :: vt :: _ =>
      match statsd_sample line "" (Split vt "|") with
      | inr err => inr err
      | inl (sample, _) =>
          let tags := match got_tags with
                      | _ :: t :: _ => sort_Sort tags_Less (SortingTagsFromString t)
                      | _ => []
                      end in
          let nm := mkName key 0 "" 0 0 (sd_TagMode a) (sd_HashMode a) tags [] in
          inl (mkRepr (Some nm) (UnixNano now) 0 0 0 (fdiv (fmul 0 f_1) sample) 1)
      end
  | _ => inr (GoError ("Accumulate: Invalid Statds line `" +:+ line +:+ "`"))
  end.

(** [ProcessRepr] takes the key for a line; a nil name panics. *)
Definition statsd_ProcessRepr (a : StatsdAccumulate) (now : Z) (stat : StatRepr)
    : option (StatsdAccumulate * option goerror) :=
  n ← r_Name stat; Some (statsd_ProcessLine a now (Key n)).

Definition sd_FlushList (a : StatsdAccumulate) (now : Z) : flushedList * StatsdAccumulate :=
  let '(fl, m) := flush_list (sd_InKeepKeys a) now (sd_Stats a) in (fl, sd_set_stats a m).

Definition sd_Reset (a : StatsdAccumulate) : StatsdAccumulate :=
  sd_set_stats a (reset (sd_InKeepKeys a) (sd_Stats a)).

End lines.
