(* ===== verification/AccumulateTheorems.v ===== *)
(** The accumulators: what an item holds after a sequence of values, that
    every accepted value is in exactly one item and is handed out by
    exactly one flush, and what the tag modes and formats do to a line. *)
From S2P Require Import Prelude Bits Float64 GoStrings GoParse GoFormat GoSort LRU LRUTheorems.
From S2P Require Import Tags Repr Aggs Aggregator Splitter Formatter StatItem Accumulate.

Open Scope Z_scope.

(** ** One item *)

Definition finite (v : float64) : bool := negb (IsInf v || IsNaN v).

(** The values an item keeps of a sequence. *)
Definition kept (vals : list float64) : list float64 := filter (fun v => finite v = true) vals.

(** [m] is the least of [vals] in the order of the floats. *)
Definition least (less : float64 -> float64 -> bool) (vals : list float64) (m : float64) : Prop :=
  m ∈ vals /\ forall v, v ∈ vals -> less v m = false.

Lemma finite_not_nan (v : float64) : finite v = true -> IsNaN v = false.
Proof. unfold finite. intros H. bool_to_prop. done. Qed.

(** What a sequence of finite values leaves in an item. *)
Record summary (b0 b : BaseStatItem) (vals : list float64) : Prop := {
  sum_values : b_Values b = vals;
  sum_count : b_Count b = i64 (Z.of_nat (length vals));
  sum_sum : b_Sum b = fsum vals;
  sum_last : b_Last b = default ACC_MIN_FLAG (last vals);
  sum_min : Forall (fun v => is_flag v = false) vals ->
    if decide (vals = []) then b_Min b = ACC_MIN_FLAG else least flt vals (b_Min b);
  sum_max : Forall (fun v => is_flag v = false) vals ->
    if decide (vals = []) then b_Max b = ACC_MIN_FLAG else least fgt vals (b_Max b);
  sum_same : b_InKey b = b_InKey b0 /\ b_InType b = b_InType b0 /\ b_ReduceFunc b = b_ReduceFunc b0 /\
             b_Time b = b_Time b0
}.

Lemma is_flag_flag : is_flag ACC_MIN_FLAG = true.
Proof. vm_compute. reflexivity. Qed.

Lemma i64_succ (n : nat) : i64 (i64 (Z.of_nat n) + 1) = i64 (Z.of_nat (n + 1)).
Proof. rewrite i64_add_l. f_equal. lia. Qed.

(** The minimum and the maximum follow the same rule for the two
    orders. *)
Lemma extreme_snoc (less : float64 -> float64 -> bool) (vals : list float64) (m v : float64) :
  less = flt \/ less = fgt ->
  Forall (fun v => finite v = true) (vals ++ [v]) -> Forall (fun v => is_flag v = false) (vals ++ [v]) ->
  (if decide (vals = []) then m = ACC_MIN_FLAG else least less vals m) ->
  least less (vals ++ [v]) (if is_flag m || less v m then v else m).
Proof.
  intros Hless Hfin Hflag H. apply Forall_app in Hfin as [Hfin Hv]. apply Forall_app in Hflag as [Hflag _].
  destruct (decide (vals = [])) as [->|Hne].
  - rewrite H, is_flag_flag. cbn [orb app]. split; [set_solver|]. intros x ->%list_elem_of_singleton.
    destruct Hless as [-> | ->]; unfold fgt; apply flt_irrefl.
  - assert (Hm : is_flag m = false) by (rewrite Forall_forall in Hflag; apply Hflag, H).
    rewrite Hm. cbn [orb]. pose proof H as [Hin Hl]. rewrite Forall_forall in Hfin.
    rewrite Forall_singleton in Hv. apply finite_not_nan in Hv.
    assert (Hn : forall x, x ∈ vals -> IsNaN x = false) by (intros; by apply finite_not_nan, Hfin).
    destruct (less v m) eqn:E.
    + split; [set_solver|]. intros x [Hx|Hx%list_elem_of_singleton]%elem_of_app.
      * specialize (Hl x Hx). destruct Hless as [-> | ->]; unfold fgt, flt in *; rewrite Hv, ?(Hn x), ?(Hn m) in * by done;
          simpl in *; bool_to_prop; bool_lia.
      * subst. destruct Hless as [-> | ->]; unfold fgt; apply flt_irrefl.
    + split; [set_solver|]. intros x [Hx|Hx%list_elem_of_singleton]%elem_of_app; [by apply Hl|by subst].
Qed.

Lemma item_summary_snoc (b0 b : BaseStatItem) (vals : list float64) (v : float64) :
  Forall (fun v => finite v = true) (vals ++ [v]) ->
  summary b0 b vals -> summary b0 (base_Accumulate b v) (vals ++ [v]).
Proof.
  intros Hf H. assert (Hv : finite v = true) by (apply Forall_app in Hf as [_ Hf]; by rewrite Forall_singleton in Hf).
  unfold finite in Hv. apply negb_true_iff in Hv. unfold base_Accumulate. rewrite Hv.
  assert (Hext : forall less m, less = flt \/ less = fgt ->
    (Forall (fun v => is_flag v = false) vals -> if decide (vals = []) then m = ACC_MIN_FLAG else least less vals m) ->
    Forall (fun v => is_flag v = false) (vals ++ [v]) ->
    if decide (vals ++ [v] = []) then (if is_flag m || less v m then v else m) = ACC_MIN_FLAG
    else least less (vals ++ [v]) (if is_flag m || less v m then v else m)).
  { intros less m Hless Hm Hflag. rewrite decide_False by (by destruct vals). apply extreme_snoc; [done|done|done|].
    apply Hm. by apply Forall_app in Hflag as [? _]. }
  constructor; cbn [b_Values b_Count b_Sum b_Last b_Min b_Max b_InKey b_InType b_ReduceFunc b_Time].
  - by rewrite (sum_values _ _ _ H).
  - rewrite (sum_count _ _ _ H), length_app. apply i64_succ.
  - rewrite (sum_sum _ _ _ H). unfold fsum. by rewrite foldl_app.
  - by rewrite last_snoc.
  - apply (Hext flt); [by left|apply H].
  - apply (Hext fgt); [by right|apply H].
  - apply H.
Qed.

Lemma base_Accumulate_skip (b : BaseStatItem) (v : float64) : finite v = false -> base_Accumulate b v = b.
Proof. unfold finite. intros H. apply negb_false_iff in H. unfold base_Accumulate. by rewrite H. Qed.

Definition fresh (b : BaseStatItem) : Prop := summary b b [].

Lemma fresh_base_fresh (nm : StatName) (ty : string) (agg t : Z) : fresh (fresh_base nm ty agg t).
Proof. by constructor. Qed.

(** A fresh item that is given a sequence of values summarises those that
    are finite. *)
Lemma item_summary (b : BaseStatItem) (vals : list float64) :
  fresh b -> summary b (foldl base_Accumulate b vals) (kept vals).
Proof.
  intros Hb. induction vals as [|v vals IH] using rev_ind; [done|].
  rewrite foldl_app. cbn [foldl]. unfold kept in *. rewrite filter_app.
  destruct (finite v) eqn:E.
  - rewrite filter_cons_True, filter_nil by done. apply item_summary_snoc; [|done].
    apply Forall_app. split; [|by apply Forall_singleton]. apply Forall_forall. intros x Hx.
    by apply list_elem_of_filter in Hx as [? _].
  - rewrite filter_cons_False, filter_nil, app_nil_r by congruence. by rewrite base_Accumulate_skip.
Qed.

(** ** The interface of an accumulator of lines

    What the rest of the development needs of [ProcessLine]: a line is
    refused with an error and changes nothing, or it adds one value to
    the item of one key, made fresh when the key is new. *)

(** Every cached aggregation type is one of the nine. *)
Definition known_agg (v : Z) : Prop := 1 <= v <= 9.

Definition aggs_ok {C} {MC : MemoCache C aggItem} (c : C) : Prop := memo_ok (fun _ v => known_agg v) c.

Class LineAccumulator (C : Type) {MC : MemoCache C aggItem} := {
  la_process : BinAccumulate -> C -> Z -> string -> option (BinAccumulate * C * option goerror);
  la_event : BinAccumulate -> Z -> string -> option (string * float64);
  la_item : BaseStatItem -> StatItem;
  la_line : string -> Prop;
  la_event_config : forall a m now line, la_event (set_stats a m) now line = la_event a now line;
  la_item_acc : forall now b v s, item_Accumulate now (la_item b) v s = la_item (base_Accumulate b v);
  la_item_zero : forall b, item_ZeroOut (la_item b) = la_item (base_ZeroOut b);
  la_item_repr : forall now b, item_Repr now (la_item b) = base_Repr b;
  la_law : forall a c now line, aggs_ok c -> la_line line ->
    exists c', aggs_ok c' /\
      match la_event a now line with
      | None => exists e, la_process a c now line = Some (a, c', Some e)
      | Some (k, v) =>
          exists b, fresh b /\ known_agg (b_ReduceFunc b) /\
            la_process a c now line =
              Some (set_stats a (upsert (bin_Stats a) k (la_item b) (fun i => item_Accumulate now i v f_1)), c', None)
      end
}.

Section agg_total.
Context {C : Type} {MC : MemoCache C aggItem}.

Lemma aggMap_known (s : string) (v : Z) : aggMap !! s = Some v -> known_agg v.
Proof.
  assert (H : map_Forall (fun _ v => known_agg v) aggMap).
  { apply map_Forall_to_list. unfold known_agg. vm_compute. repeat constructor; discriminate. }
  intros Hs. by apply (H s).
Qed.

Lemma AggTypeFromTag_known (c : C) (stat : string) (now : Z) :
  aggs_ok c -> exists v c', AggTypeFromTag c stat now = Some (v, c') /\ known_agg v /\ aggs_ok c'.
Proof.
  intros Hc. unfold AggTypeFromTag. destruct (aggMap !! ToLower stat) as [v|] eqn:E.
  { exists v, c. split; [done|]. split; [by eapply aggMap_known|done]. }
  destruct (memo_get_ok _ c (ToLower stat) now Hc) as (v & c1 & -> & Hc1 & Hv). cbn [mbind option_bind].
  destruct v as [v|]; [exists v, c1; split_and!; [done|by apply Hv|done]|].
  assert (Hk : known_agg (tag_switch (ToLower stat))).
  { unfold tag_switch, known_agg. repeat case_if; vm_compute; split; discriminate. }
  destruct (memo_set_ok _ c1 (ToLower stat) _ now Hc1 Hk) as (c2 & -> & Hc2). by eexists _, c2.
Qed.

Lemma Guess_known (c : C) (metric : string) (now : Z) :
  aggs_ok c -> exists v c', GuessReprValueFromKey c metric now = Some (v, c') /\ known_agg v /\ aggs_ok c'.
Proof.
  intros Hc. unfold GuessReprValueFromKey.
  destruct (memo_get_ok _ c metric now Hc) as (v & c1 & -> & Hc1 & Hv). cbn [mbind option_bind].
  destruct v as [v|]; [exists v, c1; split_and!; [done|by apply Hv|done]|].
  set (got := match aggMap !! last_path_of metric with Some got => got | None => _ end).
  assert (Hk : known_agg got).
  { unfold got. destruct (aggMap !! last_path_of metric) eqn:E; [by eapply aggMap_known|].
    unfold key_switch, known_agg. repeat case_if; vm_compute; split; discriminate. }
  destruct (memo_set_ok _ c1 metric _ now Hc1 Hk) as (c2 & -> & Hc2). by eexists _, c2.
Qed.

Lemma AggType_known (c : C) (n : StatName) (now : Z) :
  aggs_ok c -> exists v c', AggType c n now = Some (v, c') /\ known_agg v /\ aggs_ok c'.
Proof.
  intros Hc. unfold AggType. case_bool_decide; [by apply AggTypeFromTag_known|by apply Guess_known].
Qed.

End agg_total.

Section instances.
Context `{!GoSort}.
Context {C : Type} {MC : MemoCache C aggItem}.

(** The key a Graphite line is accumulated under, and its value. *)
Definition graphite_event (a : BinAccumulate) (now : Z) (line : string) : option (string * float64) :=
  match graphite_parse now line with
  | inr _ => None
  | inl (key, v, t, tags) =>
      let tgs := sort_Sort tags_Less (graphite_tags (bin_TagMode a) tags).1 in
      Some (bin_MapKey a (key +:+ ToStringSep tgs DOT_SEPARATOR DOT_SEPARATOR) t, v)
  end.

Lemma graphite_law (a : BinAccumulate) (c : C) (now : Z) (line : string) :
  aggs_ok c ->
  exists c', aggs_ok c' /\
    match graphite_event a now line with
    | None => exists e, graphite_ProcessLine a c now line = Some (a, c', Some e)
    | Some (k, v) =>
        exists b, fresh b /\ known_agg (b_ReduceFunc b) /\
          graphite_ProcessLine a c now line =
            Some (set_stats a (upsert (bin_Stats a) k (GraphiteItem b) (fun i => item_Accumulate now i v f_1)), c', None)
    end.
Proof.
  intros Hc. unfold graphite_event, graphite_ProcessLine.
  destruct (graphite_parse now line) as [[[[key v] t] tags]|err]; [|by exists c; eauto].
  destruct (graphite_tags (bin_TagMode a) tags) as [tgs meta]. cbn [fst].
  set (tg := sort_Sort tags_Less tgs). set (k := bin_MapKey a _ t). unfold upsert.
  destruct (AggType_known c (new_name key tg meta a) now Hc) as (agg & c' & Hagg & Hk & Hc').
  destruct (bin_Stats a !! k) as [gots|].
  - exists c. split; [done|]. exists (fresh_base (new_name key tg meta a) "graphite" agg (bin_ResolutionTime a t)).
    split; [apply fresh_base_fresh|]. by split.
  - exists c'. split; [done|]. exists (fresh_base (new_name key tg meta a) "graphite" agg (bin_ResolutionTime a t)).
    split; [apply fresh_base_fresh|]. split; [done|]. by rewrite Hagg.
Qed.

#[refine] Instance graphite_LineAccumulator : LineAccumulator C := {|
  la_process := graphite_ProcessLine;
  la_event := graphite_event;
  la_item := GraphiteItem;
  la_line := fun _ => True
|}.
Proof. all: try done. intros. by apply graphite_law. Defined.

Definition carbon_event (a : BinAccumulate) (now : Z) (line : string) : option (string * float64) :=
  match carbon_parse now line with
  | Some (inl (tags, meta, v, t)) =>
      let tags := match bin_TagMode a with TAG_ALLTAGS => (Tags.Merge tags meta).1 | TAG_METRICS2 => tags end in
      Some (bin_MapKey a (ToStringSep (sort_Sort tags_Less tags) IS_SEPARATOR DOT_SEPARATOR) t, v)
  | _ => None
  end.

Lemma carbon_parse_total (now : Z) (line : string) :
  carbon_parts line <> None -> exists r, carbon_parse now line = Some r.
Proof.
  intros Hp. unfold carbon_parse. destruct (carbon_parts line) as [[key vals]|]; [|done]. cbn [mbind option_bind].
  destruct (length vals <? 2)%nat eqn:E; [by eexists|]. apply Nat.ltb_ge in E.
  destruct (lookup_lt_is_Some_2 vals (length vals - 1)) as [x ->]; [lia|].
  destruct (lookup_lt_is_Some_2 vals (length vals - 2)) as [y ->]; [lia|]. by eexists.
Qed.

Lemma carbon_law (a : BinAccumulate) (c : C) (now : Z) (line : string) :
  aggs_ok c -> carbon_parts line <> None ->
  exists c', aggs_ok c' /\
    match carbon_event a now line with
    | None => exists e, carbon_ProcessLine a c now line = Some (a, c', Some e)
    | Some (k, v) =>
        exists b, fresh b /\ known_agg (b_ReduceFunc b) /\
          carbon_ProcessLine a c now line =
            Some (set_stats a (upsert (bin_Stats a) k (CarbonTwoItem b) (fun i => item_Accumulate now i v f_1)), c', None)
    end.
Proof.
  intros Hc Hp. unfold carbon_event, carbon_ProcessLine. destruct (carbon_parse_total now line Hp) as [r ->].
  cbn [mbind option_bind]. destruct r as [[[[tags meta] v] t]|err]; [|by exists c; eauto].
  destruct (match bin_TagMode a with TAG_METRICS2 => (tags, meta) | TAG_ALLTAGS => ((Tags.Merge tags meta).1, []) end)
    as [tags' meta'] eqn:Et.
  replace (match bin_TagMode a with TAG_METRICS2 => tags | TAG_ALLTAGS => (Tags.Merge tags meta).1 end) with tags'
    by (destruct (bin_TagMode a); congruence).
  set (tg := sort_Sort tags_Less tags'). set (k := bin_MapKey a _ t). unfold upsert.
  set (u := ToStringSep tg IS_SEPARATOR DOT_SEPARATOR).
  destruct (AggTypeFromTag_known c (Stat tg) now Hc) as (agg & c' & Hagg & Hk & Hc').
  destruct (bin_Stats a !! k) as [gots|].
  - exists c. split; [done|]. exists (fresh_base (new_name u tg meta' a) "carbontwo" agg (bin_ResolutionTime a t)).
    split; [apply fresh_base_fresh|]. by split.
  - exists c'. split; [done|]. exists (fresh_base (new_name u tg meta' a) "carbontwo" agg (bin_ResolutionTime a t)).
    split; [apply fresh_base_fresh|]. split; [done|]. by rewrite Hagg.
Qed.

#[refine] Instance carbon_LineAccumulator : LineAccumulator C := {|
  la_process := carbon_ProcessLine;
  la_event := carbon_event;
  la_item := CarbonTwoItem;
  la_line := fun line => carbon_parts line <> None
|}.
Proof. all: try done. intros. by apply carbon_law. Defined.

End instances.

(** ** Sequences of lines and flushes *)

Inductive acc_op := OpLine (now : Z) (line : string) | OpFlush (now : Z).

Section runs.
Context {C : Type} {MC : MemoCache C aggItem} {LA : LineAccumulator C}.

(** The state, the lists flushed so far, and whether each line was
    refused. *)
Fixpoint run (a : BinAccumulate) (c : C) (ops : list acc_op)
    : option (BinAccumulate * C * list flushedList * list bool) :=
  match ops with
  | [] => Some (a, c, [], [])
  | OpLine now line :: ops =>
      '(a, c, err) ← la_process a c now line;
      '(a, c, out, refused) ← run a c ops;
      Some (a, c, out, bool_decide (err <> None) :: refused)
  | OpFlush now :: ops =>
      let '(fl, a) := bin_FlushList a now in
      '(a, c, out, refused) ← run a c ops;
      Some (a, c, fl :: out, refused)
  end.

Definition lines_ok (ops : list acc_op) : Prop :=
  Forall (fun op => match op with OpLine _ line => la_line line | OpFlush _ => True end) ops.

(** ** What the items hold *)

Definition values_of (k : string) (log : list (string * float64)) : list float64 :=
  snd <$> filter (fun kv => kv.1 = k) log.

(** The values accepted since the last flush, oldest first. *)
Fixpoint log_from (a : BinAccumulate) (log : list (string * float64)) (ops : list acc_op) : list (string * float64) :=
  match ops with
  | [] => log
  | OpLine now line :: ops => log_from a (log ++ option_list (la_event a now line)) ops
  | OpFlush _ :: ops => log_from a [] ops
  end.

(** The items are those of the log, one per key, each a fresh item given
    the values of its key in order. *)
Definition holds (m : gmap string StatItem) (log : list (string * float64)) : Prop :=
  forall k, match m !! k with
            | None => values_of k log = []
            | Some i => exists b, fresh b /\ i = la_item (foldl base_Accumulate b (values_of k log))
            end.

Lemma values_of_snoc (k k' : string) (v : float64) (log : list (string * float64)) :
  values_of k (log ++ [(k', v)]) = values_of k log ++ (if decide (k' = k) then [v] else []).
Proof.
  unfold values_of. rewrite filter_app, fmap_app. f_equal.
  destruct (decide (k' = k)); [by rewrite filter_cons_True|by rewrite filter_cons_False].
Qed.

Lemma holds_upsert (m : gmap string StatItem) (log : list (string * float64)) (now : Z) (k : string) (v : float64)
    (b : BaseStatItem) :
  holds m log -> fresh b ->
  holds (upsert m k (la_item b) (fun i => item_Accumulate now i v f_1)) (log ++ [(k, v)]).
Proof.
  intros H Hb k'. unfold upsert. specialize (H k'). rewrite values_of_snoc.
  destruct (decide (k = k')) as [<-|Hne].
  - rewrite lookup_insert_eq. destruct (m !! k) as [i|] eqn:E; simpl.
    + destruct H as (b' & Hb' & ->). exists b'. split; [done|]. by rewrite la_item_acc, foldl_app.
    + exists b. split; [done|]. rewrite H. simpl. by rewrite la_item_acc.
  - rewrite lookup_insert_ne by done. by rewrite app_nil_r.
Qed.

Lemma fresh_ZeroOut (b : BaseStatItem) : fresh (base_ZeroOut b).
Proof. by constructor. Qed.

Lemma holds_reset (keep : bool) (m : gmap string StatItem) (log : list (string * float64)) :
  holds m log -> holds (reset keep m) [].
Proof.
  intros H k. unfold reset. destruct keep; [|by rewrite lookup_empty]. rewrite lookup_fmap. specialize (H k).
  destruct (m !! k) as [i|]; [|done]. destruct H as (b & _ & ->). simpl. rewrite la_item_zero.
  eexists. split; [apply fresh_ZeroOut|]. done.
Qed.

Lemma log_from_config (a : BinAccumulate) (m : gmap string StatItem) (log : list (string * float64)) (ops : list acc_op) :
  log_from (set_stats a m) log ops = log_from a log ops.
Proof.
  revert log. induction ops as [|[now line|now] ops IH]; intros log; cbn [log_from]; [done| |done].
  by rewrite la_event_config, IH.
Qed.

Lemma run_total (ops : list acc_op) (a : BinAccumulate) (c : C) (log : list (string * float64)) :
  aggs_ok c -> lines_ok ops -> holds (bin_Stats a) log ->
  exists a' c' out refused, run a c ops = Some (a', c', out, refused) /\ aggs_ok c' /\
    holds (bin_Stats a') (log_from a log ops) /\ a' = set_stats a (bin_Stats a').
Proof.
  revert a c log. induction ops as [|op ops IH]; intros a c log Hc Hl Hh.
  { exists a, c, [], []. split_and!; [done|done|done|by destruct a]. }
  apply Forall_cons in Hl as [Hop Hl]. destruct op as [now line|now]; cbn [run log_from].
  - destruct (la_law a c now line Hc Hop) as (c' & Hc' & Hev).
    destruct (la_event a now line) as [[k v]|] eqn:Ev.
    + destruct Hev as (b & Hb & _ & ->). cbn [mbind option_bind option_list].
      destruct (IH (set_stats a (upsert (bin_Stats a) k (la_item b) (fun i => item_Accumulate now i v f_1))) c'
                   (log ++ [(k, v)]) Hc' Hl (holds_upsert _ _ now k v b Hh Hb)) as (a2 & c2 & out & r & E & Hc2 & Hh2 & Ha2).
      rewrite E. cbn [mbind option_bind]. exists a2, c2, out, (false :: r). split_and!; [done|done| |].
      * by rewrite log_from_config in Hh2.
      * by rewrite Ha2.
    + destruct Hev as (e & ->). cbn [mbind option_bind option_list]. rewrite app_nil_r.
      destruct (IH a c' log Hc' Hl Hh) as (a2 & c2 & out & r & E & Hc2 & Hh2 & Ha2). rewrite E.
      cbn [mbind option_bind]. by exists a2, c2, out, (true :: r).
  - unfold bin_FlushList, flush_list.
    destruct (IH (set_stats a (reset (bin_InKeepKeys a) (bin_Stats a))) c [] Hc Hl (holds_reset _ _ _ Hh))
      as (a2 & c2 & out & r & E & Hc2 & Hh2 & Ha2).
    rewrite E. cbn [mbind option_bind]. exists a2, c2, (((fun kv => item_Repr now kv.2) <$> map_to_list (bin_Stats a)) :: out), r.
    split_and!; [done|done|by rewrite log_from_config in Hh2|by rewrite Ha2].
Qed.

(** C7: Whatever the lines, none of which is a blank line given to a
    Carbon2 accumulator (that panics), and whatever the flushes, one after
    the other, a Graphite or Carbon2 accumulator that starts without items
    returns, and the item of every key summarises the finite values accepted
    under that key since the last flush: their sequence, their number, their
    sum in order, the last, and, when none of them is the value that marks a
    minimum or maximum as unset, the least and the greatest. *)
Theorem accumulate_refines (a : BinAccumulate) (c : C) (ops : list acc_op) :
  aggs_ok c -> lines_ok ops -> bin_Stats a = ∅ ->
  exists a' c' out refused, run a c ops = Some (a', c', out, refused) /\
    forall k, match bin_Stats a' !! k with
              | None => values_of k (log_from a [] ops) = []
              | Some i => exists b0 b, i = la_item b /\ summary b0 b (kept (values_of k (log_from a [] ops)))
              end.
Proof.
  intros Hc Hl He. destruct (run_total ops a c [] Hc Hl) as (a' & c' & out & r & E & _ & Hh & _).
  { intros k. by rewrite He, lookup_empty. }
  exists a', c', out, r. split; [done|]. intros k. specialize (Hh k). destruct (bin_Stats a' !! k) as [i|]; [|done].
  destruct Hh as (b & Hb & ->). exists b, (foldl base_Accumulate b (values_of k (log_from a [] ops))).
  split; [done|]. by apply item_summary.
Qed.

(** ** Nothing is lost and nothing is counted twice *)

Definition item_count (i : StatItem) : Z := Count (item_Repr 0 i).

Definition items_count (m : gmap string StatItem) : Z := map_fold (fun _ i n => item_count i + n) 0 m.

Definition flushed_count (fl : flushedList) : Z := foldr (fun r n => Count r + n) 0 fl.

(** The number of lines of a sequence that carry a finite value. *)
Fixpoint accepted (a : BinAccumulate) (ops : list acc_op) : Z :=
  match ops with
  | [] => 0
  | OpLine now line :: ops =>
      (match la_event a now line with Some (_, v) => if finite v then 1 else 0 | None => 0 end) + accepted a ops
  | OpFlush _ :: ops => accepted a ops
  end.

(** The items are of the accumulator's kind and no count is negative. *)
Definition counts_ok (m : gmap string StatItem) : Prop :=
  map_Forall (fun _ i => exists b, i = la_item b /\ 0 <= b_Count b) m.

Lemma item_count_item (b : BaseStatItem) : item_count (la_item b) = b_Count b.
Proof. unfold item_count. by rewrite la_item_repr. Qed.

Lemma items_count_insert (m : gmap string StatItem) (k : string) (i : StatItem) :
  items_count (<[k := i]> m) = item_count i + items_count m - default 0 (item_count <$> m !! k).
Proof.
  unfold items_count. destruct (m !! k) as [j|] eqn:E; simpl.
  - rewrite <- (insert_delete_eq m k i). rewrite map_fold_insert_L; [|intros; lia|apply lookup_delete_eq].
    rewrite (map_fold_delete_L _ _ k j m); [|intros; lia|done]. lia.
  - rewrite map_fold_insert_L; [|intros; lia|done]. lia.
Qed.

Lemma items_count_nonneg (m : gmap string StatItem) :
  counts_ok m -> 0 <= items_count m /\ forall k i, m !! k = Some i -> item_count i <= items_count m.
Proof.
  unfold items_count. induction m as [|k i m Hk IH] using map_ind; intros Hm.
  - rewrite map_fold_empty. split; [done|]. intros k i. by rewrite lookup_empty.
  - rewrite map_fold_insert_L; [|intros; lia|done]. apply map_Forall_insert in Hm as [(b & -> & Hb) Hm]; [|done].
    rewrite item_count_item. destruct (IH Hm) as [H0 Hle]. split; [lia|]. intros k' j.
    destruct (decide (k = k')) as [<-|Hne]; [rewrite lookup_insert_eq; intros [= <-]; rewrite item_count_item; lia|].
    rewrite lookup_insert_ne by done. intros Hj. specialize (Hle _ _ Hj). lia.
Qed.

Lemma flushed_count_perm (l l' : flushedList) : l ≡ₚ l' -> flushed_count l = flushed_count l'.
Proof. unfold flushed_count. induction 1; simpl; lia. Qed.

Lemma flushed_count_list (now : Z) (m : gmap string StatItem) :
  counts_ok m -> flushed_count ((fun kv => item_Repr now kv.2) <$> map_to_list m) = items_count m.
Proof.
  unfold items_count. induction m as [|k i m Hk IH] using map_ind; intros Hm.
  - by rewrite map_to_list_empty, map_fold_empty.
  - rewrite map_fold_insert_L; [|intros; lia|done]. apply map_Forall_insert in Hm as [(b & -> & Hb) Hm]; [|done].
    assert (Hp : flushed_count ((fun kv => item_Repr now kv.2) <$> map_to_list (<[k := la_item b]> m)) =
                 flushed_count ((fun kv => item_Repr now kv.2) <$> ((k, la_item b) :: map_to_list m))).
    { apply flushed_count_perm, fmap_Permutation. by apply map_to_list_insert. }
    rewrite Hp. cbn [fmap list_fmap flushed_count foldr snd]. rewrite la_item_repr, item_count_item.
    unfold flushed_count in IH. rewrite IH by done. done.
Qed.

Lemma base_Accumulate_count (b : BaseStatItem) (v : float64) :
  0 <= b_Count b < 2 ^ 63 - 1 ->
  b_Count (base_Accumulate b v) = b_Count b + (if finite v then 1 else 0).
Proof.
  intros Hb. destruct (finite v) eqn:E; [|rewrite base_Accumulate_skip by done; lia].
  unfold finite in E. apply negb_true_iff in E. unfold base_Accumulate. rewrite E. cbn [b_Count].
  apply swrap_id; lia.
Qed.

Lemma upsert_count (m : gmap string StatItem) (k : string) (b : BaseStatItem) (now : Z) (v : float64) :
  counts_ok m -> items_count m < 2 ^ 63 - 1 -> fresh b ->
  let m' := upsert m k (la_item b) (fun i => item_Accumulate now i v f_1) in
  counts_ok m' /\ items_count m' = items_count m + (if finite v then 1 else 0).
Proof.
  intros Hm Hlt Hb m'. destruct (items_count_nonneg m Hm) as [H0 Hle].
  assert (Hi : exists b', default (la_item b) (m !! k) = la_item b' /\ 0 <= b_Count b' < 2 ^ 63 - 1 /\
    default 0 (item_count <$> m !! k) = b_Count b').
  { destruct (m !! k) as [i|] eqn:E; simpl.
    - destruct (Hm k i E) as (b' & -> & Hb'). exists b'. specialize (Hle _ _ E). rewrite item_count_item in *.
      split_and!; (done || lia).
    - exists b. rewrite (sum_count _ _ _ Hb). done. }
  destruct Hi as (b' & Hd & Hb' & Hc). unfold m', upsert. rewrite Hd, la_item_acc.
  pose proof (base_Accumulate_count b' v Hb') as Hcount. split.
  - apply map_Forall_insert_2; [|done]. eexists. split; [done|]. rewrite Hcount. case_if; lia.
  - rewrite items_count_insert, Hc, item_count_item, Hcount. lia.
Qed.

Lemma reset_count (keep : bool) (m : gmap string StatItem) :
  counts_ok m -> counts_ok (reset keep m) /\ items_count (reset keep m) = 0.
Proof.
  intros Hm. unfold reset. destruct keep; [|split; [apply map_Forall_empty|done]].
  assert (Hz : counts_ok (item_ZeroOut <$> m)).
  { intros k i. rewrite lookup_fmap. intros (j & Hj & ->)%fmap_Some. destruct (Hm k j Hj) as (b & -> & _).
    rewrite la_item_zero. by eexists. }
  split; [done|]. clear Hz. unfold items_count. induction m as [|k i m Hk IH] using map_ind; [done|].
  apply map_Forall_insert in Hm as [(b & -> & _) Hm]; [|done]. rewrite fmap_insert.
  rewrite map_fold_insert_L; [|intros; lia|by rewrite lookup_fmap, Hk]. rewrite IH by done.
  by rewrite la_item_zero, item_count_item.
Qed.

Lemma accepted_config (a : BinAccumulate) (m : gmap string StatItem) (ops : list acc_op) :
  accepted (set_stats a m) ops = accepted a ops.
Proof.
  induction ops as [|[now line|now] ops IH]; cbn [accepted]; [done| |done]. by rewrite la_event_config, IH.
Qed.

Lemma run_count (ops : list acc_op) (a : BinAccumulate) (c : C) :
  aggs_ok c -> lines_ok ops -> counts_ok (bin_Stats a) ->
  items_count (bin_Stats a) + Z.of_nat (length ops) < 2 ^ 63 ->
  exists a' c' out refused, run a c ops = Some (a', c', out, refused) /\
    foldr (fun fl n => flushed_count fl + n) 0 out + items_count (bin_Stats a') =
    items_count (bin_Stats a) + accepted a ops.
Proof.
  revert a c. induction ops as [|op ops IH]; intros a c Hc Hl Hm Hlen.
  { exists a, c, [], []. split; [done|]. simpl. lia. }
  apply Forall_cons in Hl as [Hop Hl]. cbn [length] in Hlen. destruct op as [now line|now]; cbn [run accepted].
  - destruct (la_law a c now line Hc Hop) as (c' & Hc' & Hev). destruct (la_event a now line) as [[k v]|].
    + destruct Hev as (b & Hb & _ & ->). cbn [mbind option_bind].
      destruct (upsert_count (bin_Stats a) k b now v Hm ltac:(lia) Hb) as [Hm' Hc2].
      destruct (IH (set_stats a (upsert (bin_Stats a) k (la_item b) (fun i => item_Accumulate now i v f_1))) c' Hc' Hl Hm')
        as (a2 & c2 & out & r & E & Hsum).
      { cbn [bin_Stats set_stats]. rewrite Hc2. case_if; lia. }
      rewrite E. cbn [mbind option_bind]. exists a2, c2, out, (false :: r). split; [done|].
      rewrite Hsum, accepted_config. cbn [bin_Stats set_stats]. rewrite Hc2. lia.
    + destruct Hev as (e & ->). cbn [mbind option_bind].
      destruct (IH a c' Hc' Hl Hm) as (a2 & c2 & out & r & E & Hsum); [lia|]. rewrite E. cbn [mbind option_bind].
      exists a2, c2, out, (true :: r). split; [done|]. lia.
  - unfold bin_FlushList, flush_list. destruct (reset_count (bin_InKeepKeys a) (bin_Stats a) Hm) as [Hm' H0].
    destruct (IH (set_stats a (reset (bin_InKeepKeys a) (bin_Stats a))) c Hc Hl Hm') as (a2 & c2 & out & r & E & Hsum).
    { cbn [bin_Stats set_stats]. pose proof (items_count_nonneg _ Hm) as [? _]. lia. }
    rewrite E. cbn [mbind option_bind]. eexists a2, c2, _, r. split; [done|]. cbn [foldr].
    rewrite flushed_count_list by done. rewrite accepted_config in Hsum. cbn [bin_Stats set_stats] in Hsum. lia.
Qed.

(** C8: Over any sequence of lines and flushes (fewer than 2^63 of them),
    the counts of all the points handed out, plus those of the items not
    yet flushed, add up to the number of accepted lines that carry a
    finite value: no value is lost, and none is handed out twice, whether
    or not keys are kept. *)
Theorem flush_conserves (a : BinAccumulate) (c : C) (ops : list acc_op) :
  aggs_ok c -> lines_ok ops -> bin_Stats a = ∅ -> Z.of_nat (length ops) < 2 ^ 63 ->
  exists a' c' out refused, run a c ops = Some (a', c', out, refused) /\
    foldr (fun fl n => flushed_count fl + n) 0 out + items_count (bin_Stats a') = accepted a ops.
Proof.
  intros Hc Hl He Hlen. destruct (run_count ops a c Hc Hl) as (a' & c' & out & r & E & Hsum).
  - rewrite He. apply map_Forall_empty.
  - rewrite He. unfold items_count. rewrite map_fold_empty. lia.
  - exists a', c', out, r. split; [done|]. rewrite Hsum, He. unfold items_count. rewrite map_fold_empty. lia.
Qed.

End runs.

(** ** Statsd *)

Section statsd.
Context `{!GoSort} (Sprintf0 : string -> string).

(** A sequence of lines with their times. *)
Definition statsd_run (a : StatsdAccumulate) (lines : list (Z * string)) : StatsdAccumulate :=
  foldl (fun a l => (statsd_ProcessLine Sprintf0 a l.1 l.2).1) a lines.

(** The accepted lines of a key: the time, the value and the inverse of
    the sample rate. *)
Definition statsd_of (k : string) (lines : list (Z * string)) : list (Z * statsd_parsed) :=
  omap (fun l => match statsd_parse l.2 with
                 | inl p => if decide (statsd_key_of p = k) then Some (l.1, p) else None
                 | inr _ => None
                 end) lines.

Definition sd_value (np : Z * statsd_parsed) : float64 := statsd_value Sprintf0 np.2.
Definition sd_rate (np : Z * statsd_parsed) : float64 := fdiv f_1 (p_sample np.2).

Definition sd_step (i : StatItem) (np : Z * statsd_parsed) : StatItem :=
  item_Accumulate np.1 i (sd_value np) (sd_rate np).

Definition sd_kept (nps : list (Z * statsd_parsed)) : list (Z * statsd_parsed) :=
  filter (fun np => finite (sd_value np) = true) nps.

Lemma statsd_of_cons (k : string) (now : Z) (line : string) (lines : list (Z * string)) :
  statsd_of k ((now, line) :: lines) =
  match statsd_parse line with
  | inl p => if decide (statsd_key_of p = k) then (now, p) :: statsd_of k lines else statsd_of k lines
  | inr _ => statsd_of k lines
  end.
Proof. unfold statsd_of. cbn [omap list_omap fst snd]. destruct (statsd_parse line); [by case_decide|done]. Qed.

Lemma statsd_run_lookup (a : StatsdAccumulate) (lines : list (Z * string)) (k : string) :
  sd_Stats (statsd_run a lines) !! k =
  match sd_Stats a !! k, statsd_of k lines with
  | None, [] => None
  | None, np :: nps => Some (foldl sd_step (statsd_new a np.2) (np :: nps))
  | Some i, nps => Some (foldl sd_step i nps)
  end.
Proof.
  revert a. induction lines as [|[now line] lines IH]; intros a.
  { cbn. by destruct (sd_Stats a !! k). }
  unfold statsd_run in *. cbn [foldl fst snd]. rewrite IH, statsd_of_cons. unfold statsd_ProcessLine.
  destruct (statsd_parse line) as [p|err]; [|done]. cbn [fst sd_set_stats sd_Stats]. unfold upsert.
  destruct (decide (statsd_key_of p = k)) as [<-|Hne].
  - rewrite lookup_insert_eq. by destruct (sd_Stats a !! statsd_key_of p).
  - by rewrite lookup_insert_ne.
Qed.

Lemma finite_test (v : float64) : IsInf v || IsNaN v = negb (finite v).
Proof. unfold finite. by rewrite negb_involutive. Qed.

Lemma sd_kept_snoc (nps : list (Z * statsd_parsed)) (np : Z * statsd_parsed) :
  sd_kept (nps ++ [np]) = sd_kept nps ++ (if finite (sd_value np) then [np] else []).
Proof.
  unfold sd_kept. rewrite filter_app. f_equal. destruct (finite (sd_value np)) eqn:E.
  - by rewrite filter_cons_True.
  - by rewrite filter_cons_False by congruence.
Qed.

(** What a kind of item makes of a value. *)
Definition sum_rule (ty : string) (sum : float64) (np : Z * statsd_parsed) : float64 :=
  if bool_decide (ty = "c"%string) then fadd sum (fmul (sd_value np) (sd_rate np))
  else if bool_decide (ty = "g"%string) then sd_value np
  else if bool_decide (ty = "-g"%string) then fsub sum (sd_value np)
  else if bool_decide (ty = "+g"%string) then fadd sum (sd_value np)
  else sum.

(** The contents of an item after the accepted lines [nps], by its kind. *)
Definition sd_summary (i0 i : StatItem) (nps : list (Z * statsd_parsed)) : Prop :=
  match i0, i with
  | StatsdItem s0, StatsdItem s =>
      s_InType s = s_InType s0 /\ s_InKey s = s_InKey s0 /\
      s_Count s = i64 (Z.of_nat (length (sd_kept nps))) /\
      s_Sum s = foldl (sum_rule (s_InType s0)) 0 (sd_kept nps) /\
      s_Last s = default ACC_MIN_FLAG (sd_value <$> last (sd_kept nps))
  | TimerItem t0, TimerItem t =>
      t_InKey t = t_InKey t0 /\ t_Values t = sd_value <$> sd_kept nps /\
      t_Count t = i64 (Z.of_nat (length (sd_kept nps))) /\ t_Sum t = fsum (sd_value <$> sd_kept nps) /\
      t_SampleSum t = fsum (sd_rate <$> sd_kept nps)
  | SetItem s0, SetItem s =>
      set_InKey s = set_InKey s0 /\ set_Values s = list_to_set (uint64_of_float <$> (sd_value <$> sd_kept nps))
  | _, _ => False
  end.

Lemma sd_summary_snoc (i0 i : StatItem) (nps : list (Z * statsd_parsed)) (np : Z * statsd_parsed) :
  sd_summary i0 i nps -> sd_summary i0 (sd_step i np) (nps ++ [np]).
Proof.
  unfold sd_summary, sd_step. rewrite sd_kept_snoc.
  destruct i0 as [| | |s0|t0|s0], i as [| | |s|t|s]; try done; cbn [item_Accumulate];
    unfold statsd_Accumulate, timer_Accumulate, set_Accumulate; rewrite finite_test;
    destruct (finite (sd_value np)) eqn:Ef; cbn [negb]; rewrite ?app_nil_r; try done.
  - intros (Ht & Hk & Hc & Hs & Hl). cbn [s_InType s_InKey s_Count s_Sum s_Last]. split_and!; try done.
    + rewrite Hc, length_app. apply i64_succ.
    + rewrite foldl_app. cbn [foldl]. unfold sum_rule at 1. by rewrite Hs, Ht.
    + by rewrite last_snoc.
  - intros (Hk & Hv & Hc & Hs & Hr). cbn [t_InKey t_Values t_Count t_Sum t_SampleSum].
    rewrite !fmap_app. unfold fsum in *. rewrite !foldl_app. cbn [fmap list_fmap foldl]. rewrite Hv, Hc, Hs, Hr, length_app.
    split_and!; try done. apply i64_succ.
  - intros (Hk & Hv). cbn [set_InKey set_Values]. split; [done|]. rewrite !fmap_app, list_to_set_app_L, Hv.
    cbn [fmap list_fmap list_to_set]. set_solver.
Qed.

Lemma sd_summary_new (a : StatsdAccumulate) (p : statsd_parsed) :
  sd_summary (statsd_new a p) (statsd_new a p) [].
Proof. unfold statsd_new. by repeat case_if. Qed.

(** The Statsd accumulator: after any lines, a key has an item exactly
    when some line was accepted under it; the item has the kind of the
    first such line's type and holds the finite values of all of them: a
    counter the sum of the values over their sample rates, a gauge the
    last value, a timer all the values, a set the distinct ones. *)
Theorem statsd_accumulates (a : StatsdAccumulate) (lines : list (Z * string)) (k : string) :
  sd_Stats a = ∅ ->
  match statsd_of k lines, sd_Stats (statsd_run a lines) !! k with
  | [], None => True
  | np :: nps, Some i => sd_summary (statsd_new a np.2) i (np :: nps)
  | _, _ => False
  end.
Proof.
  intros He. rewrite statsd_run_lookup, He, lookup_empty. destruct (statsd_of k lines) as [|np nps]; [done|].
  generalize (np :: nps) as l. intros l. induction l as [|x l IH] using rev_ind; [apply sd_summary_new|].
  rewrite foldl_app. by apply sd_summary_snoc.
Qed.

(** A line that is refused changes nothing. *)
Lemma statsd_refused (a : StatsdAccumulate) (now : Z) (line : string) (e : goerror) :
  (statsd_ProcessLine Sprintf0 a now line).2 = Some e -> (statsd_ProcessLine Sprintf0 a now line).1 = a.
Proof. unfold statsd_ProcessLine. by destruct (statsd_parse line). Qed.

End statsd.

(** ** Witnesses *)

#[local] Existing Instance insertion_GoSort.
#[local] Existing Instance graphite_LineAccumulator.

(** An accumulator in bins of ten seconds that keeps no keys. *)
Definition acc_ten : BinAccumulate := mkBin ∅ None false (10 * 10 ^ 9) TAG_METRICS2 HASH_FNV.

Definition acc_cache : LRUCache aggItem := NewLRUCache 40.

Definition acc_ops : list acc_op :=
  [OpLine 5 "a.b 1 100"; OpLine 6 "a.b 3 105"; OpLine 7 "a.b"; OpLine 8 "a.b NaN 101"; OpFlush 9; OpLine 10 "c 2 300"]%string.

Lemma acc_cache_ok : aggs_ok acc_cache.
Proof. apply lru_memo_new. split; reflexivity || discriminate. Qed.

Lemma acc_ops_ok : lines_ok (C := LRUCache aggItem) acc_ops.
Proof. by repeat constructor. Qed.

Lemma accumulate_refines_witness :
  exists a' c' out refused, run acc_ten acc_cache acc_ops = Some (a', c', out, refused) /\
    forall k, match bin_Stats a' !! k with
              | None => values_of k (log_from (C := LRUCache aggItem) acc_ten [] acc_ops) = []
              | Some i => exists b0 b, i = GraphiteItem b /\
                            summary b0 b (kept (values_of k (log_from (C := LRUCache aggItem) acc_ten [] acc_ops)))
              end.
Proof.
  exact (accumulate_refines (C := LRUCache aggItem) acc_ten acc_cache acc_ops acc_cache_ok acc_ops_ok eq_refl).
Defined.

Lemma flush_conserves_witness :
  exists a' c' out refused, run acc_ten acc_cache acc_ops = Some (a', c', out, refused) /\
    foldr (fun fl n => flushed_count fl + n) 0 out + items_count (bin_Stats a') = 3.
Proof.
  exact (flush_conserves (C := LRUCache aggItem) acc_ten acc_cache acc_ops acc_cache_ok acc_ops_ok eq_refl eq_refl).
Defined.

Definition sd_new_acc : StatsdAccumulate := mkStatsdAcc ∅ None false TAG_METRICS2 HASH_FNV default_options.

Definition sd_lines : list (Z * string) :=
  [(5, "hits:1|c"); (6, "hits:2|c|@0.5"); (7, "load:7|g"); (8, "hits:x|c")]%string.

(** The counter gets 1 and 2/0.5: its sum is 5. *)
Lemma statsd_accumulates_witness :
  exists s, sd_Stats (statsd_run (fun s => s) sd_new_acc sd_lines) !! "hits|c|#"%string = Some (StatsdItem s) /\
    s_Count s = 2 /\ s_Sum s = float_of_Z 5.
Proof.
  pose proof (statsd_accumulates (fun s => s) sd_new_acc sd_lines "hits|c|#" eq_refl) as H.
  destruct (sd_Stats _ !! _) as [i|]; [|by vm_compute in H]. vm_compute in H.
  destruct i as [| | |s| |]; try contradiction. exists s. destruct H as (_ & _ & Hc & Hs & _).
  split_and!; [reflexivity|exact Hc|]. etransitivity; [exact Hs|reflexivity].
Defined.

(** ** What the code does at the edges *)

Definition timer_of (vals : list float64) : StatsdTimerStatItem :=
  foldl (fun t v => timer_Accumulate 0 t v f_1)
    (mkTimer (mkName "t" 0 "" 0 0 TAG_METRICS2 HASH_FNV [] []) "ms" 0 ACC_MIN_FLAG ACC_MIN_FLAG 0 ACC_MIN_FLAG 0 []
             default_thresholds 0) vals.

Definition with_thresholds (ths : list float64) : StatsdOptions :=
  mkOptions true "stats" "" "gauges" "timers" "sets" "counters" ths.

(** The values printed under a key of the timer. *)
Definition printed (suffix : string) (w : option (list FmtCall * StatsdTimerStatItem)) : list float64 :=
  match w with
  | Some (calls, _) => c_val <$> filter (fun c => Key (c_name c) = ("stats.timers.t" +:+ suffix)%string) calls
  | None => []
  end.

(** The median looks at the parity of half the count: of three values it
    averages the first two, and of four it takes the third. *)
Example timer_median_odd :
  printed ".median" (timer_Write (fun a _ => a) 0 (with_thresholds []) (timer_of (float_of_Z <$> [10; 20; 90])))
  = [float_of_Z 15].
Proof. vm_compute. reflexivity. Qed.

Example timer_median_even :
  printed ".median" (timer_Write (fun a _ => a) 0 (with_thresholds []) (timer_of (float_of_Z <$> [1; 3; 5; 7])))
  = [float_of_Z 5].
Proof. vm_compute. reflexivity. Qed.

(** A threshold of minus 100 per cent is an index out of range. *)
Example timer_lower_panics :
  timer_Write (fun a _ => a) 0 (with_thresholds [float_of_Z (-100)]) (timer_of (float_of_Z <$> [1; 2])) = None.
Proof. vm_compute. reflexivity. Qed.

(** A signed gauge sets the value instead of changing it. *)
Example gauge_delta_lost : exists p, statsd_parse "load:-5|g" = inl p /\ p_type p = "g"%string.
Proof. eexists. split; vm_compute; reflexivity. Qed.

(** Bypassing the accumulator, a counter of 7 is a point of sum 0. *)
Example statsd_repr_zero :
  exists r, statsd_ProcessLineToRepr sd_new_acc 0 "hits:7|c" = inl r /\ Sum r = 0 /\ Count r = 1.
Proof. eexists. split_and!; vm_compute; reflexivity. Qed.

(** A JSON line panics in the default tag mode. *)
Lemma json_line_panics (Unmarshal : string -> JsonStruct + goerror) (a : BinAccumulate) (c : LRUCache aggItem) (now : Z)
    (line : string) (spl : JsonStruct) :
  Unmarshal line = inl spl -> bin_TagMode a = TAG_METRICS2 ->
  json_ProcessLine Unmarshal a c now line = None.
Proof.
  intros E Hm. unfold json_ProcessLine. rewrite E, Hm. unfold json_tags.
  unfold Metric2FromMap. destruct (js_Tags spl) as [|[k v] l]; [done|]. cbn [Metric2FromMap_loop].
  by destruct (IsMetric2Tag k).
Qed.
