(* ===== verification/AccumulateRaces.v ===== *)
(** Flushes and lines interleaved, at the grain of the locks.

    The loop of [Accumulator.Start] is one goroutine that takes one line
    after the other; a tick runs [FlushAndPost], and with it [FlushList]
    or [Flush], in a goroutine of its own.  They share the table of
    [GraphiteAccumulate], guarded by its read-write lock, and the items
    the table points to, which the flush reads and zeroes without the
    item's own lock.  So the items live in a store here, the table maps
    keys to addresses, and what is one step is what is done without
    letting go of the table's lock, and less where an item is touched:

    - [ProcessLine] looks its key up under the read lock ([LLook]), adds
      the value with no table lock held, reading the item ([LLoad]) and
      writing it ([LStore]) in two steps, for the flush does not take the
      item's lock, and inserts a new item under the write lock
      ([LInsert]);
    - a flush takes the read lock ([FBegin]), reads the items one by one
      in any order ([FRead]), releases the lock ([FUnlock]), and takes the
      write lock to make a new table, or to zero the items one by one
      when keys are kept ([FReset], [FZero], [FDone]).

    [Flush] also writes each item out, under the item's lock; that changes
    nothing and only makes it wait, so its runs are among these.  An item's
    fields are read together and written together; the theorem speaks of
    one field only, the count.  Carbon2's methods have the same shape. *)
From S2P Require Import Prelude Bits Float64 GoStrings GoParse GoFormat GoSort LRU LRUTheorems.
From S2P Require Import Tags Repr Aggs Aggregator Splitter Formatter StatItem Accumulate AccumulateTheorems.

Open Scope Z_scope.

(** Where the goroutine of the lines is: between two lines, or with the
    item at an address, which it has just made or has found in the table. *)
Inductive line_phase :=
| Idle
| Looked (key : string) (l : nat) (isnew : bool) (val : float64)
| Loaded (key : string) (l : nat) (isnew : bool) (val : float64) (item : BaseStatItem)
| Stored (key : string) (l : nat) (isnew : bool).

(** Where a flush is, with the items it still has to visit and the list it
    has made. *)
Inductive flush_phase :=
| Listing (todo : gmap string nat) (fl : flushedList)
| Listed (fl : flushedList)
| Zeroing (todo : gmap string nat) (fl : flushedList).

Definition reading (p : flush_phase) : bool := match p with Listing _ _ => true | _ => false end.
Definition zeroing (p : flush_phase) : bool := match p with Zeroing _ _ => true | _ => false end.

Inductive race_label :=
| LLook (now : Z) (line : string) | LSkip | LLoad | LStore | LInsert | LReturn
| FBegin (f : nat) | FRead (f : nat) (key : string) | FUnlock (f : nat)
| FReset (f : nat) | FZero (f : nat) (key : string) | FDone (f : nat).

Section races.
Context `{!GoSort}.
Context {C : Type} {MC : MemoCache C aggItem}.

(** [rs_conf] is the accumulator but for its table.  The last three fields
    only observe: the finite values accumulated so far, whether the line at
    hand has been under way at the same time as a flush, and the number of
    the earlier lines that have. *)
Record race_state := mkRace {
  rs_conf : BinAccumulate;
  rs_cache : C;
  rs_store : list BaseStatItem;
  rs_table : gmap string nat;
  rs_line : line_phase;
  rs_flush : gmap nat flush_phase;
  rs_out : list flushedList;
  rs_accepted : Z;
  rs_met : bool;
  rs_overlaps : Z
}.

Definition rs_start (a : BinAccumulate) (c : C) : race_state := mkRace a c [] ∅ Idle ∅ [] 0 false 0.

(** The table's lock: taken to read by the flushes that list, to write by
    one that zeroes. *)
Definition no_reader (s : race_state) : bool := forallb (fun p => negb (reading p.2)) (map_to_list (rs_flush s)).
Definition no_writer (s : race_state) : bool := forallb (fun p => negb (zeroing p.2)) (map_to_list (rs_flush s)).

Definition flushing (s : race_state) : bool := negb (bool_decide (rs_flush s = ∅)).
Definition at_line (s : race_state) : bool := match rs_line s with Idle => false | _ => true end.

Definition set_line (s : race_state) (p : line_phase) : race_state :=
  mkRace (rs_conf s) (rs_cache s) (rs_store s) (rs_table s) p (rs_flush s) (rs_out s) (rs_accepted s) (rs_met s)
    (rs_overlaps s).
Definition set_flush (s : race_state) (fs : gmap nat flush_phase) : race_state :=
  mkRace (rs_conf s) (rs_cache s) (rs_store s) (rs_table s) (rs_line s) fs (rs_out s) (rs_accepted s)
    (rs_met s || at_line s) (rs_overlaps s).
Definition set_store (s : race_state) (h : list BaseStatItem) (n : Z) : race_state :=
  mkRace (rs_conf s) (rs_cache s) h (rs_table s) (rs_line s) (rs_flush s) (rs_out s) (rs_accepted s + n) (rs_met s)
    (rs_overlaps s).
Definition set_table (s : race_state) (m : gmap string nat) : race_state :=
  mkRace (rs_conf s) (rs_cache s) (rs_store s) m (rs_line s) (rs_flush s) (rs_out s) (rs_accepted s) (rs_met s)
    (rs_overlaps s).
(** A flush returns its list. *)
Definition returns (s : race_state) (f : nat) (fl : flushedList) : race_state :=
  mkRace (rs_conf s) (rs_cache s) (rs_store s) (rs_table s) (rs_line s) (delete f (rs_flush s)) (rs_out s ++ [fl])
    (rs_accepted s) (rs_met s) (rs_overlaps s).
(** The line is done with. *)
Definition line_ends (s : race_state) : race_state :=
  mkRace (rs_conf s) (rs_cache s) (rs_store s) (rs_table s) Idle (rs_flush s) (rs_out s) (rs_accepted s) false
    (rs_overlaps s + if rs_met s then 1 else 0).

(** The part of [ProcessLine] up to the lookup and the making of a new
    item; [None] stands for a panic. *)
Definition graphite_look (s : race_state) (now : Z) (line : string) : option race_state :=
  match graphite_parse now line with
  | inr _ => Some s
  | inl (key, f_val, t, tags) =>
      let '(tgs, meta) := graphite_tags (bin_TagMode (rs_conf s)) tags in
      let tgs := sort_Sort tags_Less tgs in
      let stat_key := bin_MapKey (rs_conf s) (key +:+ ToStringSep tgs DOT_SEPARATOR DOT_SEPARATOR) t in
      match rs_table s !! stat_key with
      | Some l =>
          Some (mkRace (rs_conf s) (rs_cache s) (rs_store s) (rs_table s) (Looked stat_key l false f_val)
                  (rs_flush s) (rs_out s) (rs_accepted s) (flushing s) (rs_overlaps s))
      | None =>
          let nm := new_name key tgs meta (rs_conf s) in
          '(agg, c) ← AggType (rs_cache s) nm now;
          let gots := fresh_base nm "graphite" agg (bin_ResolutionTime (rs_conf s) t) in
          Some (mkRace (rs_conf s) c (rs_store s ++ [gots]) (rs_table s)
                  (Looked stat_key (length (rs_store s)) true f_val)
                  (rs_flush s) (rs_out s) (rs_accepted s) (flushing s) (rs_overlaps s))
      end
  end.

(** The steps of the goroutine of the lines, and those of flush [f];
    [None]: the step cannot be taken. *)
Definition line_next (s : race_state) (l : race_label) : option race_state :=
  match l, rs_line s with
  | LLook now line, Idle => if no_writer s then graphite_look s now line else None
  | LSkip, Looked key l isnew v => if finite v then None else Some (set_line s (Stored key l isnew))
  | LLoad, Looked key l isnew v =>
      if finite v then item ← rs_store s !! l; Some (set_line s (Loaded key l isnew v item)) else None
  | LStore, Loaded key l isnew v item =>
      Some (set_line (set_store s (<[l := base_Accumulate item v]> (rs_store s)) 1) (Stored key l isnew))
  | LInsert, Stored key l true =>
      if no_reader s && no_writer s then Some (line_ends (set_table s (<[key := l]> (rs_table s)))) else None
  | LReturn, Stored key l false => Some (line_ends s)
  | _, _ => None
  end.

Definition flush_next (s : race_state) (l : race_label) : option race_state :=
  match l with
  | FBegin f =>
      match rs_flush s !! f with
      | None => if no_writer s then Some (set_flush s (<[f := Listing (rs_table s) []]> (rs_flush s))) else None
      | Some _ => None
      end
  | FRead f key =>
      match rs_flush s !! f with
      | Some (Listing todo fl) =>
          l ← todo !! key; item ← rs_store s !! l;
          Some (set_flush s (<[f := Listing (delete key todo) (fl ++ [base_Repr item])]> (rs_flush s)))
      | _ => None
      end
  | FUnlock f =>
      match rs_flush s !! f with
      | Some (Listing todo fl) =>
          if bool_decide (todo = ∅) then Some (set_flush s (<[f := Listed fl]> (rs_flush s))) else None
      | _ => None
      end
  | FReset f =>
      match rs_flush s !! f with
      | Some (Listed fl) =>
          if no_reader s && no_writer s then
            Some (if bin_InKeepKeys (rs_conf s)
                  then set_flush s (<[f := Zeroing (rs_table s) fl]> (rs_flush s))
                  else returns (set_table s ∅) f fl)
          else None
      | _ => None
      end
  | FZero f key =>
      match rs_flush s !! f with
      | Some (Zeroing todo fl) =>
          l ← todo !! key; item ← rs_store s !! l;
          Some (set_flush (set_store s (<[l := base_ZeroOut item]> (rs_store s)) 0)
                  (<[f := Zeroing (delete key todo) fl]> (rs_flush s)))
      | _ => None
      end
  | FDone f =>
      match rs_flush s !! f with
      | Some (Zeroing todo fl) => if bool_decide (todo = ∅) then Some (returns s f fl) else None
      | _ => None
      end
  | _ => None
  end.

Definition race_next (s : race_state) (l : race_label) : option race_state :=
  match l with
  | LLook _ _ | LSkip | LLoad | LStore | LInsert | LReturn => line_next s l
  | _ => flush_next s l
  end.

Fixpoint race_exec (s : race_state) (ls : list race_label) : option race_state :=
  match ls with
  | [] => Some s
  | l :: ls => s ← race_next s l; race_exec s ls
  end.

(** ** What the table holds *)

Definition cell (h : list BaseStatItem) (l : nat) : Z := default 0 (b_Count <$> h !! l).

Definition total (h : list BaseStatItem) (m : gmap string nat) : Z := map_fold (fun _ l n => cell h l + n) 0 m.

Definition absent (m : gmap string nat) (l : nat) : Prop := forall k, m !! k <> Some l.

Definition injective (m : gmap string nat) : Prop := forall k k' l, m !! k = Some l -> m !! k' = Some l -> k = k'.

Lemma total_empty (h : list BaseStatItem) : total h ∅ = 0.
Proof. apply map_fold_empty. Qed.

Lemma total_insert (h : list BaseStatItem) (m : gmap string nat) (k : string) (l : nat) :
  m !! k = None -> total h (<[k := l]> m) = cell h l + total h m.
Proof. intros Hk. unfold total. rewrite map_fold_insert_L; [done|intros; lia|done]. Qed.

Lemma total_delete (h : list BaseStatItem) (m : gmap string nat) (k : string) (l : nat) :
  m !! k = Some l -> total h m = cell h l + total h (delete k m).
Proof. intros Hk. unfold total. rewrite (map_fold_delete_L _ _ k l m); [done|intros; lia|done]. Qed.

Lemma total_ext (h h' : list BaseStatItem) (m : gmap string nat) :
  (forall k l, m !! k = Some l -> cell h l = cell h' l) -> total h m = total h' m.
Proof.
  induction m as [|k l m Hk IH] using map_ind; intros He; [by rewrite !total_empty|].
  rewrite !total_insert by done. rewrite (He k l), IH; [done| |apply lookup_insert_eq].
  intros k' l' Hk'. apply (He k'). rewrite lookup_insert_ne by congruence. done.
Qed.

Lemma cell_update_ne (h : list BaseStatItem) (l l' : nat) (b : BaseStatItem) :
  l <> l' -> cell (<[l := b]> h) l' = cell h l'.
Proof. intros Hl. unfold cell. by rewrite list_lookup_insert_ne. Qed.

Lemma cell_update (h : list BaseStatItem) (l : nat) (b : BaseStatItem) :
  (l < length h)%nat -> cell (<[l := b]> h) l = b_Count b.
Proof. intros Hl. unfold cell. by rewrite list_lookup_insert_eq. Qed.

Lemma total_update_out (h : list BaseStatItem) (m : gmap string nat) (l : nat) (b : BaseStatItem) :
  absent m l -> total (<[l := b]> h) m = total h m.
Proof. intros Ha. apply total_ext. intros k l' Hk. apply cell_update_ne. intros ->. by destruct (Ha k). Qed.

Lemma total_update_in (h : list BaseStatItem) (m : gmap string nat) (k : string) (l : nat) (b : BaseStatItem) :
  injective m -> m !! k = Some l -> (l < length h)%nat -> total (<[l := b]> h) m = total h m - cell h l + b_Count b.
Proof.
  intros Hi Hk Hl. rewrite !(total_delete _ m k l) by done. rewrite cell_update by done.
  rewrite total_update_out; [lia|]. intros k' Hk'. apply lookup_delete_Some in Hk' as [Hne Hk']. by destruct Hne; apply (Hi k k' l).
Qed.

Lemma total_app (h : list BaseStatItem) (m : gmap string nat) (b : BaseStatItem) :
  map_Forall (fun _ l => (l < length h)%nat) m -> total (h ++ [b]) m = total h m.
Proof. intros Hm. apply total_ext. intros k l Hk. unfold cell. rewrite lookup_app_l; [done|by apply (Hm k)]. Qed.

Definition out_count (out : list flushedList) : Z := foldr (fun fl n => flushed_count fl + n) 0 out.

Lemma out_count_snoc (out : list flushedList) (fl : flushedList) :
  out_count (out ++ [fl]) = out_count out + flushed_count fl.
Proof. unfold out_count. induction out as [|x out IH]; simpl in *; lia. Qed.

Lemma flushed_snoc (fl : flushedList) (b : BaseStatItem) :
  flushed_count (fl ++ [base_Repr b]) = flushed_count fl + b_Count b.
Proof. unfold flushed_count. induction fl as [|x fl IH]; cbn in *; lia. Qed.

(** The values in a new item that is not in the table yet. *)
Definition in_hand (s : race_state) : Z :=
  match rs_line s with
  | Looked _ l true _ | Loaded _ l true _ _ | Stored _ l true => cell (rs_store s) l
  | _ => 0
  end.

Definition held (s : race_state) : Z := total (rs_store s) (rs_table s) + in_hand s.

(** The lines that have been under way at the same time as a flush. *)
Definition overlapped (s : race_state) : Z := rs_overlaps s + if rs_met s then 1 else 0.

(** ** The invariant: one flush at a time, keys not kept *)

(** What came into the table since a flush has read it: lost at its reset. *)
Definition extra_of (h : list BaseStatItem) (m : gmap string nat) (p : option flush_phase) : Z :=
  match p with
  | Some (Listing todo fl) => total h m - flushed_count fl - total h todo
  | Some (Listed fl) => total h m - flushed_count fl
  | _ => 0
  end.

Definition extra (s : race_state) : Z := extra_of (rs_store s) (rs_table s) (rs_flush s !! 0%nat).

(** The items a flush still has to read are in the table. *)
Definition phase_ok (m : gmap string nat) (p : flush_phase) : Prop :=
  match p with Listing todo _ => todo ⊆ m | Listed _ => True | Zeroing _ _ => False end.

(** What the line at hand can still lose. *)
Definition due (s : race_state) : Z :=
  match rs_line s with
  | Idle | Stored _ _ false => 0
  | _ => if rs_met s then 1 else 0
  end.

Definition place (s : race_state) (key : string) (l : nat) (isnew : bool) : Prop :=
  (l < length (rs_store s))%nat /\
  if isnew then rs_table s !! key = None /\ absent (rs_table s) l
  else rs_table s !! key = Some l \/ absent (rs_table s) l /\ rs_met s = true.

Definition line_inv (s : race_state) : Prop :=
  match rs_line s with
  | Idle => rs_met s = false
  | Looked key l isnew v => place s key l isnew /\ (isnew = true -> cell (rs_store s) l = 0)
  | Loaded key l isnew v item =>
      place s key l isnew /\ finite v = true /\ rs_store s !! l = Some item /\ (isnew = true -> cell (rs_store s) l = 0)
  | Stored key l isnew => place s key l isnew /\ (isnew = true -> cell (rs_store s) l <= 1)
  end.

Definition flush_inv (s : race_state) : Prop :=
  rs_flush s = ∅ \/
  exists p, rs_flush s = {[0%nat := p]} /\ (at_line s = true -> rs_met s = true) /\ phase_ok (rs_table s) p.

Record race_inv (s : race_state) : Prop := {
  ri_flush : flush_inv s;
  ri_line : line_inv s;
  ri_cells : Forall (fun b => 0 <= b_Count b <= rs_accepted s) (rs_store s);
  ri_table : injective (rs_table s) /\ map_Forall (fun _ l => (l < length (rs_store s))%nat) (rs_table s);
  ri_keep : bin_InKeepKeys (rs_conf s) = false;
  ri_pos : 0 <= rs_accepted s;
  ri_extra : 0 <= extra s;
  ri_books : 0 <= rs_accepted s - out_count (rs_out s) - held s;
  ri_lost : rs_accepted s - out_count (rs_out s) - held s + extra s + due s <= overlapped s
}.

Ltac race_simpl :=
  cbn [rs_conf rs_cache rs_store rs_table rs_line rs_flush rs_out rs_accepted rs_met rs_overlaps
       set_line set_flush set_store set_table returns line_ends in_hand at_line] in *.

Lemma inv_start (a : BinAccumulate) (c : C) : bin_InKeepKeys a = false -> race_inv (rs_start a c).
Proof.
  intros Ha. constructor; try done; unfold rs_start, held, extra; race_simpl; rewrite ?total_empty; try done.
  by left.
Qed.

(** The flush under way, if any, is flush 0 and does not zero. *)
Lemma inv_phase (s : race_state) (p : flush_phase) :
  race_inv s -> rs_flush s !! 0%nat = Some p ->
  rs_flush s = {[0%nat := p]} /\ (at_line s = true -> rs_met s = true) /\ phase_ok (rs_table s) p.
Proof.
  intros [Hf _ _ _ _ _ _ _ _] Hp. destruct Hf as [Hf|(q & Hf & Hr)]; [by rewrite Hf, lookup_empty in Hp|].
  rewrite Hf, lookup_singleton_eq in Hp. by simplify_eq.
Qed.

Lemma no_reader_phase (s : race_state) (p : flush_phase) :
  rs_flush s = {[0%nat := p]} -> no_reader s = true -> reading p = false.
Proof. unfold no_reader. intros ->. rewrite map_to_list_singleton. cbn. by destruct (reading p). Qed.

Lemma extra_ext (h h' : list BaseStatItem) (s : race_state) :
  flush_inv s -> (forall k l, rs_table s !! k = Some l -> cell h l = cell h' l) ->
  extra_of h (rs_table s) (rs_flush s !! 0%nat) = extra_of h' (rs_table s) (rs_flush s !! 0%nat).
Proof.
  intros Hf He. destruct Hf as [->|(p & -> & _ & Hp)]; [by rewrite lookup_empty|]. rewrite lookup_singleton_eq.
  destruct p as [todo fl|fl|todo fl]; cbn in *; [|by rewrite (total_ext h h')|done].
  rewrite (total_ext h h'), (total_ext h h' todo); [done| |done]. intros k l Hk. apply (He k). by eapply lookup_weaken.
Qed.

Lemma flush_inv_line (s s' : race_state) :
  flush_inv s -> rs_flush s' = rs_flush s -> rs_table s' = rs_table s ->
  (flushing s = true -> at_line s' = true -> rs_met s' = true) -> flush_inv s'.
Proof.
  intros [Hf|(p & Hf & _ & Hp)] E Et Hm; [left; congruence|right]. exists p. rewrite E, Et. split_and!; [done| |done].
  apply Hm. unfold flushing. rewrite Hf, bool_decide_false; [done|apply map_non_empty_singleton].
Qed.

(** *** The line *)

Lemma inv_look (s s' : race_state) (now : Z) (line : string) :
  race_inv s -> rs_line s = Idle -> graphite_look s now line = Some s' -> race_inv s'.
Proof.
  intros Hinv Hl. pose proof Hinv as [Hf Hli Hc [Hi Hb] Hk Hpos He Hbo Hlo]. unfold line_inv in Hli. rewrite Hl in Hli.
  unfold graphite_look. destruct (graphite_parse now line) as [[[[key v] t] tags]|err]; [|by intros [= <-]].
  destruct (graphite_tags _ tags) as [tgs meta]. set (sk := bin_MapKey _ _ _).
  destruct (rs_table s !! sk) as [l|] eqn:Et.
  - intros [= <-]. constructor; race_simpl; try done.
    + by apply (flush_inv_line s).
    + split; [|done]. split; [by apply (Hb sk)|by left].
    + unfold held, in_hand, extra, due, overlapped in *. race_simpl. rewrite Hl in *. lia.
    + unfold held, in_hand, extra, due, overlapped in *. race_simpl. rewrite Hl, Hli in *. destruct (flushing s); lia.
  - destruct (AggType _ _ _) as [[agg c']|]; cbn [mbind option_bind]; [|done]. intros [= <-].
    set (b := fresh_base _ _ _ _).
    assert (Hcell : cell (rs_store s ++ [b]) (length (rs_store s)) = 0) by (unfold cell; by rewrite list_lookup_middle).
    assert (Hext : forall k l, rs_table s !! k = Some l -> cell (rs_store s ++ [b]) l = cell (rs_store s) l)
      by (intros k l Hk'; unfold cell; rewrite lookup_app_l; [done|by apply (Hb k)]).
    pose proof (extra_ext _ _ s Hf Hext) as Hex. pose proof (total_ext _ _ _ Hext) as Htot.
    constructor; race_simpl; try done.
    + by apply (flush_inv_line s).
    + split; [|done]. split; [race_simpl; rewrite length_app; cbn; lia|]. split; [done|]. race_simpl.
      intros k Hk'. specialize (Hb k _ Hk'). cbn in Hb. lia.
    + apply Forall_app. split; [done|]. apply Forall_singleton. cbn. lia.
    + split; [done|]. intros k l Hk'. rewrite length_app. specialize (Hb k l Hk'). cbn in *. lia.
    + unfold extra. race_simpl. by rewrite Hex.
    + unfold held, in_hand in *. race_simpl. rewrite Hl in *. lia.
    + unfold held, in_hand, extra, due, overlapped in *. race_simpl. rewrite Hl, Hli, Hex in *. destruct (flushing s); lia.
Qed.

Lemma inv_found (s : race_state) (key : string) (l : nat) (isnew : bool) (v : float64) (p : line_phase) :
  race_inv s -> rs_line s = Looked key l isnew v ->
  p = Stored key l isnew \/ (exists item, p = Loaded key l isnew v item /\ finite v = true /\ rs_store s !! l = Some item) ->
  race_inv (set_line s p).
Proof.
  intros [Hf Hli Hc Ht Hk Hpos He Hbo Hlo] Hl Hp. unfold line_inv in Hli. rewrite Hl in Hli. destruct Hli as [Hpl Hz].
  assert (Hh : held (set_line s p) = held s).
  { unfold held, in_hand. race_simpl. rewrite Hl. by destruct Hp as [->|(item & -> & _)]. }
  assert (Hd : due (set_line s p) <= due s).
  { unfold due. race_simpl. rewrite Hl. destruct Hp as [->|(item & -> & _)]; [|done]. by destruct isnew, (rs_met s). }
  constructor; try done.
  - apply (flush_inv_line s); [done..|]. intros Hfl _. destruct Hf as [Hf|(q & _ & Hm & _)].
    + unfold flushing in Hfl. by rewrite Hf, bool_decide_true in Hfl.
    + apply Hm. unfold at_line. by rewrite Hl.
  - unfold line_inv. race_simpl. destruct Hp as [->|(item & -> & Hv & Hs)]; (split; [done|]); [|done].
    intros ->. rewrite Hz; done.
  - rewrite Hh. done.
  - rewrite Hh. unfold overlapped, extra in *. race_simpl. lia.
Qed.

Lemma extra_store (h : list BaseStatItem) (s : race_state) (key : string) (l : nat) (b : BaseStatItem) :
  flush_inv s -> injective (rs_table s) -> rs_table s !! key = Some l -> (l < length h)%nat -> b_Count b = cell h l + 1 ->
  let e := extra_of h (rs_table s) (rs_flush s !! 0%nat) in
  let e' := extra_of (<[l := b]> h) (rs_table s) (rs_flush s !! 0%nat) in
  e <= e' <= e + if flushing s then 1 else 0.
Proof.
  intros Hf Hi Ht Hl Hb. unfold flushing. destruct Hf as [->|(p & -> & _ & Hp)]; [by rewrite lookup_empty, bool_decide_true|].
  rewrite lookup_singleton_eq, bool_decide_false by apply map_non_empty_singleton.
  destruct p as [todo fl|fl|todo fl]; cbn in *; [|rewrite (total_update_in _ _ key) by done; lia|done].
  rewrite (total_update_in _ (rs_table s) key) by done. destruct (todo !! key) as [l'|] eqn:E.
  - pose proof (lookup_weaken _ _ _ _ E Hp). simplify_eq. rewrite (total_update_in _ todo key); [lia| |done..].
    intros k k' j Hk Hk'. by apply (Hi k k' j); eapply lookup_weaken.
  - rewrite total_update_out; [lia|]. intros k Hk. pose proof (lookup_weaken _ _ _ _ Hk Hp).
    assert (k = key) as -> by (by apply (Hi k key l)). congruence.
Qed.

Lemma place_store (s s' : race_state) (key : string) (l : nat) (isnew : bool) :
  place s key l isnew -> length (rs_store s') = length (rs_store s) -> rs_table s' = rs_table s -> rs_met s' = rs_met s ->
  place s' key l isnew.
Proof. unfold place. by intros Hp -> -> ->. Qed.

Lemma inv_store (s : race_state) (key : string) (l : nat) (isnew : bool) (v : float64) (item : BaseStatItem) :
  race_inv s -> rs_line s = Loaded key l isnew v item -> rs_accepted s < 2 ^ 63 - 1 ->
  race_inv (set_line (set_store s (<[l := base_Accumulate item v]> (rs_store s)) 1) (Stored key l isnew)).
Proof.
  intros [Hf Hli Hc [Hi Hb] Hk Hpos He Hbo Hlo] Hl Hlt. unfold line_inv in Hli. rewrite Hl in Hli.
  destruct Hli as ((Hll & Hpl) & Hv & Hs & Hz). set (b := base_Accumulate item v).
  assert (Hitem : 0 <= b_Count item <= rs_accepted s) by (rewrite Forall_lookup in Hc; by apply (Hc l)).
  assert (Hbc : b_Count b = b_Count item + 1) by (unfold b; rewrite base_Accumulate_count, Hv by lia; done).
  assert (Hcl : cell (rs_store s) l = b_Count item) by (unfold cell; by rewrite Hs).
  pose proof (cell_update (rs_store s) l b Hll) as Hnew.
  assert (Hat : flushing s = true -> rs_met s = true).
  { intros Hfl. destruct Hf as [Hf|(q & _ & Hm & _)].
    - unfold flushing in Hfl. by rewrite Hf, bool_decide_true in Hfl.
    - apply Hm. unfold at_line. by rewrite Hl. }
  assert (Hsum : let s' := set_line (set_store s (<[l := b]> (rs_store s)) 1) (Stored key l isnew) in
    0 <= extra s' /\ held s <= held s' <= held s + 1 /\ extra s' + due s' - held s' <= extra s + due s - held s - 1).
  { unfold extra, held, in_hand, due in *. race_simpl. rewrite Hl in *. destruct isnew; [|destruct Hpl as [Hpl|[Hpl Hm]]].
    - destruct Hpl as [_ Hab]. rewrite Hnew, total_update_out by done. specialize (Hz eq_refl).
      rewrite (extra_ext _ (rs_store s) s Hf); [lia|]. intros k j Hj. apply cell_update_ne. intros ->. by destruct (Hab k).
    - rewrite (total_update_in _ _ key) by done.
      pose proof (extra_store (rs_store s) s key l b Hf Hi Hpl Hll ltac:(lia)) as Hex. cbv zeta in Hex.
      destruct (flushing s); [rewrite (Hat eq_refl)|destruct (rs_met s)]; lia.
    - rewrite total_update_out, Hm by done. rewrite (extra_ext _ (rs_store s) s Hf); [lia|].
      intros k j Hj. apply cell_update_ne. intros ->. by destruct (Hpl k). }
  destruct Hsum as (Hex & Hhe & Hsum). constructor; race_simpl; try done; try lia.
  - apply (flush_inv_line s); [done..|]. intros Hfl _. by apply Hat.
  - split; [apply (place_store s); [done|apply length_insert|done|done]|]. race_simpl. intros ->. rewrite Hnew.
    specialize (Hz eq_refl). lia.
  - apply Forall_insert; [|lia]. eapply Forall_impl; [done|]. cbn. intros; lia.
  - split; [done|]. intros k j Hj. rewrite length_insert. by apply (Hb k).
  - unfold overlapped in *. cbn zeta in *. race_simpl. lia.
Qed.

Lemma inv_insert (s : race_state) (key : string) (l : nat) :
  race_inv s -> rs_line s = Stored key l true -> no_reader s = true ->
  race_inv (line_ends (set_table s (<[key := l]> (rs_table s)))).
Proof.
  intros [Hf Hli Hc [Hi Hb] Hk Hpos He Hbo Hlo] Hl Hr. unfold line_inv in Hli. rewrite Hl in Hli.
  destruct Hli as ((Hll & Hkey & Hab) & Hz). specialize (Hz eq_refl).
  destruct (lookup_lt_is_Some_2 _ _ Hll) as [item Hs].
  assert (Hcl : 0 <= cell (rs_store s) l).
  { unfold cell. rewrite Hs. cbn. rewrite Forall_lookup in Hc. by apply (Hc l). }
  assert (Hh : held (line_ends (set_table s (<[key := l]> (rs_table s)))) = held s).
  { unfold held, in_hand. race_simpl. rewrite Hl, total_insert by done. lia. }
  assert (Hx : 0 <= extra (line_ends (set_table s (<[key := l]> (rs_table s)))) <= extra s + due s).
  { unfold extra, due in *. race_simpl. rewrite Hl. destruct Hf as [E|(p & E & Hm & Hp)]; rewrite E in *.
    - rewrite lookup_empty in *. cbn in *. destruct (rs_met s); lia.
    - pose proof (no_reader_phase s p E Hr) as Hrd. rewrite lookup_singleton_eq in *.
      rewrite Hm by (unfold at_line; by rewrite Hl). destruct p; cbn in *; [done| |done]. rewrite total_insert by done. lia. }
  constructor; race_simpl; try done; try lia.
  - destruct Hf as [E|(p & E & Hm & Hp)]; [by left|right]. exists p. split_and!; [done|done|].
    pose proof (no_reader_phase s p E Hr). by destruct p.
  - split.
    + intros k k' j Hk1 Hk2. apply lookup_insert_Some in Hk1 as [[? ?]|[Hn1 Hk1]], Hk2 as [[? ?]|[Hn2 Hk2]]; subst.
      all: try done; try (by edestruct Hab). by apply (Hi k k' j).
    + by apply map_Forall_insert_2.
  - unfold overlapped, due in *. race_simpl. rewrite Hl in *. destruct (rs_met s); lia.
Qed.

Lemma inv_return (s : race_state) (key : string) (l : nat) :
  race_inv s -> rs_line s = Stored key l false -> race_inv (line_ends s).
Proof.
  intros [Hf Hli Hc Ht Hk Hpos He Hbo Hlo] Hl.
  assert (Hh : held (line_ends s) = held s) by (unfold held, in_hand; race_simpl; by rewrite Hl).
  constructor; race_simpl; try done.
  - by apply (flush_inv_line s).
  - by rewrite Hh.
  - rewrite Hh. unfold overlapped, due, extra in *. race_simpl. rewrite Hl in *. lia.
Qed.

(** *** The flush *)

(** What a step of the flush leaves alone when it only goes on reading. *)
Lemma inv_reads (s : race_state) (p : flush_phase) :
  race_inv s -> phase_ok (rs_table s) p -> rs_flush s = ∅ \/ (exists q, rs_flush s = {[0%nat := q]}) ->
  extra_of (rs_store s) (rs_table s) (Some p) = extra s ->
  race_inv (set_flush s (<[0%nat := p]> (rs_flush s))).
Proof.
  intros [Hf Hli Hc Ht Hk Hpos He Hbo Hlo] Hp Hfs Hx.
  assert (Hx' : extra (set_flush s (<[0%nat := p]> (rs_flush s))) = extra s)
    by (unfold extra at 1; race_simpl; by rewrite lookup_insert_eq).
  constructor; race_simpl; try done.
  - right. exists p. split_and!; [|intros Ha; change (at_line s = true) in Ha; change (rs_met s || at_line s = true); rewrite Ha; apply orb_true_r|done].
    race_simpl.
    destruct Hfs as [->|(q & ->)]; [done|]. by rewrite insert_singleton_eq.
  - unfold line_inv, place in *. race_simpl. unfold at_line.
    destruct (rs_line s) as [|k l [] v|k l [] v i|k l []]; rewrite ?orb_false_r, ?orb_true_r; intuition auto.
  - by rewrite Hx'.
  - rewrite Hx'. unfold overlapped, due, held, in_hand in *. race_simpl. unfold at_line.
    destruct (rs_line s) as [|k l [] v|k l [] v i|k l []], (rs_met s); cbn [orb] in *; lia.
Qed.

Lemma inv_reset (s : race_state) (fl : flushedList) :
  race_inv s -> rs_flush s !! 0%nat = Some (Listed fl) -> race_inv (returns (set_table s ∅) 0 fl).
Proof.
  intros Hinv Hfs. destruct (inv_phase s _ Hinv Hfs) as (E & Hm & _). destruct Hinv as [Hf Hli Hc Ht Hk Hpos He Hbo Hlo].
  assert (Hd : delete 0%nat (rs_flush s) = ∅) by (rewrite E; apply delete_singleton_eq).
  assert (Hx : total (rs_store s) (rs_table s) - flushed_count fl = extra s) by (unfold extra; by rewrite Hfs).
  assert (Hx' : extra (returns (set_table s ∅) 0 fl) = 0) by (unfold extra; race_simpl; by rewrite Hd, lookup_empty).
  assert (Hh : held (returns (set_table s ∅) 0 fl) = held s - total (rs_store s) (rs_table s))
    by (unfold held, in_hand; race_simpl; rewrite total_empty; lia).
  constructor; race_simpl; rewrite ?Hx', ?Hh, ?out_count_snoc; try done; try lia.
  - by left.
  - unfold line_inv, place in *. race_simpl. unfold at_line in Hm.
    assert (Ha : forall l, absent ∅ l) by (intros l k; by rewrite lookup_empty).
    destruct (rs_line s) as [|k l [] v|k l [] v i|k l []]; naive_solver.
  - unfold overlapped, due in *. race_simpl. lia.
Qed.

(** ** The theorem *)

(** A label of the goroutine of the lines, or of flush 0. *)
Definition one_flush (l : race_label) : Prop :=
  match l with
  | FBegin f | FRead f _ | FUnlock f | FReset f | FZero f _ | FDone f => f = 0%nat
  | _ => True
  end.

Lemma inv_line_next (s s' : race_state) (l : race_label) :
  race_inv s -> rs_accepted s < 2 ^ 63 - 1 -> line_next s l = Some s' ->
  race_inv s' /\ rs_accepted s' <= rs_accepted s + 1.
Proof.
  intros Hinv Hlt. unfold line_next.
  destruct l as [now line| | | | | |f|f k|f|f|f k|f]; destruct (rs_line s) as [|k' l isnew v|k' l isnew v i|k' l isnew] eqn:El; try done.
  - destruct (no_writer s); [|done]. intros Hs. split; [by eapply inv_look|].
    revert Hs. unfold graphite_look. destruct (graphite_parse now line) as [[[[? ?] ?] ?]|]; [|intros [= <-]; lia].
    destruct (graphite_tags _ _). case_match; [intros [= <-]; cbn; lia|].
    destruct (AggType _ _ _) as [[? ?]|]; cbn [mbind option_bind]; [intros [= <-]; cbn; lia|done].
  - destruct (finite v) eqn:Ev; [done|]. intros [= <-]. split; [|cbn; lia]. eapply inv_found; [done|done|by left].
  - destruct (finite v) eqn:Ev; [|done]. destruct (rs_store s !! l) as [item|] eqn:Es; cbn [mbind option_bind]; [|done].
    intros [= <-]. split; [|cbn; lia]. eapply inv_found; [done|done|right; by eexists].
  - intros [= <-]. split; [by apply inv_store with (v := v)|cbn; lia].
  - destruct isnew; [|done]. destruct (no_reader s) eqn:Er; [|done]. destruct (no_writer s); [|done]. intros [= <-].
    split; [by apply inv_insert|cbn; lia].
  - destruct isnew; [done|]. intros [= <-]. split; [by eapply inv_return|cbn; lia].
Qed.

Lemma inv_flush_next (s s' : race_state) (l : race_label) :
  race_inv s -> one_flush l -> flush_next s l = Some s' -> race_inv s' /\ rs_accepted s' = rs_accepted s.
Proof.
  intros Hinv Hone. unfold flush_next. destruct l as [now line| | | | | |f|f k|f|f|f k|f]; try done; cbn in Hone; subst f.
  all: destruct (rs_flush s !! 0%nat) as [p|] eqn:Ep; try done.
  all: try (pose proof (inv_phase s p Hinv Ep) as (E & Hm & Hp); destruct p as [todo fl|fl|todo fl]; try done).
  - destruct (no_writer s); [|done]. intros [= <-]. split; [|done]. apply inv_reads; [done|by cbn| |].
    + destruct (ri_flush _ Hinv) as [E|(q & E & _)]; [by left|]. by rewrite E, lookup_singleton_eq in Ep.
    + unfold extra. rewrite Ep. cbn. lia.
  - destruct (todo !! k) as [l|] eqn:Et; cbn [mbind option_bind]; [|done].
    destruct (rs_store s !! l) as [item|] eqn:Es; cbn [mbind option_bind]; [|done]. intros [= <-]. split; [|done].
    apply inv_reads; [done| |by right; eexists|].
    + cbn. etrans; [apply delete_subseteq|done].
    + unfold extra. rewrite Ep. cbn. rewrite flushed_snoc, (total_delete _ todo k l Et). unfold cell. rewrite Es. cbn. lia.
  - case_bool_decide as Et; [|done]. intros [= <-]. split; [|done]. apply inv_reads; [done|done|by right; eexists|].
    unfold extra. rewrite Ep. cbn. subst todo. rewrite total_empty. lia.
  - destruct (no_reader s && no_writer s); [|done]. rewrite (ri_keep _ Hinv). intros [= <-]. split; [by apply inv_reset|done].
Qed.

Lemma race_exec_inv (ls : list race_label) (s s' : race_state) :
  race_inv s -> Forall one_flush ls -> rs_accepted s + Z.of_nat (length ls) < 2 ^ 63 -> race_exec s ls = Some s' -> race_inv s'.
Proof.
  revert s. induction ls as [|l ls IH]; intros s Hinv Hls Hlen; cbn [race_exec]; [by intros [= <-]|].
  apply Forall_cons in Hls as [Hl Hls]. cbn [length] in Hlen.
  destruct (race_next s l) as [s1|] eqn:E; cbn [mbind option_bind]; [|done].
  assert (Hs1 : race_inv s1 /\ rs_accepted s1 <= rs_accepted s + 1).
  { unfold race_next in E. destruct l; try (by apply (inv_line_next _ _ _ Hinv ltac:(lia) E)).
    all: destruct (inv_flush_next _ _ _ Hinv Hl E); split; [done|lia]. }
  destruct Hs1. apply IH; [done|done|lia].
Qed.

(** C13: However the steps of the lines and of the flushes interleave, as
    long as one flush runs at a time and keys are not kept, from an empty
    table and for fewer than 2^63 steps: the values
    handed out, in the table and on their way into it are at most the
    finite values accumulated, so nothing is handed out twice, and they
    are at least these less one for each line that was under way at the
    same time as a flush, so nothing else is lost. *)
Theorem race_loses_overlaps (a : BinAccumulate) (c : C) (ls : list race_label) (s : race_state) :
  bin_InKeepKeys a = false -> Forall one_flush ls -> Z.of_nat (length ls) < 2 ^ 63 ->
  race_exec (rs_start a c) ls = Some s ->
  rs_accepted s - overlapped s <= out_count (rs_out s) + held s <= rs_accepted s.
Proof.
  intros Ha Hls Hlen Hr.
  pose proof (race_exec_inv ls (rs_start a c) s (inv_start a c Ha) Hls ltac:(cbn; lia) Hr) as [_ _ _ _ _ _ He Hbo Hlo].
  assert (0 <= due s) by (unfold due; destruct (rs_line s) as [|? ? []|? ? []|? ? []], (rs_met s); lia). lia.
Qed.

(** ** A line that is not interrupted does what [graphite_ProcessLine] does *)

Definition snapshot (s : race_state) : BinAccumulate :=
  set_stats (rs_conf s) (omap (fun l => GraphiteItem <$> rs_store s !! l) (rs_table s)).

Lemma snapshot_update (h : list BaseStatItem) (m : gmap string nat) (k : string) (l : nat) (b : BaseStatItem) :
  injective m -> m !! k = Some l -> (l < length h)%nat ->
  omap (fun j => GraphiteItem <$> <[l := b]> h !! j) m =
  <[k := GraphiteItem b]> (omap (fun l => GraphiteItem <$> h !! l) m).
Proof.
  intros Hi Hk Hl. apply map_eq. intros k'. rewrite lookup_omap. destruct (decide (k = k')) as [<-|Hne].
  - rewrite lookup_insert_eq, Hk. cbn. by rewrite list_lookup_insert_eq.
  - rewrite lookup_insert_ne, lookup_omap by done. destruct (m !! k') as [l'|] eqn:E; [cbn|done].
    rewrite list_lookup_insert_ne; [done|]. intros Heq. subst l'. by destruct Hne; apply (Hi k k' l).
Qed.

Lemma snapshot_new (h : list BaseStatItem) (m : gmap string nat) (k : string) (b0 b : BaseStatItem) :
  map_Forall (fun _ l => (l < length h)%nat) m ->
  omap (fun j => GraphiteItem <$> <[length h := b]> (h ++ [b0]) !! j) (<[k := length h]> m) =
  <[k := GraphiteItem b]> (omap (fun l => GraphiteItem <$> h !! l) m).
Proof.
  intros Hm. rewrite insert_app_r_alt, Nat.sub_diag by done. cbn [insert list_insert]. apply map_eq. intros k'.
  rewrite lookup_omap. destruct (decide (k = k')) as [<-|Hne].
  - rewrite !lookup_insert_eq. cbn. by rewrite list_lookup_middle.
  - rewrite !lookup_insert_ne, lookup_omap by done. destruct (m !! k') as [l|] eqn:E; [cbn|done].
    by rewrite lookup_app_l by (by apply (Hm k')).
Qed.

Lemma rest_of_line (s : race_state) (k : string) (l : nat) (isnew : bool) (v : float64) (i : BaseStatItem) :
  rs_line s = Looked k l isnew v -> rs_flush s = ∅ -> rs_store s !! l = Some i ->
  exists ls s', race_exec s ls = Some s' /\ rs_conf s' = rs_conf s /\ rs_cache s' = rs_cache s /\
    rs_store s' = <[l := base_Accumulate i v]> (rs_store s) /\
    rs_table s' = if isnew then <[k := l]> (rs_table s) else rs_table s.
Proof.
  intros Hl Hf Hs. destruct s as [conf c h m ln fs out n met ov]. race_simpl. subst ln fs.
  exists ((if finite v then [LLoad; LStore] else [LSkip]) ++ [if isnew then LInsert else LReturn]).
  destruct (finite v) eqn:Ev, isnew; cbn; rewrite Ev; cbn; rewrite ?Hs; cbn; eexists; (split; [reflexivity|]); cbn.
  all: rewrite ?(base_Accumulate_skip i v Ev), ?(list_insert_id h l i Hs); done.
Qed.

Lemma line_uninterrupted (s : race_state) (now : Z) (line : string) (a' : BinAccumulate) (c' : C) (err : option goerror) :
  rs_line s = Idle -> rs_flush s = ∅ -> injective (rs_table s) ->
  map_Forall (fun _ l => (l < length (rs_store s))%nat) (rs_table s) ->
  graphite_ProcessLine (snapshot s) (rs_cache s) now line = Some (a', c', err) ->
  exists ls s', race_exec s ls = Some s' /\ snapshot s' = a' /\ rs_cache s' = c'.
Proof.
  intros Hl Hf Hi Hb. unfold graphite_ProcessLine.
  destruct (graphite_parse now line) as [[[[key v] t] tags]|e] eqn:Ep.
  2: { intros [= <- <- _]. exists [LLook now line], s. split; [|done]. cbn. unfold line_next, no_writer. rewrite Hl, Hf.
       cbn. unfold graphite_look. by rewrite Ep. }
  change (bin_TagMode (snapshot s)) with (bin_TagMode (rs_conf s)). destruct (graphite_tags _ tags) as [tgs meta] eqn:Eg.
  set (sk := bin_MapKey _ _ _). cbn [snapshot set_stats bin_Stats]. rewrite lookup_omap.
  assert (Hlook : forall ls s1, graphite_look s now line = Some s1 -> race_exec s (LLook now line :: ls) = race_exec s1 ls).
  { intros ls s1 E. cbn. unfold line_next, no_writer. rewrite Hl, Hf. cbn. by rewrite E. }
  destruct (rs_table s !! sk) as [l|] eqn:Et; cbn [mbind option_bind].
  - destruct (lookup_lt_is_Some_2 _ _ (Hb sk l Et)) as [i Hs]. rewrite Hs. cbn [fmap option_fmap option_map].
    intros [= <- <- _].
    set (s1 := mkRace (rs_conf s) (rs_cache s) (rs_store s) (rs_table s) (Looked sk l false v)
                  (rs_flush s) (rs_out s) (rs_accepted s) (flushing s) (rs_overlaps s)).
    destruct (rest_of_line s1 sk l false v i) as (ls & s' & Hr & Hc & Hca & Hst & Htab); [done..|]. exists (LLook now line :: ls), s'. split.
    + rewrite (Hlook _ s1); [exact Hr|]. unfold graphite_look. rewrite Ep, Eg. change (bin_MapKey (rs_conf s) _ _) with sk. by rewrite Et.
    + split; [|done]. unfold snapshot. rewrite Hc, Hst, Htab. cbn. by rewrite (snapshot_update _ _ sk) by (try done; by apply (Hb sk)).
  - destruct (AggType _ _ _) as [[agg c1]|] eqn:Ea; cbn [mbind option_bind]; [|done]. intros [= <- <- _].
    set (b := fresh_base (new_name key (sort_Sort tags_Less tgs) meta (rs_conf s)) "graphite" agg
                (bin_ResolutionTime (rs_conf s) t)).
    set (s1 := mkRace (rs_conf s) c1 (rs_store s ++ [b]) (rs_table s) (Looked sk (length (rs_store s)) true v)
                  (rs_flush s) (rs_out s) (rs_accepted s) (flushing s) (rs_overlaps s)).
    destruct (rest_of_line s1 sk (length (rs_store s)) true v b) as (ls & s' & Hr & Hc & Hca & Hst & Htab); [done|done|by apply list_lookup_middle|].
    exists (LLook now line :: ls), s'. split.
    + rewrite (Hlook _ s1); [exact Hr|]. unfold graphite_look. rewrite Ep, Eg. change (bin_MapKey (rs_conf s) _ _) with sk. rewrite Et.
      change (new_name key (sort_Sort tags_Less tgs) meta (snapshot s)) with (new_name key (sort_Sort tags_Less tgs) meta (rs_conf s)) in Ea.
      by rewrite Ea.
    + split; [|done]. unfold snapshot. rewrite Hc, Hst, Htab. cbn [rs_conf rs_store rs_table set_stats]. f_equal.
      by apply snapshot_new.
Qed.

End races.

(** ** Witnesses *)

#[local] Existing Instance insertion_GoSort.

Definition race_go (a : BinAccumulate) (ls : list race_label) : option race_state :=
  race_exec (rs_start a acc_cache) ls.

Definition race_counts (s : race_state (C := LRUCache aggItem)) : Z * Z * Z * Z :=
  (rs_accepted s, overlapped s, out_count (rs_out s), held s).

Definition whole_line (line : string) (isnew : bool) : list race_label :=
  [LLook 5 line; LLoad; LStore; if isnew then LInsert else LReturn].

(** The name in the table of the lines below. *)
Definition ab_key : string := bin_MapKey acc_ten "a.b" (100 * 10 ^ 9).

Definition race_labels : list race_label :=
  whole_line "a.b 1 100" true ++ [FBegin 0; FRead 0 ab_key; FUnlock 0] ++ whole_line "a.b 3 101" false ++ [FReset 0] ++
  whole_line "a.b 5 102" true.

(** Of three values one is handed out, one is held and one, of a line
    between the listing and the reset, is lost. *)
Lemma race_loses_overlaps_witness :
  exists s, race_go acc_ten race_labels = Some s /\ race_counts s = (3, 1, 1, 1) /\
    rs_accepted s - overlapped s <= out_count (rs_out s) + held s <= rs_accepted s.
Proof.
  eexists. split; [|split].
  3: apply (race_loses_overlaps acc_ten acc_cache race_labels); [reflexivity|by repeat constructor|reflexivity|].
  1, 3: vm_compute; reflexivity.
  vm_compute. reflexivity.
Defined.

(** A line that has found its item before the flush lists it adds its value
    after the reset, to an item that is in no table any more. *)
Example line_outlives_its_item :
  race_counts <$> race_go acc_ten (whole_line "a.b 1 100" true ++
    [LLook 6 "a.b 3 101"; FBegin 0; FRead 0 ab_key; FUnlock 0; FReset 0; LLoad; LStore; LReturn])
  = Some (2, 1, 1, 0).
Proof. vm_compute. reflexivity. Qed.

(** Two flushes at once hand the same value out twice. *)
Example two_flushes_double :
  race_counts <$> race_go acc_ten (whole_line "a.b 1 100" true ++
    [FBegin 0; FBegin 1; FRead 0 ab_key; FRead 1 ab_key; FUnlock 0; FUnlock 1; FReset 0; FReset 1])
  = Some (1, 0, 2, 0).
Proof. vm_compute. reflexivity. Qed.

(** When keys are kept, an item is zeroed without its lock: a line that has
    read it before writes the old values back, and they are handed out
    again. *)
Definition acc_keep : BinAccumulate := mkBin ∅ None true (10 * 10 ^ 9) TAG_METRICS2 HASH_FNV.

Example zeroed_values_return :
  race_counts <$> race_go acc_keep (whole_line "a.b 1 100" true ++
    [LLook 6 "a.b 3 101"; LLoad; FBegin 0; FRead 0 ab_key; FUnlock 0; FReset 0; FZero 0 ab_key; FDone 0; LStore; LReturn])
  = Some (2, 1, 1, 2).
Proof. vm_compute. reflexivity. Qed.
