(* ===== verification/Accumulator.v ===== *)
(** [accumulator/accumulator.go] and [registry.go]: the accumulator as the
    server uses it.  It queues lines, feeds them to the accumulator of its
    format, and at every tick prints what was collected, parses the text
    again with the splitter of the output format and hands the items to
    the backends, and the points to the aggregators.

    The channels are the lists of what was sent on them.  [time.Now] is an
    argument, as is what the splitters' pool returns for each line. *)
From S2P Require Import Prelude Bits Float64 GoStrings GoParse GoFormat GoSort LRU LRUTheorems.
From S2P Require Import Tags Repr Aggs Aggregator Splitter Formatter StatItem Accumulate.

Open Scope Z_scope.

(** ** The interface of the accumulators *)

Inductive AccumulatorItem :=
| GraphiteAcc (a : BinAccumulate)
| CarbonTwoAcc (a : BinAccumulate)
| JsonAcc (a : BinAccumulate)
| StatsdAcc (a : StatsdAccumulate).

(** [new] gives zero values: a nil map, and zero durations and modes. *)
Definition NewAccumulatorItem (name : string) : AccumulatorItem + goerror :=
  let bin := mkBin ∅ None false 0 TAG_METRICS2 HASH_FNV in
  if bool_decide (name = "graphite"%string) then inl (GraphiteAcc bin)
  else if bool_decide (name = "statsd"%string)
  then inl (StatsdAcc (mkStatsdAcc ∅ None false TAG_METRICS2 HASH_FNV (mkOptions false "" "" "" "" "" "" [])))
  else if bool_decide (name = "json"%string) then inl (JsonAcc bin)
  else if bool_decide (name = "carbon2"%string) || bool_decide (name = "carbontwo"%string)
  then inl (CarbonTwoAcc bin)
  else inr (GoError ("Invalid accumulator " +:+ name)).

Definition on_bin (f : BinAccumulate -> BinAccumulate) (g : StatsdAccumulate -> StatsdAccumulate)
    (i : AccumulatorItem) : AccumulatorItem :=
  match i with
  | GraphiteAcc a => GraphiteAcc (f a)
  | CarbonTwoAcc a => CarbonTwoAcc (f a)
  | JsonAcc a => JsonAcc (f a)
  | StatsdAcc a => StatsdAcc (g a)
  end.

(** [Init]: an empty map and the default options. *)
Definition acc_Init : AccumulatorItem -> AccumulatorItem :=
  on_bin (fun a => set_stats a ∅) (fun a => (SetOptions (sd_set_stats a ∅) []).1).

Definition acc_SetKeepKeys (k : bool) : AccumulatorItem -> AccumulatorItem :=
  on_bin (fun a => mkBin (bin_Stats a) (bin_InTags a) k (bin_Resolution a) (bin_TagMode a) (bin_HashMode a))
         (fun a => mkStatsdAcc (sd_Stats a) (sd_InTags a) k (sd_TagMode a) (sd_HashMode a) (sd_options a)).

Definition acc_SetResolution (dur : Z) : AccumulatorItem -> AccumulatorItem :=
  on_bin (fun a => mkBin (bin_Stats a) (bin_InTags a) (bin_InKeepKeys a) dur (bin_TagMode a) (bin_HashMode a))
         (fun a => a).

Definition acc_SetTagMode (m : TagMode) : AccumulatorItem -> AccumulatorItem :=
  on_bin (fun a => mkBin (bin_Stats a) (bin_InTags a) (bin_InKeepKeys a) (bin_Resolution a) m (bin_HashMode a))
         (fun a => mkStatsdAcc (sd_Stats a) (sd_InTags a) (sd_InKeepKeys a) m (sd_HashMode a) (sd_options a)).

Definition acc_SetHashMode (m : HashMode) : AccumulatorItem -> AccumulatorItem :=
  on_bin (fun a => mkBin (bin_Stats a) (bin_InTags a) (bin_InKeepKeys a) (bin_Resolution a) (bin_TagMode a) m)
         (fun a => mkStatsdAcc (sd_Stats a) (sd_InTags a) (sd_InKeepKeys a) (sd_TagMode a) m (sd_options a)).

Definition acc_SetTags (t : option SortingTags) : AccumulatorItem -> AccumulatorItem :=
  on_bin (fun a => mkBin (bin_Stats a) t (bin_InKeepKeys a) (bin_Resolution a) (bin_TagMode a) (bin_HashMode a))
         (fun a => mkStatsdAcc (sd_Stats a) t (sd_InKeepKeys a) (sd_TagMode a) (sd_HashMode a) (sd_options a)).

Definition acc_Stats (i : AccumulatorItem) : gmap string StatItem :=
  match i with GraphiteAcc a | CarbonTwoAcc a | JsonAcc a => bin_Stats a | StatsdAcc a => sd_Stats a end.

Definition acc_with_stats (m : gmap string StatItem) : AccumulatorItem -> AccumulatorItem :=
  on_bin (fun a => set_stats a m) (fun a => sd_set_stats a m).

Definition acc_keep (i : AccumulatorItem) : bool :=
  match i with GraphiteAcc a | CarbonTwoAcc a | JsonAcc a => bin_InKeepKeys a | StatsdAcc a => sd_InKeepKeys a end.

Definition acc_Tags (i : AccumulatorItem) : option SortingTags :=
  match i with GraphiteAcc a | CarbonTwoAcc a | JsonAcc a => bin_InTags a | StatsdAcc a => sd_InTags a end.

(** What [GetOption] answers from: only the Statsd items ask. *)
Definition acc_options (i : AccumulatorItem) : StatsdOptions :=
  match i with StatsdAcc a => sd_options a | _ => default_options end.

Definition acc_Reset (i : AccumulatorItem) : AccumulatorItem :=
  acc_with_stats (reset (acc_keep i) (acc_Stats i)) i.

Definition acc_FlushList (i : AccumulatorItem) (now : Z) : flushedList * AccumulatorItem :=
  let '(fl, m) := flush_list (acc_keep i) now (acc_Stats i) in (fl, acc_with_stats m i).

(** ** The buffer *)

(** [bytes.Buffer.ReadBytes('\n')]: the line with its newline, and the
    rest; [None] is [io.EOF]. *)
Fixpoint ReadBytes (s : string) : option (string * string) :=
  match s with
  | EmptyString => None
  | String c s =>
      if bool_decide (c = newline) then Some (String c "", s)
      else '(line, rest) ← ReadBytes s; Some (String c line, rest)
  end.

Definition BLACK_HOLE_BACKEND : string := "BLACKHOLE".

Section accumulator.
Context `{!GoSort}.
Context {C : Type} {MC : MemoCache C aggItem}.
Context {Regexp : Type} (FindAllSubmatch : Regexp -> string -> option (list (list string))).
Context (time_Parse : string -> string -> option Z).
Context (Unmarshal : string -> JsonStruct + goerror).
Context (Marshal : JsonStruct -> string + goerror).
Variable math_Pow : float64 -> float64 -> float64.
Variable Sprintf0 : string -> string.

Definition acc_ProcessLine (i : AccumulatorItem) (c : C) (now : Z) (line : string)
    : option (AccumulatorItem * C * option goerror) :=
  match i with
  | GraphiteAcc a => '(a, c, err) ← graphite_ProcessLine a c now line; Some (GraphiteAcc a, c, err)
  | CarbonTwoAcc a => '(a, c, err) ← carbon_ProcessLine a c now line; Some (CarbonTwoAcc a, c, err)
  | JsonAcc a => '(a, c, err) ← json_ProcessLine Unmarshal a c now line; Some (JsonAcc a, c, err)
  | StatsdAcc a => let '(a, err) := statsd_ProcessLine Sprintf0 a now line in Some (StatsdAcc a, c, err)
  end.

Definition acc_ProcessLineToRepr (i : AccumulatorItem) (now : Z) (line : string) : option (StatRepr + goerror) :=
  match i with
  | GraphiteAcc a => Some (graphite_ProcessLineToRepr a now line)
  | CarbonTwoAcc a => carbon_ProcessLineToRepr a now line
  | JsonAcc a => json_ProcessLineToRepr Unmarshal a now line
  | StatsdAcc a => Some (statsd_ProcessLineToRepr a now line)
  end.

(** What is written to the buffer, the points, and the items afterwards. *)
Definition acc_Flush (f : FormatterItem) (i : AccumulatorItem) (now : Z)
    : option (string * flushedList * AccumulatorItem) :=
  '(text, fl, m) ← flush math_Pow f (acc_keep i) now (acc_Tags i) (acc_options i) (acc_Stats i);
  Some (text, fl, acc_with_stats m i).

(** ** The accumulator *)

Record Accumulator := mkAcc {
  ToBackend : string;
  FromBackend : string;
  ac_Name : string;
  KeepKeys : bool;
  AccumulateTime : Z;
  FlushTimes : list Z;
  TTLTimes : list Z;
  ac_TagMode : TagMode;
  ac_HashMode : HashMode;
  ByPass : bool;
  Accumulate : AccumulatorItem;
  Formatter : FormatterItem;
  InSplitter : Splitter (Regexp := Regexp);
  OutSplitter : Splitter (Regexp := Regexp);
  LineQueue : list string;
  shutitdown : bool;
  has_output : bool;
  has_aggregators : bool
}.

Definition with_accumulate (a : Accumulator) (i : AccumulatorItem) : Accumulator :=
  mkAcc (ToBackend a) (FromBackend a) (ac_Name a) (KeepKeys a) (AccumulateTime a) (FlushTimes a) (TTLTimes a) (ac_TagMode a)
        (ac_HashMode a) (ByPass a) i (Formatter a) (InSplitter a) (OutSplitter a) (LineQueue a) (shutitdown a)
        (has_output a) (has_aggregators a).

Definition with_queue (a : Accumulator) (q : list string) (down : bool) : Accumulator :=
  mkAcc (ToBackend a) (FromBackend a) (ac_Name a) (KeepKeys a) (AccumulateTime a) (FlushTimes a) (TTLTimes a) (ac_TagMode a)
        (ac_HashMode a) (ByPass a) (Accumulate a) (Formatter a) (InSplitter a) (OutSplitter a) q down
        (has_output a) (has_aggregators a).

Definition second : Z := 10 ^ 9.

(** [None] would be a panic of a splitter's constructor. *)
Definition NewAccumlator (inputtype outputtype : string) (keepkeys : bool) (name : string)
    : option (Accumulator + goerror) :=
  match NewFormatterItem outputtype with
  | inr err => Some (inr err)
  | inl fmter =>
      match NewAccumulatorItem inputtype with
      | inr err => Some (inr err)
      | inl acc =>
          let acc := acc_SetResolution second (acc_SetKeepKeys keepkeys (acc_Init acc)) in
          ispl ← NewSplitterItem inputtype None ∅;
          match ispl with
          | inr err => Some (inr err)
          | inl ispl =>
              ospl ← NewSplitterItem outputtype None ∅;
              match ospl with
              | inr err => Some (inr err)
              | inl ospl =>
                  Some (inl (mkAcc "" "" name keepkeys second [second] [] TAG_METRICS2 HASH_FNV false acc fmter
                                   ispl ospl [] false false false))
              end
          end
      end
  end.

(** [ProcessLine] and [ProcessSplitItem]: the line is queued unless the
    accumulator was stopped. *)
Definition ac_ProcessLine (a : Accumulator) (line : string) : Accumulator :=
  if shutitdown a then a else with_queue a (LineQueue a ++ [line]) false.

Definition ac_ProcessSplitItem (a : Accumulator) (sp : SplitItem) : Accumulator := ac_ProcessLine a (inline sp).

(** [PushLine] sends when there is a queue and a backend. *)
Definition PushLine (a : Accumulator) (sent : list SplitItem) (spl : SplitItem) : list SplitItem :=
  if has_output a && negb (bool_decide (ToBackend a = BLACK_HOLE_BACKEND)) then sent ++ [spl] else sent.

(** The marks that are meant to keep an item from being accumulated
    again. *)
Definition mark (a : Accumulator) (spl : SplitItem) : SplitItem :=
  SetOriginName (SetOrigin (SetPhase spl AccumulatedParsed) Other) (FromBackend a).

(** The loop over the buffer, of [FlushAndPost] and of [Flush], with what
    they do to an item.  [None] for the fuel or for a panic of the
    splitter; lines it refuses are logged and skipped. *)
Fixpoint read_loop (mk : SplitItem -> SplitItem) (push : list SplitItem -> SplitItem -> list SplitItem) (fuel : nat)
    (a : Accumulator) (pool : list (option SplitItem)) (now : Z) (buffer : string)
    (outSpl sent : list SplitItem) : option (list SplitItem * list SplitItem) :=
  match fuel with
  | O => None
  | S fuel =>
      match ReadBytes buffer with
      | None => Some (outSpl, sent)
      | Some (line, buffer) =>
          if (String.length line =? 0)%nat then read_loop mk push fuel a pool now buffer outSpl sent
          else
            r ← ProcessLine FindAllSubmatch time_Parse Unmarshal Marshal (OutSplitter a) (default None (head pool)) now line;
            match r with
            | inr _ => read_loop mk push fuel a (tail pool) now buffer outSpl sent
            | inl spl => let spl := mk spl in
                         read_loop mk push fuel a (tail pool) now buffer (outSpl ++ [spl]) (push sent spl)
            end
      end
  end.

Record posted := mkPosted {
  po_items : list SplitItem;
  po_sent : list SplitItem;
  po_stats : list StatRepr
}.

(** A point without a time gets that of the flush. *)
Definition stamp_time (attime : Z) (stat : StatRepr) : StatRepr :=
  if Time stat =? 0
  then mkRepr (r_Name stat) (UnixNano attime) (Min stat) (Max stat) (Last stat) (Sum stat) (Count stat)
  else stat.

(** [FlushAndPost]: the items returned, those sent to the server, and the
    points sent to the aggregators. *)
Definition FlushAndPost (a : Accumulator) (pool : list (option SplitItem)) (now attime : Z)
    : option (posted * Accumulator) :=
  '(out, sent, fl, i) ←
    (if bool_decide (ToBackend a = BLACK_HOLE_BACKEND) then
       let '(fl, i) := acc_FlushList (Accumulate a) now in Some ([], [], fl, i)
     else
       '(text, fl, i) ← acc_Flush (Formatter a) (Accumulate a) now;
       '(out, sent) ← read_loop (mark a) (PushLine a) (S (String.length text)) a pool now text [] [];
       Some (out, sent, fl, i));
  let stats := if has_aggregators a then map (stamp_time attime) fl else [] in
  Some (mkPosted out sent stats, with_accumulate a i).

(** [Flush]: the items are returned only, and keep the origin's name they
    had. *)
Definition ac_Flush (a : Accumulator) (pool : list (option SplitItem)) (now : Z)
    : option (list SplitItem * Accumulator) :=
  '(text, _, i) ← acc_Flush (Formatter a) (Accumulate a) now;
  '(out, _) ← read_loop (fun spl => SetOrigin (SetPhase spl AccumulatedParsed) Other) (fun sent _ => sent)
                (S (String.length text)) a pool now text [] [];
  Some (out, with_accumulate a i).

(** ** The loop of [Start] *)

Inductive loop_event :=
| EvLine (now : Z) (line : string)
| EvTick (now attime : Z) (pool : list (option SplitItem))
| EvShutdown.

(** What one turn of the loop sends: to the server, to the aggregators,
    and directly to the writers. *)
Record sent_out := mkSent {
  so_lines : list SplitItem;
  so_stats : list StatRepr;
  so_direct : list StatRepr
}.

Definition nothing : sent_out := mkSent [] [] [].

(** One turn of the loop; the boolean says that it goes on.  A flush is
    taken to end before the next event.  In bypass mode there is no
    ticker. *)
Definition loop_turn (a : Accumulator) (c : C) (ev : loop_event) : option (Accumulator * C * sent_out * bool) :=
  match ev with
  | EvShutdown => Some (a, c, nothing, false)
  | EvLine now line =>
      if ByPass a then
        r ← acc_ProcessLineToRepr (Accumulate a) now line;
        Some (a, c, match r with inl r => mkSent [] [] [r] | inr _ => nothing end, true)
      else
        '(i, c, _) ← acc_ProcessLine (Accumulate a) c now line;
        Some (with_accumulate a i, c, nothing, true)
  | EvTick now attime pool =>
      if ByPass a then Some (a, c, nothing, true)
      else
        '(p, a) ← FlushAndPost a pool now attime;
        Some (a, c, mkSent (po_sent p) (po_stats p) [], true)
  end.

(** [Start] hands the modes of the accumulator to its item, the first
    time it is called (there is no timer yet). *)
Definition start_setup (a : Accumulator) : Accumulator :=
  if shutitdown a || ByPass a then a
  else with_accumulate a (acc_SetTagMode (ac_TagMode a)
         (acc_SetHashMode (ac_HashMode a) (acc_SetResolution (AccumulateTime a) (Accumulate a)))).

Fixpoint loop (a : Accumulator) (c : C) (evs : list loop_event) : option (Accumulator * C * list sent_out) :=
  match evs with
  | [] => Some (a, c, [])
  | ev :: evs =>
      '(a, c, out, more) ← loop_turn a c ev;
      if more : bool then '(a, c, outs) ← loop a c evs; Some (a, c, out :: outs)
      else Some (a, c, [out])
  end.

(** [Stop]: no further lines are queued, and what was collected is
    flushed. *)
Definition ac_Stop (a : Accumulator) (pool : list (option SplitItem)) (now : Z) : option (posted * Accumulator) :=
  let a := with_queue a (LineQueue a) true in
  if ByPass a then Some (mkPosted [] [] [], a) else FlushAndPost a pool now now.

End accumulator.
