(* ===== verification/AccumulatorTheorems.v ===== *)
(** The accumulator as a whole: the loop that parses the flushed text again
    ends after its last line, what is posted carries the marks that keep
    it from being accumulated twice, a Graphite flush re-enters the server
    metric by metric, and what a line that races with a flush loses. *)
From S2P Require Import Prelude Bits Float64 GoStrings GoParse GoFormat GoSort LRU LRUTheorems.
From S2P Require Import Tags Repr Aggs Aggregator Splitter SplitterTheorems Formatter.
From S2P Require Import StatItem Accumulate AccumulateTheorems Accumulator.

Open Scope Z_scope.

(** ** Reading the buffer *)

(** The complete lines of a text; what follows the last newline is
    dropped. *)
Definition text_lines (s : string) : list string :=
  (fun l => l +:+ sep1 newline) <$> removelast (Split s (sep1 newline)).

Lemma ReadBytes_none (s : string) : no_char newline s = true -> ReadBytes s = None.
Proof.
  induction s as [|a s IH]; [done|]. cbn [no_char ReadBytes]. intros H. bool_to_prop.
  rewrite H by done. by rewrite IH.
Qed.

Lemma ReadBytes_line (l r : string) :
  no_char newline l = true -> ReadBytes (l +:+ sep1 newline +:+ r) = Some (l +:+ sep1 newline, r).
Proof.
  induction l as [|a l IH]; [done|]. cbn [no_char]. intros H. bool_to_prop. rewrite !string_app_cons.
  cbn [ReadBytes]. rewrite H by done. by rewrite IH.
Qed.

Lemma text_lines_none (s : string) : no_char newline s = true -> text_lines s = [].
Proof. intros H. unfold text_lines. by rewrite Split_no_char. Qed.

Lemma text_lines_line (l r : string) :
  no_char newline l = true -> text_lines (l +:+ sep1 newline +:+ r) = (l +:+ sep1 newline) :: text_lines r.
Proof.
  intros Hl. unfold text_lines, Split. rewrite split_from_no_char by done. rewrite string_app_nil_l.
  change (sep1 newline +:+ r) with (String newline r). cbn [split_from].
  replace (String.prefix (sep1 newline) (String newline r)) with true by (symmetry; apply GoStrings.prefix_nil).
  change (String.length (sep1 newline) - 1)%nat with 0%nat.
  pose proof (split_from_nonempty (sep1 newline) 0 "" r) as Hne.
  destruct (split_from (sep1 newline) 0 "" r) as [|x xs] eqn:E; [done|]. done.
Qed.

Section posts.
Context `{!GoSort}.
Context {Regexp : Type} (FindAllSubmatch : Regexp -> string -> option (list (list string))).
Context (time_Parse : string -> string -> option Z).
Context (Unmarshal : string -> JsonStruct + goerror).
Context (Marshal : JsonStruct -> string + goerror).
Variable math_Pow : float64 -> float64 -> float64.

Abbreviation Accumulator := (Accumulator (Regexp := Regexp)).
Abbreviation split_line := (ProcessLine FindAllSubmatch time_Parse Unmarshal Marshal).
Abbreviation read_loop := (read_loop FindAllSubmatch time_Parse Unmarshal Marshal).
Abbreviation FlushAndPost := (FlushAndPost FindAllSubmatch time_Parse Unmarshal Marshal math_Pow).

(** The items of a list of lines, by recursion on the list: the lines the
    splitter refuses are left out. *)
Fixpoint split_lines (s : Splitter) (pool : list (option SplitItem)) (now : Z) (lines : list string)
    : option (list SplitItem) :=
  match lines with
  | [] => Some []
  | line :: lines =>
      r ← split_line s (default None (head pool)) now line;
      items ← split_lines s (tail pool) now lines;
      Some match r with inl spl => spl :: items | inr _ => items end
  end.

Lemma read_loop_lines (mk : SplitItem -> SplitItem) (push : list SplitItem -> SplitItem -> list SplitItem) (fuel : nat)
    (a : Accumulator) (pool : list (option SplitItem)) (now : Z) (buffer : string) (out sent : list SplitItem) :
  (String.length buffer < fuel)%nat ->
  read_loop mk push fuel a pool now buffer out sent =
    (fun items => (out ++ map mk items, foldl push sent (map mk items))) <$>
      split_lines (OutSplitter a) pool now (text_lines buffer).
Proof.
  revert pool buffer out sent. induction fuel as [|fuel IH]; intros pool buffer out sent Hf; [lia|].
  cbn [Accumulator.read_loop]. destruct (no_char newline buffer) eqn:E.
  { rewrite ReadBytes_none, text_lines_none by done. cbn. by rewrite app_nil_r. }
  destruct (split_from_head newline "" buffer E) as (l & r & _ & -> & Hl & _).
  rewrite ReadBytes_line, text_lines_line by done. cbn [split_lines].
  assert (Hlen : (String.length (l +:+ sep1 newline) <> 0)%nat).
  { rewrite string_length_app. simpl. lia. }
  apply Nat.eqb_neq in Hlen. rewrite Hlen. clear Hlen.
  rewrite !string_length_app in Hf. change (String.length (sep1 newline)) with 1%nat in Hf.
  destruct (split_line _ _ _ _) as [[spl|err]|]; cbn [mbind option_bind]; [..|done]; rewrite IH by lia;
    destruct (split_lines _ _ _ _) as [items|]; cbn; try done.
  by rewrite <- app_assoc.
Qed.

(** The loop of [FlushAndPost] over the flushed text ends, with fuel
    for one turn per byte: it does what going through the complete lines
    of the text in order does. *)
Theorem read_loop_terminates (a : Accumulator) (pool : list (option SplitItem)) (now : Z) (buffer : string) :
  read_loop (mark a) (PushLine a) (S (String.length buffer)) a pool now buffer [] [] =
    (fun items => (map (mark a) items, foldl (PushLine a) [] (map (mark a) items))) <$>
      split_lines (OutSplitter a) pool now (text_lines buffer).
Proof. rewrite read_loop_lines by lia. done. Qed.

(** ** What is posted *)

Lemma PushLine_all (a : Accumulator) (sent items : list SplitItem) :
  foldl (PushLine a) sent items =
    if has_output a && negb (bool_decide (ToBackend a = BLACK_HOLE_BACKEND)) then sent ++ items else sent.
Proof.
  revert sent. induction items as [|i items IH]; intros sent; cbn [foldl]; [case_if; by rewrite ?app_nil_r|].
  rewrite IH. unfold PushLine. case_if; [by rewrite <- app_assoc|done].
Qed.

Lemma flush_items_fst (f : FormatterItem) (now : Z) (tags : option SortingTags) (ops : StatsdOptions)
    (items : list (string * StatItem)) (text : string) (fl : flushedList) (items' : list (string * StatItem)) :
  flush_items math_Pow f now tags ops items = Some (text, fl, items') ->
  items'.*1 = items.*1 /\ length fl = length items.
Proof.
  revert text fl items'. induction items as [|[k i] items IH]; intros text fl items' E; cbn [flush_items] in E.
  { by simplify_eq. }
  destruct (item_Write _ _ _ _ _ _) as [[t i']|]; cbn [mbind option_bind] in E; [|done].
  destruct (flush_items _ _ _ _ _ _) as [[[t' fl'] items'']|]; cbn [mbind option_bind] in E; [|done]. simplify_eq.
  destruct (IH _ _ _ eq_refl) as [Hf Hl]. cbn. by rewrite Hf, Hl.
Qed.

(** The map that a flush leaves has the same keys, or none. *)
Lemma flush_dom (f : FormatterItem) (keep : bool) (now : Z) (tags : option SortingTags) (ops : StatsdOptions)
    (m m' : gmap string StatItem) (text : string) (fl : flushedList) :
  flush math_Pow f keep now tags ops m = Some (text, fl, m') ->
  dom m' = (if keep then dom m else ∅) /\ length fl = base.size m.
Proof.
  unfold flush. destruct (flush_items _ _ _ _ _ _) as [[[t fl'] items]|] eqn:E; cbn [mbind option_bind]; [|done].
  intros. simplify_eq. apply flush_items_fst in E as [Hf Hl]. unfold reset. split.
  - destruct keep; [|by rewrite dom_empty_L]. rewrite dom_fmap_L, dom_list_to_map_L, Hf.
    by rewrite <- (list_to_map_to_list m) at 2; rewrite dom_list_to_map_L.
  - by rewrite Hl, length_map_to_list.
Qed.

Definition marked (a : Accumulator) (spl : SplitItem) : Prop :=
  inphase spl = AccumulatedParsed /\ inorigin spl = Other /\ inoname spl = FromBackend a.

Lemma mark_marked (a : Accumulator) (items : list SplitItem) : Forall (marked a) (map (mark a) items).
Proof. apply Forall_fmap, Forall_true. done. Qed.

Lemma acc_with_stats_Stats (m : gmap string StatItem) (i : AccumulatorItem) : acc_Stats (acc_with_stats m i) = m.
Proof. by destruct i. Qed.

(** What a flush that returns, at a time whose nanoseconds are not
    zero, has done.  Every item it posts has the fields of an accumulated
    item set: phase, origin and the name of the backend it comes from (the
    server does not look at the phase: [Routing.marks_ignored]).  The items go to the server
    exactly when there is an output queue and the backend is not the black
    hole, for which nothing is posted; the aggregators, if there are any,
    are given a point per item, none without a time; and afterwards the
    accumulator holds no item, or the same keys when they are kept. *)
Theorem flush_and_post_safe (a : Accumulator) (pool : list (option SplitItem)) (now attime : Z)
    (p : posted) (a' : Accumulator) :
  FlushAndPost a pool now attime = Some (p, a') -> UnixNano attime <> 0 ->
  Forall (marked a) (po_items p) /\
  po_sent p = (if has_output a && negb (bool_decide (ToBackend a = BLACK_HOLE_BACKEND)) then po_items p else []) /\
  (ToBackend a = BLACK_HOLE_BACKEND -> po_items p = []) /\
  length (po_stats p) = (if has_aggregators a then base.size (acc_Stats (Accumulate a)) else 0%nat) /\
  Forall (fun s => Time s <> 0) (po_stats p) /\
  dom (acc_Stats (Accumulate a')) = (if acc_keep (Accumulate a) then dom (acc_Stats (Accumulate a)) else ∅).
Proof.
  intros Hp Ht. assert (Hst : forall fl, Forall (fun s => Time s <> 0) (map (stamp_time attime) fl)).
  { intros fl. apply Forall_fmap, Forall_true. intros s. cbn. unfold stamp_time. case_if; bool_to_prop; done. }
  unfold Accumulator.FlushAndPost in Hp. destruct (bool_decide (ToBackend a = _)) eqn:Eb.
  - unfold acc_FlushList, flush_list in Hp. cbn [mbind option_bind] in Hp. simplify_eq.
    cbn [po_items po_sent po_stats Accumulate with_accumulate]. rewrite acc_with_stats_Stats, andb_false_r.
    split_and!; try done.
    + case_if; [|done]. by rewrite length_map, length_fmap, length_map_to_list.
    + case_if; done.
    + unfold reset. case_if; [by rewrite dom_fmap_L|by rewrite dom_empty_L].
  - destruct (acc_Flush _ _ _ _) as [[[text fl] i]|] eqn:Ef; cbn [mbind option_bind] in Hp; [|done].
    rewrite read_loop_lines in Hp by lia. destruct (split_lines _ _ _ _) as [items|]; cbn in Hp; [|done]. simplify_eq.
    unfold acc_Flush in Ef. destruct (flush _ _ _ _ _ _ _) as [[[text' fl'] m]|] eqn:Efl; [|done]. cbn in Ef.
    simplify_eq. apply flush_dom in Efl as [Hd Hl]. rewrite bool_decide_eq_false in Eb.
    cbn [po_items po_sent po_stats Accumulate with_accumulate]. rewrite acc_with_stats_Stats, PushLine_all.
    split_and!; try done.
    + apply mark_marked.
    + by rewrite bool_decide_false by done.
    + case_if; [|done]. by rewrite length_map.
    + case_if; done.
Qed.

(** ** A Graphite flush enters the server again *)

Lemma lookup_lt_value {A} (l : list A) (n : nat) : (n < length l)%nat -> exists x, l !! n = Some x.
Proof. intros Hn. by apply lookup_lt_is_Some_2. Qed.

Lemma ACCUMULATE_FUNC_total (agg : Z) (vals : list float64) :
  known_agg agg -> exists v vals', ACCUMULATE_FUNC math_Pow agg vals = Some (v, vals').
Proof.
  intros Hagg. assert (Hs : length (sort_Sort agg_Less vals) = length vals) by apply Permutation_length, sort_perm.
  assert (Hat : forall l n, length l = length vals -> (n < length vals)%nat ->
    exists v vals', (a ← l !! n; Some (a, l)) = Some (v, vals' : list float64)).
  { intros l n Hl Hn. destruct (lookup_lt_value l n) as [x ->]; [lia|]. eauto. }
  pose proof (Nat.div_mod_eq (length vals) 2). unfold ACCUMULATE_FUNC.
  assert (agg = 1 \/ agg = 2 \/ agg = 3 \/ agg = 4 \/ agg = 5 \/ agg = 6 \/ agg = 7 \/ agg = 8 \/ agg = 9) as Hin
    by (unfold known_agg in Hagg; lia).
  destruct (length vals =? 0)%nat eqn:E0'; [|pose proof (proj1 (Nat.eqb_neq _ _) E0') as E0];
    destruct_or!; subst agg; cbn -[Nat.div Nat.modulo Nat.ltb]; rewrite ?E0'; eauto; try (apply Hat; [done|lia]).
  destruct (_ && _)%nat eqn:E; [apply andb_true_iff in E as [_ E%Nat.ltb_lt]|apply Hat; [done|]].
  - destruct (lookup_lt_value (sort_Sort agg_Less vals) (length vals / 2 - 1)) as [x Hx]; [lia|].
    destruct (lookup_lt_value (sort_Sort agg_Less vals) (length vals / 2 + 1)) as [y Hy]; [lia|].
    rewrite Hx, Hy. cbn. eauto.
  - apply Nat.div_lt; lia.
Qed.

Section reenter.
Context (now : Z) (tags : option SortingTags) (ops : StatsdOptions).

(** The name an item is printed under, and what makes its line one the
    splitter accepts: clean words, not only meta tags, and a time near the
    clock. *)
Definition out_name (b : BaseStatItem) : StatName := name_MergeMetric2Tags (b_InKey b) tags.

Record printable (b : BaseStatItem) : Prop := {
  pr_agg : known_agg (b_ReduceFunc b);
  pr_key : clean_word (Key (out_name b));
  pr_tags : Forall (fun t => clean_word (eq_text t)) (Tags (out_name b) ++ MetaTags (out_name b));
  pr_meta : Tags (out_name b) <> [] \/ MetaTags (out_name b) = [];
  pr_time : 0 < Unix (b_Time b) < 2 ^ 31;
  pr_near : Z.abs (Unix (b_Time b) - Unix now) <= MinTimeDelta
}.

(** The item a printed metric comes back as. *)
Definition comes_back (b : BaseStatItem) (spl : SplitItem) : Prop :=
  inkey spl = Key (out_name b) /\ Timestamp spl = Unix (b_Time b) * 10 ^ 9 /\
  exists val vals, ACCUMULATE_FUNC math_Pow (b_ReduceFunc b) (b_Values b) = Some (val, vals) /\
    Fields (inline spl) = graphite_words (out_name b) val (Unix (b_Time b)).

Lemma words_line (ws : list string) :
  Forall clean_word ws -> no_char newline (GoStrings.Join ws (sep1 space)) = true.
Proof.
  assert (Hnl : forall w, clean_word w -> no_char newline w = true) by (intros w [Hw _]; by apply word_no_char).
  induction 1 as [|w ws Hw Hws IH]; [done|]. destruct ws as [|w' ws]; [by apply Hnl|].
  rewrite Join_cons by done. rewrite !no_char_app, Hnl by done. exact IH.
Qed.

Lemma base_Write_line (b : BaseStatItem) :
  printable b ->
  exists val line b', base_Write math_Pow GraphiteFormatter now tags "c" b = Some (line +:+ sep1 newline, b') /\
    no_char newline line = true /\
    line +:+ sep1 newline = (GraphiteFormatter_Write now (b_InKey b) val (Unix (b_Time b)) "c" tags).1 /\
    exists vals, ACCUMULATE_FUNC math_Pow (b_ReduceFunc b) (b_Values b) = Some (val, vals).
Proof.
  intros [Hagg Hk Ht Hm Hti _]. unfold base_Write. destruct (ACCUMULATE_FUNC_total _ (b_Values b) Hagg) as (v & vals & E).
  rewrite E. cbn [mbind option_bind fmt_Write]. rewrite (swrap_id 32) by lia. rewrite graphite_line by done.
  exists v. eexists _, _. split; [done|]. split; [by apply words_line, graphite_words_clean|]. split; [by rewrite graphite_line|eauto].
Qed.

Lemma flush_graphite_items (items : list (string * StatItem)) :
  Forall (fun kv => exists b, kv.2 = GraphiteItem b /\ printable b) items ->
  exists text fl items', flush_items math_Pow GraphiteFormatter now tags ops items = Some (text, fl, items') /\
    forall pool, exists spls,
      split_lines (TheGraphite (NewGraphiteSplitter ∅)) pool now (text_lines text) = Some spls /\
      Forall2 (fun kv spl => exists b, kv.2 = GraphiteItem b /\ comes_back b spl) items spls.
Proof.
  induction 1 as [|[k i] items (b & Hi & Hb) Hitems IH].
  { exists ""%string, [], []. split; [done|]. intros pool. by exists []. }
  cbn [snd] in Hi. subst i. destruct IH as (text & fl & items' & Ef & IH).
  destruct (base_Write_line b Hb) as (val & line & b' & Ew & Hnl & Hline & vals & Hv).
  cbn [flush_items item_Write]. rewrite Ew. cbn [mbind option_bind]. rewrite Ef. cbn [mbind option_bind].
  eexists _, _, _. split; [done|]. intros pool. rewrite <- string_app_assoc, text_lines_line by done.
  destruct (IH (tail pool)) as (spls & Es & Hs). destruct Hb as [Hagg Hk Ht Hm Hti Hnear].
  destruct (graphite_line_split now now (b_InKey b) val (Unix (b_Time b)) "c" tags (default None (head pool)) Hk Ht Hm Hti Hnear)
    as (spl & Hspl & Hkey & Hts & Hf).
  exists (spl :: spls). split.
  - cbn [split_lines ProcessLine]. rewrite Hline, Hspl. cbn [mbind option_bind]. by rewrite Es.
  - constructor; [|done]. exists b. split; [done|]. split_and!; [done|done|]. by exists val, vals.
Qed.

End reenter.

(** C15: A Graphite accumulator with the Graphite formatter, the Graphite
    splitter without options and a backend that is not the black hole, all
    of whose items are printable -- an aggregation of the nine, key and tags
    whose words are clean, meta tags only beside tags, a second between 0
    and 2^31 that is near the clock: the flush returns, and the items posted
    are, in order, one per metric, with its key and its second, its words
    being the reduced value and the tags; each carries the marks. *)
Theorem graphite_flush_reenters (a : Accumulator) (g : BinAccumulate) (pool : list (option SplitItem)) (now attime : Z) :
  Accumulate a = GraphiteAcc g -> Formatter a = GraphiteFormatter ->
  OutSplitter a = TheGraphite (NewGraphiteSplitter ∅) -> ToBackend a <> BLACK_HOLE_BACKEND ->
  map_Forall (fun _ i => exists b, i = GraphiteItem b /\ printable now (bin_InTags g) b) (bin_Stats g) ->
  exists p a', FlushAndPost a pool now attime = Some (p, a') /\
    Forall2 (fun kv spl => marked a spl /\ exists b, kv.2 = GraphiteItem b /\ comes_back (bin_InTags g) b spl)
      (map_to_list (bin_Stats g)) (po_items p).
Proof.
  intros Hacc Hfmt Hspl Hto Hm. unfold Accumulator.FlushAndPost. rewrite bool_decide_false by done.
  unfold acc_Flush, flush. rewrite Hacc, Hfmt. cbn [acc_keep acc_Tags acc_options acc_Stats].
  destruct (flush_graphite_items now (bin_InTags g) default_options (map_to_list (bin_Stats g)))
    as (text & fl & items' & -> & Hback).
  { apply Forall_forall. intros [k i] Hki%elem_of_map_to_list. exact (Hm k i Hki). }
  cbn [mbind option_bind]. rewrite read_loop_lines by lia. rewrite Hspl.
  destruct (Hback pool) as (spls & -> & Hs). cbn [fmap option_fmap option_map mbind option_bind app].
  eexists _, _. split; [done|]. cbn [po_items]. apply Forall2_fmap_r. eapply Forall2_impl; [exact Hs|].
  intros kv spl Hkv. split; [done|]. exact Hkv.
Qed.

End posts.

(** ** Construction *)

Lemma NewAccumlator_cases {Regexp : Type} (inputtype outputtype name : string) (keepkeys : bool) :
  let ok := inputtype ∈ ["graphite"; "statsd"; "json"; "carbon2"]%string /\
            outputtype ∈ ["graphite"; "statsd"; "carbon2"]%string in
  match NewAccumlator (Regexp := Regexp) inputtype outputtype keepkeys name with
  | Some (inl a) =>
      ok /\ Splitter_Name (InSplitter a) = inputtype /\ Splitter_Name (OutSplitter a) = outputtype /\
      acc_Stats (Accumulate a) = ∅ /\ acc_keep (Accumulate a) = keepkeys /\ ac_Name a = name /\ shutitdown a = false
  | Some (inr _) => ~ ok
  | None => False
  end.
Proof.
  intros ok. unfold NewAccumlator, NewFormatterItem, NewAccumulatorItem, NewSplitterItem, ok.
  repeat (case_bool_decide; subst; try done; cbn [orb mbind option_bind]); try (intros [? ?]; set_solver);
    split_and!; (done || set_solver).
Qed.

(** [NewAccumlator] never panics; it makes an accumulator exactly for
    the input formats graphite, statsd, json and carbon2 and the output
    formats graphite, statsd and carbon2, and then the splitters are those
    of the formats and nothing has been collected.  The name carbontwo,
    which the registries of accumulators and formatters know, is refused
    by that of the splitters. *)
Theorem NewAccumlator_spec {Regexp : Type} (inputtype outputtype name : string) (keepkeys : bool) :
  let ok := inputtype ∈ ["graphite"; "statsd"; "json"; "carbon2"]%string /\
            outputtype ∈ ["graphite"; "statsd"; "carbon2"]%string in
  match NewAccumlator (Regexp := Regexp) inputtype outputtype keepkeys name with
  | Some (inl a) =>
      ok /\ Splitter_Name (InSplitter a) = inputtype /\ Splitter_Name (OutSplitter a) = outputtype /\
      acc_Stats (Accumulate a) = ∅ /\ acc_keep (Accumulate a) = keepkeys /\ ac_Name a = name /\ shutitdown a = false
  | Some (inr _) => ~ ok
  | None => False
  end.
Proof. apply NewAccumlator_cases. Qed.

(** ** Witnesses *)

#[local] Existing Instance insertion_GoSort.

Definition no_regexp (_ : unit) (_ : string) : option (list (list string)) := None.
Definition no_time (_ _ : string) : option Z := None.
Definition no_json (_ : string) : JsonStruct + goerror := inr (GoError "").
Definition no_marshal (_ : JsonStruct) : string + goerror := inr (GoError "").

(** Two metrics collected by a Graphite accumulator. *)
Definition held_item (key : string) (vals : list float64) : StatItem :=
  GraphiteItem (foldl base_Accumulate (fresh_base (mkName key 0 "" 0 0 TAG_METRICS2 HASH_FNV [mkTag "unit" "jiff"] []) "graphite" SUM
                                        (1500000000 * 10 ^ 9)) vals).

Definition held_acc : BinAccumulate :=
  mkBin (<["a" := held_item "web.hits" (float_of_Z <$> [1; 2])]> (<["b" := held_item "web.load" [float_of_Z 7]]> ∅))%string
        None false (10 * 10 ^ 9) TAG_METRICS2 HASH_FNV.

Definition held : Accumulator (Regexp := unit) :=
  mkAcc "graphite-out" "graphite-in" "acc" false (10 * 10 ^ 9) [10 * 10 ^ 9] [] TAG_METRICS2 HASH_FNV false
        (GraphiteAcc held_acc) GraphiteFormatter (TheGraphite (NewGraphiteSplitter ∅)) (TheGraphite (NewGraphiteSplitter ∅))
        [] false true true.

Definition held_flush : option (posted * Accumulator) :=
  FlushAndPost no_regexp no_time no_json no_marshal fmul held [] (1500000050 * 10 ^ 9) (1500000050 * 10 ^ 9).

Lemma flush_and_post_safe_witness :
  exists p a', held_flush = Some (p, a') /\ length (po_items p) = 2%nat /\ Forall (marked held) (po_items p) /\
    po_sent p = po_items p /\ length (po_stats p) = 2%nat.
Proof.
  assert (Hl : length ∘ po_items ∘ fst <$> held_flush = Some 2%nat) by (vm_compute; reflexivity).
  destruct held_flush as [[p a']|] eqn:E; [|done]. unfold held_flush in E.
  destruct (flush_and_post_safe no_regexp no_time no_json no_marshal fmul held [] (1500000050 * 10 ^ 9)
    (1500000050 * 10 ^ 9) p a' E) as (Hm & Hs & _ & Hn & _); [by vm_compute|].
  exists p, a'. split; [done|]. split_and!; [by injection Hl|exact Hm|exact Hs|exact Hn].
Defined.

Lemma graphite_flush_reenters_witness :
  exists p a', held_flush = Some (p, a') /\
    Forall2 (fun kv spl => marked held spl /\ exists b, kv.2 = GraphiteItem b /\ comes_back fmul None b spl)
      (map_to_list (bin_Stats held_acc)) (po_items p).
Proof.
  apply (graphite_flush_reenters no_regexp no_time no_json no_marshal fmul held held_acc []); try reflexivity.
  - by vm_compute.
  - assert (Hp : forall key vals, key ∈ ["web.hits"; "web.load"]%string ->
      exists b, held_item key vals = GraphiteItem b /\ printable (1500000050 * 10 ^ 9) None b).
    { intros key vals Hkey. eexists. split; [done|].
      assert (Hb : forall b, b_InKey (foldl base_Accumulate b vals) = b_InKey b /\
        b_ReduceFunc (foldl base_Accumulate b vals) = b_ReduceFunc b /\ b_Time (foldl base_Accumulate b vals) = b_Time b).
      { induction vals as [|v vals IH]; intros b; [done|]. cbn [foldl]. rewrite !(proj1 (IH _)).
        destruct (IH (base_Accumulate b v)) as (_ & -> & ->). unfold base_Accumulate. by case_if. }
      destruct (Hb (fresh_base (mkName key 0 "" 0 0 TAG_METRICS2 HASH_FNV [mkTag "unit" "jiff"] []) "graphite" SUM
                     (1500000000 * 10 ^ 9))) as (Hk & Hr & Ht).
      split; unfold out_name; rewrite ?Hk, ?Hr, ?Ht; cbn [name_MergeMetric2Tags b_InKey fresh_base Key Tags MetaTags b_ReduceFunc b_Time].
      - by vm_compute.
      - repeat (apply elem_of_cons in Hkey as [->|Hkey]; [word_check|]). by apply elem_of_nil in Hkey.
      - word_check.
      - by left.
      - by vm_compute.
      - by vm_compute. }
    cbn [held_acc bin_Stats]. apply map_Forall_insert_2; [apply Hp; set_solver|].
    apply map_Forall_insert_2; [apply Hp; set_solver|apply map_Forall_empty].
Defined.
