(* ===== verification/AccConfig.v ===== *)
(** [accumulator/config.go]: the configuration of an accumulator, and the
    durations of [parsetime].

    The configuration of the writers and readers is used through what
    setting them up answers; [time.Duration] is an int64 of
    nanoseconds.

    The configuration of the accumulators: the flush times that are
    accepted nest in each other, and what a configuration gives. *)
From Stdlib Require Import SpecFloat.
From S2P Require Import Prelude Bits Float64 GoStrings GoParse GoFormat GoSort LRU LRUTheorems Tags Repr Aggs.
From S2P Require Import Aggregator Splitter Formatter StatItem Accumulate Accumulator AccumulatorTheorems.

Open Scope Z_scope.

Definition HasSuffix (s suf : string) : bool :=
  (String.length suf <=? String.length s)%nat &&
  bool_decide (String.substring (String.length s - String.length suf) (String.length suf) s = suf).

Definition errDuration : goerror := GoError "Duration could not be parsed".

(** [parsetime.ParseDuration]: the number in front of the first letter of
    the unit; the product wraps. *)
Definition ParseDuration (st : string) : Z + goerror :=
  let st := TrimSpace (ToLower st) in
  let number (unit : string) (secs : Z) : Z + goerror :=
    match ParseInt (default ""%string (head (Split st unit))) with
    | Some i => inl (i64 (10 ^ 9 * i * secs))
    | None => inr errDuration
    end in
  if bool_decide (st = "now"%string) || bool_decide (st = "today"%string) then inl 0
  else if HasSuffix st "s" || HasSuffix st "sec" || HasSuffix st "second" then number "s"%string 1
  else if HasSuffix st "m" || HasSuffix st "min" then number "m"%string 60
  else if HasSuffix st "h" || HasSuffix st "hour" then number "h"%string (60 * 60)
  else if HasSuffix st "d" || HasSuffix st "day" then number "d"%string (60 * 60 * 24)
  else if HasSuffix st "mon" || HasSuffix st "month" then number "m"%string (60 * 60 * 24 * 30)
  else if HasSuffix st "y" || HasSuffix st "year" then number "y"%string (60 * 60 * 24 * 365)
  else inr errDuration.

(** A finite float64 in units of its least step, 2^-1074. *)
Definition scaled (f : float64) : Z :=
  let m := frac_field f + (if exp_field f =? 0 then 0 else 2 ^ 52) in
  let v := m * 2 ^ (Z.max 1 (exp_field f) - 1) in
  if signbit f then - v else v.

(** The float64 of a number of steps that has at most 53 significant
    bits. *)
Definition of_scaled (neg : bool) (v : Z) : float64 :=
  let a := Z.abs v in
  with_sign neg
    (if a <? 2 ^ 52 then a
     else let e := Z.log2 a - 51 in e * 2 ^ 52 + (a / 2 ^ (e - 1) - 2 ^ 52)).

(** [math.Mod]: exact, with the sign of the first argument. *)
Definition math_Mod (x y : float64) : float64 :=
  if feq y 0 || IsInf x || IsNaN x || IsNaN y then NaN
  else if IsInf y then x
  else of_scaled (signbit x) (Z.rem (scaled x) (scaled y)).

(** Ten years. *)
Definition DEFAULT_TTL : Z := 60 * 60 * 24 * 365 * 10 * 10 ^ 9.

(** The drivers of the writers and the addresses of the readers are empty
    when there are none. *)
Record ConfigAccumulator := mkConfAcc {
  cf_Name : string;
  cf_ToBackend : string;
  InputFormat : string;
  OutputFormat : string;
  cf_KeepKeys : bool;
  cf_Option : list (list string);
  cf_Tags : string;
  MetricsDriver : string;
  IndexerDriver : string;
  SubMetricsDriver : string;
  SubIndexerDriver : string;
  ReaderListen : string;
  TCPReaderListen : string;
  Times : list string;
  AccTimer : string;
  cf_TagMode : string;
  cf_HashMode : string;
  cf_ByPass : bool;
  accumulateTime : Z;
  durations : list Z;
  ttls : list Z
}.

Definition with_durations (cf : ConfigAccumulator) (acct : Z) (durs tls : list Z) : ConfigAccumulator :=
  mkConfAcc (cf_Name cf) (cf_ToBackend cf) (InputFormat cf) (OutputFormat cf) (cf_KeepKeys cf) (cf_Option cf) (cf_Tags cf)
            (MetricsDriver cf) (IndexerDriver cf) (SubMetricsDriver cf) (SubIndexerDriver cf) (ReaderListen cf)
            (TCPReaderListen cf) (Times cf) (AccTimer cf) (cf_TagMode cf) (cf_HashMode cf) (cf_ByPass cf) acct durs tls.

Definition errTimesForm : goerror := GoError "Times can be `duration` or `duration:TTL` only".
Definition errTimesOrder : goerror := GoError "Times need to be in smallest to longest order".
Definition errTimesMultiples : goerror := GoError "Times need to be in multiples of themselves".

(** The loop over the times: the durations and times to live collected so
    far, and the error that stopped it. *)
Fixpoint times_loop (last_keeper : Z) (durs tls : list Z) (times : list string) : list Z * list Z * option goerror :=
  match times with
  | [] => (durs, tls, None)
  | st :: times =>
      let spl := Split st ":" in
      let dd := default ""%string (head spl) in
      let r := match spl with
               | [_; ttl] => match ParseDuration ttl with inl t => inl (tls ++ [t]) | inr err => inr err end
               | _ :: _ :: _ => inr errTimesForm
               | _ => inl (tls ++ [DEFAULT_TTL])
               end in
      match r with
      | inr err => (durs, tls, Some err)
      | inl tls =>
          match ParseDuration dd with
          | inr err => (durs, tls, Some err)
          | inl t_dur =>
              if fgt (Seconds last_keeper) 0 && flt (Seconds t_dur) (Seconds last_keeper)
              then (durs, tls, Some errTimesOrder)
              else if fgt (Seconds last_keeper) 0 && negb (feq (math_Mod (Seconds t_dur) (Seconds last_keeper)) 0)
              then (durs, tls, Some errTimesMultiples)
              else times_loop t_dur (durs ++ [t_dur]) tls times
          end
      end
  end.

Definition errNoTimes : goerror := GoError "Accumulator: No Times/Durations given, cannot proceed".

Definition ParseDurations (cf : ConfigAccumulator) : ConfigAccumulator * option goerror :=
  let '(durs, tls, err) :=
    match Times cf with
    | [] => ([5 * 10 ^ 9], [DEFAULT_TTL], None)
    | times => times_loop 0 [] [] times
    end in
  match err with
  | Some err => (with_durations cf (accumulateTime cf) durs tls, Some err)
  | None =>
      match durs with
      | [] => (with_durations cf (accumulateTime cf) durs tls, Some errNoTimes)
      | d :: _ =>
          if (0 <? String.length (AccTimer cf))%nat then
            match ParseDuration (AccTimer cf) with
            | inl dur => (with_durations cf dur durs tls, None)
            | inr err => (with_durations cf d durs tls, Some err)
            end
          else (with_durations cf d durs tls, None)
      end
  end.

Section config.
Context {Regexp : Type}.

(** What setting up the writers ("main" or "sub"), the HTTP reader and the
    TCP reader answers: an error or none, or [None] for a panic, as that of
    an option of a writer that has the wrong type. *)
Variable SetWriter : string -> option (option goerror).
Variable SetReader SetTCPReader : option (option goerror).

Definition acc_SetOptions (ops : list (list string)) (i : AccumulatorItem) : AccumulatorItem * option goerror :=
  match i with
  | StatsdAcc a => let '(a, err) := SetOptions a ops in (StatsdAcc a, err)
  | i => (i, None)
  end.

Definition errBlankFormat : goerror := GoError "Accumulator: Invalid input or output format (blank)".
Definition errNeedBackend : goerror := GoError "Need a `backend` for post delegation".
Definition errNeedIndexer : goerror := GoError "You need an Indexer config set for a Metric writer".
Definition errNeedSubIndexer : goerror := GoError "You need an Indexer config set for a Sub Metric writer".
Definition errNeedMain : goerror := GoError "To have 'sub' writers, you first need a main writer.".

Definition nonempty (s : string) : bool := negb (bool_decide (s = ""%string)).

(** The writers and readers: whether there are aggregators, or the
    error. *)
Definition set_writers (cf : ConfigAccumulator) : option (bool + goerror) :=
  main ← (if nonempty (MetricsDriver cf) then
            if negb (nonempty (IndexerDriver cf)) then Some (inr errNeedIndexer)
            else err ← SetWriter "main"; Some match err with Some err => inr err | None => inl true end
          else Some (inl false));
  match main with
  | inr err => Some (inr err)
  | inl aggs =>
      sub ← (if nonempty (SubMetricsDriver cf) then
               if negb (nonempty (SubIndexerDriver cf)) then Some (Some errNeedSubIndexer)
               else if negb aggs then Some (Some errNeedMain) else SetWriter "sub"
             else Some None);
      match sub with
      | Some err => Some (inr err)
      | None =>
          rd ← (if nonempty (ReaderListen cf) && aggs then SetReader else Some None);
          match rd with
          | Some err => Some (inr err)
          | None =>
              tcp ← (if nonempty (TCPReaderListen cf) && aggs then SetTCPReader else Some None);
              Some match tcp with Some err => inr err | None => inl aggs end
          end
      end
  end.

Definition tag_mode (s : string) : TagMode := if bool_decide (s = "all"%string) then TAG_ALLTAGS else TAG_METRICS2.
Definition hash_mode (s : string) : HashMode := if bool_decide (s = "farm"%string) then HASH_FARM else HASH_FNV.

Definition GetAccumulator (cf : ConfigAccumulator)
    : option ((Accumulator (Regexp := Regexp) + goerror) * ConfigAccumulator) :=
  if negb (nonempty (InputFormat cf)) || negb (nonempty (OutputFormat cf)) then Some (inr errBlankFormat, cf)
  else
    r ← NewAccumlator (InputFormat cf) (OutputFormat cf) (cf_KeepKeys cf) (cf_Name cf);
    match r with
    | inr err => Some (inr err, cf)
    | inl ac =>
        let '(cf, err) := if (length (durations cf) =? 0)%nat then ParseDurations cf else (cf, None) in
        match err with
        | Some err => Some (inr err, cf)
        | None =>
            let i := acc_SetHashMode (hash_mode (cf_HashMode cf)) (acc_SetTagMode (tag_mode (cf_TagMode cf)) (Accumulate ac)) in
            if negb (nonempty (cf_ToBackend cf)) then Some (inr errNeedBackend, cf)
            else
              let i := if nonempty (cf_Tags cf) then acc_SetTags (Some (SortingTagsFromString (cf_Tags cf))) i else i in
              let '(i, err) := acc_SetOptions (cf_Option cf) i in
              match err with
              | Some err => Some (inr err, cf)
              | None =>
                  w ← set_writers cf;
                  match w with
                  | inr err => Some (inr err, cf)
                  | inl aggs =>
                      Some (inl (mkAcc (cf_ToBackend cf) (FromBackend ac) (ac_Name ac) (KeepKeys ac) (accumulateTime cf)
                                       (durations cf) (ttls cf) (tag_mode (cf_TagMode cf)) (hash_mode (cf_HashMode cf))
                                       (cf_ByPass cf) i (Formatter ac) (InSplitter ac) (OutSplitter ac) (LineQueue ac)
                                       (shutitdown ac) (has_output ac) aggs), cf)
                  end
              end
        end
    end.

End config.

(** ** Theorems *)

(** ** Whole seconds as float64 *)

Lemma float_of_Z_pattern (n : Z) :
  0 < n < 2 ^ 53 ->
  let f := float_of_Z n in
  f = exp_field f * 2 ^ 52 + frac_field f /\ signbit f = false /\ 1023 <= exp_field f <= 1075 /\
  (frac_field f + 2 ^ 52) * 2 ^ (exp_field f - 1023) = n * 2 ^ 52 /\ 0 <= frac_field f < 2 ^ 52.
Proof.
  intros Hn f. destruct (float_of_Z_fields n Hn) as (He & Hf & Hs). fold f in He, Hf, Hs. cbn zeta in He, Hf.
  assert (Hl : 0 <= Z.log2 n <= 52).
  { split; [apply Z.log2_nonneg|]. enough (Z.log2 n < 53) by lia. apply Z.log2_lt_pow2; lia. }
  rewrite He. split_and!; [|done|lia|lia| |unfold frac_field; apply Z.mod_pos_bound; lia..].
  - rewrite Hf. unfold f, float_of_Z. if_false. rewrite (Z.abs_eq n) by lia.
    replace (Z.log2 n <=? 52) with true by (symmetry; bool_lia).
    replace (n <? 0) with false by (symmetry; bool_lia). lia.
  - rewrite Hf. replace (Z.log2 n + 1023 - 1023) with (Z.log2 n) by lia.
    replace (n * 2 ^ (52 - Z.log2 n) - 2 ^ 52 + 2 ^ 52) with (n * 2 ^ (52 - Z.log2 n)) by lia.
    rewrite <- Z.mul_assoc, <- Z.pow_add_r by lia. f_equal. f_equal. lia.
Qed.

Lemma encode_decode_int (n : Z) : 0 < n < 2 ^ 53 -> encode (decode (float_of_Z n)) = float_of_Z n.
Proof.
  intros Hn. destruct (float_of_Z_pattern n Hn) as (Hp & Hs & He & _ & Hfr). unfold decode. rewrite Hs. if_false. if_false.
  destruct (frac_field (float_of_Z n) + 2 ^ 52) as [|p|p] eqn:E; [lia| |lia].
  cbn [encode]. rewrite <- E. if_false. unfold with_sign. rewrite Hp at 3. lia.
Qed.

Lemma Seconds_whole (n : Z) : 0 <= n < 2 ^ 53 -> Seconds (n * 10 ^ 9) = float_of_Z n.
Proof.
  intros Hn. unfold Seconds. rewrite Z.quot_mul, Z.rem_mul by lia.
  change (fdiv (float_of_Z 0) (float_of_Z (10 ^ 9))) with 0.
  destruct (decide (n = 0)) as [->|]; [reflexivity|]. unfold fadd.
  assert (Hd : exists s m e, decode (float_of_Z n) = S754_finite s m e).
  { destruct (float_of_Z_pattern n ltac:(lia)) as (_ & Hs & He & _ & Hfr). unfold decode. if_false. if_false.
    destruct (frac_field (float_of_Z n) + 2 ^ 52) as [|p|p] eqn:E; [lia|eauto|lia]. }
  destruct Hd as (s & m & e & Hd). rewrite Hd. change (decode 0) with (S754_zero false). cbn [SFadd].
  rewrite <- Hd. apply encode_decode_int. lia.
Qed.

Lemma scaled_int (n : Z) : 0 <= n < 2 ^ 53 -> scaled (float_of_Z n) = n * 2 ^ 1074.
Proof.
  intros Hn. destruct (decide (n = 0)) as [->|]; [reflexivity|].
  destruct (float_of_Z_pattern n ltac:(lia)) as (_ & Hs & He & Hv & _). unfold scaled. rewrite Hs. if_false.
  rewrite Z.max_r by lia. apply (Z.mul_cancel_r _ _ (2 ^ 52)); [lia|].
  replace (exp_field (float_of_Z n) - 1) with (exp_field (float_of_Z n) - 1023 + 1022) by lia.
  rewrite Z.pow_add_r by lia. rewrite Z.mul_assoc, Hv. rewrite <- !Z.mul_assoc. f_equal.
Qed.


Lemma int_ordinary (n : Z) :
  0 < n < 2 ^ 53 ->
  IsNaN (float_of_Z n) = false /\ IsInf (float_of_Z n) = false /\ signbit (float_of_Z n) = false /\ 0 < float_of_Z n.
Proof.
  intros Hn. destruct (float_of_Z_pattern n Hn) as (Hp & Hs & He & _ & Hfr).
  assert (H2047 : (exp_field (float_of_Z n) =? 2047) = false) by bool_lia.
  unfold IsNaN, IsInf. rewrite H2047. split_and!; [done..|lia].
Qed.

Lemma int_positive (n : Z) : 0 < n < 2 ^ 53 -> fgt (float_of_Z n) 0 = true.
Proof.
  intros Hn. destruct (int_ordinary n Hn) as (Hnan & _ & Hs & Hp). unfold fgt, flt. rewrite Hnan.
  change (IsNaN 0) with false. cbn [negb andb]. unfold fkey. rewrite Hs. change (signbit 0) with false. bool_lia.
Qed.

Lemma of_scaled_zero (v : Z) : 0 <= v < 2 ^ 1127 -> feq (of_scaled false v) 0 = true -> v = 0.
Proof.
  intros Hv. unfold feq, of_scaled, with_sign. rewrite Z.abs_eq, Z.add_0_l by lia. change (fkey 0) with 0.
  set (x := if v <? 2 ^ 52 then _ else _). assert (Hx : 0 <= x < 2 ^ 63 /\ (x = 0 -> v = 0)).
  { unfold x. case_if; bool_to_prop; [lia|].
    assert (Hl : 52 <= Z.log2 v < 1127).
    { split; [by apply Z.log2_le_pow2; lia|apply Z.log2_lt_pow2; lia]. }
    pose proof (Z.log2_spec v ltac:(lia)) as [Hv1 Hv2].
    replace (Z.log2 v - 51 - 1) with (Z.log2 v - 52) by lia.
    assert (Hq : 2 ^ 52 <= v / 2 ^ (Z.log2 v - 52) < 2 ^ 53).
    { split; [apply Z.div_le_lower_bound|apply Z.div_lt_upper_bound]; try (by apply Z.pow_pos_nonneg; lia);
        rewrite <- Z.pow_add_r by lia.
      - replace (Z.log2 v - 52 + 52) with (Z.log2 v) by lia. lia.
      - replace (Z.log2 v - 52 + 53) with (Z.succ (Z.log2 v)) by lia. lia. }
    split; nia. }
  destruct Hx as [Hx Hz]. intros Heq. bool_to_prop. apply Hz. unfold fkey in *.
  replace (signbit x) with false in * by (symmetry; unfold signbit; bool_lia). lia.
Qed.

(** [math.Mod] on whole seconds is the remainder. *)
Lemma Mod_divides (n m : Z) :
  0 < n < 2 ^ 53 -> 0 < m < 2 ^ 53 -> feq (math_Mod (float_of_Z n) (float_of_Z m)) 0 = true -> (m | n).
Proof.
  intros Hn Hm. destruct (int_ordinary n Hn) as (Hn1 & Hn2 & Hn3 & _), (int_ordinary m Hm) as (Hm1 & Hm2 & Hm3 & Hmp).
  assert (Hz : feq (float_of_Z m) 0 = false).
  { unfold feq. rewrite Hm1. change (IsNaN 0) with false. change (fkey 0) with 0. cbn [negb andb]. unfold fkey. rewrite Hm3. bool_lia. }
  unfold math_Mod. rewrite Hz, Hn1, Hn2, Hm1, Hm2, Hn3. cbn [orb]. rewrite !scaled_int by lia.
  pose proof (Z.pow_pos_nonneg 2 1074 ltac:(lia) ltac:(lia)) as Hpow.
  rewrite Z.mul_rem_distr_r by lia. intros Heq. apply of_scaled_zero in Heq.
  - apply Z.rem_divide; [lia|]. nia.
  - pose proof (Z.rem_bound_pos n m ltac:(lia) ltac:(lia)) as Hb.
    replace (2 ^ 1127) with (2 ^ 53 * 2 ^ 1074) by reflexivity. nia.
Qed.

(** ** The flush times *)

(** A positive number of whole seconds. *)
Definition whole (d : Z) : Prop := 0 < d /\ d mod 10 ^ 9 = 0.

Lemma whole_seconds (d : Z) : whole d -> in_width 63 d -> exists n, d = n * 10 ^ 9 /\ 0 < n < 2 ^ 53.
Proof.
  intros [Hp Hm] Hw. unfold in_width in Hw. exists (d / 10 ^ 9). pose proof (Z.div_mod d (10 ^ 9) ltac:(lia)).
  split; [lia|]. nia.
Qed.

Lemma ParseDuration_range (st : string) (d : Z) : ParseDuration st = inl d -> - 2 ^ 63 <= d < 2 ^ 63.
Proof.
  unfold ParseDuration. intros Hd.
  repeat (case_match; try congruence); simplify_eq; (lia || apply (swrap_range 64); lia).
Qed.

(** Every duration is a multiple of the one before it. *)
Fixpoint chained (last : Z) (durs : list Z) : Prop :=
  match durs with
  | [] => True
  | d :: durs => (last | d) /\ chained d durs
  end.

Lemma times_loop_chain (times : list string) (last : Z) (durs tls durs' tls' : list Z) :
  times_loop last durs tls times = (durs', tls', None) -> length durs = length tls ->
  exists ds, durs' = durs ++ ds /\ length durs' = length tls' /\ length ds = length times /\
    (Forall whole ds -> (last = 0 \/ whole last /\ in_width 63 last) ->
     Forall (in_width 63) ds /\ match ds with [] => True | d :: ds => (last <> 0 -> (last | d)) /\ chained d ds end).
Proof.
  revert last durs tls. induction times as [|st times IH]; intros last durs tls E Hlen; cbn [times_loop] in E.
  { simplify_eq. exists []. by rewrite app_nil_r. }
  destruct (match Split st ":" with [] => _ | _ => _ end) as [tl1|] eqn:Et; [|done].
  assert (Ht : length tl1 = S (length tls)).
  { destruct (Split st ":") as [|? [|? [|? ?]]]; try destruct (ParseDuration _); simplify_eq; rewrite length_app; simpl; lia. }
  destruct (ParseDuration _) as [d|] eqn:Ed; [|done]. destruct (fgt _ _ && flt _ _); [done|].
  destruct (fgt _ _ && negb _) eqn:Em; [done|].
  destruct (IH d (durs ++ [d]) tl1 E) as (ds & -> & Hl & Hn & Hc); [rewrite length_app; simpl; lia|].
  exists (d :: ds). rewrite <- app_assoc. split_and!; [done|by rewrite <- app_assoc in Hl|simpl; lia|].
  intros [Hd Hds]%Forall_cons Hlast. apply ParseDuration_range in Ed.
  assert (Hw : in_width 63 d) by (destruct Hd; unfold in_width; lia).
  destruct (Hc Hds (or_intror (conj Hd Hw))) as [Hr Hch]. split; [by constructor|]. split.
  - intros Hne. destruct Hlast as [|[Hl1 Hl2]]; [done|].
    destruct (whole_seconds last Hl1 Hl2) as (m & -> & Hm), (whole_seconds d Hd Hw) as (n & -> & Hn').
    rewrite !Seconds_whole in Em by lia. rewrite int_positive in Em by lia. cbn [andb] in Em.
    apply negb_false_iff, Mod_divides in Em; [|lia..]. by apply Z.mul_divide_mono_r.
  - destruct ds as [|d' ds]; [done|]. destruct Hch as [Hdv Hch]. split; [|done]. apply Hdv. destruct Hd. lia.
Qed.

Lemma chained_divides (durs : list Z) (last : Z) (j : nat) (d : Z) :
  chained last durs -> durs !! j = Some d -> (last | d).
Proof.
  revert last j. induction durs as [|x durs IH]; intros last j Hch Hj; [done|]. destruct Hch as [Hx Hc].
  destruct j as [|j]; [by injection Hj as <-|]. eapply Z.divide_trans; [exact Hx|]. by eapply IH.
Qed.

Lemma chained_pairs (durs : list Z) (last : Z) (i j : nat) (d e : Z) :
  chained last durs -> (i < j)%nat -> durs !! i = Some d -> durs !! j = Some e -> (d | e).
Proof.
  revert last i j. induction durs as [|x durs IH]; intros last i j Hch Hij Hi Hj; [done|]. destruct Hch as [_ Hc].
  destruct j as [|j]; [lia|]. destruct i as [|i].
  - simplify_eq/=. by eapply chained_divides.
  - eapply (IH x i j); [done|lia|done|done].
Qed.

Lemma Truncate_nest (t d e : Z) : 0 < d -> 0 < e -> (d | e) -> Truncate (Truncate t d) e = Truncate t e.
Proof.
  intros Hd He [k ->]. assert (0 < k) by nia. unfold Truncate. if_false. if_false.
  set (x := t - zero_time). replace (t - x mod d - zero_time) with (x - x mod d) by (unfold x; lia).
  assert (Hm : (x - x mod d) mod (k * d) = x mod (k * d) - x mod d).
  { pose proof (Z.mod_pos_bound x d Hd). pose proof (Z.mod_pos_bound x (k * d) ltac:(nia)).
    assert (Hdm : x mod d = (x mod (k * d)) mod d) by (symmetry; apply Z.mod_mod_divide; by exists k).
    assert (x mod d <= x mod (k * d)) by (rewrite Hdm; apply Z.mod_le; lia).
    symmetry. apply (Z.mod_unique _ _ (x / (k * d))); [lia|].
    pose proof (Z.div_mod x (k * d) ltac:(nia)). lia. }
  rewrite Hm. lia.
Qed.

(** The flush times an accepted configuration yields have one time to
    live each, and, when they are positive whole seconds, every bin of a
    longer time is a union of bins of each shorter one: truncating to a
    shorter time first changes nothing. *)
Theorem flush_times_nest (cf cf' : ConfigAccumulator) :
  ParseDurations cf = (cf', None) ->
  durations cf' <> [] /\ length (ttls cf') = length (durations cf') /\
  (Forall whole (durations cf') -> forall i j d e t,
     (i < j)%nat -> durations cf' !! i = Some d -> durations cf' !! j = Some e ->
     d <= e /\ Truncate (Truncate t d) e = Truncate t e).
Proof.
  unfold ParseDurations. intros Hp.
  destruct (match Times cf with [] => _ | _ => _ end) as [[durs tls] err] eqn:E. destruct err as [err|]; [done|].
  assert (Hgood : length tls = length durs /\ (Forall whole durs -> match durs with [] => True | d :: ds => chained d ds end)).
  { destruct (Times cf) as [|st times].
    - simplify_eq. by split.
    - destruct (times_loop_chain (st :: times) 0 [] [] durs tls E eq_refl) as (ds & -> & Hl & _ & Hc). split; [done|].
      intros Hw. destruct (Hc Hw (or_introl eq_refl)) as [_ Hch]. cbn [app]. destruct ds as [|d ds]; [done|]. apply Hch. }
  destruct Hgood as [Hl Hc]. destruct durs as [|d0 durs]; [done|].
  assert (Hr : durations cf' = d0 :: durs /\ ttls cf' = tls).
  { destruct (0 <? String.length (AccTimer cf))%nat; [destruct (ParseDuration (AccTimer cf))|]; by simplify_eq. }
  destruct Hr as [-> ->]. split_and!; [done|done|]. intros Hw i j d e t Hij Hi Hj. pose proof (Hc Hw) as Hch.
  pose proof (proj1 (Forall_lookup _ _) Hw i d Hi) as [Hd _]. pose proof (proj1 (Forall_lookup _ _) Hw j e Hj) as [He _].
  assert (Hdiv : (d | e)) by (apply (chained_pairs (d0 :: durs) 1 i j d e); [split; [apply Z.divide_1_l|done]|done..]).
  split; [by apply Z.divide_pos_le|]. by apply Truncate_nest.
Qed.

(** The documentation's "1month" ends in the letter of the hours. *)
Example month_refused : ParseDuration "1month" = inr errDuration /\ ParseDuration "1mon" = inl (30 * 86400 * 10 ^ 9).
Proof. split; vm_compute; reflexivity. Qed.

Definition conf_times (times : list string) : ConfigAccumulator :=
  mkConfAcc "n" "BLACKHOLE" "graphite" "graphite" false [] "" "" "" "" "" "" "" times "" "" "" false 0 [] [].

(** A time of zero is accepted, and the next one need not be a multiple. *)
Example zero_time_accepted :
  ParseDurations (conf_times ["0s"; "7s"]%string) =
  (with_durations (conf_times ["0s"; "7s"]%string) 0 [0; 7 * 10 ^ 9] [DEFAULT_TTL; DEFAULT_TTL], None).
Proof. vm_compute. reflexivity. Qed.

Lemma flush_times_nest_witness :
  let ds := durations (ParseDurations (conf_times ["10s"; "1m:7d"; "10m"]%string)).1 in
  ds = [10 * 10 ^ 9; 60 * 10 ^ 9; 600 * 10 ^ 9] /\
  10 * 10 ^ 9 <= 600 * 10 ^ 9 /\ Truncate (Truncate 1234567890123456789 (10 * 10 ^ 9)) (600 * 10 ^ 9) =
                                 Truncate 1234567890123456789 (600 * 10 ^ 9).
Proof.
  intros ds. assert (Hds : ds = [10 * 10 ^ 9; 60 * 10 ^ 9; 600 * 10 ^ 9]) by (vm_compute; reflexivity).
  assert (E : ParseDurations (conf_times ["10s"; "1m:7d"; "10m"]%string) =
    ((ParseDurations (conf_times ["10s"; "1m:7d"; "10m"]%string)).1, None)) by (vm_compute; reflexivity).
  destruct (flush_times_nest _ _ E) as (_ & _ & Hn). fold ds in Hn. rewrite Hds in Hn. split; [exact Hds|].
  apply (Hn ltac:(repeat (apply Forall_cons; split; [split; [lia|reflexivity]|]); constructor) 0%nat 2%nat _ _ _
            ltac:(lia) eq_refl eq_refl).
Defined.

(** ** A configured accumulator *)

Section configured.
Context {Regexp : Type} (SetWriter : string -> option (option goerror)) (SetReader SetTCPReader : option (option goerror)).

Definition item_modes (i : AccumulatorItem) : TagMode * HashMode :=
  match i with
  | GraphiteAcc a | CarbonTwoAcc a | JsonAcc a => (bin_TagMode a, bin_HashMode a)
  | StatsdAcc a => (sd_TagMode a, sd_HashMode a)
  end.

Lemma acc_SetOptions_same (ops : list (list string)) (i : AccumulatorItem) :
  let i' := (acc_SetOptions ops i).1 in
  acc_Stats i' = acc_Stats i /\ acc_keep i' = acc_keep i /\ item_modes i' = item_modes i.
Proof.
  destruct i as [a|a|a|a]; try done. unfold acc_SetOptions, SetOptions. by destruct (set_options default_options ops).
Qed.

Lemma nonempty_true (s : string) : nonempty s = true <-> s <> ""%string.
Proof. unfold nonempty. by rewrite negb_true_iff, bool_decide_eq_false. Qed.

Lemma ParseDurations_lengths (cf cf' : ConfigAccumulator) :
  ParseDurations cf = (cf', None) ->
  durations cf' <> [] /\ length (ttls cf') = length (durations cf') /\
  cf' = with_durations cf (accumulateTime cf') (durations cf') (ttls cf').
Proof.
  unfold ParseDurations. intros Hp.
  destruct (match Times cf with [] => _ | _ => _ end) as [[durs tls] err] eqn:E. destruct err as [err|]; [done|].
  assert (Hl : length tls = length durs).
  { destruct (Times cf) as [|st times]; [by simplify_eq|].
    destruct (times_loop_chain (st :: times) 0 [] [] durs tls E eq_refl) as (ds & -> & Hl & _). done. }
  destruct durs as [|d0 durs]; [done|].
  destruct (0 <? String.length (AccTimer cf))%nat; [destruct (ParseDuration (AccTimer cf))|]; by simplify_eq.
Qed.

(** Something that is set up panics. *)
Definition setup_panics : Prop :=
  SetWriter "main" = None \/ SetWriter "sub" = None \/ SetReader = None \/ SetTCPReader = None.

Lemma set_writers_aggs (cf : ConfigAccumulator) :
  match set_writers SetWriter SetReader SetTCPReader cf with
  | None => setup_panics /\ nonempty (MetricsDriver cf) = true
  | Some (inl aggs) => aggs = nonempty (MetricsDriver cf) /\ (nonempty (SubMetricsDriver cf) = true -> aggs = true)
  | Some (inr _) => True
  end.
Proof.
  unfold set_writers, setup_panics.
  destruct (nonempty (MetricsDriver cf)); [destruct (nonempty (IndexerDriver cf)); [destruct (SetWriter "main") as [[]|] eqn:?|]|]; cbn; try tauto;
    (destruct (nonempty (SubMetricsDriver cf)); [destruct (nonempty (SubIndexerDriver cf)); [destruct (SetWriter "sub") as [[]|] eqn:?|]|]); cbn; try tauto;
    (destruct (nonempty (ReaderListen cf)); [destruct SetReader as [[]|] eqn:?|]); cbn; try tauto;
    (destruct (nonempty (TCPReaderListen cf)); [destruct SetTCPReader as [[]|] eqn:?|]); cbn; try tauto.
Qed.

(** The flush times are still to be parsed, or have been. *)
Definition times_ready (cf : ConfigAccumulator) : Prop := durations cf = [] \/ exists cf0, ParseDurations cf0 = (cf, None).

Lemma times_parsed (cf cf' : ConfigAccumulator) (err : option goerror) :
  times_ready cf -> (if (length (durations cf) =? 0)%nat then ParseDurations cf else (cf, None)) = (cf', err) -> err = None ->
  durations cf' <> [] /\ length (ttls cf') = length (durations cf') /\
  cf' = with_durations cf (accumulateTime cf') (durations cf') (ttls cf').
Proof.
  intros Hr E ->. destruct (length (durations cf) =? 0)%nat eqn:El; [by apply ParseDurations_lengths|]. injection E as <-.
  destruct Hr as [Hd|[cf0 Hp]]; [by rewrite Hd in El|]. destruct (ParseDurations_lengths _ _ Hp) as (Hne & Hlen & _).
  split_and!; [done|done|by destruct cf].
Qed.

(** An accumulator that [GetAccumulator] returns is ready, whether its
    flush times have been parsed before or not: it has a backend, at least
    one flush time and a time to live for each, the tag and hash modes of
    the configuration in its item, nothing collected, and aggregators
    exactly when a writer of metrics is configured; a writer below the main
    one is never configured alone.  It panics only if a writer of metrics is
    configured and the code that sets up a writer or a reader does. *)
Theorem GetAccumulator_ready (cf : ConfigAccumulator) :
  times_ready cf ->
  match GetAccumulator (Regexp := Regexp) SetWriter SetReader SetTCPReader cf with
  | None => setup_panics /\ MetricsDriver cf <> ""%string
  | Some (inl ac, _) =>
      ToBackend ac = cf_ToBackend cf /\ ToBackend ac <> ""%string /\ ac_Name ac = cf_Name cf /\
      FlushTimes ac <> [] /\ length (TTLTimes ac) = length (FlushTimes ac) /\
      item_modes (Accumulate ac) = (tag_mode (cf_TagMode cf), hash_mode (cf_HashMode cf)) /\
      acc_Stats (Accumulate ac) = ∅ /\ acc_keep (Accumulate ac) = cf_KeepKeys cf /\
      (has_aggregators ac = true <-> MetricsDriver cf <> ""%string) /\
      (SubMetricsDriver cf <> ""%string -> MetricsDriver cf <> ""%string)
  | Some (inr _, _) => True
  end.
Proof.
  intros Hd. unfold GetAccumulator. destruct (_ || _); [done|].
  pose proof (NewAccumlator_cases (Regexp := Regexp) (InputFormat cf) (OutputFormat cf) (cf_Name cf) (cf_KeepKeys cf)) as Hnew.
  destruct (NewAccumlator _ _ _ _) as [[ac|err]|]; [|done|done]. cbn [mbind option_bind].
  destruct Hnew as (_ & _ & _ & Hstats & Hkeep & Hname & _).
  destruct (if (length (durations cf) =? 0)%nat then _ else _) as [cf' [err|]] eqn:Ep; [done|].
  destruct (times_parsed _ _ _ Hd Ep eq_refl) as (Hne & Hlen & Hcf). rewrite Hcf. clear Hcf Ep.
  set (cf2 := with_durations cf _ _ _). destruct (negb (nonempty (cf_ToBackend cf2))) eqn:Eb; [done|].
  set (i := if nonempty (cf_Tags cf2) then _ else _).
  assert (Hi : acc_Stats i = ∅ /\ acc_keep i = cf_KeepKeys cf /\
    item_modes i = (tag_mode (cf_TagMode cf), hash_mode (cf_HashMode cf))).
  { subst i. case_if; destruct (Accumulate ac); by split_and!. }
  pose proof (acc_SetOptions_same (cf_Option cf2) i) as (Hs1 & Hs2 & Hs3).
  destruct (acc_SetOptions (cf_Option cf2) i) as [i' [err|]]; [done|]. cbn [fst] in *.
  pose proof (set_writers_aggs cf2) as Ew. destruct (set_writers _ _ _ cf2) as [[aggs|err]|]; cbn [mbind option_bind]; [|done|by rewrite nonempty_true in Ew].
  destruct Ew as [Ha Hsub]. cbn -[has_aggregators]. apply negb_false_iff, nonempty_true in Eb. cbn [has_aggregators].
  rewrite Hs1, Hs2, Hs3. destruct Hi as (-> & -> & ->). cbn in Ha, Hsub. rewrite Ha in Hsub |- *.
  rewrite !nonempty_true in Hsub. rewrite nonempty_true. by split_and!.
Qed.

End configured.

Lemma GetAccumulator_ready_witness :
  match GetAccumulator (Regexp := unit) (fun _ => Some None) (Some None) (Some None) (conf_times ["10s"; "1m:7d"]%string) with
  | Some (inl ac, _) => ToBackend ac = "BLACKHOLE"%string /\ length (TTLTimes ac) = length (FlushTimes ac)
  | _ => False
  end.
Proof.
  pose proof (GetAccumulator_ready (Regexp := unit) (fun _ => Some None) (Some None) (Some None) (conf_times ["10s"; "1m:7d"]%string)
    (or_introl eq_refl)) as Hr.
  assert (Hin : match GetAccumulator (Regexp := unit) (fun _ => Some None) (Some None) (Some None) (conf_times ["10s"; "1m:7d"]%string) with
    | Some (inl _, _) => True | _ => False end) by (vm_compute; exact I).
  destruct (GetAccumulator _ _ _ _) as [[[ac|err] cf']|]; [|destruct Hin|destruct Hin].
  destruct Hr as (Hb & _ & _ & _ & Hl & _). split; [exact Hb|exact Hl].
Defined.
