(* ===== verification/Prereg.v ===== *)
(** [prereg]: the filters that choose the backend of a line.

    The regular expressions of [regexp] are an argument.  [Match] never
    returns an error, so its error is left out.  A map of filter groups is
    visited in the order of [map_to_list].

    The pre-registration filters: the first filter that matches decides,
    and every accepted configuration sends every line to a backend. *)
From S2P Require Import Prelude Bits Float64 GoStrings GoParse GoFormat GoSort LRU LRUTheorems Tags Repr Aggs.
From S2P Require Import Aggregator Splitter Formatter StatItem Accumulate Accumulator AccumulatorTheorems.
From S2P Require Import AccConfig.

Open Scope Z_scope.

Section prereg.
Context {Regexp : Type} (Compile : string -> option Regexp) (re_Match : Regexp -> string -> bool).

(** The filters as [Init] leaves them: the text matched, whether a match
    rejects the line, and the backend. *)
Inductive FilterItem :=
| PrefixFilter (prefix : string) (IsReject : bool) (backend : string)
| SubStringFilter (sub : string) (IsReject : bool) (backend : string)
| RegexFilter (text : string) (IsReject : bool) (backend : string) (thereg : Regexp)
| NoOpFilter (backend : string) (IsReject : bool).

(** Whether the line matches, and whether it is rejected; the last filter
    never rejects. *)
Definition Match (f : FilterItem) (line : string) : bool * bool :=
  match f with
  | PrefixFilter p rej _ => (HasPrefix line p, rej)
  | SubStringFilter s rej _ => (Contains line s, rej)
  | RegexFilter _ rej _ re => (re_Match re line, rej)
  | NoOpFilter _ _ => (true, false)
  end.

Definition Backend (f : FilterItem) : string :=
  match f with
  | PrefixFilter _ _ b | SubStringFilter _ _ b | RegexFilter _ _ b _ | NoOpFilter b _ => b
  end.

Definition Rejecting (f : FilterItem) : bool :=
  match f with
  | PrefixFilter _ r _ | SubStringFilter _ r _ | RegexFilter _ r _ _ => r
  | NoOpFilter _ _ => false
  end.

Definition SetBackend (f : FilterItem) (back : string) : FilterItem :=
  match f with
  | PrefixFilter p r _ => PrefixFilter p r back
  | SubStringFilter s r _ => SubStringFilter s r back
  | RegexFilter t r _ re => RegexFilter t r back re
  | NoOpFilter _ r => NoOpFilter back r
  end.

Record PreReg := mkPreReg {
  DefaultBackEnd : string;
  pr_Name : string;
  ListenServer : string;
  FilterList : list FilterItem;
  pr_Accumulator : option (Accumulator (Regexp := Regexp))
}.

Fixpoint matching (fs : list FilterItem) (line : string) : list FilterItem :=
  match fs with
  | [] => []
  | fil :: fs => if (Match fil line).1 then fil :: matching fs line else matching fs line
  end.

Definition MatchingFilters (pr : PreReg) (line : string) : list FilterItem := matching (FilterList pr) line.

Fixpoint first_match (fs : list FilterItem) (line : string) : option (FilterItem * bool) :=
  match fs with
  | [] => None
  | fil :: fs => let '(matched, reject) := Match fil line in
                 if matched : bool then Some (fil, reject) else first_match fs line
  end.

(** A nil filter is [None]. *)
Definition FirstMatchFilter (pr : PreReg) (line : string) : option FilterItem * bool :=
  match first_match (FilterList pr) line with
  | Some (fil, reject) => (Some fil, reject)
  | None => (None, false)
  end.

Definition FirstMatchBackend (pr : PreReg) (line : string) : string * bool :=
  match first_match (FilterList pr) line with
  | Some (fil, reject) => (Backend fil, reject)
  | None => (DefaultBackEnd pr, false)
  end.

(** ** Groups of filters *)

Abbreviation PreRegMap := (gmap string PreReg).

Definition map_MatchingFilters (lpr : PreRegMap) (line : string) : list FilterItem :=
  concat ((fun kv => MatchingFilters kv.2 line) <$> map_to_list lpr).

Definition map_FirstMatchBackends (lpr : PreRegMap) (line : string) : list string * list bool :=
  let rs := (fun kv => FirstMatchBackend kv.2 line) <$> map_to_list lpr in (rs.*1, rs.*2).

(** ** Configuration *)

Record ConfigFilter := mkConfFilter {
  cf_NoOp : string;
  cf_Prefix : string;
  cf_SubString : string;
  cf_RegEx : string;
  cf_IsReject : bool;
  cf_Backend : string
}.

Record ConfigMap := mkConfMap {
  cm_DefaultBackEnd : string;
  cm_ListenServer : string;
  cm_Accumulator : ConfigAccumulator;
  cm_FilterList : list ConfigFilter
}.

(** One filter; [None] is a panic: two of the texts given, none, or a
    regular expression that does not compile. *)
Definition parse_filter (defaultBackEnd : string) (cmap : ConfigFilter) : option FilterItem :=
  let p := nonempty (cf_Prefix cmap) in
  let s := nonempty (cf_SubString cmap) in
  let r := nonempty (cf_RegEx cmap) in
  if (p && r) || (s && p) || (r && s) || negb (r || s || p || nonempty (cf_NoOp cmap)) then None
  else
    let backend := if nonempty (cf_Backend cmap) then cf_Backend cmap else defaultBackEnd in
    if p then Some (PrefixFilter (cf_Prefix cmap) (cf_IsReject cmap) backend)
    else if s then Some (SubStringFilter (cf_SubString cmap) (cf_IsReject cmap) backend)
    else if r then re ← Compile (cf_RegEx cmap); Some (RegexFilter (cf_RegEx cmap) (cf_IsReject cmap) backend re)
    else Some (NoOpFilter backend (cf_IsReject cmap)).

Definition errNeedDefault (chunk : string) : goerror :=
  GoError ("Need a default_backend for PreReg filters in `" +:+ chunk +:+ "`").
Definition errNeedListen (chunk : string) : goerror := GoError ("Need a listen_server for `" +:+ chunk +:+ "`").

Variable SetWriter : string -> option (option goerror).
Variable SetReader SetTCPReader : option (option goerror).

(** [cfg.ConfigAccumulator.Name = chunk]. *)
Definition named (cf : ConfigAccumulator) (chunk : string) : ConfigAccumulator :=
  mkConfAcc chunk (cf_ToBackend cf) (InputFormat cf) (OutputFormat cf) (cf_KeepKeys cf) (cf_Option cf) (cf_Tags cf)
            (MetricsDriver cf) (IndexerDriver cf) (SubMetricsDriver cf) (SubIndexerDriver cf) (ReaderListen cf)
            (TCPReaderListen cf) (Times cf) (AccTimer cf) (cf_TagMode cf) (cf_HashMode cf) (cf_ByPass cf)
            (accumulateTime cf) (durations cf) (ttls cf).

Definition parse_group (chunk : string) (cfg : ConfigMap) : option (PreReg + goerror) :=
  if negb (nonempty (cm_DefaultBackEnd cfg)) then Some (inr (errNeedDefault chunk))
  else if negb (nonempty (cm_ListenServer cfg)) then Some (inr (errNeedListen chunk))
  else
    acc ← (if nonempty (InputFormat (cm_Accumulator cfg)) then
             '(r, _) ← GetAccumulator SetWriter SetReader SetTCPReader (named (cm_Accumulator cfg) chunk);
             Some match r with inl ac => inl (Some ac) | inr err => inr err end
           else Some (inl None));
    match acc with
    | inr err => Some (inr err)
    | inl ac =>
        fs ← mapM (parse_filter (cm_DefaultBackEnd cfg)) (cm_FilterList cfg);
        Some (inl (mkPreReg (cm_DefaultBackEnd cfg) chunk (cm_ListenServer cfg) fs ac))
    end.

Fixpoint parse_groups (prs : PreRegMap) (l : list (string * ConfigMap)) : option (PreRegMap + goerror) :=
  match l with
  | [] => Some (inl prs)
  | (chunk, cfg) :: l =>
      r ← parse_group chunk cfg;
      match r with
      | inr err => Some (inr err)
      | inl pr => parse_groups (<[chunk := pr]> prs) l
      end
  end.

Definition ParseConfig (l : gmap string ConfigMap) : option (PreRegMap + goerror) := parse_groups ∅ (map_to_list l).

End prereg.

(** ** Theorems *)

Section prereg.
Context {Regexp : Type} (Compile : string -> option Regexp) (re_Match : Regexp -> string -> bool).

Abbreviation FilterItem := (FilterItem (Regexp := Regexp)).
Abbreviation PreReg := (PreReg (Regexp := Regexp)).
Abbreviation Match := (Match re_Match).

Definition matches (f : FilterItem) (line : string) : Prop := (Match f line).1 = true.

#[export] Instance matches_dec (f : FilterItem) (line : string) : Decision (matches f line).
Proof. unfold matches. apply _. Defined.

(** The position of the first filter that matches. *)
Definition first_at (fs : list FilterItem) (line : string) (i : nat) (f : FilterItem) : Prop :=
  fs !! i = Some f /\ matches f line /\ forall j g, (j < i)%nat -> fs !! j = Some g -> ~ matches g line.

Lemma first_match_spec (fs : list FilterItem) (line : string) :
  match first_match re_Match fs line with
  | Some (f, rej) => (exists i, first_at fs line i f) /\ rej = Rejecting f
  | None => Forall (fun f => ~ matches f line) fs
  end.
Proof.
  induction fs as [|f fs IH]; cbn [first_match]; [constructor|]. destruct (Match f line) as [m r] eqn:E. destruct m.
  - split; [|by destruct f; cbn in *; simplify_eq]. exists 0%nat. split_and!; [done|by unfold matches; rewrite E|lia].
  - assert (Hf : ~ matches f line) by (unfold matches; by rewrite E).
    destruct (first_match re_Match fs line) as [[g rej]|]; [|by constructor].
    destruct IH as [(i & Hi & Hm & Hbefore) Hr]. split; [|done]. exists (S i). split_and!; [done|done|].
    intros [|j] h Hj Hh; [by simplify_eq/=|]. apply (Hbefore j); [lia|done].
Qed.

Lemma matching_filter (fs : list FilterItem) (line : string) :
  matching re_Match fs line = filter (fun f => matches f line) fs.
Proof.
  induction fs as [|f fs IH]; cbn [matching]; [done|]. destruct (Match f line).1 eqn:E.
  - rewrite filter_cons_True by done. by rewrite IH.
  - rewrite filter_cons_False by (unfold matches; by rewrite E). done.
Qed.

Lemma head_matching (fs : list FilterItem) (line : string) :
  head (matching re_Match fs line) = fst <$> first_match re_Match fs line.
Proof.
  induction fs as [|f fs IH]; cbn [matching first_match]; [done|].
  destruct (Match f line) as [[] r]; [done|]. exact IH.
Qed.

(** The backend of a line is that of the first filter in the list that
    matches it, which also says whether the line is rejected; a line that
    no filter matches goes to the default backend and is not rejected; and
    [FirstMatchFilter] names the same filter, the first of
    [MatchingFilters]. *)
Theorem first_filter_decides (pr : PreReg) (line : string) :
  let '(backend, reject) := FirstMatchBackend re_Match pr line in
  match FirstMatchFilter re_Match pr line with
  | (Some f, r) =>
      (exists i, first_at (FilterList pr) line i f) /\ backend = Backend f /\ reject = Rejecting f /\ r = reject /\
      head (MatchingFilters re_Match pr line) = Some f
  | (None, r) =>
      Forall (fun f => ~ matches f line) (FilterList pr) /\ backend = DefaultBackEnd pr /\ reject = false /\ r = false /\
      MatchingFilters re_Match pr line = []
  end.
Proof.
  unfold FirstMatchBackend, FirstMatchFilter, MatchingFilters. pose proof (first_match_spec (FilterList pr) line) as Hf.
  pose proof (head_matching (FilterList pr) line) as Hh.
  destruct (first_match re_Match (FilterList pr) line) as [[f rej]|]; cbn [fmap option_fmap option_map fst] in Hh.
  - destruct Hf as [Hi Hr]. by split_and!.
  - split_and!; try done. by destruct (matching re_Match (FilterList pr) line).
Qed.

(** ** Configurations *)

(** What a configured filter stands for. *)
Definition conf_matches (cmap : ConfigFilter) (line : string) : Prop :=
  if nonempty (cf_Prefix cmap) then HasPrefix line (cf_Prefix cmap) = true
  else if nonempty (cf_SubString cmap) then Contains line (cf_SubString cmap) = true
  else if nonempty (cf_RegEx cmap) then exists re, Compile (cf_RegEx cmap) = Some re /\ re_Match re line = true
  else True.

Lemma parse_filter_spec (def : string) (cmap : ConfigFilter) (f : FilterItem) :
  parse_filter Compile def cmap = Some f -> def <> ""%string ->
  Backend f = (if nonempty (cf_Backend cmap) then cf_Backend cmap else def) /\ Backend f <> ""%string /\
  (forall line, matches f line <-> conf_matches cmap line) /\
  (Rejecting f = true -> cf_IsReject cmap = true).
Proof.
  intros Hp Hd. assert (Hb : (if nonempty (cf_Backend cmap) then cf_Backend cmap else def) <> ""%string).
  { destruct (nonempty (cf_Backend cmap)) eqn:E; [by apply nonempty_true|done]. }
  unfold parse_filter in Hp. destruct (_ || negb _); [done|]. unfold conf_matches.
  destruct (nonempty (cf_Prefix cmap)); [simplify_eq; by split_and!|].
  destruct (nonempty (cf_SubString cmap)); [simplify_eq; by split_and!|].
  destruct (nonempty (cf_RegEx cmap)); [|simplify_eq; by split_and!].
  destruct (Compile (cf_RegEx cmap)) as [re|]; cbn [mbind option_bind] in Hp; [|done]. simplify_eq.
  split_and!; try done. intros line. split; [by exists re|]. by intros (re' & [= <-] & Hm).
Qed.

Variable SetWriter : string -> option (option goerror).
Variable SetReader SetTCPReader : option (option goerror).

(** The group a part of the configuration gives. *)
Definition group_ok (chunk : string) (cfg : ConfigMap) (pr : PreReg) : Prop :=
  pr_Name pr = chunk /\ DefaultBackEnd pr = cm_DefaultBackEnd cfg /\ DefaultBackEnd pr <> ""%string /\
  ListenServer pr = cm_ListenServer cfg /\ ListenServer pr <> ""%string /\
  (is_Some (pr_Accumulator pr) <-> InputFormat (cm_Accumulator cfg) <> ""%string) /\
  Forall2 (fun cmap f => Backend f <> ""%string /\ forall line, matches f line <-> conf_matches cmap line)
    (cm_FilterList cfg) (FilterList pr).

Lemma parse_group_ok (chunk : string) (cfg : ConfigMap) (pr : PreReg) :
  parse_group Compile SetWriter SetReader SetTCPReader chunk cfg = Some (inl pr) -> group_ok chunk cfg pr.
Proof.
  unfold parse_group. destruct (nonempty (cm_DefaultBackEnd cfg)) eqn:Ed; [|done].
  destruct (nonempty (cm_ListenServer cfg)) eqn:El; [|done]. cbn [negb]. apply nonempty_true in Ed, El.
  set (acc := if nonempty (InputFormat _) then _ else _). intros Hp.
  assert (Ha : forall ac, acc = Some (inl ac) -> is_Some ac <-> InputFormat (cm_Accumulator cfg) <> ""%string).
  { unfold acc. intros ac. rewrite <- nonempty_true. destruct (nonempty (InputFormat (cm_Accumulator cfg))).
    - destruct (GetAccumulator _ _ _ _) as [[[a|e] ?]|]; cbn; intros; simplify_eq; by split.
    - intros [= <-]. by rewrite is_Some_alt. }
  destruct acc as [[ac|err]|]; cbn [mbind option_bind] in Hp; [|done|done]. specialize (Ha ac eq_refl).
  destruct (mapM _ (cm_FilterList cfg)) as [fs|] eqn:Em; cbn [mbind option_bind] in Hp; [|done]. simplify_eq.
  unfold group_ok. cbn [pr_Name DefaultBackEnd ListenServer FilterList pr_Accumulator]. split_and!; try done.
  apply mapM_Some in Em. eapply Forall2_impl; [exact Em|]. intros cmap f Hf.
  destruct (parse_filter_spec _ _ _ Hf Ed) as (_ & Hb & Hm & _). by split.
Qed.

Lemma parse_groups_ok (l : list (string * ConfigMap)) (prs prs' : gmap string PreReg) :
  parse_groups Compile SetWriter SetReader SetTCPReader prs l = Some (inl prs') -> NoDup l.*1 ->
  forall k, match (list_to_map l : gmap string ConfigMap) !! k with
            | Some cfg => exists pr, prs' !! k = Some pr /\ group_ok k cfg pr
            | None => prs' !! k = prs !! k
            end.
Proof.
  revert prs. induction l as [|[chunk cfg] l IH]; intros prs Hp Hnd k; cbn [parse_groups] in Hp.
  { by simplify_eq. }
  destruct (parse_group _ _ _ _ chunk cfg) as [[pr|err]|] eqn:Eg; cbn [mbind option_bind] in Hp; [|done|done].
  cbn [fmap list_fmap fst] in Hnd. apply NoDup_cons in Hnd as [Hni Hnd]. specialize (IH _ Hp Hnd k).
  rewrite list_to_map_cons. destruct (decide (k = chunk)) as [->|Hne].
  - rewrite lookup_insert_eq. rewrite not_elem_of_list_to_map_1 in IH by done.
    exists pr. split; [rewrite IH; apply lookup_insert_eq|]. by apply parse_group_ok.
  - rewrite lookup_insert_ne by done. destruct (list_to_map l !! k) as [cfg'|]; [done|].
    rewrite IH. by apply lookup_insert_ne.
Qed.

(** An accepted configuration has a group for each of its parts and no
    other, whose filters are those configured, in order; and whatever the
    line, each group names a backend for it. *)
Theorem parsed_config_routes (l : gmap string ConfigMap) (prs : gmap string PreReg) :
  ParseConfig Compile SetWriter SetReader SetTCPReader l = Some (inl prs) ->
  dom prs = dom l /\
  (forall k cfg, l !! k = Some cfg -> exists pr, prs !! k = Some pr /\ group_ok k cfg pr) /\
  (forall k pr line, prs !! k = Some pr -> (FirstMatchBackend re_Match pr line).1 <> ""%string).
Proof.
  intros Hp. unfold ParseConfig in Hp.
  pose proof (parse_groups_ok _ _ _ Hp (NoDup_fst_map_to_list l)) as Hk. rewrite list_to_map_to_list in Hk.
  split_and!.
  - apply set_eq. intros k. rewrite !elem_of_dom. specialize (Hk k). destruct (l !! k) as [cfg|].
    + destruct Hk as (pr & -> & _). by rewrite !is_Some_alt.
    + rewrite Hk, lookup_empty. by rewrite !is_Some_alt.
  - intros k cfg E. specialize (Hk k). by rewrite E in Hk.
  - intros k pr line E. specialize (Hk k). destruct (l !! k) as [cfg|].
    + destruct Hk as (pr' & E' & _ & _ & Hd & _ & _ & _ & Hf). rewrite E in E'. simplify_eq.
      unfold FirstMatchBackend. pose proof (first_match_spec (FilterList pr') line) as Hm.
      destruct (first_match re_Match (FilterList pr') line) as [[f rej]|]; [|done].
      destruct Hm as [(i & Hi & _) _]. eapply Forall2_lookup_r in Hf as (cmap & _ & Hb & _); [|exact Hi]. done.
    + by rewrite Hk, lookup_empty in E.
Qed.

End prereg.

(** ** Witnesses *)

Definition sample_conf : gmap string ConfigMap :=
  {[ "g"%string := mkConfMap "back" "listen" (conf_times []) [mkConfFilter "" "stats." "" "" false "statsd-back";
                                                              mkConfFilter "" "" "bad" "" true ""] ]}.

Lemma parsed_config_routes_witness :
  exists prs : gmap string (PreReg (Regexp := unit)),
    ParseConfig (fun _ => None) (fun _ => Some None) (Some None) (Some None) sample_conf = Some (inl prs) /\
    dom prs = {[ "g"%string ]} /\
    forall pr, prs !! "g"%string = Some pr -> (FirstMatchBackend (fun _ _ => false) pr "a.bad").1 <> ""%string.
Proof.
  destruct (ParseConfig (Regexp := unit) (fun _ => None) (fun _ => Some None) (Some None) (Some None) sample_conf) as [[prs|err]|] eqn:E;
    [|by vm_compute in E..].
  destruct (parsed_config_routes (fun _ => None) (fun _ _ => false) (fun _ => Some None) (Some None) (Some None) sample_conf prs E) as (Hd & _ & Hr).
  exists prs. split; [done|]. split; [rewrite Hd; reflexivity|]. intros pr. apply Hr.
Defined.
