(* ===== verification/Consistent.v ===== *)
(** [vendor/.../consistent]: the ring of consistent hashing that names the
    server of a metric.

    The checksums (crc, md5, sha1, fnv, murmur) are an argument; the
    theorems need only that a hash is one.  The lock is left out.  A map
    is visited in the order of [map_to_list]. *)
From S2P Require Import Prelude Bits GoStrings GoParse GoSort.

Open Scope Z_scope.

Inductive HashAlgo := Crc32 | SmallMD5 | SmallSHA1 | Fnv32 | Fnv32a | NodejsHashringLike | Mmh32.

Inductive Elter := graphiteElt | statsdElt | consistentElt.

Definition DEFAULT_HASHER : string := "crc".
Definition DEFAULT_ELTER : string := "graphite".

Record Consistent := mkConsistent {
  circle : gmap Z string;
  members : gset string;
  sortedHashes : list Z;
  NumberOfReplicas : Z;
  count : Z;
  hasher : HashAlgo;
  elter : Elter
}.

Definition ErrEmptyCircle : goerror := GoError "empty circle".

(** [cleanElt] and the three ways to name a point of a server. *)
Definition cleanElt (elt : string) : string :=
  ReplaceAll (ReplaceAll (ReplaceAll elt "udp://" "") "tcp://" "") "http://" "".

Definition elt_key (e : Elter) (elt : string) (idx : Z) : string :=
  match e with
  | graphiteElt => cleanElt elt +:+ ":" +:+ FormatInt idx
  | statsdElt => cleanElt elt +:+ "-" +:+ FormatInt idx
  | consistentElt => FormatInt idx +:+ elt
  end.

Definition hasher_named (name : string) : HashAlgo :=
  if bool_decide (name ∈ ["md5"; "graphite"]%string) then SmallMD5
  else if bool_decide (name = "sha1"%string) then SmallSHA1
  else if bool_decide (name ∈ ["fnv"; "fnv32"]%string) then Fnv32
  else if bool_decide (name ∈ ["fnva"; "fnv32a"]%string) then Fnv32a
  else if bool_decide (name ∈ ["statsd"; "nodejs-hashring"]%string) then NodejsHashringLike
  else if bool_decide (name ∈ ["mmh"; "mmh3"; "mmh32"]%string) then Mmh32
  else Crc32.

Definition elter_named (name : string) : Elter :=
  if bool_decide (name = "statsd"%string) then statsdElt
  else if bool_decide (name ∈ ["consistent"; "goconsistent"; "simple"]%string) then consistentElt
  else graphiteElt.

Section ring.
Context `{!GoSort} (Hash : HashAlgo -> string -> Z).

Definition hashKey (c : Consistent) (key : string) : Z := Hash (hasher c) key.
Definition eltKey (c : Consistent) (elt : string) (idx : Z) : string := elt_key (elter c) elt idx.

(** The points of a server, in the order the loops visit them. *)
Definition points (c : Consistent) (elt : string) : list Z :=
  (fun i => hashKey c (eltKey c elt (Z.of_nat i))) <$> seq 0 (Z.to_nat (NumberOfReplicas c)).

(** [updateSortedHashes]: the keys of the circle, sorted. *)
Definition sorted_keys (m : gmap Z string) : list Z := sort_Sort Z.ltb (map_to_list m).*1.

Definition update (c : Consistent) (m : gmap Z string) (mem : gset string) (n : Z) : Consistent :=
  mkConsistent m mem (sorted_keys m) (NumberOfReplicas c) n (hasher c) (elter c).

(** [add] and [remove]: every call counts, also for a server that is
    there, or not. *)
Definition Add (c : Consistent) (elt : string) : Consistent :=
  update c (foldl (fun m h => <[h := elt]> m) (circle c) (points c elt)) ({[ elt ]} ∪ members c) (i64 (count c + 1)).

Definition Remove (c : Consistent) (elt : string) : Consistent :=
  update c (foldl (fun m h => delete h m) (circle c) (points c elt)) (members c ∖ {[ elt ]}) (i64 (count c - 1)).

Definition Members (c : Consistent) : list string := elements (members c).

Definition ResetCircle (c : Consistent) (mems : list string) : Consistent :=
  foldl (fun c elt => Add (Remove c elt) elt) c mems.

Definition set_params (c : Consistent) (n : Z) (h : HashAlgo) (e : Elter) : Consistent :=
  mkConsistent (circle c) (members c) (sortedHashes c) n (count c) h e.

Definition SetNumberOfReplicas (c : Consistent) (num : Z) : Consistent :=
  ResetCircle (set_params c (if num >? 0 then num else 1) (hasher c) (elter c)) (Members c).

Definition SetHasherByName (c : Consistent) (name : string) : Consistent :=
  ResetCircle (set_params c (NumberOfReplicas c) (hasher_named name) (elter c)) (Members c).

Definition SetElterByName (c : Consistent) (name : string) : Consistent :=
  ResetCircle (set_params c (NumberOfReplicas c) (hasher c) (elter_named name)) (Members c).

Definition New : Consistent :=
  SetElterByName (SetHasherByName (mkConsistent ∅ ∅ [] 4 0 Crc32 graphiteElt) DEFAULT_HASHER) DEFAULT_ELTER.

(** [Set]: the members that are not wanted go, and the missing ones are
    added in order. *)
Definition Set_ (c : Consistent) (elts : list string) : Consistent :=
  let c := foldl (fun c k => if bool_decide (k ∈ elts) then c else Remove c k) c (Members c) in
  foldl (fun c v => if bool_decide (v ∈ members c) then c else Add c v) c elts.

(** [sort.Search]: the binary search of the least index whose element
    satisfies [f]. *)
Fixpoint search_loop (fuel : nat) (f : nat -> bool) (i j : nat) : nat :=
  match fuel with
  | O => i
  | S fuel =>
      if (i <? j)%nat then
        let h := Nat.div (i + j) 2 in
        if f h then search_loop fuel f i h else search_loop fuel f (h + 1) j
      else i
  end.

Definition sort_Search (n : nat) (f : nat -> bool) : nat := search_loop n f 0 n.

(** An element past the end is never looked at. *)
Definition search (c : Consistent) (key : Z) : nat :=
  let l := sortedHashes c in
  let i := sort_Search (length l) (fun x => default 0 (l !! x) >? key) in
  if (length l <=? i)%nat then 0%nat else i.

(** The server at an index of the sorted points; [None] is an index out of
    range. *)
Definition at_point (c : Consistent) (i : nat) : option string :=
  h ← sortedHashes c !! i; Some (default ""%string (circle c !! h)).

Definition Get (c : Consistent) (name : string) : option (string + goerror) :=
  if decide (circle c = ∅) then Some (inr ErrEmptyCircle)
  else s ← at_point c (search c (hashKey c name)); Some (inl s).

(** The loop of [GetN]: the test is made before an index past the end is
    wrapped around. *)
Fixpoint getN_loop (fuel : nat) (c : Consistent) (n : Z) (start i : nat) (res : list string) : option (list string) :=
  match fuel with
  | O => None
  | S fuel =>
      if (i =? start)%nat then Some res
      else
        let i := if (length (sortedHashes c) <=? i)%nat then 0%nat else i in
        elem ← at_point c i;
        let res := if bool_decide (elem ∈ res) then res else res ++ [elem] in
        if Z.of_nat (length res) =? n then Some res else getN_loop fuel c n start (i + 1) res
  end.

(** A turn of the loop per point is enough when the circle has [n]
    servers. *)
Definition GetN_fuel (fuel : nat) (c : Consistent) (name : string) (n : Z) : option (list string + goerror) :=
  if decide (circle c = ∅) then Some (inr ErrEmptyCircle)
  else if (n =? 1) || (base.size (circle c) =? 1)%nat then
    r ← Get c name;
    Some match r with inl key => inl [key] | inr err => inr err end
  else
    let n := if count c <? n then count c else n in
    let i := search c (hashKey c name) in
    elem ← at_point c i;
    if n <? 0 then None
    else if n =? 1 then Some (inl [elem])
    else res ← getN_loop fuel c n i (i + 1) [elem]; Some (inl res).

Definition GetN (c : Consistent) (name : string) (n : Z) : option (list string + goerror) :=
  GetN_fuel (length (sortedHashes c)) c name n.

(** The loop of [GetTwo] starts and ends like that of [GetN]. *)
Fixpoint getTwo_loop (fuel : nat) (c : Consistent) (start i : nat) (a b : string) : option string :=
  match fuel with
  | O => None
  | S fuel =>
      if (i =? start)%nat then Some b
      else
        let i := if (length (sortedHashes c) <=? i)%nat then 0%nat else i in
        b ← at_point c i;
        if bool_decide (b <> a) then Some b else getTwo_loop fuel c start (i + 1) a b
  end.

Definition GetTwo (fuel : nat) (c : Consistent) (name : string) : option (string * string + goerror) :=
  if decide (circle c = ∅) then Some (inr ErrEmptyCircle)
  else
    let i := search c (hashKey c name) in
    a ← at_point c i;
    if count c =? 1 then Some (inl (a, ""%string))
    else b ← getTwo_loop fuel c i (i + 1) a ""; Some (inl (a, b)).

End ring.
