(* ===== verification/ConsistentTheorems.v ===== *)
(** Consistent hashing: the server of a key owns the next point of the
    circle, adding or removing a server moves only its own keys, the
    servers of a replicated key are distinct, and when the search for them
    ends. *)
From S2P Require Import Prelude Bits GoStrings GoParse GoSort Consistent.

Open Scope Z_scope.

(** ** [sort.Search] *)

Lemma search_loop_spec (f : nat -> bool) (n fuel i j : nat) :
  (forall x y, (x <= y < n)%nat -> f x = true -> f y = true) ->
  (j - i <= fuel)%nat -> (i <= j <= n)%nat ->
  (forall x, (x < i)%nat -> f x = false) -> (forall x, (j <= x < n)%nat -> f x = true) ->
  let r := search_loop fuel f i j in
  (r <= n)%nat /\ (forall x, (x < r)%nat -> f x = false) /\ (forall x, (r <= x < n)%nat -> f x = true).
Proof.
  intros Hmono. revert i j. induction fuel as [|fuel IH]; intros i j Hfuel Hij Hlo Hhi; cbn [search_loop].
  { replace j with i in * by lia. split_and!; [lia|done|done]. }
  destruct (i <? j)%nat eqn:E; [apply Nat.ltb_lt in E|apply Nat.ltb_ge in E].
  - assert (Hh : (i <= Nat.div (i + j) 2 < j)%nat).
    { split; [apply Nat.div_le_lower_bound; lia|apply Nat.Div0.div_lt_upper_bound; lia]. }
    set (h := Nat.div (i + j) 2) in *. destruct (f h) eqn:Ef.
    + apply IH; [lia|lia|done|]. intros x Hx. apply (Hmono h); [lia|done].
    + apply IH; [lia|lia| |done]. intros x Hx. destruct (f x) eqn:Ex; [|done].
      rewrite (Hmono x h) in Ef; [done|lia|done].
  - replace j with i in * by lia. split_and!; [lia|done|done].
Qed.

Lemma sort_Search_spec (n : nat) (f : nat -> bool) :
  (forall x y, (x <= y < n)%nat -> f x = true -> f y = true) ->
  (sort_Search n f <= n)%nat /\ (forall x, (x < sort_Search n f)%nat -> f x = false) /\
  (forall x, (sort_Search n f <= x < n)%nat -> f x = true).
Proof. intros Hmono. apply (search_loop_spec f n n 0 n Hmono); lia. Qed.

Section ring.
Context `{!GoSort} (Hash : HashAlgo -> string -> Z).

Abbreviation Get := (Get Hash).
Abbreviation Add := (Add Hash).
Abbreviation Remove := (Remove Hash).
Abbreviation GetN := (GetN Hash).
Abbreviation points := (points Hash).
Abbreviation hashKey := (hashKey Hash).

(** The sorted hashes are those of the circle. *)
Definition ring_sorted (c : Consistent) : Prop := sortedHashes c = sorted_keys (circle c).

Lemma sorted_keys_elem (m : gmap Z string) (h : Z) : h ∈ sorted_keys m <-> is_Some (m !! h).
Proof.
  unfold sorted_keys. rewrite sort_perm. rewrite list_elem_of_fmap. split.
  - intros ([h' s] & -> & Hin). apply elem_of_map_to_list in Hin. by exists s.
  - intros [s Hs]. exists (h, s). split; [done|]. by apply elem_of_map_to_list.
Qed.

Lemma sorted_keys_lt (m : gmap Z string) (i j : nat) (x y : Z) :
  (i < j)%nat -> sorted_keys m !! i = Some x -> sorted_keys m !! j = Some y -> x < y.
Proof.
  intros Hij Hx Hy. assert (Hwo : weak_order_on Z.ltb (map_to_list m).*1).
  { split; intros; bool_to_prop; first [bool_lia|lia]. }
  pose proof (sort_sorted _ _ _ Hwo i j x y Hij Hx Hy) as Hle. apply Z.ltb_ge in Hle.
  assert (Hnd : NoDup (sorted_keys m)) by (unfold sorted_keys; rewrite sort_perm; apply NoDup_fst_map_to_list).
  enough (x <> y) by lia. intros ->. pose proof (NoDup_lookup _ _ _ _ Hnd Hx Hy). lia.
Qed.

(** [h] is the point that follows [key] on the circle. *)
Definition succ_point (m : gmap Z string) (key h : Z) : Prop :=
  is_Some (m !! h) /\
  ((key < h /\ forall h', is_Some (m !! h') -> key < h' -> h <= h') \/
   ((forall h', is_Some (m !! h') -> h' <= key) /\ forall h', is_Some (m !! h') -> h <= h')).

Lemma succ_point_unique (m : gmap Z string) (key h h' : Z) : succ_point m key h -> succ_point m key h' -> h = h'.
Proof.
  intros [Hh [[Hlt Hmin]|[Hall Hmin]]] [Hh' [[Hlt' Hmin']|[Hall' Hmin']]].
  - specialize (Hmin h' Hh' Hlt'). specialize (Hmin' h Hh Hlt). lia.
  - specialize (Hall' h Hh). lia.
  - specialize (Hall h' Hh'). lia.
  - specialize (Hmin h' Hh'). specialize (Hmin' h Hh). lia.
Qed.

Lemma search_succ (c : Consistent) (key : Z) :
  ring_sorted c -> circle c <> ∅ ->
  exists h, sortedHashes c !! search c key = Some h /\ succ_point (circle c) key h.
Proof.
  intros Hr Hne. unfold search. rewrite Hr. set (l := sorted_keys (circle c)).
  assert (Hl : (0 < length l)%nat).
  { destruct (map_choose _ Hne) as (h & s & Hs). assert (Hin : h ∈ l) by (apply sorted_keys_elem; by exists s).
    destruct l; [by apply elem_of_nil in Hin|simpl; lia]. }
  set (f := fun x => default 0 (l !! x) >? key).
  assert (Hf : forall x h, l !! x = Some h -> f x = (key <? h)) by (intros x h E; unfold f; rewrite E; apply Z.gtb_ltb).
  destruct (sort_Search_spec (length l) f) as (Hle & Hlo & Hhi).
  { intros x y Hxy Hx. destruct (lookup_lt_is_Some_2 l x) as [hx Ex]; [lia|]. destruct (lookup_lt_is_Some_2 l y) as [hy Ey]; [lia|].
    rewrite (Hf _ _ Ex) in Hx. rewrite (Hf _ _ Ey). bool_to_prop. destruct (decide (x = y)) as [->|]; [rewrite Ex in Ey; simplify_eq; bool_lia|].
    pose proof (sorted_keys_lt _ x y hx hy ltac:(lia) Ex Ey). bool_lia. }
  set (r := sort_Search (length l) f) in *.
  assert (Hin : forall h', is_Some (circle c !! h') -> exists i, l !! i = Some h').
  { intros h' Hh'. apply sorted_keys_elem, list_elem_of_lookup_1 in Hh'. done. }
  destruct (length l <=? r)%nat eqn:E; [apply Nat.leb_le in E|apply Nat.leb_gt in E].
  - destruct (lookup_lt_is_Some_2 l 0) as [h0 E0]; [lia|]. exists h0. split; [done|].
    split; [apply sorted_keys_elem; by eapply list_elem_of_lookup_2|]. right. split; intros h' Hh'; destruct (Hin h' Hh') as [i Hi];
      pose proof (lookup_lt_Some _ _ _ Hi).
    + specialize (Hlo i ltac:(lia)). rewrite (Hf _ _ Hi) in Hlo. bool_to_prop. lia.
    + destruct i as [|i]; [rewrite E0 in Hi; simplify_eq; lia|].
      pose proof (sorted_keys_lt _ 0 (S i) h0 h' ltac:(lia) E0 Hi). lia.
  - destruct (lookup_lt_is_Some_2 l r E) as [h Eh]. exists h. split; [done|].
    split; [apply sorted_keys_elem; by eapply list_elem_of_lookup_2|]. left. split.
    + specialize (Hhi r ltac:(lia)). rewrite (Hf _ _ Eh) in Hhi. bool_to_prop. lia.
    + intros h' Hh' Hlt. destruct (Hin h' Hh') as [i Hi]. destruct (decide (i < r)%nat).
      * specialize (Hlo i ltac:(lia)). rewrite (Hf _ _ Hi) in Hlo. bool_to_prop. lia.
      * destruct (decide (i = r)) as [->|]; [rewrite Eh in Hi; simplify_eq; lia|].
        pose proof (sorted_keys_lt _ r i h h' ltac:(lia) Eh Hi). lia.
Qed.

Lemma Get_owner (c : Consistent) (name : string) :
  ring_sorted c -> circle c <> ∅ ->
  exists h s, succ_point (circle c) (hashKey c name) h /\ circle c !! h = Some s /\ Get c name = Some (inl s).
Proof.
  intros Hr Hne. destruct (search_succ c (hashKey c name) Hr Hne) as (h & Eh & Hs). pose proof Hs as [[s Es] _].
  exists h, s. split_and!; [done|done|]. unfold Consistent.Get. rewrite decide_False by done.
  unfold at_point. rewrite Eh. cbn [mbind option_bind]. by rewrite Es.
Qed.

(** On a circle with servers the server of a key is the owner of the
    first point past the key's hash, or, past the last point, of the
    lowest one; on an empty circle there is an error. *)
Theorem ring_get_spec (c : Consistent) (name : string) (s : string) :
  ring_sorted c ->
  (Get c name = Some (inl s) <->
   exists h, succ_point (circle c) (hashKey c name) h /\ circle c !! h = Some s) /\
  (Get c name = Some (inr ErrEmptyCircle) <-> circle c = ∅).
Proof.
  intros Hr. destruct (decide (circle c = ∅)) as [He|Hne].
  - unfold Consistent.Get. rewrite decide_True by done. split; [|done]. split; [done|]. rewrite He. by intros (h & _ & ?).
  - destruct (Get_owner c name Hr Hne) as (h & s' & Hs & Ec & ->). split; [|by split].
    split; [intros [= <-]; by exists h|]. intros (h2 & Hs2 & Ec2).
    rewrite (succ_point_unique _ _ _ _ Hs2 Hs) in Ec2. congruence.
Qed.

(** ** Adding and removing *)

Lemma insert_points (hs : list Z) (elt : string) (m : gmap Z string) (h : Z) :
  foldl (fun m h => <[h := elt]> m) m hs !! h = if decide (h ∈ hs) then Some elt else m !! h.
Proof.
  revert m. induction hs as [|x hs IH]; intros m; cbn [foldl]; [done|]. rewrite IH.
  destruct (decide (h ∈ hs)), (decide (h ∈ x :: hs)) as [Hin|Hin]; try done; [set_solver| |].
  - apply elem_of_cons in Hin as [->|]; [|done]. by rewrite lookup_insert_eq.
  - rewrite lookup_insert_ne by set_solver. done.
Qed.

Lemma delete_points (hs : list Z) (m : gmap Z string) (h : Z) :
  foldl (fun m h => delete h m) m hs !! h = if decide (h ∈ hs) then None else m !! h.
Proof.
  revert m. induction hs as [|x hs IH]; intros m; cbn [foldl]; [done|]. rewrite IH.
  destruct (decide (h ∈ hs)), (decide (h ∈ x :: hs)) as [Hin|Hin]; try done; [set_solver| |].
  - apply elem_of_cons in Hin as [->|]; [|done]. by rewrite lookup_delete_eq.
  - rewrite lookup_delete_ne by set_solver. done.
Qed.

Lemma Add_lookup (c : Consistent) (elt : string) (h : Z) :
  circle (Add c elt) !! h = if decide (h ∈ points c elt) then Some elt else circle c !! h.
Proof. apply insert_points. Qed.

Lemma Remove_lookup (c : Consistent) (elt : string) (h : Z) :
  circle (Remove c elt) !! h = if decide (h ∈ points c elt) then None else circle c !! h.
Proof. apply delete_points. Qed.

Lemma lookup_nonempty (m : gmap Z string) (h : Z) (s : string) : m !! h = Some s -> m <> ∅.
Proof. intros Hs ->. by rewrite lookup_empty in Hs. Qed.

(** A point that follows the key on a larger circle does so on a smaller
    one that has it. *)
Lemma succ_point_sub (m m' : gmap Z string) (key h : Z) :
  (forall x, is_Some (m !! x) -> is_Some (m' !! x)) -> is_Some (m !! h) -> succ_point m' key h -> succ_point m key h.
Proof. intros Hsub Hh [_ [[Hlt Hmin]|[Hall Hmin]]]; split; [done|left|done|right]; split; eauto. Qed.

(** Adding a server moves keys only to it: every key keeps its server
    or gets the new one. *)
Theorem ring_add_monotone (c : Consistent) (elt name s : string) :
  ring_sorted c -> Get c name = Some (inl s) ->
  Get (Add c elt) name = Some (inl s) \/ Get (Add c elt) name = Some (inl elt).
Proof.
  intros Hr Hg. destruct (decide (circle c = ∅)) as [He|Hne].
  { unfold Consistent.Get in Hg. by rewrite decide_True in Hg. }
  destruct (Get_owner c name Hr Hne) as (h & s' & Hs & Ec & Hg'). rewrite Hg in Hg'. simplify_eq.
  destruct (Get_owner (Add c elt) name) as (h2 & s2 & Hs2 & Ec2 & ->); [done| |].
  { pose proof (Add_lookup c elt h) as Hl. case_decide; [by eapply lookup_nonempty|]. rewrite Ec in Hl. by eapply lookup_nonempty. }
  rewrite Add_lookup in Ec2. case_decide as Hin; [simplify_eq; by right|left].
  assert (Hsub : succ_point (circle c) (hashKey c name) h2).
  { eapply (succ_point_sub _ (circle (Add c elt))); [|by exists s2|exact Hs2].
    intros x Hx. rewrite Add_lookup. case_decide; [by eexists|done]. }
  rewrite (succ_point_unique _ _ _ _ Hsub Hs) in Ec2. congruence.
Qed.

(** No other server's point has one of the hashes of [elt]. *)
Definition no_collision (c : Consistent) (elt : string) : Prop :=
  forall h s, h ∈ points c elt -> circle c !! h = Some s -> s = elt.

(** Removing a server moves only its own keys: a key of another server
    keeps it, unless a point of the removed one collides with it. *)
Theorem ring_remove_monotone (c : Consistent) (elt name s : string) :
  ring_sorted c -> no_collision c elt -> Get c name = Some (inl s) -> s <> elt ->
  Get (Remove c elt) name = Some (inl s).
Proof.
  intros Hr Hnc Hg Hne. destruct (decide (circle c = ∅)) as [He|Hnem].
  { unfold Consistent.Get in Hg. by rewrite decide_True in Hg. }
  destruct (Get_owner c name Hr Hnem) as (h & s' & Hs & Ec & Hg'). rewrite Hg in Hg'. simplify_eq.
  assert (Hh : circle (Remove c elt) !! h = Some s').
  { rewrite Remove_lookup. case_decide as Hin; [|done]. by destruct Hne; apply (Hnc h). }
  destruct (Get_owner (Remove c elt) name) as (h2 & s2 & Hs2 & Ec2 & ->); [done|by eapply lookup_nonempty|].
  assert (Hsub : succ_point (circle (Remove c elt)) (hashKey c name) h).
  { eapply (succ_point_sub _ (circle c)); [|by exists s'|exact Hs].
    intros x. rewrite Remove_lookup. case_decide; [by intros []|done]. }
  rewrite (succ_point_unique _ _ _ _ Hs2 Hsub) in Ec2. congruence.
Qed.

(** Adding a new server and removing it gives the circle back. *)
Lemma ring_add_remove (c : Consistent) (elt : string) :
  (forall h, h ∈ points c elt -> circle c !! h = None) -> circle (Remove (Add c elt) elt) = circle c.
Proof.
  intros Hfree. apply map_eq. intros h. rewrite Remove_lookup, Add_lookup.
  change (points (Add c elt) elt) with (points c elt). case_decide as Hin; [|done]. symmetry. by apply Hfree.
Qed.

(** ** Several servers *)

(** The owners of the points, in the order of the points. *)
Definition owners (c : Consistent) : list string := (fun h => default ""%string (circle c !! h)) <$> sortedHashes c.

Lemma at_point_owners (c : Consistent) (i : nat) : at_point c i = owners c !! i.
Proof. unfold at_point, owners. rewrite list_lookup_fmap. by destruct (sortedHashes c !! i). Qed.

(** Distinct servers picked from a list until there are [n]. *)
Fixpoint visit (n : nat) (res rest : list string) : list string :=
  match rest with
  | [] => res
  | e :: rest =>
      let res := if bool_decide (e ∈ res) then res else res ++ [e] in
      if (length res =? n)%nat then res else visit n res rest
  end.

(** The points after [start], once around. *)
Definition after (start : nat) (l : list string) : list string := drop (S start) l ++ take start l.

Lemma after_lookup (start k : nat) (l : list string) :
  (start < length l)%nat -> (k < length l - 1)%nat ->
  after start l !! k = l !! (if (S start + k <? length l)%nat then S start + k else S start + k - length l)%nat.
Proof.
  intros Hs Hk. unfold after. destruct (S start + k <? length l)%nat eqn:E; [apply Nat.ltb_lt in E|apply Nat.ltb_ge in E].
  - rewrite lookup_app_l by (rewrite length_drop; lia). by rewrite lookup_drop.
  - rewrite lookup_app_r by (rewrite length_drop; lia). rewrite length_drop, lookup_take_lt by lia. f_equal. lia.
Qed.

Lemma length_after (start : nat) (l : list string) : (start < length l)%nat -> length (after start l) = (length l - 1)%nat.
Proof. intros Hs. unfold after. rewrite length_app, length_drop, length_take. lia. Qed.

(** The index before it is wrapped, [k] turns after the start. *)
Definition raw (len start k : nat) : nat := if (S start + k <=? len)%nat then S start + k else (S start + k - len)%nat.

Lemma getN_loop_visit (c : Consistent) (n start : nat) :
  (start < length (owners c))%nat ->
  forall rest k fuel res, drop k (after start (owners c)) = rest -> (length res < n)%nat ->
    length (visit n res rest) = n -> (length rest <= fuel)%nat ->
    getN_loop fuel c (Z.of_nat n) start (raw (length (owners c)) start k) res = Some (visit n res rest).
Proof.
  intros Hs rest. assert (Hlen : length (sortedHashes c) = length (owners c)) by (unfold owners; by rewrite length_fmap).
  induction rest as [|e rest IH]; intros k fuel res Hr Hn Hv Hf; cbn [visit length] in *; [lia|].
  assert (Hk : after start (owners c) !! k = Some e).
  { rewrite <- (Nat.add_0_r k), <- lookup_drop, Hr. done. }
  pose proof (lookup_lt_Some _ _ _ Hk) as Hkl. rewrite length_after in Hkl by done. rewrite after_lookup in Hk by done.
  destruct fuel as [|fuel]; [lia|]. cbn [getN_loop]. rewrite Hlen.
  assert (Hrest : drop (S k) (after start (owners c)) = rest).
  { replace (S k) with (k + 1)%nat by lia. by rewrite <- drop_drop, Hr. }
  set (i := if (length (owners c) <=? raw (length (owners c)) start k)%nat then 0%nat else raw (length (owners c)) start k).
  assert (Hi : raw (length (owners c)) start k <> start /\ owners c !! i = Some e /\
               (i + 1)%nat = raw (length (owners c)) start (S k)).
  { clear -Hk Hkl Hs. subst i. unfold raw. set (len := length (owners c)) in *.
    destruct (Nat.lt_trichotomy (S start + k) len) as [Hlt|[Heq|Hgt]].
    - rewrite (proj2 (Nat.ltb_lt _ _) Hlt) in Hk. rewrite (proj2 (Nat.leb_le (S start + k) len)) by lia.
      rewrite (proj2 (Nat.leb_gt len (S start + k))) by lia. rewrite (proj2 (Nat.leb_le (S start + S k) len)) by lia.
      split_and!; [lia|done|lia].
    - rewrite (proj2 (Nat.ltb_ge (S start + k) len)) in Hk by lia. rewrite (proj2 (Nat.leb_le (S start + k) len)) by lia.
      rewrite (proj2 (Nat.leb_le len (S start + k))) by lia. rewrite (proj2 (Nat.leb_gt (S start + S k) len)) by lia.
      split_and!; [lia| |lia]. rewrite <- Hk. f_equal. lia.
    - rewrite (proj2 (Nat.ltb_ge (S start + k) len)) in Hk by lia. rewrite (proj2 (Nat.leb_gt (S start + k) len)) by lia.
      rewrite (proj2 (Nat.leb_gt len (S start + k - len))) by lia. rewrite (proj2 (Nat.leb_gt (S start + S k) len)) by lia.
      split_and!; [lia|done|lia]. }
  destruct Hi as (Hne & Hei & Hnext). apply Nat.eqb_neq in Hne. rewrite Hne. fold i. rewrite at_point_owners, Hei.
  cbn [mbind option_bind]. set (res' := if bool_decide (e ∈ res) then res else res ++ [e]) in *.
  assert (Hl' : (length res' <= n)%nat) by (unfold res'; case_bool_decide; rewrite ?length_app; simpl; lia).
  destruct (length res' =? n)%nat eqn:E; [apply Nat.eqb_eq in E|apply Nat.eqb_neq in E].
  - by replace (Z.of_nat (length res') =? Z.of_nat n) with true by (symmetry; bool_lia).
  - replace (Z.of_nat (length res') =? Z.of_nat n) with false by (symmetry; bool_lia).
    rewrite Hnext. apply IH; [done|lia|done|lia].
Qed.

Lemma visit_spec (n : nat) (rest res : list string) :
  NoDup res -> (length res < n)%nat -> (n <= base.size (list_to_set (res ++ rest) : gset string))%nat ->
  length (visit n res rest) = n /\ NoDup (visit n res rest) /\ res `prefix_of` visit n res rest /\
  forall x, x ∈ visit n res rest -> x ∈ res ++ rest.
Proof.
  revert res. induction rest as [|e rest IH]; intros res Hnd Hn Hsz; cbn [visit].
  { rewrite app_nil_r, size_list_to_set in Hsz by done. lia. }
  case_bool_decide as He.
  - replace (length res =? n)%nat with false by (symmetry; apply Nat.eqb_neq; lia).
    destruct (IH res Hnd Hn) as (H1 & H2 & H3 & H4).
    { replace (list_to_set (res ++ rest) : gset string) with (list_to_set (res ++ e :: rest) : gset string) by set_solver. done. }
    split_and!; try done. intros x Hx%H4. set_solver.
  - assert (Hnd' : NoDup (res ++ [e])) by (apply NoDup_app; split_and!; [done|set_solver|apply NoDup_singleton]).
    assert (Hl : length (res ++ [e]) = S (length res)) by (rewrite length_app; simpl; lia).
    destruct (length (res ++ [e]) =? n)%nat eqn:E; [apply Nat.eqb_eq in E|apply Nat.eqb_neq in E].
    + split_and!; [done|done|by eexists|]. set_solver.
    + destruct (IH (res ++ [e]) Hnd') as (H1 & H2 & H3 & H4); [lia| |].
      { by rewrite <- app_assoc. }
      split_and!; [done|done| |]; [by etransitivity; [|exact H3]; eexists|]. intros x Hx%H4. set_solver.
Qed.

(** The servers that have a point. *)
Definition on_circle (c : Consistent) : gset string := list_to_set (map_to_list (circle c)).*2.

Lemma owners_circle (c : Consistent) (x : string) : ring_sorted c -> x ∈ owners c <-> x ∈ on_circle c.
Proof.
  intros Hr. unfold owners, on_circle. rewrite elem_of_list_to_set, !list_elem_of_fmap. rewrite Hr. split.
  - intros (h & -> & [s Hs]%sorted_keys_elem). exists (h, s). rewrite Hs. split; [done|]. by apply elem_of_map_to_list.
  - intros ([h s] & -> & Hin%elem_of_map_to_list). exists h. rewrite Hin. split; [done|]. apply sorted_keys_elem. by exists s.
Qed.

Lemma rotation_set (start : nat) (l : list string) (e : string) :
  l !! start = Some e -> list_to_set (e :: after start l) = (list_to_set l : gset string).
Proof.
  intros Hs. transitivity (list_to_set (take start l ++ e :: drop (S start) l) : gset string);
    [|by rewrite take_drop_middle].
  unfold after. rewrite list_to_set_cons, !list_to_set_app_L, list_to_set_cons. set_solver.
Qed.

Lemma size_list_to_set_le (l : list string) : (base.size (list_to_set l : gset string) <= length l)%nat.
Proof.
  induction l as [|x l IH]; [done|]. rewrite list_to_set_cons. cbn [length].
  rewrite size_union_alt, size_singleton.
  assert (base.size (list_to_set l ∖ {[ x ]} : gset string) <= base.size (list_to_set l : gset string))%nat
    by (apply subseteq_size; set_solver). lia.
Qed.

Lemma getN_servers (c : Consistent) (name : string) (n : Z) :
  let k := Z.min n (count c) in
  ring_sorted c -> 1 <= k -> (Z.to_nat k <= base.size (on_circle c))%nat ->
  exists s res, Get c name = Some (inl s) /\ GetN c name n = Some (inl (s :: res)) /\
    length (s :: res) = Z.to_nat k /\ NoDup (s :: res) /\ forall x, x ∈ s :: res -> x ∈ on_circle c.
Proof.
  intros k Hr Hk Hsz. assert (Hne : circle c <> ∅).
  { intros He. unfold on_circle in Hsz. rewrite He, map_to_list_empty in Hsz. change (list_to_set [].*2 : gset string) with (∅ : gset string) in Hsz.
    rewrite size_empty in Hsz. lia. }
  destruct (search_succ c (hashKey c name) Hr Hne) as (h & Eh & Hs). pose proof Hs as [[s Es] _].
  assert (Hat : at_point c (search c (hashKey c name)) = Some s).
  { unfold at_point. rewrite Eh. cbn. by rewrite Es. }
  assert (Hget : Get c name = Some (inl s)).
  { unfold Consistent.Get. rewrite decide_False by done. by rewrite Hat. }
  exists s. assert (Hon : s ∈ on_circle c).
  { apply owners_circle; [done|]. rewrite at_point_owners in Hat. by eapply list_elem_of_lookup_2. }
  assert (Hone : k = 1 -> length [s] = Z.to_nat k /\ NoDup [s] /\ forall x, x ∈ [s] -> x ∈ on_circle c).
  { intros ->. split_and!; [done|apply NoDup_singleton|]. by intros x ->%list_elem_of_singleton. }
  unfold Consistent.GetN, GetN_fuel. rewrite decide_False by done.
  destruct ((n =? 1) || (base.size (circle c) =? 1)%nat) eqn:E1.
  { exists []. rewrite Hget. cbn. split_and!; try done; apply Hone; apply orb_true_iff in E1 as [E1|E1].
    all: try (bool_to_prop; lia).
    all: apply Nat.eqb_eq in E1; assert (base.size (on_circle c) <= 1)%nat; [|lia].
    all: unfold on_circle; etransitivity; [apply size_list_to_set_le|]; by rewrite length_fmap, length_map_to_list, E1. }
  assert (Hk' : (if count c <? n then count c else n) = k) by (unfold k; case_if; bool_to_prop; lia). rewrite Hk'.
  rewrite Hat. cbn [mbind option_bind]. replace (k <? 0) with false by (symmetry; bool_lia).
  destruct (k =? 1) eqn:E2; [bool_to_prop; exists []; split_and!; try done; apply Hone; lia|]. bool_to_prop.
  rewrite at_point_owners in Hat. pose proof (lookup_lt_Some _ _ _ Hat) as Hlt.
  set (st := search c (hashKey c name)) in *.
  destruct (visit_spec (Z.to_nat k) (after st (owners c)) [s]) as (Hl & Hnd & [res Hp] & Hin).
  { apply NoDup_singleton. } { simpl. lia. }
  { cbn [app]. rewrite (rotation_set _ _ _ Hat). etransitivity; [exact Hsz|]. apply subseteq_size. intros x Hx.
    apply elem_of_list_to_set. by apply owners_circle. }
  pose proof (getN_loop_visit c (Z.to_nat k) st Hlt (after st (owners c)) 0 (length (sortedHashes c)) [s] eq_refl) as Hloop.
  rewrite Z2Nat.id in Hloop by lia. unfold raw in Hloop. rewrite Nat.add_0_r in Hloop.
  rewrite (proj2 (Nat.leb_le (S st) _)) in Hloop by lia. replace (st + 1)%nat with (S st) by lia.
  rewrite Hloop; [|simpl; lia|done|].
  - cbn [mbind option_bind]. rewrite Hp in *. exists res. split_and!; try done.
    intros x Hx%Hin. cbn [app] in Hx. apply owners_circle; [done|].
    assert (Hx' : x ∈ (list_to_set (s :: after st (owners c)) : gset string)) by (by apply elem_of_list_to_set).
    rewrite (rotation_set _ _ _ Hat) in Hx'. by apply elem_of_list_to_set in Hx'.
  - rewrite length_after by done. unfold owners. rewrite length_fmap. lia.
Qed.

(** With at least as many servers on the circle as are asked for and
    as were added, [GetN] ends within a turn per point, and returns that
    many distinct servers of the circle, the first being that of
    [Get]. *)
Theorem ring_getN_servers (c : Consistent) (name : string) (n : Z) :
  let k := Z.min n (count c) in
  ring_sorted c -> 1 <= k -> (Z.to_nat k <= base.size (on_circle c))%nat ->
  exists s res, Get c name = Some (inl s) /\ GetN c name n = Some (inl (s :: res)) /\
    length (s :: res) = Z.to_nat k /\ NoDup (s :: res) /\ forall x, x ∈ s :: res -> x ∈ on_circle c.
Proof. apply getN_servers. Qed.

(** ** The rings that are used *)

Section reachable.
Context (U : gset string) (c0 : Consistent).

(** The servers of a deployment, whose points do not collide. *)
Definition disjoint_points : Prop :=
  forall s s' h, s ∈ U -> s' ∈ U -> h ∈ points c0 s -> h ∈ points c0 s' -> s = s'.

(** The rings made from an empty one by adding servers that are not there
    and removing servers that are. *)
Inductive reachable : Consistent -> Prop :=
| reach_empty : circle c0 = ∅ -> members c0 = ∅ -> sortedHashes c0 = [] -> count c0 = 0 -> reachable c0
| reach_add c elt : reachable c -> elt ∈ U -> elt ∉ members c -> reachable (Add c elt)
| reach_remove c elt : reachable c -> elt ∈ members c -> reachable (Remove c elt).

(** The circle holds exactly the points of the members. *)
Record ring_inv (c : Consistent) : Prop := {
  ri_sorted : ring_sorted c;
  ri_params : NumberOfReplicas c = NumberOfReplicas c0 /\ hasher c = hasher c0 /\ elter c = elter c0;
  ri_members : members c ⊆ U;
  ri_count : count c = Z.of_nat (base.size (members c));
  ri_circle : forall h s, circle c !! h = Some s <-> s ∈ members c /\ h ∈ points c0 s
}.

Lemma same_points (c : Consistent) (s : string) : ring_inv c -> points c s = points c0 s.
Proof. intros [_ (Hn & Hh & He) _ _ _]. unfold Consistent.points, Consistent.hashKey, eltKey. by rewrite Hn, Hh, He. Qed.

Lemma reachable_inv (c : Consistent) :
  disjoint_points -> Z.of_nat (base.size U) < 2 ^ 63 -> reachable c -> ring_inv c.
Proof.
  intros Hdis HU. induction 1 as [He Hm Hs Hc|c elt Hreach IH HeU Hnew|c elt Hreach IH Hmem].
  - split; [| |set_solver|by rewrite Hm, size_empty|].
    + unfold ring_sorted. rewrite Hs, He. unfold sorted_keys. rewrite map_to_list_empty. symmetry. apply Permutation_nil. by rewrite sort_perm.
    + done.
    + intros h s. rewrite He, Hm, lookup_empty. split; [done|]. set_solver.
  - pose proof (same_points c elt IH) as Hp. destruct IH as [_ Hpar Hsub Hcnt Hcir].
    assert (Hsz : base.size ({[ elt ]} ∪ members c) = S (base.size (members c))).
    { rewrite size_union by set_solver. by rewrite size_singleton. }
    assert (Hle : (base.size ({[ elt ]} ∪ members c) <= base.size U)%nat) by (apply subseteq_size; set_solver).
    split; [done|done|cbn; set_solver| |].
    + cbn. rewrite Hsz, swrap_id by lia. lia.
    + intros h s. rewrite Add_lookup, Hp. cbn [members Consistent.Add update]. case_decide as Hin.
      * split; [intros [= <-]; set_solver|]. intros [Hs Hh]. f_equal. apply (Hdis _ _ h); [done| |done|done].
        apply elem_of_union in Hs as [->%elem_of_singleton|Hs]; [done|]. by apply Hsub.
      * rewrite Hcir. split; [set_solver|]. intros [[->%elem_of_singleton|Hs]%elem_of_union Hh]; done.
  - pose proof (same_points c elt IH) as Hp. destruct IH as [_ Hpar Hsub Hcnt Hcir].
    assert (Hsz : base.size (members c) = S (base.size (members c ∖ {[ elt ]}))).
    { rewrite (union_difference_L {[ elt ]} (members c)) at 1 by set_solver. rewrite size_union by set_solver. by rewrite size_singleton. }
    assert (Hle : (base.size (members c) <= base.size U)%nat) by (by apply subseteq_size).
    split; [done|done|cbn; set_solver| |].
    + cbn. rewrite swrap_id by lia. lia.
    + intros h s. rewrite Remove_lookup, Hp. cbn [members Consistent.Remove update]. case_decide as Hin.
      * split; [done|]. intros [Hs Hh]. exfalso. enough (s = elt) by set_solver.
        apply (Hdis _ _ h); [set_solver|by apply Hsub|done|done].
      * rewrite Hcir. split; [|set_solver]. intros [Hs Hh]. split; [|done].
        enough (s <> elt) by set_solver. by intros ->.
Qed.

Lemma on_circle_members (c : Consistent) : 0 < NumberOfReplicas c0 -> ring_inv c -> on_circle c = members c.
Proof.
  intros Hrep [_ _ _ _ Hcir]. apply set_eq. intros s. unfold on_circle. rewrite elem_of_list_to_set, list_elem_of_fmap. split.
  - intros ([h s'] & -> & Hin%elem_of_map_to_list). by apply Hcir in Hin as [? _].
  - intros Hs. destruct (points c0 s) as [|h hs] eqn:E.
    { unfold Consistent.points in E. apply fmap_nil_inv in E. assert (length (seq 0 (Z.to_nat (NumberOfReplicas c0))) = 0%nat) by (by rewrite E).
      rewrite length_seq in *. lia. }
    exists (h, s). split; [done|]. apply elem_of_map_to_list, Hcir. split; [done|]. rewrite E. left.
Qed.

Lemma reachable_answers (c : Consistent) (name : string) (n : Z) :
  disjoint_points -> Z.of_nat (base.size U) < 2 ^ 63 -> 0 < NumberOfReplicas c0 -> reachable c ->
  ring_inv c /\
  (members c <> ∅ -> 1 <= n ->
   exists res, GetN c name n = Some (inl res) /\ NoDup res /\ (forall x, x ∈ res -> x ∈ members c) /\
     Z.of_nat (length res) = Z.min n (Z.of_nat (base.size (members c)))).
Proof.
  intros Hdis HU Hrep Hreach. pose proof (reachable_inv c Hdis HU Hreach) as Hinv. split; [done|]. intros Hne Hn.
  pose proof (on_circle_members c Hrep Hinv) as Hon. pose proof Hinv as [Hs _ _ Hc _].
  assert (0 < base.size (members c))%nat by (apply Nat.neq_0_lt_0; intros E; by apply size_empty_inv, leibniz_equiv in E).
  destruct (getN_servers c name n Hs) as (s & res & _ & Hg & Hl & Hnd & Hin); [lia|rewrite Hon; lia|].
  exists (s :: res). split_and!; [done|done|by rewrite <- Hon|]. rewrite Hl, Hc. lia.
Qed.

(** C12: Whatever servers of a deployment whose points do not collide come
    and go, the circle holds exactly the points of the present ones, the
    count is their number, and [GetN] returns as many of them, without
    repetition, as are asked for or present. *)
Theorem ring_reachable (c : Consistent) (name : string) (n : Z) :
  disjoint_points -> Z.of_nat (base.size U) < 2 ^ 63 -> 0 < NumberOfReplicas c0 -> reachable c ->
  ring_inv c /\
  (members c <> ∅ -> 1 <= n ->
   exists res, GetN c name n = Some (inl res) /\ NoDup res /\ (forall x, x ∈ res -> x ∈ members c) /\
     Z.of_nat (length res) = Z.min n (Z.of_nat (base.size (members c)))).
Proof. apply reachable_answers. Qed.

End reachable.

End ring.

(** ** What the ring does at the edges *)

#[local] Existing Instance insertion_GoSort.

(** A small checksum. *)
Fixpoint toy_sum (h : Z) (s : string) : Z :=
  match s with
  | EmptyString => h
  | String a s => toy_sum ((h * 31 + code a) mod 2 ^ 32) s
  end.

Definition toy_hash (_ : HashAlgo) (s : string) : Z := toy_sum 7 s.

(** The loop of [GetN] never ends when it starts at the first point and
    every server has been seen. *)
Lemma getN_loop_stuck (c : Consistent) (n : Z) (fuel i : nat) (res : list string) :
  (1 <= i)%nat -> owners c <> [] -> (forall x, x ∈ owners c -> x ∈ res) -> Z.of_nat (length res) <> n ->
  getN_loop fuel c n 0 i res = None.
Proof.
  intros Hi Hne Hall Hn. revert i Hi. induction fuel as [|fuel IH]; intros i Hi; [done|]. cbn [getN_loop].
  replace (i =? 0)%nat with false by (symmetry; apply Nat.eqb_neq; lia).
  set (i' := if (length (sortedHashes c) <=? i)%nat then 0%nat else i).
  assert (Hlt : (i' < length (owners c))%nat).
  { assert (Hl : length (owners c) = length (sortedHashes c)) by (unfold owners; by rewrite length_fmap).
    unfold i'. destruct (length (sortedHashes c) <=? i)%nat eqn:E; [apply Nat.leb_le in E|apply Nat.leb_gt in E; lia].
    destruct (owners c); [done|simpl; lia]. }
  destruct (lookup_lt_is_Some_2 _ _ Hlt) as [e He]. rewrite at_point_owners, He. cbn [mbind option_bind].
  rewrite bool_decide_true by (apply Hall; by eapply list_elem_of_lookup_2). if_false. apply IH. lia.
Qed.

(** A server that was added twice counts for two: asking for two servers
    can hang. *)
Definition ring_twice : Consistent := Add toy_hash (Add toy_hash (New toy_hash) "a") "a".

Example getN_hangs : forall fuel, GetN_fuel toy_hash fuel ring_twice "a:3" 2 = None.
Proof.
  intros fuel. unfold GetN_fuel.
  rewrite decide_False by (intros E; apply (f_equal base.size) in E; by vm_compute in E).
  replace ((2 =? 1) || (base.size (circle ring_twice) =? 1)%nat) with false by (vm_compute; reflexivity).
  replace (count ring_twice <? 2) with false by (vm_compute; reflexivity).
  replace (search ring_twice (hashKey toy_hash ring_twice "a:3")) with 0%nat by (vm_compute; reflexivity).
  replace (at_point ring_twice 0) with (Some "a"%string) by (vm_compute; reflexivity). cbn [mbind option_bind].
  change (2 <? 0) with false. change (2 =? 1) with false. cbn [Nat.add].
  rewrite getN_loop_stuck; [done|lia|by vm_compute| |done].
  replace (owners ring_twice) with ["a"; "a"; "a"; "a"]%string by (vm_compute; reflexivity). set_solver.
Qed.

(** With fewer points per server the old ones stay, and a server that was
    removed is still answered. *)
Example stale_points :
  let c := Remove toy_hash (SetNumberOfReplicas toy_hash (Add toy_hash (New toy_hash) "a") 1) "a" in
  Members c = [] /\ Get toy_hash c "x" = Some (inl "a"%string).
Proof. split; vm_compute; reflexivity. Qed.

(** When all points collide, removing one server removes the other's. *)
Example collision_removes :
  let hash := fun (_ : HashAlgo) (_ : string) => 5 in
  let c := Remove hash (Add hash (Add hash (New hash) "a") "b") "b" in
  Members c = ["a"%string] /\ Get hash c "x" = Some (inr ErrEmptyCircle).
Proof. split; vm_compute; reflexivity. Qed.

(** ** Witnesses *)

Definition toy_ring : Consistent := Add toy_hash (Add toy_hash (Add toy_hash (New toy_hash) "a") "b") "c".

Lemma ring_get_spec_witness :
  exists s h, Get toy_hash toy_ring "key" = Some (inl s) /\
    succ_point (circle toy_ring) (hashKey toy_hash toy_ring "key") h /\ circle toy_ring !! h = Some s.
Proof.
  destruct (ring_get_spec toy_hash toy_ring "key"
    (match Get toy_hash toy_ring "key" with Some (inl s) => s | _ => ""%string end) eq_refl) as [Hiff _].
  destruct (proj1 Hiff) as (h & Hs & Hc); [vm_compute; reflexivity|]. eexists _, h. split; [|by split]. vm_compute. reflexivity.
Defined.

Lemma ring_add_monotone_witness :
  exists s, Get toy_hash toy_ring "key" = Some (inl s) /\
    (Get toy_hash (Add toy_hash toy_ring "d") "key" = Some (inl s) \/
     Get toy_hash (Add toy_hash toy_ring "d") "key" = Some (inl "d"%string)).
Proof.
  eexists. split; [vm_compute; reflexivity|].
  apply (ring_add_monotone toy_hash toy_ring "d" "key"); [reflexivity|vm_compute; reflexivity].
Defined.

Lemma toy_no_collision : no_collision toy_hash toy_ring "c".
Proof.
  intros h s Hh. assert (Hd : Forall (fun h => circle toy_ring !! h = Some "c"%string) (points toy_hash toy_ring "c")).
  { vm_compute. repeat constructor. }
  rewrite Forall_forall in Hd. rewrite (Hd h Hh). congruence.
Qed.

Lemma ring_remove_monotone_witness :
  exists s, Get toy_hash toy_ring "1" = Some (inl s) /\ s <> "c"%string /\
    Get toy_hash (Remove toy_hash toy_ring "c") "1" = Some (inl s).
Proof.
  exists "a"%string. assert (Hg : Get toy_hash toy_ring "1" = Some (inl "a"%string)) by (vm_compute; reflexivity).
  split_and!; [exact Hg|done|].
  apply (ring_remove_monotone toy_hash toy_ring "c" "1" "a" eq_refl toy_no_collision Hg). done.
Defined.

Lemma ring_getN_servers_witness :
  exists s res, Get toy_hash toy_ring "key" = Some (inl s) /\ GetN toy_hash toy_ring "key" 2 = Some (inl (s :: res)) /\
    length (s :: res) = 2%nat /\ NoDup (s :: res) /\ forall x, x ∈ s :: res -> x ∈ on_circle toy_ring.
Proof.
  apply (ring_getN_servers toy_hash toy_ring "key" 2); [reflexivity|vm_compute; done|].
  apply Nat.leb_le. vm_compute. reflexivity.
Defined.

Definition toy_servers : gset string := {[ "a"; "b"; "c" ]}%string.

Lemma ring_reachable_witness :
  ring_inv toy_hash toy_servers (New toy_hash) toy_ring /\
  exists res, GetN toy_hash toy_ring "key" 5 = Some (inl res) /\ NoDup res /\ length res = 3%nat.
Proof.
  destruct (ring_reachable toy_hash toy_servers (New toy_hash) toy_ring "key" 5) as [Hinv Hn].
  - assert (Hd : Forall (fun s => Forall (fun s' => s = s' \/ Forall (fun h => h ∉ points toy_hash (New toy_hash) s')
      (points toy_hash (New toy_hash) s)) ["a"; "b"; "c"]%string) ["a"; "b"; "c"]%string).
    { apply (bool_decide_unpack _). vm_compute. exact I. }
    intros s s' h Hs Hs' Hh Hh'. rewrite Forall_forall in Hd.
    assert (Hin : forall x, x ∈ toy_servers -> x ∈ ["a"; "b"; "c"]%string) by (unfold toy_servers; set_solver).
    specialize (Hd s (Hin s Hs)). rewrite Forall_forall in Hd. destruct (Hd s' (Hin s' Hs')) as [|Hd']; [done|].
    rewrite Forall_forall in Hd'. by destruct (Hd' h Hh).
  - vm_compute. done.
  - vm_compute. done.
  - apply reach_add; [apply reach_add; [apply reach_add; [by apply reach_empty|..]|..]|..];
      apply (bool_decide_unpack _); vm_compute; exact I.
  - split; [exact Hinv|]. destruct Hn as (res & Hg & Hnd & _ & Hl); [by vm_compute|done|].
    exists res. split; [exact Hg|]. split; [exact Hnd|].
    assert (Hm : base.size (members toy_ring) = 3%nat) by (vm_compute; reflexivity). rewrite Hm in Hl. lia.
Defined.
