(* ===== verification/HasherPool.v ===== *)
(** [hasherpool.go] and [serverpool.go]: the servers behind a hash ring,
    their health checks, and the cache of the servers of a key.

    A URL is its text.  The counters of a server are [expvar] variables
    found by name, so they are kept by name.  The log is left out.  The
    goroutines of a round of checks are run one after the other; a pointer
    to a server is valid until the slice of servers is replaced.

    The servers behind a ring: the cache of answers is never stale, the
    health checks never take a server out, and what the construction and
    the removal of a server leave. *)
From S2P Require Import Prelude Bits GoStrings GoParse GoSort LRU LRUTheorems Aggs Consistent.
From S2P Require Import ConsistentTheorems.

Open Scope Z_scope.

Definition DEFAULT_CACHE_ITEMS : Z := 10000.
Definition DEFAULT_REPLICAS : Z := 4.
Definition DEFAULT_SERVER_OUT_COUNT : Z := 3.
Definition DEFAULT_SERVER_RE_ADD_TICK : Z := DEFAULT_SERVER_OUT_COUNT * 4.

(** [ServerCacheItem] and [MultiServerCacheItem]. *)
Inductive CacheItem := ServerCacheItem (s : string) | MultiServerCacheItem (l : list string).

#[export] Instance CacheItem_Value : Value CacheItem :=
  fun i => match i with
           | ServerCacheItem s => Z.of_nat (String.length s)
           | MultiServerCacheItem l => Z.of_nat (length l)
           end.

(** What the hasher asks of its cache: a memo that can be emptied. *)
Class HasherCache (C : Type) := {
  hc_memo :: MemoCache C CacheItem;
  hc_clear : C -> C;
  hc_clear_ok : forall P P' c, memo_ok P c -> memo_ok P' (hc_clear c)
}.

#[export] Instance lru_HasherCache : HasherCache (LRUCache CacheItem).
Proof.
  refine {| hc_memo := lru_MemoCache; hc_clear := Clear |}.
  intros P P' c (l & Hr & _). exists []. split; [by apply (Clear_refines c l)|constructor].
Defined.

(** ** The pool of servers *)

Record ServerPoolServer := mkServer {
  sv_Name : string;
  sv_CheckName : string
}.

Record Counters := mkCounters {
  PingCounts : Z;
  UpCounts : Z;
  DownCounts : Z;
  CurrentDownCounts : Z
}.

Definition zero_counters : Counters := mkCounters 0 0 0 0.

Record CheckedServerPool := mkPool {
  ServerList : list string;
  Servers : list ServerPoolServer;
  DroppedServers : list ServerPoolServer;
  AllPingCounts : Z;
  counters : gmap string Counters;
  DownPolicy : string;
  DownOutCount : Z;
  DoChecks : bool
}.

Definition ServerNames (p : CheckedServerPool) : list string := sv_Name <$> Servers p.

Definition isDown (p : CheckedServerPool) (server : string) : bool :=
  bool_decide (server ∈ sv_Name <$> DroppedServers p).

Definition with_servers (p : CheckedServerPool) (servers dropped : list ServerPoolServer) (cs : gmap string Counters)
    : CheckedServerPool :=
  mkPool (ServerList p) servers dropped (AllPingCounts p) cs (DownPolicy p) (DownOutCount p) (DoChecks p).

Definition with_list (p : CheckedServerPool) (l : list string) : CheckedServerPool :=
  mkPool l (Servers p) (DroppedServers p) (AllPingCounts p) (counters p) (DownPolicy p) (DownOutCount p) (DoChecks p).

Definition upd_counter (f : Counters -> Counters) (name : string) (cs : gmap string Counters) : gmap string Counters :=
  <[name := f (default zero_counters (cs !! name))]> cs.

Definition set_current (n : Z) (c : Counters) : Counters := mkCounters (PingCounts c) (UpCounts c) (DownCounts c) n.

Section hasher.
Context `{!GoSort} (Hash : HashAlgo -> string -> Z).
Context {C : Type} {HC : HasherCache C}.

Record ConstHasher := mkHasher {
  Hasher : Consistent;
  HashKeyToServer : gmap string string;
  ServerToHashkey : gmap string string;
  Cache : C;
  ServerPool : CheckedServerPool
}.

Definition with_pool (h : ConstHasher) (p : CheckedServerPool) : ConstHasher :=
  mkHasher (Hasher h) (HashKeyToServer h) (ServerToHashkey h) (Cache h) p.

Definition with_cache (h : ConstHasher) (c : C) : ConstHasher :=
  mkHasher (Hasher h) (HashKeyToServer h) (ServerToHashkey h) c (ServerPool h).

(** A missing key gives the empty string. *)
Definition go_lookup (m : gmap string string) (k : string) : string := default ""%string (m !! k).

(** [onServerUp] and [onServerDown]: the ring changes and the cache is
    emptied. *)
Definition onServerUp (h : ConstHasher) (server : string) : ConstHasher :=
  mkHasher (Add Hash (Hasher h) (go_lookup (ServerToHashkey h) server)) (HashKeyToServer h) (ServerToHashkey h)
           (hc_clear (Cache h)) (ServerPool h).

Definition onServerDown (h : ConstHasher) (server : string) : ConstHasher :=
  mkHasher (Remove Hash (Hasher h) (go_lookup (ServerToHashkey h) server)) (HashKeyToServer h) (ServerToHashkey h)
           (hc_clear (Cache h)) (ServerPool h).

(** ** The pool's operations *)

(** [AddServer] of the pool; the counters start at zero unless there are
    some under the name. *)
Definition pool_AddServer (h : ConstHasher) (serverUrl checkUrl : string) : ConstHasher :=
  let h := onServerUp h serverUrl in
  let p := ServerPool h in
  with_pool h (with_servers p (Servers p ++ [mkServer serverUrl checkUrl]) (DroppedServers p)
                 (<[serverUrl := default zero_counters (counters p !! serverUrl)]> (counters p))).

Fixpoint reAdd_loop (h : ConstHasher) (new_s dropped : list ServerPoolServer) : ConstHasher * list ServerPoolServer :=
  match dropped with
  | [] => (h, new_s)
  | srv :: dropped =>
      let h := if bool_decide (DownPolicy (ServerPool h) = "remove_node"%string) then onServerUp h (sv_Name srv) else h in
      let p := ServerPool h in
      let h := with_pool h (with_servers p (Servers p) (DroppedServers p) (upd_counter (set_current 0) (sv_Name srv) (counters p))) in
      reAdd_loop h (new_s ++ [srv]) dropped
  end.

Definition reAddAllDroppedServers (h : ConstHasher) : ConstHasher :=
  let p := ServerPool h in
  let '(h, new_s) := reAdd_loop h (Servers p) (DroppedServers p) in
  with_pool h (with_servers (ServerPool h) new_s [] (counters (ServerPool h))).

(** The loop of [PurgeServer]: the servers that stay.  [same] says which of
    the servers have a [url.URL] that is equal, as a struct, to the one to be
    purged; such URLs print alike, but two that print alike need not be
    equal. *)
Fixpoint purge_loop (h : ConstHasher) (same : ServerPoolServer -> bool) (servers new_s : list ServerPoolServer) (did : bool)
    : ConstHasher * list ServerPoolServer * bool :=
  match servers with
  | [] => (h, new_s, did)
  | serv :: servers =>
      if same serv then purge_loop (onServerDown h (sv_Name serv)) same servers new_s true
      else purge_loop h same servers (new_s ++ [serv]) did
  end.

(** [PurgeServer] of the pool.  The new list holds the address of the loop
    variable once per server that stays, so all its entries are the URL of
    the last server visited. *)
Definition pool_PurgeServer (h : ConstHasher) (same : ServerPoolServer -> bool) : ConstHasher * bool :=
  let servers := Servers (ServerPool h) in
  let '(h, new_s, did) := purge_loop h same servers [] false in
  let p := ServerPool h in
  let visited := match last servers with Some srv => sv_Name srv | None => ""%string end in
  (with_pool h (with_list (with_servers p new_s (DroppedServers p) (counters p)) (replicate (length new_s) visited)), did).

(** [dropServer]: the pointer is compared with the addresses of the
    current slice; [None] points into one that was replaced. *)
Fixpoint drop_loop (h : ConstHasher) (ptr : option nat) (idx : nat) (servers new_s : list ServerPoolServer)
    : ConstHasher * list ServerPoolServer :=
  match servers with
  | [] => (h, new_s)
  | srv :: servers =>
      if bool_decide (ptr = Some idx) then
        let p := ServerPool h in
        let h := with_pool h (with_servers p (Servers p) (DroppedServers p ++ [srv]) (counters p)) in
        let h := if bool_decide (DownPolicy p = "remove_node"%string) then onServerDown h (sv_Name srv) else h in
        drop_loop h ptr (S idx) servers new_s
      else drop_loop h ptr (S idx) servers (new_s ++ [srv])
  end.

Definition dropServer (h : ConstHasher) (ptr : option nat) : ConstHasher :=
  let '(h, new_s) := drop_loop h ptr 0 (Servers (ServerPool h)) [] in
  with_pool h (with_servers (ServerPool h) new_s (DroppedServers (ServerPool h)) (counters (ServerPool h))).

(** [testUp] and [gotTestResponse] of one server: what the connection
    answered, and whether a server was dropped. *)
Definition test_server (h : ConstHasher) (ptr : option nat) (name : string) (up : bool) : ConstHasher * bool :=
  let bump f h := let p := ServerPool h in
                  with_pool h (with_servers p (Servers p) (DroppedServers p) (upd_counter f name (counters p))) in
  let h := bump (fun c => mkCounters (i64 (PingCounts c + 1)) (UpCounts c) (DownCounts c) (CurrentDownCounts c)) h in
  if up then
    (bump (fun c => mkCounters (PingCounts c) (i64 (UpCounts c + 0)) (DownCounts c) 0) h, false)
  else
    let p := ServerPool h in
    let cur := CurrentDownCounts (default zero_counters (counters p !! name)) in
    let out := (DownOutCount p >? 0) && (i64 (cur + 1) >? DownOutCount p) in
    let h := if out then dropServer h ptr else h in
    (bump (fun c => mkCounters (PingCounts c) (UpCounts c) (i64 (DownCounts c + 0)) (i64 (CurrentDownCounts c + 0))) h, out).

(** One round over the servers of the slice at its start. *)
Fixpoint test_servers (h : ConstHasher) (fresh : bool) (idx : nat) (servers : list ServerPoolServer) (ups : list bool) : ConstHasher :=
  match servers with
  | [] => h
  | srv :: servers =>
      let ptr := if fresh then Some idx else None in
      let '(h, dropped) := test_server h ptr (sv_Name srv) (default true (head ups)) in
      test_servers h (fresh && negb dropped) (S idx) servers (tail ups)
  end.

(** One tick of [testConnections]. *)
Definition check_tick (h : ConstHasher) (ups : list bool) : ConstHasher :=
  if DoChecks (ServerPool h) then
    let h := test_servers h true 0 (Servers (ServerPool h)) ups in
    let p := ServerPool h in
    let h := with_pool h (mkPool (ServerList p) (Servers p) (DroppedServers p) (i64 (AllPingCounts p + 1)) (counters p)
                                 (DownPolicy p) (DownOutCount p) (DoChecks p)) in
    let p := ServerPool h in
    if (Z.rem (AllPingCounts p) DEFAULT_SERVER_RE_ADD_TICK =? 0) && (0 <? length (DroppedServers p))%nat
    then reAddAllDroppedServers h else h
  else h.

(** ** The hasher's operations *)

Definition AddServer (h : ConstHasher) (serverUrl checkUrl hashkey : string) : ConstHasher :=
  match ServerToHashkey h !! serverUrl with
  | Some _ => h
  | None =>
      let h := mkHasher (Hasher h) (<[hashkey := serverUrl]> (HashKeyToServer h))
                        (<[serverUrl := hashkey]> (ServerToHashkey h)) (Cache h) (ServerPool h) in
      pool_AddServer h serverUrl checkUrl
  end.

(** The URL to be purged as it prints, and which servers have an equal
    one. *)
Definition PurgeServer (h : ConstHasher) (serverUrl : string) (same : ServerPoolServer -> bool) : ConstHasher * bool :=
  match ServerToHashkey h !! serverUrl with
  | None => (h, false)
  | Some _ =>
      let '(h, _) := pool_PurgeServer h same in
      let hashkey := go_lookup (ServerToHashkey h) serverUrl in
      (mkHasher (Hasher h) (delete hashkey (HashKeyToServer h)) (delete serverUrl (ServerToHashkey h)) (Cache h)
                (ServerPool h), true)
  end.

(** The key of a cached list: the key, a colon and the number in two
    bytes. *)
Definition cache_key (in_key : string) (num : Z) : string :=
  in_key +:+ ":" +:+ String (Ascii.ascii_of_N (Z.to_N (num mod 256)))
                            (String (Ascii.ascii_of_N (Z.to_N ((num / 256) mod 256))) "").

(** [None] is the panic of a type assertion. *)
Definition hasher_Get (h : ConstHasher) (now : Z) (in_key : string) : option (string * option goerror * ConstHasher) :=
  '(srv, c) ← memo_get (Cache h) in_key now;
  match srv with
  | Some (ServerCacheItem s) => Some (s, None, with_cache h c)
  | Some (MultiServerCacheItem _) => None
  | None =>
      r ← Get Hash (Hasher h) in_key;
      let '(r_srv, err) := match r with inl s => (s, None) | inr e => (""%string, Some e) end in
      let real_server := go_lookup (HashKeyToServer h) r_srv in
      c ← memo_set c in_key (ServerCacheItem real_server) now;
      Some (real_server, err, with_cache h c)
  end.

Definition hasher_GetN (h : ConstHasher) (now : Z) (in_key : string) (num : Z)
    : option (list string * option goerror * ConstHasher) :=
  let ck := cache_key in_key (wrap 16 num) in
  '(srv, c) ← memo_get (Cache h) ck now;
  match srv with
  | Some (MultiServerCacheItem l) => Some (l, None, with_cache h c)
  | Some (ServerCacheItem _) => None
  | None =>
      r ← GetN Hash (Hasher h) in_key num;
      let '(srvs, err) := match r with inl l => (l, None) | inr e => ([], Some e) end in
      let real_servers := go_lookup (HashKeyToServer h) <$> srvs in
      c ← memo_set c ck (MultiServerCacheItem real_servers) now;
      Some (real_servers, err, with_cache h c)
  end.

(** [Members], [OriginalMembers], [DroppedServers] and
    [CheckingServers]. *)
Definition hasher_Members (h : ConstHasher) : list string := Members (Hasher h).
Definition OriginalMembers (h : ConstHasher) : list string := ServerNames (ServerPool h).
Definition hasher_DroppedServers (h : ConstHasher) : list string := sv_Name <$> DroppedServers (ServerPool h).
Definition CheckingServers (h : ConstHasher) : list string := sv_CheckName <$> Servers (ServerPool h).

(** ** Construction *)

Record HasherConfig := mkHasherConfig {
  cfg_HashAlgo : string;
  cfg_HashElter : string;
  cfg_HashVNodes : Z;
  cfg_CacheItems : Z;
  cfg_MaxFail : Z;
  cfg_DownPolicy : string
}.

Definition or_default (s d : string) : string := if (0 <? String.length s)%nat then s else d.

(** The servers are added while the pool is made; a check URL that is
    missing is an index out of range. *)
Fixpoint add_all (h : ConstHasher) (servers checks : list string) : option ConstHasher :=
  match servers, checks with
  | [], _ => Some h
  | _ :: _, [] => None
  | s :: servers, ck :: checks => add_all (pool_AddServer h s ck) servers checks
  end.

Definition CreateConstHasherFromConfig (new_cache : Z -> C) (cfg : HasherConfig) (hashkeyToServer : gmap string string)
    (serverUrls checkUrls : list string) : option ConstHasher :=
  let ring := SetNumberOfReplicas Hash (New Hash) (if cfg_HashVNodes cfg >=? 0 then cfg_HashVNodes cfg else DEFAULT_REPLICAS) in
  let ring := SetHasherByName Hash ring (or_default (cfg_HashAlgo cfg) "crc32") in
  let ring := SetElterByName Hash ring (or_default (cfg_HashElter cfg) "graphite") in
  let cache := new_cache (if cfg_CacheItems cfg <=? 0 then DEFAULT_CACHE_ITEMS else cfg_CacheItems cfg) in
  let flip := foldl (fun m kv => <[kv.2 := kv.1]> m) ∅ (map_to_list hashkeyToServer) in
  let pool := mkPool serverUrls [] [] 0 ∅ "" DEFAULT_SERVER_OUT_COUNT true in
  h ← add_all (mkHasher ring hashkeyToServer flip cache pool) serverUrls checkUrls;
  let p := ServerPool h in
  Some (with_pool h (mkPool (ServerList p) (Servers p) (DroppedServers p) (AllPingCounts p) (counters p) (cfg_DownPolicy cfg)
                            (i64 (cfg_MaxFail cfg)) true)).

End hasher.

(** ** Theorems *)

(** ** Keys of the cache *)

Definition nul : Ascii.ascii := Ascii.ascii_of_N 0.

Lemma string_app_inj_r (a b s t : string) :
  a +:+ s = b +:+ t -> String.length s = String.length t -> a = b /\ s = t.
Proof.
  revert b. induction a as [|x a IH]; intros [|y b] E Hl.
  - done.
  - rewrite string_app_nil_l in E. subst s. rewrite !string_app_cons in Hl. cbn [String.length] in Hl. rewrite string_length_app in Hl. lia.
  - rewrite string_app_nil_l in E. subst t. rewrite !string_app_cons in Hl. cbn [String.length] in Hl. rewrite string_length_app in Hl. lia.
  - rewrite !string_app_cons in E. injection E as -> E. destruct (IH b E Hl) as [-> ->]. done.
Qed.

(** A number of replicas that fits a byte. *)
Definition small (num : Z) : Prop := 0 <= num < 256.

Lemma cache_key_small (k : string) (num : Z) :
  small num -> cache_key k (wrap 16 num) = k +:+ String (Ascii.ascii_of_N 58) (String (Ascii.ascii_of_N (Z.to_N num)) (String nul "")).
Proof.
  intros Hn. unfold small in Hn. unfold cache_key. rewrite wrap_id by (unfold in_width; lia).
  rewrite Z.mod_small, (Z.div_small num 256) by lia. reflexivity.
Qed.

Lemma cache_key_inj (k k' : string) (num num' : Z) :
  small num -> small num' -> cache_key k (wrap 16 num) = cache_key k' (wrap 16 num') -> k = k' /\ num = num'.
Proof.
  intros Hn Hn'. rewrite !cache_key_small by done. intros E. apply string_app_inj_r in E as [-> E]; [|done].
  injection E as E. apply (f_equal Ascii.N_of_ascii) in E. unfold small in *. rewrite !Ascii.N_ascii_embedding in E by lia. split; [done|lia].
Qed.

Lemma cache_key_nul (k : string) (num : Z) : small num -> no_char nul (cache_key k (wrap 16 num)) = false.
Proof.
  intros Hn. rewrite cache_key_small by done. rewrite no_char_app. cbn [no_char].
  rewrite (bool_decide_true (nul = nul)) by done. by rewrite !andb_false_r.
Qed.

Section hasher.
Context `{!GoSort} (Hash : HashAlgo -> string -> Z).
Context {C : Type} {HC : HasherCache C}.

Abbreviation ConstHasher := (ConstHasher (C := C)).

(** ** Answers without the cache *)

Definition one_server (h : ConstHasher) (key : string) : string :=
  go_lookup (HashKeyToServer h) (match Get Hash (Hasher h) key with Some (inl s) => s | _ => ""%string end).

Definition some_servers (h : ConstHasher) (r : list string + goerror) : list string :=
  go_lookup (HashKeyToServer h) <$> (match r with inl l => l | inr _ => [] end).

Definition entry_ok (h : ConstHasher) (k : string) (i : CacheItem) : Prop :=
  match i with
  | ServerCacheItem s => no_char nul k = true /\ s = one_server h k
  | MultiServerCacheItem l =>
      exists in_key num r, small num /\ k = cache_key in_key (wrap 16 num) /\
        GetN Hash (Hasher h) in_key num = Some r /\ l = some_servers h r
  end.

(** No failed check has been counted. *)
Definition no_downs (p : CheckedServerPool) : Prop := map_Forall (fun _ c => CurrentDownCounts c = 0) (counters p).

Record hasher_inv (h : ConstHasher) : Prop := {
  hi_cache : memo_ok (entry_ok h) (Cache h);
  hi_ring : ring_sorted (Hasher h);
  hi_downs : no_downs (ServerPool h);
  hi_dropped : DroppedServers (ServerPool h) = []
}.

Lemma hasher_Get_ok (h : ConstHasher) (now : Z) (key : string) :
  hasher_inv h -> no_char nul key = true ->
  exists err h', hasher_Get Hash h now key = Some (one_server h key, err, h') /\ hasher_inv h' /\
    (err = None \/ circle (Hasher h) = ∅).
Proof.
  intros [Hc Hr Hd Hdr] Hk. unfold hasher_Get. destruct (memo_get_ok (entry_ok h) (Cache h) key now Hc) as (v & c & -> & Hc' & Hv).
  cbn [mbind option_bind]. destruct v as [[s|l]|].
  - destruct (Hv _ eq_refl) as [_ ->]. exists None, (with_cache h c). split_and!; [done|by split|by left].
  - destruct (Hv _ eq_refl) as (k' & num & r & Hn & -> & _). by rewrite cache_key_nul in Hk.
  - assert (Hget : exists r, Get Hash (Hasher h) key = Some r /\ (circle (Hasher h) = ∅ \/ exists s, r = inl s)).
    { destruct (decide (circle (Hasher h) = ∅)) as [He|Hne].
      - eexists. unfold Get. rewrite decide_True by done. eauto.
      - destruct (Get_owner Hash (Hasher h) key Hr Hne) as (hh & s & _ & _ & E). eauto. }
    destruct Hget as (r & Hget & Hcase). rewrite Hget. cbn [mbind option_bind].
    destruct (memo_set_ok (entry_ok h) c key (ServerCacheItem (one_server h key)) now Hc') as (c2 & Ec2 & Hc2); [done|].
    assert (Hone : one_server h key = go_lookup (HashKeyToServer h) (match r with inl s => s | inr _ => ""%string end)).
    { unfold one_server. by rewrite Hget. }
    destruct r as [s|e]; rewrite <- Hone, Ec2; cbn [mbind option_bind]; eexists _, (with_cache h c2).
    + split_and!; [done|by split|by left].
    + split_and!; [done|by split|right]. by destruct Hcase as [|[s Hs]].
Qed.

Lemma hasher_GetN_ok (h : ConstHasher) (now : Z) (key : string) (num : Z) (r : list string + goerror) :
  hasher_inv h -> small num -> GetN Hash (Hasher h) key num = Some r ->
  exists err h', hasher_GetN Hash h now key num = Some (some_servers h r, err, h') /\ hasher_inv h'.
Proof.
  intros [Hc Hrs Hd Hdr] Hn Hg. unfold hasher_GetN. set (ck := cache_key key (wrap 16 num)).
  destruct (memo_get_ok (entry_ok h) (Cache h) ck now Hc) as (v & c & -> & Hc' & Hv).
  cbn [mbind option_bind]. destruct v as [[s|l]|].
  - destruct (Hv _ eq_refl) as [Hnul _]. unfold ck in Hnul. by rewrite cache_key_nul in Hnul.
  - destruct (Hv _ eq_refl) as (k' & num' & r' & Hn' & Hck & Hg' & ->).
    apply cache_key_inj in Hck as [<- <-]; [|done|done]. rewrite Hg in Hg'. simplify_eq.
    exists None, (with_cache h c). split; [done|by split].
  - rewrite Hg. cbn [mbind option_bind].
    destruct (memo_set_ok (entry_ok h) c ck (MultiServerCacheItem (some_servers h r)) now Hc') as (c2 & Ec2 & Hc2).
    { exists key, num, r. done. }
    destruct r as [l|e].
    + unfold some_servers in *. rewrite Ec2. cbn [mbind option_bind]. eexists _, (with_cache h c2). split; [done|by split].
    + unfold some_servers in *. cbn [fmap list_fmap] in *. rewrite Ec2. cbn [mbind option_bind]. eexists _, (with_cache h c2). split; [done|by split].
Qed.

(** ** Changes of the ring *)

Lemma onServerUp_inv (h : ConstHasher) (s : string) : hasher_inv h -> hasher_inv (onServerUp Hash h s).
Proof. intros [Hc Hr Hd Hdr]. split; [by eapply hc_clear_ok|done|done|done]. Qed.

Lemma onServerDown_inv (h : ConstHasher) (s : string) : hasher_inv h -> hasher_inv (onServerDown Hash h s).
Proof. intros [Hc Hr Hd Hdr]. split; [by eapply hc_clear_ok|done|done|done]. Qed.

(** The cache is empty: it satisfies any invariant. *)
Definition cache_empty (h : ConstHasher) : Prop := forall P, memo_ok P (Cache h).

Lemma pool_AddServer_inv (h : ConstHasher) (s ck : string) : hasher_inv h -> hasher_inv (pool_AddServer Hash h s ck).
Proof.
  intros [Hc Hr Hd Hdr]. split; [by eapply hc_clear_ok|done| |done].
  cbn. apply map_Forall_insert_2; [|done]. destruct (counters (ServerPool h) !! s) as [c|] eqn:E; [|done]. exact (Hd s c E).
Qed.

Lemma AddServer_inv (h : ConstHasher) (s ck hk : string) : hasher_inv h -> hasher_inv (AddServer Hash h s ck hk).
Proof.
  intros Hi. unfold AddServer. destruct (ServerToHashkey h !! s); [done|]. destruct Hi as [Hc Hr Hd Hdr].
  split; [by eapply hc_clear_ok|done| |done]. cbn. apply map_Forall_insert_2; [|done].
  destruct (counters (ServerPool h) !! s) as [c|] eqn:E; [|done]. exact (Hd s c E).
Qed.

Lemma purge_loop_spec (servers new_s : list ServerPoolServer) (h : ConstHasher) (same : ServerPoolServer -> bool) (did : bool) :
  ring_sorted (Hasher h) -> (exists P, memo_ok P (Cache h)) ->
  let '(h', new_s', did') := purge_loop Hash h same servers new_s did in
  new_s' = new_s ++ filter (fun srv => same srv = false) servers /\
  ServerPool h' = ServerPool h /\ HashKeyToServer h' = HashKeyToServer h /\ ServerToHashkey h' = ServerToHashkey h /\
  ring_sorted (Hasher h') /\ (exists P, memo_ok P (Cache h')) /\
  (existsb same servers = true -> cache_empty h') /\ (cache_empty h -> cache_empty h').
Proof.
  revert new_s h did. induction servers as [|srv servers IH]; intros new_s h did Hr HP; cbn [purge_loop].
  { rewrite app_nil_r. by split_and!. }
  cbn [existsb]. destruct (same srv) eqn:E.
  - specialize (IH new_s (onServerDown Hash h (sv_Name srv)) true eq_refl).
    destruct HP as [P HP]. assert (Hempty : cache_empty (onServerDown Hash h (sv_Name srv))) by (intros P'; by eapply hc_clear_ok).
    destruct (purge_loop _ _ _ _ _ _) as [[h' new_s'] did']. destruct (IH (ex_intro _ P (Hempty P))) as (Hn & Hp & Hk & Hs & Hr' & HP' & Hin & Hce).
    rewrite filter_cons_False by congruence. split_and!; try done; intros _; by apply Hce.
  - specialize (IH (new_s ++ [srv]) h did Hr HP).
    destruct (purge_loop _ _ _ _ _ _) as [[h' new_s'] did']. destruct IH as (Hn & Hp & Hk & Hs & Hr' & HP' & Hin & Hce).
    rewrite filter_cons_True by done. rewrite <- app_assoc in Hn. by split_and!.
Qed.

(** A server that is in the pool can be purged. *)
Lemma PurgeServer_inv (h : ConstHasher) (url : string) (same : ServerPoolServer -> bool) :
  hasher_inv h -> existsb same (Servers (ServerPool h)) = true -> hasher_inv (PurgeServer Hash h url same).1.
Proof.
  intros Hi Hin. unfold PurgeServer. destruct (ServerToHashkey h !! url); [|done]. unfold pool_PurgeServer.
  pose proof (purge_loop_spec (Servers (ServerPool h)) [] h same false (hi_ring _ Hi) (ex_intro (fun P => memo_ok P (Cache h)) _ (hi_cache _ Hi))) as Hp.
  destruct (purge_loop _ _ _ _ _ _) as [[h' new_s] did]. destruct Hp as (_ & Hpool & _ & _ & Hr & _ & Hempty & _).
  destruct Hi as [_ _ Hd Hdr]. split; cbn; [by apply Hempty|done|unfold no_downs; cbn; by rewrite Hpool|by rewrite Hpool].
Qed.

(** ** Health checks *)

(** Everything but the counters is as before. *)
Definition checked_only (h h' : ConstHasher) : Prop :=
  Hasher h' = Hasher h /\ HashKeyToServer h' = HashKeyToServer h /\ ServerToHashkey h' = ServerToHashkey h /\ Cache h' = Cache h /\
  Servers (ServerPool h') = Servers (ServerPool h) /\ DroppedServers (ServerPool h') = DroppedServers (ServerPool h) /\
  ServerList (ServerPool h') = ServerList (ServerPool h) /\ DownOutCount (ServerPool h') = DownOutCount (ServerPool h) /\
  DownPolicy (ServerPool h') = DownPolicy (ServerPool h).

Lemma upd_no_downs (f : Counters -> Counters) (name : string) (p : CheckedServerPool) :
  no_downs p -> (forall c, CurrentDownCounts c = 0 -> CurrentDownCounts (f c) = 0) ->
  map_Forall (fun _ c => CurrentDownCounts c = 0) (upd_counter f name (counters p)).
Proof.
  intros Hd Hf. apply map_Forall_insert_2; [|done]. apply Hf. destruct (counters p !! name) as [c|] eqn:E; [|done]. exact (Hd name c E).
Qed.

Lemma test_server_never_drops (h : ConstHasher) (ptr : option nat) (name : string) (up : bool) :
  no_downs (ServerPool h) ->
  let '(h', dropped) := test_server Hash h ptr name up in
  dropped = false /\ checked_only h h' /\ no_downs (ServerPool h').
Proof.
  intros Hd. unfold test_server. set (h1 := with_pool h _).
  assert (Hd1 : no_downs (ServerPool h1)) by (by apply upd_no_downs).
  assert (Hc1 : checked_only h h1) by done. clearbody h1. destruct up.
  - split_and!; [done|done|]. by apply upd_no_downs.
  - assert (Hcur : CurrentDownCounts (default zero_counters (counters (ServerPool h1) !! name)) = 0).
    { destruct (counters (ServerPool h1) !! name) as [c|] eqn:E; [|done]. exact (Hd1 name c E). }
    rewrite Hcur. replace ((DownOutCount (ServerPool h1) >? 0) && (i64 (0 + 1) >? DownOutCount (ServerPool h1))) with false.
    + split_and!; [done|done|]. apply upd_no_downs; [done|]. intros c ->. reflexivity.
    + change (i64 (0 + 1)) with 1. symmetry. destruct (DownOutCount (ServerPool h1) >? 0) eqn:E; [|done]. cbn [andb]. bool_to_prop. bool_lia.
Qed.

Lemma checked_only_trans (h1 h2 h3 : ConstHasher) : checked_only h1 h2 -> checked_only h2 h3 -> checked_only h1 h3.
Proof. unfold checked_only. intuition congruence. Qed.

Lemma test_servers_never_drop (servers : list ServerPoolServer) (h : ConstHasher) (fresh : bool) (idx : nat) (ups : list bool) :
  no_downs (ServerPool h) ->
  checked_only h (test_servers Hash h fresh idx servers ups) /\ no_downs (ServerPool (test_servers Hash h fresh idx servers ups)).
Proof.
  revert h fresh idx ups. induction servers as [|srv servers IH]; intros h fresh idx ups Hd; cbn [test_servers]; [done|].
  pose proof (test_server_never_drops h (if fresh then Some idx else None) (sv_Name srv) (default true (head ups)) Hd) as Ht.
  destruct (test_server _ _ _ _ _) as [h' dropped]. destruct Ht as (_ & Hc & Hd').
  destruct (IH h' (fresh && negb dropped) (S idx) (tail ups) Hd') as [Hc' Hd2]. split; [by eapply checked_only_trans|done].
Qed.

Lemma check_tick_never_drops (h : ConstHasher) (ups : list bool) :
  no_downs (ServerPool h) -> DroppedServers (ServerPool h) = [] ->
  checked_only h (check_tick Hash h ups) /\ no_downs (ServerPool (check_tick Hash h ups)).
Proof.
  intros Hd Hdr. unfold check_tick. destruct (DoChecks (ServerPool h)); [|done].
  destruct (test_servers_never_drop (Servers (ServerPool h)) h true 0 ups Hd) as [Hc Hd'].
  set (h1 := test_servers _ _ _ _ _ _) in *.
  assert (Hdr1 : DroppedServers (ServerPool h1) = []) by (destruct Hc as (_ & _ & _ & _ & _ & -> & _); done).
  cbn [ServerPool with_pool DroppedServers]. rewrite Hdr1. cbn [length Nat.ltb Nat.leb]. rewrite andb_false_r.
  split; [|exact Hd']. eapply checked_only_trans; [exact Hc|]. done.
Qed.

(** The health checks never take a server out of the pool or of the
    ring, whatever the connections answer and however many fail is too
    many: a failed check adds zero to the count that is compared. *)
Theorem health_checks_never_drop (h : ConstHasher) (rounds : list (list bool)) :
  no_downs (ServerPool h) -> DroppedServers (ServerPool h) = [] ->
  let h' := foldl (check_tick Hash) h rounds in
  Servers (ServerPool h') = Servers (ServerPool h) /\ DroppedServers (ServerPool h') = [] /\ Hasher h' = Hasher h.
Proof.
  intros Hd Hdr. assert (Hall : checked_only h (foldl (check_tick Hash) h rounds)).
  { revert h Hd Hdr. induction rounds as [|ups rounds IH]; intros h Hd Hdr; [done|]. cbn [foldl].
    destruct (check_tick_never_drops h ups Hd Hdr) as [Hc Hd']. eapply checked_only_trans; [exact Hc|].
    apply IH; [done|]. destruct Hc as (_ & _ & _ & _ & _ & -> & _). done. }
  destruct Hall as (Hh & _ & _ & _ & Hs & Hdr' & _). cbn zeta. by rewrite Hh, Hs, Hdr'.
Qed.

(** ** Histories *)

(** The states of a hasher from a good one: metric keys have no null byte,
    fewer than 256 replicas are asked for, of which the ring answers, and a
    server is purged when the pool has its URL. *)
Inductive hreach : ConstHasher -> Prop :=
| hr_init h : hasher_inv h -> hreach h
| hr_get h now key s err h' : hreach h -> no_char nul key = true -> hasher_Get Hash h now key = Some (s, err, h') -> hreach h'
| hr_getN h now key num l err h' :
    hreach h -> small num -> GetN Hash (Hasher h) key num <> None -> hasher_GetN Hash h now key num = Some (l, err, h') -> hreach h'
| hr_add h url ck hk : hreach h -> hreach (AddServer Hash h url ck hk)
| hr_purge h url same :
    hreach h -> existsb same (Servers (ServerPool h)) = true -> hreach (PurgeServer Hash h url same).1
| hr_tick h ups : hreach h -> hreach (check_tick Hash h ups).

Lemma hreach_inv (h : ConstHasher) : hreach h -> hasher_inv h.
Proof.
  induction 1 as [h Hi|h now key s err h' Hr IH Hk E|h now key num l err h' Hr IH Hn Hg E|h url ck hk Hr IH|h url same Hr IH Hin|h ups Hr IH].
  - done.
  - destruct (hasher_Get_ok h now key IH Hk) as (err' & h2 & E' & Hi & _). congruence.
  - destruct (GetN Hash (Hasher h) key num) as [r|] eqn:Eg; [|done].
    destruct (hasher_GetN_ok h now key num r IH Hn Eg) as (err' & h2 & E' & Hi). congruence.
  - by apply AddServer_inv.
  - by apply PurgeServer_inv.
  - destruct IH as [Hc Hrs Hd Hdr]. destruct (check_tick_never_drops h ups Hd Hdr) as [Hco Hd'].
    destruct Hco as (Hh & Hk & Hs & Hca & _ & Hdr' & _). split; [|by unfold ring_sorted; rewrite Hh|done|by rewrite Hdr'].
    assert (Hone : entry_ok (check_tick Hash h ups) = entry_ok h) by (unfold entry_ok, one_server, some_servers; by rewrite Hh, Hk).
    by rewrite Hone, Hca.
Qed.

(** C14: The cache does not go stale.  Start from a hasher whose ring is
    sorted, whose cached answers are the ring's, and that counts no server
    as down or dropped, and take any history of lookups of keys
    without a null byte, of lookups of fewer than 256 servers that the ring
    answers, of servers added, of servers purged whose URL the pool has, and
    of health checks.  Then the lookup of a key without a null byte returns
    the server that the ring and the table of names give for it now, and the
    lookup of fewer than 256 servers those that they give, when the ring
    answers; neither panics. *)
Theorem hasher_cache_current (h : ConstHasher) (now : Z) (key : string) :
  hreach h ->
  (no_char nul key = true -> exists err h', hasher_Get Hash h now key = Some (one_server h key, err, h') /\
     (err <> None -> circle (Hasher h) = ∅)) /\
  (forall num r, small num -> GetN Hash (Hasher h) key num = Some r ->
     exists err h', hasher_GetN Hash h now key num = Some (some_servers h r, err, h')).
Proof.
  intros Hr. apply hreach_inv in Hr. split.
  - intros Hk. destruct (hasher_Get_ok h now key Hr Hk) as (err & h' & E & _ & He). exists err, h'. split; [done|].
    intros Hne. by destruct He.
  - intros num r Hn Hg. destruct (hasher_GetN_ok h now key num r Hr Hn Hg) as (err & h' & E & _). eauto.
Qed.

(** ** Construction *)

Lemma add_all_spec (urls checks : list string) (h : ConstHasher) :
  hasher_inv h -> (length urls <= length checks)%nat ->
  exists h', add_all Hash h urls checks = Some h' /\ hasher_inv h' /\
    ServerNames (ServerPool h') = ServerNames (ServerPool h) ++ urls /\
    HashKeyToServer h' = HashKeyToServer h /\ ServerToHashkey h' = ServerToHashkey h /\
    members (Hasher h') = members (Hasher h) ∪ list_to_set (go_lookup (ServerToHashkey h) <$> urls).
Proof.
  revert checks h. induction urls as [|u urls IH]; intros checks h Hi Hl; cbn [add_all].
  { exists h. rewrite app_nil_r. split_and!; try done. cbn. set_solver. }
  destruct checks as [|ck checks]; cbn [length] in Hl; [lia|].
  destruct (IH checks (pool_AddServer Hash h u ck)) as (h' & E & Hi' & Hs & Hk & Hsk & Hm); [by apply pool_AddServer_inv|lia|].
  exists h'. split_and!; [done|done| |done|done|].
  - rewrite Hs. unfold ServerNames. cbn. rewrite fmap_app. cbn. by rewrite <- app_assoc.
  - rewrite Hm. cbn. set_solver.
Qed.

(** A ring before any server is added: the parameters can be set. *)
Definition blank (c : Consistent) : Prop := circle c = ∅ /\ members c = ∅ /\ sortedHashes c = [] /\ count c = 0.

Lemma blank_New : blank (New Hash).
Proof. by vm_compute. Qed.

Lemma blank_reset (c : Consistent) (n : Z) (h : HashAlgo) (e : Elter) :
  blank c -> blank (ResetCircle Hash (set_params c n h e) (Members c)).
Proof. intros (Hc & Hm & Hs & Hn). unfold Members. rewrite Hm, elements_empty. by split_and!. Qed.

Lemma blank_sorted (c : Consistent) : blank c -> ring_sorted c.
Proof.
  intros (Hc & _ & Hs & _). unfold ring_sorted, sorted_keys. rewrite Hc, Hs, map_to_list_empty. symmetry.
  apply Permutation_nil. by rewrite sort_perm.
Qed.

(** A hasher made from a configuration with a check for every server
    is good: its pool has the servers in order, none dropped, its ring the
    hash keys of the servers, and its cache nothing. *)
Theorem created_hasher (new_cache : Z -> C) (cfg : HasherConfig) (hks : gmap string string) (urls checks : list string) :
  (forall n P, memo_ok P (new_cache n)) -> (length urls <= length checks)%nat ->
  exists h, CreateConstHasherFromConfig Hash new_cache cfg hks urls checks = Some h /\ hreach h /\
    OriginalMembers h = urls /\ hasher_DroppedServers h = [] /\ HashKeyToServer h = hks /\
    members (Hasher h) = list_to_set (go_lookup (ServerToHashkey h) <$> urls).
Proof.
  intros Hcache Hl. unfold CreateConstHasherFromConfig. set (ring := SetElterByName Hash _ _).
  assert (Hb : blank ring).
  { unfold ring. generalize blank_New. generalize (New Hash). intros c Hb.
    unfold SetElterByName. apply blank_reset. unfold SetHasherByName. apply blank_reset. unfold SetNumberOfReplicas. by apply blank_reset. }
  set (h0 := mkHasher ring _ _ _ _).
  destruct (add_all_spec urls checks h0) as (h & E & Hi & Hs & Hk & Hsk & Hm); [|done|].
  { split; [apply Hcache|by apply blank_sorted|apply map_Forall_empty|done]. }
  rewrite E. cbn [mbind option_bind]. eexists. split; [done|]. split.
  - apply hr_init. destruct Hi as [Hc Hr Hd Hdr]. by split.
  - unfold OriginalMembers, hasher_DroppedServers. cbn [ServerPool with_pool Hasher HashKeyToServer ServerToHashkey DroppedServers].
    rewrite (hi_dropped _ Hi), Hm, Hsk. unfold ServerNames in *. cbn [Servers]. rewrite Hs.
    destruct Hb as (_ & Hmem & _). split_and!; [done|done|done|]. cbn [h0 Hasher ServerToHashkey]. rewrite Hmem. by rewrite (left_id_L ∅ (∪)).
Qed.

End hasher.

(** ** What the pool does at the edges, and witnesses *)

#[local] Existing Instance insertion_GoSort.

Definition lru_new (n : Z) : LRUCache CacheItem := NewLRUCache 100.

Lemma lru_new_ok (n : Z) (P : string -> CacheItem -> Prop) : memo_ok P (lru_new n).
Proof. apply lru_memo_new. split; (reflexivity || discriminate). Qed.

Definition sample_cfg : HasherConfig := mkHasherConfig "" "" 2 100 3 "remove_node".

Definition sample_hks : gmap string string :=
  list_to_map [("a", "tcp://a:1"); ("b", "tcp://b:1"); ("c", "tcp://c:1")]%string.

Definition sample_urls : list string := ["tcp://a:1"; "tcp://b:1"; "tcp://c:1"]%string.

Lemma created_hasher_witness :
  exists h, CreateConstHasherFromConfig toy_hash lru_new sample_cfg sample_hks sample_urls sample_urls = Some h /\
    hreach toy_hash h /\ OriginalMembers h = sample_urls /\ members (Hasher h) = {[ "a"; "b"; "c" ]}%string.
Proof.
  destruct (created_hasher toy_hash lru_new sample_cfg sample_hks sample_urls sample_urls lru_new_ok (le_n _))
    as (h & E & Hr & Ho & _ & _ & Hm).
  exists h. split; [exact E|]. split; [exact Hr|]. split; [exact Ho|]. rewrite Hm.
  assert (Hs : ServerToHashkey h = foldl (fun m kv => <[kv.2 := kv.1]> m) ∅ (map_to_list sample_hks)).
  { vm_compute in E. injection E as <-. vm_compute. reflexivity. }
  rewrite Hs. vm_compute. reflexivity.
Defined.

(** A hasher with three servers, made by hand. *)
Definition three_pool : CheckedServerPool :=
  mkPool sample_urls ((fun u => mkServer u u) <$> sample_urls) [] 0 ∅ "remove_node" 3 true.

Definition three : ConstHasher (C := LRUCache CacheItem) :=
  mkHasher toy_ring sample_hks (list_to_map [("tcp://a:1", "a"); ("tcp://b:1", "b"); ("tcp://c:1", "c")]%string) (lru_new 0) three_pool.

Lemma three_reach : hreach toy_hash three.
Proof. apply hr_init. split; [apply lru_new_ok|reflexivity|apply map_Forall_empty|reflexivity]. Qed.

(** Twenty rounds in which no server answers. *)
Lemma health_checks_never_drop_witness :
  let h' := foldl (check_tick toy_hash) three (replicate 20 [false; false; false]) in
  ServerNames (ServerPool h') = sample_urls /\ DroppedServers (ServerPool h') = [] /\ Hasher h' = toy_ring.
Proof.
  destruct (health_checks_never_drop toy_hash three (replicate 20 [false; false; false])) as (Hs & Hd & Hh);
    [apply map_Forall_empty|reflexivity|]. cbn zeta. unfold ServerNames. rewrite Hs, Hh. split_and!; [reflexivity|exact Hd|reflexivity].
Defined.

(** URLs that are equal when they print alike. *)
Definition plain_same (url : string) (srv : ServerPoolServer) : bool := bool_decide (sv_Name srv = url).

Lemma hasher_cache_current_witness :
  let h := (PurgeServer toy_hash three "tcp://c:1" (plain_same "tcp://c:1")).1 in
  (exists err h', hasher_Get toy_hash h 5 "web.hits" = Some (one_server toy_hash h "web.hits", err, h')) /\
  one_server toy_hash h "web.hits" ∈ ["tcp://a:1"; "tcp://b:1"]%string.
Proof.
  intros h. assert (Hr : hreach toy_hash h).
  { apply hr_purge; [apply three_reach|]. vm_compute. reflexivity. }
  split.
  - destruct (proj1 (hasher_cache_current toy_hash h 5 "web.hits" Hr) eq_refl) as (err & h' & E & _). by exists err, h'.
  - apply (bool_decide_unpack _). vm_compute. exact I.
Defined.

(** Purging a server leaves a list that names the last server once per
    server that stays. *)
Example purge_list_wrong :
  ServerList (ServerPool (PurgeServer toy_hash three "tcp://a:1" (plain_same "tcp://a:1")).1) = ["tcp://c:1"; "tcp://c:1"]%string.
Proof. vm_compute. reflexivity. Qed.

(** A URL that prints like that of a server but is no equal struct, as one
    with a user: the server stays in the pool and on the ring, its name is
    forgotten, and the cache still has it. *)
Example purge_unequal_url :
  let url := one_server toy_hash three "web.hits" in
  match hasher_Get toy_hash three 1 "web.hits" with
  | Some (_, _, h) =>
      let h' := (PurgeServer toy_hash h url (fun _ => false)).1 in
      Servers (ServerPool h') = Servers (ServerPool h) /\ Hasher h' = Hasher h /\ one_server toy_hash h' "web.hits" = ""%string /\
      (fun r => r.1.1) <$> hasher_Get toy_hash h' 2 "web.hits" = Some url
  | None => False
  end.
Proof. vm_compute. done. Qed.

(** On an empty ring the error is reported once; the cache then answers an
    empty server without one. *)
Example empty_ring_error_once :
  let h := mkHasher (New toy_hash) ∅ ∅ (lru_new 0) (mkPool [] [] [] 0 ∅ "" 3 true) in
  match hasher_Get toy_hash h 1 "k" with
  | Some (s, err, h') => (s, err, (fun r => (r.1.1, r.1.2)) <$> hasher_Get toy_hash h' 2 "k")
  | None => (""%string, None, None)
  end = (""%string, Some ErrEmptyCircle, Some (""%string, None)).
Proof. vm_compute. reflexivity. Qed.

(** The keys of the two kinds of answers can meet; then the lookup
    panics. *)
Example cache_kinds_meet :
  match hasher_GetN toy_hash three 1 "k" 2 with
  | Some (_, _, h') => match hasher_Get toy_hash h' 2 (cache_key "k" 2) with None => true | Some _ => false end
  | None => false
  end = true.
Proof. vm_compute. reflexivity. Qed.
