(* ===== verification/Series.v ===== *)
(** [series/interface.go], [series/registry.go], [series/repr.go] and the
    statistics methods of [series/gorilla.go]: what the series formats
    have in common, the registry of formats, and the plain list format.

    The interface [TimeSeriesIter] of the source is the class below; the
    iterators of the Gorilla format and of the list format are instances.
    The iterators of the other formats (gob, zipgob, json, protobuf,
    msgpack, binc, cbor) are a parameter of the registry; those of protobuf
    and msgpack are in files of their own. *)
From S2P Require Import Prelude Bits BitStream Float64 GoStrings Gorilla GorillaIter.
From S2P Require Import Tags Repr.

Open Scope Z_scope.

(** ** Iterators *)

(** Time, minimum, maximum, last, sum and count. *)
Abbreviation point_values := (Z * float64 * float64 * float64 * float64 * Z)%type.

Class TimeSeriesIter (I : Type) := {
  iter_Next : I -> option (bool * I);
  iter_Values : I -> option point_values;
  iter_ReprValue : I -> option StatRepr;
  iter_Error : I -> option goerror
}.

(** What the caches use of the interface [TimeSeries]. *)
Class TimeSeries (S I : Type) := {
  ts_AddStat : S -> StatRepr -> option (option goerror * S);
  ts_Iter : S -> option (I + goerror);
  ts_Count : S -> Z;
  ts_Len : S -> Z
}.

(** [for iter.Next() { ... iter.Values() ... }]: [None] is a panic, or
    an iterator that goes on after [fuel] points. *)
Fixpoint collect {I} `{!TimeSeriesIter I} (fuel : nat) (it : I) : option (list point_values) :=
  match fuel with
  | O => None
  | S fuel =>
      '(ok, it) ← iter_Next it;
      if negb ok then Some [] else
      v ← iter_Values it;
      vs ← collect fuel it;
      Some (v :: vs)
  end.

(** *** Gorilla *)

Definition gorilla_AddStat (s : GorillaTimeSeries) (stat : StatRepr)
  : option (option goerror * GorillaTimeSeries) :=
  AddPoint s (mkPoint (Time stat) (Min stat) (Max stat) (Last stat) (Sum stat) (Count stat)).

Definition gorilla_ReprValue (it : GorillaIter) : option StatRepr :=
  let t := i64 (it_curTime it * second + int64_of_float (it_curTimeMs it)) in
  if negb (it_curSmartEnc it) then
    x ← it_curVals it !! 3%nat;
    let v := CheckFloat x in
    Some (mkRepr None t v v v v 1)
  else
    mi ← it_curVals it !! 0%nat;
    mx ← it_curVals it !! 1%nat;
    ls ← it_curVals it !! 2%nat;
    su ← it_curVals it !! 3%nat;
    ct ← it_curVals it !! 4%nat;
    Some (mkRepr None t (CheckFloat mi) (CheckFloat mx) (CheckFloat ls) (CheckFloat su)
            (int64_of_float ct)).

#[export] Instance GorillaIter_TimeSeriesIter : TimeSeriesIter GorillaIter :=
  {| iter_Next := Next;
     iter_Values := Values;
     iter_ReprValue := gorilla_ReprValue;
     iter_Error := Error |}.

#[export] Instance Gorilla_TimeSeries : TimeSeries GorillaTimeSeries GorillaIter :=
  {| ts_AddStat := gorilla_AddStat;
     ts_Iter := series_Iter;
     ts_Count := series_Count;
     ts_Len := series_Len |}.

(** *** The list format *)

Record ReprTimeSeries := mkReprSeries {
  T0 : Z;
  rs_curTime : Z;
  Stats : list StatRepr
}.

Definition NewReprTimeSeries (t0 : Z) (options : Options) : ReprTimeSeries :=
  mkReprSeries t0 0 [].

Definition rs_Count (s : ReprTimeSeries) : Z := Z.of_nat (length (Stats s)).
Definition rs_StartTime (s : ReprTimeSeries) : Z := T0 s.
Definition rs_LastTime (s : ReprTimeSeries) : Z := rs_curTime s.
Definition rs_Copy (s : ReprTimeSeries) : ReprTimeSeries :=
  mkReprSeries (T0 s) (rs_curTime s) (Stats s).

(** The end of [AddPoint] and of [AddStat]. *)
Definition rs_append (s : ReprTimeSeries) (stat : StatRepr) (t : Z) : ReprTimeSeries :=
  mkReprSeries (if t <? T0 s then t else T0 s) (if t >? rs_curTime s then t else rs_curTime s)
    (Stats s ++ [stat]).

Definition rs_AddPoint (s : ReprTimeSeries) (p : point) : ReprTimeSeries :=
  rs_append s
    (mkRepr None (pt_time p) (CheckFloat (pt_min p)) (CheckFloat (pt_max p))
       (CheckFloat (pt_last p)) (CheckFloat (pt_sum p)) (pt_count p)) (pt_time p).

Definition rs_AddStat (s : ReprTimeSeries) (stat : StatRepr) : ReprTimeSeries :=
  rs_append s (repr_Copy stat) (Time stat).

Record ReprIter := mkReprIter {
  ri_Stats : list StatRepr;
  ri_curIdx : nat;
  ri_statLen : nat;
  ri_curStat : option StatRepr;
  ri_finished : bool
}.

Definition NewReprIter (stats : list StatRepr) : ReprIter :=
  mkReprIter stats 0 (length stats) None false.

Definition rs_Iter (s : ReprTimeSeries) : ReprIter := NewReprIter (Stats s).

Definition ri_Next (it : ReprIter) : option (bool * ReprIter) :=
  if ri_finished it || (ri_statLen it <=? ri_curIdx it)%nat then Some (false, it)
  else
    stat ← ri_Stats it !! ri_curIdx it;
    Some (true, mkReprIter (ri_Stats it) (S (ri_curIdx it)) (ri_statLen it) (Some stat)
                  (ri_finished it)).

Definition ri_Values (it : ReprIter) : option point_values :=
  s ← ri_curStat it; Some (Time s, Min s, Max s, Last s, Sum s, Count s).

Definition ri_ReprValue (it : ReprIter) : option StatRepr :=
  s ← ri_curStat it;
  Some (mkRepr None (Time s) (Min s) (Max s) (Last s) (Sum s) (Count s)).

#[export] Instance ReprIter_TimeSeriesIter : TimeSeriesIter ReprIter :=
  {| iter_Next := ri_Next;
     iter_Values := ri_Values;
     iter_ReprValue := ri_ReprValue;
     iter_Error := fun _ => None |}.

(** The length of a list series is that of its JSON text, a parameter. *)
Definition Repr_TimeSeries (json_Len : list StatRepr -> Z) : TimeSeries ReprTimeSeries ReprIter :=
  {| ts_AddStat s stat := Some (None, rs_AddStat s stat);
     ts_Iter s := Some (inl (rs_Iter s));
     ts_Count := rs_Count;
     ts_Len s := json_Len (Stats s) |}.

(** ** The registry *)

Definition GOB : Z := 1.
Definition ZIPGOB : Z := 2.
Definition JSON : Z := 3.
Definition PROTOBUF : Z := 4.
Definition GORILLA : Z := 5.
Definition MSGPACK : Z := 6.
Definition BINC : Z := 7.
Definition CBOR : Z := 8.
Definition REPR : Z := 9.
(** [iota + 20] in a constant block of its own. *)
Definition SNAPPY_GOB : Z := 20.
Definition SNAPPY_ZIPGOB : Z := 21.
Definition SNAPPY_JSON : Z := 22.
Definition SNAPPY_PROTOBUF : Z := 23.
Definition SNAPPY_GORILLA : Z := 24.
Definition SNAPPY_MSGPACK : Z := 25.
Definition SNAPPY_BINC : Z := 26.
Definition SNAPPY_CBOR : Z := 27.
Definition SNAPPY_REPR : Z := 28.

Definition IsCompressed (id : Z) : bool := id >=? 20.

Definition NameFromId (id : Z) : string :=
  let use_id := if id >=? 20 then u8 (id - 20) else id in
  if use_id =? GOB then "gob"
  else if use_id =? ZIPGOB then "zipbob"
  else if use_id =? JSON then "json"
  else if use_id =? PROTOBUF then "protobuf"
  else if use_id =? GORILLA then "gorilla"
  else if use_id =? MSGPACK then "msgpack"
  else if use_id =? BINC then "binc"
  else if use_id =? CBOR then "cbor"
  else if use_id =? REPR then "repr"
  else "".

Definition IdFromName (nm : string) : Z :=
  if bool_decide (nm = "gob"%string) then GOB
  else if bool_decide (nm = "zipgob"%string) then ZIPGOB
  else if bool_decide (nm = "json"%string) then JSON
  else if bool_decide (nm = "protobuf"%string) then PROTOBUF
  else if bool_decide (nm = "gorilla"%string) then GORILLA
  else if bool_decide (nm = "msgpack"%string) then MSGPACK
  else if bool_decide (nm = "binc"%string) then BINC
  else if bool_decide (nm = "cbor"%string) then CBOR
  else if bool_decide (nm = "repr"%string) then REPR
  else 0.

Section registry.
(** [github.com/golang/snappy]. *)
Variable snappy_Encode : list Z -> list Z.
Variable snappy_Decode : list Z -> list Z + goerror.

Definition DecompressBytes (seriestype : Z) (data : list Z) : list Z + goerror :=
  if negb (IsCompressed seriestype) then inl data else snappy_Decode data.

Definition CompressBytes (seriestype : Z) (data : list Z) : list Z :=
  if negb (IsCompressed seriestype) then data else snappy_Encode data.

(** The iterators of the other formats, and [json.Unmarshal] of a list
    of statistics. *)
Context {O : Type} {OI : TimeSeriesIter O}.
Variable other_Iter : string -> list Z -> O + goerror.
Variable json_Stats : list Z -> list StatRepr + goerror.

Inductive any_iter :=
| IGorilla (it : GorillaIter)
| IRepr (it : ReprIter)
| IOther (it : O).

#[export] Instance any_iter_TimeSeriesIter : TimeSeriesIter any_iter :=
  {| iter_Next it :=
       match it with
       | IGorilla it => '(b, it) ← iter_Next it; Some (b, IGorilla it)
       | IRepr it => '(b, it) ← iter_Next it; Some (b, IRepr it)
       | IOther it => '(b, it) ← iter_Next it; Some (b, IOther it)
       end;
     iter_Values it :=
       match it with
       | IGorilla it => iter_Values it | IRepr it => iter_Values it | IOther it => iter_Values it
       end;
     iter_ReprValue it :=
       match it with
       | IGorilla it => iter_ReprValue it
       | IRepr it => iter_ReprValue it
       | IOther it => iter_ReprValue it
       end;
     iter_Error it :=
       match it with
       | IGorilla it => iter_Error it | IRepr it => iter_Error it | IOther it => iter_Error it
       end |}.

Definition other_names : list string :=
  ["binary"; "gob"; "zipbinary"; "zipgob"; "json"; "protobuf"; "msgpack"; "binc"; "cbor"]%string.

(** The series of the other formats, by the format's name. *)
Context {OS : Type} {OTS : TimeSeries OS O}.
Variable other_Series : string -> Z -> OS.
Variable json_Len : list StatRepr -> Z.

Inductive any_series :=
| SGorilla (s : GorillaTimeSeries)
| SRepr (s : ReprTimeSeries)
| SOther (s : OS).

Definition any_AddStat (s : any_series) (stat : StatRepr) : option (option goerror * any_series) :=
  match s with
  | SGorilla s => '(e, s) ← gorilla_AddStat s stat; Some (e, SGorilla s)
  | SRepr s => Some (None, SRepr (rs_AddStat s stat))
  | SOther s => '(e, s) ← ts_AddStat s stat; Some (e, SOther s)
  end.

Definition any_Iter (s : any_series) : option (any_iter + goerror) :=
  match s with
  | SGorilla s =>
      r ← series_Iter s; Some (match r with inl it => inl (IGorilla it) | inr e => inr e end)
  | SRepr s => Some (inl (IRepr (rs_Iter s)))
  | SOther s => r ← ts_Iter s; Some (match r with inl it => inl (IOther it) | inr e => inr e end)
  end.

Definition any_TimeSeries : TimeSeries any_series any_iter :=
  {| ts_AddStat := any_AddStat;
     ts_Iter := any_Iter;
     ts_Count s :=
       match s with SGorilla s => series_Count s | SRepr s => rs_Count s | SOther s => ts_Count s end;
     ts_Len s :=
       match s with SGorilla s => series_Len s | SRepr s => json_Len (Stats s) | SOther s => ts_Len s end |}.

Definition NewTimeSeries (name : string) (t0 : Z) : option (any_series + goerror) :=
  if bool_decide (name = "gorilla"%string) then
    s ← NewGoriallaTimeSeries t0 NewDefaultOptions; Some (inl (SGorilla s))
  else if bool_decide (name = "repr"%string) then
    Some (inl (SRepr (NewReprTimeSeries t0 NewDefaultOptions)))
  else if bool_decide (name ∈ other_names) then Some (inl (SOther (other_Series name t0)))
  else Some (inr (GoError ("Invalid time series type `" +:+ name +:+ "`"))).

Definition NewReprIterFromBytes (data : list Z) : ReprIter + goerror :=
  match json_Stats data with
  | inl stats => inl (NewReprIter stats)
  | inr e => inr e
  end.

Definition NewIter (name : string) (data : list Z) : any_iter + goerror :=
  if bool_decide (name = "gorilla"%string) then
    match NewGorillaIterFromBytes data with inl it => inl (IGorilla it) | inr e => inr e end
  else if bool_decide (name = "repr"%string) then
    match NewReprIterFromBytes data with inl it => inl (IRepr it) | inr e => inr e end
  else if bool_decide (name ∈ other_names) then
    match other_Iter name data with inl it => inl (IOther it) | inr e => inr e end
  else inr (GoError ("Invalid time series type `" +:+ name +:+ "`")).

End registry.
