(* ===== verification/RawData.v ===== *)
(** [schemas/metrics/metrics.go]: the points and series that answer a
    query: reading them from stored series, truncating, quantizing,
    resampling and merging them.

    Points are values.  Where the source puts a point of one list into
    another and then changes it, the model changes the copy in the result;
    the methods return the receiver and the argument as far as later code
    reads them.  Times are [uint32] and wrap; the loops over a time range
    run with a fuel, and [None] is a panic or a loop that needs more
    steps. *)
From S2P Require Import Prelude Bits BitStream Float64 GoStrings GoSort Gorilla GorillaIter.
From S2P Require Import Tags Repr LRU LRUTheorems Aggs Series.

Open Scope Z_scope.

Definition MAX_QUANTIZE_POINTS : Z := 100000.

Definition ErrMergeStepSizeError : goerror :=
  GoError "To merge 2 RawRenderItems, the step size needs to be the same".
Definition ErrQuantizeStepTooSmall : goerror :=
  GoError "Cannot quantize: to a '0' step size ...".
Definition ErrQuantizeStepTooManyPoints : goerror :=
  GoError "Cannot quantize: Over the 10,000 point threashold, please try a smaller time window".

(** ** Points *)

Record RawDataPoint := mkRaw {
  p_Time : Z;
  p_Sum : float64;
  p_Min : float64;
  p_Max : float64;
  p_Last : float64;
  p_Count : Z
}.

Definition NullRawDataPoint (t : Z) : RawDataPoint := mkRaw t NaN NaN NaN NaN 0.

Definition IsNull (r : RawDataPoint) : bool :=
  IsNaN (p_Sum r) && IsNaN (p_Last r) && IsNaN (p_Min r) && IsNaN (p_Max r).

Definition MakeNull (r : RawDataPoint) (t0 : Z) : RawDataPoint := mkRaw t0 NaN NaN NaN NaN 0.

Definition set_Time (r : RawDataPoint) (t : Z) : RawDataPoint :=
  mkRaw t (p_Sum r) (p_Min r) (p_Max r) (p_Last r) (p_Count r).

Definition point_AggValue (r : RawDataPoint) (aggfunc : Z) : float64 :=
  if p_Count r =? 1 then p_Sum r
  else if aggfunc =? SUM then p_Sum r
  else if aggfunc =? MIN then p_Min r
  else if aggfunc =? MAX then p_Max r
  else if aggfunc =? LAST then p_Last r
  else if aggfunc =? COUNT then float_of_Z (p_Count r)
  else if p_Count r >? 0 then fdiv (p_Sum r) (float_of_Z (p_Count r))
  else NaN.

Definition merge_sum (r d : float64) : float64 :=
  if IsNaN r && negb (IsNaN d) then d
  else if negb (IsNaN r) && negb (IsNaN d) then fadd r d
  else r.

Definition merge_last (r d : RawDataPoint) : float64 :=
  let l :=
    if negb (p_Time d =? 0) && (p_Time d >? p_Time r) && negb (IsNaN (p_Last d))
    then p_Last d else p_Last r in
  if IsNaN l && negb (IsNaN (p_Last d)) then p_Last d else l.

Definition merge_count (r d : Z) : Z :=
  if (r =? 0) && (d >? 0) then d
  else if (r >? 0) && (d >? 0) then i64 (r + d)
  else r.

Definition point_Merge (r d : RawDataPoint) : RawDataPoint :=
  if IsNull d then r
  else
    mkRaw (if p_Time r <? p_Time d then p_Time d else p_Time r)
      (merge_sum (p_Sum r) (p_Sum d))
      (if IsNaN (p_Min r) || fgt (p_Min r) (p_Min d) then p_Min d else p_Min r)
      (if IsNaN (p_Max r) || flt (p_Max r) (p_Max d) then p_Max d else p_Max r)
      (merge_last r d)
      (merge_count (p_Count r) (p_Count d)).

(** [RawDataPointList.Less]. *)
Definition points_Less (a b : RawDataPoint) : bool := p_Time a <? p_Time b.

(** ** Items *)

Record RawRenderItem := mkItem {
  Metric : string;
  Id : string;
  RealStart : Z;
  RealEnd : Z;
  Start : Z;
  End_ : Z;
  Step : Z;
  AggFunc : Z;
  i_Tags : list Tag;
  i_MetaTags : list Tag;
  Data : list RawDataPoint;
  InCache : bool;
  UsingCache : bool
}.

Definition new_item : RawRenderItem := mkItem "" "" 0 0 0 0 0 0 [] [] [] false false.

Definition set_Data (r : RawRenderItem) (data : list RawDataPoint) : RawRenderItem :=
  mkItem (Metric r) (Id r) (RealStart r) (RealEnd r) (Start r) (End_ r) (Step r) (AggFunc r)
    (i_Tags r) (i_MetaTags r) data (InCache r) (UsingCache r).

Definition set_Real (r : RawRenderItem) (s e : Z) : RawRenderItem :=
  mkItem (Metric r) (Id r) s e (Start r) (End_ r) (Step r) (AggFunc r)
    (i_Tags r) (i_MetaTags r) (Data r) (InCache r) (UsingCache r).

(** Start, end (real and asked for), step and data. *)
Definition set_range (r : RawRenderItem) (s e step : Z) (data : list RawDataPoint) : RawRenderItem :=
  mkItem (Metric r) (Id r) s e s e step (AggFunc r) (i_Tags r) (i_MetaTags r) data
    (InCache r) (UsingCache r).

(** The tags of both, and in the cache if the other one is. *)
Definition merge_meta (r m : RawRenderItem) : RawRenderItem :=
  mkItem (Metric r) (Id r) (RealStart r) (RealEnd r) (Start r) (End_ r) (Step r) (AggFunc r)
    (MergeTagLists (i_Tags r) (i_Tags m)) (MergeTagLists (i_MetaTags r) (i_MetaTags m)) (Data r)
    (if InCache m then InCache m else InCache r) (UsingCache r).

Definition item_Len (r : RawRenderItem) : Z := Z.of_nat (length (Data r)).

Definition item_Copy (r : RawRenderItem) : RawRenderItem :=
  mkItem (Metric r) (Id r) (RealStart r) (RealEnd r) (Start r) (End_ r) (Step r) (AggFunc r)
    (i_Tags r) (i_MetaTags r) (Data r) (InCache r) (UsingCache r).

Definition DataInRange (r : RawRenderItem) (start end_ : Z) : bool :=
  (RealStart r >=? start) && (end_ <=? RealEnd r).

Definition StartInRange (r : RawRenderItem) (start : Z) : bool := start >=? RealStart r.

Record DataPoint := mkDataPoint {
  dp_Time : Z;
  dp_Value : float64
}.

(** The receiver is a copy: nothing is set. *)
Definition SetValue (d : DataPoint) (val : float64) : DataPoint := d.

Definition ToDataPoint (r : RawRenderItem) : list DataPoint :=
  map (fun d => SetValue (mkDataPoint (p_Time d) 0) (point_AggValue d (AggFunc r))) (Data r).

(** The loop of [TruncateTo]: the indices of the first and the last
    point in range. *)
Fixpoint truncate_scan (data : list RawDataPoint) (i : nat) (start end_ : Z)
  (idxStart : option nat) (idxEnd : nat) : option nat * nat :=
  match data with
  | [] => (idxStart, idxEnd)
  | d :: data =>
      if (p_Time d >=? start) && (p_Time d <=? end_)
      then truncate_scan data (S i) start end_ (match idxStart with None => Some i | s => s end) i
      else truncate_scan data (S i) start end_ idxStart idxEnd
  end.

Definition TruncateTo (r : RawRenderItem) (start end_ : Z) : Z * RawRenderItem :=
  let '(idxStart, idxEnd) := truncate_scan (Data r) 0 start end_ None (length (Data r)) in
  let r :=
    match idxStart with
    | None => r
    | Some s => set_Data r (drop s (take idxEnd (Data r)))
    end in
  let r :=
    match head (Data r), last (Data r) with
    | Some a, Some b => set_Real r (p_Time a) (p_Time b)
    | _, _ => r
    end in
  (Z.of_nat (length (Data r)), r).

(** The multiple of [step] at or after [start]. *)
Definition align_up (start step : Z) : Z :=
  let left := start mod step in
  if negb (left =? 0) then u32 (u32 (start + step) - left) else start.

(** [(end - 1) - ((end - 1) % step) + step]. *)
Definition align_end (e step : Z) : Z :=
  u32 (u32 (u32 (e - 1) - u32 (e - 1) mod step) + step).

(** An upper bound on the number of steps of [for t := start; t <=
    endTime; t += step] when it does not wrap around. *)
Definition range_fuel (start endTime step : Z) : nat := Z.to_nat ((endTime - start) / step + 2).

Section items.
Context `{!GoSort}.

Definition sort_points (l : list RawDataPoint) : list RawDataPoint := sort_Sort points_Less l.

(** ** Reading stored series *)

Section reading.
Context {I : Type} `{!TimeSeriesIter I}.

Definition raw_of (v : point_values) : RawDataPoint :=
  let '(t, mi, mx, ls, su, ct) := v in mkRaw (u32 (t / 10 ^ 9)) su mi mx ls ct.

(** The end of every reader: sort, and take the range from the data. *)
Definition finish_item (r : RawRenderItem) : RawRenderItem :=
  let data := sort_points (Data r) in
  match head data, last data with
  | Some a, Some b =>
      mkItem (Metric r) (Id r) (p_Time a) (p_Time b) (p_Time a) (p_Time b) (Step r) (AggFunc r)
        (i_Tags r) (i_MetaTags r) data (InCache r) (UsingCache r)
  | _, _ => r
  end.

Definition NewRawRenderItemFromSeriesIter (fuel : nat) (it : I) : option RawRenderItem :=
  vs ← collect fuel it;
  Some (finish_item (set_Data new_item (map raw_of vs))).

Record DBSeries := mkDBSeries {
  Uid : string;
  db_Start : Z;
  db_End : Z;
  Ptype : Z;
  Pbytes : list Z;
  db_Resolution : Z;
  TTL : Z
}.

(** [series.NewIter] of the registry. *)
Variable new_Iter : string -> list Z -> I + goerror.

Definition db_Iter (d : DBSeries) : I + goerror := new_Iter (NameFromId (Ptype d)) (Pbytes d).

Fixpoint list_Start (idx : nat) (t_s : Z) (mb : list DBSeries) : Z :=
  match mb with
  | [] => t_s
  | d :: mb =>
      list_Start (S idx)
        (if (idx =? 0)%nat || ((db_Start d <? t_s) && negb (db_Start d =? 0)) then db_Start d else t_s)
        mb
  end.

Definition DBSeriesList_Start (mb : list DBSeries) : Z := list_Start 0 0 mb.

Fixpoint list_End (idx : nat) (t_s : Z) (mb : list DBSeries) : Z :=
  match mb with
  | [] => t_s
  | d :: mb => list_End (S idx) (if (idx =? 0)%nat || (db_End d >? t_s) then db_End d else t_s) mb
  end.

Definition DBSeriesList_End (mb : list DBSeries) : Z := list_End 0 0 mb.

(** The values of all the series, in order; the first iterator that
    cannot be made is the error. *)
Fixpoint read_all (fuel : nat) (mb : list DBSeries) : option (list point_values + goerror) :=
  match mb with
  | [] => Some (inl [])
  | d :: mb =>
      match db_Iter d with
      | inr e => Some (inr e)
      | inl it =>
          vs ← collect fuel it;
          rest ← read_all fuel mb;
          Some (match rest with inl vs' => inl (vs ++ vs') | inr e => inr e end)
      end
  end.

Definition ToRawRenderItem (fuel : nat) (mb : list DBSeries) : option (RawRenderItem + goerror) :=
  vs ← read_all fuel mb;
  Some (match vs with
        | inr e => inr e
        | inl vs => inl (finish_item (set_Data new_item (map raw_of vs)))
        end).

Definition value_time (v : point_values) : Z := let '(t, _, _, _, _, _) := v in t.

Definition ToRawRenderItemBounds (fuel : nat) (mb : list DBSeries) (sTime eTime : Z)
  : option (RawRenderItem + goerror) :=
  vs ← read_all fuel mb;
  Some (match vs with
        | inr e => inr e
        | inl vs =>
            let vs := filter (fun v => negb ((value_time v <? sTime) || (value_time v >? eTime))) vs in
            inl (finish_item (set_Data new_item (map raw_of vs)))
        end).

(** The loop of the pooled readers: a point with the time of the point
    before it is merged into that one. *)
Fixpoint pool_loop (acc : list RawDataPoint) (lastT : Z) (vs : list point_values)
  : list RawDataPoint :=
  match vs with
  | [] => acc
  | v :: vs =>
      let pt := raw_of v in
      match last acc with
      | Some prev =>
          if lastT =? p_Time pt
          then pool_loop (take (length acc - 1) acc ++ [point_Merge prev pt]) lastT vs
          else pool_loop (acc ++ [pt]) (p_Time pt) vs
      | None => pool_loop (acc ++ [pt]) (p_Time pt) vs
      end
  end.

Definition ToRawRenderItemPool (fuel : nat) (mb : list DBSeries) : option (RawRenderItem + goerror) :=
  vs ← read_all fuel mb;
  Some (match vs with
        | inr e => inr e
        | inl vs => inl (finish_item (set_Data new_item (pool_loop [] 0 vs)))
        end).

Definition ToRawRenderItemBoundsPool (fuel : nat) (mb : list DBSeries) (sTime eTime : Z)
  : option (RawRenderItem + goerror) :=
  vs ← read_all fuel mb;
  Some (match vs with
        | inr e => inr e
        | inl vs =>
            let vs := filter (fun v => negb ((value_time v <=? 0) || (value_time v <? sTime) ||
                                             (value_time v >? eTime))) vs in
            inl (finish_item (set_Data new_item (pool_loop [] 0 vs)))
        end).

End reading.
End items.
