(* ===== verification/Resample.v ===== *)
(** [schemas/metrics/metrics.go]: resampling, quantizing and merging the
    series of a query.

    A loop [for t = start; t <= endTime; t += step] is a fixpoint on a
    fuel; [range_fuel] is enough as long as the times do not wrap around
    2^32.  A step of zero makes the source's [%] panic. *)
From S2P Require Import Prelude Float64 GoStrings GoSort Tags Repr Aggs RawData.

Open Scope Z_scope.

Section resample.
Context `{!GoSort}.

(** All the points merged into one null point at [start]. *)
Definition merge_points (dp : RawDataPoint) (data : list RawDataPoint) : RawDataPoint :=
  foldl point_Merge dp data.

(** ** Resample *)

(** The inner loop: skip the points before [lo], merge those up to [t],
    stop at the first later one. *)
Fixpoint resample_take (t lo : Z) (dp : RawDataPoint) (data : list RawDataPoint)
  : RawDataPoint * list RawDataPoint :=
  match data with
  | [] => (dp, [])
  | d :: rest =>
      if p_Time d <? lo then resample_take t lo dp rest
      else if p_Time d >? t then (dp, data)
      else resample_take t lo (point_Merge dp d) rest
  end.

Fixpoint resample_loop (fuel : nat) (t endTime step : Z) (dp : RawDataPoint)
  (data out : list RawDataPoint) : option (list RawDataPoint) :=
  match fuel with
  | O => None
  | S fuel =>
      if t <=? endTime then
        let '(dp, data) := resample_take t (u32 (t - step)) dp data in
        if negb (IsNull dp)
        then resample_loop fuel (u32 (t + step)) endTime step (NullRawDataPoint t) data
               (out ++ [set_Time dp t])
        else resample_loop fuel (u32 (t + step)) endTime step dp data out
      else Some out
  end.

Definition Resample (r : RawRenderItem) (step : Z) : option (RawRenderItem + goerror) :=
  if step <=? 0 then Some (inr ErrQuantizeStepTooSmall)
  else
    let start := align_up (RealStart r) step in
    let endTime := align_end (RealEnd r) step in
    out ← resample_loop (range_fuel start endTime step) start endTime step (NullRawDataPoint start)
            (sort_points (Data r)) [];
    Some (inl (set_range r start endTime step out)).

(** ** ResampleAndQuantize *)

(** Merge the points before [hi] into [dp]; the rest is left. *)
Fixpoint merge_until (hi : Z) (dp : RawDataPoint) (data : list RawDataPoint)
  : RawDataPoint * list RawDataPoint :=
  match data with
  | [] => (dp, [])
  | d :: rest =>
      if p_Time d >=? hi then (dp, data) else merge_until hi (point_Merge dp d) rest
  end.

Definition put_or_merge (dp p : RawDataPoint) : RawDataPoint :=
  if IsNull dp then p else point_Merge dp p.

(** One output slot, filled from the remaining points: first a point of
    the step before the start, then those of the step itself. *)
Definition resample_slot (t start step : Z) (data : list RawDataPoint)
  : option (RawDataPoint * list RawDataPoint) :=
  let dp := NullRawDataPoint t in
  match data with
  | [] => Some (dp, [])
  | p :: rest =>
      '(dp, p, rest) ←
        (if (p_Time p <? start) && (p_Time p >=? u32 (t - step)) && (p_Time p <? t) then
           match rest with
           | [] => None
           | p' :: rest' => Some (set_Time (put_or_merge dp p) t, p', rest')
           end
         else Some (dp, p, rest));
      if (p_Time p >=? t) && (p_Time p <? u32 (t + step)) then
        let '(dp, rest) := merge_until (u32 (t + step)) (put_or_merge dp p) rest in
        Some (set_Time dp t, rest)
      else Some (dp, p :: rest)
  end.

Fixpoint resample_slots (fuel : nat) (t start endTime step : Z) (size : nat)
  (data out : list RawDataPoint) : option (list RawDataPoint) :=
  match fuel with
  | O => None
  | S fuel =>
      if t <=? endTime then
        if (length out <? size)%nat then
          '(dp, data) ← resample_slot t start step data;
          resample_slots fuel (u32 (t + step)) start endTime step size data (out ++ [dp])
        else None
      else Some out
  end.

Definition ResampleAndQuantize (r : RawRenderItem) (step : Z) : option RawRenderItem :=
  if (length (Data r) <=? 1)%nat then Some r
  else if step =? 0 then None
  else
    let left := Start r mod step in
    let start := if negb (left =? 0) then u32 (u32 (Start r - step) + left) else Start r in
    let e := u32 (End_ r - step) in
    let endTime := u32 (e - e mod step) in
    if endTime <? start then
      let endTime := u32 (start + step) in
      Some (set_range r start endTime step [merge_points (NullRawDataPoint start) (Data r)])
    else
      out ← resample_slots (range_fuel start endTime step) start start endTime step
              (Z.to_nat ((endTime - start) / step + 1)) (Data r) [];
      Some (set_range r start endTime step out).

(** ** Quantize

    Every slot is set unless the times wrap around; a slot left nil is
    [None] here. *)

(** The points at or before [lo] at the front are passed over. *)
Fixpoint skip_old (lo : Z) (rData : list RawDataPoint) : list RawDataPoint :=
  match rData with
  | [] => []
  | p :: rest => if p_Time p <=? lo then skip_old lo rest else rData
  end.

(** [data[o] = dp], panicking out of range. *)
Definition put (data : list (option RawDataPoint)) (o : nat) (dp : RawDataPoint)
  : option (list (option RawDataPoint)) :=
  if (o <? length data)%nat then Some (<[o := Some dp]> data) else None.

(** The slot for a point that fits in it, with the source's test of slot
    zero. *)
Definition fit (data : list (option RawDataPoint)) (slot : option RawDataPoint) (p : RawDataPoint)
  : option RawDataPoint :=
  match slot with
  | None => Some p
  | Some dp =>
      if p_Time dp =? 0 then Some p
      else
        first ← data !! 0%nat;
        first ← first;
        Some (if negb (IsNull first) then point_Merge dp p else p)
  end.

(** The loop over the slots.  The last branch is the source's
    [t -= step; o -= 1], undone by the loop's own increments. *)
Fixpoint quantize_loop (fuel : nat) (t endTime step : Z) (rData : list RawDataPoint)
  (data : list (option RawDataPoint)) (o : nat) : option (list (option RawDataPoint)) :=
  match fuel with
  | O => None
  | S fuel =>
      if t <=? endTime then
        let lo := u32 (t - step) in
        let next := u32 (t + step) in
        match rData with
        | [] =>
            data ← put data o (NullRawDataPoint t);
            quantize_loop fuel next endTime step [] data (S o)
        | p :: rest =>
            if p_Time p =? t then
              data ← put data o p;
              quantize_loop fuel next endTime step rest data (S o)
            else if p_Time p >? t then
              slot ← data !! o;
              let dp :=
                match slot with
                | None => NullRawDataPoint t
                | Some dp => if p_Time dp =? 0 then NullRawDataPoint t else dp
                end in
              let dp := if p_Time p >=? endTime then point_Merge dp p else dp in
              data ← put data o dp;
              quantize_loop fuel next endTime step rData data (S o)
            else if (p_Time p >? lo) && (p_Time p <? t) then
              let p := set_Time p t in
              slot ← data !! o;
              dp ← fit data slot p;
              data ← put data o dp;
              quantize_loop fuel next endTime step rest data (S o)
            else if p_Time p <=? lo then
              quantize_loop fuel t endTime step (skip_old lo rData) data o
            else
              quantize_loop fuel next endTime step rData data (S o)
        end
      else Some data
  end.

Definition QuantizeToStep (r : RawRenderItem) (step : Z) : option (RawRenderItem + goerror) :=
  if step <=? 0 then Some (inr ErrQuantizeStepTooSmall)
  else
    let start := align_up (Start r) step in
    let endTime := align_end (End_ r) step in
    let data := sort_points (Data r) in
    if endTime <? start then
      Some (inl (set_range r start (u32 (start + step)) step
                   [merge_points (NullRawDataPoint start) data]))
    else
      let num_pts := u32 ((endTime - start) / step + 1) in
      if num_pts >=? MAX_QUANTIZE_POINTS then Some (inr ErrQuantizeStepTooManyPoints)
      else
        out ← quantize_loop (range_fuel start endTime step + length data) start endTime step
                data (replicate (Z.to_nat num_pts) None) 0;
        out ← mapM (fun dp => dp) out;
        Some (inl (set_range r start endTime step out)).

Definition Quantize (r : RawRenderItem) : option (RawRenderItem + goerror) :=
  QuantizeToStep r (Step r).

(** ** Merging two series *)

Definition item_Merge (r m : RawRenderItem) : RawRenderItem :=
  let r' :=
    mkItem (Metric r) (Id r)
      (if RealStart m <? RealStart r then RealStart m else RealStart r)
      (if RealEnd m >? RealEnd r then RealEnd m else RealEnd r)
      (if Start m <? Start r then Start m else Start r)
      (if End_ m >? End_ r then End_ m else End_ r)
      (Step r) (AggFunc r) (i_Tags r) (i_MetaTags r)
      (sort_points (Data r ++ Data m)) (InCache r) (UsingCache r) in
  merge_meta r' m.

(** Both items with the wider range; each end is the smaller (larger)
    one. *)
Definition widen (r m : RawRenderItem) : RawRenderItem :=
  mkItem (Metric r) (Id r) (Z.min (RealStart r) (RealStart m)) (Z.max (RealEnd r) (RealEnd m))
    (Z.min (Start r) (Start m)) (Z.max (End_ r) (End_ m)) (Step r) (AggFunc r)
    (i_Tags r) (i_MetaTags r) (Data r) (InCache r) (UsingCache r).

(** [r.Data[i]] with [m.Data[i]], for every [i] of [m]; a shorter [r]
    panics. *)
Fixpoint zip_merge (r m : list RawDataPoint) : option (list RawDataPoint) :=
  match m, r with
  | [], r => Some r
  | d :: m, p :: r =>
      l ← zip_merge r m; Some ((if IsNull p then d else point_Merge p d) :: l)
  | _ :: _, [] => None
  end.

Definition MergeAndAggregate (r m : RawRenderItem) : option (RawRenderItem + goerror) :=
  if negb (Step r =? Step m) then Some (inr ErrMergeStepSizeError)
  else
    r1 ← Quantize (widen r m);
    match r1 with
    | inr e => Some (inr e)
    | inl r1 =>
        m1 ← Quantize (widen m r);
        match m1 with
        | inr e => Some (inr e)
        | inl m1 =>
            data ← zip_merge (Data r1) (Data m1);
            Some (inl (merge_meta (set_Data r1 data) m1))
        end
    end.

(** ** MergeWithResample *)

(** The points up to [t], and the rest. *)
Fixpoint take_until (t : Z) (data : list RawDataPoint) : list RawDataPoint * list RawDataPoint :=
  match data with
  | [] => ([], [])
  | d :: rest =>
      if p_Time d >? t then ([], data)
      else let '(a, b) := take_until t rest in (d :: a, b)
  end.

(** The [switch] on the number of points to merge. *)
Definition merge_bin (pts : list RawDataPoint) : option RawDataPoint :=
  match pts with
  | [] => None
  | [p] => Some p
  | [p; q] => Some (point_Merge p q)
  | _ =>
      match sort_points pts with
      | [] => None
      | p :: rest => Some (merge_points p rest)
      end
  end.

Fixpoint mwr_loop (fuel : nat) (t endTime step : Z) (use_d use_r : bool)
  (d Rs out : list RawDataPoint) : option (list RawDataPoint) :=
  match fuel with
  | O => None
  | S fuel =>
      if t <=? endTime then
        let '(a, d) := if use_d : bool then take_until t d else ([], d) in
        let '(b, Rs) := if use_r : bool then take_until t Rs else ([], Rs) in
        let out := match merge_bin (a ++ b) with Some p => out ++ [p] | None => out end in
        mwr_loop fuel (u32 (t + step)) endTime step use_d use_r d Rs out
      else Some out
  end.

(** The time of the last point, zero for none. *)
Definition last_time (l : list RawDataPoint) : Z :=
  match last l with Some p => p_Time p | None => 0 end.

Definition MergeWithResample (r d : RawRenderItem) (step : Z) : option (RawRenderItem + goerror) :=
  if step <=? 0 then Some (inr ErrQuantizeStepTooSmall)
  else
    let start := align_up (if RealStart d <? RealStart r then RealStart d else RealStart r) step in
    let endTime := align_end (if RealEnd d >? RealEnd r then RealEnd d else RealEnd r) step in
    let rData := sort_points (Data r) in
    let dData := sort_points (Data d) in
    out ← mwr_loop (range_fuel start endTime step) start endTime step
            (last_time dData >? 0) (last_time rData >? 0) dData rData [];
    Some (inl (merge_meta (set_range r start endTime step out) d)).

(** ** JoinWithResample *)

(** The receiver's points of one step: the last one replaces [dp]. *)
Fixpoint join_r (t lo : Z) (dp : RawDataPoint) (data : list RawDataPoint)
  : RawDataPoint * list RawDataPoint :=
  match data with
  | [] => (dp, [])
  | d :: rest =>
      if p_Time d <=? lo then join_r t lo dp rest
      else if p_Time d >? t then (dp, data)
      else join_r t lo d rest
  end.

(** The argument's points of one step: used while [dp] is null. *)
Fixpoint join_d (t lo : Z) (dp : RawDataPoint) (data : list RawDataPoint)
  : RawDataPoint * list RawDataPoint :=
  match data with
  | [] => (dp, [])
  | d :: rest =>
      if p_Time d <=? lo then join_d t lo dp rest
      else if p_Time d >? t then (dp, data)
      else join_d t lo (if IsNull dp then d else dp) rest
  end.

Fixpoint join_loop (fuel : nat) (t endTime step : Z) (dp : RawDataPoint)
  (r d out : list RawDataPoint) : option (list RawDataPoint) :=
  match fuel with
  | O => None
  | S fuel =>
      if t <=? endTime then
        let lo := u32 (t - step) in
        let '(dp, r) := join_r t lo dp r in
        let '(dp, d) := join_d t lo dp d in
        if negb (IsNull dp)
        then join_loop fuel (u32 (t + step)) endTime step (NullRawDataPoint t) r d (out ++ [dp])
        else join_loop fuel (u32 (t + step)) endTime step dp r d out
      else Some out
  end.

Definition JoinWithResample (r d : RawRenderItem) (step : Z) : option (RawRenderItem + goerror) :=
  if step <=? 0 then Some (inr ErrQuantizeStepTooSmall)
  else
    let start := align_up (if RealStart d <? RealStart r then RealStart d else RealStart r) step in
    let endTime := align_end (if RealEnd d >? RealEnd r then RealEnd d else RealEnd r) step in
    out ← join_loop (range_fuel start endTime step) start endTime step (NullRawDataPoint start)
            (sort_points (Data r)) (sort_points (Data d)) [];
    Some (inl (merge_meta (set_range r start endTime step out) d)).

End resample.
