(* ===== verification/ResampleTheorems.v ===== *)
(** The properties of the series of a query: merging points, and that
    resampling and merging series end, keep the time grid and lose no
    count. *)
From Stdlib Require Sorting.Sorted.
From S2P Require Import Prelude Float64 GoStrings GoSort Tags Repr Aggs RawData Resample.

Open Scope Z_scope.

(** ** Points *)

(** A point with data: its maximum is a number and its count positive. *)
Definition live (p : RawDataPoint) : Prop := IsNaN (p_Max p) = false /\ 0 < p_Count p.

(** Nothing collected yet. *)
Definition blank (p : RawDataPoint) : Prop := IsNull p = true /\ p_Count p = 0.

Definition counts (l : list RawDataPoint) : Z := foldr (fun p n => p_Count p + n) 0 l.

Lemma point_counts_app (a b : list RawDataPoint) : counts (a ++ b) = counts a + counts b.
Proof. induction a as [|p a IH]; simpl; [done|]. rewrite IH. lia. Qed.

Lemma counts_perm (a b : list RawDataPoint) : a ≡ₚ b -> counts a = counts b.
Proof. induction 1; simpl; lia. Qed.

Lemma counts_nonneg (l : list RawDataPoint) : Forall live l -> 0 <= counts l.
Proof. induction 1 as [|p l [_ Hp] _ IH]; simpl; lia. Qed.

Lemma live_not_null (p : RawDataPoint) : live p -> IsNull p = false.
Proof. intros [H _]. unfold IsNull. rewrite H. apply andb_false_r. Qed.

Lemma blank_Null (t : Z) : blank (NullRawDataPoint t).
Proof. done. Qed.

Lemma merge_max_number (r d : RawDataPoint) :
  IsNaN (p_Max d) = false ->
  IsNaN (if IsNaN (p_Max r) || flt (p_Max r) (p_Max d) then p_Max d else p_Max r) = false.
Proof. intros Hd. destruct (IsNaN (p_Max r)) eqn:E; simpl; [done|]. by destruct (flt _ _). Qed.

(** Merging a live point adds its count. *)
Lemma merge_live (r d : RawDataPoint) :
  (blank r \/ live r) -> live d -> p_Count r + p_Count d < 2 ^ 63 ->
  live (point_Merge r d) /\ p_Count (point_Merge r d) = p_Count r + p_Count d.
Proof.
  intros Hr Hd Hlt. unfold point_Merge. rewrite (live_not_null d Hd). pose proof Hd as [Hm Hc].
  assert (Hcount : merge_count (p_Count r) (p_Count d) = p_Count r + p_Count d).
  { unfold merge_count. rewrite !Z.gtb_ltb, (proj2 (Z.ltb_lt 0 (p_Count d))) by lia.
    destruct Hr as [[_ ->]|[_ Hr]]; [done|].
    rewrite (proj2 (Z.eqb_neq (p_Count r) 0)), (proj2 (Z.ltb_lt 0 (p_Count r))) by lia. simpl.
    apply swrap_id; lia. }
  split; [|done]. split; [by apply merge_max_number|]. simpl. rewrite Hcount.
  destruct Hr as [[_ ->]|[_ Hr]]; lia.
Qed.

Lemma merge_points_live (l : list RawDataPoint) (dp : RawDataPoint) :
  (blank dp \/ live dp) -> Forall live l -> p_Count dp + counts l < 2 ^ 63 ->
  p_Count (merge_points dp l) = p_Count dp + counts l /\
  (l <> [] \/ live dp -> live (merge_points dp l)) /\ (l = [] -> merge_points dp l = dp).
Proof.
  unfold merge_points. revert dp. induction l as [|d l IH]; intros dp Hdp Hl Hlt.
  { simpl. split; [lia|]. split; [|done]. by intros [|]. }
  apply Forall_cons in Hl as [Hd Hl]. simpl in *. pose proof (counts_nonneg l Hl).
  destruct (merge_live dp d Hdp Hd) as [Hlive Hcount]; [lia|].
  destruct (IH (point_Merge dp d)) as (Hc & Hlv & _); [by right|done|lia|].
  split; [lia|]. split; [|done]. intros _. apply Hlv. by right.
Qed.

(** Merging a live point into another: the time is the later one,
    the minimum and the maximum bound both points, the counts add up, and
    the last value follows the later time. *)
Theorem point_Merge_spec (r d : RawDataPoint) :
  live r -> live d -> IsNaN (p_Min r) = false -> IsNaN (p_Min d) = false ->
  IsNaN (p_Last r) = false -> IsNaN (p_Last d) = false -> 0 <= p_Time r ->
  p_Count r + p_Count d < 2 ^ 63 ->
  let m := point_Merge r d in
  p_Time m = Z.max (p_Time r) (p_Time d) /\ p_Count m = p_Count r + p_Count d /\
  flt (p_Max m) (p_Max r) = false /\ flt (p_Max m) (p_Max d) = false /\
  flt (p_Min r) (p_Min m) = false /\ flt (p_Min d) (p_Min m) = false /\
  p_Last m = (if p_Time r <? p_Time d then p_Last d else p_Last r).
Proof.
  intros Hr Hd Hmr Hmd Hlr Hld Ht Hlt m.
  destruct (merge_live r d (or_intror Hr) Hd Hlt) as [_ Hc]. fold m in Hc.
  unfold m, point_Merge. rewrite (live_not_null d Hd). simpl. destruct Hr as [Hxr _]. rewrite Hmr, Hxr. simpl.
  split; [case_if; lia|]. split; [unfold m, point_Merge in Hc; by rewrite (live_not_null d Hd) in Hc|].
  assert (Hmax : flt (if flt (p_Max r) (p_Max d) then p_Max d else p_Max r) (p_Max r) = false /\
    flt (if flt (p_Max r) (p_Max d) then p_Max d else p_Max r) (p_Max d) = false).
  { destruct (flt (p_Max r) (p_Max d)) eqn:E; split; try apply flt_irrefl; [by apply flt_asym|done]. }
  assert (Hmin : flt (p_Min r) (if fgt (p_Min r) (p_Min d) then p_Min d else p_Min r) = false /\
    flt (p_Min d) (if fgt (p_Min r) (p_Min d) then p_Min d else p_Min r) = false).
  { unfold fgt. destruct (flt (p_Min d) (p_Min r)) eqn:E; split; try apply flt_irrefl; [by apply flt_asym|done]. }
  do 2 (split; [apply Hmax|]). do 2 (split; [apply Hmin|]).
  unfold merge_last. rewrite Hld, Z.gtb_ltb. cbn [negb]. rewrite andb_true_r.
  destruct (p_Time r <? p_Time d) eqn:E; bool_to_prop.
  - rewrite (proj2 (Z.eqb_neq (p_Time d) 0)) by lia. simpl. by rewrite Hld.
  - rewrite andb_false_r. simpl. by rewrite Hlr.
Qed.

Definition sample_raw (t v c : Z) : RawDataPoint :=
  mkRaw t (float_of_Z v) (float_of_Z v) (float_of_Z v) (float_of_Z v) c.

Lemma point_Merge_spec_witness :
  let r := sample_raw 10 3 1 in let d := sample_raw 12 5 2 in
  let m := point_Merge r d in
  p_Time m = Z.max (p_Time r) (p_Time d) /\ p_Count m = p_Count r + p_Count d /\
  flt (p_Max m) (p_Max r) = false /\ flt (p_Max m) (p_Max d) = false /\
  flt (p_Min r) (p_Min m) = false /\ flt (p_Min d) (p_Min m) = false /\
  p_Last m = (if p_Time r <? p_Time d then p_Last d else p_Last r).
Proof.
  apply (point_Merge_spec (sample_raw 10 3 1) (sample_raw 12 5 2));
    first [split; vm_compute; reflexivity|vm_compute; reflexivity|vm_compute; discriminate].
Defined.

(** ** Sorting *)

Definition time_sorted (l : list RawDataPoint) : Prop :=
  Sorted.StronglySorted (fun a b => p_Time a <= p_Time b) l.

Lemma points_Less_order (l : list RawDataPoint) : weak_order_on points_Less l.
Proof.
  unfold points_Less. constructor.
  - intros x _. apply Z.ltb_irrefl.
  - intros x y z _ _ _. rewrite !Z.ltb_lt. lia.
  - intros x y z _ _ _. rewrite !Z.ltb_ge. lia.
Qed.

Lemma sorted_time_sorted (l : list RawDataPoint) : sorted points_Less l -> time_sorted l.
Proof.
  induction l as [|p l IH]; intros Hs; [constructor|]. apply sorted_cons in Hs as [Hf Hs].
  constructor; [by apply IH|]. apply (Forall_impl _ _ _ Hf). intros q Hq.
  unfold points_Less in Hq. by apply Z.ltb_ge.
Qed.

Section sorting.
Context {GS : GoSort}.

Lemma sort_points_sorted (l : list RawDataPoint) : time_sorted (sort_points l).
Proof. apply sorted_time_sorted, sort_sorted, points_Less_order. Qed.

Lemma sort_points_perm (l : list RawDataPoint) : sort_points l ≡ₚ l.
Proof. apply sort_perm. Qed.

(** Merging two series keeps exactly the points of both, in time
    order, and covers both ranges. *)
Theorem item_Merge_spec (r m : RawRenderItem) :
  let o := item_Merge r m in
  Data o ≡ₚ Data r ++ Data m /\ time_sorted (Data o) /\
  RealStart o = Z.min (RealStart r) (RealStart m) /\ RealEnd o = Z.max (RealEnd r) (RealEnd m) /\
  Start o = Z.min (Start r) (Start m) /\ End_ o = Z.max (End_ r) (End_ m) /\
  InCache o = (InCache m || InCache r).
Proof.
  simpl. split; [apply sort_points_perm|]. split; [apply sort_points_sorted|].
  split_and!; try (case_if; lia). by destruct (InCache m).
Qed.

(** ** Resample *)

(** Strictly increasing times. *)
Definition increasing (l : list RawDataPoint) : Prop :=
  Sorted.StronglySorted (fun a b => p_Time a < p_Time b) l.

(** The points of one step are the first part of the sorted data. *)
Lemma resample_take_spec (t lo : Z) (data : list RawDataPoint) (dp : RawDataPoint) :
  time_sorted data -> Forall (fun p => lo <= p_Time p) data ->
  exists a b, data = a ++ b /\ Forall (fun p => p_Time p <= t) a /\ Forall (fun p => t < p_Time p) b /\
    resample_take t lo dp data = (merge_points dp a, b).
Proof.
  revert dp. induction data as [|d data IH]; intros dp Hs Hlo.
  { exists [], []. by split_and!. }
  apply Sorted.StronglySorted_inv in Hs as [Hs Hd]. apply Forall_cons in Hlo as [Hdlo Hlo].
  cbn [resample_take]. rewrite (proj2 (Z.ltb_ge (p_Time d) lo)) by lia.
  destruct (p_Time d >? t) eqn:E; bool_to_prop.
  - exists [], (d :: data). split_and!; try done. constructor; [done|].
    apply (Forall_impl _ _ _ Hd). intros q Hq. lia.
  - destruct (IH (point_Merge dp d) Hs Hlo) as (a & b & -> & Ha & Hb & ->).
    exists (d :: a), b. split_and!; try done. by constructor.
Qed.

Lemma time_sorted_app (a b : list RawDataPoint) : time_sorted (a ++ b) -> time_sorted b.
Proof. induction a as [|p a IH]; [done|]. intros [Hs _]%Sorted.StronglySorted_inv. by apply IH. Qed.

Lemma increasing_cons (p : RawDataPoint) (l : list RawDataPoint) (t : Z) :
  increasing l -> Forall (fun q => t < p_Time q) l -> p_Time p = t -> increasing (p :: l).
Proof. intros Hl Hf <-. constructor; done. Qed.

Lemma set_Time_live (p : RawDataPoint) (t : Z) : live p -> live (set_Time p t).
Proof. done. Qed.

(** The loop with [m] steps left. *)
Lemma resample_loop_spec (m : nat) (endTime step : Z) :
  0 < step -> endTime + step < 2 ^ 32 ->
  forall (t : Z) (dp : RawDataPoint) (data out : list RawDataPoint) (fuel : nat),
  t + Z.of_nat m * step = endTime + step -> step <= t -> blank dp -> time_sorted data ->
  Forall live data -> Forall (fun p => t - step < p_Time p <= endTime) data ->
  counts data < 2 ^ 63 -> (m < fuel)%nat ->
  exists new, resample_loop fuel t endTime step dp data out = Some (out ++ new) /\
    counts new = counts data /\ increasing new /\ Forall live new /\
    Forall (fun p => t <= p_Time p <= endTime /\ (p_Time p - t) mod step = 0) new.
Proof.
  intros Hstep Hend. induction m as [|m IH]; intros t dp data out fuel Hm Ht Hdp Hs Hl Hr Hc Hf;
    (destruct fuel as [|fuel]; [lia|]); cbn [resample_loop].
  - rewrite (proj2 (Z.leb_gt t endTime)) by lia. exists [].
    assert (data = []) as ->.
    { destruct data as [|p data]; [done|]. apply Forall_cons in Hr as [Hp _]. lia. }
    rewrite app_nil_r. split_and!; try done; constructor.
  - rewrite (proj2 (Z.leb_le t endTime)) by nia.
    rewrite (wrap_id 32 (t - step)), (wrap_id 32 (t + step)) by (unfold in_width; nia).
    destruct (resample_take_spec t (t - step) data dp Hs) as (a & b & -> & Ha & Hb & ->).
    { apply (Forall_impl _ _ _ Hr). intros p Hp. lia. }
    apply Forall_app in Hl as [Hla Hlb], Hr as [Hra Hrb]. rewrite point_counts_app in Hc |- *.
    pose proof (counts_nonneg a Hla). pose proof (counts_nonneg b Hlb). pose proof Hdp as [_ Hdp0].
    destruct (merge_points_live a dp (or_introl Hdp) Hla) as (Hca & Hlv & Hnil); [lia|].
    assert (Hnext : Forall (fun p => t + step - step < p_Time p <= endTime) b).
    { apply Forall_forall. intros p Hp. rewrite Forall_forall in Hb, Hrb. specialize (Hb p Hp).
      specialize (Hrb p Hp). simpl in *. lia. }
    pose proof (time_sorted_app _ _ Hs) as Hsb.
    assert (Hstep_grid : forall new, Forall (fun p => t + step <= p_Time p <= endTime /\
      (p_Time p - (t + step)) mod step = 0) new ->
      Forall (fun p => t <= p_Time p <= endTime /\ (p_Time p - t) mod step = 0) new).
    { intros new Hn. apply (Forall_impl _ _ _ Hn). intros p [Hp1 Hp2]. split; [lia|].
      replace (p_Time p - t) with (p_Time p - (t + step) + 1 * step) by lia.
      by rewrite Z_mod_plus_full. }
    destruct a as [|d a].
    + rewrite (Hnil eq_refl). destruct Hdp as [Hnull _]. rewrite Hnull. cbn [negb].
      destruct (IH (t + step) dp b out fuel) as (new & E & Hcn & Hinc & Hln & Hg); try done; try nia.
      exists new. split_and!; try done. by apply Hstep_grid.
    + assert (Hlive : live (merge_points dp (d :: a))) by (apply Hlv; by left).
      rewrite (live_not_null _ Hlive). cbn [negb].
      set (dp' := merge_points dp (d :: a)) in *.
      destruct (IH (t + step) (NullRawDataPoint t) b (out ++ [set_Time dp' t]) fuel)
        as (new & E & Hcn & Hinc & Hln & Hg); try done; try nia.
      exists (set_Time dp' t :: new). rewrite E, <- app_assoc. split; [done|].
      split; [simpl in *; lia|]. split.
      { apply (increasing_cons _ _ t); [done| |done]. apply (Forall_impl _ _ _ Hg). intros p Hp. lia. }
      split; [by constructor; [apply set_Time_live|]|].
      constructor; [|by apply Hstep_grid]. simpl. split; [nia|]. by rewrite Z.sub_diag.
Qed.

(** ** The time range *)

Lemma align_up_spec (x step : Z) :
  0 < step -> 0 <= x -> x + step < 2 ^ 32 ->
  x <= align_up x step < x + step /\ align_up x step mod step = 0.
Proof.
  intros Hs Hx Hlt. unfold align_up. pose proof (Z.mod_pos_bound x step Hs).
  pose proof (Z.div_mod x step ltac:(lia)).
  destruct (x mod step =? 0) eqn:E; bool_to_prop; cbn [negb]; [split; [lia|done]|].
  rewrite (wrap_id 32 (x + step)) by (unfold in_width; lia).
  rewrite wrap_id by (unfold in_width; lia). split; [lia|].
  replace (x + step - x mod step) with ((x / step + 1) * step) by lia. apply Z_mod_mult.
Qed.

Lemma align_end_spec (e step : Z) :
  0 < step -> 0 < e -> e + step < 2 ^ 32 ->
  e <= align_end e step < e + step /\ align_end e step mod step = 0.
Proof.
  intros Hs He Hlt. unfold align_end. rewrite (wrap_id 32 (e - 1)) by (unfold in_width; lia).
  pose proof (Z.mod_pos_bound (e - 1) step Hs). pose proof (Z.div_mod (e - 1) step ltac:(lia)).
  pose proof (Z.div_pos (e - 1) step ltac:(lia) Hs).
  rewrite (wrap_id 32 (e - 1 - _)) by (unfold in_width; nia).
  rewrite wrap_id by (unfold in_width; nia). split; [lia|].
  replace (e - 1 - (e - 1) mod step + step) with (((e - 1) / step + 1) * step) by lia.
  apply Z_mod_mult.
Qed.

(** The slots between an aligned start and an aligned end. *)
Lemma grid_steps (s e step : Z) :
  0 < step -> s mod step = 0 -> e mod step = 0 -> s < e + step ->
  exists m, s + Z.of_nat m * step = e + step /\ (m < range_fuel s e step)%nat.
Proof.
  intros Hstep Hs He Hlt. apply Z.mod_divide in Hs as [a Ha], He as [b Hb]; [|lia..].
  exists (Z.to_nat (b - a + 1)). assert (0 <= b - a + 1) by nia. rewrite Z2Nat.id by lia.
  split; [nia|]. unfold range_fuel. replace (e - s) with ((b - a) * step) by nia.
  rewrite Z.div_mul by lia. lia.
Qed.

Definition in_range (r : RawRenderItem) : Prop :=
  Forall live (Data r) /\ Forall (fun p => RealStart r <= p_Time p <= RealEnd r) (Data r).

Lemma resample_spec (r : RawRenderItem) (step : Z) :
  0 < step -> 0 < RealStart r <= RealEnd r -> RealEnd r + 2 * step <= 2 ^ 32 ->
  in_range r -> counts (Data r) < 2 ^ 63 ->
  exists r', Resample r step = Some (inl r') /\ counts (Data r') = counts (Data r) /\
    increasing (Data r') /\ Step r' = step /\
    Forall (fun p => Start r' <= p_Time p <= End_ r' /\ p_Time p mod step = 0) (Data r').
Proof.
  intros Hstep Hse Hmax [Hl Hr] Hc. unfold Resample. rewrite (proj2 (Z.leb_gt step 0)) by lia.
  destruct (align_up_spec (RealStart r) step) as [Hs1 Hs2]; [lia..|].
  destruct (align_end_spec (RealEnd r) step) as [He1 He2]; [lia..|].
  set (start := align_up (RealStart r) step) in *. set (e := align_end (RealEnd r) step) in *.
  destruct (grid_steps start e step Hstep Hs2 He2) as (m & Hm & Hfuel); [lia|].
  assert (Hge : step <= start).
  { pose proof (Z.div_mod start step ltac:(lia)). assert (0 < start / step) by nia. nia. }
  pose proof (sort_points_perm (Data r)) as Hp.
  destruct (resample_loop_spec m e step Hstep ltac:(lia) start (NullRawDataPoint start)
    (sort_points (Data r)) [] (range_fuel start e step)) as (new & -> & Hcn & Hinc & _ & Hg); try done.
  - apply sort_points_sorted.
  - by rewrite Hp.
  - rewrite Hp. apply (Forall_impl _ _ _ Hr). intros p Hpt. lia.
  - by rewrite (counts_perm _ _ Hp).
  - eexists. split; [done|]. simpl. rewrite Hcn, (counts_perm _ _ Hp). split_and!; try done.
    apply (Forall_impl _ _ _ Hg). intros p [Hp1 Hp2]. split; [done|].
    apply Z.mod_divide in Hs2 as [a Ha]; [|lia]. apply Z.mod_divide in Hp2 as [b Hb]; [|lia].
    apply Z.mod_divide; [lia|]. exists (a + b). lia.
Qed.

(** C25: Resampling an item to a positive step, when its start is not zero
    and not after its end, two steps past the end still fit 32 bits, and
    its points lie between start and end, have a maximum that is a number
    and positive counts, which add up to less than 2^63.  It ends, puts at most one point
    on each multiple of the step, in increasing time order and inside the
    new range, and loses no count: the counts of the result add up to those
    of the data. *)
Theorem resample_conserves (r : RawRenderItem) (step : Z) :
  0 < step -> 0 < RealStart r <= RealEnd r -> RealEnd r + 2 * step <= 2 ^ 32 ->
  in_range r -> counts (Data r) < 2 ^ 63 ->
  exists r', Resample r step = Some (inl r') /\ counts (Data r') = counts (Data r) /\
    increasing (Data r') /\ Step r' = step /\
    Forall (fun p => Start r' <= p_Time p <= End_ r' /\ p_Time p mod step = 0) (Data r').
Proof. apply resample_spec. Qed.

(** ** MergeWithResample *)

Lemma take_until_spec (t : Z) (data : list RawDataPoint) :
  time_sorted data ->
  exists a b, take_until t data = (a, b) /\ data = a ++ b /\
    Forall (fun p => p_Time p <= t) a /\ Forall (fun p => t < p_Time p) b.
Proof.
  induction data as [|d data IH]; intros Hs; [by exists [], []|].
  apply Sorted.StronglySorted_inv in Hs as [Hs Hd]. cbn [take_until].
  destruct (p_Time d >? t) eqn:E; bool_to_prop.
  - exists [], (d :: data). split_and!; try done. constructor; [done|].
    apply (Forall_impl _ _ _ Hd). intros q Hq. lia.
  - destruct (IH Hs) as (a & b & -> & -> & Ha & Hb). exists (d :: a), b.
    split_and!; try done. by constructor.
Qed.

Lemma merge_bin_spec (pts : list RawDataPoint) :
  Forall live pts -> counts pts < 2 ^ 63 ->
  match merge_bin pts with
  | None => pts = []
  | Some p => live p /\ p_Count p = counts pts
  end.
Proof.
  intros Hl Hc. unfold merge_bin. destruct pts as [|p [|q [|x pts]]]; [done| | |].
  - rewrite Forall_singleton in Hl. split; [done|]. simpl. lia.
  - apply Forall_cons in Hl as [Hp Hl]. rewrite Forall_singleton in Hl. simpl in *.
    destruct (merge_live p q (or_intror Hp) Hl) as [H1 H2]; [lia|]. split; [done|]. lia.
  - pose proof (sort_points_perm (p :: q :: x :: pts)) as Hp.
    assert (Hl' : Forall live (sort_points (p :: q :: x :: pts))) by (by rewrite Hp).
    pose proof (counts_perm _ _ Hp) as Hcp.
    destruct (sort_points (p :: q :: x :: pts)) as [|y l].
    { apply Permutation_length in Hp. simpl in Hp. lia. }
    apply Forall_cons in Hl' as [Hy Hl']. simpl in Hcp.
    destruct (merge_points_live l y (or_intror Hy) Hl') as (H1 & H2 & _); [simpl in Hc; lia|].
    split; [apply H2; by right|]. simpl. lia.
Qed.

(** Taking from a list that is known to be empty or in use. *)
Definition take_if (use : bool) (t : Z) (l : list RawDataPoint) : list RawDataPoint * list RawDataPoint :=
  if use then take_until t l else ([], l).

Lemma take_if_spec (use : bool) (t : Z) (l : list RawDataPoint) :
  time_sorted l -> (use = false -> l = []) ->
  exists a b, take_if use t l = (a, b) /\ l = a ++ b /\
    Forall (fun p => p_Time p <= t) a /\ Forall (fun p => t < p_Time p) b.
Proof.
  intros Hs Hu. destruct use; [by apply take_until_spec|]. rewrite (Hu eq_refl).
  by exists [], [].
Qed.

(** The merged point's time is one of the times. *)
Lemma point_Merge_time (lo hi : Z) (p q : RawDataPoint) :
  lo < p_Time p <= hi -> lo < p_Time q <= hi -> lo < p_Time (point_Merge p q) <= hi.
Proof. intros Hp Hq. unfold point_Merge. case_if; [done|]. simpl. case_if; lia. Qed.

Lemma merge_points_time (lo hi : Z) (l : list RawDataPoint) (p : RawDataPoint) :
  lo < p_Time p <= hi -> Forall (fun q => lo < p_Time q <= hi) l ->
  lo < p_Time (merge_points p l) <= hi.
Proof.
  unfold merge_points. revert p. induction l as [|q l IH]; intros p Hp Hl; [done|].
  apply Forall_cons in Hl as [Hq Hl]. simpl. apply IH; [|done]. by apply point_Merge_time.
Qed.

Lemma merge_bin_time (lo hi : Z) (pts : list RawDataPoint) (p : RawDataPoint) :
  Forall (fun q => lo < p_Time q <= hi) pts -> merge_bin pts = Some p -> lo < p_Time p <= hi.
Proof.
  intros Hf. unfold merge_bin. destruct pts as [|a [|b [|c pts]]]; [done| | |].
  - rewrite Forall_singleton in Hf. by intros [= ->].
  - rewrite !Forall_cons in Hf. destruct Hf as (Ha & Hb & _). intros [= <-]. by apply point_Merge_time.
  - pose proof (sort_points_perm (a :: b :: c :: pts)) as Hp. rewrite <- Hp in Hf.
    destruct (sort_points _) as [|x l]; [done|]. apply Forall_cons in Hf as [Hx Hl].
    intros [= <-]. by apply merge_points_time.
Qed.

(** The points of a list that are still to come. *)
Record pending (lo endTime : Z) (l : list RawDataPoint) : Prop := {
  pending_sorted : time_sorted l;
  pending_live : Forall live l;
  pending_time : Forall (fun p => lo < p_Time p <= endTime) l
}.

(** One step takes the points up to [t] and leaves the later ones. *)
Lemma pending_take (use : bool) (t lo endTime : Z) (l : list RawDataPoint) :
  pending lo endTime l -> (use = false -> l = []) ->
  exists a b, take_if use t l = (a, b) /\ l = a ++ b /\ Forall live a /\
    Forall (fun p => lo < p_Time p <= t) a /\ pending t endTime b /\ (use = false -> b = []).
Proof.
  intros [Hs Hl Ht] Hu. destruct (take_if_spec use t l Hs Hu) as (a & b & E & -> & Ha & Hb).
  apply Forall_app in Hl as [Hla Hlb], Ht as [Hta Htb]. exists a, b. split_and!; try done.
  - apply Forall_forall. intros p Hp. rewrite Forall_forall in Ha, Hta.
    specialize (Ha p Hp). specialize (Hta p Hp). simpl in *. lia.
  - constructor; [by eapply time_sorted_app|done|]. apply Forall_forall. intros p Hp.
    rewrite Forall_forall in Hb, Htb. specialize (Hb p Hp). specialize (Htb p Hp). simpl in *. lia.
  - intros Hf. by apply app_nil in Hu as [_ ?].
Qed.

Lemma pending_none (lo endTime : Z) (l : list RawDataPoint) :
  endTime <= lo -> pending lo endTime l -> l = [].
Proof.
  intros Hle [_ _ Ht]. destruct l as [|p l]; [done|]. apply Forall_cons in Ht as [Hp _]. lia.
Qed.

(** The loop with [m] steps left. *)
Lemma mwr_loop_spec (m : nat) (endTime step : Z) (use_d use_r : bool) :
  0 < step -> endTime + step < 2 ^ 32 ->
  forall (t : Z) (d Rs out : list RawDataPoint) (fuel : nat),
  t + Z.of_nat m * step = endTime + step -> 0 <= t ->
  pending (t - step) endTime d -> pending (t - step) endTime Rs ->
  (use_d = false -> d = []) -> (use_r = false -> Rs = []) ->
  counts d + counts Rs < 2 ^ 63 -> (m < fuel)%nat ->
  exists new, mwr_loop fuel t endTime step use_d use_r d Rs out = Some (out ++ new) /\
    counts new = counts d + counts Rs /\ increasing new /\ (length new <= m)%nat /\
    Forall (fun p => t - step < p_Time p <= endTime) new.
Proof.
  intros Hstep Hend. induction m as [|m IH]; intros t d Rs out fuel Hm Ht Hd HR Hud Hur Hc Hf;
    (destruct fuel as [|fuel]; [lia|]); cbn [mwr_loop].
  - rewrite (proj2 (Z.leb_gt t endTime)) by lia. exists [].
    rewrite (pending_none (t - step) endTime d), (pending_none (t - step) endTime Rs), app_nil_r by (done || lia).
    split_and!; try done; constructor.
  - rewrite (proj2 (Z.leb_le t endTime)) by nia. rewrite (wrap_id 32 (t + step)) by (unfold in_width; nia).
    destruct (pending_take use_d t _ _ d Hd Hud) as (a & d' & Ea & -> & Hla & Hta & Hd' & Hud').
    destruct (pending_take use_r t _ _ Rs HR Hur) as (b & R' & Eb & -> & Hlb & Htb & HR' & Hur').
    fold (take_if use_d t (a ++ d')). fold (take_if use_r t (b ++ R')). rewrite Ea, Eb.
    rewrite !point_counts_app in Hc |- *.
    pose proof (counts_nonneg _ Hla). pose proof (counts_nonneg _ Hlb).
    pose proof (counts_nonneg _ (pending_live _ _ _ Hd')). pose proof (counts_nonneg _ (pending_live _ _ _ HR')).
    pose proof (merge_bin_spec (a ++ b)) as Hbin. rewrite point_counts_app in Hbin.
    specialize (Hbin ltac:(by apply Forall_app) ltac:(lia)).
    pose proof (merge_bin_time (t - step) t (a ++ b)) as Htime.
    set (out' := match merge_bin (a ++ b) with Some p => out ++ [p] | None => out end).
    replace t with (t + step - step) in Hd', HR' by lia.
    destruct (IH (t + step) d' R' out' fuel) as (new & E & Hcn & Hinc & Hlen & Hnt); try done; try nia.
    replace (t + step - step) with t in Hnt by lia.
    assert (Hnew : Forall (fun p => t - step < p_Time p <= endTime) new).
    { apply (Forall_impl _ _ _ Hnt). intros p Hp. lia. }
    rewrite E. unfold out'. destruct (merge_bin (a ++ b)) as [p|].
    + destruct Hbin as [Hp Hpc]. specialize (Htime p ltac:(by apply Forall_app) eq_refl).
      exists (p :: new). rewrite <- app_assoc. split; [done|].
      split; [simpl; lia|]. split; [|split; [simpl; lia|by constructor; [nia|]]].
      constructor; [done|]. apply (Forall_impl _ _ _ Hnt). intros q Hq. lia.
    + apply app_nil in Hbin as [-> ->]. exists new. simpl in *. split_and!; try done; lia.
Qed.

Lemma last_time_used (l : list RawDataPoint) :
  Forall (fun p => 0 < p_Time p) l -> (last_time l >? 0) = false -> l = [].
Proof.
  intros Hf Hl. unfold last_time in Hl. destruct (last l) as [p|] eqn:E; [|by apply last_None].
  apply last_Some_elem_of in E. rewrite Forall_forall in Hf. specialize (Hf p E). bool_to_prop. lia.
Qed.

(** Merging two series while resampling ends, loses no count of
    either series, and leaves at most one point a step: the points of the
    result are in strictly increasing time order. *)
Theorem merge_resample_conserves (r d : RawRenderItem) (step : Z) :
  0 < step -> 0 < RealStart r <= RealEnd r -> 0 < RealStart d <= RealEnd d ->
  Z.max (RealEnd r) (RealEnd d) + 2 * step <= 2 ^ 32 ->
  in_range r -> in_range d -> counts (Data r) + counts (Data d) < 2 ^ 63 ->
  exists o, MergeWithResample r d step = Some (inl o) /\
    counts (Data o) = counts (Data r) + counts (Data d) /\ increasing (Data o) /\
    Step o = step /\ Z.of_nat (length (Data o)) <= (End_ o - Start o) / step + 1 /\
    Forall (fun p => Start o - step < p_Time p <= End_ o) (Data o).
Proof.
  intros Hstep Hr Hd Hmax [Hlr Htr] [Hld Htd] Hc. unfold MergeWithResample.
  rewrite (proj2 (Z.leb_gt step 0)) by lia.
  set (s0 := if RealStart d <? RealStart r then _ else _).
  set (e0 := if RealEnd d >? RealEnd r then _ else _).
  assert (Hs0 : 0 < s0 /\ s0 <= RealStart r /\ s0 <= RealStart d) by (unfold s0; case_if; bool_to_prop; lia).
  assert (He0 : RealEnd r <= e0 /\ RealEnd d <= e0 /\ e0 + 2 * step <= 2 ^ 32) by (unfold e0; case_if; bool_to_prop; lia).
  clearbody s0 e0. destruct (align_up_spec s0 step) as [Hs1 Hs2]; [lia..|].
  destruct (align_end_spec e0 step) as [He1 He2]; [lia..|].
  set (start := align_up s0 step) in *. set (e := align_end e0 step) in *.
  destruct (grid_steps start e step Hstep Hs2 He2) as (m & Hm & Hfuel); [lia|].
  pose proof (sort_points_perm (Data r)) as Hpr. pose proof (sort_points_perm (Data d)) as Hpd.
  destruct (mwr_loop_spec m e step (last_time (sort_points (Data d)) >? 0)
    (last_time (sort_points (Data r)) >? 0) Hstep ltac:(lia) start (sort_points (Data d))
    (sort_points (Data r)) [] (range_fuel start e step))
    as (new & -> & Hcn & Hinc & Hlen & Hnt); try done; try lia.
  - constructor; [apply sort_points_sorted|by rewrite Hpd|]. rewrite Hpd.
    apply (Forall_impl _ _ _ Htd). intros p Hp. lia.
  - constructor; [apply sort_points_sorted|by rewrite Hpr|]. rewrite Hpr.
    apply (Forall_impl _ _ _ Htr). intros p Hp. lia.
  - apply last_time_used. rewrite Hpd. apply (Forall_impl _ _ _ Htd). intros p Hp. lia.
  - apply last_time_used. rewrite Hpr. apply (Forall_impl _ _ _ Htr). intros p Hp. lia.
  - by rewrite (counts_perm _ _ Hpr), (counts_perm _ _ Hpd), Z.add_comm.
  - eexists. split; [done|]. simpl. rewrite Hcn, (counts_perm _ _ Hpr), (counts_perm _ _ Hpd).
    split_and!; try done; [lia|]. replace (e - start) with ((Z.of_nat m - 1) * step) by lia.
    rewrite Z.div_mul by lia. lia.
Qed.

End sorting.

#[local] Existing Instance insertion_GoSort.

Definition sample_item (s e : Z) (l : list RawDataPoint) : RawRenderItem :=
  mkItem "a" "1" s e s e 1 SUM [] [] l false false.

Definition sample_a : RawRenderItem :=
  sample_item 3 27 [sample_raw 27 2 1; sample_raw 3 5 2; sample_raw 4 1 3].

Definition sample_b : RawRenderItem :=
  sample_item 8 14 [sample_raw 8 7 1; sample_raw 14 9 4].

Lemma sample_in_range : in_range sample_a /\ in_range sample_b.
Proof. split; split; repeat constructor; vm_compute; done. Qed.

Lemma resample_conserves_witness :
  exists r', Resample sample_a 10 = Some (inl r') /\ counts (Data r') = counts (Data sample_a) /\
    increasing (Data r') /\ Step r' = 10 /\
    Forall (fun p => Start r' <= p_Time p <= End_ r' /\ p_Time p mod 10 = 0) (Data r').
Proof.
  apply (resample_conserves sample_a 10); [lia|vm_compute; done|vm_compute; done| |vm_compute; done].
  apply sample_in_range.
Defined.

Lemma merge_resample_conserves_witness :
  exists o, MergeWithResample sample_a sample_b 10 = Some (inl o) /\
    counts (Data o) = counts (Data sample_a) + counts (Data sample_b) /\ increasing (Data o) /\
    Step o = 10 /\ Z.of_nat (length (Data o)) <= (End_ o - Start o) / 10 + 1 /\
    Forall (fun p => Start o - 10 < p_Time p <= End_ o) (Data o).
Proof.
  apply (merge_resample_conserves sample_a sample_b 10);
    first [lia|apply sample_in_range|vm_compute; done].
Defined.
