(* ===== verification/QueryTheorems.v ===== *)
(** From the stored blocks of a metric to the answer of a query: the
    iterators against their interface, reading Gorilla and list blocks
    back through the registry, cutting an item to a time window and
    quantizing it. *)
From Stdlib Require Sorting.Sorted.
From S2P Require Import Prelude Bits BitStream Float64 GoStrings GoSort Gorilla GorillaIter GorillaProofs.
From S2P Require Import Tags Repr Aggs Series RawData Resample ResampleTheorems.

Open Scope Z_scope.

(** ** What an iterator delivers *)

(** An iterator delivers the values and then stops. *)
Definition delivers {I : Type} `{!TimeSeriesIter I} (it : I) (vs : list point_values) : Prop :=
  forall fuel, (length vs < fuel)%nat -> collect fuel it = Some vs.

Lemma drain_collect (fuel : nat) (it it' : GorillaIter) (vs : list point_values) :
  drain fuel it = Some (vs, it') -> (length vs < fuel)%nat -> collect fuel it = Some vs.
Proof.
  revert it vs. induction fuel as [|fuel IH]; intros it vs H Hlen; [simpl in Hlen; lia|].
  cbn [drain] in H. cbn [collect iter_Next iter_Values GorillaIter_TimeSeriesIter].
  destruct (Next it) as [[[] it1]|]; cbn [mbind option_bind negb] in *; [|by injection H as <- <-|done].
  destruct (Values it1) as [v|]; cbn [mbind option_bind] in *; [|done].
  destruct (drain fuel it1) as [[ws it2]|] eqn:E; cbn [mbind option_bind] in *; [|done].
  injection H as <- <-. rewrite (IH it1 ws); [done|done|simpl in Hlen; lia].
Qed.

(** The list format delivers its statistics. *)
Definition stat_values (s : StatRepr) : point_values := (Time s, Min s, Max s, Last s, Sum s, Count s).

Lemma repr_delivers_from (l pre : list StatRepr) (cur : option StatRepr) (n : nat) :
  n = length (pre ++ l) ->
  delivers (mkReprIter (pre ++ l) (length pre) n cur false) (map stat_values l).
Proof.
  intros ->. revert pre cur. induction l as [|s l IH]; intros pre cur fuel Hf;
    (destruct fuel as [|fuel]; [simpl in Hf; lia|]);
    cbn [collect iter_Next iter_Values ReprIter_TimeSeriesIter]; unfold ri_Next;
    cbn [ri_finished ri_curIdx ri_statLen ri_Stats orb].
  - rewrite app_nil_r. by rewrite (proj2 (Nat.leb_le _ _)) by done.
  - rewrite (proj2 (Nat.leb_gt (length (pre ++ s :: l)) (length pre))) by (rewrite length_app; simpl; lia).
    rewrite list_lookup_middle by done. cbn [mbind option_bind negb ri_Values ri_curStat].
    specialize (IH (pre ++ [s]) (Some s) fuel). rewrite <- app_assoc, length_app in IH. simpl in IH.
    rewrite Nat.add_1_r in IH. rewrite IH; [done|simpl in Hf; lia].
Qed.

Lemma repr_delivers (s : ReprTimeSeries) : delivers (rs_Iter s) (map stat_values (Stats s)).
Proof. by apply (repr_delivers_from (Stats s) []). Qed.

(** ** Blocks of the database *)

(** The bytes a writer stores for a list of points. *)
Definition store_gorilla (t0 : Z) (full : bool) (h : string) (ps : list point) : option (list Z) :=
  s0 ← NewGoriallaTimeSeries t0 (mkOptions 5 full h);
  '(err, s) ← AddPoints s0 ps;
  match err with Some _ => None | None => series_Bytes s end.

(** The points a Gorilla block can hold, see the round trip of a series. *)
Definition block_points (t0 : Z) (ps : list point) : Prop :=
  Forall (fun p => point_ok p /\ (splitNano (pt_time p)).1 <> 0) ps /\
  match ps with
  | [] => False
  | p :: _ => u32 ((splitNano (pt_time p)).1 - (splitNano t0).1) < 2 ^ 14
  end.

(** A stored block and the points it was made from. *)
Record gorilla_block (full : bool) (ps : list point) (d : DBSeries) : Prop := {
  block_type : Ptype d = GORILLA;
  block_stored : exists t0 h, block_points t0 ps /\ store_gorilla t0 full h ps = Some (Pbytes d)
}.

(** What a query shows of a point: whole seconds; the five values, or
    the sum alone when the block stores the point short. *)
Definition rendered (p : point) : RawDataPoint :=
  if is_small p
  then mkRaw (splitNano (pt_time p)).1 (pt_sum p) (pt_sum p) (pt_sum p) (pt_sum p) 1
  else mkRaw (splitNano (pt_time p)).1 (pt_sum p) (pt_min p) (pt_max p) (pt_last p)
         (int64_of_float (float_of_Z (pt_count p))).

Lemma raw_of_decoded (full : bool) (p : point) : raw_of (decoded full p) = rendered p.
Proof.
  unfold decoded, rendered. destruct (splitNano_range (pt_time p)) as [Hu Hn].
  destruct (splitNano (pt_time p)) as [ut ns]. cbn [fst snd] in *. unfold in_width in Hu.
  assert (E : u32 (combineSecNano ut (if full then ns else 0) / 10 ^ 9) = ut).
  { unfold combineSecNano, second. rewrite swrap_id by (destruct full; lia).
    rewrite Z.div_add_l, Z.div_small, Z.add_0_r by (destruct full; lia). by apply wrap_id. }
  destruct (is_small p); cbn [raw_of]; by rewrite E.
Qed.

Lemma gorilla_block_delivers (full : bool) (ps : list point) (d : DBSeries) :
  gorilla_block full ps d ->
  exists it, NewGorillaIterFromBytes (Pbytes d) = inl it /\ delivers it (map (decoded full) ps).
Proof.
  intros [_ (t0 & h & [Hps H14] & Hst)]. destruct ps as [|p ps]; [done|].
  unfold store_gorilla in Hst.
  destruct (series_reads_back t0 full h p ps (S (length (p :: ps))) Hps H14 ltac:(lia))
    as (s0 & s & data & it & _ & E0 & E1 & E2 & E3 & _).
  rewrite E0 in Hst. cbn [mbind option_bind] in Hst. rewrite E1 in Hst.
  cbn [mbind option_bind] in Hst. rewrite E2 in Hst. injection Hst as <-.
  exists it. split; [done|]. intros fuel Hfuel. rewrite length_map in Hfuel.
  destruct (series_reads_back t0 full h p ps fuel Hps H14 Hfuel)
    as (s0' & s' & data' & it0 & it' & E0' & E1' & E2' & E3' & Ed & _).
  rewrite E0 in E0'. injection E0' as <-. rewrite E1 in E1'. injection E1' as <-.
  rewrite E2 in E2'. injection E2' as <-. rewrite E3 in E3'. injection E3' as <-.
  apply (drain_collect _ _ _ _ Ed). by rewrite length_map.
Qed.

Section blocks.
Context {GS : GoSort} {I : Type} {TI : TimeSeriesIter I}.
Variable new_Iter : string -> list Z -> I + goerror.

(** Reading blocks whose iterators deliver their values. *)
Lemma read_all_delivers (dbs : list DBSeries) (vss : list (list point_values)) (fuel : nat) :
  Forall2 (fun d vs => exists it, db_Iter new_Iter d = inl it /\ delivers it vs) dbs vss ->
  Forall (fun vs => (length vs < fuel)%nat) vss ->
  read_all new_Iter fuel dbs = Some (inl (concat vss)).
Proof.
  induction 1 as [|d vs dbs vss (it & E & Hd) _ IH]; intros Hf; [done|].
  apply Forall_cons in Hf as [Hv Hf]. cbn [read_all]. rewrite E, (Hd fuel Hv). cbn [mbind option_bind].
  by rewrite (IH Hf).
Qed.

(** The end of every reader. *)
Lemma finish_item_spec (r : RawRenderItem) :
  Data (finish_item r) ≡ₚ Data r /\ time_sorted (Data (finish_item r)) /\
  (Data r <> [] -> Forall (fun p => RealStart (finish_item r) <= p_Time p <= RealEnd (finish_item r))
                     (Data (finish_item r))).
Proof.
  unfold finish_item. pose proof (sort_points_perm (Data r)) as Hp.
  pose proof (sort_points_sorted (Data r)) as Hs.
  destruct (sort_points (Data r)) as [|a l] eqn:E.
  { apply Permutation_nil_l in Hp. simpl. rewrite <- Hp. split_and!; [done|constructor|done]. }
  destruct (last (a :: l)) as [b|] eqn:Eb; [|by apply last_None in Eb]. simpl head. cbn iota. simpl Data.
  split; [done|]. split; [done|]. intros _. simpl RealStart. simpl RealEnd.
  apply last_Some in Eb as [l' El]. pose proof Hs as Hs'. rewrite El in Hs'.
  apply Sorted.StronglySorted_inv in Hs as [_ Ha].
  assert (Hb : forall p, p ∈ l' -> p_Time p <= p_Time b).
  { clear -Hs'. induction l' as [|x l' IH]; intros p Hp; [by apply not_elem_of_nil in Hp|].
    apply Sorted.StronglySorted_inv in Hs' as [Hs' Hx]. apply elem_of_cons in Hp as [->|Hp]; [|by apply IH].
    apply Forall_app in Hx as [_ Hx]. by rewrite Forall_singleton in Hx. }
  apply Forall_forall. intros p Hp'. split.
  - apply elem_of_cons in Hp' as [->|Hp']; [lia|]. rewrite Forall_forall in Ha. by apply Ha.
  - rewrite El in Hp'. apply elem_of_app in Hp' as [Hp'|Hp']; [by apply Hb|].
    apply list_elem_of_singleton in Hp' as ->. lia.
Qed.

End blocks.

(** ** Reading back through the registry *)

Section registry_read.
Context {GS : GoSort} {O : Type} {OI : TimeSeriesIter O}.
Variable other_Iter : string -> list Z -> O + goerror.
Variable json_Stats : list Z -> list StatRepr + goerror.

Lemma collect_any (fuel : nat) (it : GorillaIter) :
  collect fuel (IGorilla (O:=O) it) = collect fuel it.
Proof.
  revert it. induction fuel as [|fuel IH]; intros it; [done|].
  cbn [collect iter_Next iter_Values any_iter_TimeSeriesIter GorillaIter_TimeSeriesIter].
  destruct (Next it) as [[[] it1]|]; cbn [mbind option_bind negb]; [|done..].
  destruct (Values it1); cbn [mbind option_bind]; [|done]. by rewrite IH.
Qed.

Lemma block_iter (full : bool) (ps : list point) (d : DBSeries) :
  gorilla_block full ps d ->
  exists it, db_Iter (NewIter other_Iter json_Stats) d = inl it /\ delivers it (map (decoded full) ps).
Proof.
  intros Hb. destruct (gorilla_block_delivers full ps d Hb) as (it & E & Hd).
  exists (IGorilla it). unfold db_Iter, NewIter. rewrite (block_type _ _ _ Hb).
  change (NameFromId GORILLA) with "gorilla"%string. rewrite bool_decide_true by done. rewrite E.
  split; [done|]. intros fuel Hf. rewrite collect_any. by apply Hd.
Qed.

(** Reading the blocks of a metric. *)
Lemma stored_blocks_item (full : bool) (blocks : list (list point)) (dbs : list DBSeries)
  (fuel : nat) :
  Forall2 (gorilla_block full) blocks dbs -> Forall (fun ps => (length ps < fuel)%nat) blocks ->
  exists item, ToRawRenderItem (NewIter other_Iter json_Stats) fuel dbs = Some (inl item) /\
    Data item ≡ₚ map rendered (concat blocks) /\ time_sorted (Data item) /\
    (blocks <> [] -> Forall (fun p => RealStart item <= p_Time p <= RealEnd item) (Data item)).
Proof.
  intros Hb Hf. unfold ToRawRenderItem.
  rewrite (read_all_delivers _ dbs (map (map (decoded full)) blocks)).
  - cbn [mbind option_bind]. eexists. split; [done|].
    set (r := set_Data new_item _). destruct (finish_item_spec r) as (Hp & Hs & Hr).
    assert (E : Data r = map rendered (concat blocks)).
    { unfold r, set_Data. simpl. rewrite <- concat_map, map_map.
      apply map_ext. intros p. apply raw_of_decoded. }
    rewrite E in Hp, Hr. split_and!; [done|done|]. intros Hne. apply Hr.
    destruct Hb as [|ps d blocks dbs [_ (t0 & h & [_ Hps] & _)] _]; [done|]. by destruct ps.
  - induction Hb as [|ps d blocks dbs Hd Hb IH]; simpl; [constructor|].
    apply Forall_cons in Hf as [_ Hf]. constructor; [by apply block_iter|by apply IH].
  - rewrite Forall_map. apply (Forall_impl _ _ _ Hf). intros ps. simpl. by rewrite length_map.
Qed.

(** C24: What was stored is what a query shows.  Take any number of stored
    blocks of Gorilla series, none of them empty, of points with 64-bit
    values and a second that is not zero, the first less than 2^14 seconds
    after the start of its block.  Reading them succeeds, and the item
    holds, in time order and within its real start and end, one point for
    each point written: its whole second with its five values, or, for a
    point stored short, with the sum in place of minimum, maximum and last
    value and a count of one. *)
Theorem stored_blocks_read_back (full : bool) (blocks : list (list point)) (dbs : list DBSeries)
  (fuel : nat) :
  Forall2 (gorilla_block full) blocks dbs -> Forall (fun ps => (length ps < fuel)%nat) blocks ->
  exists item, ToRawRenderItem (NewIter other_Iter json_Stats) fuel dbs = Some (inl item) /\
    Data item ≡ₚ map rendered (concat blocks) /\ time_sorted (Data item) /\
    (blocks <> [] -> Forall (fun p => RealStart item <= p_Time p <= RealEnd item) (Data item)).
Proof. apply stored_blocks_item. Qed.

End registry_read.

#[local] Existing Instance insertion_GoSort.

Definition sample_block_a : list point :=
  [ mkPoint 1500000000123456789 (float_of_Z 1) (float_of_Z 2) (float_of_Z 2) (float_of_Z 3) 2;
    mkPoint 1500000010000000000 (float_of_Z 1) (float_of_Z 1) (float_of_Z 1) (float_of_Z 1) 1 ].
Definition sample_block_b : list point :=
  [ mkPoint 1500000005000000000 (float_of_Z 2) (float_of_Z 3) (float_of_Z 1) (float_of_Z 3) 7 ].

Definition sample_db (ps : list point) : DBSeries :=
  mkDBSeries "1" 0 0 GORILLA (default [] (store_gorilla 1500000000000000000 true "n/a" ps)) 1 0.

Lemma sample_db_block (ps : list point) :
  ps = sample_block_a \/ ps = sample_block_b -> gorilla_block true ps (sample_db ps).
Proof.
  intros H. split; [done|]. exists 1500000000000000000, "n/a"%string.
  destruct H as [-> | ->]; (split; [split; [|vm_compute; done]|vm_compute; reflexivity]);
    repeat (constructor; [split; [vm_compute; split_and!; (reflexivity || discriminate)|
      vm_compute; discriminate]|]); constructor.
Qed.

Lemma stored_blocks_read_back_witness :
  exists item, ToRawRenderItem
      (NewIter (O:=ReprIter) (fun _ _ => inr (GoError "none")) (fun _ => inl [])) 5
      [sample_db sample_block_a; sample_db sample_block_b] = Some (inl item) /\
    Data item ≡ₚ map rendered (concat [sample_block_a; sample_block_b]) /\ time_sorted (Data item) /\
    ([sample_block_a; sample_block_b] <> [] ->
     Forall (fun p => RealStart item <= p_Time p <= RealEnd item) (Data item)).
Proof.
  apply (stored_blocks_read_back _ _ true [sample_block_a; sample_block_b]).
  - repeat constructor; first [exact (block_type _ _ _ (sample_db_block _ (or_introl eq_refl)))|
      exact (block_stored _ _ _ (sample_db_block _ (or_introl eq_refl)))|
      exact (block_stored _ _ _ (sample_db_block _ (or_intror eq_refl)))|idtac].
  - repeat constructor; simpl; lia.
Defined.

(** ** The names of the formats *)

(** A format's id and name determine each other, except that the
    id of zipgob is named "zipbob", which no format has; and the name of a
    compressed format's id is that of the format before it. *)
Theorem format_names :
  Forall (fun id => IdFromName (NameFromId id) = id) [GOB; JSON; PROTOBUF; GORILLA; MSGPACK; BINC; CBOR; REPR] /\
  IdFromName (NameFromId ZIPGOB) = 0 /\
  Forall2 (fun snappy id => NameFromId snappy = NameFromId id)
    [SNAPPY_ZIPGOB; SNAPPY_JSON; SNAPPY_PROTOBUF; SNAPPY_GORILLA; SNAPPY_MSGPACK; SNAPPY_BINC; SNAPPY_CBOR; SNAPPY_REPR]
    [GOB; ZIPGOB; JSON; PROTOBUF; GORILLA; MSGPACK; BINC; CBOR] /\
  NameFromId SNAPPY_GOB = ""%string.
Proof. split_and!; repeat constructor. Qed.

(** ** Cutting to a window *)

Definition in_window (start end_ : Z) (p : RawDataPoint) : bool :=
  (p_Time p >=? start) && (p_Time p <=? end_).

Lemma truncate_scan_out (l : list RawDataPoint) (i : nat) (start end_ : Z) (s : option nat) (e : nat) :
  Forall (fun p => in_window start end_ p = false) l -> truncate_scan l i start end_ s e = (s, e).
Proof.
  intros H. revert i. induction H as [|p l Hp _ IH]; intros i; [done|]. cbn [truncate_scan].
  unfold in_window in Hp. by rewrite Hp.
Qed.

Lemma truncate_scan_app (a l : list RawDataPoint) (i : nat) (start end_ : Z) (s : option nat) (e : nat) :
  truncate_scan (a ++ l) i start end_ s e =
  (let '(s, e) := truncate_scan a i start end_ s e in truncate_scan l (i + length a) start end_ s e).
Proof.
  revert i s e. induction a as [|p a IH]; intros i s e; [by rewrite Nat.add_0_r|].
  cbn [app truncate_scan length]. rewrite Nat.add_succ_r. case_if; apply IH.
Qed.

Lemma truncate_scan_in (l : list RawDataPoint) (i : nat) (start end_ : Z) (s : nat) (e : nat) :
  Forall (fun p => in_window start end_ p = true) l ->
  truncate_scan l i start end_ (Some s) e = (Some s, if decide (l = []) then e else (i + length l - 1)%nat).
Proof.
  intros H. revert i e. induction H as [|p l Hp _ IH]; intros i e; [done|]. cbn [truncate_scan].
  unfold in_window in Hp. rewrite Hp, IH. simpl. f_equal. destruct l; simpl; lia.
Qed.

(** The sorted points before, in and after the window. *)
Lemma window_split (l : list RawDataPoint) (start end_ : Z) :
  time_sorted l ->
  exists a b c, l = a ++ b ++ c /\ Forall (fun p => p_Time p < start) a /\
    Forall (fun p => start <= p_Time p <= end_) b /\ Forall (fun p => end_ < p_Time p) c.
Proof.
  intros Hs. destruct (take_until_spec (start - 1) l Hs) as (a & l' & _ & -> & Ha & Hl').
  destruct (take_until_spec end_ l' (time_sorted_app _ _ Hs)) as (b & c & _ & -> & Hb & Hc).
  apply Forall_app in Hl' as [Hl' _]. exists a, b, c. split_and!; try done.
  - apply (Forall_impl _ _ _ Ha). intros p Hp. lia.
  - apply Forall_forall. intros p Hp. rewrite Forall_forall in Hb, Hl'.
    specialize (Hb p Hp). specialize (Hl' p Hp). simpl in *. lia.
Qed.

Lemma truncate_scan_spec (a b c : list RawDataPoint) (start end_ : Z) (e : nat) :
  Forall (fun p => p_Time p < start) a -> Forall (fun p => start <= p_Time p <= end_) b ->
  Forall (fun p => end_ < p_Time p) c ->
  truncate_scan (a ++ b ++ c) 0 start end_ None e =
  if decide (b = []) then (None, e) else (Some (length a), (length a + length b - 1)%nat).
Proof.
  intros Ha Hb Hc.
  assert (Ha' : Forall (fun p => in_window start end_ p = false) a).
  { apply (Forall_impl _ _ _ Ha). intros p Hp. unfold in_window. rewrite Z.geb_leb.
    by rewrite (proj2 (Z.leb_gt start (p_Time p))). }
  assert (Hc' : Forall (fun p => in_window start end_ p = false) c).
  { apply (Forall_impl _ _ _ Hc). intros p Hp. unfold in_window.
    rewrite (proj2 (Z.leb_gt (p_Time p) end_)) by done. apply andb_false_r. }
  assert (Hb' : Forall (fun p => in_window start end_ p = true) b).
  { apply (Forall_impl _ _ _ Hb). intros p Hp. unfold in_window.
    rewrite Z.geb_leb, !(proj2 (Z.leb_le _ _)) by lia. done. }
  rewrite truncate_scan_app, (truncate_scan_out a) by done. rewrite truncate_scan_app.
  destruct Hb' as [|p b Hp Hb'].
  - simpl. by rewrite truncate_scan_out.
  - cbn [truncate_scan]. unfold in_window in Hp. rewrite Hp, truncate_scan_in by done.
    rewrite truncate_scan_out by done. simpl. f_equal. destruct b; simpl; lia.
Qed.

(** Cutting the sorted points of an item to a window keeps the
    points of the window but the last; without a point in the window
    everything is kept. *)
Theorem TruncateTo_spec (r : RawRenderItem) (start end_ : Z) :
  time_sorted (Data r) ->
  exists a b c, Data r = a ++ b ++ c /\ Forall (fun p => p_Time p < start) a /\
    Forall (fun p => start <= p_Time p <= end_) b /\ Forall (fun p => end_ < p_Time p) c /\
    Data (TruncateTo r start end_).2 = (if decide (b = []) then Data r else removelast b) /\
    (TruncateTo r start end_).1 = Z.of_nat (length (Data (TruncateTo r start end_).2)).
Proof.
  intros Hs. destruct (window_split (Data r) start end_ Hs) as (a & b & c & E & Ha & Hb & Hc).
  exists a, b, c. split_and!; try done.
  - unfold TruncateTo. rewrite E, truncate_scan_spec by done. rewrite <- E. case_decide.
    + destruct (head (Data r)), (last (Data r)); done.
    + set (r' := set_Data r _). assert (Er : Data r' = removelast b).
      { assert (0 < length b)%nat by (destruct b; [done|simpl; lia]).
        unfold r'. simpl. rewrite E, removelast_firstn_len, <- Nat.add_sub_assoc, take_app_add by lia.
        rewrite drop_app_length, take_app_le by lia. f_equal. lia. }
      rewrite <- Er. destruct (head (Data r')), (last (Data r')); done.
  - unfold TruncateTo. by destruct (truncate_scan _ _ _ _ _ _).
Qed.

Lemma TruncateTo_spec_witness :
  let r := sample_item 10 40 (map (fun t => sample_raw t 1 1) [10; 20; 30; 40]) in
  time_sorted (Data r) /\ map p_Time (Data (TruncateTo r 15 40).2) = [20; 30] /\
  exists a b c, Data r = a ++ b ++ c /\ Forall (fun p => p_Time p < 15) a /\
    Forall (fun p => 15 <= p_Time p <= 40) b /\ Forall (fun p => 40 < p_Time p) c /\
    Data (TruncateTo r 15 40).2 = (if decide (b = []) then Data r else removelast b) /\
    (TruncateTo r 15 40).1 = Z.of_nat (length (Data (TruncateTo r 15 40).2)).
Proof.
  intros r. assert (Hs : time_sorted (Data r)) by (repeat constructor; simpl; lia).
  split; [done|]. split; [reflexivity|]. apply (TruncateTo_spec r 15 40 Hs).
Defined.

(** ** Quantizing *)

(** The slots of a grid. *)
Definition grid (start step : Z) (n : nat) : list Z :=
  map (fun i => start + Z.of_nat i * step) (seq 0 n).

Lemma grid_S (t step : Z) (n : nat) : grid t step (S n) = t :: grid (t + step) step n.
Proof.
  unfold grid. cbn [seq map]. f_equal; [lia|]. rewrite <- seq_shift, map_map. apply map_ext.
  intros i. lia.
Qed.

(** A slot is null or holds one point of its step. *)
Definition slot_of (step : Z) (data : list RawDataPoint) (q : RawDataPoint) : Prop :=
  q = NullRawDataPoint (p_Time q) \/
  exists p, p ∈ data /\ q = set_Time p (p_Time q) /\ p_Time q - step < p_Time p <= p_Time q.

Lemma slot_of_mono (step : Z) (data data' : list RawDataPoint) (q : RawDataPoint) :
  data ⊆ data' -> slot_of step data q -> slot_of step data' q.
Proof.
  intros Hsub [H|(p & Hp & H)]; [by left|]. right. exists p. split; [by apply Hsub|done].
Qed.

Lemma skip_old_suffix (lo : Z) (l : list RawDataPoint) :
  exists a, l = a ++ skip_old lo l.
Proof.
  induction l as [|p l [a IH]]; [by exists []|]. cbn [skip_old]. case_if; [|by exists []].
  exists (p :: a). simpl. by f_equal.
Qed.

(** The slots: those done, and [m] empty ones. *)
Definition slots (dn : list RawDataPoint) (m : nat) : list (option RawDataPoint) :=
  map Some dn ++ replicate m None.

Lemma slots_lookup (dn : list RawDataPoint) (m : nat) : slots dn (S m) !! length dn = Some None.
Proof. unfold slots. rewrite lookup_app_r; rewrite length_map; [|lia]. by rewrite Nat.sub_diag. Qed.

Lemma slots_put (dn : list RawDataPoint) (m : nat) (q : RawDataPoint) :
  put (slots dn (S m)) (length dn) q = Some (slots (dn ++ [q]) m).
Proof.
  unfold put, slots. rewrite length_app, length_map, length_replicate.
  rewrite (proj2 (Nat.ltb_lt _ _)) by lia. f_equal.
  rewrite insert_app_r_alt; rewrite length_map; [|lia]. rewrite Nat.sub_diag, map_app, <- app_assoc. done.
Qed.

(** What the loop does from slot [t] on. *)
Definition quantized (m : nat) (endTime step t : Z) (rData dn : list RawDataPoint) (fuel : nat) : Prop :=
  exists new,
    quantize_loop fuel t endTime step rData (slots dn m) (length dn) = Some (map Some (dn ++ new)) /\
    map p_Time new = grid t step m /\ Forall (slot_of step rData) new.

(** Filling a slot and going on. *)
Lemma quantized_fill (m : nat) (endTime step t : Z) (rData rest dn : list RawDataPoint) (fuel : nat)
  (q : RawDataPoint) :
  quantized m endTime step (t + step) rest (dn ++ [q]) fuel -> rest ⊆ rData ->
  p_Time q = t -> slot_of step rData q ->
  exists new,
    quantize_loop fuel (t + step) endTime step rest (slots (dn ++ [q]) m) (S (length dn)) =
      Some (map Some (dn ++ new)) /\
    map p_Time new = grid t step (S m) /\ Forall (slot_of step rData) new.
Proof.
  intros (new & E & Ht & Hf) Hsub Hq Hs. rewrite length_app, Nat.add_1_r in E. exists (q :: new).
  rewrite E, <- app_assoc. split; [done|]. split; [rewrite grid_S; simpl; by f_equal|].
  constructor; [done|]. apply (Forall_impl _ _ _ Hf). intros x. by apply slot_of_mono.
Qed.

Lemma slot_of_null (step t : Z) (data : list RawDataPoint) : slot_of step data (NullRawDataPoint t).
Proof. by left. Qed.

Lemma slot_of_point (step t : Z) (p : RawDataPoint) (rest : list RawDataPoint) :
  t - step < p_Time p <= t -> slot_of step (p :: rest) (set_Time p t).
Proof. right. exists p. split_and!; simpl; [apply elem_of_cons; by left|done|lia|lia]. Qed.

Lemma set_Time_same (p : RawDataPoint) : set_Time p (p_Time p) = p.
Proof. by destruct p. Qed.

Lemma quantize_loop_spec (endTime step : Z) :
  0 < step -> endTime + step < 2 ^ 32 ->
  forall (m n : nat) (t : Z) (rData dn : list RawDataPoint) (fuel : nat),
  (length rData <= n)%nat -> t + Z.of_nat m * step = endTime + step -> step <= t ->
  Forall (fun p => p_Time p < endTime) rData -> (m + length rData < fuel)%nat ->
  quantized m endTime step t rData dn fuel.
Proof.
  intros Hstep Hend. induction m as [|m IHm].
  { intros n t rData dn fuel _ Hm Ht Hr Hf. destruct fuel as [|fuel]; [lia|]. exists [].
    cbn [quantize_loop]. rewrite (proj2 (Z.leb_gt t endTime)) by lia.
    unfold slots. by rewrite !app_nil_r. }
  induction n as [|n IHn]; intros t rData dn fuel Hn Hm Ht Hr Hf;
    (destruct fuel as [|fuel]; [lia|]); unfold quantized; cbn [quantize_loop];
    rewrite (proj2 (Z.leb_le t endTime)) by nia;
    rewrite (wrap_id 32 (t - step)), (wrap_id 32 (t + step)) by (unfold in_width; nia);
    (destruct rData as [|p rest];
     [rewrite slots_put; cbn [mbind option_bind];
      apply (quantized_fill _ _ _ _ _ []); [apply (IHm 0%nat); try done; simpl in *; nia|done|done|apply slot_of_null]|]).
  { simpl in Hn. lia. }
  apply Forall_cons in Hr as [Hp Hr]. simpl in Hn, Hf.
  destruct (p_Time p =? t) eqn:E1; bool_to_prop.
  { rewrite slots_put. cbn [mbind option_bind].
    apply (quantized_fill _ _ _ _ _ rest); [apply (IHm n); try done; nia|by apply list_subseteq_cons|done|].
    pose proof (slot_of_point step (p_Time p) p rest ltac:(lia)) as Hs. by rewrite set_Time_same in Hs. }
  destruct (p_Time p >? t) eqn:E2; bool_to_prop.
  { rewrite slots_lookup. cbn [mbind option_bind]. rewrite Z.geb_leb, (proj2 (Z.leb_gt endTime _)) by lia.
    rewrite slots_put. cbn [mbind option_bind]. apply (quantized_fill _ _ _ _ _ (p :: rest));
      [apply (IHm (S n)); try done; simpl; try nia; by constructor|done|done|apply slot_of_null]. }
  destruct ((p_Time p >? t - step) && (p_Time p <? t)) eqn:E3; bool_to_prop.
  { rewrite slots_lookup. cbn [mbind option_bind fit]. rewrite slots_put. cbn [mbind option_bind].
    apply (quantized_fill _ _ _ _ _ rest); [apply (IHm n); try done; nia|by apply list_subseteq_cons|done|].
    apply slot_of_point. lia. }
  rewrite (proj2 (Z.leb_le (p_Time p) (t - step))) by lia. cbn [skip_old].
  rewrite (proj2 (Z.leb_le (p_Time p) (t - step))) by lia.
  destruct (skip_old_suffix (t - step) rest) as [a Ea].
  assert (length (skip_old (t - step) rest) <= length rest)%nat by (rewrite Ea at 2; rewrite length_app; lia).
  destruct (IHn t (skip_old (t - step) rest) dn fuel) as (new & E & Hg & Hs); try done; try lia.
  { rewrite Ea in Hr. by apply Forall_app in Hr as [_ Hr]. }
  exists new. split_and!; try done. apply (Forall_impl _ _ _ Hs). intros q. apply slot_of_mono.
  rewrite Ea at 2. intros x Hx. apply elem_of_cons. right. apply elem_of_app. by right.
Qed.

Lemma mapM_Some (l : list RawDataPoint) : mapM (fun dp => dp) (map Some l) = Some l.
Proof. induction l as [|p l IH]; [done|]. cbn [map mapM mbind option_bind]. by rewrite IH. Qed.

Section quantizing.
Context {GS : GoSort}.

(** Quantizing ends and fills the whole time range: the times of
    the result are exactly the multiples of the step from the aligned
    start to the aligned end, and each slot is null or holds one point of
    the step that ends there, moved to the slot's time. *)
Theorem quantize_grid (r : RawRenderItem) (step : Z) :
  let start := align_up (Start r) step in let endTime := align_end (End_ r) step in
  0 < step -> 0 < Start r <= End_ r -> End_ r + 2 * step <= 2 ^ 32 ->
  (endTime - start) / step + 1 < MAX_QUANTIZE_POINTS ->
  Forall (fun p => p_Time p < endTime) (Data r) ->
  exists o, QuantizeToStep r step = Some (inl o) /\ Step o = step /\
    map p_Time (Data o) = grid start step (Z.to_nat ((endTime - start) / step + 1)) /\
    Forall (slot_of step (Data r)) (Data o).
Proof.
  intros start e Hstep Hse Hmax Hn Hd. unfold QuantizeToStep. rewrite (proj2 (Z.leb_gt step 0)) by lia.
  destruct (align_up_spec (Start r) step) as [Hs1 Hs2]; [lia..|].
  destruct (align_end_spec (End_ r) step) as [He1 He2]; [lia..|].
  fold start in Hs1, Hs2 |- *. fold e in He1, He2 |- *.
  destruct (grid_steps start e step Hstep Hs2 He2) as (m & Hm & Hfuel); [lia|].
  destruct m as [|m]; [lia|]. rewrite (proj2 (Z.ltb_ge e start)) by nia.
  assert (Hq : (e - start) / step + 1 = Z.of_nat (S m)).
  { replace (e - start) with (Z.of_nat m * step) by lia. rewrite Z.div_mul by lia. lia. }
  rewrite Hq in Hn |- *. unfold MAX_QUANTIZE_POINTS in *.
  rewrite wrap_id by (unfold in_width; lia). rewrite Z.geb_leb, (proj2 (Z.leb_gt _ _)) by lia.
  rewrite Nat2Z.id. pose proof (sort_points_perm (Data r)) as Hp.
  assert (Hge : step <= start).
  { pose proof (Z.div_mod start step ltac:(lia)). assert (0 < start / step) by nia. nia. }
  destruct (quantize_loop_spec e step Hstep ltac:(lia) (S m) _ start (sort_points (Data r)) []
    (range_fuel start e step + length (sort_points (Data r)))%nat (Nat.le_refl _)) as (new & E & Ht & Hs);
    try done; [by rewrite Hp|lia|].
  change (slots [] (S m)) with (replicate (S m) (@None RawDataPoint)) in E. cbn [length] in E. rewrite E.
  cbn [mbind option_bind app]. rewrite mapM_Some. cbn [mbind option_bind]. eexists. split; [done|].
  simpl. split; [done|]. split; [done|]. apply (Forall_impl _ _ _ Hs). intros q. apply slot_of_mono.
  intros x. by rewrite Hp.
Qed.

End quantizing.

Definition sample_c : RawRenderItem :=
  sample_item 5 36 [sample_raw 5 1 1; sample_raw 7 2 1; sample_raw 30 4 2].

Lemma quantize_grid_witness :
  exists o, QuantizeToStep sample_c 10 = Some (inl o) /\ Step o = 10 /\
    map p_Time (Data o) = grid (align_up (Start sample_c) 10) 10
      (Z.to_nat ((align_end (End_ sample_c) 10 - align_up (Start sample_c) 10) / 10 + 1)) /\
    Forall (slot_of 10 (Data sample_c)) (Data o).
Proof.
  apply (quantize_grid sample_c 10); [lia|vm_compute; done|vm_compute; done|vm_compute; done|].
  repeat constructor.
Defined.

(** Quantizing keeps one point of a step and drops the others: of
    the two points at 5 and 7 only the first is in the slot of 10. *)
Theorem quantize_drops_points :
  exists o, QuantizeToStep sample_c 10 = Some (inl o) /\
    map (fun p => (p_Time p, p_Count p)) (Data o) = [(10, 1); (20, 0); (30, 2); (40, 0)] /\
    counts (Data o) < counts (Data sample_c).
Proof. eexists. split; [vm_compute; reflexivity|]. split; vm_compute; reflexivity. Qed.

(** The values of the data points made for a query are all zero:
    the value is set on a copy. *)
Theorem ToDataPoint_zero (r : RawRenderItem) : Forall (fun d => dp_Value d = 0) (ToDataPoint r).
Proof. unfold ToDataPoint. rewrite Forall_map. by apply Forall_true. Qed.
