(* ===== verification/WriteCache.v ===== *)
(** [writers/metrics/cache_single.go]: the write cache.  Points are
    collected in one series per metric until a writer takes the series, its
    bytes overflow, or it has been in the cache too long.

    The series are values of any type with the interface [TimeSeries].  The
    overflow channel is the list of what has been sent on it.  Where the
    code ranges over the cache, the order in which the runtime visits the
    keys is an argument, and so are the clock and the random number.  The
    cache of aggregation types that [AggType] uses is threaded through.
    The items of the cache always have a name and a series and the
    broadcaster always exists, so the tests for nil are left out; gauges
    and logging are left out too. *)
From S2P Require Import Prelude Bits BitStream Float64 GoStrings GoSort Gorilla GorillaIter.
From S2P Require Import Tags Repr LRU LRUTheorems Aggs Series RawData Resample.

Open Scope Z_scope.

Definition CACHER_NUMBER_BYTES : Z := 8192.
Definition CACHER_METRICS_KEYS : Z := 1024000.
Definition CACHER_CHUNKS_IN_HISTORY : Z := 4.
Definition CACHER_DEFAULT_OVERFLOW_DURATION : Z := 3600.

Definition errWriteCacheTooManyMetrics : goerror :=
  GoError "Cacher: too many keys, dropping metric".
Definition errWriteCacheTooManyPoints : goerror :=
  GoError "Cacher: too many points in cache, dropping metric".

Record OffsetInSeries := mkOffset {
  o_Offset : Z;
  o_Partition : Z;
  o_Topic : string
}.

Record CacheQueueItem := mkQueueItem {
  q_metric : Z;
  q_count : Z;
  q_bytes : Z
}.

(** [CacheQueue.Less]. *)
Definition queue_Less (a b : CacheQueueItem) : bool := q_count a <? q_count b.

Section cacher.
Context `{!GoSort}.
Variable farm_Hash64 : list Z -> Z.
Context {S I C : Type} {TS : TimeSeries S I} {TI : TimeSeriesIter I} {MC : MemoCache C aggItem}.
(** [series.NewTimeSeries] with the default options. *)
Variable NewTimeSeries : string -> Z -> option (S + goerror).

Abbreviation UniqueId := (UniqueId farm_Hash64).

Record CacheItem := mkCacheItem {
  ci_Name : StatName;
  ci_Series : S;
  ci_Offset : option OffsetInSeries;
  ci_Started : Z
}.

Record TotalTimeSeries := mkTotal {
  tt_Name : StatName;
  tt_Series : S;
  tt_Offset : option OffsetInSeries
}.

(** ** Reading a series *)

(** The loop of [getStatsStream].  [Merge] returns a new statistic, which
    the code does not keep. *)
Fixpoint stats_loop (fuel : nat) (it : I) (name : StatName) (lastT : Z) (ouStats : list StatRepr)
  : option (list StatRepr * I) :=
  match fuel with
  | O => None
  | Datatypes.S fuel =>
      '(ok, it) ← iter_Next it;
      if negb ok then Some (ouStats, it) else
      st ← iter_ReprValue it;
      let st := with_name st name in
      if (lastT =? Time st) && (0 <? length ouStats)%nat
      then stats_loop fuel it name lastT ouStats
      else stats_loop fuel it name (Time st) (ouStats ++ [st])
  end.

(** [sort.Sort(ouStats)]. *)
Definition sort_stats (l : list StatRepr) : list StatRepr :=
  sort_Sort (fun a b => Time a <? Time b) l.

Definition getStatsStream (fuel : nat) (name : StatName) (ts : S)
  : option (list StatRepr * option goerror) :=
  r ← ts_Iter ts;
  match r with
  | inr e => Some ([], Some e)
  | inl it =>
      '(ouStats, it) ← stats_loop fuel it name (-1) [];
      match iter_Error it with
      | Some e => Some (ouStats, Some e)
      | None => Some (sort_stats ouStats, None)
      end
  end.

(** [uint32(pt.ToTime().Unix())]. *)
Definition unix_of (pt : StatRepr) : Z := u32 (ToTime pt / 10 ^ 9).

Definition raw_of_stat (pt : StatRepr) : RawDataPoint :=
  mkRaw (unix_of pt) (Sum pt) (Min pt) (Max pt) (Last pt) (Count pt).

(** The step: the first difference to the first time that is not zero. *)
Fixpoint step_loop (data : list StatRepr) (firstT stepT : Z) : Z :=
  match data with
  | [] => stepT
  | pt :: data =>
      let onT := unix_of pt in
      let firstT := if firstT =? 0 then onT else firstT in
      let stepT := if stepT =? 0 then u32 (onT - firstT) else stepT in
      step_loop data firstT stepT
  end.

Definition item_GetAsRawRenderItem (fuel : nat) (c : C) (ci : CacheItem) (now : Z)
  : option (option RawRenderItem * option goerror * C) :=
  '(data, err) ← getStatsStream fuel (ci_Name ci) (ci_Series ci);
  match err, head data, last data with
  | None, Some a, Some b =>
      '(agg, c) ← AggType c (ci_Name ci) now;
      Some (Some (mkItem "" "" (unix_of a) (unix_of b) (unix_of a) (unix_of b)
                    (step_loop data 0 0) (u32 agg) [] [] (map raw_of_stat data) false false), None, c)
  | err, _, _ => Some (None, err, c)
  end.

(** ** The history *)

Record CacheHistory := mkHistory {
  Chunks : gmap Z (list CacheItem);
  maxHistory : Z
}.

Definition AddChunk (ch : CacheHistory) (chunk : CacheItem) : CacheHistory :=
  if maxHistory ch <=? 0 then ch
  else if ts_Count (ci_Series chunk) =? 0 then ch
  else
    let '(id, name) := UniqueId (ci_Name chunk) in
    let cp := mkCacheItem name (ci_Series chunk) (ci_Offset chunk) (ci_Started chunk) in
    mkHistory
      (<[id :=
         match Chunks ch !! id with
         | Some got =>
             if Z.of_nat (length got) >=? maxHistory ch then drop 1 got ++ [cp] else got ++ [cp]
         | None => [cp]
         end]> (Chunks ch))
      (maxHistory ch).

(** The items of the chunks, merged into the first; a chunk that cannot
    be read is passed over. *)
Fixpoint merge_chunks (fuel : nat) (c : C) (chunks : list CacheItem) (rawd : option RawRenderItem) (now : Z)
  : option (option RawRenderItem * C) :=
  match chunks with
  | [] => Some (rawd, c)
  | chunk :: chunks =>
      '(mets, err, c) ← item_GetAsRawRenderItem fuel c chunk now;
      let rawd :=
        match mets, err, rawd with
        | Some mets, None, None => Some mets
        | Some mets, None, Some r => Some (item_Merge r mets)
        | _, _, _ => rawd
        end in
      merge_chunks fuel c chunks rawd now
  end.

Definition history_GetAsRawRenderItem (fuel : nat) (c : C) (ch : CacheHistory) (name : StatName) (now : Z)
  : option (option RawRenderItem * C) :=
  if bool_decide (Chunks ch = ∅) || (maxHistory ch <=? 0) then Some (None, c)
  else
    match Chunks ch !! (UniqueId name).1 with
    | None => Some (None, c)
    | Some chunks => merge_chunks fuel c chunks None now
    end.

(** ** The cache *)

Record CacherSingle := mkCacherSingle {
  maxKeys : Z;
  maxBytes : Z;
  seriesType : string;
  maxTimeInCache : Z;
  overFlowMethod : string;
  lowFruitRate : float64;
  started : bool;
  accept : bool;
  closed : bool;
  sent : list TotalTimeSeries;
  curSize : Z;
  numCurPoint : Z;
  numCurKeys : Z;
  Queue : list CacheQueueItem;
  Cache : gmap Z CacheItem;
  History : CacheHistory
}.

(** A new cache with the configured limits; the series type, overflow
    method and limits are set by the setters of the base type. *)
Definition NewSingleCacher : CacherSingle :=
  mkCacherSingle CACHER_METRICS_KEYS CACHER_NUMBER_BYTES "protobuf" CACHER_DEFAULT_OVERFLOW_DURATION "drop"
    (fdiv (float_of_Z 1) (float_of_Z 4)) false true false [] 0 0 0 [] ∅
    (mkHistory ∅ (CACHER_CHUNKS_IN_HISTORY - 1)).

Definition configure (wc : CacherSingle) (keys bytes : Z) (type : string) (time : Z) (method : string)
  : CacherSingle :=
  mkCacherSingle keys bytes type time method (lowFruitRate wc) (started wc) (accept wc) (closed wc)
    (sent wc) (curSize wc) (numCurPoint wc) (numCurKeys wc) (Queue wc) (Cache wc) (History wc).

Definition SetCacheChunks (wc : CacherSingle) (m : Z) : CacherSingle :=
  mkCacherSingle (maxKeys wc) (maxBytes wc) (seriesType wc) (maxTimeInCache wc) (overFlowMethod wc)
    (lowFruitRate wc) (started wc) (accept wc) (closed wc) (sent wc) (curSize wc) (numCurPoint wc)
    (numCurKeys wc) (Queue wc) (Cache wc) (mkHistory (Chunks (History wc)) m).

Definition cacher_Len (wc : CacherSingle) : Z := Z.of_nat (base.size (Cache wc)).

(** The parts that the operations below change. *)
Definition set_cache (wc : CacherSingle) (cur : Z) (m : gmap Z CacheItem) : CacherSingle :=
  mkCacherSingle (maxKeys wc) (maxBytes wc) (seriesType wc) (maxTimeInCache wc) (overFlowMethod wc)
    (lowFruitRate wc) (started wc) (accept wc) (closed wc) (sent wc) cur (numCurPoint wc)
    (numCurKeys wc) (Queue wc) m (History wc).

Definition set_sent (wc : CacherSingle) (out : list TotalTimeSeries) (h : CacheHistory) : CacherSingle :=
  mkCacherSingle (maxKeys wc) (maxBytes wc) (seriesType wc) (maxTimeInCache wc) (overFlowMethod wc)
    (lowFruitRate wc) (started wc) (accept wc) (closed wc) out (curSize wc) (numCurPoint wc)
    (numCurKeys wc) (Queue wc) (Cache wc) h.

Definition set_queue (wc : CacherSingle) (points keys : Z) (q : list CacheQueueItem) : CacherSingle :=
  mkCacherSingle (maxKeys wc) (maxBytes wc) (seriesType wc) (maxTimeInCache wc) (overFlowMethod wc)
    (lowFruitRate wc) (started wc) (accept wc) (closed wc) (sent wc) (curSize wc) points keys q
    (Cache wc) (History wc).

Definition set_flags (wc : CacherSingle) (st ac cl : bool) : CacherSingle :=
  mkCacherSingle (maxKeys wc) (maxBytes wc) (seriesType wc) (maxTimeInCache wc) (overFlowMethod wc)
    (lowFruitRate wc) st ac cl (sent wc) (curSize wc) (numCurPoint wc) (numCurKeys wc) (Queue wc)
    (Cache wc) (History wc).

Definition cacher_Start (wc : CacherSingle) : CacherSingle := set_flags wc true (accept wc) (closed wc).

(** The broadcasters are closed; the ticks then stop accepting. *)
Definition cacher_Stop (wc : CacherSingle) : CacherSingle :=
  if started wc then set_flags wc (started wc) false true else wc.

Definition total_of (item : CacheItem) : TotalTimeSeries :=
  mkTotal (ci_Name item) (ci_Series item) (ci_Offset item).

(** ** Adding *)

(** The label [NEWSTAT]. *)
Definition new_stat (wc : CacherSingle) (uniqueId : Z) (name : StatName) (stat : StatRepr)
  (offset : option OffsetInSeries) (tNow : Z) : option (option goerror * CacherSingle) :=
  r ← NewTimeSeries (seriesType wc) (Time stat);
  match r with
  | inr e => Some (Some e, wc)
  | inl tp =>
      '(err, tp) ← ts_AddStat tp stat;
      match err with
      | Some e => Some (Some e, wc)
      | None =>
          Some (None, set_cache wc (i64 (curSize wc + ts_Len tp))
                        (<[uniqueId := mkCacheItem name tp offset tNow]> (Cache wc)))
      end
  end.

(** The item whose bytes overflow: to the history and the channel. *)
Definition overflow_item (wc : CacherSingle) (uniqueId : Z) (gots : CacheItem) : CacherSingle :=
  let wc' := set_sent wc (if closed wc then sent wc else sent wc ++ [total_of gots])
               (AddChunk (History wc) gots) in
  set_cache wc' (i64 (curSize wc - ts_Len (ci_Series gots))) (delete uniqueId (Cache wc)).

(** The larger offset is kept. *)
Definition merge_offset (old new : option OffsetInSeries) : option OffsetInSeries :=
  match new, old with
  | None, _ => old
  | Some n, None => Some n
  | Some n, Some o =>
      if o_Offset o <? o_Offset n then Some (mkOffset (o_Offset n) (o_Partition o) (o_Topic o)) else Some o
  end.

Definition AddWithOffset (wc : CacherSingle) (name : StatName) (stat : StatRepr)
  (offset : option OffsetInSeries) (tNow : Z) : option (option goerror * CacherSingle) :=
  if negb (accept wc) then Some (None, wc)
  else if cacher_Len wc >? maxKeys wc then Some (Some errWriteCacheTooManyMetrics, wc)
  else
    let '(uniqueId, name) := UniqueId name in
    match Cache wc !! uniqueId with
    | None => new_stat wc uniqueId name stat offset tNow
    | Some gots =>
        let cur := ts_Len (ci_Series gots) in
        if cur >? maxBytes wc then
          if bool_decide (overFlowMethod wc = "chan"%string)
          then new_stat (overflow_item wc uniqueId gots) uniqueId name stat offset tNow
          else Some (Some errWriteCacheTooManyPoints, wc)
        else
          '(err, tp) ← ts_AddStat (ci_Series gots) stat;
          match err with
          | Some e =>
              Some (Some e, set_cache wc (curSize wc)
                (<[uniqueId := mkCacheItem (ci_Name gots) tp (ci_Offset gots) (ci_Started gots)]> (Cache wc)))
          | None =>
              Some (None, set_cache wc (i64 (curSize wc + (ts_Len tp - cur)))
                (<[uniqueId := mkCacheItem (ci_Name gots) tp (merge_offset (ci_Offset gots) offset)
                                 (ci_Started gots)]> (Cache wc)))
          end
    end.

Definition cacher_Add (wc : CacherSingle) (name : StatName) (stat : StatRepr) (tNow : Z)
  : option (option goerror * CacherSingle) :=
  AddWithOffset wc name stat None tNow.

(** Errors are ignored. *)
Fixpoint AddBack (wc : CacherSingle) (name : StatName) (points : list StatRepr) (tNow : Z)
  : option CacherSingle :=
  match points with
  | [] => Some wc
  | pt :: points => '(_, wc) ← cacher_Add wc name pt tNow; AddBack wc name points tNow
  end.

(** ** Expiry: [pushExpired] *)

(** The keys in the order they are visited; at most 1025 items are
    pushed.  Sending on a closed broadcaster panics. *)
Fixpoint pushExpired (wc : CacherSingle) (keys : list Z) (tNow : Z) (did : Z) : option CacherSingle :=
  match keys with
  | [] => Some wc
  | k :: keys =>
      match Cache wc !! k with
      | None => pushExpired wc keys tNow did
      | Some item =>
          if u32 (tNow - ci_Started item) >? maxTimeInCache wc then
            if closed wc then None
            else
              let wc' := set_sent wc (sent wc ++ [total_of item]) (AddChunk (History wc) item) in
              let wc' := set_cache wc' (i64 (curSize wc - ts_Len (ci_Series item))) (delete k (Cache wc)) in
              if did + 1 >? 1024 then Some wc' else pushExpired wc' keys tNow (did + 1)
          else pushExpired wc keys tNow did
      end
  end.

(** ** The write queue *)

(** [r] is the random number: below the rate the order is reversed. *)
Definition updateQueue (wc : CacherSingle) (keys : list Z) (r : float64) : CacherSingle :=
  if negb (accept wc) then wc
  else
    let newQueue :=
      omap (fun k => item ← Cache wc !! k;
                     Some (mkQueueItem k (ts_Count (ci_Series item)) (ts_Len (ci_Series item)))) keys in
    let f_len := foldr (fun q n => q_count q + n) 0 newQueue in
    let newQueue' := sort_Sort queue_Less newQueue in
    set_queue wc f_len (Z.of_nat (length newQueue'))
      (if flt r (lowFruitRate wc) then rev newQueue' else newQueue').

Definition AddAndUpdate (wc : CacherSingle) (name : StatName) (stat : StatRepr) (tNow : Z)
  (keys : list Z) (r : float64) : option (option goerror * CacherSingle) :=
  '(err, wc) ← cacher_Add wc name stat tNow; Some (err, updateQueue wc keys r).

(** From the end of the queue, passing over metrics that are gone. *)
Fixpoint next_metric (queue : list CacheQueueItem) (wc : CacherSingle) : option StatName * list CacheQueueItem :=
  match queue with
  | [] => (None, [])
  | item :: queue =>
      match Cache wc !! q_metric item with
      | None => next_metric queue wc
      | Some v => (Some (ci_Name v), queue)
      end
  end.

Definition GetNextMetric (wc : CacherSingle) : option StatName * CacherSingle :=
  let '(name, rest) := next_metric (rev (Queue wc)) wc in
  (name, set_queue wc (numCurPoint wc) (numCurKeys wc) (rev rest)).

Definition PopSeries (wc : CacherSingle) : option (StatName * S) * CacherSingle :=
  let '(metric, wc) := GetNextMetric wc in
  match metric with
  | None => (None, wc)
  | Some metric =>
      let uniqueId := (UniqueId metric).1 in
      match Cache wc !! uniqueId with
      | None => (None, wc)
      | Some stats =>
          (Some (ci_Name stats, ci_Series stats),
           set_cache wc (i64 (curSize wc - ts_Len (ci_Series stats))) (delete uniqueId (Cache wc)))
      end
  end.

Definition cacher_Pop (fuel : nat) (wc : CacherSingle)
  : option (option (StatName * list StatRepr) * CacherSingle) :=
  let '(r, wc) := PopSeries wc in
  match r with
  | None => Some (None, wc)
  | Some (metric, ts) => '(out, _) ← getStatsStream fuel metric ts; Some (Some (metric, out), wc)
  end.

(** The first visited key; the name returned is the result variable,
    which is never set. *)
Definition GetAnyStat (fuel : nat) (wc : CacherSingle) (keys : list Z)
  : option (option StatName * list StatRepr * CacherSingle) :=
  match keys with
  | [] => Some (None, [], wc)
  | k :: _ =>
      item ← Cache wc !! k;
      '(out, _) ← getStatsStream fuel (ci_Name item) (ci_Series item);
      Some (None, out, set_cache wc (i64 (curSize wc - ts_Len (ci_Series item))) (delete k (Cache wc)))
  end.

(** ** Reading the cache *)

Definition cacher_Get (fuel : nat) (wc : CacherSingle) (name : StatName)
  : option (option (list StatRepr) * option goerror) :=
  let '(id, name) := UniqueId name in
  match Cache wc !! id with
  | None => Some (None, None)
  | Some gots => '(out, err) ← getStatsStream fuel name (ci_Series gots); Some (Some out, err)
  end.

Definition cacher_GetById (fuel : nat) (wc : CacherSingle) (metricId : Z)
  : option (option (StatName * list StatRepr) * option goerror) :=
  match Cache wc !! metricId with
  | None => Some (None, None)
  | Some gots =>
      '(out, err) ← getStatsStream fuel (ci_Name gots) (ci_Series gots); Some (Some (ci_Name gots, out), err)
  end.

Definition Exists (wc : CacherSingle) (name : StatName) : bool :=
  bool_decide (is_Some (Cache wc !! (UniqueId name).1)).

(** The names, in the order the keys are visited. *)
Definition CacheList (wc : CacherSingle) (keys : list Z) : list StatName :=
  omap (fun k => ci_Name <$> Cache wc !! k) keys.

Definition GetSeriesById (wc : CacherSingle) (metricId : Z) : option (StatName * list S) :=
  gots ← Cache wc !! metricId; Some (ci_Name gots, [ci_Series gots]).

Definition GetSeries (wc : CacherSingle) (name : StatName) : option (StatName * list S) :=
  GetSeriesById wc (UniqueId name).1.

Definition GetCurrentSeriesById (wc : CacherSingle) (metricId : Z) : option (StatName * S) :=
  '(nm, ts) ← GetSeriesById wc metricId; t ← head ts; Some (nm, t).

Definition GetCurrentSeries (wc : CacherSingle) (name : StatName) : option (StatName * S) :=
  GetCurrentSeriesById wc (UniqueId name).1.

(** The history, and the points in the cache. *)
Definition cacher_GetAsRawRenderItem (fuel : nat) (c : C) (wc : CacherSingle) (name : StatName) (now : Z)
  : option (option RawRenderItem * C) :=
  '(rawd, c) ← history_GetAsRawRenderItem fuel c (History wc) name now;
  match Cache wc !! (UniqueId name).1 with
  | None => Some (rawd, c)
  | Some gots =>
      '(auxR, err, c) ← item_GetAsRawRenderItem fuel c gots now;
      match auxR, err with
      | Some auxR, None =>
          if (0 <? length (Data auxR))%nat then
            match rawd with
            | Some r => if (0 <? length (Data r))%nat then Some (Some (item_Merge auxR r), c) else Some (Some auxR, c)
            | None => Some (Some auxR, c)
            end
          else Some (rawd, c)
      | _, _ => Some (rawd, c)
      end
  end.

End cacher.
