(* ===== verification/WriteCacheTheorems.v ===== *)
(** The write cache loses nothing: every accepted point is in the cache
    or in exactly one of the series handed to the writers, in order; the
    byte count and the number of keys are bounded as configured; and the
    queue gives the fullest series first. *)
From S2P Require Import Prelude Bits BitStream Float64 GoStrings GoSort Gorilla GorillaIter GorillaProofs.
From S2P Require Import Tags Repr ReprTheorems LRU LRUTheorems Aggs Series RawData Resample WriteCache.

Open Scope Z_scope.

(** What a series promises to the cache: a relation to the list of the
    statistics in it, which adding extends; a failed addition leaves the
    series as it was. *)
Class SeriesLaws {S I : Type} {TS : TimeSeries S I} (New : string -> Z -> option (S + goerror))
  (type : string) := {
  stat_ok : StatRepr -> Prop;
  contents : S -> list StatRepr -> Prop;
  laws_new : forall x, stat_ok x ->
    (exists e, New type (Time x) = Some (inr e)) \/
    (exists tp e tp', New type (Time x) = Some (inl tp) /\ ts_AddStat tp x = Some (e, tp') /\
       (e = None -> contents tp' [x]));
  laws_add : forall s l x, contents s l -> stat_ok x ->
    exists e s', ts_AddStat s x = Some (e, s') /\
      match e with Some _ => s' = s | None => contents s' (l ++ [x]) end
}.

Section conservation.
Context `{!GoSort}.
Variable farm_Hash64 : list Z -> Z.
Context {S I : Type} {TS : TimeSeries S I}.
Variable New : string -> Z -> option (S + goerror).
Variable type : string.
Context {L : SeriesLaws New type}.

Abbreviation cacher := (CacherSingle (S:=S)).
Abbreviation id_of n := ((UniqueId farm_Hash64 n).1).

Lemma id_of_cached (n : StatName) : 0 < id_of n -> id_of (UniqueId farm_Hash64 n).2 = id_of n.
Proof.
  intros Hp. destruct (UniqueId_order farm_Hash64 n) as (_ & _ & Hi).
  unfold UniqueId at 1. rewrite Hi, Z.gtb_ltb, (proj2 (Z.ltb_lt _ _)) by done. done.
Qed.

(** ** The account of every metric *)

(** What was handed out for metric [k]: [outs] are the contents of [out]. *)
Fixpoint given (k : Z) (out : list (StatName * S)) (outs : list (list StatRepr)) : list StatRepr :=
  match out, outs with
  | x :: out, l :: outs => (if id_of x.1 =? k then l else []) ++ given k out outs
  | _, _ => []
  end.

Definition of_key (k : Z) (acc : list (Z * StatRepr)) : list StatRepr :=
  map snd (filter (fun x => x.1 = k) acc).

(** Handed out, in the cache, and accepted. *)
Record accounted (wc : cacher) (out : list (StatName * S)) (acc : list (Z * StatRepr))
  (outs : list (list StatRepr)) (cur : Z -> list StatRepr) : Prop := {
  acc_names : forall k it, Cache wc !! k = Some it -> 0 < k /\ id_of (ci_Name it) = k;
  acc_cur : forall k it, Cache wc !! k = Some it -> contents (ci_Series it) (cur k);
  acc_none : forall k, Cache wc !! k = None -> cur k = [];
  acc_outs : Forall2 (fun x l => contents x.2 l) out outs;
  acc_sum : forall k, given k out outs ++ cur k = of_key k acc
}.

Lemma given_snoc (k : Z) (out : list (StatName * S)) (outs : list (list StatRepr)) (x : StatName * S)
  (l : list StatRepr) :
  length out = length outs ->
  given k (out ++ [x]) (outs ++ [l]) = given k out outs ++ (if id_of x.1 =? k then l else []).
Proof.
  revert outs. induction out as [|y out IH]; intros [|m outs] Hl; try done.
  - simpl. by rewrite app_nil_r.
  - cbn [app given]. rewrite (IH outs) by (simpl in Hl; lia). by rewrite app_assoc.
Qed.

Lemma of_key_snoc (k : Z) (acc : list (Z * StatRepr)) (x : Z * StatRepr) :
  of_key k (acc ++ [x]) = of_key k acc ++ (if x.1 =? k then [x.2] else []).
Proof.
  unfold of_key. rewrite filter_app, map_app. f_equal. destruct (x.1 =? k) eqn:E; bool_to_prop.
  - by rewrite filter_cons_True.
  - by rewrite filter_cons_False.
Qed.

(** Changes that leave the table alone. *)
Lemma accounted_same (wc wc' : cacher) out acc outs cur :
  accounted wc out acc outs cur -> Cache wc' = Cache wc -> accounted wc' out acc outs cur.
Proof. intros [H1 H2 H3 H4 H5] E. constructor; rewrite ?E; done. Qed.

(** An item leaves the table for a writer. *)
Lemma accounted_take (wc wc' : cacher) out acc outs cur k it :
  accounted wc out acc outs cur -> Cache wc !! k = Some it -> Cache wc' = delete k (Cache wc) ->
  exists outs' cur', accounted wc' (out ++ [(ci_Name it, ci_Series it)]) acc outs' cur'.
Proof.
  intros [H1 H2 H3 H4 H5] Hk E. exists (outs ++ [cur k]), (fun j => if j =? k then [] else cur j).
  destruct (H1 k it Hk) as [Hpos Hid]. pose proof (Forall2_length _ _ _ H4) as Hlen.
  constructor; rewrite ?E.
  - intros j it' [_ Hj]%lookup_delete_Some. by apply H1.
  - intros j it' [Hne Hj]%lookup_delete_Some. rewrite (proj2 (Z.eqb_neq j k)) by congruence. by apply H2.
  - intros j Hj. destruct (j =? k) eqn:Ej; bool_to_prop; [done|]. apply H3.
    apply lookup_delete_None in Hj as [Hj|Hj]; congruence.
  - apply Forall2_app; [done|]. constructor; [|constructor]. by apply H2.
  - intros j. rewrite given_snoc by done. cbn [fst]. rewrite Hid, <- app_assoc, Z.eqb_sym, <- H5.
    f_equal. destruct (j =? k) eqn:Ej; bool_to_prop; subst; simpl; [by rewrite app_nil_r|done].
Qed.

(** An item gains a point. *)
Lemma accounted_put (wc wc' : cacher) out acc outs cur k it stat :
  accounted wc out acc outs cur -> 0 < k -> id_of (ci_Name it) = k ->
  contents (ci_Series it) (cur k ++ [stat]) -> Cache wc' = <[k := it]> (Cache wc) ->
  exists cur', accounted wc' out (acc ++ [(k, stat)]) outs cur'.
Proof.
  intros [H1 H2 H3 H4 H5] Hpos Hid Hc E. exists (fun j => if j =? k then cur k ++ [stat] else cur j).
  constructor; rewrite ?E; try done.
  - intros j it' [[<- <-]|[_ Hj]]%lookup_insert_Some; [done|by apply H1].
  - intros j it' [[<- <-]|[Hne Hj]]%lookup_insert_Some; [by rewrite Z.eqb_refl|].
    rewrite (proj2 (Z.eqb_neq j k)) by congruence. by apply H2.
  - intros j [Hj Hne]%lookup_insert_None. rewrite (proj2 (Z.eqb_neq j k)) by congruence. by apply H3.
  - intros j. rewrite of_key_snoc. cbn [fst snd]. rewrite (Z.eqb_sym k j), <- H5.
    destruct (j =? k) eqn:Ej; bool_to_prop; subst; by rewrite ?app_assoc, ?app_nil_r.
Qed.

(** ** Runs *)

Inductive wop :=
| WAdd (name : StatName) (stat : StatRepr) (offset : option OffsetInSeries) (tNow : Z)
| WExpire (keys : list Z) (tNow : Z)
| WQueue (keys : list Z) (r : float64)
| WPop.

(** The names have a unique id and the statistics fit the series. *)
Definition wop_ok (o : wop) : Prop :=
  match o with WAdd name stat _ _ => 0 < id_of name /\ stat_ok stat | _ => True end.

(** What an operation has sent. *)
Definition newly (wc wc' : cacher) : list (StatName * S) :=
  map (fun t => (tt_Name t, tt_Series t)) (drop (length (sent wc)) (sent wc')).

(** The cache, what was handed to the writers so far, and the points
    accepted so far. *)
Definition exec (st : cacher * list (StatName * S) * list (Z * StatRepr)) (o : wop)
  : option (cacher * list (StatName * S) * list (Z * StatRepr)) :=
  let '(wc, out, acc) := st in
  match o with
  | WAdd name stat offset tNow =>
      '(err, wc') ← AddWithOffset farm_Hash64 New wc name stat offset tNow;
      Some (wc', out ++ newly wc wc', match err with None => acc ++ [(id_of name, stat)] | Some _ => acc end)
  | WExpire keys tNow => wc' ← pushExpired farm_Hash64 wc keys tNow 0; Some (wc', out ++ newly wc wc', acc)
  | WQueue keys r => Some (updateQueue wc keys r, out, acc)
  | WPop => let '(r, wc') := PopSeries farm_Hash64 wc in
            Some (wc', match r with Some x => out ++ [x] | None => out end, acc)
  end.

Fixpoint exec_all (st : cacher * list (StatName * S) * list (Z * StatRepr)) (os : list wop)
  : option (cacher * list (StatName * S) * list (Z * StatRepr)) :=
  match os with
  | [] => Some st
  | o :: os => st ← exec st o; exec_all st os
  end.

(** The cache accepts, its channel is open and its series have the type. *)
Definition open (wc : cacher) : Prop := accept wc = true /\ closed wc = false /\ seriesType wc = type.

(** The bytes of the series in the table. *)
Definition bytes (m : gmap Z (CacheItem (S:=S))) : Z :=
  map_fold (fun _ it n => ts_Len (ci_Series it) + n) 0 m.

(** The byte count is exact (as a 64-bit integer) and the number of keys
    is bounded. *)
Definition sized (wc : cacher) : Prop :=
  curSize wc = i64 (bytes (Cache wc)) /\ cacher_Len wc <= Z.max 0 (maxKeys wc + 1).

Definition good (wc : cacher) out acc : Prop :=
  open wc /\ sized wc /\ exists outs cur, accounted wc out acc outs cur.

Lemma bytes_delete (m : gmap Z (CacheItem (S:=S))) (k : Z) (it : CacheItem) :
  m !! k = Some it -> bytes m = ts_Len (ci_Series it) + bytes (delete k m).
Proof.
  intros Hk. unfold bytes.
  apply (map_fold_delete_L (fun _ it n => ts_Len (ci_Series it) + n) 0 k it m); [|done]. intros. lia.
Qed.

Lemma bytes_insert_new (m : gmap Z (CacheItem (S:=S))) (k : Z) (it : CacheItem) :
  m !! k = None -> bytes (<[k := it]> m) = ts_Len (ci_Series it) + bytes m.
Proof.
  intros Hk. unfold bytes.
  apply (map_fold_insert_L (fun _ it n => ts_Len (ci_Series it) + n) 0 k it m); [|done]. intros. lia.
Qed.

Lemma bytes_insert (m : gmap Z (CacheItem (S:=S))) (k : Z) (it it' : CacheItem) :
  m !! k = Some it ->
  bytes (<[k := it']> m) = bytes m - ts_Len (ci_Series it) + ts_Len (ci_Series it').
Proof.
  intros Hk. rewrite (bytes_delete _ k it' (lookup_insert_eq _ _ _)), (bytes_delete m k it Hk).
  rewrite delete_insert_eq. lia.
Qed.

(** ** Each operation *)

Lemma sized_take (wc wc' : cacher) (k : Z) (it : CacheItem) :
  sized wc -> Cache wc !! k = Some it -> Cache wc' = delete k (Cache wc) ->
  curSize wc' = i64 (curSize wc - ts_Len (ci_Series it)) -> maxKeys wc' = maxKeys wc -> sized wc'.
Proof.
  intros [Hs Hb] Hk E Ec Em. split.
  - rewrite Ec, Hs, E, <- Z.add_opp_r, i64_add_l, (bytes_delete _ k it Hk). f_equal. lia.
  - unfold cacher_Len in *. rewrite E, Em.
    pose proof (map_size_delete_Some k (Cache wc) ltac:(by eexists)). lia.
Qed.

Lemma new_stat_good (wc : cacher) out acc outs cur (k : Z) (name : StatName) (stat : StatRepr)
  (offset : option OffsetInSeries) (tNow : Z) :
  open wc -> sized wc -> cacher_Len wc <= maxKeys wc -> accounted wc out acc outs cur ->
  Cache wc !! k = None -> 0 < k -> id_of name = k -> stat_ok stat ->
  exists err wc', new_stat New wc k name stat offset tNow = Some (err, wc') /\ sent wc' = sent wc /\
    good wc' out (match err with None => acc ++ [(k, stat)] | Some _ => acc end).
Proof.
  intros Ho Hs Hlen Ha Hk Hpos Hid Hok. unfold new_stat.
  assert (Hgood : good wc out acc) by (split_and!; try done; by exists outs, cur).
  pose proof Ho as (_ & _ & ->). destruct (laws_new stat Hok) as [[e ->]|(tp & e & tp' & -> & Eadd & Hc)].
  { by exists (Some e), wc. }
  cbn [mbind option_bind]. rewrite Eadd. cbn [mbind option_bind]. destruct e as [e|]; [by exists (Some e), wc|].
  eexists None, _. split; [done|]. split; [done|]. split; [done|]. split.
  - destruct Hs as [Hs Hb]. split; simpl.
    + rewrite Hs, i64_add_l, bytes_insert_new by done. f_equal. simpl. lia.
    + unfold cacher_Len in *. simpl. rewrite map_size_insert_None by done. lia.
  - destruct (accounted_put wc (set_cache wc (i64 (curSize wc + ts_Len tp'))
        (<[k := mkCacheItem name tp' offset tNow]> (Cache wc))) out acc outs cur k
        (mkCacheItem name tp' offset tNow) stat Ha Hpos Hid) as [cur' Ha']; [|done|by exists outs, cur'].
    rewrite (acc_none _ _ _ _ _ Ha k Hk). by apply Hc.
Qed.

Lemma Add_good (wc : cacher) out acc (name : StatName) (stat : StatRepr) (offset : option OffsetInSeries)
  (tNow : Z) :
  good wc out acc -> 0 < id_of name -> stat_ok stat ->
  exists err wc', AddWithOffset farm_Hash64 New wc name stat offset tNow = Some (err, wc') /\
    good wc' (out ++ newly wc wc') (match err with None => acc ++ [(id_of name, stat)] | Some _ => acc end).
Proof.
  intros Hg Hpos Hok. pose proof Hg as [Ho [Hs (outs & cur & Ha)]]. unfold AddWithOffset.
  assert (Hsame : forall wc' : cacher, sent wc' = sent wc -> newly wc wc' = []).
  { intros wc' E. unfold newly. by rewrite E, drop_all. }
  destruct Ho as (Hacc & Hcl & Hty). rewrite Hacc. cbn [negb].
  destruct (cacher_Len wc >? maxKeys wc) eqn:El; bool_to_prop.
  { eexists (Some _), wc. split; [done|]. by rewrite Hsame, app_nil_r. }
  pose proof (id_of_cached name Hpos) as Hid. destruct (UniqueId farm_Hash64 name) as [k n] eqn:Eid.
  cbn [fst snd] in *. destruct (Cache wc !! k) as [gots|] eqn:Ek.
  - destruct (ts_Len (ci_Series gots) >? maxBytes wc).
    + case_bool_decide as Hm.
      * set (wc1 := overflow_item farm_Hash64 wc k gots).
        destruct (accounted_take wc wc1 out acc outs cur k gots Ha Ek) as (outs1 & cur1 & Ha1); [done|].
        assert (Hsent : sent wc1 = sent wc ++ [total_of gots]) by (unfold wc1, overflow_item; simpl; by rewrite Hcl).
        assert (Hs1 : sized wc1) by (by apply (sized_take wc wc1 k gots Hs Ek)).
        destruct (new_stat_good wc1 (out ++ [(ci_Name gots, ci_Series gots)]) acc outs1 cur1 k n stat offset tNow) as (err & wc' & E & Es & Hgood);
          try done; [|apply lookup_delete_eq|].
        { unfold cacher_Len in *. simpl. pose proof (map_size_delete_Some k (Cache wc) ltac:(by eexists)). lia. }
        exists err, wc'. split; [done|]. unfold newly. rewrite Es, Hsent, drop_app_length. done.
      * eexists (Some _), wc. split; [done|]. by rewrite Hsame, app_nil_r.
    + pose proof (acc_cur _ _ _ _ _ Ha k gots Ek) as Hc.
      destruct (laws_add _ _ stat Hc Hok) as (e & tp & -> & He). cbn [mbind option_bind].
      destruct e as [e|].
      * subst tp. exists (Some e). eexists. split; [done|]. rewrite Hsame, app_nil_r by done.
        split; [done|]. assert (Ecache : <[k := mkCacheItem (ci_Name gots) (ci_Series gots) (ci_Offset gots)
          (ci_Started gots)]> (Cache wc) = Cache wc) by (apply insert_id; rewrite Ek; by destruct gots).
        rewrite Ecache. split; [done|]. exists outs, cur. by apply (accounted_same wc).
      * exists None. eexists. split; [done|]. rewrite Hsame, app_nil_r by done. split; [done|]. split.
        { destruct Hs as [Hs Hb]. split; simpl.
          - rewrite Hs, i64_add_l, (bytes_insert _ k gots) by done. f_equal. simpl. lia.
          - unfold cacher_Len in *. simpl. rewrite map_size_insert_Some by (by eexists). lia. }
        match goal with |- context [set_cache wc ?c (<[k := ?x]> _)] => set (it := x); set (cs := c) end.
        destruct (accounted_put wc (set_cache wc cs (<[k := it]> (Cache wc))) out acc outs cur k it stat)
          as [cur' Ha']; [done|done|exact (proj2 (acc_names _ _ _ _ _ Ha k gots Ek))|done|done|by exists outs, cur'].
  - destruct (new_stat_good wc out acc outs cur k n stat offset tNow) as (err & wc' & E & Es & Hgood); try done.
    exists err, wc'. split; [done|]. by rewrite Hsame, app_nil_r.
Qed.

Lemma pushExpired_good (keys : list Z) (wc : cacher) out acc (tNow did : Z) :
  good wc out acc ->
  exists wc' new, pushExpired farm_Hash64 wc keys tNow did = Some wc' /\ sent wc' = sent wc ++ new /\
    good wc' (out ++ map (fun t => (tt_Name t, tt_Series t)) new) acc.
Proof.
  revert wc out did. induction keys as [|k keys IH]; intros wc out did Hg; cbn [pushExpired].
  { exists wc, []. by rewrite !app_nil_r. }
  destruct (Cache wc !! k) as [it|] eqn:Ek; [|by apply IH].
  case_if; [|by apply IH]. pose proof Hg as [(Hacc & Hcl & Hty) [Hs (outs & cur & Ha)]]. rewrite Hcl.
  match goal with |- context [set_cache ?w ?c ?m] => set (wc1 := set_cache w c m) end.
  destruct (accounted_take wc wc1 out acc outs cur k it Ha Ek) as (outs1 & cur1 & Ha1); [done|].
  assert (Hg1 : good wc1 (out ++ [(ci_Name it, ci_Series it)]) acc).
  { split; [done|]. split; [by apply (sized_take wc wc1 k it)|by exists outs1, cur1]. }
  case_if.
  - exists wc1, [total_of it]. done.
  - destruct (IH wc1 _ (did + 1) Hg1) as (wc' & new & Epush & Es & Hg').
    exists wc', (total_of it :: new). split; [done|]. rewrite Es. change (sent wc1) with (sent wc ++ [total_of it]). split; [by rewrite <- app_assoc|].
    by rewrite <- app_assoc in Hg'.
Qed.

Lemma good_queue (wc : cacher) out acc (a b : Z) q :
  good wc out acc -> good (set_queue wc a b q) out acc.
Proof.
  intros [Ho [Hs (outs & cur & Ha)]]. split; [done|]. split; [done|]. exists outs, cur.
  by apply (accounted_same wc).
Qed.

Lemma PopSeries_good (wc : cacher) out acc :
  good wc out acc ->
  let '(r, wc') := PopSeries farm_Hash64 wc in
  good wc' (match r with Some x => out ++ [x] | None => out end) acc.
Proof.
  intros Hg. unfold PopSeries, GetNextMetric. destruct (next_metric (rev (Queue wc)) wc) as [name rest].
  set (wc0 := set_queue wc _ _ _). assert (Hg0 : good wc0 out acc) by (by apply good_queue).
  destruct name as [metric|]; [|done]. destruct (Cache wc0 !! id_of metric) as [it|] eqn:Ek; [|done].
  pose proof Hg0 as [Ho [Hs (outs & cur & Ha)]]. set (wc1 := set_cache wc0 _ _).
  destruct (accounted_take wc0 wc1 out acc outs cur (id_of metric) it Ha Ek) as (outs1 & cur1 & Ha1); [done|].
  split; [done|]. split; [by apply (sized_take wc0 wc1 (id_of metric) it)|by exists outs1, cur1].
Qed.

Lemma exec_good (o : wop) (wc : cacher) out acc :
  good wc out acc -> wop_ok o ->
  exists wc' out' acc', exec (wc, out, acc) o = Some (wc', out', acc') /\ good wc' out' acc'.
Proof.
  intros Hg Hok. destruct o as [name stat offset tNow|keys tNow|keys r|]; cbn [exec wop_ok] in *.
  - destruct Hok as [Hpos Hst]. destruct (Add_good wc out acc name stat offset tNow Hg Hpos Hst) as (err & wc' & -> & Hg').
    cbn [mbind option_bind]. by eexists _, _, _.
  - destruct (pushExpired_good keys wc out acc tNow 0 Hg) as (wc' & new & -> & Es & Hg').
    cbn [mbind option_bind]. eexists _, _, _. split; [done|]. unfold newly. by rewrite Es, drop_app_length.
  - eexists _, _, _. split; [done|]. unfold updateQueue. case_if; [done|]. by apply good_queue.
  - pose proof (PopSeries_good wc out acc Hg) as Hp. destruct (PopSeries farm_Hash64 wc) as [r wc'].
    by eexists _, _, _.
Qed.

Lemma exec_all_good (os : list wop) (wc : cacher) out acc :
  good wc out acc -> Forall wop_ok os ->
  exists wc' out' acc', exec_all (wc, out, acc) os = Some (wc', out', acc') /\ good wc' out' acc'.
Proof.
  revert wc out acc. induction os as [|o os IH]; intros wc out acc Hg Hok.
  { by exists wc, out, acc. }
  apply Forall_cons in Hok as [Ho Hos]. cbn [exec_all].
  destruct (exec_good o wc out acc Hg Ho) as (wc1 & out1 & acc1 & -> & Hg1). cbn [mbind option_bind].
  by apply IH.
Qed.

Lemma new_good (keys nbytes : Z) (time : Z) (method : string) :
  good (configure NewSingleCacher keys nbytes type time method) [] [].
Proof.
  split; [done|]. split.
  - split; [done|]. unfold cacher_Len. simpl. rewrite map_size_empty. lia.
  - exists [], (fun _ => []). constructor; simpl; try done; intros k it Hk; by rewrite lookup_empty in Hk.
Qed.

(** C6: The write cache loses nothing.  Whatever sequence of additions,
    expiries, queue updates and pops is run on a new cache, with either
    overflow method, no call panics, and for every metric the points
    handed to the writers (by overflow, expiry or pop, in that order)
    followed by those still in its series are exactly the points that were
    accepted without an error, in the order they came. *)
Theorem write_cache_conserves (keys nbytes time : Z) (method : string) (os : list wop) :
  Forall wop_ok os ->
  exists wc out acc outs cur,
    exec_all (configure NewSingleCacher keys nbytes type time method, [], []) os = Some (wc, out, acc) /\
    Forall2 (fun x l => contents x.2 l) out outs /\
    (forall k, match Cache wc !! k with
               | Some it => contents (ci_Series it) (cur k)
               | None => cur k = []
               end) /\
    (forall k, given k out outs ++ cur k = of_key k acc).
Proof.
  intros Hok. destruct (exec_all_good os _ [] [] (new_good keys nbytes time method) Hok)
    as (wc & out & acc & E & _ & _ & outs & cur & Ha).
  exists wc, out, acc, outs, cur. split; [done|]. split; [apply Ha|]. split; [|apply Ha].
  intros k. destruct (Cache wc !! k) as [it|] eqn:Ek; [by apply (acc_cur _ _ _ _ _ Ha)|by apply (acc_none _ _ _ _ _ Ha)].
Qed.

(** The books of the write cache: after any such run the byte count
    is the sum of the lengths of the series in the cache (as a 64-bit
    integer), and there are at most one more metrics than the configured
    number. *)
Theorem write_cache_books (keys nbytes time : Z) (method : string) (os : list wop)
  (wc : cacher) out acc :
  Forall wop_ok os ->
  exec_all (configure NewSingleCacher keys nbytes type time method, [], []) os = Some (wc, out, acc) ->
  curSize wc = i64 (bytes (Cache wc)) /\ cacher_Len wc <= Z.max 0 (maxKeys wc + 1).
Proof.
  intros Hok E. destruct (exec_all_good os _ [] [] (new_good keys nbytes time method) Hok)
    as (wc' & out' & acc' & E' & _ & Hs & _). rewrite E in E'. by injection E' as <- <- <-.
Qed.

End conservation.

(** ** The queue and the history *)

Section queue.
Context `{!GoSort}.
Variable farm_Hash64 : list Z -> Z.
Context {S I : Type} {TS : TimeSeries S I}.

Abbreviation cacher := (CacherSingle (S:=S)).
Abbreviation item := (CacheItem (S:=S)).
Abbreviation id_of n := ((UniqueId farm_Hash64 n).1).

Lemma queue_Less_order (l : list CacheQueueItem) : weak_order_on queue_Less l.
Proof.
  unfold queue_Less. constructor.
  - intros x _. apply Z.ltb_irrefl.
  - intros x y z _ _ _. rewrite !Z.ltb_lt. lia.
  - intros x y z _ _ _. rewrite !Z.ltb_ge. lia.
Qed.

(** The last element of a sorted queue has the largest count. *)
Lemma sorted_last_max (q : list CacheQueueItem) (x y : CacheQueueItem) :
  sorted queue_Less (q ++ [x]) -> y ∈ q ++ [x] -> q_count y <= q_count x.
Proof.
  intros Hs [i Hi]%list_elem_of_lookup. pose proof (lookup_lt_Some _ _ _ Hi) as Hlt.
  rewrite length_app in Hlt. simpl in Hlt. destruct (decide (i = length q)) as [->|Hne].
  - rewrite list_lookup_middle in Hi by done. injection Hi as ->. lia.
  - assert (Hx : queue_Less x y = false).
    { apply (Hs i (length q) y x); [lia|done|]. by apply list_lookup_middle. }
    unfold queue_Less in Hx. by apply Z.ltb_ge.
Qed.

(** The fullest series is written first: right after an update of
    the queue that was not reversed, the series popped from a cache that
    is not empty has the most points of all, and its metric leaves the
    cache. *)
Theorem pop_fullest (wc : cacher) (keys : list Z) (r : float64) :
  (forall k it, Cache wc !! k = Some it -> id_of (ci_Name it) = k) ->
  keys ≡ₚ map fst (map_to_list (Cache wc)) -> Cache wc <> ∅ ->
  accept wc = true -> flt r (lowFruitRate wc) = false ->
  exists k it wc', Cache wc !! k = Some it /\
    PopSeries farm_Hash64 (updateQueue wc keys r) = (Some (ci_Name it, ci_Series it), wc') /\
    Cache wc' = delete k (Cache wc) /\
    forall k' it', Cache wc !! k' = Some it' -> ts_Count (ci_Series it') <= ts_Count (ci_Series it).
Proof.
  intros Hid Hkeys Hne Hacc Hr. unfold updateQueue. rewrite Hacc, Hr. cbn [negb].
  set (f := fun k => item ← Cache wc !! k; _). set (q := omap f keys).
  assert (Hf : forall k it, Cache wc !! k = Some it ->
    mkQueueItem k (ts_Count (ci_Series it)) (ts_Len (ci_Series it)) ∈ q).
  { intros k it Hk. apply list_elem_of_omap. exists k. split; [|unfold f; by rewrite Hk].
    rewrite Hkeys. apply list_elem_of_fmap. exists (k, it). split; [done|]. by apply elem_of_map_to_list. }
  assert (Hq : forall x, x ∈ q -> exists it, Cache wc !! q_metric x = Some it /\ q_count x = ts_Count (ci_Series it)).
  { intros x (k & _ & Hx)%list_elem_of_omap. unfold f in Hx. destruct (Cache wc !! k) as [it|] eqn:Ek; [|done].
    injection Hx as <-. by exists it. }
  pose proof (sort_perm _ queue_Less q) as Hp. pose proof (sort_sorted _ _ q (queue_Less_order q)) as Hs.
  destruct (map_choose _ Hne) as (k0 & it0 & Hk0). specialize (Hf k0 it0 Hk0) as Hin0.
  assert (Hsnoc : exists l y, sort_Sort queue_Less q = l ++ [y]).
  { rewrite <- Hp in Hin0. destruct (sort_Sort queue_Less q) as [|a l]; [by apply not_elem_of_nil in Hin0|].
    destruct (exists_last (l := a :: l)) as (l' & y & E); [done|]. by exists l', y. }
  destruct Hsnoc as (l & y & Es). rewrite Es in Hp, Hs |- *.
  destruct (Hq y) as (it & Hit & Hct); [rewrite <- Hp; apply elem_of_app; right; by apply list_elem_of_singleton|].
  exists (q_metric y), it. unfold PopSeries, GetNextMetric. cbn [Queue set_queue].
  rewrite rev_app_distr. cbn [rev app next_metric Cache set_queue]. rewrite Hit. cbn [Cache set_queue].
  rewrite (Hid _ _ Hit), Hit. eexists. split; [done|]. split; [done|]. split; [done|].
  intros k' it' Hk'. specialize (Hf k' it' Hk'). rewrite <- Hp in Hf.
  pose proof (sorted_last_max l y _ Hs Hf) as Hle. simpl in Hle. lia.
Qed.

(** *** Draining *)

Lemma elem_of_rev {A} (x : A) (l : list A) : x ∈ rev l <-> x ∈ l.
Proof. rewrite !list_elem_of_In. symmetry. apply in_rev. Qed.

(** Every cached metric is in the queue. *)
Definition covered (m : gmap Z (CacheItem (S:=S))) (q : list CacheQueueItem) : Prop :=
  forall k, is_Some (m !! k) -> exists x, x ∈ q /\ q_metric x = k.

Lemma next_metric_found (q : list CacheQueueItem) (wc : cacher) :
  (exists x, x ∈ q /\ is_Some (Cache wc !! q_metric x)) ->
  exists x it rest, next_metric q wc = (Some (ci_Name it), rest) /\ Cache wc !! q_metric x = Some it /\
    forall y, y ∈ q -> y ∈ rest \/ q_metric y = q_metric x \/ Cache wc !! q_metric y = None.
Proof.
  induction q as [|x q IH]; intros (y & Hy & Hsome); [by apply elem_of_nil in Hy|]. cbn [next_metric].
  destruct (Cache wc !! q_metric x) as [it|] eqn:E.
  - exists x, it, q. split_and!; [done|done|]. intros z [->|Hz]%elem_of_cons; [right; by left|by left].
  - destruct IH as (x' & it & rest & Hn & Hit & Hall).
    { exists y. apply elem_of_cons in Hy as [->|Hy]; [rewrite E in Hsome; by destruct Hsome|done]. }
    exists x', it, rest. split_and!; [done|done|]. intros z [->|Hz]%elem_of_cons; [by right; right|by apply Hall].
Qed.

(** A series is popped from a covered cache that is not empty, and the
    rest stays covered. *)
Lemma pop_progress (wc : cacher) :
  (forall k it, Cache wc !! k = Some it -> id_of (ci_Name it) = k) -> covered (Cache wc) (Queue wc) -> Cache wc <> ∅ ->
  exists k it wc', Cache wc !! k = Some it /\ PopSeries farm_Hash64 wc = (Some (ci_Name it, ci_Series it), wc') /\
    Cache wc' = delete k (Cache wc) /\ covered (Cache wc') (Queue wc').
Proof.
  intros Hid Hcov Hne. destruct (map_choose _ Hne) as (k0 & it0 & Hk0).
  destruct (Hcov k0 (ex_intro _ it0 Hk0)) as (x0 & Hx0 & Hxk).
  destruct (next_metric_found (rev (Queue wc)) wc) as (x & it & rest & Hn & Hit & Hall).
  { exists x0. rewrite elem_of_rev, Hxk. by eauto. }
  exists (q_metric x), it. unfold PopSeries, GetNextMetric. rewrite Hn. cbn [Cache set_queue]. rewrite (Hid _ _ Hit), Hit.
  eexists. split; [done|]. split; [done|]. cbn [Cache set_cache Queue set_queue]. split; [done|].
  intros k [it' Hk]. apply lookup_delete_Some in Hk as [Hneq Hk]. destruct (Hcov k (ex_intro _ it' Hk)) as (y & Hy & <-).
  exists y. split; [|done]. destruct (Hall y) as [Hr|[Heq|Hnone]]; [|..|congruence].
  - by apply elem_of_rev.
  - by apply elem_of_rev.
  - congruence.
Qed.

(** What a number of pops hands out. *)
Fixpoint pops (n : nat) (wc : cacher) : list (StatName * S) * cacher :=
  match n with
  | O => ([], wc)
  | Datatypes.S n =>
      let '(r, wc) := PopSeries farm_Hash64 wc in
      let '(out, wc) := pops n wc in (option_list r ++ out, wc)
  end.

Definition all_series (m : gmap Z (CacheItem (S:=S))) : list (StatName * S) :=
  (fun kv => (ci_Name kv.2, ci_Series kv.2)) <$> map_to_list m.

Lemma pops_drain (n : nat) (wc : cacher) :
  n = base.size (Cache wc) -> (forall k it, Cache wc !! k = Some it -> id_of (ci_Name it) = k) ->
  covered (Cache wc) (Queue wc) ->
  exists out wc', pops n wc = (out, wc') /\ Cache wc' = ∅ /\ out ≡ₚ all_series (Cache wc).
Proof.
  revert wc. induction n as [|n IH]; intros wc Hn Hid Hcov.
  { symmetry in Hn. apply map_size_empty_inv in Hn. exists [], wc. split_and!; [done|done|]. unfold all_series. by rewrite Hn, map_to_list_empty. }
  assert (Hne : Cache wc <> ∅) by (intros E; by rewrite E, map_size_empty in Hn).
  destruct (pop_progress wc Hid Hcov Hne) as (k & it & wc1 & Hk & Hp & Hd & Hcov1).
  destruct (IH wc1) as (out & wc2 & Hps & He & Hperm).
  - rewrite Hd, map_size_delete, Hk. lia.
  - intros k' it' Hk'. rewrite Hd in Hk'. apply lookup_delete_Some in Hk' as [_ Hk']. by apply Hid.
  - done.
  - cbn [pops]. rewrite Hp, Hps. eexists _, wc2. split; [done|]. split; [done|]. cbn [option_list app]. rewrite Hperm, Hd.
    unfold all_series. rewrite <- (insert_delete_id (Cache wc) k it Hk) at 2.
    rewrite map_to_list_insert by apply lookup_delete_eq. done.
Qed.

(** C29: Every cached series is written eventually: after an update of the
    queue, in whatever order, as many pops as there are metrics hand out
    every series once and leave the cache empty. *)
Theorem drain_empties (wc : cacher) (keys : list Z) (r : float64) :
  (forall k it, Cache wc !! k = Some it -> id_of (ci_Name it) = k) ->
  keys ≡ₚ map fst (map_to_list (Cache wc)) -> accept wc = true ->
  exists out wc', pops (base.size (Cache wc)) (updateQueue wc keys r) = (out, wc') /\ Cache wc' = ∅ /\
    out ≡ₚ all_series (Cache wc).
Proof.
  intros Hid Hkeys Hacc. assert (Hc : Cache (updateQueue wc keys r) = Cache wc) by (unfold updateQueue; by case_match).
  rewrite <- Hc. apply pops_drain; [done|by rewrite Hc|]. rewrite Hc. intros k [it Hk].
  exists (mkQueueItem k (ts_Count (ci_Series it)) (ts_Len (ci_Series it))). split; [|done].
  unfold updateQueue. rewrite Hacc. cbn [negb Queue set_queue]. set (f := fun k => item ← Cache wc !! k; _).
  assert (Hin : mkQueueItem k (ts_Count (ci_Series it)) (ts_Len (ci_Series it)) ∈ sort_Sort queue_Less (omap f keys)).
  { rewrite sort_perm. apply list_elem_of_omap. exists k. split; [|unfold f; by rewrite Hk].
    rewrite Hkeys. apply list_elem_of_fmap. exists (k, it). split; [done|]. by apply elem_of_map_to_list. }
  case_match; [|done]. by apply elem_of_rev.
Qed.

(** An item as the history keeps it, with its id cached. *)
Definition kept (x : item) : item :=
  mkCacheItem (UniqueId farm_Hash64 (ci_Name x)).2 (ci_Series x) (ci_Offset x) (ci_Started x).

(** The last [n] elements. *)
Definition newest {A} (n : nat) (l : list A) : list A := drop (length l - n) l.

Lemma newest_snoc {A} (n : nat) (l : list A) (x : A) :
  (0 < n)%nat ->
  newest n (l ++ [x]) =
  (if (length (newest n l) <? n)%nat then newest n l else drop 1 (newest n l)) ++ [x].
Proof.
  intros Hn. unfold newest. rewrite length_drop, length_app. cbn [length].
  destruct (Nat.ltb_spec (length l - (length l - n)) n) as [Hlt|Hge].
  - rewrite drop_app_le by lia. do 2 f_equal. lia.
  - rewrite drop_app_le, drop_drop by lia. do 2 f_equal. lia.
Qed.

(** The history keeps the newest chunks: after adding any chunks
    (of any metrics) to an empty history, what it holds for a metric are
    the last [n] of the metric's chunks that have points, oldest first. *)
Theorem history_keeps_newest (n k : Z) (l : list item) :
  0 < n ->
  let mine := filter (fun x => id_of (ci_Name x) = k /\ ts_Count (ci_Series x) <> 0) l in
  Chunks (foldl (AddChunk farm_Hash64) (mkHistory ∅ n) l) !! k =
  if decide (mine = []) then None else Some (newest (Z.to_nat n) (map kept mine)).
Proof.
  intros Hn. cbv zeta.
  assert (Hmax : forall l, maxHistory (foldl (AddChunk farm_Hash64) (mkHistory ∅ n) l) = n).
  { clear l. intros l. induction l as [|x l IH] using rev_ind; [done|]. rewrite foldl_snoc.
    unfold AddChunk. case_if; [done|]. case_if; [done|]. by destruct (UniqueId farm_Hash64 (ci_Name x)). }
  induction l as [|x l IH] using rev_ind; [by rewrite decide_True|].
  rewrite foldl_snoc, filter_app. specialize (Hmax l).
  set (h := foldl _ _ l) in *. set (mine := filter _ l) in *. unfold AddChunk. rewrite Hmax.
  rewrite (proj2 (Z.leb_gt n 0)) by lia.
  destruct (ts_Count (ci_Series x) =? 0) eqn:Ec; bool_to_prop.
  { rewrite filter_cons_False by tauto. by rewrite app_nil_r. }
  pose proof (eq_refl (kept x)) as Hkx. unfold kept at 2 in Hkx.
  destruct (UniqueId farm_Hash64 (ci_Name x)) as [id nm] eqn:Eid. cbn [snd] in Hkx. rewrite <- Hkx.
  cbn [Chunks]. destruct (decide (id = k)) as [->|Hne].
  - rewrite lookup_insert_eq. rewrite filter_cons_True by (split; [by rewrite Eid|done]). rewrite IH.
    rewrite filter_nil. destruct (decide (mine ++ [x] = [])) as [Hbad|_]; [by destruct mine|].
    rewrite map_app. cbn [map].
    rewrite newest_snoc by lia. case_decide as Hm.
    + rewrite Hm. cbn [map newest length Nat.sub drop]. case_if; done.
    + f_equal. rewrite Z.geb_leb. set (w := newest (Z.to_nat n) (map kept mine)).
      destruct (Nat.ltb_spec (length w) (Z.to_nat n)) as [Hlt|Hge].
      * by rewrite (proj2 (Z.leb_gt n (Z.of_nat (length w)))) by lia.
      * by rewrite (proj2 (Z.leb_le n (Z.of_nat (length w)))) by lia.
  - rewrite lookup_insert_ne, filter_cons_False, app_nil_r by (done || rewrite Eid; tauto). exact IH.
Qed.

End queue.
