(* ===== verification/PipelineTheorems.v ===== *)
(** From the write cache to the answer of a query: the Gorilla and list
    formats keep the promises the cache relies on, and the series the
    cache hands to a writer, stored as blocks, are read back as exactly
    the points it accepted. *)
From Stdlib Require Sorting.Sorted.
From S2P Require Import Prelude Bits BitStream Float64 GoStrings GoSort Gorilla GorillaIter GorillaProofs.
From S2P Require Import Tags Repr LRU LRUTheorems Aggs Series RawData Resample ResampleTheorems QueryTheorems.
From S2P Require Import WriteCache WriteCacheTheorems.

Open Scope Z_scope.

(** ** The Gorilla format *)

Definition point_of (x : StatRepr) : point :=
  mkPoint (Time x) (Min x) (Max x) (Last x) (Sum x) (Count x).

Definition gorilla_stat (x : StatRepr) : Prop :=
  point_ok (point_of x) /\ (splitNano (Time x)).1 <> 0.

(** The series a writer of the default format has after the points. *)
Definition gorilla_contents (s : GorillaTimeSeries) (l : list StatRepr) : Prop :=
  exists t0 s0, NewGoriallaTimeSeries t0 NewDefaultOptions = Some s0 /\
    block_points t0 (map point_of l) /\ AddPoints s0 (map point_of l) = Some (None, s).

Lemma AddPoints_snoc (ps : list point) (p : point) (s s' : GorillaTimeSeries) :
  AddPoints s ps = Some (None, s') -> AddPoints s (ps ++ [p]) = AddPoints s' [p].
Proof.
  revert s. induction ps as [|q ps IH]; intros s H; [by injection H as <-|].
  cbn [app AddPoints] in *. destruct (AddPoint s q) as [[[e|] s1]|]; cbn [mbind option_bind] in *; [done| |done].
  by apply IH.
Qed.

Lemma AddPoints_one (s s' : GorillaTimeSeries) (p : point) :
  AddPoints s [p] = Some (None, s') -> AddPoint s p = Some (None, s').
Proof.
  cbn [AddPoints]. destruct (AddPoint s p) as [[[e|] s1]|]; cbn [mbind option_bind]; [done| |done].
  by intros [= ->].
Qed.

(** Any admissible points can be added. *)
Lemma block_points_add (t0 : Z) (ps : list point) :
  block_points t0 ps ->
  exists s0 s, NewGoriallaTimeSeries t0 NewDefaultOptions = Some s0 /\ AddPoints s0 ps = Some (None, s).
Proof.
  intros [Hps H14]. destruct ps as [|p ps]; [done|].
  destruct (series_reads_back t0 false "n/a" p ps (S (length (p :: ps))) Hps H14 ltac:(lia))
    as (s0 & s & _ & _ & _ & E0 & E1 & _). by exists s0, s.
Qed.

Lemma gorilla_contents_new (x : StatRepr) (s0 : GorillaTimeSeries) :
  gorilla_stat x -> NewGoriallaTimeSeries (Time x) NewDefaultOptions = Some s0 ->
  exists s, AddPoint s0 (point_of x) = Some (None, s) /\ gorilla_contents s [x].
Proof.
  intros Hx E0.
  assert (Hb : block_points (Time x) [point_of x]).
  { split; [by constructor|]. simpl. by rewrite Z.sub_diag. }
  destruct (block_points_add (Time x) _ Hb) as (s0' & s & E0' & E1). rewrite E0 in E0'. injection E0' as <-.
  exists s. split; [by apply AddPoints_one|]. by exists (Time x), s0.
Qed.

Lemma gorilla_contents_add (s : GorillaTimeSeries) (l : list StatRepr) (x : StatRepr) :
  gorilla_contents s l -> gorilla_stat x ->
  exists s', AddPoint s (point_of x) = Some (None, s') /\ gorilla_contents s' (l ++ [x]).
Proof.
  intros (t0 & s0 & E0 & [Hps H14] & E1) Hx.
  assert (Hb : block_points t0 (map point_of (l ++ [x]))).
  { rewrite map_app. split; [apply Forall_app; by split; [|constructor]|].
    by destruct (map point_of l). }
  destruct (block_points_add t0 _ Hb) as (s0' & s' & E0' & E1'). rewrite E0 in E0'. injection E0' as <-.
  exists s'. split; [|by exists t0, s0].
  rewrite map_app in E1'. cbn [map] in E1'. rewrite (AddPoints_snoc _ _ _ s) in E1' by done. by apply AddPoints_one.
Qed.

Lemma NewGorilla_total (t0 : Z) : exists s0, NewGoriallaTimeSeries t0 NewDefaultOptions = Some s0.
Proof. destruct (NewGorilla_spec t0 false "n/a") as (s0 & h & E & _). by exists s0. Qed.

(** ** The registry keeps the cache's contract *)

Section laws.
Context {O OS : Type} {OTI : TimeSeriesIter O} {OTS : TimeSeries OS O}.
Variable other_Series : string -> Z -> OS.
Variable json_Len : list StatRepr -> Z.

#[local] Instance any_TS : TimeSeries (any_series (OS:=OS)) (any_iter (O:=O)) := any_TimeSeries json_Len.

Definition any_gorilla (s : any_series (OS:=OS)) (l : list StatRepr) : Prop :=
  match s with SGorilla s => gorilla_contents s l | _ => False end.

Lemma any_gorilla_new (x : StatRepr) :
  gorilla_stat x ->
  exists tp e tp', NewTimeSeries other_Series "gorilla" (Time x) = Some (inl tp) /\
    ts_AddStat tp x = Some (e, tp') /\ (e = None -> any_gorilla tp' [x]).
Proof.
  intros Hx. destruct (NewGorilla_total (Time x)) as [s0 E0].
  destruct (gorilla_contents_new x s0 Hx E0) as (s & E1 & Hc).
  exists (SGorilla s0), None, (SGorilla s). unfold NewTimeSeries. rewrite bool_decide_true, E0 by done.
  split; [done|]. split; [|done]. simpl. unfold gorilla_AddStat. fold (point_of x). by rewrite E1.
Qed.

Lemma any_gorilla_add (s : any_series) (l : list StatRepr) (x : StatRepr) :
  any_gorilla s l -> gorilla_stat x ->
  exists e s', ts_AddStat s x = Some (e, s') /\
    match e with Some _ => s' = s | None => any_gorilla s' (l ++ [x]) end.
Proof.
  intros Hc Hx. destruct s as [s| |]; [|done..].
  destruct (gorilla_contents_add s l x Hc Hx) as (s' & E & Hc'). exists None, (SGorilla s').
  simpl. unfold gorilla_AddStat. fold (point_of x). by rewrite E.
Qed.

Definition any_repr (s : any_series (OS:=OS)) (l : list StatRepr) : Prop :=
  match s with SRepr s => Stats s = map repr_Copy l | _ => False end.

Lemma any_repr_new (x : StatRepr) :
  exists tp e tp', NewTimeSeries other_Series "repr" (Time x) = Some (inl tp) /\
    ts_AddStat tp x = Some (e, tp') /\ (e = None -> any_repr tp' [x]).
Proof. by eexists _, _, _. Qed.

Lemma any_repr_add (s : any_series) (l : list StatRepr) (x : StatRepr) :
  any_repr s l -> exists e s', ts_AddStat s x = Some (e, s') /\
    match e with Some _ => s' = s | None => any_repr s' (l ++ [x]) end.
Proof.
  intros Hc. destruct s as [|s|]; [done| |done]. exists None, (SRepr (rs_AddStat s x)).
  split; [done|]. simpl in *. by rewrite Hc, map_app.
Qed.

#[local] Instance gorilla_laws : SeriesLaws (NewTimeSeries other_Series) "gorilla" :=
  {| stat_ok := gorilla_stat;
     contents := any_gorilla;
     laws_new x Hx := or_intror (any_gorilla_new x Hx);
     laws_add s l x Hc Hx := any_gorilla_add s l x Hc Hx |}.

#[local] Instance repr_laws : SeriesLaws (NewTimeSeries other_Series) "repr" :=
  {| stat_ok _ := True;
     contents := any_repr;
     laws_new x _ := or_intror (any_repr_new x);
     laws_add s l x Hc _ := any_repr_add s l x Hc |}.

(** ** The pipeline *)

Context {GS : GoSort}.
Variable farm_Hash64 : list Z -> Z.
Variable other_Iter : string -> list Z -> O + goerror.
Variable json_Stats : list Z -> list StatRepr + goerror.

(** The block of a series: its bytes under the id of its format. *)
Definition block_of (s : any_series (OS:=OS)) : option DBSeries :=
  match s with
  | SGorilla s => data ← series_Bytes s; Some (mkDBSeries "" 0 0 (IdFromName GORILLA_NAME) data 0 0)
  | _ => None
  end.

(** The blocks stored for metric [k]. *)
Definition stored_for (k : Z) (out : list (StatName * any_series)) : list DBSeries :=
  omap (fun x => if (UniqueId farm_Hash64 x.1).1 =? k then block_of x.2 else None) out.

(** The contents of the series handed out for [k], one list a series. *)
Fixpoint parts (k : Z) (out : list (StatName * any_series (OS:=OS))) (outs : list (list StatRepr))
  : list (list StatRepr) :=
  match out, outs with
  | x :: out, l :: outs =>
      if (UniqueId farm_Hash64 x.1).1 =? k then l :: parts k out outs else parts k out outs
  | _, _ => []
  end.

Lemma parts_given (k : Z) (out : list (StatName * any_series)) (outs : list (list StatRepr)) :
  concat (parts k out outs) = given farm_Hash64 k out outs.
Proof.
  revert outs. induction out as [|x out IH]; intros [|l outs]; try done.
  cbn [parts given]. case_if; [cbn [concat]; by f_equal|]. simpl. apply IH.
Qed.

Lemma block_of_gorilla (s : any_series) (l : list StatRepr) :
  any_gorilla s l -> exists d, block_of s = Some d /\ gorilla_block false (map point_of l) d.
Proof.
  destruct s as [s| |]; [|done..]. intros (t0 & s0 & E0 & Hb & E1).
  pose proof Hb as [Hps H14]. destruct (map point_of l) as [|p ps] eqn:El; [done|].
  destruct (series_reads_back t0 false "n/a" p ps (Datatypes.S (length (p :: ps))) Hps H14 ltac:(lia))
    as (s0' & s' & data & it & it' & E0' & E1' & E2 & _).
  change (mkOptions 5 false "n/a") with NewDefaultOptions in E0'.
  rewrite E0 in E0'. injection E0' as <-. rewrite E1 in E1'. injection E1' as <-.
  cbn [block_of]. rewrite E2. cbn [mbind option_bind]. eexists. split; [done|]. split; [done|].
  exists t0, "n/a"%string. split; [done|]. unfold store_gorilla.
  change (mkOptions 5 false "n/a") with NewDefaultOptions. rewrite E0. cbn [mbind option_bind]. rewrite E1.
  cbn [mbind option_bind Pbytes]. done.
Qed.

Lemma stored_blocks (k : Z) (out : list (StatName * any_series)) (outs : list (list StatRepr)) :
  Forall2 (fun x l => any_gorilla x.2 l) out outs ->
  Forall2 (gorilla_block false) (map (map point_of) (parts k out outs)) (stored_for k out).
Proof.
  induction 1 as [|x l out outs Hx _ IH]; [constructor|]. cbn [parts]. unfold stored_for.
  cbn [omap list_omap]. destruct ((UniqueId farm_Hash64 x.1).1 =? k); [|done].
  destruct (block_of_gorilla x.2 l Hx) as (d & -> & Hd). by constructor.
Qed.

(** C2: From the write cache to the query.  Run any sequence of additions,
    expiries, queue updates and pops on a new cache of Gorilla series, the
    names added having a unique id that is not zero and the statistics
    64-bit values and a second that is not zero.  Once a metric's series
    have all been handed to a writer and stored, reading its blocks back
    gives an item, sorted by time, with one point for each point the cache
    accepted for the metric: its whole second with its five values, or, for
    a point the series stores short, with the sum in place of minimum,
    maximum and last value and a count of one. *)
Theorem accepted_points_queryable (keys nbytes time : Z) (method : string) (os : list wop) (wc : CacherSingle)
  (out : list (StatName * any_series)) (acc : list (Z * StatRepr)) (k : Z) (fuel : nat) :
  Forall (wop_ok farm_Hash64 (NewTimeSeries other_Series) "gorilla") os ->
  exec_all farm_Hash64 (NewTimeSeries other_Series)
    (configure NewSingleCacher keys nbytes "gorilla" time method, [], []) os = Some (wc, out, acc) ->
  Cache wc !! k = None -> (length acc < fuel)%nat ->
  exists item, ToRawRenderItem (NewIter other_Iter json_Stats) fuel (stored_for k out) = Some (inl item) /\
    Data item ≡ₚ map rendered (map point_of (of_key k acc)) /\ time_sorted (Data item).
Proof.
  intros Hok Hrun Hk Hfuel.
  destruct (exec_all_good farm_Hash64 _ "gorilla" os _ [] []
    (new_good farm_Hash64 _ "gorilla" keys nbytes time method) Hok)
    as (wc' & out' & acc' & E & _ & _ & outs & cur & [_ _ Hnone Houts Hsum]).
  rewrite Hrun in E. injection E as <- <- <-.
  specialize (Hsum k). rewrite (Hnone k Hk), app_nil_r, <- parts_given in Hsum.
  destruct (stored_blocks_item other_Iter json_Stats false (map (map point_of) (parts k out outs))
    (stored_for k out) fuel) as (item & E & Hp & Hs & _).
  - by apply stored_blocks.
  - assert (Hlen : (length (concat (parts k out outs)) <= length acc)%nat).
    { rewrite Hsum. unfold of_key. rewrite length_map. apply length_filter. }
    clear -Hlen Hfuel. rewrite Forall_map. revert Hlen. generalize (parts k out outs). intros l.
    induction l as [|a l IH]; intros Hlen; constructor; simpl in Hlen; rewrite length_app in Hlen.
    + simpl. rewrite length_map. lia.
    + apply IH. lia.
  - exists item. split; [done|]. split; [|done]. rewrite <- Hsum, (concat_map point_of). exact Hp.
Qed.

End laws.

(** ** An example run *)

#[local] Existing Instance insertion_GoSort.
#[local] Instance other_TS : TimeSeries ReprTimeSeries ReprIter := Repr_TimeSeries (fun _ => 0).

Abbreviation sample_New := (NewTimeSeries (fun _ t => NewReprTimeSeries t NewDefaultOptions)).
#[local] Instance sample_TS : TimeSeries any_series any_iter := any_TS (O:=ReprIter) (fun _ => 0).
#[local] Instance sample_laws : SeriesLaws sample_New "gorilla" := gorilla_laws _ _.

Definition sample_name (key : string) : StatName := mkName key 0 "" 0 0 TAG_METRICS2 HASH_FNV [] [].
Definition sample_point (t v c : Z) : StatRepr :=
  mkRepr None (t * 10 ^ 9) (float_of_Z v) (float_of_Z (v + 1)) (float_of_Z v) (float_of_Z (2 * v + 1)) c.

Definition id_a : Z := (UniqueId (fun _ => 0) (sample_name "a")).1.
Definition id_b : Z := (UniqueId (fun _ => 0) (sample_name "b")).1.

(** Metric [a] overflows, [b] expires, and [a] is popped. *)
Definition sample_ops : list wop :=
  [ WAdd (sample_name "a") (sample_point 1500000000 1 2) None 100;
    WAdd (sample_name "b") (sample_point 1500000001 7 3) None 50;
    WAdd (sample_name "a") (sample_point 1500000010 2 2) None 101;
    WExpire [id_b; id_a] 4000;
    WQueue [id_a] 4611686018427387904;
    WPop ].

Lemma sample_ops_ok : Forall (wop_ok (fun _ => 0) sample_New "gorilla") sample_ops.
Proof.
  repeat constructor; try (vm_compute; reflexivity); try (vm_compute; discriminate);
    vm_compute; split_and!; (reflexivity || discriminate).
Qed.

Definition sample_start : CacherSingle (S:=any_series (OS:=ReprTimeSeries)) := configure NewSingleCacher 10 4 "gorilla" 3600 "chan".

Definition sample_end
  : CacherSingle (S:=any_series (OS:=ReprTimeSeries)) * list (StatName * any_series) * list (Z * StatRepr) :=
  default (sample_start, [], []) (exec_all (fun _ => 0) sample_New (sample_start, [], []) sample_ops).

Lemma sample_run :
  exec_all (fun _ => 0) sample_New (sample_start, [], []) sample_ops =
  Some (sample_end.1.1, sample_end.1.2, sample_end.2).
Proof. vm_compute. reflexivity. Qed.

(** Two blocks of [a] and one of [b] were handed out. *)
Lemma sample_handed_out :
  map (fun x => (UniqueId (fun _ => 0) x.1).1) sample_end.1.2 = [id_a; id_b; id_a] /\
  length sample_end.2 = 3%nat.
Proof. vm_compute. done. Qed.

Lemma accepted_points_queryable_witness :
  exists item, ToRawRenderItem
      (NewIter (O:=ReprIter) (fun _ _ => inr (GoError "none")) (fun _ => inl [])) 5
      (stored_for (fun _ => 0) id_a sample_end.1.2) = Some (inl item) /\
    Data item ≡ₚ map rendered (map point_of (of_key id_a sample_end.2)) /\ time_sorted (Data item).
Proof.
  apply (accepted_points_queryable (fun _ t => NewReprTimeSeries t NewDefaultOptions) (fun _ => 0)
           (fun _ => 0) (fun _ _ => inr (GoError "none")) (fun _ => inl []) 10 4 3600 "chan" sample_ops
           sample_end.1.1 sample_end.1.2 sample_end.2 id_a 5).
  - exact sample_ops_ok.
  - exact sample_run.
  - vm_compute. reflexivity.
  - vm_compute. lia.
Defined.

Lemma write_cache_conserves_witness :
  Forall (wop_ok (fun _ => 0) sample_New "gorilla") sample_ops /\
  exists wc out acc outs cur,
    exec_all (fun _ => 0) sample_New (sample_start, [], []) sample_ops = Some (wc, out, acc) /\
    Forall2 (fun x l => contents x.2 l) out outs /\
    (forall k, match Cache wc !! k with
               | Some it => contents (ci_Series it) (cur k)
               | None => cur k = []
               end) /\
    (forall k, given (fun _ => 0) k out outs ++ cur k = of_key k acc).
Proof.
  split; [exact sample_ops_ok|].
  exact (write_cache_conserves (fun _ => 0) sample_New "gorilla" 10 4 3600 "chan" sample_ops sample_ops_ok).
Defined.

Lemma write_cache_books_witness :
  curSize sample_end.1.1 = i64 (bytes (Cache sample_end.1.1)) /\
  cacher_Len sample_end.1.1 <= Z.max 0 (maxKeys sample_end.1.1 + 1).
Proof.
  exact (write_cache_books (fun _ => 0) sample_New "gorilla" 10 4 3600 "chan" sample_ops
           sample_end.1.1 sample_end.1.2 sample_end.2 sample_ops_ok sample_run).
Defined.

(** Two points of [a] and one of [b] in the cache. *)
Definition filled_ops : list wop :=
  [ WAdd (sample_name "b") (sample_point 1500000001 7 3) None 50;
    WAdd (sample_name "a") (sample_point 1500000000 1 2) None 100;
    WAdd (sample_name "a") (sample_point 1500000010 2 2) None 101 ].

Definition filled : CacherSingle (S:=any_series (OS:=ReprTimeSeries)) :=
  (default (sample_start, [], [])
     (exec_all (fun _ => 0) sample_New (configure NewSingleCacher 10 400 "gorilla" 3600 "chan", [], []) filled_ops)).1.1.

Lemma filled_names (k : Z) (it : CacheItem) :
  Cache filled !! k = Some it -> (UniqueId (fun _ => 0) (ci_Name it)).1 = k.
Proof.
  assert (Hok : Forall (wop_ok (fun _ => 0) sample_New "gorilla") filled_ops).
  { repeat constructor; try (vm_compute; reflexivity); try (vm_compute; discriminate);
      vm_compute; split_and!; (reflexivity || discriminate). }
  destruct (exec_all_good (fun _ => 0) sample_New "gorilla" filled_ops _ [] []
    (new_good (fun _ => 0) sample_New "gorilla" 10 400 3600 "chan") Hok)
    as (wc & out & acc & E & _ & _ & outs & cur & Ha).
  intros Hk. apply (acc_names _ _ _ _ _ _ _ _ Ha k it). unfold filled in Hk. by rewrite E in Hk.
Qed.

Lemma pop_fullest_witness :
  exists k it wc', Cache filled !! k = Some it /\
    PopSeries (fun _ => 0) (updateQueue filled (map fst (map_to_list (Cache filled))) 4611686018427387904) =
      (Some (ci_Name it, ci_Series it), wc') /\
    Cache wc' = delete k (Cache filled) /\
    forall k' it', Cache filled !! k' = Some it' -> ts_Count (ci_Series it') <= ts_Count (ci_Series it).
Proof.
  apply (pop_fullest (fun _ => 0) filled (map fst (map_to_list (Cache filled))) 4611686018427387904).
  - exact filled_names.
  - reflexivity.
  - intros H. assert (Hn : Cache filled !! id_a = None) by (rewrite H; apply lookup_empty).
    vm_compute in Hn. discriminate Hn.
  - vm_compute. reflexivity.
  - vm_compute. reflexivity.
Defined.

Lemma drain_empties_witness :
  exists out wc', pops (fun _ => 0) (base.size (Cache filled))
      (updateQueue filled (map fst (map_to_list (Cache filled))) 4611686018427387904) = (out, wc') /\
    Cache wc' = ∅ /\ out ≡ₚ all_series (Cache filled).
Proof.
  apply (drain_empties (fun _ => 0) filled (map fst (map_to_list (Cache filled))) 4611686018427387904).
  - exact filled_names.
  - reflexivity.
  - vm_compute. reflexivity.
Defined.

Definition sample_chunk (started : Z) : CacheItem (S:=any_series (OS:=ReprTimeSeries)) :=
  mkCacheItem (sample_name "a") (SRepr (mkReprSeries 0 0 [sample_point 1500000000 1 2])) None started.

Lemma history_keeps_newest_witness :
  let l := [sample_chunk 1; sample_chunk 2; sample_chunk 3] in
  option_map (map ci_Started) (Chunks (foldl (AddChunk (fun _ => 0)) (mkHistory ∅ 2) l) !! id_a) = Some [2; 3] /\
  let mine := filter (fun x => (UniqueId (fun _ => 0) (ci_Name x)).1 = id_a /\ ts_Count (ci_Series x) <> 0) l in
  Chunks (foldl (AddChunk (fun _ => 0)) (mkHistory ∅ 2) l) !! id_a =
  if decide (mine = []) then None else Some (newest (Z.to_nat 2) (map (kept (fun _ => 0)) mine)).
Proof.
  split; [vm_compute; reflexivity|].
  exact (history_keeps_newest (fun _ => 0) 2 id_a [sample_chunk 1; sample_chunk 2; sample_chunk 3] eq_refl).
Defined.

(** Reading a series drops a point with the time of the one before it:
    the merged statistic is not kept. *)
Theorem same_time_point_dropped :
  exists out, getStatsStream 5 (sample_name "a")
      (SRepr (OS:=ReprTimeSeries) (mkReprSeries 0 0
         [sample_point 1500000000 1 2; sample_point 1500000000 5 4; sample_point 1500000001 2 1])) =
      Some (out, None) /\ map Count out = [2; 1].
Proof. eexists. split; vm_compute; reflexivity. Qed.

(** [GetAnyStat] never returns a name. *)
Theorem GetAnyStat_no_name (fuel : nat) (wc wc' : CacherSingle) (keys : list Z) (name : option StatName)
  (out : list StatRepr) :
  GetAnyStat fuel wc keys = Some (name, out, wc') -> name = None.
Proof.
  unfold GetAnyStat. destruct keys as [|k keys]; [by intros [= <- _ _]|].
  destruct (Cache wc !! k); [|done]. cbn [mbind option_bind].
  destruct (getStatsStream _ _ _) as [[o e]|]; [|done]. cbn [mbind option_bind]. by intros [= <- _ _].
Qed.
