(* ===== verification/Wire.v ===== *)
(** The wire format of the generated message code ([series/protobuf.pb.go],
    [schemas/repr/repr.pb.go], [schemas/series/series.pb.go]): integers of
    variable length, fixed 64-bit words, fields with a length, and the
    skipping of unknown fields.

    The generator emits, for every field of a message, the same three
    pieces of code: a conditional write, a conditional addition to the
    size, and a case of the switch of [Unmarshal].  They are the three
    operations of a [field]; a message is the list of its fields, in the
    order they are written.  Reading is by index into the data, as in the
    code: the index is a 64-bit integer that a length can overflow, and an
    index or a slice out of range is a panic. *)
From S2P Require Import Prelude Bits Float64 GoStrings GoParse.

Open Scope Z_scope.

(** ** Outcomes *)

Inductive outcome (A : Type) :=
| Ok (a : A)
| Err (e : goerror)
| Panic
| NoFuel.

Arguments Ok {A} a.
Arguments Err {A} e.
Arguments Panic {A}.
Arguments NoFuel {A}.

#[export] Instance outcome_ret : MRet outcome := fun A a => Ok a.
#[export] Instance outcome_bind : MBind outcome := fun A B k m =>
  match m with Ok a => k a | Err e => Err e | Panic => Panic | NoFuel => NoFuel end.

Definition ErrInvalidLength : goerror := GoError "proto: negative length found during unmarshaling".
Definition ErrIntOverflow : goerror := GoError "proto: integer overflow".
Definition ErrUnexpectedEOF : goerror := GoError "unexpected EOF".

Definition len {A} (l : list A) : Z := Z.of_nat (length l).

(** ** Writing *)

(** [encodeVarint]: the bytes written; nine bytes with seven bits each and
    a tenth are enough for 64 bits. *)
Fixpoint put_varint (fuel : nat) (v : Z) : list Z :=
  match fuel with
  | O => [u8 v]
  | S fuel =>
      if v >=? 128 then Z.lor (Z.land v 0x7F) 0x80 :: put_varint fuel (Z.shiftr v 7) else [u8 v]
  end.

Definition encodeVarint (v : Z) : list Z := put_varint 9 v.

Definition byte_offsets : list Z := [0; 8; 16; 24; 32; 40; 48; 56].

Definition encodeFixed64 (v : Z) : list Z := map (fun k => u8 (shr 64 v k)) byte_offsets.

(** [sov]: the number of bytes of a varint. *)
Fixpoint sov_loop (fuel : nat) (x n : Z) : Z :=
  match fuel with
  | O => n
  | S fuel =>
      let n := n + 1 in
      let x := Z.shiftr x 7 in
      if x =? 0 then n else sov_loop fuel x n
  end.

Definition sov (x : Z) : Z := sov_loop 10 x 0.

(** The bytes before a field, constants of the generated code: the number
    and the wire type. *)
Definition key (num wiretype : Z) : list Z := encodeVarint (num * 8 + wiretype).

(** ** Reading *)

Fixpoint shifts (s : Z) (n : nat) : list Z :=
  match n with O => [] | S n => s :: shifts (s + 7) n end.

(** [for shift := uint(0); ; shift += 7]: a shift of 64 is an overflow.
    The integer read has [w] bits. *)
Fixpoint varint_loop (w : Z) (data : list Z) (shs : list Z) (v iNdEx : Z) : outcome (Z * Z) :=
  match shs with
  | [] => Err ErrIntOverflow
  | shift :: shs =>
      if iNdEx >=? len data then Err ErrUnexpectedEOF
      else
        match at_index data iNdEx with
        | None => Panic
        | Some b =>
            let v := Z.lor v (shl w (Z.land b 0x7F) shift) in
            if b <? 0x80 then Ok (v, iNdEx + 1) else varint_loop w data shs v (iNdEx + 1)
        end
  end.

Definition readVarint (w : Z) (data : list Z) (iNdEx : Z) : outcome (Z * Z) :=
  varint_loop w data (shifts 0 10) 0 iNdEx.

(** [data[a:b]]. *)
Definition slice (data : list Z) (a b : Z) : outcome (list Z) :=
  if (0 <=? a) && (a <=? b) && (b <=? len data) then Ok (take (Z.to_nat (b - a)) (drop (Z.to_nat a) data))
  else Panic.

Definition readFixed64 (data : list Z) (iNdEx : Z) : outcome (Z * Z) :=
  if iNdEx + 8 >? len data then Err ErrUnexpectedEOF
  else
    bs ← slice data iNdEx (iNdEx + 8);
    Ok (foldl (fun v bk => Z.lor v (shl 64 bk.1 bk.2)) 0 (zip bs byte_offsets), iNdEx + 8).

(** The length and the bytes of a string, of a byte slice or of a nested
    message.  The sum of index and length can overflow. *)
Definition readDelimited (data : list Z) (iNdEx : Z) : outcome (list Z * Z) :=
  '(v, iNdEx) ← readVarint 64 data iNdEx;
  let msglen := i64 v in
  if msglen <? 0 then Err ErrInvalidLength
  else
    let postIndex := i64 (iNdEx + msglen) in
    if postIndex >? len data then Err ErrUnexpectedEOF
    else bs ← slice data iNdEx postIndex; Ok (bs, postIndex).

(** The tag of a field: its number and its wire type. *)
Definition tag_num (wire : Z) : Z := i32 (shr 64 wire 3).
Definition tag_type (wire : Z) : Z := Z.land wire 7.

(** [skip]: the length of the field the data starts with; [group] is the
    loop over the fields of a group. *)
Fixpoint skip_loop (fuel : nat) (group : bool) (data : list Z) (iNdEx : Z) : outcome Z :=
  match fuel with
  | O => NoFuel
  | S fuel =>
      if group then
        let start := iNdEx in
        '(innerWire, iNdEx) ← readVarint 64 data iNdEx;
        if tag_type innerWire =? 4 then Ok iNdEx
        else
          rest ← slice data start (len data);
          next ← skip_loop fuel false rest 0;
          skip_loop fuel true data (i64 (start + next))
      else if iNdEx <? len data then
        '(wire, iNdEx) ← readVarint 64 data iNdEx;
        let wireType := tag_type wire in
        if wireType =? 0 then '(_, iNdEx) ← readVarint 64 data iNdEx; Ok iNdEx
        else if wireType =? 1 then Ok (iNdEx + 8)
        else if wireType =? 2 then
          '(v, iNdEx) ← readVarint 64 data iNdEx;
          if i64 v <? 0 then Err ErrInvalidLength else Ok (i64 (iNdEx + i64 v))
        else if wireType =? 3 then skip_loop fuel true data iNdEx
        else if wireType =? 4 then Ok iNdEx
        else if wireType =? 5 then Ok (iNdEx + 4)
        else Err (GoError ("proto: illegal wireType " +:+ FormatInt wireType))
      else Panic
  end.

Definition skip (data : list Z) : outcome Z := skip_loop (2 * length data + 2) false data 0.

(** ** Fields and messages *)

Record field (M : Type) := mkField {
  f_num : Z;
  f_type : Z;
  f_name : string;
  f_put : M -> list Z;
  f_size : M -> Z;
  f_read : list Z -> M -> Z -> outcome (M * Z)
}.

Arguments mkField {M}.
Arguments f_num {M}.
Arguments f_type {M}.
Arguments f_name {M}.
Arguments f_put {M}.
Arguments f_size {M}.
Arguments f_read {M}.

Definition put_fields {M} (fs : list (field M)) (m : M) : list Z := fs ≫= (fun f => f_put f m).

Definition size_fields {M} (fs : list (field M)) (m : M) : Z := foldr (fun f n => f_size f m + n) 0 fs.

(** [Marshal]: a buffer of the size of the message; writing past its end
    is a panic. *)
Definition marshal_fields {M} (fs : list (field M)) (m : M) : outcome (list Z) :=
  let data := put_fields fs m in
  if len data <=? size_fields fs m then Ok data else Panic.

Definition errWireType (wireType : Z) (name : string) : goerror :=
  GoError ("proto: wrong wireType = " +:+ FormatInt wireType +:+ " for field " +:+ name).

(** The default case of the switch, from the start of the tag. *)
Definition skip_unknown (data : list Z) (preIndex : Z) : outcome Z :=
  rest ← slice data preIndex (len data);
  skippy ← skip rest;
  if skippy <? 0 then Err ErrInvalidLength
  else if i64 (preIndex + skippy) >? len data then Err ErrUnexpectedEOF
  else Ok (i64 (preIndex + skippy)).

Fixpoint unmarshal_loop {M} (name : string) (fs : list (field M)) (fuel : nat) (data : list Z) (m : M) (iNdEx : Z)
    : outcome M :=
  match fuel with
  | O => NoFuel
  | S fuel =>
      if iNdEx <? len data then
        let preIndex := iNdEx in
        '(wire, iNdEx) ← readVarint 64 data iNdEx;
        let fieldNum := tag_num wire in
        let wireType := tag_type wire in
        if wireType =? 4 then Err (GoError ("proto: " +:+ name +:+ ": wiretype end group for non-group"))
        else if fieldNum <=? 0 then
          Err (GoError ("proto: " +:+ name +:+ ": illegal tag " +:+ FormatInt fieldNum +:+ " (wire type "
                        +:+ FormatInt wire +:+ ")"))
        else
          match list_find (fun f => f_num f = fieldNum) fs with
          | Some (_, f) =>
              if negb (wireType =? f_type f) then Err (errWireType wireType (f_name f))
              else '(m, iNdEx) ← f_read f data m iNdEx; unmarshal_loop name fs fuel data m iNdEx
          | None => iNdEx ← skip_unknown data preIndex; unmarshal_loop name fs fuel data m iNdEx
          end
      else if iNdEx >? len data then Err ErrUnexpectedEOF
      else Ok m
  end.

Definition unmarshal_fields {M} (name : string) (fs : list (field M)) (m : M) (data : list Z) : outcome M :=
  unmarshal_loop name fs (S (length data)) data m 0.

(** What a message needs to be nested in another. *)
Class Message (M : Type) := {
  msg_name : string;
  msg_empty : M;
  msg_fields : list (field M)
}.

Definition MarshalTo {M} `{!Message M} (m : M) : list Z := put_fields msg_fields m.
Definition Size {M} `{!Message M} (m : M) : Z := size_fields msg_fields m.
Definition Marshal {M} `{!Message M} (m : M) : outcome (list Z) := marshal_fields msg_fields m.
Definition UnmarshalInto {M} `{!Message M} (m : M) (data : list Z) : outcome M :=
  unmarshal_fields (msg_name (M:=M)) msg_fields m data.
(** [proto.Unmarshal] resets the message first. *)
Definition Unmarshal {M} `{!Message M} (data : list Z) : outcome M := UnmarshalInto msg_empty data.

(** *** The kinds of fields *)

Section kinds.
Context {M : Type}.

(** Integers and enumerations: of [w] bits, [signed] or not. *)
Definition int_field (num : Z) (name : string) (w : Z) (signed : bool) (get : M -> Z) (set : Z -> M -> M) : field M :=
  mkField num 0 name
    (fun m => if get m =? 0 then [] else key num 0 ++ encodeVarint (u64 (get m)))
    (fun m => if get m =? 0 then 0 else len (key num 0) + sov (u64 (get m)))
    (fun data m i =>
       '(v, i) ← readVarint w data i; Ok (set (if signed then swrap w v else v) m, i)).

Definition bool_field (num : Z) (name : string) (get : M -> bool) (set : bool -> M -> M) : field M :=
  mkField num 0 name
    (fun m => if get m then key num 0 ++ [1] else [])
    (fun m => if get m then len (key num 0) + 1 else 0)
    (fun data m i => '(v, i) ← readVarint 64 data i; Ok (set (negb (i64 v =? 0)) m, i)).

(** Floats: zero of either sign is not written. *)
Definition double_field (num : Z) (name : string) (get : M -> float64) (set : float64 -> M -> M) : field M :=
  mkField num 1 name
    (fun m => if feq (get m) 0 then [] else key num 1 ++ encodeFixed64 (Float64bits (get m)))
    (fun m => if feq (get m) 0 then 0 else len (key num 1) + 8)
    (fun data m i => '(v, i) ← readFixed64 data i; Ok (set (Float64frombits v) m, i)).

Definition bytes_string (bs : list Z) : string :=
  String.string_of_list_ascii (map (fun b => Ascii.ascii_of_N (Z.to_N b)) bs).

Definition string_field (num : Z) (name : string) (get : M -> string) (set : string -> M -> M) : field M :=
  mkField num 2 name
    (fun m => let s := string_bytes (get m) in
              if len s >? 0 then key num 2 ++ encodeVarint (len s) ++ s else [])
    (fun m => let l := len (string_bytes (get m)) in
              if l >? 0 then len (key num 2) + l + sov l else 0)
    (fun data m i => '(bs, i) ← readDelimited data i; Ok (set (bytes_string bs) m, i)).

Definition bytes_field (num : Z) (name : string) (get : M -> list Z) (set : list Z -> M -> M) : field M :=
  mkField num 2 name
    (fun m => if len (get m) >? 0 then key num 2 ++ encodeVarint (len (get m)) ++ get m else [])
    (fun m => if len (get m) >? 0 then len (key num 2) + len (get m) + sov (len (get m)) else 0)
    (fun data m i => '(bs, i) ← readDelimited data i; Ok (set bs m, i)).

(** A list of strings; each occurrence is appended. *)
Definition strings_field (num : Z) (name : string) (get : M -> list string) (set : list string -> M -> M) : field M :=
  mkField num 2 name
    (fun m => get m ≫= (fun x => let s := string_bytes x in key num 2 ++ encodeVarint (len s) ++ s))
    (fun m => foldr (fun x n => let l := len (string_bytes x) in len (key num 2) + l + sov l + n) 0 (get m))
    (fun data m i => '(bs, i) ← readDelimited data i; Ok (set (get m ++ [bytes_string bs]) m, i)).

Context {N : Type} `{!Message N}.

Definition put_message (num : Z) (s : N) : list Z := key num 2 ++ encodeVarint (Size s) ++ MarshalTo s.
Definition size_message (num : Z) (s : N) : Z := len (key num 2) + Size s + sov (Size s).

(** A nested message, nil when it is absent; a second occurrence is merged
    into the first. *)
Definition msg_field (num : Z) (name : string) (get : M -> option N) (set : option N -> M -> M) : field M :=
  mkField num 2 name
    (fun m => match get m with None => [] | Some s => put_message num s end)
    (fun m => match get m with None => 0 | Some s => size_message num s end)
    (fun data m i =>
       '(bs, i) ← readDelimited data i;
       s ← UnmarshalInto (default msg_empty (get m)) bs;
       Ok (set (Some s) m, i)).

(** A list of messages; each occurrence is appended. *)
Definition repeated_field (num : Z) (name : string) (get : M -> list N) (set : list N -> M -> M) : field M :=
  mkField num 2 name
    (fun m => get m ≫= put_message num)
    (fun m => foldr (fun s n => size_message num s + n) 0 (get m))
    (fun data m i =>
       '(bs, i) ← readDelimited data i;
       s ← UnmarshalInto msg_empty bs;
       Ok (set (get m ++ [s]) m, i)).

End kinds.
