(* ===== verification/WireTheorems.v ===== *)
(** The wire format: what is written is what is read, field by field and
    for whole messages, and reading ends on any bytes. *)
From S2P Require Import Prelude Bits Float64 GoStrings GoParse Wire.

Open Scope Z_scope.

(** ** Integers *)

Lemma shl_testbit (w x k i : Z) :
  0 <= w -> 0 <= k -> 0 <= i -> Z.testbit (shl w x k) i = (i <? w) && Z.testbit x (i - k).
Proof.
  intros. unfold shl. destruct (w <=? k) eqn:E; bool_to_prop.
  - rewrite Z.bits_0. destruct (i <? w) eqn:E2; bool_to_prop; [|done].
    by rewrite (Z.testbit_neg_r x) by lia.
  - unfold wrap. destruct (i <? w) eqn:E2; bool_to_prop.
    + rewrite Z.mod_pow2_bits_low by lia. apply Z.shiftl_spec. lia.
    + apply Z.mod_pow2_bits_high. lia.
Qed.

Lemma shl_0 (w v : Z) : 0 < w -> shl w v 0 = wrap w v.
Proof. intros. unfold shl. if_false. by rewrite Z.shiftl_0_r. Qed.

Lemma land_127_testbit (v i : Z) : 0 <= i -> Z.testbit (Z.land v 0x7F) i = (i <? 7) && Z.testbit v i.
Proof.
  intros. change 0x7F with (Z.ones 7). rewrite Z.land_spec, Z.testbit_ones_nonneg, andb_comm by lia. done.
Qed.

(** The seven bits of a byte and the rest of the integer. *)
Lemma varint_step (w a v s : Z) :
  0 <= w -> 0 <= s ->
  Z.lor (Z.lor a (shl w (Z.land v 0x7F) s)) (shl w (Z.shiftr v 7) (s + 7)) = Z.lor a (shl w v s).
Proof.
  intros. rewrite <- Z.lor_assoc. f_equal. apply Z.bits_inj'. intros i Hi.
  rewrite Z.lor_spec, !shl_testbit by lia.
  destruct (i <? w); [|done]. cbn [andb].
  destruct (decide (i - s < 0)).
  { rewrite !(Z.testbit_neg_r _ (i - s)), Z.testbit_neg_r by lia. done. }
  rewrite land_127_testbit by lia. destruct (i - s <? 7) eqn:E; bool_to_prop.
  - rewrite (Z.testbit_neg_r _ (i - (s + 7))) by lia. by rewrite orb_false_r.
  - rewrite Z.shiftr_spec by lia. cbn [andb orb]. f_equal. lia.
Qed.

Lemma land_bound (v : Z) : 0 <= Z.land v 0x7F < 128.
Proof. change 0x7F with (Z.ones 7). rewrite Z.land_ones by lia. apply Z.mod_pos_bound. lia. Qed.

(** A byte with the continuation bit. *)
Lemma lor_128 (v : Z) : Z.lor (Z.land v 0x7F) 0x80 = Z.land v 0x7F + 128.
Proof.
  assert (Hz : Z.land (Z.land v 0x7F) 0x80 = 0).
  { rewrite <- Z.land_assoc. change (Z.land 0x7F 0x80) with 0. apply Z.land_0_r. }
  pose proof (Z.add_lor_land (Z.land v 0x7F) 0x80). lia.
Qed.

Lemma land_lor_128 (v : Z) : Z.land (Z.lor (Z.land v 0x7F) 0x80) 0x7F = Z.land v 0x7F.
Proof.
  rewrite Z.land_lor_distr_l. change (Z.land 0x80 0x7F) with 0.
  rewrite <- Z.land_assoc. change (Z.land 0x7F 0x7F) with 0x7F. apply Z.lor_0_r.
Qed.

Lemma shiftr7_bound (v k : Z) : 0 <= k -> 0 <= v < 2 ^ (k + 7) -> 0 <= Z.shiftr v 7 < 2 ^ k.
Proof.
  intros Hk Hv. rewrite Z.shiftr_div_pow2 by lia. split; [apply Z.div_pos; lia|].
  apply Z.div_lt_upper_bound; [lia|]. rewrite <- Z.pow_add_r, Z.add_comm by lia. lia.
Qed.

Lemma put_varint_nonempty (fuel : nat) (v : Z) : (1 <= length (put_varint fuel v))%nat.
Proof. destruct fuel; cbn [put_varint]; [done|]. case_if; cbn [length]; lia. Qed.

Lemma key_nonempty (num wt : Z) : (1 <= length (key num wt))%nat.
Proof. apply put_varint_nonempty. Qed.

(** The bytes are bytes. *)
Lemma put_varint_bytes (fuel : nat) (v : Z) : Forall (fun b => 0 <= b < 256) (put_varint fuel v).
Proof.
  revert v. induction fuel as [|fuel IH]; intros v; cbn [put_varint].
  - constructor; [|done]. apply (wrap_range 8). lia.
  - case_if.
    + constructor; [|done]. rewrite lor_128. pose proof (land_bound v). lia.
    + constructor; [|done]. apply (wrap_range 8). lia.
Qed.

(** [sov] counts the bytes [encodeVarint] writes. *)
Lemma sov_loop_length (fuel : nat) (v n : Z) :
  0 <= v < 2 ^ (7 * Z.of_nat fuel + 1) -> sov_loop (S fuel) v n = n + len (put_varint fuel v).
Proof.
  revert v n. induction fuel as [|fuel IH]; intros v n Hv.
  - cbn [sov_loop put_varint]. change (2 ^ (7 * Z.of_nat 0 + 1)) with 2 in Hv.
    assert (v = 0 \/ v = 1) as [-> | ->] by lia; done.
  - cbn [sov_loop put_varint]. destruct (v >=? 128) eqn:E; bool_to_prop.
    + assert (Hs : 0 <= Z.shiftr v 7 < 2 ^ (7 * Z.of_nat fuel + 1)).
      { apply shiftr7_bound; [lia|]. replace (7 * Z.of_nat fuel + 1 + 7) with (7 * Z.of_nat (S fuel) + 1) by lia. done. }
      destruct (Z.shiftr v 7 =? 0) eqn:E2; bool_to_prop.
      { rewrite Z.shiftr_div_pow2 in E2 by lia. apply Z.div_small_iff in E2; lia. }
      change (sov_loop (S fuel) (Z.shiftr v 7) (n + 1) = n + len (Z.lor (Z.land v 127) 128 :: put_varint fuel (Z.shiftr v 7))).
      rewrite IH by done. unfold len. cbn [length]. lia.
    + assert (Hz : Z.shiftr v 7 = 0).
      { rewrite Z.shiftr_div_pow2 by lia. apply Z.div_small. lia. }
      rewrite Hz. done.
Qed.

Lemma sov_length (v : Z) : in_width 64 v -> sov v = len (encodeVarint v).
Proof. intros Hv. unfold sov, encodeVarint. rewrite (sov_loop_length 9); [lia|]. exact Hv. Qed.

Lemma put_varint_length (fuel : nat) (v : Z) : (length (put_varint fuel v) <= S fuel)%nat.
Proof.
  revert v. induction fuel as [|fuel IH]; intros v; cbn [put_varint]; [done|].
  case_if; cbn [length]; [|lia]. specialize (IH (Z.shiftr v 7)). lia.
Qed.

Lemma sov_bounds (v : Z) : in_width 64 v -> 1 <= sov v <= 10.
Proof.
  intros Hv. rewrite sov_length by done. unfold len, encodeVarint.
  pose proof (put_varint_nonempty 9 v). pose proof (put_varint_length 9 v). lia.
Qed.

Lemma sov_small (v : Z) : 0 <= v < 128 -> sov v = 1.
Proof.
  intros Hv. rewrite sov_length by (unfold in_width; lia). unfold encodeVarint. cbn [put_varint]. if_false. done.
Qed.

Lemma len_key (num wt : Z) : 0 <= num < 16 -> 0 <= wt < 8 -> len (key num wt) = 1.
Proof. intros. unfold key, encodeVarint. cbn [put_varint]. if_false. done. Qed.

(** ** Reading at an index *)

(** The data from index [i] on is [bs]. *)
Definition at_pos (data : list Z) (i : Z) (bs : list Z) : Prop :=
  0 <= i /\ drop (Z.to_nat i) data = bs.

Lemma at_pos_app (data : list Z) (i : Z) (bs rest : list Z) :
  at_pos data i (bs ++ rest) -> at_pos data (i + len bs) rest.
Proof.
  intros (Hi & Hd). split; [unfold len; lia|].
  unfold len. rewrite Z2Nat.inj_add, Nat2Z.id, <- drop_drop, Hd, drop_app_length by lia. done.
Qed.

Lemma at_pos_len (data : list Z) (i : Z) (bs : list Z) : at_pos data i bs -> bs <> [] -> len data = i + len bs.
Proof.
  intros (Hi & Hd) Hne. unfold len. rewrite <- Hd, length_drop.
  destruct (decide (Z.to_nat i <= length data)%nat); [lia|].
  rewrite drop_ge in Hd by lia. done.
Qed.

Lemma at_pos_head (data : list Z) (i b : Z) (rest : list Z) :
  at_pos data i (b :: rest) -> i < len data /\ at_index data i = Some b.
Proof.
  intros Hp. pose proof (at_pos_len _ _ _ Hp ltac:(done)) as Hl. destruct Hp as (Hi & Hd).
  unfold len in *. cbn [length] in Hl. split; [lia|]. unfold at_index. if_false.
  rewrite <- (Nat.add_0_r (Z.to_nat i)), <- lookup_drop, Hd. done.
Qed.

Lemma at_pos_start (data : list Z) : at_pos data 0 data.
Proof. split; [lia|]. apply drop_0. Qed.

Lemma varint_loop_read (w : Z) (data rest : list Z) (fuel : nat) (v s a i : Z) :
  0 <= w -> 0 <= s -> 0 <= v < 2 ^ (7 * Z.of_nat fuel + 1) ->
  at_pos data i (put_varint fuel v ++ rest) ->
  varint_loop w data (shifts s (S fuel)) a i = Ok (Z.lor a (shl w v s), i + len (put_varint fuel v)).
Proof.
  intros Hw. revert v s a i. induction fuel as [|fuel IH]; intros v s a i Hs Hv Hp.
  - change (2 ^ (7 * Z.of_nat 0 + 1)) with 2 in Hv.
    cbn [put_varint shifts varint_loop app] in *. apply at_pos_head in Hp as (Hlt & Hat).
    if_false. rewrite Hat. assert (v = 0 \/ v = 1) as [-> | ->] by lia; done.
  - cbn [put_varint shifts varint_loop] in *. destruct (v >=? 128) eqn:E; bool_to_prop.
    + cbn [app] in Hp. pose proof (at_pos_app _ _ [_] _ Hp) as Hp'.
      apply at_pos_head in Hp as (Hlt & Hat). if_false. rewrite Hat, land_lor_128.
      rewrite lor_128. pose proof (land_bound v). if_false.
      rewrite (IH (Z.shiftr v 7) (s + 7)); [|lia| |exact Hp'].
      * rewrite varint_step by done. f_equal. unfold len. cbn [length]. f_equal. lia.
      * apply shiftr7_bound; [lia|]. replace (7 * Z.of_nat fuel + 1 + 7) with (7 * Z.of_nat (S fuel) + 1) by lia. done.
    + cbn [app] in Hp. apply at_pos_head in Hp as (Hlt & Hat). if_false. rewrite Hat.
      assert (Hu : u8 v = v) by (apply wrap_id; unfold in_width; lia). rewrite Hu.
      assert (Hl : Z.land v 127 = v).
      { change 127 with (Z.ones 7). rewrite Z.land_ones by lia. apply Z.mod_small. lia. }
      rewrite Hl. if_true. done.
Qed.

(** What [encodeVarint] writes is read back, cut to the width of the
    reader. *)
Lemma readVarint_encode (w : Z) (data rest : list Z) (v i : Z) :
  0 < w -> in_width 64 v -> at_pos data i (encodeVarint v ++ rest) ->
  readVarint w data i = Ok (wrap w v, i + len (encodeVarint v)).
Proof.
  intros Hw Hv Hp. unfold readVarint. rewrite (varint_loop_read w data rest 9 v 0 0 i); try done; try lia.
  by rewrite shl_0, Z.lor_0_l.
Qed.

Lemma length_fixed64 (v : Z) : length (encodeFixed64 v) = 8%nat.
Proof. done. Qed.

Lemma byte_at_testbit (v k i : Z) :
  in_width 64 v -> 0 <= k < 64 -> 0 <= i ->
  Z.testbit (shl 64 (u8 (shr 64 v k)) k) i = (k <=? i) && (i <? k + 8) && Z.testbit v i.
Proof.
  intros Hv Hk Hi. rewrite shl_testbit by lia.
  destruct (k <=? i) eqn:E1; bool_to_prop.
  - unfold wrap. destruct (i <? k + 8) eqn:E2; bool_to_prop.
    + rewrite Z.mod_pow2_bits_low by lia. unfold shr. if_false. rewrite Z.shiftr_spec by lia.
      replace (i - k + k) with i by lia. cbn [andb].
      destruct (i <? 64) eqn:E3; bool_to_prop; [done|]. by rewrite (testbit_high 64) by done.
    + rewrite Z.mod_pow2_bits_high by lia. by rewrite andb_false_r.
  - rewrite Z.testbit_neg_r by lia. by rewrite andb_false_r.
Qed.

Lemma fixed64_bytes (v : Z) :
  in_width 64 v ->
  foldl (fun v bk => Z.lor v (shl 64 bk.1 bk.2)) 0 (zip (encodeFixed64 v) byte_offsets) = v.
Proof.
  intros Hv. unfold encodeFixed64, byte_offsets. cbn [map zip zip_with foldl fst snd].
  apply Z.bits_inj'. intros i Hi.
  rewrite !Z.lor_spec, !byte_at_testbit, Z.bits_0 by (done || lia).
  destruct (Z.testbit v i) eqn:E; [|by rewrite !andb_false_r].
  rewrite !andb_true_r, orb_false_l.
  assert (i < 64).
  { destruct (decide (i < 64)); [done|]. rewrite (testbit_high 64) in E by (done || lia). done. }
  apply not_false_iff_true. intros Hno.
  repeat match goal with H : _ || _ = false |- _ => apply orb_false_iff in H as [? ?] end.
  repeat match goal with H : (_ <=? _) && (_ <? _) = false |- _ => apply andb_false_iff in H end.
  rewrite ?Z.leb_gt, ?Z.ltb_ge in *. lia.
Qed.

Lemma slice_at (data bs rest : list Z) (i : Z) :
  at_pos data i (bs ++ rest) -> i <= len data -> slice data i (i + len bs) = Ok bs.
Proof.
  intros (Hi & Hd) Hle. unfold slice.
  assert (Hl : i + len bs <= len data).
  { pose proof (f_equal length Hd) as Hll. rewrite length_drop, length_app in Hll. unfold len in *. lia. }
  replace (0 <=? i) with true by (symmetry; bool_lia).
  replace (i <=? i + len bs) with true by (symmetry; apply Z.leb_le; unfold len; lia).
  replace (i + len bs <=? len data) with true by (symmetry; bool_lia). cbn [andb].
  rewrite Hd. replace (Z.to_nat (i + len bs - i)) with (length bs) by (unfold len; lia).
  by rewrite take_app_length.
Qed.

Lemma readFixed64_encode (data rest : list Z) (v i : Z) :
  in_width 64 v -> at_pos data i (encodeFixed64 v ++ rest) -> readFixed64 data i = Ok (v, i + 8).
Proof.
  intros Hv Hp. unfold readFixed64.
  pose proof (at_pos_len _ _ _ Hp ltac:(done)) as Hl.
  assert (len (encodeFixed64 v ++ rest) = 8 + len rest) as Hl2 by (unfold len; rewrite length_app, length_fixed64; lia).
  assert (0 <= len rest) by (unfold len; lia). if_false.
  change 8 with (len (encodeFixed64 v)). rewrite (slice_at data _ rest) by (done || lia).
  cbn [mbind outcome_bind]. by rewrite fixed64_bytes.
Qed.

(** The lengths that fit into memory. *)
Definition small_len (n : Z) : Prop := 0 <= n < 2 ^ 62.

Lemma small_width (n : Z) : small_len n -> in_width 64 n.
Proof. unfold small_len, in_width. lia. Qed.

Lemma i64_small (n : Z) : - 2 ^ 63 <= n < 2 ^ 63 -> i64 n = n.
Proof. intros. by apply swrap_id. Qed.

Lemma readDelimited_encode (data bs rest : list Z) (i : Z) :
  small_len (len data) -> at_pos data i (encodeVarint (len bs) ++ bs ++ rest) ->
  readDelimited data i = Ok (bs, i + len (encodeVarint (len bs)) + len bs).
Proof.
  intros Hs Hp. unfold small_len in Hs. assert (0 <= len bs) by (unfold len; lia).
  pose proof (at_pos_len _ _ _ Hp) as Hl. pose proof Hp as (Hi & _).
  assert (Hne : encodeVarint (len bs) ++ bs ++ rest <> []).
  { pose proof (put_varint_nonempty 9 (len bs)). unfold encodeVarint. intros E.
    apply (f_equal length) in E. rewrite length_app in E. cbn [length] in E. lia. }
  specialize (Hl Hne).
  assert (Hsum : len (encodeVarint (len bs) ++ bs ++ rest) = len (encodeVarint (len bs)) + len bs + len rest)
    by (unfold len; rewrite !length_app; lia).
  assert (0 <= len rest) by (unfold len; lia). assert (0 <= len (encodeVarint (len bs))) by (unfold len; lia).
  unfold readDelimited. rewrite (readVarint_encode 64 data (bs ++ rest) (len bs) i); [|lia| |done].
  2:{ apply small_width. split; lia. }
  cbn [mbind outcome_bind].
  assert (Hw : wrap 64 (len bs) = len bs) by (apply wrap_id, small_width; split; lia).
  rewrite Hw, i64_small by lia. if_false.
  rewrite i64_small by lia. if_false.
  apply at_pos_app in Hp. rewrite (slice_at data bs rest) by (done || lia). done.
Qed.

(** ** Fields

    The bodies a field writes, each after its key, and the way reading
    them changes a message: they are merged into what the field holds, and
    copied when it is still at its zero value. *)

Inductive reads {M} (f : field M) : list (list Z) -> M -> M -> Prop :=
| reads_nil m : reads f [] m m
| reads_cons b bs m m' m'' :
    (forall data rest i, small_len (len data) -> at_pos data i (b ++ rest) ->
       f_read f data m i = Ok (m', i + len b)) ->
    reads f bs m' m'' -> reads f (b :: bs) m m''.

Lemma reads_one {M} (f : field M) (b : list Z) (m m' : M) :
  (forall data rest i, small_len (len data) -> at_pos data i (b ++ rest) ->
     f_read f data m i = Ok (m', i + len b)) -> reads f [b] m m'.
Proof. intros H. eapply reads_cons; [exact H | constructor]. Qed.

Record FieldLaws {M} (f : field M) := {
  fl_ok : M -> Prop;
  fl_zero : M -> Prop;
  fl_merge : M -> M -> M;
  fl_copy : M -> M -> M;
  fl_bodies : M -> list (list Z);
  fl_put : forall m, fl_ok m -> f_put f m = fl_bodies m ≫= (fun b => key (f_num f) (f_type f) ++ b);
  fl_size : forall m, fl_ok m -> f_size f m = len (f_put f m);
  fl_reads : forall m m0, fl_ok m -> reads f (fl_bodies m) m0 (fl_merge m m0);
  fl_merge_zero : forall m m0, fl_ok m -> fl_zero m0 -> fl_merge m m0 = fl_copy m m0
}.

Arguments fl_ok {M f}.
Arguments fl_zero {M f}.
Arguments fl_merge {M f}.
Arguments fl_copy {M f}.
Arguments fl_bodies {M f}.

(** A field of a message with its laws. *)
Definition lawful (M : Type) := {f : field M & FieldLaws f}.

(** Merging the fields of a message one after the other. *)
Fixpoint merge_all {M} (fs : list (lawful M)) (m acc : M) : M :=
  match fs with
  | [] => acc
  | existT _ l :: fs => merge_all fs m (fl_merge l m acc)
  end.

(** A part of a message that one field changes, and the others do not. *)
Lemma merge_all_at {M B} (proj : M -> B) (F : B -> B) (m : M) (fs : list (lawful M)) (n : nat) (acc : M) :
  (n < length fs)%nat ->
  (forall i l, fs !! i = Some l -> forall a, proj (fl_merge (projT2 l) m a) = if decide (i = n) then F (proj a) else proj a) ->
  proj (merge_all fs m acc) = F (proj acc).
Proof.
  assert (Hskip : forall fs acc, (forall i l, fs !! i = Some l -> forall a, proj (fl_merge (projT2 l) m a) = proj a) ->
    proj (merge_all fs m acc) = proj acc).
  { clear. intros fs. induction fs as [|[f l] fs IH]; intros acc Hl; [done|]. cbn [merge_all].
    rewrite IH; [exact (Hl 0%nat _ eq_refl acc)|]. intros i l' Hi. exact (Hl (S i) l' Hi). }
  revert n acc. induction fs as [|[f l] fs IH]; intros n acc Hn Hl; [cbn in Hn; lia|]. cbn [merge_all]. destruct n as [|n].
  - rewrite Hskip; [exact (Hl 0%nat _ eq_refl acc)|]. intros i l' Hi a. exact (Hl (S i) l' Hi a).
  - rewrite (IH n); [f_equal; exact (Hl 0%nat _ eq_refl acc)|cbn in Hn; lia|]. intros i l' Hi a. rewrite (Hl (S i) l' Hi a).
    repeat case_decide; (done || lia).
Qed.

(** Copying the fields one after the other, each into a message in which
    it is at its zero value. *)
Fixpoint copies {M} (fs : list (lawful M)) (m acc out : M) : Prop :=
  match fs with
  | [] => acc = out
  | existT _ l :: fs => fl_zero l acc /\ copies fs m (fl_copy l m acc) out
  end.

Fixpoint all_ok {M} (fs : list (lawful M)) (m : M) : Prop :=
  match fs with
  | [] => True
  | existT _ l :: fs => fl_ok l m /\ all_ok fs m
  end.

Lemma merge_copies {M} (fs : list (lawful M)) (m acc out : M) :
  all_ok fs m -> copies fs m acc out -> merge_all fs m acc = out.
Proof.
  revert acc. induction fs as [|[f l] fs IH]; intros acc; [done|]. intros (Hf & Hok) (Hz & Hc). cbn [merge_all].
  rewrite (fl_merge_zero f l m acc Hf Hz). by apply IH.
Qed.

Definition plain_key {M} (f : field M) : bool :=
  (1 <=? f_num f) && (f_num f <? 2 ^ 28) && (0 <=? f_type f) && (f_type f <=? 2).

Class MessageLaws (M : Type) `{!Message M} := {
  ml_fields : list (lawful M);
  ml_same : map projT1 ml_fields = msg_fields;
  ml_keys : forallb plain_key (msg_fields (M:=M)) = true;
  ml_nodup : NoDup (map f_num (msg_fields (M:=M)));
  ml_ok : M -> Prop;
  ml_norm : M -> M;
  ml_all : forall m, ml_ok m -> all_ok ml_fields m;
  ml_copies : forall m, ml_ok m -> copies ml_fields m msg_empty (ml_norm m)
}.

(** *** A whole message *)

Section message.
Context {M : Type} (name : string) (fs : list (field M)).

Lemma tag_of_key (num wt : Z) :
  1 <= num < 2 ^ 28 -> 0 <= wt < 8 -> tag_num (num * 8 + wt) = num /\ tag_type (num * 8 + wt) = wt.
Proof.
  intros Hn Hw. unfold tag_num, tag_type, shr. split.
  - if_false. rewrite Z.shiftr_div_pow2 by lia. change (2 ^ 3) with 8.
    rewrite Z.div_add_l, (Z.div_small wt), Z.add_0_r by lia. apply swrap_id; lia.
  - change 7 with (Z.ones 3). rewrite Z.land_ones by lia. change (2 ^ 3) with 8.
    rewrite Z.add_comm, Z.mod_add, Z.mod_small by lia. done.
Qed.

Lemma find_field (f : field M) :
  NoDup (map f_num fs) -> f ∈ fs -> exists k, list_find (fun g => f_num g = f_num f) fs = Some (k, f).
Proof.
  intros Hnd Hin. destruct (list_find (fun g => f_num g = f_num f) fs) as [[k g]|] eqn:E.
  - exists k. apply list_find_Some in E as (Hk & Hnum & _). do 2 f_equal.
    apply list_elem_of_lookup in Hin as [j Hj].
    assert (k = j) as ->; [|congruence].
    apply (NoDup_lookup (f_num <$> fs) k j (f_num f) Hnd);
      rewrite list_lookup_fmap; [rewrite Hk | rewrite Hj]; cbn; congruence.
  - apply list_find_None in E. rewrite Forall_forall in E. by specialize (E f Hin).
Qed.

(** The loop over one body: the tag, then the field. *)
Lemma loop_body (f : field M) (fuel : nat) (data b rest : list Z) (m m' : M) (i : Z) :
  NoDup (map f_num fs) -> f ∈ fs -> plain_key f = true -> small_len (len data) ->
  at_pos data i ((key (f_num f) (f_type f) ++ b) ++ rest) ->
  (forall data rest i, small_len (len data) -> at_pos data i (b ++ rest) ->
     f_read f data m i = Ok (m', i + len b)) ->
  unmarshal_loop name fs (S fuel) data m i =
    unmarshal_loop name fs fuel data m' (i + len (key (f_num f) (f_type f) ++ b)).
Proof.
  intros Hnd Hin Hk Hs Hp Hr. unfold plain_key in Hk. bool_to_prop.
  rewrite <- app_assoc in Hp.
  pose proof (key_nonempty (f_num f) (f_type f)) as Hne.
  assert (Hlt : i < len data).
  { rewrite (at_pos_len _ _ _ Hp); [unfold len; rewrite length_app; lia|].
    intros E. apply (f_equal length) in E. rewrite length_app in E. cbn [length] in E. lia. }
  cbn [unmarshal_loop]. if_true. unfold key in Hp.
  rewrite (readVarint_encode 64 data (b ++ rest) (f_num f * 8 + f_type f) i); [|lia| |done].
  2:{ unfold in_width. lia. }
  cbn [mbind outcome_bind]. rewrite wrap_id by (unfold in_width; lia).
  destruct (tag_of_key (f_num f) (f_type f)) as [-> ->]; [lia|lia|].
  if_false. if_false. destruct (find_field f Hnd Hin) as [k ->].
  rewrite Z.eqb_refl. cbn [negb]. apply at_pos_app in Hp.
  rewrite (Hr data rest) by done. cbn [mbind outcome_bind]. f_equal.
  unfold key, len. rewrite length_app. lia.
Qed.

(** The loop over the bodies of one field. *)
Lemma loop_bodies (f : field M) (bs : list (list Z)) (fuel : nat) (data rest : list Z) (m m' : M) (i : Z) :
  NoDup (map f_num fs) -> f ∈ fs -> plain_key f = true -> small_len (len data) ->
  at_pos data i ((bs ≫= (fun b => key (f_num f) (f_type f) ++ b)) ++ rest) -> reads f bs m m' ->
  (length (bs ≫= (fun b => key (f_num f) (f_type f) ++ b)) + length rest < fuel)%nat ->
  exists fuel', (length rest < fuel')%nat /\
    unmarshal_loop name fs fuel data m i =
    unmarshal_loop name fs fuel' data m' (i + len (bs ≫= (fun b => key (f_num f) (f_type f) ++ b))).
Proof.
  intros Hnd Hin Hk Hs Hp Hr. revert fuel i Hp. induction Hr as [m|b bs m m1 m2 Hb Hr IH]; intros fuel i Hp Hf.
  - exists fuel. cbn in *. split; [lia|]. unfold len. cbn [length]. by rewrite Z.add_0_r.
  - rewrite bind_cons in *. rewrite length_app in Hf.
    pose proof (key_nonempty (f_num f) (f_type f)) as Hne.
    assert (1 <= length (key (f_num f) (f_type f) ++ b))%nat by (rewrite length_app; lia).
    destruct fuel as [|fuel]; [lia|]. rewrite <- (app_assoc (_ ++ b)) in Hp.
    rewrite (loop_body f fuel data b _ m m1 i) by done.
    apply at_pos_app in Hp. destruct (IH fuel _ Hp ltac:(lia)) as (fuel' & Hf' & ->).
    exists fuel'. split; [done|]. f_equal. unfold len. rewrite !length_app. lia.
Qed.

End message.

Lemma loop_fields {M} (name : string) (fs : list (field M)) (ls : list (lawful M)) (fuel : nat) (data : list Z)
    (m acc : M) (i : Z) :
  NoDup (map f_num fs) -> (forall l, l ∈ ls -> projT1 l ∈ fs) -> forallb plain_key fs = true ->
  small_len (len data) -> all_ok ls m ->
  at_pos data i (put_fields (map projT1 ls) m) -> (i <= len data) ->
  (length (put_fields (map projT1 ls) m) < fuel)%nat ->
  unmarshal_loop name fs fuel data acc i = Ok (merge_all ls m acc).
Proof.
  intros Hnd Hin Hk Hs. revert fuel acc i. induction ls as [|[f l] ls IH]; intros fuel acc i Hok Hp Hle Hf.
  - cbn in *. destruct fuel as [|fuel]; [lia|]. cbn [unmarshal_loop].
    assert (i = len data) as ->.
    { destruct Hp as (Hi & Hd). apply (f_equal length) in Hd. rewrite length_drop in Hd. cbn in Hd. unfold len in *. lia. }
    rewrite Z.ltb_irrefl, Z.gtb_ltb, Z.ltb_irrefl. done.
  - destruct Hok as (Hokf & Hok). cbn [map put_fields projT1 merge_all] in *.
    unfold put_fields in Hp, Hf. cbn [mbind list_bind] in Hp, Hf. rewrite (fl_put f l m Hokf) in Hp, Hf.
    rewrite length_app in Hf.
    assert (Hinf : f ∈ fs) by (apply (Hin (existT f l)); left).
    destruct (loop_bodies name fs f (fl_bodies l m) fuel data (put_fields (map projT1 ls) m) acc (fl_merge l m acc) i)
      as (fuel' & Hf' & ->); try done.
    + rewrite forallb_forall in Hk. apply Hk. by apply list_elem_of_In.
    + by apply fl_reads.
    + apply IH; try done.
      * intros l' Hl'. apply Hin. by right.
      * by apply at_pos_app in Hp.
      * destruct Hp as (Hi & Hd). apply (f_equal length) in Hd. rewrite length_drop, length_app in Hd. unfold len in *. lia.
Qed.

Lemma size_put {M} (ls : list (lawful M)) (m : M) :
  all_ok ls m -> size_fields (map projT1 ls) m = len (put_fields (map projT1 ls) m).
Proof.
  induction ls as [|[f l] ls IH]; [done|]. intros (Hf & Hok). cbn [map projT1 size_fields foldr].
  change (foldr _ 0 _) with (size_fields (map projT1 ls) m). rewrite IH, (fl_size f l m Hf) by done.
  unfold put_fields. cbn [mbind list_bind]. unfold len. rewrite length_app. lia.
Qed.

Section laws.
Context {M : Type} `{!Message M} {ML : MessageLaws M}.

Lemma Size_MarshalTo (m : M) : ml_ok m -> Size m = len (MarshalTo m).
Proof.
  intros Hok. unfold Size, MarshalTo. rewrite <- ml_same. by apply size_put, ml_all.
Qed.

Lemma Marshal_ok (m : M) : ml_ok m -> Marshal m = Ok (MarshalTo m).
Proof.
  intros Hok. unfold Marshal, marshal_fields. pose proof (Size_MarshalTo m Hok) as Hs. unfold Size, MarshalTo in Hs.
  rewrite Hs, Z.leb_refl. done.
Qed.

(** What a message leaves of the one it is read into. *)
Definition ml_merge (m acc : M) : M := merge_all ml_fields m acc.

Lemma ml_merge_empty (m : M) : ml_ok m -> ml_merge m msg_empty = ml_norm m.
Proof. intros Hok. by apply merge_copies; [apply ml_all|apply ml_copies]. Qed.

Lemma UnmarshalInto_merges (m acc : M) :
  ml_ok m -> small_len (Size m) -> UnmarshalInto acc (MarshalTo m) = Ok (ml_merge m acc).
Proof.
  intros Hok Hs. rewrite Size_MarshalTo in Hs by done. unfold UnmarshalInto, unmarshal_fields.
  eapply (loop_fields _ _ ml_fields _ _ m); try done.
  - apply ml_nodup.
  - intros l Hl. rewrite <- ml_same. by apply list_elem_of_fmap_2.
  - apply ml_keys.
  - by apply ml_all.
  - rewrite ml_same. apply at_pos_start.
  - unfold len. lia.
  - rewrite ml_same. unfold MarshalTo. lia.
Qed.

Lemma Unmarshal_MarshalTo (m : M) :
  ml_ok m -> small_len (Size m) -> Unmarshal (MarshalTo m) = Ok (ml_norm m).
Proof. intros Hok Hs. unfold Unmarshal. by rewrite UnmarshalInto_merges, ml_merge_empty. Qed.

End laws.

(** *** The kinds of fields *)

Record lens {M A} (get : M -> A) (set : A -> M -> M) : Prop := {
  set_get : forall m, set (get m) m = m;
  get_set : forall v m, get (set v m) = v;
  set_set : forall u v m, set v (set u m) = set v m
}.

Definition int_range (w : Z) (signed : bool) (x : Z) : Prop :=
  if signed then - 2 ^ (w - 1) <= x < 2 ^ (w - 1) else in_width w x.

Lemma int_wire (w : Z) (signed : bool) (x : Z) :
  0 < w <= 64 -> int_range w signed x ->
  (if signed then swrap w (wrap w (u64 x)) else wrap w (u64 x)) = x.
Proof.
  intros Hw Hr. rewrite wrap_wrap_le by lia. destruct signed.
  - rewrite swrap_wrap by lia. apply swrap_id; [lia|done].
  - by apply wrap_id.
Qed.

Lemma u64_width (x : Z) : in_width 64 (u64 x).
Proof. apply wrap_range. lia. Qed.

Lemma bytes_string_bytes (s : string) : bytes_string (string_bytes s) = s.
Proof.
  unfold bytes_string, string_bytes. rewrite map_map.
  erewrite map_ext; [|intros a; by rewrite N2Z.id, Ascii.ascii_N_embedding].
  by rewrite map_id, String.string_of_list_ascii_of_string.
Qed.

Lemma len_nil_iff {A} (l : list A) : (len l >? 0) = false -> l = [].
Proof. intros H. bool_to_prop. unfold len in H. destruct l; [done|]. cbn [length] in H. lia. Qed.

Lemma len_app {A} (l k : list A) : len (l ++ k) = len l + len k.
Proof. unfold len. rewrite length_app. lia. Qed.

Lemma string_bytes_nil (s : string) : string_bytes s = [] -> s = ""%string.
Proof. by destruct s. Qed.

(** The zero of a float field. *)
Definition unsigned_zero (x : float64) : float64 := if feq x 0 then 0 else x.

Ltac field_cbn :=
  cbn [f_put f_size f_num f_type f_read int_field bool_field double_field string_field bytes_field strings_field msg_field
       repeated_field].

Section kind_laws.
Context {M : Type}.

Program Definition int_laws (num : Z) (name : string) (w : Z) (signed : bool) (get : M -> Z) (set : Z -> M -> M)
    (Hw : 0 < w <= 64) (L : lens get set) : FieldLaws (int_field num name w signed get set) := {|
  fl_ok m := int_range w signed (get m);
  fl_zero m := get m = 0;
  fl_merge m acc := if get m =? 0 then acc else set (get m) acc;
  fl_copy m acc := set (get m) acc;
  fl_bodies m := if get m =? 0 then [] else [encodeVarint (u64 (get m))]
|}.
Next Obligation. intros. cbn. case_if; cbn; [done|]. by rewrite app_nil_r. Qed.
Next Obligation.
  intros. field_cbn. case_if; [done|]. rewrite len_app, sov_length by apply u64_width. done.
Qed.
Next Obligation.
  intros num name w signed get set Hw L m m0 Hok. cbn beta in *. destruct (get m =? 0) eqn:E; bool_to_prop.
  - constructor.
  - apply reads_one. intros data rest i Hs Hp. field_cbn.
    rewrite (readVarint_encode w data rest (u64 (get m)) i); [|lia|apply u64_width|done].
    cbn [mbind outcome_bind]. by rewrite int_wire.
Qed.
Next Obligation.
  intros num name w signed get set Hw L m m0 _ Hz. cbn beta in *. destruct (get m =? 0) eqn:E; bool_to_prop; [|done].
  by rewrite E, <- Hz, (set_get _ _ L).
Qed.

Program Definition bool_laws (num : Z) (name : string) (get : M -> bool) (set : bool -> M -> M) (L : lens get set)
    : FieldLaws (bool_field num name get set) := {|
  fl_ok m := True;
  fl_zero m := get m = false;
  fl_merge m acc := if get m then set true acc else acc;
  fl_copy m acc := set (get m) acc;
  fl_bodies m := if get m then [[1]] else []
|}.
Next Obligation. intros. cbn. case_if; cbn; [by rewrite app_nil_r | done]. Qed.
Next Obligation. intros. field_cbn. case_if; [by rewrite len_app | done]. Qed.
Next Obligation.
  intros num name get set L m m0 _. cbn beta in *. destruct (get m) eqn:E.
  - apply reads_one. intros data rest i Hs Hp. field_cbn.
    rewrite (readVarint_encode 64 data rest 1 i); [done|lia|unfold in_width; lia|done].
  - constructor.
Qed.
Next Obligation.
  intros num name get set L m m0 _ Hz. cbn beta in *. destruct (get m); [done|]. by rewrite <- Hz, (set_get _ _ L).
Qed.

Program Definition double_laws (num : Z) (name : string) (get : M -> float64) (set : float64 -> M -> M)
    (L : lens get set) : FieldLaws (double_field num name get set) := {|
  fl_ok m := in_width 64 (get m);
  fl_zero m := get m = 0;
  fl_merge m acc := if feq (get m) 0 then acc else set (get m) acc;
  fl_copy m acc := set (unsigned_zero (get m)) acc;
  fl_bodies m := if feq (get m) 0 then [] else [encodeFixed64 (get m)]
|}.
Next Obligation. intros. cbn. case_if; cbn; [done|]. by rewrite app_nil_r. Qed.
Next Obligation. intros. field_cbn. case_if; [done|]. by rewrite len_app. Qed.
Next Obligation.
  intros num name get set L m m0 Hok. cbn beta in *. destruct (feq (get m) 0).
  - constructor.
  - apply reads_one. intros data rest i Hs Hp. field_cbn.
    rewrite (readFixed64_encode data rest (get m) i) by done. done.
Qed.
Next Obligation.
  intros num name get set L m m0 _ Hz. cbn beta in *. unfold unsigned_zero. destruct (feq (get m) 0); [|done].
  by rewrite <- Hz, (set_get _ _ L).
Qed.

Program Definition string_laws (num : Z) (name : string) (get : M -> string) (set : string -> M -> M)
    (L : lens get set) : FieldLaws (string_field num name get set) := {|
  fl_ok m := small_len (len (string_bytes (get m)));
  fl_zero m := get m = ""%string;
  fl_merge m acc := if len (string_bytes (get m)) >? 0 then set (get m) acc else acc;
  fl_copy m acc := set (get m) acc;
  fl_bodies m := let s := string_bytes (get m) in if len s >? 0 then [encodeVarint (len s) ++ s] else []
|}.
Next Obligation. intros. cbn. case_if; cbn; [|done]. by rewrite app_nil_r. Qed.
Next Obligation.
  intros. field_cbn. case_if; [|done]. rewrite !len_app, sov_length by by apply small_width. lia.
Qed.
Next Obligation.
  intros num name get set L m m0 Hok. cbn beta zeta in *. destruct (_ >? 0) eqn:E.
  - apply reads_one. intros data rest i Hs Hp. field_cbn. rewrite <- app_assoc in Hp.
    rewrite (readDelimited_encode data _ rest i Hs Hp). cbn [mbind outcome_bind].
    rewrite bytes_string_bytes, len_app, Z.add_assoc. done.
  - constructor.
Qed.
Next Obligation.
  intros num name get set L m m0 _ Hz. cbn beta in *. destruct (_ >? 0) eqn:E; [done|].
  apply len_nil_iff, string_bytes_nil in E. by rewrite E, <- Hz, (set_get _ _ L).
Qed.

Program Definition bytes_laws (num : Z) (name : string) (get : M -> list Z) (set : list Z -> M -> M)
    (L : lens get set) : FieldLaws (bytes_field num name get set) := {|
  fl_ok m := small_len (len (get m));
  fl_zero m := get m = [];
  fl_merge m acc := if len (get m) >? 0 then set (get m) acc else acc;
  fl_copy m acc := set (get m) acc;
  fl_bodies m := if len (get m) >? 0 then [encodeVarint (len (get m)) ++ get m] else []
|}.
Next Obligation. intros. cbn. case_if; cbn; [|done]. by rewrite app_nil_r. Qed.
Next Obligation.
  intros. field_cbn. case_if; [|done]. rewrite !len_app, sov_length by by apply small_width. lia.
Qed.
Next Obligation.
  intros num name get set L m m0 Hok. cbn beta zeta in *. destruct (_ >? 0) eqn:E.
  - apply reads_one. intros data rest i Hs Hp. field_cbn. rewrite <- app_assoc in Hp.
    rewrite (readDelimited_encode data _ rest i Hs Hp). cbn [mbind outcome_bind].
    rewrite len_app, Z.add_assoc. done.
  - constructor.
Qed.
Next Obligation.
  intros num name get set L m m0 _ Hz. cbn beta in *. destruct (_ >? 0) eqn:E; [done|].
  apply len_nil_iff in E. by rewrite E, <- Hz, (set_get _ _ L).
Qed.

Lemma reads_strings (num : Z) (name : string) (get : M -> list string) (set : list string -> M -> M) (l : list string) (m0 : M) :
  lens get set ->
  reads (strings_field num name get set) (map (fun x => encodeVarint (len (string_bytes x)) ++ string_bytes x) l) m0
    (set (get m0 ++ l) m0).
Proof.
  intros L. revert m0. induction l as [|x l IH]; intros m0.
  - cbn. rewrite app_nil_r, (set_get _ _ L). constructor.
  - cbn [map]. apply (reads_cons _ _ _ _ (set (get m0 ++ [x]) m0)).
    + intros data rest i Hd Hp. field_cbn. rewrite <- app_assoc in Hp.
      rewrite (readDelimited_encode data _ rest i Hd Hp). cbn [mbind outcome_bind].
      rewrite bytes_string_bytes, len_app, Z.add_assoc. done.
    + specialize (IH (set (get m0 ++ [x]) m0)).
      rewrite (get_set _ _ L), (set_set _ _ L), <- app_assoc in IH. exact IH.
Qed.

Program Definition strings_laws (num : Z) (name : string) (get : M -> list string) (set : list string -> M -> M)
    (L : lens get set) : FieldLaws (strings_field num name get set) := {|
  fl_ok m := Forall (fun x => small_len (len (string_bytes x))) (get m);
  fl_zero m := get m = [];
  fl_merge m acc := set (get acc ++ get m) acc;
  fl_copy m acc := set (get m) acc;
  fl_bodies m := map (fun x => encodeVarint (len (string_bytes x)) ++ string_bytes x) (get m)
|}.
Next Obligation.
  intros num name get set L m _. cbn. induction (get m) as [|x l IH]; [done|]. cbn in *. by rewrite IH.
Qed.
Next Obligation.
  intros num name get set L m Hok. field_cbn. induction Hok as [|x l Hx _ IH]; [done|].
  cbn [foldr mbind list_bind]. cbn beta zeta. rewrite IH, !len_app, sov_length by by apply small_width. lia.
Qed.
Next Obligation.
  intros num name get set L m m0 _. by apply reads_strings.
Qed.
Next Obligation. intros num name get set L m m0 _ Hz. cbn beta in *. by rewrite Hz. Qed.

Context {N : Type} `{!Message N} {NL : MessageLaws N}.

(** A nested message and the space it takes. *)
Definition nested_ok (s : N) : Prop := ml_ok s /\ small_len (Size s).

Lemma size_message_put (num : Z) (s : N) : nested_ok s -> size_message num s = len (put_message num s).
Proof.
  intros (Hok & Hs). unfold size_message, put_message. rewrite !len_app, sov_length, <- Size_MarshalTo by
    (done || by apply small_width). lia.
Qed.

Lemma read_message (s : N) (data rest : list Z) (i : Z) :
  nested_ok s -> small_len (len data) -> at_pos data i ((encodeVarint (Size s) ++ MarshalTo s) ++ rest) ->
  readDelimited data i = Ok (MarshalTo s, i + len (encodeVarint (Size s) ++ MarshalTo s)) /\
  forall acc, UnmarshalInto acc (MarshalTo s) = Ok (ml_merge s acc).
Proof.
  intros (Hok & Hsz) Hs Hp. split.
  - rewrite Size_MarshalTo in Hp |- * by done. rewrite <- app_assoc in Hp.
    rewrite (readDelimited_encode data _ rest i Hs Hp), len_app, Z.add_assoc. done.
  - intros acc. by apply UnmarshalInto_merges.
Qed.

Program Definition msg_laws (num : Z) (name : string) (get : M -> option N) (set : option N -> M -> M)
    (L : lens get set) : FieldLaws (msg_field num name get set) := {|
  fl_ok m := match get m with None => True | Some s => nested_ok s end;
  fl_zero m := get m = None;
  fl_merge m acc := match get m with None => acc | Some s => set (Some (ml_merge s (default msg_empty (get acc)))) acc end;
  fl_copy m acc := set (ml_norm <$> get m) acc;
  fl_bodies m := match get m with None => [] | Some s => [encodeVarint (Size s) ++ MarshalTo s] end
|}.
Next Obligation. intros. cbn. destruct (get m); cbn; [|done]. by rewrite app_nil_r. Qed.
Next Obligation.
  intros num name get set L m Hok. field_cbn. cbn beta in Hok. destruct (get m); [|done]. by apply size_message_put.
Qed.
Next Obligation.
  intros num name get set L m m0 Hok. cbn beta in *. destruct (get m) as [s|].
  - apply reads_one. intros data rest i Hs Hp. field_cbn.
    destruct (read_message s data rest i Hok Hs Hp) as [-> Hu]. cbn [mbind outcome_bind]. by rewrite Hu.
  - constructor.
Qed.
Next Obligation.
  intros num name get set L m m0 Hok Hz. cbn beta in *. rewrite Hz. destruct (get m) as [s|].
  - cbn [default from_option fmap option_fmap option_map]. rewrite ml_merge_empty by apply Hok. done.
  - cbn. by rewrite <- Hz, (set_get _ _ L).
Qed.

Lemma reads_repeated (num : Z) (name : string) (get : M -> list N) (set : list N -> M -> M) (l : list N) (m0 : M) :
  lens get set -> Forall nested_ok l ->
  reads (repeated_field num name get set) (map (fun s => encodeVarint (Size s) ++ MarshalTo s) l) m0
    (set (get m0 ++ map ml_norm l) m0).
Proof.
  intros L. revert m0. induction l as [|s l IH]; intros m0 Hok.
  - cbn. rewrite app_nil_r, (set_get _ _ L). constructor.
  - apply Forall_cons in Hok as (Hs & Hok). cbn [map].
    apply (reads_cons _ _ _ _ (set (get m0 ++ [ml_norm s]) m0)).
    + intros data rest i Hd Hp. field_cbn. destruct (read_message s data rest i Hs Hd Hp) as [-> Hu].
      cbn [mbind outcome_bind]. by rewrite Hu, ml_merge_empty by apply Hs.
    + specialize (IH (set (get m0 ++ [ml_norm s]) m0) Hok).
      rewrite (get_set _ _ L), (set_set _ _ L), <- app_assoc in IH. exact IH.
Qed.

Program Definition repeated_laws (num : Z) (name : string) (get : M -> list N) (set : list N -> M -> M)
    (L : lens get set) : FieldLaws (repeated_field num name get set) := {|
  fl_ok m := Forall nested_ok (get m);
  fl_zero m := get m = [];
  fl_merge m acc := set (get acc ++ map ml_norm (get m)) acc;
  fl_copy m acc := set (map ml_norm (get m)) acc;
  fl_bodies m := map (fun s => encodeVarint (Size s) ++ MarshalTo s) (get m)
|}.
Next Obligation.
  intros num name get set L m _. cbn. induction (get m) as [|s l IH]; [done|]. cbn in *. by rewrite IH.
Qed.
Next Obligation.
  intros num name get set L m Hok. cbn. induction Hok as [|s l Hs _ IH]; [done|]. cbn in *.
  by rewrite IH, len_app, size_message_put.
Qed.
Next Obligation.
  intros num name get set L m m0 Hok. by apply reads_repeated.
Qed.
Next Obligation. intros num name get set L m m0 _ Hz. cbn beta in *. by rewrite Hz. Qed.

End kind_laws.

(** ** Reading ends

    On any bytes that fit into memory the loops end with a message, an
    error or a panic: each round moves the index forward, or an overflow
    makes it negative and the next access panics. *)

Definition settled {A} (P : A -> Prop) (o : outcome A) : Prop :=
  match o with Ok a => P a | NoFuel => False | _ => True end.

Lemma settled_bind {A B} (P : A -> Prop) (Q : B -> Prop) (o : outcome A) (k : A -> outcome B) :
  settled P o -> (forall a, P a -> settled Q (k a)) -> settled Q (o ≫= k).
Proof. destruct o; cbn; auto. Qed.

Lemma settled_mono {A} (P Q : A -> Prop) (o : outcome A) : settled P o -> (forall a, P a -> Q a) -> settled Q o.
Proof. destruct o; cbn; auto. Qed.

(** The index after a read. *)
Definition moved {A} (data : list Z) (i : Z) (r : A * Z) : Prop := i < r.2 <= len data.

Lemma varint_loop_moves (w : Z) (data shs : list Z) (v i : Z) :
  0 <= i -> settled (moved data i) (varint_loop w data shs v i).
Proof.
  revert v i. induction shs as [|s shs IH]; intros v i Hi; cbn [varint_loop]; [done|].
  destruct (i >=? len data) eqn:E; bool_to_prop; [done|].
  destruct (at_index data i) as [b|]; [|done]. case_if.
  - unfold moved. cbn. lia.
  - eapply settled_mono; [apply IH; lia|]. unfold moved. lia.
Qed.

Lemma readVarint_moves (w : Z) (data : list Z) (i : Z) : 0 <= i -> settled (moved data i) (readVarint w data i).
Proof. apply varint_loop_moves. Qed.

(** A negative index panics, one past the end is an error. *)
Lemma readVarint_outside (w : Z) (data : list Z) (i : Z) (P : Z * Z -> Prop) :
  i < 0 \/ len data <= i -> settled P (readVarint w data i).
Proof.
  intros Hi. unfold readVarint. cbn [shifts varint_loop]. destruct (i >=? len data) eqn:E; bool_to_prop; [done|].
  unfold at_index. if_true. done.
Qed.

Lemma slice_settled (data : list Z) (a b : Z) :
  settled (fun bs => 0 <= a <= b /\ b <= len data /\ len bs = b - a) (slice data a b).
Proof.
  unfold slice. destruct (_ && _) eqn:E; [|done]. rewrite !andb_true_iff in E. bool_to_prop.
  unfold settled, len in *. rewrite length_take, length_drop. lia.
Qed.

Lemma readFixed64_moves (data : list Z) (i : Z) : 0 <= i -> settled (moved data i) (readFixed64 data i).
Proof.
  intros Hi. unfold readFixed64. destruct (_ >? _) eqn:E; bool_to_prop; [done|].
  eapply settled_bind; [apply slice_settled|]. intros bs Hb. unfold moved. cbn. lia.
Qed.

Lemma readDelimited_moves (data : list Z) (i : Z) :
  0 <= i -> settled (fun r => moved data i r /\ len r.1 <= len data) (readDelimited data i).
Proof.
  intros Hi. unfold readDelimited. eapply settled_bind; [by apply readVarint_moves|].
  intros [v i'] Hm. unfold moved in *. cbn [snd] in Hm. case_if; [done|]. case_if; [done|].
  eapply settled_bind; [apply slice_settled|]. intros bs Hb. cbn [settled fst snd] in *. lia.
Qed.

(** What [skip] returns: a position further on, or an overflow. *)
Definition skipped (i n : Z) : Prop := i < n < 2 ^ 63 \/ - 2 ^ 63 <= n < - 2 ^ 62.

Lemma i64_overflow (n : Z) : 0 <= n < 2 ^ 63 + 2 ^ 62 -> i64 n = n \/ i64 n < - 2 ^ 62.
Proof.
  intros. unfold swrap. change (2 ^ (64 - 1)) with (2 ^ 63). change (2 ^ 64) with (2 ^ 63 + 2 ^ 63).
  destruct (decide (n < 2 ^ 63)).
  - left. rewrite Z.mod_small by lia. lia.
  - right. rewrite <- (Z.mod_unique (n + 2 ^ 63) (2 ^ 63 + 2 ^ 63) 1 (n - 2 ^ 63)) by lia. lia.
Qed.

Lemma i64_range (v : Z) : - 2 ^ 63 <= i64 v < 2 ^ 63.
Proof. apply (swrap_range 64). lia. Qed.

Lemma skip_group_outside (fuel : nat) (data : list Z) (i : Z) (P : Z -> Prop) :
  (0 < fuel)%nat -> i < 0 \/ len data <= i -> settled P (skip_loop fuel true data i).
Proof.
  intros Hf Hi. destruct fuel as [|fuel]; [lia|]. cbn [skip_loop].
  eapply settled_bind; [by apply (readVarint_outside _ _ _ (fun _ => False))|]. done.
Qed.

(** The fuel for the bytes left: two for each, and one for the loop over
    the fields of a group. *)
Lemma skip_loop_settles (fuel : nat) :
  (forall data i, small_len (len data) -> 0 <= i -> 2 * (len data - i) < Z.of_nat fuel -> (0 < fuel)%nat ->
     settled (skipped i) (skip_loop fuel false data i)) /\
  (forall data i, small_len (len data) -> 0 <= i -> 2 * (len data - i) + 1 < Z.of_nat fuel -> (0 < fuel)%nat ->
     settled (skipped i) (skip_loop fuel true data i)).
Proof.
  induction fuel as [|fuel [IHf IHt]]; [split; intros; lia|]. split.
  - intros data i Hs Hi Hf _. unfold small_len in Hs. cbn [skip_loop]. destruct (i <? len data) eqn:Hlt; bool_to_prop; [|done].
    eapply settled_bind; [by apply readVarint_moves|]. intros [wire j] Hj. unfold moved in Hj. cbn [snd] in Hj.
    cbn [settled]. repeat case_if; try done.
    + eapply settled_bind; [apply readVarint_moves; lia|]. intros [v k] Hk. unfold moved in Hk. cbn in *. left. lia.
    + left. lia.
    + eapply settled_bind; [apply readVarint_moves; lia|]. intros [v k] Hk. unfold moved in Hk. cbn [snd] in Hk.
      destruct (i64 v <? 0) eqn:Hv; bool_to_prop; [done|]. cbn [settled]. pose proof (i64_range v).
      pose proof (i64_range (k + i64 v)).
      destruct (i64_overflow (k + i64 v)) as [Hk'|Hk']; [lia| |]; unfold skipped; lia.
    + eapply settled_mono; [apply IHt; [done| | |]; lia|]. unfold skipped. intros n [?|?]; lia.
    + left. lia.
    + left. lia.
  - intros data i Hs Hi Hf _. destruct (decide (len data <= i)) as [Ho|Ho]; [apply skip_group_outside; lia|].
    cbn [skip_loop]. unfold small_len in Hs. eapply settled_bind; [apply readVarint_moves; lia|].
    intros [wire j] Hj. unfold moved in Hj. cbn [snd] in Hj. case_if; [left; lia|].
    eapply settled_bind; [apply slice_settled|]. intros rest Hr. cbn beta in Hr.
    eapply settled_bind; [apply IHf; [unfold small_len| | |]; lia|]. intros n Hn. unfold skipped in Hn.
    assert (Hpos : i < i64 (i + n) \/ i64 (i + n) < 0).
    { destruct Hn as [Hn|Hn]; [destruct (i64_overflow (i + n)) ; lia|].
      right. rewrite i64_small; lia. }
    destruct Hpos; [|apply skip_group_outside; lia].
    eapply settled_mono; [apply IHt; [done| | |]; lia|]. unfold skipped. intros m [?|?]; lia.
Qed.

Lemma skip_settles (data : list Z) : small_len (len data) -> settled (skipped 0) (skip data).
Proof. intros Hs. apply skip_loop_settles; try done; unfold len in *; lia. Qed.

Lemma skip_unknown_settles (data : list Z) (i : Z) :
  small_len (len data) -> settled (fun j => i < j <= len data \/ j < 0) (skip_unknown data i).
Proof.
  intros Hs. unfold skip_unknown. eapply settled_bind; [apply slice_settled|]. intros rest Hr. cbn beta in Hr.
  unfold small_len in Hs. eapply settled_bind; [apply skip_settles; unfold small_len; lia|].
  intros n Hn. unfold skipped in Hn. destruct (n <? 0) eqn:E; bool_to_prop; [done|].
  destruct (_ >? _) eqn:E2; bool_to_prop; [done|]. cbn [settled].
  destruct (i64_overflow (i + n)); lia.
Qed.

(** A field moves the index forward. *)
Definition field_moves {M} (f : field M) : Prop :=
  forall data m i, small_len (len data) -> 0 <= i -> settled (moved data i) (f_read f data m i).

Class MessageMoves (M : Type) `{!Message M} := fields_move : Forall field_moves (msg_fields (M:=M)).

Lemma unmarshal_loop_settles {M} (name : string) (fs : list (field M)) (fuel : nat) (data : list Z) (m : M) (i : Z) :
  Forall field_moves fs -> small_len (len data) ->
  (0 <= i /\ len data - i < Z.of_nat fuel \/ i < 0) -> (0 < fuel)%nat ->
  settled (fun _ => True) (unmarshal_loop name fs fuel data m i).
Proof.
  intros Hfs Hs. revert m i. induction fuel as [|fuel IH]; intros m i Hi Hf; [lia|]. cbn [unmarshal_loop].
  destruct (i <? len data) eqn:E; bool_to_prop; [|by case_if].
  destruct (decide (i < 0)) as [Hneg|Hneg].
  { eapply settled_bind; [apply (readVarint_outside _ _ _ (fun _ => False)); lia|]. done. }
  eapply settled_bind; [apply readVarint_moves; lia|]. intros [wire j] Hj. unfold moved in Hj. cbn [snd] in Hj.
  case_if; [done|]. case_if; [done|]. destruct (list_find _ fs) as [[k f]|] eqn:Hfind.
  - case_if; [done|]. apply list_find_Some in Hfind as (Hk & _ & _).
    rewrite Forall_lookup in Hfs. eapply settled_bind; [apply (Hfs _ _ Hk); [done|lia]|].
    intros [m' j'] Hm. unfold moved in Hm. cbn [snd] in Hm. apply IH; lia.
  - eapply settled_bind; [by apply skip_unknown_settles|]. intros j' Hj'. cbn beta in Hj'. apply IH; lia.
Qed.

Lemma UnmarshalInto_settles {M} `{!Message M} {MM : MessageMoves M} (m : M) (data : list Z) :
  small_len (len data) -> settled (fun _ => True) (UnmarshalInto m data).
Proof. intros Hs. apply unmarshal_loop_settles; try done; unfold len; lia. Qed.

Section kinds_move.
Context {M : Type}.

Lemma int_moves (num : Z) (name : string) (w : Z) (signed : bool) (get : M -> Z) (set : Z -> M -> M) :
  field_moves (int_field num name w signed get set).
Proof. intros data m i _ Hi. field_cbn. eapply settled_bind; [by apply readVarint_moves|]. by intros []. Qed.

Lemma bool_moves (num : Z) (name : string) (get : M -> bool) (set : bool -> M -> M) :
  field_moves (bool_field num name get set).
Proof. intros data m i _ Hi. field_cbn. eapply settled_bind; [by apply readVarint_moves|]. by intros []. Qed.

Lemma double_moves (num : Z) (name : string) (get : M -> float64) (set : float64 -> M -> M) :
  field_moves (double_field num name get set).
Proof. intros data m i _ Hi. field_cbn. eapply settled_bind; [by apply readFixed64_moves|]. by intros []. Qed.

Lemma string_moves (num : Z) (name : string) (get : M -> string) (set : string -> M -> M) :
  field_moves (string_field num name get set).
Proof. intros data m i _ Hi. field_cbn. eapply settled_bind; [by apply readDelimited_moves|]. by intros [] [? _]. Qed.

Lemma bytes_moves (num : Z) (name : string) (get : M -> list Z) (set : list Z -> M -> M) :
  field_moves (bytes_field num name get set).
Proof. intros data m i _ Hi. field_cbn. eapply settled_bind; [by apply readDelimited_moves|]. by intros [] [? _]. Qed.
Lemma strings_moves (num : Z) (name : string) (get : M -> list string) (set : list string -> M -> M) :
  field_moves (strings_field num name get set).
Proof. intros data m i _ Hi. field_cbn. eapply settled_bind; [by apply readDelimited_moves|]. by intros [] [? _]. Qed.

Context {N : Type} `{!Message N} {NM : MessageMoves N}.

Lemma msg_moves (num : Z) (name : string) (get : M -> option N) (set : option N -> M -> M) :
  field_moves (msg_field num name get set).
Proof.
  intros data m i Hs Hi. field_cbn. eapply settled_bind; [by apply readDelimited_moves|]. intros [bs j] [Hm Hl].
  eapply settled_bind; [apply UnmarshalInto_settles; unfold small_len, len in *; cbn [fst] in Hl; lia|]. done.
Qed.

Lemma repeated_moves (num : Z) (name : string) (get : M -> list N) (set : list N -> M -> M) :
  field_moves (repeated_field num name get set).
Proof.
  intros data m i Hs Hi. field_cbn. eapply settled_bind; [by apply readDelimited_moves|]. intros [bs j] [Hm Hl].
  eapply settled_bind; [apply UnmarshalInto_settles; unfold small_len, len in *; cbn [fst] in Hl; lia|]. done.
Qed.

End kinds_move.


(** ** Deriving the laws of a message

    The laws of a message follow from its list of fields: every kind of
    field is lawful when its accessors are a lens. *)

Class Lawful {M} (f : field M) := field_laws : FieldLaws f.

Existing Class lens.

#[export] Hint Extern 0 (lens _ _) =>
  split; [intros []; reflexivity | intros ? []; reflexivity | intros ? ? []; reflexivity] : typeclass_instances.

(** The widths of the integers that occur. *)
Class Width (w : Z) := width_ok : 0 < w <= 64.
#[export] Instance width_64 : Width 64.
Proof. unfold Width. lia. Qed.
#[export] Instance width_32 : Width 32.
Proof. unfold Width. lia. Qed.

Section derive.
Context {M : Type}.

#[export] Instance int_lawful (num : Z) (name : string) (w : Z) (signed : bool) (get : M -> Z) (set : Z -> M -> M)
    {W : Width w} {L : lens get set} : Lawful (int_field num name w signed get set) :=
  int_laws num name w signed get set W L.
#[export] Instance bool_lawful (num : Z) (name : string) (get : M -> bool) (set : bool -> M -> M) {L : lens get set}
  : Lawful (bool_field num name get set) := bool_laws num name get set L.
#[export] Instance double_lawful (num : Z) (name : string) (get : M -> float64) (set : float64 -> M -> M)
    {L : lens get set} : Lawful (double_field num name get set) := double_laws num name get set L.
#[export] Instance string_lawful (num : Z) (name : string) (get : M -> string) (set : string -> M -> M)
    {L : lens get set} : Lawful (string_field num name get set) := string_laws num name get set L.
#[export] Instance bytes_lawful (num : Z) (name : string) (get : M -> list Z) (set : list Z -> M -> M)
    {L : lens get set} : Lawful (bytes_field num name get set) := bytes_laws num name get set L.
#[export] Instance strings_lawful (num : Z) (name : string) (get : M -> list string) (set : list string -> M -> M)
    {L : lens get set} : Lawful (strings_field num name get set) := strings_laws num name get set L.
#[export] Instance msg_lawful {N} `{!Message N} {NL : MessageLaws N} (num : Z) (name : string)
    (get : M -> option N) (set : option N -> M -> M) {L : lens get set} : Lawful (msg_field num name get set) :=
  msg_laws num name get set L.
#[export] Instance repeated_lawful {N} `{!Message N} {NL : MessageLaws N} (num : Z) (name : string)
    (get : M -> list N) (set : list N -> M -> M) {L : lens get set} : Lawful (repeated_field num name get set) :=
  repeated_laws num name get set L.

Class LawfulFields (fs : list (field M)) := {
  lf_list : list (lawful M);
  lf_same : map projT1 lf_list = fs
}.

#[export] Instance lawful_nil : LawfulFields [] := {| lf_list := []; lf_same := eq_refl |}.
#[export] Instance lawful_cons (f : field M) (fs : list (field M)) {L : Lawful f} {LF : LawfulFields fs}
  : LawfulFields (f :: fs) :=
  {| lf_list := existT f L :: lf_list; lf_same := f_equal (cons f) lf_same |}.

Fixpoint copy_all (ls : list (lawful M)) (m acc : M) : M :=
  match ls with
  | [] => acc
  | existT _ l :: ls => copy_all ls m (fl_copy l m acc)
  end.

Definition derive_laws `{!Message M} (LF : LawfulFields (msg_fields (M:=M)))
    (keys : forallb plain_key (msg_fields (M:=M)) = true) (nodup : NoDup (map f_num (msg_fields (M:=M))))
    (copied : forall m, copies lf_list m msg_empty (copy_all lf_list m msg_empty)) : MessageLaws M :=
  {| ml_fields := lf_list;
     ml_same := lf_same;
     ml_keys := keys;
     ml_nodup := nodup;
     ml_ok := all_ok lf_list;
     ml_norm m := copy_all lf_list m msg_empty;
     ml_all m H := H;
     ml_copies m _ := copied m |}.

End derive.

(** The laws of a message whose fields are [fs]. *)
Ltac derive_message fs :=
  match goal with
  | |- @MessageLaws ?M ?I =>
      let fs' := eval unfold fs in fs in
      let LF := constr:(_ : LawfulFields fs') in
      refine (@derive_laws M I LF _ _ _);
      [ reflexivity | apply (bool_decide_unpack _); vm_compute; reflexivity | intros; cbn; repeat split; reflexivity ]
  end.

Ltac derive_moves :=
  unfold MessageMoves;
  repeat (match goal with |- Forall ?P ?l => let l' := eval hnf in l in change (Forall P l') end;
          first
            [ apply Forall_nil; exact I
            | apply Forall_cons; split;
              [ lazymatch goal with
                | |- field_moves (int_field _ _ _ _ _ _) => apply int_moves
                | |- field_moves (bool_field _ _ _ _) => apply bool_moves
                | |- field_moves (double_field _ _ _ _) => apply double_moves
                | |- field_moves (string_field _ _ _ _) => apply string_moves
                | |- field_moves (bytes_field _ _ _ _) => apply bytes_moves
                | |- field_moves (strings_field _ _ _ _) => apply strings_moves
                | |- field_moves (msg_field _ _ _ _) => apply msg_moves
                | |- field_moves (repeated_field _ _ _ _) => apply repeated_moves
                end |] ]).
