(* ===== verification/ProtoSeries.v ===== *)
(** [series/protobuf.pb.go] and [series/protobuf.go]: the messages of the
    protobuf series, and the series and its iterator over them.

    The pointers of a message are shared between copies of a series but no
    code writes through them, so messages are values; a nil pointer is
    [None]. *)
From S2P Require Import Prelude Bits Float64 GoStrings GoParse Gorilla Tags Repr Series Wire.

Open Scope Z_scope.

(** ** The messages *)

Record ProtStatFull := mkProtStatFull {
  pf_Time : Z;
  pf_Count : Z;
  pf_Min : float64;
  pf_Max : float64;
  pf_Sum : float64;
  pf_Last : float64
}.

Definition ProtStatFull_fields : list (field ProtStatFull) :=
  [ int_field 1 "Time" 64 true pf_Time
      (fun v m => mkProtStatFull v (pf_Count m) (pf_Min m) (pf_Max m) (pf_Sum m) (pf_Last m));
    double_field 2 "Min" pf_Min
      (fun v m => mkProtStatFull (pf_Time m) (pf_Count m) v (pf_Max m) (pf_Sum m) (pf_Last m));
    double_field 3 "Max" pf_Max
      (fun v m => mkProtStatFull (pf_Time m) (pf_Count m) (pf_Min m) v (pf_Sum m) (pf_Last m));
    double_field 4 "Sum" pf_Sum
      (fun v m => mkProtStatFull (pf_Time m) (pf_Count m) (pf_Min m) (pf_Max m) v (pf_Last m));
    double_field 5 "Last" pf_Last
      (fun v m => mkProtStatFull (pf_Time m) (pf_Count m) (pf_Min m) (pf_Max m) (pf_Sum m) v);
    int_field 7 "Count" 64 true pf_Count
      (fun v m => mkProtStatFull (pf_Time m) v (pf_Min m) (pf_Max m) (pf_Sum m) (pf_Last m)) ].

#[export] Instance ProtStatFull_Message : Message ProtStatFull :=
  {| msg_name := "ProtStatFull";
     msg_empty := mkProtStatFull 0 0 0 0 0 0;
     msg_fields := ProtStatFull_fields |}.

Definition ProtStatFull_MarshalTo (m : ProtStatFull) : list Z := MarshalTo m.
Definition ProtStatFull_Size (m : ProtStatFull) : Z := Size m.
Definition ProtStatFull_Unmarshal (m : ProtStatFull) (data : list Z) : outcome ProtStatFull := UnmarshalInto m data.

Record ProtStatSmall := mkProtStatSmall {
  pss_Time : Z;
  pss_Val : float64
}.

Definition ProtStatSmall_fields : list (field ProtStatSmall) :=
  [ int_field 1 "Time" 64 true pss_Time (fun v m => mkProtStatSmall v (pss_Val m));
    double_field 2 "Val" pss_Val (fun v m => mkProtStatSmall (pss_Time m) v) ].

#[export] Instance ProtStatSmall_Message : Message ProtStatSmall :=
  {| msg_name := "ProtStatSmall";
     msg_empty := mkProtStatSmall 0 0;
     msg_fields := ProtStatSmall_fields |}.

Definition ProtStatSmall_MarshalTo (m : ProtStatSmall) : list Z := MarshalTo m.
Definition ProtStatSmall_Size (m : ProtStatSmall) : Z := Size m.
Definition ProtStatSmall_Unmarshal (m : ProtStatSmall) (data : list Z) : outcome ProtStatSmall := UnmarshalInto m data.

Record ProtStat := mkProtStat {
  ps_StatType : bool;
  ps_Stat : option ProtStatFull;
  ps_SmallStat : option ProtStatSmall
}.

Definition ProtStat_fields : list (field ProtStat) :=
  [ bool_field 1 "StatType" ps_StatType (fun v m => mkProtStat v (ps_Stat m) (ps_SmallStat m));
    msg_field 3 "Stat" ps_Stat (fun v m => mkProtStat (ps_StatType m) v (ps_SmallStat m));
    msg_field 4 "SmallStat" ps_SmallStat (fun v m => mkProtStat (ps_StatType m) (ps_Stat m) v) ].

#[export] Instance ProtStat_Message : Message ProtStat :=
  {| msg_name := "ProtStat";
     msg_empty := mkProtStat false None None;
     msg_fields := ProtStat_fields |}.

Definition ProtStat_MarshalTo (m : ProtStat) : list Z := MarshalTo m.
Definition ProtStat_Size (m : ProtStat) : Z := Size m.
Definition ProtStat_Unmarshal (m : ProtStat) (data : list Z) : outcome ProtStat := UnmarshalInto m data.

Record ProtStats := mkProtStats {
  pst_FullTimeResolution : bool;
  pst_Stats : list ProtStat
}.

Definition ProtStats_fields : list (field ProtStats) :=
  [ bool_field 1 "FullTimeResolution" pst_FullTimeResolution (fun v m => mkProtStats v (pst_Stats m));
    repeated_field 2 "Stats" pst_Stats (fun v m => mkProtStats (pst_FullTimeResolution m) v) ].

#[export] Instance ProtStats_Message : Message ProtStats :=
  {| msg_name := "ProtStats";
     msg_empty := mkProtStats false [];
     msg_fields := ProtStats_fields |}.

Definition ProtStats_MarshalTo (m : ProtStats) : list Z := MarshalTo m.
Definition ProtStats_Size (m : ProtStats) : Z := Size m.
Definition ProtStats_Unmarshal (m : ProtStats) (data : list Z) : outcome ProtStats := UnmarshalInto m data.

(** ** The series *)

Definition PROTOBUF_NAME : string := "protbuf".

Record ProtobufTimeSeries := mkProtobufSeries {
  pb_T0 : Z;
  pb_curTime : Z;
  pb_Stats : ProtStats;
  pb_len : Z;
  pb_curCount : Z
}.

Definition NewProtobufTimeSeries (t0 : Z) (options : Options) : ProtobufTimeSeries :=
  mkProtobufSeries t0 0 (mkProtStats (HighTimeResolution options) []) 0 0.

Definition pb_Name (s : ProtobufTimeSeries) : string := PROTOBUF_NAME.
Definition pb_HighResolution (s : ProtobufTimeSeries) : bool := pst_FullTimeResolution (pb_Stats s).
Definition pb_Count (s : ProtobufTimeSeries) : Z := pb_curCount s.
Definition pb_Len (s : ProtobufTimeSeries) : Z := pb_len s.
Definition pb_StartTime (s : ProtobufTimeSeries) : Z := pb_T0 s.
Definition pb_LastTime (s : ProtobufTimeSeries) : Z := pb_curTime s.

(** [proto.Unmarshal] resets the message and calls its [Unmarshal]; only
    the messages change, not the counters. *)
Definition pb_UnmarshalBinary (s : ProtobufTimeSeries) (data : list Z) : outcome ProtobufTimeSeries :=
  stats ← Unmarshal data;
  Ok (mkProtobufSeries (pb_T0 s) (pb_curTime s) stats (pb_len s) (pb_curCount s)).

Definition pb_MarshalBinary (s : ProtobufTimeSeries) : outcome (list Z) := Marshal (pb_Stats s).

(** The error is dropped. *)
Definition pb_Bytes (s : ProtobufTimeSeries) : outcome (list Z) :=
  match pb_MarshalBinary s with Err _ => Ok [] | r => r end.

(** The resolution is not copied. *)
Definition pb_Copy (s : ProtobufTimeSeries) : ProtobufTimeSeries :=
  mkProtobufSeries (pb_T0 s) (pb_curTime s) (mkProtStats false (pst_Stats (pb_Stats s))) (pb_len s) (pb_curCount s).

(** The message of a point. *)
Definition proto_stat (full : bool) (p : point) : ProtStat :=
  let use_t := if full then pt_time p else (splitNano (pt_time p)).1 in
  if (pt_count p =? 1) || sameFloatVals (pt_min p) (pt_max p) (pt_last p) (pt_sum p) then
    mkProtStat false None (Some (mkProtStatSmall use_t (pt_sum p)))
  else
    mkProtStat true
      (Some (mkProtStatFull use_t (pt_count p) (pt_min p) (pt_max p) (pt_sum p) (pt_last p))) None.

Definition pb_AddPoint (s : ProtobufTimeSeries) (p : point) : option goerror * ProtobufTimeSeries :=
  let t := pt_time p in
  let full := pst_FullTimeResolution (pb_Stats s) in
  let p_stat := proto_stat full p in
  (None,
   mkProtobufSeries (if t <? pb_T0 s then t else pb_T0 s) (if t >? pb_curTime s then t else pb_curTime s)
     (mkProtStats full (pst_Stats (pb_Stats s) ++ [p_stat])) (i64 (pb_len s + Size p_stat)) (i64 (pb_curCount s + 1))).

Definition pb_AddStat (s : ProtobufTimeSeries) (stat : StatRepr) : option goerror * ProtobufTimeSeries :=
  pb_AddPoint s (mkPoint (Time stat) (Min stat) (Max stat) (Last stat) (Sum stat) (Count stat)).

(** ** The iterator *)

Record ProtobufIter := mkProtobufIter {
  pi_Stats : list ProtStat;
  pi_curIdx : nat;
  pi_statLen : nat;
  pi_curStat : option ProtStat;
  pi_fullResolution : bool;
  pi_finished : bool;
  pi_err : option goerror
}.

Definition NewProtobufIter (stats : list ProtStat) : ProtobufIter :=
  mkProtobufIter stats 0 (length stats) None false false None.

Definition pi_set_fullResolution (full : bool) (it : ProtobufIter) : ProtobufIter :=
  mkProtobufIter (pi_Stats it) (pi_curIdx it) (pi_statLen it) (pi_curStat it) full (pi_finished it) (pi_err it).

Definition pb_Iter (s : ProtobufTimeSeries) : ProtobufIter :=
  pi_set_fullResolution (pst_FullTimeResolution (pb_Stats s)) (NewProtobufIter (pst_Stats (pb_Stats s))).

Definition NewProtobufIterFromBytes (data : list Z) : outcome ProtobufIter :=
  stats ← Unmarshal data;
  Ok (pi_set_fullResolution (pst_FullTimeResolution stats) (NewProtobufIter (pst_Stats stats))).

Definition pi_Next (it : ProtobufIter) : option (bool * ProtobufIter) :=
  if pi_finished it || (pi_statLen it <=? pi_curIdx it)%nat then Some (false, it)
  else
    stat ← pi_Stats it !! pi_curIdx it;
    Some (true, mkProtobufIter (pi_Stats it) (S (pi_curIdx it)) (pi_statLen it) (Some stat) (pi_fullResolution it)
                  (pi_finished it) (pi_err it)).

(** A nil pointer is a panic. *)
Definition pi_Values (it : ProtobufIter) : option point_values :=
  curStat ← pi_curStat it;
  if ps_StatType curStat then
    stat ← ps_Stat curStat;
    let t := if pi_fullResolution it then pf_Time stat else combineSecNano (u32 (pf_Time stat)) 0 in
    Some (t, pf_Min stat, pf_Max stat, pf_Last stat, pf_Sum stat, pf_Count stat)
  else
    small ← ps_SmallStat curStat;
    let v := pss_Val small in
    let t := if pi_fullResolution it then pss_Time small else combineSecNano (u32 (pss_Time small)) 0 in
    Some (t, v, v, v, v, 1).

(** Here the time is not brought back to nanoseconds. *)
Definition pi_ReprValue (it : ProtobufIter) : option StatRepr :=
  curStat ← pi_curStat it;
  if ps_StatType curStat then
    stat ← ps_Stat curStat;
    Some (mkRepr None (pf_Time stat) (CheckFloat (pf_Min stat)) (CheckFloat (pf_Max stat))
            (CheckFloat (pf_Last stat)) (CheckFloat (pf_Sum stat)) (pf_Count stat))
  else
    small ← ps_SmallStat curStat;
    let v := CheckFloat (pss_Val small) in
    Some (mkRepr None (pss_Time small) v v v v 1).

#[export] Instance ProtobufIter_TimeSeriesIter : TimeSeriesIter ProtobufIter :=
  {| iter_Next := pi_Next;
     iter_Values := pi_Values;
     iter_ReprValue := pi_ReprValue;
     iter_Error := pi_err |}.

#[export] Instance Protobuf_TimeSeries : TimeSeries ProtobufTimeSeries ProtobufIter :=
  {| ts_AddStat s stat := Some (pb_AddStat s stat);
     ts_Iter s := Some (inl (pb_Iter s));
     ts_Count := pb_Count;
     ts_Len := pb_Len |}.
