(* ===== verification/ProtoSeriesTheorems.v ===== *)
(** The protobuf series: its messages come back as they were written, the
    iterators over the series and over its bytes deliver the points that
    were added, the length it reports is that of its bytes less the
    framing, and reading ends on any bytes. *)
From S2P Require Import Prelude Bits Float64 GoStrings GoParse Gorilla Tags Repr Series Wire WireTheorems ProtoSeries.

Open Scope Z_scope.

(** ** The messages *)

#[export] Instance ProtStatFull_Laws : MessageLaws ProtStatFull.
Proof. derive_message ProtStatFull_fields. Defined.

#[export] Instance ProtStatSmall_Laws : MessageLaws ProtStatSmall.
Proof. derive_message ProtStatSmall_fields. Defined.

#[export] Instance ProtStat_Laws : MessageLaws ProtStat.
Proof. derive_message ProtStat_fields. Defined.

#[export] Instance ProtStats_Laws : MessageLaws ProtStats.
Proof. derive_message ProtStats_fields. Defined.

#[export] Instance ProtStatFull_Moves : MessageMoves ProtStatFull.
Proof. derive_moves. Qed.

#[export] Instance ProtStatSmall_Moves : MessageMoves ProtStatSmall.
Proof. derive_moves. Qed.

#[export] Instance ProtStat_Moves : MessageMoves ProtStat.
Proof. derive_moves. Qed.

#[export] Instance ProtStats_Moves : MessageMoves ProtStats.
Proof. derive_moves. Qed.

(** ** Points *)

(** The values of a point are of the widths of their types. *)
Definition proto_point (p : point) : Prop :=
  - 2 ^ 63 <= pt_time p < 2 ^ 63 /\ - 2 ^ 63 <= pt_count p < 2 ^ 63 /\
  in_width 64 (pt_min p) /\ in_width 64 (pt_max p) /\ in_width 64 (pt_last p) /\ in_width 64 (pt_sum p).

(** What the iterators deliver for a point: the seconds of its time
    unless the series has the full resolution, and one value for all when
    the count is one or the values agree. *)
Definition proto_values (full : bool) (p : point) : point_values :=
  let t := if full then pt_time p else combineSecNano (splitNano (pt_time p)).1 0 in
  if (pt_count p =? 1) || sameFloatVals (pt_min p) (pt_max p) (pt_last p) (pt_sum p) then
    (t, pt_sum p, pt_sum p, pt_sum p, pt_sum p, 1)
  else (t, pt_min p, pt_max p, pt_last p, pt_sum p, pt_count p).

(** What is left of the values on the wire: the sign of a zero is lost. *)
Definition wire_values (v : point_values) : point_values :=
  let '(t, mi, mx, la, su, ct) := v in
  (t, unsigned_zero mi, unsigned_zero mx, unsigned_zero la, unsigned_zero su, ct).

Lemma splitNano_width (t : Z) : in_width 32 (splitNano t).1.
Proof. unfold splitNano. case_if; apply wrap_range; lia. Qed.

Lemma ProtStatSmall_Size_bound (m : ProtStatSmall) : 0 <= Size m <= 20.
Proof.
  unfold Size. cbn [msg_fields ProtStatSmall_Message ProtStatSmall_fields size_fields foldr]. field_cbn.
  rewrite !len_key by lia. pose proof (sov_bounds (u64 (pss_Time m)) (u64_width _)). repeat case_if; lia.
Qed.

Lemma ProtStatFull_Size_bound (m : ProtStatFull) : 0 <= Size m <= 58.
Proof.
  unfold Size. cbn [msg_fields ProtStatFull_Message ProtStatFull_fields size_fields foldr]. field_cbn.
  rewrite !len_key by lia. pose proof (sov_bounds (u64 (pf_Time m)) (u64_width _)).
  pose proof (sov_bounds (u64 (pf_Count m)) (u64_width _)). repeat case_if; lia.
Qed.

Lemma proto_stat_ok (full : bool) (p : point) : proto_point p -> ml_ok (proto_stat full p).
Proof.
  intros (Ht & Hc & Hmi & Hmx & Hla & Hsu). pose proof (splitNano_width (pt_time p)) as Hw. unfold in_width in Hw.
  assert (Hu : - 2 ^ 63 <= (if full then pt_time p else (splitNano (pt_time p)).1) < 2 ^ 63) by (destruct full; lia).
  unfold proto_stat. case_if; cbn.
  - refine (conj I (conj I (conj (conj _ _) I))); [by cbn|].
    match goal with |- small_len (Size ?m) => pose proof (ProtStatSmall_Size_bound m) end. unfold small_len. lia.
  - refine (conj I (conj (conj _ _) (conj I I))); [by cbn|].
    match goal with |- small_len (Size ?m) => pose proof (ProtStatFull_Size_bound m) end. unfold small_len. lia.
Qed.

Lemma proto_stat_Size (full : bool) (p : point) : 0 <= Size (proto_stat full p) <= 62.
Proof.
  unfold proto_stat. case_if; unfold Size;
    cbn [msg_fields ProtStat_Message ProtStat_fields size_fields foldr]; field_cbn;
    cbn [ps_StatType ps_Stat ps_SmallStat]; unfold size_message; rewrite !len_key by lia;
    match goal with
    | |- context [Size ?m] => first [pose proof (ProtStatSmall_Size_bound m) | pose proof (ProtStatFull_Size_bound m)];
                              rewrite (sov_small (Size m)) by lia
    end; lia.
Qed.

(** ** The series *)

Definition pb_AddPoints (s : ProtobufTimeSeries) (ps : list point) : ProtobufTimeSeries :=
  foldl (fun s p => (pb_AddPoint s p).2) s ps.

(** The bytes of the points of a series, as it counts them. *)
Definition stats_bytes (l : list ProtStat) : Z := foldr (fun st n => Size st + n) 0 l.

Lemma stats_bytes_app (l k : list ProtStat) : stats_bytes (l ++ k) = stats_bytes l + stats_bytes k.
Proof. unfold stats_bytes in *. induction l as [|st l IH]; [done|]. cbn [app foldr]. lia. Qed.

Lemma stats_bytes_bound (full : bool) (ps : list point) :
  0 <= stats_bytes (map (proto_stat full) ps) <= 62 * len ps.
Proof.
  unfold stats_bytes. induction ps as [|p ps IH]; [done|]. cbn [map foldr].
  pose proof (proto_stat_Size full p). unfold len in *. cbn [length]. lia.
Qed.

(** A series that holds [ps]. *)
Record pb_holds (full : bool) (t0 : Z) (ps : list point) (s : ProtobufTimeSeries) : Prop := {
  ph_full : pst_FullTimeResolution (pb_Stats s) = full;
  ph_stats : pst_Stats (pb_Stats s) = map (proto_stat full) ps;
  ph_len : pb_len s = stats_bytes (map (proto_stat full) ps);
  ph_count : pb_curCount s = len ps;
  ph_start : pb_T0 s = foldl Z.min t0 (map pt_time ps);
  ph_last : pb_curTime s = foldl Z.max 0 (map pt_time ps)
}.

Lemma pb_holds_new (t0 : Z) (options : Options) :
  pb_holds (HighTimeResolution options) t0 [] (NewProtobufTimeSeries t0 options).
Proof. by split. Qed.

Lemma pb_holds_add (full : bool) (t0 : Z) (ps : list point) (s : ProtobufTimeSeries) (p : point) :
  len ps < 2 ^ 56 -> pb_holds full t0 ps s -> pb_holds full t0 (ps ++ [p]) (pb_AddPoint s p).2.
Proof.
  intros Hn [Hf Hst Hl Hc Hs0 Hla]. pose proof (stats_bytes_bound full ps). pose proof (proto_stat_Size full p).
  assert (0 <= len ps) by (unfold len; lia).
  unfold pb_AddPoint. split; cbn [snd pb_Stats pst_FullTimeResolution pst_Stats pb_len pb_curCount pb_T0 pb_curTime];
    rewrite ?Hf, ?Hst, ?Hl, ?Hc, ?map_app, ?foldl_app; cbn [map foldl].
  - done.
  - done.
  - rewrite i64_small by lia. rewrite stats_bytes_app. cbn [stats_bytes foldr]. lia.
  - rewrite i64_small by lia. rewrite len_app. done.
  - rewrite <- Hs0. case_if; lia.
  - rewrite <- Hla. case_if; lia.
Qed.

Lemma pb_holds_points (full : bool) (t0 : Z) (ps qs : list point) (s : ProtobufTimeSeries) :
  len (ps ++ qs) < 2 ^ 56 -> pb_holds full t0 ps s -> pb_holds full t0 (ps ++ qs) (pb_AddPoints s qs).
Proof.
  revert ps s. induction qs as [|q qs IH]; intros ps s Hn Hh; [by rewrite app_nil_r|].
  cbn. change (q :: qs) with ([q] ++ qs). rewrite app_assoc. apply IH; [by rewrite <- app_assoc|].
  apply pb_holds_add; [|done]. rewrite len_app in Hn. unfold len in *. cbn [length] in Hn. lia.
Qed.

Lemma pb_holds_series (t0 : Z) (options : Options) (ps : list point) :
  len ps < 2 ^ 56 ->
  pb_holds (HighTimeResolution options) t0 ps (pb_AddPoints (NewProtobufTimeSeries t0 options) ps).
Proof. intros Hn. apply (pb_holds_points _ _ [] ps); [done | apply pb_holds_new]. Qed.

(** *** The iterator *)

(** The values of one message. *)
Definition gives (full : bool) (st : ProtStat) (v : point_values) : Prop :=
  forall it, pi_curStat it = Some st -> pi_fullResolution it = full -> pi_Values it = Some v.

Lemma collect_proto (l : list ProtStat) (full : bool) (vs : list point_values) (k fuel : nat) (cur : option ProtStat) :
  Forall2 (gives full) (drop k l) vs -> (length (drop k l) < fuel)%nat ->
  collect fuel (mkProtobufIter l k (length l) cur full false None) = Some vs.
Proof.
  revert k cur fuel. induction vs as [|v vs IH]; intros k cur fuel HF Hfuel; (destruct fuel as [|fuel]; [lia|]).
  - inversion HF as [Hd|]. symmetry in Hd. apply (f_equal length) in Hd. rewrite length_drop in Hd. cbn in Hd.
    cbn [collect iter_Next ProtobufIter_TimeSeriesIter]. unfold pi_Next. cbn [pi_finished pi_statLen pi_curIdx orb].
    rewrite (proj2 (Nat.leb_le _ _)) by lia. done.
  - inversion HF as [|st v' rest vs' Hg HF' Hd]; subst. symmetry in Hd.
    assert (Hk : l !! k = Some st) by (rewrite <- (Nat.add_0_r k), <- lookup_drop, Hd; done).
    assert (Hr : drop (S k) l = rest) by (replace (S k) with (k + 1)%nat by lia; by rewrite <- drop_drop, Hd).
    pose proof (lookup_lt_Some _ _ _ Hk).
    cbn [collect iter_Next iter_Values ProtobufIter_TimeSeriesIter]. unfold pi_Next.
    cbn [pi_finished pi_statLen pi_curIdx pi_Stats pi_fullResolution pi_err orb].
    rewrite (proj2 (Nat.leb_gt _ _)) by lia. rewrite Hk. cbn [mbind option_bind negb].
    rewrite Hg by done. cbn [mbind option_bind].
    rewrite (IH (S k)); [done| |].
    + by rewrite Hr.
    + rewrite Hr. rewrite Hd in Hfuel. cbn [length] in Hfuel. lia.
Qed.

Lemma u32_splitNano (t : Z) : u32 (splitNano t).1 = (splitNano t).1.
Proof. apply wrap_id, splitNano_width. Qed.

Lemma proto_stat_gives (full : bool) (p : point) : gives full (proto_stat full p) (proto_values full p).
Proof.
  intros it Hc Hf. unfold pi_Values, proto_values, proto_stat in *. rewrite Hc, Hf. cbn [mbind option_bind].
  destruct (_ || _); cbn; destruct full; rewrite ?u32_splitNano; done.
Qed.

Lemma norm_stat_gives (full : bool) (p : point) :
  gives full (ml_norm (proto_stat full p)) (wire_values (proto_values full p)).
Proof.
  intros it Hc Hf. unfold pi_Values, proto_values, proto_stat in *. rewrite Hc, Hf. cbn [mbind option_bind].
  destruct (_ || _); cbn; destruct full; rewrite ?u32_splitNano; done.
Qed.

(** *** The bytes *)

Lemma ProtStats_ok (full : bool) (ps : list point) :
  Forall proto_point ps -> ml_ok (mkProtStats full (map (proto_stat full) ps)).
Proof.
  intros Hps. cbn. refine (conj I (conj _ I)). apply Forall_map. eapply Forall_impl; [exact Hps|].
  intros p Hp. split; [by apply proto_stat_ok|]. pose proof (proto_stat_Size full p). unfold small_len. lia.
Qed.

Lemma ProtStats_Size_points (full : bool) (ps : list point) :
  Size (mkProtStats full (map (proto_stat full) ps)) =
  stats_bytes (map (proto_stat full) ps) + 2 * len ps + (if full then 2 else 0).
Proof.
  unfold Size. cbn [msg_fields ProtStats_Message ProtStats_fields size_fields foldr]. field_cbn.
  cbn [pst_FullTimeResolution pst_Stats]. rewrite len_key by lia.
  assert (Hb : foldr (fun s n => size_message 2 s + n) 0 (map (proto_stat full) ps) =
               stats_bytes (map (proto_stat full) ps) + 2 * len ps).
  { induction ps as [|p ps IH]; [done|]. cbn [map foldr]. rewrite IH. cbn [stats_bytes foldr].
    fold (stats_bytes (map (proto_stat full) ps)). unfold size_message. rewrite len_key by lia.
    pose proof (proto_stat_Size full p). rewrite sov_small by lia. unfold len. cbn [length]. lia. }
  rewrite Hb. destruct full; lia.
Qed.

Lemma pb_Stats_holds (full : bool) (t0 : Z) (ps : list point) (s : ProtobufTimeSeries) :
  pb_holds full t0 ps s -> pb_Stats s = mkProtStats full (map (proto_stat full) ps).
Proof. intros [Hf Hst _ _ _ _]. destruct (pb_Stats s). cbn in *. by subst. Qed.

Section reads_back.
Variables (full : bool) (ps : list point) (s : ProtobufTimeSeries).
Hypothesis Hst : pb_Stats s = mkProtStats full (map (proto_stat full) ps).
Hypothesis Hps : Forall proto_point ps.
Hypothesis Hn : len ps < 2 ^ 56.

Lemma pb_Iter_collect (fuel : nat) :
  (length ps < fuel)%nat -> collect fuel (pb_Iter s) = Some (map (proto_values full) ps).
Proof.
  intros Hf. unfold pb_Iter. rewrite Hst. apply collect_proto.
  - rewrite drop_0. apply Forall2_fmap_l, Forall2_fmap_r, Forall_Forall2_diag, Forall_true. intros p. apply proto_stat_gives.
  - rewrite drop_0. cbn. by rewrite length_map.
Qed.

Lemma pb_Size_small : small_len (Size (pb_Stats s)).
Proof.
  rewrite Hst, ProtStats_Size_points. pose proof (stats_bytes_bound full ps).
  assert (0 <= len ps) by (unfold len; lia). unfold small_len. destruct full; lia.
Qed.

(** The bytes, how many they are, and what they are read back as. *)
Lemma pb_Bytes_read :
  exists data it, pb_Bytes s = Ok data /\
    len data = stats_bytes (map (proto_stat full) ps) + 2 * len ps + (if full then 2 else 0) /\
    NewProtobufIterFromBytes data = Ok it /\
    forall fuel, (length ps < fuel)%nat ->
      collect fuel it = Some (map (fun p => wire_values (proto_values full p)) ps).
Proof.
  assert (Hok : ml_ok (pb_Stats s)) by (rewrite Hst; by apply ProtStats_ok).
  unfold pb_Bytes, pb_MarshalBinary, NewProtobufIterFromBytes. rewrite Marshal_ok by done.
  eexists (MarshalTo (pb_Stats s)), _. split; [done|].
  rewrite Unmarshal_MarshalTo by (done || apply pb_Size_small). split_and!; [|done|].
  - by rewrite <- Size_MarshalTo, Hst, ProtStats_Size_points.
  - intros fuel Hf. rewrite Hst.
    change (ml_norm (mkProtStats full ?l)) with (mkProtStats full (map ml_norm l)).
    apply (collect_proto (map ml_norm (map (proto_stat full) ps))).
    + rewrite drop_0. rewrite map_map. apply Forall2_fmap_l, Forall2_fmap_r, Forall_Forall2_diag, Forall_true.
      intros p. apply norm_stat_gives.
    + rewrite drop_0, !length_map. lia.
Qed.

End reads_back.

(** ** Properties *)

(** The protobuf series keeps what it is given.  Add any points to a
    new series: the iterator over the series delivers every point in
    order, at the resolution of the series; the bytes of the series are
    read back without an error, and the iterator over them delivers the
    same values, with a zero unsigned.  The count, the first and the last
    time are those of the points, and the length the series reports is
    that of its bytes less two for each point and two for the resolution. *)
Theorem protobuf_series_reads_back (t0 : Z) (options : Options) (ps : list point) :
  Forall proto_point ps -> len ps < 2 ^ 56 ->
  let s := pb_AddPoints (NewProtobufTimeSeries t0 options) ps in
  let full := HighTimeResolution options in
  collect (S (length ps)) (pb_Iter s) = Some (map (proto_values full) ps) /\
  (exists data it, pb_Bytes s = Ok data /\ NewProtobufIterFromBytes data = Ok it /\
     collect (S (length ps)) it = Some (map (fun p => wire_values (proto_values full p)) ps) /\
     len data = pb_Len s + 2 * len ps + (if full then 2 else 0)) /\
  pb_Count s = len ps /\ pb_StartTime s = foldl Z.min t0 (map pt_time ps) /\
  pb_LastTime s = foldl Z.max 0 (map pt_time ps).
Proof.
  intros Hps Hn s full. pose proof (pb_holds_series t0 options ps Hn) as Hh. fold s full in Hh.
  pose proof (pb_Stats_holds full t0 ps s Hh) as Hst.
  destruct (pb_Bytes_read full ps s Hst Hps Hn) as (data & it & Hb & Hl & Hi & Hc).
  split; [apply pb_Iter_collect; [done|lia]|]. destruct Hh as [_ _ Hlen Hct Hs0 Hla]. split; [|done].
  exists data, it. split_and!; [done|done|apply Hc; lia|]. unfold pb_Len. by rewrite Hlen.
Qed.

(** Two points, one of a count of two and a minimum of minus zero. *)
Definition sample_points : list point :=
  [mkPoint 1500000000123456789 (2 ^ 63) 0x4008000000000000 0x3FF0000000000000 0x4010000000000000 2;
   mkPoint 1500000001000000000 0x4010000000000000 0x4010000000000000 0x4010000000000000 0x4010000000000000 1].

Lemma protobuf_series_reads_back_witness :
  Forall proto_point sample_points /\
  collect 3 (pb_Iter (pb_AddPoints (NewProtobufTimeSeries 1500000000000000000 NewDefaultOptions) sample_points)) =
  Some [(1500000000000000000, 2 ^ 63, 0x4008000000000000, 0x3FF0000000000000, 0x4010000000000000, 2);
        (1500000001000000000, 0x4010000000000000, 0x4010000000000000, 0x4010000000000000, 0x4010000000000000, 1)].
Proof.
  assert (H : Forall proto_point sample_points).
  { repeat constructor; cbn; unfold in_width; lia. }
  split; [exact H|].
  exact (proj1 (protobuf_series_reads_back 1500000000000000000 NewDefaultOptions sample_points H ltac:(reflexivity))).
Defined.

(** Reading the bytes of a series ends.  On any bytes that fit into
    memory [Unmarshal] returns a message, an error or panics; it does not
    run out of the fuel of one round for each byte, and skipping an
    unknown field not of two. *)
Theorem protobuf_unmarshal_ends (data : list Z) :
  len data < 2 ^ 62 -> ProtStats_Unmarshal (mkProtStats false []) data <> NoFuel.
Proof.
  intros Hd E. pose proof (UnmarshalInto_settles (mkProtStats false []) data) as H.
  unfold ProtStats_Unmarshal in E. rewrite E in H. apply H. unfold small_len, len in *. lia.
Qed.

Lemma protobuf_unmarshal_ends_witness :
  len [8; 1; 99; 99; 100; 100] < 2 ^ 62 /\
  ProtStats_Unmarshal (mkProtStats false []) [8; 1; 99; 99; 100; 100] <> NoFuel.
Proof. split; [reflexivity | apply protobuf_unmarshal_ends; reflexivity]. Defined.

(** A message, an error for bytes cut short, and a panic: a length of
    nearly 2^63 makes the end of the field negative, and the slice is out
    of range. *)
Example unmarshal_outcomes :
  ProtStats_Unmarshal (mkProtStats false []) [8; 1] = Ok (mkProtStats true []) /\
  ProtStats_Unmarshal (mkProtStats false []) [8] = Err ErrUnexpectedEOF /\
  ProtStats_Unmarshal (mkProtStats false []) [18; 255; 255; 255; 255; 255; 255; 255; 255; 127] = Panic.
Proof. by vm_compute. Qed.

(** The name a series gives is not one the registry knows, and a copy
    delivers other times. *)
Example protobuf_divergences :
  (forall O (OS : Type) (other : string -> Z -> OS),
     NewTimeSeries other (pb_Name (NewProtobufTimeSeries O NewDefaultOptions)) 0 =
     Some (inr (GoError "Invalid time series type `protbuf`"))) /\
  let s := pb_AddPoints (NewProtobufTimeSeries 0 (mkOptions 5 true "n/a")) [mkPoint 1500000001000000001 0 0 0 0 1] in
  collect 2 (pb_Iter s) = Some [(1500000001000000001, 0, 0, 0, 0, 1)] /\
  collect 2 (pb_Iter (pb_Copy s)) <> Some [(1500000001000000001, 0, 0, 0, 0, 1)].
Proof. split; [done|]. split; [by vm_compute|]. by vm_compute. Qed.

(** The two ways to read a point of a series without the full resolution:
    nanoseconds and seconds. *)
Example protobuf_two_times :
  let s := pb_AddPoints (NewProtobufTimeSeries 0 NewDefaultOptions) [mkPoint 1500000001000000000 0 0 0 0 1] in
  match pi_Next (pb_Iter s) with
  | Some (_, it) => (pi_Values it, Time <$> pi_ReprValue it) =
                    (Some (1500000001000000000, 0, 0, 0, 0, 1), Some 1500000001)
  | None => False
  end.
Proof. by vm_compute. Qed.
