(* ===== verification/ProtoPipeline.v ===== *)
(** The write cache with protobuf series, the format the writers use
    unless told otherwise: the registry with the protobuf format in it
    keeps the cache's contract, and the bytes of the series that leave the
    cache hold every accepted point once, in order. *)
From S2P Require Import Prelude Bits Float64 GoStrings GoSort GoParse Gorilla GorillaIter Tags Repr Aggs Series.
From S2P Require Import RawData Resample WriteCache WriteCacheTheorems PipelineTheorems Wire WireTheorems ProtoSeries ProtoSeriesTheorems.

Open Scope Z_scope.

(** ** The registry with the protobuf format *)

#[export] Instance sum_Iter {A B} `{!TimeSeriesIter A} `{!TimeSeriesIter B} : TimeSeriesIter (A + B) :=
  {| iter_Next it :=
       match it with
       | inl it => '(b, it) ← iter_Next it; Some (b, inl it)
       | inr it => '(b, it) ← iter_Next it; Some (b, inr it)
       end;
     iter_Values it := match it with inl it => iter_Values it | inr it => iter_Values it end;
     iter_ReprValue it := match it with inl it => iter_ReprValue it | inr it => iter_ReprValue it end;
     iter_Error it := match it with inl it => iter_Error it | inr it => iter_Error it end |}.

#[export] Instance sum_TimeSeries {S1 I1 S2 I2} `{!TimeSeries S1 I1} `{!TimeSeries S2 I2}
  : TimeSeries (S1 + S2) (I1 + I2) :=
  {| ts_AddStat s stat :=
       match s with
       | inl s => '(e, s) ← ts_AddStat s stat; Some (e, inl s)
       | inr s => '(e, s) ← ts_AddStat s stat; Some (e, inr s)
       end;
     ts_Iter s :=
       match s with
       | inl s => r ← ts_Iter s; Some (match r with inl it => inl (inl it) | inr e => inr e end)
       | inr s => r ← ts_Iter s; Some (match r with inl it => inl (inr it) | inr e => inr e end)
       end;
     ts_Count s := match s with inl s => ts_Count s | inr s => ts_Count s end;
     ts_Len s := match s with inl s => ts_Len s | inr s => ts_Len s end |}.

Section laws.
Context {GS : GoSort}.
Variable farm_Hash64 : list Z -> Z.
(** The formats that are not modelled. *)
Context {O OS : Type} {OTI : TimeSeriesIter O} {OTS : TimeSeries OS O}.
Variable rest_Series : string -> Z -> OS.
Variable json_Len : list StatRepr -> Z.

Definition proto_Series (name : string) (t0 : Z) : ProtobufTimeSeries + OS :=
  if bool_decide (name = "protobuf"%string) then inl (NewProtobufTimeSeries t0 NewDefaultOptions)
  else inr (rest_Series name t0).

#[local] Instance proto_any_TS
  : TimeSeries (any_series (OS:=ProtobufTimeSeries + OS)) (any_iter (O:=ProtobufIter + O)) :=
  any_TimeSeries json_Len.

Abbreviation proto_New := (NewTimeSeries proto_Series).

(** A protobuf series with the messages of [l]. *)
Definition any_proto (s : any_series (OS:=ProtobufTimeSeries + OS)) (l : list StatRepr) : Prop :=
  match s with
  | SOther (inl s) =>
      pb_Stats s = mkProtStats false (map (proto_stat false) (map point_of l)) /\ Forall proto_point (map point_of l)
  | _ => False
  end.

Lemma any_proto_new (x : StatRepr) :
  proto_point (point_of x) ->
  exists tp e tp', proto_New "protobuf" (Time x) = Some (inl tp) /\
    ts_AddStat tp x = Some (e, tp') /\ (e = None -> any_proto tp' [x]).
Proof. intros Hx. eexists _, _, _. split_and!; [done..|]. split; [done|]. by constructor. Qed.

Lemma any_proto_add (s : any_series) (l : list StatRepr) (x : StatRepr) :
  any_proto s l -> proto_point (point_of x) ->
  exists e s', ts_AddStat s x = Some (e, s') /\
    match e with Some _ => s' = s | None => any_proto s' (l ++ [x]) end.
Proof.
  intros Hc Hx. destruct s as [| |[s|]]; [done|done| |done]. destruct Hc as [Hc Hl].
  eexists None, _. split; [done|]. cbn. rewrite Hc. cbn. rewrite !map_app. split; [done|].
  apply Forall_app. split; [done|]. by constructor.
Qed.

#[local] Instance proto_laws : SeriesLaws proto_New "protobuf" :=
  {| stat_ok x := proto_point (point_of x);
     contents := any_proto;
     laws_new x Hx := or_intror (any_proto_new x Hx);
     laws_add s l x Hc Hx := any_proto_add s l x Hc Hx |}.

(** The protobuf series handed out for metric [k]. *)
Definition proto_for (k : Z) (out : list (StatName * any_series (OS:=ProtobufTimeSeries + OS)))
  : list ProtobufTimeSeries :=
  omap (fun x => if (UniqueId farm_Hash64 x.1).1 =? k
                 then match x.2 with SOther (inl s) => Some s | _ => None end else None) out.

Lemma proto_for_parts (k : Z) (out : list (StatName * any_series)) (outs : list (list StatRepr)) :
  Forall2 (fun x l => any_proto x.2 l) out outs ->
  Forall2 (fun s l => any_proto (SOther (inl s)) l) (proto_for k out) (parts farm_Hash64 k out outs).
Proof.
  induction 1 as [|[n s] l out outs Hx _ IH]; [constructor|]. cbn [parts]. unfold proto_for.
  cbn [omap list_omap fst snd]. cbn [snd] in Hx. destruct ((UniqueId farm_Hash64 n).1 =? k); [|done].
  destruct s as [| |[s|]]; [done|done| |done]. by constructor.
Qed.

(** The bytes of a series deliver [vs]. *)
Definition bytes_deliver (fuel : nat) (s : ProtobufTimeSeries) (vs : list point_values) : Prop :=
  exists data it, pb_Bytes s = Ok data /\ NewProtobufIterFromBytes data = Ok it /\ collect fuel it = Some vs.

Lemma parts_deliver (fuel : nat) (ss : list ProtobufTimeSeries) (ls : list (list StatRepr)) :
  Forall2 (fun s l => any_proto (SOther (inl s)) l) ss ls -> len (concat ls) < 2 ^ 56 ->
  (length (concat ls) < fuel)%nat ->
  Forall2 (bytes_deliver fuel) ss (map (map (fun x => wire_values (proto_values false (point_of x)))) ls).
Proof.
  induction 1 as [|s l ss ls [Hst Hps] _ IH]; intros Hlen Hf; [constructor|]. cbn [concat map] in *.
  rewrite len_app in Hlen. rewrite length_app in Hf.
  assert (0 <= len l /\ 0 <= len (concat ls)) by (unfold len; lia).
  constructor; [|apply IH; lia].
  destruct (pb_Bytes_read false (map point_of l) s Hst Hps) as (data & it & Hb & _ & Hi & Hc).
  { unfold len in *. rewrite length_map. lia. }
  exists data, it. split_and!; [done|done|]. rewrite Hc by (rewrite length_map; lia). by rewrite map_map.
Qed.

(** The write cache with protobuf series loses nothing.  Run any
    sequence of additions, expiries, queue updates and pops on a new cache
    of protobuf series.  For a metric whose series have all been handed to
    a writer, the bytes of these series are read back without an error,
    and deliver, one after the other, exactly the points the cache
    accepted for the metric, in the order it accepted them. *)
Theorem accepted_points_in_protobuf (keys nbytes time : Z) (method : string) (os : list wop) (wc : CacherSingle)
  (out : list (StatName * any_series)) (acc : list (Z * StatRepr)) (k : Z) (fuel : nat) :
  Forall (wop_ok farm_Hash64 proto_New "protobuf") os ->
  exec_all farm_Hash64 proto_New (configure NewSingleCacher keys nbytes "protobuf" time method, [], []) os =
    Some (wc, out, acc) ->
  Cache wc !! k = None -> len acc < 2 ^ 56 -> (length acc < fuel)%nat ->
  exists vs, Forall2 (bytes_deliver fuel) (proto_for k out) vs /\
    concat vs = map (fun x => wire_values (proto_values false (point_of x))) (of_key k acc).
Proof.
  intros Hok Hrun Hk Hacc Hfuel.
  destruct (exec_all_good farm_Hash64 _ "protobuf" os _ [] []
    (new_good farm_Hash64 _ "protobuf" keys nbytes time method) Hok)
    as (wc' & out' & acc' & E & _ & _ & outs & cur & [_ _ Hnone Houts Hsum]).
  rewrite Hrun in E. injection E as <- <- <-.
  specialize (Hsum k). rewrite (Hnone k Hk), app_nil_r, <- parts_given in Hsum.
  assert (Hlen : (length (concat (parts farm_Hash64 k out outs)) <= length acc)%nat).
  { rewrite Hsum. unfold of_key. rewrite length_map. apply length_filter. }
  exists (map (map (fun x => wire_values (proto_values false (point_of x)))) (parts farm_Hash64 k out outs)).
  split; [|by rewrite <- concat_map, Hsum].
  apply parts_deliver; [by apply proto_for_parts | unfold len in *; lia | lia].
Qed.

End laws.

(** ** An example run *)

#[local] Existing Instance insertion_GoSort.
#[local] Instance proto_other_TS : TimeSeries ReprTimeSeries ReprIter := Repr_TimeSeries (fun _ => 0).

Abbreviation proto_sample_New := (NewTimeSeries (proto_Series (fun _ t => NewReprTimeSeries t NewDefaultOptions))).
#[local] Instance proto_sample_TS : TimeSeries any_series any_iter := proto_any_TS (O:=ReprIter) (fun _ => 0).
#[local] Instance proto_sample_laws : SeriesLaws proto_sample_New "protobuf" := proto_laws _ _.

Lemma proto_ops_ok : Forall (wop_ok (fun _ => 0) proto_sample_New "protobuf") sample_ops.
Proof.
  repeat constructor; try (vm_compute; reflexivity); try (vm_compute; discriminate);
    vm_compute; split_and!; (reflexivity || discriminate).
Qed.

Definition proto_start : CacherSingle (S:=any_series (OS:=ProtobufTimeSeries + ReprTimeSeries)) :=
  configure NewSingleCacher 10 60 "protobuf" 3600 "chan".

Definition proto_end
  : CacherSingle (S:=any_series (OS:=ProtobufTimeSeries + ReprTimeSeries)) *
    list (StatName * any_series) * list (Z * StatRepr) :=
  default (proto_start, [], []) (exec_all (fun _ => 0) proto_sample_New (proto_start, [], []) sample_ops).

Lemma proto_run :
  exec_all (fun _ => 0) proto_sample_New (proto_start, [], []) sample_ops =
  Some (proto_end.1.1, proto_end.1.2, proto_end.2).
Proof. vm_compute. reflexivity. Qed.

Lemma accepted_points_in_protobuf_witness :
  length (proto_for (fun _ => 0) id_a proto_end.1.2) = 1%nat /\
  exists vs, Forall2 (bytes_deliver 5) (proto_for (fun _ => 0) id_a proto_end.1.2) vs /\
    concat vs = map (fun x => wire_values (proto_values false (point_of x))) (of_key id_a proto_end.2).
Proof.
  split; [vm_compute; reflexivity|].
  apply (accepted_points_in_protobuf (fun _ => 0) (fun _ t => NewReprTimeSeries t NewDefaultOptions) (fun _ => 0)
           10 60 3600 "chan" sample_ops proto_end.1.1 proto_end.1.2 proto_end.2 id_a 5).
  - exact proto_ops_ok.
  - exact proto_run.
  - vm_compute. reflexivity.
  - vm_compute. reflexivity.
  - vm_compute. lia.
Defined.
