(* ===== verification/ChunkCache.v ===== *)
(** [writers/metrics/cache_chunk.go]: the chunked write cache of the log
    writers.  Points go to the current chunk, one series per metric, and to
    the slice of the current log.  A tick sends the log and starts a new
    one; a slower tick sends the current chunk to the writers, keeps it as
    the newest of the last six, and starts another.

    The broadcasters are the lists of what has been sent on them, the
    channel of back-filled points is the list of what is in it, and the
    clock is an argument.  The items of a chunk are shared between the
    chunk that is kept and the copy that is sent, but once a chunk is no
    longer current nothing writes to it, so chunks are values.  [None] is a
    panic, which a nil chunk causes where the code does not test for it.
    Gauges, logging and the loops around the ticks are left out. *)
From S2P Require Import Prelude Bits BitStream Float64 GoStrings GoSort Gorilla GorillaIter.
From S2P Require Import Tags Repr LRU LRUTheorems Aggs Series RawData Resample WriteCache.

Open Scope Z_scope.

Definition CACHE_LOG_CHUNKS : nat := 6.
Definition CACHE_LOG_TIME_CHUNKS : Z := 10 * 60.
Definition CACHE_LOG_FLUSH : Z := 10.
Definition CACHER_SERIES_TYPE : string := "protobuf".

Definition ErrZeroTime : goerror := GoError "Time for metric is 0 cannot insert".

Section chunk.
Context `{!GoSort}.
Variable farm_Hash64 : list Z -> Z.
Context {S I C : Type} {TS : TimeSeries S I} {TI : TimeSeriesIter I} {MC : MemoCache C aggItem}.
(** [series.NewTimeSeries] with the default options. *)
Variable NewTimeSeries : string -> Z -> option (S + goerror).

Abbreviation UniqueId := (UniqueId farm_Hash64).
Abbreviation CacheItem := (CacheItem (S:=S)).

(** ** One chunk *)

Record cacheChunkItem := mkChunk {
  ch_ts : gmap Z CacheItem;
  ch_seriesType : string;
  ch_sequence : Z;
  ch_started : Z;
  ch_timeWindow : Z;
  ch_written : bool;
  ch_curCount : Z
}.

Definition NewCacheChunkItem (timeW sequenceNum : Z) (seriesType : string) (now : Z) : cacheChunkItem :=
  mkChunk ∅ seriesType sequenceNum now timeW false 0.

Definition chunk_Copy (c : cacheChunkItem) : cacheChunkItem :=
  mkChunk (ch_ts c) (ch_seriesType c) (ch_sequence c) (ch_started c) (ch_timeWindow c) (ch_written c) (ch_curCount c).

(** The number of metrics, zero for a nil chunk. *)
Definition chunk_Len (c : option cacheChunkItem) : Z :=
  match c with None => 0 | Some c => Z.of_nat (base.size (ch_ts c)) end.

Definition chunk_Count (c : cacheChunkItem) : Z := ch_curCount c.

Definition chunk_set (c : cacheChunkItem) (ts : gmap Z CacheItem) (count : Z) : cacheChunkItem :=
  mkChunk ts (ch_seriesType c) (ch_sequence c) (ch_started c) (ch_timeWindow c) (ch_written c) count.

Definition chunk_AddWithOffset (c : cacheChunkItem) (name : StatName) (stat : StatRepr)
  (offset : option OffsetInSeries) (now : Z) : option (option goerror * cacheChunkItem) :=
  if Time stat =? 0 then Some (Some ErrZeroTime, c)
  else
    let '(uid, name) := UniqueId name in
    match ch_ts c !! uid with
    | Some gots =>
        '(err, tp) ← ts_AddStat (ci_Series gots) stat;
        match err with
        | Some e =>
            Some (Some e, chunk_set c (<[uid := mkCacheItem (ci_Name gots) tp (ci_Offset gots) (ci_Started gots)]>
                                        (ch_ts c)) (ch_curCount c))
        | None =>
            Some (None, chunk_set c (<[uid := mkCacheItem (ci_Name gots) tp offset (ci_Started gots)]> (ch_ts c))
                          (i64 (ch_curCount c + 1)))
        end
    | None =>
        r ← NewTimeSeries (ch_seriesType c) (Time stat);
        match r with
        | inr e => Some (Some e, c)
        | inl tp =>
            '(err, tp) ← ts_AddStat tp stat;
            match err with
            | Some e => Some (Some e, c)
            | None =>
                Some (None, chunk_set c (<[uid := mkCacheItem name tp offset (u32 (now / 10 ^ 9))]> (ch_ts c))
                              (i64 (ch_curCount c + 1)))
            end
        end
    end.

Definition chunk_Add (c : cacheChunkItem) (name : StatName) (stat : StatRepr) (now : Z)
  : option (option goerror * cacheChunkItem) := chunk_AddWithOffset c name stat None now.

(** The loop of [getStatsStream]: points of the same time are merged into
    the last one. *)
Fixpoint chunk_stats_loop (fuel : nat) (it : I) (name : StatName) (lastT : Z) (ouStats : list StatRepr)
  : option (list StatRepr * I) :=
  match fuel with
  | O => None
  | Datatypes.S fuel =>
      '(ok, it) ← iter_Next it;
      if negb ok then Some (ouStats, it) else
      st ← iter_ReprValue it;
      let st := with_name st name in
      match last ouStats with
      | Some cur =>
          if lastT =? Time st
          then chunk_stats_loop fuel it name lastT (removelast ouStats ++ [MergeInPlace cur st])
          else chunk_stats_loop fuel it name (Time st) (ouStats ++ [st])
      | None => chunk_stats_loop fuel it name (Time st) (ouStats ++ [st])
      end
  end.

(** The list is nil when there is no iterator. *)
Definition chunk_getStatsStream (fuel : nat) (name : StatName) (ts : S)
  : option (option (list StatRepr) * option goerror) :=
  r ← ts_Iter ts;
  match r with
  | inr e => Some (None, Some e)
  | inl it =>
      '(ouStats, it) ← chunk_stats_loop fuel it name (-1) [];
      match iter_Error it with
      | Some e => Some (Some ouStats, Some e)
      | None => Some (Some (sort_stats ouStats), None)
      end
  end.

(** A nil chunk panics on its lock. *)
Definition chunk_Get (fuel : nat) (c : option cacheChunkItem) (name : StatName)
  : option (option (list StatRepr) * option goerror) :=
  c ← c;
  let '(uid, name) := UniqueId name in
  match ch_ts c !! uid with
  | Some gots => chunk_getStatsStream fuel name (ci_Series gots)
  | None => Some (None, None)
  end.

Definition chunk_GetById (fuel : nat) (c : option cacheChunkItem) (metric_id : Z)
  : option (option StatName * option (list StatRepr) * option goerror) :=
  match c ≫= (fun c => ch_ts c !! metric_id) with
  | Some gots =>
      '(tseries, err) ← chunk_getStatsStream fuel (ci_Name gots) (ci_Series gots);
      Some (Some (ci_Name gots), tseries, err)
  | None => Some (None, None, None)
  end.

(** [None] is a metric that is not in the chunk, or a nil chunk. *)
Definition chunk_GetSeriesById (c : option cacheChunkItem) (metric_id : Z) : option (StatName * S) :=
  c ← c; gots ← ch_ts c !! metric_id; Some (ci_Name gots, ci_Series gots).

Definition chunk_GetSeries (c : option cacheChunkItem) (name : StatName) : option (StatName * S) :=
  chunk_GetSeriesById c (UniqueId name).1.

Definition chunk_GetAsRawRenderItem (fuel : nat) (cache : C) (c : option cacheChunkItem) (name : StatName) (now : Z)
  : option (option RawRenderItem * option goerror * C) :=
  '(name, data, err) ← chunk_GetById fuel c (UniqueId name).1;
  let data := default [] data in
  match err, head data, last data, name with
  | Some e, _, _, _ => Some (None, Some e, cache)
  | None, Some a, Some b, Some name =>
      '(agg, cache) ← AggType cache name now;
      Some (Some (mkItem "" "" (unix_of a) (unix_of b) (unix_of a) (unix_of b)
                    (step_loop data 0 0) (u32 agg) [] [] (map raw_of_stat data) false false), None, cache)
  | None, _, _, _ => Some (None, None, cache)
  end.

Definition NeedFlush (c : cacheChunkItem) (now : Z) : bool := i64 (now - ch_timeWindow c) >=? ch_started c.

(** ** The cache *)

Record CacheChunkLog := mkChunkLog {
  cl_Slice : gmap Z (list StatRepr);
  cl_SequenceId : Z
}.

Record CacheChunkSlice := mkChunkSlice {
  cs_Slice : cacheChunkItem;
  cs_SequenceId : Z
}.

Record adderMessage := mkAdder {
  am_name : StatName;
  am_stat : StatRepr;
  am_uid : Z
}.

Record CacherChunk := mkCacherChunk {
  chunks : list (option cacheChunkItem);
  curChunk : option cacheChunkItem;
  curSlice : gmap Z (list StatRepr);
  maxChunks : Z;
  maxTime : Z;
  logTime : Z;
  curSequenceId : Z;
  cc_seriesType : string;
  addChunkChan : list adderMessage;
  logBroadcast : list CacheChunkLog;
  sliceBroadcast : list CacheChunkSlice
}.

Definition NewCacherChunk : CacherChunk :=
  mkCacherChunk (replicate CACHE_LOG_CHUNKS None) None ∅ (Z.of_nat CACHE_LOG_CHUNKS) CACHE_LOG_TIME_CHUNKS CACHE_LOG_FLUSH
    0 CACHER_SERIES_TYPE [] [] [].

Definition set_config (wc : CacherChunk) (mc mt lt : Z) (type : string) : CacherChunk :=
  mkCacherChunk (chunks wc) (curChunk wc) (curSlice wc) mc mt lt (curSequenceId wc) type (addChunkChan wc)
    (logBroadcast wc) (sliceBroadcast wc).

Definition SetMaxChunks (wc : CacherChunk) (m : Z) : CacherChunk :=
  set_config wc m (maxTime wc) (logTime wc) (cc_seriesType wc).
Definition SetChunkTimeWindow (wc : CacherChunk) (m : Z) : CacherChunk :=
  set_config wc (maxChunks wc) m (logTime wc) (cc_seriesType wc).
Definition SetLogTimeWindow (wc : CacherChunk) (m : Z) : CacherChunk :=
  set_config wc (maxChunks wc) (maxTime wc) m (cc_seriesType wc).

Definition set_chunks (wc : CacherChunk) (cs : list (option cacheChunkItem)) (cur : option cacheChunkItem) (seq : Z)
  : CacherChunk :=
  mkCacherChunk cs cur (curSlice wc) (maxChunks wc) (maxTime wc) (logTime wc) seq (cc_seriesType wc) (addChunkChan wc)
    (logBroadcast wc) (sliceBroadcast wc).

Definition set_log (wc : CacherChunk) (sl : gmap Z (list StatRepr)) (sent : list CacheChunkLog) : CacherChunk :=
  mkCacherChunk (chunks wc) (curChunk wc) sl (maxChunks wc) (maxTime wc) (logTime wc) (curSequenceId wc)
    (cc_seriesType wc) (addChunkChan wc) sent (sliceBroadcast wc).

Definition set_chan (wc : CacherChunk) (ch : list adderMessage) : CacherChunk :=
  mkCacherChunk (chunks wc) (curChunk wc) (curSlice wc) (maxChunks wc) (maxTime wc) (logTime wc) (curSequenceId wc)
    (cc_seriesType wc) ch (logBroadcast wc) (sliceBroadcast wc).

Definition send_slice (wc : CacherChunk) (c : CacheChunkSlice) : CacherChunk :=
  mkCacherChunk (chunks wc) (curChunk wc) (curSlice wc) (maxChunks wc) (maxTime wc) (logTime wc) (curSequenceId wc)
    (cc_seriesType wc) (addChunkChan wc) (logBroadcast wc) (sliceBroadcast wc ++ [c]).

Definition chunks_Len (wc : CacherChunk) : Z :=
  foldl (fun l c => l + chunk_Len c) (chunk_Len (curChunk wc)) (chunks wc).
Definition SliceLen (wc : CacherChunk) : Z := Z.of_nat (base.size (curSlice wc)).
Definition ChunkLen (wc : CacherChunk) : Z := chunk_Len (curChunk wc).

(** *** The log *)

Definition CurrentLogChunk (wc : CacherChunk) : CacheChunkLog := mkChunkLog (curSlice wc) (curSequenceId wc).

(** The tick of [runLogDump]: the log is sent, and then, under another
    lock, a new one is started. *)
Definition log_send (wc : CacherChunk) : CacherChunk :=
  set_log wc (curSlice wc) (logBroadcast wc ++ [CurrentLogChunk wc]).
Definition log_reset (wc : CacherChunk) : CacherChunk := set_log wc ∅ (logBroadcast wc).
Definition runLogDump_tick (wc : CacherChunk) : CacherChunk := log_reset (log_send wc).
(** At shutdown the log is sent. *)
Definition runLogDump_shutdown (wc : CacherChunk) : CacherChunk := log_send wc.

(** *** Cycling *)

Definition cycleInternalChunks (wc : CacherChunk) (now : Z) : option CacheChunkSlice * CacherChunk :=
  let seq := i64 (curSequenceId wc + 1) in
  let fresh := NewCacheChunkItem now seq (cc_seriesType wc) now in
  match curChunk wc with
  | None => (None, set_chunks wc (chunks wc) (Some fresh) seq)
  | Some cur =>
      (Some (mkChunkSlice (chunk_Copy cur) (ch_sequence cur)),
       set_chunks wc (drop 1 (chunks wc) ++ [Some cur]) (Some fresh) seq)
  end.

Definition ForceChunkWrite (wc : CacherChunk) (now : Z) : CacherChunk :=
  let '(c, wc) := cycleInternalChunks wc now in
  match c with None => wc | Some c => send_slice wc c end.

(** The tick of [cycleChunks]: an empty chunk is not sent. *)
Definition cycleChunks_tick (wc : CacherChunk) (now : Z) : CacherChunk :=
  let '(c, wc) := cycleInternalChunks wc now in
  match c with
  | None => wc
  | Some c => if chunk_Len (Some (cs_Slice c)) >? 0 then send_slice wc c else wc
  end.

Definition StartChunk (wc : CacherChunk) (sequence now : Z) : CacherChunk :=
  set_chunks wc (chunks wc) (Some (NewCacheChunkItem now sequence (cc_seriesType wc) now)) (curSequenceId wc).

(** *** Adding *)

Definition cur_or_new (wc : CacherChunk) (now : Z) : cacheChunkItem :=
  match curChunk wc with
  | Some c => c
  | None => NewCacheChunkItem now (curSequenceId wc) (cc_seriesType wc) now
  end.

Definition add_slice (sl : gmap Z (list StatRepr)) (uid : Z) (stat : StatRepr) : gmap Z (list StatRepr) :=
  <[uid := match sl !! uid with Some l => l ++ [stat] | None => [stat] end]> sl.

Definition cc_AddWithOffset (wc : CacherChunk) (name : StatName) (stat : StatRepr)
  (offset : option OffsetInSeries) (now : Z) : option (option goerror * CacherChunk) :=
  let '(uid, name) := UniqueId name in
  let wc := set_log wc (add_slice (curSlice wc) uid stat) (logBroadcast wc) in
  '(err, c) ← chunk_AddWithOffset (cur_or_new wc now) name stat offset now;
  Some (err, set_chunks wc (chunks wc) (Some c) (curSequenceId wc)).

Definition cc_Add (wc : CacherChunk) (name : StatName) (stat : StatRepr) (now : Z)
  : option (option goerror * CacherChunk) := cc_AddWithOffset wc name stat None now.

(** A full channel blocks: [None]. *)
Definition BackFill (wc : CacherChunk) (name : StatName) (stat : StatRepr) (sequence : Z) : option CacherChunk :=
  if (length (addChunkChan wc) <? 32)%nat then
    let '(uid, name) := UniqueId name in
    Some (set_chan wc (addChunkChan wc ++ [mkAdder name stat uid]))
  else None.

(** One round of the loop that takes from the channel, with the error it
    logs; an empty channel blocks. *)
Definition addStatToChunk (wc : CacherChunk) (now : Z) : option (option goerror * CacherChunk) :=
  match addChunkChan wc with
  | [] => None
  | item :: rest =>
      let wc := set_chan wc rest in
      '(err, c) ← chunk_Add (cur_or_new wc now) (am_name item) (am_stat item) now;
      Some (err, set_chunks wc (chunks wc) (Some c) (curSequenceId wc))
  end.

(** *** Reading *)

Fixpoint Get_loop (fuel : nat) (cs : list (option cacheChunkItem)) (name : StatName) (slice : list StatRepr)
  : option (list StatRepr) :=
  match cs with
  | [] => Some slice
  | chunk :: cs =>
      '(repers, err) ← chunk_Get fuel chunk name;
      match repers, err with
      | Some l, None => Get_loop fuel cs name (slice ++ l)
      | _, _ => Get_loop fuel cs name slice
      end
  end.

Definition cc_Get (fuel : nat) (wc : CacherChunk) (name : StatName) : option (list StatRepr) :=
  slice ← Get_loop fuel (chunks wc) name [];
  '(repers, _) ← chunk_Get fuel (curChunk wc) name;
  Some (slice ++ default [] repers).

(** A nil current chunk is a panic. *)
Definition cc_Exists (wc : CacherChunk) (name : StatName) : option bool :=
  c ← curChunk wc; Some (bool_decide (is_Some (ch_ts c !! (UniqueId name).1))).

Definition cc_CacheList (wc : CacherChunk) (keys : list Z) : list StatName :=
  match curChunk wc with
  | None => []
  | Some c => omap (fun k => ci_Name <$> ch_ts c !! k) keys
  end.

Definition merge_raw (rawd mets : option RawRenderItem) : option RawRenderItem :=
  match mets, rawd with
  | None, _ => rawd
  | Some m, None => Some m
  | Some m, Some r => Some (item_Merge r m)
  end.

Fixpoint Raw_loop (fuel : nat) (cache : C) (cs : list (option cacheChunkItem)) (name : StatName)
  (rawd : option RawRenderItem) (now : Z) : option (option RawRenderItem * C) :=
  match cs with
  | [] => Some (rawd, cache)
  | chunk :: cs =>
      '(mets, _, cache) ← chunk_GetAsRawRenderItem fuel cache chunk name now;
      Raw_loop fuel cache cs name (merge_raw rawd mets) now
  end.

Definition cc_GetAsRawRenderItem (fuel : nat) (cache : C) (wc : CacherChunk) (name : StatName) (now : Z)
  : option (option RawRenderItem * C) :=
  match curChunk wc with
  | None => Some (None, cache)
  | Some _ =>
      '(rawd, cache) ← Raw_loop fuel cache (chunks wc) name None now;
      '(mets, _, cache) ← chunk_GetAsRawRenderItem fuel cache (curChunk wc) name now;
      Some (merge_raw rawd mets, cache)
  end.

(** The first name that is found is kept. *)
Definition first_name (name tname : option StatName) : option StatName :=
  match name with Some _ => name | None => tname end.

Fixpoint ById_loop (fuel : nat) (cs : list (option cacheChunkItem)) (metric_id : Z) (name : option StatName)
  (slice : list StatRepr) : option (option StatName * list StatRepr) :=
  match cs with
  | [] => Some (name, slice)
  | chunk :: cs =>
      '(tname, repers, err) ← chunk_GetById fuel chunk metric_id;
      match repers, err with
      | None, _ => ById_loop fuel cs metric_id name slice
      | Some _, Some _ => ById_loop fuel cs metric_id (first_name name tname) slice
      | Some l, None => ById_loop fuel cs metric_id (first_name name tname) (slice ++ l)
      end
  end.

Definition cc_GetById (fuel : nat) (wc : CacherChunk) (metric_id : Z)
  : option (option StatName * list StatRepr * option goerror) :=
  '(name, slice) ← ById_loop fuel (chunks wc) metric_id None [];
  '(tname, repers, err) ← chunk_GetById fuel (curChunk wc) metric_id;
  Some (first_name name tname, slice ++ default [] repers, err).

(** The series of the chunks and of the current one, oldest first. *)
Definition cc_GetSeriesById (wc : CacherChunk) (metricId : Z) : option StatName * list S :=
  let found := omap (fun c => chunk_GetSeriesById c metricId) (chunks wc ++ [curChunk wc]) in
  (fst <$> head found, map snd found).

Definition cc_GetSeries (wc : CacherChunk) (name : StatName) : option StatName * list S :=
  let found := omap (fun c => chunk_GetSeries c name) (chunks wc ++ [curChunk wc]) in
  (fst <$> head found, map snd found).

Definition cc_GetCurrentSeriesById (wc : CacherChunk) (metric_id : Z) : option (StatName * S) :=
  chunk_GetSeriesById (curChunk wc) metric_id.

Definition cc_GetCurrentSeries (wc : CacherChunk) (name : StatName) : option (StatName * S) :=
  chunk_GetSeries (curChunk wc) name.

End chunk.
