(* ===== verification/ChunkCacheTheorems.v ===== *)
(** The chunked write cache loses nothing: every accepted point is in the
    current chunk or in exactly one of the chunks that were cycled out, in
    order; every point that was offered is in the current log or in exactly
    one of the logs that were sent; and a read shows the last six chunks
    and the current one. *)
From S2P Require Import Prelude Bits BitStream Float64 GoStrings GoSort Gorilla GorillaIter GorillaProofs.
From S2P Require Import Tags Repr ReprTheorems LRU LRUTheorems Aggs Series RawData Resample WriteCache WriteCacheTheorems.
From S2P Require Import PipelineTheorems Wire WireTheorems ProtoSeries ProtoSeriesTheorems ProtoPipeline ChunkCache.
From Stdlib Require Import Sorted.

Open Scope Z_scope.

Lemma Forall_kept {A} (P Q : A -> Prop) `{!forall x, Decision (Q x)} (l : list A) :
  Forall P l -> Forall P (filter Q l).
Proof. rewrite !Forall_forall. intros HP x [_ Hx]%list_elem_of_filter. by apply HP. Qed.

Section conservation.
Context `{!GoSort}.
Variable farm_Hash64 : list Z -> Z.
Context {S I : Type} {TS : TimeSeries S I}.
Variable New : string -> Z -> option (S + goerror).
Variable type : string.
Context {L : SeriesLaws New type}.

Abbreviation chunk_item := (cacheChunkItem (S:=S)).
Abbreviation cacher := (CacherChunk (S:=S)).
Abbreviation id_of n := ((UniqueId farm_Hash64 n).1).

(** ** One chunk *)

(** The chunk holds the statistics [cur k] of every metric [k]. *)
Record chunk_holds (c : chunk_item) (cur : Z -> list StatRepr) : Prop := {
  hold_type : ch_seriesType c = type;
  hold_some : forall k it, ch_ts c !! k = Some it -> contents (ci_Series it) (cur k);
  hold_none : forall k, ch_ts c !! k = None -> cur k = []
}.

(** The account of one metric, extended. *)
Definition put (cur : Z -> list StatRepr) (k : Z) (stat : StatRepr) : Z -> list StatRepr :=
  fun j => if j =? k then cur k ++ [stat] else cur j.

Lemma chunk_holds_new (timeW seq now : Z) : chunk_holds (NewCacheChunkItem timeW seq type now) (fun _ => []).
Proof. split; [done| |done]. intros k it Hk. cbn in Hk. by rewrite lookup_empty in Hk. Qed.

(** An item with the statistics so far and one more. *)
Lemma chunk_holds_put (c : chunk_item) (cur : Z -> list StatRepr) (k : Z) (it : CacheItem) (stat : StatRepr) (n : Z) :
  chunk_holds c cur -> contents (ci_Series it) (cur k ++ [stat]) ->
  chunk_holds (chunk_set c (<[k := it]> (ch_ts c)) n) (put cur k stat).
Proof.
  intros [Ht Hs Hn] Hc. split; [done| |]; cbn; unfold put.
  - intros j it' [[<- <-]|[Hne Hj]]%lookup_insert_Some; [by rewrite Z.eqb_refl|].
    rewrite (proj2 (Z.eqb_neq j k)) by congruence. by apply Hs.
  - intros j [Hj Hne]%lookup_insert_None. rewrite (proj2 (Z.eqb_neq j k)) by congruence. by apply Hn.
Qed.

(** An item whose series is unchanged. *)
Lemma chunk_holds_same (c : chunk_item) (cur : Z -> list StatRepr) (k : Z) (it it' : CacheItem) (n : Z) :
  chunk_holds c cur -> ch_ts c !! k = Some it -> ci_Series it' = ci_Series it ->
  chunk_holds (chunk_set c (<[k := it']> (ch_ts c)) n) cur.
Proof.
  intros [Ht Hs Hn] Hk E. split; [done| |]; cbn.
  - intros j it2 [[<- <-]|[Hne Hj]]%lookup_insert_Some; [|by apply Hs]. rewrite E. by apply Hs.
  - intros j [Hj Hne]%lookup_insert_None. by apply Hn.
Qed.

Lemma chunk_add (c : chunk_item) (cur : Z -> list StatRepr) (name : StatName) (stat : StatRepr)
    (offset : option OffsetInSeries) (now : Z) :
  chunk_holds c cur -> stat_ok stat ->
  exists err c', chunk_AddWithOffset farm_Hash64 New c name stat offset now = Some (err, c') /\
    ch_sequence c' = ch_sequence c /\
    match err with Some _ => chunk_holds c' cur | None => chunk_holds c' (put cur (id_of name) stat) end.
Proof.
  intros Hh Hok. unfold chunk_AddWithOffset. destruct (Time stat =? 0); [by eexists _, _|].
  destruct (UniqueId farm_Hash64 name) as [uid name'] eqn:Eu. cbn [fst].
  destruct (ch_ts c !! uid) as [gots|] eqn:Ek.
  - destruct (laws_add (ci_Series gots) (cur uid) stat) as (e & s' & E & Hs'); [by apply (hold_some _ _ Hh)|done|].
    rewrite E. cbn [mbind option_bind]. destruct e as [e|]; eexists _, _; (split; [done|]; split; [done|]).
    + by eapply chunk_holds_same.
    + by apply chunk_holds_put.
  - rewrite (hold_type _ _ Hh). destruct (laws_new stat Hok) as [(e & ->)|(tp & e & tp' & -> & E & Hc)];
      cbn [mbind option_bind]; [by eexists _, _|].
    rewrite E. cbn [mbind option_bind]. destruct e as [e|]; eexists _, _; (split; [done|]; split; [done|]); [done|].
    apply chunk_holds_put; [done|]. rewrite (hold_none _ _ Hh uid Ek). by apply Hc.
Qed.

(** ** Runs *)

Inductive cop :=
| CAdd (name : StatName) (stat : StatRepr) (offset : option OffsetInSeries) (now : Z)
| CLog
| CCycle (now : Z)
| CForce (now : Z)
| CBack (name : StatName) (stat : StatRepr) (sequence : Z)
| CTake (now : Z).

Definition cop_ok (o : cop) : Prop :=
  match o with CAdd name stat _ _ | CBack name stat _ => 0 < id_of name /\ stat_ok stat | _ => True end.

(** The cache, the chunks cycled out so far, the points offered and the
    points accepted. *)
Record run_state := mkRun {
  r_wc : cacher;
  r_cycled : list chunk_item;
  r_offered : list (Z * StatRepr);
  r_accepted : list (Z * StatRepr)
}.

Definition accept_if (err : option goerror) (x : Z * StatRepr) (acc : list (Z * StatRepr)) : list (Z * StatRepr) :=
  match err with None => acc ++ [x] | Some _ => acc end.

Definition cycled_out (wc : cacher) (cyc : list chunk_item) : list chunk_item :=
  match curChunk wc with Some c => cyc ++ [c] | None => cyc end.

(** A sender or a receiver that has to wait leaves the state as it is. *)
Definition cexec (st : run_state) (o : cop) : option run_state :=
  let '(mkRun wc cyc off acc) := st in
  match o with
  | CAdd name stat offset now =>
      '(err, wc) ← cc_AddWithOffset farm_Hash64 New wc name stat offset now;
      Some (mkRun wc cyc (off ++ [(id_of name, stat)]) (accept_if err (id_of name, stat) acc))
  | CLog => Some (mkRun (runLogDump_tick wc) cyc off acc)
  | CCycle now => Some (mkRun (cycleChunks_tick wc now) (cycled_out wc cyc) off acc)
  | CForce now => Some (mkRun (ForceChunkWrite wc now) (cycled_out wc cyc) off acc)
  | CBack name stat seq =>
      match BackFill farm_Hash64 wc name stat seq with
      | None => Some st
      | Some wc => Some (mkRun wc cyc off acc)
      end
  | CTake now =>
      match addChunkChan wc with
      | [] => Some st
      | item :: _ =>
          '(err, wc) ← addStatToChunk farm_Hash64 New wc now;
          Some (mkRun wc cyc off (accept_if err (am_uid item, am_stat item) acc))
      end
  end.

Fixpoint cexec_all (st : run_state) (os : list cop) : option run_state :=
  match os with
  | [] => Some st
  | o :: os => st ← cexec st o; cexec_all st os
  end.

Definition start : run_state := mkRun (set_config NewCacherChunk 6 600 10 type) [] [] [].

(** ** The books *)

Definition cur_holds (wc : cacher) (cur : Z -> list StatRepr) : Prop :=
  match curChunk wc with
  | Some c => chunk_holds c cur /\ ch_sequence c = curSequenceId wc
  | None => forall k, cur k = []
  end.

(** The logs sent, for metric [k]. *)
Definition logged (k : Z) (logs : list CacheChunkLog) : list StatRepr :=
  logs ≫= (fun l => default [] (cl_Slice l !! k)).

Definition busy (c : chunk_item) : bool := chunk_Len (Some c) >? 0.

Record books (n : Z) (st : run_state) (held : list (Z -> list StatRepr)) (cur : Z -> list StatRepr) : Prop := {
  b_type : cc_seriesType (r_wc st) = type;
  b_held : Forall2 chunk_holds (r_cycled st) held;
  b_cur : cur_holds (r_wc st) cur;
  b_sum : forall k, concat (map (fun h => h k) held) ++ cur k = of_key k (r_accepted st);
  b_log : forall k, logged k (logBroadcast (r_wc st)) ++ default [] (curSlice (r_wc st) !! k) =
                    of_key k (r_offered st);
  b_ring : chunks (r_wc st) = drop (length (r_cycled st)) (replicate CACHE_LOG_CHUNKS None ++ map Some (r_cycled st));
  b_seq : 0 <= curSequenceId (r_wc st) <= n;
  b_order : StronglySorted Z.lt (map ch_sequence (r_cycled st) ++ [curSequenceId (r_wc st)]);
  b_sent : map cs_Slice (filter (fun x => busy (cs_Slice x)) (sliceBroadcast (r_wc st))) =
           filter (fun c => busy c) (r_cycled st);
  b_ids : Forall (fun x => cs_SequenceId x = ch_sequence (cs_Slice x)) (sliceBroadcast (r_wc st));
  b_chan : Forall (fun m => 0 < am_uid m /\ id_of (am_name m) = am_uid m /\ stat_ok (am_stat m))
             (addChunkChan (r_wc st))
}.

(** Adding to the current chunk, or to the new one. *)
Lemma cur_add (wc : cacher) (cur : Z -> list StatRepr) (name : StatName) (stat : StatRepr)
    (offset : option OffsetInSeries) (now : Z) :
  cc_seriesType wc = type -> cur_holds wc cur -> stat_ok stat ->
  exists err c', chunk_AddWithOffset farm_Hash64 New (cur_or_new wc now) name stat offset now = Some (err, c') /\
    ch_sequence c' = curSequenceId wc /\
    match err with Some _ => chunk_holds c' cur | None => chunk_holds c' (put cur (id_of name) stat) end.
Proof.
  intros Ht Hc Hok. unfold cur_holds, cur_or_new in *. rewrite Ht. destruct (curChunk wc) as [c|].
  - destruct Hc as [Hc <-]. by apply chunk_add.
  - destruct (chunk_add (NewCacheChunkItem now (curSequenceId wc) type now) cur name stat offset now)
      as (err & c' & E & Hs & Hh); [|done|by exists err, c'].
    destruct (chunk_holds_new now (curSequenceId wc) now) as [H1 H2 H3]. split; [done| |done].
    intros k it Hk. rewrite Hc. exact (H2 k it Hk).
Qed.

Lemma put_sum (held : list (Z -> list StatRepr)) (cur : Z -> list StatRepr) (acc : list (Z * StatRepr)) (uid : Z)
    (stat : StatRepr) :
  (forall k, concat (map (fun h => h k) held) ++ cur k = of_key k acc) ->
  forall k, concat (map (fun h => h k) held) ++ put cur uid stat k = of_key k (acc ++ [(uid, stat)]).
Proof.
  intros Hs k. rewrite of_key_snoc. cbn [fst snd]. rewrite <- Hs, <- app_assoc. f_equal. unfold put.
  rewrite (Z.eqb_sym uid k). destruct (k =? uid) eqn:E; bool_to_prop; [by subst|by rewrite app_nil_r].
Qed.

Lemma add_slice_lookup (sl : gmap Z (list StatRepr)) (uid k : Z) (stat : StatRepr) :
  default [] (add_slice sl uid stat !! k) = default [] (sl !! k) ++ (if uid =? k then [stat] else []).
Proof.
  unfold add_slice. destruct (decide (uid = k)) as [->|Hne].
  - rewrite lookup_insert_eq, Z.eqb_refl. by destruct (sl !! k).
  - rewrite lookup_insert_ne, (proj2 (Z.eqb_neq uid k)), app_nil_r by done. done.
Qed.

Lemma add_slice_log (logs : list CacheChunkLog) (sl : gmap Z (list StatRepr)) (off : list (Z * StatRepr)) (uid : Z)
    (stat : StatRepr) :
  (forall k, logged k logs ++ default [] (sl !! k) = of_key k off) ->
  forall k, logged k logs ++ default [] (add_slice sl uid stat !! k) = of_key k (off ++ [(uid, stat)]).
Proof.
  intros Hs k. rewrite add_slice_lookup, app_assoc, Hs, of_key_snoc. done.
Qed.

Lemma books_add (n : Z) (st : run_state) held cur name stat offset now :
  books n st held cur -> 0 < id_of name -> stat_ok stat ->
  exists st' held' cur', cexec st (CAdd name stat offset now) = Some st' /\ books n st' held' cur'.
Proof.
  intros Hb Hid Hok. destruct st as [wc cyc off acc]. destruct Hb. cbn [r_wc r_cycled r_offered r_accepted] in *.
  cbn [cexec]. unfold cc_AddWithOffset. destruct (UniqueId farm_Hash64 name) as [uid name'] eqn:Eu.
  pose proof (id_of_cached farm_Hash64 name) as Hc. rewrite ?Eu in Hc. rewrite ?Eu in Hid. cbn [fst snd] in *. specialize (Hc Hid).
  set (wc1 := set_log wc _ _).
  destruct (cur_add wc1 cur name' stat offset now) as (err & c' & -> & Hs & Hh); [done|done|done|].
  cbn [mbind option_bind fst]. rewrite Hc in Hh.
  exists (mkRun (set_chunks wc1 (chunks wc1) (Some c') (curSequenceId wc1)) cyc (off ++ [(uid, stat)])
            (accept_if err (uid, stat) acc)), held, (match err with None => put cur uid stat | Some _ => cur end).
  split; [done|]. split; cbn [r_wc r_cycled r_offered r_accepted]; try done.
  - by destruct err.
  - destruct err; [done|]. by apply put_sum.
  - by apply add_slice_log.
Qed.

Lemma books_log (n : Z) (st : run_state) held cur :
  books n st held cur -> exists st', cexec st CLog = Some st' /\ books n st' held cur.
Proof.
  intros Hb. destruct st as [wc cyc off acc]. destruct Hb. cbn [r_wc r_cycled r_offered r_accepted] in *.
  eexists. split; [done|]. split; cbn [r_wc r_cycled r_offered r_accepted]; try done.
  intros k. rewrite <- b_log0. unfold logged. cbn. rewrite bind_app, lookup_empty. cbn. by rewrite !app_nil_r.
Qed.

(** The ring of the last six chunks. *)
Lemma ring_push {A} (l : list (option A)) (cyc : list A) (c : A) :
  (length l > 0)%nat ->
  drop 1 (drop (length cyc) (l ++ map Some cyc)) ++ [Some c] =
  drop (length (cyc ++ [c])) (l ++ map Some (cyc ++ [c])).
Proof.
  intros Hl. rewrite drop_drop, length_app, map_app, (app_assoc l). cbn [length map].
  rewrite (drop_app_le (l ++ map Some cyc)); [done|]. rewrite length_app, length_map. lia.
Qed.

Lemma order_push (l : list Z) (s : Z) :
  StronglySorted Z.lt (l ++ [s]) -> StronglySorted Z.lt ((l ++ [s]) ++ [s + 1]).
Proof.
  intros Hs. induction l as [|a l IH]; cbn in *.
  - repeat constructor. lia.
  - inversion Hs as [|? ? Hs' Hf]; subst. constructor; [by apply IH|]. apply Forall_app in Hf as [Hf Ha].
    rewrite !Forall_app. split; [done|]. inversion Ha. constructor; [lia|constructor].
Qed.

Lemma order_bump (l : list Z) (s : Z) :
  StronglySorted Z.lt (l ++ [s]) -> StronglySorted Z.lt (l ++ [s + 1]).
Proof.
  intros Hs. induction l as [|a l IH]; cbn in *; [repeat constructor|].
  inversion Hs as [|? ? Hs' Hf]; subst. constructor; [by apply IH|]. apply Forall_app in Hf as [Hf Ha].
  rewrite Forall_app. split; [done|]. inversion Ha. constructor; [lia|constructor].
Qed.

(** A cycle, before the chunk is sent. *)
Lemma books_cycle (n : Z) (st : run_state) held cur now :
  books n st held cur -> n + 1 < 2 ^ 63 ->
  exists held',
    match cycleInternalChunks (r_wc st) now with
    | (None, wc') => r_cycled st = cycled_out (r_wc st) (r_cycled st) /\
        books (n + 1) (mkRun wc' (r_cycled st) (r_offered st) (r_accepted st)) held' (fun _ => [])
    | (Some c, wc') =>
        cycled_out (r_wc st) (r_cycled st) = r_cycled st ++ [cs_Slice c] /\ cs_SequenceId c = ch_sequence (cs_Slice c) /\
        forall wc2, wc2 = send_slice wc' c \/ wc2 = wc' /\ busy (cs_Slice c) = false ->
        books (n + 1) (mkRun wc2 (r_cycled st ++ [cs_Slice c]) (r_offered st) (r_accepted st)) held' (fun _ => [])
    end.
Proof.
  intros Hb Hn. destruct st as [wc cyc off acc]. destruct Hb. unfold cycleInternalChunks, cycled_out, cur_holds in *.
  cbn [r_wc r_cycled r_offered r_accepted] in *.
  assert (Hi : i64 (curSequenceId wc + 1) = curSequenceId wc + 1) by (apply swrap_id; lia).
  rewrite Hi. destruct (curChunk wc) as [c|].
  - destruct b_cur0 as [Hh Hseq]. exists (held ++ [cur]). destruct c as [cts cty cseq cst ctw cwr cct].
    unfold chunk_Copy. cbn [ch_ts ch_seriesType ch_sequence ch_started ch_timeWindow ch_written ch_curCount] in *.
    split; [done|]. split; [done|]. intros wc2 Hw.
    assert (E : cc_seriesType wc2 = type /\ curChunk wc2 =
        Some (NewCacheChunkItem now (curSequenceId wc + 1) (cc_seriesType wc) now) /\
        logBroadcast wc2 = logBroadcast wc /\ curSlice wc2 = curSlice wc /\
        chunks wc2 = drop 1 (chunks wc) ++ [Some (mkChunk cts cty cseq cst ctw cwr cct)] /\
        curSequenceId wc2 = curSequenceId wc + 1 /\ addChunkChan wc2 = addChunkChan wc).
    { by destruct Hw as [->|[-> _]]. }
    destruct E as (E1 & E2 & E3 & E4 & E5 & E6 & E7).
    split; cbn [r_wc r_cycled r_offered r_accepted cs_Slice]; rewrite ?E1, ?E3, ?E4, ?E5, ?E6, ?E7; try done.
    + apply Forall2_app; [done|]. by constructor.
    + unfold cur_holds. rewrite E2, E6, b_type0. split; [apply chunk_holds_new|done].
    + intros k. rewrite map_app, concat_app. cbn. by rewrite !app_nil_r.
    + rewrite b_ring0. apply ring_push. cbn. lia.
    + lia.
    + rewrite map_app. cbn [map ch_sequence]. rewrite Hseq. by apply order_push.
    + rewrite filter_app, <- b_sent0. destruct Hw as [->|[-> Hbusy]].
      * cbn [sliceBroadcast send_slice set_chunks]. rewrite filter_app, map_app. f_equal.
        rewrite !filter_cons, !filter_nil. cbn [cs_Slice]. by case_decide.
      * rewrite (filter_cons_False _ _ []), filter_nil, app_nil_r; [done|]. intros Hx. cbn [cs_Slice] in Hbusy. by rewrite Hbusy in Hx.
    + destruct Hw as [->|[-> _]]; [|done]. cbn. apply Forall_app. split; [done|]. by constructor.
  - exists held. split; [done|]. split; cbn [r_wc r_cycled r_offered r_accepted]; try done.
    + intros k. rewrite <- b_sum0, b_cur0. done.
    + cbn. lia.
    + by apply order_bump.
Qed.

Lemma books_tick (n : Z) (st : run_state) held cur now (force : bool) :
  books n st held cur -> n + 1 < 2 ^ 63 ->
  exists st' held', cexec st (if force then CForce now else CCycle now) = Some st' /\
    books (n + 1) st' held' (fun _ => []).
Proof.
  intros Hb Hn. destruct (books_cycle n st held cur now Hb Hn) as (held' & Hnew). destruct st as [wc cyc off acc].
  cbn [r_wc r_cycled r_offered r_accepted] in Hnew.
  destruct force; cbn [cexec]; unfold ForceChunkWrite, cycleChunks_tick;
    destruct (cycleInternalChunks wc now) as [[c|] wc']; eexists _, held'; (split; [done|]).
  - destruct Hnew as (-> & _ & Hnew). apply Hnew. by left.
  - destruct Hnew as (<- & Hnew). exact Hnew.
  - destruct Hnew as (-> & _ & Hnew). destruct (_ >? 0) eqn:E; apply Hnew; [by left|by right].
  - destruct Hnew as (<- & Hnew). exact Hnew.
Qed.

Lemma books_back (n : Z) (st : run_state) held cur name stat seq :
  books n st held cur -> 0 < id_of name -> stat_ok stat ->
  exists st', cexec st (CBack name stat seq) = Some st' /\ books n st' held cur.
Proof.
  intros Hb Hid Hok. pose proof Hb as Hb'. destruct st as [wc cyc off acc]. destruct Hb'.
  cbn [r_wc r_cycled r_offered r_accepted] in *. cbn [cexec]. unfold BackFill.
  case_if; [|by eexists]. pose proof (id_of_cached farm_Hash64 name Hid) as Hc.
  destruct (UniqueId farm_Hash64 name) as [uid name'] eqn:Eu. cbn [fst snd] in *.
  eexists. split; [done|]. split; cbn [r_wc r_cycled r_offered r_accepted]; try done.
  cbn. apply Forall_app. split; [done|]. constructor; [|constructor]. done.
Qed.

Lemma books_take (n : Z) (st : run_state) held cur now :
  books n st held cur -> exists st' cur', cexec st (CTake now) = Some st' /\ books n st' held cur'.
Proof.
  intros Hb. pose proof Hb as Hb'. destruct st as [wc cyc off acc]. destruct Hb'.
  cbn [r_wc r_cycled r_offered r_accepted] in *. cbn [cexec]. unfold addStatToChunk.
  destruct (addChunkChan wc) as [|item rest] eqn:Ech; [by eexists _, _|].
  apply Forall_cons in b_chan0 as [(Hpos & Hid & Hok) Hrest].
  set (wc1 := set_chan wc rest). unfold chunk_Add.
  destruct (cur_add wc1 cur (am_name item) (am_stat item) None now) as (err & c' & -> & Hs & Hh); [done|done|done|].
  cbn [mbind option_bind]. rewrite Hid in Hh.
  eexists _, (match err with None => put cur (am_uid item) (am_stat item) | Some _ => cur end).
  split; [done|]. split; cbn [r_wc r_cycled r_offered r_accepted]; try done.
  - by destruct err.
  - destruct err; [done|]. by apply put_sum.
Qed.

Lemma books_mono (n m : Z) (st : run_state) held cur : books n st held cur -> n <= m -> books m st held cur.
Proof. intros []; split; try done. lia. Qed.

Lemma books_step (n : Z) (st : run_state) held cur (o : cop) :
  books n st held cur -> cop_ok o -> n + 1 < 2 ^ 63 ->
  exists st' held' cur', cexec st o = Some st' /\ books (n + 1) st' held' cur'.
Proof.
  intros Hb Ho Hn. destruct o as [name stat offset now| |now|now|name stat seq|now].
  - destruct Ho. destruct (books_add n st held cur name stat offset now) as (st' & h & c & E & Hnew); [done..|].
    exists st', h, c. split; [done|]. eapply books_mono; [done|lia].
  - destruct (books_log n st held cur Hb) as (st' & E & Hnew). exists st', held, cur. split; [done|].
    eapply books_mono; [done|lia].
  - destruct (books_tick n st held cur now false Hb Hn) as (st' & h & E & Hnew). by exists st', h, (fun _ => []).
  - destruct (books_tick n st held cur now true Hb Hn) as (st' & h & E & Hnew). by exists st', h, (fun _ => []).
  - destruct Ho. destruct (books_back n st held cur name stat seq) as (st' & E & Hnew); [done..|].
    exists st', held, cur. split; [done|]. eapply books_mono; [done|lia].
  - destruct (books_take n st held cur now Hb) as (st' & c & E & Hnew). exists st', held, c. split; [done|].
    eapply books_mono; [done|lia].
Qed.

Lemma books_start : books 0 start [] (fun _ => []).
Proof.
  split; cbn; try done; try (by constructor); try lia.
  - repeat constructor.
Qed.

Lemma books_run (os : list cop) (n : Z) (st : run_state) held cur :
  books n st held cur -> Forall cop_ok os -> n + Z.of_nat (length os) < 2 ^ 63 ->
  exists st' held' cur', cexec_all st os = Some st' /\ books (n + Z.of_nat (length os)) st' held' cur'.
Proof.
  revert n st held cur. induction os as [|o os IH]; intros n st held cur Hb Hos Hn; cbn [length] in *.
  - exists st, held, cur. split; [done|]. eapply books_mono; [done|lia].
  - apply Forall_cons in Hos as [Ho Hos]. destruct (books_step n st held cur o) as (st1 & h1 & c1 & E & H1); [done|done|lia|].
    cbn [cexec_all]. rewrite E. cbn [mbind option_bind].
    destruct (IH (n + 1) st1 h1 c1 H1 Hos) as (st2 & h2 & c2 & E2 & H2); [lia|]. exists st2, h2, c2. split; [done|].
    eapply books_mono; [done|lia].
Qed.

Lemma run_books (os : list cop) :
  Forall cop_ok os -> Z.of_nat (length os) < 2 ^ 63 ->
  exists st held cur, cexec_all start os = Some st /\ books (Z.of_nat (length os)) st held cur.
Proof. intros Hos Hn. exact (books_run os 0 start [] (fun _ => []) books_start Hos Hn). Qed.

Lemma sorted_app_l (l k : list Z) : StronglySorted Z.lt (l ++ k) -> StronglySorted Z.lt l.
Proof.
  induction l as [|a l IH]; intros Hs; [constructor|]. inversion Hs as [|? ? Hs' Hf]; subst.
  apply Forall_app in Hf as [Hf _]. constructor; [by apply IH|done].
Qed.

Lemma sorted_filter (l : list chunk_item) :
  StronglySorted Z.lt (map ch_sequence l) -> StronglySorted Z.lt (map ch_sequence (filter (fun c => busy c) l)).
Proof.
  induction l as [|c l IH]; intros Hs; [constructor|]. inversion Hs as [|? ? Hs' Hf]; subst.
  rewrite filter_cons. case_decide; [|by apply IH]. constructor; [by apply IH|].
  change (Forall (Z.lt (ch_sequence c)) (map ch_sequence (filter (fun c => busy c) l))).
  rewrite Forall_map in Hf |- *. by apply Forall_kept.
Qed.

(** The chunks that are nil have no series. *)
Lemma ring_series (cyc : list chunk_item) (k : Z) :
  omap (fun c => chunk_GetSeriesById c k) (drop (length cyc) (replicate CACHE_LOG_CHUNKS None ++ map Some cyc)) =
  omap (fun c => chunk_GetSeriesById (Some c) k) (drop (length cyc - CACHE_LOG_CHUNKS) cyc).
Proof.
  rewrite drop_app, length_replicate, omap_app.
  assert (E : forall n, omap (fun c => chunk_GetSeriesById c k) (drop (length cyc) (replicate n (@None chunk_item))) = []).
  { intros n. rewrite drop_replicate. generalize (n - length cyc)%nat. clear. intros m. by induction m. }
  rewrite E. cbn [app]. change (map Some cyc) with (Some <$> cyc). rewrite <- fmap_drop.
  generalize (drop (length cyc - CACHE_LOG_CHUNKS) cyc). clear. intros l. induction l as [|c l IH]; [done|].
  cbn [fmap list_fmap omap list_omap]. by rewrite IH.
Qed.

Lemma series_of_chunk (c : chunk_item) (h : Z -> list StatRepr) (k : Z) :
  chunk_holds c h ->
  match chunk_GetSeriesById (Some c) k with
  | Some x => contents x.2 (h k)
  | None => h k = []
  end.
Proof.
  intros [Ht Hs Hn]. cbn. destruct (ch_ts c !! k) as [it|] eqn:Ek; cbn; [by apply Hs|by apply Hn].
Qed.

Lemma series_of_chunks (cs : list chunk_item) (hs : list (Z -> list StatRepr)) (k : Z) :
  Forall2 chunk_holds cs hs ->
  exists ls, Forall2 contents (map snd (omap (fun c => chunk_GetSeriesById (Some c) k) cs)) ls /\
    concat ls = concat (map (fun h => h k) hs).
Proof.
  induction 1 as [|c h cs hs Hc _ IH]; [by exists []|]. destruct IH as (ls & Hls & E).
  pose proof (series_of_chunk c h k Hc) as Hk. cbn [omap list_omap map concat].
  destruct (chunk_GetSeriesById (Some c) k) as [x|].
  - exists (h k :: ls). cbn [map concat]. split; [by constructor|]. by rewrite E.
  - exists ls. by rewrite Hk.
Qed.

Lemma series_of_cur (wc : cacher) (cur : Z -> list StatRepr) (k : Z) :
  cur_holds wc cur ->
  exists ls, Forall2 contents (map snd (omap (fun c => chunk_GetSeriesById c k) [curChunk wc])) ls /\ concat ls = cur k.
Proof.
  unfold cur_holds. destruct (curChunk wc) as [c|]; intros Hc.
  - destruct (series_of_chunks [c] [cur] k) as (ls & Hls & E); [by constructor; [apply Hc|]|].
    exists ls. split; [done|]. rewrite E. cbn. apply app_nil_r.
  - exists []. by rewrite Hc.
Qed.

(** ** Properties *)

(** C9: The chunked cache loses no point.  Run any additions, back-fills
    and their receipt, log dumps, cycles and forced writes on a new cache.
    Nothing panics; for every metric the points of the chunks that were
    cycled out, oldest first, followed by those of the current chunk, are
    exactly the points that were accepted, in order.  Every chunk with a
    point in it was sent to the writers, once, in the order of the cycles,
    and the sequence ids of what was sent increase. *)
Theorem chunk_cache_conserves (os : list cop) :
  Forall cop_ok os -> Z.of_nat (length os) < 2 ^ 63 ->
  exists st held cur, cexec_all start os = Some st /\
    Forall2 chunk_holds (r_cycled st) held /\ cur_holds (r_wc st) cur /\
    (forall k, concat (map (fun h => h k) held) ++ cur k = of_key k (r_accepted st)) /\
    let sent := filter (fun x => busy (cs_Slice x)) (sliceBroadcast (r_wc st)) in
    map cs_Slice sent = filter (fun c => busy c) (r_cycled st) /\ StronglySorted Z.lt (map cs_SequenceId sent).
Proof.
  intros Hos Hn. destruct (run_books os Hos Hn) as (st & held & cur & E & []).
  exists st, held, cur. split_and!; [done..|]. cbv zeta.
  assert (Em : map cs_SequenceId (filter (fun x => busy (cs_Slice x)) (sliceBroadcast (r_wc st))) =
               map ch_sequence (filter (fun c => busy c) (r_cycled st))).
  { rewrite <- b_sent0, map_map. apply map_ext_Forall. apply Forall_kept. done. }
  split; [done|]. rewrite Em. apply sorted_filter. apply (sorted_app_l _ _ b_order0).
Qed.

(** The log covers every point.  After any such run, the logs that
    were sent, in order, and the current log hold for every metric exactly
    the points that were offered to the cache, in order, whether the
    chunk took them or not. *)
Theorem chunk_log_covers (os : list cop) :
  Forall cop_ok os -> Z.of_nat (length os) < 2 ^ 63 ->
  exists st, cexec_all start os = Some st /\
    forall k, logged k (logBroadcast (r_wc st)) ++ default [] (curSlice (r_wc st) !! k) = of_key k (r_offered st).
Proof. intros Hos Hn. destruct (run_books os Hos Hn) as (st & held & cur & E & []). by exists st. Qed.

(** A read shows the recent points.  After any such run, the series
    the cache returns for a metric are, oldest first, those of the last six
    chunks that were cycled out and of the current chunk: the accepted
    points are the ones of older chunks, followed by the contents of the
    series that are returned.  Up to the sixth cycle nothing is left out. *)
Theorem chunk_reads_recent (os : list cop) (k : Z) :
  Forall cop_ok os -> Z.of_nat (length os) < 2 ^ 63 ->
  exists st old ls, cexec_all start os = Some st /\
    Forall2 contents (cc_GetSeriesById (r_wc st) k).2 ls /\
    of_key k (r_accepted st) = old ++ concat ls /\
    ((length (r_cycled st) <= CACHE_LOG_CHUNKS)%nat -> old = []).
Proof.
  intros Hos Hn. destruct (run_books os Hos Hn) as (st & held & cur & E & []).
  set (m := (length (r_cycled st) - CACHE_LOG_CHUNKS)%nat).
  destruct (series_of_chunks (drop m (r_cycled st)) (drop m held) k) as (ls & Hls & Hcat).
  { by apply Forall2_drop. }
  destruct (series_of_cur (r_wc st) cur k b_cur0) as (lc & Hlc & Hcc).
  exists st, (concat (map (fun h => h k) (take m held))), (ls ++ lc). split; [done|]. split_and!.
  - unfold cc_GetSeriesById. cbn [snd]. rewrite b_ring0, omap_app, ring_series, map_app. by apply Forall2_app.
  - rewrite <- b_sum0, concat_app, Hcat, Hcc, app_assoc. f_equal.
    by rewrite <- concat_app, <- map_app, take_drop.
  - intros Hle. unfold m. replace (length (r_cycled st) - CACHE_LOG_CHUNKS)%nat with 0%nat by lia. done.
Qed.
End conservation.

(** ** An example run *)

#[local] Existing Instance insertion_GoSort.
#[local] Instance chunk_other_TS : TimeSeries ReprTimeSeries ReprIter := Repr_TimeSeries (fun _ => 0).
Abbreviation chunk_New := (NewTimeSeries (proto_Series (fun _ t => NewReprTimeSeries t NewDefaultOptions))).
#[local] Instance chunk_TS : TimeSeries any_series any_iter := proto_any_TS (O:=ReprIter) (fun _ => 0).
#[local] Instance chunk_laws : SeriesLaws chunk_New "protobuf" := proto_laws _ _.

(** Two metrics over two cycles, a point of time zero, and a point that is
    filled back. *)
Definition chunk_ops : list cop :=
  [ CAdd (sample_name "a") (sample_point 1500000000 1 2) None 100;
    CAdd (sample_name "b") (sample_point 1500000001 7 3) None 101;
    CLog;
    CAdd (sample_name "a") (sample_point 1500000010 2 2) None 110;
    CAdd (sample_name "a") (mkRepr None 0 0 0 0 0 1) None 111;
    CCycle 700;
    CLog;
    CBack (sample_name "a") (sample_point 1499999999 5 2) 1;
    CTake 701;
    CTake 702;
    CAdd (sample_name "a") (sample_point 1500000020 3 2) None 703;
    CForce 1400 ].

Lemma chunk_ops_ok : Forall (cop_ok (fun _ => 0) chunk_New "protobuf") chunk_ops.
Proof.
  repeat constructor; try (vm_compute; reflexivity); try (vm_compute; discriminate);
    vm_compute; split_and!; (reflexivity || discriminate).
Qed.

Lemma chunk_cache_conserves_witness :
  Forall (cop_ok (fun _ => 0) chunk_New "protobuf") chunk_ops /\
  exists st held cur, cexec_all (fun _ => 0) chunk_New (start "protobuf") chunk_ops = Some st /\
    Forall2 (chunk_holds chunk_New "protobuf") (r_cycled st) held /\ cur_holds chunk_New "protobuf" (r_wc st) cur /\
    (forall k, concat (map (fun h => h k) held) ++ cur k = of_key k (r_accepted st)).
Proof.
  split; [exact chunk_ops_ok|].
  destruct (chunk_cache_conserves (fun _ => 0) chunk_New "protobuf" chunk_ops chunk_ops_ok ltac:(reflexivity))
    as (st & held & cur & H1 & H2 & H3 & H4 & _).
  exact (ex_intro _ st (ex_intro _ held (ex_intro _ cur (conj H1 (conj H2 (conj H3 H4)))))).
Defined.

Lemma chunk_log_covers_witness :
  exists st, cexec_all (fun _ => 0) chunk_New (start "protobuf") chunk_ops = Some st /\
    forall k, logged k (logBroadcast (r_wc st)) ++ default [] (curSlice (r_wc st) !! k) = of_key k (r_offered st).
Proof. exact (chunk_log_covers (fun _ => 0) chunk_New "protobuf" chunk_ops chunk_ops_ok ltac:(reflexivity)). Defined.

Lemma chunk_reads_recent_witness :
  exists st old ls, cexec_all (fun _ => 0) chunk_New (start "protobuf") chunk_ops = Some st /\
    Forall2 contents (cc_GetSeriesById (r_wc st) id_a).2 ls /\
    of_key id_a (r_accepted st) = old ++ concat ls /\
    ((length (r_cycled st) <= CACHE_LOG_CHUNKS)%nat -> old = []).
Proof. exact (chunk_reads_recent (fun _ => 0) chunk_New "protobuf" chunk_ops id_a chunk_ops_ok ltac:(reflexivity)). Defined.

(** What the run leaves: five points offered, four of them accepted and one filled back,
    two chunks sent. *)
Example chunk_run :
  match cexec_all (fun _ => 0) chunk_New (start "protobuf") chunk_ops with
  | Some st => (length (r_offered st), length (r_accepted st), length (r_cycled st),
                map cs_SequenceId (sliceBroadcast (r_wc st)), map cl_SequenceId (logBroadcast (r_wc st)),
                length (cc_GetSeriesById (r_wc st) id_a).2) = (5, 5, 2, [0; 1]%Z, [0; 1]%Z, 2)%nat
  | None => False
  end.
Proof. by vm_compute. Qed.

(** A point of time zero is in the log but in no chunk. *)
Example zero_time_logged :
  match cc_AddWithOffset (fun _ => 0) chunk_New NewCacherChunk (sample_name "a") (mkRepr None 0 0 0 0 0 1) None 5 with
  | Some (err, wc) => err = Some ErrZeroTime /\ SliceLen wc = 1 /\ ChunkLen wc = 0
  | None => False
  end.
Proof. by vm_compute. Qed.

(** The log is sent and emptied under two locks: a point added between the
    two is in no log. *)
Example log_race :
  match cc_AddWithOffset (fun _ => 0) chunk_New (log_send NewCacherChunk) (sample_name "a")
          (sample_point 1500000000 1 2) None 5 with
  | Some (None, wc) =>
      let wc := log_reset wc in logged id_a (logBroadcast wc) ++ default [] (curSlice wc !! id_a) = []
  | _ => False
  end.
Proof. by vm_compute. Qed.

(** Until six chunks have been cycled, [Get] panics on a nil chunk; [Exists]
    panics before the first point. *)
Example get_nil_chunk :
  cc_Exists (S:=any_series (OS:=ReprTimeSeries)) (fun _ => 0) NewCacherChunk (sample_name "a") = None /\
  match cc_AddWithOffset (fun _ => 0) chunk_New NewCacherChunk (sample_name "a") (sample_point 1500000000 1 2) None 5 with
  | Some (None, wc) => cc_Get (fun _ => 0) 10 wc (sample_name "a") = None
  | _ => False
  end.
Proof. by vm_compute. Qed.

(** The window of a chunk is the clock at its start, so it asks to be
    flushed only at twice the time. *)
Example need_flush_never :
  let now := 1500000000 * 10 ^ 9 in
  NeedFlush (S:=any_series (OS:=ReprTimeSeries)) (NewCacheChunkItem now 0 "protobuf" now) (now + 3600 * 10 ^ 9) = false.
Proof. by vm_compute. Qed.
