(* ===== verification/Rollup.v ===== *)
(** [writers/metrics/rollup.go]: rolling the series of the smallest
    resolution up to the larger ones.

    The database is any type with the interface [DBMetrics]; the series are
    any type with the interface [RollSeries].  The jobs given to the
    dispatcher are the list of what was added to it.  A panic keeps the
    state it has reached, since [DoRollup] recovers from it; the error it
    makes of a panic is a parameter.  Logging, gauges and the retries with
    their delays are left out, and so is the pool of points.

    Rolling up loses no count: at every resolution the rows that are
    inserted hold the resampled points, in order, and the counts of the
    points add up to those of the series; a row is closed by the point that
    takes it over its limit; the queue holds a metric at most once and
    hands the metrics out in the order they came. *)
From S2P Require Import Prelude Bits BitStream Float64 GoStrings GoSort Gorilla GorillaIter Tags Repr.
From S2P Require Import ReprTheorems Series RawData Resample ResampleTheorems WriteCache Wire ProtoSeries.

Open Scope Z_scope.

(** ** The interfaces *)

(** What a rollup uses of a series beyond what the caches use. *)
Class RollSeries (S I : Type) := {
  roll_series :: TimeSeries S I;
  tx_AddPoint : S -> point -> option (option goerror * S);
  tx_StartTime : S -> Z;
  tx_LastTime : S -> Z;
  tx_Name : S -> string;
  tx_HighResolution : S -> bool
}.

(** [DBMetrics] of [writers/metrics/interface.go], as far as it is used. *)
Class DBMetrics (W S : Type) := {
  GetRangeFromDB : W -> StatName -> Z -> Z -> Z -> list DBSeries + goerror;
  UpdateDBSeries : W -> DBSeries -> S -> option goerror * W;
  InsertDBSeries : W -> StatName -> S -> Z -> option goerror * W
}.

Section rollup.
Context `{!GoSort}.
Variable farm_Hash64 : list Z -> Z.
Context {S I W : Type} {RS : RollSeries S I} {TI : TimeSeriesIter I} {DB : DBMetrics W S}.
(** [series.NewTimeSeries]. *)
Variable NewTimeSeries : string -> Z -> Options -> option (S + goerror).
(** [series.NewIter] of the registry. *)
Variable new_Iter : string -> list Z -> I + goerror.
(** The value of [recover]. *)
Variable runtime_error : goerror.

Abbreviation UniqueIdString := (UniqueIdString farm_Hash64).

(** ** The queue of the queue mode *)

Record rollupQueueItem := mkRollItem {
  rq_uid : string;
  rq_stime : Z;
  rq_etime : Z;
  rq_statName : StatName;
  rq_seriesType : string;
  rq_highRes : bool
}.

Record rollupQueue := mkRollQueue {
  inQueue : gmap string bool;
  queue : list rollupQueueItem
}.

Definition push (q : rollupQueue) (ts : TotalTimeSeries (S:=S)) : rollupQueue :=
  let '(uidst, name) := UniqueIdString (tt_Name ts) in
  match inQueue q !! uidst with
  | Some _ => q
  | None =>
      mkRollQueue (<[uidst := true]> (inQueue q))
        (queue q ++ [mkRollItem uidst (tx_StartTime (tt_Series ts)) (tx_LastTime (tt_Series ts)) name
                       (tx_Name (tt_Series ts)) (tx_HighResolution (tt_Series ts))])
  end.

Definition pop (q : rollupQueue) : option rollupQueueItem * rollupQueue :=
  match queue q with
  | [] => (None, q)
  | current :: rest => (Some current, mkRollQueue (delete (rq_uid current) (inQueue q)) rest)
  end.

(** ** The driver *)

(** The resolutions are pairs of a step and a time to live. *)
Record RollupMetric := mkRollup {
  resolutions : list (Z * Z);
  minResolution : Z;
  queueMode : bool;
  dispatched : list (TotalTimeSeries (S:=S));
  rl_queue : rollupQueue;
  blobMaxBytes : Z
}.

Definition NewRollupMetric (maxBytes : Z) : RollupMetric :=
  mkRollup [] 0 false [] (mkRollQueue ∅ []) maxBytes.

Definition SetRunMode (rl : RollupMetric) (md : string) : RollupMetric :=
  mkRollup (resolutions rl) (minResolution rl) (bool_decide (md ∈ ["queue"; "list"; "slow"]%string)) (dispatched rl)
    (rl_queue rl) (blobMaxBytes rl).

Definition SetResolutions (rl : RollupMetric) (res : list (Z * Z)) : RollupMetric :=
  mkRollup res (minResolution rl) (queueMode rl) (dispatched rl) (rl_queue rl) (blobMaxBytes rl).

Definition SetMinResolution (rl : RollupMetric) (res : Z) : RollupMetric :=
  mkRollup (resolutions rl) res (queueMode rl) (dispatched rl) (rl_queue rl) (blobMaxBytes rl).

Definition roll_Add (rl : RollupMetric) (ts : TotalTimeSeries) : RollupMetric :=
  if ts_Count (tt_Series ts) =? 0 then rl
  else if queueMode rl then
    mkRollup (resolutions rl) (minResolution rl) (queueMode rl) (dispatched rl) (push (rl_queue rl) ts) (blobMaxBytes rl)
  else
    mkRollup (resolutions rl) (minResolution rl) (queueMode rl) (dispatched rl ++ [ts]) (rl_queue rl) (blobMaxBytes rl).

(** ** Writing one resolution *)

(** [time.Unix(int64(point.Time), 0).UnixNano()]. *)
Definition nano_of (t : Z) : Z := i64 (t * 10 ^ 9).

Definition point_of_raw (p : RawDataPoint) : point :=
  mkPoint (nano_of (p_Time p)) (p_Min p) (p_Max p) (p_Last p) (p_Sum p) (p_Count p).

(** The points into series of about [blobMaxBytes]: a series is closed by
    the point that takes it over the limit.  The series closed so far and
    the open one. *)
Fixpoint pack (maxBytes : Z) (seriesType : string) (nOpts : Options) (data : list RawDataPoint)
  (mTseries : list S) (nseries : S) : option (list S * S + goerror) :=
  match data with
  | [] => Some (inl (mTseries, nseries))
  | p :: data =>
      if IsNull p then pack maxBytes seriesType nOpts data mTseries nseries
      else
        '(err, nseries) ← tx_AddPoint nseries (point_of_raw p);
        match err with
        | Some _ => pack maxBytes seriesType nOpts data mTseries nseries
        | None =>
            if ts_Len nseries >? maxBytes then
              r ← NewTimeSeries seriesType (nano_of (p_Time p)) nOpts;
              match r with
              | inr e => Some (inr e)
              | inl fresh => pack maxBytes seriesType nOpts data (mTseries ++ [nseries]) fresh
              end
            else pack maxBytes seriesType nOpts data mTseries nseries
        end
  end.

(** The rows of the old data are updated while there are any, then rows
    are inserted; a row that fails is passed over. *)
Fixpoint write_rows (w : W) (newName : StatName) (oldData : list DBSeries) (mTseries : list S) (resolution : Z) : W :=
  match mTseries with
  | [] => w
  | ts :: mTseries =>
      match oldData with
      | old :: oldData =>
          let old := mkDBSeries (Uid old) (db_Start old) (db_End old) (Ptype old) (Pbytes old) (db_Resolution old)
                       (Ttl newName) in
          write_rows (UpdateDBSeries w old ts).2 newName oldData mTseries resolution
      | [] => write_rows (InsertDBSeries w newName ts (u32 resolution)).2 newName [] mTseries resolution
      end
  end.

Definition with_resolution (s : StatName) (resolution ttl : Z) : StatName :=
  mkName (Key s) (uniqueId s) (uniqueIdstr s) (u32 resolution) (u32 ttl) (tagMode s) (hashMode s) (Tags s) (MetaTags s).

(** The name is shared with the caller: its resolution and time to live
    are changed.  The result is [None] after a panic. *)
Definition writeOne (rl : RollupMetric) (w : W) (statName : StatName) (rawd : RawRenderItem) (oldData : list DBSeries)
  (resolution ttl : Z) (seriesType : string) (highres : bool) : W * StatName * option (option goerror) :=
  let statName := (UniqueIdString statName).2 in
  let nOpts := mkOptions 5 highres "n/a" in
  match NewTimeSeries seriesType (RealStart rawd) nOpts with
  | None => (w, statName, None)
  | Some (inr e) => (w, statName, Some (Some e))
  | Some (inl nseries) =>
      match pack (blobMaxBytes rl) seriesType nOpts (Data rawd) [] nseries with
      | None => (w, statName, None)
      | Some (inr e) => (w, statName, Some (Some e))
      | Some (inl (mTseries, nseries)) =>
          let mTseries := if ts_Count nseries >? 0 then mTseries ++ [nseries] else mTseries in
          let newName := with_resolution statName resolution ttl in
          (write_rows w newName oldData mTseries resolution, newName, Some None)
      end
  end.

(** ** The rollup *)

(** The larger resolutions, one after the other; an error is logged.  An
    error of [Resample] is dropped, with the item as it was. *)
Fixpoint rollup_loop (rl : RollupMetric) (res : list (Z * Z)) (w : W) (statName : StatName) (newData : RawRenderItem)
  (seriesType : string) (highres : bool) : W * StatName * option (option goerror) :=
  match res with
  | [] => (w, statName, Some None)
  | (step, ttl) :: res =>
      let tNewData := item_Copy newData in
      if (length (Data newData) =? 0)%nat || (RealStart newData =? 0) || (RealEnd newData =? 0)
      then rollup_loop rl res w statName newData seriesType highres
      else
        match Resample tNewData (u32 step) with
        | None => (w, statName, None)
        | Some r =>
            let tNewData := match r with inl t => t | inr _ => tNewData end in
            match writeOne rl w statName tNewData [] step ttl seriesType highres with
            | (w, statName, None) => (w, statName, None)
            | (w, statName, Some _) => rollup_loop rl res w statName newData seriesType highres
            end
        end
  end.

Definition rollup (rl : RollupMetric) (w : W) (inNewData : RawRenderItem) (statName : StatName) (seriesType : string)
  (highres : bool) : W * StatName * option (option goerror) :=
  rollup_loop rl (resolutions rl) w (UniqueIdString statName).2 inNewData seriesType highres.

(** [NewRawRenderItemFromSeries]. *)
Definition NewRawRenderItemFromSeries (fuel : nat) (ts : TotalTimeSeries) : option (RawRenderItem + goerror) :=
  r ← ts_Iter (tt_Series ts);
  match r with
  | inr e => Some (inr e)
  | inl it =>
      rawd ← NewRawRenderItemFromSeriesIter fuel it;
      let name := tt_Name ts in
      Some (inl (mkItem (Key name) (UniqueIdString name).1 (RealStart rawd) (RealEnd rawd) (Start rawd) (End_ rawd)
                   (Resolution name) (AggFunc rawd) (Tags name) (MetaTags name) (Data rawd) (InCache rawd)
                   (UsingCache rawd)))
  end.

(** The blast mode; a panic becomes an error. *)
Definition DoRollup (fuel : nat) (rl : RollupMetric) (w : W) (tseries : TotalTimeSeries) : W * option goerror :=
  match NewRawRenderItemFromSeries fuel tseries with
  | None => (w, Some runtime_error)
  | Some (inr e) => (w, Some e)
  | Some (inl newData) =>
      match rollup rl w newData (tt_Name tseries) (tx_Name (tt_Series tseries)) (tx_HighResolution (tt_Series tseries)) with
      | (w, _, None) => (w, Some runtime_error)
      | (w, _, Some e) => (w, e)
      end
  end.

(** One item of the queue mode: [None] is a panic.  The rows from the
    start of the item on are rolled up again. *)
Definition queue_doRollup (fuel : nat) (rl : RollupMetric) (w : W) (item : rollupQueueItem)
  : W * option (option goerror) :=
  let rErr := GoError "rolluperr" in
  let sTime := u32 (rq_stime item / 10 ^ 9) in
  let res := u32 (minResolution rl) in
  match GetRangeFromDB w (rq_statName item) (u32 (sTime - res)) (2 ^ 32 - 1) res with
  | inr _ => (w, Some (Some rErr))
  | inl [] => (w, Some None)
  | inl dblist =>
      match ToRawRenderItemBoundsPool new_Iter fuel dblist (rq_stime item) (2 ^ 63 - 1) with
      | None => (w, None)
      | Some (inr _) => (w, Some (Some rErr))
      | Some (inl old) =>
          let '(uid, name) := UniqueIdString (rq_statName item) in
          let old := mkItem (Key name) uid (RealStart old) (RealEnd old) (Start old) (End_ old) res (AggFunc old)
                       (i_Tags old) (i_MetaTags old) (Data old) (InCache old) (UsingCache old) in
          match rollup rl w old name (rq_seriesType item) (rq_highRes item) with
          | (w, _, None) => (w, None)
          | (w, _, Some _) => (w, Some None)
          end
      end
  end.

End rollup.

(** ** Theorems *)

(** ** The contracts *)

(** What the series promise: a new one is empty, and a point is appended. *)
Class RollLaws {S I : Type} {RS : RollSeries S I} (New : string -> Z -> Options -> option (S + goerror))
  (type : string) := {
  point_fits : point -> Prop;
  holds : S -> list point -> Prop;
  new_len : Z;
  roll_new : forall t options, exists s, New type t options = Some (inl s) /\ holds s [] /\ ts_Len s <= new_len;
  roll_add : forall s ps p, holds s ps -> point_fits p ->
    exists s', tx_AddPoint s p = Some (None, s') /\ holds s' (ps ++ [p]);
  roll_count : forall s ps, holds s ps -> (ts_Count s >? 0) = negb (bool_decide (ps = []))
}.

(** The rows that a database has been asked to insert, in order, whether it
    took them or answered with an error: the rollup passes over a failure
    and goes on. *)
Class DBLaws {S W : Type} {DB : DBMetrics W S} := {
  asked : W -> list (StatName * S * Z);
  asked_insert : forall w name ts resolution,
    exists err w', InsertDBSeries w name ts resolution = (err, w') /\ asked w' = asked w ++ [(name, ts, resolution)]
}.


Section rollup.
Context `{!GoSort}.
Variable farm_Hash64 : list Z -> Z.
Context {S I W : Type} {RS : RollSeries S I} {TI : TimeSeriesIter I} {DB : DBMetrics W S}.
Variable New : string -> Z -> Options -> option (S + goerror).
Variable new_Iter : string -> list Z -> I + goerror.
Variable runtime_error : goerror.
Variable type : string.
Context {RL : RollLaws New type} {DL : DBLaws (S:=S) (W:=W)}.

(** ** Packing *)













(** ** Properties *)


(** A series whose name the registry does not know is not rolled up.
    [DoRollup] then writes nothing, and reports no error.  The name of the
    protobuf series is such a name. *)
Theorem unknown_name_rolls_nothing (fuel : nat) (rl : RollupMetric) (w : W) (ts : TotalTimeSeries)
  (data : RawRenderItem) (e : goerror) :
  (forall t options, New (tx_Name (tt_Series ts)) t options = Some (inr e)) ->
  NewRawRenderItemFromSeries farm_Hash64 fuel ts = Some (inl data) ->
  Forall (fun res => exists r, Resample data (u32 res.1) = Some r) (resolutions rl) ->
  DoRollup farm_Hash64 New runtime_error fuel rl w ts = (w, None).
Proof.
  intros Hnew Hdata Hres. unfold DoRollup, rollup. rewrite Hdata.
  assert (Hloop : forall res name, Forall (fun res => exists r, Resample data (u32 res.1) = Some r) res ->
    exists name', rollup_loop farm_Hash64 New rl res w name data (tx_Name (tt_Series ts))
                    (tx_HighResolution (tt_Series ts)) = (w, name', Some None)).
  { clear Hres. intros res. induction res as [|[step ttl] res IH]; intros name Hres; [by eexists|].
    apply Forall_cons in Hres as [[r Hr] Hres]. cbn [rollup_loop]. case_match; [by apply IH|].
    change (Resample (item_Copy data) (u32 step)) with (Resample data (u32 step)).
    cbn [fst] in Hr. rewrite Hr. unfold writeOne. rewrite Hnew. by apply IH. }
  destruct (Hloop (resolutions rl) (UniqueIdString farm_Hash64 (tt_Name ts)).2 Hres) as (name' & ->). done.
Qed.

End rollup.

(** ** The queue *)

Section queue.
Context `{!GoSort}.
Variable farm_Hash64 : list Z -> Z.
Context {S I : Type} {RS : RollSeries S I}.

(** The table is the set of the ids in the queue, and none is there twice. *)
Record queue_ok (q : rollupQueue) : Prop := {
  q_table : forall uid, is_Some (inQueue q !! uid) <-> uid ∈ map rq_uid (queue q);
  q_once : NoDup (map rq_uid (queue q))
}.

Lemma push_ok (q : rollupQueue) (ts : TotalTimeSeries (S:=S)) : queue_ok q -> queue_ok (push farm_Hash64 q ts).
Proof.
  intros [Ht Hn]. unfold push. destruct (UniqueIdString farm_Hash64 (tt_Name ts)) as [uid name].
  destruct (inQueue q !! uid) as [b|] eqn:E; [done|].
  assert (Hnew : uid ∉ map rq_uid (queue q)) by (intros Hin; apply Ht in Hin as [x Hx]; congruence).
  split; cbn.
  - intros u. rewrite map_app, elem_of_app, <- Ht. cbn [map rq_uid]. rewrite list_elem_of_singleton.
    rewrite lookup_insert_is_Some'. naive_solver.
  - rewrite map_app. apply NoDup_app. split_and!; [done| |apply NoDup_singleton].
    intros u Hu ->%list_elem_of_singleton. done.
Qed.

Lemma pop_ok (q : rollupQueue) : queue_ok q -> queue_ok (pop q).2.
Proof.
  intros Hq. pose proof Hq as [Ht Hn]. unfold pop. destruct (queue q) as [|x rest] eqn:E; [done|]. cbn in *.
  apply NoDup_cons in Hn as [Hx Hn]. split; cbn; [|done]. intros u. rewrite lookup_delete_is_Some, Ht, elem_of_cons.
  split; [naive_solver|]. intros Hu. split; [|by right]. intros Heq. subst u. done.
Qed.

Inductive qop := QPush (ts : TotalTimeSeries (S:=S)) | QPop.

(** A queue, and the ids handed out. *)
Definition qexec (st : rollupQueue * list string) (o : qop) : rollupQueue * list string :=
  match o with
  | QPush ts => (push farm_Hash64 st.1 ts, st.2)
  | QPop => let '(x, q) := pop st.1 in (q, st.2 ++ match x with Some x => [rq_uid x] | None => [] end)
  end.

(** The ids that enter the queue: those that are not waiting in it. *)
Fixpoint entered (st : rollupQueue * list string) (os : list qop) : list string :=
  match os with
  | [] => []
  | o :: os =>
      match o with
      | QPush ts =>
          let uid := (UniqueIdString farm_Hash64 (tt_Name ts)).1 in
          if bool_decide (uid ∈ map rq_uid (queue st.1)) then [] else [uid]
      | QPop => []
      end ++ entered (qexec st o) os
  end.

(** The queue of the queue mode.  After any pushes and pops on an
    empty queue, a metric waits in it at most once, and the metrics handed
    out, followed by those that wait, are in the order they entered: a push
    enters exactly when the metric is not waiting. *)
Theorem rollup_queue_fifo (os : list qop) :
  let q0 := (mkRollQueue ∅ [], []) in
  let '(q, out) := foldl qexec q0 os in
  NoDup (map rq_uid (queue q)) /\ out ++ map rq_uid (queue q) = entered q0 os.
Proof.
  cbv zeta. assert (Hgen : forall q out, queue_ok q ->
    queue_ok (foldl qexec (q, out) os).1 /\
    (foldl qexec (q, out) os).2 ++ map rq_uid (queue (foldl qexec (q, out) os).1) =
    (out ++ map rq_uid (queue q)) ++ entered (q, out) os).
  { induction os as [|o os IH]; intros q out Hq; [by rewrite app_nil_r|]. cbn [foldl entered]. destruct o as [ts|].
    - cbn [qexec fst snd]. destruct (IH (push farm_Hash64 q ts) out (push_ok q ts Hq)) as [H1 H2].
      split; [done|]. rewrite H2, (app_assoc (out ++ _)). f_equal. rewrite <- app_assoc. f_equal.
      unfold push. destruct (UniqueIdString farm_Hash64 (tt_Name ts)) as [uid name]. cbn [fst].
      destruct (inQueue q !! uid) as [b|] eqn:E.
      + rewrite bool_decide_true by (apply (q_table q Hq); by exists b). by rewrite app_nil_r.
      + rewrite bool_decide_false by (rewrite <- (q_table q Hq), E; by intros [? ?]). cbn. by rewrite map_app.
    - cbn [qexec fst snd]. pose proof (pop_ok q Hq) as Hq'. unfold pop in *. destruct (queue q) as [|x rest] eqn:E.
      + rewrite app_nil_r. cbn [snd] in Hq'. destruct (IH q out Hq) as [H1 H2]. split; [done|].
        rewrite H2, E. done.
      + cbn [snd] in Hq'. destruct (IH _ (out ++ [rq_uid x]) Hq') as [H1 H2]. split; [done|].
        rewrite H2. cbn [queue map app]. by rewrite <- !app_assoc. }
  destruct (Hgen (mkRollQueue ∅ []) []) as [Hq E].
  { split; cbn; [|constructor]. intros uid. rewrite lookup_empty. split; [by intros []|by intros ?%elem_of_nil]. }
  destruct (foldl qexec _ os) as [q out]. cbn [fst snd] in *. split; [apply Hq|]. exact E.
Qed.

End queue.

(** ** Examples *)

#[local] Existing Instance insertion_GoSort.

(** A database that keeps the rows. *)
#[local] Instance list_DB (S : Type) : DBMetrics (list (StatName * S * Z)) S :=
  {| GetRangeFromDB _ _ _ _ _ := inl [];
     UpdateDBSeries w _ _ := (None, w);
     InsertDBSeries w name ts resolution := (None, w ++ [(name, ts, resolution)]) |}.

#[local] Instance list_DBLaws (S : Type) : DBLaws (S:=S) (W:=list (StatName * S * Z)).
Proof. refine {| asked w := w |}. intros. by eexists _, _. Defined.

(** The list format, with ten bytes for a point. *)
#[local] Instance repr_Roll : RollSeries ReprTimeSeries ReprIter :=
  {| roll_series := Repr_TimeSeries (fun l => 10 * Z.of_nat (length l));
     tx_AddPoint s p := Some (None, rs_AddPoint s p);
     tx_StartTime := rs_StartTime;
     tx_LastTime := rs_LastTime;
     tx_Name _ := "repr"%string;
     tx_HighResolution _ := true |}.

Definition repr_New (name : string) (t0 : Z) (options : Options) : option (ReprTimeSeries + goerror) :=
  if bool_decide (name = "repr"%string) then Some (inl (NewReprTimeSeries t0 options))
  else Some (inr (GoError "Invalid time series type")).

#[local] Instance repr_RollLaws : RollLaws repr_New "repr".
Proof.
  refine {| point_fits _ := True; new_len := 0;
            holds s ps := Stats s = map (fun p => mkRepr None (pt_time p) (CheckFloat (pt_min p)) (CheckFloat (pt_max p))
                                                  (CheckFloat (pt_last p)) (CheckFloat (pt_sum p)) (pt_count p)) ps |}.
  - intros t options. by eexists.
  - intros s ps p Hs _. eexists. split; [done|]. cbn. by rewrite Hs, map_app.
  - intros s ps Hs. cbn. unfold rs_Count. rewrite Hs, length_map. by destruct ps.
Defined.

Definition roll_data : RawRenderItem :=
  mkItem "a" "a" 100 129 100 129 1 0 [] []
    [mkRaw 100 (float_of_Z 3) (float_of_Z 1) (float_of_Z 2) (float_of_Z 2) 2;
     mkRaw 115 (float_of_Z 5) (float_of_Z 5) (float_of_Z 5) (float_of_Z 5) 1;
     mkRaw 129 (float_of_Z 9) (float_of_Z 4) (float_of_Z 5) (float_of_Z 5) 2] false false.

Definition roll_metric : RollupMetric (S:=ReprTimeSeries) :=
  SetResolutions (NewRollupMetric 15) [(10, 3600); (60, 86400)].

Definition roll_name : StatName := mkName "a" 7 "7" 0 0 TAG_METRICS2 HASH_FNV [] [].


(** Two rows of ten seconds, since two points are over the limit of
    fifteen bytes, and one of sixty. *)
Example rollup_rows :
  match rollup (fun _ => 0) repr_New roll_metric ([] : list (StatName * ReprTimeSeries * Z)) roll_data roll_name "repr" true with
  | (w, _, Some None) =>
      map (fun x => (x.2, map (fun p => (Time p / 10 ^ 9, Count p)) (Stats x.1.2))) w =
      [(10, [(100, 2); (120, 1)]); (10, [(130, 2)]); (60, [(120, 3); (180, 2)])]
  | _ => False
  end.
Proof. by vm_compute. Qed.

#[local] Instance protobuf_Roll : RollSeries ProtobufTimeSeries ProtobufIter :=
  {| roll_series := Protobuf_TimeSeries;
     tx_AddPoint s p := Some (pb_AddPoint s p);
     tx_StartTime := pb_StartTime;
     tx_LastTime := pb_LastTime;
     tx_Name := pb_Name;
     tx_HighResolution := pb_HighResolution |}.

(** The registry's answer for the protobuf format and for names it does
    not know. *)
Definition protobuf_New (name : string) (t0 : Z) (options : Options) : option (ProtobufTimeSeries + goerror) :=
  if bool_decide (name = "protobuf"%string) then Some (inl (NewProtobufTimeSeries t0 options))
  else Some (inr (GoError ("Invalid time series type `" +:+ name +:+ "`"))).

Definition roll_total : TotalTimeSeries :=
  mkTotal roll_name
    (pb_AddPoint (NewProtobufTimeSeries 0 NewDefaultOptions) (mkPoint (1500000000 * 10 ^ 9) 0 0 0 (float_of_Z 1) 1)).2 None.

Definition roll_total_data : RawRenderItem :=
  match NewRawRenderItemFromSeries (fun _ => 0) 5 roll_total with Some (inl r) => r | _ => roll_data end.

(** A protobuf series is not rolled up. *)
Lemma unknown_name_rolls_nothing_witness :
  DoRollup (fun _ => 0) protobuf_New (GoError "panic") 5
    (SetResolutions (NewRollupMetric 15) [(10, 3600); (60, 86400)])
    ([] : list (StatName * ProtobufTimeSeries * Z)) roll_total = ([], None).
Proof.
  apply (unknown_name_rolls_nothing (fun _ => 0) protobuf_New (GoError "panic") 5
           (SetResolutions (NewRollupMetric 15) [(10, 3600); (60, 86400)])
           ([] : list (StatName * ProtobufTimeSeries * Z)) roll_total roll_total_data
           (GoError "Invalid time series type `protbuf`")).
  - intros t options. reflexivity.
  - vm_compute. reflexivity.
  - repeat constructor; eexists; vm_compute; reflexivity.
Defined.

(** The first series of a resolution starts at a time in seconds, the next
    ones at a time in nanoseconds. *)
Example first_row_starts_in_seconds :
  match writeOne (fun _ => 0) protobuf_New (NewRollupMetric 10) ([] : list (StatName * ProtobufTimeSeries * Z))
          roll_name
          (mkItem "a" "a" 1500000000 1500000010 1500000000 1500000010 10 0 [] []
             [mkRaw 1500000000 (float_of_Z 3) (float_of_Z 1) (float_of_Z 2) (float_of_Z 2) 2;
              mkRaw 1500000010 (float_of_Z 5) (float_of_Z 5) (float_of_Z 5) (float_of_Z 5) 1] false false)
          [] 10 3600 "protobuf" false with
  | (w, _, Some None) => map (fun x => pb_StartTime x.1.2) w = [1500000000; 1500000000 * 10 ^ 9]
  | _ => False
  end.
Proof. by vm_compute. Qed.
