(* ===== verification/ReadCache.v ===== *)
(** [writers/metrics/readcache.go]: the read cache.  A metric that was read
    is active: its newest points are kept in a protobuf series, in an LRU
    cache under the metric's name, and the writers add to it.

    The cache holds pointers to the items: an item is changed in place and
    then stored again under its name, which is one step here.  A
    [time.Time] is its nanoseconds, and the zero time is [None].  The time
    of the last access and the id of the metric, which nothing reads, the
    insert queue, the broadcast to listeners and the singleton are left
    out; [None] as a result is a panic.

    The read cache: an item keeps the newest points, as many as fit into
    its bytes, and a read returns those of the range in time order; only
    active metrics take points. *)
From S2P Require Import Prelude Bits Float64 GoStrings GoSort GoParse Gorilla Tags Repr Series RawData Resample.
From S2P Require Import WriteCache Wire WireTheorems ProtoSeries ProtoSeriesTheorems LRU LRUTheorems.

Open Scope Z_scope.

Section readcache.
Context `{!GoSort}.

(** ** Items *)

Record ReadCacheItem := mkReadItem {
  rci_StartTime : option Z;
  rci_EndTime : option Z;
  rci_Data : ProtobufTimeSeries;
  rci_MaxBytes : Z
}.

Definition NewReadCacheItem (max_bytes : Z) : ReadCacheItem :=
  mkReadItem None None (NewProtobufTimeSeries 0 NewDefaultOptions) max_bytes.

(** [rc.Data.Stats.Stats[1:]] when the series is too long: the oldest
    message goes, the length of the series stays.  An empty list panics. *)
Definition drop_oldest (rc : ReadCacheItem) : option ProtobufTimeSeries :=
  let data := rci_Data rc in
  if pb_Len data >? rci_MaxBytes rc then
    match pst_Stats (pb_Stats data) with
    | [] => None
    | _ :: rest =>
        Some (mkProtobufSeries (pb_T0 data) (pb_curTime data)
                (mkProtStats (pst_FullTimeResolution (pb_Stats data)) rest) (pb_len data) (pb_curCount data))
    end
  else Some data.

Definition later (t : Z) (e : option Z) : option Z :=
  match e with None => Some t | Some e => if t >? e then Some t else Some e end.
Definition earlier (t : Z) (s : option Z) : option Z :=
  match s with None => Some t | Some s => if t <? s then Some t else Some s end.

(** Adding a point at time [t]. *)
Definition add_at (rc : ReadCacheItem) (t : Z) (add : ProtobufTimeSeries -> option goerror * ProtobufTimeSeries)
  : option ReadCacheItem :=
  data ← drop_oldest rc;
  Some (mkReadItem (earlier t (rci_StartTime rc)) (later t (rci_EndTime rc)) (add data).2
          (rci_MaxBytes rc)).

Definition item_Add (rc : ReadCacheItem) (stat : StatRepr) : option ReadCacheItem :=
  add_at rc (ToTime stat) (fun data => pb_AddStat data stat).

Definition item_AddValues (rc : ReadCacheItem) (t : Z) (min max last sum : float64) (count : Z)
  : option ReadCacheItem :=
  add_at rc t (fun data => pb_AddPoint data (mkPoint (i64 t) min max last sum count)).

Fixpoint add_all (rc : ReadCacheItem) (stats : list StatRepr) : option ReadCacheItem :=
  match stats with [] => Some rc | s :: stats => rc ← item_Add rc s; add_all rc stats end.

Definition item_PutSeries (rc : ReadCacheItem) (stats : list StatRepr) : option ReadCacheItem :=
  add_all rc (sort_stats stats).

(** The counts of the points are changed for the caller too. *)
Fixpoint item_PutRenderedSeries (rc : ReadCacheItem) (data : list RawDataPoint)
  : option (ReadCacheItem * list RawDataPoint) :=
  match data with
  | [] => Some (rc, [])
  | s :: data =>
      let s := if p_Count s <? 1 then mkRaw (p_Time s) (p_Sum s) (p_Min s) (p_Max s) (p_Last s) 1 else s in
      rc ← item_AddValues rc (p_Time s * 10 ^ 9) (p_Min s) (p_Max s) (p_Last s) (p_Sum s) (p_Count s);
      '(rc, data) ← item_PutRenderedSeries rc data;
      Some (rc, s :: data)
  end.

(** The statistics of the iterator, those of time zero left out. *)
Fixpoint repr_values (fuel : nat) (it : ProtobufIter) : option (list StatRepr) :=
  match fuel with
  | O => None
  | S fuel =>
      '(ok, it) ← pi_Next it;
      if negb ok then Some [] else
      stat ← pi_ReprValue it;
      rest ← repr_values fuel it;
      Some (if Time stat =? 0 then rest else stat :: rest)
  end.

Definition item_values (rc : ReadCacheItem) : option (list StatRepr) :=
  repr_values (S (length (pst_Stats (pb_Stats (rci_Data rc))))) (pb_Iter (rci_Data rc)).

(** The first time is the latest and the last time the earliest of the
    range. *)
Definition item_Get (rc : ReadCacheItem) (start end_ : Z) : option (list StatRepr * option Z * option Z) :=
  vs ← item_values rc;
  let stats := filter (fun s => (i64 start <=? i64 (ToTime s)) && (i64 end_ >=? i64 (ToTime s)) = true) vs in
  Some (sort_stats stats, foldl (fun t s => later (ToTime s) t) None stats,
        foldl (fun t s => earlier (ToTime s) t) None stats).

Definition item_GetAll (rc : ReadCacheItem) : option (list StatRepr) := item_values rc.

#[export] Instance ReadCacheItem_Value : Value ReadCacheItem := fun rc => pb_Len (rci_Data rc).

(** ** The cache *)

Record ReadCache := mkReadCache {
  rc_lru : LRUCache ReadCacheItem;
  rc_MaxBytes : Z;
  rc_MaxBytesPerMetric : Z
}.

Definition NewReadCache (max_bytes max_bytes_per_metric : Z) : ReadCache :=
  mkReadCache (NewLRUCache (u64 max_bytes)) max_bytes max_bytes_per_metric.

Definition with_lru (rc : ReadCache) (lru : LRUCache ReadCacheItem) : ReadCache :=
  mkReadCache lru (rc_MaxBytes rc) (rc_MaxBytesPerMetric rc).

(** Store under the name; what is evicted is forgotten. *)
Definition store (rc : ReadCache) (metric : string) (item : ReadCacheItem) (now : Z) : option ReadCache :=
  '(_, _, lru) ← Set_ (rc_lru rc) metric item now; Some (with_lru rc lru).

(** A metric that is not active yet becomes active with [fill]. *)
Definition activate (rc : ReadCache) (metric : string) (fill : ReadCacheItem -> option ReadCacheItem) (now : Z)
  : option (bool * ReadCache) :=
  '(got, lru) ← Get (rc_lru rc) metric now;
  let rc := with_lru rc lru in
  match got with
  | Some _ => Some (false, rc)
  | None =>
      item ← fill (NewReadCacheItem (rc_MaxBytesPerMetric rc));
      rc ← store rc metric item now;
      Some (true, rc)
  end.

Definition ActivateMetric (rc : ReadCache) (metric : string) (stats : list StatRepr) (now : Z)
  : option (bool * ReadCache) := activate rc metric (fun item => item_PutSeries item stats) now.

Definition ActivateMetricFromRenderData (rc : ReadCache) (data : RawRenderItem) (now : Z)
  : option (bool * ReadCache) :=
  activate rc (Metric data) (fun item => fst <$> item_PutRenderedSeries item (Data data)) now.

(** An active metric is changed by [change]. *)
Definition update (rc : ReadCache) (metric : string) (change : ReadCacheItem -> option ReadCacheItem) (now : Z)
  : option (bool * ReadCache) :=
  '(got, lru) ← Get (rc_lru rc) metric now;
  let rc := with_lru rc lru in
  match got with
  | None => Some (false, rc)
  | Some item =>
      item ← change item;
      rc ← store rc metric item now;
      Some (true, rc)
  end.

Definition rc_PutSeries (rc : ReadCache) (metric : string) (stats : list StatRepr) (now : Z)
  : option (bool * ReadCache) := update rc metric (fun item => item_PutSeries item stats) now.

Definition rc_PutRenderedSeries (rc : ReadCache) (metric : string) (data : list RawDataPoint) (now : Z)
  : option (bool * ReadCache) := update rc metric (fun item => fst <$> item_PutRenderedSeries item data) now.

(** An empty name is the key of the statistic's name, which may be nil. *)
Definition rc_Put (rc : ReadCache) (metric : string) (stat : StatRepr) (now : Z) : option (bool * ReadCache) :=
  metric ← (if bool_decide (metric = ""%string) then Key <$> r_Name stat else Some metric);
  update rc metric (fun item => item_Add item stat) now.

Definition rc_Get (rc : ReadCache) (metric : string) (start end_ now : Z)
  : option (list StatRepr * option Z * option Z * ReadCache) :=
  '(got, lru) ← Get (rc_lru rc) metric now;
  match got with
  | None => Some ([], None, None, with_lru rc lru)
  | Some item =>
      '(stats, first, last) ← item_Get item start end_;
      Some (stats, first, last, with_lru rc lru)
  end.

Definition rc_GetAll (rc : ReadCache) (metric : string) (now : Z) : option (list StatRepr * ReadCache) :=
  '(got, lru) ← Get (rc_lru rc) metric now;
  match got with
  | None => Some ([], with_lru rc lru)
  | Some item => stats ← item_GetAll item; Some (stats, with_lru rc lru)
  end.

Definition NumKeys (rc : ReadCache) : option Z := '(length, _, _, _) ← Stats (rc_lru rc); Some length.
Definition rc_Size (rc : ReadCache) : option Z := '(_, size, _, _) ← Stats (rc_lru rc); Some size.

End readcache.

(** ** Theorems *)

Section items.
Context `{!GoSort}.

Definition stat_point (x : StatRepr) : point :=
  mkPoint (Time x) (Min x) (Max x) (Last x) (Sum x) (Count x).

(** The message of a statistic, and its bytes. *)
Definition stat_msg (x : StatRepr) : ProtStat := proto_stat false (stat_point x).
Definition stat_bytes (x : StatRepr) : Z := Wire.Size (stat_msg x).

(** How many points are added until the bytes [acc] are over [mb]. *)
Fixpoint room (mb acc : Z) (xs : list StatRepr) : nat :=
  match xs with
  | [] => 0
  | x :: xs => if acc >? mb then 0 else S (room mb (acc + stat_bytes x) xs)
  end.

Lemma room_over (mb acc : Z) (xs : list StatRepr) : mb < acc -> room mb acc xs = 0%nat.
Proof. intros Hlt. destruct xs; cbn; [done|]. by if_true. Qed.

Lemma stat_bytes_bound (x : StatRepr) : 0 <= stat_bytes x <= 62.
Proof. apply proto_stat_Size. Qed.

Definition bytes_of (xs : list StatRepr) : Z := foldr (fun x n => stat_bytes x + n) 0 xs.

Lemma bytes_of_bound (xs : list StatRepr) : 0 <= bytes_of xs <= 62 * len xs.
Proof.
  unfold bytes_of, len. induction xs as [|x xs IH]; [done|]. cbn [foldr length]. pose proof (stat_bytes_bound x). lia.
Qed.

(** An item with the messages [h] that counts [n] bytes. *)
Record item_holds (mb : Z) (h : list ProtStat) (n : Z) (rc : ReadCacheItem) : Prop := {
  ih_stats : pb_Stats (rci_Data rc) = mkProtStats false h;
  ih_len : pb_len (rci_Data rc) = n;
  ih_max : rci_MaxBytes rc = mb
}.

Lemma pb_AddStat_holds (s : ProtobufTimeSeries) (h : list ProtStat) (n : Z) (x : StatRepr) :
  pb_Stats s = mkProtStats false h -> pb_len s = n -> - 2 ^ 63 <= n < 2 ^ 62 ->
  pb_Stats (pb_AddStat s x).2 = mkProtStats false (h ++ [stat_msg x]) /\
  pb_len (pb_AddStat s x).2 = n + stat_bytes x.
Proof.
  intros Hs Hl Hn. pose proof (stat_bytes_bound x). unfold pb_AddStat, pb_AddPoint.
  cbn [snd pb_Stats pb_len]. rewrite Hs, Hl. cbn [pst_FullTimeResolution pst_Stats].
  fold (stat_point x) (stat_msg x) (stat_bytes x). split; [done|]. apply i64_small. lia.
Qed.

Lemma item_Add_holds (mb : Z) (h : list ProtStat) (n : Z) (rc : ReadCacheItem) (x : StatRepr) :
  item_holds mb h n rc -> (mb < n -> h <> []) -> - 2 ^ 63 <= n < 2 ^ 62 ->
  exists rc', item_Add rc x = Some rc' /\
    item_holds mb ((if n >? mb then drop 1 h else h) ++ [stat_msg x]) (n + stat_bytes x) rc'.
Proof.
  intros [Hs Hl Hm] Hne Hn. unfold item_Add, add_at.
  assert (Hd : exists data, drop_oldest rc = Some data /\
    pb_Stats data = mkProtStats false (if n >? mb then drop 1 h else h) /\ pb_len data = n).
  { unfold drop_oldest, pb_Len. rewrite Hl, Hm, Hs. destruct (n >? mb) eqn:E; bool_to_prop; [|by eexists].
    destruct h as [|m h]; [by destruct (Hne E)|]. by eexists. }
  destruct Hd as (data & -> & Hds & Hdl). cbn [mbind option_bind].
  destruct (pb_AddStat_holds data _ n x Hds Hdl Hn) as [H1 H2]. eexists. split; [done|]. by split.
Qed.

Lemma add_all_holds (mb : Z) (xs : list StatRepr) (h : list ProtStat) (n : Z) (rc : ReadCacheItem) :
  item_holds mb h n rc -> (mb < n -> h <> []) -> 0 <= n -> n + 62 * len xs < 2 ^ 62 ->
  exists rc', add_all rc xs = Some rc' /\
    item_holds mb (drop (length xs - room mb n xs) (h ++ map stat_msg xs)) (n + bytes_of xs) rc'.
Proof.
  revert h n rc. induction xs as [|x xs IH]; intros h n rc Hh Hne Hn Hlen.
  - exists rc. split; [done|]. cbn. rewrite app_nil_r, drop_0, Z.add_0_r. done.
  - pose proof (stat_bytes_bound x). assert (Hl2 : len (x :: xs) = 1 + len xs) by (unfold len; cbn [length]; lia).
    assert (0 <= len xs) by (unfold len; lia).
    destruct (item_Add_holds mb h n rc x Hh Hne) as (rc1 & E1 & Ha); [lia|]. cbn [add_all]. rewrite E1. cbn [mbind option_bind].
    destruct (IH _ _ rc1 Ha) as (rc2 & E2 & Hb); [intros _; by destruct (if n >? mb then drop 1 h else h)|lia|lia|].
    exists rc2. split; [done|]. cbn [bytes_of foldr]. fold (bytes_of xs). rewrite Z.add_assoc.
    assert (Hdrop : drop (length xs - room mb (n + stat_bytes x) xs)
                      (((if n >? mb then drop 1 h else h) ++ [stat_msg x]) ++ map stat_msg xs) =
                    drop (length (x :: xs) - room mb n (x :: xs)) (h ++ map stat_msg (x :: xs))).
    { cbn [room length map]. rewrite <- app_assoc. destruct (n >? mb) eqn:E; bool_to_prop.
      - rewrite room_over by lia. destruct h as [|m h]; [by destruct (Hne E)|]. cbn. by rewrite Nat.sub_0_r.
      - done. }
    by rewrite <- Hdrop.
Qed.

(** The statistic a read shows for a point: the seconds of its time. *)
Definition shown (x : StatRepr) : StatRepr :=
  let p := stat_point x in
  let t := (splitNano (Time x)).1 in
  if (Count x =? 1) || sameFloatVals (Min x) (Max x) (Last x) (Sum x) then
    let v := CheckFloat (Sum x) in mkRepr None t v v v v 1
  else mkRepr None t (CheckFloat (Min x)) (CheckFloat (Max x)) (CheckFloat (Last x)) (CheckFloat (Sum x)) (Count x).

Lemma repr_values_shown (l : list ProtStat) (xs : list StatRepr) (k fuel : nat) (cur : option ProtStat) :
  drop k l = map stat_msg xs -> (length xs < fuel)%nat ->
  repr_values fuel (mkProtobufIter l k (length l) cur false false None) =
  Some (filter (fun s => Time s <> 0) (map shown xs)).
Proof.
  revert k cur fuel. induction xs as [|x xs IH]; intros k cur fuel Hd Hf; (destruct fuel as [|fuel]; [cbn in Hf; lia|]).
  - apply (f_equal length) in Hd. rewrite length_drop in Hd. cbn in Hd.
    cbn [repr_values]. unfold pi_Next. cbn [pi_finished pi_statLen pi_curIdx orb].
    rewrite (proj2 (Nat.leb_le _ _)) by lia. done.
  - cbn [map] in Hd.
    assert (Hk : l !! k = Some (stat_msg x)) by (rewrite <- (Nat.add_0_r k), <- lookup_drop, Hd; done).
    assert (Hr : drop (S k) l = map stat_msg xs) by (replace (S k) with (k + 1)%nat by lia; by rewrite <- drop_drop, Hd).
    pose proof (lookup_lt_Some _ _ _ Hk). cbn [repr_values]. unfold pi_Next at 1.
    cbn [pi_finished pi_statLen pi_curIdx pi_Stats pi_fullResolution pi_err orb].
    rewrite (proj2 (Nat.leb_gt _ _)) by lia. rewrite Hk. cbn [mbind option_bind negb].
    assert (Hv : pi_ReprValue (mkProtobufIter l (S k) (length l) (Some (stat_msg x)) false false None) = Some (shown x)).
    { unfold pi_ReprValue, stat_msg, proto_stat, shown, stat_point. cbn [pi_curStat mbind option_bind pt_count pt_min pt_max pt_last pt_sum pt_time].
      by destruct (_ || _). }
    rewrite Hv. cbn [mbind option_bind]. rewrite (IH (S k)) by (done || cbn in Hf; lia). cbn [mbind option_bind map].
    rewrite filter_cons. destruct (Time (shown x) =? 0) eqn:E; bool_to_prop; [by rewrite decide_False by tauto|].
    by rewrite decide_True.
Qed.


Lemma new_item_holds (mb : Z) : item_holds mb [] 0 (NewReadCacheItem mb).
Proof. by split. Qed.

(** The points that are kept: the newest ones, as many as were added when
    the bytes went over the limit. *)
Definition kept (mb : Z) (xs : list StatRepr) : list StatRepr := drop (length xs - room mb 0 xs) xs.

Lemma room_le (mb acc : Z) (xs : list StatRepr) : (room mb acc xs <= length xs)%nat.
Proof.
  revert acc. induction xs as [|x xs IH]; intros acc; cbn [room length]; [done|].
  case_if; [lia|]. specialize (IH (acc + stat_bytes x)). lia.
Qed.

Lemma length_kept (mb : Z) (xs : list StatRepr) : length (kept mb xs) = room mb 0 xs.
Proof. unfold kept. rewrite length_drop. pose proof (room_le mb 0 xs). lia. Qed.

(** The bytes of the kept points but one fit. *)
Lemma room_bytes (mb acc : Z) (xs : list StatRepr) :
  0 <= mb -> acc <= mb -> acc + bytes_of (take (room mb acc xs - 1) xs) <= mb.
Proof.
  intros Hmb. revert acc. induction xs as [|x xs IH]; intros acc Ha; cbn [room].
  - cbn. lia.
  - if_false. cbn [Nat.sub]. rewrite Nat.sub_0_r.
    destruct (decide (mb < acc + stat_bytes x)) as [Hover|Hfit].
    + rewrite room_over by done. cbn [take bytes_of foldr]. lia.
    + specialize (IH (acc + stat_bytes x) ltac:(lia)).
      destruct (room mb (acc + stat_bytes x) xs) as [|r]; cbn [take bytes_of foldr Nat.sub] in *; [lia|].
      rewrite Nat.sub_0_r in IH. fold (bytes_of (take r xs)) in *. lia.
Qed.

Lemma sort_stats_sorted (l : list StatRepr) : sorted (fun a b => Time a <? Time b) (sort_stats l).
Proof.
  apply sort_sorted. constructor.
  - intros x _. apply Z.ltb_irrefl.
  - intros x y z _ _ _. rewrite !Z.ltb_lt. lia.
  - intros x y z _ _ _. rewrite !Z.ltb_ge. lia.
Qed.

(** ** Properties *)

(** An item of the read cache is a window on the newest points.  Add
    any points to a new item with a limit of bytes: nothing panics, and the
    item holds the newest of them, as many as had been added when the bytes
    first went over the limit (all but the last of that many fit).  A read
    of a range returns exactly the kept points in it, at the resolution of
    seconds, sorted by time.  The size the item reports is the bytes of all
    the points that were ever added. *)
Theorem read_item_window (mb : Z) (xs : list StatRepr) (from to : Z) :
  0 <= mb -> 62 * len xs < 2 ^ 62 ->
  exists rc, add_all (NewReadCacheItem mb) xs = Some rc /\
    pst_Stats (pb_Stats (rci_Data rc)) = map stat_msg (kept mb xs) /\
    length (kept mb xs) = room mb 0 xs /\ bytes_of (take (room mb 0 xs - 1) xs) <= mb /\
    LRU.Size rc = bytes_of xs /\
    exists stats first last, item_Get rc from to = Some (stats, first, last) /\
      stats ≡ₚ filter (fun s => (i64 from <=? i64 (ToTime s)) && (i64 to >=? i64 (ToTime s)) = true)
                 (filter (fun s => Time s <> 0) (map shown (kept mb xs))) /\
      sorted (fun a b => Time a <? Time b) stats.
Proof.
  intros Hmb Hlen. destruct (add_all_holds mb xs [] 0 _ (new_item_holds mb)) as (rc & E & [Hs Hl Hm]); [lia|lia|done|].
  exists rc. cbn [app] in Hs. rewrite Z.add_0_l in Hl.
  assert (Hk : pst_Stats (pb_Stats (rci_Data rc)) = map stat_msg (kept mb xs)).
  { rewrite Hs. cbn. unfold kept. change (map stat_msg xs) with (stat_msg <$> xs). by rewrite <- fmap_drop. }
  split; [done|]. split; [done|]. split; [apply length_kept|]. split; [apply (room_bytes mb 0 xs); lia|]. split; [done|].
  unfold item_Get, item_values, pb_Iter. rewrite Hs. cbn [pst_FullTimeResolution]. unfold NewProtobufIter, pi_set_fullResolution.
  rewrite <- Hs, Hk. cbn [pi_Stats pi_curIdx pi_statLen pi_curStat pi_finished pi_err].
  rewrite (repr_values_shown _ (kept mb xs)) by (rewrite ?drop_0, ?length_map; (done || lia)). cbn [mbind option_bind].
  eexists _, _, _. split; [done|]. split; [apply sort_perm | apply sort_stats_sorted].
Qed.


(** ** The cache *)

Lemma without_front (k : string) (e : entry ReadCacheItem) (l : list (entry ReadCacheItem)) :
  e_key e = k -> without k (e :: without k l) = without k l.
Proof.
  intros Hk. unfold without. rewrite filter_cons_False by tauto. rewrite list_filter_filter.
  apply list_filter_iff. tauto.
Qed.

(** Only active metrics take points.  Putting a point for a metric
    that is not in the cache answers false and leaves the entries as they
    are; for a metric in the cache it answers true, and the metric's item
    with the point added becomes the most recent entry, with the size the
    item reports, after which at most one entry is evicted. *)
Theorem read_cache_put (rc : ReadCache) (l : list (entry ReadCacheItem)) (metric : string) (stat : StatRepr) (now : Z) :
  metric <> ""%string -> lru_repr (rc_lru rc) l ->
  match find_key metric l with
  | None => exists rc', rc_Put rc metric stat now = Some (false, rc') /\ lru_repr (rc_lru rc') l
  | Some e =>
      forall item, item_Add (e_value e) stat = Some item ->
      exists rc', rc_Put rc metric stat now = Some (true, rc') /\
        lru_repr (rc_lru rc') (spec_evict (capacity (rc_lru rc)) (mkEntry metric item (LRU.Size item) now :: without metric l)).2
  end.
Proof.
  intros Hne Hr. unfold rc_Put. rewrite bool_decide_false by done. cbn [mbind option_bind]. unfold update.
  destruct (Get_refines (rc_lru rc) l metric now Hr) as (lru' & -> & Hr' & Hc). unfold spec_get in *.
  destruct (find_key metric l) as [e|] eqn:Ef; cbn [fst snd mbind option_bind] in *; [|by eexists].
  intros item ->. cbn [mbind option_bind]. unfold store.
  destruct (Set_refines lru' _ metric item now Hr') as (lru2 & E2 & Hr2 & Hc2). cbn [rc_lru with_lru]. rewrite E2.
  destruct (spec_set _ _ _ _ _) as [[rk rv] l2] eqn:Es. cbn [fst snd mbind option_bind] in *. eexists. split; [done|]. cbn.
  unfold spec_set in Es. rewrite Hc, without_front in Es; [by rewrite Es|].
  unfold find_key in Ef. destruct (list_find _ l) as [[i x]|] eqn:El; [|done]. cbn in Ef. injection Ef as <-.
  by apply list_find_Some in El as (_ & ? & _).
Qed.

End items.

(** ** Examples *)

#[local] Existing Instance insertion_GoSort.

Definition read_stat (t : Z) : StatRepr :=
  mkRepr (Some (mkName "a" 0 "" 0 0 TAG_METRICS2 HASH_FNV [] [])) (t * 10 ^ 9) (float_of_Z 1) (float_of_Z 1) (float_of_Z 1)
    (float_of_Z 1) 1.

Definition read_stats : list StatRepr := map read_stat [1500000000; 1500000010; 1500000020; 1500000030; 1500000040].

Lemma read_item_window_witness :
  exists rc, add_all (NewReadCacheItem 40) read_stats = Some rc /\
    pst_Stats (pb_Stats (rci_Data rc)) = map stat_msg (kept 40 read_stats).
Proof.
  destruct (read_item_window 40 read_stats 0 (2 ^ 62) ltac:(lia) ltac:(vm_compute; reflexivity)) as (rc & H1 & H2 & _).
  exact (ex_intro _ rc (conj H1 H2)).
Defined.

(** Three of five points are kept, but the item reports the bytes of all
    five; the first time is the latest one and the last the earliest. *)
Example read_item_divergences :
  match add_all (NewReadCacheItem 40) read_stats with
  | Some rc =>
      (length (pst_Stats (pb_Stats (rci_Data rc))), LRU.Size rc, bytes_of (kept 40 read_stats)) = (3%nat, 85, 51) /\
      option_map (fun r => (r.1.2, r.2)) (item_Get rc 0 (2 ^ 62)) =
        Some (Some (1500000040 * 10 ^ 9), Some (1500000020 * 10 ^ 9))
  | None => False
  end.
Proof. by vm_compute. Qed.

Definition read_sample : ReadCache :=
  match ActivateMetric (NewReadCache 1000 40) "a" [read_stat 1500000000] 5 with Some (_, rc) => rc | None => NewReadCache 0 0 end.

Definition read_item : ReadCacheItem :=
  default (NewReadCacheItem 0) (add_all (NewReadCacheItem 40) [read_stat 1500000000]).

Lemma read_sample_repr : lru_repr (rc_lru read_sample) [mkEntry "a" read_item 17 5].
Proof.
  destruct (Set_refines (NewLRUCache 1000) [] "a" read_item 5) as (lru' & E & Hr & _).
  { apply NewLRUCache_repr. unfold in_width. lia. }
  assert (Hs : rc_lru read_sample = match Set_ (NewLRUCache 1000) "a" read_item 5 with
                                    | Some (_, lru) => lru | None => NewLRUCache 0 end) by (vm_compute; reflexivity).
  rewrite Hs, E. exact Hr.
Qed.

Lemma read_cache_put_witness :
  exists rc', rc_Put read_sample "b" (read_stat 1500000010) 6 = Some (false, rc') /\
    lru_repr (rc_lru rc') [mkEntry "a" read_item 17 5].
Proof.
  exact (read_cache_put read_sample [mkEntry "a" read_item 17 5] "b" (read_stat 1500000010) 6 ltac:(discriminate)
           read_sample_repr).
Defined.
