(* ===== verification/Dispatch.v ===== *)
(** [dispatch/dispatch.go]: a queue of jobs, a dispatcher and its workers.

    The goroutines are a step relation.  The queue is a channel with room
    for [cap] jobs; the dispatcher takes a job from it and then waits for a
    worker; a worker puts its own channel into the pool and then waits for
    a job or for the signal to stop, works on the job, and puts a job that
    failed, after all the tries of the back-off, back into the queue.  The
    pool has room for every worker, so a worker never waits to put its
    channel there, and a worker whose channel is in the pool waits on it:
    that is [WIdle].  Whether a job fails is up to the job.

    The dispatcher: no job is lost or done twice, the queue keeps its
    bound, the only state in which unfinished jobs are stuck is the one in
    which the queue is full and every worker waits to put a job back, that
    state can be reached, and without failures everything is done. *)
From AAC_tactics Require Import AAC.
From AAC_tactics Require Instances.
From S2P Require Import Prelude.

(** What a worker does. *)
Inductive worker (J : Type) :=
| WIdle
| WWorking (job : J)
| WRequeue (job : J)
| WStopped.

Arguments WIdle {J}.
Arguments WWorking {J} job.
Arguments WRequeue {J} job.
Arguments WStopped {J}.

(** What the dispatcher does: it waits for a job or for the signal to
    shut down, it holds a job and waits for a worker, it stops the workers
    one after the other, or it has returned. *)
Inductive dispatcher (J : Type) :=
| DWaiting
| DHolding (job : J)
| DStopping (next : nat)
| DReturned.

Arguments DWaiting {J}.
Arguments DHolding {J} job.
Arguments DStopping {J} next.
Arguments DReturned {J}.

Section dispatch.
Context {J : Type}.
Variable cap : nat.

Record DispatchQueue := mkDispatch {
  jobQueue : list J;
  dispatch : dispatcher J;
  workers : list (worker J);
  finished : list J
}.

(** [NewDispatchQueue] and [Run]. *)
Definition NewDispatchQueue (numworkers : nat) : DispatchQueue :=
  mkDispatch [] DWaiting (replicate numworkers WIdle) [].

(** The steps: [Add] of a caller, which waits while the queue is full; the
    dispatcher takes a job and gives it to worker [i]; worker [i] is done
    with its job, or has failed for good, and puts the failed job back;
    [Shutdown] of a caller, the dispatcher stops the next worker, which has
    to be waiting, and returns. *)
Inductive label :=
| LAdd (job : J)
| LTake
| LAssign (i : nat)
| LDone (i : nat)
| LFail (i : nat)
| LRequeue (i : nat)
| LShutdown
| LStop
| LReturn.

Inductive step : DispatchQueue -> label -> DispatchQueue -> Prop :=
| step_Add q d ws fin job :
    (length q < cap)%nat ->
    step (mkDispatch q d ws fin) (LAdd job) (mkDispatch (q ++ [job]) d ws fin)
| step_take q ws fin job :
    step (mkDispatch (job :: q) DWaiting ws fin) LTake (mkDispatch q (DHolding job) ws fin)
| step_assign q ws fin job i :
    ws !! i = Some WIdle ->
    step (mkDispatch q (DHolding job) ws fin) (LAssign i) (mkDispatch q DWaiting (<[i := WWorking job]> ws) fin)
| step_done q d ws fin job i :
    ws !! i = Some (WWorking job) ->
    step (mkDispatch q d ws fin) (LDone i) (mkDispatch q d (<[i := WIdle]> ws) (fin ++ [job]))
| step_failed q d ws fin job i :
    ws !! i = Some (WWorking job) ->
    step (mkDispatch q d ws fin) (LFail i) (mkDispatch q d (<[i := WRequeue job]> ws) fin)
| step_requeue q d ws fin job i :
    ws !! i = Some (WRequeue job) -> (length q < cap)%nat ->
    step (mkDispatch q d ws fin) (LRequeue i) (mkDispatch (q ++ [job]) d (<[i := WIdle]> ws) fin)
| step_shutdown q ws fin :
    step (mkDispatch q DWaiting ws fin) LShutdown (mkDispatch q (DStopping 0) ws fin)
| step_stop q ws fin i :
    ws !! i = Some WIdle ->
    step (mkDispatch q (DStopping i) ws fin) LStop (mkDispatch q (DStopping (S i)) (<[i := WStopped]> ws) fin)
| step_return q ws fin :
    step (mkDispatch q (DStopping (length ws)) ws fin) LReturn (mkDispatch q DReturned ws fin).

(** The steps as a function. *)
Definition fire (st : DispatchQueue) (l : label) : option DispatchQueue :=
  let '(mkDispatch q d ws fin) := st in
  match l, d with
  | LAdd job, _ => if (length q <? cap)%nat then Some (mkDispatch (q ++ [job]) d ws fin) else None
  | LTake, DWaiting => match q with [] => None | job :: q => Some (mkDispatch q (DHolding job) ws fin) end
  | LAssign i, DHolding job =>
      match ws !! i with
      | Some WIdle => Some (mkDispatch q DWaiting (<[i := WWorking job]> ws) fin)
      | _ => None
      end
  | LDone i, _ =>
      match ws !! i with
      | Some (WWorking job) => Some (mkDispatch q d (<[i := WIdle]> ws) (fin ++ [job]))
      | _ => None
      end
  | LFail i, _ =>
      match ws !! i with
      | Some (WWorking job) => Some (mkDispatch q d (<[i := WRequeue job]> ws) fin)
      | _ => None
      end
  | LRequeue i, _ =>
      match ws !! i with
      | Some (WRequeue job) =>
          if (length q <? cap)%nat then Some (mkDispatch (q ++ [job]) d (<[i := WIdle]> ws) fin) else None
      | _ => None
      end
  | LShutdown, DWaiting => Some (mkDispatch q (DStopping 0) ws fin)
  | LStop, DStopping i =>
      match ws !! i with
      | Some WIdle => Some (mkDispatch q (DStopping (S i)) (<[i := WStopped]> ws) fin)
      | _ => None
      end
  | LReturn, DStopping i => if (i =? length ws)%nat then Some (mkDispatch q DReturned ws fin) else None
  | _, _ => None
  end.

Fixpoint fires (st : DispatchQueue) (ls : list label) : option DispatchQueue :=
  match ls with [] => Some st | l :: ls => st ← fire st l; fires st ls end.

(** Runs of the relation. *)
Inductive steps : DispatchQueue -> list label -> DispatchQueue -> Prop :=
| steps_nil st : steps st [] st
| steps_cons st l st' ls st'' : step st l st' -> steps st' ls st'' -> steps st (l :: ls) st''.

(** [Len]. *)
Definition queue_Len (st : DispatchQueue) : nat := length (jobQueue st).

End dispatch.

(** ** Theorems *)

Import Instances.Lists.

#[local] Instance perm_lift {A} : AAC_lift (@Permutation A) (@Permutation A) := Build_AAC_lift _ _.

Section dispatch.
Context {J : Type}.
Variable cap : nat.

Abbreviation state := (DispatchQueue (J:=J)).

Lemma fire_step (st st' : state) (l : label) : fire cap st l = Some st' <-> step cap st l st'.
Proof.
  split.
  - destruct st as [q d ws fin]. intros Hf.
    destruct l, d; cbn [fire] in Hf; simplify_eq; repeat (case_match; simplify_eq; try done);
      repeat match goal with H : (_ <? _)%nat = true |- _ => apply Nat.ltb_lt in H
                           | H : (_ =? _)%nat = true |- _ => apply Nat.eqb_eq in H; subst end;
      try done; econstructor; eauto.
  - destruct 1; cbn [fire]; repeat match goal with H : _ !! _ = Some _ |- _ => rewrite H end;
      repeat match goal with H : (_ < _)%nat |- _ => rewrite (proj2 (Nat.ltb_lt _ _) H) end;
      rewrite ?Nat.eqb_refl; try done; by destruct d.
Qed.

Lemma fires_steps (st st' : state) (ls : list label) : fires cap st ls = Some st' <-> steps cap st ls st'.
Proof.
  revert st. induction ls as [|l ls IH]; intros st; cbn.
  - split; [intros [= ->]; constructor|by inversion 1].
  - split.
    + destruct (fire cap st l) as [st1|] eqn:E; [|done]. cbn. intros Hr. econstructor; [by apply fire_step|by apply IH].
    + inversion 1 as [|? ? st1 ? ? Hs Hr]; subst. apply fire_step in Hs as ->. cbn. by apply IH.
Qed.

(** ** The jobs in a state *)

Definition held (d : dispatcher J) : list J := match d with DHolding job => [job] | _ => [] end.
Definition worker_job (w : worker J) : list J := match w with WWorking job | WRequeue job => [job] | _ => [] end.

Definition unfinished (st : state) : list J := jobQueue st ++ held (dispatch st) ++ (workers st ≫= worker_job).

Definition added (ls : list (label (J:=J))) : list J := ls ≫= (fun l => match l with LAdd job => [job] | _ => [] end).

Lemma workers_insert (ws : list (worker J)) (i : nat) (w w' : worker J) :
  ws !! i = Some w -> worker_job w ++ (<[i := w']> ws ≫= worker_job) ≡ₚ worker_job w' ++ (ws ≫= worker_job).
Proof.
  revert i. induction ws as [|x ws IH]; intros [|i] Hi; [done..| |]; cbn in *.
  - injection Hi as ->. rewrite !app_assoc. apply Permutation_app_tail, Permutation_app_comm.
  - rewrite !app_assoc, (Permutation_app_comm (worker_job w) (worker_job x)),
      (Permutation_app_comm (worker_job w') (worker_job x)), <- !app_assoc.
    apply Permutation_app_head. by apply IH.
Qed.

(** The jobs of the workers after a change of one of them. *)
Lemma workers_gain (ws : list (worker J)) (i : nat) (w w' : worker J) (l : list J) :
  ws !! i = Some w -> worker_job w' = l ++ worker_job w -> <[i := w']> ws ≫= worker_job ≡ₚ l ++ (ws ≫= worker_job).
Proof.
  intros Hi E. pose proof (workers_insert ws i w w' Hi) as Hw. rewrite E in Hw.
  apply (Permutation_app_inv_l (worker_job w)). rewrite Hw. aac_reflexivity.
Qed.

Lemma workers_lose (ws : list (worker J)) (i : nat) (w w' : worker J) (l : list J) :
  ws !! i = Some w -> worker_job w = l ++ worker_job w' -> ws ≫= worker_job ≡ₚ l ++ (<[i := w']> ws ≫= worker_job).
Proof.
  intros Hi E. pose proof (workers_insert ws i w w' Hi) as Hw. rewrite E in Hw.
  apply (Permutation_app_inv_l (worker_job w')). rewrite <- Hw. aac_reflexivity.
Qed.

(** One step: the jobs, the number of workers and the bound. *)
Lemma step_keeps (st st' : state) (l : label) :
  step cap st l st' ->
  finished st' ++ unfinished st' ≡ₚ (finished st ++ unfinished st) ++ added [l] /\
  length (workers st') = length (workers st) /\
  ((length (jobQueue st) <= cap)%nat -> (length (jobQueue st') <= cap)%nat).
Proof.
  destruct 1 as [q d ws fin job Hq|q ws fin job|q ws fin job i Hi|q d ws fin job i Hi|q d ws fin job i Hi
                |q d ws fin job i Hi Hq|q ws fin|q ws fin i Hi|q ws fin];
    unfold unfinished; cbn [jobQueue dispatch workers finished held];
    (split; [|split; [by rewrite ?length_insert|rewrite ?length_app; cbn [length]; lia]]).
  - change (added [LAdd job]) with [job]. aac_reflexivity.
  - change (job :: q) with ([job] ++ q). change (added [LTake]) with (@nil J). aac_reflexivity.
  - rewrite (workers_gain ws i WIdle (WWorking job) [job] Hi eq_refl). change (added [LAssign i]) with (@nil J).
    aac_reflexivity.
  - rewrite (workers_lose ws i (WWorking job) WIdle [job] Hi eq_refl). change (added [LDone i]) with (@nil J).
    aac_reflexivity.
  - rewrite (workers_gain ws i (WWorking job) (WRequeue job) [] Hi eq_refl). change (added [LFail i]) with (@nil J).
    aac_reflexivity.
  - rewrite (workers_lose ws i (WRequeue job) WIdle [job] Hi eq_refl). change (added [LRequeue i]) with (@nil J).
    aac_reflexivity.
  - change (added [LShutdown]) with (@nil J). aac_reflexivity.
  - rewrite (workers_gain ws i WIdle WStopped [] Hi eq_refl). change (added [LStop]) with (@nil J). aac_reflexivity.
  - change (added [LReturn]) with (@nil J). aac_reflexivity.
Qed.

Lemma steps_keep (st st' : state) (ls : list label) :
  steps cap st ls st' ->
  finished st' ++ unfinished st' ≡ₚ (finished st ++ unfinished st) ++ added ls /\
  length (workers st') = length (workers st) /\
  ((length (jobQueue st) <= cap)%nat -> (length (jobQueue st') <= cap)%nat).
Proof.
  induction 1 as [st|st l st1 ls st2 Hs _ (IHp & IHw & IHq)].
  - unfold added. cbn. rewrite app_nil_r. done.
  - destruct (step_keeps _ _ _ Hs) as (Hp & Hw & Hq). split; [|split; [congruence|auto]].
    rewrite IHp, Hp. change (l :: ls) with ([l] ++ ls). unfold added at 3. rewrite bind_app. fold (added [l]) (added ls).
    aac_reflexivity.
Qed.

(** ** Without a shutdown *)

(** The steps of the program, not of its callers. *)
Definition own (l : label (J:=J)) : bool := match l with LAdd _ | LShutdown => false | _ => true end.
Definition is_fail (l : label (J:=J)) : bool := match l with LFail _ => true | _ => false end.
Definition is_shutdown (l : label (J:=J)) : bool := match l with LShutdown => true | _ => false end.

(** The dispatcher and the workers run. *)
Definition running (st : state) : Prop :=
  match dispatch st with DWaiting | DHolding _ => True | _ => False end /\
  Forall (fun w => w <> WStopped) (workers st).

Lemma running_step (st st' : state) (l : label) :
  step cap st l st' -> is_shutdown l = false -> running st -> running st'.
Proof.
  unfold running. destruct 1; cbn; intros Hl [Hd Hw]; try done; split; try done; by apply Forall_insert.
Qed.

Lemma running_fires (ls : list label) (st st' : state) :
  fires cap st ls = Some st' -> forallb (fun l => negb (is_shutdown l)) ls = true -> running st -> running st'.
Proof.
  rewrite fires_steps. induction 1 as [|st l st1 ls st2 Hs _ IH]; [done|]. cbn. intros [Hl Hls]%andb_true_iff Hr.
  apply IH; [done|]. eapply running_step; [done| |done]. by destruct (is_shutdown l).
Qed.

Lemma running_new (n : nat) : running (NewDispatchQueue n).
Proof. split; [done|]. cbn. apply Forall_replicate. done. Qed.

(** No step of the program is possible. *)
Definition blocked (st : state) : Prop := forall l, own l = true -> fire cap st l = None.

(** The queue is full, the dispatcher holds a job, and every worker waits
    to put one back. *)
Definition jammed (st : state) : Prop :=
  (exists job, dispatch st = DHolding job) /\ Forall (fun w => exists job, w = WRequeue job) (workers st) /\
  (cap <= length (jobQueue st))%nat.

Lemma jammed_blocked (st : state) : jammed st -> blocked st.
Proof.
  destruct st as [q d ws fin]. intros ((job & E) & Hw & Hq) l Hl.
  cbn [jobQueue dispatch workers] in *. subst d.
  rewrite Forall_lookup in Hw. destruct l; try done; cbn [fire]; destruct (ws !! i) as [w|] eqn:Ei; try done;
    destruct (Hw _ _ Ei) as [j ->]; rewrite ?(proj2 (Nat.ltb_ge (length q) cap) Hq); done.
Qed.

(** A worker with a job can go on, unless the queue is full. *)
Lemma worker_moves (st : state) (i : nat) (w : worker J) :
  workers st !! i = Some w -> worker_job w <> [] -> (length (jobQueue st) < cap)%nat -> ~ blocked st.
Proof.
  destruct st as [q d ws fin]. cbn. intros Hi Hw Hq Hb. destruct w as [|job|job|]; try done.
  - specialize (Hb (LDone i) eq_refl). cbn [fire] in Hb. by rewrite Hi in Hb.
  - specialize (Hb (LRequeue i) eq_refl). cbn [fire] in Hb. by rewrite Hi, (proj2 (Nat.ltb_lt _ _)) in Hb.
Qed.

Lemma worker_with_job (ws : list (worker J)) :
  ws ≫= worker_job <> [] -> exists i w, ws !! i = Some w /\ worker_job w <> [].
Proof.
  induction ws as [|w ws IH]; cbn; [done|]. intros Hne. destruct (worker_job w) eqn:E.
  - destruct IH as (i & w' & Hi & Hw); [done|]. by exists (S i), w'.
  - exists 0%nat, w. by rewrite E.
Qed.

Lemma blocked_jammed (st : state) :
  (0 < cap)%nat -> workers st <> [] -> running st -> unfinished st <> [] -> blocked st -> jammed st.
Proof.
  intros Hcap Hne [Hd Hw] Hun Hb. destruct (dispatch st) as [|job| |] eqn:Ed; try done.
  - exfalso. destruct (jobQueue st) as [|j q] eqn:Eq.
    + unfold unfinished in Hun. rewrite Ed, Eq in Hun. cbn in Hun. apply worker_with_job in Hun as (i & w & Hi & Hj).
      eapply worker_moves; [exact Hi|exact Hj| |exact Hb]. rewrite Eq. done.
    + specialize (Hb LTake eq_refl). destruct st as [q' d ws fin]. cbn in *. by subst.
  - split; [by exists job|]. rewrite Forall_lookup in Hw.
    assert (Hreq : Forall (fun w => exists job, w = WRequeue job) (workers st)).
    { apply Forall_lookup. intros i w Hi. destruct st as [q d ws fin]. cbn in *. subst d. destruct w as [|j|j|].
      - specialize (Hb (LAssign i) eq_refl). cbn [fire] in Hb. by rewrite Hi in Hb.
      - specialize (Hb (LDone i) eq_refl). cbn [fire] in Hb. by rewrite Hi in Hb.
      - by exists j.
      - by destruct (Hw _ _ Hi). }
    split; [done|]. destruct (decide (cap <= length (jobQueue st))%nat) as [|Hlt]; [done|]. exfalso.
    destruct (workers st) as [|w ws] eqn:Ews; [done|]. apply Forall_cons in Hreq as [[j ->] _].
    eapply (worker_moves st 0); [by rewrite Ews|done|lia|done].
Qed.

(** ** Reaching the jam *)

Lemma fires_app (st : state) (ls ks : list label) : fires cap st (ls ++ ks) = fires cap st ls ≫= (fun st => fires cap st ks).
Proof. revert st. induction ls as [|l ls IH]; intros st; cbn; [done|]. destruct (fire cap st l); cbn; [apply IH|done]. Qed.

(** Job [j] for each of the workers from [i] on. *)
Fixpoint give (j : J) (i n : nat) : list label :=
  match n with O => [] | S n => LAdd j :: LTake :: LAssign i :: give j (S i) n end.

Lemma fires_give (j : J) (n i : nat) (pre : list (worker J)) (fin : list J) :
  (0 < cap)%nat -> length pre = i ->
  fires cap (mkDispatch [] DWaiting (pre ++ replicate n WIdle) fin) (give j i n) =
  Some (mkDispatch [] DWaiting (pre ++ replicate n (WWorking j)) fin).
Proof.
  intros Hc. revert i pre. induction n as [|n IH]; intros i pre Hp; [done|]. cbn [give fires fire length].
  rewrite (proj2 (Nat.ltb_lt 0 cap) Hc). cbn [mbind option_bind app fire].
  rewrite lookup_app_r, Hp, Nat.sub_diag by lia. cbn [replicate lookup list_lookup mbind option_bind].
  rewrite insert_app_r_alt, Hp, Nat.sub_diag by lia. cbn [insert list_insert].
  change (WIdle :: replicate n WIdle) with ([WIdle] ++ replicate n (@WIdle J)).
  specialize (IH (S i) (pre ++ [WWorking j])). rewrite <- !app_assoc in IH. cbn [app] in *. apply IH.
  rewrite length_app. cbn. lia.
Qed.

Lemma fires_fail (j : J) (n i : nat) (pre : list (worker J)) (fin : list J) :
  length pre = i ->
  fires cap (mkDispatch [] DWaiting (pre ++ replicate n (WWorking j)) fin) (map LFail (seq i n)) =
  Some (mkDispatch [] DWaiting (pre ++ replicate n (WRequeue j)) fin).
Proof.
  revert i pre. induction n as [|n IH]; intros i pre Hp; [done|]. cbn [seq map fires fire].
  rewrite lookup_app_r, Hp, Nat.sub_diag by lia. cbn [replicate lookup list_lookup mbind option_bind].
  rewrite insert_app_r_alt, Hp, Nat.sub_diag by lia. cbn [insert list_insert].
  specialize (IH (S i) (pre ++ [WRequeue j])). rewrite <- !app_assoc in IH. cbn [app] in *. apply IH.
  rewrite length_app. cbn. lia.
Qed.

Lemma fires_fill (j : J) (n : nat) (q : list J) (d : dispatcher J) (ws : list (worker J)) (fin : list J) :
  (length q + n <= cap)%nat ->
  fires cap (mkDispatch q d ws fin) (replicate n (LAdd j)) = Some (mkDispatch (q ++ replicate n j) d ws fin).
Proof.
  revert q. induction n as [|n IH]; intros q Hq; cbn [replicate fires]; [by rewrite app_nil_r|].
  cbn [fire]. rewrite (proj2 (Nat.ltb_lt (length q) cap)) by lia. cbn [mbind option_bind].
  rewrite IH by (rewrite length_app; cbn; lia). by rewrite <- app_assoc.
Qed.

Definition jam (j : J) (n : nat) : list label :=
  give j 0 n ++ map LFail (seq 0 n) ++ [LAdd j; LTake] ++ replicate cap (LAdd j).

Lemma fires_jam (j : J) (n : nat) :
  (0 < cap)%nat ->
  fires cap (NewDispatchQueue n) (jam j n) =
  Some (mkDispatch (replicate cap j) (DHolding j) (replicate n (WRequeue j)) []).
Proof.
  intros Hc. unfold jam, NewDispatchQueue.
  pose proof (fires_give j n 0 [] [] Hc eq_refl) as Hg. pose proof (fires_fail j n 0 [] [] eq_refl) as Hx.
  cbn [app] in Hg, Hx. rewrite fires_app, Hg. cbn [mbind option_bind]. rewrite fires_app, Hx. cbn [mbind option_bind app].
  cbn [fires fire length]. rewrite (proj2 (Nat.ltb_lt 0 cap) Hc). cbn [mbind option_bind app fire].
  apply (fires_fill j cap []). cbn. lia.
Qed.

(** ** Properties *)

(** No job is lost and none is done twice.  After any run the jobs
    that are done together with those in the queue, in the hands of the
    dispatcher and with the workers are exactly the jobs that were added;
    the queue holds no more than it has room for, and there are as many
    workers as at the start. *)
Theorem dispatch_keeps_jobs (n : nat) (ls : list label) (st : state) :
  fires cap (NewDispatchQueue n) ls = Some st ->
  finished st ++ unfinished st ≡ₚ added ls /\ (length (jobQueue st) <= cap)%nat /\ length (workers st) = n.
Proof.
  intros Hf. apply fires_steps, steps_keep in Hf as (Hp & Hw & Hq). split; [|split].
  - rewrite Hp. unfold unfinished. cbn. assert (E : replicate n WIdle ≫= worker_job = @nil J) by (clear; induction n as [|n IH]; [done|exact IH]).
    by rewrite E.
  - apply Hq. cbn. lia.
  - rewrite Hw. cbn. apply length_replicate.
Qed.

(** C27: When the dispatcher is stuck.  In a run without a shutdown, with
    at least one worker and room for a job, unfinished jobs are stuck in
    exactly one kind of state: the queue is full, the dispatcher holds a
    job, and every worker waits to put a failed job back into the queue.
    Such a state is reached, whatever the number of workers and the room of
    the queue, when every worker fails while the queue fills up. *)
Theorem dispatch_jam (n : nat) (j : J) :
  (0 < cap)%nat -> (0 < n)%nat ->
  (forall ls st, fires cap (NewDispatchQueue n) ls = Some st ->
     forallb (fun l => negb (is_shutdown l)) ls = true -> unfinished st <> [] -> (blocked st <-> jammed st)) /\
  exists ls st, fires cap (NewDispatchQueue n) ls = Some st /\
    forallb (fun l => negb (is_shutdown l)) ls = true /\ unfinished st <> [] /\ blocked st.
Proof.
  intros Hc Hn. split.
  - intros ls st Hf Hs Hun. split; [|apply jammed_blocked]. apply blocked_jammed; try done.
    + apply fires_steps, steps_keep in Hf as (_ & Hw & _). cbn in Hw. rewrite length_replicate in Hw.
      destruct (workers st); [cbn in Hw; lia|done].
    + eapply running_fires; [done|done|apply running_new].
  - exists (jam j n). eexists. split; [by apply fires_jam|]. split_and!.
    + unfold jam. rewrite !forallb_app. apply andb_true_iff. split.
      { clear. generalize 0%nat. induction n as [|n IH]; intros i; [done|]. cbn. apply IH. }
      apply andb_true_iff. split; [clear; induction (seq 0 n) as [|i l IH]; [done|exact IH]|].
      cbn. clear. induction cap as [|m IH]; [done|exact IH].
    + unfold unfinished. cbn. intros E. apply (f_equal length) in E. rewrite length_app in E. cbn in E. lia.
    + apply jammed_blocked. split_and!; cbn.
      * by exists j.
      * apply Forall_replicate. by exists j.
      * rewrite length_replicate. lia.
Qed.

(** The steps left for the jobs of a state when none fails. *)
Definition work (st : state) : nat :=
  3 * length (jobQueue st) + 2 * length (held (dispatch st)) + length (workers st ≫= worker_job).

Lemma no_requeue_fires (ls : list label) (st st' : state) :
  fires cap st ls = Some st' -> forallb (fun l => negb (is_fail l)) ls = true ->
  Forall (fun w => forall job, w <> WRequeue job) (workers st) ->
  Forall (fun w => forall job, w <> WRequeue job) (workers st').
Proof.
  rewrite fires_steps. induction 1 as [|st l st1 ls st2 Hs _ IH]; [done|]. cbn. intros [Hl Hls]%andb_true_iff Hr.
  apply IH; [done|]. destruct Hs; cbn in *; try done; by apply Forall_insert.
Qed.

(** Without failures everything is done.  In a run without failures
    and without a shutdown, every further step of the program that is not a
    failure leaves less work, and as long as a job is unfinished there is
    such a step. *)
Theorem dispatch_finishes (n : nat) (ls : list label) (st : state) :
  (0 < cap)%nat -> (0 < n)%nat -> fires cap (NewDispatchQueue n) ls = Some st ->
  forallb (fun l => negb (is_shutdown l)) ls = true -> forallb (fun l => negb (is_fail l)) ls = true ->
  (forall l st', own l = true -> is_fail l = false -> fire cap st l = Some st' -> (work st' < work st)%nat) /\
  (unfinished st <> [] -> exists l st', own l = true /\ is_fail l = false /\ fire cap st l = Some st').
Proof.
  intros Hc Hn Hf Hs Hfail.
  assert (Hr : running st) by (eapply running_fires; [done|done|apply running_new]).
  assert (Hq : Forall (fun w => forall job, w <> WRequeue job) (workers st)).
  { eapply no_requeue_fires; [done|done|]. cbn. by apply Forall_replicate. }
  assert (Hne : workers st <> []).
  { apply fires_steps, steps_keep in Hf as (_ & Hw & _). cbn in Hw. rewrite length_replicate in Hw.
    destruct (workers st); [cbn in Hw; lia|done]. }
  split.
  - intros l st' Ho Hl Hfire. apply fire_step in Hfire. unfold work. destruct Hr as [Hd Hstop].
    destruct Hfire as [q d ws fin job Hlt|q ws fin job|q ws fin job i Hi|q d ws fin job i Hi|q d ws fin job i Hi
                |q d ws fin job i Hi Hlt|q ws fin|q ws fin i Hi|q ws fin]; try done; cbn in *.
    + lia.
    + rewrite (workers_gain ws i WIdle (WWorking job) [job] Hi eq_refl), length_app. cbn. lia.
    + rewrite (workers_lose ws i (WWorking job) WIdle [job] Hi eq_refl), length_app. cbn. lia.
    + rewrite Forall_lookup in Hq. by destruct (Hq _ _ Hi job).
  - intros Hun. destruct st as [q d ws fin]. destruct Hr as [Hd Hstop]. cbn [dispatch workers jobQueue] in *.
    rewrite Forall_lookup in Hq, Hstop. destruct d as [|job| |]; try done.
    + destruct q as [|j q]; [|by exists LTake; eexists].
      unfold unfinished in Hun. cbn in Hun. apply worker_with_job in Hun as (i & w & Hi & Hj).
      destruct w as [|j|j|]; try done; [|by destruct (Hq _ _ Hi j)].
      exists (LDone i). eexists. cbn [fire]. by rewrite Hi.
    + destruct ws as [|w ws]; [done|]. specialize (Hq 0%nat w eq_refl). specialize (Hstop 0%nat w eq_refl).
      destruct w as [|j|j|]; try done; [| |by destruct (Hq j)].
      * exists (LAssign 0). by eexists.
      * exists (LDone 0). by eexists.
Qed.

End dispatch.

(** ** Examples *)

(** One worker, room for one job: the first job fails while another waits
    with the dispatcher and a third one in the queue. *)
Definition sample_jam : list (label (J:=nat)) :=
  [LAdd 1; LTake; LAssign 0; LAdd 2; LTake; LAdd 3; LFail 0]%nat.

Lemma dispatch_keeps_jobs_witness :
  match fires 1 (NewDispatchQueue 1) sample_jam with
  | Some st => finished st ++ unfinished st ≡ₚ [1; 2; 3]%nat /\ (length (jobQueue st) <= 1)%nat /\ length (workers st) = 1%nat
  | None => False
  end.
Proof.
  exact (dispatch_keeps_jobs 1 1 sample_jam
           (mkDispatch [3] (DHolding 2) [WRequeue 1] [])%nat ltac:(reflexivity)).
Defined.

Lemma dispatch_jam_witness :
  exists ls st, fires 16 (NewDispatchQueue 8) ls = Some st /\
    forallb (fun l => negb (is_shutdown l)) ls = true /\ unfinished st <> [] /\ blocked 16 (J:=nat) st.
Proof. exact (proj2 (dispatch_jam 16 8 7%nat ltac:(lia) ltac:(lia))). Defined.

Lemma dispatch_finishes_witness :
  exists st, fires 2 (NewDispatchQueue 1) [LAdd 1; LTake; LAssign 0; LAdd 2]%nat = Some st /\
    exists l st', own l = true /\ is_fail l = false /\ fire 2 st l = Some st'.
Proof.
  eexists. split; [reflexivity|].
  apply (proj2 (dispatch_finishes 2 1 [LAdd 1; LTake; LAssign 0; LAdd 2]%nat
           (mkDispatch [2] DWaiting [WWorking 1] [])%nat ltac:(lia) ltac:(lia) ltac:(reflexivity) ltac:(reflexivity)
           ltac:(reflexivity))).
  discriminate.
Defined.
