(* ===== verification/WriterLoop.v ===== *)
(** [writers/writer.go]: the loop in front of a metrics writer.  Statistics
    arrive on a channel, one goroutine moves them to a queue of bounded
    length, and another hands them to the metrics writer.

    The queue is a linked list whose nodes come from a pool and go back to
    it: the nodes are a heap from identifiers to nodes, the queue holds the
    identifiers of its first and last node, and the pool the identifiers of
    the nodes that are free.  [sync.Pool] may give any free node, or none:
    which one is an argument.  The pool is shared by all queues; a node that
    another queue freed is like a new one.  [None] is the use of a nil pointer.  The
    channels are lists; a sender waits while a channel is full.  Gauges,
    logging and sleeping are left out.

    The write queue behaves as a bounded first-in first-out list whatever
    nodes the pool hands out, and the loop gives the metrics writer the
    statistics in the order they were sent. *)
From S2P Require Import Prelude GoStrings GoParse.

Open Scope Z_scope.

Definition WRITER_DEFAULT_INDEX_QUEUE_LENGTH : Z := 1024 * 20.
Definition WRITER_DEFAULT_METRIC_QUEUE_LENGTH : Z := 1024 * 10.
Definition WRITER_MAX_WRITE_QUEUE : Z := 10 * 1024 * 1024.

(** ** [utils/once.go]: starting and stopping in turn *)

Record StartStop := mkStartStop {
  start_done : bool;
  stop_done : bool
}.

Definition new_StartStop : StartStop := mkStartStop false false.

(** Whether the function runs. *)
Definition ss_Start (o : StartStop) : bool * StartStop :=
  if start_done o then (false, o) else (true, mkStartStop true false).
Definition ss_Stop (o : StartStop) : bool * StartStop :=
  if stop_done o then (false, o) else (true, mkStartStop false true).

(** ** The queue *)

Section queue.
Context {D : Type}.

Record writtenode := mkNode {
  n_data : D;
  n_next : option nat
}.

(** The heap of nodes, the next identifier, and the free nodes. *)
Record nodes := mkNodes {
  heap : gmap nat writtenode;
  fresh : nat;
  pool : list nat
}.

Definition no_nodes : nodes := mkNodes ∅ 0 [].

(** [pick] is the place in the pool of the node that it gives; out of
    range it gives none. *)
Definition getWNode (ns : nodes) (stat : D) (pick : nat) : nat * nodes :=
  match pool ns !! pick with
  | None => (fresh ns, mkNodes (<[fresh ns := mkNode stat None]> (heap ns)) (S (fresh ns)) (pool ns))
  | Some id => (id, mkNodes (<[id := mkNode stat None]> (heap ns)) (fresh ns) (delete pick (pool ns)))
  end.

Definition putWNode (ns : nodes) (id : nat) : nodes := mkNodes (heap ns) (fresh ns) (id :: pool ns).

Record WriteQueue := mkWriteQueue {
  q_head : option nat;
  q_tail : option nat;
  q_count : Z;
  queuemax : Z
}.

Definition NewWriteQueue (max : Z) : WriteQueue := mkWriteQueue None None 0 max.

Definition SetMaxLen (q : WriteQueue) (max : Z) : WriteQueue := mkWriteQueue (q_head q) (q_tail q) (q_count q) max.

Definition q_Len (q : WriteQueue) : Z := q_count q.

Definition errQueueFull (max : Z) : goerror :=
  GoError ("Max write queue hit (max: " +:+ FormatInt max +:+ ") .. cannot push").

(** The node is taken before the length is looked at, and lost when the
    queue is full. *)
Definition Push (ns : nodes) (q : WriteQueue) (item : D) (pick : nat) : option (option goerror * nodes * WriteQueue) :=
  let '(n, ns) := getWNode ns item pick in
  if q_count q >=? queuemax q then Some (Some (errQueueFull (queuemax q)), ns, q)
  else
    match q_tail q with
    | None => Some (None, ns, mkWriteQueue (Some n) (Some n) (q_count q + 1) (queuemax q))
    | Some t =>
        tail ← heap ns !! t;
        Some (None, mkNodes (<[t := mkNode (n_data tail) (Some n)]> (heap ns)) (fresh ns) (pool ns),
              mkWriteQueue (q_head q) (Some n) (q_count q + 1) (queuemax q))
    end.

(** The node goes back to the pool. *)
Definition Poll (ns : nodes) (q : WriteQueue) : option (option D * nodes * WriteQueue) :=
  match q_head q with
  | None => Some (None, ns, q)
  | Some n =>
      node ← heap ns !! n;
      Some (Some (n_data node), putWNode ns n,
            mkWriteQueue (n_next node) (match n_next node with None => None | Some _ => q_tail q end)
              (q_count q - 1) (queuemax q))
  end.

Definition Peek (ns : nodes) (q : WriteQueue) : option (option D) :=
  match q_head q with
  | None => Some None
  | Some n => node ← heap ns !! n; Some (Some (n_data node))
  end.

(** ** The loop *)

(** The metrics writer is what has been written to it. *)
Record WriterLoop := mkWriterLoop {
  writeChan : list D;
  indexerChan : Z;
  w_nodes : nodes;
  writeQueue : WriteQueue;
  MetricQLen : Z;
  IndexerQLen : Z;
  w_written : list D;
  w_startstop : StartStop;
  w_stopped : bool
}.

Definition New : WriterLoop :=
  mkWriterLoop [] 0 no_nodes (NewWriteQueue WRITER_MAX_WRITE_QUEUE) WRITER_DEFAULT_METRIC_QUEUE_LENGTH
    WRITER_DEFAULT_INDEX_QUEUE_LENGTH [] new_StartStop false.

Definition Full (loop : WriterLoop) : bool :=
  (Z.of_nat (length (writeChan loop)) >=? MetricQLen loop) || (indexerChan loop >=? IndexerQLen loop).

Definition set_queue (loop : WriterLoop) (ch : list D) (ns : nodes) (q : WriteQueue) (out : list D) : WriterLoop :=
  mkWriterLoop ch (indexerChan loop) ns q (MetricQLen loop) (IndexerQLen loop) out (w_startstop loop) (w_stopped loop).

(** A send to the channel: [None] has to wait. *)
Definition send (loop : WriterLoop) (stat : D) : option WriterLoop :=
  if Z.of_nat (length (writeChan loop)) <? MetricQLen loop
  then Some (set_queue loop (writeChan loop ++ [stat]) (w_nodes loop) (writeQueue loop) (w_written loop))
  else None.

(** One round of [procLoop]: a statistic the queue does not take is lost;
    the error is logged. *)
Definition procLoop (loop : WriterLoop) (pick : nat) : option (option goerror * WriterLoop) :=
  match writeChan loop with
  | [] => Some (None, loop)
  | stat :: ch =>
      '(err, ns, q) ← Push (w_nodes loop) (writeQueue loop) stat pick;
      Some (err, set_queue loop ch ns q (w_written loop))
  end.

(** [procQueue]: as many polls as the queue is long at the start. *)
Fixpoint poll_times (ct : nat) (loop : WriterLoop) : option WriterLoop :=
  match ct with
  | O => Some loop
  | S ct =>
      '(stat, ns, q) ← Poll (w_nodes loop) (writeQueue loop);
      poll_times ct (set_queue loop (writeChan loop) ns q
                       (match stat with None => w_written loop | Some stat => w_written loop ++ [stat] end))
  end.

Definition procQueue (loop : WriterLoop) : option WriterLoop :=
  poll_times (Z.to_nat (q_Len (writeQueue loop))) loop.

(** New channels. *)
Definition w_Start (loop : WriterLoop) : WriterLoop :=
  let '(run, ss) := ss_Start (w_startstop loop) in
  if run then
    mkWriterLoop [] 0 (w_nodes loop) (writeQueue loop) (MetricQLen loop) (IndexerQLen loop) (w_written loop) ss
      (w_stopped loop)
  else loop.

(** The channels are closed, once: what is in them is dropped. *)
Definition w_Stop (loop : WriterLoop) : WriterLoop :=
  let '(run, ss) := ss_Stop (w_startstop loop) in
  if run && negb (w_stopped loop) then
    mkWriterLoop [] 0 (w_nodes loop) (writeQueue loop) (MetricQLen loop) (IndexerQLen loop) (w_written loop) ss true
  else
    mkWriterLoop (writeChan loop) (indexerChan loop) (w_nodes loop) (writeQueue loop) (MetricQLen loop)
      (IndexerQLen loop) (w_written loop) ss (w_stopped loop).

End queue.

(** ** Theorems *)

Section queue.
Context {D : Type}.

Abbreviation heap_t := (gmap nat (writtenode (D:=D))).
Abbreviation state := (nodes (D:=D) * WriteQueue)%type.

(** ** Chains of nodes *)

(** From [from] on, the nodes [ids] hold [l]. *)
Fixpoint chain (h : heap_t) (from : option nat) (ids : list nat) (l : list D) : Prop :=
  match ids, l with
  | [], [] => from = None
  | id :: ids, d :: l => from = Some id /\ exists next, h !! id = Some (mkNode d next) /\ chain h next ids l
  | _, _ => False
  end.

Lemma chain_length (h : heap_t) (from : option nat) (ids : list nat) (l : list D) :
  chain h from ids l -> length ids = length l.
Proof.
  revert from l. induction ids as [|id ids IH]; intros from [|d l]; try done. cbn. intros (_ & next & _ & Hc). f_equal. eauto.
Qed.

(** A change of a node outside of the chain. *)
Lemma chain_other (h : heap_t) (from : option nat) (ids : list nat) (l : list D) (n : nat) (x : writtenode) :
  n ∉ ids -> chain h from ids l -> chain (<[n := x]> h) from ids l.
Proof.
  revert from l. induction ids as [|id ids IH]; intros from [|d l] Hn; try done. cbn.
  apply not_elem_of_cons in Hn as [Hne Hn]. intros (-> & next & Hh & Hc). split; [done|]. exists next.
  rewrite lookup_insert_ne by done. split; [done|]. by apply IH.
Qed.

(** A node linked behind the last one. *)
Lemma chain_snoc (h : heap_t) (from : option nat) (ids : list nat) (l : list D) (t n : nat) (d x : D) :
  chain h from ids l -> NoDup ids -> n ∉ ids -> last ids = Some t -> last l = Some x -> h !! n = Some (mkNode d None) ->
  chain (<[t := mkNode x (Some n)]> h) from (ids ++ [n]) (l ++ [d]).
Proof.
  revert from l. induction ids as [|id ids IH]; intros from [|y l] Hc Hnd Hn Ht Hx Hh; try done.
  apply NoDup_cons in Hnd as [Hid Hnd]. apply not_elem_of_cons in Hn as [Hne Hn].
  destruct Hc as (-> & next & Hy & Hc). destruct ids as [|id2 ids].
  - destruct l; [|done]. cbn in *. injection Ht as ->. injection Hx as ->. split; [done|]. exists (Some n).
    rewrite lookup_insert_eq. split; [done|]. split; [done|]. exists None. by rewrite lookup_insert_ne.
  - destruct l as [|y2 l]; [done|]. cbn [app chain]. split; [done|]. exists next.
    assert (Hti : t ∈ id2 :: ids) by (by apply last_Some_elem_of). rewrite lookup_insert_ne; [|intros ->; done].
    split; [done|]. apply (IH next (y2 :: l)); try done.
Qed.

Lemma chain_last (h : heap_t) (from : option nat) (ids : list nat) (l : list D) (t : nat) :
  chain h from ids l -> last ids = Some t -> exists x, last l = Some x /\ h !! t = Some (mkNode x None).
Proof.
  revert from l. induction ids as [|id ids IH]; intros from [|y l] Hc Ht; try done.
  destruct Hc as (-> & next & Hy & Hc). destruct ids as [|id2 ids].
  - destruct l; [|done]. cbn in *. injection Ht as ->. subst next. by exists y.
  - destruct l as [|y2 l]; [done|]. by apply (IH next (y2 :: l)).
Qed.

(** ** The queue represents a list *)

Record q_repr (st : state) (l : list D) (ids : list nat) : Prop := {
  qr_chain : chain (heap st.1) (q_head st.2) ids l;
  qr_tail : q_tail st.2 = last ids;
  qr_once : NoDup (ids ++ pool st.1);
  qr_fresh : Forall (fun id => (id < fresh st.1)%nat) (ids ++ pool st.1);
  qr_count : q_count st.2 = Z.of_nat (length l)
}.

Lemma q_repr_new (max : Z) : q_repr (no_nodes, NewWriteQueue max) [] [].
Proof. split; cbn; (done || constructor). Qed.

(** The node the pool gives is in no chain. *)
Lemma getWNode_new (ns : nodes) (ids : list nat) (stat : D) (pick : nat) :
  NoDup (ids ++ pool ns) -> Forall (fun id => (id < fresh ns)%nat) (ids ++ pool ns) ->
  let '(n, ns') := getWNode ns stat pick in
  (n ∉ ids) /\ heap ns' = <[n := mkNode stat None]> (heap ns) /\
  NoDup ((ids ++ [n]) ++ pool ns') /\ Forall (fun id => (id < fresh ns')%nat) ((ids ++ [n]) ++ pool ns').
Proof.
  intros Hnd Hf. unfold getWNode. destruct (pool ns !! pick) as [id|] eqn:Ep.
  - assert (Hperm : (ids ++ [id]) ++ delete pick (pool ns) ≡ₚ ids ++ pool ns).
    { rewrite <- app_assoc. apply Permutation_app_head. cbn. symmetry. by apply delete_Permutation. }
    split_and!; cbn; [|done|by rewrite Hperm|by rewrite Hperm].
    apply NoDup_app in Hnd as (_ & Hd & _). intros Hin. apply (Hd id Hin). by eapply list_elem_of_lookup_2.
  - assert (Hnew : fresh ns ∉ ids ++ pool ns).
    { intros Hin. rewrite Forall_forall in Hf. specialize (Hf _ Hin). lia. }
    assert (Hperm : (ids ++ [fresh ns]) ++ pool ns ≡ₚ fresh ns :: ids ++ pool ns).
    { rewrite <- app_assoc. cbn. symmetry. apply Permutation_middle. }
    split_and!; cbn; [|done|rewrite Hperm; by apply NoDup_cons|].
    + intros Hin. apply Hnew, elem_of_app. by left.
    + rewrite Hperm. constructor; [lia|]. eapply Forall_impl; [exact Hf|]. intros. cbn in *. lia.
Qed.

Lemma chain_nil (h : heap_t) (from : option nat) (ids : list nat) (l : list D) :
  chain h from ids l -> last ids = None -> ids = [] /\ l = [] /\ from = None.
Proof. intros Hc Hl. apply last_None in Hl as ->. destruct l; [|done]. done. Qed.

Lemma Push_refines (ns : nodes) (q : WriteQueue) (l : list D) (ids : list nat) (item : D) (pick : nat) :
  q_repr (ns, q) l ids ->
  exists ns' q' ids', Push ns q item pick =
      Some (if Z.of_nat (length l) >=? queuemax q then Some (errQueueFull (queuemax q)) else None, ns', q') /\
    queuemax q' = queuemax q /\
    q_repr (ns', q') (if Z.of_nat (length l) >=? queuemax q then l else l ++ [item]) ids'.
Proof.
  intros [Hc Ht Hnd Hf Hn]. cbn [fst snd] in *. unfold Push.
  pose proof (getWNode_new ns ids item pick Hnd Hf) as Hg. destruct (getWNode ns item pick) as [n ns1].
  destruct Hg as (Hni & Hh & Hnd1 & Hf1). rewrite Hn.
  assert (Hc1 : chain (heap ns1) (q_head q) ids l) by (rewrite Hh; by apply chain_other).
  destruct (Z.of_nat (length l) >=? queuemax q).
  { exists ns1, q, ids. split; [done|]. split; [done|]. split; cbn; try done.
    - apply NoDup_app in Hnd1 as (Hi & Hd & Hp). apply NoDup_app in Hi as (Hi & _ & _). apply NoDup_app.
      split_and!; [done| |done]. intros x Hx. apply Hd. apply elem_of_app. by left.
    - apply Forall_app in Hf1 as [H1 H2]. apply Forall_app in H1 as [H1 _]. by apply Forall_app. }
  rewrite Ht. destruct (last ids) as [t|] eqn:El.
  - destruct (chain_last _ _ _ _ _ Hc1 El) as (x & Hx & Hhx). rewrite Hhx. cbn [mbind option_bind].
    eexists _, _, (ids ++ [n]). split; [done|]. split; [done|]. split; cbn; try done.
    + apply chain_snoc; try done.
      * by apply NoDup_app in Hnd as (? & _).
      * by rewrite Hh, lookup_insert_eq.
    + by rewrite last_snoc.
    + rewrite length_app. cbn. lia.
  - destruct (chain_nil _ _ _ _ Hc1 El) as (-> & -> & Hhd).
    eexists _, _, [n]. split; [done|]. split; [done|]. split; cbn; try done.
    split; [done|]. exists None. by rewrite Hh, lookup_insert_eq.
Qed.

Lemma Poll_refines (ns : nodes) (q : WriteQueue) (l : list D) (ids : list nat) :
  q_repr (ns, q) l ids ->
  exists ns' q' ids', Poll ns q = Some (head l, ns', q') /\ queuemax q' = queuemax q /\ q_repr (ns', q') (drop 1 l) ids'.
Proof.
  intros [Hc Ht Hnd Hf Hn]. cbn [fst snd] in *. unfold Poll. destruct ids as [|id ids], l as [|d l]; try done.
  - cbn in Hc. rewrite Hc. exists ns, q, []. split; [done|]. split; [done|]. by split.
  - destruct Hc as (-> & next & Hh & Hc). rewrite Hh. cbn [mbind option_bind n_data n_next].
    eexists _, _, ids. split; [done|]. split; [done|].
    assert (Hperm : ids ++ id :: pool ns ≡ₚ (id :: ids) ++ pool ns) by (symmetry; apply Permutation_middle).
    split; cbn; try done.
    + destruct ids as [|id2 ids]; destruct l; try done; cbn in Hc; [by subst|]. destruct Hc as (-> & _). done.
    + by rewrite Hperm.
    + by rewrite Hperm.
    + rewrite Hn, drop_0. cbn [length]. lia.
Qed.

Lemma Peek_refines (ns : nodes) (q : WriteQueue) (l : list D) (ids : list nat) :
  q_repr (ns, q) l ids -> Peek ns q = Some (head l).
Proof.
  intros [Hc _ _ _ _]. unfold Peek. destruct ids as [|id ids], l as [|d l]; try done; cbn in *; [by rewrite Hc|].
  destruct Hc as (-> & next & -> & _). done.
Qed.

(** ** Runs *)

Inductive qop := QPush (item : D) (pick : nat) | QPoll | QPeek.

Inductive qres := RPush (err : option goerror) | RItem (item : option D).

Definition qexec (st : state) (o : qop) : option (qres * state) :=
  match o with
  | QPush item pick => '(err, ns, q) ← Push st.1 st.2 item pick; Some (RPush err, (ns, q))
  | QPoll => '(x, ns, q) ← Poll st.1 st.2; Some (RItem x, (ns, q))
  | QPeek => x ← Peek st.1 st.2; Some (RItem x, st)
  end.

(** The specification: a list of bounded length. *)
Definition sexec (max : Z) (l : list D) (o : qop) : qres * list D :=
  match o with
  | QPush item _ => if Z.of_nat (length l) >=? max then (RPush (Some (errQueueFull max)), l) else (RPush None, l ++ [item])
  | QPoll => (RItem (head l), drop 1 l)
  | QPeek => (RItem (head l), l)
  end.

Fixpoint qruns (st : state) (os : list qop) : option (list qres * state) :=
  match os with
  | [] => Some ([], st)
  | o :: os => '(r, st) ← qexec st o; '(rs, st) ← qruns st os; Some (r :: rs, st)
  end.

Fixpoint sruns (max : Z) (l : list D) (os : list qop) : list qres * list D :=
  match os with
  | [] => ([], l)
  | o :: os => let '(r, l) := sexec max l o in let '(rs, l) := sruns max l os in (r :: rs, l)
  end.

Lemma qexec_refines (st : state) (l : list D) (ids : list nat) (o : qop) :
  q_repr st l ids ->
  exists st' ids', qexec st o = Some ((sexec (queuemax st.2) l o).1, st') /\
    queuemax st'.2 = queuemax st.2 /\ q_repr st' (sexec (queuemax st.2) l o).2 ids'.
Proof.
  destruct st as [ns q]. intros Hr. destruct o as [item pick| |]; cbn [qexec sexec fst snd].
  - destruct (Push_refines ns q l ids item pick Hr) as (ns' & q' & ids' & -> & Hm & Hr').
    exists (ns', q'), ids'. destruct (Z.of_nat (length l) >=? queuemax q); done.
  - destruct (Poll_refines ns q l ids Hr) as (ns' & q' & ids' & -> & Hm & Hr'). by exists (ns', q'), ids'.
  - rewrite (Peek_refines ns q l ids Hr). by exists (ns, q), ids.
Qed.

(** C40: The write queue is a bounded first-in first-out list.  Any
    sequence of pushes, polls and peeks on a new queue, whatever nodes the
    pool hands out, never follows a nil pointer and gives the results of
    the list: a push to a full list is refused and changes nothing, a poll
    takes the first item, and the length is that of the list. *)
Theorem write_queue_refines (max : Z) (os : list qop) :
  exists ns q, qruns (no_nodes, NewWriteQueue max) os = Some ((sruns max [] os).1, (ns, q)) /\
    q_Len q = Z.of_nat (length (sruns max [] os).2).
Proof.
  assert (Hgen : forall os st l ids, q_repr st l ids ->
    exists st' ids', qruns st os = Some ((sruns (queuemax st.2) l os).1, st') /\
      q_repr st' (sruns (queuemax st.2) l os).2 ids').
  { clear. intros os. induction os as [|o os IH]; intros st l ids Hr; [by exists st, ids|].
    destruct (qexec_refines st l ids o Hr) as (st1 & ids1 & E & Hm & Hr1). cbn [qruns sruns]. rewrite E. cbn [mbind option_bind].
    destruct (sexec (queuemax st.2) l o) as [r l1]. cbn [fst snd] in *.
    destruct (IH st1 l1 ids1 Hr1) as (st2 & ids2 & E2 & Hr2). rewrite Hm in E2, Hr2. rewrite E2. cbn [mbind option_bind].
    destruct (sruns (queuemax st.2) l1 os). by exists st2, ids2. }
  destruct (Hgen os _ _ _ (q_repr_new max)) as ([ns q] & ids & E & Hr). exists ns, q. split; [done|].
  exact (qr_count _ _ _ Hr).
Qed.

(** ** The loop *)

Inductive wop := WSend (stat : D) | WProc (pick : nat) | WDrain.

(** The loop and what has been sent; a send that has to wait changes
    nothing. *)
Definition wexec (st : WriterLoop (D:=D) * list D) (o : wop) : option (WriterLoop * list D) :=
  let '(loop, sent) := st in
  match o with
  | WSend stat => Some (match send loop stat with None => (loop, sent) | Some loop => (loop, sent ++ [stat]) end)
  | WProc pick => '(_, loop) ← procLoop loop pick; Some (loop, sent)
  | WDrain => loop ← procQueue loop; Some (loop, sent)
  end.

Fixpoint wruns (st : WriterLoop * list D) (os : list wop) : option (WriterLoop * list D) :=
  match os with [] => Some st | o :: os => st ← wexec st o; wruns st os end.

Record w_inv (loop : WriterLoop) (sent l : list D) (ids : list nat) : Prop := {
  wi_queue : q_repr (w_nodes loop, writeQueue loop) l ids;
  wi_order : w_written loop ++ l ++ writeChan loop = sent
}.

Lemma poll_times_spec (ct : nat) (loop : WriterLoop) (sent l : list D) (ids : list nat) :
  w_inv loop sent l ids ->
  exists loop' ids', poll_times ct loop = Some loop' /\ w_inv loop' sent (drop ct l) ids' /\
    queuemax (writeQueue loop') = queuemax (writeQueue loop) /\ writeChan loop' = writeChan loop.
Proof.
  revert loop l ids. induction ct as [|ct IH]; intros loop l ids Hw; [exists loop, ids; by rewrite drop_0|].
  cbn [poll_times]. destruct Hw as [Hr Ho]. destruct (Poll_refines _ _ l ids Hr) as (ns' & q' & ids' & -> & Hm & Hr').
  cbn [mbind option_bind].
  edestruct (IH (set_queue loop (writeChan loop) ns' q'
                   (match head l with None => w_written loop | Some stat => w_written loop ++ [stat] end))
                (drop 1 l) ids') as (loop2 & ids2 & E & Hw2 & Hm2 & Hc2).
  { split; cbn; [done|]. rewrite <- Ho. destruct l as [|d l]; cbn; [done|]. by rewrite drop_0, <- app_assoc. }
  exists loop2, ids2. split; [done|]. rewrite drop_drop in Hw2. split; [done|]. split; [|done]. by rewrite Hm2.
Qed.

Lemma procQueue_spec (loop : WriterLoop) (sent l : list D) (ids : list nat) :
  w_inv loop sent l ids ->
  exists loop' ids', procQueue loop = Some loop' /\ w_inv loop' sent [] ids' /\
    queuemax (writeQueue loop') = queuemax (writeQueue loop) /\ writeChan loop' = writeChan loop.
Proof.
  intros Hw. destruct (poll_times_spec (length l) loop sent l ids Hw) as (loop' & ids' & E & Hw' & Hm & Hc).
  exists loop', ids'. rewrite drop_all in Hw'. split; [|done]. unfold procQueue, q_Len.
  pose proof (qr_count _ _ _ (wi_queue _ _ _ _ Hw)) as Hn. cbn in Hn. by rewrite Hn, Nat2Z.id.
Qed.

Lemma procLoop_spec (loop : WriterLoop) (sent l : list D) (ids : list nat) (pick : nat) :
  w_inv loop sent l ids -> Z.of_nat (length sent) <= queuemax (writeQueue loop) ->
  exists loop' ids', procLoop loop pick = Some (None, loop') /\
    w_inv loop' sent (l ++ take 1 (writeChan loop)) ids' /\ writeChan loop' = drop 1 (writeChan loop) /\
    queuemax (writeQueue loop') = queuemax (writeQueue loop).
Proof.
  intros [Hr Ho] Hmax. unfold procLoop. destruct (writeChan loop) as [|stat ch] eqn:Ech.
  { exists loop, ids. cbn. rewrite app_nil_r. split_and!; try done. split; [done|]. by rewrite Ech. }
  destruct (Push_refines _ _ l ids stat pick Hr) as (ns' & q' & ids' & -> & Hm & Hr').
  assert (Hlen : (Z.of_nat (length l) >=? queuemax (writeQueue loop)) = false).
  { rewrite Z.geb_leb. apply Z.leb_gt. rewrite <- Ho, !length_app in Hmax. cbn [length] in Hmax. lia. }
  rewrite Hlen in *. cbn [mbind option_bind]. eexists _, ids'. split; [done|]. cbn [take drop]. rewrite drop_0, take_0.
  split_and!; try done. split; cbn; [done|]. rewrite <- Ho. by rewrite <- app_assoc.
Qed.

Lemma wexec_spec (loop : WriterLoop) (sent l : list D) (ids : list nat) (o : wop) :
  w_inv loop sent l ids -> Z.of_nat (length sent) + 1 <= queuemax (writeQueue loop) ->
  exists loop' sent' l' ids', wexec (loop, sent) o = Some (loop', sent') /\ w_inv loop' sent' l' ids' /\
    (length sent' <= length sent + 1)%nat /\ queuemax (writeQueue loop') = queuemax (writeQueue loop).
Proof.
  intros Hw Hmax. destruct o as [stat|pick|]; cbn [wexec].
  - unfold send. case_if.
    + eexists _, _, l, ids. split; [done|]. destruct Hw as [Hr Ho]. split_and!; try done.
      * split; cbn; [done|]. rewrite <- Ho. by rewrite !app_assoc.
      * rewrite length_app. done.
    + eexists _, _, l, ids. split_and!; try done. lia.
  - destruct (procLoop_spec loop sent l ids pick Hw ltac:(lia)) as (loop' & ids' & -> & Hw' & _ & Hm).
    eexists _, _, _, ids'. split_and!; try done. lia.
  - destruct (procQueue_spec loop sent l ids Hw) as (loop' & ids' & -> & Hw' & Hm & _).
    eexists _, _, _, ids'. split_and!; try done. lia.
Qed.

Lemma wruns_spec (os : list wop) (loop : WriterLoop) (sent l : list D) (ids : list nat) :
  w_inv loop sent l ids -> Z.of_nat (length sent + length os) <= queuemax (writeQueue loop) ->
  exists loop' sent' l' ids', wruns (loop, sent) os = Some (loop', sent') /\ w_inv loop' sent' l' ids' /\
    Z.of_nat (length sent') <= queuemax (writeQueue loop').
Proof.
  revert loop sent l ids. induction os as [|o os IH]; intros loop sent l ids Hw Hmax.
  - exists loop, sent, l, ids. split_and!; try done. lia.
  - cbn [length] in Hmax. destruct (wexec_spec loop sent l ids o Hw ltac:(lia)) as (loop1 & sent1 & l1 & ids1 & E & Hw1 & Hl1 & Hm1).
    cbn [wruns]. rewrite E. cbn [mbind option_bind]. apply (IH loop1 sent1 l1 ids1 Hw1). rewrite Hm1. lia.
Qed.

(** The channel emptied into the queue and the queue written. *)
Lemma flush_spec (ch : list D) (loop : WriterLoop) (sent l : list D) (ids : list nat) (picks : list nat) :
  w_inv loop sent l ids -> Z.of_nat (length sent) <= queuemax (writeQueue loop) -> writeChan loop = ch ->
  length picks = length ch ->
  exists loop', wruns (loop, sent) (map WProc picks ++ [WDrain]) = Some (loop', sent) /\ w_written loop' = sent.
Proof.
  revert loop l ids picks. induction ch as [|d ch IH]; intros loop l ids [|pick picks] Hw Hmax Hch Hp; try done.
  - cbn. destruct (procQueue_spec loop sent l ids Hw) as (loop' & ids' & -> & Hw' & _ & Hc). exists loop'. split; [done|].
    destruct Hw' as [_ Ho]. rewrite Hc, Hch in Ho. cbn [app] in Ho. by rewrite app_nil_r in Ho.
  - cbn [map app wruns wexec]. destruct (procLoop_spec loop sent l ids pick Hw Hmax) as (loop' & ids' & -> & Hw' & Hc & Hm).
    cbn [mbind option_bind]. apply (IH loop' _ ids' picks Hw'); [by rewrite Hm|by rewrite Hc, Hch|cbn in Hp; lia].
Qed.

(** The writer gets what is sent, in order.  Run any sends, rounds of
    the loop that fills the queue and rounds of the one that empties it,
    fewer than the queue is allowed to hold.  Then what has been written,
    what is in the queue and what is in the channel make up what was sent,
    in order, nothing lost, doubled or reordered; and once the channel is
    emptied into the queue and the queue is written, all of it has been
    written. *)
Theorem writer_loop_in_order (loop0 : WriterLoop) (max : Z) (os : list wop) :
  w_nodes loop0 = no_nodes -> writeQueue loop0 = NewWriteQueue max -> writeChan loop0 = [] -> w_written loop0 = [] ->
  Z.of_nat (length os) <= max ->
  exists loop sent l ids, wruns (loop0, []) os = Some (loop, sent) /\
    q_repr (w_nodes loop, writeQueue loop) l ids /\ w_written loop ++ l ++ writeChan loop = sent /\
    forall picks, length picks = length (writeChan loop) ->
      exists loop', wruns (loop, sent) (map WProc picks ++ [WDrain]) = Some (loop', sent) /\ w_written loop' = sent.
Proof.
  intros Hns Hq Hc Hw Hmax.
  destruct (wruns_spec os loop0 [] [] []) as (loop & sent & l & ids & E & Hinv & Hlen).
  { split; [rewrite Hns, Hq; apply q_repr_new|by rewrite Hw, Hc]. }
  { rewrite Hq. done. }
  exists loop, sent, l, ids. split; [done|]. split; [apply Hinv|]. split; [apply Hinv|].
  intros picks Hp. by eapply flush_spec.
Qed.

End queue.

(** ** Examples *)

Definition sample_qops : list (qop (D:=nat)) := [QPush 1 0; QPush 2 0; QPoll; QPush 3 0; QPush 4 5; QPeek; QPoll; QPoll; QPoll]%nat.

(** A queue of two: the third push is refused; nodes are used again. *)
Example write_queue_run :
  sruns 2 [] sample_qops =
    ([RPush None; RPush None; RItem (Some 1); RPush None; RPush (Some (errQueueFull 2)); RItem (Some 2);
      RItem (Some 2); RItem (Some 3); RItem None]%nat, []) /\
  match qruns (no_nodes, NewWriteQueue 2) sample_qops with Some (rs, _) => rs = (sruns 2 [] sample_qops).1 | None => False end.
Proof. by vm_compute. Qed.

Lemma writer_loop_in_order_witness :
  exists loop sent l ids, wruns (New, []) [WSend 1; WSend 2; WProc 0; WDrain; WSend 3; WProc 0]%nat = Some (loop, sent) /\
    q_repr (w_nodes loop, writeQueue loop) l ids /\ w_written loop ++ l ++ writeChan loop = sent /\
    forall picks, length picks = length (writeChan loop) ->
      exists loop', wruns (loop, sent) (map WProc picks ++ [WDrain]) = Some (loop', sent) /\ w_written loop' = sent.
Proof.
  exact (writer_loop_in_order New WRITER_MAX_WRITE_QUEUE [WSend 1; WSend 2; WProc 0; WDrain; WSend 3; WProc 0]%nat
           eq_refl eq_refl eq_refl eq_refl ltac:(vm_compute; discriminate)).
Defined.

(** Stopped, started and stopped again: the second stop does nothing,
    since the flag of the first is still set. *)
Example second_stop_ignored (x : nat) :
  let loop := w_Start (w_Stop (w_Start New)) in
  match send loop x with
  | Some loop => writeChan (w_Stop loop) = [x]
  | None => False
  end.
Proof. by vm_compute. Qed.
