(* ===== verification/AggLoop.v ===== *)
(** [accumulator/aggloop.go]: the loops between the accumulator and the
    writers, one for each flush time.  The statistics that come in are added
    to the aggregators of all flush times; on the tick of a flush time its
    loop takes the statistics of its aggregator and sends them to the
    channel of each of its writers.  With [ByPass] the statistics go to the
    writers as they come.

    An addition to the aggregators is one step.  In the source it is not:
    [Aggregator.Add] looks its element up under the read lock, lets go of it
    and then updates the element, or inserts a new one under the write lock
    ([schemas/repr/aggregator.go]; the lock around the update is commented
    out), while a tick takes the elements under the write lock and other
    workers of the dispatcher add to them.  An update that is interrupted in
    this way can be lost; [AggregatorTheorems.AddRaces] has these steps for
    one aggregator.  The runs here are those in which no tick and no other
    addition comes in between.

    The goroutines are a step function: a label says who moves, [Waits] that
    it has to wait, [Panics] that the move uses a nil pointer or an index out
    of range.  A loop that is sending has its place in the code as part of
    the state.  Which names a driver has, and how many flush times it needs,
    are from [writers/metrics/registry.go] and from the constructors and
    [Config] functions of the drivers.  What else [NewMetrics] and
    [NewIndexer] do, connecting to databases and looking up caches, is an
    error or none, given as an argument. *)
From S2P Require Import Prelude Float64 GoStrings GoParse GoSort Tags Repr Aggregator WriterLoop.

Open Scope Z_scope.

(** ** The registry of drivers *)

Inductive WritersNeeded := AllResolutions | FirstResolution.
Inductive CacheTypeNeeded := Single | Chunked.

Definition errInvalidDriver (name : string) : goerror := GoError ("Invalid metrics driver `" +:+ name +:+ "`").

Definition one_of (names : list string) (name : string) : bool := bool_decide (name ∈ names).

Definition ResolutionsNeeded (name : string) : WritersNeeded * option goerror :=
  if one_of ["mysql"; "mysql-flat"; "file"; "cassandra"; "cassandra-flat"; "cassandra-flat-map";
             "elasticsearch-flat-map"; "echo"; "elasticsearch-flat"; "elastic-flat"; "kafka"; "kafka-flat";
             "ram-log"]%string name
  then (AllResolutions, None)
  else if one_of ["whisper"; "carbon"; "ram-log-triggered"; "graphite"; "cassandra-triggered"; "mysql-triggered";
                  "cassandra-log-triggered"; "leveldb-log"; "leveldb-log-triggered"]%string name
  then (FirstResolution, None)
  else (AllResolutions, Some (errInvalidDriver name)).

Definition chunked_drivers : list string :=
  ["cassandra-log"; "cassandra-log-triggered"; "leveldb-log"; "leveldb-log-triggered"; "ram-log"; "ram-log-triggered"].

Definition CacheNeeded (name : string) : CacheTypeNeeded * option goerror :=
  (if one_of chunked_drivers name then Chunked else Single, None).

Definition CacheNeededName (name : string) : string :=
  if one_of chunked_drivers name then "chunk" else "single".

(** [NewWriterMetrics], with the names that the [Driver] methods give
    before [Config]. *)
Definition NewWriterMetrics (name : string) : goerror + string :=
  if one_of ["mysql"; "mysql-triggered"; "mysql-flat"; "cassandra"; "cassandra-triggered"; "cassandra-log";
             "cassandra-log-triggered"; "ram-log"; "cassandra-flat"; "cassandra-flat-map"; "elasticsearch-flat-map";
             "kafka"; "kafka-flat"; "echo"]%string name
  then inr name
  else if bool_decide (name = "file"%string) then inr "csvfile"%string
  else if one_of ["leveldb-log"; "leveldb-log-triggered"] name then inr "leveldb-log"%string
  else if one_of ["elasticsearch-flat"; "elastic-flat"] name then inr "elasticsearch-flat"%string
  else if one_of ["whisper"; "carbon"; "graphite"] name then inr "whisper"%string
  else if one_of ["redis-flat"; "redis-flat-map"] name then inr "redis-flat"%string
  else inl (errInvalidDriver name).

(** The name after [Config]: a roll-up type of "triggered" among the options
    changes the name of two of them. *)
Definition Driver (name rollup : string) : string :=
  if one_of ["cassandra"; "mysql"] name && bool_decide (rollup = "triggered"%string) then name +:+ "-triggered" else name.

(** ** The loop *)

Inductive fired (A : Type) := Waits | Panics | Goes (a : A).
Arguments Waits {A}.
Arguments Panics {A}.
Arguments Goes {A} a.

Definition or_panic {A} (x : option A) : fired A := match x with None => Panics | Some a => Goes a end.

Section loop.
Context `{!GoSort}.
Variable farm_Hash64 : list Z -> Z.

(** A writer and the name its metrics' [Driver] gives. *)
Record agg_writer := mkAggWriter {
  aw_driver : string;
  aw_loop : WriterLoop (D:=StatRepr)
}.

Record multiWriter := mkMultiWriter {
  mw_ws : list agg_writer;
  mw_flush : Z;
  mw_ttl : Z
}.

(** Where the loop of a flush time is: waiting for its tick; at the call of
    [post] for writer [i]; sending, in that call, what is left; sending a
    statistic that goes past the aggregators to writer [i]. *)
Inductive place :=
| PWaiting
| PPost (i : nat) (items : list (option StatRepr))
| PSend (i : nat) (rest items : list (option StatRepr))
| PDirect (i : nat) (dd : StatRepr).

Record AggregateLoop := mkAggLoop {
  FlushTimes : list Z;
  TTLTimes : list Z;
  Aggregators : MultiAggregator;
  OutWriters : gmap Z multiWriter;
  ByPass : bool;
  DirectToWriter : list (option StatRepr);
  al_places : gmap Z place;
  al_startstop : StartStop;
  shutitdown : bool
}.

Definition AGGLOOP_DEFAULT_QUEUE_LENGTH : Z := 1024.

Definition NewAggregateLoop (flushtimes ttls : list Z) : AggregateLoop :=
  mkAggLoop flushtimes ttls (NewMulti flushtimes) ∅ false [] ∅ new_StartStop false.

(** The flush times and times to live in seconds; fewer times to live is an
    index out of range. *)
Fixpoint resolutions (flush ttls : list Z) : option (list (Z * Z)) :=
  match flush, ttls with
  | [], _ => Some []
  | dur :: flush, ttl :: ttls =>
      res ← resolutions flush ttls;
      Some ((int64_of_float (Seconds dur), int64_of_float (Seconds ttl)) :: res)
  | _ :: _, [] => None
  end.

Definition getResolutionArray (agg : AggregateLoop) : option (list (Z * Z)) := resolutions (FlushTimes agg) (TTLTimes agg).

Definition set_writers (agg : AggregateLoop) (ws : gmap Z multiWriter) : AggregateLoop :=
  mkAggLoop (FlushTimes agg) (TTLTimes agg) (Aggregators agg) ws (ByPass agg) (DirectToWriter agg) (al_places agg)
    (al_startstop agg) (shutitdown agg).

Record WriterConfig := mkWriterConfig {
  conf_driver : string;
  conf_rollup : string;
  MetricQueueLength : Z;
  IndexerQueueLength : Z;
  conf_indexer_err : option goerror;
  conf_metrics_err : Z -> option goerror
}.

Definition new_writer (conf : WriterConfig) : WriterLoop (D:=StatRepr) :=
  mkWriterLoop [] 0 no_nodes (NewWriteQueue WRITER_MAX_WRITE_QUEUE)
    (if MetricQueueLength conf >? 0 then MetricQueueLength conf else WRITER_DEFAULT_METRIC_QUEUE_LENGTH)
    (if IndexerQueueLength conf >? 0 then IndexerQueueLength conf else WRITER_DEFAULT_INDEX_QUEUE_LENGTH)
    [] new_StartStop false.

(** [NewMetrics]: an error, or the name of the driver. *)
Definition NewMetrics (conf : WriterConfig) (dur : Z) : goerror + string :=
  match NewWriterMetrics (conf_driver conf) with
  | inl err => inl err
  | inr name => match conf_metrics_err conf dur with Some err => inl err | None => inr (Driver name (conf_rollup conf)) end
  end.

(** A writer is added to those of a flush time. *)
Definition add_writer (ws : gmap Z multiWriter) (dur ttl : Z) (wr : agg_writer) : gmap Z multiWriter :=
  match ws !! dur with
  | None => <[dur := mkMultiWriter [wr] dur ttl]> ws
  | Some mw => <[dur := mkMultiWriter (mw_ws mw ++ [wr]) (mw_flush mw) (mw_ttl mw)]> ws
  end.

(** The loop over the flush times; an error leaves the writers that were
    added.  [None] is an index out of range in [TTLTimes]. *)
Fixpoint set_writers_loop (conf : WriterConfig) (flush ttls : list Z) (ws : gmap Z multiWriter)
  : option (option goerror * gmap Z multiWriter) :=
  match flush, ttls with
  | [], _ => Some (None, ws)
  | dur :: flush, ttls =>
      match NewMetrics conf dur with
      | inl err => Some (Some err, ws)
      | inr driver =>
          ttl ← head ttls;
          let ws := add_writer ws dur ttl (mkAggWriter driver (new_writer conf)) in
          match (ResolutionsNeeded (conf_driver conf)).1 with
          | FirstResolution => Some (None, ws)
          | AllResolutions => set_writers_loop conf flush (tail ttls) ws
          end
      end
  end.

(** [getResolutionArray] is called in the loop, so there must be a time to
    live for each flush time as soon as one writer is made. *)
Definition SetWriter (agg : AggregateLoop) (conf : WriterConfig) : option (option goerror * AggregateLoop) :=
  match conf_indexer_err conf with
  | Some err => Some (Some err, agg)
  | None =>
      match FlushTimes agg with
      | [] => Some (None, agg)
      | dur :: _ =>
          match NewMetrics conf dur with
          | inl err => Some (Some err, agg)
          | inr _ =>
              _ ← getResolutionArray agg;
              '(err, ws) ← set_writers_loop conf (FlushTimes agg) (TTLTimes agg) (OutWriters agg);
              Some (err, set_writers agg ws)
          end
      end
  end.

(** Whether a writer needs all flush times. *)
Definition needs_all (ws : gmap Z multiWriter) : bool :=
  existsb (fun kv => existsb (fun wr => match (ResolutionsNeeded (aw_driver wr)).1 with AllResolutions => true | FirstResolution => false end)
                       (mw_ws kv.2)) (map_to_list ws).

Definition start_mw (mw : multiWriter) : multiWriter :=
  mkMultiWriter (map (fun wr => mkAggWriter (aw_driver wr) (w_Start (aw_loop wr))) (mw_ws mw)) (mw_flush mw) (mw_ttl mw).

(** [Start]; [None] is no flush time at all. *)
Definition agg_Start (agg : AggregateLoop) : option AggregateLoop :=
  let '(run, ss) := ss_Start (al_startstop agg) in
  if negb run then Some agg
  else if shutitdown agg then
    Some (mkAggLoop (FlushTimes agg) (TTLTimes agg) (Aggregators agg) (OutWriters agg) (ByPass agg) (DirectToWriter agg)
            (al_places agg) ss true)
  else
    flush ← (if needs_all (OutWriters agg) then Some (FlushTimes agg) else dur ← head (FlushTimes agg); Some [dur]);
    Some (mkAggLoop (FlushTimes agg) (TTLTimes agg) (NewMulti flush) (start_mw <$> OutWriters agg) (ByPass agg)
            (DirectToWriter agg) ((fun _ => PWaiting) <$> OutWriters agg) ss false).

(** The loops return; the writers are stopped.  It happens once. *)
Definition agg_Stop (agg : AggregateLoop) : AggregateLoop :=
  let '(run, ss) := ss_Stop (al_startstop agg) in
  if negb run then agg
  else if shutitdown agg then
    mkAggLoop (FlushTimes agg) (TTLTimes agg) (Aggregators agg) (OutWriters agg) (ByPass agg) (DirectToWriter agg)
      (al_places agg) ss true
  else
    mkAggLoop (FlushTimes agg) (TTLTimes agg) (Aggregators agg)
      ((fun mw => mkMultiWriter (map (fun wr => mkAggWriter (aw_driver wr) (w_Stop (aw_loop wr))) (mw_ws mw)) (mw_flush mw) (mw_ttl mw))
         <$> OutWriters agg)
      (ByPass agg) (DirectToWriter agg) ∅ ss true.

(** ** The moves *)

(** [DoWork] of a [StatJob], uninterrupted; the loop of a flush time: its tick, the start
    of a [post], the next send; the loop that goes past the aggregators
    takes a statistic; a round of the two goroutines of a writer. *)
Inductive label :=
| LAdd (stat : StatRepr)
| LTick (dur : Z)
| LPost (dur : Z)
| LSend (dur : Z)
| LDirect (dur : Z)
| LProc (dur : Z) (i pick : nat)
| LDrain (dur : Z) (i : nat).

Definition set_aggs (agg : AggregateLoop) (ma : MultiAggregator) : AggregateLoop :=
  mkAggLoop (FlushTimes agg) (TTLTimes agg) ma (OutWriters agg) (ByPass agg) (DirectToWriter agg) (al_places agg)
    (al_startstop agg) (shutitdown agg).

Definition set_place (agg : AggregateLoop) (dur : Z) (p : place) : AggregateLoop :=
  mkAggLoop (FlushTimes agg) (TTLTimes agg) (Aggregators agg) (OutWriters agg) (ByPass agg) (DirectToWriter agg)
    (<[dur := p]> (al_places agg)) (al_startstop agg) (shutitdown agg).

Definition set_loop (agg : AggregateLoop) (dur : Z) (mw : multiWriter) (i : nat) (wr : agg_writer)
  (w : WriterLoop) : AggregateLoop :=
  set_writers agg (<[dur := mkMultiWriter (<[i := mkAggWriter (aw_driver wr) w]> (mw_ws mw)) (mw_flush mw) (mw_ttl mw)]>
                     (OutWriters agg)).

Definition set_ttl (n : StatName) (ttl : Z) : StatName :=
  mkName (Key n) (uniqueId n) (uniqueIdstr n) (Resolution n) ttl (tagMode n) (hashMode n) (Tags n) (MetaTags n).

(** What [post] writes into the name of a statistic. *)
Definition stamp (durS ttlS : Z) (stat : StatRepr) : option StatRepr :=
  n ← r_Name stat; Some (with_name stat (set_ttl (set_resolution n durS) ttlS)).

(** The tick: no statistics, nothing to do. *)
Definition tick (agg : AggregateLoop) (dur : Z) : fired AggregateLoop :=
  match al_places agg !! dur, OutWriters agg !! dur with
  | Some PWaiting, Some mw =>
      if ByPass agg then Waits
      else
        match multi_Get (Aggregators agg) (mw_flush mw) with
        | None => Panics
        | Some sa =>
            let '(items, sa) := GetListAndClear sa in
            let agg := set_aggs agg (mkMulti (<[Seconds (mw_flush mw) := sa]> (Aggs (Aggregators agg)))
                                       (Resolutions (Aggregators agg))) in
            match items with [] => Goes agg | _ :: _ => Goes (set_place agg dur (PPost 0 items)) end
        end
  | _, _ => Waits
  end.

(** The start of [post]: a writer that is full gets nothing of this tick. *)
Definition post (agg : AggregateLoop) (dur : Z) : fired AggregateLoop :=
  match al_places agg !! dur, OutWriters agg !! dur with
  | Some (PPost i items), Some mw =>
      match mw_ws mw !! i with
      | None => Goes (set_place agg dur PWaiting)
      | Some wr => if Full (aw_loop wr) then Goes (set_place agg dur (PPost (S i) items))
                   else Goes (set_place agg dur (PSend i items items))
      end
  | _, _ => Waits
  end.

(** A send of [post], or of the loop that goes past the aggregators. *)
Definition send_next (agg : AggregateLoop) (dur : Z) : fired AggregateLoop :=
  match al_places agg !! dur, OutWriters agg !! dur with
  | Some (PSend i [] items), Some mw => Goes (set_place agg dur (PPost (S i) items))
  | Some (PSend i (stat :: rest) items), Some mw =>
      match mw_ws mw !! i, (stat ← stat; stamp (uint32_of_float (Seconds (mw_flush mw))) (uint32_of_float (Seconds (mw_ttl mw))) stat) with
      | Some wr, Some stat =>
          match send (aw_loop wr) stat with
          | None => Waits
          | Some w => Goes (set_place (set_loop agg dur mw i wr w) dur (PSend i rest items))
          end
      | _, _ => Panics
      end
  | Some (PDirect i dd), Some mw =>
      match mw_ws mw !! i with
      | None => Goes (set_place agg dur PWaiting)
      | Some wr =>
          match r_Name dd with
          | None => Panics
          | Some n =>
              let dd := with_name dd (set_ttl n (uint32_of_float (Seconds (mw_ttl mw)))) in
              match send (aw_loop wr) dd with
              | None => Waits
              | Some w => Goes (set_place (set_loop agg dur mw i wr w) dur (PDirect (S i) dd))
              end
          end
      end
  | _, _ => Waits
  end.

(** The loops of all flush times take from one channel; a nil is skipped. *)
Definition direct (agg : AggregateLoop) (dur : Z) : fired AggregateLoop :=
  match al_places agg !! dur, DirectToWriter agg with
  | Some PWaiting, dd :: ch =>
      if ByPass agg then
        let agg := mkAggLoop (FlushTimes agg) (TTLTimes agg) (Aggregators agg) (OutWriters agg) (ByPass agg) ch (al_places agg)
                     (al_startstop agg) (shutitdown agg) in
        Goes (match dd with None => agg | Some dd => set_place agg dur (PDirect 0 dd) end)
      else Waits
  | _, _ => Waits
  end.

Definition with_writer (agg : AggregateLoop) (dur : Z) (i : nat) (f : WriterLoop -> option WriterLoop) : fired AggregateLoop :=
  match OutWriters agg !! dur with
  | None => Waits
  | Some mw =>
      match mw_ws mw !! i with
      | None => Waits
      | Some wr => match f (aw_loop wr) with None => Panics | Some w => Goes (set_loop agg dur mw i wr w) end
      end
  end.

Definition fire (agg : AggregateLoop) (l : label) : fired AggregateLoop :=
  match l with
  | LAdd stat => or_panic ('(_, ma) ← multi_Add farm_Hash64 (Aggregators agg) stat; Some (set_aggs agg ma))
  | LTick dur => tick agg dur
  | LPost dur => post agg dur
  | LSend dur => send_next agg dur
  | LDirect dur => direct agg dur
  | LProc dur i pick => with_writer agg dur i (fun w => '(_, w) ← procLoop w pick; Some w)
  | LDrain dur i => with_writer agg dur i procQueue
  end.

End loop.
