(* ===== verification/AggLoopTheorems.v ===== *)
(** Between the accumulator and the writers nothing is lost but what is
    reported: the observations that came in are, at every flush time and for
    every writer, those written, queued, on their way, still being
    aggregated, and dropped because the writer was full.  And when the
    writers' drivers need the flush times their configurations say, every
    flush time that has a writer has its aggregator. *)
From S2P Require Import Prelude Float64 Bits GoStrings GoParse GoSort Tags Repr ReprTheorems Aggregator AggregatorTheorems.
From S2P Require Import WriterLoop AggLoop.

Open Scope Z_scope.

(** ** Counting *)

(** Equal as 64-bit integers. *)
Definition cong64 (a b : Z) : Prop := exists k, a = b + k * 2 ^ 64.

Definition counts (l : list StatRepr) : Z := foldr (fun s n => Count s + n) 0 l.

Lemma counts_append (l l' : list StatRepr) : counts (l ++ l') = counts l + counts l'.
Proof. unfold counts. induction l as [|s l IH]; cbn; [done|]. rewrite IH. lia. Qed.

Lemma counts_permutation (l l' : list StatRepr) : l ≡ₚ l' -> counts l = counts l'.
Proof. unfold counts. induction 1; cbn; lia. Qed.

Definition item_list (m : gmap string StatRepr) : list StatRepr := map snd (map_to_list m).

Lemma item_list_insert (m : gmap string StatRepr) (k : string) (s : StatRepr) :
  counts (item_list (<[k := s]> m)) = Count s + counts (item_list (delete k m)).
Proof.
  unfold item_list. rewrite <- insert_delete_eq.
  rewrite (counts_permutation _ (map snd ((k, s) :: map_to_list (delete k m)))); [done|].
  apply Permutation_map, map_to_list_insert, lookup_delete_eq.
Qed.

Lemma item_list_delete (m : gmap string StatRepr) (k : string) (s : StatRepr) :
  m !! k = Some s -> counts (item_list m) = Count s + counts (item_list (delete k m)).
Proof. intros Hk. rewrite <- item_list_insert. by rewrite insert_id. Qed.

Lemma i64_cong (a : Z) : cong64 (i64 a) a.
Proof.
  exists (- ((a + 2 ^ 63) / 2 ^ 64)). unfold i64, swrap. change (64 - 1) with 63.
  pose proof (Z.div_mod (a + 2 ^ 63) (2 ^ 64) ltac:(lia)). lia.
Qed.

Definition all_named (sa : Aggregator) : Prop := forall k e, Items sa !! k = Some e -> named e.

Section loop.
Context {GS : GoSort} (farm_Hash64 : list Z -> Z).

(** An aggregator counts what is added to it. *)
Lemma Add_counts (sa : Aggregator) (s : StatRepr) :
  named s -> all_named sa ->
  exists s' sa', Add farm_Hash64 sa s = Some (s', sa') /\ all_named sa' /\
    cong64 (counts (item_list (Items sa'))) (counts (item_list (Items sa)) + Count s).
Proof.
  intros [n Hs] Hn. unfold Add. rewrite Hs. cbn [mbind option_bind].
  destruct (UniqueIdString farm_Hash64 n) as [idstr n']. set (mK := MapKey _ _ _).
  assert (Hins : forall e, named e -> all_named (mkAgg (<[mK := e]> (Items sa)) (agg_Resolution sa))).
  { intros e He k x. cbn. destruct (decide (k = mK)) as [->|Hne].
    - rewrite lookup_insert_eq. by intros [= <-].
    - rewrite lookup_insert_ne by done. apply Hn. }
  destruct (Items sa !! mK) as [e|] eqn:E.
  - destruct (Hn _ _ E) as [ne Hne].
    destruct (combine_named (ResolutionTime sa (ToTime s)) (agg_Resolution sa) e (with_name s n') (Hn _ _ E)) as (e' & Ec & He').
    rewrite Ec. cbn [mbind option_bind]. eexists _, _. split; [done|]. split; [by apply Hins|]. cbn [Items].
    rewrite item_list_insert, (item_list_delete _ _ _ E). unfold combine in Ec. rewrite Hne in Ec. cbn [mbind option_bind] in Ec.
    injection Ec as <-. cbn [Count with_name]. destruct (i64_cong (Count e + Count s)) as [k Hk]. exists k. lia.
  - eexists _, _. split; [done|]. split; [apply Hins; by eexists|]. cbn [Items].
    rewrite item_list_insert, delete_id by done. exists 0. cbn. lia.
Qed.

(** The writer's goroutines, whether or not the queue is full. *)
Lemma procLoop_any (w : WriterLoop (D:=StatRepr)) (l : list StatRepr) (ids : list nat) (pick : nat) :
  q_repr (w_nodes w, writeQueue w) l ids ->
  exists err w' ids', procLoop w pick = Some (err, w') /\ writeChan w' = drop 1 (writeChan w) /\
    w_written w' = w_written w /\
    q_repr (w_nodes w', writeQueue w') (match err with None => l ++ take 1 (writeChan w) | Some _ => l end) ids'.
Proof.
  intros Hr. unfold procLoop. destruct (writeChan w) as [|stat ch] eqn:Ech.
  { exists None, w, ids. cbn. rewrite app_nil_r. by rewrite Ech. }
  destruct (Push_refines _ _ l ids stat pick Hr) as (ns' & q' & ids' & -> & Hm & Hr'). cbn [mbind option_bind].
  eexists _, _, ids'. split; [done|]. cbn [take drop]. rewrite drop_0. split_and!; [done..|].
  by destruct (Z.of_nat (length l) >=? queuemax (writeQueue w)).
Qed.

Lemma procQueue_any (w : WriterLoop (D:=StatRepr)) (l : list StatRepr) (ids : list nat) :
  q_repr (w_nodes w, writeQueue w) l ids ->
  exists w' ids', procQueue w = Some w' /\ writeChan w' = writeChan w /\ w_written w' = w_written w ++ l /\
    q_repr (w_nodes w', writeQueue w') [] ids'.
Proof.
  intros Hr. destruct (procQueue_spec w (w_written w ++ l ++ writeChan w) l ids) as (w' & ids' & E & [Hr' Ho] & _ & Hc);
    [by split|]. exists w', ids'. split_and!; try done. rewrite Hc in Ho. cbn [app] in Ho.
  rewrite (app_assoc (w_written w)) in Ho. by apply app_inv_tail in Ho.
Qed.

(** ** What a writer holds, and what it will be sent *)

Definition pending (p : place) (i : nat) : list (option StatRepr) :=
  match p with
  | PWaiting | PDirect _ _ => []
  | PPost j items => if decide (j <= i)%nat then items else []
  | PSend j rest items => if decide (j = i) then rest else if decide (j < i)%nat then items else []
  end.

(** A statistic of a flush time, as written. *)
Definition stamped (mw : multiWriter) (s : StatRepr) : Prop :=
  exists n, r_Name s = Some n /\ Resolution n = uint32_of_float (Seconds (mw_flush mw)) /\
    Ttl n = uint32_of_float (Seconds (mw_ttl mw)).

(** The books of writer [i] of flush time [dur]. *)
Record holds (agg : AggregateLoop) (dur : Z) (i : nat) (lost added : list StatRepr)
  (mw : multiWriter) (wr : agg_writer) (sa : Aggregator) (p : place) (l : list StatRepr) (ids : list nat) : Prop := {
  h_mw : OutWriters agg !! dur = Some mw;
  h_wr : mw_ws mw !! i = Some wr;
  h_sa : multi_Get (Aggregators agg) dur = Some sa;
  h_place : al_places agg !! dur = Some p;
  h_queue : q_repr (w_nodes (aw_loop wr), writeQueue (aw_loop wr)) l ids;
  h_stamps : Forall (stamped mw) (w_written (aw_loop wr) ++ l ++ writeChan (aw_loop wr));
  h_counts : cong64 (counts (w_written (aw_loop wr) ++ l ++ writeChan (aw_loop wr)) +
                     counts (omap id (pending p i)) + counts (item_list (Items sa)) + counts lost) (counts added)
}.

Definition accounted (agg : AggregateLoop) (dur : Z) (i : nat) (lost added : list StatRepr) : Prop :=
  exists mw wr sa p l ids, holds agg dur i lost added mw wr sa p l ids.

(** What a move drops: the statistics of a tick when the writer is full,
    one statistic when its queue is. *)
Definition dropped (agg : AggregateLoop) (lab : label) (dur : Z) (i : nat) : list StatRepr :=
  match OutWriters agg !! dur ≫= (fun mw => mw_ws mw !! i) with
  | None => []
  | Some wr =>
      match lab with
      | LPost d =>
          match al_places agg !! d with
          | Some (PPost j items) => if decide (d = dur /\ j = i) then if Full (aw_loop wr) then omap id items else [] else []
          | _ => []
          end
      | LProc d j pick =>
          if decide (d = dur /\ j = i) then
            match procLoop (aw_loop wr) pick with Some (Some _, _) => take 1 (writeChan (aw_loop wr)) | _ => [] end
          else []
      | _ => []
      end
  end.

Definition added_by (lab : label) : list StatRepr := match lab with LAdd stat => [stat] | _ => [] end.

(** ** No move panics *)

Definition named_item (o : option StatRepr) : Prop := exists s, o = Some s /\ named s.

Definition place_ok (mw : multiWriter) (p : place) : Prop :=
  match p with
  | PWaiting => True
  | PPost _ items => Forall named_item items
  | PSend i rest items => Forall named_item rest /\ Forall named_item items /\ (i < length (mw_ws mw))%nat
  | PDirect _ _ => False
  end.

Record sane (agg : AggregateLoop) : Prop := {
  s_bypass : ByPass agg = false;
  s_once : NoDup (map Seconds (Resolutions (Aggregators agg)));
  s_aggs : forall d, d ∈ Resolutions (Aggregators agg) ->
    exists sa, multi_Get (Aggregators agg) d = Some sa /\ all_named sa;
  s_writers : forall d mw, OutWriters agg !! d = Some mw ->
    mw_flush mw = d /\ d ∈ Resolutions (Aggregators agg) /\
    Forall (fun wr => exists l ids, q_repr (w_nodes (aw_loop wr), writeQueue (aw_loop wr)) l ids) (mw_ws mw);
  s_places : forall d mw p, OutWriters agg !! d = Some mw -> al_places agg !! d = Some p -> place_ok mw p
}.

Lemma seconds_apart (agg : AggregateLoop) (d d' : Z) :
  sane agg -> d ∈ Resolutions (Aggregators agg) -> d' ∈ Resolutions (Aggregators agg) -> d <> d' -> Seconds d <> Seconds d'.
Proof.
  intros Hs Hd Hd' Hne Heq. apply Hne. pose proof (s_once _ Hs) as Hn.
  apply list_elem_of_lookup in Hd as [a Ha], Hd' as [b Hb].
  assert (a = b).
  { apply (NoDup_lookup (map Seconds (Resolutions (Aggregators agg))) a b (Seconds d)); [done|..];
      rewrite list_lookup_fmap, ?Ha, ?Hb; cbn; congruence. }
  subst. congruence.
Qed.

(** Books whose place, aggregator and writers a move leaves alone. *)
Lemma accounted_frame (agg agg' : AggregateLoop) (dur : Z) (i : nat) (lost added : list StatRepr) :
  OutWriters agg' !! dur = OutWriters agg !! dur -> al_places agg' !! dur = al_places agg !! dur ->
  multi_Get (Aggregators agg') dur = multi_Get (Aggregators agg) dur ->
  accounted agg dur i lost added -> accounted agg' dur i (lost ++ []) (added ++ []).
Proof.
  intros Hw Hp Hg (mw & wr & sa & p & l & ids & [H1 H2 H3 H4 H5 H6 H7]). exists mw, wr, sa, p, l, ids.
  rewrite !app_nil_r. split; congruence || done.
Qed.

(** A move that changes the place only. *)
Lemma sane_place (agg : AggregateLoop) (dur : Z) (mw : multiWriter) (p : place) :
  sane agg -> OutWriters agg !! dur = Some mw -> place_ok mw p -> sane (set_place agg dur p).
Proof.
  intros [H1 H2 H3 H4 H5] Hm Hp. split; try done. intros d mw' p' Hd. cbn. destruct (decide (d = dur)) as [->|Hne].
  - rewrite lookup_insert_eq. intros [= <-]. cbn in Hd. congruence.
  - rewrite lookup_insert_ne by done. by apply H5.
Qed.

Definition books_follow (agg agg' : AggregateLoop) (lab : label) : Prop :=
  forall dur i lost added, accounted agg dur i lost added ->
    accounted agg' dur i (lost ++ dropped agg lab dur i) (added ++ added_by lab).

(** The books of another flush time or another writer. *)
Lemma accounted_other (agg agg' : AggregateLoop) (lab : label) (dur : Z) (i : nat) (lost added : list StatRepr) :
  dropped agg lab dur i = [] -> added_by lab = [] ->
  OutWriters agg' !! dur = OutWriters agg !! dur -> al_places agg' !! dur = al_places agg !! dur ->
  multi_Get (Aggregators agg') dur = multi_Get (Aggregators agg) dur ->
  accounted agg dur i lost added -> accounted agg' dur i (lost ++ dropped agg lab dur i) (added ++ added_by lab).
Proof. intros -> -> Hw Hp Hg. by apply accounted_frame. Qed.

Lemma add_step (agg : AggregateLoop) (stat : StatRepr) :
  sane agg -> named stat ->
  exists agg', fire farm_Hash64 agg (LAdd stat) = Goes agg' /\ sane agg' /\ books_follow agg agg' (LAdd stat).
Proof.
  intros Hs Hn. cbn [fire]. set (ma := Aggregators agg).
  set (f d := match multi_Get ma d with
              | Some sa => match Add farm_Hash64 sa stat with Some (_, sa1) => sa1 | None => sa end
              | None => NewAggregator d end).
  assert (Hf : forall d, d ∈ Resolutions ma -> exists sa s', multi_Get ma d = Some sa /\ Add farm_Hash64 sa stat = Some (s', f d) /\
    all_named (f d) /\ cong64 (counts (item_list (Items (f d)))) (counts (item_list (Items sa)) + Count stat)).
  { intros d Hd. destruct (s_aggs _ Hs d Hd) as (sa & Hsa & Ha). destruct (Add_counts sa stat Hn Ha) as (s' & sa' & E & Hrest).
    exists sa, s'. unfold f. fold ma in Hsa. by rewrite Hsa, E. }
  destruct (multi_loop_spec farm_Hash64 (Resolutions ma) (Aggs ma) stat stat f (s_once _ Hs)) as (s1 & aggs' & El & Hin & _); [by left| |].
  { intros d Hd. destruct (Hf d Hd) as (sa & s' & Hsa & E & _). eauto. }
  unfold multi_Add. rewrite El. cbn [mbind option_bind or_panic]. eexists. split; [done|].
  assert (Hget : forall d, d ∈ Resolutions ma -> multi_Get (mkMulti aggs' (Resolutions ma)) d = Some (f d)) by exact Hin.
  split.
  - destruct Hs as [H1 H2 H3 H4 H5]. split; try done. intros d Hd. destruct (Hf d Hd) as (_ & _ & _ & _ & Ha & _).
    exists (f d). split; [by apply Hget|done].
  - intros dur i lost added (mw & wr & sa & p & l & ids & [H1 H2 H3 H4 H5 H6 H7]).
    destruct (s_writers _ Hs _ _ H1) as (_ & Hres & _). destruct (Hf dur Hres) as (sa0 & s' & Hsa & _ & _ & k & Hk).
    fold ma in H3. rewrite H3 in Hsa. injection Hsa as <-.
    exists mw, wr, (f dur), p, l, ids. split; try done; [by apply Hget|].
    destruct H7 as [k7 H7]. exists (k + k7). unfold dropped. rewrite H1. cbn [mbind option_bind]. rewrite H2, app_nil_r, !counts_append in *.
    change (counts (added_by (LAdd stat))) with (Count stat + 0). lia.
Qed.

Lemma handed_out (sa : Aggregator) :
  all_named sa -> exists items, GetListAndClear sa = (items, mkAgg ∅ (agg_Resolution sa)) /\
    Forall named_item items /\ counts (omap id items) = counts (item_list (Items sa)).
Proof.
  intros Hn. eexists. split; [done|]. set (l := map _ _). assert (Hp : sort_Sort reprs_Less l ≡ₚ l) by apply sort_perm. split.
  - rewrite Hp. apply Forall_fmap, Forall_forall. intros [k e] He. apply elem_of_map_to_list in He. cbn. eexists. split; [done|].
    by eapply Hn.
  - rewrite (counts_permutation _ (omap id l)) by (by apply omap_Permutation). unfold l, item_list. f_equal.
    clear. induction (map_to_list (Items sa)) as [|x xs IH]; cbn; [done|]. by f_equal.
Qed.

Lemma tick_step (agg : AggregateLoop) (d : Z) :
  sane agg ->
  fire farm_Hash64 agg (LTick d) = Waits \/
  exists agg', fire farm_Hash64 agg (LTick d) = Goes agg' /\ sane agg' /\ books_follow agg agg' (LTick d).
Proof.
  intros Hs. cbn [fire]. unfold tick. destruct (al_places agg !! d) as [[| | |]|] eqn:Ep; try by left.
  destruct (OutWriters agg !! d) as [mw|] eqn:Em; [|by left]. rewrite (s_bypass _ Hs).
  destruct (s_writers _ Hs _ _ Em) as (Hfl & Hres & _). rewrite Hfl. destruct (s_aggs _ Hs d Hres) as (sa & Hsa & Ha). rewrite Hsa.
  destruct (handed_out sa Ha) as (items & -> & Hitems & Hct). right.
  set (ma := mkMulti _ _).
  assert (Hget : multi_Get ma d = Some (mkAgg ∅ (agg_Resolution sa))) by apply lookup_insert_eq.
  assert (Hother : forall d', d' ∈ Resolutions (Aggregators agg) -> d <> d' -> multi_Get ma d' = multi_Get (Aggregators agg) d').
  { intros d' Hd' Hne. unfold multi_Get, ma. cbn. apply lookup_insert_ne. by eapply seconds_apart. }
  assert (Hs1 : sane (set_aggs agg ma)).
  { destruct Hs as [H1 H2 H3 H4 H5]. split; try done. intros d' Hd'. destruct (decide (d = d')) as [<-|Hne].
    - eexists. split; [exact Hget|]. intros k e. cbn. by rewrite lookup_empty.
    - change (Aggregators (set_aggs agg ma)) with ma. rewrite (Hother d' Hd' Hne). by apply H3. }
  assert (Hbooks : forall agg', OutWriters agg' = OutWriters agg -> Aggregators agg' = ma ->
    (forall d', d <> d' -> al_places agg' !! d' = al_places agg !! d') ->
    (exists p, al_places agg' !! d = Some p /\ forall i, counts (omap id (pending p i)) = counts (omap id items)) ->
    books_follow agg agg' (LTick d)).
  { intros agg' Hw Hag Hpl (p' & Hp' & Hpend) dur i lost added Hacc. destruct (decide (d = dur)) as [<-|Hne].
    - destruct Hacc as (mw0 & wr & sa0 & p & l & ids & [H1 H2 H3 H4 H5 H6 H7]). rewrite Hsa in H3. injection H3 as <-.
      rewrite Ep in H4. injection H4 as <-.
      exists mw0, wr, (mkAgg ∅ (agg_Resolution sa)), p', l, ids. split; try done; [congruence|by rewrite Hag|].
      destruct H7 as [k H7]. exists k. unfold dropped. rewrite H1. cbn [mbind option_bind]. rewrite H2, !app_nil_r, Hpend, Hct.
      cbn [pending omap list_omap] in H7. change (counts []) with 0 in H7.
      change (counts (item_list (Items (mkAgg ∅ (agg_Resolution sa))))) with 0. lia.
    - apply accounted_other; try done; [|by rewrite Hw|by rewrite Hpl|].
      + unfold dropped. by destruct (OutWriters agg !! dur ≫= _).
      + destruct Hacc as (mw0 & wr & sa0 & p & l & ids & [H1 H2 H3 H4 H5 H6 H7]).
        destruct (s_writers _ Hs _ _ H1) as (_ & Hr & _). rewrite Hag. by apply Hother. }
  destruct items as [|x items]; eexists; (split; [done|]).
  - split; [done|]. apply Hbooks; try done. exists PWaiting. done.
  - split; [by apply (sane_place _ _ mw)|]. apply Hbooks; try done.
    + intros d' Hne. cbn. by apply lookup_insert_ne.
    + exists (PPost 0 (x :: items)). cbn [set_place al_places]. rewrite lookup_insert_eq. split; [done|]. intros i. cbn [pending].
      by rewrite decide_True by lia.
Qed.

(** Between two places where every writer is still due the same. *)
Lemma place_step (agg : AggregateLoop) (d : Z) (mw : multiWriter) (p p' : place) (lab : label) :
  sane agg -> OutWriters agg !! d = Some mw -> al_places agg !! d = Some p -> place_ok mw p' -> added_by lab = [] ->
  (forall dur i, d <> dur -> dropped agg lab dur i = []) ->
  (forall i wr, mw_ws mw !! i = Some wr ->
     counts (omap id (pending p i)) = counts (omap id (pending p' i)) + counts (dropped agg lab d i)) ->
  sane (set_place agg d p') /\ books_follow agg (set_place agg d p') lab.
Proof.
  intros Hs Em Ep Hok Hadd Hdr Hpend. split; [by apply (sane_place _ _ mw)|].
  intros dur i lost added Hacc. destruct (decide (d = dur)) as [<-|Hne].
  - destruct Hacc as (mw0 & wr & sa & p0 & l & ids & [H1 H2 H3 H4 H5 H6 H7]). rewrite Em in H1. injection H1 as <-.
    rewrite Ep in H4. injection H4 as <-. exists mw, wr, sa, p', l, ids. split; try done; [apply lookup_insert_eq|].
    destruct H7 as [k H7]. exists k. rewrite Hadd, app_nil_r. rewrite (Hpend i wr H2) in H7. rewrite !counts_append in *. lia.
  - apply accounted_other; try done; [by apply Hdr|]. cbn. by apply lookup_insert_ne.
Qed.

Lemma post_step (agg : AggregateLoop) (d : Z) :
  sane agg ->
  fire farm_Hash64 agg (LPost d) = Waits \/
  exists agg', fire farm_Hash64 agg (LPost d) = Goes agg' /\ sane agg' /\ books_follow agg agg' (LPost d).
Proof.
  intros Hs. cbn [fire]. unfold post. destruct (al_places agg !! d) as [[|j items| |]|] eqn:Ep; try by left.
  destruct (OutWriters agg !! d) as [mw|] eqn:Em; [|by left]. right.
  pose proof (s_places _ Hs d mw _ Em Ep) as Hok. cbn in Hok.
  assert (Hdr : forall dur i, d <> dur -> dropped agg (LPost d) dur i = []).
  { intros dur i Hne. unfold dropped. destruct (OutWriters agg !! dur ≫= _); [|done]. rewrite Ep.
    by rewrite decide_False by tauto. }
  assert (Hdd : forall i wr, mw_ws mw !! i = Some wr ->
    dropped agg (LPost d) d i = if decide (j = i) then if Full (aw_loop wr) then omap id items else [] else []).
  { intros i wr Hi. unfold dropped. rewrite Em. cbn [mbind option_bind]. rewrite Hi, Ep. repeat case_decide; try done; naive_solver. }
  destruct (mw_ws mw !! j) as [wr|] eqn:Ej.
  - pose proof (lookup_lt_Some _ _ _ Ej) as Hj.
    destruct (Full (aw_loop wr)) eqn:Ef; eexists; (split; [done|]); apply (place_step agg d mw (PPost j items)); try done.
    + intros i wri Hi. rewrite (Hdd i wri Hi). cbn [pending]. destruct (decide (j = i)) as [->|Hne].
      * rewrite decide_True, decide_False by lia. replace wri with wr by congruence. rewrite Ef. cbn. lia.
      * repeat case_decide; cbn; lia.
    + intros i wri Hi. rewrite (Hdd i wri Hi). cbn [pending]. destruct (decide (j = i)) as [->|Hne].
      * rewrite decide_True by lia. replace wri with wr by congruence. rewrite Ef. cbn. lia.
      * repeat case_decide; cbn; lia.
  - eexists. split; [done|]. apply (place_step agg d mw (PPost j items)); try done.
    intros i wri Hi. rewrite (Hdd i wri Hi). cbn [pending].
    apply lookup_ge_None in Ej. pose proof (lookup_lt_Some _ _ _ Hi). repeat case_decide; cbn; lia.
Qed.

(** The loop of writer [i] of flush time [d] changes, and the place of [d]
    to [p']. *)
Lemma writer_step (agg agg' : AggregateLoop) (d : Z) (mw : multiWriter) (i : nat) (wr : agg_writer) (w : WriterLoop)
  (p' : option place) (lab : label) :
  sane agg -> OutWriters agg !! d = Some mw -> mw_ws mw !! i = Some wr ->
  agg' = (let agg1 := set_loop agg d mw i wr w in match p' with None => agg1 | Some p => set_place agg1 d p end) ->
  added_by lab = [] ->
  (forall p, p' = Some p -> place_ok mw p) ->
  (forall dur j, d <> dur \/ i <> j -> dropped agg lab dur j = []) ->
  (forall p q j wr', p' = Some p -> al_places agg !! d = Some q -> i <> j -> mw_ws mw !! j = Some wr' ->
     counts (omap id (pending q j)) = counts (omap id (pending p j))) ->
  (forall l ids, q_repr (w_nodes (aw_loop wr), writeQueue (aw_loop wr)) l ids ->
     exists l' ids', q_repr (w_nodes w, writeQueue w) l' ids' /\
       (Forall (stamped mw) (w_written (aw_loop wr) ++ l ++ writeChan (aw_loop wr)) ->
        Forall (stamped mw) (w_written w ++ l' ++ writeChan w)) /\
       forall q, al_places agg !! d = Some q ->
         counts (w_written (aw_loop wr) ++ l ++ writeChan (aw_loop wr)) + counts (omap id (pending q i)) =
         counts (w_written w ++ l' ++ writeChan w) + counts (omap id (pending (default q p') i)) + counts (dropped agg lab d i)) ->
  sane agg' /\ books_follow agg agg' lab.
Proof.
  intros Hs Em Ei -> Hadd Hok Hdr Hoth Hw. set (agg1 := set_loop agg d mw i wr w).
  set (mw1 := mkMultiWriter (<[i := mkAggWriter (aw_driver wr) w]> (mw_ws mw)) (mw_flush mw) (mw_ttl mw)).
  pose proof (lookup_lt_Some _ _ _ Ei) as Hlt.
  assert (Hlook : OutWriters agg1 !! d = Some mw1) by apply lookup_insert_eq.
  assert (Hlook2 : forall d', d <> d' -> OutWriters agg1 !! d' = OutWriters agg !! d') by (intros; by apply lookup_insert_ne).
  assert (Hpk : forall p, place_ok mw p -> place_ok mw1 p).
  { intros [| | |]; cbn; try done. by rewrite length_insert. }
  assert (Hs1 : sane agg1).
  { destruct Hs as [H1 H2 H3 H4 H5]. split; try done.
    - intros d' mw' Hd'. destruct (decide (d = d')) as [<-|Hne]; [|rewrite Hlook2 in Hd' by done; by apply H4].
      rewrite Hlook in Hd'. injection Hd' as <-. destruct (H4 d mw Em) as (Hf & Hr & Hall). split_and!; try done.
      apply Forall_insert; [done|]. destruct (Forall_lookup_1 _ _ _ _ Hall Ei) as (l & ids & Hq).
      destruct (Hw l ids Hq) as (l' & ids' & Hq' & _). eauto.
    - intros d' mw' q Hd' Hq. destruct (decide (d = d')) as [<-|Hne]; [|rewrite Hlook2 in Hd' by done; by apply (H5 d')].
      rewrite Hlook in Hd'. injection Hd' as <-. apply Hpk. by apply (H5 d mw q). }
  split.
  { destruct p' as [p|]; [|done]. apply (sane_place _ _ mw1); [done|done|]. by apply Hpk, Hok. }
  intros dur j lost added (mw0 & wr0 & sa & q & l & ids & [H1 H2 H3 H4 H5 H6 H7]).
  destruct (decide (d = dur)) as [<-|Hne].
  2:{ apply accounted_other; [by apply Hdr; left|done|by destruct p'; cbn; apply lookup_insert_ne| |by destruct p'|].
      - destruct p'; [|done]. cbn. by apply lookup_insert_ne.
      - by exists mw0, wr0, sa, q, l, ids. }
  rewrite Em in H1. injection H1 as <-.
  assert (Hplace : al_places (match p' with None => agg1 | Some p => set_place agg1 d p end) !! d = Some (default q p')).
  { destruct p'; [apply lookup_insert_eq|done]. }
  destruct (decide (i = j)) as [<-|Hij].
  - rewrite Ei in H2. injection H2 as <-. destruct (Hw l ids H5) as (l' & ids' & Hq' & Hst & Hct).
    exists mw1, (mkAggWriter (aw_driver wr) w), sa, (default q p'), l', ids'. split; try done.
    + by destruct p'.
    + cbn. by apply list_lookup_insert_eq.
    + by destruct p'.
    + by apply Hst.
    + destruct H7 as [k H7]. exists k. specialize (Hct q H4). cbn [aw_loop]. rewrite Hadd, app_nil_r, (counts_append lost). lia.
  - exists mw1, wr0, sa, (default q p'), l, ids. split; try done.
    + by destruct p'.
    + cbn. by rewrite list_lookup_insert_ne.
    + by destruct p'.
    + rewrite (Hdr d j) by (by right). rewrite Hadd, !app_nil_r. destruct p' as [p|]; [|done]. cbn [default from_option id].
      by rewrite <- (Hoth p q j wr0).
Qed.

Lemma dropped_quiet (agg : AggregateLoop) (lab : label) (dur : Z) (i : nat) :
  match lab with LPost _ | LProc _ _ _ => False | _ => True end -> dropped agg lab dur i = [].
Proof. intros Hl. unfold dropped. destruct (OutWriters agg !! dur ≫= _); [|done]. by destruct lab. Qed.

Lemma send_step (agg : AggregateLoop) (d : Z) :
  sane agg ->
  fire farm_Hash64 agg (LSend d) = Waits \/
  exists agg', fire farm_Hash64 agg (LSend d) = Goes agg' /\ sane agg' /\ books_follow agg agg' (LSend d).
Proof.
  intros Hs. cbn [fire]. unfold send_next. destruct (al_places agg !! d) as [[| |j rest items|j dd]|] eqn:Ep; try by left.
  - destruct (OutWriters agg !! d) as [mw|] eqn:Em; [|destruct rest; by left].
    destruct (s_places _ Hs d mw _ Em Ep) as (Hrest & Hitems & Hj). destruct rest as [|o rest].
    + right. eexists. split; [done|]. apply (place_step agg d mw (PSend j [] items)); try done.
      * intros dur i _. by apply dropped_quiet.
      * intros i wr _. rewrite dropped_quiet by done. cbn [pending]. repeat case_decide; cbn; lia.
    + apply Forall_cons in Hrest as [(stat & -> & [n Hn]) Hrest]. apply lookup_lt_is_Some in Hj as [wr Hwr]. rewrite Hwr.
      unfold stamp. cbn [mbind option_bind]. rewrite Hn. cbn [mbind option_bind].
      set (stat' := with_name stat _). unfold send. case_if; [|by left]. right. eexists. split; [done|].
      eapply (writer_step agg _ d mw j wr _ (Some (PSend j rest items))); try done.
      * intros p [= <-]. split_and!; try done. by eapply lookup_lt_Some.
      * intros dur i _. by apply dropped_quiet.
      * intros p q i wr' [= <-] Hq Hne _. rewrite Ep in Hq. injection Hq as <-. cbn [pending]. by rewrite !(decide_False (P:=j = i)).
      * intros l ids Hq. exists l, ids. cbn [w_nodes writeQueue w_written writeChan set_queue]. split_and!; [done| |].
        -- intros Hst. rewrite !app_assoc in *. apply Forall_app. split; [done|]. constructor; [|done]. eexists. split; [done|]. done.
        -- intros q Eq. rewrite Ep in Eq. injection Eq as <-. rewrite dropped_quiet by done. cbn [pending default from_option id]. rewrite !decide_True by done.
           rewrite !counts_append. change (counts [stat']) with (Count stat + 0). change (counts []) with 0.
           cbn [omap list_omap id]. change (counts (stat :: ?l)) with (Count stat + counts l). lia.
  - destruct (OutWriters agg !! d) as [mw|] eqn:Em; [|by left]. by destruct (s_places _ Hs d mw _ Em Ep).
Qed.

Lemma with_writer_step (agg : AggregateLoop) (d : Z) (j : nat) (f : WriterLoop -> option WriterLoop) (lab : label) :
  sane agg -> added_by lab = [] -> (forall dur i, d <> dur \/ j <> i -> dropped agg lab dur i = []) ->
  (forall mw wr l ids, OutWriters agg !! d = Some mw -> mw_ws mw !! j = Some wr ->
     q_repr (w_nodes (aw_loop wr), writeQueue (aw_loop wr)) l ids ->
     exists w l' ids', f (aw_loop wr) = Some w /\ q_repr (w_nodes w, writeQueue w) l' ids' /\
       (forall P : StatRepr -> Prop, Forall P (w_written (aw_loop wr) ++ l ++ writeChan (aw_loop wr)) ->
          Forall P (w_written w ++ l' ++ writeChan w)) /\
       counts (w_written (aw_loop wr) ++ l ++ writeChan (aw_loop wr)) =
       counts (w_written w ++ l' ++ writeChan w) + counts (dropped agg lab d j)) ->
  with_writer agg d j f = Waits \/
  exists agg', with_writer agg d j f = Goes agg' /\ sane agg' /\ books_follow agg agg' lab.
Proof.
  intros Hs Hadd Hdr Hf. unfold with_writer. destruct (OutWriters agg !! d) as [mw|] eqn:Em; [|by left].
  destruct (mw_ws mw !! j) as [wr|] eqn:Ej; [|by left]. right.
  destruct (s_writers _ Hs _ _ Em) as (_ & _ & Hall). destruct (Forall_lookup_1 _ _ _ _ Hall Ej) as (l0 & ids0 & Hq0).
  destruct (Hf mw wr l0 ids0 eq_refl Ej Hq0) as (w & l0' & ids0' & E & _). rewrite E. eexists. split; [done|].
  apply (writer_step agg _ d mw j wr w None); try done. intros l ids Hq.
  destruct (Hf mw wr l ids eq_refl Ej Hq) as (w' & l' & ids' & E' & Hq' & Hst & Hct). rewrite E in E'. injection E' as <-.
  exists l', ids'. split_and!; [done|apply Hst|]. intros q _. cbn [default from_option id]. lia.
Qed.

Lemma proc_step (agg : AggregateLoop) (d : Z) (j pick : nat) :
  sane agg ->
  fire farm_Hash64 agg (LProc d j pick) = Waits \/
  exists agg', fire farm_Hash64 agg (LProc d j pick) = Goes agg' /\ sane agg' /\ books_follow agg agg' (LProc d j pick).
Proof.
  intros Hs. apply with_writer_step; try done.
  - intros dur i Hne. unfold dropped. destruct (OutWriters agg !! dur ≫= _); [|done]. rewrite decide_False by naive_solver. done.
  - intros mw wr l ids Em Ej Hq. destruct (procLoop_any (aw_loop wr) l ids pick Hq) as (err & w & ids' & E & Hc & Hwr & Hq').
    rewrite E. cbn [mbind option_bind]. eexists w, _, ids'. split; [done|]. split; [exact Hq'|].
    unfold dropped. rewrite Em. cbn [mbind option_bind]. rewrite Ej, decide_True, E, Hc, Hwr by done.
    destruct err as [err|]; destruct (writeChan (aw_loop wr)) as [|x ch]; cbn [take drop]; rewrite ?drop_0, ?take_0, ?app_nil_r.
    + split; [done|]. cbn. lia.
    + split; [|rewrite !counts_append; change (counts (x :: ch)) with (Count x + counts ch); change (counts [x]) with (Count x + 0); lia].
      intros P. rewrite !Forall_app, Forall_cons. tauto.
    + split; [done|]. cbn. lia.
    + rewrite <- !app_assoc. cbn [app]. split; [done|]. cbn. lia.
Qed.

Lemma drain_step (agg : AggregateLoop) (d : Z) (j : nat) :
  sane agg ->
  fire farm_Hash64 agg (LDrain d j) = Waits \/
  exists agg', fire farm_Hash64 agg (LDrain d j) = Goes agg' /\ sane agg' /\ books_follow agg agg' (LDrain d j).
Proof.
  intros Hs. apply with_writer_step; try done.
  - intros dur i _. by apply dropped_quiet.
  - intros mw wr l ids Em Ej Hq. destruct (procQueue_any (aw_loop wr) l ids Hq) as (w & ids' & E & Hc & Hwr & Hq').
    exists w, [], ids'. split; [done|]. split; [done|]. rewrite Hc, Hwr, dropped_quiet by done. rewrite <- app_assoc. cbn [app].
    split; [done|]. change (counts []) with 0. lia.
Qed.

(** Every move, but that of a loop that goes past the aggregators. *)
Lemma every_move (agg : AggregateLoop) (lab : label) :
  sane agg -> Forall named (added_by lab) ->
  fire farm_Hash64 agg lab = Waits \/
  exists agg', fire farm_Hash64 agg lab = Goes agg' /\ sane agg' /\ books_follow agg agg' lab.
Proof.
  intros Hs Hn. destruct lab.
  - right. apply add_step; [done|]. by apply Forall_inv in Hn.
  - by apply tick_step.
  - by apply post_step.
  - by apply send_step.
  - left. cbn [fire]. unfold direct. rewrite (s_bypass _ Hs). by destruct (al_places agg !! dur) as [[]|], (DirectToWriter agg).
  - by apply proc_step.
  - by apply drain_step.
Qed.

(** ** Runs *)

(** The moves in order, and what they drop for writer [i] of [dur]. *)
Fixpoint runs (agg : AggregateLoop) (ls : list label) (dur : Z) (i : nat) : fired (AggregateLoop * list StatRepr) :=
  match ls with
  | [] => Goes (agg, [])
  | lab :: ls =>
      match fire farm_Hash64 agg lab with
      | Waits => Waits
      | Panics => Panics
      | Goes agg' =>
          match runs agg' ls dur i with
          | Waits => Waits
          | Panics => Panics
          | Goes (agg'', lost) => Goes (agg'', dropped agg lab dur i ++ lost)
          end
      end
  end.

Lemma runs_accounted (ls : list label) (agg : AggregateLoop) (dur : Z) (i : nat) (lost added : list StatRepr) :
  sane agg -> accounted agg dur i lost added -> Forall named (ls ≫= added_by) ->
  runs agg ls dur i <> Panics /\
  forall agg' lost', runs agg ls dur i = Goes (agg', lost') -> accounted agg' dur i (lost ++ lost') (added ++ (ls ≫= added_by)).
Proof.
  revert agg lost added. induction ls as [|lab ls IH]; intros agg lost added Hs Hacc Hn.
  { split; [done|]. intros agg' lost' [= <- <-]. cbn. by rewrite !app_nil_r. }
  cbn [mbind list_bind] in Hn. apply Forall_app in Hn as [Hn1 Hn]. cbn [runs].
  destruct (every_move agg lab Hs Hn1) as [->|(agg1 & -> & Hs1 & Hb)]; [done|].
  destruct (IH agg1 _ _ Hs1 (Hb dur i lost added Hacc) Hn) as [Hnp Hgo].
  destruct (runs agg1 ls dur i) as [| |[agg2 lost2]]; [done|done|]. split; [done|]. intros agg' lost' [= <- <-].
  cbn [mbind list_bind]. rewrite !app_assoc. by apply Hgo.
Qed.

(** ** The configuration *)

Definition needs (wr : agg_writer) : Prop := (ResolutionsNeeded (aw_driver wr)).1 = AllResolutions.

Lemma needs_all_spec (ws : gmap Z multiWriter) :
  needs_all ws = true <-> exists d mw wr, ws !! d = Some mw /\ wr ∈ mw_ws mw /\ needs wr.
Proof.
  unfold needs_all, needs. rewrite existsb_exists. split.
  - intros ([d mw] & Hin & Hex). apply list_elem_of_In, elem_of_map_to_list in Hin. apply existsb_exists in Hex as (wr & Hwr & Hn).
    exists d, mw, wr. split_and!; [done|by apply list_elem_of_In|]. by destruct (ResolutionsNeeded _).1.
  - intros (d & mw & wr & Hd & Hwr & Hn). exists (d, mw). split; [by apply list_elem_of_In, elem_of_map_to_list|].
    apply existsb_exists. exists wr. split; [by apply list_elem_of_In|]. cbn. by rewrite Hn.
Qed.

(** A writer that has not been started. *)
Definition unused (wr : agg_writer) : Prop :=
  w_nodes (aw_loop wr) = no_nodes /\ writeQueue (aw_loop wr) = NewWriteQueue WRITER_MAX_WRITE_QUEUE /\
  w_written (aw_loop wr) = [] /\ writeChan (aw_loop wr) = [].

Definition configured (flush : list Z) (ws : gmap Z multiWriter) : Prop :=
  forall d mw, ws !! d = Some mw ->
    mw_flush mw = d /\ d ∈ flush /\ Forall unused (mw_ws mw) /\ (needs_all ws = true \/ head flush = Some d).

Lemma add_writer_configured (flush : list Z) (ws : gmap Z multiWriter) (dur ttl : Z) (wr : agg_writer) :
  configured flush ws -> dur ∈ flush -> unused wr -> needs wr \/ head flush = Some dur ->
  configured flush (add_writer ws dur ttl wr).
Proof.
  intros Hc Hd Hu Hn.
  assert (Hlook : exists mw, add_writer ws dur ttl wr = <[dur := mw]> ws /\ mw_flush mw = dur /\ Forall unused (mw_ws mw) /\
    wr ∈ mw_ws mw /\ forall mw0, ws !! dur = Some mw0 -> forall x, x ∈ mw_ws mw0 -> x ∈ mw_ws mw).
  { unfold add_writer. destruct (ws !! dur) as [mw|] eqn:E; eexists; (split; [done|]); cbn.
    - destruct (Hc dur mw E) as (-> & _ & Hall & _). split_and!; [done|by apply Forall_app_2, Forall_singleton| |].
      + apply elem_of_app. right. by left.
      + intros mw0 [= <-] x Hx. apply elem_of_app. by left.
    - split_and!; [done|by apply Forall_singleton|by left|done]. }
  destruct Hlook as (mw & -> & Hfl & Hall & Hin & Hold).
  assert (Hmono : needs_all ws = true -> needs_all (<[dur := mw]> ws) = true).
  { rewrite !needs_all_spec. intros (d & mw0 & x & Hd0 & Hx & Hnx). destruct (decide (dur = d)) as [<-|Hne].
    - exists dur, mw, x. rewrite lookup_insert_eq. eauto.
    - exists d, mw0, x. by rewrite lookup_insert_ne. }
  intros d mw' Hd'. destruct (decide (dur = d)) as [<-|Hne].
  - rewrite lookup_insert_eq in Hd'. injection Hd' as <-. split_and!; try done. destruct Hn as [Hn|Hn]; [left|by right].
    apply needs_all_spec. exists dur, mw, wr. by rewrite lookup_insert_eq.
  - rewrite lookup_insert_ne in Hd' by done. destruct (Hc d mw' Hd') as (H1 & H2 & H3 & H4). split_and!; try done.
    destruct H4; [left; by apply Hmono|by right].
Qed.

(** The option that changes a driver's name is not used with a driver that
    writes all flush times. *)
Definition agrees (conf : WriterConfig) : Prop :=
  conf_rollup conf = "triggered"%string -> one_of ["cassandra"; "mysql"] (conf_driver conf) = false.

Lemma agrees_needs (conf : WriterConfig) (dur : Z) (driver : string) :
  agrees conf -> NewMetrics conf dur = inr driver -> (ResolutionsNeeded (conf_driver conf)).1 = AllResolutions ->
  (ResolutionsNeeded driver).1 = AllResolutions.
Proof.
  unfold agrees, NewMetrics. intros Ha. destruct (NewWriterMetrics (conf_driver conf)) as [|name] eqn:En; [done|].
  destruct (conf_metrics_err conf dur); [done|]. intros [= <-] Hr. unfold NewWriterMetrics in En.
  set (dr := conf_driver conf) in *. unfold Driver.
  destruct (one_of _ dr) eqn:E1 in En.
  { injection En as <-. case_bool_decide as Ht; [|by rewrite andb_false_r]. by rewrite (Ha Ht). }
  case_bool_decide as E2; [by injection En as <-|].
  repeat match type of En with context [one_of ?x dr] =>
    let E := fresh in destruct (one_of x dr) eqn:E;
      [injection En as <-; try done; apply bool_decide_eq_true in E; rewrite !elem_of_cons in E;
       destruct_or! E; (rewrite E in Hr; vm_compute in Hr; discriminate) || by apply elem_of_nil in E|] end; done.
Qed.

Lemma set_writers_loop_configured (conf : WriterConfig) (flush0 pre flush ttls : list Z) (ws ws' : gmap Z multiWriter)
  (err : option goerror) :
  agrees conf -> flush0 = pre ++ flush ->
  (pre = [] \/ (ResolutionsNeeded (conf_driver conf)).1 = AllResolutions) ->
  configured flush0 ws -> set_writers_loop conf flush ttls ws = Some (err, ws') -> configured flush0 ws'.
Proof.
  intros Ha. revert pre ttls ws. induction flush as [|dur flush IH]; intros pre ttls ws Hf Hpre Hc; [by intros [= <- <-]|].
  cbn [set_writers_loop]. destruct (NewMetrics conf dur) as [e|driver] eqn:En; [by intros [= <- <-]|].
  destruct (head ttls) as [ttl|]; [|done]. cbn [mbind option_bind]. set (wr := mkAggWriter driver (new_writer conf)).
  assert (Hw : configured flush0 (add_writer ws dur ttl wr)).
  { apply add_writer_configured; [done|rewrite Hf; apply elem_of_app; right; by left|done|].
    destruct (ResolutionsNeeded (conf_driver conf)).1 eqn:Er.
    - left. exact (agrees_needs conf dur driver Ha En Er).
    - right. destruct Hpre as [->|]; [by rewrite Hf|done]. }
  destruct (ResolutionsNeeded (conf_driver conf)).1 eqn:Er; [|by intros [= <- <-]].
  apply (IH (pre ++ [dur])); [by rewrite <- app_assoc|by right|done].
Qed.

(** The configurations of the writers, one after the other. *)
Fixpoint set_all (agg : AggregateLoop) (confs : list WriterConfig) : option AggregateLoop :=
  match confs with
  | [] => Some agg
  | conf :: confs => '(err, agg) ← SetWriter agg conf; match err with None => set_all agg confs | Some _ => None end
  end.

Lemma SetWriter_configured (agg agg' : AggregateLoop) (conf : WriterConfig) (err : option goerror) :
  agrees conf -> configured (FlushTimes agg) (OutWriters agg) -> SetWriter agg conf = Some (err, agg') ->
  configured (FlushTimes agg) (OutWriters agg') /\ agg' = set_writers agg (OutWriters agg').
Proof.
  intros Ha Hc. assert (Hid : agg = set_writers agg (OutWriters agg)) by (by destruct agg). unfold SetWriter.
  destruct (conf_indexer_err conf); [by intros [= <- <-]|]. destruct (FlushTimes agg) as [|dur flush] eqn:Ef; [by intros [= <- <-]|].
  destruct (NewMetrics conf dur); [by intros [= <- <-]|]. destruct (getResolutionArray agg); [|done]. cbn [mbind option_bind].
  destruct (set_writers_loop conf (dur :: flush) (TTLTimes agg) (OutWriters agg)) as [[e ws]|] eqn:E; [|done]. cbn [mbind option_bind].
  intros [= <- <-]. split; [|done]. cbn.
  eapply (set_writers_loop_configured conf (dur :: flush) [] (dur :: flush)); [done|done|by left|exact Hc|exact E].
Qed.

Lemma set_all_configured (confs : list WriterConfig) (agg agg' : AggregateLoop) :
  Forall agrees confs -> configured (FlushTimes agg) (OutWriters agg) -> set_all agg confs = Some agg' ->
  configured (FlushTimes agg) (OutWriters agg') /\ agg' = set_writers agg (OutWriters agg').
Proof.
  revert agg. induction confs as [|conf confs IH]; intros agg Ha Hc; cbn [set_all].
  { intros [= <-]. split; [done|]. by destruct agg. }
  apply Forall_cons in Ha as [Ha0 Ha]. destruct (SetWriter agg conf) as [[err agg1]|] eqn:E; [|done]. cbn [mbind option_bind].
  destruct err; [done|]. intros E'. destruct (SetWriter_configured _ _ _ _ Ha0 Hc E) as [Hc1 Heq].
  assert (Hf1 : FlushTimes agg1 = FlushTimes agg) by (by rewrite Heq). rewrite <- Hf1 in *.
  destruct (IH agg1 Ha Hc1 E') as [Hc2 Heq2]. split; [done|]. rewrite Heq2, Heq. done.
Qed.

Lemma agg_Start_new (flush ttls : list Z) (ws : gmap Z multiWriter) :
  agg_Start (set_writers (NewAggregateLoop flush ttls) ws) =
  (flush' ← (if needs_all ws then Some flush else dur ← head flush; Some [dur]);
   Some (mkAggLoop flush ttls (NewMulti flush') (start_mw <$> ws) false [] ((fun _ => PWaiting) <$> ws) (mkStartStop true false) false)).
Proof. done. Qed.

(** The loop right after its start. *)
Lemma started_sane (flush ttls : list Z) (confs : list WriterConfig) (agg1 agg : AggregateLoop) :
  NoDup (map Seconds flush) -> Forall agrees confs ->
  set_all (NewAggregateLoop flush ttls) confs = Some agg1 -> agg_Start agg1 = Some agg ->
  sane agg /\
  forall dur mw i wr, OutWriters agg !! dur = Some mw -> mw_ws mw !! i = Some wr -> accounted agg dur i [] [].
Proof.
  intros Hnd Ha E1 E. destruct (set_all_configured confs (NewAggregateLoop flush ttls) agg1 Ha) as [Hc Heq]; [|done|].
  { intros d mw. cbn. by rewrite lookup_empty. }
  cbn [NewAggregateLoop FlushTimes] in Hc. rewrite Heq in E. set (ws := OutWriters agg1) in *. rewrite agg_Start_new in E.
  assert (Hfl : exists flush', (if needs_all ws then Some flush else dur ← head flush; Some [dur]) = Some flush' /\
    NoDup (map Seconds flush') /\ forall d mw, ws !! d = Some mw -> d ∈ flush').
  { destruct (needs_all ws) eqn:En.
    - exists flush. split_and!; try done. intros d mw Hd. by destruct (Hc d mw Hd) as (_ & ? & _).
    - destruct (head flush) as [dur|] eqn:Eh; [|done]. exists [dur]. split_and!; [done|apply NoDup_singleton|].
      intros d mw Hd. destruct (Hc d mw Hd) as (_ & _ & _ & [Hx|Hx]); [congruence|]. rewrite Eh in Hx. injection Hx as ->. by left. }
  destruct Hfl as (flush' & Ef & Hnd' & Hin). rewrite Ef in E. cbn [mbind option_bind] in E. injection E as <-.
  assert (Hget : forall d, d ∈ flush' -> multi_Get (NewMulti flush') d = Some (NewAggregator d)).
  { intros d Hd. apply (NewMulti_lookup [] flush'); [done| |done]. intros d' Hd'. by apply elem_of_nil in Hd'. }
  assert (Hw : forall d mw, (start_mw <$> ws) !! d = Some mw -> exists mw0, ws !! d = Some mw0 /\ mw = start_mw mw0).
  { intros d mw. rewrite lookup_fmap. destruct (ws !! d) as [mw0|]; [|done]. intros [= <-]. eauto. }
  assert (Hnew : forall mw0 i wr, Forall unused (mw_ws mw0) -> mw_ws (start_mw mw0) !! i = Some wr ->
    q_repr (w_nodes (aw_loop wr), writeQueue (aw_loop wr)) [] [] /\ w_written (aw_loop wr) = [] /\ writeChan (aw_loop wr) = []).
  { intros mw0 i wr Hu. cbn. rewrite list_lookup_fmap. destruct (mw_ws mw0 !! i) as [wr0|] eqn:E0; [|done]. intros [= <-]. cbn.
    destruct (Forall_lookup_1 _ _ _ _ Hu E0) as (H1 & H2 & H3 & H4). unfold w_Start. destruct (ss_Start _) as [[] ss]; cbn;
      rewrite H1, H2, H3, ?H4; (split; [apply q_repr_new|done]). }
  split.
  - split; cbn [ByPass Aggregators OutWriters al_places Resolutions NewMulti]; try done.
    + intros d Hd. exists (NewAggregator d). split; [by apply Hget|]. intros k e. cbn. by rewrite lookup_empty.
    + intros d mw Hd. destruct (Hw d mw Hd) as (mw0 & Hmw0 & ->). destruct (Hc d mw0 Hmw0) as (Hfl & _ & Hu & _).
      split_and!; [done|by eapply Hin|]. apply Forall_lookup. intros i wr Hi. exists [], []. by apply (Hnew mw0 i).
    + intros d mw p _. rewrite lookup_fmap. destruct (ws !! d); [|done]. by intros [= <-].
  - intros dur mw i wr Hd Hi. destruct (Hw dur mw Hd) as (mw0 & Hmw0 & ->). destruct (Hc dur mw0 Hmw0) as (_ & _ & Hu & _).
    destruct (Hnew mw0 i wr Hu Hi) as (Hq & Hwr & Hch).
    exists (start_mw mw0), wr, (NewAggregator dur), PWaiting, [], []. split; try done.
    + by apply Hget, (Hin dur mw0).
    + cbn. by rewrite lookup_fmap, Hmw0.
    + by rewrite Hwr, Hch.
    + rewrite Hwr, Hch. exists 0. done.
Qed.

(** Every flush time that has a writer has its aggregator.  Set up the
    writers of any list of configurations, none of which gives the roll-up
    type "triggered" as an option to a driver that writes all flush times,
    and start the loop: then the tick of a flush time that has a writer finds
    its aggregator, new, whatever mix of drivers there is. *)
Theorem writers_have_aggregators (flush ttls : list Z) (confs : list WriterConfig) (agg1 agg : AggregateLoop) (dur : Z)
  (mw : multiWriter) :
  NoDup (map Seconds flush) -> Forall agrees confs ->
  set_all (NewAggregateLoop flush ttls) confs = Some agg1 -> agg_Start agg1 = Some agg -> OutWriters agg !! dur = Some mw ->
  dur ∈ flush /\ mw_flush mw = dur /\ exists sa, multi_Get (Aggregators agg) (mw_flush mw) = Some sa.
Proof.
  intros Hnd Ha E1 E Hd. destruct (started_sane flush ttls confs agg1 agg Hnd Ha E1 E) as [Hs _].
  destruct (s_writers _ Hs _ _ Hd) as (Hfl & Hres & _). rewrite Hfl.
  destruct (set_all_configured confs (NewAggregateLoop flush ttls) agg1 Ha) as [Hc Heq]; [|done|].
  { intros d mw0. cbn. by rewrite lookup_empty. }
  split; [|split; [done|]; destruct (s_aggs _ Hs dur Hres) as (sa & Hsa & _); eauto].
  rewrite Heq, agg_Start_new in E. destruct (if needs_all _ then _ else _) as [fl|]; [|done].
  cbn [mbind option_bind] in E. injection E as <-. cbn [OutWriters] in Hd. rewrite lookup_fmap in Hd. destruct (OutWriters agg1 !! dur) as [mw0|] eqn:E0; [|done].
  by destruct (Hc dur mw0 E0) as (_ & ? & _).
Qed.

(** C5: Nothing is lost between the accumulator and the writers without
    being reported, as long as additions to the aggregators are not
    interrupted: an addition is one move here, and the source, which updates
    an element after letting go of the aggregator's lock, can lose
    observations when a tick or another addition comes in between (see
    [AggregatorTheorems.AddRaces]).  Take
    flush times whose numbers of seconds differ, writer configurations that
    do not use the roll-up option with a driver that writes all flush times,
    and statistics that have a name; start the loop, without the bypass
    mode, after setting up the writers, and let additions, the loops of the
    flush times and the goroutines of the writers move in any order.  No
    move panics.  And for every flush time and each of its writers: the
    count of observations written, in the writer's queue and channel, still
    to be sent, still in the aggregator, and dropped because the writer or
    its queue was full, is the count of the observations that came in (as
    64-bit integers); and what is written has the flush time as its
    resolution and the time to live that belongs to it. *)
Theorem aggloop_conserves (flush ttls : list Z) (confs : list WriterConfig) (agg1 agg : AggregateLoop) (ls : list label)
  (dur : Z) (mw : multiWriter) (i : nat) (wr : agg_writer) :
  NoDup (map Seconds flush) -> Forall agrees confs ->
  set_all (NewAggregateLoop flush ttls) confs = Some agg1 -> agg_Start agg1 = Some agg ->
  OutWriters agg !! dur = Some mw -> mw_ws mw !! i = Some wr -> Forall named (ls ≫= added_by) ->
  runs agg ls dur i <> Panics /\
  forall agg' lost, runs agg ls dur i = Goes (agg', lost) -> accounted agg' dur i lost (ls ≫= added_by).
Proof.
  intros Hnd Ha E1 E Hd Hi Hn. destruct (started_sane flush ttls confs agg1 agg Hnd Ha E1 E) as [Hs Hacc].
  exact (runs_accounted ls agg dur i [] [] Hs (Hacc dur mw i wr Hd Hi) Hn).
Qed.

End loop.

(** ** Examples *)

#[local] Existing Instance insertion_GoSort.

Definition minute : Z := 60 * 10 ^ 9.

Definition sample_conf (driver rollup : string) : WriterConfig := mkWriterConfig driver rollup 0 0 None (fun _ => None).

Definition sample_confs : list WriterConfig := [sample_conf "cassandra" ""; sample_conf "whisper" ""].

Definition sample_loop (confs : list WriterConfig) : option AggregateLoop :=
  set_all (NewAggregateLoop [ten_seconds; minute] [24 * 60 * minute; 7 * 24 * 60 * minute]) confs ≫= agg_Start.

Definition from_some {A} (d : A) (x : option A) : A := match x with Some a => a | None => d end.

Definition nothing : AggregateLoop := NewAggregateLoop [] [].

Definition sample_set : AggregateLoop :=
  from_some nothing (set_all (NewAggregateLoop [ten_seconds; minute] [24 * 60 * minute; 7 * 24 * 60 * minute]) sample_confs).
Definition sample_started : AggregateLoop := from_some nothing (agg_Start sample_set).

Definition sample_mw (dur : Z) : multiWriter := from_some (mkMultiWriter [] 0 0) (OutWriters sample_started !! dur).

Definition nano_stats : list StatRepr :=
  [sample_stat (1500000001 * 10 ^ 9) 1 5; sample_stat (1500000003 * 10 ^ 9) 2 9; sample_stat (1500000012 * 10 ^ 9) 4 4].

Lemma nano_named : Forall named nano_stats.
Proof. repeat (apply Forall_cons; split; [by eexists|]). by apply Forall_nil. Qed.

Definition sample_moves : list label :=
  map LAdd nano_stats ++ [LTick ten_seconds; LPost ten_seconds; LSend ten_seconds; LSend ten_seconds; LProc ten_seconds 0 0;
                            LDrain ten_seconds 0; LTick minute].

Lemma sample_agrees : Forall agrees sample_confs.
Proof. repeat (apply Forall_cons; split; [intros [=]|]). by apply Forall_nil. Qed.

Lemma sample_different : NoDup (map Seconds [ten_seconds; minute]).
Proof. apply (bool_decide_unpack _). vm_compute. reflexivity. Qed.

Lemma writers_have_aggregators_witness :
  minute ∈ [ten_seconds; minute] /\ mw_flush (sample_mw minute) = minute /\
  exists sa, multi_Get (Aggregators sample_started) (mw_flush (sample_mw minute)) = Some sa.
Proof.
  apply (writers_have_aggregators [ten_seconds; minute] [24 * 60 * minute; 7 * 24 * 60 * minute] sample_confs sample_set
           sample_started minute (sample_mw minute)).
  - exact sample_different.
  - exact sample_agrees.
  - vm_compute. reflexivity.
  - vm_compute. reflexivity.
  - vm_compute. reflexivity.
Defined.

Lemma aggloop_conserves_witness :
  runs fnv64a sample_started sample_moves ten_seconds 0 <> Panics /\
  forall agg' lost, runs fnv64a sample_started sample_moves ten_seconds 0 = Goes (agg', lost) ->
    accounted agg' ten_seconds 0 lost (sample_moves ≫= added_by).
Proof.
  apply (aggloop_conserves fnv64a [ten_seconds; minute] [24 * 60 * minute; 7 * 24 * 60 * minute] sample_confs sample_set
           sample_started sample_moves ten_seconds (sample_mw ten_seconds) 0
           (mkAggWriter "cassandra" (w_Start (new_writer (sample_conf "cassandra" ""))))).
  - exact sample_different.
  - exact sample_agrees.
  - vm_compute. reflexivity.
  - vm_compute. reflexivity.
  - vm_compute. reflexivity.
  - vm_compute. reflexivity.
  - exact nano_named.
Defined.

(** What a writer has written: counts, and the resolution and time to live
    of the names. *)
Definition written_of (agg : AggregateLoop) (dur : Z) : option (list (list (Z * option (Z * Z)))) :=
  mw ← OutWriters agg !! dur;
  Some (map (fun wr => map (fun s => (Count s, n ← r_Name s; Some (Resolution n, Ttl n))) (w_written (aw_loop wr))) (mw_ws mw)).

(** The run of the witness: the two buckets in the order of their times; the
    first is written, the second is in the channel. *)
Example aggloop_run :
  match runs fnv64a sample_started sample_moves ten_seconds 0 with
  | Goes (agg, lost) => lost = [] /\ written_of agg ten_seconds = Some [[(4, Some (10, 86400))]; []]
  | _ => False
  end.
Proof. by vm_compute. Qed.

(** The roll-up type "triggered" as an option of the driver "cassandra": the
    writers are set up for all flush times, but only the first one gets an
    aggregator, so the tick of the second uses a nil pointer. *)
Example triggered_option_panics :
  match sample_loop [sample_conf "cassandra" "triggered"] with
  | Some agg => fire fnv64a agg (LTick minute) = Panics
  | None => False
  end.
Proof. by vm_compute. Qed.

(** Past the aggregators, a statistic goes to the writers of one flush time
    only: the loops of the flush times take from the same channel. *)
Example bypass_one_flush_time :
  match sample_loop [sample_conf "cassandra" ""] with
  | Some agg =>
      let agg := mkAggLoop (FlushTimes agg) (TTLTimes agg) (Aggregators agg) (OutWriters agg) true (map Some (take 1 nano_stats))
                   (al_places agg) (al_startstop agg) (shutitdown agg) in
      match runs fnv64a agg [LDirect minute; LSend minute; LSend minute; LProc minute 0 0; LDrain minute 0] minute 0 with
      | Goes (agg, _) =>
          written_of agg minute = Some [[(2, Some (0, 604800))]] /\ written_of agg ten_seconds = Some [[]] /\
          fire fnv64a agg (LDirect ten_seconds) = Waits
      | _ => False
      end
  | None => False
  end.
Proof. by vm_compute. Qed.
