(* ===== verification/Messages.v ===== *)
(** The protobuf messages of the schemas ([schemas/*/*.pb.go]): statistics
    and their names, the metrics sent between servers, the items that answer
    queries, the entries of the index and the queries.  A message is the list
    of its fields, in the order of their numbers, in which they are written;
    [Marshal], [MarshalTo], [Size] and [Unmarshal] of a message are those of
    [Wire] for that list.  Points and items of queries are the records of
    [RawData], tags those of [Tags]; a [StatName] and a [StatRepr] are
    records of their own here, since an enumeration on the wire holds any
    number.

    Left out: [UidMetricList], which holds a list of itself, and
    [WhisperRenderItem], which holds a map. *)
From S2P Require Import Prelude Float64 GoStrings GoParse Tags RawData Wire.

Open Scope Z_scope.

(** ** [schemas/repr/repr.pb.go] *)

Definition Tag_fields : list (field Tag) :=
  [ string_field 1 "Name" tag_Name (fun v '(mkTag _ b) => mkTag v b);
    string_field 2 "Value" tag_Value (fun v '(mkTag a _) => mkTag a v) ].

#[export] Instance Tag_Message : Message Tag :=
  {| msg_name := "Tag"; msg_empty := mkTag ""%string ""%string; msg_fields := Tag_fields |}.

Definition Tag_Marshal (m : Tag) : outcome (list Z) := Marshal m.
Definition Tag_MarshalTo (m : Tag) : list Z := MarshalTo m.
Definition Tag_Size (m : Tag) : Z := Size m.
Definition Tag_Unmarshal (m : Tag) (data : list Z) : outcome Tag := UnmarshalInto m data.

Record NameMessage := mkNameMessage {
  NameMessage_Key : string;
  NameMessage_uniqueId : Z;
  NameMessage_uniqueIdstr : string;
  NameMessage_Resolution : Z;
  NameMessage_Ttl : Z;
  NameMessage_TagMode : Z;
  NameMessage_HashMode : Z;
  NameMessage_Tags : list Tag;
  NameMessage_MetaTags : list Tag
}.

Definition NameMessage_fields : list (field NameMessage) :=
  [ string_field 1 "Key" NameMessage_Key (fun v '(mkNameMessage _ b c d e f g h i) => mkNameMessage v b c d e f g h i);
    int_field 2 "XXX_uniqueId" 64 false NameMessage_uniqueId (fun v '(mkNameMessage a _ c d e f g h i) => mkNameMessage a v c d e f g h i);
    string_field 3 "XXX_uniqueIdstr" NameMessage_uniqueIdstr (fun v '(mkNameMessage a b _ d e f g h i) => mkNameMessage a b v d e f g h i);
    int_field 4 "Resolution" 32 false NameMessage_Resolution (fun v '(mkNameMessage a b c _ e f g h i) => mkNameMessage a b c v e f g h i);
    int_field 5 "Ttl" 32 false NameMessage_Ttl (fun v '(mkNameMessage a b c d _ f g h i) => mkNameMessage a b c d v f g h i);
    int_field 6 "TagMode" 32 true NameMessage_TagMode (fun v '(mkNameMessage a b c d e _ g h i) => mkNameMessage a b c d e v g h i);
    int_field 7 "HashMode" 32 true NameMessage_HashMode (fun v '(mkNameMessage a b c d e f _ h i) => mkNameMessage a b c d e f v h i);
    repeated_field 13 "Tags" NameMessage_Tags (fun v '(mkNameMessage a b c d e f g _ i) => mkNameMessage a b c d e f g v i);
    repeated_field 14 "MetaTags" NameMessage_MetaTags (fun v '(mkNameMessage a b c d e f g h _) => mkNameMessage a b c d e f g h v) ].

#[export] Instance NameMessage_Message : Message NameMessage :=
  {| msg_name := "StatName"; msg_empty := mkNameMessage ""%string 0 ""%string 0 0 0 0 [] []; msg_fields := NameMessage_fields |}.

Definition NameMessage_Marshal (m : NameMessage) : outcome (list Z) := Marshal m.
Definition NameMessage_MarshalTo (m : NameMessage) : list Z := MarshalTo m.
Definition NameMessage_Size (m : NameMessage) : Z := Size m.
Definition NameMessage_Unmarshal (m : NameMessage) (data : list Z) : outcome NameMessage := UnmarshalInto m data.

Record StatMessage := mkStatMessage {
  StatMessage_Name : option NameMessage;
  StatMessage_Time : Z;
  StatMessage_Min : float64;
  StatMessage_Max : float64;
  StatMessage_Last : float64;
  StatMessage_Sum : float64;
  StatMessage_Count : Z
}.

Definition StatMessage_fields : list (field StatMessage) :=
  [ msg_field 1 "Name" StatMessage_Name (fun v '(mkStatMessage _ b c d e f g) => mkStatMessage v b c d e f g);
    int_field 2 "Time" 64 true StatMessage_Time (fun v '(mkStatMessage a _ c d e f g) => mkStatMessage a v c d e f g);
    double_field 3 "Min" StatMessage_Min (fun v '(mkStatMessage a b _ d e f g) => mkStatMessage a b v d e f g);
    double_field 4 "Max" StatMessage_Max (fun v '(mkStatMessage a b c _ e f g) => mkStatMessage a b c v e f g);
    double_field 5 "Last" StatMessage_Last (fun v '(mkStatMessage a b c d _ f g) => mkStatMessage a b c d v f g);
    double_field 6 "Sum" StatMessage_Sum (fun v '(mkStatMessage a b c d e _ g) => mkStatMessage a b c d e v g);
    int_field 7 "Count" 64 true StatMessage_Count (fun v '(mkStatMessage a b c d e f _) => mkStatMessage a b c d e f v) ].

#[export] Instance StatMessage_Message : Message StatMessage :=
  {| msg_name := "StatRepr"; msg_empty := mkStatMessage None 0 0 0 0 0 0; msg_fields := StatMessage_fields |}.

Definition StatMessage_Marshal (m : StatMessage) : outcome (list Z) := Marshal m.
Definition StatMessage_MarshalTo (m : StatMessage) : list Z := MarshalTo m.
Definition StatMessage_Size (m : StatMessage) : Z := Size m.
Definition StatMessage_Unmarshal (m : StatMessage) (data : list Z) : outcome StatMessage := UnmarshalInto m data.

(** ** [schemas/series/series.pb.go] *)

Record MetricType := mkMetricType {
  MetricType_Type : string
}.

Definition MetricType_fields : list (field MetricType) :=
  [ string_field 1 "Type" MetricType_Type (fun v '(mkMetricType _) => mkMetricType v) ].

#[export] Instance MetricType_Message : Message MetricType :=
  {| msg_name := "MetricType"; msg_empty := mkMetricType ""%string; msg_fields := MetricType_fields |}.

Definition MetricType_Marshal (m : MetricType) : outcome (list Z) := Marshal m.
Definition MetricType_MarshalTo (m : MetricType) : list Z := MarshalTo m.
Definition MetricType_Size (m : MetricType) : Z := Size m.
Definition MetricType_Unmarshal (m : MetricType) (data : list Z) : outcome MetricType := UnmarshalInto m data.

Record MetricName := mkMetricName {
  MetricName_Metric : string;
  MetricName_Id : Z;
  MetricName_Uid : string;
  MetricName_Tags : list Tag;
  MetricName_MetaTags : list Tag
}.

Definition MetricName_fields : list (field MetricName) :=
  [ string_field 1 "Metric" MetricName_Metric (fun v '(mkMetricName _ b c d e) => mkMetricName v b c d e);
    int_field 2 "Id" 64 false MetricName_Id (fun v '(mkMetricName a _ c d e) => mkMetricName a v c d e);
    string_field 3 "Uid" MetricName_Uid (fun v '(mkMetricName a b _ d e) => mkMetricName a b v d e);
    repeated_field 13 "Tags" MetricName_Tags (fun v '(mkMetricName a b c _ e) => mkMetricName a b c v e);
    repeated_field 14 "MetaTags" MetricName_MetaTags (fun v '(mkMetricName a b c d _) => mkMetricName a b c d v) ].

#[export] Instance MetricName_Message : Message MetricName :=
  {| msg_name := "MetricName"; msg_empty := mkMetricName ""%string 0 ""%string [] []; msg_fields := MetricName_fields |}.

Definition MetricName_Marshal (m : MetricName) : outcome (list Z) := Marshal m.
Definition MetricName_MarshalTo (m : MetricName) : list Z := MarshalTo m.
Definition MetricName_Size (m : MetricName) : Z := Size m.
Definition MetricName_Unmarshal (m : MetricName) (data : list Z) : outcome MetricName := UnmarshalInto m data.

Record MetricValue := mkMetricValue {
  MetricValue_Time : Z;
  MetricValue_Min : float64;
  MetricValue_Max : float64;
  MetricValue_Last : float64;
  MetricValue_Sum : float64;
  MetricValue_Count : Z
}.

Definition MetricValue_fields : list (field MetricValue) :=
  [ int_field 1 "Time" 64 true MetricValue_Time (fun v '(mkMetricValue _ b c d e f) => mkMetricValue v b c d e f);
    double_field 2 "Min" MetricValue_Min (fun v '(mkMetricValue a _ c d e f) => mkMetricValue a v c d e f);
    double_field 3 "Max" MetricValue_Max (fun v '(mkMetricValue a b _ d e f) => mkMetricValue a b v d e f);
    double_field 4 "Last" MetricValue_Last (fun v '(mkMetricValue a b c _ e f) => mkMetricValue a b c v e f);
    double_field 5 "Sum" MetricValue_Sum (fun v '(mkMetricValue a b c d _ f) => mkMetricValue a b c d v f);
    int_field 6 "Count" 64 true MetricValue_Count (fun v '(mkMetricValue a b c d e _) => mkMetricValue a b c d e v) ].

#[export] Instance MetricValue_Message : Message MetricValue :=
  {| msg_name := "MetricValue"; msg_empty := mkMetricValue 0 0 0 0 0 0; msg_fields := MetricValue_fields |}.

Definition MetricValue_Marshal (m : MetricValue) : outcome (list Z) := Marshal m.
Definition MetricValue_MarshalTo (m : MetricValue) : list Z := MarshalTo m.
Definition MetricValue_Size (m : MetricValue) : Z := Size m.
Definition MetricValue_Unmarshal (m : MetricValue) (data : list Z) : outcome MetricValue := UnmarshalInto m data.

Record SeriesMetric := mkSeriesMetric {
  SeriesMetric_Id : Z;
  SeriesMetric_Uid : string;
  SeriesMetric_Time : Z;
  SeriesMetric_Metric : string;
  SeriesMetric_Encoding : string;
  SeriesMetric_Data : list Z;
  SeriesMetric_Resolution : Z;
  SeriesMetric_Ttl : Z;
  SeriesMetric_Tags : list Tag;
  SeriesMetric_MetaTags : list Tag;
  SeriesMetric_SentTime : Z
}.

Definition SeriesMetric_fields : list (field SeriesMetric) :=
  [ int_field 2 "Id" 64 false SeriesMetric_Id (fun v '(mkSeriesMetric _ b c d e f g h i j k) => mkSeriesMetric v b c d e f g h i j k);
    string_field 3 "Uid" SeriesMetric_Uid (fun v '(mkSeriesMetric a _ c d e f g h i j k) => mkSeriesMetric a v c d e f g h i j k);
    int_field 4 "Time" 64 true SeriesMetric_Time (fun v '(mkSeriesMetric a b _ d e f g h i j k) => mkSeriesMetric a b v d e f g h i j k);
    string_field 5 "Metric" SeriesMetric_Metric (fun v '(mkSeriesMetric a b c _ e f g h i j k) => mkSeriesMetric a b c v e f g h i j k);
    string_field 6 "Encoding" SeriesMetric_Encoding (fun v '(mkSeriesMetric a b c d _ f g h i j k) => mkSeriesMetric a b c d v f g h i j k);
    bytes_field 7 "Data" SeriesMetric_Data (fun v '(mkSeriesMetric a b c d e _ g h i j k) => mkSeriesMetric a b c d e v g h i j k);
    int_field 8 "Resolution" 32 false SeriesMetric_Resolution (fun v '(mkSeriesMetric a b c d e f _ h i j k) => mkSeriesMetric a b c d e f v h i j k);
    int_field 9 "Ttl" 32 false SeriesMetric_Ttl (fun v '(mkSeriesMetric a b c d e f g _ i j k) => mkSeriesMetric a b c d e f g v i j k);
    repeated_field 13 "Tags" SeriesMetric_Tags (fun v '(mkSeriesMetric a b c d e f g h _ j k) => mkSeriesMetric a b c d e f g h v j k);
    repeated_field 14 "MetaTags" SeriesMetric_MetaTags (fun v '(mkSeriesMetric a b c d e f g h i _ k) => mkSeriesMetric a b c d e f g h i v k);
    int_field 15 "SentTime" 64 true SeriesMetric_SentTime (fun v '(mkSeriesMetric a b c d e f g h i j _) => mkSeriesMetric a b c d e f g h i j v) ].

#[export] Instance SeriesMetric_Message : Message SeriesMetric :=
  {| msg_name := "SeriesMetric"; msg_empty := mkSeriesMetric 0 ""%string 0 ""%string ""%string [] 0 0 [] [] 0; msg_fields := SeriesMetric_fields |}.

Definition SeriesMetric_Marshal (m : SeriesMetric) : outcome (list Z) := Marshal m.
Definition SeriesMetric_MarshalTo (m : SeriesMetric) : list Z := MarshalTo m.
Definition SeriesMetric_Size (m : SeriesMetric) : Z := Size m.
Definition SeriesMetric_Unmarshal (m : SeriesMetric) (data : list Z) : outcome SeriesMetric := UnmarshalInto m data.

Record UidMetric := mkUidMetric {
  UidMetric_Uid : string;
  UidMetric_Time : Z;
  UidMetric_Min : float64;
  UidMetric_Max : float64;
  UidMetric_Last : float64;
  UidMetric_Sum : float64;
  UidMetric_Count : Z;
  UidMetric_SentTime : Z
}.

Definition UidMetric_fields : list (field UidMetric) :=
  [ string_field 1 "Uid" UidMetric_Uid (fun v '(mkUidMetric _ b c d e f g h) => mkUidMetric v b c d e f g h);
    int_field 2 "Time" 64 true UidMetric_Time (fun v '(mkUidMetric a _ c d e f g h) => mkUidMetric a v c d e f g h);
    double_field 3 "Min" UidMetric_Min (fun v '(mkUidMetric a b _ d e f g h) => mkUidMetric a b v d e f g h);
    double_field 4 "Max" UidMetric_Max (fun v '(mkUidMetric a b c _ e f g h) => mkUidMetric a b c v e f g h);
    double_field 5 "Last" UidMetric_Last (fun v '(mkUidMetric a b c d _ f g h) => mkUidMetric a b c d v f g h);
    double_field 6 "Sum" UidMetric_Sum (fun v '(mkUidMetric a b c d e _ g h) => mkUidMetric a b c d e v g h);
    int_field 7 "Count" 64 true UidMetric_Count (fun v '(mkUidMetric a b c d e f _ h) => mkUidMetric a b c d e f v h);
    int_field 8 "SentTime" 64 true UidMetric_SentTime (fun v '(mkUidMetric a b c d e f g _) => mkUidMetric a b c d e f g v) ].

#[export] Instance UidMetric_Message : Message UidMetric :=
  {| msg_name := "UidMetric"; msg_empty := mkUidMetric ""%string 0 0 0 0 0 0 0; msg_fields := UidMetric_fields |}.

Definition UidMetric_Marshal (m : UidMetric) : outcome (list Z) := Marshal m.
Definition UidMetric_MarshalTo (m : UidMetric) : list Z := MarshalTo m.
Definition UidMetric_Size (m : UidMetric) : Z := Size m.
Definition UidMetric_Unmarshal (m : UidMetric) (data : list Z) : outcome UidMetric := UnmarshalInto m data.

Record SingleMetric := mkSingleMetric {
  SingleMetric_Id : Z;
  SingleMetric_Uid : string;
  SingleMetric_Time : Z;
  SingleMetric_Metric : string;
  SingleMetric_Min : float64;
  SingleMetric_Max : float64;
  SingleMetric_Last : float64;
  SingleMetric_Sum : float64;
  SingleMetric_Count : Z;
  SingleMetric_Resolution : Z;
  SingleMetric_Ttl : Z;
  SingleMetric_Tags : list Tag;
  SingleMetric_MetaTags : list Tag;
  SingleMetric_SentTime : Z
}.

Definition SingleMetric_fields : list (field SingleMetric) :=
  [ int_field 2 "Id" 64 false SingleMetric_Id (fun v '(mkSingleMetric _ b c d e f g h i j k l n o) => mkSingleMetric v b c d e f g h i j k l n o);
    string_field 3 "Uid" SingleMetric_Uid (fun v '(mkSingleMetric a _ c d e f g h i j k l n o) => mkSingleMetric a v c d e f g h i j k l n o);
    int_field 4 "Time" 64 true SingleMetric_Time (fun v '(mkSingleMetric a b _ d e f g h i j k l n o) => mkSingleMetric a b v d e f g h i j k l n o);
    string_field 5 "Metric" SingleMetric_Metric (fun v '(mkSingleMetric a b c _ e f g h i j k l n o) => mkSingleMetric a b c v e f g h i j k l n o);
    double_field 6 "Min" SingleMetric_Min (fun v '(mkSingleMetric a b c d _ f g h i j k l n o) => mkSingleMetric a b c d v f g h i j k l n o);
    double_field 7 "Max" SingleMetric_Max (fun v '(mkSingleMetric a b c d e _ g h i j k l n o) => mkSingleMetric a b c d e v g h i j k l n o);
    double_field 8 "Last" SingleMetric_Last (fun v '(mkSingleMetric a b c d e f _ h i j k l n o) => mkSingleMetric a b c d e f v h i j k l n o);
    double_field 9 "Sum" SingleMetric_Sum (fun v '(mkSingleMetric a b c d e f g _ i j k l n o) => mkSingleMetric a b c d e f g v i j k l n o);
    int_field 10 "Count" 64 true SingleMetric_Count (fun v '(mkSingleMetric a b c d e f g h _ j k l n o) => mkSingleMetric a b c d e f g h v j k l n o);
    int_field 11 "Resolution" 32 false SingleMetric_Resolution (fun v '(mkSingleMetric a b c d e f g h i _ k l n o) => mkSingleMetric a b c d e f g h i v k l n o);
    int_field 12 "Ttl" 32 false SingleMetric_Ttl (fun v '(mkSingleMetric a b c d e f g h i j _ l n o) => mkSingleMetric a b c d e f g h i j v l n o);
    repeated_field 13 "Tags" SingleMetric_Tags (fun v '(mkSingleMetric a b c d e f g h i j k _ n o) => mkSingleMetric a b c d e f g h i j k v n o);
    repeated_field 14 "MetaTags" SingleMetric_MetaTags (fun v '(mkSingleMetric a b c d e f g h i j k l _ o) => mkSingleMetric a b c d e f g h i j k l v o);
    int_field 15 "SentTime" 64 true SingleMetric_SentTime (fun v '(mkSingleMetric a b c d e f g h i j k l n _) => mkSingleMetric a b c d e f g h i j k l n v) ].

#[export] Instance SingleMetric_Message : Message SingleMetric :=
  {| msg_name := "SingleMetric"; msg_empty := mkSingleMetric 0 ""%string 0 ""%string 0 0 0 0 0 0 0 [] [] 0; msg_fields := SingleMetric_fields |}.

Definition SingleMetric_Marshal (m : SingleMetric) : outcome (list Z) := Marshal m.
Definition SingleMetric_MarshalTo (m : SingleMetric) : list Z := MarshalTo m.
Definition SingleMetric_Size (m : SingleMetric) : Z := Size m.
Definition SingleMetric_Unmarshal (m : SingleMetric) (data : list Z) : outcome SingleMetric := UnmarshalInto m data.

Record SingleMetricList := mkSingleMetricList {
  SingleMetricList_List : list SingleMetric
}.

Definition SingleMetricList_fields : list (field SingleMetricList) :=
  [ repeated_field 1 "List" SingleMetricList_List (fun v '(mkSingleMetricList _) => mkSingleMetricList v) ].

#[export] Instance SingleMetricList_Message : Message SingleMetricList :=
  {| msg_name := "SingleMetricList"; msg_empty := mkSingleMetricList []; msg_fields := SingleMetricList_fields |}.

Definition SingleMetricList_Marshal (m : SingleMetricList) : outcome (list Z) := Marshal m.
Definition SingleMetricList_MarshalTo (m : SingleMetricList) : list Z := MarshalTo m.
Definition SingleMetricList_Size (m : SingleMetricList) : Z := Size m.
Definition SingleMetricList_Unmarshal (m : SingleMetricList) (data : list Z) : outcome SingleMetricList := UnmarshalInto m data.

Record UnProcessedMetric := mkUnProcessedMetric {
  UnProcessedMetric_Time : Z;
  UnProcessedMetric_Metric : string;
  UnProcessedMetric_Min : float64;
  UnProcessedMetric_Max : float64;
  UnProcessedMetric_Last : float64;
  UnProcessedMetric_Sum : float64;
  UnProcessedMetric_Count : Z;
  UnProcessedMetric_Tags : list Tag;
  UnProcessedMetric_MetaTags : list Tag;
  UnProcessedMetric_SentTime : Z
}.

Definition UnProcessedMetric_fields : list (field UnProcessedMetric) :=
  [ int_field 1 "Time" 64 true UnProcessedMetric_Time (fun v '(mkUnProcessedMetric _ b c d e f g h i j) => mkUnProcessedMetric v b c d e f g h i j);
    string_field 2 "Metric" UnProcessedMetric_Metric (fun v '(mkUnProcessedMetric a _ c d e f g h i j) => mkUnProcessedMetric a v c d e f g h i j);
    double_field 3 "Min" UnProcessedMetric_Min (fun v '(mkUnProcessedMetric a b _ d e f g h i j) => mkUnProcessedMetric a b v d e f g h i j);
    double_field 4 "Max" UnProcessedMetric_Max (fun v '(mkUnProcessedMetric a b c _ e f g h i j) => mkUnProcessedMetric a b c v e f g h i j);
    double_field 5 "Last" UnProcessedMetric_Last (fun v '(mkUnProcessedMetric a b c d _ f g h i j) => mkUnProcessedMetric a b c d v f g h i j);
    double_field 6 "Sum" UnProcessedMetric_Sum (fun v '(mkUnProcessedMetric a b c d e _ g h i j) => mkUnProcessedMetric a b c d e v g h i j);
    int_field 7 "Count" 64 true UnProcessedMetric_Count (fun v '(mkUnProcessedMetric a b c d e f _ h i j) => mkUnProcessedMetric a b c d e f v h i j);
    repeated_field 13 "Tags" UnProcessedMetric_Tags (fun v '(mkUnProcessedMetric a b c d e f g _ i j) => mkUnProcessedMetric a b c d e f g v i j);
    repeated_field 14 "MetaTags" UnProcessedMetric_MetaTags (fun v '(mkUnProcessedMetric a b c d e f g h _ j) => mkUnProcessedMetric a b c d e f g h v j);
    int_field 15 "SentTime" 64 true UnProcessedMetric_SentTime (fun v '(mkUnProcessedMetric a b c d e f g h i _) => mkUnProcessedMetric a b c d e f g h i v) ].

#[export] Instance UnProcessedMetric_Message : Message UnProcessedMetric :=
  {| msg_name := "UnProcessedMetric"; msg_empty := mkUnProcessedMetric 0 ""%string 0 0 0 0 0 [] [] 0; msg_fields := UnProcessedMetric_fields |}.

Definition UnProcessedMetric_Marshal (m : UnProcessedMetric) : outcome (list Z) := Marshal m.
Definition UnProcessedMetric_MarshalTo (m : UnProcessedMetric) : list Z := MarshalTo m.
Definition UnProcessedMetric_Size (m : UnProcessedMetric) : Z := Size m.
Definition UnProcessedMetric_Unmarshal (m : UnProcessedMetric) (data : list Z) : outcome UnProcessedMetric := UnmarshalInto m data.

Record UnProcessedMetricList := mkUnProcessedMetricList {
  UnProcessedMetricList_List : list UnProcessedMetric
}.

Definition UnProcessedMetricList_fields : list (field UnProcessedMetricList) :=
  [ repeated_field 1 "List" UnProcessedMetricList_List (fun v '(mkUnProcessedMetricList _) => mkUnProcessedMetricList v) ].

#[export] Instance UnProcessedMetricList_Message : Message UnProcessedMetricList :=
  {| msg_name := "UnProcessedMetricList"; msg_empty := mkUnProcessedMetricList []; msg_fields := UnProcessedMetricList_fields |}.

Definition UnProcessedMetricList_Marshal (m : UnProcessedMetricList) : outcome (list Z) := Marshal m.
Definition UnProcessedMetricList_MarshalTo (m : UnProcessedMetricList) : list Z := MarshalTo m.
Definition UnProcessedMetricList_Size (m : UnProcessedMetricList) : Z := Size m.
Definition UnProcessedMetricList_Unmarshal (m : UnProcessedMetricList) (data : list Z) : outcome UnProcessedMetricList := UnmarshalInto m data.

Record RawMetric := mkRawMetric {
  RawMetric_Time : Z;
  RawMetric_Metric : string;
  RawMetric_Value : float64;
  RawMetric_Tags : list Tag;
  RawMetric_MetaTags : list Tag;
  RawMetric_SentTime : Z
}.

Definition RawMetric_fields : list (field RawMetric) :=
  [ int_field 1 "Time" 64 true RawMetric_Time (fun v '(mkRawMetric _ b c d e f) => mkRawMetric v b c d e f);
    string_field 2 "Metric" RawMetric_Metric (fun v '(mkRawMetric a _ c d e f) => mkRawMetric a v c d e f);
    double_field 3 "Value" RawMetric_Value (fun v '(mkRawMetric a b _ d e f) => mkRawMetric a b v d e f);
    repeated_field 13 "Tags" RawMetric_Tags (fun v '(mkRawMetric a b c _ e f) => mkRawMetric a b c v e f);
    repeated_field 14 "MetaTags" RawMetric_MetaTags (fun v '(mkRawMetric a b c d _ f) => mkRawMetric a b c d v f);
    int_field 15 "SentTime" 64 true RawMetric_SentTime (fun v '(mkRawMetric a b c d e _) => mkRawMetric a b c d e v) ].

#[export] Instance RawMetric_Message : Message RawMetric :=
  {| msg_name := "RawMetric"; msg_empty := mkRawMetric 0 ""%string 0 [] [] 0; msg_fields := RawMetric_fields |}.

Definition RawMetric_Marshal (m : RawMetric) : outcome (list Z) := Marshal m.
Definition RawMetric_MarshalTo (m : RawMetric) : list Z := MarshalTo m.
Definition RawMetric_Size (m : RawMetric) : Z := Size m.
Definition RawMetric_Unmarshal (m : RawMetric) (data : list Z) : outcome RawMetric := UnmarshalInto m data.

Record RawMetricList := mkRawMetricList {
  RawMetricList_List : list RawMetric
}.

Definition RawMetricList_fields : list (field RawMetricList) :=
  [ repeated_field 1 "List" RawMetricList_List (fun v '(mkRawMetricList _) => mkRawMetricList v) ].

#[export] Instance RawMetricList_Message : Message RawMetricList :=
  {| msg_name := "RawMetricList"; msg_empty := mkRawMetricList []; msg_fields := RawMetricList_fields |}.

Definition RawMetricList_Marshal (m : RawMetricList) : outcome (list Z) := Marshal m.
Definition RawMetricList_MarshalTo (m : RawMetricList) : list Z := MarshalTo m.
Definition RawMetricList_Size (m : RawMetricList) : Z := Size m.
Definition RawMetricList_Unmarshal (m : RawMetricList) (data : list Z) : outcome RawMetricList := UnmarshalInto m data.

Record MetricWritten := mkMetricWritten {
  MetricWritten_Id : Z;
  MetricWritten_Uid : string;
  MetricWritten_Metric : string;
  MetricWritten_StartTime : Z;
  MetricWritten_EndTime : Z;
  MetricWritten_WriteTime : Z;
  MetricWritten_Offset : Z;
  MetricWritten_Partition : Z;
  MetricWritten_Topic : string;
  MetricWritten_Resolution : Z;
  MetricWritten_Ttl : Z;
  MetricWritten_Tags : list Tag;
  MetricWritten_MetaTags : list Tag;
  MetricWritten_SentTime : Z
}.

Definition MetricWritten_fields : list (field MetricWritten) :=
  [ int_field 2 "Id" 64 false MetricWritten_Id (fun v '(mkMetricWritten _ b c d e f g h i j k l n o) => mkMetricWritten v b c d e f g h i j k l n o);
    string_field 3 "Uid" MetricWritten_Uid (fun v '(mkMetricWritten a _ c d e f g h i j k l n o) => mkMetricWritten a v c d e f g h i j k l n o);
    string_field 4 "Metric" MetricWritten_Metric (fun v '(mkMetricWritten a b _ d e f g h i j k l n o) => mkMetricWritten a b v d e f g h i j k l n o);
    int_field 5 "StartTime" 64 true MetricWritten_StartTime (fun v '(mkMetricWritten a b c _ e f g h i j k l n o) => mkMetricWritten a b c v e f g h i j k l n o);
    int_field 6 "EndTime" 64 true MetricWritten_EndTime (fun v '(mkMetricWritten a b c d _ f g h i j k l n o) => mkMetricWritten a b c d v f g h i j k l n o);
    int_field 7 "WriteTime" 64 true MetricWritten_WriteTime (fun v '(mkMetricWritten a b c d e _ g h i j k l n o) => mkMetricWritten a b c d e v g h i j k l n o);
    int_field 8 "Offset" 64 true MetricWritten_Offset (fun v '(mkMetricWritten a b c d e f _ h i j k l n o) => mkMetricWritten a b c d e f v h i j k l n o);
    int_field 9 "Partition" 32 true MetricWritten_Partition (fun v '(mkMetricWritten a b c d e f g _ i j k l n o) => mkMetricWritten a b c d e f g v i j k l n o);
    string_field 10 "Topic" MetricWritten_Topic (fun v '(mkMetricWritten a b c d e f g h _ j k l n o) => mkMetricWritten a b c d e f g h v j k l n o);
    int_field 11 "Resolution" 32 false MetricWritten_Resolution (fun v '(mkMetricWritten a b c d e f g h i _ k l n o) => mkMetricWritten a b c d e f g h i v k l n o);
    int_field 12 "Ttl" 32 false MetricWritten_Ttl (fun v '(mkMetricWritten a b c d e f g h i j _ l n o) => mkMetricWritten a b c d e f g h i j v l n o);
    repeated_field 13 "Tags" MetricWritten_Tags (fun v '(mkMetricWritten a b c d e f g h i j k _ n o) => mkMetricWritten a b c d e f g h i j k v n o);
    repeated_field 14 "MetaTags" MetricWritten_MetaTags (fun v '(mkMetricWritten a b c d e f g h i j k l _ o) => mkMetricWritten a b c d e f g h i j k l v o);
    int_field 15 "SentTime" 64 true MetricWritten_SentTime (fun v '(mkMetricWritten a b c d e f g h i j k l n _) => mkMetricWritten a b c d e f g h i j k l n v) ].

#[export] Instance MetricWritten_Message : Message MetricWritten :=
  {| msg_name := "MetricWritten"; msg_empty := mkMetricWritten 0 ""%string ""%string 0 0 0 0 0 ""%string 0 0 [] [] 0; msg_fields := MetricWritten_fields |}.

Definition MetricWritten_Marshal (m : MetricWritten) : outcome (list Z) := Marshal m.
Definition MetricWritten_MarshalTo (m : MetricWritten) : list Z := MarshalTo m.
Definition MetricWritten_Size (m : MetricWritten) : Z := Size m.
Definition MetricWritten_Unmarshal (m : MetricWritten) (data : list Z) : outcome MetricWritten := UnmarshalInto m data.

Record AnyMetric := mkAnyMetric {
  AnyMetric_Raw : option RawMetric;
  AnyMetric_Unprocessed : option UnProcessedMetric;
  AnyMetric_Single : option SingleMetric;
  AnyMetric_Series : option SeriesMetric;
  AnyMetric_UidMetric : option UidMetric;
  AnyMetric_Written : option MetricWritten
}.

Definition AnyMetric_fields : list (field AnyMetric) :=
  [ msg_field 1 "Raw" AnyMetric_Raw (fun v '(mkAnyMetric _ b c d e f) => mkAnyMetric v b c d e f);
    msg_field 2 "Unprocessed" AnyMetric_Unprocessed (fun v '(mkAnyMetric a _ c d e f) => mkAnyMetric a v c d e f);
    msg_field 3 "Single" AnyMetric_Single (fun v '(mkAnyMetric a b _ d e f) => mkAnyMetric a b v d e f);
    msg_field 4 "Series" AnyMetric_Series (fun v '(mkAnyMetric a b c _ e f) => mkAnyMetric a b c v e f);
    msg_field 5 "UidMetric" AnyMetric_UidMetric (fun v '(mkAnyMetric a b c d _ f) => mkAnyMetric a b c d v f);
    msg_field 6 "Written" AnyMetric_Written (fun v '(mkAnyMetric a b c d e _) => mkAnyMetric a b c d e v) ].

#[export] Instance AnyMetric_Message : Message AnyMetric :=
  {| msg_name := "AnyMetric"; msg_empty := mkAnyMetric None None None None None None; msg_fields := AnyMetric_fields |}.

Definition AnyMetric_Marshal (m : AnyMetric) : outcome (list Z) := Marshal m.
Definition AnyMetric_MarshalTo (m : AnyMetric) : list Z := MarshalTo m.
Definition AnyMetric_Size (m : AnyMetric) : Z := Size m.
Definition AnyMetric_Unmarshal (m : AnyMetric) (data : list Z) : outcome AnyMetric := UnmarshalInto m data.

Record AnyMetricList := mkAnyMetricList {
  AnyMetricList_Raw : list RawMetric;
  AnyMetricList_Unprocessed : list UnProcessedMetric;
  AnyMetricList_Single : list SingleMetric;
  AnyMetricList_Series : list SeriesMetric;
  AnyMetricList_UidMetric : list UidMetric;
  AnyMetricList_Written : list MetricWritten
}.

Definition AnyMetricList_fields : list (field AnyMetricList) :=
  [ repeated_field 1 "Raw" AnyMetricList_Raw (fun v '(mkAnyMetricList _ b c d e f) => mkAnyMetricList v b c d e f);
    repeated_field 2 "Unprocessed" AnyMetricList_Unprocessed (fun v '(mkAnyMetricList a _ c d e f) => mkAnyMetricList a v c d e f);
    repeated_field 3 "Single" AnyMetricList_Single (fun v '(mkAnyMetricList a b _ d e f) => mkAnyMetricList a b v d e f);
    repeated_field 4 "Series" AnyMetricList_Series (fun v '(mkAnyMetricList a b c _ e f) => mkAnyMetricList a b c v e f);
    repeated_field 5 "UidMetric" AnyMetricList_UidMetric (fun v '(mkAnyMetricList a b c d _ f) => mkAnyMetricList a b c d v f);
    repeated_field 6 "Written" AnyMetricList_Written (fun v '(mkAnyMetricList a b c d e _) => mkAnyMetricList a b c d e v) ].

#[export] Instance AnyMetricList_Message : Message AnyMetricList :=
  {| msg_name := "AnyMetricList"; msg_empty := mkAnyMetricList [] [] [] [] [] []; msg_fields := AnyMetricList_fields |}.

Definition AnyMetricList_Marshal (m : AnyMetricList) : outcome (list Z) := Marshal m.
Definition AnyMetricList_MarshalTo (m : AnyMetricList) : list Z := MarshalTo m.
Definition AnyMetricList_Size (m : AnyMetricList) : Z := Size m.
Definition AnyMetricList_Unmarshal (m : AnyMetricList) (data : list Z) : outcome AnyMetricList := UnmarshalInto m data.

(** ** [schemas/metrics/metrics.pb.go] *)

Definition DataPoint_fields : list (field DataPoint) :=
  [ int_field 1 "Time" 32 false dp_Time (fun v '(mkDataPoint _ b) => mkDataPoint v b);
    double_field 2 "Value" dp_Value (fun v '(mkDataPoint a _) => mkDataPoint a v) ].

#[export] Instance DataPoint_Message : Message DataPoint :=
  {| msg_name := "DataPoint"; msg_empty := mkDataPoint 0 0; msg_fields := DataPoint_fields |}.

Definition DataPoint_Marshal (m : DataPoint) : outcome (list Z) := Marshal m.
Definition DataPoint_MarshalTo (m : DataPoint) : list Z := MarshalTo m.
Definition DataPoint_Size (m : DataPoint) : Z := Size m.
Definition DataPoint_Unmarshal (m : DataPoint) (data : list Z) : outcome DataPoint := UnmarshalInto m data.

Record DataPoints := mkDataPoints {
  DataPoints_Points : list DataPoint
}.

Definition DataPoints_fields : list (field DataPoints) :=
  [ repeated_field 1 "Points" DataPoints_Points (fun v '(mkDataPoints _) => mkDataPoints v) ].

#[export] Instance DataPoints_Message : Message DataPoints :=
  {| msg_name := "DataPoints"; msg_empty := mkDataPoints []; msg_fields := DataPoints_fields |}.

Definition DataPoints_Marshal (m : DataPoints) : outcome (list Z) := Marshal m.
Definition DataPoints_MarshalTo (m : DataPoints) : list Z := MarshalTo m.
Definition DataPoints_Size (m : DataPoints) : Z := Size m.
Definition DataPoints_Unmarshal (m : DataPoints) (data : list Z) : outcome DataPoints := UnmarshalInto m data.

Definition RawDataPoint_fields : list (field RawDataPoint) :=
  [ int_field 1 "Time" 32 false p_Time (fun v '(mkRaw _ b c d e f) => mkRaw v b c d e f);
    double_field 3 "Sum" p_Sum (fun v '(mkRaw a _ c d e f) => mkRaw a v c d e f);
    double_field 4 "Min" p_Min (fun v '(mkRaw a b _ d e f) => mkRaw a b v d e f);
    double_field 5 "Max" p_Max (fun v '(mkRaw a b c _ e f) => mkRaw a b c v e f);
    double_field 6 "Last" p_Last (fun v '(mkRaw a b c d _ f) => mkRaw a b c d v f);
    int_field 7 "Count" 64 true p_Count (fun v '(mkRaw a b c d e _) => mkRaw a b c d e v) ].

#[export] Instance RawDataPoint_Message : Message RawDataPoint :=
  {| msg_name := "RawDataPoint"; msg_empty := mkRaw 0 0 0 0 0 0; msg_fields := RawDataPoint_fields |}.

Definition RawDataPoint_Marshal (m : RawDataPoint) : outcome (list Z) := Marshal m.
Definition RawDataPoint_MarshalTo (m : RawDataPoint) : list Z := MarshalTo m.
Definition RawDataPoint_Size (m : RawDataPoint) : Z := Size m.
Definition RawDataPoint_Unmarshal (m : RawDataPoint) (data : list Z) : outcome RawDataPoint := UnmarshalInto m data.

Record RenderItem := mkRenderItem {
  RenderItem_Target : string;
  RenderItem_DataPoints : list DataPoint
}.

Definition RenderItem_fields : list (field RenderItem) :=
  [ string_field 1 "Target" RenderItem_Target (fun v '(mkRenderItem _ b) => mkRenderItem v b);
    repeated_field 2 "DataPoints" RenderItem_DataPoints (fun v '(mkRenderItem a _) => mkRenderItem a v) ].

#[export] Instance RenderItem_Message : Message RenderItem :=
  {| msg_name := "RenderItem"; msg_empty := mkRenderItem ""%string []; msg_fields := RenderItem_fields |}.

Definition RenderItem_Marshal (m : RenderItem) : outcome (list Z) := Marshal m.
Definition RenderItem_MarshalTo (m : RenderItem) : list Z := MarshalTo m.
Definition RenderItem_Size (m : RenderItem) : Z := Size m.
Definition RenderItem_Unmarshal (m : RenderItem) (data : list Z) : outcome RenderItem := UnmarshalInto m data.

Record RenderItemList := mkRenderItemList {
  RenderItemList_Items : list RenderItem
}.

Definition RenderItemList_fields : list (field RenderItemList) :=
  [ repeated_field 2 "Items" RenderItemList_Items (fun v '(mkRenderItemList _) => mkRenderItemList v) ].

#[export] Instance RenderItemList_Message : Message RenderItemList :=
  {| msg_name := "RenderItemList"; msg_empty := mkRenderItemList []; msg_fields := RenderItemList_fields |}.

Definition RenderItemList_Marshal (m : RenderItemList) : outcome (list Z) := Marshal m.
Definition RenderItemList_MarshalTo (m : RenderItemList) : list Z := MarshalTo m.
Definition RenderItemList_Size (m : RenderItemList) : Z := Size m.
Definition RenderItemList_Unmarshal (m : RenderItemList) (data : list Z) : outcome RenderItemList := UnmarshalInto m data.

Definition RawRenderItem_fields : list (field RawRenderItem) :=
  [ string_field 1 "Metric" Metric (fun v '(mkItem _ b c d e f g h i j k l n) => mkItem v b c d e f g h i j k l n);
    string_field 2 "Id" Id (fun v '(mkItem a _ c d e f g h i j k l n) => mkItem a v c d e f g h i j k l n);
    int_field 3 "RealStart" 32 false RealStart (fun v '(mkItem a b _ d e f g h i j k l n) => mkItem a b v d e f g h i j k l n);
    int_field 4 "RealEnd" 32 false RealEnd (fun v '(mkItem a b c _ e f g h i j k l n) => mkItem a b c v e f g h i j k l n);
    int_field 5 "Start" 32 false Start (fun v '(mkItem a b c d _ f g h i j k l n) => mkItem a b c d v f g h i j k l n);
    int_field 6 "End" 32 false End_ (fun v '(mkItem a b c d e _ g h i j k l n) => mkItem a b c d e v g h i j k l n);
    int_field 7 "Step" 32 false Step (fun v '(mkItem a b c d e f _ h i j k l n) => mkItem a b c d e f v h i j k l n);
    int_field 8 "AggFunc" 32 false AggFunc (fun v '(mkItem a b c d e f g _ i j k l n) => mkItem a b c d e f g v i j k l n);
    repeated_field 9 "Tags" i_Tags (fun v '(mkItem a b c d e f g h _ j k l n) => mkItem a b c d e f g h v j k l n);
    repeated_field 10 "MetaTags" i_MetaTags (fun v '(mkItem a b c d e f g h i _ k l n) => mkItem a b c d e f g h i v k l n);
    repeated_field 11 "Data" Data (fun v '(mkItem a b c d e f g h i j _ l n) => mkItem a b c d e f g h i j v l n);
    bool_field 12 "InCache" InCache (fun v '(mkItem a b c d e f g h i j k _ n) => mkItem a b c d e f g h i j k v n);
    bool_field 13 "UsingCache" UsingCache (fun v '(mkItem a b c d e f g h i j k l _) => mkItem a b c d e f g h i j k l v) ].

#[export] Instance RawRenderItem_Message : Message RawRenderItem :=
  {| msg_name := "RawRenderItem"; msg_empty := mkItem ""%string ""%string 0 0 0 0 0 0 [] [] [] false false; msg_fields := RawRenderItem_fields |}.

Definition RawRenderItem_Marshal (m : RawRenderItem) : outcome (list Z) := Marshal m.
Definition RawRenderItem_MarshalTo (m : RawRenderItem) : list Z := MarshalTo m.
Definition RawRenderItem_Size (m : RawRenderItem) : Z := Size m.
Definition RawRenderItem_Unmarshal (m : RawRenderItem) (data : list Z) : outcome RawRenderItem := UnmarshalInto m data.

Record RawRenderItemList := mkRawRenderItemList {
  RawRenderItemList_Items : list RawRenderItem
}.

Definition RawRenderItemList_fields : list (field RawRenderItemList) :=
  [ repeated_field 1 "Items" RawRenderItemList_Items (fun v '(mkRawRenderItemList _) => mkRawRenderItemList v) ].

#[export] Instance RawRenderItemList_Message : Message RawRenderItemList :=
  {| msg_name := "RawRenderItemList"; msg_empty := mkRawRenderItemList []; msg_fields := RawRenderItemList_fields |}.

Definition RawRenderItemList_Marshal (m : RawRenderItemList) : outcome (list Z) := Marshal m.
Definition RawRenderItemList_MarshalTo (m : RawRenderItemList) : list Z := MarshalTo m.
Definition RawRenderItemList_Size (m : RawRenderItemList) : Z := Size m.
Definition RawRenderItemList_Unmarshal (m : RawRenderItemList) (data : list Z) : outcome RawRenderItemList := UnmarshalInto m data.

Record WhisperDataItem := mkWhisperDataItem {
  WhisperDataItem_Target : string;
  WhisperDataItem_InCache : bool;
  WhisperDataItem_UsingCache : bool;
  WhisperDataItem_Uid : string;
  WhisperDataItem_Data : list DataPoint
}.

Definition WhisperDataItem_fields : list (field WhisperDataItem) :=
  [ string_field 1 "Target" WhisperDataItem_Target (fun v '(mkWhisperDataItem _ b c d e) => mkWhisperDataItem v b c d e);
    bool_field 2 "InCache" WhisperDataItem_InCache (fun v '(mkWhisperDataItem a _ c d e) => mkWhisperDataItem a v c d e);
    bool_field 3 "UsingCache" WhisperDataItem_UsingCache (fun v '(mkWhisperDataItem a b _ d e) => mkWhisperDataItem a b v d e);
    string_field 4 "Uid" WhisperDataItem_Uid (fun v '(mkWhisperDataItem a b c _ e) => mkWhisperDataItem a b c v e);
    repeated_field 5 "Data" WhisperDataItem_Data (fun v '(mkWhisperDataItem a b c d _) => mkWhisperDataItem a b c d v) ].

#[export] Instance WhisperDataItem_Message : Message WhisperDataItem :=
  {| msg_name := "WhisperDataItem"; msg_empty := mkWhisperDataItem ""%string false false ""%string []; msg_fields := WhisperDataItem_fields |}.

Definition WhisperDataItem_Marshal (m : WhisperDataItem) : outcome (list Z) := Marshal m.
Definition WhisperDataItem_MarshalTo (m : WhisperDataItem) : list Z := MarshalTo m.
Definition WhisperDataItem_Size (m : WhisperDataItem) : Z := Size m.
Definition WhisperDataItem_Unmarshal (m : WhisperDataItem) (data : list Z) : outcome WhisperDataItem := UnmarshalInto m data.

Record WhisperDataItemList := mkWhisperDataItemList {
  WhisperDataItemList_Items : list WhisperDataItem
}.

Definition WhisperDataItemList_fields : list (field WhisperDataItemList) :=
  [ repeated_field 1 "Items" WhisperDataItemList_Items (fun v '(mkWhisperDataItemList _) => mkWhisperDataItemList v) ].

#[export] Instance WhisperDataItemList_Message : Message WhisperDataItemList :=
  {| msg_name := "WhisperDataItemList"; msg_empty := mkWhisperDataItemList []; msg_fields := WhisperDataItemList_fields |}.

Definition WhisperDataItemList_Marshal (m : WhisperDataItemList) : outcome (list Z) := Marshal m.
Definition WhisperDataItemList_MarshalTo (m : WhisperDataItemList) : list Z := MarshalTo m.
Definition WhisperDataItemList_Size (m : WhisperDataItemList) : Z := Size m.
Definition WhisperDataItemList_Unmarshal (m : WhisperDataItemList) (data : list Z) : outcome WhisperDataItemList := UnmarshalInto m data.

Record GraphiteApiItem := mkGraphiteApiItem {
  GraphiteApiItem_Target : string;
  GraphiteApiItem_InCache : bool;
  GraphiteApiItem_UsingCache : bool;
  GraphiteApiItem_Datapoints : list DataPoint
}.

Definition GraphiteApiItem_fields : list (field GraphiteApiItem) :=
  [ string_field 1 "Target" GraphiteApiItem_Target (fun v '(mkGraphiteApiItem _ b c d) => mkGraphiteApiItem v b c d);
    bool_field 2 "InCache" GraphiteApiItem_InCache (fun v '(mkGraphiteApiItem a _ c d) => mkGraphiteApiItem a v c d);
    bool_field 3 "UsingCache" GraphiteApiItem_UsingCache (fun v '(mkGraphiteApiItem a b _ d) => mkGraphiteApiItem a b v d);
    repeated_field 4 "Datapoints" GraphiteApiItem_Datapoints (fun v '(mkGraphiteApiItem a b c _) => mkGraphiteApiItem a b c v) ].

#[export] Instance GraphiteApiItem_Message : Message GraphiteApiItem :=
  {| msg_name := "GraphiteApiItem"; msg_empty := mkGraphiteApiItem ""%string false false []; msg_fields := GraphiteApiItem_fields |}.

Definition GraphiteApiItem_Marshal (m : GraphiteApiItem) : outcome (list Z) := Marshal m.
Definition GraphiteApiItem_MarshalTo (m : GraphiteApiItem) : list Z := MarshalTo m.
Definition GraphiteApiItem_Size (m : GraphiteApiItem) : Z := Size m.
Definition GraphiteApiItem_Unmarshal (m : GraphiteApiItem) (data : list Z) : outcome GraphiteApiItem := UnmarshalInto m data.

Record GraphiteApiItemList := mkGraphiteApiItemList {
  GraphiteApiItemList_Items : list GraphiteApiItem
}.

Definition GraphiteApiItemList_fields : list (field GraphiteApiItemList) :=
  [ repeated_field 1 "Items" GraphiteApiItemList_Items (fun v '(mkGraphiteApiItemList _) => mkGraphiteApiItemList v) ].

#[export] Instance GraphiteApiItemList_Message : Message GraphiteApiItemList :=
  {| msg_name := "GraphiteApiItemList"; msg_empty := mkGraphiteApiItemList []; msg_fields := GraphiteApiItemList_fields |}.

Definition GraphiteApiItemList_Marshal (m : GraphiteApiItemList) : outcome (list Z) := Marshal m.
Definition GraphiteApiItemList_MarshalTo (m : GraphiteApiItemList) : list Z := MarshalTo m.
Definition GraphiteApiItemList_Size (m : GraphiteApiItemList) : Z := Size m.
Definition GraphiteApiItemList_Unmarshal (m : GraphiteApiItemList) (data : list Z) : outcome GraphiteApiItemList := UnmarshalInto m data.

(** ** [schemas/indexer/indexer.pb.go] *)

Record MetricFindItem := mkMetricFindItem {
  MetricFindItem_Text : string;
  MetricFindItem_Expandable : Z;
  MetricFindItem_Leaf : Z;
  MetricFindItem_Path : string;
  MetricFindItem_AllowChildren : Z;
  MetricFindItem_Id : string;
  MetricFindItem_UniqueId : string;
  MetricFindItem_Tags : list Tag;
  MetricFindItem_MetaTags : list Tag
}.

Definition MetricFindItem_fields : list (field MetricFindItem) :=
  [ string_field 1 "Text" MetricFindItem_Text (fun v '(mkMetricFindItem _ b c d e f g h i) => mkMetricFindItem v b c d e f g h i);
    int_field 2 "Expandable" 32 false MetricFindItem_Expandable (fun v '(mkMetricFindItem a _ c d e f g h i) => mkMetricFindItem a v c d e f g h i);
    int_field 3 "Leaf" 32 false MetricFindItem_Leaf (fun v '(mkMetricFindItem a b _ d e f g h i) => mkMetricFindItem a b v d e f g h i);
    string_field 4 "Path" MetricFindItem_Path (fun v '(mkMetricFindItem a b c _ e f g h i) => mkMetricFindItem a b c v e f g h i);
    int_field 5 "AllowChildren" 32 false MetricFindItem_AllowChildren (fun v '(mkMetricFindItem a b c d _ f g h i) => mkMetricFindItem a b c d v f g h i);
    string_field 6 "Id" MetricFindItem_Id (fun v '(mkMetricFindItem a b c d e _ g h i) => mkMetricFindItem a b c d e v g h i);
    string_field 7 "UniqueId" MetricFindItem_UniqueId (fun v '(mkMetricFindItem a b c d e f _ h i) => mkMetricFindItem a b c d e f v h i);
    repeated_field 13 "Tags" MetricFindItem_Tags (fun v '(mkMetricFindItem a b c d e f g _ i) => mkMetricFindItem a b c d e f g v i);
    repeated_field 14 "MetaTags" MetricFindItem_MetaTags (fun v '(mkMetricFindItem a b c d e f g h _) => mkMetricFindItem a b c d e f g h v) ].

#[export] Instance MetricFindItem_Message : Message MetricFindItem :=
  {| msg_name := "MetricFindItem"; msg_empty := mkMetricFindItem ""%string 0 0 ""%string 0 ""%string ""%string [] []; msg_fields := MetricFindItem_fields |}.

Definition MetricFindItem_Marshal (m : MetricFindItem) : outcome (list Z) := Marshal m.
Definition MetricFindItem_MarshalTo (m : MetricFindItem) : list Z := MarshalTo m.
Definition MetricFindItem_Size (m : MetricFindItem) : Z := Size m.
Definition MetricFindItem_Unmarshal (m : MetricFindItem) (data : list Z) : outcome MetricFindItem := UnmarshalInto m data.

Record MetricFindItemList := mkMetricFindItemList {
  MetricFindItemList_Items : list MetricFindItem
}.

Definition MetricFindItemList_fields : list (field MetricFindItemList) :=
  [ repeated_field 1 "Items" MetricFindItemList_Items (fun v '(mkMetricFindItemList _) => mkMetricFindItemList v) ].

#[export] Instance MetricFindItemList_Message : Message MetricFindItemList :=
  {| msg_name := "MetricFindItemList"; msg_empty := mkMetricFindItemList []; msg_fields := MetricFindItemList_fields |}.

Definition MetricFindItemList_Marshal (m : MetricFindItemList) : outcome (list Z) := Marshal m.
Definition MetricFindItemList_MarshalTo (m : MetricFindItemList) : list Z := MarshalTo m.
Definition MetricFindItemList_Size (m : MetricFindItemList) : Z := Size m.
Definition MetricFindItemList_Unmarshal (m : MetricFindItemList) (data : list Z) : outcome MetricFindItemList := UnmarshalInto m data.

Record MetricExpandItem := mkMetricExpandItem {
  MetricExpandItem_Results : list string
}.

Definition MetricExpandItem_fields : list (field MetricExpandItem) :=
  [ strings_field 2 "Results" MetricExpandItem_Results (fun v '(mkMetricExpandItem _) => mkMetricExpandItem v) ].

#[export] Instance MetricExpandItem_Message : Message MetricExpandItem :=
  {| msg_name := "MetricExpandItem"; msg_empty := mkMetricExpandItem []; msg_fields := MetricExpandItem_fields |}.

Definition MetricExpandItem_Marshal (m : MetricExpandItem) : outcome (list Z) := Marshal m.
Definition MetricExpandItem_MarshalTo (m : MetricExpandItem) : list Z := MarshalTo m.
Definition MetricExpandItem_Size (m : MetricExpandItem) : Z := Size m.
Definition MetricExpandItem_Unmarshal (m : MetricExpandItem) (data : list Z) : outcome MetricExpandItem := UnmarshalInto m data.

Record MetricTagItem := mkMetricTagItem {
  MetricTagItem_Id : string;
  MetricTagItem_Name : string;
  MetricTagItem_Value : string;
  MetricTagItem_IsMeta : bool
}.

Definition MetricTagItem_fields : list (field MetricTagItem) :=
  [ string_field 2 "Id" MetricTagItem_Id (fun v '(mkMetricTagItem _ b c d) => mkMetricTagItem v b c d);
    string_field 3 "Name" MetricTagItem_Name (fun v '(mkMetricTagItem a _ c d) => mkMetricTagItem a v c d);
    string_field 4 "Value" MetricTagItem_Value (fun v '(mkMetricTagItem a b _ d) => mkMetricTagItem a b v d);
    bool_field 5 "IsMeta" MetricTagItem_IsMeta (fun v '(mkMetricTagItem a b c _) => mkMetricTagItem a b c v) ].

#[export] Instance MetricTagItem_Message : Message MetricTagItem :=
  {| msg_name := "MetricTagItem"; msg_empty := mkMetricTagItem ""%string ""%string ""%string false; msg_fields := MetricTagItem_fields |}.

Definition MetricTagItem_Marshal (m : MetricTagItem) : outcome (list Z) := Marshal m.
Definition MetricTagItem_MarshalTo (m : MetricTagItem) : list Z := MarshalTo m.
Definition MetricTagItem_Size (m : MetricTagItem) : Z := Size m.
Definition MetricTagItem_Unmarshal (m : MetricTagItem) (data : list Z) : outcome MetricTagItem := UnmarshalInto m data.

Record MetricTagItemList := mkMetricTagItemList {
  MetricTagItemList_Items : list MetricTagItem
}.

Definition MetricTagItemList_fields : list (field MetricTagItemList) :=
  [ repeated_field 1 "Items" MetricTagItemList_Items (fun v '(mkMetricTagItemList _) => mkMetricTagItemList v) ].

#[export] Instance MetricTagItemList_Message : Message MetricTagItemList :=
  {| msg_name := "MetricTagItemList"; msg_empty := mkMetricTagItemList []; msg_fields := MetricTagItemList_fields |}.

Definition MetricTagItemList_Marshal (m : MetricTagItemList) : outcome (list Z) := Marshal m.
Definition MetricTagItemList_MarshalTo (m : MetricTagItemList) : list Z := MarshalTo m.
Definition MetricTagItemList_Size (m : MetricTagItemList) : Z := Size m.
Definition MetricTagItemList_Unmarshal (m : MetricTagItemList) (data : list Z) : outcome MetricTagItemList := UnmarshalInto m data.

(** ** [schemas/api/query.pb.go] *)

Record MetricQuery := mkMetricQuery {
  MetricQuery_Target : string;
  MetricQuery_Start : Z;
  MetricQuery_End : Z;
  MetricQuery_Step : Z;
  MetricQuery_Agg : Z;
  MetricQuery_MaxPoints : Z;
  MetricQuery_Tags : list Tag;
  MetricQuery_InCache : bool;
  MetricQuery_Format : string
}.

Definition MetricQuery_fields : list (field MetricQuery) :=
  [ string_field 1 "Target" MetricQuery_Target (fun v '(mkMetricQuery _ b c d e f g h i) => mkMetricQuery v b c d e f g h i);
    int_field 2 "Start" 64 true MetricQuery_Start (fun v '(mkMetricQuery a _ c d e f g h i) => mkMetricQuery a v c d e f g h i);
    int_field 3 "End" 64 true MetricQuery_End (fun v '(mkMetricQuery a b _ d e f g h i) => mkMetricQuery a b v d e f g h i);
    int_field 4 "Step" 32 false MetricQuery_Step (fun v '(mkMetricQuery a b c _ e f g h i) => mkMetricQuery a b c v e f g h i);
    int_field 5 "Agg" 32 false MetricQuery_Agg (fun v '(mkMetricQuery a b c d _ f g h i) => mkMetricQuery a b c d v f g h i);
    int_field 6 "MaxPoints" 32 false MetricQuery_MaxPoints (fun v '(mkMetricQuery a b c d e _ g h i) => mkMetricQuery a b c d e v g h i);
    repeated_field 7 "Tags" MetricQuery_Tags (fun v '(mkMetricQuery a b c d e f _ h i) => mkMetricQuery a b c d e f v h i);
    bool_field 8 "InCache" MetricQuery_InCache (fun v '(mkMetricQuery a b c d e f g _ i) => mkMetricQuery a b c d e f g v i);
    string_field 9 "Format" MetricQuery_Format (fun v '(mkMetricQuery a b c d e f g h _) => mkMetricQuery a b c d e f g h v) ].

#[export] Instance MetricQuery_Message : Message MetricQuery :=
  {| msg_name := "MetricQuery"; msg_empty := mkMetricQuery ""%string 0 0 0 0 0 [] false ""%string; msg_fields := MetricQuery_fields |}.

Definition MetricQuery_Marshal (m : MetricQuery) : outcome (list Z) := Marshal m.
Definition MetricQuery_MarshalTo (m : MetricQuery) : list Z := MarshalTo m.
Definition MetricQuery_Size (m : MetricQuery) : Z := Size m.
Definition MetricQuery_Unmarshal (m : MetricQuery) (data : list Z) : outcome MetricQuery := UnmarshalInto m data.

Record IndexQuery := mkIndexQuery {
  IndexQuery_Query : string;
  IndexQuery_Value : string;
  IndexQuery_Page : Z;
  IndexQuery_Tags : list Tag;
  IndexQuery_HasData : bool;
  IndexQuery_InCache : bool;
  IndexQuery_Format : string
}.

Definition IndexQuery_fields : list (field IndexQuery) :=
  [ string_field 1 "Query" IndexQuery_Query (fun v '(mkIndexQuery _ b c d e f g) => mkIndexQuery v b c d e f g);
    string_field 2 "Value" IndexQuery_Value (fun v '(mkIndexQuery a _ c d e f g) => mkIndexQuery a v c d e f g);
    int_field 3 "Page" 32 false IndexQuery_Page (fun v '(mkIndexQuery a b _ d e f g) => mkIndexQuery a b v d e f g);
    repeated_field 4 "Tags" IndexQuery_Tags (fun v '(mkIndexQuery a b c _ e f g) => mkIndexQuery a b c v e f g);
    bool_field 5 "HasData" IndexQuery_HasData (fun v '(mkIndexQuery a b c d _ f g) => mkIndexQuery a b c d v f g);
    bool_field 6 "InCache" IndexQuery_InCache (fun v '(mkIndexQuery a b c d e _ g) => mkIndexQuery a b c d e v g);
    string_field 7 "Format" IndexQuery_Format (fun v '(mkIndexQuery a b c d e f _) => mkIndexQuery a b c d e f v) ].

#[export] Instance IndexQuery_Message : Message IndexQuery :=
  {| msg_name := "IndexQuery"; msg_empty := mkIndexQuery ""%string ""%string 0 [] false false ""%string; msg_fields := IndexQuery_fields |}.

Definition IndexQuery_Marshal (m : IndexQuery) : outcome (list Z) := Marshal m.
Definition IndexQuery_MarshalTo (m : IndexQuery) : list Z := MarshalTo m.
Definition IndexQuery_Size (m : IndexQuery) : Z := Size m.
Definition IndexQuery_Unmarshal (m : IndexQuery) (data : list Z) : outcome IndexQuery := UnmarshalInto m data.

Record DiscoveryQuery := mkDiscoveryQuery {
  DiscoveryQuery_Host : string;
  DiscoveryQuery_Tags : list Tag;
  DiscoveryQuery_Format : string
}.

Definition DiscoveryQuery_fields : list (field DiscoveryQuery) :=
  [ string_field 1 "Host" DiscoveryQuery_Host (fun v '(mkDiscoveryQuery _ b c) => mkDiscoveryQuery v b c);
    repeated_field 4 "Tags" DiscoveryQuery_Tags (fun v '(mkDiscoveryQuery a _ c) => mkDiscoveryQuery a v c);
    string_field 6 "Format" DiscoveryQuery_Format (fun v '(mkDiscoveryQuery a b _) => mkDiscoveryQuery a b v) ].

#[export] Instance DiscoveryQuery_Message : Message DiscoveryQuery :=
  {| msg_name := "DiscoveryQuery"; msg_empty := mkDiscoveryQuery ""%string [] ""%string; msg_fields := DiscoveryQuery_fields |}.

Definition DiscoveryQuery_Marshal (m : DiscoveryQuery) : outcome (list Z) := Marshal m.
Definition DiscoveryQuery_MarshalTo (m : DiscoveryQuery) : list Z := MarshalTo m.
Definition DiscoveryQuery_Size (m : DiscoveryQuery) : Z := Size m.
Definition DiscoveryQuery_Unmarshal (m : DiscoveryQuery) (data : list Z) : outcome DiscoveryQuery := UnmarshalInto m data.

Record Resolution := mkResolution {
  Resolution_Resolution : Z;
  Resolution_Ttl : Z
}.

Definition Resolution_fields : list (field Resolution) :=
  [ int_field 1 "Resolution" 32 false Resolution_Resolution (fun v '(mkResolution _ b) => mkResolution v b);
    int_field 2 "Ttl" 32 false Resolution_Ttl (fun v '(mkResolution a _) => mkResolution a v) ].

#[export] Instance Resolution_Message : Message Resolution :=
  {| msg_name := "Resolution"; msg_empty := mkResolution 0 0; msg_fields := Resolution_fields |}.

Definition Resolution_Marshal (m : Resolution) : outcome (list Z) := Marshal m.
Definition Resolution_MarshalTo (m : Resolution) : list Z := MarshalTo m.
Definition Resolution_Size (m : Resolution) : Z := Size m.
Definition Resolution_Unmarshal (m : Resolution) (data : list Z) : outcome Resolution := UnmarshalInto m data.

Record DiscoverHost := mkDiscoverHost {
  DiscoverHost_AdvertiseName : string;
  DiscoverHost_AdvertiseUrl : string;
  DiscoverHost_Grpchost : string;
  DiscoverHost_Host : string;
  DiscoverHost_HostApiUrl : string;
  DiscoverHost_StartTime : Z;
  DiscoverHost_Resolutions : list Resolution;
  DiscoverHost_IsApi : bool;
  DiscoverHost_IsWriter : bool;
  DiscoverHost_IsReader : bool;
  DiscoverHost_IsHasher : bool;
  DiscoverHost_IsTCPapi : bool;
  DiscoverHost_IsgRPC : bool;
  DiscoverHost_Tags : list Tag
}.

Definition DiscoverHost_fields : list (field DiscoverHost) :=
  [ string_field 1 "AdvertiseName" DiscoverHost_AdvertiseName (fun v '(mkDiscoverHost _ b c d e f g h i j k l n o) => mkDiscoverHost v b c d e f g h i j k l n o);
    string_field 2 "AdvertiseUrl" DiscoverHost_AdvertiseUrl (fun v '(mkDiscoverHost a _ c d e f g h i j k l n o) => mkDiscoverHost a v c d e f g h i j k l n o);
    string_field 3 "Grpchost" DiscoverHost_Grpchost (fun v '(mkDiscoverHost a b _ d e f g h i j k l n o) => mkDiscoverHost a b v d e f g h i j k l n o);
    string_field 4 "Host" DiscoverHost_Host (fun v '(mkDiscoverHost a b c _ e f g h i j k l n o) => mkDiscoverHost a b c v e f g h i j k l n o);
    string_field 5 "HostApiUrl" DiscoverHost_HostApiUrl (fun v '(mkDiscoverHost a b c d _ f g h i j k l n o) => mkDiscoverHost a b c d v f g h i j k l n o);
    int_field 6 "StartTime" 64 true DiscoverHost_StartTime (fun v '(mkDiscoverHost a b c d e _ g h i j k l n o) => mkDiscoverHost a b c d e v g h i j k l n o);
    repeated_field 7 "Resolutions" DiscoverHost_Resolutions (fun v '(mkDiscoverHost a b c d e f _ h i j k l n o) => mkDiscoverHost a b c d e f v h i j k l n o);
    bool_field 8 "IsApi" DiscoverHost_IsApi (fun v '(mkDiscoverHost a b c d e f g _ i j k l n o) => mkDiscoverHost a b c d e f g v i j k l n o);
    bool_field 9 "IsWriter" DiscoverHost_IsWriter (fun v '(mkDiscoverHost a b c d e f g h _ j k l n o) => mkDiscoverHost a b c d e f g h v j k l n o);
    bool_field 10 "IsReader" DiscoverHost_IsReader (fun v '(mkDiscoverHost a b c d e f g h i _ k l n o) => mkDiscoverHost a b c d e f g h i v k l n o);
    bool_field 11 "IsHasher" DiscoverHost_IsHasher (fun v '(mkDiscoverHost a b c d e f g h i j _ l n o) => mkDiscoverHost a b c d e f g h i j v l n o);
    bool_field 12 "IsTCPapi" DiscoverHost_IsTCPapi (fun v '(mkDiscoverHost a b c d e f g h i j k _ n o) => mkDiscoverHost a b c d e f g h i j k v n o);
    bool_field 13 "IsgRPC" DiscoverHost_IsgRPC (fun v '(mkDiscoverHost a b c d e f g h i j k l _ o) => mkDiscoverHost a b c d e f g h i j k l v o);
    repeated_field 14 "Tags" DiscoverHost_Tags (fun v '(mkDiscoverHost a b c d e f g h i j k l n _) => mkDiscoverHost a b c d e f g h i j k l n v) ].

#[export] Instance DiscoverHost_Message : Message DiscoverHost :=
  {| msg_name := "DiscoverHost"; msg_empty := mkDiscoverHost ""%string ""%string ""%string ""%string ""%string 0 [] false false false false false false []; msg_fields := DiscoverHost_fields |}.

Definition DiscoverHost_Marshal (m : DiscoverHost) : outcome (list Z) := Marshal m.
Definition DiscoverHost_MarshalTo (m : DiscoverHost) : list Z := MarshalTo m.
Definition DiscoverHost_Size (m : DiscoverHost) : Z := Size m.
Definition DiscoverHost_Unmarshal (m : DiscoverHost) (data : list Z) : outcome DiscoverHost := UnmarshalInto m data.

Record DiscoverHosts := mkDiscoverHosts {
  DiscoverHosts_Hosts : list DiscoverHost
}.

Definition DiscoverHosts_fields : list (field DiscoverHosts) :=
  [ repeated_field 1 "Hosts" DiscoverHosts_Hosts (fun v '(mkDiscoverHosts _) => mkDiscoverHosts v) ].

#[export] Instance DiscoverHosts_Message : Message DiscoverHosts :=
  {| msg_name := "DiscoverHosts"; msg_empty := mkDiscoverHosts []; msg_fields := DiscoverHosts_fields |}.

Definition DiscoverHosts_Marshal (m : DiscoverHosts) : outcome (list Z) := Marshal m.
Definition DiscoverHosts_MarshalTo (m : DiscoverHosts) : list Z := MarshalTo m.
Definition DiscoverHosts_Size (m : DiscoverHosts) : Z := Size m.
Definition DiscoverHosts_Unmarshal (m : DiscoverHosts) (data : list Z) : outcome DiscoverHosts := UnmarshalInto m data.
