(* ===== verification/MessagesTheorems.v ===== *)
(** The laws of every message of [Messages] and of [ProtoSeries]: it comes back as it was
    written, its size is the length of its bytes, and reading ends on any
    bytes. *)
From S2P Require Import Prelude Float64 GoStrings GoParse Tags RawData Wire WireTheorems.
From S2P Require Import ProtoSeries ProtoSeriesTheorems Messages.

Open Scope Z_scope.

#[export] Instance Tag_Laws : MessageLaws Tag.
Proof. derive_message Tag_fields. Defined.

#[export] Instance Tag_Moves : MessageMoves Tag.
Proof. derive_moves. Qed.

#[export] Instance NameMessage_Laws : MessageLaws NameMessage.
Proof. derive_message NameMessage_fields. Defined.

#[export] Instance NameMessage_Moves : MessageMoves NameMessage.
Proof. derive_moves. Qed.

#[export] Instance StatMessage_Laws : MessageLaws StatMessage.
Proof. derive_message StatMessage_fields. Defined.

#[export] Instance StatMessage_Moves : MessageMoves StatMessage.
Proof. derive_moves. Qed.

#[export] Instance MetricType_Laws : MessageLaws MetricType.
Proof. derive_message MetricType_fields. Defined.

#[export] Instance MetricType_Moves : MessageMoves MetricType.
Proof. derive_moves. Qed.

#[export] Instance MetricName_Laws : MessageLaws MetricName.
Proof. derive_message MetricName_fields. Defined.

#[export] Instance MetricName_Moves : MessageMoves MetricName.
Proof. derive_moves. Qed.

#[export] Instance MetricValue_Laws : MessageLaws MetricValue.
Proof. derive_message MetricValue_fields. Defined.

#[export] Instance MetricValue_Moves : MessageMoves MetricValue.
Proof. derive_moves. Qed.

#[export] Instance SeriesMetric_Laws : MessageLaws SeriesMetric.
Proof. derive_message SeriesMetric_fields. Defined.

#[export] Instance SeriesMetric_Moves : MessageMoves SeriesMetric.
Proof. derive_moves. Qed.

#[export] Instance UidMetric_Laws : MessageLaws UidMetric.
Proof. derive_message UidMetric_fields. Defined.

#[export] Instance UidMetric_Moves : MessageMoves UidMetric.
Proof. derive_moves. Qed.

#[export] Instance SingleMetric_Laws : MessageLaws SingleMetric.
Proof. derive_message SingleMetric_fields. Defined.

#[export] Instance SingleMetric_Moves : MessageMoves SingleMetric.
Proof. derive_moves. Qed.

#[export] Instance SingleMetricList_Laws : MessageLaws SingleMetricList.
Proof. derive_message SingleMetricList_fields. Defined.

#[export] Instance SingleMetricList_Moves : MessageMoves SingleMetricList.
Proof. derive_moves. Qed.

#[export] Instance UnProcessedMetric_Laws : MessageLaws UnProcessedMetric.
Proof. derive_message UnProcessedMetric_fields. Defined.

#[export] Instance UnProcessedMetric_Moves : MessageMoves UnProcessedMetric.
Proof. derive_moves. Qed.

#[export] Instance UnProcessedMetricList_Laws : MessageLaws UnProcessedMetricList.
Proof. derive_message UnProcessedMetricList_fields. Defined.

#[export] Instance UnProcessedMetricList_Moves : MessageMoves UnProcessedMetricList.
Proof. derive_moves. Qed.

#[export] Instance RawMetric_Laws : MessageLaws RawMetric.
Proof. derive_message RawMetric_fields. Defined.

#[export] Instance RawMetric_Moves : MessageMoves RawMetric.
Proof. derive_moves. Qed.

#[export] Instance RawMetricList_Laws : MessageLaws RawMetricList.
Proof. derive_message RawMetricList_fields. Defined.

#[export] Instance RawMetricList_Moves : MessageMoves RawMetricList.
Proof. derive_moves. Qed.

#[export] Instance MetricWritten_Laws : MessageLaws MetricWritten.
Proof. derive_message MetricWritten_fields. Defined.

#[export] Instance MetricWritten_Moves : MessageMoves MetricWritten.
Proof. derive_moves. Qed.

#[export] Instance AnyMetric_Laws : MessageLaws AnyMetric.
Proof. derive_message AnyMetric_fields. Defined.

#[export] Instance AnyMetric_Moves : MessageMoves AnyMetric.
Proof. derive_moves. Qed.

#[export] Instance AnyMetricList_Laws : MessageLaws AnyMetricList.
Proof. derive_message AnyMetricList_fields. Defined.

#[export] Instance AnyMetricList_Moves : MessageMoves AnyMetricList.
Proof. derive_moves. Qed.

#[export] Instance DataPoint_Laws : MessageLaws DataPoint.
Proof. derive_message DataPoint_fields. Defined.

#[export] Instance DataPoint_Moves : MessageMoves DataPoint.
Proof. derive_moves. Qed.

#[export] Instance DataPoints_Laws : MessageLaws DataPoints.
Proof. derive_message DataPoints_fields. Defined.

#[export] Instance DataPoints_Moves : MessageMoves DataPoints.
Proof. derive_moves. Qed.

#[export] Instance RawDataPoint_Laws : MessageLaws RawDataPoint.
Proof. derive_message RawDataPoint_fields. Defined.

#[export] Instance RawDataPoint_Moves : MessageMoves RawDataPoint.
Proof. derive_moves. Qed.

#[export] Instance RenderItem_Laws : MessageLaws RenderItem.
Proof. derive_message RenderItem_fields. Defined.

#[export] Instance RenderItem_Moves : MessageMoves RenderItem.
Proof. derive_moves. Qed.

#[export] Instance RenderItemList_Laws : MessageLaws RenderItemList.
Proof. derive_message RenderItemList_fields. Defined.

#[export] Instance RenderItemList_Moves : MessageMoves RenderItemList.
Proof. derive_moves. Qed.

#[export] Instance RawRenderItem_Laws : MessageLaws RawRenderItem.
Proof. derive_message RawRenderItem_fields. Defined.

#[export] Instance RawRenderItem_Moves : MessageMoves RawRenderItem.
Proof. derive_moves. Qed.

#[export] Instance RawRenderItemList_Laws : MessageLaws RawRenderItemList.
Proof. derive_message RawRenderItemList_fields. Defined.

#[export] Instance RawRenderItemList_Moves : MessageMoves RawRenderItemList.
Proof. derive_moves. Qed.

#[export] Instance WhisperDataItem_Laws : MessageLaws WhisperDataItem.
Proof. derive_message WhisperDataItem_fields. Defined.

#[export] Instance WhisperDataItem_Moves : MessageMoves WhisperDataItem.
Proof. derive_moves. Qed.

#[export] Instance WhisperDataItemList_Laws : MessageLaws WhisperDataItemList.
Proof. derive_message WhisperDataItemList_fields. Defined.

#[export] Instance WhisperDataItemList_Moves : MessageMoves WhisperDataItemList.
Proof. derive_moves. Qed.

#[export] Instance GraphiteApiItem_Laws : MessageLaws GraphiteApiItem.
Proof. derive_message GraphiteApiItem_fields. Defined.

#[export] Instance GraphiteApiItem_Moves : MessageMoves GraphiteApiItem.
Proof. derive_moves. Qed.

#[export] Instance GraphiteApiItemList_Laws : MessageLaws GraphiteApiItemList.
Proof. derive_message GraphiteApiItemList_fields. Defined.

#[export] Instance GraphiteApiItemList_Moves : MessageMoves GraphiteApiItemList.
Proof. derive_moves. Qed.

#[export] Instance MetricFindItem_Laws : MessageLaws MetricFindItem.
Proof. derive_message MetricFindItem_fields. Defined.

#[export] Instance MetricFindItem_Moves : MessageMoves MetricFindItem.
Proof. derive_moves. Qed.

#[export] Instance MetricFindItemList_Laws : MessageLaws MetricFindItemList.
Proof. derive_message MetricFindItemList_fields. Defined.

#[export] Instance MetricFindItemList_Moves : MessageMoves MetricFindItemList.
Proof. derive_moves. Qed.

#[export] Instance MetricExpandItem_Laws : MessageLaws MetricExpandItem.
Proof. derive_message MetricExpandItem_fields. Defined.

#[export] Instance MetricExpandItem_Moves : MessageMoves MetricExpandItem.
Proof. derive_moves. Qed.

#[export] Instance MetricTagItem_Laws : MessageLaws MetricTagItem.
Proof. derive_message MetricTagItem_fields. Defined.

#[export] Instance MetricTagItem_Moves : MessageMoves MetricTagItem.
Proof. derive_moves. Qed.

#[export] Instance MetricTagItemList_Laws : MessageLaws MetricTagItemList.
Proof. derive_message MetricTagItemList_fields. Defined.

#[export] Instance MetricTagItemList_Moves : MessageMoves MetricTagItemList.
Proof. derive_moves. Qed.

#[export] Instance MetricQuery_Laws : MessageLaws MetricQuery.
Proof. derive_message MetricQuery_fields. Defined.

#[export] Instance MetricQuery_Moves : MessageMoves MetricQuery.
Proof. derive_moves. Qed.

#[export] Instance IndexQuery_Laws : MessageLaws IndexQuery.
Proof. derive_message IndexQuery_fields. Defined.

#[export] Instance IndexQuery_Moves : MessageMoves IndexQuery.
Proof. derive_moves. Qed.

#[export] Instance DiscoveryQuery_Laws : MessageLaws DiscoveryQuery.
Proof. derive_message DiscoveryQuery_fields. Defined.

#[export] Instance DiscoveryQuery_Moves : MessageMoves DiscoveryQuery.
Proof. derive_moves. Qed.

#[export] Instance Resolution_Laws : MessageLaws Resolution.
Proof. derive_message Resolution_fields. Defined.

#[export] Instance Resolution_Moves : MessageMoves Resolution.
Proof. derive_moves. Qed.

#[export] Instance DiscoverHost_Laws : MessageLaws DiscoverHost.
Proof. derive_message DiscoverHost_fields. Defined.

#[export] Instance DiscoverHost_Moves : MessageMoves DiscoverHost.
Proof. derive_moves. Qed.

#[export] Instance DiscoverHosts_Laws : MessageLaws DiscoverHosts.
Proof. derive_message DiscoverHosts_fields. Defined.

#[export] Instance DiscoverHosts_Moves : MessageMoves DiscoverHosts.
Proof. derive_moves. Qed.

(** ** All of them *)

(** A type of messages with its laws. *)
Record schema_message := SchemaMessage {
  sm_type : Type;
  sm_Message :: Message sm_type;
  sm_Laws :: MessageLaws sm_type;
  sm_Moves :: MessageMoves sm_type
}.

Arguments SchemaMessage sm_type {_ _ _}.

Definition schema : list schema_message :=
  [ SchemaMessage Tag; SchemaMessage NameMessage; SchemaMessage StatMessage; SchemaMessage MetricType;
    SchemaMessage MetricName; SchemaMessage MetricValue; SchemaMessage SeriesMetric; SchemaMessage UidMetric;
    SchemaMessage SingleMetric; SchemaMessage SingleMetricList; SchemaMessage UnProcessedMetric; SchemaMessage UnProcessedMetricList;
    SchemaMessage RawMetric; SchemaMessage RawMetricList; SchemaMessage MetricWritten; SchemaMessage AnyMetric;
    SchemaMessage AnyMetricList; SchemaMessage DataPoint; SchemaMessage DataPoints; SchemaMessage RawDataPoint;
    SchemaMessage RenderItem; SchemaMessage RenderItemList; SchemaMessage RawRenderItem; SchemaMessage RawRenderItemList;
    SchemaMessage WhisperDataItem; SchemaMessage WhisperDataItemList; SchemaMessage GraphiteApiItem; SchemaMessage GraphiteApiItemList;
    SchemaMessage MetricFindItem; SchemaMessage MetricFindItemList; SchemaMessage MetricExpandItem; SchemaMessage MetricTagItem;
    SchemaMessage MetricTagItemList; SchemaMessage MetricQuery; SchemaMessage IndexQuery; SchemaMessage DiscoveryQuery;
    SchemaMessage Resolution; SchemaMessage DiscoverHost; SchemaMessage DiscoverHosts; SchemaMessage ProtStatFull;
    SchemaMessage ProtStatSmall; SchemaMessage ProtStat; SchemaMessage ProtStats ].

(** C17: Every message of the schema comes back as it was written.  A
    message whose values fit their types and whose lengths fit into memory
    is marshalled without error into as many bytes as its size says; these
    bytes unmarshal to the message, but for the sign of zeros; and read into
    a message that is already filled they are merged into it: what is set
    replaces, lists are appended, and what is at its zero value leaves the
    old value in place. *)
Theorem schema_roundtrip :
  Forall (fun t => forall m acc : sm_type t, ml_ok m -> small_len (Size m) ->
    exists bs, Marshal m = Ok bs /\ len bs = Size m /\ Unmarshal bs = Ok (ml_norm m) /\
      UnmarshalInto acc bs = Ok (ml_merge m acc)) schema.
Proof.
  apply Forall_forall. intros t _ m acc Hok Hs. exists (MarshalTo m).
  split_and!; [by apply Marshal_ok|by rewrite Size_MarshalTo|by apply Unmarshal_MarshalTo|by apply UnmarshalInto_merges].
Qed.

(** Unmarshalling ends.  Whatever bytes a message of the schema is read
    from, and into whatever message, the generated loops stop, with a
    message, an error or a panic, after at most as many rounds as there are
    bytes. *)
Theorem schema_reading_ends :
  Forall (fun t => forall (acc : sm_type t) (data : list Z), small_len (len data) ->
    UnmarshalInto acc data <> NoFuel) schema.
Proof.
  apply Forall_forall. intros t _ acc data Hs E. pose proof (UnmarshalInto_settles acc data Hs) as Hset. by rewrite E in Hset.
Qed.

(** What the laws say of one of the messages. *)
Lemma SingleMetric_ok_iff (m : SingleMetric) :
  ml_ok m <->
  in_width 64 (SingleMetric_Id m) /\ small_len (len (string_bytes (SingleMetric_Uid m))) /\
  - 2 ^ 63 <= SingleMetric_Time m < 2 ^ 63 /\ small_len (len (string_bytes (SingleMetric_Metric m))) /\
  in_width 64 (SingleMetric_Min m) /\ in_width 64 (SingleMetric_Max m) /\ in_width 64 (SingleMetric_Last m) /\
  in_width 64 (SingleMetric_Sum m) /\ - 2 ^ 63 <= SingleMetric_Count m < 2 ^ 63 /\
  in_width 32 (SingleMetric_Resolution m) /\ in_width 32 (SingleMetric_Ttl m) /\
  Forall nested_ok (SingleMetric_Tags m) /\ Forall nested_ok (SingleMetric_MetaTags m) /\
  - 2 ^ 63 <= SingleMetric_SentTime m < 2 ^ 63.
Proof. cbn. unfold int_range. tauto. Qed.

Lemma Tag_norm (t : Tag) : ml_norm t = t.
Proof. by destruct t. Qed.

Lemma SingleMetric_norm (m : SingleMetric) :
  ml_norm m = mkSingleMetric (SingleMetric_Id m) (SingleMetric_Uid m) (SingleMetric_Time m) (SingleMetric_Metric m)
    (unsigned_zero (SingleMetric_Min m)) (unsigned_zero (SingleMetric_Max m)) (unsigned_zero (SingleMetric_Last m))
    (unsigned_zero (SingleMetric_Sum m)) (SingleMetric_Count m) (SingleMetric_Resolution m) (SingleMetric_Ttl m)
    (SingleMetric_Tags m) (SingleMetric_MetaTags m) (SingleMetric_SentTime m).
Proof.
  destruct m. cbn. assert (Hid : forall l : list Tag, map ml_norm l = l).
  { intros l. induction l as [|t l IH]; [done|]. cbn [map]. by rewrite IH, Tag_norm. }
  by rewrite !Hid.
Qed.
