(* ===== verification/Kafka.v ===== *)
(** [schemas/series/series_kafka.go] and [schemas/series/encoding.go]: the
    envelopes in which metrics travel between servers.  An envelope holds a
    message, the encoding it is sent in, and the bytes once they have been
    made, which are kept; the objects come from pools.

    The eleven kinds of envelopes have the same methods for their messages,
    so these are one definition here, [KMessage], used at eleven types.  The
    JSON and MessagePack encoders are arguments, as they are methods of the
    messages; the protobuf one is that of [Wire].  A panic of an encoder is
    recovered and becomes the error.  A nil receiver is not modelled.

    What is sent in an envelope is what is received, when the object that
    receives it is new; an object from a pool mixes the message with the one
    it held before. *)
From S2P Require Import Prelude Float64 GoStrings GoParse Tags Repr Wire WireTheorems Messages MessagesTheorems.

Open Scope Z_scope.

(** ** Encodings and kinds *)

Inductive SendEncoding := ENCODE_JSON | ENCODE_MSGP | ENCODE_PROTOBUF.

#[export] Instance SendEncoding_eq_dec : EqDecision SendEncoding.
Proof. solve_decision. Defined.

Definition SendEncodingFromString (enc : string) : SendEncoding :=
  if bool_decide (enc = "json"%string) then ENCODE_JSON
  else if bool_decide (enc = "protobuf"%string) then ENCODE_PROTOBUF else ENCODE_MSGP.

Inductive MessageType :=
| MSG_SERIES | MSG_SINGLE | MSG_UNPROCESSED | MSG_UID | MSG_RAW | MSG_ANY | MSG_WRITTEN | MSG_SINGLE_LIST
| MSG_UNPROCESSED_LIST | MSG_RAW_LIST | MSG_ANY_LIST.

Definition metric_types : list (string * MessageType) :=
  [("series", MSG_SERIES); ("unprocessed", MSG_UNPROCESSED); ("uid", MSG_UID); ("raw", MSG_RAW); ("single", MSG_SINGLE);
   ("any", MSG_ANY); ("all", MSG_ANY); ("written", MSG_WRITTEN); ("single_list", MSG_SINGLE_LIST);
   ("unprocessed_list", MSG_UNPROCESSED_LIST); ("raw_list", MSG_RAW_LIST); ("all_list", MSG_ANY_LIST);
   ("any_list", MSG_ANY_LIST)]%string.

Definition MetricTypeFromString (enc : string) : MessageType :=
  match list_find (fun p => p.1 = enc) metric_types with Some (_, p) => p.2 | None => MSG_SINGLE end.

(** ** Envelopes *)

(** The encoders and decoders of other formats; a decoder changes the
    message it is given also when it fails. *)
Class OtherCodecs (M : Type) := {
  json_Marshal : M -> outcome (list Z);
  json_Unmarshal : M -> list Z -> option goerror * M;
  MarshalMsg : M -> outcome (list Z);
  UnmarshalMsg : M -> list Z -> option goerror * M
}.

Record KMessage (M : Type) := mkK {
  k_msg : M;
  encodetype : SendEncoding;
  encoded : option (list Z);
  k_err : option goerror
}.
Arguments mkK {M}.
Arguments k_msg {M}.
Arguments encodetype {M}.
Arguments encoded {M}.
Arguments k_err {M}.

Section envelope.
Context {M : Type} `{!Message M} `{!OtherCodecs M}.

Definition new_K : KMessage M := mkK msg_empty ENCODE_JSON None None.

Definition SetSendEncoding (kp : KMessage M) (enc : SendEncoding) : KMessage M :=
  if bool_decide (encodetype kp = enc) then kp else mkK (k_msg kp) enc None None.

Definition errRecovered : goerror := GoError "runtime error".

(** Bytes that were made stay; so does an error. *)
Definition ensureEncoded (kp : KMessage M) : KMessage M :=
  match encoded kp, k_err kp with
  | None, None =>
      let out := match encodetype kp with
                 | ENCODE_MSGP => MarshalMsg (k_msg kp)
                 | ENCODE_PROTOBUF => Marshal (k_msg kp)
                 | ENCODE_JSON => json_Marshal (k_msg kp)
                 end in
      match out with
      | Ok bs => mkK (k_msg kp) (encodetype kp) (Some bs) None
      | Err err => mkK (k_msg kp) (encodetype kp) None (Some err)
      | _ => mkK (k_msg kp) (encodetype kp) None (Some errRecovered)
      end
  | _, _ => kp
  end.

Definition Length (kp : KMessage M) : Z * KMessage M :=
  let kp := ensureEncoded kp in (len (default [] (encoded kp)), kp).

Definition Encode (kp : KMessage M) : option (list Z) * option goerror * KMessage M :=
  let kp := ensureEncoded kp in (encoded kp, k_err kp, kp).

(** The message is read into the one the envelope holds; the bytes made
    before stay.  [part] is what the message holds when the protobuf decoder
    fails in its middle.  [None] is a panic of that decoder, which nothing
    recovers. *)
Definition Decode (kp : KMessage M) (b : list Z) (part : M) : option (option goerror * KMessage M) :=
  let keep m := mkK m (encodetype kp) (encoded kp) (k_err kp) in
  match encodetype kp with
  | ENCODE_MSGP => let '(err, m) := UnmarshalMsg (k_msg kp) b in Some (err, keep m)
  | ENCODE_JSON => let '(err, m) := json_Unmarshal (k_msg kp) b in Some (err, keep m)
  | ENCODE_PROTOBUF =>
      match UnmarshalInto (k_msg kp) b with
      | Ok m => Some (None, keep m)
      | Err err => Some (Some err, keep part)
      | _ => None
      end
  end.

(** ** Pools *)

(** Which object of the pool is taken is up to it; out of range, a new one
    is made.  Only the bytes and the error are reset. *)
Definition get_pool (pool : list (KMessage M)) (pick : nat) : KMessage M * list (KMessage M) :=
  match pool !! pick with
  | None => (new_K, pool)
  | Some kp => (mkK (k_msg kp) (encodetype kp) None None, delete pick pool)
  end.

(** The bytes of a series are reset to an empty slice, which is not nil. *)
Definition get_pool_series (pool : list (KMessage M)) (pick : nat) : KMessage M * list (KMessage M) :=
  match pool !! pick with
  | None => (new_K, pool)
  | Some kp => (mkK (k_msg kp) (encodetype kp) (Some []) None, delete pick pool)
  end.

Definition put_pool (pool : list (KMessage M)) (kp : KMessage M) : list (KMessage M) := kp :: pool.

End envelope.

(** ** The statistics in the envelopes *)

Definition plain_name (key : string) (tags meta : list Tag) (resolution ttl : Z) : StatName :=
  mkName key 0 "" resolution ttl TAG_METRICS2 HASH_FNV tags meta.

Definition raw_Repr (check : float64 -> float64) (m : RawMetric) : StatRepr :=
  mkRepr (Some (plain_name (RawMetric_Metric m) (RawMetric_Tags m) (RawMetric_MetaTags m) 0 0)) (RawMetric_Time m)
    0 0 0 (check (RawMetric_Value m)) 1.

Definition unprocessed_Repr (m : UnProcessedMetric) : StatRepr :=
  mkRepr (Some (plain_name (UnProcessedMetric_Metric m) (UnProcessedMetric_Tags m) (UnProcessedMetric_MetaTags m) 0 0))
    (UnProcessedMetric_Time m) (CheckFloat (UnProcessedMetric_Min m)) (CheckFloat (UnProcessedMetric_Max m))
    (CheckFloat (UnProcessedMetric_Last m)) (CheckFloat (UnProcessedMetric_Sum m)) (UnProcessedMetric_Count m).

Definition uid_Repr (m : UidMetric) : StatRepr :=
  mkRepr (Some (SetUidString (plain_name "" [] [] 0 0) (UidMetric_Uid m)))
    (UidMetric_Time m) (CheckFloat (UidMetric_Min m)) (CheckFloat (UidMetric_Max m))
    (CheckFloat (UidMetric_Last m)) (CheckFloat (UidMetric_Sum m)) (UidMetric_Count m).

Definition single_Repr (m : SingleMetric) : StatRepr :=
  mkRepr (Some (plain_name (SingleMetric_Metric m) (SingleMetric_Tags m) (SingleMetric_MetaTags m)
                  (SingleMetric_Resolution m) (SingleMetric_Ttl m)))
    (SingleMetric_Time m) (CheckFloat (SingleMetric_Min m)) (CheckFloat (SingleMetric_Max m))
    (CheckFloat (SingleMetric_Last m)) (CheckFloat (SingleMetric_Sum m)) (SingleMetric_Count m).

Definition KSingleMetric_Repr (kp : KMessage SingleMetric) : StatRepr := single_Repr (k_msg kp).
Definition KUidMetric_Repr (kp : KMessage UidMetric) : StatRepr := uid_Repr (k_msg kp).
Definition KUnProcessedMetric_Repr (kp : KMessage UnProcessedMetric) : StatRepr := unprocessed_Repr (k_msg kp).
Definition KRawMetric_Repr (kp : KMessage RawMetric) : StatRepr := raw_Repr CheckFloat (k_msg kp).
Definition KWrittenMessage_Repr (kp : KMessage MetricWritten) : option StatRepr := None.

Definition KSeriesMetric_Id (kp : KMessage SeriesMetric) : string := SeriesMetric_Uid (k_msg kp).
Definition KSingleMetric_Id (kp : KMessage SingleMetric) : string := SingleMetric_Uid (k_msg kp).
Definition KUidMetric_Id (kp : KMessage UidMetric) : string := UidMetric_Uid (k_msg kp).
Definition KUnProcessedMetric_Id (kp : KMessage UnProcessedMetric) : string := UnProcessedMetric_Metric (k_msg kp).
Definition KRawMetric_Id (kp : KMessage RawMetric) : string := RawMetric_Metric (k_msg kp).
Definition KWrittenMessage_Id (kp : KMessage MetricWritten) : string := MetricWritten_Uid (k_msg kp).

(** The envelope of any metric: the first part that is there counts.  A raw
    value is not checked. *)
Definition KMetric_Repr (kp : KMessage AnyMetric) : option StatRepr :=
  match AnyMetric_Raw (k_msg kp), AnyMetric_Unprocessed (k_msg kp), AnyMetric_UidMetric (k_msg kp),
        AnyMetric_Single (k_msg kp) with
  | Some m, _, _, _ => Some (raw_Repr id m)
  | None, Some m, _, _ => Some (unprocessed_Repr m)
  | None, None, Some m, _ => Some (uid_Repr m)
  | None, None, None, Some m => Some (single_Repr m)
  | None, None, None, None => None
  end.

(** Without and with the series before the metrics with a unique id. *)
Definition KMetric_Id (kp : KMessage AnyMetric) : string :=
  let m := k_msg kp in
  match AnyMetric_Raw m, AnyMetric_Unprocessed m, AnyMetric_Single m, AnyMetric_UidMetric m, AnyMetric_Series m,
        AnyMetric_Written m with
  | Some x, _, _, _, _, _ => RawMetric_Metric x
  | _, Some x, _, _, _, _ => UnProcessedMetric_Metric x
  | _, _, Some x, _, _, _ => SingleMetric_Uid x
  | _, _, _, Some x, _, _ => UidMetric_Uid x
  | _, _, _, _, Some x, _ => SeriesMetric_Uid x
  | _, _, _, _, _, Some x => MetricWritten_Uid x
  | _, _, _, _, _, _ => ""
  end.

Definition KMetric_HashKey (kp : KMessage AnyMetric) : string :=
  let m := k_msg kp in
  match AnyMetric_Raw m, AnyMetric_Unprocessed m, AnyMetric_Single m, AnyMetric_Series m, AnyMetric_UidMetric m,
        AnyMetric_Written m with
  | Some x, _, _, _, _, _ => RawMetric_Metric x
  | _, Some x, _, _, _, _ => UnProcessedMetric_Metric x
  | _, _, Some x, _, _, _ => SingleMetric_Uid x
  | _, _, _, Some x, _, _ => SeriesMetric_Uid x
  | _, _, _, _, Some x, _ => UidMetric_Uid x
  | _, _, _, _, _, Some x => MetricWritten_Uid x
  | _, _, _, _, _, _ => ""
  end.

(** The lists: the first kind that is there counts.  An empty list that was
    read is nil. *)
Definition KMetricList_Ids (kp : KMessage AnyMetricList) : list string :=
  match AnyMetricList_Raw (k_msg kp), AnyMetricList_Unprocessed (k_msg kp), AnyMetricList_Single (k_msg kp) with
  | (_ :: _) as l, _, _ => map RawMetric_Metric l
  | [], (_ :: _) as l, _ => map UnProcessedMetric_Metric l
  | [], [], l => map SingleMetric_Uid l
  end.

Definition KMetricList_Reprs (kp : KMessage AnyMetricList) : list StatRepr :=
  match AnyMetricList_Raw (k_msg kp), AnyMetricList_Unprocessed (k_msg kp), AnyMetricList_Single (k_msg kp) with
  | (_ :: _) as l, _, _ => map (raw_Repr id) l
  | [], (_ :: _) as l, _ => map unprocessed_Repr l
  | [], [], l => map single_Repr l
  end.

Definition KSingleMetricList_Ids (kp : KMessage SingleMetricList) : list string :=
  map SingleMetric_Metric (SingleMetricList_List (k_msg kp)).
Definition KSingleMetricList_Reprs (kp : KMessage SingleMetricList) : list StatRepr :=
  map single_Repr (SingleMetricList_List (k_msg kp)).
Definition KRawMetricList_Ids (kp : KMessage RawMetricList) : list string :=
  map RawMetric_Metric (RawMetricList_List (k_msg kp)).
Definition KRawMetricList_Reprs (kp : KMessage RawMetricList) : list StatRepr :=
  map (raw_Repr CheckFloat) (RawMetricList_List (k_msg kp)).
Definition KUnProcessedMetricList_Ids (kp : KMessage UnProcessedMetricList) : list string :=
  map UnProcessedMetric_Metric (UnProcessedMetricList_List (k_msg kp)).
Definition KUnProcessedMetricList_Reprs (kp : KMessage UnProcessedMetricList) : list StatRepr :=
  map unprocessed_Repr (UnProcessedMetricList_List (k_msg kp)).

(** ** The methods of each kind of envelope *)

Definition KMetric_SetSendEncoding (kp : KMessage AnyMetric) (enc : SendEncoding) : KMessage AnyMetric := SetSendEncoding kp enc.
Definition KMetric_ensureEncoded `{!OtherCodecs AnyMetric} (kp : KMessage AnyMetric) : KMessage AnyMetric := ensureEncoded kp.
Definition KMetric_Length `{!OtherCodecs AnyMetric} (kp : KMessage AnyMetric) : Z * KMessage AnyMetric := Length kp.
Definition KMetric_Encode `{!OtherCodecs AnyMetric} (kp : KMessage AnyMetric) : option (list Z) * option goerror * KMessage AnyMetric := Encode kp.
Definition KMetric_Decode `{!OtherCodecs AnyMetric} (kp : KMessage AnyMetric) (b : list Z) (part : AnyMetric)
  : option (option goerror * KMessage AnyMetric) := Decode kp b part.

Definition KSeriesMetric_SetSendEncoding (kp : KMessage SeriesMetric) (enc : SendEncoding) : KMessage SeriesMetric := SetSendEncoding kp enc.
Definition KSeriesMetric_ensureEncoded `{!OtherCodecs SeriesMetric} (kp : KMessage SeriesMetric) : KMessage SeriesMetric := ensureEncoded kp.
Definition KSeriesMetric_Length `{!OtherCodecs SeriesMetric} (kp : KMessage SeriesMetric) : Z * KMessage SeriesMetric := Length kp.
Definition KSeriesMetric_Encode `{!OtherCodecs SeriesMetric} (kp : KMessage SeriesMetric) : option (list Z) * option goerror * KMessage SeriesMetric := Encode kp.
Definition KSeriesMetric_Decode `{!OtherCodecs SeriesMetric} (kp : KMessage SeriesMetric) (b : list Z) (part : SeriesMetric)
  : option (option goerror * KMessage SeriesMetric) := Decode kp b part.

Definition KSingleMetric_SetSendEncoding (kp : KMessage SingleMetric) (enc : SendEncoding) : KMessage SingleMetric := SetSendEncoding kp enc.
Definition KSingleMetric_ensureEncoded `{!OtherCodecs SingleMetric} (kp : KMessage SingleMetric) : KMessage SingleMetric := ensureEncoded kp.
Definition KSingleMetric_Length `{!OtherCodecs SingleMetric} (kp : KMessage SingleMetric) : Z * KMessage SingleMetric := Length kp.
Definition KSingleMetric_Encode `{!OtherCodecs SingleMetric} (kp : KMessage SingleMetric) : option (list Z) * option goerror * KMessage SingleMetric := Encode kp.
Definition KSingleMetric_Decode `{!OtherCodecs SingleMetric} (kp : KMessage SingleMetric) (b : list Z) (part : SingleMetric)
  : option (option goerror * KMessage SingleMetric) := Decode kp b part.

Definition KUidMetric_SetSendEncoding (kp : KMessage UidMetric) (enc : SendEncoding) : KMessage UidMetric := SetSendEncoding kp enc.
Definition KUidMetric_ensureEncoded `{!OtherCodecs UidMetric} (kp : KMessage UidMetric) : KMessage UidMetric := ensureEncoded kp.
Definition KUidMetric_Length `{!OtherCodecs UidMetric} (kp : KMessage UidMetric) : Z * KMessage UidMetric := Length kp.
Definition KUidMetric_Encode `{!OtherCodecs UidMetric} (kp : KMessage UidMetric) : option (list Z) * option goerror * KMessage UidMetric := Encode kp.
Definition KUidMetric_Decode `{!OtherCodecs UidMetric} (kp : KMessage UidMetric) (b : list Z) (part : UidMetric)
  : option (option goerror * KMessage UidMetric) := Decode kp b part.

Definition KUnProcessedMetric_SetSendEncoding (kp : KMessage UnProcessedMetric) (enc : SendEncoding) : KMessage UnProcessedMetric := SetSendEncoding kp enc.
Definition KUnProcessedMetric_ensureEncoded `{!OtherCodecs UnProcessedMetric} (kp : KMessage UnProcessedMetric) : KMessage UnProcessedMetric := ensureEncoded kp.
Definition KUnProcessedMetric_Length `{!OtherCodecs UnProcessedMetric} (kp : KMessage UnProcessedMetric) : Z * KMessage UnProcessedMetric := Length kp.
Definition KUnProcessedMetric_Encode `{!OtherCodecs UnProcessedMetric} (kp : KMessage UnProcessedMetric) : option (list Z) * option goerror * KMessage UnProcessedMetric := Encode kp.
Definition KUnProcessedMetric_Decode `{!OtherCodecs UnProcessedMetric} (kp : KMessage UnProcessedMetric) (b : list Z) (part : UnProcessedMetric)
  : option (option goerror * KMessage UnProcessedMetric) := Decode kp b part.

Definition KRawMetric_SetSendEncoding (kp : KMessage RawMetric) (enc : SendEncoding) : KMessage RawMetric := SetSendEncoding kp enc.
Definition KRawMetric_ensureEncoded `{!OtherCodecs RawMetric} (kp : KMessage RawMetric) : KMessage RawMetric := ensureEncoded kp.
Definition KRawMetric_Length `{!OtherCodecs RawMetric} (kp : KMessage RawMetric) : Z * KMessage RawMetric := Length kp.
Definition KRawMetric_Encode `{!OtherCodecs RawMetric} (kp : KMessage RawMetric) : option (list Z) * option goerror * KMessage RawMetric := Encode kp.
Definition KRawMetric_Decode `{!OtherCodecs RawMetric} (kp : KMessage RawMetric) (b : list Z) (part : RawMetric)
  : option (option goerror * KMessage RawMetric) := Decode kp b part.

Definition KWrittenMessage_SetSendEncoding (kp : KMessage MetricWritten) (enc : SendEncoding) : KMessage MetricWritten := SetSendEncoding kp enc.
Definition KWrittenMessage_ensureEncoded `{!OtherCodecs MetricWritten} (kp : KMessage MetricWritten) : KMessage MetricWritten := ensureEncoded kp.
Definition KWrittenMessage_Length `{!OtherCodecs MetricWritten} (kp : KMessage MetricWritten) : Z * KMessage MetricWritten := Length kp.
Definition KWrittenMessage_Encode `{!OtherCodecs MetricWritten} (kp : KMessage MetricWritten) : option (list Z) * option goerror * KMessage MetricWritten := Encode kp.
Definition KWrittenMessage_Decode `{!OtherCodecs MetricWritten} (kp : KMessage MetricWritten) (b : list Z) (part : MetricWritten)
  : option (option goerror * KMessage MetricWritten) := Decode kp b part.

Definition KMetricList_SetSendEncoding (kp : KMessage AnyMetricList) (enc : SendEncoding) : KMessage AnyMetricList := SetSendEncoding kp enc.
Definition KMetricList_ensureEncoded `{!OtherCodecs AnyMetricList} (kp : KMessage AnyMetricList) : KMessage AnyMetricList := ensureEncoded kp.
Definition KMetricList_Length `{!OtherCodecs AnyMetricList} (kp : KMessage AnyMetricList) : Z * KMessage AnyMetricList := Length kp.
Definition KMetricList_Encode `{!OtherCodecs AnyMetricList} (kp : KMessage AnyMetricList) : option (list Z) * option goerror * KMessage AnyMetricList := Encode kp.
Definition KMetricList_Decode `{!OtherCodecs AnyMetricList} (kp : KMessage AnyMetricList) (b : list Z) (part : AnyMetricList)
  : option (option goerror * KMessage AnyMetricList) := Decode kp b part.

Definition KSingleMetricList_SetSendEncoding (kp : KMessage SingleMetricList) (enc : SendEncoding) : KMessage SingleMetricList := SetSendEncoding kp enc.
Definition KSingleMetricList_ensureEncoded `{!OtherCodecs SingleMetricList} (kp : KMessage SingleMetricList) : KMessage SingleMetricList := ensureEncoded kp.
Definition KSingleMetricList_Length `{!OtherCodecs SingleMetricList} (kp : KMessage SingleMetricList) : Z * KMessage SingleMetricList := Length kp.
Definition KSingleMetricList_Encode `{!OtherCodecs SingleMetricList} (kp : KMessage SingleMetricList) : option (list Z) * option goerror * KMessage SingleMetricList := Encode kp.
Definition KSingleMetricList_Decode `{!OtherCodecs SingleMetricList} (kp : KMessage SingleMetricList) (b : list Z) (part : SingleMetricList)
  : option (option goerror * KMessage SingleMetricList) := Decode kp b part.

Definition KRawMetricList_SetSendEncoding (kp : KMessage RawMetricList) (enc : SendEncoding) : KMessage RawMetricList := SetSendEncoding kp enc.
Definition KRawMetricList_ensureEncoded `{!OtherCodecs RawMetricList} (kp : KMessage RawMetricList) : KMessage RawMetricList := ensureEncoded kp.
Definition KRawMetricList_Length `{!OtherCodecs RawMetricList} (kp : KMessage RawMetricList) : Z * KMessage RawMetricList := Length kp.
Definition KRawMetricList_Encode `{!OtherCodecs RawMetricList} (kp : KMessage RawMetricList) : option (list Z) * option goerror * KMessage RawMetricList := Encode kp.
Definition KRawMetricList_Decode `{!OtherCodecs RawMetricList} (kp : KMessage RawMetricList) (b : list Z) (part : RawMetricList)
  : option (option goerror * KMessage RawMetricList) := Decode kp b part.

Definition KUnProcessedMetricList_SetSendEncoding (kp : KMessage UnProcessedMetricList) (enc : SendEncoding) : KMessage UnProcessedMetricList := SetSendEncoding kp enc.
Definition KUnProcessedMetricList_ensureEncoded `{!OtherCodecs UnProcessedMetricList} (kp : KMessage UnProcessedMetricList) : KMessage UnProcessedMetricList := ensureEncoded kp.
Definition KUnProcessedMetricList_Length `{!OtherCodecs UnProcessedMetricList} (kp : KMessage UnProcessedMetricList) : Z * KMessage UnProcessedMetricList := Length kp.
Definition KUnProcessedMetricList_Encode `{!OtherCodecs UnProcessedMetricList} (kp : KMessage UnProcessedMetricList) : option (list Z) * option goerror * KMessage UnProcessedMetricList := Encode kp.
Definition KUnProcessedMetricList_Decode `{!OtherCodecs UnProcessedMetricList} (kp : KMessage UnProcessedMetricList) (b : list Z) (part : UnProcessedMetricList)
  : option (option goerror * KMessage UnProcessedMetricList) := Decode kp b part.

(** ** The pools of each kind *)

Definition getSeries (pool : list (KMessage SeriesMetric)) (pick : nat) := get_pool_series pool pick.
Definition getUnp (pool : list (KMessage UnProcessedMetric)) (pick : nat) := get_pool pool pick.
Definition getRaw (pool : list (KMessage RawMetric)) (pick : nat) := get_pool pool pick.
Definition getSing (pool : list (KMessage SingleMetric)) (pick : nat) := get_pool pool pick.
Definition getAny (pool : list (KMessage AnyMetric)) (pick : nat) := get_pool pool pick.

(** Some of the fields are reset too. *)
Definition getWritten (pool : list (KMessage MetricWritten)) (pick : nat) : KMessage MetricWritten * list (KMessage MetricWritten) :=
  match pool !! pick with
  | None => (new_K, pool)
  | Some kp =>
      let m := k_msg kp in
      (mkK (mkMetricWritten (MetricWritten_Id m) "" "" (MetricWritten_StartTime m) (MetricWritten_EndTime m)
              (MetricWritten_WriteTime m) 0 0 "" (MetricWritten_Resolution m) (MetricWritten_Ttl m) (MetricWritten_Tags m)
              (MetricWritten_MetaTags m) (MetricWritten_SentTime m)) (encodetype kp) None None, delete pick pool)
  end.

(** ** Theorems *)

Section envelope.
Context {M : Type} `{!Message M} {ML : MessageLaws M} `{!OtherCodecs M}.

Definition message_ok (m : M) : Prop := ml_ok m /\ small_len (Size m).

(** Encoded, and read into an object that holds [m0]. *)
Lemma envelope_merges (m m0 part : M) (enc0 : SendEncoding) (old : option (list Z)) (err : option goerror) :
  message_ok m ->
  let sent := SetSendEncoding (mkK m enc0 None None) ENCODE_PROTOBUF in
  exists bs, Encode sent = (Some bs, None, mkK m ENCODE_PROTOBUF (Some bs) None) /\ (Length sent).1 = Size m /\
    Decode (mkK m0 ENCODE_PROTOBUF old err) bs part = Some (None, mkK (ml_merge m m0) ENCODE_PROTOBUF old err).
Proof.
  intros [Hok Hs]. cbn zeta. exists (MarshalTo m).
  assert (Hset : SetSendEncoding (mkK m enc0 None None) ENCODE_PROTOBUF = mkK m ENCODE_PROTOBUF None None).
  { unfold SetSendEncoding. case_bool_decide as E; [|done]. cbn in E. by rewrite E. }
  rewrite Hset. unfold Encode, Length, Decode, ensureEncoded. cbn [encoded k_err encodetype k_msg].
  rewrite Marshal_ok by done. cbn [encoded k_err encodetype k_msg default from_option fst].
  rewrite UnmarshalInto_merges by done. by rewrite Size_MarshalTo.
Qed.

End envelope.

(** ** Statistics *)

Definition unsigned_stat (s : StatRepr) : StatRepr :=
  mkRepr (r_Name s) (Time s) (unsigned_zero (Min s)) (unsigned_zero (Max s)) (unsigned_zero (Last s)) (unsigned_zero (Sum s)) (Count s).

Lemma CheckFloat_unsigned (x : float64) : CheckFloat (unsigned_zero x) = unsigned_zero (CheckFloat x).
Proof.
  unfold unsigned_zero. destruct (feq x 0) eqn:E.
  - unfold CheckFloat. change (if IsNaN 0 || IsInf 0 || feq 0 MinInt64 then 0 else 0) with 0.
    destruct (IsNaN x || IsInf x || feq x MinInt64); [done|]. by rewrite E.
  - unfold CheckFloat. destruct (IsNaN x || IsInf x || feq x MinInt64); [done|]. by rewrite E.
Qed.

Lemma tags_norm (l : list Tag) : map ml_norm l = l.
Proof. induction l as [|t l IH]; [done|]. cbn [map]. by rewrite IH, Tag_norm. Qed.

Lemma raw_norm (m : RawMetric) : raw_Repr id (ml_norm m) = unsigned_stat (raw_Repr id m).
Proof. destruct m. unfold raw_Repr, unsigned_stat. cbn. by rewrite !tags_norm. Qed.

Lemma unprocessed_norm (m : UnProcessedMetric) : unprocessed_Repr (ml_norm m) = unsigned_stat (unprocessed_Repr m).
Proof. destruct m. unfold unprocessed_Repr, unsigned_stat. cbn -[CheckFloat unsigned_zero]. by rewrite !tags_norm, !CheckFloat_unsigned. Qed.

Lemma single_norm (m : SingleMetric) : single_Repr (ml_norm m) = unsigned_stat (single_Repr m).
Proof. destruct m. unfold single_Repr, unsigned_stat. cbn -[CheckFloat unsigned_zero]. by rewrite !tags_norm, !CheckFloat_unsigned. Qed.

Lemma map_norm {A} `{!Message A} {AL : MessageLaws A} (f : A -> StatRepr) (l : list A) :
  (forall m, f (ml_norm m) = unsigned_stat (f m)) -> map f (map ml_norm l) = map unsigned_stat (map f l).
Proof. intros Hf. rewrite !map_map. by apply map_ext. Qed.

Lemma list_Reprs_norm (m : AnyMetricList) (e1 e2 : SendEncoding) (b1 b2 : option (list Z)) (r1 r2 : option goerror) :
  KMetricList_Reprs (mkK (ml_norm m) e1 b1 r1) = map unsigned_stat (KMetricList_Reprs (mkK m e2 b2 r2)).
Proof.
  destruct m as [raw unp sing ser uid wr]. unfold KMetricList_Reprs. cbn [k_msg AnyMetricList_Raw AnyMetricList_Unprocessed AnyMetricList_Single].
  change (AnyMetricList_Raw (ml_norm _)) with (map ml_norm raw). change (AnyMetricList_Unprocessed (ml_norm _)) with (map ml_norm unp).
  change (AnyMetricList_Single (ml_norm _)) with (map ml_norm sing).
  destruct raw as [|x raw]; [|exact (map_norm (raw_Repr id) (x :: raw) raw_norm)].
  destruct unp as [|x unp]; [|exact (map_norm unprocessed_Repr (x :: unp) unprocessed_norm)].
  exact (map_norm single_Repr sing single_norm).
Qed.

(** A list of metrics arrives as it was sent.  Take any list of metrics
    whose values fit their types, send it as protobuf, and read the bytes
    into a new object set to protobuf: encoding gives bytes, as many as the
    length that is reported, and no error, decoding gives no error, and the
    statistics taken out are those of the list that was sent, in order, but
    for the sign of zeros. *)
Theorem metric_list_arrives `{!OtherCodecs AnyMetricList} (m part : AnyMetricList) (enc0 : SendEncoding) :
  message_ok m ->
  let sent := KMetricList_SetSendEncoding (mkK m enc0 None None) ENCODE_PROTOBUF in
  exists bs sent' got, KMetricList_Encode sent = (Some bs, None, sent') /\ (KMetricList_Length sent).1 = len bs /\
    KMetricList_Decode (KMetricList_SetSendEncoding new_K ENCODE_PROTOBUF) bs part = Some (None, got) /\
    KMetricList_Reprs got = map unsigned_stat (KMetricList_Reprs sent).
Proof.
  intros Hm. destruct (envelope_merges m msg_empty part enc0 None None Hm) as (bs & He & Hl & Hd). cbn zeta in *.
  exists bs, (mkK m ENCODE_PROTOBUF (Some bs) None), (mkK (ml_merge m msg_empty) ENCODE_PROTOBUF None None).
  unfold KMetricList_Encode, KMetricList_SetSendEncoding, KMetricList_Length, KMetricList_Decode. split; [done|]. split.
  - unfold Encode in He. unfold Length. injection He as He _ _. rewrite He. done.
  - split; [done|]. rewrite ml_merge_empty by apply Hm. unfold SetSendEncoding. case_bool_decide; apply list_Reprs_norm.
Qed.

(** The fields of a metric read into another one. *)
Lemma SingleMetric_merge_at {B} (proj : SingleMetric -> B) (F : B -> B) (m acc : SingleMetric) (n : nat) :
  (n < 14)%nat ->
  (forall i l, ml_fields !! i = Some l ->
     forall a, proj (fl_merge (projT2 l) m a) = if decide (i = n) then F (proj a) else proj a) ->
  proj (ml_merge m acc) = F (proj acc).
Proof. intros Hn Hf. by apply (merge_all_at proj F m ml_fields n acc). Qed.

Ltac each_field :=
  intros i l Hi a;
  do 14 (destruct i as [|i]; [injection Hi as <-; destruct a; cbn -[Z.eqb feq len string_bytes Z.gtb];
                              try (case_if; reflexivity); reflexivity|]);
  done.

(** A pooled object mixes messages.  An object taken from the pool still
    holds the metric it carried before, and decoding protobuf into it merges:
    the tags of the old metric stay in front of those of the new one, and a
    field that is zero in the new metric keeps its old value. *)
Theorem pooled_object_mixes `{!OtherCodecs SingleMetric} (m0 m part : SingleMetric) (old : option (list Z)) (err : option goerror) :
  message_ok m ->
  exists got, KSingleMetric_Decode (getSing [mkK m0 ENCODE_PROTOBUF old err] 0).1 (MarshalTo m) part = Some (None, got) /\
    SingleMetric_Tags (k_msg got) = SingleMetric_Tags m0 ++ SingleMetric_Tags m /\
    SingleMetric_MetaTags (k_msg got) = SingleMetric_MetaTags m0 ++ SingleMetric_MetaTags m /\
    SingleMetric_Ttl (k_msg got) = (if SingleMetric_Ttl m =? 0 then SingleMetric_Ttl m0 else SingleMetric_Ttl m) /\
    SingleMetric_Count (k_msg got) = (if SingleMetric_Count m =? 0 then SingleMetric_Count m0 else SingleMetric_Count m).
Proof.
  intros [Hok Hs]. unfold KSingleMetric_Decode, Decode. cbn [getSing get_pool lookup list_lookup fst encodetype k_msg encoded k_err].
  rewrite UnmarshalInto_merges by done. eexists. split; [done|]. cbn [k_msg].
  rewrite <- (tags_norm (SingleMetric_Tags m)), <- (tags_norm (SingleMetric_MetaTags m)). split_and!.
  - apply (SingleMetric_merge_at SingleMetric_Tags (fun l => l ++ map ml_norm (SingleMetric_Tags m)) m m0 11); [lia|each_field].
  - apply (SingleMetric_merge_at SingleMetric_MetaTags (fun l => l ++ map ml_norm (SingleMetric_MetaTags m)) m m0 12); [lia|each_field].
  - apply (SingleMetric_merge_at SingleMetric_Ttl (fun x => if SingleMetric_Ttl m =? 0 then x else SingleMetric_Ttl m) m m0 10);
      [lia|each_field].
  - apply (SingleMetric_merge_at SingleMetric_Count (fun x => if SingleMetric_Count m =? 0 then x else SingleMetric_Count m) m m0 8);
      [lia|each_field].
Qed.

(** ** Examples *)

(** Encoders that always fail. *)
Definition no_codecs (M : Type) : OtherCodecs M :=
  {| json_Marshal _ := Err (GoError "json"); json_Unmarshal m _ := (Some (GoError "json"), m);
     MarshalMsg _ := Err (GoError "msgp"); UnmarshalMsg m _ := (Some (GoError "msgp"), m) |}.

#[local] Existing Instance no_codecs.

Definition metric_one : SingleMetric :=
  mkSingleMetric 7 "7" 1500000000 "a.one" 0x3FF0000000000000 0x3FF0000000000000 0x3FF0000000000000 0x3FF0000000000000 1 10 3600
    [mkTag "host" "one"] [] 0.
Definition metric_two : SingleMetric :=
  mkSingleMetric 8 "8" 1500000010 "a.two" 0x4000000000000000 0x4000000000000000 0x4000000000000000 0x4000000000000000 1 10 0
    [mkTag "host" "two"] [] 0.

Definition metric_list : AnyMetricList := mkAnyMetricList [] [] [metric_one; metric_two] [] [] [].

(** A closed inequality. *)
Ltac closed_range := vm_compute; split; (reflexivity || discriminate).

Lemma tags_fit (t : Tag) :
  small_len (len (string_bytes (tag_Name t))) -> small_len (len (string_bytes (tag_Value t))) -> small_len (Size t) ->
  Forall nested_ok [t].
Proof. intros H1 H2 H3. apply Forall_singleton. by repeat split; try apply H1; try apply H2; try apply H3. Qed.

Ltac check_metric :=
  split; [|closed_range]; apply SingleMetric_ok_iff; unfold metric_one, metric_two;
  cbn [SingleMetric_Id SingleMetric_Uid SingleMetric_Time SingleMetric_Metric SingleMetric_Min SingleMetric_Max SingleMetric_Last
       SingleMetric_Sum SingleMetric_Count SingleMetric_Resolution SingleMetric_Ttl SingleMetric_Tags SingleMetric_MetaTags
       SingleMetric_SentTime];
  repeat apply conj;
  lazymatch goal with
  | |- Forall _ [] => by apply Forall_nil
  | |- Forall _ [_] => apply tags_fit; closed_range
  | |- _ => vm_compute; (reflexivity || discriminate)
  end.

Lemma metric_one_ok : message_ok metric_one.
Proof. check_metric. Qed.

Lemma metric_two_ok : message_ok metric_two.
Proof. check_metric. Qed.

Lemma metric_list_ok : message_ok metric_list.
Proof.
  assert (Hnil : forall N `(!Message N) (NL : MessageLaws N), Forall nested_ok ([] : list N)) by (intros; by apply Forall_nil).
  split; [|vm_compute; split; (discriminate || reflexivity)].
  refine (conj (Hnil _ _ _) (conj (Hnil _ _ _) (conj _ (conj (Hnil _ _ _) (conj (Hnil _ _ _) (conj (Hnil _ _ _) I)))))).
  apply Forall_cons. split; [exact metric_one_ok|]. apply Forall_cons. split; [exact metric_two_ok|]. by apply Forall_nil.
Qed.

Lemma metric_list_arrives_witness :
  let sent := KMetricList_SetSendEncoding (mkK metric_list ENCODE_JSON None None) ENCODE_PROTOBUF in
  exists bs sent' got, KMetricList_Encode sent = (Some bs, None, sent') /\ (KMetricList_Length sent).1 = len bs /\
    KMetricList_Decode (KMetricList_SetSendEncoding new_K ENCODE_PROTOBUF) bs msg_empty = Some (None, got) /\
    KMetricList_Reprs got = map unsigned_stat (KMetricList_Reprs sent).
Proof. apply (metric_list_arrives metric_list msg_empty ENCODE_JSON). exact metric_list_ok. Defined.

Lemma pooled_object_mixes_witness :
  exists got, KSingleMetric_Decode (getSing [mkK metric_one ENCODE_PROTOBUF None None] 0).1 (MarshalTo metric_two) msg_empty =
      Some (None, got) /\
    SingleMetric_Tags (k_msg got) = [mkTag "host" "one"; mkTag "host" "two"] /\
    SingleMetric_MetaTags (k_msg got) = [] /\ SingleMetric_Ttl (k_msg got) = 3600 /\ SingleMetric_Count (k_msg got) = 1.
Proof. apply (pooled_object_mixes metric_one metric_two msg_empty None None). exact metric_two_ok. Defined.

(** The metric a pooled object delivers has the name of the new message and
    the tags and the time to live of both. *)
Example pooled_repr :
  match KSingleMetric_Decode (getSing [mkK metric_one ENCODE_PROTOBUF None None] 0).1 (MarshalTo metric_two) msg_empty with
  | Some (None, got) => r_Name (KSingleMetric_Repr got) = Some (plain_name "a.two" [mkTag "host" "one"; mkTag "host" "two"] [] 10 3600)
  | _ => False
  end.
Proof. by vm_compute. Qed.

(** A series from the pool is encoded as no bytes at all, without an error:
    the empty slice it is reset to counts as encoded. *)
Example pooled_series_empty (m : SeriesMetric) (enc : SendEncoding) :
  (KSeriesMetric_Encode (getSeries [mkK m enc None None] 0).1).1 = (Some [], None).
Proof. done. Qed.

(** The bytes of a message are kept when another one is decoded. *)
Example encode_after_decode :
  let sent := (Encode (mkK metric_one ENCODE_PROTOBUF None None)).2 in
  match Decode sent (MarshalTo metric_two) msg_empty with
  | Some (None, got) => (Encode got).1.1 = Some (MarshalTo metric_one)
  | _ => False
  end.
Proof. by vm_compute. Qed.

(** A raw value that is not a number is dropped in one envelope and kept in
    the other. *)
Example raw_unchecked :
  let m := mkRawMetric 1500000000 "a" NaN [] [] 0 in
  Sum (KRawMetric_Repr (mkK m ENCODE_JSON None None)) = 0 /\
  Sum <$> KMetric_Repr (mkK (mkAnyMetric (Some m) None None None None None) ENCODE_JSON None None) = Some NaN.
Proof. done. Qed.
