(* ===== verification/Msgp.v ===== *)
(** MessagePack on bytes: the vendored library [tinylib/msgp]
    ([defs.go], [elsize.go], [errors.go], [integers.go], [write_bytes.go],
    [read_bytes.go]) that the generated code of the schemas calls.

    What a writing function appends is the list of bytes of a value.  A
    reading function returns the value, the rest of the bytes and how it
    ended; a value comes also with an error, since the generated code
    stores it.  The rest after an error is used by no one.

    MessagePack on bytes: every number, string and header is read back as
    it was written, and reading and skipping end on any bytes. *)
From S2P Require Import Prelude Bits Float64 GoStrings GoParse Wire WireTheorems.

Open Scope Z_scope.

(** ** Results *)

Definition res (A S : Type) : Type := A * S * outcome unit.

Definition ok {A S} (a : A) (s : S) : res A S := (a, s, Ok tt).
Definition fail {A S} (a : A) (s : S) (e : goerror) : res A S := (a, s, Err e).

(** [if err != nil { return }], where the object under construction is [z]. *)
Definition on_ok {A B S} (r : res A S) (z : B) (k : A -> S -> res B S) : res B S :=
  match r with
  | (a, s, Ok _) => k a s
  | (_, s, o) => (z, s, o)
  end.

(** ** Prefixes and types *)

Inductive MsgpType :=
| InvalidType | StrType | BinType | MapType | ArrayType | Float64Type | Float32Type | BoolType | IntType | UintType
| NilType | ExtensionType | TimeType.

#[export] Instance MsgpType_eq_dec : EqDecision MsgpType.
Proof. solve_decision. Defined.

Definition mnil := 0xc0.
Definition mfalse := 0xc2.
Definition mtrue := 0xc3.
Definition mbin8 := 0xc4.
Definition mbin16 := 0xc5.
Definition mbin32 := 0xc6.
Definition mext8 := 0xc7.
Definition mfloat32 := 0xca.
Definition mfloat64 := 0xcb.
Definition muint8 := 0xcc.
Definition muint16 := 0xcd.
Definition muint32 := 0xce.
Definition muint64 := 0xcf.
Definition mint8 := 0xd0.
Definition mint16 := 0xd1.
Definition mint32 := 0xd2.
Definition mint64 := 0xd3.
Definition mstr8 := 0xd9.
Definition mstr16 := 0xda.
Definition mstr32 := 0xdb.
Definition marray16 := 0xdc.
Definition marray32 := 0xdd.
Definition mmap16 := 0xde.
Definition mmap32 := 0xdf.

Definition isfixint (b : Z) : bool := Z.shiftr b 7 =? 0.
Definition isnfixint (b : Z) : bool := Z.land b 0xe0 =? 0xe0.
Definition isfixmap (b : Z) : bool := Z.land b 0xf0 =? 0x80.
Definition isfixarray (b : Z) : bool := Z.land b 0xf0 =? 0x90.
Definition isfixstr (b : Z) : bool := Z.land b 0xe0 =? 0xa0.
Definition wfixint (u : Z) : Z := Z.land u 0x7f.
Definition wnfixint (i : Z) : Z := Z.lor (u8 i) 0xe0.
Definition wfixmap (u : Z) : Z := Z.lor 0x80 (Z.land u 0x0f).
Definition wfixarray (u : Z) : Z := Z.lor (Z.land u 0x0f) 0x90.
Definition wfixstr (u : Z) : Z := Z.lor (Z.land u 0x1f) 0xa0.

(** The modes of sizes below zero; from zero on they are numbers of
    objects. *)
Definition extra8 := -1.
Definition extra16 := -2.
Definition extra32 := -3.
Definition map16v := -4.
Definition map32v := -5.
Definition array16v := -6.
Definition array32v := -7.

Record bytespec := mkSpec { sp_size : Z; sp_extra : Z; sp_typ : MsgpType }.

Definition size_table : list (Z * bytespec) :=
  [ (mnil, mkSpec 1 0 NilType); (mfalse, mkSpec 1 0 BoolType); (mtrue, mkSpec 1 0 BoolType);
    (mbin8, mkSpec 2 extra8 BinType); (mbin16, mkSpec 3 extra16 BinType); (mbin32, mkSpec 5 extra32 BinType);
    (mext8, mkSpec 3 extra8 ExtensionType); (0xc8, mkSpec 4 extra16 ExtensionType); (0xc9, mkSpec 6 extra32 ExtensionType);
    (mfloat32, mkSpec 5 0 Float32Type); (mfloat64, mkSpec 9 0 Float64Type);
    (muint8, mkSpec 2 0 UintType); (muint16, mkSpec 3 0 UintType); (muint32, mkSpec 5 0 UintType); (muint64, mkSpec 9 0 UintType);
    (mint8, mkSpec 2 0 IntType); (mint16, mkSpec 3 0 IntType); (mint32, mkSpec 5 0 IntType); (mint64, mkSpec 9 0 IntType);
    (0xd4, mkSpec 3 0 ExtensionType); (0xd5, mkSpec 4 0 ExtensionType); (0xd6, mkSpec 6 0 ExtensionType);
    (0xd7, mkSpec 10 0 ExtensionType); (0xd8, mkSpec 18 0 ExtensionType);
    (mstr8, mkSpec 2 extra8 StrType); (mstr16, mkSpec 3 extra16 StrType); (mstr32, mkSpec 5 extra32 StrType);
    (marray16, mkSpec 3 array16v ArrayType); (marray32, mkSpec 5 array32v ArrayType);
    (mmap16, mkSpec 3 map16v MapType); (mmap32, mkSpec 5 map32v MapType) ].

(** The table with the entries that [init] adds. *)
Definition sizes (lead : Z) : bytespec :=
  if lead <? 0x80 then mkSpec 1 0 IntType
  else if 0xe0 <=? lead then mkSpec 1 0 IntType
  else if (0xa0 <=? lead) && (lead <? 0xc0) then mkSpec (1 + Z.land lead 0x1f) 0 StrType
  else if (0x80 <=? lead) && (lead <? 0x90) then mkSpec 1 (2 * Z.land lead 0x0f) MapType
  else if (0x90 <=? lead) && (lead <? 0xa0) then mkSpec 1 (Z.land lead 0x0f) ArrayType
  else match list_find (fun p => p.1 = lead) size_table with
       | Some (_, p) => p.2
       | None => mkSpec 0 0 InvalidType
       end.

(** ** Errors *)

Definition ErrShortBytes : goerror := GoError "msgp: too few bytes left to read object".
Definition errFatal : goerror := GoError "msgp: fatal decoding error (unreachable code)".

Definition type_name (t : MsgpType) : string :=
  match t with
  | StrType => "str" | BinType => "bin" | MapType => "map" | ArrayType => "array" | Float64Type => "float64"
  | Float32Type => "float32" | BoolType => "bool" | UintType => "uint" | IntType => "int" | ExtensionType => "ext"
  | NilType => "nil" | InvalidType | TimeType => "<invalid>"
  end.

Definition quoted (s : string) : string := String (Ascii.ascii_of_nat 34) (s +:+ String (Ascii.ascii_of_nat 34) "").

Definition TypeError (method encoded : MsgpType) : goerror :=
  GoError ("msgp: attempted to decode type " +:+ quoted (type_name encoded) +:+ " with method for "
           +:+ quoted (type_name method)).

Definition hex_digit (d : Z) : string :=
  String (Ascii.ascii_of_N (Z.to_N (if d <? 10 then 48 + d else 87 + d))) "".

Definition InvalidPrefixError (b : Z) : goerror :=
  GoError ("msgp: unrecognized type prefix 0x" +:+ (if b <? 16 then "" else hex_digit (b / 16)) +:+ hex_digit (b mod 16)).

Definition badPrefix (want : MsgpType) (lead : Z) : goerror :=
  match sp_typ (sizes lead) with
  | InvalidType => InvalidPrefixError lead
  | t => TypeError want t
  end.

Definition IntOverflow (v bits : Z) : goerror :=
  GoError ("msgp: " +:+ FormatInt v +:+ " overflows int" +:+ FormatInt bits).
Definition UintOverflow (v bits : Z) : goerror :=
  GoError ("msgp: " +:+ FormatInt v +:+ " overflows uint" +:+ FormatInt bits).
Definition errExt (got want : Z) : goerror :=
  GoError ("msgp: error decoding extension: wanted type " +:+ FormatInt want +:+ "; got type " +:+ FormatInt got).

(** ** Writing *)

(** [n] bytes, the high ones first. *)
Fixpoint be (n : nat) (v : Z) : list Z :=
  match n with
  | O => []
  | S n => u8 (Z.shiftr v (8 * Z.of_nat n)) :: be n v
  end.

Definition prefixu (pre : Z) (n : nat) (v : Z) : list Z := pre :: be n v.

Definition map_header (sz : Z) : list Z :=
  if sz <=? 15 then [wfixmap sz] else if sz <=? 0xffff then prefixu mmap16 2 sz else prefixu mmap32 4 sz.

Definition array_header (sz : Z) : list Z :=
  if sz <=? 15 then [wfixarray sz] else if sz <=? 0xffff then prefixu marray16 2 sz else prefixu marray32 4 sz.

Definition int64_bytes (i : Z) : list Z :=
  if 0 <=? i then
    if i <=? 0x7f then [wfixint i]
    else if i <=? 0x7fff then prefixu mint16 2 i
    else if i <=? 0x7fffffff then prefixu mint32 4 i
    else prefixu mint64 8 i
  else if -32 <=? i then [wnfixint i]
  else if -0x80 <=? i then prefixu mint8 1 i
  else if -0x8000 <=? i then prefixu mint16 2 i
  else if -0x80000000 <=? i then prefixu mint32 4 i
  else prefixu mint64 8 i.

Definition uint64_bytes (u : Z) : list Z :=
  if u <=? 0x7f then [wfixint u]
  else if u <=? 0xff then prefixu muint8 1 u
  else if u <=? 0xffff then prefixu muint16 2 u
  else if u <=? 0xffffffff then prefixu muint32 4 u
  else prefixu muint64 8 u.

Definition float64_bytes (f : float64) : list Z := prefixu mfloat64 8 (Float64bits f).
Definition bool_bytes (t : bool) : list Z := [if t then mtrue else mfalse].

Definition str_header (sz : Z) : list Z :=
  if sz <=? 31 then [wfixstr sz]
  else if sz <=? 0xff then prefixu mstr8 1 sz
  else if sz <=? 0xffff then prefixu mstr16 2 sz
  else prefixu mstr32 4 sz.

Definition bin_header (sz : Z) : list Z :=
  if sz <=? 0xff then prefixu mbin8 1 sz
  else if sz <=? 0xffff then prefixu mbin16 2 sz
  else prefixu mbin32 4 sz.

(** A time is its seconds since 1970 and its nanoseconds. *)
Definition Time : Type := Z * Z.

Definition TimeExtension := 5.

Definition time_bytes (t : Time) : list Z := [mext8; 12; TimeExtension] ++ be 8 t.1 ++ be 4 t.2.

Definition AppendMapHeader (b : list Z) (sz : Z) : list Z := b ++ map_header sz.
Definition AppendArrayHeader (b : list Z) (sz : Z) : list Z := b ++ array_header sz.
Definition AppendNil (b : list Z) : list Z := b ++ [mnil].
Definition AppendFloat64 (b : list Z) (f : float64) : list Z := b ++ float64_bytes f.
Definition AppendInt64 (b : list Z) (i : Z) : list Z := b ++ int64_bytes i.
Definition AppendUint64 (b : list Z) (u : Z) : list Z := b ++ uint64_bytes u.
Definition AppendBool (b : list Z) (t : bool) : list Z := b ++ bool_bytes t.
Definition AppendBytes (b bts : list Z) : list Z := b ++ bin_header (len bts) ++ bts.
Definition AppendString (b : list Z) (s : string) : list Z :=
  b ++ str_header (len (string_bytes s)) ++ string_bytes s.
Definition AppendTime (b : list Z) (t : Time) : list Z := b ++ time_bytes t.

(** ** Reading *)

Definition be_get (bs : list Z) : Z := foldl (fun a b => Z.lor (Z.shiftl a 8) b) 0 bs.

(** What the first byte of an object says: the value is in it, or it is in
    the next [n] bytes, or the object is not of the type wanted.  The
    switches on it are the same for bytes and for streams. *)
Inductive form (A : Type) :=
| Here (a : A)
| Sized (n : nat) (conv : Z -> A)
| Bad (e : goerror).
Arguments Here {A}.
Arguments Sized {A}.
Arguments Bad {A}.

Definition map_form (lead : Z) : form Z :=
  if isfixmap lead then Here (Z.land lead 0x0f)
  else if lead =? mmap16 then Sized 2 id
  else if lead =? mmap32 then Sized 4 id
  else Bad (badPrefix MapType lead).

Definition array_form (lead : Z) : form Z :=
  if isfixarray lead then Here (Z.land lead 0x0f)
  else if lead =? marray16 then Sized 2 id
  else if lead =? marray32 then Sized 4 id
  else Bad (badPrefix ArrayType lead).

Definition nil_form (lead : Z) : form unit :=
  if lead =? mnil then Here tt else Bad (badPrefix NilType lead).

Definition bool_form (lead : Z) : form bool :=
  if lead =? mtrue then Here true else if lead =? mfalse then Here false else Bad (badPrefix BoolType lead).

Definition int64_form (lead : Z) : form Z :=
  if isfixint lead then Here lead
  else if isnfixint lead then Here (swrap 8 lead)
  else if lead =? mint8 then Sized 1 (swrap 8)
  else if lead =? mint16 then Sized 2 (swrap 16)
  else if lead =? mint32 then Sized 4 (swrap 32)
  else if lead =? mint64 then Sized 8 (swrap 64)
  else Bad (badPrefix IntType lead).

Definition uint64_form (lead : Z) : form Z :=
  if isfixint lead then Here lead
  else if lead =? muint8 then Sized 1 id
  else if lead =? muint16 then Sized 2 id
  else if lead =? muint32 then Sized 4 id
  else if lead =? muint64 then Sized 8 id
  else Bad (badPrefix UintType lead).

(** The lengths of strings and of byte slices. *)
Definition str_form (bad : Z -> goerror) (lead : Z) : form Z :=
  if isfixstr lead then Here (Z.land lead 0x1f)
  else if lead =? mstr8 then Sized 1 id
  else if lead =? mstr16 then Sized 2 id
  else if lead =? mstr32 then Sized 4 id
  else Bad (bad lead).

Definition bin_form (lead : Z) : form Z :=
  if lead =? mbin8 then Sized 1 id
  else if lead =? mbin16 then Sized 2 id
  else if lead =? mbin32 then Sized 4 id
  else Bad (badPrefix BinType lead).

(** The [n] bytes after the prefix, and what follows them. *)
Definition payload (n : nat) (b : list Z) : option (Z * list Z) :=
  if len b <? 1 + Z.of_nat n then None else Some (be_get (take n (drop 1 b)), drop (1 + n) b).

Definition read_form {A} (f : Z -> form A) (zero : A) (b : list Z) : res A (list Z) :=
  match b with
  | [] => fail zero b ErrShortBytes
  | lead :: o =>
      match f lead with
      | Here a => ok a o
      | Sized n conv =>
          match payload n b with Some (v, o) => ok (conv v) o | None => fail zero b ErrShortBytes end
      | Bad e => fail zero b e
      end
  end.

Definition IsNil (b : list Z) : bool := match b with lead :: _ => lead =? mnil | [] => false end.

Definition ReadMapHeaderBytes (b : list Z) : res Z (list Z) := read_form map_form 0 b.
Definition ReadArrayHeaderBytes (b : list Z) : res Z (list Z) := read_form array_form 0 b.
Definition ReadNilBytes (b : list Z) : res unit (list Z) := read_form nil_form tt b.
Definition ReadBoolBytes (b : list Z) : res bool (list Z) := read_form bool_form false b.
Definition ReadInt64Bytes (b : list Z) : res Z (list Z) := read_form int64_form 0 b.
Definition ReadUint64Bytes (b : list Z) : res Z (list Z) := read_form uint64_form 0 b.

(** The narrower ones; an error of the wide one leaves the number zero. *)
Definition narrow_int {S} (r : res Z S) : res Z S :=
  let '(i, o, err) := r in
  if (i >? 2 ^ 31 - 1) || (i <? - 2 ^ 31) then fail 0 o (IntOverflow i 32) else (i, o, err).
Definition narrow_uint {S} (r : res Z S) : res Z S :=
  let '(v, o, err) := r in
  if v >? 2 ^ 32 - 1 then fail 0 o (UintOverflow v 32) else (v, o, err).

Definition ReadInt32Bytes (b : list Z) : res Z (list Z) := narrow_int (ReadInt64Bytes b).
Definition ReadUint32Bytes (b : list Z) : res Z (list Z) := narrow_uint (ReadUint64Bytes b).

(** [float64(f)] for a float32 given by its bits. *)
Definition float_of_float32 (b : Z) : float64 :=
  let s := Z.testbit b 31 in
  let e := (b / 2 ^ 23) mod 2 ^ 8 in
  let m := b mod 2 ^ 23 in
  with_sign s
    (if e =? 255 then
       2047 * 2 ^ 52 + (if m =? 0 then 0 else Z.lor (m * 2 ^ 29) (2 ^ 51))
     else if e =? 0 then
       if m =? 0 then 0 else (Z.log2 m - 149 + 1023) * 2 ^ 52 + (m - 2 ^ Z.log2 m) * 2 ^ (52 - Z.log2 m)
     else (e - 127 + 1023) * 2 ^ 52 + m * 2 ^ 29).

Definition float32_form (lead : Z) : form float64 :=
  if lead =? mfloat32 then Sized 4 float_of_float32 else Bad (TypeError Float32Type (sp_typ (sizes lead))).

Definition ReadFloat32Bytes (b : list Z) : res float64 (list Z) :=
  if len b <? 5 then fail 0 b ErrShortBytes else read_form float32_form 0 b.

Definition float64_form (lead : Z) : form float64 :=
  if lead =? mfloat64 then Sized 8 Float64frombits
  else if lead =? mfloat32 then Sized 4 float_of_float32
  else Bad (badPrefix Float64Type lead).

(** Fewer than nine bytes are enough for a float32 only. *)
Definition ReadFloat64Bytes (b : list Z) : res float64 (list Z) :=
  if len b <? 9 then
    match b with
    | lead :: _ => if (5 <=? len b) && (lead =? mfloat32) then ReadFloat32Bytes b else fail 0 b ErrShortBytes
    | [] => fail 0 b ErrShortBytes
    end
  else read_form float64_form 0 b.

(** [read] bytes, when they are there. *)
Definition read_data (b : list Z) (read : Z) : res (list Z) (list Z) :=
  if len b <? read then fail [] b ErrShortBytes else ok (take (Z.to_nat read) b) (drop (Z.to_nat read) b).

Definition ReadBytesZC (b : list Z) : res (list Z) (list Z) :=
  on_ok (read_form bin_form 0 b) [] (fun read o => read_data o read).

Definition ReadStringZC (b : list Z) : res (list Z) (list Z) :=
  on_ok (read_form (str_form (fun lead => TypeError StrType (sp_typ (sizes lead)))) 0 b) [] (fun read o => read_data o read).

Definition ReadStringBytes (b : list Z) : res string (list Z) :=
  let '(v, o, err) := ReadStringZC b in (bytes_string v, o, err).

(** A key that is not a string: the rest that the failed reading returned
    is nil, so the key of type [bin] is looked for there. *)
Definition ReadMapKeyZC (b : list Z) : res (list Z) (list Z) :=
  match ReadStringZC b with
  | (v, o, Ok _) => ok v o
  | (_, o, Err e) => if bool_decide (e = TypeError StrType BinType) then ReadBytesZC [] else fail [] o e
  | (_, o, err) => ([], o, err)
  end.

(** [time.Unix]. *)
Definition time_Unix (sec nsec : Z) : Time := (i64 (sec + nsec / 10 ^ 9), nsec mod 10 ^ 9).

(** The zero time of Go, the first of January of the year one. *)
Definition zero_time : Time := (-62135596800, 0).

Definition time_of (p : list Z) : Time :=
  time_Unix (i64 (be_get (take 8 (drop 3 p)))) (i32 (be_get (take 4 (drop 11 p)))).

Definition ReadTimeBytes (b : list Z) : res Time (list Z) :=
  match b with
  | b0 :: b1 :: b2 :: _ =>
      if len b <? 15 then fail zero_time b ErrShortBytes
      else if negb (b0 =? mext8) || negb (b1 =? 12) then fail zero_time b (badPrefix TimeType b0)
      else if negb (swrap 8 b2 =? TimeExtension) then fail zero_time b (errExt (swrap 8 b2) TimeExtension)
      else ok (time_of b) (drop 15 b)
  | _ => fail zero_time b ErrShortBytes
  end.

(** ** Skipping *)

Definition getSize (b : list Z) : (Z * Z) + goerror :=
  match b with
  | [] => inr ErrShortBytes
  | lead :: _ =>
      let size := sp_size (sizes lead) in
      let mode := sp_extra (sizes lead) in
      let num n := be_get (take n (drop 1 b)) in
      if size =? 0 then inr (InvalidPrefixError lead)
      else if 0 <=? mode then inl (size, mode)
      else if len b <? size then inr ErrShortBytes
      else if mode =? extra8 then inl (size + num 1%nat, 0)
      else if mode =? extra16 then inl (size + num 2%nat, 0)
      else if mode =? extra32 then inl (size + num 4%nat, 0)
      else if mode =? map16v then inl (size, 2 * num 2%nat)
      else if mode =? map32v then inl (size, 2 * num 4%nat)
      else if mode =? array16v then inl (size, num 2%nat)
      else if mode =? array32v then inl (size, num 4%nat)
      else inr errFatal
  end.

(** [n] objects: the loop of [Skip] over the elements of an object. *)
Fixpoint skip_objects (fuel : nat) (n : Z) (b : list Z) : res unit (list Z) :=
  if n <=? 0 then ok tt b
  else
    match fuel with
    | O => (tt, b, NoFuel)
    | S fuel =>
        match getSize b with
        | inr e => fail tt b e
        | inl (sz, asz) =>
            if len b <? sz then fail tt b ErrShortBytes
            else on_ok (skip_objects fuel asz (drop (Z.to_nat sz) b)) tt (fun _ b => skip_objects fuel (n - 1) b)
        end
    end.

Definition Skip (b : list Z) : res unit (list Z) := skip_objects (S (length b)) 1 b.

(** ** Sizes *)

Definition Int64Size := 9.
Definition Int32Size := 5.
Definition Uint32Size := 5.
Definition Uint64Size := 9.
Definition Float64Size := 9.
Definition TimeSize := 15.
Definition BoolSize := 1.
Definition NilSize := 1.
Definition MapHeaderSize := 5.
Definition ArrayHeaderSize := 5.
Definition BytesPrefixSize := 5.
Definition StringPrefixSize := 5.

(** [UnsafeString]: the address of the first byte of an empty slice is a
    panic. *)
Definition UnsafeString (b : list Z) : option string := match b with [] => None | _ => Some (bytes_string b) end.

Example float32_third : float_of_float32 0x3eaaaaab = 0x3fd5555560000000. Proof. vm_compute. reflexivity. Qed.
Example float32_tiny : float_of_float32 1 = 0x36a0000000000000. Proof. vm_compute. reflexivity. Qed.

(** ** Theorems *)

(** ** Numbers of several bytes *)

Lemma lor_byte (a b : Z) : 0 <= b < 256 -> Z.lor (Z.shiftl a 8) b = a * 256 + b.
Proof.
  intros Hb. assert (Hl : Z.land (Z.shiftl a 8) b = 0).
  { apply Z.bits_inj'. intros i Hi. rewrite Z.land_spec, Z.bits_0. destruct (decide (i < 8)).
    - rewrite Z.shiftl_spec_low by done. done.
    - rewrite (testbit_high 8 b i); [apply andb_false_r|unfold in_width; lia|lia]. }
  pose proof (Z.add_lor_land (Z.shiftl a 8) b) as H. rewrite Hl, Z.shiftl_mul_pow2 in H by lia.
  rewrite Z.shiftl_mul_pow2 by lia. change (2 ^ 8) with 256 in *. lia.
Qed.

Lemma length_be (n : nat) (v : Z) : length (be n v) = n.
Proof. induction n; simpl; lia. Qed.

Lemma be_bytes (n : nat) (v : Z) : Forall (fun b => 0 <= b < 256) (be n v).
Proof. induction n; simpl; constructor; auto. unfold wrap. pose proof (Z.mod_pos_bound (Z.shiftr v (8 * Z.of_nat n)) (2 ^ 8)). lia. Qed.

Lemma be_get_fold (n : nat) (v a : Z) :
  foldl (fun a b => Z.lor (Z.shiftl a 8) b) a (be n v) = a * 2 ^ (8 * Z.of_nat n) + v mod 2 ^ (8 * Z.of_nat n).
Proof.
  revert a. induction n as [|n IH]; intros a.
  - simpl. rewrite Z.mod_1_r. lia.
  - cbn [be foldl]. rewrite IH. unfold wrap. rewrite lor_byte by (apply Z.mod_pos_bound; lia).
    rewrite Z.shiftr_div_pow2 by lia. set (p := 2 ^ (8 * Z.of_nat n)).
    assert (Hp : 0 < p) by (apply Z.pow_pos_nonneg; lia).
    replace (2 ^ (8 * Z.of_nat (S n))) with (p * 256).
    2:{ unfold p. rewrite Nat2Z.inj_succ. replace (8 * Z.succ (Z.of_nat n)) with (8 * Z.of_nat n + 8) by lia.
        by rewrite Z.pow_add_r by lia. }
    rewrite (Z.rem_mul_r v p 256) by lia. change (2 ^ 8) with 256. lia.
Qed.

Lemma be_get_be (n : nat) (v : Z) : be_get (be n v) = v mod 2 ^ (8 * Z.of_nat n).
Proof. unfold be_get. rewrite be_get_fold. lia. Qed.

(** ** What a first byte says *)

(** Bytes whose first says, with the others, that the value is [v]. *)
Definition forms {A} (f : Z -> form A) (bs : list Z) (v : A) : Prop :=
  match bs with
  | [] => False
  | lead :: p =>
      match f lead with
      | Here a => a = v /\ p = []
      | Sized n conv => length p = n /\ conv (be_get p) = v
      | Bad _ => False
      end
  end.

Lemma forms_sized {A} (f : Z -> form A) (pre : Z) (n : nat) (conv : Z -> A) (x : Z) (v : A) :
  f pre = Sized n conv -> conv (x mod 2 ^ (8 * Z.of_nat n)) = v -> forms f (prefixu pre n x) v.
Proof. intros Hf Hv. cbn. rewrite Hf. split; [apply length_be|]. by rewrite be_get_be. Qed.

Lemma payload_app (lead : Z) (p rest : list Z) : payload (length p) ((lead :: p) ++ rest) = Some (be_get p, rest).
Proof.
  unfold payload. destruct (len _ <? _) eqn:E.
  - bool_to_prop. unfold len in E. rewrite <- app_comm_cons in E. cbn [length] in E. rewrite length_app in E. lia.
  - cbn [app plus]. change (drop 1 (lead :: p ++ rest)) with (p ++ rest).
    change (drop (S (length p)) (lead :: p ++ rest)) with (drop (length p) (p ++ rest)).
    by rewrite take_app_length, drop_app_length.
Qed.

Lemma read_form_forms {A} (f : Z -> form A) (zero : A) (bs rest : list Z) (v : A) :
  forms f bs v -> read_form f zero (bs ++ rest) = ok v rest.
Proof.
  unfold forms, read_form. destruct bs as [|lead p]; [done|]. rewrite <- app_comm_cons.
  destruct (f lead) as [a|n conv|e]; [|intros [<- <-]|done].
  - by intros [-> ->].
  - by rewrite app_comm_cons, payload_app.
Qed.

(** ** Prefixes *)

(** A fact on small numbers, tried on each. *)
Definition all_below (n : nat) (f : Z -> bool) : bool := forallb f (map Z.of_nat (seq 0 n)).

Lemma all_below_spec (n : nat) (f : Z -> bool) (i : Z) : all_below n f = true -> 0 <= i < Z.of_nat n -> f i = true.
Proof.
  unfold all_below. intros H Hi. rewrite forallb_forall in H. apply H. apply in_map_iff. exists (Z.to_nat i).
  split; [lia|]. apply in_seq. lia.
Qed.

Lemma fixmap_form (u : Z) : 0 <= u <= 15 -> isfixmap (wfixmap u) && (Z.land (wfixmap u) 0x0f =? u) = true.
Proof. intros H. by apply (all_below_spec 16 (fun u => isfixmap (wfixmap u) && (Z.land (wfixmap u) 0x0f =? u))); [|lia]. Qed.

Lemma fixarray_form (u : Z) : 0 <= u <= 15 -> isfixarray (wfixarray u) && (Z.land (wfixarray u) 0x0f =? u) = true.
Proof. intros H. by apply (all_below_spec 16 (fun u => isfixarray (wfixarray u) && (Z.land (wfixarray u) 0x0f =? u))); [|lia]. Qed.

Lemma fixstr_form (u : Z) : 0 <= u <= 31 -> isfixstr (wfixstr u) && (Z.land (wfixstr u) 0x1f =? u) = true.
Proof. intros H. by apply (all_below_spec 32 (fun u => isfixstr (wfixstr u) && (Z.land (wfixstr u) 0x1f =? u))); [|lia]. Qed.

Lemma fixint_form (u : Z) : 0 <= u <= 0x7f -> isfixint (wfixint u) && (wfixint u =? u) = true.
Proof. intros H. by apply (all_below_spec 128 (fun u => isfixint (wfixint u) && (wfixint u =? u))); [|lia]. Qed.

Lemma nfixint_form (i : Z) : -32 <= i < 0 ->
  negb (isfixint (wnfixint i)) && isnfixint (wnfixint i) && (swrap 8 (wnfixint i) =? i) = true.
Proof.
  intros H. pose proof (all_below_spec 32 (fun u => negb (isfixint (wnfixint (u - 32))) && isnfixint (wnfixint (u - 32)) &&
    (swrap 8 (wnfixint (u - 32)) =? u - 32)) (i + 32)) as Hf.
  cbv beta in Hf. replace (i + 32 - 32) with i in Hf by lia. apply Hf; [reflexivity|lia].
Qed.

(** A header or a number has the form that its reader looks for. *)
Ltac sized_form := eapply forms_sized; [reflexivity|]; unfold id; rewrite ?Z.mod_small by lia; try lia.

Lemma map_header_form (n : Z) : 0 <= n < 2 ^ 32 -> forms map_form (map_header n) n.
Proof.
  intros Hn. unfold map_header. repeat case_match; bool_to_prop; try sized_form.
  cbn. unfold map_form. pose proof (fixmap_form n) as Hf. destruct (isfixmap _); cbn in Hf; [|naive_solver lia].
  split; [|done]. apply Z.eqb_eq, Hf. lia.
Qed.

Lemma array_header_form (n : Z) : 0 <= n < 2 ^ 32 -> forms array_form (array_header n) n.
Proof.
  intros Hn. unfold array_header. repeat case_match; bool_to_prop; try sized_form.
  cbn. unfold array_form. pose proof (fixarray_form n) as Hf. destruct (isfixarray _); cbn in Hf; [|naive_solver lia].
  split; [|done]. apply Z.eqb_eq, Hf. lia.
Qed.

Lemma str_header_form (bad : Z -> goerror) (n : Z) : 0 <= n < 2 ^ 32 -> forms (str_form bad) (str_header n) n.
Proof.
  intros Hn. unfold str_header. repeat case_match; bool_to_prop; try sized_form.
  cbn. unfold str_form. pose proof (fixstr_form n) as Hf. destruct (isfixstr _); cbn in Hf; [|naive_solver lia].
  split; [|done]. apply Z.eqb_eq, Hf. lia.
Qed.

Lemma bin_header_form (n : Z) : 0 <= n < 2 ^ 32 -> forms bin_form (bin_header n) n.
Proof. intros Hn. unfold bin_header. repeat case_match; bool_to_prop; sized_form. Qed.

Lemma bool_form_bytes (t : bool) : forms bool_form (bool_bytes t) t.
Proof. by destruct t. Qed.

Lemma nil_form_bytes : forms nil_form [mnil] tt.
Proof. done. Qed.

Lemma uint64_form_bytes (u : Z) : in_width 64 u -> forms uint64_form (uint64_bytes u) u.
Proof.
  unfold in_width. intros Hn. unfold uint64_bytes. repeat case_match; bool_to_prop; try sized_form.
  cbn. unfold uint64_form. pose proof (fixint_form u) as Hf. destruct (isfixint _); cbn in Hf; [|naive_solver lia].
  split; [|done]. apply Z.eqb_eq, Hf. lia.
Qed.

Lemma swrap_mod (w v : Z) : 0 < w -> - 2 ^ (w - 1) <= v < 2 ^ (w - 1) -> swrap w (v mod 2 ^ w) = v.
Proof. intros Hw Hv. change (v mod 2 ^ w) with (wrap w v). rewrite swrap_wrap by lia. by apply swrap_id. Qed.

Lemma int64_form_bytes (i : Z) : - 2 ^ 63 <= i < 2 ^ 63 -> forms int64_form (int64_bytes i) i.
Proof.
  intros Hn. unfold int64_bytes. repeat case_match; bool_to_prop;
    try (eapply forms_sized; [reflexivity|]; apply swrap_mod; cbn; lia).
  - cbn. unfold int64_form. pose proof (fixint_form i) as Hf. destruct (isfixint _); cbn in Hf; [|naive_solver lia].
    split; [|done]. apply Z.eqb_eq, Hf. lia.
  - cbn. unfold int64_form. pose proof (nfixint_form i) as Hf.
    destruct (isfixint _); cbn in Hf; [naive_solver lia|]. destruct (isnfixint _); cbn in Hf; [|naive_solver lia].
    split; [|done]. apply Z.eqb_eq, Hf. lia.
Qed.

Lemma float64_form_bytes (f : float64) : in_width 64 f -> forms float64_form (float64_bytes f) f.
Proof. unfold in_width. intros Hf. eapply forms_sized; [reflexivity|]. apply Z.mod_small. done. Qed.

(** ** Strings, bytes and times *)

Lemma read_data_app (bs rest : list Z) : read_data (bs ++ rest) (len bs) = ok bs rest.
Proof.
  unfold read_data. destruct (_ <? _) eqn:E.
  - bool_to_prop. unfold len in E. rewrite length_app in E. lia.
  - unfold len. by rewrite Nat2Z.id, take_app_length, drop_app_length.
Qed.

Lemma ReadStringZC_msg (s : list Z) (rest : list Z) :
  len s < 2 ^ 32 -> ReadStringZC (str_header (len s) ++ s ++ rest) = ok s rest.
Proof.
  intros Hs. unfold ReadStringZC. erewrite read_form_forms by (apply str_header_form; unfold len in *; lia).
  apply read_data_app.
Qed.

Lemma ReadBytesZC_msg (s rest : list Z) : len s < 2 ^ 32 -> ReadBytesZC (bin_header (len s) ++ s ++ rest) = ok s rest.
Proof.
  intros Hs. unfold ReadBytesZC. erewrite read_form_forms by (apply bin_header_form; unfold len in *; lia).
  apply read_data_app.
Qed.

Definition time_ok (t : Time) : Prop := - 2 ^ 63 <= t.1 < 2 ^ 63 /\ 0 <= t.2 < 10 ^ 9.

Lemma length_time_bytes (t : Time) : length (time_bytes t) = 15%nat.
Proof. unfold time_bytes. rewrite !length_app, !length_be. done. Qed.

Lemma time_of_bytes (t : Time) (rest : list Z) : time_ok t -> time_of (time_bytes t ++ rest) = t.
Proof.
  intros [Hs Hn]. unfold time_of, time_bytes. rewrite <- !app_assoc.
  change (drop 3 ([mext8; 12; TimeExtension] ++ ?l)) with l.
  rewrite take_app_le, take_ge by (by rewrite length_be).
  change (drop 11 ([mext8; 12; TimeExtension] ++ ?l)) with (drop 8 l).
  rewrite (drop_app_length' (be 8 t.1)) by (by rewrite length_be).
  rewrite take_app_le, take_ge by (by rewrite length_be).
  rewrite !be_get_be. change (8 * Z.of_nat 8) with 64. change (8 * Z.of_nat 4) with 32.
  rewrite !swrap_mod by (cbn; lia). unfold time_Unix. rewrite Z.div_small, Z.mod_small by lia.
  rewrite Z.add_0_r, i64_small by lia. by destruct t.
Qed.

Lemma ReadTimeBytes_msg (t : Time) (rest : list Z) : time_ok t -> ReadTimeBytes (time_bytes t ++ rest) = ok t rest.
Proof.
  intros Ht. pose proof (time_of_bytes t rest Ht) as E. pose proof (length_time_bytes t) as Hl. unfold ReadTimeBytes.
  assert (Hd : drop 15 (time_bytes t ++ rest) = rest) by (by apply drop_app_length').
  assert (Hlen : (len (time_bytes t ++ rest) <? 15) = false).
  { apply Z.ltb_ge. unfold len. rewrite length_app. lia. }
  change (time_bytes t ++ rest) with (mext8 :: 12 :: TimeExtension :: (be 8 t.1 ++ be 4 t.2) ++ rest) in *.
  rewrite Hlen, E, Hd. done.
Qed.

(** ** Sizes *)

Lemma len_prefixu (pre : Z) (n : nat) (v : Z) : len (prefixu pre n v) = 1 + Z.of_nat n.
Proof. unfold len, prefixu. cbn [length]. rewrite length_be. lia. Qed.

Ltac sized := repeat case_match; bool_to_prop; rewrite ?len_prefixu; unfold len; cbn [length]; lia.

Lemma map_header_size (n : Z) : 1 <= len (map_header n) <= MapHeaderSize.
Proof. unfold map_header. unfold MapHeaderSize. sized. Qed.
Lemma array_header_size (n : Z) : 1 <= len (array_header n) <= ArrayHeaderSize.
Proof. unfold array_header. unfold ArrayHeaderSize. sized. Qed.
Lemma str_header_size (n : Z) : 1 <= len (str_header n) <= StringPrefixSize.
Proof. unfold str_header. unfold StringPrefixSize. sized. Qed.
Lemma bin_header_size (n : Z) : 1 <= len (bin_header n) <= BytesPrefixSize.
Proof. unfold bin_header. unfold BytesPrefixSize. sized. Qed.
Lemma int64_size (i : Z) : 1 <= len (int64_bytes i) <= Int64Size.
Proof. unfold int64_bytes, Int64Size. sized. Qed.
Lemma int32_size (i : Z) : - 2 ^ 31 <= i < 2 ^ 31 -> len (int64_bytes i) <= Int32Size.
Proof. intros Hi. unfold int64_bytes, Int32Size. sized. Qed.
Lemma uint64_size (u : Z) : 1 <= len (uint64_bytes u) <= Uint64Size.
Proof. unfold uint64_bytes, Uint64Size. sized. Qed.
Lemma uint32_size (u : Z) : in_width 32 u -> len (uint64_bytes u) <= Uint32Size.
Proof. unfold in_width. intros Hu. unfold uint64_bytes, Uint32Size. sized. Qed.
Lemma float64_size (f : float64) : len (float64_bytes f) = Float64Size.
Proof. apply len_prefixu. Qed.
Lemma time_size (t : Time) : len (time_bytes t) = TimeSize.
Proof. unfold len. by rewrite length_time_bytes. Qed.

(** ** Reading and skipping end *)

Definition is_bytes (b : list Z) : Prop := Forall (fun x => 0 <= x < 256) b.

Definition shorter (o b : list Z) : Prop := exists p, b = p ++ o /\ p <> [].

Lemma shorter_length (o b : list Z) : shorter o b -> (length o < length b)%nat.
Proof. intros (p & -> & Hp). rewrite length_app. destruct p; [done|cbn; lia]. Qed.

Lemma shorter_bytes (o b : list Z) : shorter o b -> is_bytes b -> is_bytes o.
Proof. intros (p & -> & _). apply Forall_app. Qed.

Lemma shorter_trans (a b c : list Z) : shorter a b -> shorter b c -> shorter a c.
Proof. intros (p & -> & Hp) (q & -> & Hq). exists (q ++ p). rewrite (assoc_L (++)). split; [done|]. by destruct q. Qed.

Lemma shorter_drop (n : nat) (b : list Z) : b <> [] -> (0 < n)%nat -> shorter (drop n b) b.
Proof. intros Hb Hn. exists (take n b). rewrite take_drop. split; [done|]. destruct n, b; [lia|lia|done|done]. Qed.

(** A reading that returns takes at least a byte; it does not run out of
    fuel. *)
Definition shrinks {A} (b : list Z) (r : res A (list Z)) : Prop :=
  match r with
  | (_, o, Ok _) => shorter o b
  | (_, _, NoFuel) => False
  | _ => True
  end.

(** At least no byte more than there is. *)
Definition keeps {A} (b : list Z) (r : res A (list Z)) : Prop :=
  match r with
  | (_, o, Ok _) => o = b \/ shorter o b
  | (_, _, NoFuel) => False
  | _ => True
  end.

Lemma on_ok_keeps {A B} (b : list Z) (r : res A (list Z)) (z : B) (k : A -> list Z -> res B (list Z)) :
  shrinks b r -> (forall a o, shorter o b -> keeps o (k a o)) -> shrinks b (on_ok r z k).
Proof.
  intros Hr Hk. destruct r as [[a o] []]; cbn in *; auto. specialize (Hk a o Hr).
  destruct (k a o) as [[a' o'] []]; cbn in *; auto. destruct Hk as [->|Hk]; eauto using shorter_trans.
Qed.

Lemma shrinks_keeps {A} (b : list Z) (r : res A (list Z)) : shrinks b r -> keeps b r.
Proof. destruct r as [[? ?] []]; cbn; auto. Qed.

Lemma read_form_shrinks {A} (f : Z -> form A) (zero : A) (b : list Z) : shrinks b (read_form f zero b).
Proof.
  unfold read_form. destruct b as [|lead o]; [done|]. destruct (f lead) as [a|n conv|e]; [by exists [lead]| |done].
  destruct (payload n (lead :: o)) as [[v r]|] eqn:E; [|done]. unfold payload in E. case_match; [done|]. simplify_eq.
  apply (shorter_drop (1 + n)); [done|lia].
Qed.

Lemma read_data_keeps (b : list Z) (n : Z) : keeps b (read_data b n).
Proof.
  unfold read_data. case_match; [done|]. cbn. destruct (decide (b = []))as [->|Hb].
  { left. apply drop_nil. }
  destruct (Z.to_nat n) as [|k] eqn:Hn; [by left|]. right. apply shorter_drop; [done|lia].
Qed.

Lemma ReadStringZC_shrinks (b : list Z) : shrinks b (ReadStringZC b).
Proof. unfold ReadStringZC. apply on_ok_keeps; [apply read_form_shrinks|]. intros. apply read_data_keeps. Qed.

Lemma ReadBytesZC_shrinks (b : list Z) : shrinks b (ReadBytesZC b).
Proof. unfold ReadBytesZC. apply on_ok_keeps; [apply read_form_shrinks|]. intros. apply read_data_keeps. Qed.

Lemma ReadStringBytes_shrinks (b : list Z) : shrinks b (ReadStringBytes b).
Proof. unfold ReadStringBytes. pose proof (ReadStringZC_shrinks b) as H. by destruct (ReadStringZC b) as [[v o] []]. Qed.

Lemma ReadMapKeyZC_shrinks (b : list Z) : shrinks b (ReadMapKeyZC b).
Proof.
  unfold ReadMapKeyZC. pose proof (ReadStringZC_shrinks b) as H. destruct (ReadStringZC b) as [[v o] []]; cbn in *; auto.
  by case_match.
Qed.

Lemma ReadTimeBytes_shrinks (b : list Z) : shrinks b (ReadTimeBytes b).
Proof.
  unfold ReadTimeBytes. repeat case_match; try done. apply (shorter_drop 15); [done|lia].
Qed.

Lemma ReadFloat64Bytes_shrinks (b : list Z) : shrinks b (ReadFloat64Bytes b).
Proof.
  unfold ReadFloat64Bytes, ReadFloat32Bytes. repeat case_match; try done; apply read_form_shrinks.
Qed.

Lemma narrow_shrinks (b : list Z) (r : res Z (list Z)) : shrinks b r -> shrinks b (narrow_int r) /\ shrinks b (narrow_uint r).
Proof.
  destruct r as [[i o] e]. unfold narrow_int, narrow_uint. intros H. split.
  - by destruct (_ || _).
  - by destruct (_ >? _).
Qed.

Lemma sizes_nonneg (lead : Z) : 0 <= lead < 256 -> 0 <= sp_size (sizes lead).
Proof.
  intros H. apply Z.leb_le. apply (all_below_spec 256 (fun lead => 0 <=? sp_size (sizes lead))); [vm_compute; reflexivity|lia].
Qed.

Lemma be_get_nonneg (bs : list Z) : is_bytes bs -> 0 <= be_get bs.
Proof.
  unfold be_get. assert (forall a, 0 <= a -> is_bytes bs -> 0 <= foldl (fun a b => Z.lor (Z.shiftl a 8) b) a bs) as H; [|by apply H].
  induction bs as [|b bs IH]; intros a Ha Hb; [done|]. inversion Hb; subst. cbn. apply IH; [|done]. rewrite lor_byte; lia.
Qed.

Lemma getSize_pos (b : list Z) (sz asz : Z) : is_bytes b -> getSize b = inl (sz, asz) -> 1 <= sz.
Proof.
  intros Hb. destruct b as [|lead o]; [done|]. unfold getSize. cbn zeta.
  assert (Hn : forall n, 0 <= be_get (take n (drop 1 (lead :: o)))).
  { intros n. apply be_get_nonneg. by apply Forall_take, Forall_drop. }
  assert (Hs : 0 <= sp_size (sizes lead)) by (apply sizes_nonneg; by inversion Hb).
  revert Hn Hs. generalize (sp_size (sizes lead)), (sp_extra (sizes lead)). intros size mode Hn Hs E.
  pose proof (Hn 1%nat). pose proof (Hn 2%nat). pose proof (Hn 4%nat).
  repeat (case_match; try done); bool_to_prop; simplify_eq; lia.
Qed.

Lemma skip_objects_shrinks (fuel : nat) (n : Z) (b : list Z) :
  is_bytes b -> (length b < fuel)%nat ->
  (if n <=? 0 then keeps b (skip_objects fuel n b) else shrinks b (skip_objects fuel n b)).
Proof.
  revert n b. induction fuel as [|fuel IH]; intros n b Hb Hf; [lia|]. cbn [skip_objects].
  destruct (n <=? 0) eqn:Hn; [by left|]. destruct (getSize b) as [[sz asz]|e] eqn:E; [|done].
  pose proof (getSize_pos b sz asz Hb E) as Hp. destruct (len b <? sz); [done|].
  assert (Hne : b <> []) by (by intros ->).
  assert (Hd : shorter (drop (Z.to_nat sz) b) b) by (apply shorter_drop; [done|lia]).
  assert (Hl := shorter_length _ _ Hd). assert (Hdb := shorter_bytes _ _ Hd Hb).
  assert (Hks : forall n b, is_bytes b -> (length b < fuel)%nat -> keeps b (skip_objects fuel n b)).
  { intros n' b' Hb' Hf'. specialize (IH n' b' Hb' Hf'). destruct (n' <=? 0); [done|by apply shrinks_keeps]. }
  pose proof (Hks asz _ Hdb ltac:(lia)) as H1.
  destruct (skip_objects fuel asz _) as [[u o] []]; cbn in *; try done.
  assert (Ho : shorter o b) by (destruct H1 as [->|H1]; eauto using shorter_trans).
  pose proof (Hks (n - 1) o (shorter_bytes _ _ Ho Hb)) as H2. apply shorter_length in Ho as Hol.
  specialize (H2 ltac:(lia)). destruct (skip_objects fuel (n - 1) o) as [[u' o'] []]; cbn in *; try done.
  destruct H2 as [->|H2]; eauto using shorter_trans.
Qed.

Lemma Skip_shrinks (b : list Z) : is_bytes b -> shrinks b (Skip b).
Proof. intros Hb. apply (skip_objects_shrinks (S (length b)) 1 b Hb). lia. Qed.
