(* ===== verification/MsgpShape.v ===== *)
(** The code that the MessagePack generator emits ([schemas/*/*_msgp.go],
    [series/msgpacker/msgpacker.msgp.go]).

    The generator walks the type of a message and emits, for each part of
    it, the same pieces of code: what it emits is [encode], [decode] and
    [Msgsize] below, by recursion on the [shape] of the type.  [MarshalMsg]
    and [EncodeMsg] are the same code over two kinds of sinks, bytes that
    are appended to and a buffered writer; [UnmarshalMsg] and [DecodeMsg]
    are the same code over two kinds of sources, so what the code needs of
    them is a class each.

    Decoding changes an object that may hold something already, as it does
    in the code: a slice is used again when its capacity is enough, with
    the objects it still holds. *)
From S2P Require Import Prelude Float64 GoStrings GoParse Wire Msgp.

Open Scope Z_scope.

(** ** Slices *)

(** The visible elements, and those between the length and the capacity. *)
Record gslice (A : Type) := mkSlice { s_vals : list A; s_spare : list A }.
Arguments mkSlice {A}.
Arguments s_vals {A}.
Arguments s_spare {A}.

Definition slice_of {A} (l : list A) : gslice A := mkSlice l [].

(** [if cap(z) >= n { z = z[:n] } else { z = make([]T, n) }]. *)
Definition reslice {A} (zero : A) (n : nat) (z : gslice A) : gslice A :=
  let arr := s_vals z ++ s_spare z in
  if (n <=? length arr)%nat then mkSlice (take n arr) (drop n arr) else mkSlice (replicate n zero) [].

(** ** Shapes of types *)

Inductive shape :=
| SInt64 | SInt32 | SUint64 | SUint32 | SFloat64 | SBool | SString | SBytes | STime
| SPtr (sh : shape)
| SSlice (sh : shape)
| SMap (sh : shape)
| SStruct (fs : fields)
with fields :=
| FNil
| FCons (name : string) (sh : shape) (fs : fields).

Declare Scope shape_scope.
Delimit Scope shape_scope with shape.
Notation "n ↦ sh ;; fs" := (FCons n sh fs) (at level 70, sh at next level, right associativity) : shape_scope.
Bind Scope shape_scope with fields.
Bind Scope shape_scope with shape.

(** The objects.  A map is the list of its entries in the order in which
    the range loop gives them.  A pointer is nil or the value it points to:
    these are the objects in which no two pointers meet, as those that
    decoding makes itself; into one whose pointers meet, decoding a part
    would also change another. *)
Fixpoint denote (sh : shape) : Type :=
  match sh with
  | SInt64 | SInt32 | SUint64 | SUint32 => Z
  | SFloat64 => float64
  | SBool => bool
  | SString => string
  | SBytes => gslice Z
  | STime => Time
  | SPtr sh => option (denote sh)
  | SSlice sh => gslice (denote sh)
  | SMap sh => list (string * denote sh)
  | SStruct fs => denote_fields fs
  end
with denote_fields (fs : fields) : Type :=
  match fs with
  | FNil => unit
  | FCons _ sh fs => denote sh * denote_fields fs
  end.

(** The zero value of a type. *)
Fixpoint zero (sh : shape) : denote sh :=
  match sh with
  | SInt64 | SInt32 | SUint64 | SUint32 => 0
  | SFloat64 => 0
  | SBool => false
  | SString => ""%string
  | SBytes => slice_of []
  | STime => zero_time
  | SPtr _ => None
  | SSlice _ => slice_of []
  | SMap _ => []
  | SStruct fs => zero_fields fs
  end
with zero_fields (fs : fields) : denote_fields fs :=
  match fs with
  | FNil => tt
  | FCons _ sh fs => (zero sh, zero_fields fs)
  end.

Fixpoint fields_count (fs : fields) : Z :=
  match fs with FNil => 0 | FCons _ _ fs => 1 + fields_count fs end.

Definition string_msg (s : string) : list Z := str_header (len (string_bytes s)) ++ string_bytes s.

(** ** Writing *)

Class Sink (K : Type) := {
  (** A piece of a fixed form: a prefix and a number. *)
  snk_small : K -> list Z -> res unit K;
  (** The constant bytes of a key. *)
  snk_const : K -> list Z -> res unit K;
  snk_string : K -> string -> res unit K;
  snk_bytes : K -> list Z -> res unit K
}.

Section writing.
Context {K : Type} `{!Sink K}.

Definition then_ (r : res unit K) (f : K -> res unit K) : res unit K := on_ok r tt (fun _ k => f k).

Fixpoint each {A} (f : A -> K -> res unit K) (l : list A) (k : K) : res unit K :=
  match l with
  | [] => ok tt k
  | a :: l => then_ (f a k) (each f l)
  end.

(** The header of a struct is written together with its first key. *)
Fixpoint encode (sh : shape) : denote sh -> K -> res unit K :=
  match sh with
  | SInt64 | SInt32 => fun v k => snk_small k (int64_bytes v)
  | SUint64 | SUint32 => fun v k => snk_small k (uint64_bytes v)
  | SFloat64 => fun v k => snk_small k (float64_bytes v)
  | SBool => fun v k => snk_small k (bool_bytes v)
  | SString => fun v k => snk_string k v
  | SBytes => fun v k => snk_bytes k (s_vals v)
  | STime => fun v k => snk_small k (time_bytes v)
  | SPtr sh => fun v k => match v with None => snk_small k [mnil] | Some v => encode sh v k end
  | SSlice sh => fun v k =>
      then_ (snk_small k (array_header (u32 (len (s_vals v))))) (each (encode sh) (s_vals v))
  | SMap sh => fun v k =>
      then_ (snk_small k (map_header (u32 (len v))))
        (each (fun e k => then_ (snk_string k e.1) (encode sh e.2)) v)
  | SStruct fs => fun v k => encode_fields fs (map_header (fields_count fs)) v k
  end
with encode_fields (fs : fields) : list Z -> denote_fields fs -> K -> res unit K :=
  match fs with
  | FNil => fun pre _ k => match pre with [] => ok tt k | _ => snk_const k pre end
  | FCons name sh fs => fun pre v k =>
      then_ (snk_const k (pre ++ string_msg name)) (fun k =>
      then_ (encode sh v.1 k) (encode_fields fs [] v.2))
  end.

End writing.

(** ** Reading *)

Class Source (Sr : Type) := {
  src_map_header : Sr -> res Z Sr;
  src_array_header : Sr -> res Z Sr;
  src_key : Sr -> res (list Z) Sr;
  src_is_nil : Sr -> bool * Sr;
  src_nil : Sr -> res unit Sr;
  src_int64 : Sr -> res Z Sr;
  src_int32 : Sr -> res Z Sr;
  src_uint64 : Sr -> res Z Sr;
  src_uint32 : Sr -> res Z Sr;
  src_float64 : Sr -> res float64 Sr;
  src_bool : Sr -> res bool Sr;
  src_string : Sr -> res string Sr;
  src_bytes : gslice Z -> Sr -> res (gslice Z) Sr;
  src_time : Sr -> res Time Sr;
  src_skip : nat -> Sr -> res unit Sr
}.

Section reading.
Context {Sr : Type} `{!Source Sr}.

(** [for i := range z]: the elements after one that fails stay. *)
Fixpoint elements {A} (f : A -> Sr -> res A Sr) (todo : list A) (s : Sr) : res (list A) Sr :=
  match todo with
  | [] => ok [] s
  | a :: todo =>
      match f a s with
      | (a, s, Ok _) => let '(l, s, o) := elements f todo s in (a :: l, s, o)
      | (a, s, o) => (a :: todo, s, o)
      end
  end.

(** [for n > 0 { n--; ... }]. *)
Fixpoint rounds {A} (fuel : nat) (f : A -> Sr -> res A Sr) (n : Z) (z : A) (s : Sr) : res A Sr :=
  if n <=? 0 then ok z s
  else
    match fuel with
    | O => (z, s, NoFuel)
    | S fuel =>
        match f z s with
        | (z, s, Ok _) => rounds fuel f (n - 1) z s
        | r => r
        end
    end.

(** [m[key] = v]. *)
Fixpoint map_set {A} (key : string) (v : A) (m : list (string * A)) : list (string * A) :=
  match m with
  | [] => [(key, v)]
  | e :: m => if bool_decide (e.1 = key) then (key, v) :: m else e :: map_set key v m
  end.

(** A round of the loop over the fields: the key, and the switch. *)
Definition field_round {A} (fuel : nat) (switch : string -> A -> Sr -> option (res A Sr)) (z : A) (s : Sr) : res A Sr :=
  on_ok (src_key s) z (fun key s =>
    match UnsafeString key with
    | None => (z, s, Panic)
    | Some name =>
        match switch name z s with
        | Some r => r
        | None => let '(_, s, o) := src_skip fuel s in (z, s, o)
        end
    end).

Definition entry_round {A} (f : Sr -> res A Sr) (m : list (string * A)) (s : Sr) : res (list (string * A)) Sr :=
  on_ok (src_string s) m (fun key s => on_ok (f s) m (fun v s => ok (map_set key v m) s)).

Fixpoint decode (fuel : nat) (sh : shape) : denote sh -> Sr -> res (denote sh) Sr :=
  match sh with
  | SInt64 => fun _ s => src_int64 s
  | SInt32 => fun _ s => src_int32 s
  | SUint64 => fun _ s => src_uint64 s
  | SUint32 => fun _ s => src_uint32 s
  | SFloat64 => fun _ s => src_float64 s
  | SBool => fun _ s => src_bool s
  | SString => fun _ s => src_string s
  | SBytes => fun z s => src_bytes z s
  | STime => fun _ s => src_time s
  | SPtr sh => fun z s =>
      let '(isnil, s) := src_is_nil s in
      if isnil then on_ok (src_nil s) z (fun _ s => ok None s)
      else let '(v, s, o) := decode fuel sh (default (zero sh) z) s in (Some v, s, o)
  | SSlice sh => fun z s =>
      on_ok (src_array_header s) z (fun n s =>
        let z := reslice (zero sh) (Z.to_nat n) z in
        let '(l, s, o) := elements (decode fuel sh) (s_vals z) s in (mkSlice l (s_spare z), s, o))
  | SMap sh => fun z s =>
      on_ok (src_map_header s) z (fun n s => rounds fuel (entry_round (decode fuel sh (zero sh))) n [] s)
  | SStruct fs => fun z s =>
      on_ok (src_map_header s) z (fun n s => rounds fuel (field_round fuel (decode_field fuel fs)) n z s)
  end
with decode_field (fuel : nat) (fs : fields) : string -> denote_fields fs -> Sr -> option (res (denote_fields fs) Sr) :=
  match fs with
  | FNil => fun _ _ _ => None
  | FCons name sh fs => fun key z s =>
      if bool_decide (key = name) then
        Some (let '(v, s, o) := decode fuel sh z.1 s in ((v, z.2), s, o))
      else
        match decode_field fuel fs key z.2 s with
        | Some (r, s, o) => Some ((z.1, r), s, o)
        | None => None
        end
  end.

End reading.

(** ** Sizes *)

Definition total {A} (f : A -> Z) (l : list A) : Z := foldr (fun a n => f a + n) 0 l.

Definition string_size (s : string) : Z := StringPrefixSize + len (string_bytes s).

Fixpoint Msgsize (sh : shape) : denote sh -> Z :=
  match sh with
  | SInt64 => fun _ => Int64Size
  | SInt32 => fun _ => Int32Size
  | SUint64 => fun _ => Uint64Size
  | SUint32 => fun _ => Uint32Size
  | SFloat64 => fun _ => Float64Size
  | SBool => fun _ => BoolSize
  | SString => fun v => string_size v
  | SBytes => fun v => BytesPrefixSize + len (s_vals v)
  | STime => fun _ => TimeSize
  | SPtr sh => fun v => match v with None => NilSize | Some v => Msgsize sh v end
  | SSlice sh => fun v => ArrayHeaderSize + total (Msgsize sh) (s_vals v)
  | SMap sh => fun v => MapHeaderSize + total (fun e => string_size e.1 + Msgsize sh e.2) v
  | SStruct fs => fun v => len (map_header (fields_count fs)) + fields_size fs v
  end
with fields_size (fs : fields) : denote_fields fs -> Z :=
  match fs with
  | FNil => fun _ => 0
  | FCons name sh fs => fun v => len (string_msg name) + Msgsize sh v.1 + fields_size fs v.2
  end.

(** ** [MarshalMsg] and [UnmarshalMsg] *)

#[export] Instance bytes_Sink : Sink (list Z) := {
  snk_small k p := ok tt (k ++ p);
  snk_const k p := ok tt (k ++ p);
  snk_string k s := ok tt (AppendString k s);
  snk_bytes k p := ok tt (AppendBytes k p)
}.

(** [ReadBytesBytes]: the buffer of the object is used when it is large
    enough; after an error the object has none. *)
Definition ReadBytesBytes (z : gslice Z) (b : list Z) : res (gslice Z) (list Z) :=
  match ReadBytesZC b with
  | (v, o, Ok _) =>
      ok (if (length v <=? length (s_vals z ++ s_spare z))%nat
          then mkSlice v (drop (length v) (s_vals z ++ s_spare z)) else slice_of v) o
  | (_, o, err) => (slice_of [], o, err)
  end.

#[export] Instance bytes_Source : Source (list Z) := {
  src_map_header := ReadMapHeaderBytes;
  src_array_header := ReadArrayHeaderBytes;
  src_key := ReadMapKeyZC;
  src_is_nil b := (IsNil b, b);
  src_nil := ReadNilBytes;
  src_int64 := ReadInt64Bytes;
  src_int32 := ReadInt32Bytes;
  src_uint64 := ReadUint64Bytes;
  src_uint32 := ReadUint32Bytes;
  src_float64 := ReadFloat64Bytes;
  src_bool := ReadBoolBytes;
  src_string := ReadStringBytes;
  src_bytes := ReadBytesBytes;
  src_time := ReadTimeBytes;
  src_skip _ := Skip
}.

Definition MarshalMsg (sh : shape) (v : denote sh) (b : list Z) : outcome (list Z) :=
  match encode sh v b with
  | (_, o, Ok _) => Ok o
  | (_, _, Err e) => Err e
  | (_, _, Panic) => Panic
  | (_, _, NoFuel) => NoFuel
  end.

(** Every round of a loop takes a byte or fails. *)
Definition UnmarshalMsg (sh : shape) (z : denote sh) (bts : list Z) : res (denote sh) (list Z) :=
  decode (S (length bts)) sh z bts.

Section example.
Open Scope shape_scope.
Definition pair_shape : shape := SStruct ("Name" ↦ SString ;; "Value" ↦ SSlice (SPtr SInt64) ;; FNil).
Example pair_bytes :
  MarshalMsg pair_shape ("ab"%string, (slice_of [Some (-200); None], tt)) [] =
    Ok [0x82; 0xa4; 0x4e; 0x61; 0x6d; 0x65; 0xa2; 0x61; 0x62; 0xa5; 0x56; 0x61; 0x6c; 0x75; 0x65; 0x92; 0xd1; 0xff; 0x38; 0xc0].
Proof. vm_compute. reflexivity. Qed.
Example pair_read :
  UnmarshalMsg pair_shape ("x"%string, (mkSlice [] [Some 1; Some 2; None], tt))
    [0x82; 0xa4; 0x4e; 0x61; 0x6d; 0x65; 0xa2; 0x61; 0x62; 0xa5; 0x56; 0x61; 0x6c; 0x75; 0x65; 0x92; 0xd1; 0xff; 0x38; 0xc0; 7] =
    ok ("ab"%string, (mkSlice [Some (-200); None] [None], tt)) [7].
Proof. vm_compute. reflexivity. Qed.
End example.
