(* ===== verification/MsgpShapeTheorems.v ===== *)
(** What the generated MessagePack code does, for every shape of a message.

    A sink and a source are used through their laws ([SinkLaws],
    [SourceLaws]): a sink takes the bytes it is given, a source that holds
    the bytes of a value gives the value.  Under them an object is written
    as [put] says and read back into any object, whatever that one held.
    [Msgsize] is enough for the bytes, and reading ends on any bytes. *)
From S2P Require Import Prelude Float64 GoStrings GoParse Wire WireTheorems Msgp MsgpShape.

Open Scope Z_scope.

Scheme shape_mut := Induction for shape Sort Prop
  with fields_mut := Induction for fields Sort Prop.
Combined Scheme shape_fields_ind from shape_mut, fields_mut.

(** ** The bytes of an object *)

Definition bytes_msg (b : list Z) : list Z := bin_header (len b) ++ b.

Fixpoint put (sh : shape) : denote sh -> list Z :=
  match sh with
  | SInt64 | SInt32 => int64_bytes
  | SUint64 | SUint32 => uint64_bytes
  | SFloat64 => float64_bytes
  | SBool => bool_bytes
  | SString => string_msg
  | SBytes => fun v => bytes_msg (s_vals v)
  | STime => time_bytes
  | SPtr sh => fun v => match v with None => [mnil] | Some v => put sh v end
  | SSlice sh => fun v => array_header (len (s_vals v)) ++ (s_vals v ≫= put sh)
  | SMap sh => fun v => map_header (len v) ++ (v ≫= (fun e => string_msg e.1 ++ put sh e.2))
  | SStruct fs => fun v => map_header (fields_count fs) ++ put_fields fs v
  end
with put_fields (fs : fields) : denote_fields fs -> list Z :=
  match fs with
  | FNil => fun _ => []
  | FCons name sh fs => fun v => string_msg name ++ put sh v.1 ++ put_fields fs v.2
  end.

(** ** Objects that fit *)

Definition fits (n : Z) : Prop := n < 2 ^ 32.

Fixpoint valid (sh : shape) : denote sh -> Prop :=
  match sh with
  | SInt64 => fun v => - 2 ^ 63 <= v < 2 ^ 63
  | SInt32 => fun v => - 2 ^ 31 <= v < 2 ^ 31
  | SUint64 => fun v => in_width 64 v
  | SUint32 => fun v => in_width 32 v
  | SFloat64 => fun v => in_width 64 v
  | SBool => fun _ => True
  | SString => fun v => fits (len (string_bytes v))
  | SBytes => fun v => fits (len (s_vals v))
  | STime => time_ok
  | SPtr sh => fun v => match v with None => True | Some v => valid sh v end
  | SSlice sh => fun v => fits (len (s_vals v)) /\ Forall (valid sh) (s_vals v)
  | SMap sh => fun v =>
      fits (len v) /\ NoDup v.*1 /\ Forall (fun e => fits (len (string_bytes e.1)) /\ valid sh e.2) v
  | SStruct fs => valid_fields fs
  end
with valid_fields (fs : fields) : denote_fields fs -> Prop :=
  match fs with
  | FNil => fun _ => True
  | FCons _ sh fs => fun v => valid sh v.1 /\ valid_fields fs v.2
  end.

(** Shapes the generator can give: at most fifteen fields in a struct, with
    different names that are not empty and not long; no pointer to a
    pointer. *)
Fixpoint names (fs : fields) : list string :=
  match fs with FNil => [] | FCons name _ fs => name :: names fs end.

Definition name_ok (name : string) : bool := (1 <=? len (string_bytes name)) && (len (string_bytes name) <=? 31).

Definition is_ptr (sh : shape) : bool := match sh with SPtr _ => true | _ => false end.

Fixpoint wf (sh : shape) : bool :=
  match sh with
  | SPtr sh => negb (is_ptr sh) && wf sh
  | SSlice sh | SMap sh => wf sh
  | SStruct fs => (fields_count fs <=? 15) && wf_fields fs
  | _ => true
  end
with wf_fields (fs : fields) : bool :=
  match fs with
  | FNil => true
  | FCons name sh fs => name_ok name && bool_decide (name ∉ names fs) && wf sh && wf_fields fs
  end.

(** Objects that differ only in what lies between the length and the
    capacity of slices. *)
Fixpoint clean (sh : shape) : denote sh -> denote sh :=
  match sh with
  | SInt64 | SInt32 | SUint64 | SUint32 | SFloat64 => fun v => v
  | SBool => fun v => v
  | SString => fun v => v
  | SBytes => fun v => slice_of (s_vals v)
  | STime => fun v => v
  | SPtr sh => fun v => clean sh <$> v
  | SSlice sh => fun v => slice_of (clean sh <$> s_vals v)
  | SMap sh => fun v => (fun e => (e.1, clean sh e.2)) <$> v
  | SStruct fs => clean_fields fs
  end
with clean_fields (fs : fields) : denote_fields fs -> denote_fields fs :=
  match fs with
  | FNil => fun v => v
  | FCons _ sh fs => fun v => (clean sh v.1, clean_fields fs v.2)
  end.

Definition same (sh : shape) : relation (denote sh) := fun a b => clean sh a = clean sh b.

#[export] Instance same_equiv (sh : shape) : Equivalence (same sh).
Proof. unfold same. split; [done|by intros ? ?|by intros ? ? ? -> ->]. Qed.

Lemma len_fmap {A B} (f : A -> B) (l : list A) : len (f <$> l) = len l.
Proof. unfold len. by rewrite length_fmap. Qed.

(** The bytes depend on the visible part only. *)
Lemma put_clean_both :
  (forall sh v, put sh (clean sh v) = put sh v) /\ (forall fs v, put_fields fs (clean_fields fs v) = put_fields fs v).
Proof.
  apply shape_fields_ind; try done.
  - intros sh IH [v|]; [apply IH|done].
  - intros sh IH [vals spare]. cbn. rewrite len_fmap. f_equal. induction vals as [|v vals IHv]; [done|].
    cbn. rewrite IH. by f_equal.
  - intros sh IH v. cbn. rewrite len_fmap. f_equal. induction v as [|e v IHv]; [done|]. cbn. rewrite IH. by f_equal.
  - intros fs IH v. cbn. by rewrite IH.
  - intros name sh IH fs IHf v. cbn. by rewrite IH, IHf.
Qed.

#[export] Instance put_proper (sh : shape) : Proper (same sh ==> eq) (put sh).
Proof. intros a b E. unfold same in E. by rewrite <- (proj1 put_clean_both sh a), <- (proj1 put_clean_both sh b), E. Qed.

(** ** Writing *)

Class SinkLaws (K : Type) `{!Sink K} := {
  sunk : K -> list Z;
  sink_good : K -> Prop;
  (** What [EncodeMsg] writes at once as a constant is at most this long. *)
  law_small : forall k p, sink_good k -> len p <= 18 ->
    exists k', snk_small k p = ok tt k' /\ sunk k' = sunk k ++ p /\ sink_good k';
  law_const : forall k p, sink_good k -> len p <= 64 ->
    exists k', snk_const k p = ok tt k' /\ sunk k' = sunk k ++ p /\ sink_good k';
  law_put_string : forall k s, sink_good k -> fits (len (string_bytes s)) ->
    exists k', snk_string k s = ok tt k' /\ sunk k' = sunk k ++ string_msg s /\ sink_good k';
  law_put_bytes : forall k p, sink_good k -> fits (len p) ->
    exists k', snk_bytes k p = ok tt k' /\ sunk k' = sunk k ++ bytes_msg p /\ sink_good k'
}.

Section writing.
Context {K : Type} `{!Sink K} `{!SinkLaws K}.

Definition takes (r : res unit K) (k : K) (p : list Z) : Prop :=
  exists k', r = ok tt k' /\ sunk k' = sunk k ++ p /\ sink_good k'.

Lemma takes_then (r : res unit K) (k : K) (p q : list Z) (f : K -> res unit K) :
  takes r k p -> (forall k', sink_good k' -> takes (f k') k' q) -> takes (then_ r f) k (p ++ q).
Proof.
  intros (k1 & -> & Hs & Hg) Hf. destruct (Hf k1 Hg) as (k2 & E & Hs2 & Hg2). exists k2.
  unfold then_, on_ok, ok. cbn. rewrite E. split; [done|]. split; [|done]. by rewrite Hs2, Hs, (assoc_L (++)).
Qed.

Lemma takes_each {A} (f : A -> K -> res unit K) (g : A -> list Z) (P : A -> Prop) (l : list A) (k : K) :
  (forall a k, P a -> sink_good k -> takes (f a k) k (g a)) -> Forall P l -> sink_good k -> takes (each f l k) k (l ≫= g).
Proof.
  intros Hf Hl. revert k. induction Hl as [|a l Ha Hl IH]; intros k Hk.
  { exists k. cbn. by rewrite app_nil_r. }
  cbn. apply takes_then; [by apply Hf|]. intros. by apply IH.
Qed.

Lemma len_string_msg (s : string) : len (string_msg s) <= 5 + len (string_bytes s) /\ 1 <= len (string_msg s).
Proof. unfold string_msg. rewrite len_app. pose proof (str_header_size (len (string_bytes s))). unfold len, StringPrefixSize in *. lia. Qed.

Lemma encode_takes :
  (forall sh, wf sh = true -> forall v k, valid sh v -> sink_good k -> takes (encode sh v k) k (put sh v)) /\
  (forall fs, wf_fields fs = true -> forall pre v k, len pre <= 5 -> valid_fields fs v -> sink_good k ->
     takes (encode_fields fs pre v k) k (pre ++ put_fields fs v)).
Proof.
  apply shape_fields_ind; cbn [wf wf_fields encode encode_fields put put_fields valid valid_fields].
  - intros _ v k _ Hk. apply law_small; [done|]. pose proof (int64_size v). unfold Int64Size in *. lia.
  - intros _ v k _ Hk. apply law_small; [done|]. pose proof (int64_size v). unfold Int64Size in *. lia.
  - intros _ v k _ Hk. apply law_small; [done|]. pose proof (uint64_size v). unfold Uint64Size in *. lia.
  - intros _ v k _ Hk. apply law_small; [done|]. pose proof (uint64_size v). unfold Uint64Size in *. lia.
  - intros _ v k _ Hk. apply law_small; [done|]. rewrite float64_size. done.
  - intros _ v k _ Hk. by apply law_small.
  - intros _ v k Hv Hk. by apply law_put_string.
  - intros _ v k Hv Hk. by apply law_put_bytes.
  - intros _ v k _ Hk. apply law_small; [done|]. rewrite time_size. done.
  - intros sh IH Hw v k Hv Hk. bool_to_prop. destruct v as [v|]; [by apply IH|by apply law_small].
  - intros sh IH Hw v k [Hn Hv] Hk. unfold fits in Hn. unfold wrap. rewrite Z.mod_small by (unfold len in *; lia).
    apply takes_then.
    + apply law_small; [done|]. pose proof (array_header_size (len (s_vals v))). unfold ArrayHeaderSize in *. lia.
    + intros. eapply takes_each; [|done|done]. intros. by apply IH.
  - intros sh IH Hw v k (Hn & _ & Hv) Hk. unfold fits in Hn. unfold wrap. rewrite Z.mod_small by (unfold len in *; lia).
    apply takes_then.
    + apply law_small; [done|]. pose proof (map_header_size (len v)). unfold MapHeaderSize in *. lia.
    + intros. eapply takes_each; [|done|done]. intros e k'' [? ?] ?. apply takes_then; [by apply law_put_string|]. intros. by apply IH.
  - intros fs IH Hw v k Hv Hk. bool_to_prop. apply IH; [done| |done|done]. apply map_header_size.
  - intros _ pre _ k Hp _ Hk. rewrite app_nil_r. destruct pre; [|apply law_const; [done|lia]].
    exists k. by rewrite app_nil_r.
  - intros name sh IH fs IHf Hw pre [v r] k Hp [Hv Hr] Hk. bool_to_prop. rewrite (assoc_L (++)). apply takes_then.
    + apply law_const; [done|]. rewrite len_app. pose proof (len_string_msg name). unfold name_ok in *. bool_to_prop. lia.
    + intros k1 Hk1. apply takes_then; [by apply IH|]. intros k2 Hk2. apply (IHf ltac:(done) [] r k2); [done|done|done].
Qed.

End writing.

#[export] Instance bytes_SinkLaws : SinkLaws (list Z).
Proof.
  refine (Build_SinkLaws (list Z) _ (fun k => k) (fun _ => True) _ _ _ _).
  - intros k p _ _. by exists (k ++ p).
  - intros k p _ _. by exists (k ++ p).
  - intros k s _ _. by exists (AppendString k s).
  - intros k p _ _. by exists (AppendBytes k p).
Defined.

Lemma MarshalMsg_put (sh : shape) (v : denote sh) (b : list Z) :
  wf sh = true -> valid sh v -> MarshalMsg sh v b = Ok (b ++ put sh v).
Proof.
  intros Hw Hv. unfold MarshalMsg. pose proof (proj1 encode_takes sh Hw v b Hv) as (o & -> & Hs & _); [done|].
  cbn in *. by rewrite Hs.
Qed.

(** ** Reading *)

Definition gives {A Sr} (rem : Sr -> list Z) (good : Sr -> Prop) (r : res A Sr) (a : A) (rest : list Z) : Prop :=
  exists s', r = ok a s' /\ rem s' = rest /\ good s'.

Class SourceLaws (Sr : Type) `{!Source Sr} := {
  rem : Sr -> list Z;
  src_good : Sr -> Prop;
  law_map_header : forall s n rest, src_good s -> 0 <= n < 2 ^ 32 -> rem s = map_header n ++ rest ->
    gives rem src_good (src_map_header s) n rest;
  law_array_header : forall s n rest, src_good s -> 0 <= n < 2 ^ 32 -> rem s = array_header n ++ rest ->
    gives rem src_good (src_array_header s) n rest;
  law_key : forall s name rest, src_good s -> name_ok name = true -> rem s = string_msg name ++ rest ->
    gives rem src_good (src_key s) (string_bytes name) rest;
  law_is_nil : forall s b rest, src_good s -> rem s = b :: rest ->
    exists s', src_is_nil s = (b =? mnil, s') /\ rem s' = rem s /\ src_good s';
  law_nil : forall s rest, src_good s -> rem s = [mnil] ++ rest -> gives rem src_good (src_nil s) tt rest;
  law_int64 : forall s v rest, src_good s -> - 2 ^ 63 <= v < 2 ^ 63 -> rem s = int64_bytes v ++ rest -> gives rem src_good (src_int64 s) v rest;
  law_int32 : forall s v rest, src_good s -> - 2 ^ 31 <= v < 2 ^ 31 -> rem s = int64_bytes v ++ rest -> gives rem src_good (src_int32 s) v rest;
  law_uint64 : forall s v rest, src_good s -> in_width 64 v -> rem s = uint64_bytes v ++ rest -> gives rem src_good (src_uint64 s) v rest;
  law_uint32 : forall s v rest, src_good s -> in_width 32 v -> rem s = uint64_bytes v ++ rest -> gives rem src_good (src_uint32 s) v rest;
  law_float64 : forall s v rest, src_good s -> in_width 64 v -> rem s = float64_bytes v ++ rest -> gives rem src_good (src_float64 s) v rest;
  law_bool : forall s v rest, src_good s -> rem s = bool_bytes v ++ rest -> gives rem src_good (src_bool s) v rest;
  law_string : forall s v rest, src_good s -> fits (len (string_bytes v)) -> rem s = string_msg v ++ rest ->
    gives rem src_good (src_string s) v rest;
  law_bytes : forall s z v rest, src_good s -> fits (len v) -> rem s = bytes_msg v ++ rest ->
    exists z', s_vals z' = v /\ gives rem src_good (src_bytes z s) z' rest;
  law_time : forall s v rest, src_good s -> time_ok v -> rem s = time_bytes v ++ rest -> gives rem src_good (src_time s) v rest
}.

(** The bytes of an object that is not a pointer do not start with nil. *)
Lemma put_head (sh : shape) (v : denote sh) :
  wf sh = true -> is_ptr sh = false -> valid sh v -> exists b l, put sh v = b :: l /\ (b =? mnil) = false.
Proof.
  assert (Hf : forall A (f : Z -> form A) bs (x : A) rest, forms f bs x -> (exists e, f mnil = Bad e) ->
    exists b l, bs ++ rest = b :: l /\ (b =? mnil) = false).
  { intros A f bs x rest Hf [e He]. destruct bs as [|b l]; [done|]. exists b, (l ++ rest). split; [done|].
    apply Z.eqb_neq. intros ->. cbn in Hf. by rewrite He in Hf. }
  assert (Hf0 : forall A (f : Z -> form A) bs (x : A), forms f bs x -> (exists e, f mnil = Bad e) ->
    exists b l, bs = b :: l /\ (b =? mnil) = false).
  { intros A f bs x H1 H2. destruct (Hf A f bs x [] H1 H2) as (b & l & E & Hb). rewrite app_nil_r in E. eauto. }
  destruct sh; cbn [wf is_ptr put valid]; intros Hw Hp Hv; try done.
  - eapply Hf0; [by apply int64_form_bytes|by eexists].
  - eapply Hf0; [apply int64_form_bytes; lia|by eexists].
  - eapply Hf0; [by apply uint64_form_bytes|by eexists].
  - eapply Hf0; [apply uint64_form_bytes; unfold in_width in *; lia|by eexists].
  - eapply Hf0; [by apply float64_form_bytes|by eexists].
  - eapply Hf0; [by apply bool_form_bytes|by eexists].
  - eapply (Hf _ (str_form (badPrefix StrType))); [apply str_header_form; unfold fits, len in *; lia|by eexists].
  - eapply Hf; [apply bin_header_form; unfold fits, len in *; lia|by eexists].
  - by eexists _, _.
  - destruct Hv as [Hn _]. eapply Hf; [apply array_header_form; unfold fits, len in *; lia|by eexists].
  - destruct Hv as [Hn _]. eapply Hf; [apply map_header_form; unfold fits, len in *; lia|by eexists].
  - bool_to_prop. eapply Hf; [apply map_header_form|by eexists]. split; [|lia].
    clear. induction fs; cbn; lia.
Qed.

Section reading.
Context {Sr : Type} `{!Source Sr} `{!SourceLaws Sr}.

(** Decoding gives the object that was written, whatever [z] held. *)
Definition reads (sh : shape) : Prop :=
  forall fuel v z s rest, valid sh v -> src_good s -> rem s = put sh v ++ rest -> (length (rem s) < fuel)%nat ->
    exists z', same sh z' v /\ gives rem src_good (decode fuel sh z s) z' rest.

(** *** Fields *)

Fixpoint name_at (fs : fields) (k : nat) : string :=
  match fs, k with
  | FNil, _ => ""
  | FCons name _ _, O => name
  | FCons _ _ fs, S k => name_at fs k
  end.

Fixpoint put_at (fs : fields) : nat -> denote_fields fs -> list Z :=
  match fs with
  | FNil => fun _ _ => []
  | FCons _ sh fs => fun k v => match k with O => put sh v.1 | S k => put_at fs k v.2 end
  end.

Fixpoint put_from (fs : fields) : nat -> denote_fields fs -> list Z :=
  match fs with
  | FNil => fun _ _ => []
  | FCons name sh fs => fun k v =>
      match k with O => string_msg name ++ put sh v.1 ++ put_fields fs v.2 | S k => put_from fs k v.2 end
  end.

(** The first [k] fields are those of [v]. *)
Fixpoint upto (fs : fields) : nat -> denote_fields fs -> denote_fields fs -> Prop :=
  match fs with
  | FNil => fun _ _ _ => True
  | FCons _ sh fs => fun k z v => match k with O => True | S k => same sh z.1 v.1 /\ upto fs k z.2 v.2 end
  end.

Lemma put_from_0 (fs : fields) (v : denote_fields fs) : put_from fs 0 v = put_fields fs v.
Proof. by destruct fs. Qed.

Lemma put_from_step (fs : fields) (k : nat) (v : denote_fields fs) :
  Z.of_nat k < fields_count fs -> put_from fs k v = string_msg (name_at fs k) ++ put_at fs k v ++ put_from fs (S k) v.
Proof.
  revert k. induction fs as [|name sh fs IH]; intros k Hk; [cbn in Hk; lia|]. destruct v as [v r], k as [|k]; cbn.
  - by rewrite put_from_0.
  - apply IH. cbn in Hk. lia.
Qed.

Lemma put_from_all (fs : fields) (k : nat) (v : denote_fields fs) : fields_count fs <= Z.of_nat k -> put_from fs k v = [].
Proof.
  revert k. induction fs as [|name sh fs IH]; intros k Hk; [done|]. cbn in Hk.
  assert (0 <= fields_count fs) by (clear; induction fs; cbn; lia). destruct k as [|k]; [lia|]. apply IH. lia.
Qed.

Lemma upto_0 (fs : fields) (z v : denote_fields fs) : upto fs 0 z v.
Proof. by destruct fs. Qed.

Lemma upto_all (fs : fields) (k : nat) (z v : denote_fields fs) :
  fields_count fs <= Z.of_nat k -> upto fs k z v -> clean_fields fs z = clean_fields fs v.
Proof.
  revert k. induction fs as [|name sh fs IH]; intros k Hk Hu; [by destruct z, v|]. cbn in Hk.
  assert (0 <= fields_count fs) by (clear; induction fs; cbn; lia). destruct k as [|k]; [lia|]. destruct Hu as [Hs Hu].
  cbn. rewrite (IH z.2 v.2 k) by (done || lia). by rewrite Hs.
Qed.

Lemma name_at_in (fs : fields) (k : nat) : Z.of_nat k < fields_count fs -> name_at fs k ∈ names fs.
Proof.
  revert k. induction fs as [|name sh fs IH]; intros k Hk; cbn in Hk; [lia|]. destruct k as [|k]; cbn; [left|right].
  apply IH. lia.
Qed.

(** A field is read into its place, and the others stay. *)
Definition reads_fields (fs : fields) : Prop :=
  forall fuel k v z s rest, Z.of_nat k < fields_count fs -> valid_fields fs v -> src_good s ->
    rem s = put_at fs k v ++ rest -> (length (rem s) < fuel)%nat -> upto fs k z v ->
    exists z' r, decode_field fuel fs (name_at fs k) z s = Some r /\ gives rem src_good r z' rest /\ upto fs (S k) z' v.

Lemma decode_field_cons (fuel : nat) (name : string) (sh : shape) (fs : fields) (key : string)
    (z : denote_fields (FCons name sh fs)) (s : Sr) :
  decode_field fuel (FCons name sh fs) key z s =
    if bool_decide (key = name) then
      Some (let '(v, s, o) := decode fuel sh z.1 s in ((v, z.2), s, o))
    else
      match decode_field fuel fs key z.2 s with
      | Some (r, s, o) => Some ((z.1, r), s, o)
      | None => None
      end.
Proof. reflexivity. Qed.

Lemma reads_fields_cons (name : string) (sh : shape) (fs : fields) :
  reads sh -> reads_fields fs -> bool_decide (name ∉ names fs) = true -> reads_fields (FCons name sh fs).
Proof.
  intros Hsh Hfs Hn%bool_decide_eq_true fuel k v z s rest Hk [Hv Hr] Hs E Hf Hu. rewrite decode_field_cons.
  destruct k as [|k]; cbn [name_at put_at upto fields_count] in *.
  - destruct (Hsh fuel v.1 z.1 s rest Hv Hs E Hf) as (z' & Hz & s' & Ed & Hrem & Hg).
    rewrite bool_decide_eq_true_2 by done. rewrite Ed. eexists (z', z.2), _. split; [done|].
    split; [by exists s'|]. split; [done|apply upto_0].
  - rewrite bool_decide_eq_false_2.
    2:{ intros Heq. apply Hn. rewrite <- Heq. apply name_at_in. lia. }
    destruct (Hfs fuel k v.2 z.2 s rest ltac:(lia) Hr Hs E Hf (proj2 Hu)) as (z' & r & Ed & (s' & -> & Hrem & Hg) & Hu').
    eexists (z.1, z'), _. rewrite Ed. split; [done|]. split; [by exists s'|]. by destruct Hu.
Qed.

Lemma name_ok_at (fs : fields) (k : nat) : wf_fields fs = true -> Z.of_nat k < fields_count fs -> name_ok (name_at fs k) = true.
Proof.
  revert k. induction fs as [|name sh fs IH]; intros k Hw Hk; cbn in Hk; [lia|]. cbn in Hw. bool_to_prop.
  destruct k as [|k]; cbn; [done|]. apply IH; [done|lia].
Qed.

Lemma UnsafeString_name (name : string) : name_ok name = true -> UnsafeString (string_bytes name) = Some name.
Proof.
  unfold name_ok. intros H. bool_to_prop. unfold UnsafeString. rewrite bytes_string_bytes.
  destruct (string_bytes name); [done|done].
Qed.

Lemma string_msg_nonempty (name : string) : (1 <= length (string_msg name))%nat.
Proof. pose proof (len_string_msg name). unfold len in *. lia. Qed.

(** The loop over the fields, from the [k]-th on. *)
Lemma reads_rounds (fs : fields) (inner : nat) (m : nat) :
  reads_fields fs -> wf_fields fs = true ->
  forall fuel k v z s rest, Z.of_nat k + Z.of_nat m = fields_count fs -> valid_fields fs v -> src_good s ->
    rem s = put_from fs k v ++ rest -> (length (rem s) < fuel)%nat -> (length (rem s) < inner)%nat -> upto fs k z v ->
    exists z', clean_fields fs z' = clean_fields fs v /\
      gives rem src_good (rounds fuel (field_round inner (decode_field inner fs)) (Z.of_nat m) z s) z' rest.
Proof.
  intros Hrf Hw. induction m as [|m IH]; intros fuel k v z s rest Hkm Hv Hs E Hf Hi Hu.
  { exists z. split; [apply (upto_all fs k); [lia|done]|]. rewrite put_from_all in E by lia.
    exists s. destruct fuel; done. }
  rewrite put_from_step in E by lia. rewrite <- !app_assoc in E.
  assert (Hnm := name_ok_at fs k Hw ltac:(lia)).
  destruct fuel as [|fuel]; [lia|]. cbn [rounds]. destruct (_ <=? 0) eqn:Em; [bool_to_prop; lia|]. unfold field_round at 1.
  destruct (law_key s (name_at fs k) _ Hs Hnm E) as (s1 & -> & E1 & Hs1). cbn [on_ok ok].
  rewrite UnsafeString_name by done. pose proof (string_msg_nonempty (name_at fs k)) as Hne.
  assert (Hl1 : (length (rem s1) < length (rem s))%nat) by (rewrite E, E1, (length_app (string_msg _)); lia).
  destruct (Hrf inner k v z s1 _ ltac:(lia) Hv Hs1 E1 ltac:(lia) Hu) as (z1 & r & -> & (s2 & -> & E2 & Hs2) & Hu1).
  cbn [ok]. assert (Hl2 : (length (rem s2) <= length (rem s1))%nat) by (rewrite E1, E2, (length_app (put_at _ _ _)); lia).
  replace (Z.of_nat (S m) - 1) with (Z.of_nat m) by lia.
  apply (IH fuel (S k) v z1 s2 rest); try done; lia.
Qed.

(** *** Slices and maps *)

Lemma length_reslice {A} (x : A) (n : nat) (z : gslice A) : length (s_vals (reslice x n z)) = n.
Proof.
  unfold reslice. case_match eqn:E; cbn.
  - apply Nat.leb_le in E. rewrite length_take. lia.
  - apply length_replicate.
Qed.

Lemma reads_elements (sh : shape) (fuel : nat) (vs : list (denote sh)) :
  reads sh -> Forall (valid sh) vs ->
  forall todo s rest, length todo = length vs -> src_good s -> rem s = (vs ≫= put sh) ++ rest -> (length (rem s) < fuel)%nat ->
    exists l, clean sh <$> l = clean sh <$> vs /\ gives rem src_good (elements (decode fuel sh) todo s) l rest.
Proof.
  intros Hr Hvs. induction Hvs as [|v vs Hv Hvs IH]; intros [|t todo] s rest Hlen Hs E Hf; try done.
  { exists []. split; [done|]. by exists s. }
  cbn in E. rewrite <- app_assoc in E. cbn [elements].
  destruct (Hr fuel v t s _ Hv Hs E Hf) as (v' & Hsame & s1 & -> & E1 & Hs1). cbn [ok].
  assert (Hl : (length (rem s1) <= length (rem s))%nat) by (rewrite E, E1, (length_app (put sh v)); lia).
  destruct (IH todo s1 rest ltac:(cbn in Hlen; lia) Hs1 E1 ltac:(lia)) as (l & Hc & s2 & -> & E2 & Hs2).
  exists (v' :: l). split; [cbn; rewrite Hc; by f_equal|]. by exists s2.
Qed.

Lemma map_set_new {A} (key : string) (v : A) (m : list (string * A)) : key ∉ m.*1 -> map_set key v m = m ++ [(key, v)].
Proof.
  induction m as [|e m IH]; [done|]. cbn. intros Hn. apply not_elem_of_cons in Hn as [Hk Hn].
  rewrite bool_decide_eq_false_2 by done. by rewrite IH.
Qed.

Lemma reads_entries (sh : shape) (inner : nat) (vs : list (string * denote sh)) :
  reads sh -> Forall (fun e => fits (len (string_bytes e.1)) /\ valid sh e.2) vs ->
  forall fuel m s rest, NoDup (m.*1 ++ vs.*1) -> src_good s ->
    rem s = (vs ≫= (fun e => string_msg e.1 ++ put sh e.2)) ++ rest ->
    (length (rem s) < fuel)%nat -> (length (rem s) < inner)%nat ->
    exists l, clean (SMap sh) l = clean (SMap sh) vs /\
      gives rem src_good (rounds fuel (entry_round (decode inner sh (zero sh))) (len vs) m s) (m ++ l) rest.
Proof.
  intros Hr Hvs. induction Hvs as [|[key v] vs [Hk Hv] Hvs IH]; intros fuel m s rest Hnd Hs E Hf Hi; cbn in *.
  { exists []. split; [done|]. rewrite app_nil_r. exists s. by destruct fuel. }
  rewrite <- !app_assoc in E. destruct fuel as [|fuel]; [lia|]. cbn [rounds].
  destruct (_ <=? 0) eqn:Em; [bool_to_prop; unfold len in Em; cbn in Em; lia|]. unfold entry_round at 1.
  destruct (law_string s key _ Hs Hk E) as (s1 & -> & E1 & Hs1). cbn [on_ok ok].
  pose proof (string_msg_nonempty key) as Hne.
  assert (Hl1 : (length (rem s1) < length (rem s))%nat) by (rewrite E, E1, (length_app (string_msg _)); lia).
  destruct (Hr inner v (zero sh) s1 _ Hv Hs1 E1 ltac:(lia)) as (v' & Hsame & s2 & -> & E2 & Hs2). cbn [on_ok ok].
  assert (Hl2 : (length (rem s2) <= length (rem s1))%nat) by (rewrite E1, E2, (length_app (put sh v)); lia).
  rewrite map_set_new by (apply NoDup_app in Hnd as (_ & Hd & _); intros Hin; by apply (Hd key Hin); left).
  replace (len ((key, v) :: vs) - 1) with (len vs) by (unfold len; cbn [length]; lia).
  destruct (IH fuel (m ++ [(key, v')]) s2 rest) as (l & Hc & Hg); try done; try lia.
  { rewrite fmap_app. cbn. by rewrite <- app_assoc. }
  exists ((key, v') :: l). split; [cbn; rewrite Hc; by rewrite Hsame|]. by rewrite <- app_assoc in Hg.
Qed.

(** *** Every shape *)

Lemma same_refl_gives (sh : shape) (v : denote sh) (r : res (denote sh) Sr) (rest : list Z) :
  gives rem src_good r v rest -> exists z', same sh z' v /\ gives rem src_good r z' rest.
Proof. intros H. by exists v. Qed.

Lemma fields_count_nonneg (fs : fields) : 0 <= fields_count fs.
Proof. induction fs; cbn; lia. Qed.

Lemma decode_reads :
  (forall sh, wf sh = true -> reads sh) /\ (forall fs, wf_fields fs = true -> reads_fields fs).
Proof.
  apply shape_fields_ind; cbn [wf wf_fields].
  - intros _ fuel v z s rest Hv Hs E _. by apply same_refl_gives, law_int64.
  - intros _ fuel v z s rest Hv Hs E _. by apply same_refl_gives, law_int32.
  - intros _ fuel v z s rest Hv Hs E _. by apply same_refl_gives, law_uint64.
  - intros _ fuel v z s rest Hv Hs E _. by apply same_refl_gives, law_uint32.
  - intros _ fuel v z s rest Hv Hs E _. by apply same_refl_gives, law_float64.
  - intros _ fuel v z s rest Hv Hs E _. by apply same_refl_gives, law_bool.
  - intros _ fuel v z s rest Hv Hs E _. by apply same_refl_gives, law_string.
  - intros _ fuel v z s rest Hv Hs E _. destruct (law_bytes s z (s_vals v) rest Hs Hv E) as (z' & Hz & Hg).
    exists z'. split; [|done]. unfold same. cbn. by rewrite Hz.
  - intros _ fuel v z s rest Hv Hs E _. by apply same_refl_gives, law_time.
  - intros sh IH Hw fuel v z s rest Hv Hs E Hf. bool_to_prop. cbn [decode]. destruct v as [v|]; cbn in Hv, E.
    + destruct (put_head sh v ltac:(done) ltac:(done) Hv) as (b & l & Hp & Hb).
      destruct (law_is_nil s b (l ++ rest) Hs) as (s1 & -> & E1 & Hs1); [by rewrite E, Hp|]. rewrite Hb.
      destruct (IH ltac:(done) fuel v (default (zero sh) z) s1 rest Hv Hs1) as (z' & Hz & s2 & -> & E2 & Hs2); [congruence|congruence|].
      exists (Some z'). split; [unfold same in *; cbn; by rewrite Hz|]. by exists s2.
    + destruct (law_is_nil s mnil rest Hs E) as (s1 & -> & E1 & Hs1). rewrite Z.eqb_refl.
      destruct (law_nil s1 rest Hs1) as (s2 & -> & E2 & Hs2); [by rewrite E1|]. exists None. split; [done|]. by exists s2.
  - intros sh IH Hw fuel v z s rest [Hn Hv] Hs E Hf. cbn [decode]. cbn in E. rewrite <- app_assoc in E.
    destruct (law_array_header s (len (s_vals v)) _ Hs ltac:(unfold fits, len in *; lia) E) as (s1 & -> & E1 & Hs1). cbn [on_ok ok].
    assert (Hl : (length (rem s1) <= length (rem s))%nat) by (rewrite E, E1, (length_app (array_header _)); lia).
    destruct (reads_elements sh fuel (s_vals v) (IH Hw) Hv (s_vals (reslice (zero sh) (Z.to_nat (len (s_vals v))) z)) s1 rest)
      as (l & Hc & s2 & -> & E2 & Hs2); [rewrite length_reslice; unfold len; apply Nat2Z.id|done|done|lia|].
    eexists (mkSlice l _). split; [|by exists s2]. unfold same. cbn. by rewrite Hc.
  - intros sh IH Hw fuel v z s rest (Hn & Hnd & Hv) Hs E Hf. cbn [decode]. cbn in E. rewrite <- app_assoc in E.
    destruct (law_map_header s (len v) _ Hs ltac:(unfold fits, len in *; lia) E) as (s1 & -> & E1 & Hs1). cbn [on_ok ok].
    assert (Hl : (length (rem s1) <= length (rem s))%nat) by (rewrite E, E1, (length_app (map_header _)); lia).
    destruct (reads_entries sh fuel v (IH Hw) Hv fuel [] s1 rest Hnd Hs1 E1) as (l & Hc & Hg); [lia|lia|]. by exists l.
  - intros fs IH Hw fuel v z s rest Hv Hs E Hf. bool_to_prop. cbn [decode]. cbn in E. rewrite <- app_assoc in E.
    pose proof (fields_count_nonneg fs) as Hc0.
    destruct (law_map_header s (fields_count fs) _ Hs ltac:(lia) E) as (s1 & -> & E1 & Hs1). cbn [on_ok ok].
    assert (Hl : (length (rem s1) <= length (rem s))%nat) by (rewrite E, E1, (length_app (map_header _)); lia).
    destruct (reads_rounds fs fuel (Z.to_nat (fields_count fs)) (IH ltac:(done)) ltac:(done) fuel 0 v z s1 rest) as (z' & Hz & Hg);
      try done; try lia; [by rewrite put_from_0|apply upto_0|]. rewrite Z2Nat.id in Hg by lia. by exists z'.
  - intros _ fuel k v z s rest Hk. cbn in Hk. lia.
  - intros name sh IH fs IHf Hw. bool_to_prop. apply reads_fields_cons; auto.
Qed.

End reading.

(** ** The bytes as a source *)

Lemma gives_bytes {A} (r : res A (list Z)) (a : A) (rest : list Z) :
  r = ok a rest -> gives (fun b => b) (fun _ => True) r a rest.
Proof. intros ->. by exists rest. Qed.

#[export] Instance bytes_SourceLaws : SourceLaws (list Z).
Proof.
  refine (Build_SourceLaws (list Z) _ (fun b => b) (fun _ => True) _ _ _ _ _ _ _ _ _ _ _ _ _ _);
    cbn [src_map_header src_array_header src_key src_is_nil src_nil src_int64 src_int32 src_uint64 src_uint32 src_float64
         src_bool src_string src_bytes src_time bytes_Source].
  - intros s n rest _ Hn ->. by apply gives_bytes, read_form_forms, map_header_form.
  - intros s n rest _ Hn ->. by apply gives_bytes, read_form_forms, array_header_form.
  - intros s name rest _ Hn ->. apply gives_bytes. unfold name_ok in Hn. bool_to_prop. unfold ReadMapKeyZC, string_msg.
    rewrite <- app_assoc, ReadStringZC_msg by lia. done.
  - intros s b rest _ ->. by exists (b :: rest).
  - intros s rest _ ->. apply gives_bytes. done.
  - intros s v rest _ Hv ->. by apply gives_bytes, read_form_forms, int64_form_bytes.
  - intros s v rest _ Hv ->. apply gives_bytes. unfold ReadInt32Bytes, ReadInt64Bytes.
    rewrite (read_form_forms _ _ _ _ v) by (apply int64_form_bytes; lia). unfold narrow_int, ok.
    case_match eqn:E; [|done]. apply orb_true_iff in E as [E|E]; bool_to_prop; lia.
  - intros s v rest _ Hv ->. by apply gives_bytes, read_form_forms, uint64_form_bytes.
  - intros s v rest _ Hv ->. apply gives_bytes. unfold in_width in Hv. unfold ReadUint32Bytes, ReadUint64Bytes.
    rewrite (read_form_forms _ _ _ _ v) by (apply uint64_form_bytes; unfold in_width; lia). unfold narrow_uint, ok.
    case_match eqn:E; [|done]. bool_to_prop; lia.
  - intros s v rest _ Hv ->. apply gives_bytes. unfold ReadFloat64Bytes.
    assert (H9 : (len (float64_bytes v ++ rest) <? 9) = false).
    { apply Z.ltb_ge. rewrite len_app, float64_size. unfold len, Float64Size. lia. }
    rewrite H9. by apply read_form_forms, float64_form_bytes.
  - intros s v rest _ ->. by apply gives_bytes, read_form_forms, bool_form_bytes.
  - intros s v rest _ Hv ->. apply gives_bytes. unfold fits in Hv. unfold ReadStringBytes, string_msg.
    rewrite <- app_assoc, ReadStringZC_msg by done. unfold ok. by rewrite bytes_string_bytes.
  - intros s z v rest _ Hv ->. unfold fits in Hv. unfold ReadBytesBytes, bytes_msg.
    rewrite <- app_assoc, ReadBytesZC_msg by done. cbn [ok]. eexists. split; [|by apply gives_bytes]. by case_match.
  - intros s v rest _ Hv ->. by apply gives_bytes, ReadTimeBytes_msg.
Defined.

(** Reading into any object gives what was written. *)
Lemma UnmarshalMsg_put (sh : shape) (v z : denote sh) (rest : list Z) :
  wf sh = true -> valid sh v -> exists z', UnmarshalMsg sh z (put sh v ++ rest) = ok z' rest /\ same sh z' v.
Proof.
  intros Hw Hv. destruct (proj1 decode_reads sh Hw (S (length (put sh v ++ rest))) v z (put sh v ++ rest) rest Hv)
    as (z' & Hs & s' & E & Hr & _); [done|done|cbn; lia|]. exists z'. split; [|done]. unfold UnmarshalMsg. rewrite E.
  cbn in Hr. by rewrite Hr.
Qed.

(** ** Sizes *)

Lemma total_le {A} (f : A -> list Z) (g : A -> Z) (l : list A) :
  Forall (fun a => len (f a) <= g a) l -> len (l ≫= f) <= total g l.
Proof. induction 1 as [|a l Ha Hl IH]; cbn; [done|]. rewrite len_app. unfold total in IH. lia. Qed.

Lemma Msgsize_put :
  (forall sh, forall v, valid sh v -> len (put sh v) <= Msgsize sh v) /\
  (forall fs, forall v, valid_fields fs v -> len (put_fields fs v) <= fields_size fs v).
Proof.
  apply shape_fields_ind; cbn [put put_fields valid valid_fields Msgsize fields_size].
  - intros. apply int64_size.
  - intros. by apply int32_size.
  - intros. apply uint64_size.
  - intros. by apply uint32_size.
  - intros. by rewrite float64_size.
  - done.
  - intros v _. pose proof (str_header_size (len (string_bytes v))). unfold string_msg, string_size. rewrite len_app. lia.
  - intros v _. pose proof (bin_header_size (len (s_vals v))). unfold bytes_msg. rewrite len_app. lia.
  - intros. by rewrite time_size.
  - intros sh IH [v|] Hv; [by apply IH|done].
  - intros sh IH v [_ Hv]. rewrite len_app. pose proof (array_header_size (len (s_vals v))).
    pose proof (total_le (put sh) (Msgsize sh) (s_vals v)) as Ht. specialize (Ht ltac:(eapply Forall_impl; [done|auto])). lia.
  - intros sh IH v (_ & _ & Hv). rewrite len_app. pose proof (map_header_size (len v)).
    pose proof (total_le (fun e => string_msg e.1 ++ put sh e.2) (fun e => string_size e.1 + Msgsize sh e.2) v) as Ht.
    specialize (Ht ltac:(eapply Forall_impl; [done|]; intros e [_ He]; rewrite len_app; pose proof (IH _ He);
      pose proof (len_string_msg e.1); unfold string_size, StringPrefixSize; lia)). lia.
  - intros fs IH v Hv. rewrite len_app. specialize (IH v Hv). lia.
  - done.
  - intros name sh IH fs IHf v [Hv Hr]. rewrite !len_app. specialize (IH _ Hv). specialize (IHf _ Hr). lia.
Qed.

(** ** Reading ends *)

Lemma rounds_keeps {A} (f : A -> list Z -> res A (list Z)) (fuel : nat) (n : Z) (z : A) (b : list Z) :
  is_bytes b -> (length b < fuel)%nat ->
  (forall z' b', is_bytes b' -> (length b' <= length b)%nat -> shrinks b' (f z' b')) ->
  keeps b (rounds fuel f n z b).
Proof.
  revert n z b. induction fuel as [|fuel IH]; intros n z b Hb Hl Hf; [lia|]. cbn [rounds].
  destruct (n <=? 0); [by left|]. pose proof (Hf z b Hb ltac:(lia)) as H1. destruct (f z b) as [[z1 b1] []]; cbn in H1; try done.
  pose proof (shorter_length _ _ H1) as Hl1. pose proof (IH (n - 1) z1 b1 (shorter_bytes _ _ H1 Hb) ltac:(lia)) as H2.
  specialize (H2 ltac:(intros; apply Hf; [done|lia])). destruct (rounds fuel f (n - 1) z1 b1) as [[z2 b2] []]; cbn in *; try done.
  right. destruct H2 as [->|H2]; eauto using shorter_trans.
Qed.

Lemma elements_keeps {A} (f : A -> list Z -> res A (list Z)) (todo : list A) (b : list Z) :
  is_bytes b -> (forall z' b', is_bytes b' -> (length b' <= length b)%nat -> shrinks b' (f z' b')) ->
  keeps b (elements f todo b).
Proof.
  revert b. induction todo as [|a todo IH]; intros b Hb Hf; [by left|]. cbn [elements].
  pose proof (Hf a b Hb ltac:(lia)) as H1. destruct (f a b) as [[a1 b1] []]; cbn in H1; try done.
  pose proof (shorter_length _ _ H1) as Hl1. pose proof (IH b1 (shorter_bytes _ _ H1 Hb)) as H2.
  specialize (H2 ltac:(intros; apply Hf; [done|lia])). destruct (elements f todo b1) as [[l b2] []]; cbn in *; try done.
  right. destruct H2 as [->|H2]; eauto using shorter_trans.
Qed.

Lemma shrinks_map {A B} (g : A -> B) (b : list Z) (r : res A (list Z)) :
  shrinks b r -> shrinks b (let '(a, s, o) := r in (g a, s, o)).
Proof. by destruct r as [[a s] []]. Qed.

Lemma keeps_map {A B} (g : A -> B) (b : list Z) (r : res A (list Z)) :
  keeps b r -> keeps b (let '(a, s, o) := r in (g a, s, o)).
Proof. by destruct r as [[a s] []]. Qed.

Lemma field_round_shrinks {A} (fuel : nat) (switch : string -> A -> list Z -> option (res A (list Z))) (z : A) (b : list Z) :
  is_bytes b -> (forall name o r, shorter o b -> switch name z o = Some r -> shrinks o r) ->
  shrinks b (field_round fuel switch z b).
Proof.
  intros Hb Hsw. unfold field_round. apply on_ok_keeps; [apply ReadMapKeyZC_shrinks|]. intros key o Ho.
  destruct (UnsafeString key) as [name|]; [|done]. destruct (switch name z o) as [r|] eqn:E.
  - by eapply shrinks_keeps, Hsw.
  - pose proof (Skip_shrinks o (shorter_bytes _ _ Ho Hb)) as Hs. apply shrinks_keeps. cbn [src_skip bytes_Source].
    by destruct (Skip o) as [[u o'] []].
Qed.

Lemma decode_shrinks :
  (forall sh fuel z b, is_bytes b -> (length b < fuel)%nat -> shrinks b (decode fuel sh z b)) /\
  (forall fs fuel key z b r, is_bytes b -> (length b < fuel)%nat -> decode_field fuel fs key z b = Some r -> shrinks b r).
Proof.
  apply shape_fields_ind.
  1-6: intros; first [apply read_form_shrinks|apply narrow_shrinks, read_form_shrinks|apply ReadFloat64Bytes_shrinks].
  - intros. apply ReadStringBytes_shrinks.
  - intros fuel z b _ _. cbn. unfold ReadBytesBytes. pose proof (ReadBytesZC_shrinks b) as H.
    by destruct (ReadBytesZC b) as [[v o] []].
  - intros. apply ReadTimeBytes_shrinks.
  - intros sh IH fuel z b Hb Hf. cbn [decode src_is_nil bytes_Source]. destruct (IsNil b).
    + apply on_ok_keeps; [apply read_form_shrinks|]. by left.
    + apply (shrinks_map Some). by apply IH.
  - intros sh IH fuel z b Hb Hf. cbn [decode]. apply on_ok_keeps; [apply read_form_shrinks|]. intros n o Ho.
    apply (keeps_map (fun l => mkSlice l _)). apply elements_keeps; [by eapply shorter_bytes|]. intros z' b' Hb' Hl.
    apply IH; [done|]. apply shorter_length in Ho. lia.
  - intros sh IH fuel z b Hb Hf. cbn [decode]. apply on_ok_keeps; [apply read_form_shrinks|]. intros n o Ho.
    assert (Hlo := shorter_length _ _ Ho). apply rounds_keeps; [by eapply shorter_bytes|lia|]. intros m b' Hb' Hl.
    unfold entry_round. apply on_ok_keeps; [apply ReadStringBytes_shrinks|]. intros key o' Ho'.
    assert (Hlo' := shorter_length _ _ Ho'). apply shrinks_keeps, on_ok_keeps; [|by left].
    apply IH; [by eapply shorter_bytes|lia].
  - intros fs IH fuel z b Hb Hf. cbn [decode]. apply on_ok_keeps; [apply read_form_shrinks|]. intros n o Ho.
    assert (Hlo := shorter_length _ _ Ho). apply rounds_keeps; [by eapply shorter_bytes|lia|]. intros m b' Hb' Hl.
    apply field_round_shrinks; [done|]. intros name o' r Ho' E. assert (Hlo' := shorter_length _ _ Ho').
    apply (IH fuel name m); [by eapply shorter_bytes|lia|done].
  - done.
  - intros name sh IH fs IHf fuel key z b r Hb Hf. rewrite decode_field_cons. case_match.
    + intros [= <-]. apply (shrinks_map (fun v => (v, z.2))). by apply IH.
    + destruct (decode_field fuel fs key z.2 b) as [[[v s] o]|] eqn:E; [|done]. intros [= <-].
      apply (shrinks_map (fun r => (z.1, r)) b (v, s, o)). by eapply IHf.
Qed.
