(* ===== verification/MsgpStream.v ===== *)
(** MessagePack on streams: the buffered writer of [tinylib/msgp]
    ([write.go]), the reader ([read.go]) over the look-ahead buffer of
    [philhofer/fwd] ([reader.go]), and [EncodeMsg] and [DecodeMsg] of the
    generated code, which are those of [MsgpShape] over them.

    What is behind them, an [io.Writer] and an [io.Reader], is a class with
    the operation the code calls. *)
From S2P Require Import Prelude Float64 GoStrings GoParse Wire Msgp MsgpShape.

Open Scope Z_scope.

(** ** Writer *)

(** [Write(p)]: the number of bytes taken, an error. *)
Class IoWriter (W : Type) := io_Write : W -> list Z -> Z * option goerror * W.

(** [w_buf] is the part of the buffer up to [wloc], [w_size] the length of
    the buffer. *)
Record Writer (W : Type) := mkWriter { w_out : W; w_buf : list Z; w_size : Z }.
Arguments mkWriter {W}.
Arguments w_out {W}.
Arguments w_buf {W}.
Arguments w_size {W}.

Section writer.
Context {W : Type} `{!IoWriter W}.

(** The writers of the pool have buffers of 2048 bytes. *)
Definition NewWriter (w : W) : Writer W := mkWriter w [] 2048.
Definition NewWriterSize (w : W) (sz : Z) : Writer W := mkWriter w [] (if sz <? 18 then 18 else sz).

Definition set_buf (mw : Writer W) (buf : list Z) : Writer W := mkWriter (w_out mw) buf (w_size mw).

Definition avail (mw : Writer W) : Z := w_size mw - len (w_buf mw).

Definition flush (mw : Writer W) : res unit (Writer W) :=
  if len (w_buf mw) =? 0 then ok tt mw
  else
    let '(n, err, w) := io_Write (w_out mw) (w_buf mw) in
    match err with
    | Some e => fail tt (mkWriter w (if n >? 0 then drop (Z.to_nat n) (w_buf mw) else w_buf mw) (w_size mw)) e
    | None => ok tt (mkWriter w [] (w_size mw))
    end.

(** [if avail < n { flush }]. *)
Definition make_room (mw : Writer W) (n : Z) : res unit (Writer W) := if avail mw <? n then flush mw else ok tt mw.

(** [push], [prefix8] to [prefix64], and [require] with what is stored
    then: a few bytes at the end of the buffer. *)
Definition emit (mw : Writer W) (p : list Z) : res unit (Writer W) :=
  then_ (make_room mw (len p)) (fun mw =>
    if avail mw <? len p then (tt, mw, Panic) else ok tt (set_buf mw (w_buf mw ++ p))).

(** What does not fit into the whole buffer is cut off. *)
Definition Append (mw : Writer W) (p : list Z) : res unit (Writer W) :=
  then_ (make_room mw (len p)) (fun mw => ok tt (set_buf mw (w_buf mw ++ take (Z.to_nat (avail mw)) p))).

(** [Write] and [writeString]. *)
Definition Write (mw : Writer W) (p : list Z) : res unit (Writer W) :=
  if avail mw <? len p then
    then_ (flush mw) (fun mw =>
      if len p >? w_size mw then
        let '(_, err, w) := io_Write (w_out mw) p in
        let mw := mkWriter w (w_buf mw) (w_size mw) in
        match err with Some e => fail tt mw e | None => ok tt mw end
      else ok tt (set_buf mw (w_buf mw ++ p)))
  else ok tt (set_buf mw (w_buf mw ++ p)).

Definition WriteString (mw : Writer W) (s : string) : res unit (Writer W) :=
  then_ (emit mw (str_header (u32 (len (string_bytes s))))) (fun mw => Write mw (string_bytes s)).

Definition WriteBytes (mw : Writer W) (b : list Z) : res unit (Writer W) :=
  then_ (emit mw (bin_header (u32 (len b)))) (fun mw => Write mw b).

Definition WriteMapHeader (mw : Writer W) (sz : Z) : res unit (Writer W) := emit mw (map_header sz).
Definition WriteArrayHeader (mw : Writer W) (sz : Z) : res unit (Writer W) := emit mw (array_header sz).
Definition WriteNil (mw : Writer W) : res unit (Writer W) := emit mw [mnil].
Definition WriteFloat64 (mw : Writer W) (f : float64) : res unit (Writer W) := emit mw (float64_bytes f).
Definition WriteInt64 (mw : Writer W) (i : Z) : res unit (Writer W) := emit mw (int64_bytes i).
Definition WriteUint64 (mw : Writer W) (u : Z) : res unit (Writer W) := emit mw (uint64_bytes u).
Definition WriteBool (mw : Writer W) (b : bool) : res unit (Writer W) := emit mw (bool_bytes b).
Definition WriteTime (mw : Writer W) (t : Time) : res unit (Writer W) := emit mw (time_bytes t).

#[export] Instance writer_Sink : Sink (Writer W) := {
  snk_small := emit;
  snk_const := Append;
  snk_string := WriteString;
  snk_bytes := WriteBytes
}.

Definition EncodeMsg (sh : shape) (v : denote sh) (mw : Writer W) : res unit (Writer W) := encode sh v mw.

(** [msgp.Encode]. *)
Definition Encode (w : W) (sh : shape) (v : denote sh) : res unit (Writer W) :=
  then_ (EncodeMsg sh v (NewWriter w)) flush.

End writer.

(** ** Look-ahead reader *)

(** [Read(p)] with the length of [p]: the bytes read, an error.  [Seek(n, 1)]
    where there is one. *)
Class IoReader (R : Type) := {
  io_Read : R -> Z -> list Z * option goerror * R;
  io_Seek : R -> Z -> option (option goerror * R)
}.

(** [r_data] is the buffered data that was not read yet, [r_cap] the
    capacity of the buffer.  Where in the buffer the data lies does not
    matter: [more] moves it to the start. *)
Record fwdReader (R : Type) := mkFwd {
  r_src : R;
  r_data : list Z;
  r_cap : Z;
  r_state : option goerror
}.
Arguments mkFwd {R}.
Arguments r_src {R}.
Arguments r_data {R}.
Arguments r_cap {R}.
Arguments r_state {R}.

Section reader.
Context {R : Type} `{!IoReader R}.

Definition ErrNoProgress : goerror := GoError "multiple Read calls return no data or error".

Definition NewReader (r : R) : fwdReader R := mkFwd r [] 2048 None.
Definition NewReaderSize (r : R) (n : Z) : fwdReader R := mkFwd r [] (Z.max 16 n) None.

Definition set_data (r : fwdReader R) (d : list Z) : fwdReader R := mkFwd (r_src r) d (r_cap r) (r_state r).
Definition set_state (r : fwdReader R) (e : option goerror) : fwdReader R := mkFwd (r_src r) (r_data r) (r_cap r) e.

Definition buffered (r : fwdReader R) : Z := len (r_data r).

Definition more (r : fwdReader R) : fwdReader R :=
  let '(a, e, src) := io_Read (r_src r) (r_cap r - buffered r) in
  match a, e with
  | [], None => mkFwd src (r_data r) (r_cap r) (Some ErrNoProgress)
  | _, _ => mkFwd src (r_data r ++ a) (r_cap r) e
  end.

(** Pop the error. *)
Definition pop_err (r : fwdReader R) : option goerror * fwdReader R := (r_state r, set_state r None).
Definition noEOF (r : fwdReader R) : option goerror * fwdReader R :=
  (if bool_decide (r_state r = Some EOF) then Some ErrUnexpectedEOF else r_state r, set_state r None).

(** A buffer that is too small is replaced by a larger one. *)
Definition grow (r : fwdReader R) (n : Z) : fwdReader R :=
  if r_cap r <? n then mkFwd (r_src r) (r_data r) (n + buffered r) (r_state r) else r.

(** [for buffered < n && state == nil { more }]: a round adds a byte or sets
    the state. *)
Fixpoint fill (fuel : nat) (r : fwdReader R) (n : Z) : fwdReader R :=
  match fuel with
  | O => r
  | S fuel =>
      if (buffered r <? n) && bool_decide (r_state r = None) then fill fuel (more r) n else r
  end.

Definition filled (r : fwdReader R) (n : Z) : fwdReader R := fill (S (Z.to_nat n)) (grow r n) n.

Definition Peek (r : fwdReader R) (n : Z) : list Z * option goerror * fwdReader R :=
  let r := filled r n in
  if buffered r <? n then let '(e, r') := pop_err r in (r_data r, e, r')
  else (take (Z.to_nat n) (r_data r), None, r).

Definition Next (r : fwdReader R) (n : Z) : list Z * option goerror * fwdReader R :=
  let r := filled r n in
  if buffered r <? n then let '(e, r') := noEOF r in (r_data r, e, r')
  else (take (Z.to_nat n) (r_data r), None, set_data r (drop (Z.to_nat n) (r_data r))).

(** The loop of [Skip]: fill, and erase what is skipped. *)
Fixpoint skip_loop (fuel : nat) (r : fwdReader R) (n : Z) : fwdReader R :=
  match fuel with
  | O => r
  | S fuel =>
      if (buffered r <? n) && bool_decide (r_state r = None) then
        let r := more r in
        let step := Z.min (buffered r) n in
        skip_loop fuel (set_data r (drop (Z.to_nat step) (r_data r))) (n - step)
      else r
  end.

Definition fwd_Skip (r : fwdReader R) (n : Z) : option goerror * fwdReader R :=
  if n <=? buffered r then (None, set_data r (drop (Z.to_nat n) (r_data r)))
  else
    match io_Seek (r_src r) (n - buffered r) with
    | Some (e, src) => (e, mkFwd src [] (r_cap r) (r_state r))
    | None => noEOF (skip_loop (S (Z.to_nat n)) r n)
    end.

(** [ReadFull]: the bytes read so far come with the error. *)
Fixpoint read_full (fuel : nat) (r : fwdReader R) (got : list Z) (l : Z) : list Z * fwdReader R * outcome unit :=
  if (len got <? l) && bool_decide (r_state r = None) then
    match fuel with
    | O => (got, r, NoFuel)
    | S fuel =>
        if negb (buffered r =? 0) then
          let nn := Z.to_nat (l - len got) in
          read_full fuel (set_data r (drop nn (r_data r))) (got ++ take nn (r_data r)) l
        else if l - len got >? r_cap r then
          let '(a, e, src) := io_Read (r_src r) (l - len got) in
          read_full fuel (mkFwd src (r_data r) (r_cap r) e) (got ++ a) l
        else read_full fuel (more r) got l
    end
  else if len got <? l then
    let '(e, r) := noEOF r in (got, r, match e with Some e => Err e | None => Ok tt end)
  else (got, r, Ok tt).

(** Two rounds a byte are enough: one that gets data, one that copies it. *)
Definition ReadFull (r : fwdReader R) (l : Z) : list Z * fwdReader R * outcome unit :=
  read_full (S (2 * Z.to_nat l)) r [] l.

(** ** Reader *)

Definition of_err (e : option goerror) : outcome unit := match e with Some e => Err e | None => Ok tt end.

(** The switches of [Msgp] on the first byte. *)
Definition stream_form {A} (f : Z -> form A) (zero : A) (r : fwdReader R) : res A (fwdReader R) :=
  match Peek r 1 with
  | (_, Some e, r) => fail zero r e
  | (p, None, r) =>
      match p with
      | [] => (zero, r, Panic)
      | lead :: _ =>
          match f lead with
          | Here a => let '(e, r) := fwd_Skip r 1 in (a, r, of_err e)
          | Sized n conv =>
              match Next r (1 + Z.of_nat n) with
              | (_, Some e, r) => fail zero r e
              | (p, None, r) => ok (conv (be_get (drop 1 p))) r
              end
          | Bad e => fail zero r e
          end
      end
  end.

Definition ReadMapHeader (r : fwdReader R) : res Z (fwdReader R) := stream_form map_form 0 r.
Definition ReadArrayHeader (r : fwdReader R) : res Z (fwdReader R) := stream_form array_form 0 r.
Definition ReadNil (r : fwdReader R) : res unit (fwdReader R) := stream_form nil_form tt r.
Definition ReadBool (r : fwdReader R) : res bool (fwdReader R) := stream_form bool_form false r.
Definition ReadInt64 (r : fwdReader R) : res Z (fwdReader R) := stream_form int64_form 0 r.
Definition ReadUint64 (r : fwdReader R) : res Z (fwdReader R) := stream_form uint64_form 0 r.
Definition ReadInt32 (r : fwdReader R) : res Z (fwdReader R) := narrow_int (ReadInt64 r).
Definition ReadUint32 (r : fwdReader R) : res Z (fwdReader R) := narrow_uint (ReadUint64 r).

Definition stream_IsNil (r : fwdReader R) : bool * fwdReader R :=
  match Peek r 1 with
  | (lead :: _, None, r) => (lead =? mnil, r)
  | (_, _, r) => (false, r)
  end.

Definition ReadFloat32 (r : fwdReader R) : res float64 (fwdReader R) :=
  match Peek r 5 with
  | (_, Some e, r) => fail 0 r e
  | (p, None, r) =>
      match p with
      | [] => (0, r, Panic)
      | lead :: p =>
          if negb (lead =? mfloat32) then fail 0 r (badPrefix Float32Type lead)
          else let '(e, r) := fwd_Skip r 5 in (float_of_float32 (be_get p), r, of_err e)
      end
  end.

Definition ReadFloat64 (r : fwdReader R) : res float64 (fwdReader R) :=
  match Peek r 9 with
  | (p, Some e, r) =>
      match p with
      | lead :: _ => if bool_decide (e = EOF) && (lead =? mfloat32) then ReadFloat32 r else fail 0 r e
      | [] => fail 0 r e
      end
  | (p, None, r) =>
      match p with
      | [] => (0, r, Panic)
      | lead :: p =>
          if lead =? mfloat64 then let '(e, r) := fwd_Skip r 9 in (Float64frombits (be_get p), r, of_err e)
          else if lead =? mfloat32 then ReadFloat32 r
          else fail 0 r (badPrefix Float64Type lead)
      end
  end.

Definition ReadString (r : fwdReader R) : res string (fwdReader R) :=
  on_ok (stream_form (str_form (badPrefix StrType)) 0 r) ""%string (fun read r =>
    if read =? 0 then ok ""%string r
    else
      match ReadFull r read with
      | (out, r, Ok _) => ok (bytes_string out) r
      | (_, r, o) => (""%string, r, o)
      end).

(** A key is a string or bytes; an empty one is an error. *)
Definition key_form (lead : Z) : form Z :=
  if isfixstr lead then Here (Z.land lead 0x1f)
  else if (lead =? mstr8) || (lead =? mbin8) then Sized 1 id
  else if (lead =? mstr16) || (lead =? mbin16) then Sized 2 id
  else if (lead =? mstr32) || (lead =? mbin32) then Sized 4 id
  else Bad (badPrefix StrType lead).

Definition ReadMapKeyPtr (r : fwdReader R) : res (list Z) (fwdReader R) :=
  on_ok (stream_form key_form 0 r) [] (fun read r =>
    if read =? 0 then fail [] r ErrShortBytes
    else let '(p, e, r) := Next r read in (p, r, of_err e)).

(** The buffer of the object is used when it is large enough; what could
    not be read of it stays. *)
Definition ReadBytes (scratch : gslice Z) (r : fwdReader R) : res (gslice Z) (fwdReader R) :=
  match Peek r 2 with
  | (_, Some e, r) => fail (slice_of []) r e
  | (_, None, r) =>
      on_ok (stream_form bin_form 0 r) (slice_of []) (fun read r =>
        let b := reslice 0 (Z.to_nat read) scratch in
        let '(out, r, o) := ReadFull r read in
        (mkSlice (out ++ drop (length out) (s_vals b)) (s_spare b), r, o))
  end.

Definition ReadTime (r : fwdReader R) : res Time (fwdReader R) :=
  match Peek r 15 with
  | (_, Some e, r) => fail zero_time r e
  | (p, None, r) =>
      match p with
      | b0 :: b1 :: b2 :: _ =>
          if negb (b0 =? mext8) || negb (b1 =? 12) then fail zero_time r (badPrefix TimeType b0)
          else if negb (swrap 8 b2 =? TimeExtension) then fail zero_time r (errExt (swrap 8 b2) TimeExtension)
          else let '(e, r) := fwd_Skip r 15 in (time_of p, r, of_err e)
      | _ => (zero_time, r, Panic)
      end
  end.

Definition getNextSize (r : fwdReader R) : ((Z * Z) + goerror) * fwdReader R :=
  match Peek r 1 with
  | (_, Some e, r) => (inr e, r)
  | (b, None, r) =>
      let spec := sizes (hd 0 b) in
      if sp_size spec =? 0 then (inr (InvalidPrefixError (hd 0 b)), r)
      else if 0 <=? sp_extra spec then (inl (sp_size spec, sp_extra spec), r)
      else
        match Peek r (sp_size spec) with
        | (_, Some e, r) => (inr e, r)
        | (b, None, r) => (getSize b, r)
        end
  end.

(** With five bytes in the buffer, these are looked at only. *)
Definition next_size (r : fwdReader R) : ((Z * Z) + goerror) * fwdReader R :=
  if 5 <=? buffered r then
    match Peek r 5 with
    | (_, Some e, r) => (inr e, r)
    | (p, None, r) => (getSize p, r)
    end
  else getNextSize r.

(** [n] objects: the loop of [Skip] over the elements of an object. *)
Fixpoint stream_skip (fuel : nat) (n : Z) (r : fwdReader R) : res unit (fwdReader R) :=
  if n <=? 0 then ok tt r
  else
    match fuel with
    | O => (tt, r, NoFuel)
    | S fuel =>
        match next_size r with
        | (inr e, r) => fail tt r e
        | (inl (v, o), r) =>
            match fwd_Skip r v with
            | (Some e, r) => fail tt r e
            | (None, r) => on_ok (stream_skip fuel o r) tt (fun _ r => stream_skip fuel (n - 1) r)
            end
        end
    end.

#[export] Instance stream_Source : Source (fwdReader R) := {
  src_map_header := ReadMapHeader;
  src_array_header := ReadArrayHeader;
  src_key := ReadMapKeyPtr;
  src_is_nil := stream_IsNil;
  src_nil := ReadNil;
  src_int64 := ReadInt64;
  src_int32 := ReadInt32;
  src_uint64 := ReadUint64;
  src_uint32 := ReadUint32;
  src_float64 := ReadFloat64;
  src_bool := ReadBool;
  src_string := ReadString;
  src_bytes := ReadBytes;
  src_time := ReadTime;
  src_skip fuel r := stream_skip fuel 1 r
}.

(** The fuel is for the loops over what the stream holds: one round per
    byte that is left. *)
Definition DecodeMsg (fuel : nat) (sh : shape) (z : denote sh) (r : fwdReader R) : res (denote sh) (fwdReader R) :=
  decode fuel sh z r.

End reader.

(** ** Buffers and readers of bytes *)

(** [bytes.Buffer] takes everything. *)
#[export] Instance buffer_IoWriter : IoWriter (list Z) := fun w p => (len p, None, w ++ p).

(** [bytes.Reader] gives what there is, then the end; it can seek past the
    end. *)
#[export] Instance bytes_IoReader : IoReader (list Z) := {
  io_Read src n :=
    match src with
    | [] => ([], Some EOF, [])
    | _ => (take (Z.to_nat n) src, None, drop (Z.to_nat n) src)
    end;
  io_Seek src n := Some (None, drop (Z.to_nat n) src)
}.

Example stream_pair :
  let '(_, mw, _) := Encode [] pair_shape ("ab"%string, (slice_of [Some (-200); None], tt)) in
  let '(z, r, o) := DecodeMsg 100 pair_shape (zero pair_shape) (NewReader (w_out mw)) in
  (z, o, fst (Peek r 1)) = (("ab"%string, (slice_of [Some (-200); None], tt)), Ok tt, ([], Some EOF)).
Proof. vm_compute. reflexivity. Qed.

(** A writer with the smallest buffer cuts off the end of a long key. *)
Example short_buffer_cuts :
  let sh := SStruct (FCons "a_name_of_twenty_one" SBool FNil) in
  let '(_, mw, o) := then_ (EncodeMsg sh (true, tt) (NewWriterSize (W := list Z) [] 18)) flush in
  (len (w_out mw), o) = (19, Ok tt).
Proof. vm_compute. reflexivity. Qed.
