(* ===== verification/MsgpStreamTheorems.v ===== *)
(** The streams are sinks and sources as [MsgpShapeTheorems] asks: the
    buffered writer hands on what it was given, in order, whatever the size
    of its buffer, and the buffered reader gives the bytes of the stream,
    however they arrive.  So [EncodeMsg] writes what [MarshalMsg] appends,
    and [DecodeMsg] reads it back. *)
From S2P Require Import Prelude Float64 GoStrings GoParse Wire WireTheorems.
From S2P Require Import Msgp MsgpShape MsgpShapeTheorems MsgpStream.

Open Scope Z_scope.

(** ** The writer *)

(** An [io.Writer] that takes all it is given, as a [bytes.Buffer] does. *)
Class IoWriterLaws (W : Type) `{!IoWriter W} := {
  taken : W -> list Z;
  io_takes : forall w p, exists w', io_Write w p = (len p, None, w') /\ taken w' = taken w ++ p
}.

#[export] Instance buffer_laws : IoWriterLaws (list Z).
Proof. refine (Build_IoWriterLaws (list Z) _ (fun w => w) _). intros w p. by exists (w ++ p). Defined.

Section writer.
Context {W : Type} `{!IoWriter W} `{!IoWriterLaws W}.

Definition written (mw : Writer W) : list Z := taken (w_out mw) ++ w_buf mw.

Definition writer_good (mw : Writer W) : Prop := len (w_buf mw) <= w_size mw /\ 64 <= w_size mw.

Lemma flush_takes (mw : Writer W) :
  exists mw', flush mw = ok tt mw' /\ written mw' = written mw /\ w_buf mw' = [] /\ w_size mw' = w_size mw.
Proof.
  unfold flush. destruct (_ =? 0) eqn:E; bool_to_prop.
  - exists mw. destruct mw as [w [|b buf] sz]; [done|]. unfold len in E. cbn in E. lia.
  - destruct (io_takes (w_out mw) (w_buf mw)) as (w' & -> & Ht). eexists. split; [done|].
    unfold written. cbn. by rewrite Ht, app_nil_r.
Qed.

Lemma make_room_takes (mw : Writer W) (n : Z) :
  writer_good mw -> n <= w_size mw ->
  exists mw', make_room mw n = ok tt mw' /\ written mw' = written mw /\ writer_good mw' /\ n <= avail mw' /\ w_size mw' = w_size mw.
Proof.
  intros [Hb Hs] Hn. unfold make_room. destruct (_ <? _) eqn:E; bool_to_prop.
  - destruct (flush_takes mw) as (mw' & -> & Hw & Hb' & Hs'). exists mw'. unfold writer_good, avail. rewrite Hb', Hs'.
    unfold len. cbn. split_and!; try done; lia.
  - by exists mw.
Qed.

Lemma set_buf_takes (mw : Writer W) (p : list Z) :
  writer_good mw -> len p <= avail mw ->
  written (set_buf mw (w_buf mw ++ p)) = written mw ++ p /\ writer_good (set_buf mw (w_buf mw ++ p)).
Proof.
  intros [Hb Hs] Hp. unfold written, writer_good, avail in *. cbn. rewrite len_app, (assoc_L (++)). split; [done|]. lia.
Qed.

Lemma emit_takes (mw : Writer W) (p : list Z) :
  writer_good mw -> len p <= 18 -> exists mw', emit mw p = ok tt mw' /\ written mw' = written mw ++ p /\ writer_good mw'.
Proof.
  intros Hg Hp. destruct (make_room_takes mw (len p) Hg) as (mw1 & E & Hw & Hg1 & Ha & Hs); [destruct Hg; lia|].
  unfold emit. rewrite E. cbn. destruct (_ <? _) eqn:E1; bool_to_prop; [lia|].
  eexists. split; [done|]. rewrite <- Hw. by apply set_buf_takes.
Qed.

Lemma Append_takes (mw : Writer W) (p : list Z) :
  writer_good mw -> len p <= 64 -> exists mw', Append mw p = ok tt mw' /\ written mw' = written mw ++ p /\ writer_good mw'.
Proof.
  intros Hg Hp. destruct (make_room_takes mw (len p) Hg) as (mw1 & E & Hw & Hg1 & Ha & Hs); [destruct Hg; lia|].
  unfold Append. rewrite E. cbn. rewrite take_ge by (unfold len in *; lia).
  eexists. split; [done|]. rewrite <- Hw. by apply set_buf_takes.
Qed.

Lemma Write_takes (mw : Writer W) (p : list Z) :
  writer_good mw -> exists mw', Write mw p = ok tt mw' /\ written mw' = written mw ++ p /\ writer_good mw'.
Proof.
  intros Hg. unfold Write. destruct (_ <? _) eqn:E; bool_to_prop.
  - destruct (flush_takes mw) as (mw1 & -> & Hw & Hb & Hs). cbn. destruct (_ >? _) eqn:E1; bool_to_prop.
    + destruct (io_takes (w_out mw1) p) as (w' & -> & Ht). eexists. split; [done|]. rewrite <- Hw.
      unfold written, writer_good. cbn. rewrite Hb, !app_nil_r, Hs, Ht. split; [done|]. destruct Hg. unfold len; cbn; lia.
    + eexists. split; [done|]. rewrite <- Hw. apply set_buf_takes.
      * unfold writer_good. rewrite Hb, Hs. destruct Hg. unfold len; cbn; lia.
      * unfold avail. rewrite Hb. unfold len in *; cbn; lia.
  - eexists. split; [done|]. apply set_buf_takes; [done|lia].
Qed.

Lemma headed_takes (mw : Writer W) (h p : list Z) :
  writer_good mw -> len h <= 18 ->
  exists mw', then_ (emit mw h) (fun mw => Write mw p) = ok tt mw' /\ written mw' = written mw ++ h ++ p /\ writer_good mw'.
Proof.
  intros Hg Hh. destruct (emit_takes mw h Hg Hh) as (mw1 & -> & Hw & Hg1). cbn.
  destruct (Write_takes mw1 p Hg1) as (mw2 & -> & Hw2 & Hg2). exists mw2. by rewrite Hw2, Hw, (assoc_L (++)).
Qed.

#[export] Instance writer_SinkLaws : SinkLaws (Writer W).
Proof.
  refine (Build_SinkLaws (Writer W) _ written writer_good _ _ _ _);
    cbn [snk_small snk_const snk_string snk_bytes writer_Sink].
  - apply emit_takes.
  - apply Append_takes.
  - intros k s Hk Hs. unfold fits in Hs. unfold WriteString, wrap. rewrite Z.mod_small by (unfold len in *; lia).
    apply headed_takes; [done|]. pose proof (str_header_size (len (string_bytes s))). unfold StringPrefixSize in *. lia.
  - intros k p Hk Hp. unfold fits in Hp. unfold WriteBytes, wrap. rewrite Z.mod_small by (unfold len in *; lia).
    apply headed_takes; [done|]. pose proof (bin_header_size (len p)). unfold BytesPrefixSize in *. lia.
Defined.

Lemma EncodeMsg_writes (sh : shape) (v : denote sh) (mw : Writer W) :
  wf sh = true -> valid sh v -> writer_good mw ->
  exists mw', EncodeMsg sh v mw = ok tt mw' /\ written mw' = written mw ++ put sh v /\ writer_good mw'.
Proof. intros Hw Hv Hg. exact (proj1 encode_takes sh Hw v mw Hv Hg). Qed.

Lemma Encode_writes (sh : shape) (v : denote sh) (w : W) :
  wf sh = true -> valid sh v ->
  exists mw, Encode w sh v = ok tt mw /\ taken (w_out mw) = taken w ++ put sh v /\ w_buf mw = [].
Proof.
  intros Hw Hv. destruct (EncodeMsg_writes sh v (NewWriter w) Hw Hv) as (mw & E & Ht & Hg).
  { unfold writer_good, NewWriter, len. cbn. lia. }
  destruct (flush_takes mw) as (mw' & Ef & Ht' & Hb & _). exists mw'. unfold Encode. rewrite E. cbn. split; [done|].
  unfold written, NewWriter in *. cbn in *. rewrite Hb, !app_nil_r in *. split; [congruence|done].
Qed.

End writer.

(** ** The reader *)

Lemma to_nat_len {A} (l : list A) : Z.to_nat (len l) = length l.
Proof. unfold len. lia. Qed.

Lemma prefix_cut {A} (a b c d : list A) : a ++ b = c ++ d -> (length a <= length c)%nat -> exists q, c = a ++ q /\ b = q ++ d.
Proof.
  intros E Hl. exists (drop (length a) c).
  assert (Ha : take (length a) c = a).
  { rewrite <- (take_app_le c d) by lia. rewrite <- E. by rewrite take_app_length. }
  split; [by rewrite <- Ha at 1; rewrite take_drop|].
  rewrite <- (drop_app_length a b), E. by apply drop_app_le.
Qed.

(** An [io.Reader] that tells the end apart: a read gives some of what
    there is, at most as much as was asked for, without an error, and the end
    comes with no data.  An [io.Reader] may also give the last data together
    with the end; [ReadFull] then fails, see [eager_end_fails]. *)
Class IoReaderLaws (R : Type) `{!IoReader R} := {
  contents : R -> list Z;
  io_reads : forall src n, 0 < n -> contents src <> [] ->
    exists bs src', io_Read src n = (bs, None, src') /\ bs <> [] /\ len bs <= n /\ contents src = bs ++ contents src';
  io_ends : forall src n, contents src = [] -> exists src', io_Read src n = ([], Some EOF, src') /\ contents src' = []
}.

Section reader.
Context {R : Type} `{!IoReader R} `{!IoReaderLaws R}.

Definition left (r : fwdReader R) : list Z := r_data r ++ contents (r_src r).

Definition reader_good (r : fwdReader R) : Prop := r_state r = None /\ len (r_data r) <= r_cap r /\ 1 <= r_cap r.

Lemma more_reads (r : fwdReader R) :
  reader_good r -> len (r_data r) < r_cap r -> contents (r_src r) <> [] ->
  reader_good (more r) /\ left (more r) = left r /\ len (r_data r) < len (r_data (more r)) /\ r_cap (more r) = r_cap r.
Proof.
  intros (Hs & Hl & Hc) Hroom Hne. unfold more, buffered.
  destruct (io_reads (r_src r) (r_cap r - len (r_data r)) ltac:(lia) Hne) as (bs & src' & -> & Hbs & Hlen & Hcont).
  destruct bs as [|b bs]; [done|]. unfold reader_good, left. cbn [r_state r_data r_cap r_src].
  rewrite !len_app. split_and!; try done; try lia.
  - by rewrite Hcont, (assoc_L (++)).
  - unfold len. cbn [length]. lia.
Qed.

Lemma fill_reads (fuel : nat) (r : fwdReader R) (n : Z) :
  reader_good r -> n <= r_cap r -> n <= len (left r) -> n - buffered r < Z.of_nat fuel ->
  reader_good (fill fuel r n) /\ left (fill fuel r n) = left r /\ n <= buffered (fill fuel r n).
Proof.
  revert r. induction fuel as [|fuel IH]; intros r Hg Hc Hn Hf; cbn [fill].
  { split_and!; [done|done|lia]. }
  pose proof Hg as (Hs & Hl & Hp). rewrite Hs. rewrite bool_decide_eq_true_2, andb_true_r by done.
  destruct (_ <? _) eqn:E; bool_to_prop; [|done].
  assert (Hne : contents (r_src r) <> []).
  { intros E0. unfold left in Hn. rewrite E0, app_nil_r in Hn. unfold buffered in E. lia. }
  destruct (more_reads r Hg) as (Hg' & Hl' & Hb & Hc'); [unfold buffered in E; lia|done|].
  rewrite <- Hl' in *. apply IH; [done|lia|done|]. unfold buffered in *. lia.
Qed.

Lemma filled_reads (r : fwdReader R) (n : Z) :
  reader_good r -> 0 <= n <= len (left r) ->
  reader_good (filled r n) /\ left (filled r n) = left r /\ n <= buffered (filled r n).
Proof.
  intros Hg Hn. unfold filled. assert (Hgr : reader_good (grow r n) /\ left (grow r n) = left r /\ n <= r_cap (grow r n) /\
    buffered (grow r n) = buffered r).
  { unfold grow. destruct Hg as (Hs & Hl & Hc). destruct (_ <? _) eqn:E; bool_to_prop; [|done].
    unfold reader_good, left, buffered in *. cbn in *. unfold len in *. split_and!; try done; lia. }
  destruct Hgr as (Hg' & Hl' & Hc' & Hb'). rewrite <- Hl'. apply fill_reads; [done|done|rewrite Hl'; lia|].
  rewrite Hb'. unfold buffered, len. lia.
Qed.

(** The first bytes that are left, when the buffer holds them. *)
Lemma take_left (r : fwdReader R) (n : Z) : n <= buffered r -> take (Z.to_nat n) (r_data r) = take (Z.to_nat n) (left r).
Proof. intros Hn. unfold left. rewrite take_app_le; [done|]. unfold buffered, len in Hn. lia. Qed.

Lemma Peek_reads (r : fwdReader R) (bs rest : list Z) :
  reader_good r -> left r = bs ++ rest ->
  exists r', Peek r (len bs) = (bs, None, r') /\ left r' = left r /\ reader_good r' /\ len bs <= buffered r'.
Proof.
  intros Hg E. destruct (filled_reads r (len bs) Hg) as (Hg' & Hl & Hb); [rewrite E, len_app; unfold len; lia|].
  exists (filled r (len bs)). unfold Peek. destruct (_ <? _) eqn:Eb; bool_to_prop; [lia|].
  rewrite take_left by done. rewrite Hl, E. by rewrite to_nat_len, take_app_length.
Qed.

Lemma drop_left (r : fwdReader R) (bs rest : list Z) :
  reader_good r -> left r = bs ++ rest -> len bs <= buffered r ->
  left (set_data r (drop (Z.to_nat (len bs)) (r_data r))) = rest /\ reader_good (set_data r (drop (Z.to_nat (len bs)) (r_data r))).
Proof.
  intros (Hs & Hl & Hc) E Hb. unfold left, reader_good, buffered, len in *. cbn. rewrite Nat2Z.id in *. rewrite length_drop.
  split; [|split_and!; try done; lia].
  rewrite <- (drop_app_length bs rest), <- E, drop_app_le by lia. done.
Qed.

Lemma Next_reads (r : fwdReader R) (bs rest : list Z) :
  reader_good r -> left r = bs ++ rest ->
  exists r', Next r (len bs) = (bs, None, r') /\ left r' = rest /\ reader_good r'.
Proof.
  intros Hg E. destruct (filled_reads r (len bs) Hg) as (Hg' & Hl & Hb); [rewrite E, len_app; unfold len; lia|].
  unfold Next. destruct (_ <? _) eqn:Eb; bool_to_prop; [lia|].
  exists (set_data (filled r (len bs)) (drop (Z.to_nat (len bs)) (r_data (filled r (len bs))))). split.
  - rewrite take_left by done. rewrite Hl, E. by rewrite to_nat_len, take_app_length.
  - apply drop_left; [done|congruence|done].
Qed.

(** What was looked at is skipped without reading. *)
Lemma Skip_reads (r : fwdReader R) (bs rest : list Z) :
  reader_good r -> left r = bs ++ rest -> len bs <= buffered r ->
  exists r', fwd_Skip r (len bs) = (None, r') /\ left r' = rest /\ reader_good r'.
Proof.
  intros Hg E Hb. unfold fwd_Skip. destruct (_ <=? _) eqn:El; bool_to_prop; [|lia]. eexists. split; [done|]. by apply drop_left.
Qed.

Lemma stream_form_reads {A} (f : Z -> form A) (zero : A) (r : fwdReader R) (bs rest : list Z) (v : A) :
  reader_good r -> forms f bs v -> left r = bs ++ rest -> gives left reader_good (stream_form f zero r) v rest.
Proof.
  intros Hg Hf E. unfold stream_form. destruct bs as [|lead p]; [done|]. cbn in Hf.
  destruct (Peek_reads r [lead] (p ++ rest) Hg) as (r1 & E1 & Hl1 & Hg1 & Hb1); [done|].
  change (len [lead]) with 1 in *. rewrite E1. cbn iota. destruct (f lead) as [a|n conv|e]; [| |done].
  - destruct Hf as [-> ->]. destruct (Skip_reads r1 [lead] rest Hg1) as (r2 & E2 & Hl2 & Hg2); [congruence|done|].
    change (len [lead]) with 1 in E2. rewrite E2. by exists r2.
  - destruct Hf as [<- <-]. destruct (Next_reads r1 (lead :: p) rest Hg1) as (r2 & E2 & Hl2 & Hg2); [congruence|].
    replace (1 + Z.of_nat (length p)) with (len (lead :: p)) by (unfold len; cbn [length]; lia). rewrite E2. by exists r2.
Qed.

Lemma read_full_reads (fuel : nat) (r : fwdReader R) (got p rest : list Z) (l : Z) :
  reader_good r -> left r = p ++ rest -> len got + len p = l ->
  (2 * length p < fuel + (if decide (r_data r = []) then 0 else 1))%nat ->
  exists r', read_full fuel r got l = (got ++ p, r', Ok tt) /\ left r' = rest /\ reader_good r'.
Proof.
  revert r got p. induction fuel as [|fuel IH]; intros r got p Hg E Hl Hf; cbn [read_full].
  all: pose proof Hg as (Hs & Hd & Hc); rewrite Hs, bool_decide_eq_true_2, andb_true_r by done.
  all: destruct (len got <? l) eqn:El; bool_to_prop;
    [|assert (p = []) as -> by (destruct p; [done|unfold len in *; cbn [length] in *; lia]); rewrite app_nil_r; by exists r].
  { unfold len in *. case_decide; lia. }
  assert (Hp : (1 <= length p)%nat) by (unfold len in *; lia).
  unfold buffered. destruct (decide (r_data r = [])) as [Hnil|Hne].
  - rewrite Hnil. change (len [] =? 0) with true. cbn [negb].
    assert (Hcont : contents (r_src r) = p ++ rest) by (unfold left in E; rewrite Hnil in E; done).
    assert (Hcne : contents (r_src r) <> []) by (rewrite Hcont; by destruct p; [cbn in Hp; lia|]).
    destruct (_ >? _) eqn:Eg; bool_to_prop.
    + destruct (io_reads (r_src r) (l - len got) ltac:(lia) Hcne) as (bs & src' & -> & Hbs & Hlen & Hcs).
      rewrite Hcs in Hcont. destruct (prefix_cut bs (contents src') p rest) as (q & -> & Hq); [done|unfold len in *; lia|].
      destruct (IH (mkFwd src' [] (r_cap r) None) (got ++ bs) q) as (r' & -> & Hl' & Hg').
      * split_and!; [done|unfold len; cbn; lia|done].
      * done.
      * rewrite len_app in *. lia.
      * cbn. rewrite length_app in *. destruct bs; [done|]. cbn [length] in *. case_decide; lia.
      * exists r'. by rewrite (assoc_L (++)).
    + destruct (more_reads r Hg) as (Hg' & Hl' & Hb' & _); [rewrite Hnil; unfold len; cbn; lia|done|].
      destruct (IH (more r) got p) as (r' & E' & Hr' & Hgr'); [done|congruence|done| |by exists r'].
      case_decide as Hm; [|lia]. rewrite Hm, Hnil in Hb'. done.
  - destruct (r_data r) as [|d ds] eqn:Ed; [done|]. change (len (d :: ds) =? 0) with false. cbn [negb].
    set (nn := Z.to_nat (l - len got)). assert (Hnn : nn = length p) by (unfold nn, len in *; lia).
    assert (Hpp : p = take nn (d :: ds) ++ drop (length (take nn (d :: ds))) p).
    { rewrite <- (take_drop (length (take nn (d :: ds))) p) at 1. f_equal.
      assert (Hpre : take (length (take nn (d :: ds))) (p ++ rest) = take (length (take nn (d :: ds))) (d :: ds)).
      { rewrite <- E. unfold left. rewrite Ed, take_app_le; [done|]. rewrite length_take. lia. }
      rewrite take_app_le in Hpre by (rewrite length_take; lia). rewrite Hpre, length_take.
      destruct (Nat.le_ge_cases nn (length (d :: ds))); [by rewrite Nat.min_l|]. rewrite Nat.min_r by done. by rewrite !take_ge. }
    destruct (IH (set_data r (drop nn (d :: ds))) (got ++ take nn (d :: ds)) (drop (length (take nn (d :: ds))) p)) as (r' & -> & Hr' & Hgr').
    + split_and!; [done| |done]. cbn. unfold len in *. rewrite length_drop. lia.
    + unfold left in *. cbn. rewrite Ed in E. rewrite Hpp in E.
      assert (E2 : (take nn (d :: ds) ++ drop nn (d :: ds)) ++ contents (r_src r) = (take nn (d :: ds) ++ drop (length (take nn (d :: ds))) p) ++ rest)
        by (rewrite take_drop; exact E).
      rewrite <- !(assoc_L (++)) in E2. by apply app_inv_head in E2.
    + rewrite len_app. unfold len in *. rewrite length_drop. rewrite length_take in *. lia.
    + rewrite length_drop, length_take. cbn [length]. case_decide; lia.
    + exists r'. rewrite <- (assoc_L (++)), <- Hpp. done.
Qed.

Lemma ReadFull_reads (r : fwdReader R) (p rest : list Z) :
  reader_good r -> left r = p ++ rest ->
  exists r', ReadFull r (len p) = (p, r', Ok tt) /\ left r' = rest /\ reader_good r'.
Proof.
  intros Hg E. apply (read_full_reads _ r [] p rest); [done|done|done|]. rewrite to_nat_len. case_decide; lia.
Qed.

(** A header that says how many bytes follow, and those. *)
Lemma sized_reads {A} (f : Z -> form Z) (z : A) (h p rest : list Z) (k : Z -> fwdReader R -> res A (fwdReader R)) (v : A) (r : fwdReader R) :
  reader_good r -> forms f h (len p) -> left r = (h ++ p) ++ rest ->
  (forall r', reader_good r' -> left r' = p ++ rest -> gives left reader_good (k (len p) r') v rest) ->
  gives left reader_good (on_ok (stream_form f 0 r) z k) v rest.
Proof.
  intros Hg Hf E Hk. rewrite <- app_assoc in E.
  destruct (stream_form_reads f 0 r h (p ++ rest) (len p) Hg Hf E) as (r1 & -> & Hl & Hg1). by apply Hk.
Qed.

Lemma key_form_str (n : Z) : 0 <= n < 2 ^ 32 -> forms key_form (str_header n) n.
Proof.
  intros Hn. pose proof (str_header_form (badPrefix StrType) n Hn) as Hf. unfold forms in *.
  destruct (str_header n) as [|lead p]; [done|]. unfold str_form, key_form in *.
  destruct (isfixstr lead); [done|]. destruct (lead =? mstr8); [done|].
  destruct (lead =? mstr16) eqn:E16; [apply Z.eqb_eq in E16 as ->; done|].
  destruct (lead =? mstr32) eqn:E32; [apply Z.eqb_eq in E32 as ->; done|done].
Qed.

Lemma Peek_skip (r : fwdReader R) (bs rest : list Z) :
  reader_good r -> left r = bs ++ rest ->
  exists r1 r2, Peek r (len bs) = (bs, None, r1) /\ fwd_Skip r1 (len bs) = (None, r2) /\ left r2 = rest /\ reader_good r2.
Proof.
  intros Hg E. destruct (Peek_reads r bs rest Hg E) as (r1 & E1 & Hl1 & Hg1 & Hb1).
  destruct (Skip_reads r1 bs rest Hg1) as (r2 & E2 & Hl2 & Hg2); [congruence|done|]. by exists r1, r2.
Qed.

Lemma ReadFloat64_reads (r : fwdReader R) (v : float64) (rest : list Z) :
  reader_good r -> in_width 64 v -> left r = float64_bytes v ++ rest -> gives left reader_good (ReadFloat64 r) v rest.
Proof.
  intros Hg Hv E. destruct (Peek_skip r (float64_bytes v) rest Hg E) as (r1 & r2 & E1 & E2 & Hl & Hg2).
  rewrite float64_size in E1, E2. change Float64Size with 9 in *. unfold ReadFloat64. rewrite E1.
  unfold float64_bytes, prefixu. cbn iota. change (mfloat64 =? mfloat64) with true. cbn iota. rewrite E2, be_get_be.
  exists r2. split; [|done]. unfold Float64frombits, Float64bits. rewrite Z.mod_small by exact Hv. done.
Qed.

Lemma ReadTime_reads (r : fwdReader R) (t : Time) (rest : list Z) :
  reader_good r -> time_ok t -> left r = time_bytes t ++ rest -> gives left reader_good (ReadTime r) t rest.
Proof.
  intros Hg Ht E. destruct (Peek_skip r (time_bytes t) rest Hg E) as (r1 & r2 & E1 & E2 & Hl & Hg2).
  rewrite time_size in E1, E2. change TimeSize with 15 in *. unfold ReadTime. rewrite E1.
  pose proof (time_of_bytes t [] Ht) as Et. rewrite app_nil_r in Et. revert Et.
  change (time_bytes t) with (mext8 :: 12 :: TimeExtension :: be 8 t.1 ++ be 4 t.2). intros Et. cbn iota.
  change (negb (mext8 =? mext8) || negb (12 =? 12)) with false. change (swrap 8 TimeExtension =? TimeExtension) with true.
  cbn [negb]. rewrite E2, Et. by exists r2.
Qed.

Lemma ReadBytes_reads (r : fwdReader R) (z : gslice Z) (v rest : list Z) :
  reader_good r -> fits (len v) -> left r = bytes_msg v ++ rest ->
  exists z', s_vals z' = v /\ gives left reader_good (ReadBytes z r) z' rest.
Proof.
  intros Hg Hv E. unfold fits in Hv. unfold ReadBytes.
  assert (Hh : exists b0 b1 t, bytes_msg v = [b0; b1] ++ t).
  { unfold bytes_msg, bin_header, prefixu. repeat case_match; cbn; eauto. }
  destruct Hh as (b0 & b1 & t & Hh). destruct (Peek_reads r [b0; b1] (t ++ rest) Hg) as (r1 & E1 & Hl1 & Hg1 & _).
  { by rewrite E, Hh, <- (assoc_L (++)). }
  change (len [b0; b1]) with 2 in E1. rewrite E1.
  eexists (mkSlice v (s_spare (reslice 0 (Z.to_nat (len v)) z))). split; [done|]. eapply (sized_reads bin_form _ (bin_header (len v)) v).
  - done.
  - apply bin_header_form. unfold len in *. lia.
  - by rewrite Hl1.
  - intros r2 Hg2 Hl2. destruct (ReadFull_reads r2 v rest Hg2 Hl2) as (r3 & -> & Hl3 & Hg3). exists r3.
    split; [|done]. unfold ok. f_equal. f_equal. f_equal. rewrite drop_ge, app_nil_r; [done|].
    rewrite length_reslice, to_nat_len. done.
Qed.

#[export] Instance stream_SourceLaws : SourceLaws (fwdReader R).
Proof.
  refine (Build_SourceLaws (fwdReader R) _ left reader_good _ _ _ _ _ _ _ _ _ _ _ _ _ _);
    cbn [src_map_header src_array_header src_key src_is_nil src_nil src_int64 src_int32 src_uint64 src_uint32 src_float64
         src_bool src_string src_bytes src_time stream_Source].
  - intros s n rest Hs Hn E. by eapply stream_form_reads; [|apply map_header_form|].
  - intros s n rest Hs Hn E. by eapply stream_form_reads; [|apply array_header_form|].
  - intros s name rest Hs Hn E. unfold name_ok in Hn. bool_to_prop. apply (sized_reads _ _ (str_header (len (string_bytes name))) (string_bytes name)); [done|apply key_form_str; lia|done|].
    intros r Hr Er. destruct (_ =? 0) eqn:E0; bool_to_prop; [lia|].
    destruct (Next_reads r (string_bytes name) rest Hr Er) as (r2 & -> & Hl2 & Hg2). by exists r2.
  - intros s b rest Hs E. destruct (Peek_reads s [b] rest Hs E) as (r1 & E1 & Hl1 & Hg1 & _). exists r1.
    change (len [b]) with 1 in E1. unfold stream_IsNil. by rewrite E1.
  - intros s rest Hs E. by eapply stream_form_reads; [|apply nil_form_bytes|].
  - intros s v rest Hs Hv E. by eapply stream_form_reads; [|apply int64_form_bytes|].
  - intros s v rest Hs Hv E. destruct (stream_form_reads int64_form 0 s (int64_bytes v) rest v Hs) as (r1 & E1 & H1);
      [apply int64_form_bytes; lia|done|]. exists r1. split; [|done]. unfold ReadInt32, ReadInt64. rewrite E1. unfold narrow_int, ok.
    case_match eqn:En; [|done]. apply orb_true_iff in En as [En|En]; bool_to_prop; lia.
  - intros s v rest Hs Hv E. by eapply stream_form_reads; [|apply uint64_form_bytes|].
  - intros s v rest Hs Hv E. unfold in_width in Hv.
    destruct (stream_form_reads uint64_form 0 s (uint64_bytes v) rest v Hs) as (r1 & E1 & H1);
      [apply uint64_form_bytes; unfold in_width; lia|done|]. exists r1. split; [|done]. unfold ReadUint32, ReadUint64. rewrite E1.
    unfold narrow_uint, ok. case_match eqn:En; [|done]. bool_to_prop; lia.
  - intros s v rest. apply ReadFloat64_reads.
  - intros s v rest Hs E. by eapply stream_form_reads; [|apply bool_form_bytes|].
  - intros s v rest Hs Hv E. unfold fits in Hv. 
    apply (sized_reads _ _ (str_header (len (string_bytes v))) (string_bytes v)); [done|apply str_header_form; unfold len in *; lia|done|].
    intros r Hr Er. destruct (_ =? 0) eqn:E0; bool_to_prop.
    + assert (Hn : string_bytes v = []) by (destruct (string_bytes v); [done|unfold len in E0; cbn in E0; lia]).
      exists r. rewrite Hn in Er. split; [|done]. by rewrite (string_bytes_nil v Hn).
    + destruct (ReadFull_reads r (string_bytes v) rest Hr Er) as (r2 & -> & Hl2 & Hg2). exists r2.
      split; [|done]. unfold ok. by rewrite bytes_string_bytes.
  - intros s z v rest. apply ReadBytes_reads.
  - intros s v rest. apply ReadTime_reads.
Defined.

Lemma DecodeMsg_reads (fuel : nat) (sh : shape) (v z : denote sh) (r : fwdReader R) (rest : list Z) :
  wf sh = true -> valid sh v -> reader_good r -> left r = put sh v ++ rest -> (length (left r) < fuel)%nat ->
  exists z' r', DecodeMsg fuel sh z r = ok z' r' /\ same sh z' v /\ left r' = rest /\ reader_good r'.
Proof.
  intros Hw Hv Hg E Hf. 
  pose proof (proj1 decode_reads sh Hw fuel v z r rest Hv) as H. destruct (H Hg E Hf) as (z' & Hs & r' & Ed & Hl & Hg').
  by exists z', r'.
Qed.

(** At the end of the stream. *)
Lemma filled_end (r : fwdReader R) (n : Z) :
  reader_good r -> left r = [] -> 0 < n ->
  left (filled r n) = [] /\ r_state (filled r n) = Some EOF /\ 1 <= r_cap (filled r n).
Proof.
  intros (Hs & Hl & Hc) E Hn. unfold left in E. apply app_nil in E as [Ed Ec].
  unfold filled. cbn [fill].
  assert (Hg : exists c, grow r n = mkFwd (r_src r) [] c None /\ 1 <= c).
  { unfold grow. destruct r as [src d c st]. cbn in *. subst. destruct (_ <? _); [exists (n + 0)|exists c]; split; try done; lia. }
  destruct Hg as (c & -> & Hc'). change (buffered _) with 0. rewrite bool_decide_eq_true_2, andb_true_r by done.
  destruct (0 <? n) eqn:E0; bool_to_prop; [|lia]. unfold more. change (buffered _) with 0. cbn [r_src r_cap r_data].
  destruct (io_ends (r_src r) (c - 0) Ec) as (src' & -> & Hc2).
  destruct (Z.to_nat n); cbn [fill]; rewrite ?bool_decide_eq_false_2, ?andb_false_r by done; unfold left; cbn; by rewrite Hc2.
Qed.

Lemma Peek_end (r : fwdReader R) (n : Z) :
  reader_good r -> left r = [] -> 0 < n -> exists r', Peek r n = ([], Some EOF, r') /\ left r' = [] /\ reader_good r'.
Proof.
  intros Hg E Hn. destruct (filled_end r n Hg E Hn) as (Hl & Hst & Hc). unfold Peek. revert Hl Hst Hc. generalize (filled r n).
  intros q Hl Hst Hc. unfold left in Hl.
  apply app_nil in Hl as [Hd Hct]. unfold buffered. rewrite Hd. change (len []) with 0. destruct (0 <? n) eqn:E0; bool_to_prop; [|lia].
  unfold pop_err. rewrite Hst. eexists. split; [done|]. unfold left, reader_good. cbn. rewrite Hd, Hct. unfold len. cbn.
  split; [done|]. split_and!; [done|lia|done].
Qed.

Lemma DecodeMsg_end (fuel : nat) (fs : fields) (z : denote_fields fs) (r : fwdReader R) :
  reader_good r -> left r = [] ->
  exists r', DecodeMsg fuel (SStruct fs) z r = fail z r' EOF /\ left r' = [] /\ reader_good r'.
Proof.
  intros Hg E. destruct (Peek_end r 1 Hg E ltac:(lia)) as (r' & Ep & Hl & Hg'). exists r'. split; [|done].
  unfold DecodeMsg. cbn [decode src_map_header stream_Source]. unfold ReadMapHeader, stream_form. by rewrite Ep.
Qed.

Lemma NewReader_good (src : R) : reader_good (NewReader src) /\ left (NewReader src) = contents src.
Proof. unfold reader_good, left, NewReader, len. cbn. split; [|done]. split_and!; [done|lia|lia]. Qed.

End reader.

(** ** Readers that keep to it *)

#[export] Instance bytes_IoReaderLaws : IoReaderLaws (list Z).
Proof.
  refine (Build_IoReaderLaws (list Z) _ (fun src => src) _ _); cbn [io_Read bytes_IoReader].
  - intros [|b src] n Hn Hne; [done|]. eexists _, _. split; [done|]. destruct (Z.to_nat n) as [|k] eqn:En; [lia|].
    split; [done|]. split; [|by rewrite take_drop]. unfold len. rewrite length_take. lia.
  - intros src n ->. by exists [].
Defined.

(** A connection: every read gets at most what has arrived together. *)
Definition arrivals : Type := list (list Z).

Definition nonempty (src : list (list Z)) : list (list Z) := filter (fun c => c <> []) src.

#[export] Instance arrivals_IoReader : IoReader arrivals := {
  io_Read src n :=
    match nonempty src with
    | [] => ([], Some EOF, [])
    | c :: src => (take (Z.to_nat n) c, None, drop (Z.to_nat n) c :: src)
    end;
  io_Seek _ _ := None
}.

Lemma concat_nonempty (src : list (list Z)) : concat (nonempty src) = concat src.
Proof.
  unfold nonempty. induction src as [|c src IH]; [done|]. rewrite filter_cons. case_decide as H; cbn; [by rewrite IH|].
  by rewrite H.
Qed.

Lemma nonempty_head (src : list (list Z)) (c : list Z) (cs : list (list Z)) : nonempty src = c :: cs -> c <> [].
Proof.
  intros E. assert (c ∈ nonempty src) as Hin by (rewrite E; left). unfold nonempty in Hin.
  by apply list_elem_of_filter in Hin as [Hc _].
Qed.

#[export] Instance arrivals_laws : IoReaderLaws arrivals.
Proof.
  refine (Build_IoReaderLaws arrivals _ (fun src => concat src) _ _); cbn [io_Read arrivals_IoReader]; intros src n.
  - rewrite <- (concat_nonempty src). intros Hn Hne. destruct (nonempty src) as [|c cs] eqn:Ef; [done|].
    apply nonempty_head in Ef as Hc. eexists _, _. split; [done|]. destruct (Z.to_nat n) as [|k] eqn:En; [lia|].
    split; [by destruct c|]. split; [unfold len; rewrite length_take; lia|]. cbn [concat].
    by rewrite (assoc_L (++)), take_drop.
  - rewrite <- (concat_nonempty src). intros E. destruct (nonempty src) as [|c cs] eqn:Ef; [by exists []|].
    apply nonempty_head in Ef. by destruct c.
Defined.
