(* ===== verification/MsgpMessages.v ===== *)
(** The types with generated MessagePack code ([schemas/*/*_msgp.go],
    [series/msgpacker/msgpacker.msgp.go]): the shape of each, and its five
    methods, which are those of [MsgpShape] and [MsgpStream] for that shape.
    A method that the generator writes out inside another, as that of a tag
    inside a metric, is the same code as the method itself, so a shape names
    the shapes of its parts.

    Left out: [UidMetricList], which holds a list of itself, and
    [MetricFindItems] and [MetricTagItems], lists of pointers whose code
    calls the methods of the elements without looking whether they are
    nil. *)
From S2P Require Import Prelude Float64 GoStrings GoParse Wire Msgp MsgpShape MsgpStream.

Open Scope Z_scope.
Open Scope shape_scope.

(** ** [schemas/repr/repr_msgp.go] *)

Definition HashMode_shape : shape := SInt32.

Definition HashMode_MarshalMsg (v : denote HashMode_shape) (b : list Z) : outcome (list Z) := MarshalMsg HashMode_shape v b.
Definition HashMode_UnmarshalMsg (z : denote HashMode_shape) (bts : list Z) : res (denote HashMode_shape) (list Z) := UnmarshalMsg HashMode_shape z bts.
Definition HashMode_EncodeMsg `{!IoWriter W} (v : denote HashMode_shape) (en : Writer W) : res unit (Writer W) := EncodeMsg HashMode_shape v en.
Definition HashMode_DecodeMsg `{!IoReader R} (fuel : nat) (z : denote HashMode_shape) (dc : fwdReader R) : res (denote HashMode_shape) (fwdReader R) :=
  DecodeMsg fuel HashMode_shape z dc.
Definition HashMode_Msgsize (v : denote HashMode_shape) : Z := Msgsize HashMode_shape v.

Definition Tag_shape : shape :=
  SStruct ("Name" ↦ SString ;; "Value" ↦ SString ;; FNil).

Definition Tag_MarshalMsg (v : denote Tag_shape) (b : list Z) : outcome (list Z) := MarshalMsg Tag_shape v b.
Definition Tag_UnmarshalMsg (z : denote Tag_shape) (bts : list Z) : res (denote Tag_shape) (list Z) := UnmarshalMsg Tag_shape z bts.
Definition Tag_EncodeMsg `{!IoWriter W} (v : denote Tag_shape) (en : Writer W) : res unit (Writer W) := EncodeMsg Tag_shape v en.
Definition Tag_DecodeMsg `{!IoReader R} (fuel : nat) (z : denote Tag_shape) (dc : fwdReader R) : res (denote Tag_shape) (fwdReader R) :=
  DecodeMsg fuel Tag_shape z dc.
Definition Tag_Msgsize (v : denote Tag_shape) : Z := Msgsize Tag_shape v.

Definition StatName_shape : shape :=
  SStruct ("Key" ↦ SString ;; "XXX_uniqueId" ↦ SUint64 ;; "XXX_uniqueIdstr" ↦ SString ;; "Resolution" ↦ SUint32 ;;
           "Ttl" ↦ SUint32 ;; "TagMode" ↦ SInt32 ;; "HashMode" ↦ SInt32 ;; "Tags" ↦ SSlice (SPtr Tag_shape) ;;
           "MetaTags" ↦ SSlice (SPtr Tag_shape) ;; FNil).

Definition StatName_MarshalMsg (v : denote StatName_shape) (b : list Z) : outcome (list Z) := MarshalMsg StatName_shape v b.
Definition StatName_UnmarshalMsg (z : denote StatName_shape) (bts : list Z) : res (denote StatName_shape) (list Z) := UnmarshalMsg StatName_shape z bts.
Definition StatName_EncodeMsg `{!IoWriter W} (v : denote StatName_shape) (en : Writer W) : res unit (Writer W) := EncodeMsg StatName_shape v en.
Definition StatName_DecodeMsg `{!IoReader R} (fuel : nat) (z : denote StatName_shape) (dc : fwdReader R) : res (denote StatName_shape) (fwdReader R) :=
  DecodeMsg fuel StatName_shape z dc.
Definition StatName_Msgsize (v : denote StatName_shape) : Z := Msgsize StatName_shape v.

Definition StatRepr_shape : shape :=
  SStruct ("Name" ↦ SPtr StatName_shape ;; "Time" ↦ SInt64 ;; "Min" ↦ SFloat64 ;; "Max" ↦ SFloat64 ;;
           "Last" ↦ SFloat64 ;; "Sum" ↦ SFloat64 ;; "Count" ↦ SInt64 ;; FNil).

Definition StatRepr_MarshalMsg (v : denote StatRepr_shape) (b : list Z) : outcome (list Z) := MarshalMsg StatRepr_shape v b.
Definition StatRepr_UnmarshalMsg (z : denote StatRepr_shape) (bts : list Z) : res (denote StatRepr_shape) (list Z) := UnmarshalMsg StatRepr_shape z bts.
Definition StatRepr_EncodeMsg `{!IoWriter W} (v : denote StatRepr_shape) (en : Writer W) : res unit (Writer W) := EncodeMsg StatRepr_shape v en.
Definition StatRepr_DecodeMsg `{!IoReader R} (fuel : nat) (z : denote StatRepr_shape) (dc : fwdReader R) : res (denote StatRepr_shape) (fwdReader R) :=
  DecodeMsg fuel StatRepr_shape z dc.
Definition StatRepr_Msgsize (v : denote StatRepr_shape) : Z := Msgsize StatRepr_shape v.

Definition TagMode_shape : shape := SInt32.

Definition TagMode_MarshalMsg (v : denote TagMode_shape) (b : list Z) : outcome (list Z) := MarshalMsg TagMode_shape v b.
Definition TagMode_UnmarshalMsg (z : denote TagMode_shape) (bts : list Z) : res (denote TagMode_shape) (list Z) := UnmarshalMsg TagMode_shape z bts.
Definition TagMode_EncodeMsg `{!IoWriter W} (v : denote TagMode_shape) (en : Writer W) : res unit (Writer W) := EncodeMsg TagMode_shape v en.
Definition TagMode_DecodeMsg `{!IoReader R} (fuel : nat) (z : denote TagMode_shape) (dc : fwdReader R) : res (denote TagMode_shape) (fwdReader R) :=
  DecodeMsg fuel TagMode_shape z dc.
Definition TagMode_Msgsize (v : denote TagMode_shape) : Z := Msgsize TagMode_shape v.

(** ** [schemas/repr/tags_msgp.go] *)

Definition SortingTags_shape : shape := SSlice (SPtr Tag_shape).

Definition SortingTags_MarshalMsg (v : denote SortingTags_shape) (b : list Z) : outcome (list Z) := MarshalMsg SortingTags_shape v b.
Definition SortingTags_UnmarshalMsg (z : denote SortingTags_shape) (bts : list Z) : res (denote SortingTags_shape) (list Z) := UnmarshalMsg SortingTags_shape z bts.
Definition SortingTags_EncodeMsg `{!IoWriter W} (v : denote SortingTags_shape) (en : Writer W) : res unit (Writer W) := EncodeMsg SortingTags_shape v en.
Definition SortingTags_DecodeMsg `{!IoReader R} (fuel : nat) (z : denote SortingTags_shape) (dc : fwdReader R) : res (denote SortingTags_shape) (fwdReader R) :=
  DecodeMsg fuel SortingTags_shape z dc.
Definition SortingTags_Msgsize (v : denote SortingTags_shape) : Z := Msgsize SortingTags_shape v.

(** ** [schemas/repr/repr_list_msgp.go] *)

Definition NilJsonFloat64_shape : shape := SFloat64.

Definition NilJsonFloat64_MarshalMsg (v : denote NilJsonFloat64_shape) (b : list Z) : outcome (list Z) := MarshalMsg NilJsonFloat64_shape v b.
Definition NilJsonFloat64_UnmarshalMsg (z : denote NilJsonFloat64_shape) (bts : list Z) : res (denote NilJsonFloat64_shape) (list Z) := UnmarshalMsg NilJsonFloat64_shape z bts.
Definition NilJsonFloat64_EncodeMsg `{!IoWriter W} (v : denote NilJsonFloat64_shape) (en : Writer W) : res unit (Writer W) := EncodeMsg NilJsonFloat64_shape v en.
Definition NilJsonFloat64_DecodeMsg `{!IoReader R} (fuel : nat) (z : denote NilJsonFloat64_shape) (dc : fwdReader R) : res (denote NilJsonFloat64_shape) (fwdReader R) :=
  DecodeMsg fuel NilJsonFloat64_shape z dc.
Definition NilJsonFloat64_Msgsize (v : denote NilJsonFloat64_shape) : Z := Msgsize NilJsonFloat64_shape v.

Definition ReprList_shape : shape :=
  SStruct ("MinTime" ↦ STime ;; "MaxTime" ↦ STime ;; "Reprs" ↦ SSlice StatRepr_shape ;; FNil).

Definition ReprList_MarshalMsg (v : denote ReprList_shape) (b : list Z) : outcome (list Z) := MarshalMsg ReprList_shape v b.
Definition ReprList_UnmarshalMsg (z : denote ReprList_shape) (bts : list Z) : res (denote ReprList_shape) (list Z) := UnmarshalMsg ReprList_shape z bts.
Definition ReprList_EncodeMsg `{!IoWriter W} (v : denote ReprList_shape) (en : Writer W) : res unit (Writer W) := EncodeMsg ReprList_shape v en.
Definition ReprList_DecodeMsg `{!IoReader R} (fuel : nat) (z : denote ReprList_shape) (dc : fwdReader R) : res (denote ReprList_shape) (fwdReader R) :=
  DecodeMsg fuel ReprList_shape z dc.
Definition ReprList_Msgsize (v : denote ReprList_shape) : Z := Msgsize ReprList_shape v.

Definition StatId_shape : shape := SUint64.

Definition StatId_MarshalMsg (v : denote StatId_shape) (b : list Z) : outcome (list Z) := MarshalMsg StatId_shape v b.
Definition StatId_UnmarshalMsg (z : denote StatId_shape) (bts : list Z) : res (denote StatId_shape) (list Z) := UnmarshalMsg StatId_shape z bts.
Definition StatId_EncodeMsg `{!IoWriter W} (v : denote StatId_shape) (en : Writer W) : res unit (Writer W) := EncodeMsg StatId_shape v en.
Definition StatId_DecodeMsg `{!IoReader R} (fuel : nat) (z : denote StatId_shape) (dc : fwdReader R) : res (denote StatId_shape) (fwdReader R) :=
  DecodeMsg fuel StatId_shape z dc.
Definition StatId_Msgsize (v : denote StatId_shape) : Z := Msgsize StatId_shape v.

Definition StatNameSlice_shape : shape := SSlice (SPtr StatName_shape).

Definition StatNameSlice_MarshalMsg (v : denote StatNameSlice_shape) (b : list Z) : outcome (list Z) := MarshalMsg StatNameSlice_shape v b.
Definition StatNameSlice_UnmarshalMsg (z : denote StatNameSlice_shape) (bts : list Z) : res (denote StatNameSlice_shape) (list Z) := UnmarshalMsg StatNameSlice_shape z bts.
Definition StatNameSlice_EncodeMsg `{!IoWriter W} (v : denote StatNameSlice_shape) (en : Writer W) : res unit (Writer W) := EncodeMsg StatNameSlice_shape v en.
Definition StatNameSlice_DecodeMsg `{!IoReader R} (fuel : nat) (z : denote StatNameSlice_shape) (dc : fwdReader R) : res (denote StatNameSlice_shape) (fwdReader R) :=
  DecodeMsg fuel StatNameSlice_shape z dc.
Definition StatNameSlice_Msgsize (v : denote StatNameSlice_shape) : Z := Msgsize StatNameSlice_shape v.

Definition StatReprSlice_shape : shape := SSlice (SPtr StatRepr_shape).

Definition StatReprSlice_MarshalMsg (v : denote StatReprSlice_shape) (b : list Z) : outcome (list Z) := MarshalMsg StatReprSlice_shape v b.
Definition StatReprSlice_UnmarshalMsg (z : denote StatReprSlice_shape) (bts : list Z) : res (denote StatReprSlice_shape) (list Z) := UnmarshalMsg StatReprSlice_shape z bts.
Definition StatReprSlice_EncodeMsg `{!IoWriter W} (v : denote StatReprSlice_shape) (en : Writer W) : res unit (Writer W) := EncodeMsg StatReprSlice_shape v en.
Definition StatReprSlice_DecodeMsg `{!IoReader R} (fuel : nat) (z : denote StatReprSlice_shape) (dc : fwdReader R) : res (denote StatReprSlice_shape) (fwdReader R) :=
  DecodeMsg fuel StatReprSlice_shape z dc.
Definition StatReprSlice_Msgsize (v : denote StatReprSlice_shape) : Z := Msgsize StatReprSlice_shape v.

(** ** [schemas/series/series_msgp.go] *)

Definition MetricName_shape : shape :=
  SStruct ("Metric" ↦ SString ;; "Id" ↦ SUint64 ;; "Uid" ↦ SString ;; "Tags" ↦ SSlice (SPtr Tag_shape) ;;
           "MetaTags" ↦ SSlice (SPtr Tag_shape) ;; FNil).

Definition MetricName_MarshalMsg (v : denote MetricName_shape) (b : list Z) : outcome (list Z) := MarshalMsg MetricName_shape v b.
Definition MetricName_UnmarshalMsg (z : denote MetricName_shape) (bts : list Z) : res (denote MetricName_shape) (list Z) := UnmarshalMsg MetricName_shape z bts.
Definition MetricName_EncodeMsg `{!IoWriter W} (v : denote MetricName_shape) (en : Writer W) : res unit (Writer W) := EncodeMsg MetricName_shape v en.
Definition MetricName_DecodeMsg `{!IoReader R} (fuel : nat) (z : denote MetricName_shape) (dc : fwdReader R) : res (denote MetricName_shape) (fwdReader R) :=
  DecodeMsg fuel MetricName_shape z dc.
Definition MetricName_Msgsize (v : denote MetricName_shape) : Z := Msgsize MetricName_shape v.

Definition MetricType_shape : shape :=
  SStruct ("Type" ↦ SString ;; FNil).

Definition MetricType_MarshalMsg (v : denote MetricType_shape) (b : list Z) : outcome (list Z) := MarshalMsg MetricType_shape v b.
Definition MetricType_UnmarshalMsg (z : denote MetricType_shape) (bts : list Z) : res (denote MetricType_shape) (list Z) := UnmarshalMsg MetricType_shape z bts.
Definition MetricType_EncodeMsg `{!IoWriter W} (v : denote MetricType_shape) (en : Writer W) : res unit (Writer W) := EncodeMsg MetricType_shape v en.
Definition MetricType_DecodeMsg `{!IoReader R} (fuel : nat) (z : denote MetricType_shape) (dc : fwdReader R) : res (denote MetricType_shape) (fwdReader R) :=
  DecodeMsg fuel MetricType_shape z dc.
Definition MetricType_Msgsize (v : denote MetricType_shape) : Z := Msgsize MetricType_shape v.

Definition MetricValue_shape : shape :=
  SStruct ("Time" ↦ SInt64 ;; "Min" ↦ SFloat64 ;; "Max" ↦ SFloat64 ;; "Last" ↦ SFloat64 ;; "Sum" ↦ SFloat64 ;;
           "Count" ↦ SInt64 ;; FNil).

Definition MetricValue_MarshalMsg (v : denote MetricValue_shape) (b : list Z) : outcome (list Z) := MarshalMsg MetricValue_shape v b.
Definition MetricValue_UnmarshalMsg (z : denote MetricValue_shape) (bts : list Z) : res (denote MetricValue_shape) (list Z) := UnmarshalMsg MetricValue_shape z bts.
Definition MetricValue_EncodeMsg `{!IoWriter W} (v : denote MetricValue_shape) (en : Writer W) : res unit (Writer W) := EncodeMsg MetricValue_shape v en.
Definition MetricValue_DecodeMsg `{!IoReader R} (fuel : nat) (z : denote MetricValue_shape) (dc : fwdReader R) : res (denote MetricValue_shape) (fwdReader R) :=
  DecodeMsg fuel MetricValue_shape z dc.
Definition MetricValue_Msgsize (v : denote MetricValue_shape) : Z := Msgsize MetricValue_shape v.

Definition MetricWritten_shape : shape :=
  SStruct ("Id" ↦ SUint64 ;; "Uid" ↦ SString ;; "Metric" ↦ SString ;; "StartTime" ↦ SInt64 ;; "EndTime" ↦ SInt64 ;;
           "WriteTime" ↦ SInt64 ;; "Offset" ↦ SInt64 ;; "Partition" ↦ SInt32 ;; "Topic" ↦ SString ;;
           "Resolution" ↦ SUint32 ;; "Ttl" ↦ SUint32 ;; "Tags" ↦ SSlice (SPtr Tag_shape) ;;
           "MetaTags" ↦ SSlice (SPtr Tag_shape) ;; "SentTime" ↦ SInt64 ;; FNil).

Definition MetricWritten_MarshalMsg (v : denote MetricWritten_shape) (b : list Z) : outcome (list Z) := MarshalMsg MetricWritten_shape v b.
Definition MetricWritten_UnmarshalMsg (z : denote MetricWritten_shape) (bts : list Z) : res (denote MetricWritten_shape) (list Z) := UnmarshalMsg MetricWritten_shape z bts.
Definition MetricWritten_EncodeMsg `{!IoWriter W} (v : denote MetricWritten_shape) (en : Writer W) : res unit (Writer W) := EncodeMsg MetricWritten_shape v en.
Definition MetricWritten_DecodeMsg `{!IoReader R} (fuel : nat) (z : denote MetricWritten_shape) (dc : fwdReader R) : res (denote MetricWritten_shape) (fwdReader R) :=
  DecodeMsg fuel MetricWritten_shape z dc.
Definition MetricWritten_Msgsize (v : denote MetricWritten_shape) : Z := Msgsize MetricWritten_shape v.

Definition RawMetric_shape : shape :=
  SStruct ("Time" ↦ SInt64 ;; "Metric" ↦ SString ;; "Value" ↦ SFloat64 ;; "Tags" ↦ SSlice (SPtr Tag_shape) ;;
           "MetaTags" ↦ SSlice (SPtr Tag_shape) ;; "SentTime" ↦ SInt64 ;; FNil).

Definition RawMetric_MarshalMsg (v : denote RawMetric_shape) (b : list Z) : outcome (list Z) := MarshalMsg RawMetric_shape v b.
Definition RawMetric_UnmarshalMsg (z : denote RawMetric_shape) (bts : list Z) : res (denote RawMetric_shape) (list Z) := UnmarshalMsg RawMetric_shape z bts.
Definition RawMetric_EncodeMsg `{!IoWriter W} (v : denote RawMetric_shape) (en : Writer W) : res unit (Writer W) := EncodeMsg RawMetric_shape v en.
Definition RawMetric_DecodeMsg `{!IoReader R} (fuel : nat) (z : denote RawMetric_shape) (dc : fwdReader R) : res (denote RawMetric_shape) (fwdReader R) :=
  DecodeMsg fuel RawMetric_shape z dc.
Definition RawMetric_Msgsize (v : denote RawMetric_shape) : Z := Msgsize RawMetric_shape v.

Definition RawMetricList_shape : shape :=
  SStruct ("List" ↦ SSlice (SPtr RawMetric_shape) ;; FNil).

Definition RawMetricList_MarshalMsg (v : denote RawMetricList_shape) (b : list Z) : outcome (list Z) := MarshalMsg RawMetricList_shape v b.
Definition RawMetricList_UnmarshalMsg (z : denote RawMetricList_shape) (bts : list Z) : res (denote RawMetricList_shape) (list Z) := UnmarshalMsg RawMetricList_shape z bts.
Definition RawMetricList_EncodeMsg `{!IoWriter W} (v : denote RawMetricList_shape) (en : Writer W) : res unit (Writer W) := EncodeMsg RawMetricList_shape v en.
Definition RawMetricList_DecodeMsg `{!IoReader R} (fuel : nat) (z : denote RawMetricList_shape) (dc : fwdReader R) : res (denote RawMetricList_shape) (fwdReader R) :=
  DecodeMsg fuel RawMetricList_shape z dc.
Definition RawMetricList_Msgsize (v : denote RawMetricList_shape) : Z := Msgsize RawMetricList_shape v.

Definition SeriesMetric_shape : shape :=
  SStruct ("Id" ↦ SUint64 ;; "Uid" ↦ SString ;; "Time" ↦ SInt64 ;; "Metric" ↦ SString ;; "Encoding" ↦ SString ;;
           "Data" ↦ SBytes ;; "Resolution" ↦ SUint32 ;; "Ttl" ↦ SUint32 ;; "Tags" ↦ SSlice (SPtr Tag_shape) ;;
           "MetaTags" ↦ SSlice (SPtr Tag_shape) ;; "SentTime" ↦ SInt64 ;; FNil).

Definition SeriesMetric_MarshalMsg (v : denote SeriesMetric_shape) (b : list Z) : outcome (list Z) := MarshalMsg SeriesMetric_shape v b.
Definition SeriesMetric_UnmarshalMsg (z : denote SeriesMetric_shape) (bts : list Z) : res (denote SeriesMetric_shape) (list Z) := UnmarshalMsg SeriesMetric_shape z bts.
Definition SeriesMetric_EncodeMsg `{!IoWriter W} (v : denote SeriesMetric_shape) (en : Writer W) : res unit (Writer W) := EncodeMsg SeriesMetric_shape v en.
Definition SeriesMetric_DecodeMsg `{!IoReader R} (fuel : nat) (z : denote SeriesMetric_shape) (dc : fwdReader R) : res (denote SeriesMetric_shape) (fwdReader R) :=
  DecodeMsg fuel SeriesMetric_shape z dc.
Definition SeriesMetric_Msgsize (v : denote SeriesMetric_shape) : Z := Msgsize SeriesMetric_shape v.

Definition SingleMetric_shape : shape :=
  SStruct ("Id" ↦ SUint64 ;; "Uid" ↦ SString ;; "Time" ↦ SInt64 ;; "Metric" ↦ SString ;; "Min" ↦ SFloat64 ;;
           "Max" ↦ SFloat64 ;; "Last" ↦ SFloat64 ;; "Sum" ↦ SFloat64 ;; "Count" ↦ SInt64 ;;
           "Resolution" ↦ SUint32 ;; "Ttl" ↦ SUint32 ;; "Tags" ↦ SSlice (SPtr Tag_shape) ;;
           "MetaTags" ↦ SSlice (SPtr Tag_shape) ;; "SentTime" ↦ SInt64 ;; FNil).

Definition SingleMetric_MarshalMsg (v : denote SingleMetric_shape) (b : list Z) : outcome (list Z) := MarshalMsg SingleMetric_shape v b.
Definition SingleMetric_UnmarshalMsg (z : denote SingleMetric_shape) (bts : list Z) : res (denote SingleMetric_shape) (list Z) := UnmarshalMsg SingleMetric_shape z bts.
Definition SingleMetric_EncodeMsg `{!IoWriter W} (v : denote SingleMetric_shape) (en : Writer W) : res unit (Writer W) := EncodeMsg SingleMetric_shape v en.
Definition SingleMetric_DecodeMsg `{!IoReader R} (fuel : nat) (z : denote SingleMetric_shape) (dc : fwdReader R) : res (denote SingleMetric_shape) (fwdReader R) :=
  DecodeMsg fuel SingleMetric_shape z dc.
Definition SingleMetric_Msgsize (v : denote SingleMetric_shape) : Z := Msgsize SingleMetric_shape v.

Definition SingleMetricList_shape : shape :=
  SStruct ("List" ↦ SSlice (SPtr SingleMetric_shape) ;; FNil).

Definition SingleMetricList_MarshalMsg (v : denote SingleMetricList_shape) (b : list Z) : outcome (list Z) := MarshalMsg SingleMetricList_shape v b.
Definition SingleMetricList_UnmarshalMsg (z : denote SingleMetricList_shape) (bts : list Z) : res (denote SingleMetricList_shape) (list Z) := UnmarshalMsg SingleMetricList_shape z bts.
Definition SingleMetricList_EncodeMsg `{!IoWriter W} (v : denote SingleMetricList_shape) (en : Writer W) : res unit (Writer W) := EncodeMsg SingleMetricList_shape v en.
Definition SingleMetricList_DecodeMsg `{!IoReader R} (fuel : nat) (z : denote SingleMetricList_shape) (dc : fwdReader R) : res (denote SingleMetricList_shape) (fwdReader R) :=
  DecodeMsg fuel SingleMetricList_shape z dc.
Definition SingleMetricList_Msgsize (v : denote SingleMetricList_shape) : Z := Msgsize SingleMetricList_shape v.

Definition UidMetric_shape : shape :=
  SStruct ("Uid" ↦ SString ;; "Time" ↦ SInt64 ;; "Min" ↦ SFloat64 ;; "Max" ↦ SFloat64 ;; "Last" ↦ SFloat64 ;;
           "Sum" ↦ SFloat64 ;; "Count" ↦ SInt64 ;; "SentTime" ↦ SInt64 ;; FNil).

Definition UidMetric_MarshalMsg (v : denote UidMetric_shape) (b : list Z) : outcome (list Z) := MarshalMsg UidMetric_shape v b.
Definition UidMetric_UnmarshalMsg (z : denote UidMetric_shape) (bts : list Z) : res (denote UidMetric_shape) (list Z) := UnmarshalMsg UidMetric_shape z bts.
Definition UidMetric_EncodeMsg `{!IoWriter W} (v : denote UidMetric_shape) (en : Writer W) : res unit (Writer W) := EncodeMsg UidMetric_shape v en.
Definition UidMetric_DecodeMsg `{!IoReader R} (fuel : nat) (z : denote UidMetric_shape) (dc : fwdReader R) : res (denote UidMetric_shape) (fwdReader R) :=
  DecodeMsg fuel UidMetric_shape z dc.
Definition UidMetric_Msgsize (v : denote UidMetric_shape) : Z := Msgsize UidMetric_shape v.

Definition UnProcessedMetric_shape : shape :=
  SStruct ("Time" ↦ SInt64 ;; "Metric" ↦ SString ;; "Min" ↦ SFloat64 ;; "Max" ↦ SFloat64 ;; "Last" ↦ SFloat64 ;;
           "Sum" ↦ SFloat64 ;; "Count" ↦ SInt64 ;; "Tags" ↦ SSlice (SPtr Tag_shape) ;;
           "MetaTags" ↦ SSlice (SPtr Tag_shape) ;; "SentTime" ↦ SInt64 ;; FNil).

Definition UnProcessedMetric_MarshalMsg (v : denote UnProcessedMetric_shape) (b : list Z) : outcome (list Z) := MarshalMsg UnProcessedMetric_shape v b.
Definition UnProcessedMetric_UnmarshalMsg (z : denote UnProcessedMetric_shape) (bts : list Z) : res (denote UnProcessedMetric_shape) (list Z) := UnmarshalMsg UnProcessedMetric_shape z bts.
Definition UnProcessedMetric_EncodeMsg `{!IoWriter W} (v : denote UnProcessedMetric_shape) (en : Writer W) : res unit (Writer W) := EncodeMsg UnProcessedMetric_shape v en.
Definition UnProcessedMetric_DecodeMsg `{!IoReader R} (fuel : nat) (z : denote UnProcessedMetric_shape) (dc : fwdReader R) : res (denote UnProcessedMetric_shape) (fwdReader R) :=
  DecodeMsg fuel UnProcessedMetric_shape z dc.
Definition UnProcessedMetric_Msgsize (v : denote UnProcessedMetric_shape) : Z := Msgsize UnProcessedMetric_shape v.

Definition AnyMetric_shape : shape :=
  SStruct ("Raw" ↦ SPtr RawMetric_shape ;; "Unprocessed" ↦ SPtr UnProcessedMetric_shape ;;
           "Single" ↦ SPtr SingleMetric_shape ;; "Series" ↦ SPtr SeriesMetric_shape ;;
           "UidMetric" ↦ SPtr UidMetric_shape ;; "Written" ↦ SPtr MetricWritten_shape ;; FNil).

Definition AnyMetric_MarshalMsg (v : denote AnyMetric_shape) (b : list Z) : outcome (list Z) := MarshalMsg AnyMetric_shape v b.
Definition AnyMetric_UnmarshalMsg (z : denote AnyMetric_shape) (bts : list Z) : res (denote AnyMetric_shape) (list Z) := UnmarshalMsg AnyMetric_shape z bts.
Definition AnyMetric_EncodeMsg `{!IoWriter W} (v : denote AnyMetric_shape) (en : Writer W) : res unit (Writer W) := EncodeMsg AnyMetric_shape v en.
Definition AnyMetric_DecodeMsg `{!IoReader R} (fuel : nat) (z : denote AnyMetric_shape) (dc : fwdReader R) : res (denote AnyMetric_shape) (fwdReader R) :=
  DecodeMsg fuel AnyMetric_shape z dc.
Definition AnyMetric_Msgsize (v : denote AnyMetric_shape) : Z := Msgsize AnyMetric_shape v.

Definition AnyMetricList_shape : shape :=
  SStruct ("Raw" ↦ SSlice (SPtr RawMetric_shape) ;; "Unprocessed" ↦ SSlice (SPtr UnProcessedMetric_shape) ;;
           "Single" ↦ SSlice (SPtr SingleMetric_shape) ;; "Series" ↦ SSlice (SPtr SeriesMetric_shape) ;;
           "UidMetric" ↦ SSlice (SPtr UidMetric_shape) ;; "Written" ↦ SSlice (SPtr MetricWritten_shape) ;; FNil).

Definition AnyMetricList_MarshalMsg (v : denote AnyMetricList_shape) (b : list Z) : outcome (list Z) := MarshalMsg AnyMetricList_shape v b.
Definition AnyMetricList_UnmarshalMsg (z : denote AnyMetricList_shape) (bts : list Z) : res (denote AnyMetricList_shape) (list Z) := UnmarshalMsg AnyMetricList_shape z bts.
Definition AnyMetricList_EncodeMsg `{!IoWriter W} (v : denote AnyMetricList_shape) (en : Writer W) : res unit (Writer W) := EncodeMsg AnyMetricList_shape v en.
Definition AnyMetricList_DecodeMsg `{!IoReader R} (fuel : nat) (z : denote AnyMetricList_shape) (dc : fwdReader R) : res (denote AnyMetricList_shape) (fwdReader R) :=
  DecodeMsg fuel AnyMetricList_shape z dc.
Definition AnyMetricList_Msgsize (v : denote AnyMetricList_shape) : Z := Msgsize AnyMetricList_shape v.

Definition UnProcessedMetricList_shape : shape :=
  SStruct ("List" ↦ SSlice (SPtr UnProcessedMetric_shape) ;; FNil).

Definition UnProcessedMetricList_MarshalMsg (v : denote UnProcessedMetricList_shape) (b : list Z) : outcome (list Z) := MarshalMsg UnProcessedMetricList_shape v b.
Definition UnProcessedMetricList_UnmarshalMsg (z : denote UnProcessedMetricList_shape) (bts : list Z) : res (denote UnProcessedMetricList_shape) (list Z) := UnmarshalMsg UnProcessedMetricList_shape z bts.
Definition UnProcessedMetricList_EncodeMsg `{!IoWriter W} (v : denote UnProcessedMetricList_shape) (en : Writer W) : res unit (Writer W) := EncodeMsg UnProcessedMetricList_shape v en.
Definition UnProcessedMetricList_DecodeMsg `{!IoReader R} (fuel : nat) (z : denote UnProcessedMetricList_shape) (dc : fwdReader R) : res (denote UnProcessedMetricList_shape) (fwdReader R) :=
  DecodeMsg fuel UnProcessedMetricList_shape z dc.
Definition UnProcessedMetricList_Msgsize (v : denote UnProcessedMetricList_shape) : Z := Msgsize UnProcessedMetricList_shape v.

(** ** [schemas/metrics/metrics_msgp.go] *)

Definition DataPoint_shape : shape :=
  SStruct ("time" ↦ SUint32 ;; "value" ↦ SFloat64 ;; FNil).

Definition DataPoint_MarshalMsg (v : denote DataPoint_shape) (b : list Z) : outcome (list Z) := MarshalMsg DataPoint_shape v b.
Definition DataPoint_UnmarshalMsg (z : denote DataPoint_shape) (bts : list Z) : res (denote DataPoint_shape) (list Z) := UnmarshalMsg DataPoint_shape z bts.
Definition DataPoint_EncodeMsg `{!IoWriter W} (v : denote DataPoint_shape) (en : Writer W) : res unit (Writer W) := EncodeMsg DataPoint_shape v en.
Definition DataPoint_DecodeMsg `{!IoReader R} (fuel : nat) (z : denote DataPoint_shape) (dc : fwdReader R) : res (denote DataPoint_shape) (fwdReader R) :=
  DecodeMsg fuel DataPoint_shape z dc.
Definition DataPoint_Msgsize (v : denote DataPoint_shape) : Z := Msgsize DataPoint_shape v.

Definition DataPoints_shape : shape :=
  SStruct ("points" ↦ SSlice (SPtr DataPoint_shape) ;; FNil).

Definition DataPoints_MarshalMsg (v : denote DataPoints_shape) (b : list Z) : outcome (list Z) := MarshalMsg DataPoints_shape v b.
Definition DataPoints_UnmarshalMsg (z : denote DataPoints_shape) (bts : list Z) : res (denote DataPoints_shape) (list Z) := UnmarshalMsg DataPoints_shape z bts.
Definition DataPoints_EncodeMsg `{!IoWriter W} (v : denote DataPoints_shape) (en : Writer W) : res unit (Writer W) := EncodeMsg DataPoints_shape v en.
Definition DataPoints_DecodeMsg `{!IoReader R} (fuel : nat) (z : denote DataPoints_shape) (dc : fwdReader R) : res (denote DataPoints_shape) (fwdReader R) :=
  DecodeMsg fuel DataPoints_shape z dc.
Definition DataPoints_Msgsize (v : denote DataPoints_shape) : Z := Msgsize DataPoints_shape v.

Definition GraphiteApiItem_shape : shape :=
  SStruct ("target" ↦ SString ;; "in_cache" ↦ SBool ;; "using_cache" ↦ SBool ;;
           "datapoints" ↦ SSlice (SPtr DataPoint_shape) ;; FNil).

Definition GraphiteApiItem_MarshalMsg (v : denote GraphiteApiItem_shape) (b : list Z) : outcome (list Z) := MarshalMsg GraphiteApiItem_shape v b.
Definition GraphiteApiItem_UnmarshalMsg (z : denote GraphiteApiItem_shape) (bts : list Z) : res (denote GraphiteApiItem_shape) (list Z) := UnmarshalMsg GraphiteApiItem_shape z bts.
Definition GraphiteApiItem_EncodeMsg `{!IoWriter W} (v : denote GraphiteApiItem_shape) (en : Writer W) : res unit (Writer W) := EncodeMsg GraphiteApiItem_shape v en.
Definition GraphiteApiItem_DecodeMsg `{!IoReader R} (fuel : nat) (z : denote GraphiteApiItem_shape) (dc : fwdReader R) : res (denote GraphiteApiItem_shape) (fwdReader R) :=
  DecodeMsg fuel GraphiteApiItem_shape z dc.
Definition GraphiteApiItem_Msgsize (v : denote GraphiteApiItem_shape) : Z := Msgsize GraphiteApiItem_shape v.

Definition GraphiteApiItemList_shape : shape :=
  SStruct ("items" ↦ SSlice (SPtr GraphiteApiItem_shape) ;; FNil).

Definition GraphiteApiItemList_MarshalMsg (v : denote GraphiteApiItemList_shape) (b : list Z) : outcome (list Z) := MarshalMsg GraphiteApiItemList_shape v b.
Definition GraphiteApiItemList_UnmarshalMsg (z : denote GraphiteApiItemList_shape) (bts : list Z) : res (denote GraphiteApiItemList_shape) (list Z) := UnmarshalMsg GraphiteApiItemList_shape z bts.
Definition GraphiteApiItemList_EncodeMsg `{!IoWriter W} (v : denote GraphiteApiItemList_shape) (en : Writer W) : res unit (Writer W) := EncodeMsg GraphiteApiItemList_shape v en.
Definition GraphiteApiItemList_DecodeMsg `{!IoReader R} (fuel : nat) (z : denote GraphiteApiItemList_shape) (dc : fwdReader R) : res (denote GraphiteApiItemList_shape) (fwdReader R) :=
  DecodeMsg fuel GraphiteApiItemList_shape z dc.
Definition GraphiteApiItemList_Msgsize (v : denote GraphiteApiItemList_shape) : Z := Msgsize GraphiteApiItemList_shape v.

Definition RawDataPoint_shape : shape :=
  SStruct ("time" ↦ SUint32 ;; "sum" ↦ SFloat64 ;; "min" ↦ SFloat64 ;; "max" ↦ SFloat64 ;; "last" ↦ SFloat64 ;;
           "count" ↦ SInt64 ;; FNil).

Definition RawDataPoint_MarshalMsg (v : denote RawDataPoint_shape) (b : list Z) : outcome (list Z) := MarshalMsg RawDataPoint_shape v b.
Definition RawDataPoint_UnmarshalMsg (z : denote RawDataPoint_shape) (bts : list Z) : res (denote RawDataPoint_shape) (list Z) := UnmarshalMsg RawDataPoint_shape z bts.
Definition RawDataPoint_EncodeMsg `{!IoWriter W} (v : denote RawDataPoint_shape) (en : Writer W) : res unit (Writer W) := EncodeMsg RawDataPoint_shape v en.
Definition RawDataPoint_DecodeMsg `{!IoReader R} (fuel : nat) (z : denote RawDataPoint_shape) (dc : fwdReader R) : res (denote RawDataPoint_shape) (fwdReader R) :=
  DecodeMsg fuel RawDataPoint_shape z dc.
Definition RawDataPoint_Msgsize (v : denote RawDataPoint_shape) : Z := Msgsize RawDataPoint_shape v.

Definition RawRenderItem_shape : shape :=
  SStruct ("metric" ↦ SString ;; "id" ↦ SString ;; "real_start" ↦ SUint32 ;; "real_end" ↦ SUint32 ;;
           "start" ↦ SUint32 ;; "end" ↦ SUint32 ;; "step" ↦ SUint32 ;; "agg_func" ↦ SUint32 ;;
           "tags" ↦ SSlice (SPtr Tag_shape) ;; "meta_tags" ↦ SSlice (SPtr Tag_shape) ;;
           "data" ↦ SSlice (SPtr RawDataPoint_shape) ;; "in_cache" ↦ SBool ;; "using_cache" ↦ SBool ;; FNil).

Definition RawRenderItem_MarshalMsg (v : denote RawRenderItem_shape) (b : list Z) : outcome (list Z) := MarshalMsg RawRenderItem_shape v b.
Definition RawRenderItem_UnmarshalMsg (z : denote RawRenderItem_shape) (bts : list Z) : res (denote RawRenderItem_shape) (list Z) := UnmarshalMsg RawRenderItem_shape z bts.
Definition RawRenderItem_EncodeMsg `{!IoWriter W} (v : denote RawRenderItem_shape) (en : Writer W) : res unit (Writer W) := EncodeMsg RawRenderItem_shape v en.
Definition RawRenderItem_DecodeMsg `{!IoReader R} (fuel : nat) (z : denote RawRenderItem_shape) (dc : fwdReader R) : res (denote RawRenderItem_shape) (fwdReader R) :=
  DecodeMsg fuel RawRenderItem_shape z dc.
Definition RawRenderItem_Msgsize (v : denote RawRenderItem_shape) : Z := Msgsize RawRenderItem_shape v.

Definition RawRenderItemList_shape : shape :=
  SStruct ("items" ↦ SSlice (SPtr RawRenderItem_shape) ;; FNil).

Definition RawRenderItemList_MarshalMsg (v : denote RawRenderItemList_shape) (b : list Z) : outcome (list Z) := MarshalMsg RawRenderItemList_shape v b.
Definition RawRenderItemList_UnmarshalMsg (z : denote RawRenderItemList_shape) (bts : list Z) : res (denote RawRenderItemList_shape) (list Z) := UnmarshalMsg RawRenderItemList_shape z bts.
Definition RawRenderItemList_EncodeMsg `{!IoWriter W} (v : denote RawRenderItemList_shape) (en : Writer W) : res unit (Writer W) := EncodeMsg RawRenderItemList_shape v en.
Definition RawRenderItemList_DecodeMsg `{!IoReader R} (fuel : nat) (z : denote RawRenderItemList_shape) (dc : fwdReader R) : res (denote RawRenderItemList_shape) (fwdReader R) :=
  DecodeMsg fuel RawRenderItemList_shape z dc.
Definition RawRenderItemList_Msgsize (v : denote RawRenderItemList_shape) : Z := Msgsize RawRenderItemList_shape v.

Definition RenderItem_shape : shape :=
  SStruct ("target" ↦ SString ;; "dataPoints" ↦ SSlice (SPtr DataPoint_shape) ;; FNil).

Definition RenderItem_MarshalMsg (v : denote RenderItem_shape) (b : list Z) : outcome (list Z) := MarshalMsg RenderItem_shape v b.
Definition RenderItem_UnmarshalMsg (z : denote RenderItem_shape) (bts : list Z) : res (denote RenderItem_shape) (list Z) := UnmarshalMsg RenderItem_shape z bts.
Definition RenderItem_EncodeMsg `{!IoWriter W} (v : denote RenderItem_shape) (en : Writer W) : res unit (Writer W) := EncodeMsg RenderItem_shape v en.
Definition RenderItem_DecodeMsg `{!IoReader R} (fuel : nat) (z : denote RenderItem_shape) (dc : fwdReader R) : res (denote RenderItem_shape) (fwdReader R) :=
  DecodeMsg fuel RenderItem_shape z dc.
Definition RenderItem_Msgsize (v : denote RenderItem_shape) : Z := Msgsize RenderItem_shape v.

Definition RenderItemList_shape : shape :=
  SStruct ("items" ↦ SSlice (SPtr RenderItem_shape) ;; FNil).

Definition RenderItemList_MarshalMsg (v : denote RenderItemList_shape) (b : list Z) : outcome (list Z) := MarshalMsg RenderItemList_shape v b.
Definition RenderItemList_UnmarshalMsg (z : denote RenderItemList_shape) (bts : list Z) : res (denote RenderItemList_shape) (list Z) := UnmarshalMsg RenderItemList_shape z bts.
Definition RenderItemList_EncodeMsg `{!IoWriter W} (v : denote RenderItemList_shape) (en : Writer W) : res unit (Writer W) := EncodeMsg RenderItemList_shape v en.
Definition RenderItemList_DecodeMsg `{!IoReader R} (fuel : nat) (z : denote RenderItemList_shape) (dc : fwdReader R) : res (denote RenderItemList_shape) (fwdReader R) :=
  DecodeMsg fuel RenderItemList_shape z dc.
Definition RenderItemList_Msgsize (v : denote RenderItemList_shape) : Z := Msgsize RenderItemList_shape v.

Definition WhisperDataItem_shape : shape :=
  SStruct ("target" ↦ SString ;; "in_cache" ↦ SBool ;; "using_cache" ↦ SBool ;; "uid" ↦ SString ;;
           "data" ↦ SSlice (SPtr DataPoint_shape) ;; FNil).

Definition WhisperDataItem_MarshalMsg (v : denote WhisperDataItem_shape) (b : list Z) : outcome (list Z) := MarshalMsg WhisperDataItem_shape v b.
Definition WhisperDataItem_UnmarshalMsg (z : denote WhisperDataItem_shape) (bts : list Z) : res (denote WhisperDataItem_shape) (list Z) := UnmarshalMsg WhisperDataItem_shape z bts.
Definition WhisperDataItem_EncodeMsg `{!IoWriter W} (v : denote WhisperDataItem_shape) (en : Writer W) : res unit (Writer W) := EncodeMsg WhisperDataItem_shape v en.
Definition WhisperDataItem_DecodeMsg `{!IoReader R} (fuel : nat) (z : denote WhisperDataItem_shape) (dc : fwdReader R) : res (denote WhisperDataItem_shape) (fwdReader R) :=
  DecodeMsg fuel WhisperDataItem_shape z dc.
Definition WhisperDataItem_Msgsize (v : denote WhisperDataItem_shape) : Z := Msgsize WhisperDataItem_shape v.

Definition WhisperDataItemList_shape : shape :=
  SStruct ("items" ↦ SSlice (SPtr WhisperDataItem_shape) ;; FNil).

Definition WhisperDataItemList_MarshalMsg (v : denote WhisperDataItemList_shape) (b : list Z) : outcome (list Z) := MarshalMsg WhisperDataItemList_shape v b.
Definition WhisperDataItemList_UnmarshalMsg (z : denote WhisperDataItemList_shape) (bts : list Z) : res (denote WhisperDataItemList_shape) (list Z) := UnmarshalMsg WhisperDataItemList_shape z bts.
Definition WhisperDataItemList_EncodeMsg `{!IoWriter W} (v : denote WhisperDataItemList_shape) (en : Writer W) : res unit (Writer W) := EncodeMsg WhisperDataItemList_shape v en.
Definition WhisperDataItemList_DecodeMsg `{!IoReader R} (fuel : nat) (z : denote WhisperDataItemList_shape) (dc : fwdReader R) : res (denote WhisperDataItemList_shape) (fwdReader R) :=
  DecodeMsg fuel WhisperDataItemList_shape z dc.
Definition WhisperDataItemList_Msgsize (v : denote WhisperDataItemList_shape) : Z := Msgsize WhisperDataItemList_shape v.

Definition WhisperRenderItem_shape : shape :=
  SStruct ("real_start" ↦ SUint32 ;; "real_end" ↦ SUint32 ;; "start" ↦ SUint32 ;; "end" ↦ SUint32 ;;
           "from" ↦ SUint32 ;; "to" ↦ SUint32 ;; "step" ↦ SUint32 ;;
           "series" ↦ SMap (SPtr WhisperDataItem_shape) ;; FNil).

Definition WhisperRenderItem_MarshalMsg (v : denote WhisperRenderItem_shape) (b : list Z) : outcome (list Z) := MarshalMsg WhisperRenderItem_shape v b.
Definition WhisperRenderItem_UnmarshalMsg (z : denote WhisperRenderItem_shape) (bts : list Z) : res (denote WhisperRenderItem_shape) (list Z) := UnmarshalMsg WhisperRenderItem_shape z bts.
Definition WhisperRenderItem_EncodeMsg `{!IoWriter W} (v : denote WhisperRenderItem_shape) (en : Writer W) : res unit (Writer W) := EncodeMsg WhisperRenderItem_shape v en.
Definition WhisperRenderItem_DecodeMsg `{!IoReader R} (fuel : nat) (z : denote WhisperRenderItem_shape) (dc : fwdReader R) : res (denote WhisperRenderItem_shape) (fwdReader R) :=
  DecodeMsg fuel WhisperRenderItem_shape z dc.
Definition WhisperRenderItem_Msgsize (v : denote WhisperRenderItem_shape) : Z := Msgsize WhisperRenderItem_shape v.

(** ** [schemas/metrics/metrics_list_msgp.go] *)

Definition GraphiteApiItems_shape : shape := SSlice (SPtr GraphiteApiItem_shape).

Definition GraphiteApiItems_MarshalMsg (v : denote GraphiteApiItems_shape) (b : list Z) : outcome (list Z) := MarshalMsg GraphiteApiItems_shape v b.
Definition GraphiteApiItems_UnmarshalMsg (z : denote GraphiteApiItems_shape) (bts : list Z) : res (denote GraphiteApiItems_shape) (list Z) := UnmarshalMsg GraphiteApiItems_shape z bts.
Definition GraphiteApiItems_EncodeMsg `{!IoWriter W} (v : denote GraphiteApiItems_shape) (en : Writer W) : res unit (Writer W) := EncodeMsg GraphiteApiItems_shape v en.
Definition GraphiteApiItems_DecodeMsg `{!IoReader R} (fuel : nat) (z : denote GraphiteApiItems_shape) (dc : fwdReader R) : res (denote GraphiteApiItems_shape) (fwdReader R) :=
  DecodeMsg fuel GraphiteApiItems_shape z dc.
Definition GraphiteApiItems_Msgsize (v : denote GraphiteApiItems_shape) : Z := Msgsize GraphiteApiItems_shape v.

Definition RawDataPointList_shape : shape := SSlice (SPtr RawDataPoint_shape).

Definition RawDataPointList_MarshalMsg (v : denote RawDataPointList_shape) (b : list Z) : outcome (list Z) := MarshalMsg RawDataPointList_shape v b.
Definition RawDataPointList_UnmarshalMsg (z : denote RawDataPointList_shape) (bts : list Z) : res (denote RawDataPointList_shape) (list Z) := UnmarshalMsg RawDataPointList_shape z bts.
Definition RawDataPointList_EncodeMsg `{!IoWriter W} (v : denote RawDataPointList_shape) (en : Writer W) : res unit (Writer W) := EncodeMsg RawDataPointList_shape v en.
Definition RawDataPointList_DecodeMsg `{!IoReader R} (fuel : nat) (z : denote RawDataPointList_shape) (dc : fwdReader R) : res (denote RawDataPointList_shape) (fwdReader R) :=
  DecodeMsg fuel RawDataPointList_shape z dc.
Definition RawDataPointList_Msgsize (v : denote RawDataPointList_shape) : Z := Msgsize RawDataPointList_shape v.

Definition RawRenderItems_shape : shape := SSlice (SPtr RawRenderItem_shape).

Definition RawRenderItems_MarshalMsg (v : denote RawRenderItems_shape) (b : list Z) : outcome (list Z) := MarshalMsg RawRenderItems_shape v b.
Definition RawRenderItems_UnmarshalMsg (z : denote RawRenderItems_shape) (bts : list Z) : res (denote RawRenderItems_shape) (list Z) := UnmarshalMsg RawRenderItems_shape z bts.
Definition RawRenderItems_EncodeMsg `{!IoWriter W} (v : denote RawRenderItems_shape) (en : Writer W) : res unit (Writer W) := EncodeMsg RawRenderItems_shape v en.
Definition RawRenderItems_DecodeMsg `{!IoReader R} (fuel : nat) (z : denote RawRenderItems_shape) (dc : fwdReader R) : res (denote RawRenderItems_shape) (fwdReader R) :=
  DecodeMsg fuel RawRenderItems_shape z dc.
Definition RawRenderItems_Msgsize (v : denote RawRenderItems_shape) : Z := Msgsize RawRenderItems_shape v.

Definition RenderItems_shape : shape := SSlice (SPtr RenderItem_shape).

Definition RenderItems_MarshalMsg (v : denote RenderItems_shape) (b : list Z) : outcome (list Z) := MarshalMsg RenderItems_shape v b.
Definition RenderItems_UnmarshalMsg (z : denote RenderItems_shape) (bts : list Z) : res (denote RenderItems_shape) (list Z) := UnmarshalMsg RenderItems_shape z bts.
Definition RenderItems_EncodeMsg `{!IoWriter W} (v : denote RenderItems_shape) (en : Writer W) : res unit (Writer W) := EncodeMsg RenderItems_shape v en.
Definition RenderItems_DecodeMsg `{!IoReader R} (fuel : nat) (z : denote RenderItems_shape) (dc : fwdReader R) : res (denote RenderItems_shape) (fwdReader R) :=
  DecodeMsg fuel RenderItems_shape z dc.
Definition RenderItems_Msgsize (v : denote RenderItems_shape) : Z := Msgsize RenderItems_shape v.

(** ** [schemas/indexer/indexer_msgp.go] *)

Definition MetricExpandItem_shape : shape :=
  SStruct ("results" ↦ SSlice SString ;; FNil).

Definition MetricExpandItem_MarshalMsg (v : denote MetricExpandItem_shape) (b : list Z) : outcome (list Z) := MarshalMsg MetricExpandItem_shape v b.
Definition MetricExpandItem_UnmarshalMsg (z : denote MetricExpandItem_shape) (bts : list Z) : res (denote MetricExpandItem_shape) (list Z) := UnmarshalMsg MetricExpandItem_shape z bts.
Definition MetricExpandItem_EncodeMsg `{!IoWriter W} (v : denote MetricExpandItem_shape) (en : Writer W) : res unit (Writer W) := EncodeMsg MetricExpandItem_shape v en.
Definition MetricExpandItem_DecodeMsg `{!IoReader R} (fuel : nat) (z : denote MetricExpandItem_shape) (dc : fwdReader R) : res (denote MetricExpandItem_shape) (fwdReader R) :=
  DecodeMsg fuel MetricExpandItem_shape z dc.
Definition MetricExpandItem_Msgsize (v : denote MetricExpandItem_shape) : Z := Msgsize MetricExpandItem_shape v.

Definition MetricFindItem_shape : shape :=
  SStruct ("text" ↦ SString ;; "expandable" ↦ SUint32 ;; "leaf" ↦ SUint32 ;; "path" ↦ SString ;;
           "allowChildren" ↦ SUint32 ;; "id" ↦ SString ;; "uniqueid" ↦ SString ;;
           "tags" ↦ SSlice (SPtr Tag_shape) ;; "meta_tags" ↦ SSlice (SPtr Tag_shape) ;; FNil).

Definition MetricFindItem_MarshalMsg (v : denote MetricFindItem_shape) (b : list Z) : outcome (list Z) := MarshalMsg MetricFindItem_shape v b.
Definition MetricFindItem_UnmarshalMsg (z : denote MetricFindItem_shape) (bts : list Z) : res (denote MetricFindItem_shape) (list Z) := UnmarshalMsg MetricFindItem_shape z bts.
Definition MetricFindItem_EncodeMsg `{!IoWriter W} (v : denote MetricFindItem_shape) (en : Writer W) : res unit (Writer W) := EncodeMsg MetricFindItem_shape v en.
Definition MetricFindItem_DecodeMsg `{!IoReader R} (fuel : nat) (z : denote MetricFindItem_shape) (dc : fwdReader R) : res (denote MetricFindItem_shape) (fwdReader R) :=
  DecodeMsg fuel MetricFindItem_shape z dc.
Definition MetricFindItem_Msgsize (v : denote MetricFindItem_shape) : Z := Msgsize MetricFindItem_shape v.

Definition MetricFindItemList_shape : shape :=
  SStruct ("items" ↦ SSlice (SPtr MetricFindItem_shape) ;; FNil).

Definition MetricFindItemList_MarshalMsg (v : denote MetricFindItemList_shape) (b : list Z) : outcome (list Z) := MarshalMsg MetricFindItemList_shape v b.
Definition MetricFindItemList_UnmarshalMsg (z : denote MetricFindItemList_shape) (bts : list Z) : res (denote MetricFindItemList_shape) (list Z) := UnmarshalMsg MetricFindItemList_shape z bts.
Definition MetricFindItemList_EncodeMsg `{!IoWriter W} (v : denote MetricFindItemList_shape) (en : Writer W) : res unit (Writer W) := EncodeMsg MetricFindItemList_shape v en.
Definition MetricFindItemList_DecodeMsg `{!IoReader R} (fuel : nat) (z : denote MetricFindItemList_shape) (dc : fwdReader R) : res (denote MetricFindItemList_shape) (fwdReader R) :=
  DecodeMsg fuel MetricFindItemList_shape z dc.
Definition MetricFindItemList_Msgsize (v : denote MetricFindItemList_shape) : Z := Msgsize MetricFindItemList_shape v.

Definition MetricTagItem_shape : shape :=
  SStruct ("id" ↦ SString ;; "name" ↦ SString ;; "value" ↦ SString ;; "is_meta" ↦ SBool ;; FNil).

Definition MetricTagItem_MarshalMsg (v : denote MetricTagItem_shape) (b : list Z) : outcome (list Z) := MarshalMsg MetricTagItem_shape v b.
Definition MetricTagItem_UnmarshalMsg (z : denote MetricTagItem_shape) (bts : list Z) : res (denote MetricTagItem_shape) (list Z) := UnmarshalMsg MetricTagItem_shape z bts.
Definition MetricTagItem_EncodeMsg `{!IoWriter W} (v : denote MetricTagItem_shape) (en : Writer W) : res unit (Writer W) := EncodeMsg MetricTagItem_shape v en.
Definition MetricTagItem_DecodeMsg `{!IoReader R} (fuel : nat) (z : denote MetricTagItem_shape) (dc : fwdReader R) : res (denote MetricTagItem_shape) (fwdReader R) :=
  DecodeMsg fuel MetricTagItem_shape z dc.
Definition MetricTagItem_Msgsize (v : denote MetricTagItem_shape) : Z := Msgsize MetricTagItem_shape v.

Definition MetricTagItemList_shape : shape :=
  SStruct ("items" ↦ SSlice (SPtr MetricTagItem_shape) ;; FNil).

Definition MetricTagItemList_MarshalMsg (v : denote MetricTagItemList_shape) (b : list Z) : outcome (list Z) := MarshalMsg MetricTagItemList_shape v b.
Definition MetricTagItemList_UnmarshalMsg (z : denote MetricTagItemList_shape) (bts : list Z) : res (denote MetricTagItemList_shape) (list Z) := UnmarshalMsg MetricTagItemList_shape z bts.
Definition MetricTagItemList_EncodeMsg `{!IoWriter W} (v : denote MetricTagItemList_shape) (en : Writer W) : res unit (Writer W) := EncodeMsg MetricTagItemList_shape v en.
Definition MetricTagItemList_DecodeMsg `{!IoReader R} (fuel : nat) (z : denote MetricTagItemList_shape) (dc : fwdReader R) : res (denote MetricTagItemList_shape) (fwdReader R) :=
  DecodeMsg fuel MetricTagItemList_shape z dc.
Definition MetricTagItemList_Msgsize (v : denote MetricTagItemList_shape) : Z := Msgsize MetricTagItemList_shape v.

(** ** [schemas/indexer/indexer_list_msgp.go] *)

Definition MetricListItems_shape : shape := SSlice SString.

Definition MetricListItems_MarshalMsg (v : denote MetricListItems_shape) (b : list Z) : outcome (list Z) := MarshalMsg MetricListItems_shape v b.
Definition MetricListItems_UnmarshalMsg (z : denote MetricListItems_shape) (bts : list Z) : res (denote MetricListItems_shape) (list Z) := UnmarshalMsg MetricListItems_shape z bts.
Definition MetricListItems_EncodeMsg `{!IoWriter W} (v : denote MetricListItems_shape) (en : Writer W) : res unit (Writer W) := EncodeMsg MetricListItems_shape v en.
Definition MetricListItems_DecodeMsg `{!IoReader R} (fuel : nat) (z : denote MetricListItems_shape) (dc : fwdReader R) : res (denote MetricListItems_shape) (fwdReader R) :=
  DecodeMsg fuel MetricListItems_shape z dc.
Definition MetricListItems_Msgsize (v : denote MetricListItems_shape) : Z := Msgsize MetricListItems_shape v.

Definition TagNameList_shape : shape := SSlice SString.

Definition TagNameList_MarshalMsg (v : denote TagNameList_shape) (b : list Z) : outcome (list Z) := MarshalMsg TagNameList_shape v b.
Definition TagNameList_UnmarshalMsg (z : denote TagNameList_shape) (bts : list Z) : res (denote TagNameList_shape) (list Z) := UnmarshalMsg TagNameList_shape z bts.
Definition TagNameList_EncodeMsg `{!IoWriter W} (v : denote TagNameList_shape) (en : Writer W) : res unit (Writer W) := EncodeMsg TagNameList_shape v en.
Definition TagNameList_DecodeMsg `{!IoReader R} (fuel : nat) (z : denote TagNameList_shape) (dc : fwdReader R) : res (denote TagNameList_shape) (fwdReader R) :=
  DecodeMsg fuel TagNameList_shape z dc.
Definition TagNameList_Msgsize (v : denote TagNameList_shape) : Z := Msgsize TagNameList_shape v.

Definition UidList_shape : shape := SSlice SString.

Definition UidList_MarshalMsg (v : denote UidList_shape) (b : list Z) : outcome (list Z) := MarshalMsg UidList_shape v b.
Definition UidList_UnmarshalMsg (z : denote UidList_shape) (bts : list Z) : res (denote UidList_shape) (list Z) := UnmarshalMsg UidList_shape z bts.
Definition UidList_EncodeMsg `{!IoWriter W} (v : denote UidList_shape) (en : Writer W) : res unit (Writer W) := EncodeMsg UidList_shape v en.
Definition UidList_DecodeMsg `{!IoReader R} (fuel : nat) (z : denote UidList_shape) (dc : fwdReader R) : res (denote UidList_shape) (fwdReader R) :=
  DecodeMsg fuel UidList_shape z dc.
Definition UidList_Msgsize (v : denote UidList_shape) : Z := Msgsize UidList_shape v.

(** ** [schemas/api/query_msgp.go] *)

Definition DiscoveryQuery_shape : shape :=
  SStruct ("Host" ↦ SString ;; "Tags" ↦ SSlice (SPtr Tag_shape) ;; "Format" ↦ SString ;; FNil).

Definition DiscoveryQuery_MarshalMsg (v : denote DiscoveryQuery_shape) (b : list Z) : outcome (list Z) := MarshalMsg DiscoveryQuery_shape v b.
Definition DiscoveryQuery_UnmarshalMsg (z : denote DiscoveryQuery_shape) (bts : list Z) : res (denote DiscoveryQuery_shape) (list Z) := UnmarshalMsg DiscoveryQuery_shape z bts.
Definition DiscoveryQuery_EncodeMsg `{!IoWriter W} (v : denote DiscoveryQuery_shape) (en : Writer W) : res unit (Writer W) := EncodeMsg DiscoveryQuery_shape v en.
Definition DiscoveryQuery_DecodeMsg `{!IoReader R} (fuel : nat) (z : denote DiscoveryQuery_shape) (dc : fwdReader R) : res (denote DiscoveryQuery_shape) (fwdReader R) :=
  DecodeMsg fuel DiscoveryQuery_shape z dc.
Definition DiscoveryQuery_Msgsize (v : denote DiscoveryQuery_shape) : Z := Msgsize DiscoveryQuery_shape v.

Definition IndexQuery_shape : shape :=
  SStruct ("Query" ↦ SString ;; "Value" ↦ SString ;; "Page" ↦ SUint32 ;; "Tags" ↦ SSlice (SPtr Tag_shape) ;;
           "HasData" ↦ SBool ;; "InCache" ↦ SBool ;; "Format" ↦ SString ;; FNil).

Definition IndexQuery_MarshalMsg (v : denote IndexQuery_shape) (b : list Z) : outcome (list Z) := MarshalMsg IndexQuery_shape v b.
Definition IndexQuery_UnmarshalMsg (z : denote IndexQuery_shape) (bts : list Z) : res (denote IndexQuery_shape) (list Z) := UnmarshalMsg IndexQuery_shape z bts.
Definition IndexQuery_EncodeMsg `{!IoWriter W} (v : denote IndexQuery_shape) (en : Writer W) : res unit (Writer W) := EncodeMsg IndexQuery_shape v en.
Definition IndexQuery_DecodeMsg `{!IoReader R} (fuel : nat) (z : denote IndexQuery_shape) (dc : fwdReader R) : res (denote IndexQuery_shape) (fwdReader R) :=
  DecodeMsg fuel IndexQuery_shape z dc.
Definition IndexQuery_Msgsize (v : denote IndexQuery_shape) : Z := Msgsize IndexQuery_shape v.

Definition MetricQuery_shape : shape :=
  SStruct ("Target" ↦ SString ;; "Start" ↦ SInt64 ;; "End" ↦ SInt64 ;; "Step" ↦ SUint32 ;; "Agg" ↦ SUint32 ;;
           "MaxPoints" ↦ SUint32 ;; "Tags" ↦ SSlice (SPtr Tag_shape) ;; "InCache" ↦ SBool ;; "Format" ↦ SString ;;
           FNil).

Definition MetricQuery_MarshalMsg (v : denote MetricQuery_shape) (b : list Z) : outcome (list Z) := MarshalMsg MetricQuery_shape v b.
Definition MetricQuery_UnmarshalMsg (z : denote MetricQuery_shape) (bts : list Z) : res (denote MetricQuery_shape) (list Z) := UnmarshalMsg MetricQuery_shape z bts.
Definition MetricQuery_EncodeMsg `{!IoWriter W} (v : denote MetricQuery_shape) (en : Writer W) : res unit (Writer W) := EncodeMsg MetricQuery_shape v en.
Definition MetricQuery_DecodeMsg `{!IoReader R} (fuel : nat) (z : denote MetricQuery_shape) (dc : fwdReader R) : res (denote MetricQuery_shape) (fwdReader R) :=
  DecodeMsg fuel MetricQuery_shape z dc.
Definition MetricQuery_Msgsize (v : denote MetricQuery_shape) : Z := Msgsize MetricQuery_shape v.

Definition Resolution_shape : shape :=
  SStruct ("Resolution" ↦ SUint32 ;; "Ttl" ↦ SUint32 ;; FNil).

Definition Resolution_MarshalMsg (v : denote Resolution_shape) (b : list Z) : outcome (list Z) := MarshalMsg Resolution_shape v b.
Definition Resolution_UnmarshalMsg (z : denote Resolution_shape) (bts : list Z) : res (denote Resolution_shape) (list Z) := UnmarshalMsg Resolution_shape z bts.
Definition Resolution_EncodeMsg `{!IoWriter W} (v : denote Resolution_shape) (en : Writer W) : res unit (Writer W) := EncodeMsg Resolution_shape v en.
Definition Resolution_DecodeMsg `{!IoReader R} (fuel : nat) (z : denote Resolution_shape) (dc : fwdReader R) : res (denote Resolution_shape) (fwdReader R) :=
  DecodeMsg fuel Resolution_shape z dc.
Definition Resolution_Msgsize (v : denote Resolution_shape) : Z := Msgsize Resolution_shape v.

Definition DiscoverHost_shape : shape :=
  SStruct ("AdvertiseName" ↦ SString ;; "AdvertiseUrl" ↦ SString ;; "Grpchost" ↦ SString ;; "Host" ↦ SString ;;
           "HostApiUrl" ↦ SString ;; "StartTime" ↦ SInt64 ;; "Resolutions" ↦ SSlice (SPtr Resolution_shape) ;;
           "IsApi" ↦ SBool ;; "IsWriter" ↦ SBool ;; "IsReader" ↦ SBool ;; "IsHasher" ↦ SBool ;;
           "IsTCPapi" ↦ SBool ;; "IsgRPC" ↦ SBool ;; "Tags" ↦ SSlice (SPtr Tag_shape) ;; FNil).

Definition DiscoverHost_MarshalMsg (v : denote DiscoverHost_shape) (b : list Z) : outcome (list Z) := MarshalMsg DiscoverHost_shape v b.
Definition DiscoverHost_UnmarshalMsg (z : denote DiscoverHost_shape) (bts : list Z) : res (denote DiscoverHost_shape) (list Z) := UnmarshalMsg DiscoverHost_shape z bts.
Definition DiscoverHost_EncodeMsg `{!IoWriter W} (v : denote DiscoverHost_shape) (en : Writer W) : res unit (Writer W) := EncodeMsg DiscoverHost_shape v en.
Definition DiscoverHost_DecodeMsg `{!IoReader R} (fuel : nat) (z : denote DiscoverHost_shape) (dc : fwdReader R) : res (denote DiscoverHost_shape) (fwdReader R) :=
  DecodeMsg fuel DiscoverHost_shape z dc.
Definition DiscoverHost_Msgsize (v : denote DiscoverHost_shape) : Z := Msgsize DiscoverHost_shape v.

Definition DiscoverHosts_shape : shape :=
  SStruct ("Hosts" ↦ SSlice (SPtr DiscoverHost_shape) ;; FNil).

Definition DiscoverHosts_MarshalMsg (v : denote DiscoverHosts_shape) (b : list Z) : outcome (list Z) := MarshalMsg DiscoverHosts_shape v b.
Definition DiscoverHosts_UnmarshalMsg (z : denote DiscoverHosts_shape) (bts : list Z) : res (denote DiscoverHosts_shape) (list Z) := UnmarshalMsg DiscoverHosts_shape z bts.
Definition DiscoverHosts_EncodeMsg `{!IoWriter W} (v : denote DiscoverHosts_shape) (en : Writer W) : res unit (Writer W) := EncodeMsg DiscoverHosts_shape v en.
Definition DiscoverHosts_DecodeMsg `{!IoReader R} (fuel : nat) (z : denote DiscoverHosts_shape) (dc : fwdReader R) : res (denote DiscoverHosts_shape) (fwdReader R) :=
  DecodeMsg fuel DiscoverHosts_shape z dc.
Definition DiscoverHosts_Msgsize (v : denote DiscoverHosts_shape) : Z := Msgsize DiscoverHosts_shape v.

(** ** [series/msgpacker/msgpacker.msgp.go] *)

Definition FullStat_shape : shape :=
  SStruct ("t" ↦ SInt64 ;; "n" ↦ SFloat64 ;; "m" ↦ SFloat64 ;; "s" ↦ SFloat64 ;; "l" ↦ SFloat64 ;; "c" ↦ SInt64 ;;
           FNil).

Definition FullStat_MarshalMsg (v : denote FullStat_shape) (b : list Z) : outcome (list Z) := MarshalMsg FullStat_shape v b.
Definition FullStat_UnmarshalMsg (z : denote FullStat_shape) (bts : list Z) : res (denote FullStat_shape) (list Z) := UnmarshalMsg FullStat_shape z bts.
Definition FullStat_EncodeMsg `{!IoWriter W} (v : denote FullStat_shape) (en : Writer W) : res unit (Writer W) := EncodeMsg FullStat_shape v en.
Definition FullStat_DecodeMsg `{!IoReader R} (fuel : nat) (z : denote FullStat_shape) (dc : fwdReader R) : res (denote FullStat_shape) (fwdReader R) :=
  DecodeMsg fuel FullStat_shape z dc.
Definition FullStat_Msgsize (v : denote FullStat_shape) : Z := Msgsize FullStat_shape v.

Definition StatSmall_shape : shape :=
  SStruct ("t" ↦ SInt64 ;; "v" ↦ SFloat64 ;; FNil).

Definition StatSmall_MarshalMsg (v : denote StatSmall_shape) (b : list Z) : outcome (list Z) := MarshalMsg StatSmall_shape v b.
Definition StatSmall_UnmarshalMsg (z : denote StatSmall_shape) (bts : list Z) : res (denote StatSmall_shape) (list Z) := UnmarshalMsg StatSmall_shape z bts.
Definition StatSmall_EncodeMsg `{!IoWriter W} (v : denote StatSmall_shape) (en : Writer W) : res unit (Writer W) := EncodeMsg StatSmall_shape v en.
Definition StatSmall_DecodeMsg `{!IoReader R} (fuel : nat) (z : denote StatSmall_shape) (dc : fwdReader R) : res (denote StatSmall_shape) (fwdReader R) :=
  DecodeMsg fuel StatSmall_shape z dc.
Definition StatSmall_Msgsize (v : denote StatSmall_shape) : Z := Msgsize StatSmall_shape v.

Definition Stat_shape : shape :=
  SStruct ("t" ↦ SBool ;; "s" ↦ SPtr FullStat_shape ;; "m" ↦ SPtr StatSmall_shape ;; FNil).

Definition Stat_MarshalMsg (v : denote Stat_shape) (b : list Z) : outcome (list Z) := MarshalMsg Stat_shape v b.
Definition Stat_UnmarshalMsg (z : denote Stat_shape) (bts : list Z) : res (denote Stat_shape) (list Z) := UnmarshalMsg Stat_shape z bts.
Definition Stat_EncodeMsg `{!IoWriter W} (v : denote Stat_shape) (en : Writer W) : res unit (Writer W) := EncodeMsg Stat_shape v en.
Definition Stat_DecodeMsg `{!IoReader R} (fuel : nat) (z : denote Stat_shape) (dc : fwdReader R) : res (denote Stat_shape) (fwdReader R) :=
  DecodeMsg fuel Stat_shape z dc.
Definition Stat_Msgsize (v : denote Stat_shape) : Z := Msgsize Stat_shape v.

Definition Stats_shape : shape :=
  SStruct ("r" ↦ SBool ;; "s" ↦ SSlice (SPtr Stat_shape) ;; FNil).

Definition Stats_MarshalMsg (v : denote Stats_shape) (b : list Z) : outcome (list Z) := MarshalMsg Stats_shape v b.
Definition Stats_UnmarshalMsg (z : denote Stats_shape) (bts : list Z) : res (denote Stats_shape) (list Z) := UnmarshalMsg Stats_shape z bts.
Definition Stats_EncodeMsg `{!IoWriter W} (v : denote Stats_shape) (en : Writer W) : res unit (Writer W) := EncodeMsg Stats_shape v en.
Definition Stats_DecodeMsg `{!IoReader R} (fuel : nat) (z : denote Stats_shape) (dc : fwdReader R) : res (denote Stats_shape) (fwdReader R) :=
  DecodeMsg fuel Stats_shape z dc.
Definition Stats_Msgsize (v : denote Stats_shape) : Z := Msgsize Stats_shape v.

(** ** All of them *)

Definition message_shapes : list shape :=
  [ HashMode_shape; Tag_shape; StatName_shape; StatRepr_shape; TagMode_shape;
    SortingTags_shape; NilJsonFloat64_shape; ReprList_shape; StatId_shape; StatNameSlice_shape;
    StatReprSlice_shape; MetricName_shape; MetricType_shape; MetricValue_shape; MetricWritten_shape;
    RawMetric_shape; RawMetricList_shape; SeriesMetric_shape; SingleMetric_shape; SingleMetricList_shape;
    UidMetric_shape; UnProcessedMetric_shape; AnyMetric_shape; AnyMetricList_shape; UnProcessedMetricList_shape;
    DataPoint_shape; DataPoints_shape; GraphiteApiItem_shape; GraphiteApiItemList_shape; RawDataPoint_shape;
    RawRenderItem_shape; RawRenderItemList_shape; RenderItem_shape; RenderItemList_shape; WhisperDataItem_shape;
    WhisperDataItemList_shape; WhisperRenderItem_shape; GraphiteApiItems_shape; RawDataPointList_shape; RawRenderItems_shape;
    RenderItems_shape; MetricExpandItem_shape; MetricFindItem_shape; MetricFindItemList_shape; MetricTagItem_shape;
    MetricTagItemList_shape; MetricListItems_shape; TagNameList_shape; UidList_shape; DiscoveryQuery_shape;
    IndexQuery_shape; MetricQuery_shape; Resolution_shape; DiscoverHost_shape; DiscoverHosts_shape;
    FullStat_shape; StatSmall_shape; Stat_shape; Stats_shape ].
