(* ===== verification/MsgpMessagesTheorems.v ===== *)
(** The MessagePack methods of the types of the schemas: what they write is
    read back, into any object, by bytes and by stream, and takes no more
    room than [Msgsize] says; reading ends on any bytes; and a key without
    a letter stops the program. *)
From S2P Require Import Prelude Float64 GoStrings GoParse Wire WireTheorems Msgp MsgpShape MsgpShapeTheorems.
From S2P Require Import MsgpStream MsgpStreamTheorems MsgpMessages.

Open Scope Z_scope.

Lemma message_shapes_wf (sh : shape) : sh ∈ message_shapes -> wf sh = true.
Proof.
  assert (H : forallb wf message_shapes = true) by (vm_compute; reflexivity).
  rewrite forallb_forall in H. intros Hin. apply H. by apply list_elem_of_In.
Qed.

(** A message for the witnesses: a raw metric with a tag and a nil. *)
Definition raw_sample : denote RawMetric_shape :=
  (1500000000, ("cpu.load"%string, (0x3FF8000000000000,
    (slice_of [Some ("host"%string, ("a1"%string, tt)); None], (slice_of [], (0, tt)))))).

Definition raw_stale : denote RawMetric_shape :=
  (7, ("old"%string, (1, (mkSlice [] [Some ("dc"%string, ("east"%string, tt)); Some ("x"%string, ("y"%string, tt))],
    (slice_of [None], (9, tt)))))).

Lemma raw_sample_valid : valid RawMetric_shape raw_sample.
Proof. cbn. unfold fits, in_width. split_and!; try lia; try done. repeat constructor; cbn; unfold fits; lia. Qed.

Lemma raw_sample_in : RawMetric_shape ∈ message_shapes.
Proof. unfold message_shapes. repeat (apply list_elem_of_here || apply list_elem_of_further). Qed.

(** C18: what the MessagePack methods write is read back.  For each of the
    types of [message_shapes], which are those of the schemas but
    [MetricFindItems] and [MetricTagItems], whose methods use nil elements,
    and [UidMetricList], a list of itself, and for every object of it whose
    numbers, lengths and maps are those of Go: [MarshalMsg] appends bytes to
    what it is given, and [UnmarshalMsg] reads them, whatever follows, into
    any object in which no two pointers meet, whatever that one and the spare
    room of its slices held: it is then the object written, and exactly these
    bytes are taken. *)
Theorem msgp_schema_roundtrip (sh : shape) (v z : denote sh) (b rest : list Z) :
  sh ∈ message_shapes -> valid sh v ->
  exists bs z', MarshalMsg sh v b = Ok (b ++ bs) /\ UnmarshalMsg sh z (bs ++ rest) = ok z' rest /\ same sh z' v.
Proof.
  intros Hin Hv. apply message_shapes_wf in Hin. destruct (UnmarshalMsg_put sh v z rest Hin Hv) as (z' & E & Hs).
  exists (put sh v), z'. by rewrite MarshalMsg_put.
Qed.

Lemma msgp_schema_roundtrip_witness :
  exists bs z', MarshalMsg RawMetric_shape raw_sample [] = Ok ([] ++ bs) /\
    UnmarshalMsg RawMetric_shape raw_stale (bs ++ [1; 2]) = ok z' [1; 2] /\ same RawMetric_shape z' raw_sample.
Proof.
  exact (msgp_schema_roundtrip RawMetric_shape raw_sample raw_stale [] [1; 2] raw_sample_in raw_sample_valid).
Defined.

(** C19: the streams carry the same bytes, for the types and objects of the
    theorem before.  [msgp.Encode] to a writer that takes what it is given
    hands on exactly the bytes that [MarshalMsg] makes, in order and all of
    them, although it goes through a buffer; and [DecodeMsg] reads them from
    any reader that gives its data without an error and the end by itself, in
    whatever pieces, into any object in which no two pointers meet: it is
    then the object written, and what follows is left for the next. *)
Theorem msgp_streams_agree {W R : Type} `{!IoWriter W} `{!IoWriterLaws W} `{!IoReader R} `{!IoReaderLaws R}
    (sh : shape) (v : denote sh) (bs : list Z) :
  sh ∈ message_shapes -> valid sh v -> MarshalMsg sh v [] = Ok bs ->
  (forall w, exists mw, Encode w sh v = ok tt mw /\ taken (w_out mw) = taken w ++ bs /\ w_buf mw = []) /\
  (forall (src : R) rest z, contents src = bs ++ rest ->
     exists z' r, DecodeMsg (S (length (bs ++ rest))) sh z (NewReader src) = ok z' r /\ same sh z' v /\ left r = rest).
Proof.
  intros Hin Hv E. apply message_shapes_wf in Hin. rewrite MarshalMsg_put in E by done. injection E as <-.
  split; [intros w; by apply Encode_writes|]. intros src rest z Hc. destruct (NewReader_good src) as [Hg Hl]. rewrite Hc in Hl.
  destruct (DecodeMsg_reads (S (length (put sh v ++ rest))) sh v z (NewReader src) rest Hin Hv Hg Hl)
    as (z' & r & Ed & Hs & Hr & _); [rewrite Hl; lia|]. by exists z', r.
Qed.

(** The witness: a raw metric whose bytes arrive in two pieces. *)
Definition raw_bytes : list Z :=
  match MarshalMsg RawMetric_shape raw_sample [] with Ok bs => bs | _ => [] end.

Lemma msgp_streams_agree_witness :
  MarshalMsg RawMetric_shape raw_sample [] = Ok raw_bytes /\
  (exists mw, Encode [9] RawMetric_shape raw_sample = ok tt mw /\ w_out mw = [9] ++ raw_bytes /\ w_buf mw = []) /\
  (exists z' r, DecodeMsg (S (length (raw_bytes ++ [3]))) RawMetric_shape raw_stale
       (NewReader (R := arrivals) [take 20 raw_bytes; drop 20 raw_bytes ++ [3]]) = ok z' r /\
     same RawMetric_shape z' raw_sample /\ left r = [3]).
Proof.
  split; [reflexivity|].
  destruct (msgp_streams_agree (W := list Z) (R := arrivals) RawMetric_shape raw_sample raw_bytes raw_sample_in raw_sample_valid
              ltac:(reflexivity)) as [Hw Hr].
  split; [exact (Hw [9])|].
  exact (Hr [take 20 raw_bytes; drop 20 raw_bytes ++ [3]] [3] raw_stale ltac:(reflexivity)).
Defined.

(** A reader that gives the last data together with the end, as [io.Reader]
    allows: a string whose bytes come last is not read. *)
Record eager := mkEager { eager_data : list Z }.

#[local] Instance eager_IoReader : IoReader eager := {
  io_Read src n :=
    let rest := drop (Z.to_nat n) (eager_data src) in
    (take (Z.to_nat n) (eager_data src), match rest with [] => Some EOF | _ => None end, mkEager rest);
  io_Seek _ _ := None
}.

Example eager_end_fails :
  let tag := ("host"%string, ("a1"%string, tt)) : denote Tag_shape in
  match MarshalMsg Tag_shape tag [] with
  | Ok bs =>
      (DecodeMsg 100 Tag_shape (zero Tag_shape) (NewReader (mkEager bs))).2 = Err ErrUnexpectedEOF /\
      (DecodeMsg 100 Tag_shape (zero Tag_shape) (NewReader bs)).2 = Ok tt
  | _ => False
  end.
Proof. vm_compute. done. Qed.

(** C38: [Msgsize] is enough.  What [MarshalMsg] appends to the bytes it is
    given is never longer than the room that it reserves for it first. *)
Theorem msgp_size_enough (sh : shape) (v : denote sh) (b o : list Z) :
  sh ∈ message_shapes -> valid sh v -> MarshalMsg sh v b = Ok o -> len o <= len b + Msgsize sh v.
Proof.
  intros Hin Hv E. apply message_shapes_wf in Hin. rewrite MarshalMsg_put in E by done. injection E as <-. rewrite len_app.
  pose proof (proj1 Msgsize_put sh v Hv). lia.
Qed.

Lemma msgp_size_enough_witness :
  MarshalMsg RawMetric_shape raw_sample [] = Ok raw_bytes /\ len raw_bytes <= len (A := Z) [] + Msgsize RawMetric_shape raw_sample.
Proof.
  split; [reflexivity|].
  exact (msgp_size_enough RawMetric_shape raw_sample [] raw_bytes raw_sample_in raw_sample_valid ltac:(reflexivity)).
Defined.

(** C35: reading ends.  On any bytes and for any shape, [UnmarshalMsg]
    returns, with an object or an error, or panics: one round for each byte
    is enough for all its loops, over the fields, over the entries of maps
    and over the objects it skips, however large the numbers in the headers
    are.  When it returns an object, it has taken some of the bytes from the
    front. *)
Theorem msgp_reading_ends (sh : shape) (z : denote sh) (bts : list Z) :
  is_bytes bts ->
  exists z' o r, UnmarshalMsg sh z bts = (z', o, r) /\ r <> NoFuel /\ (r = Ok tt -> shorter o bts).
Proof.
  intros Hb. pose proof (proj1 decode_shrinks sh (S (length bts)) z bts Hb) as H. unfold UnmarshalMsg.
  destruct (decode (S (length bts)) sh z bts) as [[z' o] r] eqn:E. exists z', o, r. split; [done|].
  specialize (H ltac:(lia)). destruct r; cbn in *; split; done.
Qed.

(** A map of four thousand million entries, one of which is there. *)
Lemma msgp_reading_ends_witness :
  is_bytes [0xdf; 255; 255; 255; 255; 0xa1; 0x7a; 0xc0] /\
  exists z' o r, UnmarshalMsg Tag_shape (zero Tag_shape) [0xdf; 255; 255; 255; 255; 0xa1; 0x7a; 0xc0] = (z', o, r) /\
    r <> NoFuel /\ (r = Ok tt -> shorter o [0xdf; 255; 255; 255; 255; 0xa1; 0x7a; 0xc0]).
Proof.
  assert (H : is_bytes [0xdf; 255; 255; 255; 255; 0xa1; 0x7a; 0xc0]) by (unfold is_bytes; repeat constructor; lia).
  split; [exact H|]. exact (msgp_reading_ends Tag_shape (zero Tag_shape) _ H).
Defined.

(** The error for a wrong lead does not matter where there is none. *)
Lemma str_form_bad (bad bad' : Z -> goerror) (bs : list Z) (v : Z) : forms (str_form bad) bs v -> forms (str_form bad') bs v.
Proof.
  unfold forms, str_form. destruct bs as [|lead p]; [done|]. destruct (isfixstr lead), (lead =? mstr8), (lead =? mstr16), (lead =? mstr32); done.
Qed.

(** A key of any of the forms of an empty string is one for the stream,
    too. *)
Lemma key_form_empty (bad : Z -> goerror) (kh : list Z) : forms (str_form bad) kh 0 -> forms key_form kh 0.
Proof.
  unfold forms, str_form, key_form. destruct kh as [|lead p]; [done|].
  destruct (isfixstr lead); [done|]. destruct (lead =? mstr8); [done|].
  destruct (lead =? mstr16) eqn:E16; [apply Z.eqb_eq in E16 as ->; done|].
  destruct (lead =? mstr32) eqn:E32; [apply Z.eqb_eq in E32 as ->; done|done].
Qed.

(** C37: an empty key stops the program.  A map of at least one entry, its
    header [hd] in any of the three forms, whose first key is the empty
    string, [kh] in any of the four forms of a string, makes [UnmarshalMsg]
    of every struct panic, whatever follows: the key is turned into a string
    through the address of its first byte.  [DecodeMsg] of the same bytes
    returns an error. *)
Theorem msgp_empty_key (fs : fields) (z : denote_fields fs) (hd kh rest : list Z) (n : Z) :
  forms map_form hd n -> 0 < n -> forms (str_form (badPrefix StrType)) kh 0 ->
  UnmarshalMsg (SStruct fs) z (hd ++ kh ++ rest) = (z, rest, Panic) /\
  forall fuel, exists r, DecodeMsg (S fuel) (SStruct fs) z (NewReader (hd ++ kh ++ rest)) = fail z r ErrShortBytes.
Proof.
  intros Hd Hn Hk. assert (En : (n <=? 0) = false) by (apply Z.leb_gt; lia). split.
  { unfold UnmarshalMsg. cbn [decode src_map_header bytes_Source]. unfold ReadMapHeaderBytes.
    rewrite (read_form_forms map_form 0 hd (kh ++ rest) n Hd). cbn [on_ok ok rounds]. rewrite En.
    unfold field_round. cbn [src_key bytes_Source]. unfold ReadMapKeyZC, ReadStringZC.
    rewrite (read_form_forms (str_form (fun lead => TypeError StrType (sp_typ (sizes lead)))) 0 kh rest 0 (str_form_bad _ _ _ _ Hk)).
    cbn [on_ok ok]. pose proof (read_data_app [] rest) as Hr. change (len (A := Z) []) with 0 in Hr. cbn [app] in Hr. by rewrite Hr. }
  intros fuel. unfold DecodeMsg. cbn [decode src_map_header stream_Source].
  destruct (NewReader_good (hd ++ kh ++ rest)) as [Hg Hl].
  destruct (stream_form_reads map_form 0 (NewReader (hd ++ kh ++ rest)) hd (kh ++ rest) n Hg Hd Hl) as (r1 & E1 & Hl1 & Hg1).
  unfold ReadMapHeader. rewrite E1. cbn [on_ok ok rounds]. rewrite En. unfold field_round. cbn [src_key stream_Source]. unfold ReadMapKeyPtr.
  destruct (stream_form_reads key_form 0 r1 kh rest 0 Hg1 (key_form_empty _ _ Hk) Hl1) as (r2 & E2 & Hl2 & Hg2).
  rewrite E2. cbn. by exists r2.
Qed.

Lemma msgp_empty_key_witness :
  UnmarshalMsg Tag_shape (zero Tag_shape) ([0xde; 0; 2] ++ [0xd9; 0] ++ [0x01]) = (zero Tag_shape, [0x01], Panic).
Proof.
  apply (msgp_empty_key ("Name" ↦ SString ;; "Value" ↦ SString ;; FNil) (zero Tag_shape) [0xde; 0; 2] [0xd9; 0] [0x01] 2);
    [split; reflexivity|lia|split; reflexivity].
Defined.

(** MessagePack leaves nothing of what the object of a pool held, where the
    protobuf decoder adds to it. *)
Example pooled_msgp_clean :
  UnmarshalMsg RawMetric_shape raw_stale raw_bytes =
    ok (1500000000, ("cpu.load"%string, (0x3FF8000000000000,
          (slice_of [Some ("host"%string, ("a1"%string, tt)); None], (mkSlice [] [None], (0, tt)))))) [].
Proof. vm_compute. reflexivity. Qed.

(** A key of type [bin], which the stream takes, is refused in bytes. *)
Example bin_key :
  UnmarshalMsg Tag_shape (zero Tag_shape) [0x81; 0xc4; 4; 0x4e; 0x61; 0x6d; 0x65; 0xa1; 0x62] =
    fail (zero Tag_shape) [] ErrShortBytes /\
  (let '(z, _, o) := DecodeMsg 20 Tag_shape (zero Tag_shape) (NewReader [0x81; 0xc4; 4; 0x4e; 0x61; 0x6d; 0x65; 0xa1; 0x62]) in
   z = ("b"%string, (""%string, tt)) /\ o = Ok tt).
Proof. vm_compute. auto. Qed.
