(* ===== verification/MsgpackSeries.v ===== *)
(** [series/msgpack.go]: the series that writes each point as a MessagePack
    object, the short form when its count is one, and the iterator over its
    bytes.  Both use the streams of [MsgpStream]: the points are written to
    a buffered writer, so the buffer of the series does not hold the last
    of them until [Bytes] flushes it.

    The MessagePack series: its bytes are the points it was given, and the
    iterator over them delivers these. *)
From S2P Require Import Prelude Bits Float64 GoStrings GoParse Gorilla Tags Repr Series Wire WireTheorems.
From S2P Require Import ProtoSeriesTheorems Msgp MsgpShape MsgpShapeTheorems MsgpStream.
From S2P Require Import MsgpStreamTheorems MsgpMessages.

Open Scope Z_scope.

Definition MSGPACK_SERIES_TAG_LOWRES : string := "mspl".
Definition MSGPACK_SERIES_TAG_HIGHRES : string := "msph".
Definition MSGPACK_NAME : string := "msgpack".

(** ** The series *)

(** [ms_buf] is [None] as long as the buffer of the series is the one that
    its writer writes to. *)
Record MsgpackTimeSeries := mkMsgpackSeries {
  ms_T0 : Z;
  ms_curTime : Z;
  ms_fullRes : bool;
  ms_ct : Z;
  ms_buf : option (list Z);
  ms_writer : Writer (list Z)
}.

Definition buf_of (s : MsgpackTimeSeries) : list Z := default (w_out (ms_writer s)) (ms_buf s).

Definition NewMsgpackTimeSeries (t0 : Z) (options : Options) : MsgpackTimeSeries :=
  let t_head := if HighTimeResolution options then MSGPACK_SERIES_TAG_HIGHRES else MSGPACK_SERIES_TAG_LOWRES in
  mkMsgpackSeries t0 0 (HighTimeResolution options) 0 None (NewWriter (string_bytes t_head)).

Definition ms_Name (s : MsgpackTimeSeries) : string := MSGPACK_NAME.
Definition ms_HighResolution (s : MsgpackTimeSeries) : bool := ms_fullRes s.
Definition ms_Count (s : MsgpackTimeSeries) : Z := ms_ct s.
Definition ms_Len (s : MsgpackTimeSeries) : Z := len (buf_of s).
Definition ms_StartTime (s : MsgpackTimeSeries) : Z := ms_T0 s.
Definition ms_LastTime (s : MsgpackTimeSeries) : Z := ms_curTime s.

Definition set_writer (s : MsgpackTimeSeries) (mw : Writer (list Z)) : MsgpackTimeSeries :=
  mkMsgpackSeries (ms_T0 s) (ms_curTime s) (ms_fullRes s) (ms_ct s) (ms_buf s) mw.

(** A new buffer, which the writer does not know of. *)
Definition ms_UnmarshalBinary (s : MsgpackTimeSeries) (data : list Z) : MsgpackTimeSeries :=
  mkMsgpackSeries (ms_T0 s) (ms_curTime s) (ms_fullRes s) (ms_ct s) (Some data) (ms_writer s).

(** What is buffered, without what the writer still holds. *)
Definition ms_MarshalBinary (s : MsgpackTimeSeries) : list Z := buf_of s.

(** The error of the flush is dropped. *)
Definition ms_Bytes (s : MsgpackTimeSeries) : list Z * MsgpackTimeSeries :=
  let '(_, mw, _) := flush (ms_writer s) in
  let s := set_writer s mw in (buf_of s, s).

(** [io.Copy(g.buf, s.buf)]: the copy of the struct has the same buffer, so
    the buffer is written to its own end, and is empty after that.  The two
    series share it and the writer; this is the state that both show. *)
Definition ms_Copy (s : MsgpackTimeSeries) : MsgpackTimeSeries :=
  match ms_buf s with
  | None => set_writer s (mkWriter [] (w_buf (ms_writer s)) (w_size (ms_writer s)))
  | Some _ => mkMsgpackSeries (ms_T0 s) (ms_curTime s) (ms_fullRes s) (ms_ct s) (Some []) (ms_writer s)
  end.

(** The object of a point. *)
Definition msgpack_stat (full : bool) (p : point) : denote Stat_shape :=
  let use_t := if full then pt_time p else (splitNano (pt_time p)).1 in
  if pt_count p =? 1 then (false, (None, (Some (use_t, (pt_sum p, tt)), tt)))
  else (true, (Some (use_t, (pt_min p, (pt_max p, (pt_sum p, (pt_last p, (pt_count p, tt)))))), (None, tt))).

(** [None] is a panic. *)
Definition ms_AddPoint (s : MsgpackTimeSeries) (p : point) : option (option goerror * MsgpackTimeSeries) :=
  let t := pt_time p in
  let '(_, mw, o) := Stat_EncodeMsg (msgpack_stat (ms_fullRes s) p) (ms_writer s) in
  match o with
  | Ok _ =>
      Some (None, mkMsgpackSeries (if t <? ms_T0 s then t else ms_T0 s) (if t >? ms_curTime s then t else ms_curTime s)
                    (ms_fullRes s) (i64 (ms_ct s + 1)) (ms_buf s) mw)
  | Err e => Some (Some e, set_writer s mw)
  | _ => None
  end.

Definition ms_AddStat (s : MsgpackTimeSeries) (stat : StatRepr) : option (option goerror * MsgpackTimeSeries) :=
  ms_AddPoint s (mkPoint (Repr.Time stat) (Min stat) (Max stat) (Last stat) (Sum stat) (Count stat)).

(** ** The iterator *)

Record MsgpackIter := mkMsgpackIter {
  mi_reader : fwdReader (list Z);
  mi_curIdx : Z;
  mi_curStat : denote Stat_shape;
  mi_fullResolution : bool;
  mi_finished : bool;
  mi_err : option goerror
}.

Definition errHeader : goerror := GoError "Msgpack: Invalid Header".
Definition errHeaderTag (t_head : list Z) : goerror := GoError ("Msgpack: Invalid Header " +:+ bytes_string t_head).

Definition NewMsgpackIterFromBytes (data : list Z) : MsgpackIter + goerror :=
  let '(t_head, err, buf) := io_Read data 4 in
  match err with
  | Some e => inr e
  | None =>
      if negb (len t_head =? 4) then inr errHeader
      else
        let it full := mkMsgpackIter (NewReader buf) 0 (zero Stat_shape) full false None in
        if bool_decide (bytes_string t_head = MSGPACK_SERIES_TAG_LOWRES) then inl (it false)
        else if bool_decide (bytes_string t_head = MSGPACK_SERIES_TAG_HIGHRES) then inl (it true)
        else inr (errHeaderTag t_head)
  end.

Definition ms_Iter (s : MsgpackTimeSeries) : (MsgpackIter + goerror) * MsgpackTimeSeries :=
  let '(data, s) := ms_Bytes s in (NewMsgpackIterFromBytes data, s).

(** Every byte of the stream is enough fuel for a round. *)
Definition mi_fuel (it : MsgpackIter) : nat := S (length (r_data (mi_reader it)) + length (r_src (mi_reader it))).

(** The object is decoded into the one of the last point.  The end of the
    data is the end of the series also in the middle of a point. *)
Definition mi_Next (it : MsgpackIter) : option (bool * MsgpackIter) :=
  if mi_finished it then Some (false, it)
  else
    let '(stat, reader, o) := Stat_DecodeMsg (mi_fuel it) (mi_curStat it) (mi_reader it) in
    match o with
    | Ok _ => Some (true, mkMsgpackIter reader (mi_curIdx it + 1) stat (mi_fullResolution it) false (mi_err it))
    | Err e =>
        if bool_decide (e = EOF) then
          Some (false, mkMsgpackIter reader (mi_curIdx it) stat (mi_fullResolution it) true (mi_err it))
        else Some (false, mkMsgpackIter reader (mi_curIdx it) stat (mi_fullResolution it) false (Some e))
    | _ => None
    end.

(** A nil pointer is a panic. *)
Definition mi_Values (it : MsgpackIter) : option point_values :=
  let '(StatType, (Stat, (SmallStat, _))) := mi_curStat it in
  let time t := if mi_fullResolution it then t else combineSecNano (u32 t) 0 in
  if StatType : bool then
    '(t, (mi, (mx, (su, (la, (ct, _)))))) ← Stat; Some (time t, mi, mx, la, su, ct)
  else '(t, (v, _)) ← SmallStat; Some (time t, v, v, v, v, 1).

(** Here the time is not brought back to nanoseconds. *)
Definition mi_ReprValue (it : MsgpackIter) : option StatRepr :=
  let '(StatType, (Stat, (SmallStat, _))) := mi_curStat it in
  if StatType : bool then
    '(t, (mi, (mx, (su, (la, (ct, _)))))) ← Stat;
    Some (mkRepr None t (CheckFloat mi) (CheckFloat mx) (CheckFloat la) (CheckFloat su) ct)
  else '(t, (v, _)) ← SmallStat; let v := CheckFloat v in Some (mkRepr None t v v v v 1).

#[export] Instance MsgpackIter_TimeSeriesIter : TimeSeriesIter MsgpackIter :=
  {| iter_Next := mi_Next;
     iter_Values := mi_Values;
     iter_ReprValue := mi_ReprValue;
     iter_Error := mi_err |}.

(** ** Theorems *)

(** ** Points *)

(** What the iterator delivers for a point; a float is not changed. *)
Definition msgpack_values (full : bool) (p : point) : point_values :=
  let t := if full then pt_time p else combineSecNano (splitNano (pt_time p)).1 0 in
  if pt_count p =? 1 then (t, pt_sum p, pt_sum p, pt_sum p, pt_sum p, 1)
  else (t, pt_min p, pt_max p, pt_last p, pt_sum p, pt_count p).

Lemma stat_wf : wf Stat_shape = true.
Proof. reflexivity. Qed.

Lemma stat_valid (full : bool) (p : point) : proto_point p -> valid Stat_shape (msgpack_stat full p).
Proof.
  intros (Ht & Hc & Hmi & Hmx & Hla & Hsu). pose proof (splitNano_width (pt_time p)) as Hw. unfold in_width in Hw.
  unfold msgpack_stat. destruct (pt_count p =? 1), full; cbn; split_and!; try done; lia.
Qed.

(** There is no slice in the object of a point. *)
Lemma stat_same (a b : denote Stat_shape) : same Stat_shape a b -> a = b.
Proof.
  cbn in a, b. unfold same. cbn. intros E.
  repeat match goal with
  | x : _ * _ |- _ => destruct x
  | x : unit |- _ => destruct x
  | x : option _ |- _ => destruct x
  end; cbn in *; congruence.
Qed.

(** ** The series *)

Definition ms_AddPoints (s : MsgpackTimeSeries) (ps : list point) : option MsgpackTimeSeries :=
  foldl (fun s p => s ← s; match ms_AddPoint s p with Some (None, s) => Some s | _ => None end) (Some s) ps.

Definition header_bytes (full : bool) : list Z :=
  string_bytes (if full then MSGPACK_SERIES_TAG_HIGHRES else MSGPACK_SERIES_TAG_LOWRES).

Definition points_bytes (full : bool) (ps : list point) : list Z := ps ≫= (fun p => put Stat_shape (msgpack_stat full p)).

(** A series that holds [ps]. *)
Record ms_holds (full : bool) (t0 : Z) (ps : list point) (s : MsgpackTimeSeries) : Prop := {
  mh_full : ms_fullRes s = full;
  mh_good : writer_good (ms_writer s);
  mh_own : ms_buf s = None;
  mh_bytes : written (ms_writer s) = header_bytes full ++ points_bytes full ps;
  mh_count : ms_ct s = len ps;
  mh_start : ms_T0 s = foldl Z.min t0 (map pt_time ps);
  mh_last : ms_curTime s = foldl Z.max 0 (map pt_time ps)
}.

Lemma ms_holds_new (t0 : Z) (options : Options) :
  ms_holds (HighTimeResolution options) t0 [] (NewMsgpackTimeSeries t0 options).
Proof. by split. Qed.

Lemma ms_holds_add (full : bool) (t0 : Z) (ps : list point) (s : MsgpackTimeSeries) (p : point) :
  len ps < 2 ^ 62 -> proto_point p -> ms_holds full t0 ps s ->
  exists s', ms_AddPoint s p = Some (None, s') /\ ms_holds full t0 (ps ++ [p]) s'.
Proof.
  intros Hn Hp [Hf Hg Ho Hb Hc Hs Hl]. unfold ms_AddPoint, Stat_EncodeMsg.
  destruct (EncodeMsg_writes Stat_shape (msgpack_stat (ms_fullRes s) p) (ms_writer s) stat_wf (stat_valid _ _ Hp) Hg)
    as (mw & -> & Hw & Hg').
  eexists. split; [done|].
  split; cbn [ms_fullRes ms_writer ms_buf ms_ct ms_T0 ms_curTime]; rewrite ?map_app, ?foldl_app; cbn [map foldl]; try done.
  - rewrite Hw, Hb, Hf. unfold points_bytes. rewrite bind_app, <- (assoc_L (++)). cbn [mbind list_bind]. by rewrite app_nil_r.
  - rewrite Hc, len_app. assert (0 <= len ps) by (unfold len; lia). rewrite i64_small by lia. done.
  - rewrite <- Hs. case_if; bool_to_prop; lia.
  - rewrite <- Hl. case_if; bool_to_prop; lia.
Qed.

Lemma ms_holds_points (full : bool) (t0 : Z) (ps qs : list point) (s : MsgpackTimeSeries) :
  len ps + len qs < 2 ^ 62 -> Forall proto_point qs -> ms_holds full t0 ps s ->
  exists s', ms_AddPoints s qs = Some s' /\ ms_holds full t0 (ps ++ qs) s'.
Proof.
  intros Hn Hq. revert ps s Hn. induction Hq as [|q qs Hq Hqs IH]; intros ps s Hn Hs.
  { exists s. by rewrite app_nil_r. }
  destruct (ms_holds_add full t0 ps s q) as (s1 & E & Hs1); [unfold len in *; cbn [length] in Hn; lia|done|done|].
  destruct (IH (ps ++ [q]) s1) as (s2 & E2 & Hs2); [unfold len in *; rewrite length_app; cbn [length] in *; lia|done|].
  exists s2. rewrite <- (assoc_L (++)) in Hs2. split; [|done]. unfold ms_AddPoints in *. cbn [foldl mbind option_bind]. by rewrite E.
Qed.

(** ** The iterator *)

(** All the points of an iterator, and the iterator at the end. *)
Fixpoint ms_run (fuel : nat) (it : MsgpackIter) : option (list point_values * MsgpackIter) :=
  match fuel with
  | O => None
  | S fuel =>
      '(more, it) ← mi_Next it;
      if (more : bool) then v ← mi_Values it; '(vs, it) ← ms_run fuel it; Some (v :: vs, it) else Some ([], it)
  end.

Lemma stat_values (full : bool) (p : point) (it : MsgpackIter) :
  mi_curStat it = msgpack_stat full p -> mi_fullResolution it = full -> mi_Values it = Some (msgpack_values full p).
Proof.
  intros E Hf. unfold mi_Values, msgpack_values. rewrite E, Hf. pose proof (u32_splitNano (pt_time p)) as Hu.
  unfold msgpack_stat. destruct (pt_count p =? 1), full; cbn; by rewrite ?Hu.
Qed.

Lemma stat_end (fuel : nat) (z : denote Stat_shape) (r : fwdReader (list Z)) :
  reader_good r -> left r = [] -> exists r', DecodeMsg fuel Stat_shape z r = fail z r' EOF /\ left r' = [] /\ reader_good r'.
Proof.
  exact (DecodeMsg_end fuel ("t" ↦ SBool ;; "s" ↦ SPtr FullStat_shape ;; "m" ↦ SPtr StatSmall_shape ;; FNil)%shape z r).
Qed.

Lemma run_points (full : bool) (ps : list point) (fuel : nat) (it : MsgpackIter) :
  Forall proto_point ps -> reader_good (mi_reader it) -> left (mi_reader it) = points_bytes full ps ->
  mi_fullResolution it = full -> mi_finished it = false -> mi_err it = None -> (length ps < fuel)%nat ->
  exists it', ms_run fuel it = Some (map (msgpack_values full) ps, it') /\ mi_finished it' = true /\ mi_err it' = None /\
    mi_curIdx it' = mi_curIdx it + len ps.
Proof.
  intros Hps. revert fuel it. induction Hps as [|p ps Hp Hps IH]; intros [|fuel] it Hg Hl Hf Hfin He Hn; try (cbn in Hn; lia).
  - destruct (stat_end (mi_fuel it) (mi_curStat it) (mi_reader it) Hg Hl) as (r' & E & Hl' & Hg').
    cbn [ms_run]. unfold mi_Next, Stat_DecodeMsg. rewrite Hfin. rewrite E.
    cbn [fail mbind option_bind]. rewrite bool_decide_eq_true_2 by done. eexists. split; [done|]. cbn. unfold len. cbn. split_and!; [done|done|lia].
  - cbn in Hl. destruct (DecodeMsg_reads (mi_fuel it) Stat_shape (msgpack_stat full p) (mi_curStat it) (mi_reader it) (points_bytes full ps))
      as (z' & r' & E & Hsame & Hl' & Hg'); [done|by apply stat_valid|done|done| |].
    { unfold left, mi_fuel. rewrite length_app. cbn. lia. }
    apply stat_same in Hsame as ->. cbn [ms_run]. unfold mi_Next, Stat_DecodeMsg. rewrite Hfin, E. cbn [ok mbind option_bind].
    set (it1 := mkMsgpackIter _ _ _ _ _ _). rewrite (stat_values full p it1) by done. cbn [mbind option_bind].
    destruct (IH fuel it1) as (it' & -> & Hfin' & He' & Hi'); [done|done|done|done|done|cbn in Hn; lia|].
    exists it'. split; [done|]. split_and!; [done|done|]. rewrite Hi'. unfold len. cbn. lia.
Qed.

Lemma ms_Bytes_holds (full : bool) (t0 : Z) (ps : list point) (s : MsgpackTimeSeries) :
  ms_holds full t0 ps s ->
  exists s', ms_Bytes s = (header_bytes full ++ points_bytes full ps, s') /\ ms_holds full t0 ps s' /\
    ms_MarshalBinary s' = header_bytes full ++ points_bytes full ps.
Proof.
  intros [Hf Hg Ho Hb Hc Hs Hl]. destruct (flush_takes (ms_writer s)) as (mw & E & Hw & Hbuf & Hsz).
  assert (Hout : w_out mw = header_bytes full ++ points_bytes full ps).
  { rewrite <- Hb, <- Hw. unfold written. cbn. by rewrite Hbuf, app_nil_r. }
  exists (set_writer s mw). unfold ms_Bytes. rewrite E. unfold ms_MarshalBinary, buf_of, set_writer. cbn. rewrite Ho. cbn.
  rewrite Hout. split_and!; [done| |done]. split; cbn; try done.
  - unfold writer_good in *. rewrite Hbuf, Hsz. unfold len. cbn. lia.
  - unfold written. cbn. by rewrite Hout, Hbuf, app_nil_r.
Qed.

Lemma iter_of_bytes (full : bool) (data : list Z) :
  NewMsgpackIterFromBytes (header_bytes full ++ data) = inl (mkMsgpackIter (NewReader data) 0 (zero Stat_shape) full false None).
Proof. by destruct full. Qed.

(** C20: the MessagePack series keeps what it is given.  Add any points to a
    new series, however many times its buffered writer empties its buffer on
    the way: every addition succeeds, and its bytes, which are then also
    those of [MarshalBinary], are taken by the iterator, which delivers every
    point in order, at the resolution of the series and with its floats
    unchanged, and finishes without an error.  The count, the first and the
    last time are those of the points. *)
Theorem msgpack_series_reads_back (t0 : Z) (options : Options) (ps : list point) :
  Forall proto_point ps -> len ps < 2 ^ 62 ->
  let full := HighTimeResolution options in
  exists s s' data it it',
    ms_AddPoints (NewMsgpackTimeSeries t0 options) ps = Some s /\
    ms_Bytes s = (data, s') /\ ms_MarshalBinary s' = data /\ NewMsgpackIterFromBytes data = inl it /\
    ms_run (S (length ps)) it = Some (map (msgpack_values full) ps, it') /\
    mi_finished it' = true /\ mi_err it' = None /\ mi_curIdx it' = len ps /\
    ms_Count s = len ps /\ ms_StartTime s = foldl Z.min t0 (map pt_time ps) /\ ms_LastTime s = foldl Z.max 0 (map pt_time ps).
Proof.
  intros Hps Hn full.
  destruct (ms_holds_points full t0 [] ps (NewMsgpackTimeSeries t0 options)) as (s & Es & Hs);
    [done|done|apply ms_holds_new|].
  destruct (ms_Bytes_holds full t0 ps s Hs) as (s' & Eb & _ & Em).
  pose proof (iter_of_bytes full (points_bytes full ps)) as Ei.
  destruct (NewReader_good (points_bytes full ps)) as [Hg Hl].
  destruct (run_points full ps (S (length ps)) (mkMsgpackIter (NewReader (points_bytes full ps)) 0 (zero Stat_shape) full false None))
    as (it' & Er & Hfin & He & Hi); [done|done|done|done|done|done|lia|].
  destruct Hs as [_ _ _ _ Hc Hs0 Hla]. eexists s, s', _, _, it'. split_and!; try done.
Qed.

(** The witness: the points of the protobuf series. *)
Lemma msgpack_series_reads_back_witness :
  Forall proto_point sample_points /\ len sample_points < 2 ^ 62 /\
  exists s s' data it it',
    ms_AddPoints (NewMsgpackTimeSeries 1500000000000000000 NewDefaultOptions) sample_points = Some s /\
    ms_Bytes s = (data, s') /\ ms_MarshalBinary s' = data /\ NewMsgpackIterFromBytes data = inl it /\
    ms_run 3 it = Some (map (msgpack_values false) sample_points, it') /\
    mi_finished it' = true /\ mi_err it' = None /\ mi_curIdx it' = 2 /\
    ms_Count s = 2 /\ ms_StartTime s = 1500000000000000000 /\ ms_LastTime s = 1500000001000000000.
Proof.
  assert (H : Forall proto_point sample_points).
  { repeat constructor; cbn; unfold in_width; lia. }
  split; [exact H|]. split; [reflexivity|].
  exact (msgpack_series_reads_back 1500000000000000000 NewDefaultOptions sample_points H ltac:(reflexivity)).
Defined.

(** ** Where the code does not do what it means to *)

Definition sample_series : option MsgpackTimeSeries :=
  ms_AddPoints (NewMsgpackTimeSeries 1500000000000000000 NewDefaultOptions) sample_points.

(** Before [Bytes], the points are not in the bytes of [MarshalBinary] and
    in the length; a copy empties the buffer that the two series then share,
    so the bytes of both have no header and cannot be read; a series that was
    given bytes writes its next points elsewhere. *)
Example msgpack_copy_empties :
  match sample_series with
  | Some s =>
      ms_MarshalBinary s = header_bytes false /\ ms_Len s = 4 /\
      (let s := (ms_Bytes s).2 in
       ms_Len s = 96 /\ ms_Len (ms_Copy s) = 0 /\ (ms_Iter (ms_Copy s)).1 = inr EOF) /\
      (let s := ms_UnmarshalBinary s [1; 2; 3] in
       option_map (fun r => (ms_Bytes r.2).1) (ms_AddPoint s (mkPoint 1 0 0 0 0 1)) = Some [1; 2; 3])
  | None => False
  end.
Proof. vm_compute. auto 10. Qed.

(** Data that stops in the middle of a point is not an error: the points
    before it are delivered, and the iterator is finished. *)
Example msgpack_cut_is_the_end :
  match sample_series with
  | Some s =>
      match NewMsgpackIterFromBytes (take 90 (ms_Bytes s).1) with
      | inl it => option_map (fun r => (length r.1, mi_finished r.2, mi_err r.2)) (ms_run 3 it) = Some (1%nat, true, None)
      | inr _ => False
      end
  | None => False
  end.
Proof. vm_compute. reflexivity. Qed.

(** The time of [ReprValue] is in seconds when the series keeps seconds. *)
Example msgpack_repr_seconds :
  match sample_series with
  | Some s =>
      match (ms_Iter s).1 with
      | inl it => option_map (fun r => option_map Repr.Time (mi_ReprValue r.2)) (mi_Next it) = Some (Some 1500000000)
      | inr _ => False
      end
  | None => False
  end.
Proof. vm_compute. reflexivity. Qed.
