(* ===== verification/IndexUtils.v ===== *)
(** [writers/indexer/utils.go] and [segments.go]: queries of the indexers
    (globs, regular expressions, lists of paths, tags) and the segments of
    a path.

    The loops of the source over the characters of a query are loops over
    its bytes here: the characters they look for are single bytes, which
    occur nowhere else in UTF-8.  [regexp.Compile] is a parameter of the
    functions that use it, and the order in which Go ranges over a map is
    the class [GoRange]. *)
From Stdlib Require Import Ascii.
From S2P Require Import Prelude GoStrings GoParse Tags TagsTheorems.

Open Scope Z_scope.

(** [for k, v := range m]: the entries of the map in any order. *)
Class GoRange := {
  range : forall {A}, gmap string A -> list (string * A);
  range_perm : forall {A} (m : gmap string A), range m ≡ₚ map_to_list m
}.

Definition list_GoRange : GoRange := {| range A m := map_to_list m; range_perm A m := reflexivity _ |}.

(** [strings.IndexAny(s, chars) >= 0]. *)
Fixpoint has_any (s chars : string) : bool :=
  match s with
  | EmptyString => false
  | String c s => negb (no_char c chars) || has_any s chars
  end.

(** [strings.HasSuffix]. *)
Fixpoint HasSuffix (s suffix : string) : bool :=
  bool_decide (s = suffix) ||
  match s with
  | EmptyString => false
  | String _ s => HasSuffix s suffix
  end.

(** ** Queries *)

Definition needRegex (metric : string) : bool := has_any metric "(|*?[{^$".

Definition regifyKeyString (name : string) : string :=
  let regable := ReplaceAll name ".." "." in
  let regable := ReplaceAll regable "{" "(" in
  let regable := ReplaceAll regable "}" ")" in
  let regable := ReplaceAll regable "," "|" in
  let regable := ReplaceAll regable "." "\." in
  ReplaceAll regable "*" ".*".

Definition regifyMysqlKeyString (name : string) : string :=
  let regable := ReplaceAll name ".." "." in
  let regable := ReplaceAll regable "{" "(" in
  let regable := ReplaceAll regable "}" ")" in
  let regable := ReplaceAll regable "," "|" in
  ReplaceAll regable "*" ".*".

Fixpoint non_regex_segments (spl : list string) : list string :=
  match spl with
  | [] => []
  | s :: spl => if needRegex s then [] else s :: non_regex_segments spl
  end.

Definition findFirstNonRegexSegment (name : string) : string := Join (non_regex_segments (Split name ".")) ".".

Definition fullRegString (name : string) : string :=
  let regable := regifyKeyString name in
  let regable := if HasPrefix regable "^" then regable else "^" +:+ regable in
  if HasSuffix regable "$" then regable else regable +:+ "$".

Definition regifyKey {Regexp : Type} (Compile : string -> Regexp + goerror) (name : string) : Regexp + goerror :=
  Compile (fullRegString name).

Definition alnum (a : Ascii.ascii) : bool :=
  ((48 <=? code a) && (code a <=? 57)) || ((65 <=? code a) && (code a <=? 90)) || ((97 <=? code a) && (code a <=? 122)).

(** [uidRegEx] is [^[a-zA-Z0-9]+$]. *)
Definition isUid (nm : string) : bool :=
  if Z.of_nat (String.length nm) >? 14 then false
  else negb (bool_decide (nm = ""%string)) && all_chars alnum nm.

(** The loop of [toGlob]: [gotFirst], [pGlob], [regStr] and [outgs]. *)
Fixpoint toGlob_loop (metric : string) (gotFirst : bool) (pGlob regStr : string) (outgs : list string) : string * list string :=
  match metric with
  | EmptyString => (regStr, outgs)
  | String c metric =>
      if bool_decide (c = "{"%char) then toGlob_loop metric true pGlob (regStr +:+ "(") outgs
      else if bool_decide (c = "}"%char) then
        if gotFirst && negb (bool_decide (pGlob = ""%string))
        then toGlob_loop metric false pGlob (regStr +:+ ")") (outgs ++ [pGlob])
        else toGlob_loop metric gotFirst pGlob regStr outgs
      else if bool_decide (c = ","%char) then
        toGlob_loop metric gotFirst pGlob (if gotFirst then regStr +:+ "|" else regStr) outgs
      else
        toGlob_loop metric gotFirst (if gotFirst then pGlob +:+ String c "" else pGlob) (regStr +:+ String c "") outgs
  end.

Definition toGlob (metric : string) : string * list string :=
  let '(regStr, outgs) := toGlob_loop metric false "" "" [] in (ReplaceAll regStr "*" ".*", outgs).

(** The loop of [splitMetricsPath]: [gotFirst] and [onStr]. *)
Fixpoint split_metrics (gotFirst : bool) (onStr metric : string) : list string :=
  match metric with
  | EmptyString => if bool_decide (onStr = ""%string) then [] else [onStr]
  | String c metric =>
      if bool_decide (c = "{"%char) then split_metrics true (onStr +:+ String c "") metric
      else if bool_decide (c = "}"%char) then split_metrics false (onStr +:+ String c "") metric
      else if bool_decide (c = ","%char) then
        if gotFirst then split_metrics gotFirst (onStr +:+ String c "") metric
        else onStr :: split_metrics gotFirst "" metric
      else split_metrics gotFirst (onStr +:+ String c "") metric
  end.

Definition splitMetricsPath (metric : string) : list string := split_metrics false "" metric.

(** Every segment is tested by looking at the whole metric. *)
Definition toTrieQuery (metric : string) : string :=
  Join (map (fun spl => if has_any metric "*?[{^$}])(" then "*"%string else spl) (Split metric ".")) ".".

(** ** Tag queries *)

(** The loop of [ParseOpenTSDBTags]: [collecting], [keyCollecting],
    [inner] and [key]. *)
Fixpoint tsdb_loop (query : string) (collecting keyCollecting : bool) (inner key : string) : bool * string * string :=
  match query with
  | EmptyString => (collecting, inner, key)
  | String char query =>
      if bool_decide (char = "{"%char) then tsdb_loop query true false inner key
      else if bool_decide (char = "}"%char) then tsdb_loop query false keyCollecting inner key
      else
        tsdb_loop query collecting keyCollecting
          (if collecting then inner +:+ String char "" else inner) (if keyCollecting then key +:+ String char "" else key)
  end.

Definition ErrTagQuery : goerror := GoError "Invalid Tag query `{name=val, name=val}`".

Definition set_pair (oTags : SortingTags) (tg : string) : SortingTags :=
  match Split (TrimSpace tg) "=" with
  | [name; val] => Set_ oTags name val
  | _ => oTags
  end.

Definition ParseOpenTSDBTags (query : string) : string * SortingTags * option goerror :=
  let '(collecting, inner, key) := tsdb_loop query false true "" "" in
  if bool_decide (inner = ""%string) || collecting then (key, [], Some ErrTagQuery)
  else (key, foldl set_pair [] (Split inner ","), None).

(** ** Segments *)

Record PathSegment := mkSegment { Pos : Z; Segment : string }.

Record PathPart := mkPart {
  part_Segment : PathSegment;
  part_Path : string;
  part_Id : string;
  part_Length : Z;
  part_Hasdata : bool
}.

Record ParsedPath := mkParsed {
  Segments : list PathSegment;
  Paths : list PathPart;
  Len : Z;
  Parts : list string
}.

(** The dot is put in when there is more than one character before it. *)
Fixpoint segments_loop (parts : list string) (idx : Z) (curPart : string) : list PathSegment :=
  match parts with
  | [] => []
  | part :: parts =>
      let curPart := (if (1 <? String.length curPart)%nat then curPart +:+ "." else curPart) +:+ part in
      mkSegment idx curPart :: segments_loop parts (idx + 1) curPart
  end.

Definition NewParsedPath (name uid : string) : ParsedPath :=
  let parts := Split name "." in
  let len := Z.of_nat (length parts) in
  let segs := segments_loop parts 0 "" in
  mkParsed segs (map (fun s => mkPart s name uid (len - 1) false) segs) len parts.

Definition Last (p : ParsedPath) : option string := at_index (Parts p) (Len p - 1).

Example glob_example : toGlob "a.{b,c}.*" = ("a.(b|c)..*"%string, ["bc"]%string). Proof. reflexivity. Qed.
Example trie_query_example : toTrieQuery "a.b*.c" = "*.*.*"%string. Proof. reflexivity. Qed.
Example short_segment : map Segment (Segments (NewParsedPath "a.b.c" "u")) = ["a"; "ab"; "ab.c"]%string. Proof. reflexivity. Qed.

(** ** Theorems *)

(** Scanning [p] cuts it nowhere: the state after it. *)
Fixpoint uncut (gotFirst : bool) (p : string) : option bool :=
  match p with
  | EmptyString => Some gotFirst
  | String c p =>
      if bool_decide (c = "{"%char) then uncut true p
      else if bool_decide (c = "}"%char) then uncut false p
      else if bool_decide (c = ","%char) then if gotFirst then uncut gotFirst p else None
      else uncut gotFirst p
  end.

Lemma split_metrics_uncut (g g' : bool) (cur p r : string) :
  uncut g p = Some g' -> split_metrics g cur (p +:+ r) = split_metrics g' (cur +:+ p) r.
Proof.
  revert g cur. induction p as [|c p IH]; intros g cur H; cbn [uncut] in H.
  { simplify_eq. by rewrite string_app_nil_r. }
  rewrite string_app_cons. cbn [split_metrics].
  repeat case_bool_decide; try destruct g; try done; rewrite IH by done;
    by rewrite <- string_app_assoc, string_app_cons, string_app_nil_l.
Qed.

(** A list of paths, each with its braces closed and no comma outside of
    them, is taken apart into its paths. *)
Lemma split_paths_roundtrip (ps : list string) :
  Forall (fun p => uncut false p = Some false) ps -> last ps <> Some ""%string ->
  splitMetricsPath (Join ps ",") = ps.
Proof.
  unfold splitMetricsPath. induction ps as [|p ps IH]; intros Hf Hl; [done|]. inversion Hf as [|? ? Hp Hps]; subst.
  destruct ps as [|q ps].
  - cbn [Join]. rewrite <- (string_app_nil_r p) at 1. rewrite (split_metrics_uncut false false) by done. cbn [split_metrics].
    rewrite string_app_nil_l. case_bool_decide; [|done]. subst. done.
  - rewrite Join_cons by done. rewrite (split_metrics_uncut false false) by done. rewrite string_app_cons, !string_app_nil_l.
    cbn [split_metrics]. rewrite !bool_decide_eq_false_2, bool_decide_eq_true_2 by done. f_equal. apply IH; [done|].
    by rewrite last_cons_cons in Hl.
Qed.

Example split_paths_example : splitMetricsPath "a.{b,c},d.*" = ["a.{b,c}"; "d.*"]%string. Proof. reflexivity. Qed.
(** A comma at the end is dropped with the empty path after it. *)
Example split_paths_trailing : splitMetricsPath "a,,b," = ["a"; ""; "b"]%string. Proof. reflexivity. Qed.

(** *** Segments *)

Lemma segments_loop_prefixes (parts : list string) (idx : Z) (cur : list string) :
  cur <> [] -> (1 < String.length (Join cur "."))%nat ->
  map Segment (segments_loop parts idx (Join cur ".")) =
    map (fun i => Join (cur ++ take (S i) parts) ".") (seq 0 (length parts)).
Proof.
  revert idx cur. induction parts as [|p parts IH]; intros idx cur Hne Hc; [done|]. cbn [segments_loop length seq map].
  assert (E : (Join cur "." +:+ ".") +:+ p = Join (cur ++ [p]) ".").
  { clear -Hne. induction cur as [|c cur IH]; [done|]. destruct cur as [|c' cur]; [cbn; by rewrite <- string_app_assoc|].
    change ((c :: c' :: cur) ++ [p]) with (c :: ((c' :: cur) ++ [p])). rewrite (Join_cons c (c' :: cur)), (Join_cons c ((c' :: cur) ++ [p])) by done. rewrite <- IH by done.
    by rewrite !string_app_assoc. }
  destruct (1 <? String.length (Join cur "."))%nat eqn:El; [|apply Nat.ltb_ge in El; lia]. rewrite E. f_equal.
  rewrite IH.
  - rewrite <- seq_shift, map_map. apply map_ext. intros i. cbn [take]. by rewrite <- (assoc_L (++)).
  - by destruct cur.
  - rewrite <- E, !string_length_app. lia.
Qed.

(** The segments of a path are its prefixes, when its first part has more
    than one character. *)
Lemma parsed_path_prefixes (name uid : string) (p : string) (ps : list string) :
  Split name "." = p :: ps -> (1 < String.length p)%nat ->
  map Segment (Segments (NewParsedPath name uid)) =
    map (fun i => Join (take (S i) (p :: ps)) ".") (seq 0 (S (length ps))).
Proof.
  intros E Hp. unfold NewParsedPath. rewrite E. cbn [Segments segments_loop map seq String.length Nat.ltb Nat.leb take].
  rewrite string_app_nil_l. f_equal. rewrite (segments_loop_prefixes ps _ [p]) by done. rewrite <- seq_shift, map_map. by apply map_ext.
Qed.

(** *** Tag queries *)

Lemma trim_visible (s : string) : all_chars visible s = true -> TrimSpace s = s.
Proof.
  assert (Hl : forall s, all_chars visible s = true -> trim_left 0 s = s).
  { intros [|a s'] H; [done|]. cbn [all_chars] in H. bool_to_prop. cbn [trim_left]. by rewrite space_len_cons. }
  intros H. unfold TrimSpace. rewrite Hl by done. induction s as [|a s IH]; [done|]. cbn [trim_right]. rewrite Hl by done.
  cbn [all_chars] in H. bool_to_prop. by rewrite IH.
Qed.

(** What a name or a value of a tag query is made of. *)
Definition tsdb_char (a : Ascii.ascii) : bool :=
  visible a && negb (bool_decide (a = "{"%char)) && negb (bool_decide (a = "}"%char)) &&
  negb (bool_decide (a = ","%char)) && negb (bool_decide (a = "="%char)).

Definition tsdb_tag (t : Tag) : Prop := all_chars tsdb_char (tag_Name t) = true /\ all_chars tsdb_char (tag_Value t) = true.

Lemma tsdb_visible (s : string) : all_chars tsdb_char s = true -> all_chars visible s = true.
Proof. apply all_chars_impl. intros a Ha. unfold tsdb_char in Ha. by bool_to_prop. Qed.

Lemma tsdb_no_char (c : Ascii.ascii) (s : string) : tsdb_char c = false -> all_chars tsdb_char s = true -> no_char c s = true.
Proof.
  intros Hc Hs. rewrite <- all_chars_no_char. eapply all_chars_impl; [|done]. intros a Ha.
  rewrite bool_decide_eq_false_2; [done|]. intros ->. congruence.
Qed.

Definition no_brace (a : Ascii.ascii) : bool := negb (bool_decide (a = "{"%char)) && negb (bool_decide (a = "}"%char)).

Lemma tsdb_loop_key (key r : string) (inner key0 : string) :
  all_chars no_brace key = true -> tsdb_loop (key +:+ r) false true inner key0 = tsdb_loop r false true inner (key0 +:+ key).
Proof.
  revert key0. induction key as [|c key IH]; intros key0 H; [by rewrite string_app_nil_r|]. rewrite string_app_cons.
  cbn [all_chars] in H. unfold no_brace in H at 1. bool_to_prop. cbn [tsdb_loop]. rewrite H, H1. rewrite IH by done.
  by rewrite <- string_app_assoc, string_app_cons.
Qed.

Lemma tsdb_loop_inner (inner r : string) (inner0 key : string) :
  all_chars no_brace inner = true -> tsdb_loop (inner +:+ r) true false inner0 key = tsdb_loop r true false (inner0 +:+ inner) key.
Proof.
  revert inner0. induction inner as [|c inner IH]; intros inner0 H; [by rewrite string_app_nil_r|]. rewrite string_app_cons.
  cbn [all_chars] in H. unfold no_brace in H at 1. bool_to_prop. cbn [tsdb_loop]. rewrite H, H1. rewrite IH by done.
  by rewrite <- string_app_assoc, string_app_cons.
Qed.

Lemma Set_fresh (s : SortingTags) (t : Tag) :
  tag_Name t ∉ map tag_Name s -> Set_ s (tag_Name t) (tag_Value t) = s ++ [t].
Proof.
  induction s as [|u s IH]; intros H; [by destruct t|]. cbn [map] in H. apply not_elem_of_cons in H as [Hn H].
  cbn [Set_]. rewrite bool_decide_eq_false_2 by done. by rewrite IH.
Qed.

Lemma set_pair_tag (s : SortingTags) (t : Tag) :
  tsdb_tag t -> tag_Name t ∉ map tag_Name s -> set_pair s (Tag_Join t "=") = s ++ [t].
Proof.
  intros [Hn Hv] Hf. unfold set_pair.
  assert (Hj : TrimSpace (Tag_Join t "=") = Join [tag_Name t; tag_Value t] (sep1 "="%char)).
  { change (Join [tag_Name t; tag_Value t] (sep1 "="%char)) with (Tag_Join t "="). apply trim_visible. unfold Tag_Join.
    by rewrite !all_chars_app, (tsdb_visible (tag_Name t)), (tsdb_visible (tag_Value t)). }
  rewrite Hj. change "="%string with (sep1 "="%char). rewrite Split_Join; [by apply Set_fresh|done|].
  repeat constructor; by apply tsdb_no_char.
Qed.

(** A query printed as [key{name=val,...}] is read back. *)
Lemma tsdb_roundtrip (key : string) (tags : SortingTags) :
  all_chars no_brace key = true -> tags <> [] -> Forall tsdb_tag tags -> NoDup (map tag_Name tags) ->
  ParseOpenTSDBTags (key +:+ "{" +:+ ToStringSep tags "=" "," +:+ "}") = (key, tags, None).
Proof.
  intros Hk Hne Ht Hnd. unfold ParseOpenTSDBTags. rewrite tsdb_loop_key by done. rewrite string_app_cons, !string_app_nil_l.
  cbn [tsdb_loop]. rewrite bool_decide_eq_true_2 by done.
  assert (Hin : forall c, tsdb_char c = false -> c <> ","%char -> c <> "="%char ->
     no_char c (ToStringSep tags "=" ",") = true).
  { intros c Hc Hcomma Heq. apply no_char_Join.
    { cbn. by rewrite bool_decide_eq_false_2 by congruence. }
    apply Forall_map. eapply Forall_impl; [done|]. intros t [Hn Hv]. unfold Tag_Join. cbn -[no_char]. rewrite !no_char_app.
    rewrite (tsdb_no_char c (tag_Name t)), (tsdb_no_char c (tag_Value t)) by done. cbn. by rewrite bool_decide_eq_false_2 by congruence. }
  rewrite tsdb_loop_inner.
  2: { rewrite (all_chars_impl (fun a => negb (bool_decide (a = "{"%char)) && negb (bool_decide (a = "}"%char))) no_brace); [done|done|].
       assert (H1 := Hin "{"%char eq_refl ltac:(done) ltac:(done)). assert (H2 := Hin "}"%char eq_refl ltac:(done) ltac:(done)).
       rewrite <- all_chars_no_char in H1, H2. clear -H1 H2. induction (ToStringSep tags "=" ",") as [|a s IH]; [done|].
       cbn [all_chars] in *. bool_to_prop. by rewrite H, H1, IH. }
  cbn [tsdb_loop]. rewrite (bool_decide_eq_false_2 ("}"%char = "{"%char)), (bool_decide_eq_true_2 ("}"%char = "}"%char)) by done.
  rewrite string_app_nil_l.
  assert (Hsplit : Split (ToStringSep tags "=" ",") "," = map (fun t => Tag_Join t "=") tags).
  { unfold ToStringSep. apply (Split_Join ","%char); [by destruct tags|]. apply Forall_map. eapply Forall_impl; [done|].
    intros t [Hn Hv]. unfold Tag_Join. rewrite !no_char_app.
    by rewrite (tsdb_no_char ","%char (tag_Name t)), (tsdb_no_char ","%char (tag_Value t)). }
  rewrite Hsplit. rewrite bool_decide_eq_false_2.
  2: { intros E. rewrite E in Hsplit. destruct tags as [|t [|u tags]]; [done| |done]. injection Hsplit as Hj.
       unfold Tag_Join in Hj. destruct (tag_Name t); done. }
  cbn [orb]. f_equal. f_equal. clear -Ht Hnd.
  assert (forall s, NoDup (map tag_Name (s ++ tags)) -> foldl set_pair s (map (fun t => Tag_Join t "=") tags) = s ++ tags) as H.
  { clear Hnd. induction Ht as [|t tags Ht Hts IH]; intros s Hnd; [by rewrite app_nil_r|]. cbn [map foldl].
    rewrite set_pair_tag; [|done|].
    - rewrite IH; rewrite <- (assoc_L (++)); done.
    - rewrite map_app, NoDup_app in Hnd. destruct Hnd as (_ & Hd & _). intros Hi. apply (Hd _ Hi). cbn. left. }
  by apply (H []).
Qed.
