(* ===== verification/MetricIndex.v ===== *)
(** [writers/indexer/metric_ram.go]: the index of metric names in memory.

    It holds a table of names, one of ids, the times at which ids were last
    seen and the trie of [utils/trie], of which [Find] takes its answers.
    The LevelDB files it opens are behind the class [LevelDB]: what the code
    calls of that library.  Times are nanoseconds since Go's zero time;
    [time.Now()] is an argument, read once in [CullExpired].  The order in
    which Go ranges over a map is the class [GoRange] of [IndexUtils].  [None] as
    a result is a panic. *)
From Stdlib Require Import Ascii.
From S2P Require Import Prelude GoStrings GoParse Tags Trie TrieTheorems Wire RawData Messages IndexUtils.

Open Scope Z_scope.

(** ** Databases *)

(** [NewIterator] with the range of a prefix, an iterator's moves, and
    [Delete]. *)
Class LevelDB (DB It : Type) := {
  db_NewIterator : DB -> string -> It;
  db_Delete : DB -> string -> option goerror * DB;
  it_Next : It -> bool * It;
  it_First : It -> bool * It;
  it_Last : It -> bool * It;
  it_Prev : It -> bool * It;
  it_Seek : It -> string -> bool * It;
  it_Key : It -> option string;
  it_Value : It -> option string;
  it_Error : It -> option goerror
}.

Definition METRIC_RAM_NUM_PARITIIONS : Z := 16.

Definition ErrorCannotDeleteByRegex : goerror := GoError "Cannot delete by regex".

Record trieItem := mkTrieItem { item_Uid : string; item_LastHit : Z; item_Path : string }.

(** ** The iterator over all databases *)

Section iterator.
Context {DB It : Type} `{!LevelDB DB It}.

Record AllIterator := mkAll {
  a_prefix : string;
  a_dbs : list DB;
  a_curIdx : Z;
  a_curIter : It
}.

Definition at_db (a : AllIterator) (i : Z) : option AllIterator :=
  db ← at_index (a_dbs a) i; Some (mkAll (a_prefix a) (a_dbs a) i (db_NewIterator db (a_prefix a))).

Definition NewAllIter (dbs : list DB) (prefix : string) : option AllIterator :=
  db ← at_index dbs 0; Some (mkAll prefix dbs 0 (db_NewIterator db prefix)).

Definition with_iter (a : AllIterator) (it : It) : AllIterator := mkAll (a_prefix a) (a_dbs a) (a_curIdx a) it.

(** The iterator of the next database is not moved to its first entry. *)
Definition all_Next (a : AllIterator) : option (bool * AllIterator) :=
  let '(more, it) := it_Next (a_curIter a) in
  if more : bool then Some (true, with_iter a it)
  else
    let i := a_curIdx a + 1 in
    if Z.of_nat (length (a_dbs a)) =? i then Some (false, mkAll (a_prefix a) (a_dbs a) i it)
    else a ← at_db a i; Some (true, a).

Definition moved (a : AllIterator) (r : bool * It) : bool * AllIterator := (r.1, with_iter a r.2).

Definition all_First (a : AllIterator) : option (bool * AllIterator) :=
  a ← at_db a 0; Some (moved a (it_First (a_curIter a))).
Definition all_Last (a : AllIterator) : option (bool * AllIterator) :=
  a ← at_db a (Z.of_nat (length (a_dbs a)) - 1); Some (moved a (it_Last (a_curIter a))).
Definition all_Prev (a : AllIterator) : bool * AllIterator := moved a (it_Prev (a_curIter a)).
Definition all_Seek (a : AllIterator) (key : string) : bool * AllIterator := moved a (it_Seek (a_curIter a) key).
Definition all_Key (a : AllIterator) : option string := it_Key (a_curIter a).
Definition all_Value (a : AllIterator) : option string := it_Value (a_curIter a).
Definition all_Error (a : AllIterator) : option goerror := it_Error (a_curIter a).

End iterator.

Arguments AllIterator : clear implicits.

(** ** The index *)

Record MetricIndex (DB : Type) := mkIndex {
  nameIndex : gmap string string;
  uidIndex : gmap string string;
  lastHit : gmap string Z;
  dbs : list DB;
  TrieIndex : Trie trieItem
}.
Arguments mkIndex {DB}.
Arguments nameIndex {DB}.
Arguments uidIndex {DB}.
Arguments lastHit {DB}.
Arguments dbs {DB}.
Arguments TrieIndex {DB}.

(** Items of an answer. *)
Definition leaf_item (text path uid : string) : MetricFindItem := mkMetricFindItem text 0 1 path 0 path uid [] [].
Definition folder_item (text path : string) : MetricFindItem := mkMetricFindItem text 1 0 path 1 path "" [] [].

Section index.
Context `{!GoRange} {DB It : Type} `{!LevelDB DB It}.
(** [regexp.Compile] and [MatchString]; [fmt.Errorf] of a text as its
    format. *)
Context {Regexp : Type} (Compile : string -> Regexp + goerror) (re_Match : Regexp -> string -> bool).
Context (Errorf : list goerror -> goerror).

Fixpoint open_all (open : Z -> DB + goerror) (n : nat) (i : Z) : list DB + goerror :=
  match n with
  | O => inl []
  | S n =>
      match open i with
      | inr err => inr err
      | inl db => match open_all open n (i + 1) with inl dbs => inl (db :: dbs) | inr err => inr err end
      end
  end.

(** [open i]: the directory of the [i]th database is removed, made and
    opened. *)
Definition NewMetricIndex (open : Z -> DB + goerror) : MetricIndex DB + goerror :=
  match open_all open (Z.to_nat METRIC_RAM_NUM_PARITIIONS) 0 with
  | inr err => inr err
  | inl dbs => inl (mkIndex ∅ ∅ ∅ dbs (New "."))
  end.

(** [bytes.Count(met, ".")]. *)
Definition count_dots (met : string) : Z := Z.of_nat (length (Split met ".")) - 1.

Definition partition_of (met : string) : Z := (count_dots met + 1) mod METRIC_RAM_NUM_PARITIIONS - 1.

Definition whichPartition (mi : MetricIndex DB) (met : string) : option DB := at_index (dbs mi) (partition_of met).

(** One entry of [toDel]; of the names the id is deleted. *)
Definition cull_one (mi : MetricIndex DB) (e : string * string) : MetricIndex DB :=
  let '(uid, path) := e in
  mkIndex (delete uid (nameIndex mi)) (delete uid (uidIndex mi)) (delete uid (lastHit mi)) (dbs mi) (Pop (TrieIndex mi) path).2.

Definition expired (mi : MetricIndex DB) (limit : Z) (uid : string) : bool :=
  match lastHit mi !! uid with Some t => t <? limit | None => true end.

Definition CullExpired (mi : MetricIndex DB) (dur now : Z) : gmap string string * MetricIndex DB :=
  let dur := if dur >? 0 then - dur else dur in
  let toDel := filter (fun e => expired mi (now + dur) e.1 = true) (uidIndex mi) in
  (toDel, foldl cull_one mi (range toDel)).

Definition Add (mi : MetricIndex DB) (uid path : string) (now : Z) : MetricIndex DB :=
  match nameIndex mi !! path with
  | Some _ => mkIndex (nameIndex mi) (uidIndex mi) (<[uid := now]> (lastHit mi)) (dbs mi) (TrieIndex mi)
  | None =>
      mkIndex (<[path := uid]> (nameIndex mi)) (<[uid := path]> (uidIndex mi)) (lastHit mi) (dbs mi)
        (Put (TrieIndex mi) path (Some (mkTrieItem uid now path)))
  end.

Definition SetLastSeen (mi : MetricIndex DB) (uid : string) (lastseen : Z) : MetricIndex DB :=
  mkIndex (nameIndex mi) (uidIndex mi) (<[uid := lastseen]> (lastHit mi)) (dbs mi) (TrieIndex mi).

(** The zero time when there is none. *)
Definition GetLastSeen (mi : MetricIndex DB) (uid : string) : Z := default 0 (lastHit mi !! uid).

Definition Contains (mi : MetricIndex DB) (metric : string) : string := default ""%string (nameIndex mi !! metric).
Definition ContainsUid (mi : MetricIndex DB) (uid : string) : string := default ""%string (uidIndex mi !! uid).

Definition FindAll (mi : MetricIndex DB) : list string := (range (nameIndex mi)).*1.

(** An iterator over one database, or over all. *)
Definition FindIter (mi : MetricIndex DB) (prefix : string) (useDB : option DB) : option (It + AllIterator DB It) :=
  if bool_decide (prefix = ""%string) then inr <$> NewAllIter (dbs mi) prefix
  else
    db ← match useDB with Some db => Some db | None => whichPartition mi prefix end;
    Some (inl (db_NewIterator db prefix)).

(** The segments before the first with a glob, joined: [longChunk]. *)
Fixpoint long_chunk (segs : list string) (longChunk : string) : option string :=
  match segs with
  | [] => None
  | pth :: segs =>
      if needRegex pth then Some longChunk
      else long_chunk segs ((if bool_decide (longChunk = ""%string) then longChunk else longChunk +:+ ".") +:+ pth)
  end.

(** The iterator, the regular expression if one is needed, the prefix. *)
Definition FindLowestPrefix (mi : MetricIndex DB) (path : string)
    : option ((It + AllIterator DB It) * option Regexp * string + goerror) :=
  let segs := Split path "." in
  let needs := needRegex path in
  let useKey := if needs then default path (long_chunk segs "") else path in
  match (if needs then match regifyKey Compile path with inl r => inl (Some r) | inr err => inr err end else inl None) with
  | inr err => Some (inr err)
  | inl reg =>
      useDB ← whichPartition mi path;
      let prefix := FormatInt (Z.of_nat (length segs) - 1) +:+ ":" +:+ useKey in
      iter ← FindIter mi prefix (Some useDB);
      Some (inl (iter, reg, prefix))
  end.

Definition FindByUid (mi : MetricIndex DB) (uid : string) : list MetricFindItem :=
  match uidIndex mi !! uid with
  | Some pth => [leaf_item pth pth ""]
  | None => []
  end.

(** The children of the root are never of type [time.Time]. *)
Definition FindRoot (mi : MetricIndex DB) : list MetricFindItem :=
  map (fun e => folder_item e.1 e.1) (range (Children (TrieIndex mi) "*")).

Definition last_segment (k : string) : string := default ""%string (last (Split k ".")).

(** The item of a child, unless only those with data are wanted. *)
Definition child_item (hasDataOnly : bool) (k : string) (v : child_value (V := trieItem)) : option MetricFindItem :=
  match v with
  | CValue (Some item) => Some (leaf_item (last_segment k) k (item_Uid item))
  | _ => if hasDataOnly then None else Some (folder_item (last_segment k) k)
  end.

(** The loop over what the trie has. *)
Fixpoint have_loop (keep : string -> bool) (hasDataOnly : bool) (have : list (string * child_value (V := trieItem)))
    (mt : list MetricFindItem) (seen : gset string) : list MetricFindItem * gset string :=
  match have with
  | [] => (mt, seen)
  | (k, v) :: have =>
      if bool_decide (k ∈ seen) || negb (keep k) then have_loop keep hasDataOnly have mt seen
      else
        match child_item hasDataOnly k v with
        | Some ms => have_loop keep hasDataOnly have (mt ++ [ms]) ({[k]} ∪ seen)
        | None => have_loop keep hasDataOnly have mt seen
        end
  end.

(** One path of the query: an exact name, or what the trie has.  A name
    is reported under the whole query, and a path without a glob asks the
    trie for the whole query. *)
Definition find_one (mi : MetricIndex DB) (metric : string) (hasDataOnly : bool) (targ : string)
    (st : list MetricFindItem * list goerror * gset string) : list MetricFindItem * list goerror * gset string :=
  let '(mt, errs, seen) := st in
  match nameIndex mi !! targ with
  | Some got =>
      if bool_decide (metric ∈ seen) then (mt, errs, seen)
      else (mt ++ [leaf_item (last_segment targ) metric got], errs, {[metric]} ∪ seen)
  | None =>
      if needRegex targ then
        match regifyKey Compile targ with
        | inr err => (mt, errs ++ [err], seen)
        | inl reg =>
            let '(mt, seen) := have_loop (re_Match reg) hasDataOnly (range (ChildrenFlat (TrieIndex mi) (toTrieQuery targ))) mt seen in
            (mt, errs, seen)
        end
      else
        let '(mt, seen) := have_loop (fun _ => true) hasDataOnly (range (ChildrenFlat (TrieIndex mi) metric)) mt seen in
        (mt, errs, seen)
  end.

Definition Find (mi : MetricIndex DB) (metric : string) (hasDataOnly : bool) : list MetricFindItem * option goerror :=
  if bool_decide (metric = "*"%string) then (FindRoot mi, None)
  else
    let '(mt, errs, _) := foldl (fun st targ => find_one mi metric hasDataOnly targ st) ([], [], ∅) (splitMetricsPath metric) in
    (mt, match errs with [] => None | _ => Some (Errorf errs) end).

(** The time is looked up under the path, not under the id. *)
Definition Delete (mi : MetricIndex DB) (pth : string) : option (option goerror * MetricIndex DB) :=
  if needRegex pth then Some (Some ErrorCannotDeleteByRegex, mi)
  else
    let '(names, uids) :=
      match nameIndex mi !! pth with
      | Some uid => (delete pth (nameIndex mi), delete uid (uidIndex mi))
      | None => (nameIndex mi, uidIndex mi)
      end in
    let bpth := FormatInt (Z.of_nat (length (Split pth ".")) - 1) +:+ ":" +:+ pth in
    usePart ← whichPartition mi pth;
    let '(err, db) := db_Delete usePart bpth in
    Some (err, mkIndex names uids (delete pth (lastHit mi)) (<[Z.to_nat (partition_of pth) := db]> (dbs mi))
                 (Pop (TrieIndex mi) pth).2).

Definition DeleteByUid (mi : MetricIndex DB) (uid : string) : option (option goerror * MetricIndex DB) :=
  match uidIndex mi !! uid with
  | Some pth => Delete mi pth
  | None => Some (None, mi)
  end.

End index.

(** ** Theorems *)

(** *** Splitting *)

Lemma split_from_pieces (c : Ascii.ascii) (cur s : string) :
  no_char c cur = true -> Forall (fun p => no_char c p = true) (split_from (sep1 c) 0 cur s).
Proof.
  revert cur. induction s as [|x s IH]; intros cur Hc; [by repeat constructor|]. cbn [split_from].
  unfold sep1. cbn [String.prefix]. destruct (Ascii.ascii_dec c x) as [->|Hx].
  - rewrite prefix_nil. constructor; [done|]. by apply (IH ""%string).
  - apply IH. rewrite no_char_app, Hc. cbn. by rewrite bool_decide_eq_false_2 by congruence.
Qed.

Lemma Split_pieces (c : Ascii.ascii) (s : string) : Forall (fun p => no_char c p = true) (Split s (sep1 c)).
Proof. by apply split_from_pieces. Qed.

Lemma split_metrics_no_comma (g : bool) (cur p : string) :
  no_char ","%char p = true -> split_metrics g cur p = if bool_decide (cur +:+ p = ""%string) then [] else [cur +:+ p].
Proof.
  revert g cur. induction p as [|c p IH]; intros g cur H; cbn [split_metrics].
  { by rewrite string_app_nil_r. }
  cbn [no_char] in H. bool_to_prop. rewrite H.
  assert (E : (cur +:+ String c "") +:+ p = cur +:+ String c p) by (by rewrite <- string_app_assoc, string_app_cons).
  destruct (bool_decide (c = "{"%char)); [|destruct (bool_decide (c = "}"%char))]; by rewrite IH, E.
Qed.

Lemma splitMetricsPath_one (p : string) : no_char ","%char p = true -> p <> ""%string -> splitMetricsPath p = [p].
Proof. intros H Hp. unfold splitMetricsPath. by rewrite split_metrics_no_comma, string_app_nil_l, bool_decide_eq_false_2. Qed.

(** *** Partitions *)

Lemma partition_ok (met : string) :
  Z.of_nat (length (Split met ".")) mod 16 <> 0 -> 0 <= partition_of met < 16.
Proof.
  intros H. unfold partition_of, count_dots. replace (_ - 1 + 1) with (Z.of_nat (length (Split met "."))) by lia.
  change METRIC_RAM_NUM_PARITIIONS with 16. pose proof (Z.mod_pos_bound (Z.of_nat (length (Split met "."))) 16). lia.
Qed.

(** A name of sixteen segments has no partition. *)
Example sixteen_segments : partition_of "a.b.c.d.e.f.g.h.i.j.k.l.m.n.o.p" = -1. Proof. reflexivity. Qed.

Section theorems.
Context `{!GoRange} {DB It : Type} `{!LevelDB DB It}.
Context {Regexp : Type} (Compile : string -> Regexp + goerror) (re_Match : Regexp -> string -> bool).
Context (Errorf : list goerror -> goerror).

Abbreviation Find := (Find Compile re_Match Errorf).
Implicit Types (mi : MetricIndex DB) (m : gmap string string).

(** *** What the index stands for *)

(** The index stands for a map from names to ids; [path_of] is the name
    an id belongs to. *)
Record index_repr (path_of : string -> string) mi m : Prop := {
  ir_names : nameIndex mi = m;
  ir_uids : forall uid p, uidIndex mi !! uid = Some p <-> m !! p = Some uid;
  ir_of : forall uid p, m !! p = Some uid -> p = path_of uid;
  ir_trie : exists tm, trie_repr (TrieIndex mi) tm /\ forall p, item_Uid <$> tm !! p = m !! p;
  ir_delim : delim (TrieIndex mi) = "."%string;
  ir_segs : forall path, is_Some (node (root (TrieIndex mi)) path) -> Forall (fun s => no_char "."%char s = true) path;
  ir_dbs : length (dbs mi) = 16%nat
}.

Lemma open_all_length (open : Z -> DB + goerror) (n : nat) (i : Z) (l : list DB) :
  open_all open n i = inl l -> length l = n.
Proof.
  revert i l. induction n as [|n IH]; intros i l Hl; cbn [open_all] in Hl; [by simplify_eq|].
  destruct (open i); [|done]. destruct (open_all open n (i + 1)) eqn:E; [|done]. simplify_eq. cbn. by erewrite IH.
Qed.

Lemma NewMetricIndex_repr (path_of : string -> string) (open : Z -> DB + goerror) mi :
  NewMetricIndex open = inl mi -> index_repr path_of mi ∅.
Proof.
  unfold NewMetricIndex. destruct (open_all _ _ _) as [l|] eqn:E; [|done]. intros Hl. simplify_eq.
  split; cbn; try done.
  - exists ∅. split; [apply New_repr|done].
  - intros path [nd Hn]. by apply node_newTree in Hn as ->.
  - apply open_all_length in E. done.
Qed.

Lemma Put_segs (tr : Trie trieItem) (key : string) (v : option trieItem) :
  delim tr = "."%string -> (forall path, is_Some (node (root tr) path) -> Forall (fun s => no_char "."%char s = true) path) ->
  delim (Put tr key v) = "."%string /\
  (forall path, is_Some (node (root (Put tr key v)) path) -> Forall (fun s => no_char "."%char s = true) path).
Proof.
  intros Hd Hs. unfold Put. pose proof (node_put (root tr) (Split key (delim tr)) v) as Hn.
  destruct (put (root tr) (Split key (delim tr)) v) as [t g]. cbn in *. split; [done|].
  intros path Hp. destruct (Hn path Hp) as [?|[r E]]; [by apply Hs|]. pose proof (Split_pieces "."%char key) as Hf.
  rewrite Hd in E. change (sep1 "."%char) with "."%string in Hf. rewrite E in Hf. by apply Forall_app in Hf as [? _].
Qed.

Lemma Pop_segs (tr : Trie trieItem) (key : string) :
  delim tr = "."%string -> (forall path, is_Some (node (root tr) path) -> Forall (fun s => no_char "."%char s = true) path) ->
  delim (Pop tr key).2 = "."%string /\
  (forall path, is_Some (node (root (Pop tr key).2) path) -> Forall (fun s => no_char "."%char s = true) path).
Proof.
  intros Hd Hs. unfold Pop. pose proof (node_pop (root tr) (Split key (delim tr))) as Hn.
  destruct (pop (root tr) (Split key (delim tr))) as [w t]. cbn in *. split; [done|]. intros path Hp. by apply Hs, Hn.
Qed.

Lemma Add_repr (path_of : string -> string) mi m uid path now :
  index_repr path_of mi m -> path = path_of uid ->
  index_repr path_of (Add mi uid path now) (match m !! path with Some _ => m | None => <[path := uid]> m end).
Proof.
  intros [Hn Hu Ho (tm & Ht & Hm) Hd Hs Hl] Hp. unfold Add. rewrite Hn. destruct (m !! path) as [old|] eqn:E.
  { split; cbn; try done. by exists tm. }
  destruct (Put_segs (TrieIndex mi) path (Some (mkTrieItem uid now path)) Hd Hs) as [Hd' Hs'].
  assert (Hfresh : forall p, m !! p <> Some uid) by (intros p Hp'; specialize (Ho _ _ Hp'); congruence).
  split; cbn; try done.
  - intros uid' p. destruct (decide (uid' = uid)) as [->|Hne].
    + rewrite lookup_insert_eq. destruct (decide (p = path)) as [->|Hpp]; [by rewrite lookup_insert_eq|].
      rewrite lookup_insert_ne by done. split; [congruence|]. intros Hx. by apply Hfresh in Hx.
    + rewrite lookup_insert_ne by done. rewrite Hu. destruct (decide (p = path)) as [->|Hpp].
      * rewrite lookup_insert_eq, E. split; [done|congruence].
      * by rewrite lookup_insert_ne.
  - intros uid' p. destruct (decide (p = path)) as [->|Hpp].
    + rewrite lookup_insert_eq. congruence.
    + rewrite lookup_insert_ne by done. apply Ho.
  - eexists. split; [by apply Put_repr|]. intros p. destruct (decide (p = path)) as [->|Hpp].
    + by rewrite !lookup_insert_eq.
    + by rewrite !lookup_insert_ne.
Qed.

Lemma SetLastSeen_repr (path_of : string -> string) mi m uid t :
  index_repr path_of mi m -> index_repr path_of (SetLastSeen mi uid t) m.
Proof. by intros []; split. Qed.

Lemma Delete_repr (path_of : string -> string) mi m path :
  index_repr path_of mi m -> needRegex path = true \/ Z.of_nat (length (Split path ".")) mod 16 <> 0 ->
  exists err mi', Delete mi path = Some (err, mi') /\
    index_repr path_of mi' (if needRegex path then m else delete path m).
Proof.
  intros Hr Hok. unfold Delete. destruct (needRegex path) eqn:En; [by exists (Some ErrorCannotDeleteByRegex), mi|].
  destruct Hok as [?|Hok]; [done|]. destruct Hr as [Hn Hu Ho (tm & Ht & Hm) Hd Hs Hl].
  pose proof (partition_ok path Hok) as Hb. unfold whichPartition.
  destruct (at_index_Some (dbs mi) (partition_of path)) as (db & Hdb & _); [rewrite Hl; lia|].
  rewrite Hn. destruct (m !! path) as [uid|] eqn:E; rewrite Hdb; cbn [mbind option_bind];
    destruct (db_Delete db _) as [err db']; exists err; eexists; (split; [done|]);
    destruct (Pop_segs (TrieIndex mi) path Hd Hs) as [Hd' Hs'];
    (split; cbn [nameIndex uidIndex TrieIndex dbs]; [ | | | |done|done|by rewrite length_insert]).
  - done.
  - intros uid' p. rewrite !lookup_delete_Some, Hu. split.
    + intros [Hne Hp]. split; [|done]. intros ->. congruence.
    + intros [Hne Hp]. split; [|done]. intros ->. apply Hne. rewrite (Ho _ _ E). symmetry. by apply Ho.
  - intros uid' p Hp. apply lookup_delete_Some in Hp as [_ Hp]. by apply Ho.
  - eexists. split; [by apply Pop_repr|]. intros p. destruct (decide (p = path)) as [->|Hpp].
    + by rewrite !lookup_delete_eq.
    + by rewrite !lookup_delete_ne.
  - by rewrite delete_id.
  - by rewrite delete_id.
  - by rewrite delete_id.
  - eexists. split; [by apply Pop_repr|]. intros p. destruct (decide (p = path)) as [->|Hpp].
    + by rewrite !lookup_delete_eq.
    + by rewrite !lookup_delete_ne.
Qed.

(** *** Runs *)

Inductive index_op :=
| IAdd (uid path : string) (now : Z)
| ISeen (uid : string) (t : Z)
| IDelete (path : string)
| IDeleteByUid (uid : string).

Definition index_exec mi (o : index_op) : option (MetricIndex DB) :=
  match o with
  | IAdd uid path now => Some (Add mi uid path now)
  | ISeen uid t => Some (SetLastSeen mi uid t)
  | IDelete path => snd <$> Delete mi path
  | IDeleteByUid uid => snd <$> DeleteByUid mi uid
  end.

Definition index_run mi (ops : list index_op) : option (MetricIndex DB) :=
  foldl (fun r o => mi ← r; index_exec mi o) (Some mi) ops.

(** The map: the first id of a name stays. *)
Definition index_spec (m : gmap string string) (o : index_op) : gmap string string :=
  match o with
  | IAdd uid path _ => match m !! path with Some _ => m | None => <[path := uid]> m end
  | ISeen _ _ => m
  | IDelete path => if needRegex path then m else delete path m
  | IDeleteByUid uid => filter (fun e => e.2 <> uid \/ needRegex e.1 = true) m
  end.

(** An id belongs to one name; a name to be deleted has a partition. *)
Definition index_op_ok (path_of : string -> string) (o : index_op) : Prop :=
  match o with
  | IAdd uid path _ => path = path_of uid
  | ISeen _ _ => True
  | IDelete path => needRegex path = true \/ Z.of_nat (length (Split path ".")) mod 16 <> 0
  | IDeleteByUid uid => needRegex (path_of uid) = true \/ Z.of_nat (length (Split (path_of uid) ".")) mod 16 <> 0
  end.

Lemma index_exec_repr (path_of : string -> string) mi m o :
  index_repr path_of mi m -> index_op_ok path_of o ->
  exists mi', index_exec mi o = Some mi' /\ index_repr path_of mi' (index_spec m o).
Proof.
  intros Hr Hok. destruct o as [uid path now|uid t|path|uid]; cbn in *.
  - eexists. split; [done|]. by apply Add_repr.
  - eexists. split; [done|]. by apply SetLastSeen_repr.
  - destruct (Delete_repr path_of mi m path Hr Hok) as (err & mi' & -> & Hr'). by exists mi'.
  - unfold DeleteByUid. destruct (uidIndex mi !! uid) as [path|] eqn:E.
    + pose proof (proj1 (ir_uids _ _ _ Hr uid path) E) as Hp. pose proof (ir_of _ _ _ Hr _ _ Hp) as Hpo. rewrite <- Hpo in Hok.
      destruct (Delete_repr path_of mi m path Hr Hok) as (err & mi' & -> & Hr'). exists mi'. split; [done|].
      replace (filter _ m) with (if needRegex path then m else delete path m); [done|].
      apply map_eq. intros p. apply option_eq. intros u. rewrite map_lookup_filter_Some. cbn [fst snd].
      destruct (needRegex path) eqn:En.
      * split; [|by intros []]. intros Hm. split; [done|]. destruct (decide (u = uid)) as [->|]; [|by left]. right.
        rewrite (ir_of _ _ _ Hr _ _ Hm), <- Hpo. done.
      * rewrite lookup_delete_Some. split.
        -- intros [Hne Hm]. split; [done|]. left. intros ->. apply Hne. rewrite Hpo. symmetry. apply (ir_of _ _ _ Hr _ _ Hm).
        -- intros [Hm Hu]. split; [|done]. intros ->. rewrite Hp in Hm. injection Hm as ->. destruct Hu; [done|congruence].
    + exists mi. split; [done|]. replace (filter _ m) with m; [done|]. symmetry. apply map_filter_id. intros p u Hm. left. cbn.
      intros ->. apply (ir_uids _ _ _ Hr) in Hm. congruence.
Qed.

Lemma index_run_repr (path_of : string -> string) mi m ops :
  index_repr path_of mi m -> Forall (index_op_ok path_of) ops ->
  exists mi', index_run mi ops = Some mi' /\ index_repr path_of mi' (foldl index_spec m ops).
Proof.
  intros Hr Hok. revert mi m Hr. induction Hok as [|o ops Ho Hok IH]; intros mi m Hr; [by exists mi|].
  destruct (index_exec_repr path_of mi m o Hr Ho) as (mi1 & E & Hr1). destruct (IH _ _ Hr1) as (mi2 & E2 & Hr2).
  exists mi2. unfold index_run in *. cbn [foldl mbind option_bind]. by rewrite E.
Qed.

Lemma Find_exact mi m (path_of : string -> string) (p uid : string) (hasDataOnly : bool) :
  index_repr path_of mi m -> m !! p = Some uid -> no_char ","%char p = true -> p <> ""%string -> p <> "*"%string ->
  Find mi p hasDataOnly = ([leaf_item (last_segment p) p uid], None).
Proof.
  intros Hr Hp Hc Hne Hs. unfold MetricIndex.Find. rewrite bool_decide_eq_false_2 by done. rewrite splitMetricsPath_one by done.
  cbn [foldl]. unfold find_one. rewrite (ir_names _ _ _ Hr), Hp. rewrite bool_decide_eq_false_2 by set_solver. done.
Qed.

(** C22: the index in memory is a map from names to ids.  Whatever is added,
    seen again and deleted, by name or by id, as long as an id belongs to
    one name and no deleted name has a multiple of sixteen segments: no call
    panics; the table of names is the map made by the same operations, the
    first id of a name staying; the table of ids is its inverse; the trie
    holds exactly these names with their ids; and a name of the map is
    found with its id. *)
Theorem metric_index_refines (path_of : string -> string) (open : Z -> DB + goerror) (mi0 : MetricIndex DB) (ops : list index_op) :
  NewMetricIndex open = inl mi0 -> Forall (index_op_ok path_of) ops ->
  let m := foldl index_spec ∅ ops in
  exists mi, index_run mi0 ops = Some mi /\
    (forall p, nameIndex mi !! p = m !! p) /\
    (forall uid p, uidIndex mi !! uid = Some p <-> m !! p = Some uid) /\
    (forall p, item_Uid <$> Get (TrieIndex mi) p = m !! p) /\
    (forall p uid b, m !! p = Some uid -> no_char ","%char p = true -> p <> ""%string -> p <> "*"%string ->
       Find mi p b = ([leaf_item (last_segment p) p uid], None)).
Proof.
  intros Hnew Hok m. destruct (index_run_repr path_of mi0 ∅ ops) as (mi & E & Hr); [by eapply NewMetricIndex_repr|done|].
  exists mi. split_and!; [done| | | |].
  - intros p. by rewrite (ir_names _ _ _ Hr).
  - apply (ir_uids _ _ _ Hr).
  - intros p. destruct (ir_trie _ _ _ Hr) as (tm & Ht & Hm). by rewrite (trie_get _ _ Ht), Hm.
  - intros p uid b Hp Hc Hne Hs. by eapply Find_exact.
Qed.

End theorems.

(** A database as a list of its entries, for the examples. *)
Record list_iter := mkListIter { li_all : list (string * string); li_pos : Z }.

Definition li_at (it : list_iter) : option (string * string) := at_index (li_all it) (li_pos it).

Definition li_move (it : list_iter) (pos : Z) : bool * list_iter :=
  let it := mkListIter (li_all it) pos in (bool_decide (li_at it <> None), it).

#[export] Instance list_LevelDB : LevelDB (list (string * string)) list_iter := {
  db_NewIterator db prefix := mkListIter (filter (fun e => String.prefix prefix e.1 = true) db) (-1);
  db_Delete db key := (None, filter (fun e => e.1 <> key) db);
  it_Next it := li_move it (li_pos it + 1);
  it_First it := li_move it 0;
  it_Last it := li_move it (Z.of_nat (length (li_all it)) - 1);
  it_Prev it := li_move it (li_pos it - 1);
  it_Seek it key := (false, it);
  it_Key it := fst <$> li_at it;
  it_Value it := snd <$> li_at it;
  it_Error it := None
}.

Definition no_regexp : string -> unit + goerror := fun _ => inr (GoError "no regular expressions").

Definition sample_open : Z -> list (string * string) + goerror := fun _ => inl [].

Definition sample_index : MetricIndex (list (string * string)) :=
  match NewMetricIndex sample_open with inl mi => mi | inr _ => mkIndex ∅ ∅ ∅ [] (New ".") end.

Definition sample_paths (uid : string) : string := if bool_decide (uid = "u1"%string) then "a.b" else "a.c".

Definition sample_ops : list index_op := [IAdd "u1" "a.b" 5; IAdd "u2" "a.c" 6; IAdd "u3" "a.c" 7; IDelete "a.b"].

Lemma metric_index_refines_witness :
  exists mi, index_run sample_index sample_ops = Some mi /\
    (forall p, nameIndex mi !! p = (foldl index_spec ∅ sample_ops) !! p) /\
    Find no_regexp (fun _ _ => true) (fun _ => EOF) (H := list_GoRange) mi "a.c" false = ([leaf_item "c" "a.c" "u2"], None).
Proof.
  destruct (@metric_index_refines list_GoRange _ _ _ _ no_regexp (fun _ _ => true) (fun _ => EOF) sample_paths sample_open
              sample_index sample_ops eq_refl) as (mi & E & Hn & _ & _ & Hf).
  - do 3 (constructor; [reflexivity|]). constructor; [right; vm_compute; discriminate|constructor].
  - exists mi. split; [exact E|]. split; [exact Hn|]. by apply (Hf "a.c"%string "u2"%string false).
Defined.

(** *** Queries with globs *)

Section queries.
Context `{!GoRange} {DB It : Type} `{!LevelDB DB It}.
Context {Regexp : Type} (Compile : string -> Regexp + goerror) (re_Match : Regexp -> string -> bool).
Context (Errorf : list goerror -> goerror).
Implicit Types (mi : MetricIndex DB) (m : gmap string string).

Lemma have_loop_omap (keep : string -> bool) (b : bool) (have : list (string * child_value (V := trieItem)))
    (mt : list MetricFindItem) (seen : gset string) :
  NoDup have.*1 -> (forall k, k ∈ have.*1 -> k ∉ seen) ->
  (have_loop keep b have mt seen).1 = mt ++ omap (fun e => if keep e.1 then child_item b e.1 e.2 else None) have.
Proof.
  revert mt seen. induction have as [|[k v] have IH]; intros mt seen Hnd Hs; [by rewrite app_nil_r|].
  cbn [fmap list_fmap fst] in Hnd. apply NoDup_cons in Hnd as [Hk Hnd]. cbn [have_loop omap list_omap fst snd].
  rewrite bool_decide_eq_false_2 by (apply Hs; left). cbn [orb].
  assert (Hs' : forall k', k' ∈ have.*1 -> k' ∉ seen) by (intros k' Hk'; apply Hs; by right).
  destruct (keep k); cbn [negb]; [|by apply IH]. destruct (child_item b k v) as [ms|]; [|by apply IH].
  rewrite IH, <- (assoc_L (++)); [done|done|]. intros k' Hk'. apply not_elem_of_union. split; [|by apply Hs'].
  intros ->%elem_of_singleton. done.
Qed.

Lemma child_item_path (b : bool) (k : string) (v : child_value (V := trieItem)) (ms : MetricFindItem) :
  child_item b k v = Some ms -> MetricFindItem_Path ms = k.
Proof. destruct v as [c|[i|]]; cbn; [destruct b| |destruct b]; intros; by simplify_eq. Qed.

Lemma items_NoDup (keep : string -> bool) (b : bool) (have : list (string * child_value (V := trieItem))) :
  NoDup have.*1 ->
  NoDup (map MetricFindItem_Path (omap (fun e => if keep e.1 then child_item b e.1 e.2 else None) have)).
Proof.
  induction have as [|[k v] have IH]; intros Hnd; [constructor|]. cbn [fmap list_fmap fst] in Hnd.
  apply NoDup_cons in Hnd as [Hk Hnd]. cbn [omap list_omap fst snd].
  destruct (if keep k then _ else _) as [ms|] eqn:E; [|by apply IH].
  cbn [map]. constructor; [|by apply IH]. intros Hin. apply Hk. destruct (keep k); [|done].
  rewrite (child_item_path _ _ _ _ E) in Hin. apply list_elem_of_fmap in Hin as (ms' & -> & Hin).
  apply list_elem_of_omap in Hin as ([k' v'] & Hin & E'). cbn [fst snd] in E'. destruct (keep k'); [|done].
  rewrite (child_item_path _ _ _ _ E'). apply list_elem_of_fmap. by exists (k', v').
Qed.

(** The item of a child is that of a leaf, or a folder. *)
Lemma child_item_cases (b : bool) (k : string) (v : child_value (V := trieItem)) (ms : MetricFindItem) :
  child_item b k v = Some ms <->
  (exists item, v = CValue (Some item) /\ ms = leaf_item (last_segment k) k (item_Uid item)) \/
  (b = false /\ (forall item, v <> CValue (Some item)) /\ ms = folder_item (last_segment k) k).
Proof. destruct v as [c|[i|]]; cbn; [destruct b| |destruct b]; naive_solver. Qed.

Lemma trie_query_stars (q : string) :
  has_any q "*?[{^$}])(" = true -> Split (toTrieQuery q) "." = replicate (length (Split q ".")) "*"%string.
Proof.
  intros Hq. unfold toTrieQuery. rewrite Hq.
  assert (E : map (fun spl : string => if true then "*"%string else spl) (Split q ".") = replicate (length (Split q ".")) "*"%string).
  { induction (Split q "."); [done|]. cbn. by f_equal. }
  rewrite E. apply (Split_Join "."%char).
  - pose proof (Split_nonempty q "."). by destruct (Split q ".").
  - by apply Forall_replicate.
Qed.

Lemma stars_match (n : nat) (path : list string) : Forall2 seg_match (replicate n "*"%string) path <-> length path = n.
Proof.
  split.
  - intros Hl%Forall2_length. by rewrite length_replicate in Hl.
  - intros <-. induction path; [constructor|]. constructor; [by left|done].
Qed.

(** No node of the trie is below the name. *)
Definition childless mi (p : string) : Prop := forall s, node (root (TrieIndex mi)) (Split p "." ++ [s]) = None.

Lemma children_empty (nd : Tree trieItem) : children nd = ∅ <-> forall s, node nd [s] = None.
Proof.
  split.
  - intros Hc s. simpl. by rewrite Hc, lookup_empty.
  - intros Hn. apply map_eq. intros s. rewrite lookup_empty. specialize (Hn s). simpl in Hn. by destruct (children nd !! s).
Qed.

Lemma index_nodes_inj (path_of : string -> string) mi m : index_repr path_of mi m -> nodes_inj "." [] (root (TrieIndex mi)).
Proof.
  intros Hr p p' Hp Hp' Hl Hj. cbn [app] in Hj. apply (ir_segs _ _ _ Hr) in Hp, Hp'.
  destruct p as [|s p]; [by destruct p'|]. destruct p' as [|s' p']; [done|].
  change "."%string with (sep1 "."%char) in Hj. apply (f_equal (fun x => Split x (sep1 "."%char))) in Hj.
  by rewrite !Split_Join in Hj.
Qed.

(** What the trie has at a depth. *)
Lemma stars_children (path_of : string -> string) mi m (q k : string) (cv : child_value (V := trieItem)) :
  index_repr path_of mi m -> has_any q "*?[{^$}])(" = true ->
  ChildrenFlat (TrieIndex mi) (toTrieQuery q) !! k = Some cv <->
  exists nd, node (root (TrieIndex mi)) (Split k ".") = Some nd /\ length (Split k ".") = length (Split q ".") /\ cv = child_of nd.
Proof.
  intros Hr Hq. rewrite ChildrenFlat_is_Children. unfold Children. rewrite (ir_delim _ _ _ Hr), trie_query_stars by done.
  rewrite children_lookup by (by eapply index_nodes_inj). split.
  - intros (path & nd & -> & HF & Hn & ->). apply stars_match in HF. exists nd. cbn [app].
    assert (Hf : Forall (fun s => no_char "."%char s = true) path) by (apply (ir_segs _ _ _ Hr); by eexists).
    assert (Es : Split (Join path ".") "." = path); [|by rewrite Es].
    apply (Split_Join "."%char); [|done]. intros ->. pose proof (Split_nonempty q "."). by destruct (Split q ".").
  - intros (nd & Hn & Hl & ->). exists (Split k "."), nd. cbn [app]. rewrite Join_Split by done.
    split_and!; [done|by apply stars_match|done|done].
Qed.

(** A leaf of the trie is a name of the map without a node below it. *)
Lemma leaf_name (path_of : string -> string) mi m (k uid : string) :
  index_repr path_of mi m ->
  (exists nd item, node (root (TrieIndex mi)) (Split k ".") = Some nd /\ child_of nd = CValue (Some item) /\ item_Uid item = uid) <->
  m !! k = Some uid /\ childless mi k.
Proof.
  intros Hr. destruct (ir_trie _ _ _ Hr) as (tm & Ht & Hm). pose proof (trie_get _ _ Ht k) as Hg.
  rewrite Get_tval, (ir_delim _ _ _ Hr), tval_node in Hg. unfold childless. split.
  - intros (nd & item & Hn & Hc & <-). unfold child_of in Hc. case_bool_decide as Hch; [|done]. injection Hc as Hv.
    rewrite Hn in Hg. cbn [mbind option_bind] in Hg. rewrite Hv in Hg. split; [by rewrite <- Hm, <- Hg|].
    intros s. rewrite node_app, Hn. cbn [mbind option_bind]. by apply children_empty.
  - intros [Hk Hch]. rewrite <- Hm in Hk. destruct (tm !! k) as [item|]; [|done]. cbn in Hk. injection Hk as <-.
    destruct (node (root (TrieIndex mi)) (Split k ".")) as [nd|] eqn:Hn; [|done]. cbn [mbind option_bind] in Hg.
    exists nd, item. split_and!; [done| |done]. unfold child_of. rewrite bool_decide_eq_true_2; [by rewrite Hg|].
    apply children_empty. intros s. specialize (Hch s). by rewrite node_app, Hn in Hch.
Qed.

(** C30: a glob is answered from the trie.  In an index made by any run, a
    query with a glob that is no name itself and whose regular expression
    compiles gives an answer without an error, each path once, in which an
    item with data stands for a name of the map with as many segments as
    the query, that the expression matches and below which there is no node
    of the trie, with its id; every such name is in the answer; and when not
    only data are wanted the other items are the nodes of that depth that
    the expression matches and that are no such names, as folders. *)
Theorem glob_answers (path_of : string -> string) (open : Z -> DB + goerror) (mi0 mi : MetricIndex DB) (ops : list index_op)
    (q : string) (reg : Regexp) (b : bool) :
  NewMetricIndex open = inl mi0 -> Forall (index_op_ok path_of) ops -> index_run mi0 ops = Some mi ->
  let m := foldl index_spec ∅ ops in
  q <> "*"%string -> no_char ","%char q = true -> m !! q = None -> needRegex q = true -> has_any q "*?[{^$}])(" = true ->
  Compile (fullRegString q) = inl reg ->
  exists items, Find Compile re_Match Errorf mi q b = (items, None) /\ NoDup (map MetricFindItem_Path items) /\
    forall ms, ms ∈ items <->
      exists k, length (Split k ".") = length (Split q ".") /\ re_Match reg k = true /\
        ((exists uid, m !! k = Some uid /\ childless mi k /\ ms = leaf_item (last_segment k) k uid) \/
         (b = false /\ ~ (is_Some (m !! k) /\ childless mi k) /\ is_Some (node (root (TrieIndex mi)) (Split k ".")) /\
          ms = folder_item (last_segment k) k)).
Proof.
  intros Hnew Hok Hrun m Hq1 Hc Hm Hreg Hstar Hcomp.
  destruct (index_run_repr path_of mi0 ∅ ops) as (mi' & E & Hr); [by eapply NewMetricIndex_repr|done|].
  rewrite Hrun in E. injection E as <-. fold m in Hr.
  assert (Hne : q <> ""%string) by (intros ->; done).
  unfold Find. rewrite bool_decide_eq_false_2 by done. rewrite splitMetricsPath_one by done. cbn [foldl].
  unfold find_one. rewrite (ir_names _ _ _ Hr), Hm, Hreg. unfold regifyKey. rewrite Hcomp.
  set (have := range (ChildrenFlat (TrieIndex mi) (toTrieQuery q))).
  pose proof (range_perm (ChildrenFlat (TrieIndex mi) (toTrieQuery q))) as Hp. fold have in Hp.
  assert (Hnd : NoDup have.*1) by (rewrite Hp; apply NoDup_fst_map_to_list).
  pose proof (have_loop_omap (re_Match reg) b have [] ∅ Hnd ltac:(set_solver)) as Hl.
  destruct (have_loop (re_Match reg) b have [] ∅) as [mt seen]. cbn [fst app] in Hl. subst mt.
  eexists. split; [done|]. split; [by apply items_NoDup|].
  intros ms. rewrite list_elem_of_omap.
  assert (Hin : forall e, e ∈ have <-> ChildrenFlat (TrieIndex mi) (toTrieQuery q) !! e.1 = Some e.2).
  { intros [k v]. rewrite Hp. apply elem_of_map_to_list. }
  setoid_rewrite Hin. split.
  - intros ([k v] & Hk & He). cbn [fst snd] in *. apply (stars_children path_of mi m q k v Hr Hstar) in Hk as (nd & Hn & Hlen & ->).
    destruct (re_Match reg k) eqn:Hmatch; [|done]. exists k. split_and!; [done|done|].
    apply child_item_cases in He as [(item & Hcd & ->)|(-> & Hcd & ->)]; [left|right].
    + exists (item_Uid item). destruct (proj1 (leaf_name path_of mi m k (item_Uid item) Hr)) as [Hu Hch]; [by exists nd, item|done].
    + split_and!; [done| |by eexists|done]. intros [[uid Hu] Hch].
      destruct (proj2 (leaf_name path_of mi m k uid Hr) (conj Hu Hch)) as (nd' & item & Hn' & Hc' & _).
      apply (Hcd item). congruence.
  - intros (k & Hlen & Hmatch & Hcase). destruct Hcase as [(uid & Hu & Hch & ->)|(-> & Hno & [nd Hn] & ->)].
    + destruct (proj2 (leaf_name path_of mi m k uid Hr) (conj Hu Hch)) as (nd & item & Hn & Hcd & <-).
      exists (k, child_of nd). cbn [fst snd]. rewrite Hmatch, (stars_children path_of mi m q k _ Hr Hstar), child_item_cases.
      split; [by exists nd|]. left. by exists item.
    + exists (k, child_of nd). cbn [fst snd]. rewrite Hmatch, (stars_children path_of mi m q k _ Hr Hstar), child_item_cases.
      split; [by exists nd|]. right. split_and!; [done| |done]. intros item Hcd. apply Hno.
      destruct (proj1 (leaf_name path_of mi m k (item_Uid item) Hr)) as [Hu Hch]; [by exists nd, item|]. split; [by eexists|done].
Qed.

End queries.

(** Every text matches. *)
Definition any_regexp : string -> unit + goerror := fun _ => inl tt.

Definition sample_added : list index_op := [IAdd "u1" "a.b" 5; IAdd "u2" "a.c" 6; IAdd "u4" "a.b.x" 6].

Definition sample_paths2 (uid : string) : string :=
  if bool_decide (uid = "u1"%string) then "a.b" else if bool_decide (uid = "u4"%string) then "a.b.x" else "a.c".

Definition sample_mi : MetricIndex (list (string * string)) := default sample_index (index_run sample_index sample_added).

Lemma sample_mi_run : index_run sample_index sample_added = Some sample_mi.
Proof. vm_compute. reflexivity. Qed.

Lemma sample_childless : childless sample_mi "a.c" /\ ~ childless sample_mi "a.b".
Proof. split; [intros s; vm_compute; reflexivity|]. intros Hch. specialize (Hch "x"%string). vm_compute in Hch. discriminate Hch. Qed.

Lemma sample_names : foldl index_spec ∅ sample_added !! "a.c"%string = Some "u2"%string.
Proof. vm_compute. reflexivity. Qed.

Lemma glob_answers_witness :
  exists items, Find any_regexp (fun _ _ => true) (fun _ => EOF) (H := list_GoRange) sample_mi "a.*" true = (items, None) /\
    leaf_item "c" "a.c" "u2" ∈ items /\ ~ leaf_item "b" "a.b" "u1" ∈ items.
Proof.
  destruct (@glob_answers list_GoRange _ _ _ _ any_regexp (fun _ _ => true) (fun _ => EOF) sample_paths2 sample_open
              sample_index sample_mi sample_added "a.*" tt true eq_refl
              ltac:(do 3 (constructor; [reflexivity|]); constructor) sample_mi_run ltac:(discriminate)
              eq_refl eq_refl eq_refl eq_refl eq_refl) as (items & Ef & _ & Hi).
  exists items. split; [exact Ef|]. destruct sample_childless as [Hc Hb]. split.
  - apply (proj2 (Hi (leaf_item "c" "a.c" "u2"))). exists "a.c"%string. split; [reflexivity|]. split; [reflexivity|]. left.
    exists "u2"%string. split; [exact sample_names|]. split; [exact Hc|reflexivity].
  - intros Hin. destruct (proj1 (Hi _) Hin) as (k & _ & _ & [(uid & _ & Hch & Ek)|[Hf _]]); [|discriminate Hf].
    apply Hb. pose proof (f_equal MetricFindItem_Path Ek) as Hk. cbn in Hk. rewrite Hk. exact Hch.
Defined.

(** A list of two names is answered with the first, under the whole query. *)
Example find_query_list :
  (mi ← index_run sample_index sample_added;
   Some (Find any_regexp (fun _ _ => true) (fun _ => EOF) (H := list_GoRange) mi "a.b,a.c" true)) =
  Some ([leaf_item "b" "a.b,a.c" "u1"], None).
Proof. reflexivity. Qed.

(** A name of one segment is shown as a folder at the root. *)
Example root_leaf_is_folder :
  FindRoot (H := list_GoRange) (Add sample_index "u9" "solo" 1) = [folder_item "solo" "solo"].
Proof. reflexivity. Qed.

(** Going over two databases with an entry each passes an entry that is
    none. *)
Fixpoint all_keys (fuel : nat) (a : AllIterator (list (string * string)) list_iter) : list (option string) :=
  match fuel with
  | O => []
  | S fuel => match all_Next a with Some (true, a) => all_Key a :: all_keys fuel a | _ => [] end
  end.

Example all_iterator_gap :
  from_option (all_keys 9) [] (NewAllIter [[("0:a", "1")]; [("1:a.b", "2")]]%string "") =
  [Some "0:a"; None; Some "1:a.b"]%string.
Proof. reflexivity. Qed.

(** *** Expiry *)

Section expiry.
Context `{!GoRange} {DB It : Type} `{!LevelDB DB It}.
Implicit Types (mi : MetricIndex DB) (l : list (string * string)).

Lemma lookup_cull {A} (m : gmap string A) (q u : string) (us : list string) :
  (if decide (q ∈ us) then None else delete u m !! q) = if decide (q ∈ u :: us) then None else m !! q.
Proof.
  destruct (decide (q ∈ us)) as [Hq|Hq]; [by rewrite decide_True by (by right)|].
  destruct (decide (q = u)) as [->|Hne]; [by rewrite lookup_delete_eq, decide_True by left|].
  rewrite lookup_delete_ne, decide_False; [done| |done]. by rewrite not_elem_of_cons.
Qed.

Lemma cull_list mi l (tm : gmap string trieItem) :
  trie_repr (TrieIndex mi) tm ->
  let mi' := foldl cull_one mi l in
  (forall p, nameIndex mi' !! p = if decide (p ∈ l.*1) then None else nameIndex mi !! p) /\
  (forall u, uidIndex mi' !! u = if decide (u ∈ l.*1) then None else uidIndex mi !! u) /\
  (forall p, Get (TrieIndex mi') p = if decide (p ∈ l.*2) then None else Get (TrieIndex mi) p) /\
  (exists tm', trie_repr (TrieIndex mi') tm').
Proof.
  revert mi tm. induction l as [|[u p] l IH]; intros mi tm Ht; cbn zeta.
  { split_and!; try done. by exists tm. }
  cbn [foldl]. destruct (Pop_repr (TrieIndex mi) tm p Ht) as [_ Ht1].
  destruct (IH (cull_one mi (u, p)) (delete p tm) Ht1) as (Hn & Hu & Hg & Hr). split_and!; [| | |done].
  - intros q. rewrite Hn. cbn [cull_one nameIndex fmap list_fmap fst]. apply lookup_cull.
  - intros q. rewrite Hu. cbn [cull_one uidIndex fmap list_fmap fst]. apply lookup_cull.
  - intros q. rewrite Hg. cbn [cull_one TrieIndex fmap list_fmap snd]. rewrite (trie_get _ _ Ht1), (trie_get _ _ Ht).
    apply lookup_cull.
Qed.

(** Adding what the table of names has does not bring it back. *)
Lemma adds_keep (path_of : string -> string) mi (uid path : string) (adds : list (string * Z)) :
  path = path_of uid -> nameIndex mi !! path = Some uid -> uidIndex mi !! uid = None -> Get (TrieIndex mi) path = None ->
  (exists tm, trie_repr (TrieIndex mi) tm) ->
  let mi' := foldl (fun mi a => Add mi a.1 (path_of a.1) a.2) mi adds in
  nameIndex mi' !! path = Some uid /\ uidIndex mi' !! uid = None /\ Get (TrieIndex mi') path = None.
Proof.
  intros Hp. revert mi. induction adds as [|[u now] adds IH]; intros mi Hn Hu Hg [tm Ht]; cbn zeta; [done|]. cbn [foldl fst snd].
  apply IH; unfold Add; destruct (nameIndex mi !! path_of u) as [old|] eqn:E; cbn; try done.
  - rewrite lookup_insert_ne; [done|]. congruence.
  - rewrite lookup_insert_ne; [done|]. intros ->. congruence.
  - pose proof (Put_repr (TrieIndex mi) tm (path_of u) (mkTrieItem u now (path_of u)) Ht) as Ht'.
    rewrite (trie_get _ _ Ht'), lookup_insert_ne by congruence. by rewrite <- (trie_get _ _ Ht).
  - by exists tm.
  - eexists. by apply Put_repr.
Qed.

(** what expires never comes back.  [CullExpired] takes out of the
    table of ids and of the trie exactly the ids that were not seen again
    since the limit, among them every metric that was added only once,
    however recently, since an addition does not count as seeing it.  The
    table of names keeps it, so that it is taken for indexed: however often
    it is added later, it stays out of the trie and of the table of ids.
    The ids seen since the limit keep their names. *)
Theorem cull_is_final (path_of : string -> string) (open : Z -> DB + goerror) (mi0 mi : MetricIndex DB) (ops : list index_op)
    (dur now : Z) :
  NewMetricIndex open = inl mi0 -> Forall (index_op_ok path_of) ops -> index_run mi0 ops = Some mi -> 0 < dur ->
  let '(gone, mi1) := CullExpired mi dur now in
  (forall uid path, gone !! uid = Some path <->
     uidIndex mi !! uid = Some path /\ (forall t, lastHit mi !! uid = Some t -> t < now - dur)) /\
  (forall uid path, gone !! uid = Some path -> gone !! path = None -> forall adds : list (string * Z),
     let mi2 := foldl (fun mi a => Add mi a.1 (path_of a.1) a.2) mi1 adds in
     Contains mi2 path = uid /\ ContainsUid mi2 uid = ""%string /\ FindByUid mi2 uid = [] /\ Get (TrieIndex mi2) path = None) /\
  (forall uid path, uidIndex mi !! uid = Some path -> gone !! uid = None ->
     uidIndex mi1 !! uid = Some path /\ Get (TrieIndex mi1) path = Get (TrieIndex mi) path).
Proof.
  intros Hnew Hok Hrun Hdur. destruct (index_run_repr path_of mi0 ∅ ops) as (mi' & E & Hr); [by eapply NewMetricIndex_repr|done|].
  rewrite Hrun in E. injection E as <-. unfold CullExpired. if_true.
  set (gone := filter _ (uidIndex mi)). set (l := range gone).
  destruct (ir_trie _ _ _ Hr) as (tm & Ht & _). destruct (cull_list mi l tm Ht) as (Hn & Hu & Hg & Hrep).
  assert (Hl : forall u p, (u, p) ∈ l <-> gone !! u = Some p).
  { intros u p. unfold l. rewrite range_perm. apply elem_of_map_to_list. }
  assert (Hl1 : forall u, u ∈ l.*1 <-> is_Some (gone !! u)).
  { intros u. rewrite list_elem_of_fmap. split.
    - intros ([u' p] & -> & Hin). exists p. by apply Hl.
    - intros [p Hp]. exists (u, p). split; [done|]. by apply Hl. }
  assert (Hgone : forall uid path, gone !! uid = Some path <->
     uidIndex mi !! uid = Some path /\ (forall t, lastHit mi !! uid = Some t -> t < now - dur)).
  { intros uid path. unfold gone. rewrite map_lookup_filter_Some. cbn [fst]. apply and_iff_compat_l. unfold expired.
    destruct (lastHit mi !! uid) as [t|]; [|naive_solver]. rewrite Z.ltb_lt. naive_solver lia. }
  split_and!; [done| |].
  - intros uid path Hgo Hnp adds. pose proof (proj1 (Hgone _ _) Hgo) as [Hui _].
    pose proof (proj1 (ir_uids _ _ _ Hr uid path) Hui) as Hm.
    destruct (adds_keep path_of (foldl cull_one mi l) uid path adds) as (H1 & H2 & H3); [by apply (ir_of _ _ _ Hr)| | | |done|].
    + rewrite Hn, decide_False; [by rewrite (ir_names _ _ _ Hr)|]. rewrite Hl1, Hnp. by intros [].
    + rewrite Hu, decide_True; [done|]. rewrite Hl1, Hgo. by eexists.
    + rewrite Hg, decide_True; [done|]. apply list_elem_of_fmap. exists (uid, path). split; [done|]. by apply Hl.
    + unfold Contains, ContainsUid, FindByUid. by rewrite H1, H2, H3.
  - intros uid path Hui Hno. rewrite Hu, decide_False; [|rewrite Hl1, Hno; by intros []]. split; [done|].
    rewrite Hg, decide_False; [done|]. intros ([u p] & -> & Hin)%list_elem_of_fmap. apply Hl in Hin.
    pose proof (proj1 (Hgone _ _) Hin) as [Hui' _]. apply (ir_uids _ _ _ Hr) in Hui, Hui'. cbn in Hui. congruence.
Qed.

End expiry.

Lemma cull_is_final_witness :
  exists mi gone mi1, index_run sample_index [IAdd "u1" "a.b" 100] = Some mi /\
    CullExpired (H := list_GoRange) mi 48 101 = (gone, mi1) /\ gone !! "u1"%string = Some "a.b"%string /\
    FindByUid (Add mi1 "u1" "a.b" 102) "u1" = [].
Proof.
  destruct (index_run sample_index [IAdd "u1" "a.b" 100]) as [mi|] eqn:E; [|vm_compute in E; discriminate E].
  pose proof (@cull_is_final list_GoRange _ _ _ sample_paths sample_open sample_index mi [IAdd "u1" "a.b" 100] 48 101 eq_refl
                ltac:(constructor; [reflexivity|constructor]) E ltac:(lia)) as Hc.
  destruct (@CullExpired list_GoRange _ mi 48 101) as [gone mi1] eqn:Ec. destruct Hc as (Hgone & Hlost & _).
  assert (Hin : gone !! "u1"%string = Some "a.b"%string).
  { apply Hgone. vm_compute in E. injection E as <-. split; [reflexivity|]. intros t Ht. discriminate Ht. }
  exists mi, gone, mi1. split; [reflexivity|]. split; [exact Ec|]. split; [exact Hin|].
  destruct (Hlost _ _ Hin) with (adds := [("u1"%string, 102)]) as (_ & _ & Hf & _); [|exact Hf].
  destruct (gone !! "a.b"%string) eqn:Eg; [|reflexivity]. apply Hgone in Eg as [Eg _]. vm_compute in E. injection E as <-. discriminate Eg.
Defined.
