(* ===== verification/TagIndex.v ===== *)
(** [writers/indexer/tag_ram.go]: the index of tags in memory.

    Three tables: the values of a name, the ids of a tag and the tags of an
    id.  The methods that answer queries take the read lock of a table twice
    and never release it (their [defer] locks again), so the locks are part
    of the state: the number of read locks held on the table of names and on
    that of ids.  A method that needs to write then waits for ever, and
    [Hangs] is its result.  The third lock is always released. *)
From S2P Require Import Prelude GoStrings GoParse Tags TagsTheorems Wire RawData Messages IndexUtils.

Open Scope Z_scope.

Inductive call (A : Type) := Returns (a : A) | Hangs.
Arguments Returns {A} a.
Arguments Hangs {A}.

Record TagIndex := mkTagIndex {
  ti_nameIndex : gmap string (list string);
  ti_nmLock : Z;
  ti_uidIndex : gmap string (list string);
  ti_uidLock : Z;
  ti_uidInvertIndex : gmap string (list Tag)
}.

Definition NewTagIndex : TagIndex := mkTagIndex ∅ 0 ∅ 0 ∅.

(** [strings.EqualFold] of ASCII texts. *)
Definition EqualFold (s t : string) : bool := bool_decide (ToLower s = ToLower t).

Definition name_value (t : Tag) : string := tag_Name t +:+ "=" +:+ tag_Value t.

(** Add the value to those of the name. *)
Definition add_value (names : gmap string (list string)) (t : Tag) : gmap string (list string) :=
  match names !! tag_Name t with
  | Some g => if bool_decide (tag_Value t ∈ g) then names else <[tag_Name t := g ++ [tag_Value t]]> names
  | None => <[tag_Name t := [tag_Value t]]> names
  end.

(** A turn of the loop of [Add]: the first tag of a new id replaces the
    ids of the tag. *)
Definition add_tag (uid : string) (tv : TagIndex) (t : Tag) : call TagIndex :=
  let nv := name_value t in
  match ti_uidInvertIndex tv !! uid with
  | None =>
      if (ti_uidLock tv >? 0) || (ti_nmLock tv >? 0) then Hangs
      else
        Returns (mkTagIndex (add_value (ti_nameIndex tv) t) (ti_nmLock tv) (<[nv := [uid]]> (ti_uidIndex tv)) (ti_uidLock tv)
                   (<[uid := [t]]> (ti_uidInvertIndex tv)))
  | Some ts =>
      if (ti_nmLock tv >? 0) || (ti_uidLock tv >? 0) then Hangs
      else
        Returns (mkTagIndex (add_value (ti_nameIndex tv) t) (ti_nmLock tv)
                   (<[nv := default [] (ti_uidIndex tv !! nv) ++ [uid]]> (ti_uidIndex tv)) (ti_uidLock tv)
                   (<[uid := ts ++ [t]]> (ti_uidInvertIndex tv)))
  end.

Fixpoint tags_Add (tv : TagIndex) (uid : string) (tags : SortingTags) : call TagIndex :=
  match tags with
  | [] => Returns tv
  | t :: tags => match add_tag uid tv t with Returns tv => tags_Add tv uid tags | Hangs => Hangs end
  end.

(** Take the id out of the ids of the tag. *)
Definition drop_uid (uid : string) (uids : gmap string (list string)) (t : Tag) : gmap string (list string) :=
  match uids !! name_value t with
  | Some l => <[name_value t := filter (fun u => u <> uid) l]> uids
  | None => uids
  end.

Definition tags_DeleteByUid (tv : TagIndex) (uid : string) : call TagIndex :=
  if ti_uidLock tv >? 0 then Hangs
  else
    match ti_uidInvertIndex tv !! uid with
    | Some tags =>
        Returns (mkTagIndex (ti_nameIndex tv) (ti_nmLock tv) (foldl (drop_uid uid) (ti_uidIndex tv) tags) (ti_uidLock tv)
                   (delete uid (ti_uidInvertIndex tv)))
    | None => Returns tv
    end.

Definition FindTagsByUid (tv : TagIndex) (uid : string) : SortingTags := default [] (ti_uidInvertIndex tv !! uid).

(** [RLock(); defer RLock()]. *)
Definition lock_names (tv : TagIndex) : TagIndex :=
  mkTagIndex (ti_nameIndex tv) (ti_nmLock tv + 2) (ti_uidIndex tv) (ti_uidLock tv) (ti_uidInvertIndex tv).
Definition lock_uids (tv : TagIndex) : TagIndex :=
  mkTagIndex (ti_nameIndex tv) (ti_nmLock tv) (ti_uidIndex tv) (ti_uidLock tv + 2) (ti_uidInvertIndex tv).

Section queries.
Context `{!GoRange}.
(** Regular expressions. *)
Context {Regexp : Type} (Compile : string -> Regexp + goerror) (re_Match : Regexp -> string -> bool).

Definition tag_item (nm val : string) : MetricTagItem := mkMetricTagItem "" nm val false.

(** The names with their values that a query asks for. *)
Definition names_of (tv : TagIndex) (nm : string) : list (string * list string) + goerror :=
  match (if needRegex nm then None else ti_nameIndex tv !! nm) with
  | Some g => inl [(nm, g)]
  | None =>
      match regifyKey Compile nm with
      | inr err => inr err
      | inl reg => inl (filter (fun e => re_Match reg e.1 = true) (range (ti_nameIndex tv)))
      end
  end.

Definition GetTagsByName (tv : TagIndex) (nm : string) : (list MetricTagItem + goerror) * TagIndex :=
  (match names_of tv nm with
   | inl l => inl (l ≫= (fun e => map (tag_item e.1) e.2))
   | inr err => inr err
   end, lock_names tv).

Definition FindTagValuesByName (tv : TagIndex) (nm : string) : (list string + goerror) * TagIndex :=
  (match names_of tv nm with inl l => inl (l ≫= snd) | inr err => inr err end, lock_names tv).

(** The values of a name that a query asks for. *)
Definition values_of (tv : TagIndex) (nm value : string) : list string + goerror :=
  match ti_nameIndex tv !! nm with
  | None => inl []
  | Some gotNm =>
      if needRegex value then
        match regifyKey Compile value with
        | inr err => inr err
        | inl reg => inl (filter (fun v => re_Match reg v = true) gotNm)
        end
      else inl (filter (fun v => EqualFold v value = true) gotNm)
  end.

Definition FindTagsByValue (tv : TagIndex) (nm value : string) : (list Tag + goerror) * TagIndex :=
  (match values_of tv nm value with inl l => inl (map (mkTag nm) l) | inr err => inr err end, lock_names tv).

Definition GetTagsByNameValue (tv : TagIndex) (nm value : string) : (list MetricTagItem + goerror) * TagIndex :=
  (match values_of tv nm value with inl l => inl (map (tag_item nm) l) | inr err => inr err end, lock_names tv).

Definition FindUidByTag (tv : TagIndex) (tag : Tag) : list string * TagIndex :=
  (default [] (ti_uidIndex tv !! name_value tag), lock_uids tv).

(** The loops of [FindUidByTags] with what was seen. *)
Definition see_uid (st : list string * gset string) (uid : string) : list string * gset string :=
  let '(out, seen) := st in if bool_decide (uid ∈ seen) then st else (out ++ [uid], {[uid]} ∪ seen).

Definition see_tag (tv : TagIndex) (st : list string * gset string) (tag : Tag) : list string * gset string :=
  match ti_uidIndex tv !! name_value tag with
  | None => st
  | Some g => foldl see_uid st g
  end.

Definition FindUidByTags (tv : TagIndex) (tags : SortingTags) : list string * TagIndex :=
  ((foldl (see_tag tv) ([], ∅) tags).1, lock_uids tv).

End queries.

(** ** Theorems *)

(** *** Values of a name *)

Lemma add_value_lookup (names : gmap string (list string)) (t : Tag) (nm : string) :
  default [] (add_value names t !! nm) =
    (if decide (tag_Name t = nm)
     then (if bool_decide (tag_Value t ∈ default [] (names !! nm)) then default [] (names !! nm)
           else default [] (names !! nm) ++ [tag_Value t])
     else default [] (names !! nm)).
Proof.
  unfold add_value. destruct (decide (tag_Name t = nm)) as [<-|Hne].
  - destruct (names !! tag_Name t) as [g|] eqn:E; cbn.
    + case_bool_decide; [by rewrite E|by rewrite lookup_insert_eq].
    + rewrite lookup_insert_eq. cbn. by rewrite bool_decide_eq_false_2 by apply not_elem_of_nil.
  - destruct (names !! tag_Name t); [case_bool_decide|]; by rewrite ?lookup_insert_ne by done.
Qed.

(** The distinct values of a name, in the order in which they came. *)
Definition values (ts : list Tag) (nm : string) : list string :=
  foldl (fun vs t => if decide (tag_Name t = nm) then (if bool_decide (tag_Value t ∈ vs) then vs else vs ++ [tag_Value t]) else vs) [] ts.

Lemma value_list_spec (ts : list Tag) (nm v : string) : v ∈ values ts nm <-> mkTag nm v ∈ ts.
Proof.
  unfold values. revert v. induction ts as [|t ts IH] using rev_ind; intros v; [cbn; set_solver|]. rewrite foldl_snoc, elem_of_app, list_elem_of_singleton.
  destruct t as [n w]. cbn [tag_Name tag_Value]. case_decide as Hn; [subst n|].
  - case_bool_decide as Hw; rewrite ?elem_of_app, ?list_elem_of_singleton, IH.
    + rewrite IH in Hw. naive_solver.
    + naive_solver.
  - rewrite IH. naive_solver.
Qed.

Lemma values_NoDup (ts : list Tag) (nm : string) : NoDup (values ts nm).
Proof.
  unfold values. induction ts as [|t ts IH] using rev_ind; [constructor|]. rewrite foldl_snoc. case_decide; [|done].
  case_bool_decide; [done|]. apply NoDup_app. split_and!; [done|set_solver|apply NoDup_singleton].
Qed.

(** *** Runs of additions and deletions *)

Inductive tag_op := TAdd (uid : string) (tags : list Tag) | TDelete (uid : string).

Definition tag_exec (tv : TagIndex) (o : tag_op) : call TagIndex :=
  match o with TAdd uid tags => tags_Add tv uid tags | TDelete uid => tags_DeleteByUid tv uid end.

Fixpoint tag_run (tv : TagIndex) (ops : list tag_op) : call TagIndex :=
  match ops with
  | [] => Returns tv
  | o :: ops => match tag_exec tv o with Returns tv => tag_run tv ops | Hangs => Hangs end
  end.

(** All the tags given, and those of an id since it was last deleted. *)
Definition given (ops : list tag_op) : list Tag := ops ≫= (fun o => match o with TAdd _ tags => tags | TDelete _ => [] end).

Definition own_tags (uid : string) (ts : list Tag) (o : tag_op) : list Tag :=
  match o with
  | TAdd u tags => if decide (u = uid) then ts ++ tags else ts
  | TDelete u => if decide (u = uid) then [] else ts
  end.

(** The index after some tags: nothing is locked; [all] were given, and
    [own] are those of the ids. *)
Record tags_repr (tv : TagIndex) (all : list Tag) (own : string -> list Tag) : Prop := {
  tr_nm : ti_nmLock tv = 0;
  tr_uid : ti_uidLock tv = 0;
  tr_names : forall nm, default [] (ti_nameIndex tv !! nm) = values all nm;
  tr_own : forall u, default [] (ti_uidInvertIndex tv !! u) = own u;
  tr_some : forall u ts, ti_uidInvertIndex tv !! u = Some ts -> ts <> [];
  tr_sound : forall nv u, u ∈ default [] (ti_uidIndex tv !! nv) -> exists t, t ∈ own u /\ name_value t = nv
}.

Lemma default_insert {A} (m : gmap string (list A)) (k k' : string) (l : list A) :
  default [] (<[k := l]> m !! k') = if decide (k = k') then l else default [] (m !! k').
Proof. destruct (decide (k = k')) as [->|]; [by rewrite lookup_insert_eq|by rewrite lookup_insert_ne]. Qed.

Lemma add_tag_repr (tv : TagIndex) (all : list Tag) (own : string -> list Tag) (uid : string) (t : Tag) :
  tags_repr tv all own ->
  exists tv', add_tag uid tv t = Returns tv' /\
    tags_repr tv' (all ++ [t]) (fun u => if decide (uid = u) then own u ++ [t] else own u) /\
    uid ∈ default [] (ti_uidIndex tv' !! name_value t) /\
    (own uid <> [] -> forall nv u, u ∈ default [] (ti_uidIndex tv !! nv) -> u ∈ default [] (ti_uidIndex tv' !! nv)).
Proof.
  intros [Hnm Hui Hn Ho Hs Hsd]. unfold add_tag. rewrite Hnm, Hui. cbn [Z.gtb Z.compare orb].
  assert (Hvals : forall nm, default [] (add_value (ti_nameIndex tv) t !! nm) = values (all ++ [t]) nm).
  { intros nm. rewrite add_value_lookup, Hn. unfold values. by rewrite foldl_snoc. }
  destruct (ti_uidInvertIndex tv !! uid) as [ts|] eqn:E; eexists; (split; [done|]); split_and!.
  - split; cbn; try done.
    + intros u. rewrite default_insert, Ho. case_decide as Hu; [|done]. subst u. by rewrite <- Ho, E.
    + intros u ts'. destruct (decide (uid = u)) as [->|]; [rewrite lookup_insert_eq|rewrite lookup_insert_ne by done; apply Hs].
      intros. simplify_eq. by destruct ts.
    + intros nv u. rewrite default_insert. case_decide as Hnv.
      * rewrite elem_of_app, list_elem_of_singleton. intros [Hu| ->].
        -- destruct (Hsd nv u) as (t' & Ht & Hv); [by rewrite <- Hnv|]. exists t'. split; [|done]. case_decide; [|done].
           apply elem_of_app. by left.
        -- exists t. rewrite decide_True by done. split; [|done]. apply elem_of_app. right. by apply list_elem_of_singleton.
      * intros Hu. destruct (Hsd nv u Hu) as (t' & Ht & Hv). exists t'. split; [|done]. case_decide; [|done].
        apply elem_of_app. by left.
  - cbn. rewrite default_insert, decide_True by done. apply elem_of_app. right. by apply list_elem_of_singleton.
  - intros _ nv u Hu. cbn. rewrite default_insert. case_decide as Hnv; [|done]. apply elem_of_app. left. by rewrite Hnv.
  - split; cbn; try done.
    + intros u. rewrite default_insert. case_decide as Hu; [|done]. subst u. by rewrite <- Ho, E.
    + intros u ts'. destruct (decide (uid = u)) as [->|]; [rewrite lookup_insert_eq; intros; by simplify_eq|].
      rewrite lookup_insert_ne by done. apply Hs.
    + intros nv u. rewrite default_insert. case_decide as Hnv.
      * intros ->%list_elem_of_singleton. exists t. rewrite decide_True by done. split; [|done]. apply elem_of_app. right.
        by apply list_elem_of_singleton.
      * intros Hu. destruct (Hsd nv u Hu) as (t' & Ht & Hv). exists t'. split; [|done]. case_decide; [|done].
        apply elem_of_app. by left.
  - cbn. rewrite default_insert, decide_True by done. by apply list_elem_of_singleton.
  - intros Hne. exfalso. apply Hne. by rewrite <- Ho, E.
Qed.

Lemma tags_repr_ext (tv : TagIndex) (all : list Tag) (own own' : string -> list Tag) :
  (forall u, own u = own' u) -> tags_repr tv all own -> tags_repr tv all own'.
Proof.
  intros He [Hnm Hui Hn Ho Hs Hsd]. split; try done.
  - intros u. by rewrite Ho.
  - intros nv u Hu. rewrite <- He. by apply Hsd.
Qed.

Lemma tags_Add_repr (tv : TagIndex) (all : list Tag) (own : string -> list Tag) (uid : string) (tags : list Tag) :
  tags_repr tv all own ->
  exists tv', tags_Add tv uid tags = Returns tv' /\
    tags_repr tv' (all ++ tags) (fun u => own_tags u (own u) (TAdd uid tags)) /\
    (forall t, t ∈ tags -> uid ∈ default [] (ti_uidIndex tv' !! name_value t)) /\
    (own uid <> [] -> forall nv u, u ∈ default [] (ti_uidIndex tv !! nv) -> u ∈ default [] (ti_uidIndex tv' !! nv)).
Proof.
  revert tv all own. induction tags as [|t tags IH]; intros tv all own Hr.
  { exists tv. split_and!; [done| |set_solver|done]. rewrite app_nil_r. eapply tags_repr_ext; [|done].
    intros u. cbn. case_decide; by rewrite ?app_nil_r. }
  destruct (add_tag_repr tv all own uid t Hr) as (tv1 & E1 & Hr1 & Hin1 & Hk1).
  destruct (IH tv1 _ _ Hr1) as (tv2 & E2 & Hr2 & Hin2 & Hk2). cbn [tags_Add]. rewrite E1.
  exists tv2. split; [done|].
  assert (Hne : (if decide (uid = uid) then own uid ++ [t] else own uid) <> []) by (rewrite decide_True by done; by destruct (own uid)).
  split_and!.
  - rewrite <- (assoc_L (++)) in Hr2. eapply tags_repr_ext; [|done]. intros u. cbn. repeat case_decide; try done.
    by rewrite <- (assoc_L (++)).
  - intros t' Ht. apply elem_of_cons in Ht as [-> |Ht]; [|by apply Hin2]. by apply (Hk2 Hne).
  - intros Ho nv u Hu. by apply (Hk2 Hne), Hk1.
Qed.

Lemma drop_uids_lookup (uid : string) (tags : list Tag) (uids : gmap string (list string)) (nv : string) :
  default [] (foldl (drop_uid uid) uids tags !! nv) =
    if decide (nv ∈ map name_value tags) then filter (fun u => u <> uid) (default [] (uids !! nv)) else default [] (uids !! nv).
Proof.
  revert uids. induction tags as [|t tags IH]; intros uids; [done|]. cbn [foldl map]. rewrite IH.
  assert (Hd : default [] (drop_uid uid uids t !! nv) =
    if decide (name_value t = nv) then filter (fun u => u <> uid) (default [] (uids !! nv)) else default [] (uids !! nv)).
  { unfold drop_uid. destruct (uids !! name_value t) as [l|] eqn:E.
    - rewrite default_insert. destruct (decide (name_value t = nv)) as [<-|]; [by rewrite E|done].
    - destruct (decide (name_value t = nv)) as [<-|]; [by rewrite E|done]. }
  rewrite Hd. destruct (decide (name_value t = nv)) as [Hn|Hn].
  - rewrite (decide_True (P := nv ∈ name_value t :: _)) by (rewrite Hn; left). case_decide; [|done].
    by apply list_filter_filter_l.
  - destruct (decide (nv ∈ map name_value tags)) as [Hi|Hi].
    + by rewrite decide_True by (by right).
    + rewrite decide_False; [done|]. rewrite not_elem_of_cons. split; [congruence|done].
Qed.

Lemma tags_Delete_repr (tv : TagIndex) (all : list Tag) (own : string -> list Tag) (uid : string) :
  tags_repr tv all own ->
  exists tv', tags_DeleteByUid tv uid = Returns tv' /\
    tags_repr tv' all (fun u => own_tags u (own u) (TDelete uid)) /\
    (forall nv, uid ∉ default [] (ti_uidIndex tv' !! nv)) /\
    (forall nv u, u <> uid -> u ∈ default [] (ti_uidIndex tv !! nv) -> u ∈ default [] (ti_uidIndex tv' !! nv)).
Proof.
  intros [Hnm Hui Hn Ho Hs Hsd]. unfold tags_DeleteByUid. rewrite Hui. cbn [Z.gtb Z.compare].
  destruct (ti_uidInvertIndex tv !! uid) as [tags|] eqn:E; eexists; (split; [done|]).
  - assert (Hkeep : forall nv u, u <> uid -> u ∈ default [] (ti_uidIndex tv !! nv) <->
      u ∈ default [] (foldl (drop_uid uid) (ti_uidIndex tv) tags !! nv)).
    { intros nv u Hu. rewrite drop_uids_lookup. case_decide; [|done]. rewrite list_elem_of_filter. tauto. }
    assert (Hgone : forall nv, uid ∉ default [] (foldl (drop_uid uid) (ti_uidIndex tv) tags !! nv)).
    { intros nv. rewrite drop_uids_lookup. case_decide as Hi; [rewrite list_elem_of_filter; tauto|]. intros Hu.
      destruct (Hsd nv uid Hu) as (t & Ht & <-). apply Hi. apply list_elem_of_fmap. exists t. split; [done|].
      by rewrite <- Ho, E in Ht. }
    split_and!; [|done|by intros; apply Hkeep]. split; cbn; try done.
    + intros u. case_decide as Hu; [subst u; by rewrite lookup_delete_eq|by rewrite lookup_delete_ne].
    + intros u ts Hts. apply lookup_delete_Some in Hts as [_ Hts]. by apply (Hs u).
    + intros nv u Hu. destruct (decide (uid = u)) as [<-|Hne]; [by apply Hgone in Hu|]. apply Hkeep in Hu; [|done].
      by apply Hsd.
  - assert (Hempty : own uid = []) by (by rewrite <- Ho, E).
    split_and!; [|intros nv Hu|done].
    + eapply tags_repr_ext; [|by split]. intros u. cbn. case_decide; congruence.
    + destruct (Hsd nv uid Hu) as (t & Ht & _). rewrite Hempty in Ht. by apply not_elem_of_nil in Ht.
Qed.

Lemma tag_run_repr (tv : TagIndex) (all : list Tag) (own : string -> list Tag) (ops : list tag_op) :
  tags_repr tv all own ->
  exists tv', tag_run tv ops = Returns tv' /\ tags_repr tv' (all ++ given ops) (fun u => foldl (own_tags u) (own u) ops).
Proof.
  revert tv all own. induction ops as [|o ops IH]; intros tv all own Hr.
  { exists tv. cbn. by rewrite app_nil_r. }
  cbn [tag_run tag_exec]. destruct o as [uid tags|uid].
  - destruct (tags_Add_repr tv all own uid tags Hr) as (tv1 & E & Hr1 & _). cbn [tag_exec]. rewrite E.
    destruct (IH _ _ _ Hr1) as (tv2 & E2 & Hr2). exists tv2. split; [done|].
    change (given (TAdd uid tags :: ops)) with (tags ++ given ops). by rewrite (assoc_L (++)).
  - destruct (tags_Delete_repr tv all own uid Hr) as (tv1 & E & Hr1 & _). cbn [tag_exec]. rewrite E.
    destruct (IH _ _ _ Hr1) as (tv2 & E2 & Hr2). by exists tv2.
Qed.

Lemma NewTagIndex_repr : tags_repr NewTagIndex [] (fun _ => []).
Proof. split; try done. intros nv u Hu. by apply not_elem_of_nil in Hu. Qed.

Section answers.
Context `{!GoRange} {Regexp : Type} (Compile : string -> Regexp + goerror) (re_Match : Regexp -> string -> bool).

(** C31: what the index of tags answers.  After any additions and deletions,
    none of which waits, the tags of an id are those given for it since it
    was last deleted, in order; the values of a name are the distinct ones
    given with it to any id, in the order in which they came; every id found
    under a tag has it; and an addition right afterwards makes the id found
    under each of its tags, a deletion under none. *)
Theorem tag_index_answers (ops : list tag_op) :
  exists tv, tag_run NewTagIndex ops = Returns tv /\
    (forall uid, FindTagsByUid tv uid = foldl (own_tags uid) [] ops) /\
    (forall nm, needRegex nm = false -> is_Some (ti_nameIndex tv !! nm) ->
       (FindTagValuesByName Compile re_Match tv nm).1 = inl (values (given ops) nm)) /\
    (forall t uid, uid ∈ (FindUidByTag tv t).1 -> exists t', t' ∈ foldl (own_tags uid) [] ops /\ name_value t' = name_value t) /\
    (forall uid tags, exists tv', tags_Add tv uid tags = Returns tv' /\ forall t, t ∈ tags -> uid ∈ (FindUidByTag tv' t).1) /\
    (forall uid, exists tv', tags_DeleteByUid tv uid = Returns tv' /\ forall t, uid ∉ (FindUidByTag tv' t).1).
Proof.
  destruct (tag_run_repr NewTagIndex [] (fun _ => []) ops NewTagIndex_repr) as (tv & E & Hr). exists tv. split_and!; [done| | | | |].
  - apply (tr_own _ _ _ Hr).
  - intros nm Hreg [g Hg]. unfold FindTagValuesByName, names_of. rewrite Hreg, Hg. cbn. rewrite app_nil_r.
    by rewrite <- (tr_names _ _ _ Hr), Hg.
  - intros t uid Hu. by apply (tr_sound _ _ _ Hr) in Hu.
  - intros uid tags. destruct (tags_Add_repr tv _ _ uid tags Hr) as (tv' & E' & _ & Hin & _). by exists tv'.
  - intros uid. destruct (tags_Delete_repr tv _ _ uid Hr) as (tv' & E' & _ & Hin & _). exists tv'. split; [done|].
    intros t. apply Hin.
Qed.

(** *** Locks *)

Inductive tag_query :=
| QTagsByName (nm : string)
| QValuesByName (nm : string)
| QTagsByValue (nm value : string)
| QTagsByNameValue (nm value : string)
| QUidByTag (t : Tag)
| QUidByTags (ts : list Tag).

Definition query_exec (tv : TagIndex) (q : tag_query) : TagIndex :=
  match q with
  | QTagsByName nm => (GetTagsByName Compile re_Match tv nm).2
  | QValuesByName nm => (FindTagValuesByName Compile re_Match tv nm).2
  | QTagsByValue nm value => (FindTagsByValue Compile re_Match tv nm value).2
  | QTagsByNameValue nm value => (GetTagsByNameValue Compile re_Match tv nm value).2
  | QUidByTag t => (FindUidByTag tv t).2
  | QUidByTags ts => (FindUidByTags tv ts).2
  end.

(** C32: a query stops the index.  After any additions and deletions and at
    least one query of any of the six kinds, every further addition with a
    tag waits for ever for a lock that is never released; after a query for
    ids every deletion does, too. *)
Theorem tag_query_blocks (ops : list tag_op) (tv : TagIndex) (qs : list tag_query) (uid : string) (tags : list Tag) :
  tag_run NewTagIndex ops = Returns tv -> qs <> [] -> tags <> [] ->
  let tv' := foldl query_exec tv qs in
  tags_Add tv' uid tags = Hangs /\
  (Exists (fun q => match q with QUidByTag _ | QUidByTags _ => True | _ => False end) qs -> tags_DeleteByUid tv' uid = Hangs).
Proof.
  intros Hrun Hne Ht. destruct (tag_run_repr NewTagIndex [] (fun _ => []) ops NewTagIndex_repr) as (tv0 & E & Hr).
  rewrite Hrun in E. injection E as <-. pose proof (tr_nm _ _ _ Hr) as Hn. pose proof (tr_uid _ _ _ Hr) as Hu. clear Hr Hrun.
  assert (Hg : forall tv qs, ti_nmLock tv <= ti_nmLock (foldl query_exec tv qs) /\ ti_uidLock tv <= ti_uidLock (foldl query_exec tv qs)).
  { clear. intros tv qs. revert tv. induction qs as [|q qs IH]; intros tv; [done|]. cbn [foldl].
    destruct (IH (query_exec tv q)) as [H1 H2]. destruct q; cbn in H1, H2 |- *; lia. }
  cbn zeta. split.
  - destruct qs as [|q qs]; [done|]. cbn [foldl]. destruct (Hg (query_exec tv q) qs) as [H1 H2].
    assert (Hlock : 0 < ti_nmLock (foldl query_exec (query_exec tv q) qs) \/ 0 < ti_uidLock (foldl query_exec (query_exec tv q) qs)).
    { destruct q; cbn in H1, H2 |- *; [left|left|left|left|right|right]; lia. }
    destruct tags as [|t tags]; [done|]. cbn [tags_Add]. unfold add_tag.
    assert (Hb : forall tv, 0 < ti_nmLock tv \/ 0 < ti_uidLock tv -> (ti_uidLock tv >? 0) || (ti_nmLock tv >? 0) = true).
    { intros tv1 Hh. apply orb_true_iff. rewrite !Z.gtb_lt. tauto. }
    rewrite (orb_comm (ti_nmLock _ >? 0)), (Hb _ Hlock). by destruct (ti_uidInvertIndex _ !! uid).
  - intros Hex. assert (Hl : 0 < ti_uidLock (foldl query_exec tv qs)).
    { apply Exists_exists in Hex as (q & Hq & Hk). apply list_elem_of_split in Hq as (l1 & l2 & ->).
      rewrite foldl_app. cbn [foldl]. destruct (Hg (query_exec (foldl query_exec tv l1) q) l2) as [_ H2].
      destruct (Hg tv l1) as [_ H1]. destruct q; cbn in H2 |- *; try done; lia. }
    unfold tags_DeleteByUid. by rewrite (proj2 (Z.gtb_lt _ 0) Hl).
Qed.

End answers.

Lemma tag_query_blocks_witness :
  exists tv, tag_run NewTagIndex [TAdd "u1" [mkTag "host" "a"]] = Returns tv /\
    tags_Add (foldl (query_exec (Regexp := unit) (fun _ => inl tt) (fun _ _ => true) (H := list_GoRange)) tv [QUidByTag (mkTag "host" "a")])
      "u2" [mkTag "host" "b"] = Hangs.
Proof.
  destruct (tag_run NewTagIndex [TAdd "u1" [mkTag "host" "a"]]) as [tv|] eqn:E; [|vm_compute in E; discriminate E].
  exists tv. split; [reflexivity|].
  exact (proj1 (@tag_query_blocks list_GoRange unit (fun _ => inl tt) (fun _ _ => true) [TAdd "u1" [mkTag "host" "a"]] tv
                  [QUidByTag (mkTag "host" "a")] "u2" [mkTag "host" "b"] E ltac:(discriminate) ltac:(discriminate))).
Defined.

(** The first tag of a new id takes the place of the ids that had it. *)
Example first_tag_overwrites :
  match tag_run NewTagIndex [TAdd "u1" [mkTag "dc" "east"]; TAdd "u2" [mkTag "dc" "east"]] with
  | Returns tv => (FindUidByTag tv (mkTag "dc" "east")).1 = ["u2"]%string
  | Hangs => False
  end.
Proof. vm_compute. reflexivity. Qed.
