(* ===== verification/RamIndexer.v ===== *)
(** [writers/indexer/ram.go], the indexer in memory over the index of names
    and the index of tags; [cache.go], the queue of names in front of an
    indexer; [tagcache.go] and [readcache.go], the caches of tag ids and of
    answers; [registry.go]; and the methods of [schemas/indexer/indexer.go].

    [None] as a result is a panic, and [Hangs] a wait without an end.  The
    tickers call [periodicCull] and the purges; logging, gauges, spans and
    the start and stop of the goroutines are left out. *)
From Stdlib Require Import Ascii.
From S2P Require Import Prelude Float64 GoStrings GoSort GoParse Tags TagsTheorems Repr Trie TrieTheorems Aggs Wire RawData.
From S2P Require Import Messages IndexUtils MetricIndex TagIndex.

Open Scope Z_scope.

(** ** Items *)

Section items.
Context {C : Type} {MC : MemoCache C aggItem}.

(** [SetTags] leaves its receiver as it is: no tag is ever found. *)
Definition SelectValue (c : C) (m : MetricFindItem) (now : Z) : option (Z * C) :=
  if MetricFindItem_Leaf m =? 0 then Some (SUM, c)
  else
    let '(tgs, _) := SetTags [] (MetricFindItem_Tags m) in
    let tg := Stat tgs in
    if bool_decide (tg <> ""%string) then AggTypeFromTag c tg now else GuessReprValueFromKey c (MetricFindItem_Id m) now.

End items.

Definition item_StatName (m : MetricFindItem) : StatName :=
  mkName (MetricFindItem_Path m) 0 "" 0 0 TAG_METRICS2 HASH_FNV (MetricFindItem_Tags m) (MetricFindItem_MetaTags m).

(** ** The registry *)

Definition ErrorAlreadyRegistered : goerror := GoError "Indexer is already registered".

Definition RegisterIndexer {I} (reg : gmap string I) (name : string) (idx : I) : option goerror * gmap string I :=
  match reg !! name with
  | Some _ => (Some ErrorAlreadyRegistered, reg)
  | None => (None, <[name := idx]> reg)
  end.

Definition GetIndexer {I} (reg : gmap string I) (name : string) : option I := reg !! name.

Definition indexer_drivers : list string :=
  ["cassandra"; "ram"; "whisper"; "kafka"; "mysql"; "leveldb"; "elasticsearch"; "noop"]%string.

(** [make name] stands for the constructor of the driver. *)
Definition NewIndexer {I} (make : string -> I) (name : string) : I + goerror :=
  if bool_decide (name ∈ indexer_drivers) then inl (make name) else inr (GoError ("Invalid indexer `" +:+ name +:+ "`")).

(** ** The indexer *)

Definition RAM_INDEXER_EXPIRE_METRICS_TIME : Z := 48 * 3600 * 10 ^ 9.
Definition MAX_PER_PAGE : Z := 2048.

(** The Unix epoch in nanoseconds since the zero time. *)
Definition unix_epoch : Z := 62135596800 * 10 ^ 9.
Definition time_of_Unix (sec : Z) : Z := unix_epoch + sec * 10 ^ 9.

Record RamIndexer (DB : Type) := mkRam {
  ram_TagIndex : TagIndex;
  ram_MetricIndex : MetricIndex DB;
  ram_hasData : bool
}.
Arguments mkRam {DB}.
Arguments ram_TagIndex {DB}.
Arguments ram_MetricIndex {DB}.
Arguments ram_hasData {DB}.

Section ram.
Context `{!GoRange} `{!GoSort} {DB It : Type} `{!LevelDB DB It}.
Context {Regexp : Type} (Compile : string -> Regexp + goerror) (re_Match : Regexp -> string -> bool).
Context (Errorf : list goerror -> goerror).
Variable farm_Hash64 : list Z -> Z.

Abbreviation UniqueIdString := (UniqueIdString farm_Hash64).

(** [NewRamIndexer] and [ConfigRam]: the error of the index is replaced by
    that of the cache, which has none, so an index that could not be made
    stays nil. *)
Definition NewRamIndexer (open : Z -> DB + goerror) : option (RamIndexer DB) :=
  match NewMetricIndex open with
  | inl mi => Some (mkRam NewTagIndex mi false)
  | inr _ => None
  end.

Definition HasData (r : RamIndexer DB) : bool := ram_hasData r.

Definition with_metrics (r : RamIndexer DB) (mi : MetricIndex DB) : RamIndexer DB := mkRam (ram_TagIndex r) mi (ram_hasData r).
Definition with_tags (r : RamIndexer DB) (tv : TagIndex) : RamIndexer DB := mkRam tv (ram_MetricIndex r) (ram_hasData r).

(** An hourly tick. *)
Definition periodicCull (r : RamIndexer DB) (now : Z) : gmap string string * RamIndexer DB :=
  let '(items, mi) := CullExpired (ram_MetricIndex r) RAM_INDEXER_EXPIRE_METRICS_TIME now in (items, with_metrics r mi).

Definition ram_Delete (r : RamIndexer DB) (name : StatName) : option (call (option goerror * RamIndexer DB)) :=
  '(err, mi) ← Delete (ram_MetricIndex r) (Key name);
  let r := with_metrics r mi in
  match err with
  | Some err => Some (Returns (Some err, r))
  | None =>
      Some (match tags_DeleteByUid (ram_TagIndex r) (UniqueIdString name).1 with
            | Returns tv => Returns (None, with_tags r tv)
            | Hangs => Hangs
            end)
  end.

Definition add_tags (r : RamIndexer DB) (uid : string) (tags : SortingTags) : call (RamIndexer DB) :=
  if IsEmpty tags then Returns r
  else match tags_Add (ram_TagIndex r) uid tags with Returns tv => Returns (with_tags r tv) | Hangs => Hangs end.

Definition ram_Write (r : RamIndexer DB) (metric : StatName) (now : Z) : call (RamIndexer DB) :=
  let '(uid, metric) := UniqueIdString metric in
  let r := mkRam (ram_TagIndex r) (Add (ram_MetricIndex r) uid (Key metric) now) true in
  match add_tags r uid (Tags metric) with
  | Returns r => add_tags r uid (MetaTags metric)
  | Hangs => Hangs
  end.

Definition KeyExists (r : RamIndexer DB) (metric : string) : bool :=
  bool_decide (Contains (ram_MetricIndex r) metric <> ""%string).

(** [cullMetricDelta] is always the expiry time. *)
Definition WriteLastSeen (r : RamIndexer DB) (metric : StatName) (lastseen now : Z) : call (RamIndexer DB) :=
  let t := time_of_Unix lastseen in
  if t <? now - RAM_INDEXER_EXPIRE_METRICS_TIME then Returns r
  else
    match ram_Write r metric now with
    | Returns r => Returns (with_metrics r (SetLastSeen (ram_MetricIndex r) (UniqueIdString metric).1 t))
    | Hangs => Hangs
    end.

Definition ram_GetLastSeen (r : RamIndexer DB) (metric : StatName) : Z :=
  GetLastSeen (ram_MetricIndex r) (UniqueIdString metric).1.

Definition NeedsWrite (r : RamIndexer DB) (metric : StatName) (dur now : Z) : bool :=
  let t := ram_GetLastSeen r metric in if t =? 0 then true else t <? now - dur.

(** The loop of [List] over the names. *)
Fixpoint list_loop (tv : TagIndex) (names : list (string * string)) (cur_ct want_start stop_count : Z) : list MetricFindItem :=
  match names with
  | [] => []
  | (k, uid) :: names =>
      let cur_ct := cur_ct + 1 in
      if cur_ct <? want_start then list_loop tv names cur_ct want_start stop_count
      else if cur_ct >? stop_count then []
      else mkMetricFindItem k 0 1 k 0 k uid (FindTagsByUid tv uid) [] :: list_loop tv names cur_ct want_start stop_count
  end.

Definition List_ (r : RamIndexer DB) (page : Z) : list MetricFindItem :=
  list_loop (ram_TagIndex r) (range (nameIndex (ram_MetricIndex r))) 0 (page * MAX_PER_PAGE) ((page + 1) * MAX_PER_PAGE).

(** The tags are not looked at. *)
Definition ram_Find (r : RamIndexer DB) (metric : string) (tags : SortingTags) : list MetricFindItem * option goerror :=
  Find Compile re_Match Errorf (ram_MetricIndex r) metric false.

Definition FindInCache (r : RamIndexer DB) (metric : string) (tags : SortingTags) : list MetricFindItem * option goerror :=
  ram_Find r metric tags.

Definition any_Next (it : It + AllIterator DB It) : option (bool * (It + AllIterator DB It)) :=
  match it with
  | inl it => let '(b, it) := it_Next it in Some (b, inl it)
  | inr a => '(b, a) ← all_Next a; Some (b, inr a)
  end.

Definition any_Key (it : It + AllIterator DB It) : string :=
  default ""%string (match it with inl it => it_Key it | inr a => all_Key a end).

Definition any_Error (it : It + AllIterator DB It) : option goerror :=
  match it with inl it => it_Error it | inr a => all_Error a end.

(** The loop of [Expand]; [None] is a panic or a want of fuel. *)
Fixpoint expand_loop (fuel : nat) (iter : It + AllIterator DB It) (reged : option Regexp) : option (list string * option goerror) :=
  match fuel with
  | O => None
  | S fuel =>
      '(more, iter) ← any_Next iter;
      if more : bool then
        '(res, err) ← expand_loop fuel iter reged;
        match Split (any_Key iter) COLON_SEPARATOR with
        | _ :: v :: _ =>
            if from_option (fun reg => re_Match reg v) true reged then Some (v :: res, err) else Some (res, err)
        | _ => Some (res, err)
        end
      else Some ([], any_Error iter)
  end.

Definition Expand (fuel : nat) (r : RamIndexer DB) (metric : string) : option (list string * option goerror) :=
  found ← FindLowestPrefix Compile (ram_MetricIndex r) metric;
  match found with
  | inr err => Some ([], Some err)
  | inl (iter, reged, _) => expand_loop fuel iter reged
  end.

Definition GetTagsByUid (r : RamIndexer DB) (uniqueId : string) : SortingTags * SortingTags :=
  (FindTagsByUid (ram_TagIndex r) uniqueId, []).

Definition ram_GetTagsByName (r : RamIndexer DB) (name : string) : (list MetricTagItem + goerror) * RamIndexer DB :=
  let '(tags, tv) := GetTagsByName Compile re_Match (ram_TagIndex r) name in (tags, with_tags r tv).

Definition ram_GetTagsByNameValue (r : RamIndexer DB) (name value : string) : (list MetricTagItem + goerror) * RamIndexer DB :=
  let '(tags, tv) := GetTagsByNameValue Compile re_Match (ram_TagIndex r) name value in (tags, with_tags r tv).

(** The key is not looked at. *)
Definition GetUidsByTags (r : RamIndexer DB) (key : string) (tags : SortingTags) : list string * RamIndexer DB :=
  let '(uids, tv) := FindUidByTags (ram_TagIndex r) tags in (uids, with_tags r tv).

(** One id of [toPurge]; the errors are dropped. *)
Definition purge_one (r : RamIndexer DB) (uid : string) : option (call (RamIndexer DB)) :=
  '(_, mi) ← DeleteByUid (ram_MetricIndex r) uid;
  Some (match tags_DeleteByUid (ram_TagIndex r) uid with
        | Returns tv => Returns (with_tags (with_metrics r mi) tv)
        | Hangs => Hangs
        end).

Fixpoint purge_all (r : RamIndexer DB) (uids : list string) : option (call (RamIndexer DB)) :=
  match uids with
  | [] => Some (Returns r)
  | uid :: uids => next ← purge_one r uid; match next with Returns r => purge_all r uids | Hangs => Some Hangs end
  end.

Definition cullMetrics (r : RamIndexer DB) (cTime now : Z) : option (call (RamIndexer DB)) :=
  let cTime := if cTime >? 0 then - cTime else cTime in
  purge_all r (range (filter (fun e => e.2 < now + cTime) (lastHit (ram_MetricIndex r)))).*1.

End ram.

(** ** The queue of names in front of an indexer *)

Definition CACHER_METRICS_KEYS : Z := 1024 * 1024 * 10.

Record Cacher := mkCacher {
  ix_maxKeys : Z;
  ix_curSize : Z;
  ix_accept : bool;
  AlreadyWrittenCache : gset Z;
  ix_Cache : gmap Z StatName
}.

Definition ix_NewCacher : Cacher := mkCacher CACHER_METRICS_KEYS 0 true ∅ ∅.

(** The shutdown of the ticker's loop. *)
Definition ix_shutdown (wc : Cacher) : Cacher :=
  mkCacher (ix_maxKeys wc) (ix_curSize wc) false (AlreadyWrittenCache wc) (ix_Cache wc).

Definition blank_name : StatName := mkName "" 0 "" 0 0 TAG_METRICS2 HASH_FNV [] [].

(** [getCacherSingleton]: one queue for a name. *)
Definition getCacherSingleton (singletons : gmap string Cacher) (nm : string) : Cacher * gmap string Cacher :=
  match singletons !! nm with
  | Some wc => (wc, singletons)
  | None => (ix_NewCacher, <[nm := ix_NewCacher]> singletons)
  end.

Section cacher.
Context `{!GoSort}.
Variable farm_Hash64 : list Z -> Z.

Abbreviation UniqueIdAllTags := (UniqueIdAllTags farm_Hash64).

Definition ErrorTooManyKeys : goerror := GoError "Cacher: too many keys, dropping metric".

Definition ix_Add (wc : Cacher) (metric : StatName) : option goerror * Cacher :=
  if negb (ix_accept wc) then (None, wc)
  else if Z.of_nat (size (ix_Cache wc)) >? ix_maxKeys wc then (Some ErrorTooManyKeys, wc)
  else
    let '(uid, metric) := UniqueIdAllTags metric in
    if bool_decide (uid ∈ AlreadyWrittenCache wc) then (None, wc)
    else
      match ix_Cache wc !! uid with
      | Some _ => (None, wc)
      | None =>
          let '(sz, sorted) := name_ByteSize metric in
          (None, mkCacher (ix_maxKeys wc) (i64 (ix_curSize wc + sz)) (ix_accept wc) (AlreadyWrittenCache wc)
                   (<[uid := sorted]> (ix_Cache wc)))
      end.

Definition ix_Get (wc : Cacher) (metric : StatName) : StatName :=
  default blank_name (ix_Cache wc !! (UniqueIdAllTags metric).1).

(** [first] is the key the range over the map starts with. *)
Definition GetNextMetric (wc : Cacher) (first : option Z) : StatName * Cacher :=
  match first with
  | None => (blank_name, wc)
  | Some k =>
      match ix_Cache wc !! k with
      | None => (blank_name, wc)
      | Some g =>
          let '(sz, g) := name_ByteSize g in
          (g, mkCacher (ix_maxKeys wc) (i64 (ix_curSize wc - sz)) (ix_accept wc) ({[ k ]} ∪ AlreadyWrittenCache wc)
                (delete k (ix_Cache wc)))
      end
  end.

Definition ix_Pop (wc : Cacher) (first : option Z) : StatName * Cacher := GetNextMetric wc first.

Definition ix_AddBack (wc : Cacher) (metric : StatName) : Cacher :=
  let '(uid, metric) := UniqueIdAllTags metric in
  (ix_Add (mkCacher (ix_maxKeys wc) (ix_curSize wc) (ix_accept wc) (AlreadyWrittenCache wc ∖ {[ uid ]}) (ix_Cache wc)) metric).2.

End cacher.

(** ** The cache of the ids of tags *)

Definition TAG_CACHE_MAX_TIME_IN_CACHE : Z := 60 * 60 * 10 ^ 9.

Record TagCacheItem := mkTagCacheItem {
  tc_Added : Z;
  tc_Name : string;
  tc_Value : string;
  tc_IsMeta : bool;
  tc_Id : string
}.

Definition NewTagCacheItem (name value : string) (ismeta : bool) (id : string) (now : Z) : TagCacheItem :=
  mkTagCacheItem now name value ismeta id.

Abbreviation TagCache := (gmap string TagCacheItem).

Definition NewTagCache : TagCache := ∅.

(** The turn of [periodPurge] at a tick; [now] counts seconds. *)
Definition tc_purge (rc : TagCache) (now : Z) : TagCache :=
  let maxBack := i64 (now - TAG_CACHE_MAX_TIME_IN_CACHE) in filter (fun e => ~ tc_Added e.2 < maxBack) rc.

Definition tc_Key (name value : string) (ismeta : bool) : string :=
  name +:+ value +:+ (if ismeta then "true" else "false").

Definition tc_Add (rc : TagCache) (name value : string) (is_meta : bool) (id : string) (now : Z) : bool * TagCache :=
  let mKey := tc_Key name value is_meta in
  match rc !! mKey with
  | None => (true, <[mKey := NewTagCacheItem name value is_meta id now]> rc)
  | Some _ => (false, rc)
  end.

Definition tc_Get (rc : TagCache) (name value : string) (is_meta : bool) (now : Z) : string * TagCache :=
  let key := tc_Key name value is_meta in
  match rc !! key with
  | None => (""%string, rc)
  | Some gots =>
      let maxBack := i64 (now - TAG_CACHE_MAX_TIME_IN_CACHE) in
      if tc_Added gots <? maxBack then (""%string, delete key rc) else (tc_Id gots, rc)
  end.

Definition tc_Len (rc : TagCache) : Z := Z.of_nat (size rc).

(** ** The cache of answers *)

Definition INDEX_CACHE_MAX_TIME_IN_CACHE : Z := 60 * 10 ^ 9.

Record IndexCacheItem := mkIndexCacheItem { ic_Added : Z; ic_Data : list MetricFindItem }.

Definition NewIndexCacheItem (data : list MetricFindItem) (now : Z) : IndexCacheItem := mkIndexCacheItem now data.

Record IndexReadCache := mkIndexCache { ic_cache : gmap string IndexCacheItem; ic_MaxItems : Z }.

Definition NewIndexCache (max_items : Z) : IndexReadCache := mkIndexCache ∅ max_items.

(** The turn of [periodPurge] at a tick: the limit is in nanoseconds. *)
Definition ic_purge (rc : IndexReadCache) (now : Z) : IndexReadCache :=
  let max_back := i64 (now - INDEX_CACHE_MAX_TIME_IN_CACHE) in
  mkIndexCache (filter (fun e => ~ ic_Added e.2 < max_back) (ic_cache rc)) (ic_MaxItems rc).

Definition ic_Key (metric : string) (tags : SortingTags) : string := metric +:+ BaseString tags.

(** [first] is the key the range over the map starts with. *)
Definition ic_Add (rc : IndexReadCache) (metric : string) (tags : SortingTags) (items : list MetricFindItem) (first : string) (now : Z)
    : bool * IndexReadCache :=
  let m_key := ic_Key metric tags in
  match ic_cache rc !! m_key with
  | Some _ => (false, rc)
  | None =>
      let cache := if Z.of_nat (size (ic_cache rc)) >? ic_MaxItems rc then delete first (ic_cache rc) else ic_cache rc in
      (true, mkIndexCache (<[m_key := NewIndexCacheItem items now]> cache) (ic_MaxItems rc))
  end.

Definition ic_Get (rc : IndexReadCache) (metric : string) (tags : SortingTags) (now : Z)
    : option (list MetricFindItem) * IndexReadCache :=
  let key := ic_Key metric tags in
  match ic_cache rc !! key with
  | None => (None, rc)
  | Some gots =>
      let maxBack := now - 60 in
      if ic_Added gots <? maxBack then (None, mkIndexCache (delete key (ic_cache rc)) (ic_MaxItems rc))
      else (Some (ic_Data gots), rc)
  end.

Definition ic_Len (rc : IndexReadCache) : Z := Z.of_nat (size (ic_cache rc)).

(** ** Theorems *)

(** *** The queue *)

Inductive cacher_op :=
| CAdd (metric : StatName)
| CPop (first : option Z)
| CAddBack (metric : StatName)
| CShutdown.

Section queue.
Context `{!GoSort}.
Variable farm_Hash64 : list Z -> Z.

Abbreviation uid_of m := (UniqueIdAllTags farm_Hash64 m).1.

(** A pop starts with a key of the map, when it has one. *)
Definition pop_ok (wc : Cacher) (first : option Z) : bool :=
  match first with
  | None => bool_decide (ix_Cache wc = ∅)
  | Some k => bool_decide (is_Some (ix_Cache wc !! k))
  end.

(** The queue after the operations and the ids it handed out; [None] when
    a pop does not start with a key of the map. *)
Fixpoint cacher_run (wc : Cacher) (ops : list cacher_op) : option (Cacher * list Z) :=
  match ops with
  | [] => Some (wc, [])
  | CAdd m :: ops => cacher_run (ix_Add farm_Hash64 wc m).2 ops
  | CPop first :: ops =>
      if pop_ok wc first then
        '(wc', out) ← cacher_run (ix_Pop wc first).2 ops; Some (wc', option_list first ++ out)
      else None
  | CAddBack m :: ops => cacher_run (ix_AddBack farm_Hash64 wc m) ops
  | CShutdown :: ops => cacher_run (ix_shutdown wc) ops
  end.

Definition times (k : Z) (l : list Z) : nat := length (filter (fun x => x = k) l).

(** How often an id was added back. *)
Definition put_back (k : Z) (ops : list cacher_op) : nat :=
  times k (omap (fun o => match o with CAddBack m => Some (uid_of m) | _ => None end) ops).

(** The bytes of the queued names. *)
Definition queued_bytes (m : gmap Z StatName) : Z := map_fold (fun _ g acc => (name_ByteSize g).1 + acc) 0 m.

Lemma queued_bytes_insert (m : gmap Z StatName) (k : Z) (g : StatName) :
  m !! k = None -> queued_bytes (<[k := g]> m) = (name_ByteSize g).1 + queued_bytes m.
Proof. intros Hk. unfold queued_bytes. rewrite map_fold_insert_L; [done| |done]. intros. lia. Qed.

Lemma queued_bytes_delete (m : gmap Z StatName) (k : Z) (g : StatName) :
  m !! k = Some g -> queued_bytes (delete k m) = queued_bytes m - (name_ByteSize g).1.
Proof.
  intros Hk. rewrite <- (insert_delete_id m k g Hk) at 2. rewrite queued_bytes_insert by apply lookup_delete_eq. lia.
Qed.

Record cacher_ok (wc : Cacher) : Prop := {
  co_apart : forall k, k ∈ AlreadyWrittenCache wc -> ix_Cache wc !! k = None;
  co_bytes : ix_curSize wc = i64 (queued_bytes (ix_Cache wc));
  co_size : Z.of_nat (size (ix_Cache wc)) <= ix_maxKeys wc + 1;
  co_max : 0 <= ix_maxKeys wc
}.

Lemma Join_length_perm (l l' : list string) (sep : string) :
  l ≡ₚ l' -> String.length (GoStrings.Join l sep) = String.length (GoStrings.Join l' sep).
Proof.
  assert (Hj : forall l x, String.length (GoStrings.Join (x :: l) sep) =
    (String.length x + sum_list (map (fun s => String.length sep + String.length s) l))%nat).
  { intros l0. induction l0 as [|y l0 IH]; intros x; [cbn; lia|]. rewrite Join_cons by done. rewrite !string_length_app, IH. cbn. lia. }
  intros Hp. destruct l as [|x l], l' as [|x' l']; try done.
  { by apply Permutation_nil_cons in Hp. }
  { symmetry in Hp. by apply Permutation_nil_cons in Hp. }
  rewrite !Hj. assert (Hs : sum_list (map (fun s => String.length sep + String.length s)%nat (x :: l)) =
    sum_list (map (fun s => String.length sep + String.length s)%nat (x' :: l'))).
  { by rewrite Hp. }
  cbn in Hs. lia.
Qed.

Lemma swrap_add_l (w x y : Z) : swrap w (swrap w x + y) = swrap w (x + y).
Proof.
  unfold swrap. f_equal. replace (_ - _ + y + _) with ((x + 2 ^ (w - 1)) mod 2 ^ w + y) by lia.
  rewrite Zplus_mod_idemp_l. f_equal. lia.
Qed.

Lemma ByteSize_sorted (m : StatName) : (name_ByteSize (SortedTags m).2).1 = (name_ByteSize m).1.
Proof.
  unfold name_ByteSize, SortedTags. cbn [fst snd Tags Key set_tags]. f_equal. rewrite !string_length_app. f_equal.
  assert (Hp : forall l, (if (0 <? length l)%nat then sort_Sort tags_Less l else l) ≡ₚ l) by (intros l; case_match; [apply sort_perm|done]).
  apply Join_length_perm, fmap_Permutation. apply Hp.
Qed.

Lemma ix_Add_ok (wc : Cacher) (m : StatName) : cacher_ok wc -> cacher_ok (ix_Add farm_Hash64 wc m).2.
Proof.
  intros [Ha Hb Hs Hm]. unfold ix_Add. case_match; [done|]. case_match eqn:Hsz; [done|]. destruct (UniqueIdAllTags farm_Hash64 m) as [uid m'].
  case_bool_decide as Hw; [done|]. destruct (ix_Cache wc !! uid) eqn:E; [done|].
  destruct (name_ByteSize m') as [sz g] eqn:Eg.
  assert (Hg : (name_ByteSize g).1 = sz).
  { replace g with (SortedTags m').2 by (unfold name_ByteSize in Eg; destruct (SortedTags m'); by simplify_eq).
    by rewrite ByteSize_sorted, Eg. }
  split; cbn [snd AlreadyWrittenCache ix_Cache ix_curSize ix_maxKeys]; [| | |done].
  - intros k Hk. rewrite lookup_insert_ne by (by intros ->). by apply Ha.
  - rewrite queued_bytes_insert, Hg, Hb by done. rewrite swrap_add_l. f_equal. lia.
  - rewrite map_size_insert_None by done. rewrite Z.gtb_ltb, Z.ltb_ge in Hsz. lia.
Qed.

Lemma ix_Pop_ok (wc : Cacher) (first : option Z) : cacher_ok wc -> cacher_ok (ix_Pop wc first).2.
Proof.
  intros [Ha Hb Hs Hm]. unfold ix_Pop, GetNextMetric. destruct first as [k|]; [|done].
  destruct (ix_Cache wc !! k) as [g|] eqn:E; [|done]. destruct (name_ByteSize g) as [sz g'] eqn:Eg.
  split; cbn [snd AlreadyWrittenCache ix_Cache ix_curSize ix_maxKeys]; [| | |done].
  - intros k' Hk. apply elem_of_union in Hk as [->%elem_of_singleton|Hk]; [apply lookup_delete_eq|].
    apply lookup_delete_None. right. by apply Ha.
  - rewrite (queued_bytes_delete _ k g), Eg, Hb by done. unfold Z.sub. by rewrite swrap_add_l.
  - rewrite map_size_delete_Some by (by exists g). lia.
Qed.

Lemma ix_AddBack_ok (wc : Cacher) (m : StatName) : cacher_ok wc -> cacher_ok (ix_AddBack farm_Hash64 wc m).
Proof.
  intros [Ha Hb Hs Hm]. unfold ix_AddBack. destruct (UniqueIdAllTags farm_Hash64 m) as [uid m'].
  apply ix_Add_ok. split; cbn; try done. intros k Hk. apply Ha. set_solver.
Qed.

(** Additions do not touch the ids handed out. *)
Lemma ix_Add_written (wc : Cacher) (m : StatName) : AlreadyWrittenCache (ix_Add farm_Hash64 wc m).2 = AlreadyWrittenCache wc.
Proof. unfold ix_Add. repeat case_match; done. Qed.

Lemma ix_AddBack_written (wc : Cacher) (m : StatName) :
  AlreadyWrittenCache (ix_AddBack farm_Hash64 wc m) = AlreadyWrittenCache wc ∖ {[ uid_of m ]}.
Proof. unfold ix_AddBack. destruct (UniqueIdAllTags farm_Hash64 m) as [uid m']. by rewrite ix_Add_written. Qed.

Lemma times_cons (k x : Z) (l : list Z) : times k (x :: l) = ((if decide (x = k) then 1 else 0) + times k l)%nat.
Proof. unfold times. rewrite filter_cons. by case_decide. Qed.

(** Handing out, seen from the state: an id already handed out needs to be
    added back first. *)
Lemma cacher_run_ok (ops : list cacher_op) (wc wc' : Cacher) (out : list Z) :
  cacher_ok wc -> cacher_run wc ops = Some (wc', out) ->
  cacher_ok wc' /\ forall k,
    (times k out + (if decide (k ∈ AlreadyWrittenCache wc) then 1 else 0) <=
     put_back k ops + (if decide (k ∈ AlreadyWrittenCache wc') then 1 else 0))%nat.
Proof.
  revert wc out. induction ops as [|o ops IH]; intros wc out Hok Hrun; cbn [cacher_run] in Hrun.
  { simplify_eq. split; [done|]. intros k. cbn. lia. }
  destruct o as [m|first|m|].
  - destruct (IH _ _ (ix_Add_ok wc m Hok) Hrun) as [H1 H2]. split; [done|]. intros k. specialize (H2 k). by rewrite ix_Add_written in H2.
  - destruct (pop_ok wc first) eqn:Hp; [|done].
    destruct (cacher_run (ix_Pop wc first).2 ops) as [[wc1 out1]|] eqn:E; [|done]. cbn in Hrun. simplify_eq.
    destruct (IH _ _ (ix_Pop_ok wc first Hok) E) as [H1 H2]. split; [done|]. intros k. specialize (H2 k).
    unfold ix_Pop, GetNextMetric in H2. destruct first as [k'|]; [|done]. cbn in Hp. apply bool_decide_eq_true in Hp as [g Hg].
    rewrite Hg in H2. destruct (name_ByteSize g). cbn [snd AlreadyWrittenCache] in H2.
    change (option_list (Some k') ++ out1) with (k' :: out1). rewrite times_cons.
    change (put_back k (_ :: ops)) with (put_back k ops).
    destruct (decide (k' = k)) as [->|Hne].
    + rewrite decide_True in H2 by set_solver. rewrite decide_False; [lia|].
      intros Hw. apply (co_apart _ Hok) in Hw. congruence.
    + destruct (decide (k ∈ AlreadyWrittenCache wc)) as [Hw|Hw].
      * rewrite decide_True in H2 by set_solver. lia.
      * rewrite decide_False in H2 by set_solver. lia.
  - destruct (IH _ _ (ix_AddBack_ok wc m Hok) Hrun) as [H1 H2]. split; [done|]. intros k. specialize (H2 k).
    rewrite ix_AddBack_written in H2.
    assert (Hb : put_back k (CAddBack m :: ops) = ((if decide (uid_of m = k) then 1 else 0) + put_back k ops)%nat) by apply times_cons.
    rewrite Hb. destruct (decide (uid_of m = k)) as [Hk|Hne].
    + rewrite decide_False in H2 by set_solver. repeat case_decide; lia.
    + destruct (decide (k ∈ AlreadyWrittenCache wc)) as [Hw|Hw].
      * rewrite decide_True in H2 by set_solver. lia.
      * lia.
  - apply (IH (ix_shutdown wc) out); [|done]. by destruct Hok.
Qed.

(** the queue in front of an indexer hands out each name once.  After
    any additions, pops, returns and a shutdown: no id is handed out more
    often than it was added back, plus one; no queued name has been handed
    out; the size on the books is that of the queued names; the queue is
    never longer than its limit, plus one; and a name added while there is
    room is queued unless it has been handed out. *)
Theorem index_queue_once (ops : list cacher_op) (wc : Cacher) (out : list Z) :
  cacher_run ix_NewCacher ops = Some (wc, out) ->
  (forall k, (times k out <= put_back k ops + 1)%nat) /\
  (forall k, is_Some (ix_Cache wc !! k) -> (k ∉ AlreadyWrittenCache wc) /\ (times k out <= put_back k ops)%nat) /\
  ix_curSize wc = i64 (queued_bytes (ix_Cache wc)) /\
  Z.of_nat (size (ix_Cache wc)) <= CACHER_METRICS_KEYS + 1 /\
  (forall m, ix_accept wc = true -> Z.of_nat (size (ix_Cache wc)) <= CACHER_METRICS_KEYS ->
     let wc' := (ix_Add farm_Hash64 wc m).2 in is_Some (ix_Cache wc' !! uid_of m) \/ uid_of m ∈ AlreadyWrittenCache wc').
Proof.
  intros Hrun. assert (Hmax : forall ops wc wc' out, cacher_run wc ops = Some (wc', out) -> ix_maxKeys wc' = ix_maxKeys wc).
  { clear. induction ops as [|o ops IH]; intros wc wc' out Hr; cbn [cacher_run] in Hr; [by simplify_eq|].
    destruct o as [m|first|m|]; [| |apply IH in Hr|by apply IH in Hr].
    - apply IH in Hr. rewrite Hr. unfold ix_Add. by repeat case_match.
    - case_match; [|done]. destruct (cacher_run _ _) as [[w o]|] eqn:E; [|done]. cbn in Hr. simplify_eq. apply IH in E. rewrite E.
      unfold ix_Pop, GetNextMetric. by repeat case_match.
    - rewrite Hr. unfold ix_AddBack, ix_Add. by repeat case_match. }
  destruct (cacher_run_ok ops ix_NewCacher wc out) as [[Ha Hb Hs _] Ht]; [by split|done|]. split_and!.
  - intros k. specialize (Ht k). repeat case_decide; lia.
  - intros k [g Hk]. assert (k ∉ AlreadyWrittenCache wc) as Hw by (intros Hw%Ha; congruence). split; [done|].
    specialize (Ht k). rewrite (decide_False (P := k ∈ AlreadyWrittenCache wc)) in Ht by done. lia.
  - done.
  - by rewrite (Hmax _ _ _ _ Hrun) in Hs.
  - intros m Hacc Hsz. cbn zeta. unfold ix_Add. rewrite Hacc, (Hmax _ _ _ _ Hrun). cbn [negb].
    change (ix_maxKeys ix_NewCacher) with CACHER_METRICS_KEYS. rewrite Z.gtb_ltb, (proj2 (Z.ltb_ge _ _) Hsz).
    destruct (UniqueIdAllTags farm_Hash64 m) as [uid m'] eqn:Eu. cbn [fst]. case_bool_decide as Hw; [by right|left].
    destruct (ix_Cache wc !! uid) as [g|] eqn:Eg; [by exists g|]. destruct (name_ByteSize m') as [sz g']. cbn. rewrite lookup_insert_eq.
    by eexists.
Qed.

End queue.

Definition queued_name (key : string) : StatName := mkName key 0 "" 0 0 TAG_METRICS2 HASH_FNV [] [].

Definition sample_queue_ops : list cacher_op :=
  let k := (UniqueIdAllTags (H := insertion_GoSort) (fun _ => 0) (queued_name "a.b")).1 in
  [CAdd (queued_name "a.b"); CPop (Some k); CAdd (queued_name "a.b"); CPop None; CAddBack (queued_name "a.b"); CPop (Some k)].

Lemma index_queue_once_witness :
  exists wc out, cacher_run (H := insertion_GoSort) (fun _ => 0) ix_NewCacher sample_queue_ops = Some (wc, out) /\ length out = 2%nat /\
    forall k, (times k out <= put_back (H := insertion_GoSort) (fun _ => 0%Z) k sample_queue_ops + 1)%nat.
Proof.
  destruct (cacher_run (H := insertion_GoSort) (fun _ => 0) ix_NewCacher sample_queue_ops) as [[wc out]|] eqn:E;
    [|vm_compute in E; discriminate E].
  exists wc, out. split; [reflexivity|]. split; [vm_compute in E; injection E as <- <-; reflexivity|].
  exact (proj1 (index_queue_once (H := insertion_GoSort) (fun _ => 0) sample_queue_ops wc out E)).
Defined.

(** *** The indexer: writes are found *)

Inductive ram_op :=
| RWrite (n : StatName) (now : Z)
| RSeen (n : StatName) (lastseen now : Z)
| RDelete (n : StatName).

Section ram_theorems.
Context `{!GoRange} `{!GoSort} {DB It : Type} `{!LevelDB DB It}.
Context {Regexp : Type} (Compile : string -> Regexp + goerror) (re_Match : Regexp -> string -> bool).
Context (Errorf : list goerror -> goerror).
Variable farm_Hash64 : list Z -> Z.

Abbreviation uid n := (UniqueIdString farm_Hash64 n).1.

Definition ram_exec (r : RamIndexer DB) (o : ram_op) : option (call (RamIndexer DB)) :=
  match o with
  | RWrite n now => Some (ram_Write farm_Hash64 r n now)
  | RSeen n t now => Some (WriteLastSeen farm_Hash64 r n t now)
  | RDelete n => res ← ram_Delete farm_Hash64 r n; Some (match res with Returns (_, r) => Returns r | Hangs => Hangs end)
  end.

Fixpoint ram_run (r : RamIndexer DB) (ops : list ram_op) : option (call (RamIndexer DB)) :=
  match ops with
  | [] => Some (Returns r)
  | o :: ops => next ← ram_exec r o; match next with Returns r => ram_run r ops | Hangs => Some Hangs end
  end.

Definition ram_op_ok (path_of : string -> string) (o : ram_op) : Prop :=
  match o with
  | RWrite n _ | RSeen n _ _ => Key n = path_of (uid n)
  | RDelete n => needRegex (Key n) = true \/ Z.of_nat (length (Split (Key n) ".")) mod 16 <> 0
  end.

(** Both indexes are in order, and no id is empty. *)
Definition ram_ok (path_of : string -> string) (r : RamIndexer DB) : Prop :=
  (exists m, index_repr path_of (ram_MetricIndex r) m /\ forall p u, m !! p = Some u -> u <> ""%string) /\
  (exists all own, tags_repr (ram_TagIndex r) all own).

Lemma uid_nonempty (n : StatName) : uid n <> ""%string.
Proof.
  unfold UniqueIdString. case_bool_decide as Hs; [|done]. destruct (UniqueId farm_Hash64 n) as [id n'].
  destruct (FormatUint_nonempty id 36) as (a & s & E). cbn [fst set_uid uniqueIdstr]. by rewrite E.
Qed.

Lemma ram_uid_Key (n : StatName) : Key (UniqueIdString farm_Hash64 n).2 = Key n.
Proof.
  unfold UniqueIdString. case_bool_decide; [|done].
  enough (He : Key (UniqueId farm_Hash64 n).2 = Key n) by (by destruct (UniqueId farm_Hash64 n)).
  unfold UniqueId. case_match; [done|]. destruct (tagMode n); [done|]. by destruct (0 <? length (MetaTags n))%nat.
Qed.

(** Asking for the id may sort the tags. *)
Lemma ram_uid_tags (n : StatName) :
  Tags (UniqueIdString farm_Hash64 n).2 ≡ₚ Tags n /\ MetaTags (UniqueIdString farm_Hash64 n).2 ≡ₚ MetaTags n.
Proof.
  unfold UniqueIdString. case_bool_decide; [|done].
  enough (He : Tags (UniqueId farm_Hash64 n).2 ≡ₚ Tags n /\ MetaTags (UniqueId farm_Hash64 n).2 ≡ₚ MetaTags n)
    by (by destruct (UniqueId farm_Hash64 n)).
  assert (Hp : forall l, (if (0 <? length l)%nat then sort_Sort tags_Less l else l) ≡ₚ l) by (intros l; case_match; [apply sort_perm|done]).
  unfold UniqueId. case_match; [done|]. destruct (tagMode n); [|destruct (0 <? length (MetaTags n))%nat eqn:E].
  - split; [apply Hp|done].
  - split; apply Hp.
  - split; [apply Hp|done].
Qed.

Lemma add_tags_ok (r : RamIndexer DB) (u : string) (tags : list Tag) (all : list Tag) (own : string -> list Tag) :
  tags_repr (ram_TagIndex r) all own ->
  exists r' own', add_tags r u tags = Returns r' /\ ram_MetricIndex r' = ram_MetricIndex r /\
    tags_repr (ram_TagIndex r') (all ++ tags) own' /\
    (forall t, t ∈ tags -> u ∈ (FindUidByTag (ram_TagIndex r') t).1) /\ (tags <> [] -> own' u <> []) /\
    (own u <> [] -> forall t, u ∈ (FindUidByTag (ram_TagIndex r) t).1 -> u ∈ (FindUidByTag (ram_TagIndex r') t).1).
Proof.
  intros Hr. unfold add_tags, IsEmpty. destruct tags as [|t tags]; cbn [length Nat.eqb].
  { exists r, own. rewrite app_nil_r. split_and!; try done. intros t Ht. by apply not_elem_of_nil in Ht. }
  destruct (tags_Add_repr _ _ _ u (t :: tags) Hr) as (tv & E & Hr' & Hin & Hk). rewrite E. do 2 eexists. split_and!; try done.
  - intros _. cbn. rewrite decide_True by done. by destruct (own u).
  - intros Ho t' Ht. by apply Hk.
Qed.

Lemma Add_index_ok (path_of : string -> string) (mi : MetricIndex DB) (m : gmap string string) (u p : string) (now : Z) :
  index_repr path_of mi m -> p = path_of u -> u <> ""%string -> (forall p u, m !! p = Some u -> u <> ""%string) ->
  exists m', index_repr path_of (Add mi u p now) m' /\ (forall p u, m' !! p = Some u -> u <> ""%string) /\ is_Some (m' !! p).
Proof.
  intros Hr Hp Hu Hne. eexists. split; [by apply Add_repr|]. cbn. destruct (m !! p) as [u'|] eqn:E; [split; [done|by exists u']|].
  split; [|rewrite lookup_insert_eq; by eexists]. intros p' u'. destruct (decide (p = p')) as [<-|Hd].
  - rewrite lookup_insert_eq. intros. by simplify_eq.
  - rewrite lookup_insert_ne by done. apply Hne.
Qed.

(** A write returns; its name is there, and its id under every tag. *)
Lemma ram_Write_ok (path_of : string -> string) (r : RamIndexer DB) (n : StatName) (now : Z) :
  ram_ok path_of r -> Key n = path_of (uid n) ->
  exists r', ram_Write farm_Hash64 r n now = Returns r' /\ ram_ok path_of r' /\
    (exists m, index_repr path_of (ram_MetricIndex r') m /\ (forall p u, m !! p = Some u -> u <> ""%string) /\ is_Some (m !! Key n)) /\
    ram_MetricIndex r' = Add (ram_MetricIndex r) (uid n) (Key n) now /\
    (forall t, t ∈ Tags n ++ MetaTags n -> uid n ∈ (FindUidByTag (ram_TagIndex r') t).1).
Proof.
  intros [(m & Hm & Hne) (all & own & Ht)] Hp. unfold ram_Write.
  pose proof (ram_uid_Key n) as HK. pose proof (ram_uid_tags n) as [HT HMT]. pose proof (uid_nonempty n) as Hu.
  destruct (UniqueIdString farm_Hash64 n) as [u n']. cbn [fst snd] in *. rewrite HK.
  destruct (Add_index_ok path_of _ m u (Key n) now Hm Hp Hu Hne) as (m' & Hm' & Hne' & Hin).
  set (r1 := mkRam (ram_TagIndex r) _ true).
  destruct (add_tags_ok r1 u (Tags n') all own Ht) as (r2 & own2 & E2 & Hmi2 & Ht2 & Hin2 & Ho2 & _). rewrite E2.
  destruct (add_tags_ok r2 u (MetaTags n') _ own2 Ht2) as (r3 & own3 & E3 & Hmi3 & Ht3 & Hin3 & _ & Hk3). rewrite E3.
  exists r3. assert (Hmi : ram_MetricIndex r3 = Add (ram_MetricIndex r) u (Key n) now) by (rewrite Hmi3, Hmi2; done).
  split_and!; [done| | |done|].
  - split; [exists m'; by rewrite Hmi|by do 2 eexists].
  - exists m'. by rewrite Hmi.
  - intros t Hin4. rewrite <- HT, <- HMT in Hin4. apply elem_of_app in Hin4 as [H4|H4]; [|by apply Hin3].
    apply Hk3; [|by apply Hin2]. apply Ho2. intros E. rewrite E in H4. by apply not_elem_of_nil in H4.
Qed.

Lemma ram_exec_ok (path_of : string -> string) (r : RamIndexer DB) (o : ram_op) :
  ram_ok path_of r -> ram_op_ok path_of o -> exists r', ram_exec r o = Some (Returns r') /\ ram_ok path_of r'.
Proof.
  intros Hok Ho. destruct o as [n now|n t now|n]; cbn [ram_exec ram_op_ok] in *.
  - destruct (ram_Write_ok path_of r n now Hok Ho) as (r' & E & Hok' & _). exists r'. by rewrite E.
  - unfold WriteLastSeen. case_match; [by exists r|].
    destruct (ram_Write_ok path_of r n now Hok Ho) as (r' & E & [(m & Hm & Hne) Ht] & _). rewrite E. eexists. split; [done|].
    split; [|done]. exists m. split; [by apply SetLastSeen_repr|done].
  - destruct Hok as [(m & Hm & Hne) (all & own & Ht)]. unfold ram_Delete.
    destruct (Delete_repr path_of _ m (Key n) Hm Ho) as (err & mi & -> & Hm'). cbn [mbind option_bind].
    assert (Hmi : forall tv, (exists all own, tags_repr tv all own) -> ram_ok path_of (with_tags (with_metrics r mi) tv)).
    { intros tv Htv. split; [|done]. eexists. split; [done|]. intros p u Hp. apply (Hne p). case_match; [done|].
      by apply lookup_delete_Some in Hp as [_ Hp]. }
    destruct err as [err|].
    + eexists. split; [done|]. apply (Hmi (ram_TagIndex r)). by do 2 eexists.
    + destruct (tags_Delete_repr _ _ _ (uid n) Ht) as (tv & E & Ht' & _).
      change (ram_TagIndex (with_metrics r mi)) with (ram_TagIndex r). rewrite E. eexists. split; [done|]. apply Hmi. by do 2 eexists.
Qed.

Lemma ram_run_ok (path_of : string -> string) (ops : list ram_op) (r : RamIndexer DB) :
  ram_ok path_of r -> Forall (ram_op_ok path_of) ops -> exists r', ram_run r ops = Some (Returns r') /\ ram_ok path_of r'.
Proof.
  intros Hok Hops. revert r Hok. induction Hops as [|o ops Ho Hops IH]; intros r Hok; [by exists r|]. cbn [ram_run].
  destruct (ram_exec_ok path_of r o Hok Ho) as (r1 & -> & Hok1). cbn [mbind option_bind]. by apply IH.
Qed.

Lemma NewRamIndexer_ok (path_of : string -> string) (open : Z -> DB + goerror) (r : RamIndexer DB) :
  NewRamIndexer open = Some r -> ram_ok path_of r.
Proof.
  unfold NewRamIndexer. destruct (NewMetricIndex open) as [mi|] eqn:E; [|done]. intros. simplify_eq. split.
  - exists ∅. split; [by eapply NewMetricIndex_repr|]. done.
  - do 2 eexists. apply NewTagIndex_repr.
Qed.

(** C23: a name written to the indexer in memory is found.  Take any
    writes, reports of names seen and deletions, on names whose ids tell
    their keys, of which no deleted one has a multiple of sixteen segments
    (deleting such a name panics).  None of them panics or waits, and a
    write right afterwards returns; then the key exists; a query for it (no
    comma, neither empty nor a star) answers with its leaf alone; and the
    name's id is among those of each of its tags, until another name is
    written.  A name that is new to the indexer counts as not yet seen when
    it did before the write. *)
Theorem ram_write_found (path_of : string -> string) (open : Z -> DB + goerror) (r0 : RamIndexer DB) (ops : list ram_op) (n : StatName) (now : Z) :
  NewRamIndexer open = Some r0 -> Forall (ram_op_ok path_of) ops -> Key n = path_of (uid n) ->
  exists r r', ram_run r0 ops = Some (Returns r) /\ ram_Write farm_Hash64 r n now = Returns r' /\
    KeyExists r' (Key n) = true /\
    (no_char ","%char (Key n) = true -> Key n <> ""%string -> Key n <> "*"%string -> forall tags,
       exists u, Contains (ram_MetricIndex r') (Key n) = u /\
         ram_Find Compile re_Match Errorf r' (Key n) tags = ([leaf_item (last_segment (Key n)) (Key n) u], None)) /\
    (forall t, t ∈ Tags n ++ MetaTags n -> uid n ∈ (FindUidByTag (ram_TagIndex r') t).1) /\
    (KeyExists r (Key n) = false -> ram_GetLastSeen farm_Hash64 r' n = ram_GetLastSeen farm_Hash64 r n).
Proof.
  intros Hnew Hops Hn. destruct (ram_run_ok path_of ops r0) as (r & E & Hok); [by eapply NewRamIndexer_ok|done|].
  destruct (ram_Write_ok path_of r n now Hok Hn) as (r' & E' & _ & (m & Hm & Hne & u & Hu) & Hmi & Htags). exists r, r'.
  assert (Hcont : Contains (ram_MetricIndex r') (Key n) = u) by (unfold Contains; by rewrite (ir_names _ _ _ Hm), Hu).
  split_and!; [done|done| | |done|].
  - unfold KeyExists. rewrite Hcont. apply bool_decide_eq_true_2. by apply (Hne (Key n)).
  - intros Hc He Hs tags. exists u. split; [done|]. by eapply Find_exact.
  - destruct Hok as [(m0 & Hm0 & Hne0) _]. unfold KeyExists, Contains. intros Hk. unfold ram_GetLastSeen, GetLastSeen.
    rewrite Hmi. unfold Add. rewrite (ir_names _ _ _ Hm0) in Hk |- *. destruct (m0 !! Key n) as [u0|] eqn:E0; [|done].
    apply bool_decide_eq_false in Hk. exfalso. apply Hk. by apply (Hne0 (Key n)).
Qed.

End ram_theorems.

Definition sample_written : StatName := mkName "a.b" 0 "" 0 0 TAG_METRICS2 HASH_FNV [mkTag "host" "x"] [].

Lemma ram_write_found_witness :
  exists r0 r r' : RamIndexer (list (string * string)), NewRamIndexer sample_open = Some r0 /\
    ram_run (H0 := insertion_GoSort) (fun _ => 0) r0 [RWrite sample_written 3; RDelete sample_written] = Some (Returns r) /\
    ram_Write (H0 := insertion_GoSort) (fun _ => 0) r sample_written 7 = Returns r' /\ KeyExists r' "a.b" = true.
Proof.
  destruct (NewRamIndexer sample_open) as [r0|] eqn:E0; [|vm_compute in E0; discriminate E0].
  destruct (@ram_write_found list_GoRange insertion_GoSort _ _ _ _ no_regexp (fun _ _ => true) (fun _ => EOF) (fun _ => 0)
              (fun _ => "a.b"%string) sample_open r0 [RWrite sample_written 3; RDelete sample_written] sample_written 7 E0)
    as (r & r' & E & E' & Hk & _).
  - constructor; [reflexivity|]. constructor; [right; vm_compute; discriminate|constructor].
  - reflexivity.
  - by exists r0, r, r'.
Defined.

(** *** Pages *)

Section pages.
Context `{!GoRange} {DB : Type}.

Definition listed (tv : TagIndex) (e : string * string) : MetricFindItem :=
  mkMetricFindItem e.1 0 1 e.1 0 e.1 e.2 (FindTagsByUid tv e.2) [].

Lemma list_loop_slice (tv : TagIndex) (names : list (string * string)) (cur_ct want_start stop_count : Z) :
  list_loop tv names cur_ct want_start stop_count =
    map (listed tv) (drop (Z.to_nat (want_start - cur_ct - 1)) (take (Z.to_nat (stop_count - cur_ct)) names)).
Proof.
  revert cur_ct. induction names as [|[k u] names IH]; intros cur_ct; [by rewrite take_nil, drop_nil|].
  cbn [list_loop]. rewrite IH, Z.gtb_ltb. destruct (Z.ltb_spec (cur_ct + 1) want_start).
  - replace (Z.to_nat (want_start - cur_ct - 1)) with (S (Z.to_nat (want_start - (cur_ct + 1) - 1))) by lia.
    destruct (Z.to_nat (stop_count - cur_ct)) as [|j] eqn:Ej; [replace (Z.to_nat (stop_count - (cur_ct + 1))) with 0%nat by lia; by rewrite !take_0, !drop_nil|].
    replace (Z.to_nat (stop_count - (cur_ct + 1))) with j by lia. done.
  - replace (Z.to_nat (want_start - cur_ct - 1)) with 0%nat by lia. destruct (Z.ltb_spec stop_count (cur_ct + 1)).
    + by replace (Z.to_nat (stop_count - cur_ct)) with 0%nat by lia.
    + replace (Z.to_nat (stop_count - cur_ct)) with (S (Z.to_nat (stop_count - (cur_ct + 1)))) by lia.
      by replace (Z.to_nat (want_start - (cur_ct + 1) - 1)) with 0%nat by lia.
Qed.

(** Page [p] holds the names from number [p * 2048] to number
    [(p + 1) * 2048], both included, counting from one: the last name of a
    full page is the first of the next. *)
Lemma list_page (r : RamIndexer DB) (page : Z) : 0 <= page ->
  List_ r page = map (listed (ram_TagIndex r))
    (drop (Z.to_nat (page * 2048 - 1)) (take (Z.to_nat ((page + 1) * 2048)) (range (nameIndex (ram_MetricIndex r))))).
Proof. intros Hp. unfold List_. rewrite list_loop_slice. unfold MAX_PER_PAGE. do 3 f_equal; [lia|f_equal; lia]. Qed.

Lemma list_page_overlap (r : RamIndexer DB) (page : Z) (e : string * string) : 0 <= page ->
  range (nameIndex (ram_MetricIndex r)) !! Z.to_nat ((page + 1) * 2048 - 1) = Some e ->
  listed (ram_TagIndex r) e ∈ List_ r page /\ List_ r (page + 1) !! 0%nat = Some (listed (ram_TagIndex r) e).
Proof.
  intros Hp He. rewrite !list_page by lia. split.
  - apply list_elem_of_fmap. exists e. split; [done|].
    apply (list_elem_of_lookup_2 _ (Z.to_nat ((page + 1) * 2048 - 1) - Z.to_nat (page * 2048 - 1))%nat).
    rewrite lookup_drop, lookup_take_lt by lia. rewrite <- He. f_equal. lia.
  - change (map (listed (ram_TagIndex r))) with (fmap (M := list) (listed (ram_TagIndex r))). rewrite list_lookup_fmap, lookup_drop, lookup_take_lt by lia.
    by replace (Z.to_nat ((page + 1) * 2048 - 1) + 0)%nat with (Z.to_nat ((page + 1) * 2048 - 1)) by lia; rewrite He.
Qed.

End pages.

(** *** The caches *)

(** The time limit is in nanoseconds and the clock in seconds: an entry is
    kept by the purge, and answered with, for more than a hundred thousand
    years. *)
Lemma tag_cache_keeps (rc : TagCache) (name value : string) (meta : bool) (id : string) (added now : Z) :
  0 <= added -> added <= now < added + TAG_CACHE_MAX_TIME_IN_CACHE -> now < 2 ^ 62 -> rc !! tc_Key name value meta = None ->
  let rc := (tc_Add rc name value meta id added).2 in
  (tc_Get (tc_purge rc now) name value meta now).1 = id.
Proof.
  intros Ha Hn Hb Hk. cbn zeta. unfold tc_Add. rewrite Hk. cbn [snd].
  assert (Hw : i64 (now - TAG_CACHE_MAX_TIME_IN_CACHE) = now - TAG_CACHE_MAX_TIME_IN_CACHE).
  { apply swrap_id; [lia|]. unfold TAG_CACHE_MAX_TIME_IN_CACHE. lia. }
  assert (Hf : tc_purge (<[tc_Key name value meta := NewTagCacheItem name value meta id added]> rc) now !! tc_Key name value meta =
    Some (NewTagCacheItem name value meta id added)).
  { unfold tc_purge. apply map_lookup_filter_Some. rewrite lookup_insert_eq. split; [done|]. rewrite Hw. cbn. lia. }
  unfold tc_Get. rewrite Hf, Hw. cbn [tc_Added NewTagCacheItem]. destruct (Z.ltb_spec added (now - TAG_CACHE_MAX_TIME_IN_CACHE)); [lia|done].
Qed.

(** Two tags with the same key: the second is answered with the first's id. *)
Example tag_cache_collision :
  (tc_Get (tc_Add NewTagCache "host" "a" false "7" 100).2 "hos" "ta" false 100).1 = "7"%string.
Proof. vm_compute. reflexivity. Qed.

(** An answer is kept for sixty seconds. *)
Lemma index_cache_answers (rc : IndexReadCache) (metric : string) (tags : SortingTags) (items : list MetricFindItem) (first : string) (added now : Z) :
  ic_cache rc !! ic_Key metric tags = None ->
  (ic_Get (ic_Add rc metric tags items first added).2 metric tags now).1 = if now - added <=? 60 then Some items else None.
Proof.
  intros Hk. unfold ic_Add. rewrite Hk. cbn [snd]. unfold ic_Get. cbn [ic_cache]. rewrite lookup_insert_eq. cbn.
  destruct (Z.ltb_spec added (now - 60)), (Z.leb_spec (now - added) 60); done || lia.
Qed.

(** Nothing is ever written to the databases, so nothing expands. *)
Example expand_is_empty :
  match ram_run (H0 := insertion_GoSort) (fun _ => 0) (mkRam NewTagIndex sample_index false) [RWrite sample_written 3] with
  | Some (Returns r) => Expand (fun _ => inl tt) (fun _ _ => true) 40 r "a.*" = Some ([], None)
  | _ => False
  end.
Proof. vm_compute. reflexivity. Qed.

(** The tags of an item do not choose its value. *)
Lemma SelectValue_ignores_tags {C : Type} {MC : MemoCache C aggItem} (c : C) (m : MetricFindItem) (now : Z) :
  SelectValue c m now = if MetricFindItem_Leaf m =? 0 then Some (SUM, c) else GuessReprValueFromKey c (MetricFindItem_Id m) now.
Proof. done. Qed.
