(* ===== verification/JLexer.v ===== *)
(** The JSON library behind the generated code
    ([vendor/github.com/mailru/easyjson]): the lexer of [jlexer/lexer.go] and
    the writer of [jwriter/writer.go].

    Data are lists of bytes, as characters.  The lexer's methods change a
    [Lexer]; its fatal error is part of the state, as in the code, where
    every method looks at it first.  [UseMultipleErrors] is never set, so
    the branches for it are left out.  The data have no capacity beyond
    their length: a slice past it is a panic, which only [Raw] can reach.
    The writer's buffer is the list of its bytes; its chunks are not
    modelled, and no code sets its error. *)
From Stdlib Require Import Ascii.
From S2P Require Import Prelude Float64 GoStrings GoParse GoFormat Wire.

Open Scope Z_scope.

Abbreviation bytes := (list ascii).

Definition text (s : string) : bytes := String.list_ascii_of_string s.
Definition untext (l : bytes) : string := String.string_of_list_ascii l.
Definition byte_of (z : Z) : ascii := ascii_of_N (Z.to_N z).

Definition quote : ascii := "034".
Definition backslash : ascii := "092".
Definition nul : ascii := "000".

(** ** Runes *)

(** [utf8.EncodeRune]. *)
Definition EncodeRune (r : Z) : bytes :=
  let r := if (r <? 0) || (0x10FFFF <? r) || ((0xD800 <=? r) && (r <? 0xE000)) then 0xFFFD else r in
  let cont k := byte_of (0x80 + (Z.shiftr r k) mod 64) in
  if r <? 0x80 then [byte_of r]
  else if r <? 0x800 then [byte_of (0xC0 + Z.shiftr r 6); cont 0]
  else if r <? 0x10000 then [byte_of (0xE0 + Z.shiftr r 12); cont 6; cont 0]
  else [byte_of (0xF0 + Z.shiftr r 18); cont 12; cont 6; cont 0].

(** The width of the rune at the front, as [utf8.DecodeRuneInString] gives
    it for a first byte of 0x80 or more; 0 when the bytes are not a rune. *)
Definition rune_width (l : bytes) : nat :=
  let within lo hi (a : option ascii) := match a with Some a => (lo <=? code a) && (code a <=? hi) | None => false end in
  let cont := within 0x80 0xBF in
  match l with
  | [] => 0
  | a :: l =>
      let c := code a in
      let second lo hi := within lo hi (l !! 0%nat) in
      let third := cont (l !! 1%nat) in
      let fourth := cont (l !! 2%nat) in
      if c <? 0xC2 then 0
      else if c <? 0xE0 then (if second 0x80 0xBF then 2 else 0)
      else if c =? 0xE0 then (if second 0xA0 0xBF && third then 3 else 0)
      else if c =? 0xED then (if second 0x80 0x9F && third then 3 else 0)
      else if c <? 0xF0 then (if second 0x80 0xBF && third then 3 else 0)
      else if c =? 0xF0 then (if second 0x90 0xBF && third && fourth then 4 else 0)
      else if c <? 0xF4 then (if second 0x80 0xBF && third && fourth then 4 else 0)
      else if c =? 0xF4 then (if second 0x80 0x8F && third && fourth then 4 else 0)
      else 0
  end.

(** [utf16.IsSurrogate] and [utf16.DecodeRune]. *)
Definition IsSurrogate (r : Z) : bool := (0xD800 <=? r) && (r <? 0xE000).
Definition utf16_DecodeRune (r1 r2 : Z) : Z :=
  if (0xD800 <=? r1) && (r1 <? 0xDC00) && (0xDC00 <=? r2) && (r2 <? 0xE000)
  then Z.lor (Z.shiftl (r1 - 0xD800) 10) (r2 - 0xDC00) + 0x10000 else 0xFFFD.

(** ** [base64.StdEncoding] *)

Definition b64_alphabet : bytes := text "ABCDEFGHIJKLMNOPQRSTUVWXYZabcdefghijklmnopqrstuvwxyz0123456789+/".

Definition b64_char (d : Z) : ascii := default nul (b64_alphabet !! Z.to_nat d).

Fixpoint b64_encode (l : list Z) : bytes :=
  match l with
  | [] => []
  | [a] => [b64_char (a / 4); b64_char (a mod 4 * 16); "="%char; "="%char]
  | [a; b] => [b64_char (a / 4); b64_char (a mod 4 * 16 + b / 16); b64_char (b mod 16 * 4); "="%char]
  | a :: b :: c :: l =>
      b64_char (a / 4) :: b64_char (a mod 4 * 16 + b / 16) :: b64_char (b mod 16 * 4 + c / 64) :: b64_char (c mod 64) :: b64_encode l
  end.

Definition b64_value (a : ascii) : option Z :=
  let c := code a in
  if (65 <=? c) && (c <=? 90) then Some (c - 65)
  else if (97 <=? c) && (c <=? 122) then Some (c - 71)
  else if (48 <=? c) && (c <=? 57) then Some (c + 4)
  else if c =? 43 then Some 62
  else if c =? 47 then Some 63
  else None.

Fixpoint b64_groups (l : bytes) : option (list Z) :=
  match l with
  | [] => Some []
  | a :: b :: c :: d :: l =>
      x ← b64_value a;
      y ← b64_value b;
      if bool_decide (c = "="%char /\ d = "="%char /\ l = []) then Some [x * 4 + y / 16]
      else
        z ← b64_value c;
        if bool_decide (d = "="%char /\ l = []) then Some [x * 4 + y / 16; y mod 16 * 16 + z / 4]
        else
          w ← b64_value d;
          rest ← b64_groups l;
          Some (x * 4 + y / 16 :: y mod 16 * 16 + z / 4 :: z mod 4 * 64 + w :: rest)
  | _ => None
  end.

(** Line ends are skipped. *)
Definition b64_decode (l : bytes) : option (list Z) :=
  b64_groups (filter (fun a => a <> "010"%char /\ a <> "013"%char) l).

(** ** [strconv.ParseUint], [ParseInt] and [ParseFloat] with both kinds of errors *)

Inductive num_error := ErrSyntax | ErrRange.

Fixpoint scan_uint (w n : Z) (s : string) : Z * option num_error :=
  match s with
  | EmptyString => (n, None)
  | String a s =>
      match digit10 a with
      | None => (0, Some ErrSyntax)
      | Some d => if n * 10 + d <? 2 ^ w then scan_uint w (n * 10 + d) s else (2 ^ w - 1, Some ErrRange)
      end
  end.

Definition parse_uint (w : Z) (s : string) : Z * option num_error :=
  if bool_decide (s = ""%string) then (0, Some ErrSyntax) else scan_uint w 0 s.

Definition parse_int (w : Z) (s : string) : Z * option num_error :=
  let '(neg, digits) := split_sign s in
  let '(un, err) := parse_uint w digits in
  match err with
  | Some ErrSyntax => (0, Some ErrSyntax)
  | _ =>
      let cutoff := 2 ^ (w - 1) in
      if negb neg && (cutoff <=? un) then (cutoff - 1, Some ErrRange)
      else if neg && (cutoff <? un) then (- cutoff, Some ErrRange)
      else (if neg then - un else un, None)
  end.

Definition parse_float (s : string) : float64 * option num_error :=
  match ParseFloat s with
  | Some f => (f, None)
  | None =>
      let '(neg, r) := split_sign s in
      let '(m, frac, dig, rest) := read_mantissa 0 0 false false r in
      match (if dig then read_exponent rest else None) with
      | Some e => (float_of_decimal neg m (e - frac), Some ErrRange)
      | None => (0, Some ErrSyntax)
      end
  end.

(** The text of the error of a number, whose characters need no escapes. *)
Definition num_error_text (fn s : string) (e : num_error) : string :=
  "strconv." +:+ fn +:+ ": parsing " +:+ String quote (s +:+ String quote (": " +:+
    match e with ErrSyntax => "invalid syntax" | ErrRange => "value out of range" end)).

(** ** The lexer *)

Inductive tokenKind := tokenUndef | tokenDelim | tokenString | tokenNumber | tokenBool | tokenNull.

#[export] Instance tokenKind_eq_dec : EqDecision tokenKind.
Proof. solve_decision. Defined.

(** [io.EOF], or a [LexerError]; that of base64 is told without the place. *)
Inductive lexer_error :=
| LexEOF
| LexerError (Reason : string) (Offset : Z) (data : bytes)
| LexBase64.

Record Lexer := mkLexer {
  Data : bytes;
  lx_start : nat;
  lx_pos : nat;
  tok_kind : tokenKind;
  tok_bool : bool;
  tok_bytes : bytes;
  tok_delim : ascii;
  firstElement : bool;
  wantSep : ascii;
  fatalError : option lexer_error
}.

(** [jlexer.Lexer{Data: data}]. *)
Definition new_Lexer (data : bytes) : Lexer := mkLexer data 0 0 tokenUndef false [] nul false nul None.

Definition set_place (r : Lexer) (start pos : nat) : Lexer :=
  mkLexer (Data r) start pos (tok_kind r) (tok_bool r) (tok_bytes r) (tok_delim r) (firstElement r) (wantSep r) (fatalError r).
Definition set_kind (r : Lexer) (k : tokenKind) : Lexer :=
  mkLexer (Data r) (lx_start r) (lx_pos r) k (tok_bool r) (tok_bytes r) (tok_delim r) (firstElement r) (wantSep r) (fatalError r).
Definition set_bool (r : Lexer) (b : bool) : Lexer :=
  mkLexer (Data r) (lx_start r) (lx_pos r) (tok_kind r) b (tok_bytes r) (tok_delim r) (firstElement r) (wantSep r) (fatalError r).
Definition set_bytes (r : Lexer) (l : bytes) : Lexer :=
  mkLexer (Data r) (lx_start r) (lx_pos r) (tok_kind r) (tok_bool r) l (tok_delim r) (firstElement r) (wantSep r) (fatalError r).
Definition set_delim (r : Lexer) (d : ascii) : Lexer :=
  mkLexer (Data r) (lx_start r) (lx_pos r) (tok_kind r) (tok_bool r) (tok_bytes r) d (firstElement r) (wantSep r) (fatalError r).
Definition set_sep (r : Lexer) (first : bool) (sep : ascii) : Lexer :=
  mkLexer (Data r) (lx_start r) (lx_pos r) (tok_kind r) (tok_bool r) (tok_bytes r) (tok_delim r) first sep (fatalError r).
Definition set_error (r : Lexer) (e : option lexer_error) : Lexer :=
  mkLexer (Data r) (lx_start r) (lx_pos r) (tok_kind r) (tok_bool r) (tok_bytes r) (tok_delim r) (firstElement r) (wantSep r) e.

Definition lx_Ok (r : Lexer) : bool := match fatalError r with None => true | Some _ => false end.

Definition maxErrorContextLen : Z := 13.

Definition errParse (r : Lexer) (what : string) : Lexer :=
  match fatalError r with
  | Some _ => r
  | None =>
      let str :=
        if Z.of_nat (length (Data r)) - Z.of_nat (lx_pos r) <=? maxErrorContextLen then Data r
        else take (Z.to_nat (maxErrorContextLen - 3)) (drop (lx_pos r) (Data r)) ++ text "..." in
      set_error r (Some (LexerError what (Z.of_nat (lx_pos r)) str))
  end.

Definition errSyntax (r : Lexer) : Lexer := errParse r "syntax error".

Definition errInvalidToken (r : Lexer) (expected : string) : Lexer :=
  match fatalError r with
  | Some _ => r
  | None =>
      let str :=
        if Z.of_nat (length (tok_bytes r)) <=? maxErrorContextLen then tok_bytes r
        else take (Z.to_nat (maxErrorContextLen - 3)) (tok_bytes r) ++ text "..." in
      set_error r (Some (LexerError ("expected " +:+ expected) (Z.of_nat (lx_pos r)) str))
  end.

(** [addNonfatalError], when one error ends the reading. *)
Definition addNonfatalError (r : Lexer) (reason : string) (data : bytes) : Lexer :=
  set_error r (Some (LexerError reason (Z.of_nat (lx_start r)) data)).

Definition AddError (r : Lexer) (e : option lexer_error) : Lexer :=
  match fatalError r with None => set_error r e | Some _ => r end.

(** The cases of the switch over the first character of a token. *)
Inductive char_class := CSep | CSpace | CQuote | COpen | CClose | CNumber | CNullWord | CTrueWord | CFalseWord | COther.

Definition is_space (a : ascii) : bool := existsb (Ascii.eqb a) [" "%char; "009"%char; "010"%char; "013"%char].

Definition class_of (a : ascii) : char_class :=
  if Ascii.eqb a ":" || Ascii.eqb a "," then CSep
  else if is_space a then CSpace
  else if Ascii.eqb a quote then CQuote
  else if Ascii.eqb a "{" || Ascii.eqb a "[" then COpen
  else if Ascii.eqb a "}" || Ascii.eqb a "]" then CClose
  else if isdig a || Ascii.eqb a "-" then CNumber
  else if Ascii.eqb a "n" then CNullWord
  else if Ascii.eqb a "t" then CTrueWord
  else if Ascii.eqb a "f" then CFalseWord
  else COther.

(** Whether the character can follow a token that is not a delimiter. *)
Definition isTokenEnd (c : ascii) : bool :=
  is_space c || existsb (Ascii.eqb c) ["["%char; "]"%char; "{"%char; "}"%char; ","%char; ":"%char].

(** [fetchNull], [fetchTrue] and [fetchFalse]: the word without its first
    letter. *)
Definition fetch_word (r : Lexer) (word : bytes) : Lexer :=
  let n := S (length word) in
  let pos := (lx_pos r + n)%nat in
  if (pos <=? length (Data r))%nat && bool_decide (take (length word) (drop (S (lx_pos r)) (Data r)) = word) &&
     match Data r !! pos with Some c => isTokenEnd c | None => true end
  then set_place r (lx_start r) pos else errSyntax r.

Definition fetchNull (r : Lexer) : Lexer := fetch_word r (text "ull").
Definition fetchTrue (r : Lexer) : Lexer := fetch_word r (text "rue").
Definition fetchFalse (r : Lexer) : Lexer := fetch_word r (text "alse").

(** The part of a number from the second character on: its length, and the
    character that ends it. *)
Fixpoint number_loop (hasE afterE hasDot : bool) (l : bytes) : nat * option ascii :=
  match l with
  | [] => (0%nat, None)
  | c :: l' =>
      let next hasE afterE hasDot := let '(i, e) := number_loop hasE afterE hasDot l' in (S i, e) in
      if isdig c then next hasE false hasDot
      else if Ascii.eqb c "." && negb hasDot then next hasE afterE true
      else if (Ascii.eqb c "e" || Ascii.eqb c "E") && negb hasE then next true true true
      else if (Ascii.eqb c "+" || Ascii.eqb c "-") && afterE then next hasE false hasDot
      else (0%nat, Some c)
  end.

Definition fetchNumber (r : Lexer) : Lexer :=
  let pos := S (lx_pos r) in
  let '(i, e) := number_loop false false false (drop pos (Data r)) in
  match e with
  | Some c =>
      let r := set_place r (lx_start r) (pos + i) in
      if isTokenEnd c then set_bytes r (take (pos + i - lx_start r) (drop (lx_start r) (Data r))) else errSyntax r
  | None => set_bytes (set_place r (lx_start r) (length (Data r))) (drop (lx_start r) (Data r))
  end.

(** [skip] characters are jumped over; the place [i] of the closing quote
    and the number of bytes that escapes take up. *)
Fixpoint string_len_loop (skip : nat) (i delta : nat) (l : bytes) : option (nat * nat) :=
  match l with
  | [] => None
  | c :: l' =>
      match skip with
      | S skip => string_len_loop skip (S i) delta l'
      | O =>
          if Ascii.eqb c backslash then
            string_len_loop 1 (S i) (match l' with d :: _ => if Ascii.eqb d "u" then S (S delta) else S delta | [] => S delta end) l'
          else if Ascii.eqb c quote then Some (i, delta)
          else string_len_loop 0 (S i) delta l'
      end
  end.

Definition findStringLen (data : bytes) : bool * nat :=
  match string_len_loop 0 0 0 data with
  | Some (i, delta) => ((0 <? delta)%nat, (i - delta)%nat)
  | None => (false, length data)
  end.

Definition hex_value (a : ascii) : option Z :=
  let c := code a in
  if (48 <=? c) && (c <=? 57) then Some (c - 48)
  else if (97 <=? c) && (c <=? 102) then Some (c - 87)
  else if (65 <=? c) && (c <=? 70) then Some (c - 55)
  else None.

(** [None] is -1. *)
Definition getu4 (s : bytes) : option Z :=
  match s with
  | b :: u :: c3 :: c2 :: c1 :: c0 :: _ =>
      if Ascii.eqb b backslash && Ascii.eqb u "u" then
        h3 ← hex_value c3;
        h2 ← hex_value c2;
        h1 ← hex_value c1;
        h0 ← hex_value c0;
        Some (((h3 * 16 + h2) * 16 + h1) * 16 + h0)
      else None
  | _ => None
  end.

(** The number of bytes taken and the bytes they stand for, or the text of
    the error. *)
Definition processEscape (data : bytes) : (nat * bytes) + string :=
  match data with
  | _ :: c :: _ =>
      if Ascii.eqb c quote || Ascii.eqb c "/" || Ascii.eqb c backslash then inl (2%nat, [c])
      else if Ascii.eqb c "b" then inl (2%nat, ["008"%char])
      else if Ascii.eqb c "f" then inl (2%nat, ["012"%char])
      else if Ascii.eqb c "n" then inl (2%nat, ["010"%char])
      else if Ascii.eqb c "r" then inl (2%nat, ["013"%char])
      else if Ascii.eqb c "t" then inl (2%nat, ["009"%char])
      else if Ascii.eqb c "u" then
        match getu4 data with
        | None => inr "syntax error"%string
        | Some rr =>
            if IsSurrogate rr then
              let dec := utf16_DecodeRune rr (default (-1) (getu4 (drop 6 data))) in
              if bool_decide (dec <> 0xFFFD) then inl (12%nat, EncodeRune dec) else inl (6%nat, EncodeRune 0xFFFD)
            else inl (6%nat, EncodeRune rr)
        end
      else inr "syntax error"%string
  | _ => inr ("syntax error at " +:+ untext data)%string
  end.

Inductive string_end := SEnd (i : nat) (l : bytes) | SBad (l : bytes) (what : string).

(** The loop of [fetchString] over a string with escapes. *)
Fixpoint string_loop (skip i : nat) (acc l : bytes) : string_end :=
  match l with
  | [] => SBad acc "unterminated string literal"
  | c :: l' =>
      match skip with
      | S skip => string_loop skip (S i) acc l'
      | O =>
          if Ascii.eqb c quote then SEnd i acc
          else if Ascii.eqb c backslash then
            match processEscape l with
            | inl (off, b) => string_loop (pred off) (S i) (acc ++ b) l'
            | inr what => SBad acc what
            end
          else string_loop 0 (S i) (acc ++ [c]) l'
      end
  end.

Definition fetchString (r : Lexer) : Lexer :=
  let pos := S (lx_pos r) in
  let r := set_place r (lx_start r) pos in
  let data := drop pos (Data r) in
  let '(hasEscapes, length) := findStringLen data in
  if negb hasEscapes then set_place (set_bytes r (take length data)) (lx_start r) (pos + length + 1)
  else
    match string_loop 0 0 [] data with
    | SEnd i l => set_place (set_bytes r l) (lx_start r) (pos + i + 1)
    | SBad l what => errParse (set_bytes r l) what
    end.

(** An error unless no separator is wanted. *)
Definition no_sep (r : Lexer) : Lexer := if bool_decide (wantSep r = nul) then r else errSyntax r.

(** The loop of [FetchToken] over the data from the position at its start:
    after a wrong separator it goes on, without moving the position. *)
Fixpoint fetch_loop (l : bytes) (r : Lexer) : Lexer :=
  match l with
  | [] => set_error r (Some LexEOF)
  | c :: l =>
      match class_of c with
      | CSep =>
          fetch_loop l
            (if bool_decide (wantSep r = c)
             then set_sep (set_place r (S (lx_start r)) (S (lx_pos r))) (firstElement r) nul
             else errSyntax r)
      | CSpace => fetch_loop l (set_place r (S (lx_start r)) (S (lx_pos r)))
      | CQuote => fetchString (set_kind (no_sep r) tokenString)
      | COpen =>
          let r := no_sep r in
          let r := set_kind (set_sep r true (wantSep r)) tokenDelim in
          set_place (set_delim r (default nul (Data r !! lx_pos r))) (lx_start r) (S (lx_pos r))
      | CClose =>
          let r := if negb (firstElement r) && negb (Ascii.eqb (wantSep r) ",") then errSyntax r else r in
          let r := set_kind (set_sep r (firstElement r) nul) tokenDelim in
          set_place (set_delim r (default nul (Data r !! lx_pos r))) (lx_start r) (S (lx_pos r))
      | CNumber => fetchNumber (set_kind (no_sep r) tokenNumber)
      | CNullWord => fetchNull (set_kind (no_sep r) tokenNull)
      | CTrueWord => fetchTrue (set_bool (set_kind (no_sep r) tokenBool) true)
      | CFalseWord => fetchFalse (set_bool (set_kind (no_sep r) tokenBool) false)
      | COther => errSyntax r
      end
  end.

Definition FetchToken (r : Lexer) : Lexer :=
  let r := set_place (set_kind r tokenUndef) (lx_pos r) (lx_pos r) in
  if (length (Data r) <? lx_pos r)%nat then errParse r "Unexpected end of data"
  else fetch_loop (drop (lx_pos r) (Data r)) r.

(** [if r.token.kind == tokenUndef && r.Ok() { r.FetchToken() }], which is
    [scanToken], too. *)
Definition scanToken (r : Lexer) : Lexer :=
  if bool_decide (tok_kind r = tokenUndef) && lx_Ok r then FetchToken r else r.

Definition consume (r : Lexer) : Lexer := set_delim (set_kind r tokenUndef) nul.

Definition Delim (c : ascii) (r : Lexer) : Lexer :=
  let r := scanToken r in
  if negb (lx_Ok r) || negb (Ascii.eqb (tok_delim r) c) then errInvalidToken (consume r) (untext [c]) else consume r.

Definition IsDelim (c : ascii) (r : Lexer) : bool * Lexer :=
  let r := scanToken r in (negb (lx_Ok r) || Ascii.eqb (tok_delim r) c, r).

Definition IsNull (r : Lexer) : bool * Lexer :=
  let r := scanToken r in (lx_Ok r && bool_decide (tok_kind r = tokenNull), r).

Definition lx_Skip (r : Lexer) : Lexer := consume (scanToken r).

(** The loop of [SkipRecursive]: the number of characters up to and with
    the end of the object or array. *)
Fixpoint skip_loop (start stop : ascii) (l : bytes) (i level : nat) (inQuotes wasEscape : bool) : option nat :=
  match l with
  | [] => None
  | c :: l =>
      if Ascii.eqb c start && negb inQuotes then skip_loop start stop l (S i) (S level) inQuotes false
      else if Ascii.eqb c stop && negb inQuotes then
        match pred level with
        | O => Some (S i)
        | level => skip_loop start stop l (S i) level inQuotes false
        end
      else if Ascii.eqb c backslash && inQuotes then skip_loop start stop l (S i) level inQuotes (negb wasEscape)
      else if Ascii.eqb c quote && inQuotes then skip_loop start stop l (S i) level wasEscape false
      else if Ascii.eqb c quote then skip_loop start stop l (S i) level true false
      else skip_loop start stop l (S i) level inQuotes false
  end.

Definition skip_to (r : Lexer) (start stop : ascii) : Lexer :=
  let r := consume r in
  match skip_loop start stop (drop (lx_pos r) (Data r)) 0 1 false false with
  | Some n => set_place r (lx_start r) (lx_pos r + n)
  | None =>
      let r := set_place r (lx_start r) (length (Data r)) in
      set_error r (Some (LexerError "EOF reached while skipping array/object or token" (Z.of_nat (lx_pos r)) []))
  end.

Definition SkipRecursive (r : Lexer) : Lexer :=
  let r := scanToken r in
  if Ascii.eqb (tok_delim r) "{" then skip_to r "{" "}"
  else if Ascii.eqb (tok_delim r) "[" then skip_to r "[" "]"
  else consume r.

(** [nil] after an error; a panic when a string without its end made the
    position pass the data. *)
Definition Raw (r : Lexer) : outcome (bytes * Lexer) :=
  let r := SkipRecursive r in
  if negb (lx_Ok r) then Ok ([], r)
  else if (length (Data r) <? lx_pos r)%nat || (lx_pos r <? lx_start r)%nat then Panic
  else Ok (take (lx_pos r - lx_start r) (drop (lx_start r) (Data r)), r).

Definition IsStart (r : Lexer) : bool := (lx_pos r =? 0)%nat.

Fixpoint consumed_loop (l : bytes) (r : Lexer) : Lexer :=
  match l with
  | [] => r
  | c :: l =>
      if is_space c then consumed_loop l (set_place r (S (lx_start r)) (S (lx_pos r)))
      else
        set_error r (Some (LexerError ("invalid character '" +:+ untext (EncodeRune (code c)) +:+ "' after top-level value")
                             (Z.of_nat (lx_pos r)) (drop (lx_pos r) (Data r))))
  end.

Definition Consumed (r : Lexer) : Lexer :=
  if (length (Data r) <? lx_pos r)%nat || negb (lx_Ok r) then r else consumed_loop (drop (lx_pos r) (Data r)) r.

(** [unsafeString] and [String]. *)
Definition lx_String (r : Lexer) : string * Lexer :=
  let r := scanToken r in
  if negb (lx_Ok r) || negb (bool_decide (tok_kind r = tokenString)) then (""%string, errInvalidToken r "string")
  else (untext (tok_bytes r), consume r).

Definition UnsafeString (r : Lexer) : string * Lexer := lx_String r.

Definition lx_Bytes (r : Lexer) : option (list Z) * Lexer :=
  let r := scanToken r in
  if negb (lx_Ok r) || negb (bool_decide (tok_kind r = tokenString)) then (None, errInvalidToken r "string")
  else
    match b64_decode (tok_bytes r) with
    | Some l => (Some l, consume r)
    | None => (None, set_error r (Some LexBase64))
    end.

Definition lx_Bool (r : Lexer) : bool * Lexer :=
  let r := scanToken r in
  if negb (lx_Ok r) || negb (bool_decide (tok_kind r = tokenBool)) then (false, errInvalidToken r "bool")
  else (tok_bool r, consume r).

Definition lx_number (r : Lexer) : string * Lexer :=
  let r := scanToken r in
  if negb (lx_Ok r) || negb (bool_decide (tok_kind r = tokenNumber)) then (""%string, errInvalidToken r "number")
  else (untext (tok_bytes r), consume r).

(** The numbers of the kinds below: an error of the conversion goes with
    the value it gives. *)
Definition convert {A} (fn : string) (zero : A) (parse : string -> A * option num_error) (r : Lexer) : A * Lexer :=
  let '(s, r) := lx_number r in
  if negb (lx_Ok r) then (zero, r)
  else
    let '(n, err) := parse s in
    (n, match err with Some e => addNonfatalError r (num_error_text fn s e) (text s) | None => r end).

Definition lx_Uint32 : Lexer -> Z * Lexer := convert "ParseUint" 0 (parse_uint 32).
Definition lx_Uint64 : Lexer -> Z * Lexer := convert "ParseUint" 0 (parse_uint 64).
Definition lx_Int32 : Lexer -> Z * Lexer := convert "ParseInt" 0 (parse_int 32).
Definition lx_Int64 : Lexer -> Z * Lexer := convert "ParseInt" 0 (parse_int 64).
Definition lx_Float64 : Lexer -> float64 * Lexer := convert "ParseFloat" 0 parse_float.

Definition WantComma (r : Lexer) : Lexer := set_sep r false ",".
Definition WantColon (r : Lexer) : Lexer := set_sep r false ":".

(** ** The writer *)

Definition hex_chars : bytes := text "0123456789abcdef".
Definition hex_digit (d : Z) : ascii := default nul (hex_chars !! Z.to_nat d).

(** With [NoEscapeHTML] unset, as it always is. *)
Definition isNotEscapedSingleChar (c : ascii) : bool :=
  negb (existsb (Ascii.eqb c) ["<"%char; ">"%char; "&"%char; backslash; quote]) && (0x20 <=? code c) && (code c <? 0x80).

Definition escape_single (c : ascii) : bytes :=
  if Ascii.eqb c "009" then [backslash; "t"%char]
  else if Ascii.eqb c "013" then [backslash; "r"%char]
  else if Ascii.eqb c "010" then [backslash; "n"%char]
  else if Ascii.eqb c backslash then [backslash; backslash]
  else if Ascii.eqb c quote then [backslash; quote]
  else backslash :: text "u00" ++ [hex_digit (Z.shiftr (code c) 4); hex_digit (Z.land (code c) 0xf)].

(** The separators of lines and paragraphs. *)
Definition line_separator (l : bytes) : option Z :=
  match l with
  | a :: b :: c :: _ =>
      if (code a =? 0xE2) && (code b =? 0x80) && ((code c =? 0xA8) || (code c =? 0xA9)) then Some (code c - 0xA0) else None
  | _ => None
  end.

(** The loop of [String]: [raw] bytes are copied and [skip] bytes left out,
    as the rest of a rune that is written as it is or escaped. *)
Fixpoint escape (raw skip : nat) (l : bytes) : bytes :=
  match l with
  | [] => []
  | c :: l' =>
      match skip, raw with
      | S skip, _ => escape raw skip l'
      | O, S raw => c :: escape raw 0 l'
      | O, O =>
          if isNotEscapedSingleChar c then c :: escape 0 0 l'
          else if code c <? 0x80 then escape_single c ++ escape 0 0 l'
          else
            match rune_width l with
            | O => backslash :: text "ufffd" ++ escape 0 0 l'
            | S w =>
                match line_separator l with
                | Some d => backslash :: text "u202" ++ [hex_digit d] ++ escape 0 w l'
                | None => c :: escape w 0 l'
                end
            end
      end
  end.

Definition jw_String (s : string) : bytes := quote :: escape 0 0 (text s) ++ [quote].
Definition jw_Base64Bytes (data : option (list Z)) : bytes :=
  match data with None => text "null" | Some l => quote :: b64_encode l ++ [quote] end.
Definition jw_Uint (n : Z) : bytes := text (FormatUint n 10).
Definition jw_Int (n : Z) : bytes := text (FormatInt n).
Definition jw_Float64 (f : float64) : bytes := text (FormatFloat f).
Definition jw_Bool (b : bool) : bytes := text (if b then "true" else "false").

(** The bytes of a [MarshalJSON]; none are null. *)
Definition jw_Raw (data : bytes) : bytes := match data with [] => text "null" | _ => data end.

Example string_escapes :
  untext (jw_String (untext ["a"%char; quote; "010"%char; "<"%char; "195"%char; "169"%char; "255"%char])) =
  untext ([quote; "a"%char; backslash; quote; backslash; "n"%char] ++ backslash :: text "u003c" ++ ["195"%char; "169"%char; backslash] ++
          text "ufffd" ++ [quote]).
Proof. vm_compute. reflexivity. Qed.
