(* ===== verification/EasyJson.v ===== *)
(** The code that the easyjson generator emits ([schemas/*/*_easyjson.go]).

    The generator walks the type of a message and emits, for each part of
    it, the same pieces of code: what it emits is [encode_value],
    [encode_fields], [decode_value] and [decode_struct] below, by recursion
    on the shape of the type, over the lexer and the writer of [JLexer].
    Decoding changes an object that may hold something already, as it does
    in the code: fields that do not occur keep what they hold. *)
From Stdlib Require Import Ascii.
From S2P Require Import Prelude Float64 GoStrings GoParse GoFormat Repr Wire JLexer.

Open Scope Z_scope.

(** ** Shapes of types *)

(** How a struct behind a pointer is written: by the generated code, or by
    a method of its own ([RawDataPoint] and [DataPoint] of
    [schemas/metrics/metrics.go]). *)
Inductive jmode := MGenerated | MRawDataPoint | MDataPoint.

(** How it is read: its bytes are cut out and given to [UnmarshalJSON], or
    it is read from the same lexer. *)
Inductive jlink := ByRaw | Direct.

(** A float may pass [CheckFloat] before it is written.  A slice and a byte
    slice may be nil. *)
Inductive jshape :=
| JInt64 | JInt32 | JUint64 | JUint32
| JFloat64 (check : bool)
| JBool | JString | JBytes
| JSlice (sh : jshape)
| JPtr (link : jlink) (mode : jmode) (fs : jfields)
with jfields :=
| JNil
| JCons (name : string) (omitempty : bool) (sh : jshape) (fs : jfields).

Declare Scope jshape_scope.
Notation "n ↦ sh ;; fs" := (JCons n false sh fs) (at level 70, sh at next level, right associativity) : jshape_scope.
Notation "n ↦? sh ;; fs" := (JCons n true sh fs) (at level 70, sh at next level, right associativity) : jshape_scope.
Bind Scope jshape_scope with jfields.

Fixpoint jdenote (sh : jshape) : Type :=
  match sh with
  | JInt64 | JInt32 | JUint64 | JUint32 => Z
  | JFloat64 _ => float64
  | JBool => bool
  | JString => string
  | JBytes => option (list Z)
  | JSlice sh => option (list (jdenote sh))
  | JPtr _ _ fs => option (jdenote_fields fs)
  end
with jdenote_fields (fs : jfields) : Type :=
  match fs with
  | JNil => unit
  | JCons _ _ sh fs => jdenote sh * jdenote_fields fs
  end.

Definition jzero (sh : jshape) : jdenote sh :=
  match sh with
  | JInt64 | JInt32 | JUint64 | JUint32 => 0
  | JFloat64 _ => 0
  | JBool => false
  | JString => ""%string
  | JBytes => None
  | JSlice _ => None
  | JPtr _ _ _ => None
  end.

Fixpoint jzero_fields (fs : jfields) : jdenote_fields fs :=
  match fs with
  | JNil => tt
  | JCons _ _ sh fs => (jzero sh, jzero_fields fs)
  end.

(** ** Writing *)

(** The condition of [omitempty]. *)
Definition jempty (sh : jshape) : jdenote sh -> bool :=
  match sh with
  | JInt64 | JInt32 | JUint64 | JUint32 => fun v => v =? 0
  | JFloat64 _ => fun v => feq v 0
  | JBool => negb
  | JString => fun v => bool_decide (v = ""%string)
  | JBytes => fun v => (length (default [] v) =? 0)%nat
  | JSlice _ => fun v => (length (default [] v) =? 0)%nat
  | JPtr _ _ _ => fun v => match v with None => true | Some _ => false end
  end.

(** [AppendFloat(f, 'f', -1, 64)]. *)
Definition FormatFloat_f (f : float64) : string :=
  if IsNaN f then "NaN"
  else if IsInf f then (if signbit f then "-Inf" else "+Inf")
  else
    let sign := if signbit f then "-"%string else ""%string in
    let m := frac_field f + (if exp_field f =? 0 then 0 else 2 ^ 52) in
    let e := (if exp_field f =? 0 then 1 else exp_field f) - 1075 in
    if m =? 0 then sign +:+ "0" else let '(ds, dp) := shortest_digits m e in sign +:+ fmtF ds dp.

(** [%f]: six digits behind the point, rounded half to even. *)
Definition FormatFloat_6 (f : float64) : string :=
  if IsNaN f then "NaN"
  else if IsInf f then (if signbit f then "-Inf" else "+Inf")
  else
    let m := frac_field f + (if exp_field f =? 0 then 0 else 2 ^ 52) in
    let e := (if exp_field f =? 0 then 1 else exp_field f) - 1075 in
    let n :=
      if 0 <=? e then m * 2 ^ e * 10 ^ 6
      else
        let d := 2 ^ (- e) in
        let q := m * 10 ^ 6 / d in
        let rest := 2 * (m * 10 ^ 6 mod d) in
        if (d <? rest) || ((d =? rest) && Z.odd q) then q + 1 else q in
    let frac := format_go 10 10 (n mod 10 ^ 6) "" in
    (if signbit f then "-" else "") +:+ format_go 10 400 (n / 10 ^ 6) "" +:+ "." +:+ zeros (6 - String.length frac) +:+ frac.

Definition jkey (name : string) : bytes := quote :: text name ++ [quote; ":"%char].

Fixpoint jcommas (l : list bytes) : bytes :=
  match l with
  | [] => []
  | [a] => a
  | a :: l => a ++ ","%char :: jcommas l
  end.

(** [RawDataPoint.floatToJsonByte], with a comma as its end; a value that
    is not a number is written without it. *)
Definition floatToJsonByte (name : string) (val : float64) : bytes :=
  jkey name ++ (if IsNaN val then text "null" else text (FormatFloat_f val) ++ [","%char]).

(** [RawDataPoint.MarshalJSON], field by field. *)
Fixpoint raw_point_fields (fs : jfields) : jdenote_fields fs -> bytes :=
  match fs with
  | JNil => fun _ => []
  | JCons name _ sh fs => fun v =>
      let more := match fs with JNil => [] | JCons _ _ _ _ => [","%char] end in
      match sh return jdenote sh -> bytes with
      | JUint32 => fun a => jkey name ++ jw_Uint a ++ more
      | JInt64 => fun a => jkey name ++ jw_Int a ++ more
      | JFloat64 _ => fun a => floatToJsonByte name a
      | _ => fun _ => []
      end v.1 ++ raw_point_fields fs v.2
  end.

(** [DataPoint.MarshalJSON]: the value and the time as an array. *)
Definition data_point_array (fs : jfields) : jdenote_fields fs -> bytes :=
  match fs with
  | JCons _ _ JUint32 (JCons _ _ (JFloat64 _) JNil) => fun v =>
      if IsNaN v.2.1 then text "[null, " ++ jw_Uint v.1 ++ text "]"
      else text "[" ++ text (FormatFloat_6 v.2.1) ++ text ", " ++ jw_Uint v.1 ++ text "]"
  | _ => fun _ => []
  end.

Fixpoint encode_value (sh : jshape) : jdenote sh -> bytes :=
  match sh with
  | JInt64 | JInt32 => jw_Int
  | JUint64 | JUint32 => jw_Uint
  | JFloat64 check => fun v => jw_Float64 (if check then CheckFloat v else v)
  | JBool => jw_Bool
  | JString => jw_String
  | JBytes => jw_Base64Bytes
  | JSlice sh => fun v =>
      match v with
      | None => text "null"
      | Some l => "["%char :: jcommas (map (encode_value sh) l) ++ ["]"%char]
      end
  | JPtr _ mode fs => fun v =>
      match v with
      | None => text "null"
      | Some v =>
          jw_Raw (match mode with
                  | MGenerated => "{"%char :: encode_fields fs v true ++ ["}"%char]
                  | MRawDataPoint => "{"%char :: raw_point_fields fs v ++ ["}"%char]
                  | MDataPoint => data_point_array fs v
                  end)
      end
  end
with encode_fields (fs : jfields) : jdenote_fields fs -> bool -> bytes :=
  match fs with
  | JNil => fun _ _ => []
  | JCons name omit sh fs => fun v first =>
      if omit && jempty sh v.1 then encode_fields fs v.2 first
      else (if first then [] else [","%char]) ++ jkey name ++ encode_value sh v.1 ++ encode_fields fs v.2 false
  end.

Definition encode_struct (fs : jfields) (v : jdenote_fields fs) : bytes :=
  "{"%char :: encode_fields fs v true ++ ["}"%char].

(** ** Reading *)

(** The loops below end within one round for each byte of the data. *)
Definition jfuel (r : Lexer) : nat := length (Data r) + 3.

Fixpoint elements {A} (elem : Lexer -> outcome (A * Lexer)) (fuel : nat) (acc : list A) (r : Lexer) : outcome (list A * Lexer) :=
  match fuel with
  | O => NoFuel
  | S fuel =>
      let '(stop, r) := IsDelim "]" r in
      if stop : bool then Ok (acc, r)
      else '(v, r) ← elem r; elements elem fuel (acc ++ [v]) (WantComma r)
  end.

Fixpoint rounds {A} (field : string -> A -> Lexer -> outcome (A * Lexer)) (fuel : nat) (out : A) (r : Lexer) : outcome (A * Lexer) :=
  match fuel with
  | O => NoFuel
  | S fuel =>
      let '(stop, r) := IsDelim "}" r in
      if stop : bool then Ok (out, r)
      else
        let '(key, r) := UnsafeString r in
        let r := WantColon r in
        let '(null, r) := IsNull r in
        if null : bool then rounds field fuel out (WantComma (lx_Skip r))
        else '(out, r) ← field key out r; rounds field fuel out (WantComma r)
  end.

(** The body of a generated function for a struct. *)
Definition decode_struct_with {A} (field : string -> A -> Lexer -> outcome (A * Lexer)) (out : A) (r : Lexer) : outcome (A * Lexer) :=
  let isTopLevel := IsStart r in
  let '(null, r) := IsNull r in
  if null : bool then
    let r := if isTopLevel then Consumed r else r in Ok (out, lx_Skip r)
  else
    let r := Delim "{" r in
    '(out, r) ← rounds field (jfuel r) out r;
    let r := Delim "}" r in
    Ok (out, if isTopLevel then Consumed r else r).

Definition pure {A} (x : A * Lexer) : outcome (A * Lexer) := Ok x.

Fixpoint decode_value (sh : jshape) : jdenote sh -> Lexer -> outcome (jdenote sh * Lexer) :=
  match sh with
  | JInt64 => fun _ r => pure (lx_Int64 r)
  | JInt32 => fun _ r => pure (lx_Int32 r)
  | JUint64 => fun _ r => pure (lx_Uint64 r)
  | JUint32 => fun _ r => pure (lx_Uint32 r)
  | JFloat64 _ => fun _ r => pure (lx_Float64 r)
  | JBool => fun _ r => pure (lx_Bool r)
  | JString => fun _ r => pure (lx_String r)
  | JBytes => fun _ r =>
      let '(null, r) := IsNull r in
      if null : bool then Ok (None, lx_Skip r) else pure (lx_Bytes r)
  | JSlice sh => fun _ r =>
      let '(null, r) := IsNull r in
      if null : bool then Ok (None, lx_Skip r)
      else
        let r := Delim "[" r in
        let r := (IsDelim "]" r).2 in
        '(l, r) ← elements (decode_value sh (jzero sh)) (jfuel r) [] r;
        Ok (Some l, Delim "]" r)
  | JPtr link _ fs => fun out r =>
      let '(null, r) := IsNull r in
      if null : bool then Ok (None, lx_Skip r)
      else
        let out := default (jzero_fields fs) out in
        match link with
        | Direct => '(out, r) ← decode_struct_with (decode_field fs) out r; Ok (Some out, r)
        | ByRaw =>
            '(data, r) ← Raw r;
            if lx_Ok r then
              '(out, r') ← decode_struct_with (decode_field fs) out (new_Lexer data);
              Ok (Some out, AddError r (fatalError r'))
            else Ok (Some out, r)
        end
  end
with decode_field (fs : jfields) : string -> jdenote_fields fs -> Lexer -> outcome (jdenote_fields fs * Lexer) :=
  match fs with
  | JNil => fun _ out r => Ok (out, SkipRecursive r)
  | JCons name _ sh fs => fun key out r =>
      if bool_decide (key = name) then '(v, r) ← decode_value sh out.1 r; Ok ((v, out.2), r)
      else '(rest, r) ← decode_field fs key out.2 r; Ok ((out.1, rest), r)
  end.

Definition decode_struct (fs : jfields) (out : jdenote_fields fs) (r : Lexer) : outcome (jdenote_fields fs * Lexer) :=
  decode_struct_with (decode_field fs) out r.

(** [UnmarshalJSON] of a struct: the object and the error. *)
Definition UnmarshalJSON (fs : jfields) (out : jdenote_fields fs) (data : bytes) : outcome (jdenote_fields fs * option lexer_error) :=
  '(out, r) ← decode_struct fs out (new_Lexer data); Ok (out, fatalError r).

(** The functions for the types that are slices. *)
Definition decode_slice (sh : jshape) (out : jdenote (JSlice sh)) (r : Lexer) : outcome (jdenote (JSlice sh) * Lexer) :=
  let isTopLevel := IsStart r in
  '(out, r) ← decode_value (JSlice sh) out r;
  Ok (out, if isTopLevel then Consumed r else r).

Definition slice_UnmarshalJSON (sh : jshape) (out : jdenote (JSlice sh)) (data : bytes)
    : outcome (jdenote (JSlice sh) * option lexer_error) :=
  '(out, r) ← decode_slice sh out (new_Lexer data); Ok (out, fatalError r).

(** ** The messages *)

#[local] Open Scope jshape_scope.

Definition Tag_json : jfields :=
  "name" ↦? JString ;; "value" ↦? JString ;; JNil.
Definition jtags : jshape := JSlice (JPtr ByRaw MGenerated Tag_json).
Definition Tag_encode (v : jdenote_fields Tag_json) : bytes := encode_struct Tag_json v.
Definition Tag_MarshalJSON (v : jdenote_fields Tag_json) : bytes := Tag_encode v.
Definition Tag_decode (out : jdenote_fields Tag_json) (r : Lexer) : outcome (jdenote_fields Tag_json * Lexer) :=
  decode_struct Tag_json out r.
Definition Tag_UnmarshalJSON (out : jdenote_fields Tag_json) (data : bytes) : outcome (jdenote_fields Tag_json * option lexer_error) :=
  UnmarshalJSON Tag_json out data.

Definition StatName_json : jfields :=
  "key" ↦? JString ;; "resolution" ↦? JUint32 ;; "ttl" ↦? JUint32 ;; "tagMode" ↦? JInt32 ;; "hashMode" ↦? JInt32 ;;
   "tags" ↦? jtags ;; "meta_tags" ↦? jtags ;; JNil.
Definition StatName_encode (v : jdenote_fields StatName_json) : bytes := encode_struct StatName_json v.
Definition StatName_MarshalJSON (v : jdenote_fields StatName_json) : bytes := StatName_encode v.
Definition StatName_decode (out : jdenote_fields StatName_json) (r : Lexer) : outcome (jdenote_fields StatName_json * Lexer) :=
  decode_struct StatName_json out r.
Definition StatName_UnmarshalJSON (out : jdenote_fields StatName_json) (data : bytes) : outcome (jdenote_fields StatName_json * option lexer_error) :=
  UnmarshalJSON StatName_json out data.

Definition StatRepr_json : jfields :=
  "name" ↦? JPtr ByRaw MGenerated StatName_json ;; "time" ↦? JInt64 ;; "min" ↦? JFloat64 true ;; "max" ↦? JFloat64 true
   ;; "last" ↦? JFloat64 true ;; "sum" ↦? JFloat64 true ;; "count" ↦? JInt64 ;; JNil.
Definition StatRepr_encode (v : jdenote_fields StatRepr_json) : bytes := encode_struct StatRepr_json v.
Definition StatRepr_MarshalJSON (v : jdenote_fields StatRepr_json) : bytes := StatRepr_encode v.
Definition StatRepr_decode (out : jdenote_fields StatRepr_json) (r : Lexer) : outcome (jdenote_fields StatRepr_json * Lexer) :=
  decode_struct StatRepr_json out r.
Definition StatRepr_UnmarshalJSON (out : jdenote_fields StatRepr_json) (data : bytes) : outcome (jdenote_fields StatRepr_json * option lexer_error) :=
  UnmarshalJSON StatRepr_json out data.

Definition RawMetric_json : jfields :=
  "time" ↦? JInt64 ;; "metric" ↦? JString ;; "value" ↦? JFloat64 false ;; "tags" ↦? jtags ;; "meta_tags" ↦? jtags ;;
   "sent_time" ↦? JInt64 ;; JNil.
Definition RawMetric_encode (v : jdenote_fields RawMetric_json) : bytes := encode_struct RawMetric_json v.
Definition RawMetric_MarshalJSON (v : jdenote_fields RawMetric_json) : bytes := RawMetric_encode v.
Definition RawMetric_decode (out : jdenote_fields RawMetric_json) (r : Lexer) : outcome (jdenote_fields RawMetric_json * Lexer) :=
  decode_struct RawMetric_json out r.
Definition RawMetric_UnmarshalJSON (out : jdenote_fields RawMetric_json) (data : bytes) : outcome (jdenote_fields RawMetric_json * option lexer_error) :=
  UnmarshalJSON RawMetric_json out data.

Definition UnProcessedMetric_json : jfields :=
  "time" ↦? JInt64 ;; "metric" ↦? JString ;; "min" ↦? JFloat64 false ;; "max" ↦? JFloat64 false ;; "last" ↦? JFloat64
   false ;; "sum" ↦? JFloat64 false ;; "count" ↦? JInt64 ;; "tags" ↦? jtags ;; "meta_tags" ↦? jtags ;; "sent_time" ↦?
   JInt64 ;; JNil.
Definition UnProcessedMetric_encode (v : jdenote_fields UnProcessedMetric_json) : bytes := encode_struct UnProcessedMetric_json v.
Definition UnProcessedMetric_MarshalJSON (v : jdenote_fields UnProcessedMetric_json) : bytes := UnProcessedMetric_encode v.
Definition UnProcessedMetric_decode (out : jdenote_fields UnProcessedMetric_json) (r : Lexer) : outcome (jdenote_fields UnProcessedMetric_json * Lexer) :=
  decode_struct UnProcessedMetric_json out r.
Definition UnProcessedMetric_UnmarshalJSON (out : jdenote_fields UnProcessedMetric_json) (data : bytes) : outcome (jdenote_fields UnProcessedMetric_json * option lexer_error) :=
  UnmarshalJSON UnProcessedMetric_json out data.

Definition SingleMetric_json : jfields :=
  "id" ↦? JUint64 ;; "uid" ↦? JString ;; "time" ↦? JInt64 ;; "metric" ↦? JString ;; "min" ↦? JFloat64 false ;; "max" ↦?
   JFloat64 false ;; "last" ↦? JFloat64 false ;; "sum" ↦? JFloat64 false ;; "count" ↦? JInt64 ;; "resolution" ↦? JUint32
   ;; "ttl" ↦? JUint32 ;; "tags" ↦? jtags ;; "meta_tags" ↦? jtags ;; "sent_time" ↦? JInt64 ;; JNil.
Definition SingleMetric_encode (v : jdenote_fields SingleMetric_json) : bytes := encode_struct SingleMetric_json v.
Definition SingleMetric_MarshalJSON (v : jdenote_fields SingleMetric_json) : bytes := SingleMetric_encode v.
Definition SingleMetric_decode (out : jdenote_fields SingleMetric_json) (r : Lexer) : outcome (jdenote_fields SingleMetric_json * Lexer) :=
  decode_struct SingleMetric_json out r.
Definition SingleMetric_UnmarshalJSON (out : jdenote_fields SingleMetric_json) (data : bytes) : outcome (jdenote_fields SingleMetric_json * option lexer_error) :=
  UnmarshalJSON SingleMetric_json out data.

Definition SeriesMetric_json : jfields :=
  "id" ↦? JUint64 ;; "uid" ↦? JString ;; "time" ↦? JInt64 ;; "metric" ↦? JString ;; "encoding" ↦? JString ;; "data" ↦?
   JBytes ;; "resolution" ↦? JUint32 ;; "ttl" ↦? JUint32 ;; "tags" ↦? jtags ;; "meta_tags" ↦? jtags ;; "sent_time" ↦?
   JInt64 ;; JNil.
Definition SeriesMetric_encode (v : jdenote_fields SeriesMetric_json) : bytes := encode_struct SeriesMetric_json v.
Definition SeriesMetric_MarshalJSON (v : jdenote_fields SeriesMetric_json) : bytes := SeriesMetric_encode v.
Definition SeriesMetric_decode (out : jdenote_fields SeriesMetric_json) (r : Lexer) : outcome (jdenote_fields SeriesMetric_json * Lexer) :=
  decode_struct SeriesMetric_json out r.
Definition SeriesMetric_UnmarshalJSON (out : jdenote_fields SeriesMetric_json) (data : bytes) : outcome (jdenote_fields SeriesMetric_json * option lexer_error) :=
  UnmarshalJSON SeriesMetric_json out data.

Definition UidMetric_json : jfields :=
  "uid" ↦? JString ;; "time" ↦? JInt64 ;; "min" ↦? JFloat64 false ;; "max" ↦? JFloat64 false ;; "last" ↦? JFloat64 false
   ;; "sum" ↦? JFloat64 false ;; "count" ↦? JInt64 ;; "sent_time" ↦? JInt64 ;; JNil.
Definition UidMetric_encode (v : jdenote_fields UidMetric_json) : bytes := encode_struct UidMetric_json v.
Definition UidMetric_MarshalJSON (v : jdenote_fields UidMetric_json) : bytes := UidMetric_encode v.
Definition UidMetric_decode (out : jdenote_fields UidMetric_json) (r : Lexer) : outcome (jdenote_fields UidMetric_json * Lexer) :=
  decode_struct UidMetric_json out r.
Definition UidMetric_UnmarshalJSON (out : jdenote_fields UidMetric_json) (data : bytes) : outcome (jdenote_fields UidMetric_json * option lexer_error) :=
  UnmarshalJSON UidMetric_json out data.

Definition MetricWritten_json : jfields :=
  "id" ↦? JUint64 ;; "uid" ↦? JString ;; "metric" ↦? JString ;; "start_time" ↦? JInt64 ;; "end_time" ↦? JInt64 ;;
   "write_time" ↦? JInt64 ;; "offset" ↦? JInt64 ;; "partition" ↦? JInt32 ;; "topic" ↦? JString ;; "resolution" ↦?
   JUint32 ;; "ttl" ↦? JUint32 ;; "tags" ↦? jtags ;; "meta_tags" ↦? jtags ;; "sent_time" ↦? JInt64 ;; JNil.
Definition MetricWritten_encode (v : jdenote_fields MetricWritten_json) : bytes := encode_struct MetricWritten_json v.
Definition MetricWritten_MarshalJSON (v : jdenote_fields MetricWritten_json) : bytes := MetricWritten_encode v.
Definition MetricWritten_decode (out : jdenote_fields MetricWritten_json) (r : Lexer) : outcome (jdenote_fields MetricWritten_json * Lexer) :=
  decode_struct MetricWritten_json out r.
Definition MetricWritten_UnmarshalJSON (out : jdenote_fields MetricWritten_json) (data : bytes) : outcome (jdenote_fields MetricWritten_json * option lexer_error) :=
  UnmarshalJSON MetricWritten_json out data.

Definition AnyMetricList_json : jfields :=
  "raw" ↦? JSlice (JPtr ByRaw MGenerated RawMetric_json) ;; "unprocessed" ↦? JSlice (JPtr ByRaw MGenerated
   UnProcessedMetric_json) ;; "single" ↦? JSlice (JPtr ByRaw MGenerated SingleMetric_json) ;; "series" ↦? JSlice (JPtr
   ByRaw MGenerated SeriesMetric_json) ;; "uid_metric" ↦? JSlice (JPtr ByRaw MGenerated UidMetric_json) ;; "written" ↦?
   JSlice (JPtr ByRaw MGenerated MetricWritten_json) ;; JNil.
Definition AnyMetricList_encode (v : jdenote_fields AnyMetricList_json) : bytes := encode_struct AnyMetricList_json v.
Definition AnyMetricList_MarshalJSON (v : jdenote_fields AnyMetricList_json) : bytes := AnyMetricList_encode v.
Definition AnyMetricList_decode (out : jdenote_fields AnyMetricList_json) (r : Lexer) : outcome (jdenote_fields AnyMetricList_json * Lexer) :=
  decode_struct AnyMetricList_json out r.
Definition AnyMetricList_UnmarshalJSON (out : jdenote_fields AnyMetricList_json) (data : bytes) : outcome (jdenote_fields AnyMetricList_json * option lexer_error) :=
  UnmarshalJSON AnyMetricList_json out data.

Definition AnyMetric_json : jfields :=
  "raw" ↦? JPtr ByRaw MGenerated RawMetric_json ;; "unprocessed" ↦? JPtr ByRaw MGenerated UnProcessedMetric_json ;;
   "single" ↦? JPtr ByRaw MGenerated SingleMetric_json ;; "series" ↦? JPtr ByRaw MGenerated SeriesMetric_json ;;
   "uid_metric" ↦? JPtr ByRaw MGenerated UidMetric_json ;; "written" ↦? JPtr ByRaw MGenerated MetricWritten_json ;; JNil.
Definition AnyMetric_encode (v : jdenote_fields AnyMetric_json) : bytes := encode_struct AnyMetric_json v.
Definition AnyMetric_MarshalJSON (v : jdenote_fields AnyMetric_json) : bytes := AnyMetric_encode v.
Definition AnyMetric_decode (out : jdenote_fields AnyMetric_json) (r : Lexer) : outcome (jdenote_fields AnyMetric_json * Lexer) :=
  decode_struct AnyMetric_json out r.
Definition AnyMetric_UnmarshalJSON (out : jdenote_fields AnyMetric_json) (data : bytes) : outcome (jdenote_fields AnyMetric_json * option lexer_error) :=
  UnmarshalJSON AnyMetric_json out data.

Definition RawMetricList_json : jfields :=
  "list" ↦? JSlice (JPtr ByRaw MGenerated RawMetric_json) ;; JNil.
Definition RawMetricList_encode (v : jdenote_fields RawMetricList_json) : bytes := encode_struct RawMetricList_json v.
Definition RawMetricList_MarshalJSON (v : jdenote_fields RawMetricList_json) : bytes := RawMetricList_encode v.
Definition RawMetricList_decode (out : jdenote_fields RawMetricList_json) (r : Lexer) : outcome (jdenote_fields RawMetricList_json * Lexer) :=
  decode_struct RawMetricList_json out r.
Definition RawMetricList_UnmarshalJSON (out : jdenote_fields RawMetricList_json) (data : bytes) : outcome (jdenote_fields RawMetricList_json * option lexer_error) :=
  UnmarshalJSON RawMetricList_json out data.

Definition UnProcessedMetricList_json : jfields :=
  "list" ↦? JSlice (JPtr ByRaw MGenerated UnProcessedMetric_json) ;; JNil.
Definition UnProcessedMetricList_encode (v : jdenote_fields UnProcessedMetricList_json) : bytes := encode_struct UnProcessedMetricList_json v.
Definition UnProcessedMetricList_MarshalJSON (v : jdenote_fields UnProcessedMetricList_json) : bytes := UnProcessedMetricList_encode v.
Definition UnProcessedMetricList_decode (out : jdenote_fields UnProcessedMetricList_json) (r : Lexer) : outcome (jdenote_fields UnProcessedMetricList_json * Lexer) :=
  decode_struct UnProcessedMetricList_json out r.
Definition UnProcessedMetricList_UnmarshalJSON (out : jdenote_fields UnProcessedMetricList_json) (data : bytes) : outcome (jdenote_fields UnProcessedMetricList_json * option lexer_error) :=
  UnmarshalJSON UnProcessedMetricList_json out data.

Definition SingleMetricList_json : jfields :=
  "list" ↦? JSlice (JPtr ByRaw MGenerated SingleMetric_json) ;; JNil.
Definition SingleMetricList_encode (v : jdenote_fields SingleMetricList_json) : bytes := encode_struct SingleMetricList_json v.
Definition SingleMetricList_MarshalJSON (v : jdenote_fields SingleMetricList_json) : bytes := SingleMetricList_encode v.
Definition SingleMetricList_decode (out : jdenote_fields SingleMetricList_json) (r : Lexer) : outcome (jdenote_fields SingleMetricList_json * Lexer) :=
  decode_struct SingleMetricList_json out r.
Definition SingleMetricList_UnmarshalJSON (out : jdenote_fields SingleMetricList_json) (data : bytes) : outcome (jdenote_fields SingleMetricList_json * option lexer_error) :=
  UnmarshalJSON SingleMetricList_json out data.

Definition MetricValue_json : jfields :=
  "time" ↦? JInt64 ;; "min" ↦? JFloat64 false ;; "max" ↦? JFloat64 false ;; "last" ↦? JFloat64 false ;; "sum" ↦?
   JFloat64 false ;; "count" ↦? JInt64 ;; JNil.
Definition MetricValue_encode (v : jdenote_fields MetricValue_json) : bytes := encode_struct MetricValue_json v.
Definition MetricValue_MarshalJSON (v : jdenote_fields MetricValue_json) : bytes := MetricValue_encode v.
Definition MetricValue_decode (out : jdenote_fields MetricValue_json) (r : Lexer) : outcome (jdenote_fields MetricValue_json * Lexer) :=
  decode_struct MetricValue_json out r.
Definition MetricValue_UnmarshalJSON (out : jdenote_fields MetricValue_json) (data : bytes) : outcome (jdenote_fields MetricValue_json * option lexer_error) :=
  UnmarshalJSON MetricValue_json out data.

Definition MetricName_json : jfields :=
  "metric" ↦? JString ;; "id" ↦? JUint64 ;; "uid" ↦? JString ;; "tags" ↦? jtags ;; "meta_tags" ↦? jtags ;; JNil.
Definition MetricName_encode (v : jdenote_fields MetricName_json) : bytes := encode_struct MetricName_json v.
Definition MetricName_MarshalJSON (v : jdenote_fields MetricName_json) : bytes := MetricName_encode v.
Definition MetricName_decode (out : jdenote_fields MetricName_json) (r : Lexer) : outcome (jdenote_fields MetricName_json * Lexer) :=
  decode_struct MetricName_json out r.
Definition MetricName_UnmarshalJSON (out : jdenote_fields MetricName_json) (data : bytes) : outcome (jdenote_fields MetricName_json * option lexer_error) :=
  UnmarshalJSON MetricName_json out data.

Definition MetricType_json : jfields :=
  "type" ↦? JString ;; JNil.
Definition MetricType_encode (v : jdenote_fields MetricType_json) : bytes := encode_struct MetricType_json v.
Definition MetricType_MarshalJSON (v : jdenote_fields MetricType_json) : bytes := MetricType_encode v.
Definition MetricType_decode (out : jdenote_fields MetricType_json) (r : Lexer) : outcome (jdenote_fields MetricType_json * Lexer) :=
  decode_struct MetricType_json out r.
Definition MetricType_UnmarshalJSON (out : jdenote_fields MetricType_json) (data : bytes) : outcome (jdenote_fields MetricType_json * option lexer_error) :=
  UnmarshalJSON MetricType_json out data.

Definition DataPoint_json : jfields :=
  "time" ↦? JUint32 ;; "value" ↦? JFloat64 false ;; JNil.
Definition DataPoint_encode (v : jdenote_fields DataPoint_json) : bytes := encode_struct DataPoint_json v.
Definition DataPoint_MarshalJSON (v : jdenote_fields DataPoint_json) : bytes := encode_value (JPtr ByRaw MDataPoint DataPoint_json) (Some v).
Definition DataPoint_decode (out : jdenote_fields DataPoint_json) (r : Lexer) : outcome (jdenote_fields DataPoint_json * Lexer) :=
  decode_struct DataPoint_json out r.

Definition GraphiteApiItem_json : jfields :=
  "target" ↦? JString ;; "in_cache" ↦? JBool ;; "using_cache" ↦? JBool ;; "datapoints" ↦? JSlice (JPtr Direct MDataPoint
   DataPoint_json) ;; JNil.
Definition GraphiteApiItem_encode (v : jdenote_fields GraphiteApiItem_json) : bytes := encode_struct GraphiteApiItem_json v.
Definition GraphiteApiItem_MarshalJSON (v : jdenote_fields GraphiteApiItem_json) : bytes := GraphiteApiItem_encode v.
Definition GraphiteApiItem_decode (out : jdenote_fields GraphiteApiItem_json) (r : Lexer) : outcome (jdenote_fields GraphiteApiItem_json * Lexer) :=
  decode_struct GraphiteApiItem_json out r.
Definition GraphiteApiItem_UnmarshalJSON (out : jdenote_fields GraphiteApiItem_json) (data : bytes) : outcome (jdenote_fields GraphiteApiItem_json * option lexer_error) :=
  UnmarshalJSON GraphiteApiItem_json out data.

Definition GraphiteApiItemList_json : jfields :=
  "items" ↦? JSlice (JPtr ByRaw MGenerated GraphiteApiItem_json) ;; JNil.
Definition GraphiteApiItemList_encode (v : jdenote_fields GraphiteApiItemList_json) : bytes := encode_struct GraphiteApiItemList_json v.
Definition GraphiteApiItemList_MarshalJSON (v : jdenote_fields GraphiteApiItemList_json) : bytes := GraphiteApiItemList_encode v.
Definition GraphiteApiItemList_decode (out : jdenote_fields GraphiteApiItemList_json) (r : Lexer) : outcome (jdenote_fields GraphiteApiItemList_json * Lexer) :=
  decode_struct GraphiteApiItemList_json out r.
Definition GraphiteApiItemList_UnmarshalJSON (out : jdenote_fields GraphiteApiItemList_json) (data : bytes) : outcome (jdenote_fields GraphiteApiItemList_json * option lexer_error) :=
  UnmarshalJSON GraphiteApiItemList_json out data.

Definition WhisperDataItem_json : jfields :=
  "target" ↦? JString ;; "in_cache" ↦? JBool ;; "using_cache" ↦? JBool ;; "uid" ↦? JString ;; "data" ↦? JSlice (JPtr
   Direct MDataPoint DataPoint_json) ;; JNil.
Definition WhisperDataItem_encode (v : jdenote_fields WhisperDataItem_json) : bytes := encode_struct WhisperDataItem_json v.
Definition WhisperDataItem_MarshalJSON (v : jdenote_fields WhisperDataItem_json) : bytes := WhisperDataItem_encode v.
Definition WhisperDataItem_decode (out : jdenote_fields WhisperDataItem_json) (r : Lexer) : outcome (jdenote_fields WhisperDataItem_json * Lexer) :=
  decode_struct WhisperDataItem_json out r.
Definition WhisperDataItem_UnmarshalJSON (out : jdenote_fields WhisperDataItem_json) (data : bytes) : outcome (jdenote_fields WhisperDataItem_json * option lexer_error) :=
  UnmarshalJSON WhisperDataItem_json out data.

Definition WhisperDataItemList_json : jfields :=
  "items" ↦? JSlice (JPtr ByRaw MGenerated WhisperDataItem_json) ;; JNil.
Definition WhisperDataItemList_encode (v : jdenote_fields WhisperDataItemList_json) : bytes := encode_struct WhisperDataItemList_json v.
Definition WhisperDataItemList_MarshalJSON (v : jdenote_fields WhisperDataItemList_json) : bytes := WhisperDataItemList_encode v.
Definition WhisperDataItemList_decode (out : jdenote_fields WhisperDataItemList_json) (r : Lexer) : outcome (jdenote_fields WhisperDataItemList_json * Lexer) :=
  decode_struct WhisperDataItemList_json out r.
Definition WhisperDataItemList_UnmarshalJSON (out : jdenote_fields WhisperDataItemList_json) (data : bytes) : outcome (jdenote_fields WhisperDataItemList_json * option lexer_error) :=
  UnmarshalJSON WhisperDataItemList_json out data.

Definition RawDataPoint_json : jfields :=
  "time" ↦? JUint32 ;; "sum" ↦? JFloat64 false ;; "min" ↦? JFloat64 false ;; "max" ↦? JFloat64 false ;; "last" ↦?
   JFloat64 false ;; "count" ↦? JInt64 ;; JNil.
Definition RawDataPoint_encode (v : jdenote_fields RawDataPoint_json) : bytes := encode_struct RawDataPoint_json v.
Definition RawDataPoint_MarshalJSON (v : jdenote_fields RawDataPoint_json) : bytes := encode_value (JPtr ByRaw MRawDataPoint RawDataPoint_json) (Some v).
Definition RawDataPoint_decode (out : jdenote_fields RawDataPoint_json) (r : Lexer) : outcome (jdenote_fields RawDataPoint_json * Lexer) :=
  decode_struct RawDataPoint_json out r.

Definition RawRenderItem_json : jfields :=
  "metric" ↦? JString ;; "id" ↦? JString ;; "real_start" ↦? JUint32 ;; "real_end" ↦? JUint32 ;; "start" ↦? JUint32 ;;
   "end" ↦? JUint32 ;; "step" ↦? JUint32 ;; "agg_func" ↦? JUint32 ;; "tags" ↦? jtags ;; "meta_tags" ↦? jtags ;; "data"
   ↦? JSlice (JPtr Direct MRawDataPoint RawDataPoint_json) ;; "in_cache" ↦? JBool ;; "using_cache" ↦? JBool ;; JNil.
Definition RawRenderItem_encode (v : jdenote_fields RawRenderItem_json) : bytes := encode_struct RawRenderItem_json v.
Definition RawRenderItem_MarshalJSON (v : jdenote_fields RawRenderItem_json) : bytes := RawRenderItem_encode v.
Definition RawRenderItem_decode (out : jdenote_fields RawRenderItem_json) (r : Lexer) : outcome (jdenote_fields RawRenderItem_json * Lexer) :=
  decode_struct RawRenderItem_json out r.
Definition RawRenderItem_UnmarshalJSON (out : jdenote_fields RawRenderItem_json) (data : bytes) : outcome (jdenote_fields RawRenderItem_json * option lexer_error) :=
  UnmarshalJSON RawRenderItem_json out data.

Definition RawRenderItemList_json : jfields :=
  "items" ↦? JSlice (JPtr ByRaw MGenerated RawRenderItem_json) ;; JNil.
Definition RawRenderItemList_encode (v : jdenote_fields RawRenderItemList_json) : bytes := encode_struct RawRenderItemList_json v.
Definition RawRenderItemList_MarshalJSON (v : jdenote_fields RawRenderItemList_json) : bytes := RawRenderItemList_encode v.
Definition RawRenderItemList_decode (out : jdenote_fields RawRenderItemList_json) (r : Lexer) : outcome (jdenote_fields RawRenderItemList_json * Lexer) :=
  decode_struct RawRenderItemList_json out r.
Definition RawRenderItemList_UnmarshalJSON (out : jdenote_fields RawRenderItemList_json) (data : bytes) : outcome (jdenote_fields RawRenderItemList_json * option lexer_error) :=
  UnmarshalJSON RawRenderItemList_json out data.

Definition RenderItem_json : jfields :=
  "target" ↦? JString ;; "dataPoints" ↦? JSlice (JPtr Direct MDataPoint DataPoint_json) ;; JNil.
Definition RenderItem_encode (v : jdenote_fields RenderItem_json) : bytes := encode_struct RenderItem_json v.
Definition RenderItem_MarshalJSON (v : jdenote_fields RenderItem_json) : bytes := RenderItem_encode v.
Definition RenderItem_decode (out : jdenote_fields RenderItem_json) (r : Lexer) : outcome (jdenote_fields RenderItem_json * Lexer) :=
  decode_struct RenderItem_json out r.
Definition RenderItem_UnmarshalJSON (out : jdenote_fields RenderItem_json) (data : bytes) : outcome (jdenote_fields RenderItem_json * option lexer_error) :=
  UnmarshalJSON RenderItem_json out data.

Definition RenderItemList_json : jfields :=
  "items" ↦? JSlice (JPtr ByRaw MGenerated RenderItem_json) ;; JNil.
Definition RenderItemList_encode (v : jdenote_fields RenderItemList_json) : bytes := encode_struct RenderItemList_json v.
Definition RenderItemList_MarshalJSON (v : jdenote_fields RenderItemList_json) : bytes := RenderItemList_encode v.
Definition RenderItemList_decode (out : jdenote_fields RenderItemList_json) (r : Lexer) : outcome (jdenote_fields RenderItemList_json * Lexer) :=
  decode_struct RenderItemList_json out r.
Definition RenderItemList_UnmarshalJSON (out : jdenote_fields RenderItemList_json) (data : bytes) : outcome (jdenote_fields RenderItemList_json * option lexer_error) :=
  UnmarshalJSON RenderItemList_json out data.

Definition MetricTagItem_json : jfields :=
  "id" ↦? JString ;; "name" ↦? JString ;; "value" ↦? JString ;; "is_meta" ↦? JBool ;; JNil.
Definition MetricTagItem_encode (v : jdenote_fields MetricTagItem_json) : bytes := encode_struct MetricTagItem_json v.
Definition MetricTagItem_MarshalJSON (v : jdenote_fields MetricTagItem_json) : bytes := MetricTagItem_encode v.
Definition MetricTagItem_decode (out : jdenote_fields MetricTagItem_json) (r : Lexer) : outcome (jdenote_fields MetricTagItem_json * Lexer) :=
  decode_struct MetricTagItem_json out r.
Definition MetricTagItem_UnmarshalJSON (out : jdenote_fields MetricTagItem_json) (data : bytes) : outcome (jdenote_fields MetricTagItem_json * option lexer_error) :=
  UnmarshalJSON MetricTagItem_json out data.

Definition MetricTagItemList_json : jfields :=
  "items" ↦? JSlice (JPtr ByRaw MGenerated MetricTagItem_json) ;; JNil.
Definition MetricTagItemList_encode (v : jdenote_fields MetricTagItemList_json) : bytes := encode_struct MetricTagItemList_json v.
Definition MetricTagItemList_MarshalJSON (v : jdenote_fields MetricTagItemList_json) : bytes := MetricTagItemList_encode v.
Definition MetricTagItemList_decode (out : jdenote_fields MetricTagItemList_json) (r : Lexer) : outcome (jdenote_fields MetricTagItemList_json * Lexer) :=
  decode_struct MetricTagItemList_json out r.
Definition MetricTagItemList_UnmarshalJSON (out : jdenote_fields MetricTagItemList_json) (data : bytes) : outcome (jdenote_fields MetricTagItemList_json * option lexer_error) :=
  UnmarshalJSON MetricTagItemList_json out data.

Definition MetricExpandItem_json : jfields :=
  "results" ↦? JSlice JString ;; JNil.
Definition MetricExpandItem_encode (v : jdenote_fields MetricExpandItem_json) : bytes := encode_struct MetricExpandItem_json v.
Definition MetricExpandItem_MarshalJSON (v : jdenote_fields MetricExpandItem_json) : bytes := MetricExpandItem_encode v.
Definition MetricExpandItem_decode (out : jdenote_fields MetricExpandItem_json) (r : Lexer) : outcome (jdenote_fields MetricExpandItem_json * Lexer) :=
  decode_struct MetricExpandItem_json out r.
Definition MetricExpandItem_UnmarshalJSON (out : jdenote_fields MetricExpandItem_json) (data : bytes) : outcome (jdenote_fields MetricExpandItem_json * option lexer_error) :=
  UnmarshalJSON MetricExpandItem_json out data.

Definition MetricFindItem_json : jfields :=
  "text" ↦ JString ;; "expandable" ↦ JUint32 ;; "leaf" ↦ JUint32 ;; "path" ↦ JString ;; "allowChildren" ↦ JUint32 ;;
   "id" ↦ JString ;; "uniqueid" ↦ JString ;; "tags" ↦? jtags ;; "meta_tags" ↦? jtags ;; JNil.
Definition MetricFindItem_encode (v : jdenote_fields MetricFindItem_json) : bytes := encode_struct MetricFindItem_json v.
Definition MetricFindItem_MarshalJSON (v : jdenote_fields MetricFindItem_json) : bytes := MetricFindItem_encode v.
Definition MetricFindItem_decode (out : jdenote_fields MetricFindItem_json) (r : Lexer) : outcome (jdenote_fields MetricFindItem_json * Lexer) :=
  decode_struct MetricFindItem_json out r.
Definition MetricFindItem_UnmarshalJSON (out : jdenote_fields MetricFindItem_json) (data : bytes) : outcome (jdenote_fields MetricFindItem_json * option lexer_error) :=
  UnmarshalJSON MetricFindItem_json out data.

Definition MetricFindItemList_json : jfields :=
  "items" ↦? JSlice (JPtr ByRaw MGenerated MetricFindItem_json) ;; JNil.
Definition MetricFindItemList_encode (v : jdenote_fields MetricFindItemList_json) : bytes := encode_struct MetricFindItemList_json v.
Definition MetricFindItemList_MarshalJSON (v : jdenote_fields MetricFindItemList_json) : bytes := MetricFindItemList_encode v.
Definition MetricFindItemList_decode (out : jdenote_fields MetricFindItemList_json) (r : Lexer) : outcome (jdenote_fields MetricFindItemList_json * Lexer) :=
  decode_struct MetricFindItemList_json out r.
Definition MetricFindItemList_UnmarshalJSON (out : jdenote_fields MetricFindItemList_json) (data : bytes) : outcome (jdenote_fields MetricFindItemList_json * option lexer_error) :=
  UnmarshalJSON MetricFindItemList_json out data.

Definition Resolution_json : jfields :=
  "resolution" ↦? JUint32 ;; "ttl" ↦? JUint32 ;; JNil.
Definition Resolution_encode (v : jdenote_fields Resolution_json) : bytes := encode_struct Resolution_json v.
Definition Resolution_MarshalJSON (v : jdenote_fields Resolution_json) : bytes := Resolution_encode v.
Definition Resolution_decode (out : jdenote_fields Resolution_json) (r : Lexer) : outcome (jdenote_fields Resolution_json * Lexer) :=
  decode_struct Resolution_json out r.
Definition Resolution_UnmarshalJSON (out : jdenote_fields Resolution_json) (data : bytes) : outcome (jdenote_fields Resolution_json * option lexer_error) :=
  UnmarshalJSON Resolution_json out data.

Definition DiscoverHost_json : jfields :=
  "advertiseName" ↦? JString ;; "advertiseUrl" ↦? JString ;; "grpchost" ↦? JString ;; "host" ↦? JString ;; "hostApiUrl"
   ↦? JString ;; "startTime" ↦? JInt64 ;; "resolutions" ↦? JSlice (JPtr ByRaw MGenerated Resolution_json) ;; "isApi" ↦?
   JBool ;; "isWriter" ↦? JBool ;; "isReader" ↦? JBool ;; "isHasher" ↦? JBool ;; "isTCPapi" ↦? JBool ;; "isgRPC" ↦?
   JBool ;; "tags" ↦? jtags ;; JNil.
Definition DiscoverHost_encode (v : jdenote_fields DiscoverHost_json) : bytes := encode_struct DiscoverHost_json v.
Definition DiscoverHost_MarshalJSON (v : jdenote_fields DiscoverHost_json) : bytes := DiscoverHost_encode v.
Definition DiscoverHost_decode (out : jdenote_fields DiscoverHost_json) (r : Lexer) : outcome (jdenote_fields DiscoverHost_json * Lexer) :=
  decode_struct DiscoverHost_json out r.
Definition DiscoverHost_UnmarshalJSON (out : jdenote_fields DiscoverHost_json) (data : bytes) : outcome (jdenote_fields DiscoverHost_json * option lexer_error) :=
  UnmarshalJSON DiscoverHost_json out data.

Definition DiscoverHosts_json : jfields :=
  "hosts" ↦? JSlice (JPtr ByRaw MGenerated DiscoverHost_json) ;; JNil.
Definition DiscoverHosts_encode (v : jdenote_fields DiscoverHosts_json) : bytes := encode_struct DiscoverHosts_json v.
Definition DiscoverHosts_MarshalJSON (v : jdenote_fields DiscoverHosts_json) : bytes := DiscoverHosts_encode v.
Definition DiscoverHosts_decode (out : jdenote_fields DiscoverHosts_json) (r : Lexer) : outcome (jdenote_fields DiscoverHosts_json * Lexer) :=
  decode_struct DiscoverHosts_json out r.
Definition DiscoverHosts_UnmarshalJSON (out : jdenote_fields DiscoverHosts_json) (data : bytes) : outcome (jdenote_fields DiscoverHosts_json * option lexer_error) :=
  UnmarshalJSON DiscoverHosts_json out data.

Definition DiscoveryQuery_json : jfields :=
  "host" ↦? JString ;; "tags" ↦? jtags ;; "format" ↦? JString ;; JNil.
Definition DiscoveryQuery_encode (v : jdenote_fields DiscoveryQuery_json) : bytes := encode_struct DiscoveryQuery_json v.
Definition DiscoveryQuery_MarshalJSON (v : jdenote_fields DiscoveryQuery_json) : bytes := DiscoveryQuery_encode v.
Definition DiscoveryQuery_decode (out : jdenote_fields DiscoveryQuery_json) (r : Lexer) : outcome (jdenote_fields DiscoveryQuery_json * Lexer) :=
  decode_struct DiscoveryQuery_json out r.
Definition DiscoveryQuery_UnmarshalJSON (out : jdenote_fields DiscoveryQuery_json) (data : bytes) : outcome (jdenote_fields DiscoveryQuery_json * option lexer_error) :=
  UnmarshalJSON DiscoveryQuery_json out data.

Definition IndexQuery_json : jfields :=
  "query" ↦? JString ;; "value" ↦? JString ;; "page" ↦? JUint32 ;; "tags" ↦? jtags ;; "hasData" ↦? JBool ;; "inCache" ↦?
   JBool ;; "format" ↦? JString ;; JNil.
Definition IndexQuery_encode (v : jdenote_fields IndexQuery_json) : bytes := encode_struct IndexQuery_json v.
Definition IndexQuery_MarshalJSON (v : jdenote_fields IndexQuery_json) : bytes := IndexQuery_encode v.
Definition IndexQuery_decode (out : jdenote_fields IndexQuery_json) (r : Lexer) : outcome (jdenote_fields IndexQuery_json * Lexer) :=
  decode_struct IndexQuery_json out r.
Definition IndexQuery_UnmarshalJSON (out : jdenote_fields IndexQuery_json) (data : bytes) : outcome (jdenote_fields IndexQuery_json * option lexer_error) :=
  UnmarshalJSON IndexQuery_json out data.

Definition MetricQuery_json : jfields :=
  "target" ↦? JString ;; "start" ↦? JInt64 ;; "end" ↦? JInt64 ;; "step" ↦? JUint32 ;; "agg" ↦? JUint32 ;; "maxPoints" ↦?
   JUint32 ;; "tags" ↦? jtags ;; "inCache" ↦? JBool ;; "format" ↦? JString ;; JNil.
Definition MetricQuery_encode (v : jdenote_fields MetricQuery_json) : bytes := encode_struct MetricQuery_json v.
Definition MetricQuery_MarshalJSON (v : jdenote_fields MetricQuery_json) : bytes := MetricQuery_encode v.
Definition MetricQuery_decode (out : jdenote_fields MetricQuery_json) (r : Lexer) : outcome (jdenote_fields MetricQuery_json * Lexer) :=
  decode_struct MetricQuery_json out r.
Definition MetricQuery_UnmarshalJSON (out : jdenote_fields MetricQuery_json) (data : bytes) : outcome (jdenote_fields MetricQuery_json * option lexer_error) :=
  UnmarshalJSON MetricQuery_json out data.

Definition RawRenderItems_encode (v : jdenote (JSlice (JPtr ByRaw MGenerated RawRenderItem_json))) : bytes := encode_value (JSlice (JPtr ByRaw MGenerated RawRenderItem_json)) v.
Definition RawRenderItems_MarshalJSON (v : jdenote (JSlice (JPtr ByRaw MGenerated RawRenderItem_json))) : bytes := RawRenderItems_encode v.
Definition RawRenderItems_decode (out : jdenote (JSlice (JPtr ByRaw MGenerated RawRenderItem_json))) (r : Lexer) : outcome (jdenote (JSlice (JPtr ByRaw MGenerated RawRenderItem_json)) * Lexer) :=
  decode_slice (JPtr ByRaw MGenerated RawRenderItem_json) out r.
Definition RawRenderItems_UnmarshalJSON (out : jdenote (JSlice (JPtr ByRaw MGenerated RawRenderItem_json))) (data : bytes) : outcome (jdenote (JSlice (JPtr ByRaw MGenerated RawRenderItem_json)) * option lexer_error) :=
  slice_UnmarshalJSON (JPtr ByRaw MGenerated RawRenderItem_json) out data.

Definition GraphiteApiItems_encode (v : jdenote (JSlice (JPtr ByRaw MGenerated GraphiteApiItem_json))) : bytes := encode_value (JSlice (JPtr ByRaw MGenerated GraphiteApiItem_json)) v.
Definition GraphiteApiItems_MarshalJSON (v : jdenote (JSlice (JPtr ByRaw MGenerated GraphiteApiItem_json))) : bytes := GraphiteApiItems_encode v.
Definition GraphiteApiItems_decode (out : jdenote (JSlice (JPtr ByRaw MGenerated GraphiteApiItem_json))) (r : Lexer) : outcome (jdenote (JSlice (JPtr ByRaw MGenerated GraphiteApiItem_json)) * Lexer) :=
  decode_slice (JPtr ByRaw MGenerated GraphiteApiItem_json) out r.
Definition GraphiteApiItems_UnmarshalJSON (out : jdenote (JSlice (JPtr ByRaw MGenerated GraphiteApiItem_json))) (data : bytes) : outcome (jdenote (JSlice (JPtr ByRaw MGenerated GraphiteApiItem_json)) * option lexer_error) :=
  slice_UnmarshalJSON (JPtr ByRaw MGenerated GraphiteApiItem_json) out data.

Definition RenderItems_encode (v : jdenote (JSlice (JPtr ByRaw MGenerated RenderItem_json))) : bytes := encode_value (JSlice (JPtr ByRaw MGenerated RenderItem_json)) v.
Definition RenderItems_MarshalJSON (v : jdenote (JSlice (JPtr ByRaw MGenerated RenderItem_json))) : bytes := RenderItems_encode v.
Definition RenderItems_decode (out : jdenote (JSlice (JPtr ByRaw MGenerated RenderItem_json))) (r : Lexer) : outcome (jdenote (JSlice (JPtr ByRaw MGenerated RenderItem_json)) * Lexer) :=
  decode_slice (JPtr ByRaw MGenerated RenderItem_json) out r.
Definition RenderItems_UnmarshalJSON (out : jdenote (JSlice (JPtr ByRaw MGenerated RenderItem_json))) (data : bytes) : outcome (jdenote (JSlice (JPtr ByRaw MGenerated RenderItem_json)) * option lexer_error) :=
  slice_UnmarshalJSON (JPtr ByRaw MGenerated RenderItem_json) out data.

(** The structs that [MarshalJSON] and [UnmarshalJSON] are generated for. *)
Definition json_schema : list jfields :=
  [Tag_json; StatName_json; StatRepr_json; RawMetric_json; UnProcessedMetric_json; SingleMetric_json;
   SeriesMetric_json; UidMetric_json; MetricWritten_json; AnyMetricList_json; AnyMetric_json; RawMetricList_json;
   UnProcessedMetricList_json; SingleMetricList_json; MetricValue_json; MetricName_json; MetricType_json;
   GraphiteApiItem_json; GraphiteApiItemList_json; WhisperDataItem_json; WhisperDataItemList_json; RawRenderItem_json;
   RawRenderItemList_json; RenderItem_json; RenderItemList_json; MetricTagItem_json; MetricTagItemList_json;
   MetricExpandItem_json; MetricFindItem_json; MetricFindItemList_json; Resolution_json; DiscoverHost_json;
   DiscoverHosts_json; DiscoveryQuery_json; IndexQuery_json; MetricQuery_json].
