(* ===== verification/EasyJsonTheorems.v ===== *)
(** What the generated JSON code writes is read back, and reading ends. *)
From Stdlib Require Import Ascii.
From S2P Require Import Prelude Float64 GoStrings GoParse GoFormat Repr Wire JLexer EasyJson.

Open Scope Z_scope.

#[local] Arguments text : simpl never.

(** ** Places in the data *)

(** The lexer before the token at the front of [l], nothing scanned. *)
Record cursor (r : Lexer) (pre l : bytes) : Prop := {
  cu_data : Data r = pre ++ l;
  cu_start : lx_start r = length pre;
  cu_pos : lx_pos r = length pre;
  cu_kind : tok_kind r = tokenUndef;
  cu_delim : tok_delim r = nul;
  cu_sep : wantSep r = nul;
  cu_err : fatalError r = None
}.

(** The lexer after a token or a value. *)
Record after (r : Lexer) (pre l : bytes) : Prop := {
  af_data : Data r = pre ++ l;
  af_pos : lx_pos r = length pre;
  af_kind : tok_kind r = tokenUndef;
  af_delim : tok_delim r = nul;
  af_err : fatalError r = None
}.

Definition tail_ok (l : bytes) : Prop := match l with [] => True | c :: _ => isTokenEnd c = true end.

(** The lexer after it has scanned the token at the front of [l]. *)
Record scanned (r : Lexer) (pre t l : bytes) (k : tokenKind) (d : ascii) : Prop := {
  sc_data : Data r = pre ++ t ++ l;
  sc_start : lx_start r = length pre;
  sc_pos : lx_pos r = length (pre ++ t);
  sc_kind : tok_kind r = k;
  sc_delim : tok_delim r = d;
  sc_sep : wantSep r = nul;
  sc_err : fatalError r = None
}.

Lemma eqb_ascii_refl (a : ascii) : Ascii.eqb a a = true.
Proof. apply Ascii.eqb_refl. Qed.

Lemma eqb_ascii_ne (a b : ascii) : a <> b -> Ascii.eqb a b = false.
Proof. apply Ascii.eqb_neq. Qed.

Lemma drop_pre (pre l : bytes) : drop (length pre) (pre ++ l) = l.
Proof. by rewrite drop_app_length. Qed.

Lemma consume_after (r : Lexer) (pre t l : bytes) (k : tokenKind) (d : ascii) :
  scanned r pre t l k d -> after (consume r) (pre ++ t) l.
Proof. intros [Hd Hs Hp Hk Hdl Hw He]. split; cbn; try done. by rewrite Hd, (assoc_L (++)). Qed.

Lemma scanToken_scanned (r : Lexer) (pre t l : bytes) (k : tokenKind) (d : ascii) :
  scanned r pre t l k d -> k <> tokenUndef -> scanToken r = r.
Proof. intros [_ _ _ Hk _ _ _] Hn. unfold scanToken. by rewrite Hk, bool_decide_eq_false_2. Qed.

(** ** Tokens *)

Lemma cursor_lookup (r : Lexer) (pre l : bytes) (c : ascii) : cursor r pre (c :: l) -> Data r !! lx_pos r = Some c.
Proof. intros Hc. rewrite (cu_data _ _ _ Hc), (cu_pos _ _ _ Hc). by rewrite lookup_app_r, Nat.sub_diag by lia. Qed.

Lemma fetch_open (r : Lexer) (pre l : bytes) (c : ascii) :
  cursor r pre (c :: l) -> class_of c = COpen ->
  scanned (fetch_loop (c :: l) r) pre [c] l tokenDelim c /\ firstElement (fetch_loop (c :: l) r) = true.
Proof.
  intros Hc Ho. cbn [fetch_loop]. rewrite Ho. unfold no_sep. rewrite (cu_sep _ _ _ Hc), bool_decide_eq_true_2 by done.
  cbn [set_sep set_kind Data lx_pos]. rewrite (cursor_lookup _ _ _ _ Hc). destruct Hc as [Hd Hs Hp Hk Hdl Hw He].
  split; [|done]. split; cbn [Data lx_start lx_pos tok_kind tok_delim wantSep fatalError set_place set_delim set_kind set_sep]; try done. rewrite length_app. cbn. lia.
Qed.

Lemma fetch_close (r : Lexer) (pre l : bytes) (c : ascii) :
  cursor r pre (c :: l) -> class_of c = CClose -> firstElement r = true ->
  scanned (fetch_loop (c :: l) r) pre [c] l tokenDelim c.
Proof.
  intros Hc Ho Hf. cbn [fetch_loop]. rewrite Ho, Hf. cbn [negb andb set_sep set_kind Data lx_pos].
  rewrite (cursor_lookup _ _ _ _ Hc). destruct Hc as [Hd Hs Hp Hk Hdl Hw He].
  split; cbn [Data lx_start lx_pos tok_kind tok_delim wantSep fatalError set_place set_delim set_kind set_sep]; try done. rewrite length_app. cbn. lia.
Qed.

(** A word and its first letter. *)
Lemma fetch_word_ok (r : Lexer) (pre l w : bytes) (c : ascii) :
  Data r = pre ++ (c :: w) ++ l -> lx_pos r = length pre -> tail_ok l ->
  fetch_word r w = set_place r (lx_start r) (length (pre ++ c :: w)).
Proof.
  intros Hd Hp Hl. unfold fetch_word. rewrite Hp.
  assert (E1 : (length pre + S (length w) = length (pre ++ c :: w))%nat) by (rewrite length_app; done).
  rewrite E1. rewrite (proj2 (Nat.leb_le _ _)) by (rewrite Hd, !length_app; cbn; lia).
  replace (drop (S (length pre)) (Data r)) with (w ++ l).
  2:{ rewrite Hd. replace (S (length pre)) with (length (pre ++ [c])) by (rewrite length_app; cbn; lia).
      change ((c :: w) ++ l) with ([c] ++ w ++ l). by rewrite (assoc_L (++) pre), drop_pre. }
  rewrite take_app_length, bool_decide_eq_true_2 by done. cbn [andb].
  rewrite Hd, (assoc_L (++)), lookup_app_r, Nat.sub_diag by lia. destruct l as [|e l]; [done|]. cbn in Hl |- *. by rewrite Hl.
Qed.

Lemma fetch_null (r : Lexer) (pre l : bytes) :
  cursor r pre (text "null" ++ l) -> tail_ok l -> scanned (fetch_loop (text "null" ++ l) r) pre (text "null") l tokenNull nul.
Proof.
  intros Hc Hl. change (fetch_loop _ r) with (fetchNull (set_kind (no_sep r) tokenNull)).
  unfold no_sep. rewrite (cu_sep _ _ _ Hc), bool_decide_eq_true_2 by done. destruct Hc as [Hd Hs Hp Hk Hdl Hw He].
  unfold fetchNull. rewrite (fetch_word_ok _ pre l (text "ull") "n"%char) by done. by split.
Qed.

Lemma fetch_bool (r : Lexer) (pre l : bytes) (b : bool) :
  cursor r pre (jw_Bool b ++ l) -> tail_ok l ->
  scanned (fetch_loop (jw_Bool b ++ l) r) pre (jw_Bool b) l tokenBool nul /\ tok_bool (fetch_loop (jw_Bool b ++ l) r) = b.
Proof.
  intros Hc Hl. destruct b.
  - change (fetch_loop _ r) with (fetchTrue (set_bool (set_kind (no_sep r) tokenBool) true)).
    unfold no_sep. rewrite (cu_sep _ _ _ Hc), bool_decide_eq_true_2 by done. destruct Hc as [Hd Hs Hp Hk Hdl Hw He].
    unfold fetchTrue. rewrite (fetch_word_ok _ pre l (text "rue") "t"%char) by done. by repeat split.
  - change (fetch_loop _ r) with (fetchFalse (set_bool (set_kind (no_sep r) tokenBool) false)).
    unfold no_sep. rewrite (cu_sep _ _ _ Hc), bool_decide_eq_true_2 by done. destruct Hc as [Hd Hs Hp Hk Hdl Hw He].
    unfold fetchFalse. rewrite (fetch_word_ok _ pre l (text "alse") "f"%char) by done. by repeat split.
Qed.

(** *** Numbers *)

(** What the loop over a number accepts to the end. *)
Fixpoint num_ok (hasE afterE hasDot : bool) (l : bytes) : bool :=
  match l with
  | [] => true
  | c :: l =>
      if isdig c then num_ok hasE false hasDot l
      else if Ascii.eqb c "." && negb hasDot then num_ok hasE afterE true l
      else if (Ascii.eqb c "e" || Ascii.eqb c "E") && negb hasE then num_ok true true true l
      else if (Ascii.eqb c "+" || Ascii.eqb c "-") && afterE then num_ok hasE false hasDot l
      else false
  end.

Lemma token_end_cases (c : ascii) :
  isTokenEnd c = true -> c ∈ [" "%char; "009"%char; "010"%char; "013"%char; "["%char; "]"%char; "{"%char; "}"%char; ","%char; ":"%char].
Proof.
  unfold isTokenEnd, is_space. cbn [existsb]. rewrite !orb_true_iff, !Ascii.eqb_eq. intros He.
  destruct_or!; subst; try done; set_solver.
Qed.

Lemma number_loop_end (hE aE hD : bool) (t l : bytes) :
  num_ok hE aE hD t = true -> tail_ok l -> number_loop hE aE hD (t ++ l) = (length t, head l).
Proof.
  revert hE aE hD. induction t as [|c t IH]; intros hE aE hD Ht Hl.
  - destruct l as [|c l]; [done|]. cbn in Hl |- *. apply token_end_cases in Hl.
    rewrite !elem_of_cons in Hl. by destruct_or!; subst; [..|apply not_elem_of_nil in Hl].
  - cbn [num_ok number_loop app] in *. repeat case_match; simplify_eq; try done;
      match goal with H : number_loop _ _ _ (t ++ l) = _ |- _ => rewrite IH in H by done; by simplify_eq end.
Qed.

(** A digit and what follows; with an optional sign. *)
Definition unsigned_text (t : bytes) : Prop :=
  exists c u, isdig c = true /\ num_ok false false false u = true /\ t = c :: u.

Definition number_text (t : bytes) : Prop := unsigned_text t \/ exists u, unsigned_text u /\ t = "-"%char :: u.

Lemma isdig_class (c : ascii) : isdig c = true -> class_of c = CNumber.
Proof.
  intros Hd. unfold class_of, is_space. cbn [existsb].
  assert (Hn : forall a, isdig a = false -> Ascii.eqb c a = false) by (intros a Ha; apply eqb_ascii_ne; intros ->; congruence).
  by rewrite !Hn, Hd.
Qed.

Lemma fetch_number (r : Lexer) (pre t l : bytes) :
  number_text t -> cursor r pre (t ++ l) -> tail_ok l ->
  scanned (fetch_loop (t ++ l) r) pre t l tokenNumber nul /\ tok_bytes (fetch_loop (t ++ l) r) = t.
Proof.
  intros Ht Hcu Hl.
  assert (exists a w, t = a :: w /\ class_of a = CNumber /\ num_ok false false false w = true) as (a & w & -> & Ha & Hw).
  { destruct Ht as [(c & u & Hc & Hu & ->)|(t' & (c & u & Hc & Hu & ->) & ->)]; [exists c, u; by rewrite isdig_class|].
    exists "-"%char, (c :: u). cbn. by rewrite Hc. }
  cbn [app fetch_loop]. rewrite Ha. unfold no_sep. rewrite (cu_sep _ _ _ Hcu), bool_decide_eq_true_2 by done.
  destruct Hcu as [Hd Hs Hp Hk Hdl Hsp He]. unfold fetchNumber. cbn [set_kind Data lx_pos lx_start]. rewrite Hd, Hp, Hs.
  replace (drop (S (length pre)) (pre ++ (a :: w) ++ l)) with (w ++ l).
  2:{ replace (S (length pre)) with (length (pre ++ [a])) by (rewrite length_app; cbn; lia).
      change ((a :: w) ++ l) with ([a] ++ w ++ l). by rewrite (assoc_L (++) pre), drop_pre. }
  rewrite number_loop_end by done.
  assert (Elen : (S (length pre) + length w = length (pre ++ a :: w))%nat) by (rewrite length_app; cbn; lia).
  destruct l as [|e l]; cbn [head].
  - rewrite app_nil_r in *. split; [split; cbn; try done|cbn; by rewrite drop_pre].
    by rewrite app_nil_r.
  - cbn in Hl. rewrite Hl, Elen. cbn [set_place set_kind Data lx_start]. rewrite Hd, drop_pre.
    split; [by split|]. cbn [set_bytes tok_bytes].
    replace (length (pre ++ a :: w) - length pre)%nat with (length (a :: w)) by (rewrite length_app; lia).
    by rewrite take_app_length.
Qed.

Lemma text_app (a b : string) : text (a +:+ b) = text a ++ text b.
Proof.
  induction a as [|c a IH]; [done|]. rewrite string_app_cons.
  change (c :: text (a +:+ b) = c :: text a ++ text b). by rewrite IH.
Qed.

Lemma untext_text (s : string) : untext (text s) = s.
Proof. apply Stdlib.Strings.String.string_of_list_ascii_of_string. Qed.

Lemma text_untext (l : bytes) : text (untext l) = l.
Proof. apply Stdlib.Strings.String.list_ascii_of_string_of_list_ascii. Qed.

Lemma digits_text (s : string) : all_chars isdig s = true -> Forall (fun c => isdig c = true) (text s).
Proof. induction s as [|c s IH]; cbn; [done|]. intros [Hc Hs]%andb_true_iff. constructor; [done|by apply IH]. Qed.

Lemma num_ok_digits (hE aE hD : bool) (ds u : bytes) :
  Forall (fun c => isdig c = true) ds -> num_ok hE aE hD (ds ++ u) = num_ok hE (match ds with [] => aE | _ => false end) hD u.
Proof.
  intros Hd. revert aE. induction Hd as [|c ds Hc Hd IH]; intros aE; [done|]. cbn [app num_ok]. rewrite Hc, IH. by destruct ds.
Qed.

Lemma num_ok_all (hE aE hD : bool) (s : string) : all_chars isdig s = true -> num_ok hE aE hD (text s) = true.
Proof. intros Hs. rewrite <- (app_nil_r (text s)), num_ok_digits by (by apply digits_text). done. Qed.

Lemma text_cons (c : ascii) (s : string) : text (String c s) = c :: text s.
Proof. done. Qed.

Lemma unsigned_digits (s : string) : all_chars isdig s = true -> s <> ""%string -> unsigned_text (text s).
Proof.
  intros Hd Hne. destruct s as [|c s]; [done|]. cbn in Hd. apply andb_true_iff in Hd as [Hc Hd]. exists c, (text s).
  split_and!; [done|by apply num_ok_all|done].
Qed.

Lemma jw_Uint_number (n : Z) : 0 <= n -> unsigned_text (jw_Uint n).
Proof.
  intros Hn. apply unsigned_digits; [by apply FormatUint_digits|]. destruct (FormatUint_nonempty n 10) as (a & s & ->). done.
Qed.

Lemma jw_Int_number (n : Z) : number_text (jw_Int n).
Proof.
  unfold jw_Int, FormatInt. destruct (Z.ltb_spec n 0).
  - right. exists (jw_Uint (- n)). split; [apply jw_Uint_number; lia|done].
  - left. by apply jw_Uint_number.
Qed.

(** Digits, a point and digits. *)
Lemma number_point (a b : string) :
  all_chars isdig a = true -> a <> ""%string -> all_chars isdig b = true -> unsigned_text (text (a +:+ "." +:+ b)).
Proof.
  intros Ha Hne Hb. destruct a as [|c a]; [done|]. cbn in Ha. apply andb_true_iff in Ha as [Hc Ha].
  exists c, (text a ++ "."%char :: text b). split_and!; [done| |by rewrite string_app_cons, text_cons, !text_app].
  rewrite num_ok_digits by (by apply digits_text). cbn. by apply num_ok_all.
Qed.

(** A mantissa and an exponent. *)
Lemma number_exponent (m e : string) (neg : bool) :
  (exists c u, isdig c = true /\ text m = c :: u /\ forall w, num_ok false false false (u ++ "e"%char :: w) = num_ok true true true w) ->
  all_chars isdig e = true -> unsigned_text (text (m +:+ "e" +:+ (if neg then "-" else "+") +:+ e)).
Proof.
  intros (c & u & Hc & Hm & Hw) He. exists c, (u ++ "e"%char :: (if neg then "-"%char else "+"%char) :: text e).
  split_and!; [done| |rewrite !text_app, Hm; by destruct neg].
  rewrite Hw. replace (num_ok _ _ _ _) with (num_ok true false true (text e)) by (by destruct neg). by apply num_ok_all.
Qed.

Lemma substring_one (ds : string) : ds <> ""%string -> exists c r, ds = String c r /\ String.substring 0 1 ds = String c "".
Proof. destruct ds as [|c r]; [done|]. intros _. exists c, r. split; [done|]. by destruct r. Qed.

Lemma fmtE_number (ds : string) (dp : Z) : all_chars isdig ds = true -> ds <> ""%string -> unsigned_text (text (fmtE ds dp)).
Proof.
  intros Hd Hne. unfold fmtE. set (rest := String.substring 1 _ ds). set (e := FormatUint _ 10).
  assert (Hr : all_chars isdig rest = true) by (by apply substring_visible).
  assert (He : all_chars isdig ((if Z.abs (dp - 1) <? 10 then "0" else "") +:+ e) = true).
  { rewrite all_chars_app. unfold e. rewrite FormatUint_digits by lia. by case_if. }
  destruct (substring_one ds Hne) as (c & r & -> & ->). cbn in Hd. apply andb_true_iff in Hd as [Hc _].
  apply number_exponent; [|done]. case_bool_decide as Hre.
  - exists c, []. by split_and!.
  - exists c, ("."%char :: text rest). split_and!; [done| |].
    + rewrite !text_app. done.
    + intros w. change (num_ok false false true (text rest ++ "e"%char :: w) = num_ok true true true w).
      rewrite num_ok_digits by (by apply digits_text). by destruct (text rest).
Qed.

Lemma fmtF_number (ds : string) (dp : Z) : all_chars isdig ds = true -> ds <> ""%string -> unsigned_text (text (fmtF ds dp)).
Proof.
  intros Hd Hne. assert (Hsub : forall i n, all_chars isdig (String.substring i n ds) = true) by (intros; by apply substring_visible).
  unfold fmtF. destruct (Z.ltb_spec 0 dp).
  - set (w := String.substring 0 _ ds +:+ _).
    assert (Hw : all_chars isdig w = true) by (unfold w; by rewrite all_chars_app, Hsub, zeros_digits).
    assert (Hwn : w <> ""%string).
    { unfold w. destruct ds as [|c ds]; [done|]. destruct (Z.to_nat dp) as [|n] eqn:E; [lia|]. cbn. done. }
    case_if; [by apply number_point|by apply unsigned_digits].
  - case_if; [|by apply (unsigned_digits "0")].
    change ("0." +:+ zeros (Z.to_nat (- dp)) +:+ ds)%string with ("0" +:+ "." +:+ (zeros (Z.to_nat (- dp)) +:+ ds))%string.
    apply number_point; [done|done|]. by rewrite all_chars_app, zeros_digits, Hd.
Qed.

Lemma shortest_digits_nonempty (m e : Z) : (shortest_digits m e).1 <> ""%string.
Proof.
  unfold shortest_digits. destruct (scaled m e) as [[[v lo] hi] den]. destruct (shortest _ _ _ _ _ _ _ _) as [t n]. cbn [fst].
  destruct (FormatUint_nonempty (strip_zeros 20 t) 10) as (a & s & ->). done.
Qed.

(** The texts of a finite number, [%g] and [%f]. *)
Lemma finite_number (f : float64) (fmt : string -> Z -> string) :
  (forall ds dp, all_chars isdig ds = true -> ds <> ""%string -> unsigned_text (text (fmt ds dp))) ->
  number_text (text (
    let sign := if signbit f then "-"%string else ""%string in
    let m := frac_field f + (if exp_field f =? 0 then 0 else 2 ^ 52) in
    let e := (if exp_field f =? 0 then 1 else exp_field f) - 1075 in
    if m =? 0 then sign +:+ "0" else let '(ds, dp) := shortest_digits m e in sign +:+ fmt ds dp)).
Proof.
  intros Hf. cbn zeta. set (m := frac_field f + _). set (e := _ - 1075).
  assert (Hs : forall t, unsigned_text (text t) -> number_text (text ((if signbit f then "-"%string else ""%string) +:+ t))).
  { intros t Ht. destruct (signbit f); [right; by exists (text t)|by left]. }
  destruct (m =? 0); [apply Hs; by apply (unsigned_digits "0")|].
  assert (Hm0 : 0 <= m).
  { unfold m, frac_field. pose proof (Z.mod_pos_bound f (2 ^ 52) ltac:(lia)). case_if; lia. }
  pose proof (shortest_digits_digits m e Hm0) as Hd. pose proof (shortest_digits_nonempty m e) as Hne.
  destruct (shortest_digits m e) as [ds dp]. by apply Hs, Hf.
Qed.

Lemma FormatFloat_number (f : float64) : IsNaN f = false -> IsInf f = false -> number_text (text (FormatFloat f)).
Proof.
  intros Hn Hi. unfold FormatFloat. rewrite Hn, Hi. apply (finite_number f fmt_g). intros ds dp Hd Hne. unfold fmt_g.
  case_if; [by apply fmtE_number|by apply fmtF_number].
Qed.

Lemma FormatFloat_f_number (f : float64) : IsNaN f = false -> IsInf f = false -> number_text (text (FormatFloat_f f)).
Proof. intros Hn Hi. unfold FormatFloat_f. rewrite Hn, Hi. apply (finite_number f fmtF), fmtF_number. Qed.

(** The conversions. *)
Lemma scan_uint_parse (w n u : Z) (s : string) :
  0 <= n -> parse_go 10 n s = Some u -> u < 2 ^ w -> w <= 64 -> all_chars isdig s = true -> n <= u /\ scan_uint w n s = (u, None).
Proof.
  revert n. induction s as [|a s IH]; intros n Hn Hp Hu Hw Hd; cbn [parse_go scan_uint all_chars] in *; [simplify_eq; split; [lia|done]|].
  apply andb_true_iff in Hd as [Ha Hd]. unfold isdig, code in Ha. unfold value36 in Hp. unfold digit10, code.
  rewrite Ha in Hp |- *. apply andb_true_iff in Ha as [H1 H2]. apply Z.leb_le in H1, H2. cbn [mbind option_bind] in Hp.
  case_match eqn:E; [|done]. apply IH in Hp as [Hle Hs]; [|lia|done|done|done].
  rewrite (proj2 (Z.ltb_lt _ _)) by lia. split; [lia|done].
Qed.

Lemma parse_uint_text (w n : Z) : 0 <= n < 2 ^ w -> w <= 64 -> parse_uint w (FormatUint n 10) = (n, None).
Proof.
  intros Hn Hw. assert (Hwn : 0 <= w). { destruct (Z.le_gt_cases 0 w); [done|]. rewrite Z.pow_neg_r in Hn by lia. lia. }
  pose proof (Parse_Format n 10 ltac:(lia)) as Hp. unfold in_width, ParseUint in Hp. unfold parse_uint.
  case_bool_decide as E; [destruct (FormatUint_nonempty n 10) as (a & s & E'); congruence|].
  assert (2 ^ w <= 2 ^ 64) by (apply Z.pow_le_mono_r; lia).
  apply scan_uint_parse; [lia| |lia|done|apply FormatUint_digits; lia]. apply Hp. lia.
Qed.

Lemma split_sign_digits (s : string) : all_chars isdig s = true -> split_sign s = (false, s).
Proof.
  destruct s as [|a s]; [done|]. cbn [all_chars split_sign]. intros [Ha _]%andb_true_iff. unfold isdig in Ha.
  apply andb_true_iff in Ha as [H1 H2]. apply Z.leb_le in H1, H2.
  by rewrite !(proj2 (Z.eqb_neq _ _)) by lia.
Qed.

Lemma parse_int_text (w n : Z) : 1 <= w <= 64 -> - 2 ^ (w - 1) <= n < 2 ^ (w - 1) -> parse_int w (FormatInt n) = (n, None).
Proof.
  intros Hw Hn. assert (Hp : 2 ^ w = 2 * 2 ^ (w - 1)) by (rewrite <- Z.pow_succ_r by lia; f_equal; lia).
  unfold parse_int, FormatInt. destruct (Z.ltb_spec n 0).
  - change (split_sign ("-" +:+ FormatUint (- n) 10)) with (true, FormatUint (- n) 10). cbv beta iota.
    rewrite parse_uint_text by lia. cbn [negb andb]. rewrite (proj2 (Z.ltb_ge _ _)) by lia. f_equal. lia.
  - rewrite split_sign_digits by (apply FormatUint_digits; lia). rewrite parse_uint_text by lia. cbn [negb andb].
    by rewrite (proj2 (Z.leb_gt _ _)) by lia.
Qed.

(** *** Strings *)

(** The pieces of a written string: a character as it is, an escape of one
    character and an escape of a rune. *)
Inductive chunk :=
| CPlain (a : ascii)
| CEsc (c d : ascii)
| CRune (h3 h2 h1 h0 : ascii) (v : bytes).

Definition chunk_text (k : chunk) : bytes :=
  match k with
  | CPlain a => [a]
  | CEsc c _ => [backslash; c]
  | CRune h3 h2 h1 h0 _ => [backslash; "u"%char; h3; h2; h1; h0]
  end.

Definition chunk_value (k : chunk) : bytes :=
  match k with CPlain a => [a] | CEsc _ d => [d] | CRune _ _ _ _ v => v end.

Definition plain (a : ascii) : Prop := a <> quote /\ a <> backslash.

Definition chunk_ok (k : chunk) : Prop :=
  match k with
  | CPlain a => plain a
  | CEsc c d => (c, d) ∈ [(quote, quote); (backslash, backslash); ("t"%char, "009"%char); ("r"%char, "013"%char); ("n"%char, "010"%char)]
  | CRune h3 h2 h1 h0 v =>
      plain h3 /\ plain h2 /\ plain h1 /\ plain h0 /\
      exists r, getu4 [backslash; "u"%char; h3; h2; h1; h0] = Some r /\ IsSurrogate r = false /\ EncodeRune r = v
  end.

Abbreviation texts cs := (concat (map chunk_text cs)).
Abbreviation values cs := (concat (map chunk_value cs)).

Lemma plain_eqb (a : ascii) : plain a -> Ascii.eqb a quote = false /\ Ascii.eqb a backslash = false.
Proof. intros [H1 H2]. by rewrite !eqb_ascii_ne. Qed.

Ltac plains := repeat match goal with H : plain _ |- _ => apply plain_eqb in H as [? ?] end.

(** An escape, read. *)
Lemma processEscape_chunk (k : chunk) (l : bytes) : chunk_ok k -> (forall a, k <> CPlain a) ->
  processEscape (chunk_text k ++ l) = inl (length (chunk_text k), chunk_value k).
Proof.
  intros Hk Hn. destruct k as [a|c d|h3 h2 h1 h0 v]; [by destruct (Hn a)| |].
  - cbn in Hk. rewrite !elem_of_cons in Hk. by destruct_or!; simplify_eq; [..|apply not_elem_of_nil in Hk].
  - destruct Hk as (_ & _ & _ & _ & r & Hg & Hs & <-). cbn [chunk_text app processEscape].
    replace (getu4 _) with (Some r) by (rewrite <- Hg; done). by rewrite Hs.
Qed.

Lemma string_len_chunks (cs : list chunk) (i d : nat) (l : bytes) : Forall chunk_ok cs ->
  exists d', string_len_loop 0 i d (texts cs ++ quote :: l) = Some ((i + length (texts cs))%nat, d') /\ (d <= d')%nat /\
    (d' = d -> texts cs = values cs).
Proof.
  intros Hcs. revert i d. induction Hcs as [|k cs Hk Hcs IH]; intros i d.
  { exists d. rewrite Nat.add_0_r. by split_and!. }
  destruct k as [a|c e|h3 h2 h1 h0 v]; cbn [map concat chunk_text chunk_value app length].
  - apply plain_eqb in Hk as [H1 H2]. cbn [string_len_loop]. rewrite H1, H2.
    destruct (IH (S i) d) as (d' & E & Hle & Hv). exists d'. rewrite E. split_and!; [do 2 f_equal; lia|done|].
    intros Hd. by rewrite Hv.
  - assert (Hc : Ascii.eqb c "u" = false).
    { cbn in Hk. rewrite !elem_of_cons in Hk. by destruct_or!; simplify_eq; [..|apply not_elem_of_nil in Hk]. }
    cbn [string_len_loop]. rewrite eqb_ascii_refl, Hc.
    destruct (IH (S (S i)) (S d)) as (d' & E & Hle & Hv). exists d'. rewrite E. split_and!; [do 2 f_equal; lia|lia|lia].
  - destruct Hk as (P3 & P2 & P1 & P0 & _). plains. cbn [string_len_loop]. rewrite eqb_ascii_refl.
    cbn [string_len_loop]. change (Ascii.eqb "u" "u") with true. cbn iota.
    repeat match goal with H : Ascii.eqb _ _ = false |- _ => rewrite H; clear H end.
    destruct (IH (S (S (S (S (S (S i)))))) (S (S d))) as (d' & E & Hle & Hv). exists d'. rewrite E. split_and!; [do 2 f_equal; lia|lia|lia].
Qed.

Lemma string_loop_chunks (cs : list chunk) (i : nat) (acc l : bytes) : Forall chunk_ok cs ->
  string_loop 0 i acc (texts cs ++ quote :: l) = SEnd (i + length (texts cs)) (acc ++ values cs).
Proof.
  intros Hcs. revert i acc. induction Hcs as [|k cs Hk Hcs IH]; intros i acc.
  { cbn. by rewrite Nat.add_0_r, app_nil_r. }
  destruct k as [a|c e|h3 h2 h1 h0 v]; cbn [map concat].
  - cbn [chunk_text chunk_value app length string_loop]. apply plain_eqb in Hk as [-> ->]. rewrite IH.
    by rewrite <- (assoc_L (++)), Nat.add_succ_comm.
  - rewrite <- (assoc_L (++)). pose proof (processEscape_chunk _ (texts cs ++ quote :: l) Hk ltac:(done)) as Hp.
    cbn [chunk_text app length] in *. cbn [string_loop]. rewrite Hp. cbn [chunk_value pred string_loop].
    change (Ascii.eqb backslash quote) with false. rewrite eqb_ascii_refl. cbn iota.
    rewrite IH, (assoc_L (++)). f_equal. lia.
  - rewrite <- (assoc_L (++)). pose proof (processEscape_chunk _ (texts cs ++ quote :: l) Hk ltac:(done)) as Hp.
    cbn [chunk_text app length] in *. cbn [string_loop]. rewrite Hp. cbn [chunk_value pred string_loop].
    change (Ascii.eqb backslash quote) with false. rewrite eqb_ascii_refl. cbn iota.
    rewrite IH, (assoc_L (++)). f_equal. lia.
Qed.

(** The text of a string, as a token. *)
Lemma fetch_string (r : Lexer) (pre l : bytes) (cs : list chunk) :
  let t := quote :: texts cs ++ [quote] in
  Forall chunk_ok cs -> cursor r pre (t ++ l) ->
  scanned (fetch_loop (t ++ l) r) pre t l tokenString nul /\ tok_bytes (fetch_loop (t ++ l) r) = values cs.
Proof.
  intros t Hcs Hcu. change (fetch_loop (t ++ l) r) with (fetchString (set_kind (no_sep r) tokenString)).
  unfold no_sep. rewrite (cu_sep _ _ _ Hcu), bool_decide_eq_true_2 by done. destruct Hcu as [Hd Hs Hp Hk Hdl Hw He].
  unfold fetchString. cbn [set_kind set_place Data lx_start lx_pos]. rewrite Hp.
  assert (Hdr : drop (S (length pre)) (Data r) = texts cs ++ quote :: l).
  { rewrite Hd. unfold t. cbn [app]. replace (S (length pre)) with (length (pre ++ [quote])) by (rewrite length_app; cbn; lia).
    change (quote :: (texts cs ++ [quote]) ++ l) with ([quote] ++ (texts cs ++ [quote]) ++ l).
    by rewrite (assoc_L (++) pre), drop_pre, <- (assoc_L (++)). }
  rewrite Hdr. unfold findStringLen. destruct (string_len_chunks cs 0 0 l Hcs) as (d' & -> & _ & Hv).
  assert (Hpos : (S (length pre) + length (texts cs) + 1 = length (pre ++ t))%nat).
  { unfold t. rewrite length_app. cbn. rewrite length_app. cbn. lia. }
  destruct (Nat.ltb_spec 0 d'); cbn [negb].
  - rewrite string_loop_chunks by done. rewrite Nat.add_0_l, Hpos. by split; [split|].
  - replace d' with 0%nat in * by lia. rewrite Nat.sub_0_r, Nat.add_0_l, take_app_length, Hpos.
    split; [by split|]. cbn. by apply Hv.
Qed.

(** The skipping loop passes over it. *)
Lemma skip_plain (a : ascii) (l : bytes) (i level : nat) (start stop : ascii) (e : bool) : plain a ->
  skip_loop start stop (a :: l) i level true e = skip_loop start stop l (S i) level true false.
Proof. intros [H1 H2]%plain_eqb. cbn [skip_loop]. by rewrite !andb_false_r, H1, H2. Qed.

Lemma skip_backslash (l : bytes) (i level : nat) (start stop : ascii) (e : bool) :
  skip_loop start stop (backslash :: l) i level true e = skip_loop start stop l (S i) level true (negb e).
Proof. cbn [skip_loop]. by rewrite !andb_false_r. Qed.

Lemma skip_quoted_quote (l : bytes) (i level : nat) (start stop : ascii) :
  skip_loop start stop (quote :: l) i level true true = skip_loop start stop l (S i) level true false.
Proof. cbn [skip_loop]. by rewrite !andb_false_r. Qed.

Lemma skip_chunks (cs : list chunk) (l : bytes) (i level : nat) (start stop : ascii) : Forall chunk_ok cs ->
  skip_loop start stop (texts cs ++ l) i level true false = skip_loop start stop l (i + length (texts cs)) level true false.
Proof.
  intros Hcs. revert i. induction Hcs as [|k cs Hk Hcs IH]; intros i; [by rewrite Nat.add_0_r|].
  destruct k as [a|c e|h3 h2 h1 h0 v]; cbn [map concat chunk_text app length].
  - rewrite skip_plain, IH by done. f_equal. lia.
  - rewrite skip_backslash. cbn [negb]. cbn in Hk. rewrite !elem_of_cons in Hk.
    destruct_or!; simplify_eq; [..|by apply not_elem_of_nil in Hk];
      first [rewrite skip_quoted_quote|rewrite skip_backslash|rewrite skip_plain by done]; cbn [negb]; rewrite IH; f_equal; lia.
  - destruct Hk as (P3 & P2 & P1 & P0 & _). rewrite skip_backslash. rewrite !skip_plain by done. rewrite IH. f_equal. lia.
Qed.

(** Text in UTF-8. *)
Fixpoint utf8_valid (skip : nat) (l : bytes) : bool :=
  match l with
  | [] => true
  | c :: l' =>
      match skip with
      | S skip => utf8_valid skip l'
      | O => if code c <? 0x80 then utf8_valid 0 l' else match rune_width l with O => false | S w => utf8_valid w l' end
      end
  end.

Definition high (a : ascii) : Prop := 0x80 <= code a.

Lemma high_plain (a : ascii) : high a -> plain a.
Proof. unfold high. intros Ha. split; intros ->; vm_compute in Ha; by apply Ha. Qed.

Lemma rune_width_spec (c : ascii) (l : bytes) (w : nat) :
  rune_width (c :: l) = S w -> exists a b, l = a ++ b /\ length a = w /\ Forall high a.
Proof.
  intros Hw. assert (Hl : forall j, (j < w)%nat -> exists b, l !! j = Some b /\ high b).
  { unfold rune_width in Hw. cbv zeta in Hw. unfold high.
    repeat case_match; simplify_eq;
      repeat match goal with H : _ && _ = true |- _ => apply andb_true_iff in H as [? ?] end; try done;
      rewrite ?Z.leb_le in *; intros j Hj; destruct j as [|[|[|j]]]; try lia; eexists; (split; [eassumption|lia]). }
  exists (take w l), (drop w l). split; [by rewrite take_drop|].
  assert (Hlen : (w <= length l)%nat).
  { destruct w as [|w']; [lia|]. destruct (Hl w' ltac:(lia)) as (b & Hb & _). apply lookup_lt_Some in Hb. lia. }
  split; [rewrite length_take; lia|]. apply Forall_forall. intros a Ha. apply list_elem_of_lookup in Ha as [j Hj].
  apply lookup_take_Some in Hj as [Hj Hlt]. destruct (Hl j Hlt) as (b & Hb & Hhb). congruence.
Qed.

Lemma escape_raw (a l : bytes) : escape (length a) 0 (a ++ l) = a ++ escape 0 0 l.
Proof. induction a as [|c a IH]; [by destruct l|]. cbn. by rewrite IH. Qed.

Lemma escape_skip (a l : bytes) : escape 0 (length a) (a ++ l) = escape 0 0 l.
Proof. induction a as [|c a IH]; [by destruct l|]. cbn. by rewrite IH. Qed.

Lemma valid_skip (a l : bytes) : utf8_valid (length a) (a ++ l) = utf8_valid 0 l.
Proof. induction a as [|c a IH]; [by destruct l|]. cbn. by rewrite IH. Qed.

Lemma values_plain (a : bytes) : values (map CPlain a) = a /\ texts (map CPlain a) = a.
Proof. induction a as [|c a [IH1 IH2]]; [done|]. cbn [map concat chunk_value chunk_text app]. by rewrite IH1, IH2. Qed.

(** The escape of a character below 0x80. *)
Lemma escape_single_chunk (c : ascii) : code c < 0x80 -> isNotEscapedSingleChar c = false ->
  exists k, chunk_ok k /\ escape_single c = chunk_text k /\ chunk_value k = [c].
Proof.
  intros Hc Hn. unfold escape_single.
  destruct (Ascii.eqb_spec c "009"); [subst; exists (CEsc "t" "009"); split_and!; cbn; [set_solver|done|done]|].
  destruct (Ascii.eqb_spec c "013"); [subst; exists (CEsc "r" "013"); split_and!; cbn; [set_solver|done|done]|].
  destruct (Ascii.eqb_spec c "010"); [subst; exists (CEsc "n" "010"); split_and!; cbn; [set_solver|done|done]|].
  destruct (Ascii.eqb_spec c backslash); [subst; exists (CEsc backslash backslash); split_and!; cbn; [set_solver|done|done]|].
  destruct (Ascii.eqb_spec c quote); [subst; exists (CEsc quote quote); split_and!; cbn; [set_solver|done|done]|].
  exists (CRune "0" "0" (hex_digit (Z.shiftr (code c) 4)) (hex_digit (Z.land (code c) 0xf)) [c]).
  split; [|by split]. clear -Hc. revert Hc. destruct c as [[] [] [] [] [] [] [] []]; intros Hc; try (exfalso; vm_compute in Hc; discriminate Hc);
    (split_and!; [split; discriminate..|]; eexists; by split_and!).
Qed.

Lemma byte_of_code (a : ascii) : byte_of (code a) = a.
Proof. unfold byte_of, code. rewrite N2Z.id. apply ascii_N_embedding. Qed.

Lemma line_separator_chunk (l : bytes) (d : Z) : line_separator l = Some d ->
  exists a b c l', l = a :: b :: c :: l' /\ rune_width l = 3%nat /\
    exists k, chunk_ok k /\ backslash :: text "u202" ++ [hex_digit d] = chunk_text k /\ chunk_value k = [a; b; c].
Proof.
  intros Hs. destruct l as [|a [|b [|c l]]]; try done. cbn [line_separator] in Hs. case_match eqn:E; [|done]. simplify_eq.
  apply andb_true_iff in E as [[Ea Eb]%andb_true_iff Ec]. apply Z.eqb_eq in Ea, Eb.
  exists a, b, c, l. split; [done|]. rewrite <- (byte_of_code a), <- (byte_of_code b), <- (byte_of_code c), Ea, Eb.
  apply orb_true_iff in Ec as [Ec%Z.eqb_eq|Ec%Z.eqb_eq]; rewrite Ec; (split; [by vm_compute|]).
  - exists (CRune "2" "0" "2" "8" (EncodeRune 0x2028)). split_and!; [|done|by vm_compute].
    split_and!; [split; discriminate..|]. eexists. by split_and!.
  - exists (CRune "2" "0" "2" "9" (EncodeRune 0x2029)). split_and!; [|done|by vm_compute].
    split_and!; [split; discriminate..|]. eexists. by split_and!.
Qed.

Lemma escape_chunks (n : nat) (l : bytes) : (length l <= n)%nat -> utf8_valid 0 l = true ->
  exists cs, Forall chunk_ok cs /\ escape 0 0 l = texts cs /\ values cs = l.
Proof.
  revert l. induction n as [|n IH]; intros l Hn Hv.
  { destruct l; [by exists []|cbn in Hn; lia]. }
  destruct l as [|c l]; [by exists []|]. cbn in Hn. cbn [escape].
  destruct (isNotEscapedSingleChar c) eqn:Hp.
  - unfold isNotEscapedSingleChar in Hp. apply andb_true_iff in Hp as [[Hp _]%andb_true_iff Hc].
    cbn [utf8_valid] in Hv. rewrite Hc in Hv. destruct (IH l ltac:(lia) Hv) as (cs & Hcs & E & Ev).
    exists (CPlain c :: cs). rewrite E. split_and!; [constructor; [|done]|done|cbn; by rewrite Ev].
    apply negb_true_iff in Hp. cbn in Hp. rewrite !orb_false_iff, !Ascii.eqb_neq in Hp. by destruct_and!.
  - cbn [utf8_valid] in Hv. destruct (Z.ltb_spec (code c) 128) as [Hc|Hc].
    + destruct (IH l ltac:(lia) Hv) as (cs & Hcs & E & Ev).
      destruct (escape_single_chunk c Hc Hp) as (k & Hk & Et & Evk).
      exists (k :: cs). rewrite E, Et. split_and!; [by constructor|done|cbn; by rewrite Evk, Ev].
    + destruct (rune_width (c :: l)) as [|w] eqn:Ew; [done|].
      destruct (rune_width_spec c l w Ew) as (a & b & -> & <- & Ha). rewrite valid_skip in Hv. rewrite length_app in Hn.
      destruct (IH b ltac:(lia) Hv) as (cs & Hcs & E & Ev).
      destruct (line_separator (c :: a ++ b)) as [d|] eqn:El.
      * destruct (line_separator_chunk _ d El) as (a1 & b1 & c1 & l1 & El1 & Ew3 & k & Hk & Et & Evk).
        rewrite Ew in Ew3. injection Ew3 as Ew3. destruct a as [|a2 [|a3 [|]]]; try done. cbn [app] in El1. simplify_eq.
        exists (k :: cs). split_and!; [by constructor| |cbn; by rewrite Evk].
        cbn [map concat]. rewrite <- Et, <- E, (escape_skip [b1; c1]). done.
      * exists (map CPlain (c :: a) ++ cs). rewrite escape_raw, !map_app, !concat_app.
        destruct (values_plain (c :: a)) as [-> ->]. rewrite Ev, E. split_and!; [|done|done].
        apply Forall_app. split; [|done]. apply Forall_map. apply (Forall_impl high).
        -- constructor; [done|done].
        -- intros x. apply high_plain.
Qed.

(** *** The characters of base64 *)

Definition byte_ok (a : Z) : Prop := 0 <= a < 256.

Lemma b64_char_value (d : Z) : 0 <= d < 64 -> b64_value (b64_char d) = Some d /\ plain (b64_char d) /\ b64_char d <> "="%char /\
  b64_char d <> "010"%char /\ b64_char d <> "013"%char.
Proof.
  intros Hd. assert (Hall : forallb (fun d => bool_decide (b64_value (b64_char d) = Some d) &&
    forallb (fun c => negb (Ascii.eqb (b64_char d) c)) [quote; backslash; "="%char; "010"%char; "013"%char]) (map Z.of_nat (seq 0 64)) = true)
    by (vm_compute; reflexivity).
  rewrite forallb_forall in Hall. assert (Hin : List.In d (map Z.of_nat (seq 0 64))).
  { apply in_map_iff. exists (Z.to_nat d). split; [lia|]. apply in_seq. lia. }
  specialize (Hall d Hin).
  apply andb_true_iff in Hall as [H1 H2]. apply bool_decide_eq_true in H1. split; [done|].
  rewrite forallb_forall in H2. assert (Hne : forall c, List.In c [quote; backslash; "="%char; "010"%char; "013"%char] -> b64_char d <> c).
  { intros c Hc. apply H2, negb_true_iff, Ascii.eqb_neq in Hc. done. }
  split_and!; [split|..]; apply Hne; cbn; tauto.
Qed.

(** Quotients and remainders. *)
Ltac dm := Z.to_euclidean_division_equations; lia.

Definition b64_plain (a : ascii) : Prop := plain a /\ a <> "010"%char /\ a <> "013"%char.

Lemma b64_encode_plain (n : nat) (l : list Z) : (length l <= n)%nat -> Forall byte_ok l -> Forall b64_plain (b64_encode l).
Proof.
  assert (Hc : forall d, 0 <= d < 64 -> b64_plain (b64_char d)) by (intros d Hd; destruct (b64_char_value d Hd) as (_ & ? & _ & ? & ?); done).
  revert l. induction n as [|n IH]; intros l Hn Hl; [destruct l; [constructor|cbn in Hn; lia]|].
  destruct l as [|a [|b [|c l]]]; cbn [b64_encode]; rewrite ?Forall_cons in Hl; unfold byte_ok in Hl; destruct_and?.
  - constructor.
  - rewrite !Forall_cons. split_and!; [apply Hc; dm..|done|done|constructor].
  - rewrite !Forall_cons. split_and!; [apply Hc; dm..|done|constructor].
  - rewrite !Forall_cons. split_and!; [apply Hc; dm..|]. apply IH; [cbn in Hn; lia|done].
Qed.

Lemma b64_groups_encode (n : nat) (l : list Z) : (length l <= n)%nat -> Forall byte_ok l -> b64_groups (b64_encode l) = Some l.
Proof.
  assert (Hv : forall d, 0 <= d < 64 -> b64_value (b64_char d) = Some d) by (intros; by apply b64_char_value).
  assert (He : forall d, 0 <= d < 64 -> b64_char d <> "="%char) by (intros d Hd; by destruct (b64_char_value d Hd) as (_ & _ & ? & _)).
  revert l. induction n as [|n IH]; intros l Hn Hl; [destruct l; [done|cbn in Hn; lia]|].
  destruct l as [|a [|b [|c l]]]; cbn [b64_encode]; rewrite ?Forall_cons in Hl; unfold byte_ok in Hl; destruct_and?; [done|..].
  - cbn [b64_groups]. rewrite !Hv by dm. cbn [mbind option_bind]. rewrite bool_decide_eq_true_2 by done. do 2 f_equal. dm.
  - cbn [b64_groups]. rewrite !Hv by dm. cbn [mbind option_bind]. rewrite bool_decide_eq_false_2 by (intros [E _]; by apply He in E; [|dm]).
    rewrite bool_decide_eq_true_2 by done. do 2 f_equal; [dm|f_equal; dm].
  - cbn [b64_groups]. rewrite !Hv by dm. cbn [mbind option_bind]. rewrite bool_decide_eq_false_2 by (intros [E _]; by apply He in E; [|dm]).
    rewrite bool_decide_eq_false_2 by (intros [E _]; by apply He in E; [|dm]).
    rewrite IH by (done || cbn in Hn; lia). cbn [mbind option_bind]. do 2 f_equal; [dm|f_equal; [dm|f_equal; dm]].
Qed.

Lemma b64_roundtrip (l : list Z) : Forall byte_ok l -> b64_decode (b64_encode l) = Some l.
Proof.
  intros Hl. unfold b64_decode. pose proof (b64_encode_plain (length l) l (le_n _) Hl) as Hp.
  replace (filter _ (b64_encode l)) with (b64_encode l); [by apply (b64_groups_encode (length l))|].
  induction Hp as [|a t (_ & Ha) Hp IH]; [done|]. by rewrite filter_cons_True, <- IH.
Qed.

Lemma b64_chunks (l : list Z) : Forall byte_ok l ->
  let cs := map CPlain (b64_encode l) in Forall chunk_ok cs /\ texts cs = b64_encode l /\ values cs = b64_encode l.
Proof.
  intros Hl cs. split; [|by destruct (values_plain (b64_encode l))]. apply Forall_map.
  apply (Forall_impl _ _ _ (b64_encode_plain (length l) l (le_n _) Hl)). by intros a (? & _).
Qed.

(** ** Scanning ahead *)

Lemma errParse_kind (r : Lexer) (w : string) : tok_kind (errParse r w) = tok_kind r.
Proof. unfold errParse. by destruct (fatalError r). Qed.

Lemma no_sep_kind (r : Lexer) : tok_kind (no_sep r) = tok_kind r.
Proof. unfold no_sep, errSyntax. case_match; [done|apply errParse_kind]. Qed.

Lemma errParse_error (r : Lexer) (w : string) : fatalError (errParse r w) <> None.
Proof. unfold errParse. destruct (fatalError r) eqn:E; [by rewrite E|done]. Qed.

Lemma fetchString_kind (r : Lexer) : tok_kind (fetchString r) = tok_kind r.
Proof. unfold fetchString. repeat case_match; rewrite ?errParse_kind; done. Qed.

Lemma fetchNumber_kind (r : Lexer) : tok_kind (fetchNumber r) = tok_kind r.
Proof. unfold fetchNumber, errSyntax. repeat case_match; rewrite ?errParse_kind; done. Qed.

Lemma fetch_word_kind (r : Lexer) (w : bytes) : tok_kind (fetch_word r w) = tok_kind r.
Proof. unfold fetch_word, errSyntax. repeat case_match; rewrite ?errParse_kind; done. Qed.

Lemma fetch_loop_done (l : bytes) (r : Lexer) : tok_kind (fetch_loop l r) <> tokenUndef \/ fatalError (fetch_loop l r) <> None.
Proof.
  revert r. induction l as [|c l IH]; intros r; cbn [fetch_loop]; [by right|].
  destruct (class_of c); try apply IH.
  - left. by rewrite fetchString_kind.
  - by left.
  - by left.
  - left. by rewrite fetchNumber_kind.
  - left. unfold fetchNull. by rewrite fetch_word_kind.
  - left. unfold fetchTrue. by rewrite fetch_word_kind.
  - left. unfold fetchFalse. by rewrite fetch_word_kind.
  - right. apply errParse_error.
Qed.

(** The data never change. *)
Lemma errParse_data (r : Lexer) (w : string) : Data (errParse r w) = Data r.
Proof. unfold errParse. by destruct (fatalError r). Qed.

Lemma no_sep_data (r : Lexer) : Data (no_sep r) = Data r.
Proof. unfold no_sep, errSyntax. case_match; [done|apply errParse_data]. Qed.

Lemma fetchString_data (r : Lexer) : Data (fetchString r) = Data r.
Proof. unfold fetchString. repeat case_match; rewrite ?errParse_data; done. Qed.

Lemma fetchNumber_data (r : Lexer) : Data (fetchNumber r) = Data r.
Proof. unfold fetchNumber, errSyntax. repeat case_match; rewrite ?errParse_data; done. Qed.

Lemma fetch_word_data (r : Lexer) (w : bytes) : Data (fetch_word r w) = Data r.
Proof. unfold fetch_word, errSyntax. repeat case_match; rewrite ?errParse_data; done. Qed.

Lemma fetch_loop_data (l : bytes) (r : Lexer) : Data (fetch_loop l r) = Data r.
Proof.
  revert r. induction l as [|c l IH]; intros r; cbn [fetch_loop]; [done|].
  destruct (class_of c); rewrite ?IH; unfold fetchNull, fetchTrue, fetchFalse, errSyntax;
    rewrite ?fetchString_data, ?fetchNumber_data, ?fetch_word_data, ?errParse_data; cbn; rewrite ?no_sep_data; try done;
    repeat case_match; rewrite ?errParse_data; try done.
Qed.

Lemma scanToken_data (r : Lexer) : Data (scanToken r) = Data r.
Proof.
  unfold scanToken. case_match; [|done]. unfold FetchToken. case_match; [by rewrite errParse_data|by rewrite fetch_loop_data].
Qed.

Lemma scanToken_idem (r : Lexer) : scanToken (scanToken r) = scanToken r.
Proof.
  destruct (bool_decide (tok_kind r = tokenUndef) && lx_Ok r) eqn:E.
  - assert (Hs : scanToken r = FetchToken r) by (unfold scanToken; by rewrite E). rewrite Hs. unfold scanToken.
    assert (Hd : tok_kind (FetchToken r) <> tokenUndef \/ fatalError (FetchToken r) <> None).
    { unfold FetchToken. case_match; [right; apply errParse_error|apply fetch_loop_done]. }
    destruct Hd as [Hd|Hd]; [by rewrite bool_decide_eq_false_2|]. unfold lx_Ok.
    destruct (fatalError (FetchToken r)); [|done]. by rewrite andb_false_r.
  - assert (Hs : scanToken r = r) by (unfold scanToken; by rewrite E). by rewrite Hs.
Qed.

(** The next token of [r] is at the front of [l]. *)
Definition tok (r : Lexer) (pre l : bytes) : Prop :=
  (0 < lx_pos r)%nat /\ exists r0, cursor r0 pre l /\ scanToken r = fetch_loop l r0.

(** Inside an object or array: before its first part, or after another. *)
Definition inside (r : Lexer) (pre l : bytes) (first : bool) : Prop :=
  after r pre l /\ if first then firstElement r = true /\ wantSep r = nul else wantSep r = ","%char.

Lemma after_fetch (r : Lexer) (pre l : bytes) : after r pre l ->
  scanToken r = fetch_loop l (set_place (set_kind r tokenUndef) (length pre) (length pre)).
Proof.
  intros [Hd Hp Hk Hdl He]. unfold scanToken, lx_Ok. rewrite Hk, He, bool_decide_eq_true_2 by done. cbn [andb].
  unfold FetchToken. cbn [set_place set_kind Data lx_pos]. rewrite Hp, Hd, drop_pre.
  destruct (Nat.ltb_spec (length (pre ++ l)) (length pre)) as [Hlt|]; [rewrite length_app in Hlt; lia|done].
Qed.

Lemma after_cursor (r : Lexer) (pre l : bytes) : after r pre l -> wantSep r = nul ->
  cursor (set_place (set_kind r tokenUndef) (length pre) (length pre)) pre l.
Proof. intros [Hd Hp Hk Hdl He] Hs. by split. Qed.

(** A separator that is wanted is passed over. *)
Lemma after_sep (r : Lexer) (pre l : bytes) (s : ascii) : after r pre (s :: l) -> wantSep r = s -> class_of s = CSep -> s <> nul ->
  exists r0, cursor r0 (pre ++ [s]) l /\ scanToken r = fetch_loop l r0 /\ firstElement r0 = firstElement r.
Proof.
  intros Ha Hs Hc Hn. rewrite (after_fetch r pre (s :: l) Ha). cbn [fetch_loop]. rewrite Hc. cbn [set_place set_kind wantSep].
  rewrite bool_decide_eq_true_2 by done. destruct Ha as [Hd Hp Hk Hdl He]. eexists. split; [|done].
  split; cbn; try done; [by rewrite Hd, <- (assoc_L (++))|rewrite length_app; cbn; lia..].
Qed.

(** The front of the next part, behind its comma. *)
Lemma inside_next (r : Lexer) (pre e l : bytes) (first : bool) :
  inside r pre ((if first then [] else [","%char]) ++ e ++ l) first ->
  exists r0, cursor r0 (pre ++ if first then [] else [","%char]) (e ++ l) /\ scanToken r = fetch_loop (e ++ l) r0.
Proof.
  intros [Ha Hf]. destruct first.
  - destruct Hf as [_ Hs]. rewrite app_nil_r. eexists. split; [by apply after_cursor|by apply after_fetch].
  - destruct (after_sep r pre (e ++ l) "," Ha Hf) as (r0 & Hc & Hr & _); [done|done|by exists r0].
Qed.

(** The end of the object or array. *)
Lemma inside_close (r : Lexer) (pre l : bytes) (c : ascii) (first : bool) :
  inside r pre (c :: l) first -> class_of c = CClose -> scanned (scanToken r) pre [c] l tokenDelim c.
Proof.
  intros [Ha Hf] Hc. rewrite (after_fetch r pre (c :: l) Ha). destruct Ha as [Hd Hp Hk Hdl He]. cbn [fetch_loop]. rewrite Hc.
  cbn [set_place set_kind set_sep Data lx_pos firstElement wantSep].
  replace (negb (firstElement r) && negb (Ascii.eqb (wantSep r) ",")) with false.
  2:{ destruct first; [destruct Hf as [-> _]; done|]. rewrite Hf. by rewrite andb_false_r. }
  cbn [set_place set_kind set_sep Data lx_pos]. rewrite Hd, lookup_app_r, Nat.sub_diag by lia.
  split; cbn [set_place set_delim set_kind set_sep Data lx_start lx_pos tok_kind tok_delim wantSep fatalError]; try done.
  rewrite length_app. cbn. lia.
Qed.

Lemma inside_comma (r : Lexer) (pre l : bytes) : after r pre l -> inside (WantComma r) pre l false.
Proof. intros [Hd Hp Hk Hdl He]. by split; [split|]. Qed.

(** ** Values *)

(** The text [e] starts with a token of kind [k] that does not end
    anything, is read as [a], and is passed over when it is skipped. *)
Record good (sh : jshape) (k : tokenKind) (e : bytes) (a : jdenote sh) : Prop := {
  g_tok : forall r0 pre l, cursor r0 pre (e ++ l) -> tail_ok l ->
    let r := fetch_loop (e ++ l) r0 in
    tok_kind r = k /\ k <> tokenUndef /\ tok_delim r <> "]"%char /\ tok_delim r <> "}"%char /\ fatalError r = None /\ (0 < lx_pos r)%nat;
  g_dec : forall r pre l, tok r pre (e ++ l) -> tail_ok l ->
    exists r', decode_value sh (jzero sh) r = Ok (a, r') /\ after r' (pre ++ e) l;
  g_skip : forall l i level, (0 < level)%nat ->
    skip_loop "{" "}" (e ++ l) i level false false = skip_loop "{" "}" l (i + length e) level false false
}.

Definition good_value (sh : jshape) (e : bytes) (a : jdenote sh) : Prop := exists k, good sh k e a.

(** *** Arrays *)

Fixpoint parts_text (first : bool) (es : list bytes) : bytes :=
  match es with
  | [] => []
  | e :: es => (if first then [] else [","%char]) ++ e ++ parts_text false es
  end.

Lemma jcommas_parts (es : list bytes) : jcommas es = parts_text true es.
Proof.
  assert (Hp : forall es e, jcommas (e :: es) = e ++ parts_text false es).
  { induction es0 as [|e' es0 IH]; intros e; [by rewrite app_nil_r|].
    change (jcommas (e :: e' :: es0)) with (e ++ ","%char :: jcommas (e' :: es0)). by rewrite IH. }
  destruct es as [|e es]; [done|]. by rewrite Hp.
Qed.

Lemma tail_parts (es : list bytes) (c : ascii) (l : bytes) : isTokenEnd c = true -> tail_ok (parts_text false es ++ c :: l).
Proof. by destruct es. Qed.

Lemma IsDelim_false (c : ascii) (r : Lexer) :
  fatalError (scanToken r) = None -> tok_delim (scanToken r) <> c -> IsDelim c r = (false, scanToken r).
Proof. intros He Hd. unfold IsDelim, lx_Ok. rewrite He. cbn [negb orb]. by rewrite eqb_ascii_ne. Qed.

Lemma IsDelim_true (c : ascii) (r : Lexer) (pre t l : bytes) (k : tokenKind) :
  scanned (scanToken r) pre t l k c -> IsDelim c r = (true, scanToken r).
Proof. intros Hs. unfold IsDelim. by rewrite (sc_delim _ _ _ _ _ _ Hs), eqb_ascii_refl, orb_true_r. Qed.

(** The part at the front, scanned. *)
Lemma inside_good (r : Lexer) (pre e l : bytes) (first : bool) (sh : jshape) (k : tokenKind) (a : jdenote sh) :
  inside r pre ((if first then [] else [","%char]) ++ e ++ l) first -> good sh k e a -> tail_ok l ->
  tok (scanToken r) (pre ++ if first then [] else [","%char]) (e ++ l) /\
  tok_kind (scanToken r) = k /\ tok_delim (scanToken r) <> "]"%char /\ tok_delim (scanToken r) <> "}"%char /\
  fatalError (scanToken r) = None.
Proof.
  intros Hi Hg Hl. destruct (inside_next r pre e l first Hi) as (r0 & Hc & Hr).
  destruct (g_tok _ _ _ _ Hg r0 _ l Hc Hl) as (Hk & _ & Hd1 & Hd2 & He & Hp). rewrite Hr. split_and!; try done.
  split; [done|]. exists r0. split; [done|]. by rewrite <- Hr, scanToken_idem.
Qed.

Lemma elements_good (sh : jshape) (es : list bytes) (vs : list (jdenote sh)) (l : bytes) : Forall2 (good_value sh) es vs ->
  forall first acc r pre fuel, inside r pre (parts_text first es ++ "]"%char :: l) first -> (length es < fuel)%nat ->
  exists r', elements (decode_value sh (jzero sh)) fuel acc r = Ok (acc ++ vs, r') /\
    scanned r' (pre ++ parts_text first es) ["]"%char] l tokenDelim "]".
Proof.
  intros Hes. induction Hes as [|e a es vs [k Hg] Hes IH]; intros first acc r pre fuel Hi Hf;
    (destruct fuel as [|fuel]; [cbn in Hf; lia|]); cbn [elements].
  - cbn [parts_text app] in *. pose proof (inside_close _ _ _ _ _ Hi eq_refl) as Hs. rewrite (IsDelim_true _ _ _ _ _ _ Hs).
    exists (scanToken r). by rewrite !app_nil_r.
  - cbn [parts_text] in *. rewrite <- !(assoc_L (++)) in Hi.
    pose proof (tail_parts es "]" l eq_refl) as Ht.
    destruct (inside_good _ _ _ _ _ _ _ _ Hi Hg Ht) as (Htok & _ & Hd & _ & He).
    rewrite IsDelim_false by done. destruct (g_dec _ _ _ _ Hg _ _ _ Htok Ht) as (r1 & -> & Ha). cbn [mbind outcome_bind].
    destruct (IH false (acc ++ [a]) (WantComma r1) (pre ++ (if first then [] else [","%char]) ++ e) fuel) as (r' & -> & Hs).
    + apply inside_comma. by rewrite <- (assoc_L (++)) in Ha.
    + cbn in Hf. lia.
    + exists r'. rewrite <- (assoc_L (++)). split; [done|]. by rewrite <- !(assoc_L (++)) in Hs.
Qed.

Lemma elements_scan {A} (f : Lexer -> outcome (A * Lexer)) (fuel : nat) (acc : list A) (r : Lexer) :
  elements f fuel acc (scanToken r) = elements f fuel acc r.
Proof. destruct fuel; [done|]. cbn [elements]. unfold IsDelim. by rewrite scanToken_idem. Qed.

(** *** Scalars *)

Definition calm (a : ascii) : Prop := a <> "{"%char /\ a <> "}"%char /\ a <> quote.

Lemma skip_calm (e l : bytes) (i level : nat) : Forall calm e ->
  skip_loop "{" "}" (e ++ l) i level false false = skip_loop "{" "}" l (i + length e) level false false.
Proof.
  intros He. revert i. induction He as [|c e (H1 & H2 & H3) He IH]; intros i; [by rewrite Nat.add_0_r|].
  cbn [app skip_loop length]. rewrite !andb_false_r, (eqb_ascii_ne c "{"), (eqb_ascii_ne c "}"), (eqb_ascii_ne c quote) by done.
  cbn [andb]. rewrite IH. f_equal. lia.
Qed.

Lemma skip_string (cs : list chunk) (l : bytes) (i level : nat) : Forall chunk_ok cs ->
  skip_loop "{" "}" ((quote :: texts cs ++ [quote]) ++ l) i level false false =
  skip_loop "{" "}" l (i + length (quote :: texts cs ++ [quote])) level false false.
Proof.
  intros Hcs. change ((quote :: texts cs ++ [quote]) ++ l) with (quote :: ((texts cs ++ [quote]) ++ l)).
  rewrite <- (assoc_L (++)). cbn [skip_loop]. change (Ascii.eqb quote "{") with false. change (Ascii.eqb quote "}") with false.
  change (Ascii.eqb quote backslash) with false. change (Ascii.eqb quote quote) with true. cbn [andb negb].
  rewrite skip_chunks by done. cbn [app skip_loop]. rewrite !andb_false_r. change (Ascii.eqb quote backslash) with false.
  change (Ascii.eqb quote quote) with true. cbn [andb]. cbn [length]. rewrite length_app. cbn [length]. f_equal. lia.
Qed.

Lemma num_calm (hE aE hD : bool) (t : bytes) : num_ok hE aE hD t = true -> Forall calm t.
Proof.
  revert hE aE hD. induction t as [|c t IH]; intros hE aE hD Ht; [constructor|]. cbn [num_ok] in Ht.
  constructor; [|repeat case_match; by eauto].
  repeat split; intros ->; cbn in Ht; repeat case_match; done.
Qed.

Lemma number_calm (t : bytes) : number_text t -> Forall calm t.
Proof.
  assert (Hu : forall t, unsigned_text t -> Forall calm t).
  { intros u (c & w & Hc & Hw & ->). apply (num_calm false false false). cbn. by rewrite Hc. }
  intros [Ht|(u & Ht & ->)]; [by apply Hu|]. constructor; [done|by apply Hu].
Qed.

(** The token at the front of [e] as [r] sees it. *)
Lemma tok_scanned (r : Lexer) (pre e l : bytes) (k : tokenKind) (d : ascii) (P : Lexer -> Prop) :
  (forall r0, cursor r0 pre (e ++ l) -> scanned (fetch_loop (e ++ l) r0) pre e l k d /\ P (fetch_loop (e ++ l) r0)) ->
  tok r pre (e ++ l) -> scanned (scanToken r) pre e l k d /\ P (scanToken r).
Proof. intros Hf [_ (r0 & Hc & ->)]. by apply Hf. Qed.

Lemma scanned_tok (r0 : Lexer) (pre e l : bytes) (k : tokenKind) (d : ascii) :
  e <> [] -> scanned r0 pre e l k d -> k <> tokenUndef -> d <> "]"%char -> d <> "}"%char ->
  tok_kind r0 = k /\ k <> tokenUndef /\ tok_delim r0 <> "]"%char /\ tok_delim r0 <> "}"%char /\ fatalError r0 = None /\ (0 < lx_pos r0)%nat.
Proof.
  intros He [Hd Hs Hp Hk Hdl Hw Her] Hn H1 H2. rewrite Hk, Hdl, Hp, Her. split_and!; try done.
  rewrite length_app. destruct e; [done|]. cbn. lia.
Qed.

Lemma good_null_text (sh : jshape) (a : jdenote sh) :
  (forall old r, (IsNull r).1 = true -> decode_value sh old r = Ok (a, lx_Skip (IsNull r).2)) ->
  good sh tokenNull (text "null") a.
Proof.
  intros Hdec. split.
  - intros r0 pre l Hc Hl. apply (scanned_tok _ pre (text "null") l _ nul); try done. by apply fetch_null.
  - intros r pre l Ht Hl.
    destruct (tok_scanned r pre (text "null") l tokenNull nul (fun _ => True)) as [Hs _]; [|done|].
    { intros r0 Hc. split; [by apply fetch_null|done]. }
    assert (Hn : IsNull r = (true, scanToken r)).
    { unfold IsNull, lx_Ok. by rewrite (sc_err _ _ _ _ _ _ Hs), (sc_kind _ _ _ _ _ _ Hs). }
    rewrite Hdec by (by rewrite Hn). rewrite Hn. cbn [snd]. eexists. split; [done|]. unfold lx_Skip.
    rewrite scanToken_idem. by eapply consume_after.
  - intros l i level _. apply skip_calm. by repeat constructor.
Qed.

Lemma good_number (sh : jshape) (t : bytes) (a : jdenote sh) (fn : string) (zero : jdenote sh) (parse : string -> jdenote sh * option num_error) :
  (forall old r, decode_value sh old r = Ok (convert fn zero parse r)) -> number_text t -> parse (untext t) = (a, None) ->
  good sh tokenNumber t a.
Proof.
  intros Hdec Ht Hp. assert (Hne : t <> []) by (destruct Ht as [(c & u & _ & _ & ->)|(u & _ & ->)]; done). split.
  - intros r0 pre l Hc Hl. apply (scanned_tok _ pre t l _ nul); try done. by apply fetch_number.
  - intros r pre l Htok Hl.
    destruct (tok_scanned r pre t l tokenNumber nul (fun r => tok_bytes r = t)) as [Hs Hb]; [intros; by apply fetch_number|done|].
    rewrite Hdec. unfold convert, lx_number, lx_Ok. rewrite (sc_err _ _ _ _ _ _ Hs), (sc_kind _ _ _ _ _ _ Hs). cbn [negb orb].
    rewrite bool_decide_eq_true_2 by done. cbn [negb]. cbn [consume set_kind set_delim fatalError].
    rewrite (sc_err _ _ _ _ _ _ Hs), Hb, Hp. cbn [negb]. eexists. split; [done|]. by eapply consume_after.
  - intros l i level _. by apply skip_calm, number_calm.
Qed.

Lemma good_bool (b : bool) : good JBool tokenBool (jw_Bool b) b.
Proof.
  split.
  - intros r0 pre l Hc Hl. apply (scanned_tok _ pre (jw_Bool b) l _ nul); try done; [by destruct b|]. by apply fetch_bool.
  - intros r pre l Htok Hl.
    destruct (tok_scanned r pre (jw_Bool b) l tokenBool nul (fun r => tok_bool r = b)) as [Hs Hb]; [intros; by apply fetch_bool|done|].
    cbn [decode_value]. unfold pure, lx_Bool, lx_Ok. rewrite (sc_err _ _ _ _ _ _ Hs), (sc_kind _ _ _ _ _ _ Hs), Hb.
    eexists. split; [done|]. by eapply consume_after.
  - intros l i level _. apply skip_calm. destruct b; by repeat constructor.
Qed.

Lemma good_string_text (sh : jshape) (cs : list chunk) (a : jdenote sh) :
  Forall chunk_ok cs ->
  (forall old r, fatalError (scanToken r) = None -> tok_kind (scanToken r) = tokenString -> tok_bytes (scanToken r) = values cs ->
     decode_value sh old r = Ok (a, consume (scanToken r))) ->
  good sh tokenString (quote :: texts cs ++ [quote]) a.
Proof.
  intros Hcs Hdec. split.
  - intros r0 pre l Hc Hl. apply (scanned_tok _ pre (quote :: texts cs ++ [quote]) l _ nul); try done. by apply fetch_string.
  - intros r pre l Htok Hl.
    destruct (tok_scanned r pre (quote :: texts cs ++ [quote]) l tokenString nul (fun r => tok_bytes r = values cs)) as [Hs Hb];
      [intros; by apply fetch_string|done|].
    rewrite Hdec; [|by destruct Hs..|done]. eexists. split; [done|]. by eapply consume_after.
  - intros l i level _. by apply skip_string.
Qed.

Lemma good_string (s : string) : utf8_valid 0 (text s) = true -> good JString tokenString (jw_String s) s.
Proof.
  intros Hv. destruct (escape_chunks (length (text s)) (text s) (le_n _) Hv) as (cs & Hcs & E & Ev).
  unfold jw_String. rewrite E. apply good_string_text; [done|]. intros old r He Hk Hb. cbn [decode_value].
  unfold pure, lx_String, lx_Ok. rewrite He, Hk, Hb, Ev, untext_text. done.
Qed.

Lemma good_bytes (l : list Z) : Forall byte_ok l -> good JBytes tokenString (jw_Base64Bytes (Some l)) (Some l).
Proof.
  intros Hl. destruct (b64_chunks l Hl) as (Hcs & Et & Ev). cbn [jw_Base64Bytes]. rewrite <- Et.
  apply good_string_text; [done|]. intros old r He Hk Hb. cbn [decode_value]. unfold IsNull, lx_Ok. rewrite He, Hk.
  cbn [andb]. rewrite bool_decide_eq_false_2 by done. unfold pure, lx_Bytes, lx_Ok. rewrite scanToken_idem, He, Hk, Hb, Ev.
  cbn [negb orb]. rewrite bool_decide_eq_true_2 by done. cbn [negb]. by rewrite b64_roundtrip.
Qed.

(** *** Objects *)

Fixpoint names (fs : jfields) : list string := match fs with JNil => [] | JCons n _ _ fs => n :: names fs end.

Definition name_ok (n : string) : Prop := Forall plain (text n).

(** The text of the fields, of which those of zero values may be missing. *)
Inductive prints : forall fs : jfields, jdenote_fields fs -> bool -> bytes -> Prop :=
| prints_nil first : prints JNil tt first []
| prints_omit n o sh fs a v first t : a = jzero sh -> prints fs v first t -> prints (JCons n o sh fs) (a, v) first t
| prints_field n o sh fs k e a v first t : name_ok n -> good sh k e a -> k <> tokenNull -> prints fs v false t ->
    prints (JCons n o sh fs) (a, v) first ((if first then [] else [","%char]) ++ jkey n ++ e ++ t)
| prints_null n o sh fs a v first t : name_ok n -> a = jzero sh -> prints fs v false t ->
    prints (JCons n o sh fs) (a, v) first ((if first then [] else [","%char]) ++ jkey n ++ text "null" ++ t).

Lemma prints_tail (fs : jfields) (v : jdenote_fields fs) (first : bool) (t l : bytes) :
  prints fs v first t -> first = false -> tail_ok (t ++ "}"%char :: l).
Proof. intros Hp. by induction Hp; intros ->; [|apply IHHp|..]. Qed.

Lemma jkey_chunks (n : string) : jkey n = (quote :: texts (map CPlain (text n)) ++ [quote]) ++ [":"%char].
Proof. unfold jkey. destruct (values_plain (text n)) as [_ ->]. cbn. by rewrite <- (assoc_L (++)). Qed.

Lemma name_chunks (n : string) : name_ok n -> Forall chunk_ok (map CPlain (text n)).
Proof. intros Hn. by apply Forall_map. Qed.

Lemma jkey_skip (n : string) (first : bool) (l : bytes) (i level : nat) : name_ok n ->
  skip_loop "{" "}" ((if first then [] else [","%char]) ++ jkey n ++ l) i level false false =
  skip_loop "{" "}" l (i + length ((if first then [] else [","%char]) ++ jkey n)) level false false.
Proof.
  intros Hn. rewrite skip_calm by (destruct first; by repeat constructor). rewrite jkey_chunks, <- (assoc_L (++)).
  rewrite skip_string by (by apply name_chunks). rewrite skip_calm by (by repeat constructor). f_equal. rewrite !length_app. lia.
Qed.

Lemma prints_skip (fs : jfields) (v : jdenote_fields fs) (first : bool) (t : bytes) : prints fs v first t ->
  forall l i level, (0 < level)%nat ->
  skip_loop "{" "}" (t ++ l) i level false false = skip_loop "{" "}" l (i + length t) level false false.
Proof.
  intros Hp. induction Hp as [first|n o sh fs a v first t Ha Hp IH|n o sh fs k e a v first t Hn Hg Hk Hp IH|n o sh fs a v first t Hn Ha Hp IH];
    intros l i level Hl.
  - by rewrite Nat.add_0_r.
  - by apply IH.
  - rewrite <- !(assoc_L (++)), jkey_skip, (g_skip _ _ _ _ Hg), IH by done. f_equal. rewrite !length_app. lia.
  - rewrite <- !(assoc_L (++)), jkey_skip, skip_calm, IH by (done || by repeat constructor). f_equal. rewrite !length_app. lia.
Qed.

Lemma UnsafeString_ok (r : Lexer) (pre l : bytes) (n : string) (t : bytes) :
  scanned (scanToken r) pre t l tokenString nul -> tok_bytes (scanToken r) = text n ->
  UnsafeString r = (n, consume (scanToken r)).
Proof.
  intros Hs Hb. unfold UnsafeString, lx_String, lx_Ok. rewrite (sc_err _ _ _ _ _ _ Hs), (sc_kind _ _ _ _ _ _ Hs), Hb, untext_text.
  done.
Qed.

(** A key and its colon: the token of the value is next. *)
Lemma key_next (r : Lexer) (pre l e : bytes) (first : bool) (n : string) :
  name_ok n -> inside r pre ((if first then [] else [","%char]) ++ jkey n ++ e ++ l) first ->
  IsDelim "}" r = (false, scanToken r) /\ UnsafeString (scanToken r) = (n, consume (scanToken r)) /\
  exists r0, cursor r0 (pre ++ (if first then [] else [","%char]) ++ jkey n) (e ++ l) /\
    scanToken (WantColon (consume (scanToken r))) = fetch_loop (e ++ l) r0.
Proof.
  intros Hn Hi. set (cs := map CPlain (text n)). set (q := quote :: texts cs ++ [quote]).
  assert (Ek : jkey n ++ e ++ l = q ++ ":"%char :: e ++ l) by (by rewrite jkey_chunks, <- (assoc_L (++))).
  rewrite Ek in Hi. destruct (inside_next r pre q (":"%char :: e ++ l) first Hi) as (r0 & Hc & Hr).
  destruct (fetch_string r0 _ (":"%char :: e ++ l) cs (name_chunks n Hn) Hc) as [Hs Hb]. fold q in Hs, Hb. rewrite <- Hr in Hs, Hb.
  replace (values cs) with (text n) in Hb by (unfold cs; by destruct (values_plain (text n)) as [-> _]).
  split_and!.
  - apply IsDelim_false; [by destruct Hs|]. by rewrite (sc_delim _ _ _ _ _ _ Hs).
  - erewrite UnsafeString_ok; rewrite ?scanToken_idem; [done|exact Hs|done].
  - pose proof (consume_after _ _ _ _ _ _ Hs) as Ha.
    destruct (after_sep (WantColon (consume (scanToken r))) ((pre ++ if first then [] else [","%char]) ++ q) (e ++ l) ":") as (r1 & Hc1 & Hr1 & _); [by destruct Ha|done..|].
    exists r1. split; [|done]. rewrite jkey_chunks. fold cs q. by rewrite <- !(assoc_L (++)) in Hc1.
Qed.

Lemma IsNull_false (r : Lexer) : fatalError (scanToken r) = None -> tok_kind (scanToken r) <> tokenNull -> IsNull r = (false, scanToken r).
Proof. intros He Hk. unfold IsNull, lx_Ok. rewrite He. cbn [negb orb]. by rewrite bool_decide_eq_false_2. Qed.

Lemma IsNull_true (r : Lexer) (pre l : bytes) : scanned (scanToken r) pre (text "null") l tokenNull nul -> IsNull r = (true, scanToken r).
Proof. intros Hs. unfold IsNull, lx_Ok. by rewrite (sc_err _ _ _ _ _ _ Hs), (sc_kind _ _ _ _ _ _ Hs). Qed.

Lemma skip_after (r : Lexer) (pre t l : bytes) (k : tokenKind) (d : ascii) : scanned (scanToken r) pre t l k d -> after (lx_Skip r) (pre ++ t) l.
Proof. intros Hs. unfold lx_Skip. by eapply consume_after. Qed.

(** [F] reads the fields [fs] of an object that [emb] puts together. *)
Definition reads {A} (F : string -> A -> Lexer -> outcome (A * Lexer)) (fs : jfields) (emb : jdenote_fields fs -> A) : Prop :=
  forall key w r, key ∈ names fs -> F key (emb w) r = '(w, r) ← decode_field fs key w r; Ok (emb w, r).

Lemma reads_tail {A} (F : string -> A -> Lexer -> outcome (A * Lexer)) (n : string) (o : bool) (sh : jshape) (fs : jfields)
    (emb : jdenote_fields (JCons n o sh fs) -> A) (a : jdenote sh) :
  reads F (JCons n o sh fs) emb -> n ∉ names fs -> reads F fs (fun w => emb (a, w)).
Proof.
  intros Hr Hn key w r Hin. rewrite Hr by (by right). cbn [decode_field]. rewrite bool_decide_eq_false_2 by (by intros ->).
  cbn [fst snd]. by destruct (decode_field fs key w r) as [[]| | |].
Qed.

Lemma reads_head {A} (F : string -> A -> Lexer -> outcome (A * Lexer)) (n : string) (o : bool) (sh : jshape) (fs : jfields)
    (emb : jdenote_fields (JCons n o sh fs) -> A) (a b : jdenote sh) (w : jdenote_fields fs) (r r' : Lexer) :
  reads F (JCons n o sh fs) emb -> decode_value sh a r = Ok (b, r') -> F n (emb (a, w)) r = Ok (emb (b, w), r').
Proof.
  intros Hr Hd. rewrite Hr by (by left). cbn [decode_field]. rewrite bool_decide_eq_true_2 by done. cbn [fst snd]. by rewrite Hd.
Qed.

(** The fields of an object, read one by one into the zero value. *)
Lemma rounds_prints {A} (F : string -> A -> Lexer -> outcome (A * Lexer)) (l : bytes) (fs : jfields) (v : jdenote_fields fs) (first : bool) (t : bytes) :
  prints fs v first t -> NoDup (names fs) -> forall (emb : jdenote_fields fs -> A), reads F fs emb ->
  forall r pre fuel, inside r pre (t ++ "}"%char :: l) first -> (length t < fuel)%nat ->
  exists r', rounds F fuel (emb (jzero_fields fs)) r = Ok (emb v, r') /\ scanned r' (pre ++ t) ["}"%char] l tokenDelim "}".
Proof.
  intros Hp. induction Hp as [first|n o sh fs a v first t Ha Hp IH|n o sh fs k e a v first t Hn Hg Hk Hp IH|n o sh fs a v first t Hn Ha Hp IH];
    intros Hnd emb Hemb r pre fuel Hi Hf; (try apply NoDup_cons in Hnd as [Hni Hnd]).
  - destruct fuel as [|fuel]; [cbn in Hf; lia|]. cbn [rounds app] in *. pose proof (inside_close _ _ _ _ _ Hi eq_refl) as Hs.
    rewrite (IsDelim_true _ _ _ _ _ _ Hs). exists (scanToken r). by rewrite !app_nil_r.
  - subst a. apply (IH Hnd (fun w => emb (jzero sh, w))); [by eapply reads_tail|done|done].
  - destruct fuel as [|fuel]; [lia|]. rewrite <- !(assoc_L (++)) in Hi. cbn [rounds jzero_fields].
    destruct (key_next r pre (t ++ "}"%char :: l) e first n Hn Hi) as (-> & -> & r0 & Hc & Hr0).
    pose proof (prints_tail _ _ _ _ l Hp eq_refl) as Ht.
    destruct (g_tok _ _ _ _ Hg r0 _ _ Hc Ht) as (Hkk & _ & _ & _ & He & Hpos). rewrite <- Hr0 in Hkk, He, Hpos.
    rewrite IsNull_false by (done || by rewrite Hkk).
    destruct (g_dec _ _ _ _ Hg (scanToken (WantColon (consume (scanToken r)))) _ _ ltac:(split; [done|exists r0; by rewrite scanToken_idem]) Ht) as (r1 & Hd & Ha).
    rewrite (reads_head F n o sh fs emb _ _ _ _ _ Hemb Hd). cbn [mbind outcome_bind].
    destruct (IH Hnd (fun w => emb (a, w)) (reads_tail F _ _ _ _ _ a Hemb Hni) (WantComma r1) _ fuel (inside_comma _ _ _ Ha)) as (r' & -> & Hs).
    { rewrite !length_app in Hf. unfold jkey in Hf. cbn in Hf. lia. }
    exists r'. split; [done|]. by rewrite <- !(assoc_L (++)) in Hs.
  - destruct fuel as [|fuel]; [lia|]. rewrite <- !(assoc_L (++)) in Hi. cbn [rounds jzero_fields]. subst a.
    destruct (key_next r pre (t ++ "}"%char :: l) (text "null") first n Hn Hi) as (-> & -> & r0 & Hc & Hr0).
    pose proof (fetch_null r0 _ _ Hc (prints_tail _ _ _ _ l Hp eq_refl)) as Hs0. rewrite <- Hr0 in Hs0. rewrite (IsNull_true _ _ _ Hs0).
    rewrite <- (scanToken_idem (WantColon _)) in Hs0. apply skip_after in Hs0 as Ha.
    destruct (IH Hnd (fun w => emb (jzero sh, w)) (reads_tail F _ _ _ _ _ (jzero sh) Hemb Hni) _ _ fuel (inside_comma _ _ _ Ha)) as (r' & -> & Hs).
    { rewrite !length_app in Hf. unfold jkey in Hf. cbn in Hf. lia. }
    exists r'. split; [done|]. by rewrite <- !(assoc_L (++)) in Hs.
Qed.

(** *** Structs *)

(** The text of a struct. *)
Definition braces (t : bytes) : bytes := "{"%char :: t ++ ["}"%char].

Lemma braces_app (t l : bytes) : braces t ++ l = "{"%char :: t ++ "}"%char :: l.
Proof. unfold braces. cbn. by rewrite <- (assoc_L (++)). Qed.

Lemma Delim_after (c : ascii) (r : Lexer) (pre t l : bytes) (k : tokenKind) :
  scanned (scanToken r) pre t l k c -> Delim c r = consume (scanToken r) /\ after (Delim c r) (pre ++ t) l.
Proof.
  intros Hs. unfold Delim, lx_Ok. rewrite (sc_err _ _ _ _ _ _ Hs), (sc_delim _ _ _ _ _ _ Hs), eqb_ascii_refl. cbn [negb orb].
  split; [done|by eapply consume_after].
Qed.

Lemma open_inside (c : ascii) (r : Lexer) (pre l : bytes) :
  scanned (scanToken r) pre [c] l tokenDelim c -> firstElement (scanToken r) = true -> inside (Delim c r) (pre ++ [c]) l true.
Proof.
  intros Hs Hf. destruct (Delim_after c r pre [c] l tokenDelim Hs) as [E Ha]. split; [done|]. rewrite E.
  split; [done|]. by destruct Hs.
Qed.

Lemma Consumed_end (r : Lexer) (pre : bytes) : after r pre [] -> Consumed r = r.
Proof.
  intros [Hd Hp Hk Hdl He]. unfold Consumed. rewrite Hd, Hp. rewrite app_nil_r, drop_all. cbn [consumed_loop]. by case_match.
Qed.

(** A struct is read from its token on, at the start of the data or not. *)
Lemma struct_prints (fs : jfields) (v : jdenote_fields fs) (t : bytes) (r r0 : Lexer) (pre l : bytes) :
  prints fs v true t -> NoDup (names fs) -> (IsStart r = true -> l = []) ->
  cursor r0 pre (braces t ++ l) -> scanToken r = fetch_loop (braces t ++ l) r0 ->
  exists r', decode_struct_with (decode_field fs) (jzero_fields fs) r = Ok (v, r') /\ after r' (pre ++ braces t) l.
Proof.
  intros Hp Hnd Hl Hc Hr. rewrite braces_app in Hc, Hr. destruct (fetch_open _ _ _ _ Hc eq_refl) as [Hs Hf]. rewrite <- Hr in Hs, Hf.
  unfold decode_struct_with. rewrite IsNull_false by (by destruct Hs as [??? -> ???] || by destruct Hs).
  rewrite <- (scanToken_idem r) in Hs, Hf. pose proof (open_inside _ _ _ _ Hs Hf) as Hi.
  destruct (rounds_prints (decode_field fs) l fs v true t Hp Hnd id) with (fuel := jfuel (Delim "{" (scanToken r)))
    (r := Delim "{" (scanToken r)) (pre := pre ++ ["{"%char]) as (r1 & E & Hs1); [|done| |].
  { intros key w r1 _. unfold id. by destruct (decode_field fs key w r1) as [[]| | |]. }
  { unfold jfuel. destruct Hi as [[-> _ _ _ _] _]. rewrite !length_app. lia. }
  unfold id in E. rewrite E. cbn [mbind outcome_bind].
  assert (Hk1 : scanToken r1 = r1) by (unfold scanToken; by rewrite (sc_kind _ _ _ _ _ _ Hs1)).
  rewrite <- Hk1 in Hs1. apply Delim_after in Hs1 as [_ Ha]. unfold braces.
  replace (pre ++ "{"%char :: t ++ ["}"%char]) with (((pre ++ ["{"%char]) ++ t) ++ ["}"%char]) by (by rewrite <- !(assoc_L (++))).
  eexists. split; [done|]. destruct (IsStart r); [|done]. rewrite (Hl eq_refl) in *. by erewrite Consumed_end.
Qed.

(** A struct of its own. *)
Lemma top_prints (fs : jfields) (v : jdenote_fields fs) (t : bytes) : prints fs v true t -> NoDup (names fs) ->
  exists r', decode_struct_with (decode_field fs) (jzero_fields fs) (new_Lexer (braces t)) = Ok (v, r') /\ fatalError r' = None.
Proof.
  intros Hp Hnd. assert (Ha : after (new_Lexer (braces t)) [] (braces t ++ [])) by (rewrite app_nil_r; by split).
  destruct (struct_prints fs v t _ _ [] [] Hp Hnd (fun _ => eq_refl) (after_cursor _ _ _ Ha eq_refl) (after_fetch _ _ _ Ha)) as (r' & E & Ha').
  exists r'. split; [done|by destruct Ha'].
Qed.

(** A struct is cut out of the data. *)
Lemma Raw_prints (fs : jfields) (v : jdenote_fields fs) (t : bytes) (r : Lexer) (pre l : bytes) :
  prints fs v true t -> tok r pre (braces t ++ l) -> exists r', Raw r = Ok (braces t, r') /\ after r' (pre ++ braces t) l.
Proof.
  intros Hp [_ (r0 & Hc & Hr)]. rewrite braces_app in Hc, Hr. destruct (fetch_open _ _ _ _ Hc eq_refl) as [Hs _]. rewrite <- Hr in Hs.
  unfold Raw, SkipRecursive. rewrite (sc_delim _ _ _ _ _ _ Hs), eqb_ascii_refl. unfold skip_to.
  destruct (consume_after _ _ _ _ _ _ Hs) as [Hd Hpos Hk Hdl He]. rewrite Hd, Hpos, drop_pre, (prints_skip _ _ _ _ Hp) by lia.
  cbn [skip_loop]. change (Ascii.eqb "}" "{") with false. change (Ascii.eqb "}" "}") with true. cbn [andb negb pred].
  unfold lx_Ok. cbn [set_place fatalError lx_pos lx_start]. rewrite He. cbn [negb].
  assert (Hst : lx_start (consume (scanToken r)) = length pre) by (by destruct Hs).
  assert (Hlen : (length (pre ++ ["{"%char]) + S (0 + length t))%nat = length (pre ++ braces t))
    by (unfold braces; rewrite !length_app; cbn; rewrite length_app; cbn; lia).
  assert (Hdata : Data (consume (scanToken r)) = (pre ++ braces t) ++ l)
    by (rewrite Hd; unfold braces; rewrite <- !(assoc_L (++)); cbn; by rewrite <- (assoc_L (++))).
  cbn [set_place Data]. rewrite Hst, Hlen, Hdata.
  replace (_ <? length (pre ++ braces t))%nat with false by (symmetry; apply Nat.ltb_ge; rewrite (length_app _ l); lia).
  replace (_ <? length pre)%nat with false by (symmetry; apply Nat.ltb_ge; rewrite length_app; lia). cbn [orb].
  rewrite <- (assoc_L (++)), drop_pre, length_app. replace (length pre + length (braces t) - length pre)%nat with (length (braces t)) by lia.
  rewrite take_app_length. eexists. split; [done|]. split; cbn [set_place Data lx_pos tok_kind tok_delim fatalError]; try done. by rewrite length_app.
Qed.

Lemma good_struct (link : jlink) (mode : jmode) (fs : jfields) (v : jdenote_fields fs) (t : bytes) :
  prints fs v true t -> NoDup (names fs) -> good (JPtr link mode fs) tokenDelim (braces t) (Some v).
Proof.
  intros Hp Hnd. split.
  - intros r0 pre l Hc Hl. rewrite braces_app in Hc |- *. apply (scanned_tok _ pre ["{"%char] (t ++ "}"%char :: l) _ "{"); try done.
    by apply fetch_open.
  - intros r pre l Htok Hl. pose proof Htok as [Hpos (r0 & Hc & Hr)].
    destruct (fetch_open r0 pre (t ++ "}"%char :: l) "{") as [Hs _]; [by rewrite braces_app in Hc|done|].
    rewrite <- braces_app, <- Hr in Hs.
    cbn [decode_value jzero default]. rewrite IsNull_false by (by destruct Hs as [??? -> ???] || by destruct Hs).
    assert (Htok' : tok (scanToken r) pre (braces t ++ l)).
    { split; [rewrite (sc_pos _ _ _ _ _ _ Hs), length_app; cbn; lia|]. exists r0. by rewrite scanToken_idem. }
    destruct link.
    + destruct (Raw_prints fs v t _ pre l Hp Htok') as (r1 & -> & Ha). cbn [mbind outcome_bind]. unfold lx_Ok.
      rewrite (af_err _ _ _ Ha). destruct (top_prints fs v t Hp Hnd) as (r2 & -> & He2). cbn [mbind outcome_bind].
      eexists. split; [done|]. rewrite He2. unfold AddError. rewrite (af_err _ _ _ Ha). by destruct Ha.
    + destruct (struct_prints fs v t (scanToken r) r0 pre l Hp Hnd) as (r1 & -> & Ha); [|done|by rewrite scanToken_idem|by eexists].
      unfold IsStart. destruct Htok' as [Hp' _]. intros ?%Nat.eqb_eq. lia.
  - intros l i level Hl. rewrite braces_app. cbn [skip_loop]. change (Ascii.eqb "{" "{") with true. cbn [andb negb].
    rewrite (prints_skip _ _ _ _ Hp) by lia. cbn [skip_loop]. change (Ascii.eqb "}" "{") with false. change (Ascii.eqb "}" "}") with true.
    cbn [andb negb pred]. destruct level; [lia|]. f_equal. unfold braces. cbn. rewrite length_app. cbn. lia.
Qed.

Lemma parts_length (first : bool) (es : list bytes) : (length es <= length (parts_text first es) + (if first then 1 else 0))%nat.
Proof.
  revert first. induction es as [|e es IH]; intros first; [cbn; lia|]. cbn [parts_text length]. specialize (IH false).
  rewrite !length_app. cbn iota in IH. destruct first; cbn [length]; lia.
Qed.

Lemma parts_skip (sh : jshape) (es : list bytes) (vs : list (jdenote sh)) : Forall2 (good_value sh) es vs ->
  forall first l i level, (0 < level)%nat ->
  skip_loop "{" "}" (parts_text first es ++ l) i level false false =
  skip_loop "{" "}" l (i + length (parts_text first es)) level false false.
Proof.
  intros Hes. induction Hes as [|e a es vs [k Hg] Hes IH]; intros first l i level Hl; [by rewrite Nat.add_0_r|].
  cbn [parts_text]. rewrite <- !(assoc_L (++)), skip_calm by (destruct first; by repeat constructor).
  rewrite (g_skip _ _ _ _ Hg), IH by done. f_equal. rewrite !length_app. lia.
Qed.

Definition brackets (t : bytes) : bytes := "["%char :: t ++ ["]"%char].

Lemma brackets_app (t l : bytes) : brackets t ++ l = "["%char :: t ++ "]"%char :: l.
Proof. unfold brackets. cbn. by rewrite <- (assoc_L (++)). Qed.

(** An array is read from its token on. *)
Lemma slice_good (sh : jshape) (es : list bytes) (vs : list (jdenote sh)) (old : jdenote (JSlice sh)) (r r0 : Lexer) (pre l : bytes) :
  Forall2 (good_value sh) es vs -> cursor r0 pre (brackets (parts_text true es) ++ l) ->
  scanToken r = fetch_loop (brackets (parts_text true es) ++ l) r0 ->
  exists r', decode_value (JSlice sh) old r = Ok (Some vs, r') /\ after r' (pre ++ brackets (parts_text true es)) l.
Proof.
  intros Hes Hc Hr. rewrite brackets_app in Hc, Hr. destruct (fetch_open _ _ _ _ Hc eq_refl) as [Hs Hf]. rewrite <- Hr in Hs, Hf.
  cbn [decode_value]. rewrite IsNull_false by (by destruct Hs as [??? -> ???] || by destruct Hs).
  rewrite <- (scanToken_idem r) in Hs, Hf. pose proof (open_inside _ _ _ _ Hs Hf) as Hi.
  change (IsDelim "]" (Delim "[" (scanToken r))).2 with (scanToken (Delim "[" (scanToken r))). rewrite elements_scan.
  destruct (elements_good sh es vs l Hes true [] _ _ (jfuel (scanToken (Delim "[" (scanToken r)))) Hi) as (r1 & E & Hs1).
  { unfold jfuel. rewrite scanToken_data. destruct Hi as [[-> _ _ _ _] _]. pose proof (parts_length true es) as Hpl. cbn iota in Hpl. rewrite !length_app. lia. }
  rewrite E. cbn [mbind outcome_bind app].
  assert (Hk1 : scanToken r1 = r1) by (unfold scanToken; by rewrite (sc_kind _ _ _ _ _ _ Hs1)).
  rewrite <- Hk1 in Hs1. apply Delim_after in Hs1 as [_ Ha]. unfold brackets. eexists. split; [done|].
  by rewrite <- !(assoc_L (++)) in Ha.
Qed.

Lemma good_slice (sh : jshape) (es : list bytes) (vs : list (jdenote sh)) : Forall2 (good_value sh) es vs ->
  good (JSlice sh) tokenDelim (brackets (parts_text true es)) (Some vs).
Proof.
  intros Hes. split.
  - intros r0 pre l Hc Hl. rewrite brackets_app in Hc |- *.
    apply (scanned_tok _ pre ["["%char] (parts_text true es ++ "]"%char :: l) _ "["); try done. by apply fetch_open.
  - intros r pre l [_ (r0 & Hc & Hr)] Hl. by eapply slice_good.
  - intros l i level Hl. rewrite brackets_app. change ("["%char :: parts_text true es ++ "]"%char :: l) with (["["%char] ++ parts_text true es ++ ["]"%char] ++ l).
    rewrite skip_calm, (parts_skip _ _ _ Hes), skip_calm by (done || by repeat constructor). f_equal. unfold brackets. cbn. rewrite length_app. cbn. lia.
Qed.

(** ** The round trip *)

(** The texts of a number that are read back as it. *)
Definition float_fits (fmt : float64 -> string) (f : float64) : Prop := IsNaN f = false /\ IsInf f = false /\ ParseFloat (fmt f) = Some f.

(** The points that [RawDataPoint.MarshalJSON] writes as they are. *)
Fixpoint raw_fits (fs : jfields) : jdenote_fields fs -> Prop :=
  match fs with
  | JNil => fun _ => True
  | JCons _ _ sh fs => fun v =>
      match sh return jdenote sh -> Prop with
      | JUint32 => fun a => 0 <= a < 2 ^ 32
      | JInt64 => fun a => - 2 ^ 63 <= a < 2 ^ 63
      | JFloat64 _ => float_fits FormatFloat_f
      | _ => fun _ => False
      end v.1 /\ raw_fits fs v.2
  end.

(** The values of a type: integers of their width, text in UTF-8, floats
    that have a text, and no [DataPoint], which is not read as it is
    written. *)
Fixpoint fits (sh : jshape) : jdenote sh -> Prop :=
  match sh with
  | JInt64 => fun v => - 2 ^ 63 <= v < 2 ^ 63
  | JInt32 => fun v => - 2 ^ 31 <= v < 2 ^ 31
  | JUint64 => fun v => 0 <= v < 2 ^ 64
  | JUint32 => fun v => 0 <= v < 2 ^ 32
  | JFloat64 check => fun v => float_fits FormatFloat (if check then CheckFloat v else v)
  | JBool => fun _ => True
  | JString => fun v => utf8_valid 0 (text v) = true
  | JBytes => fun v => Forall byte_ok (default [] v)
  | JSlice sh => fun v => Forall (fits sh) (default [] v)
  | JPtr _ mode fs => fun v =>
      match v with
      | None => True
      | Some v => match mode with MGenerated => fits_fields fs v | MRawDataPoint => raw_fits fs v | MDataPoint => False end
      end
  end
with fits_fields (fs : jfields) : jdenote_fields fs -> Prop :=
  match fs with
  | JNil => fun _ => True
  | JCons _ _ sh fs => fun v => fits sh v.1 /\ fits_fields fs v.2
  end.

(** What comes back of a field: one that may be left out has no sign of its
    zero and no empty slice. *)
Definition settled (omit : bool) (sh : jshape) : jdenote sh -> jdenote sh -> jdenote sh :=
  match sh with
  | JFloat64 _ => fun v w => if omit && feq v 0 then 0 else w
  | JBytes | JSlice _ => fun v w => match omit, v with true, Some [] => None | _, _ => w end
  | _ => fun _ w => w
  end.

(** What comes back of a value: numbers that [CheckFloat] refuses are zero. *)
Fixpoint normal (sh : jshape) : jdenote sh -> jdenote sh :=
  match sh with
  | JFloat64 check => fun v => if check then CheckFloat v else v
  | JSlice sh => option_map (map (normal sh))
  | JPtr _ mode fs => option_map (match mode with MGenerated => normal_fields fs | MRawDataPoint | MDataPoint => id end)
  | _ => id
  end
with normal_fields (fs : jfields) : jdenote_fields fs -> jdenote_fields fs :=
  match fs with
  | JNil => id
  | JCons _ omit sh fs => fun v => (settled omit sh v.1 (normal sh v.1), normal_fields fs v.2)
  end.

(** Types with names that are plain and differ. *)
Fixpoint raw_shape (fs : jfields) : bool :=
  match fs with
  | JNil => false
  | JCons _ _ (JUint32 | JInt64) JNil => true
  | JCons _ _ (JUint32 | JInt64 | JFloat64 _) fs => raw_shape fs
  | _ => false
  end.

Definition plain_name (n : string) : bool := forallb (fun c => negb (Ascii.eqb c quote) && negb (Ascii.eqb c backslash)) (text n).

Definition names_ok (fs : jfields) : bool := bool_decide (NoDup (names fs)) && forallb plain_name (names fs).

Fixpoint shape_ok (sh : jshape) : bool :=
  match sh with
  | JSlice sh => shape_ok sh
  | JPtr _ mode fs => names_ok fs && match mode with MRawDataPoint => raw_shape fs | MGenerated | MDataPoint => fields_ok fs end
  | _ => true
  end
with fields_ok (fs : jfields) : bool :=
  match fs with
  | JNil => true
  | JCons n _ sh fs => plain_name n && shape_ok sh && fields_ok fs
  end.

Lemma plain_name_ok (n : string) : plain_name n = true -> name_ok n.
Proof.
  unfold plain_name, name_ok. rewrite forallb_forall, Forall_forall. intros H c Hc%list_elem_of_In%H.
  apply andb_true_iff in Hc as [H1%negb_true_iff H2%negb_true_iff]. split; by apply Ascii.eqb_neq.
Qed.

Scheme jshape_mut := Induction for jshape Sort Prop with jfields_mut := Induction for jfields Sort Prop.
Combined Scheme jshape_jfields_ind from jshape_mut, jfields_mut.

Lemma good_int64 (n : Z) : - 2 ^ 63 <= n < 2 ^ 63 -> good JInt64 tokenNumber (jw_Int n) n.
Proof.
  intros Hn. eapply good_number; [done|apply jw_Int_number|]. unfold jw_Int. rewrite untext_text. apply parse_int_text; lia.
Qed.

Lemma good_int32 (n : Z) : - 2 ^ 31 <= n < 2 ^ 31 -> good JInt32 tokenNumber (jw_Int n) n.
Proof.
  intros Hn. eapply good_number; [done|apply jw_Int_number|]. unfold jw_Int. rewrite untext_text. apply parse_int_text; lia.
Qed.

Lemma good_uint64 (n : Z) : 0 <= n < 2 ^ 64 -> good JUint64 tokenNumber (jw_Uint n) n.
Proof.
  intros Hn. eapply good_number; [done|left; apply jw_Uint_number; lia|]. unfold jw_Uint. rewrite untext_text. apply parse_uint_text; lia.
Qed.

Lemma good_uint32 (n : Z) : 0 <= n < 2 ^ 32 -> good JUint32 tokenNumber (jw_Uint n) n.
Proof.
  intros Hn. eapply good_number; [done|left; apply jw_Uint_number; lia|]. unfold jw_Uint. rewrite untext_text. apply parse_uint_text; lia.
Qed.

Lemma good_float (check : bool) (fmt : float64 -> string) (f : float64) :
  number_text (text (fmt f)) -> ParseFloat (fmt f) = Some f -> good (JFloat64 check) tokenNumber (text (fmt f)) f.
Proof. intros Ht Hp. eapply good_number; [done|done|]. rewrite untext_text. unfold parse_float. by rewrite Hp. Qed.

(** The text of a value: of a token that is not null, or null for the
    zero value. *)
Definition written (sh : jshape) (e : bytes) (a : jdenote sh) : Prop :=
  (exists k, k <> tokenNull /\ good sh k e a) \/ (e = text "null" /\ a = jzero sh /\ good sh tokenNull (text "null") a).

Lemma written_good (sh : jshape) (e : bytes) (a : jdenote sh) : written sh e a -> good_value sh e a.
Proof. intros [(k & _ & Hg)|(-> & -> & Hg)]; by eexists. Qed.

Lemma prints_written (n : string) (o : bool) (sh : jshape) (fs : jfields) (e : bytes) (a : jdenote sh) (v : jdenote_fields fs) (first : bool) (t : bytes) :
  name_ok n -> written sh e a -> prints fs v false t -> prints (JCons n o sh fs) (a, v) first ((if first then [] else [","%char]) ++ jkey n ++ e ++ t).
Proof. intros Hn [(k & Hk & Hg)|(-> & -> & Hg)] Hp; [by eapply prints_field|by eapply prints_null]. Qed.

Lemma written_token (sh : jshape) (k : tokenKind) (e : bytes) (a : jdenote sh) : good sh k e a -> k <> tokenNull -> written sh e a.
Proof. intros Hg Hk. left. by exists k. Qed.

Lemma written_null (sh : jshape) : match sh with JBytes | JSlice _ | JPtr _ _ _ => True | _ => False end -> written sh (text "null") (jzero sh).
Proof.
  intros Hsh. right. split_and!; [done|done|]. apply good_null_text. intros old r Hn. destruct sh; try done; cbn [decode_value jzero];
    destruct (IsNull r) as [null r']; cbn in Hn; by rewrite Hn.
Qed.

Lemma raw_written (sh : jshape) (n : string) (a : jdenote sh) : match sh with JUint32 | JInt64 | JFloat64 _ => True | _ => False end ->
  match sh return jdenote sh -> Prop with
  | JUint32 => fun a => 0 <= a < 2 ^ 32
  | JInt64 => fun a => - 2 ^ 63 <= a < 2 ^ 63
  | JFloat64 _ => float_fits FormatFloat_f
  | _ => fun _ => False
  end a ->
  exists e, written sh e a /\ forall (b : bool), (b = true -> match sh with JFloat64 _ => False | _ => True end) ->
    let more := if b then [] else [","%char] in
    match sh return jdenote sh -> bytes with
    | JUint32 => fun a => jkey n ++ jw_Uint a ++ more
    | JInt64 => fun a => jkey n ++ jw_Int a ++ more
    | JFloat64 _ => fun a => floatToJsonByte n a
    | _ => fun _ => []
    end a = jkey n ++ e ++ more.
Proof.
  destruct sh; try done; intros _ Hf.
  - exists (jw_Int a). split; [by apply (written_token _ _ _ _ (good_int64 a Hf))|done].
  - exists (jw_Uint a). split; [by apply (written_token _ _ _ _ (good_uint32 a Hf))|done].
  - destruct Hf as (Hn & Hi & Hp). exists (text (FormatFloat_f a)). split.
    + eapply written_token; [apply (good_float check FormatFloat_f a); [by apply FormatFloat_f_number|done]|done].
    + intros [] Hb; [by destruct (Hb eq_refl)|]. unfold floatToJsonByte. by rewrite Hn.
Qed.

Lemma raw_prints (fs : jfields) (v : jdenote_fields fs) : raw_shape fs = true -> Forall name_ok (names fs) -> raw_fits fs v ->
  forall first, prints fs v first ((if first then [] else [","%char]) ++ raw_point_fields fs v).
Proof.
  induction fs as [|n o sh fs IH]; intros Hs Hn Hf first; [done|]. apply Forall_cons in Hn as [Hn Hns].
  destruct v as [a v], Hf as [Hfa Hfv]. cbn [fst snd] in *. cbn [raw_point_fields fst snd].
  destruct (raw_written sh n a) as (e & Hw & He); [by destruct sh; try done; destruct fs|done|].
  destruct fs as [|n' o' sh' fs].
  - specialize (He true). cbn iota in He. cbn zeta. rewrite He by (by destruct sh). destruct v. cbn [raw_point_fields].
    rewrite (app_nil_r (jkey n ++ _)). exact (prints_written n o sh JNil e a tt first [] Hn Hw (prints_nil false)).
  - specialize (He false). cbn iota zeta in He |- *. rewrite He by done. rewrite <- !(assoc_L (++)).
    apply prints_written; [done|done|]. apply (IH v) with (first := false); [by destruct sh|done|done].
Qed.

Lemma settled_spec (omit : bool) (sh : jshape) (v : jdenote sh) :
  settled omit sh v (normal sh v) = if omit && jempty sh v then jzero sh else normal sh v.
Proof.
  destruct omit, sh; cbn [settled normal jempty jzero andb]; try done.
  1-4: by destruct (Z.eqb_spec v 0).
  - by destruct v.
  - case_bool_decide; [done|done].
  - by destruct v as [[]|].
  - by destruct v as [[]|].
  - by destruct v.
Qed.

Lemma encode_good :
  (forall sh a, shape_ok sh = true -> fits sh a -> written sh (encode_value sh a) (normal sh a)) /\
  (forall fs v, fields_ok fs = true -> fits_fields fs v -> forall first, prints fs (normal_fields fs v) first (encode_fields fs v first)).
Proof.
  apply jshape_jfields_ind; cbn [fits normal shape_ok encode_value fits_fields normal_fields fields_ok encode_fields].
  - intros a _ Ha. by eapply written_token; [apply good_int64|].
  - intros a _ Ha. by eapply written_token; [apply good_int32|].
  - intros a _ Ha. by eapply written_token; [apply good_uint64|].
  - intros a _ Ha. by eapply written_token; [apply good_uint32|].
  - intros check a _ (Hn & Hi & Hp). apply (written_token _ tokenNumber); [|done]. apply (good_float check FormatFloat); [by apply FormatFloat_number|done].
  - intros a _ _. by eapply written_token; [apply good_bool|].
  - intros a _ Ha. by eapply written_token; [apply good_string|].
  - intros [l|] _ Ha; [by eapply written_token; [apply good_bytes|]|by apply (written_null JBytes)].
  - intros sh IH [l|] Hs Ha; [|by apply (written_null (JSlice sh))]. apply (written_token _ tokenDelim); [|done]. cbn [option_map].
    rewrite jcommas_parts. apply good_slice. change (Forall (fits sh) l) in Ha.
    induction Ha as [|x l' Hx Hl IHl]; constructor; [|done]. by apply written_good, IH.
  - intros link mode fs IH [v|] Hs Ha; [|by apply (written_null (JPtr link mode fs))]. apply andb_true_iff in Hs as [Hn Hs].
    unfold names_ok in Hn. apply andb_true_iff in Hn as [Hnd%bool_decide_eq_true Hn]. apply (written_token _ tokenDelim); [|done]. cbn [option_map].
    destruct mode; [| |done]; cbn [jw_Raw]; (apply good_struct; [|done]); [by apply IH|].
    apply (raw_prints fs v Hs) with (first := true); [|done]. apply Forall_forall. intros n Hin. apply plain_name_ok.
    rewrite forallb_forall in Hn. by apply Hn, list_elem_of_In.
  - intros v _ _ first. destruct v. constructor.
  - intros n o sh IHs fs IHf [a v] Hs [Ha Hv] first. apply andb_true_iff in Hs as [[Hn Hs]%andb_true_iff Hfs]. cbn [fst snd] in *.
    rewrite settled_spec. destruct (o && jempty sh a); [by constructor; [|apply IHf]|].
    apply prints_written; [by apply plain_name_ok|by apply IHs|by apply IHf].
Qed.





(** The lists of items, which are not behind a field. *)
Lemma json_list_roundtrip (sh : jshape) (l : list (jdenote sh)) : shape_ok sh = true -> Forall (fits sh) l ->
  slice_UnmarshalJSON sh None (encode_value (JSlice sh) (Some l)) = Ok (Some (map (normal sh) l), None).
Proof.
  intros Hs Hl. set (es := map (encode_value sh) l).
  assert (Hes : Forall2 (good_value sh) es (map (normal sh) l)).
  { unfold es. clear es. induction Hl as [|x l Hx Hl IH]; constructor; [|done]. by apply written_good, encode_good. }
  cbn [encode_value]. fold es. rewrite jcommas_parts. fold (brackets (parts_text true es)). set (e := brackets (parts_text true es)).
  assert (Ha : after (new_Lexer e) [] (e ++ [])) by (rewrite app_nil_r; by split).
  destruct (slice_good sh es _ None _ _ [] [] Hes (after_cursor _ _ _ Ha eq_refl) (after_fetch _ _ _ Ha)) as (r & E & Hr).
  unfold slice_UnmarshalJSON, decode_slice. rewrite E. cbn [mbind outcome_bind IsStart new_Lexer lx_pos Nat.eqb].
  rewrite (Consumed_end _ _ Hr). by rewrite (af_err _ _ _ Hr).
Qed.

(** ** Reading ends *)

(** What [r] becomes: without an error, it had none, and has only moved on. *)
Definition moves (r r' : Lexer) : Prop :=
  fatalError r' = None -> fatalError r = None /\ Data r' = Data r /\ (lx_pos r <= lx_pos r')%nat.

(** And its token has been taken. *)
Definition takes (r r' : Lexer) : Prop := moves r r' /\ (fatalError r' = None -> tok_kind r' = tokenUndef).

#[global] Instance moves_preorder : PreOrder moves.
Proof.
  split; [by intros r Hr|]. intros r1 r2 r3 H12 H23 He. destruct (H23 He) as (He2 & Hd2 & Hp2). destruct (H12 He2) as (? & Hd1 & ?).
  split_and!; [done|by rewrite Hd2|lia].
Qed.

Lemma moves_takes (r1 r2 r3 : Lexer) : moves r1 r2 -> takes r2 r3 -> takes r1 r3.
Proof. intros H12 [H23 Hk]. split; [by trans r2|done]. Qed.

Lemma takes_error (r r' : Lexer) : fatalError r' <> None -> takes r r'.
Proof. intros He. split; intros He'; by rewrite He' in He. Qed.

Lemma takes_consume (r : Lexer) : takes r (consume r).
Proof. split; [|done]. intros He. by split_and!. Qed.

Lemma moves_sep (r : Lexer) (first : bool) (c : ascii) : moves r (set_sep r first c).
Proof. intros He. by split_and!. Qed.

Lemma errParse_None (r : Lexer) (w : string) : fatalError (errParse r w) = None -> False.
Proof. intros He. by destruct (errParse_error r w). Qed.

Lemma errInvalidToken_error (r : Lexer) (w : string) : fatalError (errInvalidToken r w) <> None.
Proof. unfold errInvalidToken. destruct (fatalError r) eqn:E; [by rewrite E|done]. Qed.

Lemma no_sep_None (r : Lexer) : fatalError (no_sep r) = None -> no_sep r = r /\ fatalError r = None.
Proof. unfold no_sep. case_match; [done|]. intros He. by apply errParse_None in He. Qed.

Lemma fetchString_moves (r : Lexer) : fatalError (fetchString r) = None -> fatalError r = None /\ (lx_pos r < lx_pos (fetchString r))%nat.
Proof.
  unfold fetchString. cbn [set_place Data lx_start]. destruct (findStringLen _) as [[] n]; cbn [negb]; [|cbn; intros ->; split; [done|lia]].
  destruct (string_loop _ _ _ _); [cbn; intros ->; split; [done|lia]|]. intros He. by apply errParse_None in He.
Qed.

Lemma fetchNumber_moves (r : Lexer) : (lx_pos r < length (Data r))%nat ->
  fatalError (fetchNumber r) = None -> fatalError r = None /\ (lx_pos r < lx_pos (fetchNumber r))%nat.
Proof.
  intros Hl. unfold fetchNumber. destruct (number_loop _ _ _ _) as [i [c|]]; [|cbn; intros ->; split; [done|lia]].
  destruct (isTokenEnd c); [cbn; intros ->; split; [done|lia]|]. intros He. by apply errParse_None in He.
Qed.

Lemma fetch_word_moves (r : Lexer) (w : bytes) : fatalError (fetch_word r w) = None -> fatalError r = None /\ (lx_pos r < lx_pos (fetch_word r w))%nat.
Proof. unfold fetch_word. case_if; [cbn; intros ->; split; [done|lia]|]. intros He. by apply errParse_None in He. Qed.

Lemma fetch_loop_moves (l : bytes) (r : Lexer) : (fatalError r = None -> (lx_pos r + length l)%nat = length (Data r)) ->
  fatalError (fetch_loop l r) = None -> fatalError r = None /\ (lx_pos r < lx_pos (fetch_loop l r))%nat.
Proof.
  revert r. induction l as [|c l IH]; intros r Hl He; [done|]. cbn [fetch_loop length] in *.
  destruct (class_of c); unfold fetchNull, fetchTrue, fetchFalse in *.
  - case_bool_decide.
    + edestruct IH as [Hr Hp]; [|exact He|]; [cbn; intros Hr; specialize (Hl Hr); lia|]. split; [done|]. cbn in Hp |- *. lia.
    + edestruct IH as [Hr _]; [|exact He|]; [intros Hr; by apply errParse_None in Hr|]. by apply errParse_None in Hr.
  - edestruct IH as [Hr Hp]; [|exact He|]; [cbn; intros Hr; specialize (Hl Hr); lia|]. split; [done|]. cbn in Hp |- *. lia.
  - apply fetchString_moves in He as [Hr Hp]. apply no_sep_None in Hr as [E Hr]. by rewrite E in *.
  - cbn in He |- *. apply no_sep_None in He as [-> Hr]. split; [done|lia].
  - cbn in He |- *. case_if; [by apply errParse_None in He|]. split; [done|cbn; lia].
  - assert (Hr : fatalError (no_sep r) = None).
    { unfold fetchNumber in He. destruct (number_loop _ _ _ _) as [i [c'|]]; [|done]. destruct (isTokenEnd c'); [done|]. by apply errParse_None in He. }
    apply no_sep_None in Hr as [E Hr]. rewrite E in *. apply fetchNumber_moves in He; [done|]. cbn. specialize (Hl Hr). lia.
  - apply fetch_word_moves in He as [Hr Hp]. apply no_sep_None in Hr as [E Hr]. by rewrite E in *.
  - apply fetch_word_moves in He as [Hr Hp]. apply no_sep_None in Hr as [E Hr]. by rewrite E in *.
  - apply fetch_word_moves in He as [Hr Hp]. apply no_sep_None in Hr as [E Hr]. by rewrite E in *.
  - by apply errParse_None in He.
Qed.

Lemma FetchToken_moves (r : Lexer) : fatalError (FetchToken r) = None ->
  fatalError r = None /\ (lx_pos r <= length (Data r))%nat /\ (lx_pos r < lx_pos (FetchToken r))%nat.
Proof.
  unfold FetchToken. cbn [set_place set_kind Data lx_pos]. destruct (Nat.ltb_spec (length (Data r)) (lx_pos r)) as [|Hle].
  { intros He. by apply errParse_None in He. }
  intros He. apply fetch_loop_moves in He as [Hr Hp]; [by split_and!|]. intros _. cbn. rewrite length_drop. lia.
Qed.

Lemma moves_scan (r : Lexer) : moves r (scanToken r).
Proof.
  intros He. pose proof (scanToken_data r) as Hd. unfold scanToken in He, Hd |- *. case_match; [|done].
  apply FetchToken_moves in He as (? & ? & ?). split_and!; [done|done|lia].
Qed.

Lemma scan_progress (r : Lexer) : tok_kind r = tokenUndef -> fatalError (scanToken r) = None ->
  (lx_pos r <= length (Data r))%nat /\ (lx_pos r < lx_pos (scanToken r))%nat.
Proof.
  intros Hk He. unfold scanToken in *. rewrite bool_decide_eq_true_2 in * by done. unfold lx_Ok in *. cbn [andb] in *.
  destruct (fatalError r) eqn:E; [by rewrite E in He|]. by apply FetchToken_moves in He as (_ & ? & ?).
Qed.

(** A token of a kind that is wanted is taken, or there is an error. *)
Lemma takes_scanned (r : Lexer) (b : bool) (w : string) {A} (x y : A) :
  takes r (if negb (lx_Ok (scanToken r)) || negb b then (x, errInvalidToken (scanToken r) w) else (y, consume (scanToken r))).2.
Proof.
  case_if; cbn [snd]; [apply takes_error, errInvalidToken_error|]. eapply moves_takes; [apply moves_scan|apply takes_consume].
Qed.

Lemma takes_convert {A} (fn : string) (zero : A) (parse : string -> A * option num_error) (r : Lexer) : takes r (convert fn zero parse r).2.
Proof.
  unfold convert. pose proof (takes_scanned r (bool_decide (tok_kind (scanToken r) = tokenNumber)) "number" ""%string (untext (tok_bytes (scanToken r)))) as Ht.
  change (if _ || _ then _ else _) with (lx_number r) in Ht. destruct (lx_number r) as [s r1]. cbn [snd] in Ht.
  case_if; [done|]. destruct (parse s) as [n [e|]]; [by apply takes_error|done].
Qed.

Lemma takes_Bytes (r : Lexer) : takes r (lx_Bytes r).2.
Proof.
  unfold lx_Bytes. case_if; cbn [snd]; [apply takes_error, errInvalidToken_error|].
  destruct (b64_decode _); cbn [snd]; [|by apply takes_error]. eapply moves_takes; [apply moves_scan|apply takes_consume].
Qed.

Lemma takes_Skip (r : Lexer) : takes r (lx_Skip r).
Proof. unfold lx_Skip. eapply moves_takes; [apply moves_scan|apply takes_consume]. Qed.

Lemma takes_Delim (c : ascii) (r : Lexer) : takes r (Delim c r).
Proof.
  unfold Delim. case_if; [apply takes_error, errInvalidToken_error|]. eapply moves_takes; [apply moves_scan|apply takes_consume].
Qed.

Lemma takes_skip_to (r : Lexer) (start stop : ascii) : takes r (skip_to r start stop).
Proof.
  unfold skip_to. destruct (skip_loop _ _ _ _ _ _ _) as [n|]; [|by apply takes_error].
  split; [|done]. intros He. split_and!; [done|done|cbn; lia].
Qed.

Lemma takes_SkipRecursive (r : Lexer) : takes r (SkipRecursive r).
Proof.
  unfold SkipRecursive. eapply moves_takes; [apply moves_scan|]. case_if; [apply takes_skip_to|]. case_if; [apply takes_skip_to|apply takes_consume].
Qed.

Lemma Consumed_moves (r : Lexer) : moves r (Consumed r) /\ tok_kind (Consumed r) = tok_kind r.
Proof.
  unfold Consumed. destruct (_ || _); [done|]. generalize (drop (lx_pos r) (Data r)) as l. intros l. revert r.
  induction l as [|c l IH]; intros r; cbn [consumed_loop]; [done|]. case_if; [|done].
  destruct (IH (set_place r (S (lx_start r)) (S (lx_pos r)))) as [Hm Hk]. split; [|done]. intros He. destruct (Hm He) as (? & ? & ?).
  split_and!; [done|done|cbn in *; lia].
Qed.

Lemma takes_Consumed (r r' : Lexer) : takes r r' -> takes r (Consumed r').
Proof.
  intros [Hm Hk]. destruct (Consumed_moves r') as [Hm' Hk']. split; [by trans r'|]. intros He. rewrite Hk'. apply Hk. by destruct (Hm' He).
Qed.

(** An outcome that is a result, an error or a panic, and the result is
    what it should be. *)
Definition ends {A} (Q : A -> Prop) (o : outcome A) : Prop := match o with Ok a => Q a | NoFuel => False | Err _ | Panic => True end.

Lemma ends_bind {A B} (Q : A -> Prop) (R : B -> Prop) (o : outcome A) (k : A -> outcome B) :
  ends Q o -> (forall a, Q a -> ends R (k a)) -> ends R (o ≫= k).
Proof. intros Ho Hk. destruct o; cbn in *; by auto. Qed.

Lemma ends_Raw (r : Lexer) : ends (fun x => takes r x.2) (Raw r).
Proof.
  unfold Raw. pose proof (takes_SkipRecursive r) as Ht. case_if; [done|]. by case_if.
Qed.

(** The rounds that are left: none after an error. *)
Definition enough (fuel : nat) (r : Lexer) : Prop :=
  (0 < fuel)%nat /\ (fatalError r = None -> tok_kind r = tokenUndef /\ (length (Data r) + 1 < fuel + lx_pos r)%nat).

Lemma enough_next (fuel : nat) (r r' : Lexer) : enough (S fuel) r -> fatalError (scanToken r) = None -> takes (scanToken r) r' -> enough fuel r'.
Proof.
  intros [_ He] Hs [Hm Hk]. destruct (moves_scan r Hs) as (Hr & Hd & _). destruct (He Hr) as [Hu Hf]. destruct (scan_progress r Hu Hs) as [Hl Hp].
  split; [lia|]. intros He'. destruct (Hm He') as (_ & Hd' & Hp'). rewrite Hd', Hd. split; [by apply Hk|lia].
Qed.

Lemma IsDelim_go (c : ascii) (r : Lexer) : (IsDelim c r).1 = false -> fatalError (scanToken r) = None.
Proof. unfold IsDelim, lx_Ok. cbn. by destruct (fatalError (scanToken r)). Qed.

Lemma ends_elements {A} (elem : Lexer -> outcome (A * Lexer)) : (forall r, ends (fun x => takes r x.2) (elem r)) ->
  forall fuel acc r, enough fuel r -> ends (fun x => moves r x.2) (elements elem fuel acc r).
Proof.
  intros Hel. induction fuel as [|fuel IH]; intros acc r Hf; [destruct Hf; lia|]. cbn [elements].
  pose proof (IsDelim_go "]" r) as Hgo. destruct (IsDelim "]" r) as [stop r1] eqn:E. assert (r1 = scanToken r) as -> by (by injection E).
  destruct stop; [apply moves_scan|]. specialize (Hgo eq_refl). eapply ends_bind; [apply Hel|]. intros [v r2] Ht. cbn [snd] in Ht.
  assert (Ht' : takes (scanToken r) (WantComma r2)) by (destruct Ht as [Hm Hk]; by split).
  pose proof (IH (acc ++ [v]) _ (enough_next _ _ _ Hf Hgo Ht')) as Hi. destruct (elements _ _ _ _) as [[l r3]| | |]; try done. cbn in *.
  trans (scanToken r); [apply moves_scan|]. trans (WantComma r2); [by destruct Ht'|done].
Qed.

Lemma ends_rounds {A} (F : string -> A -> Lexer -> outcome (A * Lexer)) : (forall key out r, ends (fun x => takes r x.2) (F key out r)) ->
  forall fuel out r, enough fuel r -> ends (fun x => moves r x.2) (rounds F fuel out r).
Proof.
  intros HF. induction fuel as [|fuel IH]; intros out r Hf; [destruct Hf; lia|]. cbn [rounds].
  pose proof (IsDelim_go "}" r) as Hgo. destruct (IsDelim "}" r) as [stop r1] eqn:E. assert (r1 = scanToken r) as -> by (by injection E).
  destruct stop; [apply moves_scan|]. specialize (Hgo eq_refl). clear E.
  assert (Hnext : forall out r2, takes (scanToken r) r2 -> ends (fun x => moves r x.2) (rounds F fuel out (WantComma r2))).
  { intros out' r2 [Hm Hk]. assert (Ht' : takes (scanToken r) (WantComma r2)) by (by split).
    pose proof (IH out' _ (enough_next _ _ _ Hf Hgo Ht')) as Hi. destruct (rounds _ _ _ _) as [[l r3]| | |]; try done. cbn in *.
    trans (scanToken r); [apply moves_scan|]. trans (WantComma r2); [by destruct Ht'|done]. }
  pose proof (takes_scanned (scanToken r) (bool_decide (tok_kind (scanToken (scanToken r)) = tokenString)) "string"
    ""%string (untext (tok_bytes (scanToken (scanToken r))))) as [Hs _].
  change (if _ || _ then _ else _) with (UnsafeString (scanToken r)) in Hs. destruct (UnsafeString (scanToken r)) as [key r2]. cbn [snd] in Hs.
  change (IsNull (WantColon r2)) with (lx_Ok (scanToken (WantColon r2)) && bool_decide (tok_kind (scanToken (WantColon r2)) = tokenNull), scanToken (WantColon r2)).
  assert (Hs' : moves (scanToken r) (scanToken (WantColon r2))) by (trans r2; [done|]; trans (WantColon r2); [apply moves_sep|apply moves_scan]).
  destruct (_ && _).
  - apply Hnext. eapply moves_takes; [exact Hs'|apply takes_Skip].
  - eapply ends_bind; [apply HF|]. intros [out' r3] Ht. apply Hnext. by eapply moves_takes.
Qed.

Lemma enough_fuel (r r' : Lexer) : takes r' r -> enough (jfuel r) r.
Proof. intros [_ Hk]. unfold jfuel. split; [lia|]. intros He. split; [by apply Hk|lia]. Qed.

Lemma ends_struct {A} (F : string -> A -> Lexer -> outcome (A * Lexer)) (out : A) (r : Lexer) :
  (forall key out r, ends (fun x => takes r x.2) (F key out r)) -> ends (fun x => takes r x.2) (decode_struct_with F out r).
Proof.
  intros HF. unfold decode_struct_with.
  change (IsNull r) with (lx_Ok (scanToken r) && bool_decide (tok_kind (scanToken r) = tokenNull), scanToken r). destruct (_ && _).
  - cbn. eapply moves_takes; [|apply takes_Skip]. trans (scanToken r); [apply moves_scan|].
    destruct (IsStart r); [apply Consumed_moves|done].
  - pose proof (takes_Delim "{" (scanToken r)) as Hd. eapply ends_bind; [by eapply ends_rounds, enough_fuel|]. intros [out' r2] Hm.
    cbn [snd] in Hm. assert (Ht : takes r (Delim "}" r2)).
    { eapply moves_takes; [|apply takes_Delim]. trans (scanToken r); [apply moves_scan|]. trans (Delim "{" (scanToken r)); [apply Hd|done]. }
    cbn. destruct (IsStart r); [by apply takes_Consumed|done].
Qed.

Lemma takes_AddError (r r' : Lexer) (e : option lexer_error) : takes r r' -> takes r (AddError r' e).
Proof.
  intros Ht. unfold AddError. destruct (fatalError r') eqn:E; [done|]. destruct e; [by apply takes_error|]. destruct Ht as [Hm Hk].
  split; [|intros _; by apply Hk]. intros _. by apply Hm.
Qed.

Lemma decode_ends :
  (forall sh old r, ends (fun x => takes r x.2) (decode_value sh old r)) /\
  (forall fs key out r, ends (fun x => takes r x.2) (decode_field fs key out r)).
Proof.
  apply jshape_jfields_ind; cbn [decode_value decode_field].
  1-5: intros; apply takes_convert.
  - intros old r. apply takes_scanned.
  - intros old r. apply takes_scanned.
  - intros old r. change (IsNull r) with (lx_Ok (scanToken r) && bool_decide (tok_kind (scanToken r) = tokenNull), scanToken r).
    destruct (_ && _); (eapply moves_takes; [apply moves_scan|]); [apply takes_Skip|apply takes_Bytes].
  - intros sh IH old r. change (IsNull r) with (lx_Ok (scanToken r) && bool_decide (tok_kind (scanToken r) = tokenNull), scanToken r).
    destruct (_ && _); [eapply moves_takes; [apply moves_scan|apply takes_Skip]|].
    change (IsDelim "]" (Delim "[" (scanToken r))).2 with (scanToken (Delim "[" (scanToken r))).
    assert (Hfuel : jfuel (scanToken (Delim "[" (scanToken r))) = jfuel (Delim "[" (scanToken r))) by (unfold jfuel; by rewrite scanToken_data).
    rewrite elements_scan, Hfuel. pose proof (takes_Delim "[" (scanToken r)) as Hd.
    eapply ends_bind; [eapply ends_elements; [apply IH|by eapply enough_fuel]|]. intros [l r2] Hm. cbn in Hm |- *.
    eapply moves_takes; [|apply takes_Delim]. trans (scanToken r); [apply moves_scan|]. trans (Delim "[" (scanToken r)); [apply Hd|done].
  - intros link mode fs IH old r. change (IsNull r) with (lx_Ok (scanToken r) && bool_decide (tok_kind (scanToken r) = tokenNull), scanToken r).
    destruct (_ && _); [eapply moves_takes; [apply moves_scan|apply takes_Skip]|]. destruct link.
    + eapply ends_bind; [apply ends_Raw|]. intros [data r2] Ht. cbn [snd] in Ht.
      assert (Ht' : takes r r2) by (eapply moves_takes; [apply moves_scan|done]). destruct (lx_Ok r2); [|done].
      eapply ends_bind; [apply ends_struct, IH|]. intros [out r3] _. by apply takes_AddError.
    + eapply ends_bind; [apply ends_struct, IH|]. intros [out r3] Ht. eapply moves_takes; [apply moves_scan|done].
  - intros key out r. apply takes_SkipRecursive.
  - intros n o sh IHs fs IHf key out r. case_bool_decide; (eapply ends_bind; [by apply IHs || by apply IHf|]); by intros [].
Qed.

(** C36: Reading JSON ends.  For every type and all data, however broken,
    the loops over the fields and the elements end within the fuel they
    are given, one round for each byte. *)
Theorem json_reading_ends (fs : jfields) (out : jdenote_fields fs) (data : bytes) : UnmarshalJSON fs out data <> NoFuel.
Proof.
  unfold UnmarshalJSON, decode_struct. intros E.
  assert (He : ends (fun _ => True) (UnmarshalJSON fs out data)).
  { eapply ends_bind; [apply ends_struct, decode_ends|by intros []]. }
  unfold UnmarshalJSON, decode_struct in He. by rewrite E in He.
Qed.

(** ** What is not read back *)

(** [NullRawDataPoint]: the comma behind [null] is missing. *)
Definition null_raw_point : jdenote_fields RawDataPoint_json := (60, (NaN, (NaN, (NaN, (NaN, (0, tt)))))).

Example null_point_broken :
  RawDataPoint_MarshalJSON null_raw_point =
    "{"%char :: jkey "time" ++ text "60," ++ jkey "sum" ++ text "null" ++ jkey "min" ++ text "null" ++ jkey "max" ++ text "null" ++
      jkey "last" ++ text "null" ++ jkey "count" ++ text "0}" /\
  match UnmarshalJSON RawDataPoint_json (jzero_fields RawDataPoint_json) (RawDataPoint_MarshalJSON null_raw_point) with
  | Ok (_, Some (LexerError reason _ _)) => reason = "syntax error"%string
  | _ => False
  end.
Proof. split; vm_compute; reflexivity. Qed.

(** A [DataPoint] is written as an array and read as an object. *)
Example data_point_unread :
  DataPoint_MarshalJSON (60, (float_of_Z 1, tt)) = text "[1.000000, 60]" /\
  UnmarshalJSON DataPoint_json (jzero_fields DataPoint_json) (text "[1.000000, 60]") =
    Ok (jzero_fields DataPoint_json, Some (LexerError "expected {" 1 [])).
Proof. split; vm_compute; reflexivity. Qed.

(** A value that is not checked and not a number has no JSON. *)
Example nan_metric_broken :
  let data := RawMetric_MarshalJSON (60, ("a"%string, (NaN, (None, (None, (0, tt)))))) in
  data = "{"%char :: jkey "time" ++ text "60," ++ jkey "metric" ++ jw_String "a" ++ text "," ++ jkey "value" ++ text "NaN}" /\
  match RawMetric_UnmarshalJSON (jzero_fields RawMetric_json) data with Ok (_, Some _) => True | _ => False end.
Proof. split; vm_compute; done. Qed.

(** A string without its end, where a struct should be: the bytes to cut
    out end behind the data. *)
Example open_string_panics :
  StatRepr_UnmarshalJSON (jzero_fields StatRepr_json) ("{"%char :: jkey "name" ++ quote :: text "abc") = Panic.
Proof. vm_compute. reflexivity. Qed.
