(* ===== verification/Routing.v ===== *)
(** The way of a line through a server: [server.go], [backends.go],
    [output.go] and the reading of lines in [clienttcp.go], [clientudp.go]
    and [clienthttp.go].

    A client cuts what arrives into lines, splits them and puts the items
    into the input queue of its server.  A worker takes them out, asks the
    filters, and gives an item to the accumulator or, once for every server
    its hashers name, to the work queue, from which the writers send it.

    A channel is the list of what has been sent to it.  The item of a line
    is an object of a pool, so that it is passed with its address, and the
    pool is the list of the addresses put back.  The counters are integers
    without bound.  The outcome of a wait for a queue, of a parsed URL and of
    the calls to the network are arguments. *)
From S2P Require Import Prelude Float64 GoStrings GoSort GoParse LRU Aggs Splitter StatItem Accumulate Accumulator Prereg.
From S2P Require Import Consistent ConsistentTheorems HasherPool.

Open Scope Z_scope.

(** [OutputMessage]; its server is the one whose queue holds it, and its
    kind is always the same. *)
Record OutputMessage := mkOut { outserver : string; param : string }.

#[export] Instance OutputMessage_eq_dec : EqDecision OutputMessage.
Proof. solve_decision. Defined.

(** An item with its address. *)
Definition item : Type := nat * SplitItem.

Inductive counter :=
| ValidLineCount | WorkerValidLineCount | InvalidLineCount | SuccessSendCount | FailSendCount | UnsendableSendCount
| AllLinesCount | RejectedLinesCount | RedirectedLinesCount | BytesWrittenCount | BytesReadCount.

#[export] Instance counter_eq_dec : EqDecision counter.
Proof. solve_decision. Defined.

(** [StatCount.Up]. *)
Definition up (c : counter) (n : Z) (f : counter -> Z) : counter -> Z := fun d => if decide (d = c) then f d + n else f d.

Definition DEFAULT_INTERNAL_QUEUE_LENGTH : Z := 81920.

(** How a client reads. *)
Inductive wire := WireTCP | WireUDP | WireHTTP.

Definition wire_origin (k : wire) : Origin := match k with WireTCP => TCP | WireUDP => UDP | WireHTTP => HTTP end.

(** The pools of connections to a server: the plain ones, or those with a
    buffer of the size given. *)
Inductive Netpool := PlainPool (scheme addr : string) (conns : Z) | BufferedPool (scheme addr : string) (size conns : Z).

Section routing.
Context `{!GoSort} (Hash : HashAlgo -> string -> Z).
Context {C : Type} {HC : HasherCache C}.
Context {Regexp : Type} (FindAllSubmatch : Regexp -> string -> option (list (list string))) (re_Match : Regexp -> string -> bool).
Context (time_Parse : string -> string -> option Z).
Context (Unmarshal : string -> JsonStruct + goerror) (Marshal : JsonStruct -> string + goerror).

Record Server := mkSrv {
  srv_Name : string;
  Hashers : list (ConstHasher (C := C));
  srv_Replicas : Z;
  DevNullOut : bool;
  PreRegFilter : option (PreReg (Regexp := Regexp));
  SplitterProcessor : Splitter (Regexp := Regexp);
  InputQueue : list item;
  ProcessedQueue : list item;
  ClientQueue : list item;
  WorkQueue : list OutputMessage;
  WorkerHold : list Z;
  InWorkQueue : Z;
  CurrentReadBufferRam : Z;
  MaxReadBufferSize : Z;
  backPressure : list bool;
  backPressureOn : bool;
  SendingConnectionMethod : string;
  NetPoolConnections : Z;
  WriteBufferPoolSize : Z;
  Outpool : gmap string Netpool;
  counts : counter -> Z
}.

Definition set_work (s : Server) (hs : list (ConstHasher (C := C))) (work : list OutputMessage) (hold : list Z) (cs : counter -> Z) : Server :=
  mkSrv (srv_Name s) hs (srv_Replicas s) (DevNullOut s) (PreRegFilter s) (SplitterProcessor s) (InputQueue s) (ProcessedQueue s)
    (ClientQueue s) work hold (InWorkQueue s) (CurrentReadBufferRam s) (MaxReadBufferSize s) (backPressure s) (backPressureOn s)
    (SendingConnectionMethod s)
    (NetPoolConnections s) (WriteBufferPoolSize s) (Outpool s) cs.
Definition set_queues (s : Server) (inq processed client : list item) : Server :=
  mkSrv (srv_Name s) (Hashers s) (srv_Replicas s) (DevNullOut s) (PreRegFilter s) (SplitterProcessor s) inq processed
    client (WorkQueue s) (WorkerHold s) (InWorkQueue s) (CurrentReadBufferRam s) (MaxReadBufferSize s) (backPressure s) (backPressureOn s)
    (SendingConnectionMethod s)
    (NetPoolConnections s) (WriteBufferPoolSize s) (Outpool s) (counts s).
Definition set_counts (s : Server) (cs : counter -> Z) : Server :=
  set_work s (Hashers s) (WorkQueue s) (WorkerHold s) cs.
Definition set_filter (s : Server) (pr : option (PreReg (Regexp := Regexp))) : Server :=
  mkSrv (srv_Name s) (Hashers s) (srv_Replicas s) (DevNullOut s) pr (SplitterProcessor s) (InputQueue s) (ProcessedQueue s)
    (ClientQueue s) (WorkQueue s) (WorkerHold s) (InWorkQueue s) (CurrentReadBufferRam s) (MaxReadBufferSize s) (backPressure s) (backPressureOn s)
    (SendingConnectionMethod s)
    (NetPoolConnections s) (WriteBufferPoolSize s) (Outpool s) (counts s).
Definition set_gauges (s : Server) (inwork ram : Z) : Server :=
  mkSrv (srv_Name s) (Hashers s) (srv_Replicas s) (DevNullOut s) (PreRegFilter s) (SplitterProcessor s) (InputQueue s) (ProcessedQueue s)
    (ClientQueue s) (WorkQueue s) (WorkerHold s) inwork ram (MaxReadBufferSize s) (backPressure s) (backPressureOn s)
    (SendingConnectionMethod s)
    (NetPoolConnections s) (WriteBufferPoolSize s) (Outpool s) (counts s).
Definition set_outpool (s : Server) (p : gmap string Netpool) (cs : counter -> Z) : Server :=
  mkSrv (srv_Name s) (Hashers s) (srv_Replicas s) (DevNullOut s) (PreRegFilter s) (SplitterProcessor s) (InputQueue s) (ProcessedQueue s)
    (ClientQueue s) (WorkQueue s) (WorkerHold s) (InWorkQueue s) (CurrentReadBufferRam s) (MaxReadBufferSize s) (backPressure s) (backPressureOn s)
    (SendingConnectionMethod s)
    (NetPoolConnections s) (WriteBufferPoolSize s) p cs.

Definition set_pressure (s : Server) (l : list bool) (on : bool) : Server :=
  mkSrv (srv_Name s) (Hashers s) (srv_Replicas s) (DevNullOut s) (PreRegFilter s) (SplitterProcessor s) (InputQueue s) (ProcessedQueue s)
    (ClientQueue s) (WorkQueue s) (WorkerHold s) (InWorkQueue s) (CurrentReadBufferRam s) (MaxReadBufferSize s) l on
    (SendingConnectionMethod s) (NetPoolConnections s) (WriteBufferPoolSize s) (Outpool s) (counts s).

Definition AddToCurrentTotalBufferSize (s : Server) (length : Z) : Server :=
  set_gauges s (InWorkQueue s) (CurrentReadBufferRam s + length).

Definition NeedBackPressure (s : Server) : bool :=
  (MaxReadBufferSize s <? CurrentReadBufferRam s) || (Z.of_nat (length (WorkQueue s)) =? DEFAULT_INTERNAL_QUEUE_LENGTH).

Definition BackPressure (s : Server) : Server :=
  if backPressureOn s then s else set_pressure s (backPressure s ++ [NeedBackPressure s]) true.

(** ** Sending to the workers *)

(** The message for one server. *)
Definition push_one (it : item) (s : Server) (useme : string) : Server :=
  set_work s (Hashers s) (WorkQueue s ++ [mkOut useme (inline it.2)]) (WorkerHold s ++ [1]) (up WorkerValidLineCount 1 (counts s)).

(** The loop over the hashers, the ones visited in front; the item goes
    back to the pool after each hasher that answers. *)
Fixpoint push_loop (now : Z) (it : item) (seen todo : list (ConstHasher (C := C))) (s : Server) (pool : list nat) : option (Server * list nat) :=
  match todo with
  | [] => Some (s, pool)
  | h :: todo =>
      '(servs, err, h) ← hasher_GetN Hash h now (inkey it.2) (srv_Replicas s);
      let s := set_work s (seen ++ h :: todo) (WorkQueue s) (WorkerHold s) (counts s) in
      match err with
      | None => push_loop now it (seen ++ [h]) todo (fold_left (push_one it) servs s) (pool ++ [it.1])
      | Some _ => push_loop now it (seen ++ [h]) todo (set_counts s (up UnsendableSendCount 1 (counts s))) pool
      end
  end.

Definition PushLineToBackend (now : Z) (s : Server) (pool : list nat) (it : item) : option (Server * list nat) :=
  if DevNullOut s then Some (s, pool) else push_loop now it [] (Hashers s) s pool.

(** [SendtoOutputWorkers]: the item is pushed while the [select] looks at
    its cases; [late] says that the timer wins over the send.  [own] is
    whether the queue given is the client's own. *)
Definition SendtoOutputWorkers (now : Z) (late own : bool) (s : Server) (pool : list nat) (it : item) : option (Server * list nat) :=
  '(s, pool) ← PushLineToBackend now s pool it;
  let s :=
    if late then set_counts s (up FailSendCount 1 (counts s))
    else if own && negb (bool_decide (inorigin it.2 = Other)) then set_queues s (InputQueue s) (ProcessedQueue s) (ClientQueue s ++ [it])
    else set_queues s (InputQueue s) (ProcessedQueue s ++ [it]) (ClientQueue s) in
  Some (set_work s (Hashers s) (WorkQueue s) (WorkerHold s ++ [-1]) (counts s), pool).

(** ** The backends *)

Abbreviation Backends := (gmap string Server).

Definition bk_Get (bk : Backends) (name : string) : Server + goerror :=
  match bk !! name with Some s => inl s | None => inr (GoError ("backend " +:+ name +:+ " not found")) end.

Definition bk_Add (bk : Backends) (name : string) (s : Server) : Backends := <[name := s]> bk.

Definition bk_Send (bk : Backends) (name : string) (line : item) : Backends * option goerror :=
  match bk !! name with
  | None => (bk, Some (GoError ("Backend `" +:+ name +:+ "` not found")))
  | Some s => (<[name := set_queues s (InputQueue s ++ [line]) (ProcessedQueue s) (ClientQueue s)]> bk, None)
  end.

(** ** The filters *)

Definition with_acc (pr : PreReg (Regexp := Regexp)) (a : Accumulator (Regexp := Regexp)) : PreReg (Regexp := Regexp) :=
  mkPreReg (DefaultBackEnd pr) (pr_Name pr) (ListenServer pr) (FilterList pr) (Some a).

(** [ProcessSplitItem] of the server [name], which is one of the backends.
    [None] is a panic. *)
Definition ProcessSplitItem (now : Z) (late own : bool) (bk : Backends) (name : string) (pool : list nat) (splitem : option item)
    : option (Backends * list nat) :=
  s ← bk !! name;
  let farm it := '(s, pool) ← SendtoOutputWorkers now late own s pool it; Some (<[name := s]> bk, pool) in
  match splitem with
  | None => Some (bk, pool)
  | Some it =>
      match PreRegFilter s with
      | None => farm it
      | Some pr =>
          let '(useBackend, reject) := FirstMatchBackend re_Match pr (inkey it.2) in
          if reject : bool then Some (<[name := set_counts s (up RejectedLinesCount 1 (counts s))]> bk, pool)
          else
            let accumulate := match pr_Accumulator pr with Some _ => true | None => false end in
            match pr_Accumulator pr with
            | Some a => Some (<[name := set_filter s (Some (with_acc pr (ac_ProcessSplitItem a it.2)))]> bk, pool ++ [it.1])
            | None =>
                if negb (bool_decide (useBackend = srv_Name s)) && accumulate then
                  let s := set_counts s (up RedirectedLinesCount 1 (counts s)) in
                  Some ((bk_Send (<[name := s]> bk) useBackend (it.1, SetOrigin it.2 Other)).1, pool)
                else farm it
            end
      end
  end.

(** A worker of [startBackendServer], or, for [tcp], of [startTCPServer],
    takes the next item of the input queue; [None] when there is none. *)
Definition worker_turn (tcp : bool) (now : Z) (late : bool) (bk : Backends) (name : string) (pool : list nat) : option (Backends * list nat) :=
  s ← bk !! name;
  match InputQueue s with
  | [] => None
  | it :: rest =>
      let llen := Z.of_nat (String.length (inline it.2)) in
      let s := AddToCurrentTotalBufferSize (set_queues s rest (ProcessedQueue s) (ClientQueue s)) llen in
      let s := if tcp && NeedBackPressure s then BackPressure s else s in
      '(bk, pool) ← ProcessSplitItem now late false (<[name := s]> bk) name pool (Some it);
      s ← bk !! name;
      let s := if tcp then s else set_counts s (up AllLinesCount 1 (counts s)) in
      Some (<[name := AddToCurrentTotalBufferSize s (- llen)]> bk, pool)
  end.

(** A turn of [ConsumeProcessedQueue] that takes a number from
    [WorkerHold]. *)
Definition hold_turn (s : Server) : option Server :=
  match WorkerHold s with
  | [] => None
  | n :: rest => let s := set_work s (Hashers s) (WorkQueue s) rest (counts s) in Some (set_gauges s (InWorkQueue s + n) (CurrentReadBufferRam s))
  end.

(** ** Reading lines *)

(** What a client does with one line: an item of the pool or a new one with
    the address given. *)
Definition take_line (k : wire) (now : Z) (pooled : option SplitItem) (addr : nat) (raw : string) (s : Server) : option Server :=
  let line := TrimSpace raw in
  if (String.length line =? 0)%nat then Some s
  else
    let read := match k with
                | WireTCP => up BytesReadCount (Z.of_nat (String.length line))
                | WireHTTP => up BytesReadCount (Z.of_nat (String.length raw))
                | WireUDP => id
                end in
    let s := set_counts s (up AllLinesCount 1 (read (counts s))) in
    r ← ProcessLine FindAllSubmatch time_Parse Unmarshal Marshal (SplitterProcessor s) pooled now line;
    Some match r with
         | inl spl =>
             let spl := SetOriginName (SetOrigin spl (wire_origin k)) (srv_Name s) in
             let s := set_counts s (up ValidLineCount 1 (counts s)) in
             set_queues s (InputQueue s ++ [(addr, spl)]) (ProcessedQueue s) (ClientQueue s)
         | inr _ => set_counts s (up InvalidLineCount 1 (counts s))
         end.

(** The items a client gets, with their addresses, one for each line. *)
Definition supply : Type := list (option SplitItem * nat).

Fixpoint take_lines (k : wire) (now : Z) (sup : supply) (lines : list string) (s : Server) : option Server :=
  match lines with
  | [] => Some s
  | l :: lines =>
      let '(pooled, addr) := default (None, 0%nat) (head sup) in
      s ← take_line k now pooled addr l s;
      take_lines k now (tail sup) lines s
  end.

(** The lines that [ReadBytes] gives until the end: what follows the last
    newline is not one. *)
Fixpoint ended_lines (fuel : nat) (data : string) : list string :=
  match fuel with
  | O => []
  | S fuel => match ReadBytes data with None => [] | Some (line, rest) => line :: ended_lines fuel rest end
  end.

(** [handleRequest] of TCP and [HTTPHandler], on all that is sent. *)
Definition stream_lines (k : wire) (now : Z) (sup : supply) (data : string) (s : Server) : option Server :=
  take_lines k now sup (ended_lines (String.length data) data) s.

(** [procLines] of UDP, on one datagram. *)
Definition procLines (now : Z) (sup : supply) (data : string) (s : Server) : option Server :=
  take_lines WireUDP now sup (Split data (String newline "")) s.

(** ** Writing to the servers *)

(** A [Write] on a connection: it takes all of the message and returns a
    number, or fails after the connection has taken so many bytes. *)
Inductive write_result := Wrote (by_ : Z) | WriteFailed (took : nat).

(** What the network answers to one try: the parsed URL, whether the pool
    can be filled, a connection be had and be open, and what the write
    comes to. *)
Record attempt := mkAttempt {
  at_url : option (string * string);
  at_init : bool;
  at_open : bool;
  at_conn : bool;
  at_wrote : write_result
}.

(** The part of a message that a failed write leaves with the connection. *)
Definition part_sent (line : string) (took : nat) : list string :=
  match String.substring 0 took line with EmptyString => [] | p => [p] end.

(** [make_pool]: the code it returns. *)
Definition make_pool (s : Server) (j : OutputMessage) (t : attempt) : Server * Z :=
  match Outpool s !! outserver j with
  | Some _ => (s, 0)
  | None =>
      match at_url t with
      | None => (set_counts s (up FailSendCount 1 (counts s)), 2)
      | Some (scheme, addr) =>
          let conns := if 0 <? NetPoolConnections s then NetPoolConnections s else 0 in
          let outsrv :=
            if bool_decide (SendingConnectionMethod s = "bufferedpool"%string) then BufferedPool scheme addr (WriteBufferPoolSize s) conns
            else PlainPool scheme addr conns in
          if at_init t then (set_outpool s (<[outserver j := outsrv]> (Outpool s)) (counts s), 0) else (s, 1)
      end
  end.

Definition fail_send (s : Server) : Server := set_counts s (up FailSendCount 1 (counts s)).

(** The server, what was sent, and the error, whose text ends before that
    of the network. *)
Definition PoolWriter_Write (s : Server) (j : OutputMessage) (t : attempt) : Server * list string * option goerror :=
  let '(s, retcode) := make_pool s j t in
  if retcode =? 1 then
    (s, [], Some (GoError ("Pool " +:+ outserver j +:+ " failed to intialize, check the outgoing servers for 'aliveness'")))
  else if retcode =? 2 then (s, [], Some (GoError ("Pool " +:+ outserver j +:+ " failed to intialize, Hard failure")))
  else if negb (at_open t) then (fail_send s, [], Some (GoError "Error sending to backend"))
  else if negb (at_conn t) then
    (fail_send s, [], Some (GoError ("Error sending (writing connection gone) to backend: " +:+ outserver j)))
  else
    let toSend := param j +:+ String newline "" in
    match at_wrote t with
    | WriteFailed took => (fail_send s, part_sent toSend took, Some (GoError "Error sending (writing) to backend"))
    | Wrote by_ => (set_counts s (up SuccessSendCount 1 (up BytesWrittenCount by_ (counts s))), [toSend], None)
    end.

Definition SingleWriter_Write (s : Server) (j : OutputMessage) (t : attempt) : Server * list string * option goerror :=
  match at_url t with
  | None => (fail_send s, [], Some (GoError "Error sending to backend Invalid URL"))
  | Some _ =>
      if negb (at_conn t) then (fail_send s, [], Some (GoError "Error sending (connection) to backend"))
      else
        let to_send := param j +:+ String newline "" in
        match at_wrote t with
        | WriteFailed took => (fail_send s, part_sent to_send took, Some (GoError "Error sending (writing) to backend"))
        | Wrote _ => (set_counts s (up SuccessSendCount 1 (counts s)), [to_send], None)
        end
  end.

(** [SetWriter] and [DoWork]. *)
Definition DoWork (s : Server) (j : OutputMessage) (t : attempt) : Server * list string * option goerror :=
  if bool_decide (SendingConnectionMethod s = "single"%string) then SingleWriter_Write s j t else PoolWriter_Write s j t.

(** [backoff.RetryNotify] on a job: until it works, or the tries are used
    up. *)
Fixpoint retry (s : Server) (j : OutputMessage) (t : attempt) (ts : list attempt) : Server * list string * option goerror :=
  let '(s, sent, err) := DoWork s j t in
  match err, ts with
  | Some _, t :: ts => let '(s, sent', err) := retry s j t ts in (s, sent ++ sent', err)
  | _, _ => (s, sent, err)
  end.

(** ** Start *)

Definition with_output (a : Accumulator (Regexp := Regexp)) (from : string) (out : bool) : Accumulator (Regexp := Regexp) :=
  mkAcc (ToBackend a) from (ac_Name a) (KeepKeys a) (AccumulateTime a) (FlushTimes a) (TTLTimes a) (ac_TagMode a)
        (ac_HashMode a) (ByPass a) (Accumulate a) (Formatter a) (InSplitter a) (OutSplitter a) (LineQueue a) (shutitdown a)
        out (has_aggregators a).

(** [StartServer] connects the accumulator to the input queue of another
    backend; [None] is the panic when there is no such backend. *)
Definition start_wiring (bk : Backends) (s : Server) : option Server :=
  match PreRegFilter s with
  | None => Some s
  | Some pr =>
      match pr_Accumulator pr with
      | None => Some s
      | Some a =>
          if bool_decide (ToBackend a = BLACK_HOLE_BACKEND) then Some (set_filter s (Some (with_acc pr (with_output a (srv_Name s) (has_output a)))))
          else _ ← bk !! ToBackend a; Some (set_filter s (Some (with_acc pr (with_output a (srv_Name s) true))))
      end
  end.

(** What a flush posts arrives in the input queue of the backend. *)
Definition post_all (bk : Backends) (a : Accumulator (Regexp := Regexp)) (items : list item) : Backends :=
  fold_left (fun bk it => (bk_Send bk (ToBackend a) it).1) items bk.

(** [HasherCheck]: the servers of a key and the values of its hash. *)
Fixpoint check_loop (now : Z) (key : string) (n : Z) (seen todo : list (ConstHasher (C := C))) : option (list string * list Z * list (ConstHasher (C := C))) :=
  match todo with
  | [] => Some ([], [], seen)
  | h :: todo =>
      '(servs, err, h) ← hasher_GetN Hash h now key n;
      '(to, vals, hs) ← check_loop now key n (seen ++ [h]) todo;
      Some match err with
           | None => (servs ++ to, ((fun _ => hashKey Hash (Hasher h) key) <$> servs) ++ vals, hs)
           | Some _ => (to, vals, hs)
           end
  end.

Definition HasherCheck (now : Z) (s : Server) (key : string) : option (list string * list Z * Server) :=
  '(to, vals, hs) ← check_loop now key (srv_Replicas s) [] (Hashers s);
  Some (to, vals, set_work s hs (WorkQueue s) (WorkerHold s) (counts s)).

(** ** The specification: where a line goes *)

Inductive fate := Rejected | Accumulated | Farmed.

#[export] Instance fate_eq_dec : EqDecision fate.
Proof. solve_decision. Defined.

Definition fate_of (pf : option (PreReg (Regexp := Regexp))) (it : SplitItem) : fate :=
  match pf with
  | None => Farmed
  | Some pr =>
      if (FirstMatchBackend re_Match pr (inkey it)).2 then Rejected
      else match pr_Accumulator pr with Some _ => Accumulated | None => Farmed end
  end.

(** The servers the ring of a hasher names. *)
Definition named_servers (n : Z) (key : string) (h : ConstHasher (C := C)) : list string :=
  match GetN Hash (Hasher h) key n with Some r => some_servers h r | None => [] end.

(** The messages of a line: one for each server of each hasher. *)
Definition routes (n : Z) (hs : list (ConstHasher (C := C))) (it : SplitItem) : list OutputMessage :=
  hs ≫= fun h => (fun srv => mkOut srv (inline it)) <$> named_servers n (inkey it) h.

(** The ring of every hasher answers for the key. *)
Definition answered (n : Z) (hs : list (ConstHasher (C := C))) (it : SplitItem) : Prop :=
  Forall (fun h => GetN Hash (Hasher h) (inkey it) n <> None) hs.

(** A ring that is empty or whose count is right. *)
Definition ring_exact (h : ConstHasher (C := C)) : Prop :=
  circle (Hasher h) = ∅ \/ Consistent.count (Hasher h) = Z.of_nat (base.size (on_circle (Hasher h))).

(** The lines the accumulator has been given. *)
Definition queued (pf : option (PreReg (Regexp := Regexp))) : list string :=
  match pf with Some pr => match pr_Accumulator pr with Some a => LineQueue a | None => [] end | None => [] end.

Definition running (pf : option (PreReg (Regexp := Regexp))) : bool :=
  match pf with Some pr => match pr_Accumulator pr with Some a => negb (shutitdown a) | None => true end | None => true end.

(** Items one after the other, each with what the wait for the queue comes
    to and the queue its client gave. *)
Fixpoint process_all (now : Z) (bk : Backends) (name : string) (pool : list nat) (its : list (bool * bool * item)) : option (Backends * list nat) :=
  match its with
  | [] => Some (bk, pool)
  | (late, own, it) :: its =>
      '(bk, pool) ← ProcessSplitItem now late own bk name pool (Some it);
      process_all now bk name pool its
  end.

End routing.

(** ** Theorems *)

Section routing.
Context `{!GoSort} (Hash : HashAlgo -> string -> Z).
Context {C : Type} {HC : HasherCache C}.
Context {Regexp : Type} (re_Match : Regexp -> string -> bool).

Abbreviation Server := (Server (C := C) (Regexp := Regexp)).
Abbreviation ConstHasher := (ConstHasher (C := C)).
Abbreviation Backends := (gmap string Server).

(** A lookup changes the cache only. *)
Definition same_ring (h h' : ConstHasher) : Prop := Hasher h' = Hasher h /\ HashKeyToServer h' = HashKeyToServer h.

#[local] Instance same_ring_preorder : PreOrder same_ring.
Proof. split; [by split|]. intros h1 h2 h3 [E1 F1] [E2 F2]. split; congruence. Qed.

Lemma GetN_same (h h' : ConstHasher) (now : Z) (key : string) (n : Z) (l : list string) (err : option goerror) :
  hasher_GetN Hash h now key n = Some (l, err, h') -> same_ring h h' /\ (err <> None -> l = []).
Proof.
  unfold hasher_GetN. intros E. destruct (memo_get _ _ _) as [[v c]|]; [|done]. cbn [mbind option_bind] in E.
  destruct v as [[s|l']|]; [done|simplify_eq; by split|]. destruct (GetN Hash (Hasher h) key n) as [r|]; [|done]. cbn [mbind option_bind] in E.
  destruct r; (destruct (memo_set _ _ _ _) as [c2|]; [|done]); cbn [mbind option_bind] in E; simplify_eq; by split.
Qed.

Lemma named_same (h h' : ConstHasher) (n : Z) (key : string) : same_ring h h' -> named_servers Hash n key h' = named_servers Hash n key h.
Proof. intros [E F]. unfold named_servers, some_servers. by rewrite E, F. Qed.

Lemma routes_same (hs hs' : list ConstHasher) (n : Z) (it : SplitItem) : Forall2 same_ring hs hs' -> routes Hash n hs' it = routes Hash n hs it.
Proof. intros Hs. unfold routes. induction Hs as [|h h' hs hs' Hh Hs IH]; [done|]. cbn. by rewrite IH, (named_same h h'). Qed.

Lemma exact_answers (h : ConstHasher) (key : string) (n : Z) :
  hasher_inv Hash h -> ring_exact h -> 1 <= n -> GetN Hash (Hasher h) key n <> None.
Proof.
  intros Hi He Hn. destruct (decide (circle (Hasher h) = ∅)) as [E0|Hne].
  { unfold GetN, GetN_fuel. by rewrite decide_True. }
  destruct He as [He|He]; [done|].
  assert (Hsz : (1 <= base.size (on_circle (Hasher h)))%nat).
  { apply map_choose in Hne as (p & x & Hx). destruct (base.size (on_circle (Hasher h))) eqn:Es; [|lia].
    apply size_empty_inv in Es. unfold on_circle in Es. exfalso. apply (not_elem_of_empty (C := gset string) x).
    rewrite <- Es. apply elem_of_list_to_set, list_elem_of_fmap. exists (p, x). split; [done|]. by apply elem_of_map_to_list. }
  destruct (ring_getN_servers Hash (Hasher h) key n (hi_ring _ _ Hi)) as (x & res & _ & -> & _); [lia|lia|done].
Qed.

Lemma answered_same (hs hs' : list ConstHasher) (n : Z) (it : SplitItem) : Forall2 same_ring hs hs' -> answered Hash n hs it -> answered Hash n hs' it.
Proof.
  intros Hs Ha. unfold answered in *. induction Hs as [|h h' hs hs' [E F] Hs IH]; [done|]. apply Forall_cons in Ha as [Ha Has].
  constructor; [by rewrite E|by apply IH].
Qed.

(** The messages to the servers of one hasher. *)
Lemma push_servers (it : item) (servs : list string) (s : Server) :
  exists cs, fold_left (push_one it) servs s =
    set_work s (Hashers s) (WorkQueue s ++ ((fun srv => mkOut srv (inline it.2)) <$> servs))
      (WorkerHold s ++ replicate (length servs) 1) cs /\
    forall c, cs c = counts s c + (if decide (c = WorkerValidLineCount) then Z.of_nat (length servs) else 0).
Proof.
  revert s. induction servs as [|srv servs IH]; intros s.
  - exists (counts s). cbn. rewrite !app_nil_r. split; [by destruct s|]. intros c. case_decide; lia.
  - cbn [fold_left]. destruct (IH (push_one it s srv)) as (cs & -> & Hcs). exists cs. split.
    + cbn. by rewrite <- !(assoc_L (++)).
    + intros c. rewrite Hcs. cbn. unfold up. repeat case_decide; lia.
Qed.

(** What the loop over the hashers comes to. *)
Lemma push_loop_spec (now : Z) (it : item) (todo seen : list ConstHasher) (s : Server) (pool : list nat) :
  Forall (hasher_inv Hash) todo -> small (srv_Replicas s) -> answered Hash (srv_Replicas s) todo it.2 ->
  exists hs cs k, push_loop Hash now it seen todo (set_work s (seen ++ todo) (WorkQueue s) (WorkerHold s) (counts s)) pool =
    Some (set_work s (seen ++ hs) (WorkQueue s ++ routes Hash (srv_Replicas s) todo it.2)
            (WorkerHold s ++ replicate (length (routes Hash (srv_Replicas s) todo it.2)) 1) cs, pool ++ replicate k it.1) /\
    Forall2 same_ring todo hs /\ Forall (hasher_inv Hash) hs /\ (k <= length todo)%nat /\
    (forall c, c <> UnsendableSendCount -> cs c = counts s c +
      (if decide (c = WorkerValidLineCount) then Z.of_nat (length (routes Hash (srv_Replicas s) todo it.2)) else 0)).
Proof.
  intros Hinv Hn. revert seen s pool Hn. induction Hinv as [|h todo Hh Hinv IH]; intros seen s pool Hn Hans.
  - exists [], (counts s), 0%nat. cbn. rewrite !app_nil_r. split_and!; [done|constructor|constructor|lia|]. intros c _. case_decide; lia.
  - apply Forall_cons in Hans as [Ha Hans]. destruct (GetN Hash (Hasher h) (inkey it.2) (srv_Replicas s)) as [r|] eqn:Er; [|done].
    destruct (hasher_GetN_ok Hash h now (inkey it.2) (srv_Replicas s) r Hh Hn Er) as (err & h' & E & Hh').
    destruct (GetN_same _ _ _ _ _ _ _ E) as [Hsame Herr].
    assert (Hnamed : named_servers Hash (srv_Replicas s) (inkey it.2) h = some_servers h r) by (unfold named_servers; by rewrite Er).
    cbn [push_loop set_work srv_Replicas Hashers WorkQueue WorkerHold counts]. rewrite E. cbn [mbind option_bind].
    assert (Hroutes : routes Hash (srv_Replicas s) (h :: todo) it.2 =
      ((fun srv => mkOut srv (inline it.2)) <$> some_servers h r) ++ routes Hash (srv_Replicas s) todo it.2)
      by (unfold routes; cbn; by rewrite Hnamed).
    rewrite Hroutes. set (ms := (fun srv => mkOut srv (inline it.2)) <$> some_servers h r).
    assert (Hms : length ms = length (some_servers h r)) by apply length_fmap.
    destruct err as [e|].
    + specialize (Herr ltac:(done)). assert (ms = []) as -> by (unfold ms; by rewrite Herr).
      destruct (IH (seen ++ [h']) (set_work s [] (WorkQueue s) (WorkerHold s) (up UnsendableSendCount 1 (counts s))) pool Hn Hans)
        as (hs & cs & k & Eq & Hs & Hi & Hk & Hcs).
      cbn in Eq. rewrite <- (assoc_L (++)) in Eq. exists (h' :: hs), cs, k. rewrite <- (assoc_L (++)) in Eq.
      split_and!; [exact Eq|by constructor|by constructor|cbn; lia|]. intros c Hc. rewrite Hcs by done. cbn. unfold up. by rewrite decide_False by done.
    + destruct (push_servers it (some_servers h r) (set_work s (seen ++ h' :: todo) (WorkQueue s) (WorkerHold s) (counts s))) as (cs1 & Ep & Hcs1).
      change (set_work (set_work s _ _ _ _) (seen ++ h' :: todo) (WorkQueue s) (WorkerHold s) (counts s))
        with (set_work s (seen ++ h' :: todo) (WorkQueue s) (WorkerHold s) (counts s)). rewrite Ep.
      destruct (IH (seen ++ [h']) (set_work s [] (WorkQueue s ++ ms) (WorkerHold s ++ replicate (length ms) 1) cs1) (pool ++ [it.1]) Hn Hans)
        as (hs & cs & k & Eq & Hs & Hi & Hk & Hcs).
      cbn in Eq. rewrite <- !(assoc_L (++)) in Eq. exists (h' :: hs), cs, (S k).
      split_and!; [|by constructor|by constructor|cbn; lia|].
      * rewrite Hms in Eq. etrans; [exact Eq|]. by rewrite length_app, replicate_add, Hms.
      * intros c Hc. rewrite Hcs by done. cbn. rewrite Hcs1, length_app, Hms. cbn. case_decide; lia.
Qed.

(** A server that has dealt with items: the rings are the same, and the
    filters, but for the lines of the accumulator. *)
Definition filter_like (pf pf' : option (PreReg (Regexp := Regexp))) : Prop :=
  (forall it, fate_of re_Match pf' it = fate_of re_Match pf it) /\ running pf' = running pf.

Record serves (s s' : Server) : Prop := {
  sv_hashers : Forall2 same_ring (Hashers s) (Hashers s');
  sv_inv : Forall (hasher_inv Hash) (Hashers s');
  sv_replicas : srv_Replicas s' = srv_Replicas s;
  sv_null : DevNullOut s' = DevNullOut s;
  sv_filter : filter_like (PreRegFilter s) (PreRegFilter s')
}.

(** The items of a fate. *)
Definition of_fate (f : fate) (pf : option (PreReg (Regexp := Regexp))) (its : list (bool * bool * item)) : list SplitItem :=
  filter (fun it => fate_of re_Match pf it = f) ((fun x => x.2.2) <$> its).

Definition held (l : list Z) : Z := foldr Z.add 0 l.

Lemma held_app (a b : list Z) : held (a ++ b) = held a + held b.
Proof. unfold held. induction a as [|x a IH]; cbn; [done|]. rewrite IH. lia. Qed.

Lemma held_replicate (n : nat) : held (replicate n 1) = Z.of_nat n.
Proof. unfold held. induction n as [|n IH]; [done|]. cbn [replicate foldr]. rewrite IH. lia. Qed.

#[local] Arguments held : simpl never.

(** What one item changes. *)
Record one_done (s s' : Server) (it : SplitItem) : Prop := {
  od_work : WorkQueue s' = WorkQueue s ++ match fate_of re_Match (PreRegFilter s) it with Farmed => routes Hash (srv_Replicas s) (Hashers s) it | _ => [] end;
  od_acc : queued (PreRegFilter s') = queued (PreRegFilter s) ++ match fate_of re_Match (PreRegFilter s) it with Accumulated => [inline it] | _ => [] end;
  od_hold : held (WorkerHold s') = held (WorkerHold s) +
    match fate_of re_Match (PreRegFilter s) it with Farmed => Z.of_nat (length (routes Hash (srv_Replicas s) (Hashers s) it)) - 1 | _ => 0 end;
  od_valid : counts s' WorkerValidLineCount = counts s WorkerValidLineCount +
    match fate_of re_Match (PreRegFilter s) it with Farmed => Z.of_nat (length (routes Hash (srv_Replicas s) (Hashers s) it)) | _ => 0 end;
  od_rejected : counts s' RejectedLinesCount = counts s RejectedLinesCount + match fate_of re_Match (PreRegFilter s) it with Rejected => 1 | _ => 0 end;
  od_redirected : counts s' RedirectedLinesCount = counts s RedirectedLinesCount
}.

Lemma farm_done (now : Z) (late own : bool) (s : Server) (pool : list nat) (it : item) :
  Forall (hasher_inv Hash) (Hashers s) -> small (srv_Replicas s) -> DevNullOut s = false -> answered Hash (srv_Replicas s) (Hashers s) it.2 ->
  fate_of re_Match (PreRegFilter s) it.2 = Farmed ->
  exists s' pool', SendtoOutputWorkers Hash now late own s pool it = Some (s', pool') /\ serves s s' /\ one_done s s' it.2.
Proof.
  intros Hi Hn Hd Ha Hfate. destruct (push_loop_spec now it (Hashers s) [] s pool Hi Hn Ha) as (hs & cs & k & E & Hs & Hi' & _ & Hcs).
  cbn [app] in E. set (s1 := set_work s hs _ _ cs) in E. set (ms := routes Hash (srv_Replicas s) (Hashers s) it.2) in *.
  assert (Ep : PushLineToBackend Hash now s pool it = Some (s1, pool ++ replicate k it.1)).
  { unfold PushLineToBackend. rewrite Hd, <- E. f_equal. by destruct s. }
  unfold SendtoOutputWorkers. rewrite Ep. cbn [mbind option_bind]. eexists _, _. split; [reflexivity|].
  assert (Hserves : forall s', Hashers s' = hs -> srv_Replicas s' = srv_Replicas s -> DevNullOut s' = DevNullOut s -> PreRegFilter s' = PreRegFilter s -> serves s s').
  { intros s' Eh Er En Ef. split; rewrite ?Eh, ?Er, ?En, ?Ef; done. }
  assert (Hdone : forall s', WorkQueue s' = WorkQueue s1 -> WorkerHold s' = WorkerHold s1 ++ [-1] -> PreRegFilter s' = PreRegFilter s ->
    (forall c, c <> FailSendCount -> counts s' c = cs c) -> one_done s s' it.2).
  { intros s' Ew Eh Ef Ec. split; rewrite ?Hfate, ?Ew, ?Eh, ?Ef, ?app_nil_r; fold ms; try done.
    - cbn. rewrite !held_app, held_replicate. change (held [-1]) with (-1). lia.
    - rewrite Ec, Hcs by done. by rewrite decide_True by done.
    - rewrite Ec, Hcs by done. by rewrite decide_False by done.
    - rewrite Ec, Hcs by done. rewrite decide_False by done. lia. }
  split; [apply Hserves|apply Hdone]; destruct late; try (by destruct (own && _)); try done.
  intros c Hc. cbn. unfold up. by rewrite decide_False by done.
Qed.

(** One item, whatever happens to it. *)
Lemma item_done (now : Z) (late own : bool) (bk : Backends) (name : string) (pool : list nat) (s : Server) (it : item) :
  bk !! name = Some s -> Forall (hasher_inv Hash) (Hashers s) -> small (srv_Replicas s) -> DevNullOut s = false -> running (PreRegFilter s) = true ->
  answered Hash (srv_Replicas s) (Hashers s) it.2 ->
  exists s' pool', ProcessSplitItem Hash re_Match now late own bk name pool (Some it) = Some (<[name := s']> bk, pool') /\ serves s s' /\ one_done s s' it.2.
Proof.
  intros Hb Hi Hn Hd Hr Ha. unfold ProcessSplitItem. rewrite Hb. cbn [mbind option_bind].
  assert (Hself : forall s', Hashers s' = Hashers s -> srv_Replicas s' = srv_Replicas s -> DevNullOut s' = DevNullOut s ->
    filter_like (PreRegFilter s) (PreRegFilter s') -> serves s s').
  { intros s' Eh Er En Ef. by split; rewrite ?Eh. }
  assert (Hfarm : fate_of re_Match (PreRegFilter s) it.2 = Farmed -> exists s' pool',
    ('(s, pool) ← SendtoOutputWorkers Hash now late own s pool it; Some (<[name := s]> bk, pool)) = Some (<[name := s']> bk, pool') /\ serves s s' /\ one_done s s' it.2).
  { intros Hfate. destruct (farm_done now late own s pool it Hi Hn Hd Ha Hfate) as (s' & pool' & -> & Hs). by exists s', pool'. }
  destruct (PreRegFilter s) as [pr|] eqn:Ef; [|by apply Hfarm].
  destruct (FirstMatchBackend re_Match pr (inkey it.2)) as [useBackend reject] eqn:Em.
  assert (Hfate : fate_of re_Match (Some pr) it.2 = if reject then Rejected else match pr_Accumulator pr with Some _ => Accumulated | None => Farmed end)
    by (unfold fate_of; by rewrite Em).
  destruct reject.
  - eexists _, pool. split; [done|]. split; [apply Hself; try done; cbn; rewrite Ef; done|].
    split; cbn; rewrite ?Ef, ?Hfate, ?app_nil_r; unfold up; repeat case_decide; try done; lia.
  - destruct (pr_Accumulator pr) as [a|] eqn:Ea; [|].
    + eexists _, _. split; [done|]. cbn in Hr. rewrite Ea in Hr. apply negb_true_iff in Hr. split.
      * apply Hself; try done. split; [intros it'; unfold fate_of, FirstMatchBackend; cbn; by rewrite ?Ea|].
        cbn. unfold ac_ProcessSplitItem, ac_ProcessLine. rewrite Ea, Hr. done.
      * split; cbn; rewrite ?Ef, ?Hfate, ?app_nil_r; try lia; [done|]. unfold queued, ac_ProcessSplitItem, ac_ProcessLine. cbn. by rewrite Ea, Hr.
    + rewrite andb_false_r. by apply Hfarm.
Qed.

Lemma bind_routes_same (hs hs' : list ConstHasher) (n : Z) (l : list SplitItem) :
  Forall2 same_ring hs hs' -> l ≫= routes Hash n hs' = l ≫= routes Hash n hs.
Proof. intros Hs. induction l as [|it l IH]; [done|]. cbn. by rewrite IH, (routes_same hs hs'). Qed.

Lemma of_fate_like (pf pf' : option (PreReg (Regexp := Regexp))) (f : fate) (its : list (bool * bool * item)) :
  filter_like pf pf' -> of_fate f pf' its = of_fate f pf its.
Proof.
  intros [Hl _]. unfold of_fate. apply list_filter_iff. intros it. by rewrite Hl.
Qed.

Lemma of_fate_cons (f : fate) (pf : option (PreReg (Regexp := Regexp))) (x : bool * bool * item) (its : list (bool * bool * item)) :
  of_fate f pf (x :: its) = (if decide (fate_of re_Match pf x.2.2 = f) then [x.2.2] else []) ++ of_fate f pf its.
Proof. unfold of_fate. cbn [fmap list_fmap]. rewrite filter_cons. destruct (decide _); done. Qed.

(** The lines of a server whose rings answer for the keys. *)
Lemma answered_routed (now : Z) (bk : Backends) (name : string) (pool : list nat) (s : Server) (its : list (bool * bool * item)) :
  bk !! name = Some s -> Forall (hasher_inv Hash) (Hashers s) -> small (srv_Replicas s) -> DevNullOut s = false -> running (PreRegFilter s) = true ->
  Forall (fun x => answered Hash (srv_Replicas s) (Hashers s) x.2.2) its ->
  let messages := of_fate Farmed (PreRegFilter s) its ≫= routes Hash (srv_Replicas s) (Hashers s) in
  exists s' pool', process_all Hash re_Match now bk name pool its = Some (<[name := s']> bk, pool') /\
    WorkQueue s' = WorkQueue s ++ messages /\
    queued (PreRegFilter s') = queued (PreRegFilter s) ++ (inline <$> of_fate Accumulated (PreRegFilter s) its) /\
    counts s' RejectedLinesCount = counts s RejectedLinesCount + Z.of_nat (length (of_fate Rejected (PreRegFilter s) its)) /\
    counts s' RedirectedLinesCount = counts s RedirectedLinesCount /\
    counts s' WorkerValidLineCount = counts s WorkerValidLineCount + Z.of_nat (length messages) /\
    held (WorkerHold s') = held (WorkerHold s) + Z.of_nat (length messages) - Z.of_nat (length (of_fate Farmed (PreRegFilter s) its)).
Proof.
  intros Hb. revert bk pool s Hb. induction its as [|[[late own] it] its IH]; intros bk pool s Hb Hi Hn Hd Hr Ha messages.
  - exists s, pool. unfold messages. cbn [process_all of_fate fmap list_fmap filter list_filter mbind list_bind length app].
    rewrite !app_nil_r, insert_id by done. split_and!; try done; lia.
  - apply Forall_cons in Ha as [Ha Has]. cbn [snd] in Ha.
    destruct (item_done now late own bk name pool s it Hb Hi Hn Hd Hr Ha) as (s1 & pool1 & E & [Hsame Hi1 Hn1 Hd1 Hf1] & [Dw Da Dh Dv Drj Drd]).
    cbn [process_all]. rewrite E. cbn [mbind option_bind].
    destruct (IH (<[name := s1]> bk) pool1 s1) as (s' & pool' & E' & Ew & Eq & Erj & Erd & Ev & Eh); rewrite ?Hn1, ?Hd1; try done.
    + apply lookup_insert_eq.
    + by destruct Hf1 as [_ ->].
    + apply (Forall_impl _ _ _ Has). intros x. by apply answered_same.
    + rewrite insert_insert_eq in E'. exists s', pool'.
      rewrite (of_fate_like _ _ Farmed its Hf1), (of_fate_like _ _ Accumulated its Hf1), (of_fate_like _ _ Rejected its Hf1), Hn1,
        (bind_routes_same _ _ _ _ Hsame) in *.
      unfold messages. rewrite !of_fate_cons. cbn [snd]. rewrite Ew, Eq, Erj, Erd, Ev, Eh, Dw, Da, Dh, Dv, Drj, Drd.
      rewrite !length_app, <- !(assoc_L (++)), fmap_app, bind_app.
      destruct (fate_of re_Match (PreRegFilter s) it.2); split_and!; try done; repeat case_decide; try done; cbn [app mbind list_bind fmap list_fmap length];
        rewrite ?app_nil_r, ?length_app; try done; cbn; lia.
Qed.

(** C3: Routing.  Take a server whose hashers are good -- cached answers that
    are the ring's, no server counted as down or dropped, and a ring that is
    sorted and is empty or whose count is the number of servers that have a
    point on it -- that makes between 1 and 255 copies, does not throw its lines away,
    and whose accumulator, if there is one, has not been shut down.
    Whatever lines it deals with, one after the other, and however the waits
    for its queues end: nothing panics; a line that a filter rejects is
    counted and goes nowhere, one for the accumulator is queued there, and
    every other line is put into the work queue once for each server that
    the rings of the hashers name for its key, in order, as if there were no
    caches.  No line is ever redirected to another backend, and no other
    backend changes.  The number of workers that are held grows by the
    copies of a line less one. *)
Theorem lines_routed (now : Z) (bk : Backends) (name : string) (pool : list nat) (s : Server) (its : list (bool * bool * item)) :
  bk !! name = Some s -> Forall (hasher_inv Hash) (Hashers s) -> Forall ring_exact (Hashers s) -> 1 <= srv_Replicas s < 256 -> DevNullOut s = false -> running (PreRegFilter s) = true ->
  let messages := of_fate Farmed (PreRegFilter s) its ≫= routes Hash (srv_Replicas s) (Hashers s) in
  exists s' pool', process_all Hash re_Match now bk name pool its = Some (<[name := s']> bk, pool') /\
    WorkQueue s' = WorkQueue s ++ messages /\
    queued (PreRegFilter s') = queued (PreRegFilter s) ++ (inline <$> of_fate Accumulated (PreRegFilter s) its) /\
    counts s' RejectedLinesCount = counts s RejectedLinesCount + Z.of_nat (length (of_fate Rejected (PreRegFilter s) its)) /\
    counts s' RedirectedLinesCount = counts s RedirectedLinesCount /\
    counts s' WorkerValidLineCount = counts s WorkerValidLineCount + Z.of_nat (length messages) /\
    held (WorkerHold s') = held (WorkerHold s) + Z.of_nat (length messages) - Z.of_nat (length (of_fate Farmed (PreRegFilter s) its)).
Proof.
  intros Hb Hi He Hn Hd Hr. apply answered_routed; try done; [split; lia|]. apply Forall_forall. intros x _.
  apply Forall_forall. intros h Hh. rewrite Forall_forall in Hi, He. apply exact_answers; [by apply Hi|by apply He|lia].
Qed.

(** The mark of an accumulated item makes no difference: the server gives
    it to its accumulator again. *)
Lemma marks_ignored (pf : option (PreReg (Regexp := Regexp))) (a : Accumulator (Regexp := Regexp)) (it : SplitItem) :
  fate_of re_Match pf (mark a it) = fate_of re_Match pf it.
Proof. done. Qed.

(** A turn of a worker: the item it takes is dealt with as above, and the
    size of the line is added to the size of the buffers and taken off. *)
Lemma worker_turn_done (tcp : bool) (now : Z) (late : bool) (bk : Backends) (name : string) (pool : list nat) (s : Server) (it : item) (rest : list item) :
  bk !! name = Some s -> InputQueue s = it :: rest -> Forall (hasher_inv Hash) (Hashers s) -> small (srv_Replicas s) -> DevNullOut s = false ->
  running (PreRegFilter s) = true -> answered Hash (srv_Replicas s) (Hashers s) it.2 ->
  exists s0 s1 s' pool', worker_turn Hash re_Match tcp now late bk name pool = Some (<[name := s']> bk, pool') /\
    serves s0 s1 /\ one_done s0 s1 it.2 /\ Hashers s0 = Hashers s /\ WorkQueue s0 = WorkQueue s /\ PreRegFilter s0 = PreRegFilter s /\
    srv_Replicas s0 = srv_Replicas s /\ WorkQueue s' = WorkQueue s1 /\ PreRegFilter s' = PreRegFilter s1.
Proof.
  intros Hb Hq Hi Hn Hd Hr Ha. unfold worker_turn. rewrite Hb. cbn [mbind option_bind]. rewrite Hq.
  set (s0 := if tcp && _ then _ else _).
  assert (H0 : Hashers s0 = Hashers s /\ WorkQueue s0 = WorkQueue s /\ PreRegFilter s0 = PreRegFilter s /\ srv_Replicas s0 = srv_Replicas s /\ DevNullOut s0 = DevNullOut s).
  { unfold s0, BackPressure. repeat case_match; done. }
  destruct H0 as (Eh & Ew & Ef & Er & Ed).
  destruct (item_done now late false (<[name := s0]> bk) name pool s0 it) as (s1 & pool1 & E & Hs & Ho); rewrite ?Eh, ?Ef, ?Er, ?Ed; try done.
  { apply lookup_insert_eq. }
  rewrite E. cbn [mbind option_bind]. rewrite insert_insert_eq, lookup_insert_eq. cbn [mbind option_bind]. rewrite insert_insert_eq.
  eexists s0, s1, _, pool1. split; [reflexivity|]. split_and!; try done; by destruct tcp.
Qed.

(** ** The writers *)

(** What one try leaves with the connections. *)
Definition try_sent (line : string) (t : attempt) (sent : list string) (err : option goerror) : Prop :=
  match err with
  | None => sent = [line] /\ exists by_, at_wrote t = Wrote by_
  | Some _ => sent = [] \/ exists took, at_wrote t = WriteFailed took /\ sent = part_sent line took
  end.

Definition success (err : option goerror) : Z := match err with Some _ => 0 | None => 1 end.

Lemma PoolWriter_spec (s s' : Server) (j : OutputMessage) (t : attempt) (sent : list string) (err : option goerror) :
  PoolWriter_Write s j t = (s', sent, err) ->
  try_sent (param j +:+ String newline "") t sent err /\ counts s' SuccessSendCount = counts s SuccessSendCount + success err.
Proof.
  unfold PoolWriter_Write, make_pool, fail_send, try_sent, success. intros E. destruct (at_wrote t) as [by_|took] eqn:Ew;
  repeat match goal with
         | H : context [match ?x with _ => _ end] |- _ => let E := fresh in destruct x eqn:E; cbn in *; simplify_eq
         end; cbn; unfold up; repeat case_decide; try done; split_and!; try lia; eauto.
Qed.

Lemma SingleWriter_spec (s s' : Server) (j : OutputMessage) (t : attempt) (sent : list string) (err : option goerror) :
  SingleWriter_Write s j t = (s', sent, err) ->
  try_sent (param j +:+ String newline "") t sent err /\ counts s' SuccessSendCount = counts s SuccessSendCount + success err.
Proof.
  unfold SingleWriter_Write, fail_send, try_sent, success. intros E. destruct (at_wrote t) as [by_|took] eqn:Ew;
  repeat match goal with
         | H : context [match ?x with _ => _ end] |- _ => let E := fresh in destruct x eqn:E; cbn in *; simplify_eq
         end; cbn; unfold up; repeat case_decide; try done; split_and!; try lia; eauto.
Qed.

Lemma part_sent_prefix (line : string) (took : nat) : Forall (fun p => String.prefix p line = true) (part_sent line took).
Proof.
  unfold part_sent. assert (Hp : String.prefix (String.substring 0 took line) line = true).
  { revert took. induction line as [|a line IH]; intros [|took]; cbn; try done. destruct (Ascii.ascii_dec a a); [apply IH|done]. }
  destruct (String.substring 0 took line); [constructor|]. by repeat constructor.
Qed.

(** One try: at most one piece, a beginning of the line when it fails. *)
Lemma DoWork_spec (s s' : Server) (j : OutputMessage) (t : attempt) (sent : list string) (err : option goerror) :
  DoWork s j t = (s', sent, err) ->
  let line := param j +:+ String newline "" in
  counts s' SuccessSendCount = counts s SuccessSendCount + success err /\ (length sent <= 1)%nat /\
  match err with
  | None => sent = [line]
  | Some _ => Forall (fun p => String.prefix p line = true) sent /\ ((forall took, at_wrote t = WriteFailed took -> took = 0%nat) -> sent = [])
  end.
Proof.
  cbn zeta. set (line := param j +:+ String newline ""). intros Ed.
  assert (Hw : try_sent line t sent err /\ counts s' SuccessSendCount = counts s SuccessSendCount + success err)
    by (unfold DoWork in Ed; case_bool_decide; [by apply SingleWriter_spec in Ed|by apply PoolWriter_spec in Ed]).
  destruct Hw as [Ht Hc]. split; [done|]. destruct err as [e|]; [|by destruct Ht as [-> _]].
  destruct Ht as [->|(took & Ew & ->)]; [split; [cbn; lia|done]|]. split; [unfold part_sent; case_match; cbn; lia|].
  split; [apply part_sent_prefix|]. intros Hz. rewrite (Hz took Ew). unfold part_sent. by destruct line.
Qed.

(** C28: A message is delivered at least once, or its job fails.  However
    often it is tried and whichever way the tries fail: when the job ends
    without an error the last thing a connection was given is the line with
    its newline, and this is counted as one success; when it ends with an
    error nothing is counted.  All else that connections were given are
    beginnings of the line, at most one for each try that failed, left by
    writes that failed after taking some bytes; if no failed write took any,
    the line is sent exactly once or not at all. *)
Theorem message_delivered (s s' : Server) (j : OutputMessage) (t : attempt) (ts : list attempt) (sent : list string) (err : option goerror) :
  retry s j t ts = (s', sent, err) ->
  let line := param j +:+ String newline "" in
  let whole := match err with None => [line] | Some _ => [] end in
  counts s' SuccessSendCount = counts s SuccessSendCount + success err /\
  exists parts, sent = parts ++ whole /\ Forall (fun p => String.prefix p line = true) parts /\
    (length sent <= length (t :: ts))%nat /\
    ((forall u took, u ∈ t :: ts -> at_wrote u = WriteFailed took -> took = 0%nat) -> parts = []).
Proof.
  cbn zeta. set (line := param j +:+ String newline ""). revert s t sent. induction ts as [|t' ts IH]; intros s t sent E; cbn [retry] in E;
    destruct (DoWork s j t) as [[s1 sent1] err1] eqn:Ed; destruct (DoWork_spec _ _ _ _ _ _ Ed) as (Hc & Hl & Hs); fold line in Hs.
  - destruct err1 as [e1|]; simplify_eq.
    + destruct Hs as [Hp Hz]. split; [done|]. exists sent. rewrite app_nil_r. split_and!; [done|done|done|].
      intros Hall. apply Hz. intros took. apply Hall. by left.
    + split; [done|]. by exists [].
  - destruct err1 as [e1|]; [|simplify_eq; split; [done|]; exists []; split_and!; try done; cbn; lia].
    destruct (retry s1 j t' ts) as [[s2 sent2] err2] eqn:Er. simplify_eq.
    destruct (IH s1 t' sent2 Er) as (Hc2 & parts & -> & Hp2 & Hl2 & Hz2). destruct Hs as [Hp Hz]. unfold success in Hc.
    split; [lia|]. exists (sent1 ++ parts). rewrite <- app_assoc. split_and!; [done|by apply Forall_app|rewrite length_app; cbn in *; lia|].
    intros Hall. rewrite Hz, Hz2; [done| |].
    + intros u took Hu. apply Hall. by right.
    + intros took. apply Hall. by left.
Qed.

(** ** Start *)

(** A server starts unless its accumulator names a backend that is not
    there, in which case the start panics; when it has started, its
    accumulator knows where its lines come from, and sends its own to a
    backend that is there, or to the black hole. *)
Theorem start_needs_backend (bk : Backends) (s : Server) :
  let acc := PreRegFilter s ≫= pr_Accumulator in
  match start_wiring bk s with
  | None => exists a, acc = Some a /\ ToBackend a <> BLACK_HOLE_BACKEND /\ bk !! ToBackend a = None
  | Some s' =>
      match acc with
      | None => s' = s
      | Some a => exists a', PreRegFilter s' ≫= pr_Accumulator = Some a' /\ ToBackend a' = ToBackend a /\ FromBackend a' = srv_Name s /\
          LineQueue a' = LineQueue a /\
          (ToBackend a = BLACK_HOLE_BACKEND \/ has_output a' = true /\ is_Some (bk !! ToBackend a))
      end
  end.
Proof.
  cbn zeta. unfold start_wiring. destruct (PreRegFilter s) as [pr|]; [|done]. cbn [mbind option_bind].
  destruct (pr_Accumulator pr) as [a|]; [|done]. case_bool_decide as Hb.
  - eexists. split; [done|]. by split_and!; [| | |left].
  - destruct (bk !! ToBackend a) as [t|] eqn:Et; cbn [mbind option_bind]; [|by exists a].
    eexists. split; [done|]. split_and!; try done. by right.
Qed.

(** ** The lines of a client *)

Section lines.
Context (FindAllSubmatch : Regexp -> string -> option (list (list string))) (time_Parse : string -> string -> option Z).
Context (Unmarshal : string -> JsonStruct + goerror) (Marshal : JsonStruct -> string + goerror).

Lemma take_line_spec (k : wire) (now : Z) (pooled : option SplitItem) (addr : nat) (raw : string) (s s' : Server) :
  take_line FindAllSubmatch time_Parse Unmarshal Marshal k now pooled addr raw s = Some s' ->
  WorkQueue s' = WorkQueue s /\ srv_Name s' = srv_Name s /\
  if decide (TrimSpace raw = ""%string) then s' = s
  else counts s' AllLinesCount = counts s AllLinesCount + 1 /\
    ((exists it, InputQueue s' = InputQueue s ++ [it] /\ inorigin it.2 = wire_origin k /\ inoname it.2 = srv_Name s /\
        counts s' ValidLineCount = counts s ValidLineCount + 1 /\ counts s' InvalidLineCount = counts s InvalidLineCount) \/
     InputQueue s' = InputQueue s /\ counts s' ValidLineCount = counts s ValidLineCount /\ counts s' InvalidLineCount = counts s InvalidLineCount + 1).
Proof.
  unfold take_line. destruct (TrimSpace raw) as [|c line]; cbn [String.length Nat.eqb]; intros E; [by simplify_eq|].
  apply bind_Some in E as (r & _ & E). rewrite decide_False by done. destruct r as [spl|e]; simplify_eq; destruct k; cbn; unfold up; cbn;
    (split_and!; [done..|]); try (by right); left; by eexists.
Qed.

(** Every line a client reads that is not blank is counted, and is
    either put into the input queue, at its end and marked with where it
    comes from, or counted as not valid. *)
Theorem lines_counted (k : wire) (now : Z) (sup : supply) (lines : list string) (s s' : Server) :
  take_lines FindAllSubmatch time_Parse Unmarshal Marshal k now sup lines s = Some s' ->
  let nonblank := filter (fun l => TrimSpace l <> ""%string) lines in
  exists q, InputQueue s' = InputQueue s ++ q /\
    Forall (fun it => inorigin it.2 = wire_origin k /\ inoname it.2 = srv_Name s) q /\
    counts s' AllLinesCount = counts s AllLinesCount + Z.of_nat (length nonblank) /\
    counts s' ValidLineCount = counts s ValidLineCount + Z.of_nat (length q) /\
    counts s' InvalidLineCount = counts s InvalidLineCount + Z.of_nat (length nonblank) - Z.of_nat (length q) /\
    WorkQueue s' = WorkQueue s.
Proof.
  revert sup s. induction lines as [|l lines IH]; intros sup s E nonblank.
  - cbn in E. simplify_eq. exists []. rewrite app_nil_r. split_and!; try done; cbn; lia.
  - cbn [take_lines] in E. destruct (default (None, 0%nat) (head sup)) as [pooled addr]. apply bind_Some in E as (s1 & E1 & E).
    destruct (IH (tail sup) s1 E) as (q & Hq & Ho & Ha & Hv & Hi & Hw). unfold nonblank. rewrite filter_cons.
    destruct (take_line_spec _ _ _ _ _ _ _ E1) as (Hw1 & Hn1 & H1). rewrite Hn1, Hw1 in *. destruct (decide (TrimSpace l = ""%string)) as [Hl|Hl].
    + subst s1. rewrite decide_False by tauto. by exists q.
    + rewrite decide_True by done. cbn [length]. destruct H1 as (Ha1 & [(it & Hq1 & Ho1 & Hm1 & Hv1 & Hi1)|(Hq1 & Hv1 & Hi1)]).
      * exists (it :: q). rewrite Hq, Hq1, <- (assoc_L (++)). split_and!; try done; [by constructor|cbn [length]; lia..].
      * exists q. rewrite Hq1 in Hq. split_and!; try done; lia.
Qed.

End lines.

End routing.

(** ** Witnesses and examples *)

#[local] Existing Instance insertion_GoSort.

(** A server with two hashers of three servers, one of which is asked for
    two; a filter rejects what starts with [bad]. *)
Definition sample_filter : PreReg (Regexp := unit) := mkPreReg "main" "sample" "main" [PrefixFilter "bad" true "main"] None.

Definition sample_server (pf : option (PreReg (Regexp := unit))) (hs : list (ConstHasher (C := LRUCache CacheItem))) : Server :=
  mkSrv "main" hs 2 false pf TheStatsd [] [] [] [] [] 0 0 100000 [] false "bufferedpool" 0 0 ∅ (fun _ => 0).

Definition no_match (_ : unit) (_ : string) : bool := false.

Definition sample_item (key : string) : SplitItem :=
  mkItem StatsdSplitItem key (key +:+ ":1|c") 0 [] Parsed UDP "main" [].

Lemma lines_routed_witness :
  let s := sample_server (Some sample_filter) [three; three] in
  let its := [(false, true, (1%nat, sample_item "web.hits")); (true, true, (2%nat, sample_item "bad.hits"))] in
  length (of_fate no_match Farmed (PreRegFilter s) its ≫= routes toy_hash 2 (Hashers s)) = 4%nat /\
  exists s' pool', process_all toy_hash no_match 5 {["main"%string := s]} "main" [] its = Some (<["main"%string := s']> {["main"%string := s]}, pool') /\
    WorkQueue s' = of_fate no_match Farmed (PreRegFilter s) its ≫= routes toy_hash 2 (Hashers s) /\
    counts s' RejectedLinesCount = 1 /\ held (WorkerHold s') = 3.
Proof.
  intros s its. split; [vm_compute; reflexivity|].
  pose proof (hreach_inv _ _ three_reach) as Hi.
  destruct (lines_routed toy_hash no_match 5 {["main"%string := s]} "main" [] s its) as (s' & pool' & E & Hw & _ & Hr & _ & _ & Hh).
  - apply lookup_singleton_eq.
  - constructor; [exact Hi|]. constructor; [exact Hi|constructor].
  - repeat constructor; right; vm_compute; reflexivity.
  - done.
  - done.
  - done.
  - exists s', pool'. split; [exact E|]. split; [exact Hw|]. split; [rewrite Hr; vm_compute; reflexivity|rewrite Hh; vm_compute; reflexivity].
Defined.

(** The item of a line with two hashers is put back into the pool twice. *)
Example item_pooled_twice :
  option_map snd (PushLineToBackend toy_hash 5 (sample_server None [three; three]) [] (7%nat, sample_item "web.hits")) = Some [7%nat; 7%nat].
Proof. vm_compute. reflexivity. Qed.

(** A late queue counts the line as failed, although it was sent. *)
Example late_is_sent :
  match SendtoOutputWorkers toy_hash 5 true true (sample_server None [three]) [] (7%nat, sample_item "web.hits") with
  | Some (s, _) => counts s FailSendCount = 1 /\ counts s WorkerValidLineCount = 2 /\ length (WorkQueue s) = 2%nat
  | None => False
  end.
Proof. vm_compute. done. Qed.

(** The last line of a body is lost when no newline follows it, except in a
    datagram. *)
Example last_line_lost :
  let data := ("a:1|c" +:+ String newline "b:2|c")%string in
  let s := sample_server None [] in
  let n r := option_map (fun s => length (InputQueue s)) r in
  n (stream_lines (fun _ _ => None) (fun _ _ => None) (fun _ => inr (GoError "")) (fun _ => inr (GoError "")) WireHTTP 5 [] data s) = Some 1%nat /\
  n (procLines (fun _ _ => None) (fun _ _ => None) (fun _ => inr (GoError "")) (fun _ => inr (GoError "")) 5 [] data s) = Some 2%nat.
Proof. split; vm_compute; reflexivity. Qed.

(** A pool that cannot be filled is an error that no counter shows. *)
Example init_failure_uncounted :
  let s := sample_server None [] in
  let r := PoolWriter_Write s (mkOut "tcp://a:1" "a:1|c") (mkAttempt (Some ("tcp", "a:1")%string) false true true (Wrote 6)) in
  counts r.1.1 FailSendCount = 0 /\ r.1.2 = [] /\ r.2 <> None.
Proof. vm_compute. done. Qed.

Lemma message_delivered_witness :
  let s := sample_server None [] in
  let fail := mkAttempt (Some ("tcp", "a:1")%string) true false true (Wrote 6) in
  let cut := mkAttempt (Some ("tcp", "a:1")%string) true true true (WriteFailed 2) in
  let good := mkAttempt (Some ("tcp", "a:1")%string) true true true (Wrote 6) in
  exists s' parts, retry s (mkOut "tcp://a:1" "a:1|c") fail [cut; good; good] = (s', parts ++ ["a:1|c" +:+ String newline ""]%string, None) /\
    Forall (fun p => String.prefix p ("a:1|c" +:+ String newline "") = true) parts /\ counts s' SuccessSendCount = 1.
Proof.
  intros s fail cut good. destruct (retry s (mkOut "tcp://a:1" "a:1|c") fail [cut; good; good]) as [[s' sent] err] eqn:E.
  assert (err = None) as -> by (vm_compute in E; by injection E).
  destruct (message_delivered s s' _ fail [cut; good; good] sent None E) as (Hc & parts & -> & Hp & _).
  exists s', parts. split; [reflexivity|]. split; [exact Hp|exact Hc].
Defined.

(** A write that fails after it has taken all bytes makes the line go out
    twice. *)
Example line_sent_twice :
  let t r := mkAttempt (Some ("tcp", "a:1")%string) true true true r in
  let line := ("a:1|c" +:+ String newline "")%string in
  (retry (sample_server None []) (mkOut "tcp://a:1" "a:1|c") (t (WriteFailed 6)) [t (Wrote 6)]).1.2 = [line; line].
Proof. vm_compute. reflexivity. Qed.

Lemma lines_counted_witness :
  let s := sample_server None [] in
  let lines := ["a:1|c"; "  "; "nonsense"]%string in
  exists s', take_lines (fun _ _ => None) (fun _ _ => None) (fun _ => inr (GoError "")) (fun _ => inr (GoError "")) WireUDP 5 [] lines s = Some s' /\
    counts s' AllLinesCount = 2 /\ exists q, InputQueue s' = q /\ counts s' ValidLineCount = Z.of_nat (length q).
Proof.
  intros s lines.
  destruct (take_lines (fun _ _ => None) (fun _ _ => None) (fun _ => inr (GoError "")) (fun _ => inr (GoError "")) WireUDP 5 [] lines s) as [s'|] eqn:E;
    [|by vm_compute in E].
  exists s'. split; [reflexivity|]. destruct (lines_counted _ _ _ _ WireUDP 5 [] lines s s' E) as (q & Hq & _ & Ha & Hv & _).
  split; [rewrite Ha; vm_compute; reflexivity|]. exists q. split; [exact Hq|exact Hv].
Defined.
