(* ===== verification/HasherConf.v ===== *)
(** The configuration of the servers: [config/hashers.go], the parts of
    [NewServer] and [CreateServer] in [server.go] that carry it over, and
    the loop of [RunConstHasher] in [cmd/cadent/cadent.go] that makes the
    servers.

    The sections of a file come as a map, decoded by libraries; the order in
    which Go walks over a map is an argument, a list with the entries of the
    map.  [url.Parse], the printing of a URL, the compiler of regular
    expressions and the names of their groups are parameters.  The sections
    are distinct objects, so that changing one in place is an update of the
    map; [defaults] is the default section, whose fields that are read are
    never changed.  Keys and certificates of TLS, which are passed on
    unread, and the printing of the configuration are left out. *)
From S2P Require Import Prelude Float64 Wire GoStrings GoSort GoParse LRU Tags Repr Aggs Splitter Formatter StatItem Accumulate Accumulator Prereg.
From S2P Require Import Consistent ConsistentTheorems HasherPool Routing.
From Stdlib Require Import Ascii.

Open Scope Z_scope.

Definition DEFAULT_CONFIG_SECTION : string := "default".
Definition DEFAULT_BACKEND_ONLY : string := "backend_only".
Definition DEFAULT_LISTEN : string := "tcp://127.0.0.1:6000".
Definition DEFAULT_HEARTBEAT_COUNT : Z := 3.
Definition DEFAULT_HEARTBEAT : Z := 30.
Definition DEFAULT_HEARTBEAT_TIMEOUT : Z := 5.
Definition DEFAULT_SERVERDOWN_POLICY : string := "keep".
Definition DEFAULT_HASHER_ALGO : string := "mmh3".
Definition DEFAULT_HASHER_ELTER : string := "simple".
Definition DEFAULT_HASHER_VNODES : Z := 4.
Definition DEFAULT_DUPE_REPLICAS : Z := 1.
Definition DEFAULT_MAX_POOL_CONNECTIONS : Z := 10.

Definition DEFAULT_SENDING_CONNECTIONS_METHOD : string := "bufferedpool".
Definition DEFAULT_READ_BUFFER_SIZE : Z := 4096.

(** ** Strings *)

(** [strings.Trim] with the set of the blank, the tab and the newline. *)
Definition in_cutset (a : ascii) : bool := Ascii.eqb a " " || Ascii.eqb a "009" || Ascii.eqb a "010".

Fixpoint cut_left (s : string) : string :=
  match s with
  | EmptyString => ""
  | String a s' => if in_cutset a then cut_left s' else s
  end.

Fixpoint cut_right (s : string) : string :=
  match s with
  | EmptyString => ""
  | String a s' =>
      match cut_right s' with
      | EmptyString => if in_cutset a then "" else String a ""
      | r => String a r
      end
  end.

Definition Trim (s : string) : string := cut_right (cut_left s).

(** ** Values with a default *)

(** A field that is zero, not positive or empty takes the value of the
    default section, if there is one, or the program's own. *)
Definition if_zero (v own dflt : Z) : Z := if v =? 0 then if 0 <? dflt then dflt else own else v.
Definition if_not_positive (v own dflt : Z) : Z := if v <=? 0 then if 0 <? dflt then dflt else own else v.
Definition if_empty (v own dflt : string) : string :=
  if bool_decide (v = ""%string) then if bool_decide (dflt <> ""%string) then dflt else own else v.

Section conf.
Context `{!GoSort} (Hash : HashAlgo -> string -> Z).
Context {C : Type} {HC : HasherCache C} (new_cache : Z -> C).
Context {URL : Type} (url_Parse : string -> URL + goerror) (url_String : URL -> string).
Context {Regexp : Type} (Compile : string -> option Regexp) (SubexpNames : Regexp -> list string).

Record ParsedServerConfig := mkParsed {
  ServerMap : gmap string URL;
  HashkeyToServer : gmap string string;
  ps_ServerList : list string;
  HashkeyList : list string;
  ServerUrls : list URL;
  CheckMap : gmap string URL;
  CheckList : list string;
  CheckUrls : list URL
}.

Definition no_servers : ParsedServerConfig := mkParsed ∅ ∅ [] [] [] ∅ [] [].

Record HasherServerList := mkList {
  sl_CheckServers : list string;
  sl_Servers : list string;
  sl_HashKeys : list string
}.

Record HasherConfig := mkConf {
  cf_Name : string;
  cf_StatsTick : bool;
  cf_MaxPoolConnections : Z;
  cf_MaxWritePoolBufferSize : Z;
  cf_SendingConnectionMethod : string;
  cf_MsgType : string;
  cf_MsgFormatRegEx : string;
  cf_ListenStr : string;
  cf_ServerHeartBeat : Z;
  cf_ServerHeartBeatTimeout : Z;
  cf_MaxServerHeartBeatFail : Z;
  cf_ServerDownPolicy : string;
  cf_CacheItems : Z;
  cf_Replicas : Z;
  cf_HashAlgo : string;
  cf_HashElter : string;
  cf_HashVNodes : Z;
  cf_ClientReadBufferSize : Z;
  cf_MaxReadBufferSize : Z;
  cf_WriteTimeout : Z;
  cf_SplitterTimeout : Z;
  cf_ConfServerList : list HasherServerList;
  cf_Workers : Z;
  cf_OutWorkers : Z;
  cf_ListenURL : option URL;
  cf_DevNullOut : bool;
  cf_ServerLists : list ParsedServerConfig;
  cf_PreRegFilter : option (PreReg (Regexp := Regexp));
  cf_ComRegEx : option Regexp;
  cf_ComRegExNames : list string;
  cf_MsgConfig : gmap string confval;
  cf_OkToUse : bool
}.

Abbreviation HasherServers := (gmap string HasherConfig).

(** ** A list of servers *)

Definition errNoServers : goerror := GoError "No 'servers' in config section, skipping".
Definition errCheckCount : goerror := GoError "need to have a servers count be the same as check_servers".
Definition errKeyCount : goerror := GoError "need to have a servers count be the same as hashkeys".
Definition errServersUnique : goerror := GoError "Servers need to be unique".
Definition errKeysUnique : goerror := GoError "Hashkeys need to be unique".

(** The loop of [parseServerList]; a missing check or key is an index out
    of range. *)
Fixpoint parse_lines (p : ParsedServerConfig) (servers checks keys : list string) : outcome ParsedServerConfig :=
  match servers with
  | [] => Ok p
  | s :: servers =>
      let line := Trim s in
      if (String.length line =? 0)%nat then parse_lines p servers (tail checks) (tail keys)
      else
        match checks, keys with
        | ck :: checks, hashkeyLine :: keys =>
            let checkLine := Trim ck in
            match url_Parse line with
            | inr err => Err err
            | inl server_url =>
                if bool_decide (is_Some (ServerMap p !! line)) then Err errServersUnique
                else if bool_decide (is_Some (HashkeyToServer p !! hashkeyLine)) then Err errKeysUnique
                else
                  match url_Parse checkLine with
                  | inr err => Err err
                  | inl check_url =>
                      parse_lines
                        (mkParsed (<[line := server_url]> (ServerMap p)) (<[hashkeyLine := line]> (HashkeyToServer p))
                           (ps_ServerList p ++ [line]) (HashkeyList p ++ [hashkeyLine]) (ServerUrls p ++ [server_url])
                           (<[checkLine := check_url]> (CheckMap p)) (CheckList p ++ [checkLine]) (CheckUrls p ++ [check_url]))
                        servers checks keys
                  end
            end
        | _, _ => Panic
        end
  end.

Definition parseServerList (servers checkservers hashkeys : list string) : outcome ParsedServerConfig :=
  if (length servers =? 0)%nat then Err errNoServers
  else if negb (length checkservers =? 0)%nat && negb (length checkservers =? length servers)%nat then Err errCheckCount
  else if negb (length hashkeys =? 0)%nat && negb (length hashkeys =? length servers)%nat then Err errKeyCount
  else
    parse_lines no_servers servers (if (length checkservers =? 0)%nat then servers else checkservers)
      (if (length hashkeys =? 0)%nat then servers else hashkeys).

(** The lists of a section, and the number of servers of the smallest: a
    count of zero stands for none so far.  The minimum of two small numbers
    as floats is exact. *)
Fixpoint parse_lists (minServerCount : Z) (acc : list ParsedServerConfig) (l : list HasherServerList)
    : outcome (Z * list ParsedServerConfig) :=
  match l with
  | [] => Ok (minServerCount, acc)
  | sec :: l =>
      parsed ← parseServerList (sl_Servers sec) (sl_CheckServers sec) (sl_HashKeys sec);
      let n := Z.of_nat (length (ps_ServerList parsed)) in
      parse_lists (if minServerCount =? 0 then n else Z.min n minServerCount) (acc ++ [parsed]) l
  end.

(** ** A section *)

Definition second : Z := 1000000000.
Definition millisecond : Z := 1000000.

Definition msg_types : list string := ["statsd"; "graphite"; "regex"; "carbon2"; "json"; "opentsdb"]%string.

(** The type of the messages: the expression, the names of its groups and
    the configuration of the splitter. *)
Definition parse_message (cfg : HasherConfig) : outcome (option Regexp * list string * gmap string confval) :=
  if negb (bool_decide (cf_MsgType cfg ∈ msg_types)) then Panic
  else
    let msgConfig : gmap string confval := {["type"%string := ConfString (cf_MsgType cfg)]} in
    if bool_decide (cf_MsgType cfg = "regex"%string) then
      if (String.length (cf_MsgFormatRegEx cfg) =? 0)%nat then Panic
      else
        match Compile (cf_MsgFormatRegEx cfg) with
        | None => Panic
        | Some re =>
            if bool_decide ("Key"%string ∈ SubexpNames re)
            then Ok (Some re, SubexpNames re, <["regexpNames"%string := ConfStrings (SubexpNames re)]> msgConfig)
            else Panic
        end
    else Ok (cf_ComRegEx cfg, cf_ComRegExNames cfg, msgConfig).

Definition listen_str (cfg : HasherConfig) : string :=
  if (String.length (cf_ListenStr cfg) =? 0)%nat then DEFAULT_LISTEN else cf_ListenStr cfg.

Definition parse_listen (cfg : HasherConfig) : outcome (option URL) :=
  if bool_decide (listen_str cfg = DEFAULT_BACKEND_ONLY) then Ok None
  else match url_Parse (listen_str cfg) with inl u => Ok (Some u) | inr err => Err err end.

Definition parse_servers (cfg : HasherConfig) : outcome (Z * list ParsedServerConfig) :=
  if cf_DevNullOut cfg then Ok (0, cf_ServerLists cfg)
  else if (length (cf_ConfServerList cfg) =? 0)%nat then Err errNoServers
  else parse_lists 0 [] (cf_ConfServerList cfg).

Definition replica_count (cfg defaults : HasherConfig) (minServerCount : Z) : Z :=
  Z.min (if_zero (cf_Replicas cfg) DEFAULT_DUPE_REPLICAS (cf_Replicas defaults)) minServerCount.

(** One round of [ParseHasherConfig] for a section other than the default
    one: the section filled in. *)
Definition parse_section (defaults : HasherConfig) (chunk : string) (cfg : HasherConfig) : outcome HasherConfig :=
  l_url ← parse_listen cfg;
  '(minServerCount, lists) ← parse_servers cfg;
  let readBuf := if_not_positive (cf_ClientReadBufferSize cfg) (1024 * 1024) (cf_ClientReadBufferSize defaults) in
  '(re, names, msgConfig) ← parse_message cfg;
  Ok {|
    cf_Name := chunk;
    cf_StatsTick := cf_StatsTick defaults;
    cf_MaxPoolConnections := if_not_positive (cf_MaxPoolConnections cfg) DEFAULT_MAX_POOL_CONNECTIONS (cf_MaxPoolConnections defaults);
    cf_MaxWritePoolBufferSize := if_not_positive (cf_MaxWritePoolBufferSize cfg) 0 (cf_MaxWritePoolBufferSize defaults);
    cf_SendingConnectionMethod := if_empty (cf_SendingConnectionMethod cfg) "" (cf_SendingConnectionMethod defaults);
    cf_MsgType := cf_MsgType cfg;
    cf_MsgFormatRegEx := cf_MsgFormatRegEx cfg;
    cf_ListenStr := listen_str cfg;
    cf_ServerHeartBeat := i64 (if_zero (cf_ServerHeartBeat cfg) DEFAULT_HEARTBEAT (cf_ServerHeartBeat defaults) * second);
    cf_ServerHeartBeatTimeout :=
      i64 (if_zero (cf_ServerHeartBeatTimeout cfg) DEFAULT_HEARTBEAT_TIMEOUT (cf_ServerHeartBeatTimeout defaults) * second);
    cf_MaxServerHeartBeatFail := if_zero (cf_MaxServerHeartBeatFail cfg) DEFAULT_HEARTBEAT_COUNT (cf_MaxServerHeartBeatFail defaults);
    cf_ServerDownPolicy := if_empty (cf_ServerDownPolicy cfg) DEFAULT_SERVERDOWN_POLICY (cf_ServerDownPolicy defaults);
    cf_CacheItems := if_zero (cf_CacheItems cfg) 0 (cf_CacheItems defaults);
    cf_Replicas := replica_count cfg defaults minServerCount;
    cf_HashAlgo := if_empty (cf_HashAlgo cfg) DEFAULT_HASHER_ALGO (cf_HashAlgo defaults);
    cf_HashElter := if_empty (cf_HashElter cfg) DEFAULT_HASHER_ELTER (cf_HashElter defaults);
    cf_HashVNodes := if_zero (cf_HashVNodes cfg) DEFAULT_HASHER_VNODES (cf_HashVNodes defaults);
    cf_ClientReadBufferSize := readBuf;
    cf_MaxReadBufferSize := if_not_positive (cf_MaxReadBufferSize cfg) (i64 (1000 * readBuf)) (cf_MaxReadBufferSize defaults);
    cf_WriteTimeout := i64 (if_zero (cf_WriteTimeout cfg) 0 (cf_WriteTimeout defaults) * millisecond);
    cf_SplitterTimeout := i64 (if_zero (cf_SplitterTimeout cfg) 0 (cf_SplitterTimeout defaults) * millisecond);
    cf_ConfServerList := cf_ConfServerList cfg;
    cf_Workers := if_zero (cf_Workers cfg) 0 (cf_Workers defaults);
    cf_OutWorkers := if_zero (cf_OutWorkers cfg) 0 (cf_OutWorkers defaults);
    cf_ListenURL := l_url;
    cf_DevNullOut := cf_DevNullOut cfg;
    cf_ServerLists := lists;
    cf_PreRegFilter := cf_PreRegFilter cfg;
    cf_ComRegEx := re;
    cf_ComRegExNames := names;
    cf_MsgConfig := msgConfig;
    cf_OkToUse := true
  |}.

(** The default section is kept, but not to be used. *)
Definition as_default (chunk : string) (c : HasherConfig) : HasherConfig :=
  mkConf chunk (cf_StatsTick c) (cf_MaxPoolConnections c) (cf_MaxWritePoolBufferSize c) (cf_SendingConnectionMethod c) (cf_MsgType c)
    (cf_MsgFormatRegEx c) (cf_ListenStr c) (cf_ServerHeartBeat c) (cf_ServerHeartBeatTimeout c) (cf_MaxServerHeartBeatFail c)
    (cf_ServerDownPolicy c) (cf_CacheItems c) (cf_Replicas c) (cf_HashAlgo c) (cf_HashElter c) (cf_HashVNodes c)
    (cf_ClientReadBufferSize c) (cf_MaxReadBufferSize c) (cf_WriteTimeout c) (cf_SplitterTimeout c) (cf_ConfServerList c)
    (cf_Workers c) (cf_OutWorkers c) (cf_ListenURL c) (cf_DevNullOut c) (cf_ServerLists c) (cf_PreRegFilter c) (cf_ComRegEx c)
    (cf_ComRegExNames c) (cf_MsgConfig c) false.

Definition with_PreRegFilter (c : HasherConfig) (pr : PreReg (Regexp := Regexp)) : HasherConfig :=
  mkConf (cf_Name c) (cf_StatsTick c) (cf_MaxPoolConnections c) (cf_MaxWritePoolBufferSize c) (cf_SendingConnectionMethod c) (cf_MsgType c)
    (cf_MsgFormatRegEx c) (cf_ListenStr c) (cf_ServerHeartBeat c) (cf_ServerHeartBeatTimeout c) (cf_MaxServerHeartBeatFail c)
    (cf_ServerDownPolicy c) (cf_CacheItems c) (cf_Replicas c) (cf_HashAlgo c) (cf_HashElter c) (cf_HashVNodes c)
    (cf_ClientReadBufferSize c) (cf_MaxReadBufferSize c) (cf_WriteTimeout c) (cf_SplitterTimeout c) (cf_ConfServerList c)
    (cf_Workers c) (cf_OutWorkers c) (cf_ListenURL c) (cf_DevNullOut c) (cf_ServerLists c) (Some pr) (cf_ComRegEx c)
    (cf_ComRegExNames c) (cf_MsgConfig c) (cf_OkToUse c).

(** ** The sections *)

Definition one_section (defaults : HasherConfig) (chunk : string) (cfg : HasherConfig) : outcome HasherConfig :=
  if bool_decide (chunk = DEFAULT_CONFIG_SECTION) then Ok (as_default chunk cfg) else parse_section defaults chunk cfg.

Definition listens (chunk : string) (cfg : HasherConfig) : bool :=
  negb (bool_decide (chunk = DEFAULT_CONFIG_SECTION)) && negb (bool_decide (listen_str cfg = DEFAULT_BACKEND_ONLY)).

Fixpoint parse_sections (defaults : HasherConfig) (have_listener : bool) (out : HasherServers) (l : list (string * HasherConfig))
    : outcome (bool * HasherServers) :=
  match l with
  | [] => Ok (have_listener, out)
  | (chunk, cfg) :: l =>
      cfg' ← one_section defaults chunk cfg;
      parse_sections defaults (have_listener || listens chunk cfg) (<[chunk := cfg']> out) l
  end.

Definition ParseHasherConfig (defaults : HasherConfig) (order : list (string * HasherConfig)) : outcome HasherServers :=
  '(have_listener, out) ← parse_sections defaults false ∅ order;
  if (have_listener : bool) then Ok out else Panic.

(** [ParseHasherConfigString] and [ParseHasherConfigFile] once the file is
    decoded. *)
Definition parse_decoded (servers : HasherServers) (order : list (string * HasherConfig)) : outcome HasherServers :=
  match servers !! DEFAULT_CONFIG_SECTION with
  | None => Panic
  | Some defaults => ParseHasherConfig defaults order
  end.

Definition DefaultConfig (self : HasherServers) : HasherConfig + goerror :=
  match self !! DEFAULT_CONFIG_SECTION with
  | Some val => inl val
  | None => inr (GoError "Could not find default in config file")
  end.

Definition ServableConfigs (order : list (string * HasherConfig)) : list HasherConfig :=
  filter (fun cfg => cf_OkToUse cfg = true) (order.*2).

(** ** The filters *)

Definition errNoListenServer (s : string) : goerror := GoError ("ListenServer `" +:+ s +:+ "` is not in the Config servers").
Definition errBackendOnly (s : string) : goerror := GoError ("ListenServer `" +:+ s +:+ "` cannot be a `backend_only` listener").
Definition errNoBackend (s : string) : goerror := GoError ("Backend `" +:+ s +:+ "` is not in the Config servers").
Definition errNoAccBackend (s : string) : goerror := GoError ("Backend `" +:+ s +:+ "` for accumulator is not in the Config servers").

(** The first filter whose backend is not there. *)
Fixpoint missing_backend (self : HasherServers) (fs : list (FilterItem (Regexp := Regexp))) : option string :=
  match fs with
  | [] => None
  | f :: fs => if bool_decide (is_Some (self !! Backend f)) then missing_backend self fs else Some (Backend f)
  end.

Fixpoint VerifyAndAssignPreReg (self : HasherServers) (prm : list (PreReg (Regexp := Regexp))) : HasherServers * option goerror :=
  match prm with
  | [] => (self, None)
  | pr :: prm =>
      match self !! ListenServer pr with
      | None => (self, Some (errNoListenServer (ListenServer pr)))
      | Some listen_s =>
          if bool_decide (cf_ListenStr listen_s = "backend_only"%string) then (self, Some (errBackendOnly (ListenServer pr)))
          else
            let self := <[ListenServer pr := with_PreRegFilter listen_s pr]> self in
            match missing_backend self (FilterList pr) with
            | Some b => (self, Some (errNoBackend b))
            | None =>
                match pr_Accumulator pr with
                | None => VerifyAndAssignPreReg self prm
                | Some a =>
                    if bool_decide (ToBackend a = BLACK_HOLE_BACKEND) then VerifyAndAssignPreReg self prm
                    else if bool_decide (is_Some (self !! ToBackend a)) then VerifyAndAssignPreReg self prm
                    else (self, Some (errNoAccBackend (ToBackend a)))
                end
            end
      end
  end.

(** ** The servers *)

(** What a hasher reads of the configuration. *)
Definition hasher_conf (cfg : HasherConfig) : HasherPool.HasherConfig :=
  mkHasherConfig (cf_HashAlgo cfg) (cf_HashElter cfg) (cf_HashVNodes cfg) (cf_CacheItems cfg) (cf_MaxServerHeartBeatFail cfg) (cf_ServerDownPolicy cfg).

Definition make_hasher (cfg : HasherConfig) (serverlist : ParsedServerConfig) : option (ConstHasher (C := C)) :=
  CreateConstHasherFromConfig Hash new_cache (hasher_conf cfg) (HashkeyToServer serverlist)
    (url_String <$> ServerUrls serverlist) (url_String <$> CheckUrls serverlist).

(** [SetSplitterProcessor]; an error makes the start panic. *)
Definition SetSplitterProcessor (cfg : HasherConfig) : option (Splitter (Regexp := Regexp)) :=
  match NewSplitterItem (cf_MsgType cfg) (cf_ComRegEx cfg) (cf_MsgConfig cfg) with
  | Some (inl spl) => Some spl
  | _ => None
  end.

(** The splitter is set when the server is started, before a line is
    read.  Timeouts, tickers and the number of workers are left out: the
    model of a server has none. *)
Definition NewServer (cfg : HasherConfig) (spl : Splitter (Regexp := Regexp)) : Server (C := C) (Regexp := Regexp) + goerror :=
  let readBuf := if cf_ClientReadBufferSize cfg <=? 0 then DEFAULT_READ_BUFFER_SIZE else cf_ClientReadBufferSize cfg in
  let maxBuf := if cf_MaxReadBufferSize cfg <=? 0 then i64 (1000 * readBuf) else cf_MaxReadBufferSize cfg in
  let sending := if (0 <? String.length (cf_SendingConnectionMethod cfg))%nat then cf_SendingConnectionMethod cfg
                 else DEFAULT_SENDING_CONNECTIONS_METHOD in
  if bool_decide (is_Some (cf_PreRegFilter cfg)) && bool_decide (cf_ListenStr cfg = "backend_only"%string)
  then inr (GoError "Backend Only cannot have PreReg filters")
  else inl (mkSrv (cf_Name cfg) [] (cf_Replicas cfg) (cf_DevNullOut cfg) (cf_PreRegFilter cfg) spl [] [] [] [] [] 0 0 maxBuf [] false
              sending (cf_MaxPoolConnections cfg) (cf_MaxWritePoolBufferSize cfg) ∅ (fun _ => 0)).

(** [bound] says whether the sockets could be bound; otherwise the program
    panics. *)
Definition CreateServer (bound : bool) (bk : gmap string (Server (C := C) (Regexp := Regexp))) (cfg : HasherConfig)
    (hashers : list (ConstHasher (C := C))) : option (gmap string (Server (C := C) (Regexp := Regexp))) :=
  spl ← SetSplitterProcessor cfg;
  match NewServer cfg spl with
  | inr _ => None
  | inl server =>
      if bound then Some (bk_Add bk (srv_Name server) (set_work server hashers (WorkQueue server) (WorkerHold server) (counts server)))
      else None
  end.

(** The loop of [RunConstHasher]. *)
Fixpoint make_servers (bound : string -> bool) (bk : gmap string (Server (C := C) (Regexp := Regexp))) (cfgs : list HasherConfig)
    : option (gmap string (Server (C := C) (Regexp := Regexp))) :=
  match cfgs with
  | [] => Some bk
  | cfg :: cfgs =>
      hashers ← mapM (make_hasher cfg) (cf_ServerLists cfg);
      bk ← CreateServer (bound (cf_Name cfg)) bk cfg hashers;
      make_servers bound bk cfgs
  end.

End conf.

(** ** Theorems *)

(** ** Lists of servers *)

Section lists.
Context {URL : Type} (url_Parse : string -> URL + goerror).

Abbreviation ParsedServerConfig := (ParsedServerConfig (URL := URL)).

(** What a list that is accepted comes to. *)
Record list_ok (p : ParsedServerConfig) : Prop := {
  lo_servers : NoDup (ps_ServerList p);
  lo_keys : NoDup (HashkeyList p);
  lo_len : length (HashkeyList p) = length (ps_ServerList p);
  lo_urls : Forall2 (fun line u => url_Parse line = inl u) (ps_ServerList p) (ServerUrls p);
  lo_checks : Forall2 (fun line u => url_Parse line = inl u) (CheckList p) (CheckUrls p);
  lo_checklen : length (CheckList p) = length (ps_ServerList p);
  lo_map : HashkeyToServer p = list_to_map (zip (HashkeyList p) (ps_ServerList p));
  lo_dom : dom (ServerMap p) = list_to_set (ps_ServerList p)
}.

Lemma no_servers_ok : list_ok no_servers.
Proof. split; cbn; try constructor. Qed.

(** The lines that are not blank. *)
Definition server_lines (servers : list string) : list string := filter (fun line => line <> ""%string) (Trim <$> servers).

Lemma parse_lines_ok (servers checks keys : list string) (p p' : ParsedServerConfig) :
  list_ok p -> parse_lines url_Parse p servers checks keys = Ok p' ->
  list_ok p' /\ ps_ServerList p' = ps_ServerList p ++ server_lines servers.
Proof.
  revert checks keys p. induction servers as [|s servers IH]; intros checks keys p Hp E; cbn [parse_lines] in E.
  { injection E as <-. split; [done|]. unfold server_lines. cbn. by rewrite app_nil_r. }
  unfold server_lines in *. rewrite fmap_cons, filter_cons. destruct (Trim s) as [|a line'] eqn:Et; cbn [String.length Nat.eqb] in E.
  { rewrite decide_False by (by intros []). by apply (IH _ _ _ Hp E). }
  rewrite decide_True by done. revert E. generalize (String a line'). intros line E.
  destruct checks as [|ck checks], keys as [|hk keys]; try done.
  destruct (url_Parse line) as [u|] eqn:Eu; [|done].
  case_bool_decide as Hs; [done|]. case_bool_decide as Hk; [done|].
  destruct (url_Parse (Trim ck)) as [cu|] eqn:Ecu; [|done].
  destruct Hp as [H1 H2 H3 H4 H5 H6 H7 H8].
  assert (Hs' : line ∉ ps_ServerList p).
  { intros Hin. apply Hs, elem_of_dom. rewrite H8. by apply elem_of_list_to_set. }
  assert (Hfst : (zip (HashkeyList p) (ps_ServerList p)).*1 = HashkeyList p) by (apply fst_zip; lia).
  assert (Hk' : hk ∉ HashkeyList p).
  { intros Hin. apply Hk. rewrite H7. rewrite <- Hfst in Hin. apply list_elem_of_fmap in Hin as ([k v] & -> & Hin).
    exists v. apply elem_of_list_to_map; [by rewrite Hfst|done]. }
  apply IH in E as [Hok Hl]; [split; [done|]; rewrite Hl; cbn; by rewrite <- app_assoc|].
  split; cbn; rewrite ?length_app; cbn.
  - apply NoDup_app. split_and!; [done|set_solver|apply NoDup_singleton].
  - apply NoDup_app. split_and!; [done|set_solver|apply NoDup_singleton].
  - lia.
  - apply Forall2_app; [done|by repeat constructor].
  - apply Forall2_app; [done|by repeat constructor].
  - lia.
  - rewrite zip_with_app by done. cbn. rewrite H7. symmetry. apply list_to_map_snoc. by rewrite Hfst.
  - rewrite dom_insert_L, H8, list_to_set_app_L. cbn. set_solver.
Qed.

(** No list makes the loop panic: there is a check and a key for every
    server. *)
Lemma parse_lines_ends (servers checks keys : list string) (p : ParsedServerConfig) :
  length checks = length servers -> length keys = length servers ->
  parse_lines url_Parse p servers checks keys <> Panic /\ parse_lines url_Parse p servers checks keys <> NoFuel.
Proof.
  revert checks keys p. induction servers as [|s servers IH]; intros [|ck checks] [|hk keys] p Hc Hk; try done; cbn [parse_lines length tail] in *.
  destruct (String.length _ =? 0)%nat; [by apply IH; lia|]. destruct (url_Parse (Trim s)); [|done].
  case_bool_decide; [done|]. case_bool_decide; [done|]. destruct (url_Parse (Trim ck)); [|done]. by apply IH; lia.
Qed.

Lemma server_list_ok (servers checks keys : list string) (p : ParsedServerConfig) :
  parseServerList url_Parse servers checks keys = Ok p -> list_ok p /\ ps_ServerList p = server_lines servers.
Proof.
  unfold parseServerList. do 3 (case_match; [done|]). intros E. by apply (parse_lines_ok _ _ _ _ _ no_servers_ok) in E.
Qed.

(** Reading a list never panics. *)
Lemma server_list_ends (servers checks keys : list string) :
  parseServerList url_Parse servers checks keys <> Panic /\ parseServerList url_Parse servers checks keys <> NoFuel.
Proof.
  unfold parseServerList. destruct (length servers =? 0)%nat; [done|].
  destruct (negb _ && _) eqn:Ec; [done|]. destruct (negb (length keys =? 0)%nat && _) eqn:Ek; [done|].
  apply parse_lines_ends.
  - destruct (length checks =? 0)%nat eqn:E0; [done|]. cbn in Ec. apply negb_false_iff, Nat.eqb_eq in Ec. done.
  - destruct (length keys =? 0)%nat eqn:E0; [done|]. cbn in Ek. apply negb_false_iff, Nat.eqb_eq in Ek. done.
Qed.

(** All lists of a section; the count is their smallest when none is
    blank. *)
Lemma parse_lists_ok (l : list HasherServerList) (n m : Z) (acc lists : list ParsedServerConfig) :
  parse_lists url_Parse n acc l = Ok (m, lists) ->
  exists lists', lists = acc ++ lists' /\
    Forall2 (fun sec p => list_ok p /\ ps_ServerList p = server_lines (sl_Servers sec)) l lists' /\
    (0 <= n -> Forall (fun p => ps_ServerList p <> []) lists' ->
     (l <> [] \/ 0 < n -> 0 < m) /\ (0 < n -> m <= n) /\ Forall (fun p => m <= Z.of_nat (length (ps_ServerList p))) lists').
Proof.
  revert n acc. induction l as [|sec l IH]; intros n acc E; cbn [parse_lists] in E.
  { injection E as <- <-. exists []. rewrite app_nil_r. split_and!; try done. intros _ _. split_and!; [|done|done]. by intros []. }
  destruct (parseServerList _ _ _ _) as [p| | |] eqn:Ep; cbn [mbind outcome_bind] in E; try done.
  apply server_list_ok in Ep. destruct (IH _ _ E) as (lists' & -> & Hf & Hm). exists (p :: lists').
  rewrite <- app_assoc. split_and!; [done|by constructor|]. intros Hn Hne. apply Forall_cons in Hne as [Hp Hne].
  assert (0 < Z.of_nat (length (ps_ServerList p))) by (destruct (ps_ServerList p); [done|cbn; lia]).
  assert (0 < (if n =? 0 then Z.of_nat (length (ps_ServerList p)) else Z.min (Z.of_nat (length (ps_ServerList p))) n)) as Hpos
    by (destruct (n =? 0) eqn:E0; lia).
  destruct Hm as (Hm1 & Hm2 & Hm3); [lia|done|]. specialize (Hm1 (or_intror Hpos)). specialize (Hm2 Hpos).
  destruct (n =? 0) eqn:E0; (split_and!; [lia|lia|constructor; [lia|done]]).
Qed.

End lists.

(** ** The table of the names, turned around *)

Abbreviation flip_map l := (foldl (fun (m : gmap string string) (kv : string * string) => <[kv.2 := kv.1]> m) ∅ l).

Lemma flip_lookup (l : list (string * string)) (k s : string) : NoDup l.*2 -> (k, s) ∈ l -> flip_map l !! s = Some k.
Proof.
  intros Hnd Hin. enough (H : forall m, foldl (fun (m : gmap string string) (kv : string * string) => <[kv.2 := kv.1]> m) m l !! s = Some k) by done.
  induction l as [|[k' s'] l IH]; intros m; [by apply not_elem_of_nil in Hin|]. cbn [foldl].
  cbn in Hnd. apply NoDup_cons in Hnd as [Hs Hnd]. apply elem_of_cons in Hin as [[= -> ->]|Hin]; [|by apply IH].
  clear IH Hnd. cbn [fst snd]. assert (Hm : <[s' := k']> m !! s' = Some k') by apply lookup_insert_eq. revert Hm. generalize (<[s' := k']> m).
  clear m. induction l as [|[k'' s''] l IH]; intros m Hm; [done|]. cbn in Hs. apply not_elem_of_cons in Hs as [Hne Hs]. cbn [foldl].
  apply IH; [done|]. cbn. by rewrite lookup_insert_ne.
Qed.

(** ** The hashers of a list *)

Section hashers.
Context `{!GoSort} (Hash : HashAlgo -> string -> Z).
Context {C : Type} {HC : HasherCache C} (new_cache : Z -> C).
Context {URL : Type} (url_Parse : string -> URL + goerror) (url_String : URL -> string).
Context {Regexp : Type}.

Abbreviation ParsedServerConfig := (ParsedServerConfig (URL := URL)).
Abbreviation HasherConfig := (HasherConfig (URL := URL) (Regexp := Regexp)).

(** The empty ring of a configuration. *)
Definition conf_ring (cfg : HasherConfig) : Consistent :=
  let ring := SetNumberOfReplicas Hash (New Hash) (if cf_HashVNodes cfg >=? 0 then cf_HashVNodes cfg else DEFAULT_REPLICAS) in
  SetElterByName Hash (SetHasherByName Hash ring (or_default (cf_HashAlgo cfg) "crc32")) (or_default (cf_HashElter cfg) "graphite").

(** The points of the servers of a list do not collide, and the URLs of the
    list print as they are written. *)
Record list_served (cfg : HasherConfig) (p : ParsedServerConfig) : Prop := {
  ls_points : disjoint_points Hash (list_to_set (HashkeyList p)) (conf_ring cfg);
  ls_prints : Forall2 (fun line u => url_String u = line) (ps_ServerList p) (ServerUrls p);
  ls_size : Z.of_nat (length (ps_ServerList p)) < 2 ^ 63
}.

Lemma blank_conf_ring (cfg : HasherConfig) : blank (conf_ring cfg).
Proof.
  unfold conf_ring. unfold SetElterByName. apply blank_reset. unfold SetHasherByName. apply blank_reset.
  unfold SetNumberOfReplicas. apply blank_reset, blank_New.
Qed.

Lemma ResetCircle_blank (c : Consistent) (n : Z) (h : HashAlgo) (e : Elter) :
  blank c -> ResetCircle Hash (set_params c n h e) (Members c) = set_params c n h e.
Proof. intros (_ & Hm & _). unfold Members. by rewrite Hm, elements_empty. Qed.

Lemma conf_ring_replicas (cfg : HasherConfig) : 0 < NumberOfReplicas (conf_ring cfg).
Proof.
  unfold conf_ring, SetElterByName, SetHasherByName, SetNumberOfReplicas. pose proof (blank_New Hash) as Hb.
  repeat (rewrite ResetCircle_blank by (try done; by apply blank_reset)). cbn. destruct (_ >? 0) eqn:E; lia.
Qed.

Lemma add_all_ring (urls checks : list string) (h h' : ConstHasher (C := C)) :
  add_all Hash h urls checks = Some h' ->
  Hasher h' = foldl (Add Hash) (Hasher h) (go_lookup (ServerToHashkey h) <$> urls).
Proof.
  revert checks h. induction urls as [|u urls IH]; intros checks h E; cbn [add_all] in E; [by injection E as <-|].
  destruct checks as [|ck checks]; [done|]. by rewrite (IH _ _ E).
Qed.

(** Adding new keys to an empty ring. *)
Lemma adds_reachable (U : gset string) (c0 c : Consistent) (keys : list string) :
  reachable Hash U c0 c -> NoDup keys -> (forall k, k ∈ keys -> k ∈ U /\ k ∉ members c) ->
  reachable Hash U c0 (foldl (Add Hash) c keys) /\ members (foldl (Add Hash) c keys) = members c ∪ list_to_set keys.
Proof.
  revert c. induction keys as [|k keys IH]; intros c Hr Hnd Hk; cbn; [split; [done|set_solver]|].
  apply NoDup_cons in Hnd as [Hnew Hnd]. destruct (Hk k) as [HU Hm]; [set_solver|].
  destruct (IH (Add Hash c k)) as [Hr' ->]; [by apply reach_add|done| |].
  - intros k' Hk'. destruct (Hk k') as [HU' Hm']; [set_solver|]. split; [done|]. cbn. set_solver.
  - split; [done|]. cbn. set_solver.
Qed.

(** A hasher is made for every accepted list, and its ring has the keys of
    the list. *)
Lemma hasher_made (cfg : HasherConfig) (p : ParsedServerConfig) :
  (forall n P, memo_ok P (new_cache n)) -> list_ok url_Parse p ->
  exists h, make_hasher Hash new_cache url_String cfg p = Some h /\ hasher_inv Hash h /\ HashKeyToServer h = HashkeyToServer p /\
    Hasher h = foldl (Add Hash) (conf_ring cfg) (go_lookup (flip_map (map_to_list (HashkeyToServer p))) <$> (url_String <$> ServerUrls p)).
Proof.
  intros Hc [_ _ _ Hu Hck Hcl _ _]. apply Forall2_length in Hu, Hck.
  destruct (created_hasher Hash new_cache (hasher_conf cfg) (HashkeyToServer p) (url_String <$> ServerUrls p) (url_String <$> CheckUrls p))
    as (h & E & Hr & _ & _ & Hk & _); [done|rewrite !length_fmap; lia|].
  exists h. split_and!; [done|by apply hreach_inv|done|]. unfold CreateConstHasherFromConfig in E.
  destruct (add_all _ _ _ _) as [h'|] eqn:Ea; [|done]. cbn [mbind option_bind] in E. injection E as <-.
  apply add_all_ring in Ea. exact Ea.
Qed.

Lemma flip_keys (p : ParsedServerConfig) :
  list_ok url_Parse p -> Forall2 (fun line u => url_String u = line) (ps_ServerList p) (ServerUrls p) ->
  go_lookup (flip_map (map_to_list (HashkeyToServer p))) <$> (url_String <$> ServerUrls p) = HashkeyList p.
Proof.
  intros [H1 H2 H3 _ _ _ H7 _] Hp.
  assert (url_String <$> ServerUrls p = ps_ServerList p) as ->.
  { clear -Hp. induction Hp as [|s u ss us Hs Hp IH]; [done|]. cbn. by rewrite Hs, IH. }
  set (z := zip (HashkeyList p) (ps_ServerList p)) in *.
  assert (Hz1 : z.*1 = HashkeyList p) by (apply fst_zip; lia). assert (Hz2 : z.*2 = ps_ServerList p) by (apply snd_zip; lia).
  assert (Hml : map_to_list (HashkeyToServer p) ≡ₚ z) by (rewrite H7; apply map_to_list_to_map; by rewrite Hz1).
  clearbody z. rewrite <- Hz1, <- Hz2. rewrite <- list_fmap_compose. apply list_fmap_ext. intros i [k s] Hi. cbn. unfold go_lookup.
  rewrite (flip_lookup _ k s); [done|by rewrite Hml, Hz2|]. rewrite Hml. by apply list_elem_of_lookup_2 in Hi.
Qed.

(** For every key such a hasher names, each once, as many servers of its
    list as are asked for. *)
Lemma list_names (cfg : HasherConfig) (p : ParsedServerConfig) (h : ConstHasher (C := C)) (n : Z) (key : string) :
  list_ok url_Parse p -> list_served cfg p -> HashKeyToServer h = HashkeyToServer p ->
  Hasher h = foldl (Add Hash) (conf_ring cfg) (HashkeyList p) -> 1 <= n <= Z.of_nat (length (ps_ServerList p)) ->
  GetN Hash (Hasher h) key n <> None /\
  NoDup (named_servers Hash n key h) /\ (forall s, s ∈ named_servers Hash n key h -> s ∈ ps_ServerList p) /\
  Z.of_nat (length (named_servers Hash n key h)) = n.
Proof.
  intros Hok [Hd _ Hsz] Hk Hh Hn. pose proof Hok as [H1 H2 H3 _ _ _ H7 _].
  destruct (blank_conf_ring cfg) as (Hb1 & Hb2 & Hb3 & Hb4).
  destruct (adds_reachable (list_to_set (HashkeyList p)) (conf_ring cfg) (conf_ring cfg) (HashkeyList p)) as [Hr Hm]; [by apply reach_empty|done| |].
  { intros k Hin. rewrite Hb2. split; [by apply elem_of_list_to_set|apply not_elem_of_empty]. }
  rewrite <- Hh in Hr, Hm. rewrite Hb2, (left_id_L ∅ (∪)) in Hm.
  assert (Hsize : base.size (list_to_set (HashkeyList p) : gset string) = length (ps_ServerList p)) by (rewrite size_list_to_set; done).
  destruct (reachable_answers Hash _ _ _ key n Hd ltac:(rewrite Hsize; lia) (conf_ring_replicas cfg) Hr) as [_ Ha].
  destruct Ha as (res & Hg & Hnd & Hin & Hl); [|lia|].
  { rewrite Hm. intros E. rewrite E, size_empty in Hsize. lia. }
  rewrite Hm, Hsize in Hl. unfold named_servers. rewrite Hg. unfold some_servers. rewrite Hk, length_fmap. split; [done|].
  assert (Hz1 : (zip (HashkeyList p) (ps_ServerList p)).*1 = HashkeyList p) by (apply fst_zip; lia).
  assert (Hz2 : (zip (HashkeyList p) (ps_ServerList p)).*2 = ps_ServerList p) by (apply snd_zip; lia).
  assert (Hres : forall k, k ∈ res -> (k, go_lookup (HashkeyToServer p) k) ∈ zip (HashkeyList p) (ps_ServerList p)).
  { intros k Hkr. specialize (Hin k Hkr). rewrite Hm, elem_of_list_to_set in Hin. rewrite <- Hz1 in Hin.
    apply list_elem_of_fmap in Hin as ([k' s] & -> & Hin). cbn. unfold go_lookup.
    rewrite H7, (elem_of_list_to_map_1 _ k' s); [done|by rewrite Hz1|done]. }
  split_and!.
  - apply NoDup_fmap_2_strong; [|done]. intros k k' Hx Hx' E. pose proof (Hres k Hx) as Hy. pose proof (Hres k' Hx') as Hy'.
    rewrite E in Hy. apply list_elem_of_lookup in Hy as [i Hi], Hy' as [j Hj].
    assert (i = j) as ->; [|by simplify_eq]. apply (NoDup_lookup (ps_ServerList p) i j (go_lookup (HashkeyToServer p) k') H1);
      rewrite <- Hz2, list_lookup_fmap; [by rewrite Hi|by rewrite Hj].
  - intros s Hs. apply list_elem_of_fmap in Hs as (k & -> & Hkr). apply Hres in Hkr. rewrite <- Hz2.
    by apply (list_elem_of_fmap_2 snd) in Hkr.
  - lia.
Qed.

End hashers.

(** ** The sections of a file *)

Section sections.
Context `{!GoSort} (Hash : HashAlgo -> string -> Z).
Context {C : Type} {HC : HasherCache C} (new_cache : Z -> C).
Context {URL : Type} (url_Parse : string -> URL + goerror) (url_String : URL -> string).
Context {Regexp : Type} (Compile : string -> option Regexp) (SubexpNames : Regexp -> list string).

Abbreviation ParsedServerConfig := (ParsedServerConfig (URL := URL)).
Abbreviation HasherConfig := (HasherConfig (URL := URL) (Regexp := Regexp)).
Abbreviation HasherServers := (gmap string HasherConfig).
Abbreviation Server := (Server (C := C) (Regexp := Regexp)).
Abbreviation one_section := (one_section url_Parse Compile SubexpNames).
Abbreviation list_ok := (list_ok url_Parse).
Abbreviation make_hasher := (make_hasher Hash new_cache url_String).
Abbreviation make_servers := (make_servers Hash new_cache url_String).

(** The order in which the sections are visited matters neither for whether
    all are accepted nor for the outcome. *)
Lemma parse_sections_ok (defaults : HasherConfig) (l : list (string * HasherConfig)) (have have' : bool) (out0 out : HasherServers) :
  NoDup l.*1 ->
  parse_sections url_Parse Compile SubexpNames defaults have out0 l = Ok (have', out) <->
  have' = have || existsb (fun x => listens x.1 x.2) l /\
  (forall chunk cfg, (chunk, cfg) ∈ l -> exists r, one_section defaults chunk cfg = Ok r /\ out !! chunk = Some r) /\
  (forall chunk, chunk ∉ l.*1 -> out !! chunk = out0 !! chunk).
Proof.
  revert have out0. induction l as [|[c cfg] l IH]; intros have out0 Hnd; cbn [parse_sections existsb].
  - rewrite orb_false_r. split.
    + intros [= -> ->]. split_and!; [done| |done]. intros chunk cfg Hin. by apply not_elem_of_nil in Hin.
    + intros (-> & _ & Ho). assert (out = out0) as ->; [|done]. apply map_eq. intros chunk. apply Ho, not_elem_of_nil.
  - cbn in Hnd. apply NoDup_cons in Hnd as [Hc Hnd]. split.
    + destruct (one_section defaults c cfg) as [r| | |] eqn:Er; cbn [mbind outcome_bind]; try done.
      intros E. apply IH in E as (-> & Hs & Ho); [|done]. rewrite orb_assoc. split_and!; [done| |].
      * intros chunk cfg' [[= -> ->]|Hin]%elem_of_cons; [|by apply Hs]. exists r. split; [done|]. rewrite (Ho c Hc). apply lookup_insert_eq.
      * intros chunk Hn. cbn in Hn. apply not_elem_of_cons in Hn as [Hne Hn]. rewrite (Ho chunk Hn). by apply lookup_insert_ne.
    + intros (-> & Hs & Ho). destruct (Hs c cfg) as (r & -> & Hr); [by left|]. cbn [mbind outcome_bind].
      apply IH; [done|]. cbn [fst snd]. rewrite orb_assoc. split_and!; [done| |].
      * intros chunk cfg' Hin. apply Hs. by right.
      * intros chunk Hn. destruct (decide (chunk = c)) as [->|Hne]; [by rewrite lookup_insert_eq|].
        rewrite lookup_insert_ne by done. apply Ho. cbn. by apply not_elem_of_cons.
Qed.

(** A configuration is accepted exactly when every section
    is and one of them listens, and then it holds every section as it is
    filled in; the order in which Go visits the sections makes no
    difference to that. *)
Theorem config_parsed (servers out : HasherServers) (defaults : HasherConfig) (order : list (string * HasherConfig)) :
  order ≡ₚ map_to_list servers ->
  ParseHasherConfig url_Parse Compile SubexpNames defaults order = Ok out <->
  (exists chunk cfg, servers !! chunk = Some cfg /\ listens chunk cfg = true) /\
  forall chunk, match servers !! chunk with
                | Some cfg => exists r, one_section defaults chunk cfg = Ok r /\ out !! chunk = Some r
                | None => out !! chunk = None
                end.
Proof.
  intros Ho. assert (Hnd : NoDup order.*1) by (rewrite Ho; apply NoDup_fst_map_to_list).
  assert (Hin : forall chunk cfg, (chunk, cfg) ∈ order <-> servers !! chunk = Some cfg) by (intros; rewrite Ho; apply elem_of_map_to_list).
  assert (Hout : forall chunk, chunk ∉ order.*1 <-> servers !! chunk = None).
  { intros chunk. rewrite eq_None_not_Some. split; intros Hx; contradict Hx.
    - destruct Hx as [cfg Hx]. apply list_elem_of_fmap. exists (chunk, cfg). by rewrite Hin.
    - apply list_elem_of_fmap in Hx as ([c cfg] & -> & Hx). exists cfg. by apply Hin. }
  unfold ParseHasherConfig. transitivity (parse_sections url_Parse Compile SubexpNames defaults false ∅ order = Ok (true, out)).
  { destruct (parse_sections _ _ _ _ _ _ _) as [[[] o]| | |]; cbn [mbind outcome_bind]; split; try done; by intros [= ->]. }
  rewrite parse_sections_ok by done. cbn [orb]. split.
  - intros (He & Hs & Hn). symmetry in He. apply existsb_exists in He as ([chunk cfg] & Hx & Hl). rewrite <- list_elem_of_In in Hx. split.
    + exists chunk, cfg. by rewrite <- Hin.
    + intros c. destruct (servers !! c) as [cf|] eqn:E; [by apply Hs, Hin|]. apply Hout in E. by rewrite (Hn c E).
  - intros [(chunk & cfg & Hx & Hl) Hs]. split_and!.
    + symmetry. apply existsb_exists. exists (chunk, cfg). rewrite <- list_elem_of_In. by rewrite Hin.
    + intros c cf Hy. apply Hin in Hy. specialize (Hs c). by rewrite Hy in Hs.
    + intros c Hy. apply Hout in Hy. specialize (Hs c). by rewrite Hy in Hs.
Qed.

(** What the decoder leaves empty. *)
Definition decoded (cfg : HasherConfig) : Prop := cf_ServerLists cfg = [] /\ cf_PreRegFilter cfg = None.

(** What the start needs of a section that is in use. *)
Record servable (chunk : string) (cfg : HasherConfig) : Prop := {
  sv_name : cf_Name cfg = chunk;
  sv_lists : Forall list_ok (cf_ServerLists cfg);
  sv_splitter : is_Some (SetSplitterProcessor cfg);
  sv_filter : is_Some (cf_PreRegFilter cfg) -> cf_ListenStr cfg <> "backend_only"%string
}.

Lemma message_ok (cfg : HasherConfig) (re : option Regexp) (names : list string) (conf : gmap string confval) :
  parse_message Compile SubexpNames cfg = Ok (re, names, conf) ->
  exists spl, NewSplitterItem (cf_MsgType cfg) re conf = Some (inl spl).
Proof.
  unfold parse_message, NewSplitterItem, NewRegExSplitter. case_bool_decide as Ht; [|done]. cbn [negb].
  destruct (bool_decide (cf_MsgType cfg = "regex"%string)) eqn:Er.
  - apply bool_decide_eq_true in Er. rewrite Er. destruct (String.length _ =? 0)%nat; [done|]. destruct (Compile _) as [r|]; [|done].
    case_bool_decide; [|done]. intros [= <- <- <-]. cbn. rewrite lookup_insert_eq, lookup_insert_ne, lookup_singleton_ne by done. eauto.
  - apply bool_decide_eq_false in Er. intros [= <- <- <-]. unfold msg_types in Ht.
    repeat (apply elem_of_cons in Ht as [E|Ht]; [rewrite E in *; try done; eauto|]). by apply not_elem_of_nil in Ht.
Qed.

Lemma section_ok (defaults cfg cfg' : HasherConfig) (chunk : string) :
  parse_section url_Parse Compile SubexpNames defaults chunk cfg = Ok cfg' -> decoded cfg ->
  cf_OkToUse cfg' = true /\ servable chunk cfg' /\ cf_DevNullOut cfg' = cf_DevNullOut cfg /\ cf_PreRegFilter cfg' = None /\
  exists m, parse_servers url_Parse cfg = Ok (m, cf_ServerLists cfg') /\ cf_Replicas cfg' = replica_count cfg defaults m.
Proof.
  unfold parse_section. intros E [Hl Hf]. destruct (parse_listen url_Parse cfg) as [u| | |]; cbn [mbind outcome_bind] in E; try done.
  destruct (parse_servers url_Parse cfg) as [[m lists]| | |] eqn:Es; cbn [mbind outcome_bind] in E; try done.
  destruct (parse_message Compile SubexpNames cfg) as [[[re names] conf]| | |] eqn:Em; cbn [mbind outcome_bind] in E; try done.
  injection E as <-. split_and!; [done| |done|done|by exists m]. apply message_ok in Em as [spl Hs]. split; cbn.
  - done.
  - unfold parse_servers in Es. destruct (cf_DevNullOut cfg); [injection Es as <- <-; rewrite Hl; constructor|].
    destruct (length _ =? 0)%nat; [done|]. apply parse_lists_ok in Es as (lists' & -> & Hp & _). cbn.
    rewrite Forall_forall. intros p Hin. apply list_elem_of_lookup in Hin as [i Hi].
    destruct (Forall2_lookup_r _ _ _ _ _ Hp Hi) as (sec & _ & [Hok _]). done.
  - unfold SetSplitterProcessor. cbn. rewrite Hs. eauto.
  - rewrite Hf. by intros [].
Qed.

(** The count of copies lies between one and the length of the shortest
    list. *)
Lemma section_replicas (defaults cfg : HasherConfig) (m : Z) (lists : list ParsedServerConfig) :
  parse_servers url_Parse cfg = Ok (m, lists) -> cf_DevNullOut cfg = false -> 0 <= cf_Replicas cfg ->
  Forall (fun sec => server_lines (sl_Servers sec) <> []) (cf_ConfServerList cfg) ->
  let n := replica_count cfg defaults m in
  1 <= n /\ Forall2 (fun sec p => list_ok p /\ ps_ServerList p = server_lines (sl_Servers sec) /\ n <= Z.of_nat (length (ps_ServerList p)))
              (cf_ConfServerList cfg) lists.
Proof.
  unfold parse_servers. intros E Hd Hr Hne. rewrite Hd in E. destruct (length (cf_ConfServerList cfg) =? 0)%nat eqn:El; [done|].
  apply parse_lists_ok in E as (lists' & -> & Hf & Hm). cbn [app].
  assert (Hf' : Forall (fun p => ps_ServerList p <> []) lists').
  { clear -Hf Hne. induction Hf as [|sec p l ps [_ E] Hf IH]; [done|]. apply Forall_cons in Hne as [Hx Hne].
    constructor; [by rewrite E|by apply IH]. }
  destruct Hm as (Hm & _ & Hle); [done|done|]. assert (0 < m) by (apply Hm; left; by destruct (cf_ConfServerList cfg)).
  cbn zeta. unfold replica_count, if_zero. set (r := if _ =? 0 then _ else _).
  assert (1 <= r) by (unfold r, DEFAULT_DUPE_REPLICAS; repeat case_match; lia). split; [lia|].
  clear -Hf Hle. revert Hle. induction Hf as [|sec p l ps [Hok E] Hf IH]; intros Hle; constructor; apply Forall_cons in Hle as [Hp Hle].
  - split_and!; [done|done|lia].
  - by apply IH.
Qed.

(** ** The filters *)

Abbreviation PreReg := (PreReg (Regexp := Regexp)).

(** A group of filters names a server that listens and backends that are
    there. *)
Definition group_verified (self : HasherServers) (pr : PreReg) : Prop :=
  (exists c, self !! ListenServer pr = Some c /\ cf_ListenStr c <> "backend_only"%string) /\
  Forall (fun f => is_Some (self !! Backend f)) (FilterList pr) /\
  match pr_Accumulator pr with
  | Some a => ToBackend a = BLACK_HOLE_BACKEND \/ is_Some (self !! ToBackend a)
  | None => True
  end.

(** The group that is assigned to a section: the last one that names it. *)
Definition assigned (prm : list PreReg) (chunk : string) (c : HasherConfig) : HasherConfig :=
  match last (filter (fun pr => ListenServer pr = chunk) prm) with Some pr => with_PreRegFilter c pr | None => c end.

Lemma missing_backend_spec (self : HasherServers) (fs : list (FilterItem (Regexp := Regexp))) :
  missing_backend self fs = None <-> Forall (fun f => is_Some (self !! Backend f)) fs.
Proof.
  induction fs as [|f fs IH]; cbn; [done|]. rewrite Forall_cons, <- IH. case_bool_decide; naive_solver.
Qed.

(** What verifying reads stays the same while filters are assigned. *)
Lemma group_verified_insert (self : HasherServers) (pr pr' : PreReg) (c : HasherConfig) (k : string) :
  self !! k = Some c -> group_verified (<[k := with_PreRegFilter c pr]> self) pr' <-> group_verified self pr'.
Proof.
  intros Hk. assert (Hs : forall x, is_Some (<[k := with_PreRegFilter c pr]> self !! x) <-> is_Some (self !! x)).
  { intros x. destruct (decide (x = k)) as [->|Hne]; [rewrite lookup_insert_eq, Hk|by rewrite lookup_insert_ne]. split; eauto. }
  unfold group_verified. setoid_rewrite Hs.
  assert (Hl : (exists d, <[k := with_PreRegFilter c pr]> self !! ListenServer pr' = Some d /\ cf_ListenStr d <> "backend_only"%string) <->
               (exists d, self !! ListenServer pr' = Some d /\ cf_ListenStr d <> "backend_only"%string)).
  { destruct (decide (ListenServer pr' = k)) as [->|Hne]; [rewrite lookup_insert_eq, Hk|by rewrite lookup_insert_ne].
    split; intros (d & [= <-] & Hd); eauto. }
  rewrite Hl. by destruct (pr_Accumulator pr') as [a|]; rewrite ?Hs.
Qed.

(** The groups are accepted exactly when each names a section
    that listens and backends that are there; then a section has the last
    of the groups that name it, and nothing else changes. *)
Theorem filters_verified (prm : list PreReg) (self : HasherServers) :
  ((VerifyAndAssignPreReg self prm).2 = None <-> Forall (group_verified self) prm) /\
  (Forall (group_verified self) prm -> forall chunk, (VerifyAndAssignPreReg self prm).1 !! chunk = assigned prm chunk <$> self !! chunk).
Proof.
  revert self. induction prm as [|pr prm IH]; intros self; cbn [VerifyAndAssignPreReg].
  { split; [done|]. intros _ chunk. cbn. unfold assigned. cbn. by destruct (self !! chunk). }
  rewrite Forall_cons. destruct (self !! ListenServer pr) as [c|] eqn:Ec.
  2: { split; [split; [done|]|]; intros [[(c & E & _) _] _]; congruence. }
  case_bool_decide as Hb.
  { split; [split; [done|]|]; intros [[(c' & E & Hc) _] _]; congruence. }
  set (self' := <[ListenServer pr := with_PreRegFilter c pr]> self).
  assert (Hv : forall pr', group_verified self' pr' <-> group_verified self pr') by (intros; by apply group_verified_insert).
  assert (Hf : Forall (group_verified self') prm <-> Forall (group_verified self) prm) by (apply Forall_iff; apply Hv).
  assert (Hnext : ((VerifyAndAssignPreReg self' prm).2 = None <-> Forall (group_verified self) prm) /\
    (Forall (group_verified self) prm -> forall chunk, (VerifyAndAssignPreReg self' prm).1 !! chunk = assigned (pr :: prm) chunk <$> self !! chunk)).
  { rewrite <- Hf. destruct (IH self') as [H1 H2]. split; [done|]. intros Hp chunk. rewrite (H2 Hp). unfold self', assigned. rewrite filter_cons.
    destruct (decide (ListenServer pr = chunk)) as [<-|Hne].
    - rewrite lookup_insert_eq, Ec. cbn. rewrite last_cons. by destruct (last _).
    - by rewrite lookup_insert_ne. }
  specialize (Hv pr). unfold group_verified at 1 in Hv. rewrite <- missing_backend_spec in Hv.
  assert (Hl : exists d, self' !! ListenServer pr = Some d /\ cf_ListenStr d <> "backend_only"%string)
    by (exists (with_PreRegFilter c pr); unfold self'; by rewrite lookup_insert_eq).
  destruct (missing_backend self' (FilterList pr)) as [b|]; [split; [split; [done|]|]; intros [Hg _]; apply Hv in Hg as (_ & ? & _); done|].
  destruct (pr_Accumulator pr) as [a|]; [|tauto].
  case_bool_decide; [tauto|]. case_bool_decide; [tauto|]. split; [split; [done|]|]; intros [Hg _]; apply Hv in Hg as (_ & _ & [|]); done.
Qed.

Lemma filters_accepted (prm : list PreReg) (out out' : HasherServers) :
  VerifyAndAssignPreReg out prm = (out', None) ->
  Forall (group_verified out) prm /\ forall chunk, out' !! chunk = assigned prm chunk <$> out !! chunk.
Proof.
  intros E. destruct (filters_verified prm out) as [[Hv _] Ha]. rewrite E in Hv, Ha. specialize (Hv eq_refl). split; [done|by apply Ha].
Qed.

(** ** The servers *)

Definition made (cfg : HasherConfig) (p : ParsedServerConfig) (h : ConstHasher (C := C)) : Prop :=
  make_hasher cfg p = Some h /\ hasher_inv Hash h /\ HashKeyToServer h = HashkeyToServer p /\
  Hasher h = foldl (Add Hash) (conf_ring Hash cfg) (go_lookup (flip_map (map_to_list (HashkeyToServer p))) <$> (url_String <$> ServerUrls p)).

Definition serving (cfg : HasherConfig) (s : Server) : Prop :=
  srv_Name s = cf_Name cfg /\ srv_Replicas s = cf_Replicas cfg /\ DevNullOut s = cf_DevNullOut cfg /\
  PreRegFilter s = cf_PreRegFilter cfg /\ Forall2 (made cfg) (cf_ServerLists cfg) (Hashers s).

Context (Hcache : forall n P, memo_ok P (new_cache n)).

Lemma hashers_made (cfg : HasherConfig) (lists : list ParsedServerConfig) :
  Forall list_ok lists -> exists hs, mapM (make_hasher cfg) lists = Some hs /\ Forall2 (made cfg) lists hs.
Proof.
  induction 1 as [|p lists Hp Hl (hs & E & Hf)]; [by exists []|].
  destruct (hasher_made Hash new_cache url_Parse url_String cfg p Hcache Hp) as (h & Eh & Hi & Hk & Hr). exists (h :: hs). split.
  - apply mapM_Some. constructor; [done|by apply mapM_Some].
  - by constructor.
Qed.

Lemma servers_made (cfgs : list HasherConfig) (bk : gmap string Server) :
  NoDup (cf_Name <$> cfgs) -> (forall cfg, cfg ∈ cfgs -> servable (cf_Name cfg) cfg) ->
  exists bk', make_servers (fun _ => true) bk cfgs = Some bk' /\
    (forall name, name ∉ cf_Name <$> cfgs -> bk' !! name = bk !! name) /\
    (forall cfg, cfg ∈ cfgs -> exists s, bk' !! cf_Name cfg = Some s /\ serving cfg s).
Proof.
  revert bk. induction cfgs as [|cfg cfgs IH]; intros bk Hnd Hs.
  { exists bk. split_and!; [done|done|]. intros cfg Hin. by apply not_elem_of_nil in Hin. }
  cbn in Hnd. apply NoDup_cons in Hnd as [Hc Hnd]. destruct (Hs cfg) as [_ Hl [spl Hspl] Hflt]; [by left|].
  destruct (hashers_made cfg _ Hl) as (hs & Eh & Hf). cbn [make_servers]. rewrite Eh. cbn [mbind option_bind].
  unfold CreateServer, NewServer. rewrite Hspl. cbn [mbind option_bind].
  assert (bool_decide (is_Some (cf_PreRegFilter cfg)) && bool_decide (cf_ListenStr cfg = "backend_only"%string) = false) as ->.
  { destruct (bool_decide (is_Some _)) eqn:Ep; [|done]. apply bool_decide_eq_true in Ep. cbn. apply bool_decide_eq_false. by apply Hflt. }
  set (s := set_work _ hs _ _ _). set (bk1 := bk_Add bk _ s).
  destruct (IH bk1 Hnd) as (bk' & E & Hn & Hin); [intros c Hc'; apply Hs; by right|].
  exists bk'. split_and!; [exact E| |].
  - intros name Hnot. cbn in Hnot. apply not_elem_of_cons in Hnot as [Hne Hnot]. rewrite (Hn name Hnot). by apply lookup_insert_ne.
  - intros c [->|Hc']%elem_of_cons; [|by apply Hin]. exists s. rewrite (Hn _ Hc). split; [apply lookup_insert_eq|]. by split_and!.
Qed.

(** ** From the file to the servers *)

Section start.
Context (servers out out' : HasherServers) (order order' : list (string * HasherConfig)) (prm : list PreReg).
Context (Hdecoded : map_Forall (fun _ => decoded) servers).
Context (Horder : order ≡ₚ map_to_list servers) (Horder' : order' ≡ₚ map_to_list out').
Context (Hparsed : parse_decoded url_Parse Compile SubexpNames servers order = Ok out).
Context (Hverified : VerifyAndAssignPreReg out prm = (out', None)).

(** The sections before and after. *)
Lemma section_lookup (chunk : string) (cfg : HasherConfig) :
  out !! chunk = Some cfg ->
  exists cfg0 defaults, servers !! chunk = Some cfg0 /\ servers !! DEFAULT_CONFIG_SECTION = Some defaults /\
    one_section defaults chunk cfg0 = Ok cfg.
Proof.
  intros Hc. pose proof Hparsed as Hp. unfold parse_decoded in Hp. destruct (servers !! DEFAULT_CONFIG_SECTION) as [d|]; [|done].
  apply (config_parsed servers) in Hp as [_ Hp]; [|done]. specialize (Hp chunk). destruct (servers !! chunk) as [cfg0|]; [|congruence].
  destruct Hp as (r & Hr & E). exists cfg0, d. split_and!; [done|done|]. congruence.
Qed.

Lemma out_lookup (chunk : string) (cfg' : HasherConfig) :
  out' !! chunk = Some cfg' -> exists cfg, out !! chunk = Some cfg /\ cfg' = assigned prm chunk cfg /\
    (is_Some (cf_PreRegFilter cfg') -> cfg' = cfg \/ cf_ListenStr cfg' <> "backend_only"%string).
Proof.
  intros Hc. destruct (filters_accepted _ _ _ Hverified) as [Hv Ha]. specialize (Ha chunk). rewrite Hc in Ha.
  destruct (out !! chunk) as [cfg|] eqn:E; [|done]. injection Ha as ->. exists cfg. split_and!; [done|done|]. intros _.
  unfold assigned. destruct (last _) as [pr|] eqn:El; [|by left]. right. apply last_Some_elem_of in El.
  apply list_elem_of_filter in El as [<- Hin]. rewrite Forall_forall in Hv. destruct (Hv pr Hin) as ((c & Hc' & Hl) & _).
  by simplify_eq.
Qed.

(** A section other than the default one is in use and can be served. *)
Lemma section_served (chunk : string) (cfg' : HasherConfig) :
  out' !! chunk = Some cfg' ->
  if decide (chunk = DEFAULT_CONFIG_SECTION) then cf_OkToUse cfg' = false else cf_OkToUse cfg' = true /\ servable chunk cfg'.
Proof.
  intros Hc. destruct (out_lookup _ _ Hc) as (cfg & Ho & -> & Hf). destruct (section_lookup _ _ Ho) as (cfg0 & d & Hs & _ & Ep).
  unfold HasherConf.one_section in Ep. case_decide as Hd.
  - rewrite bool_decide_eq_true_2 in Ep by done. injection Ep as <-. unfold assigned. by destruct (last _).
  - rewrite bool_decide_eq_false_2 in Ep by done.
    destruct (section_ok _ _ _ _ Ep (Hdecoded _ _ Hs)) as (Hok & [H1 H2 H3 H4] & _).
    assert (Hsame : cf_OkToUse (assigned prm chunk cfg) = cf_OkToUse cfg /\ cf_Name (assigned prm chunk cfg) = cf_Name cfg /\
      cf_ServerLists (assigned prm chunk cfg) = cf_ServerLists cfg /\ SetSplitterProcessor (assigned prm chunk cfg) = SetSplitterProcessor cfg)
      by (unfold assigned; by destruct (last _)).
    destruct Hsame as (E1 & E2 & E3 & E4). split; [congruence|]. split; [congruence|by rewrite E3|by rewrite E4|].
    intros Hfl. destruct (Hf Hfl) as [E|]; [|done]. rewrite E in Hfl |- *. by apply H4.
Qed.

Lemma servable_elem (cfg : HasherConfig) :
  cfg ∈ ServableConfigs order' <-> exists chunk, chunk <> DEFAULT_CONFIG_SECTION /\ out' !! chunk = Some cfg.
Proof.
  unfold ServableConfigs. rewrite list_elem_of_filter, list_elem_of_fmap. split.
  - intros (Hok & [chunk c] & -> & Hin). rewrite Horder', elem_of_map_to_list in Hin. exists chunk. split; [|done].
    apply section_served in Hin. cbn in *. intros ->. rewrite decide_True in Hin by done. congruence.
  - intros (chunk & Hne & Hc). pose proof (section_served _ _ Hc) as Hs. rewrite decide_False in Hs by done. split; [by destruct Hs|].
    exists (chunk, cfg). split; [done|]. by rewrite Horder', elem_of_map_to_list.
Qed.

Lemma servable_names : NoDup (cf_Name <$> ServableConfigs order').
Proof.
  assert (Hnd : NoDup order'.*1) by (rewrite Horder'; apply NoDup_fst_map_to_list).
  assert (Hsub : forall x, x ∈ order' -> out' !! x.1 = Some x.2) by (intros [k c] Hx; rewrite Horder' in Hx; by apply elem_of_map_to_list in Hx).
  unfold ServableConfigs. clear Horder'. induction order' as [|[k c] l IH]; [constructor|].
  cbn in Hnd. apply NoDup_cons in Hnd as [Hk Hnd]. assert (Hl : forall x, x ∈ l -> out' !! x.1 = Some x.2) by (intros; apply Hsub; by right).
  specialize (IH Hnd Hl). cbn [fmap list_fmap snd]. rewrite filter_cons. case_decide as Hok; [|done]. cbn. apply NoDup_cons. split; [|done].
  intros Hin. apply list_elem_of_fmap in Hin as (c' & En & Hc'). apply list_elem_of_filter in Hc' as [Hok' Hc'].
  apply list_elem_of_fmap in Hc' as ([k' c''] & -> & Hc'). cbn in *.
  assert (Hname : forall k c, out' !! k = Some c -> cf_OkToUse c = true -> cf_Name c = k).
  { intros k0 c0 H0 Ho0. pose proof (section_served _ _ H0) as Hs. case_decide; [congruence|]. by destruct Hs as [_ [? _ _ _]]. }
  apply Hk. rewrite <- (Hname k c (Hsub _ (list_elem_of_here _ _)) Hok), En, (Hname k' c'' (Hl _ Hc') Hok').
  apply list_elem_of_fmap. by exists (k', c'').
Qed.

Lemma backends_made :
  exists bk, make_servers (fun _ => true) ∅ (ServableConfigs order') = Some bk /\
    (forall name s, bk !! name = Some s ->
       name <> DEFAULT_CONFIG_SECTION /\ exists cfg, out' !! name = Some cfg /\ serving cfg s) /\
    (forall name, name <> DEFAULT_CONFIG_SECTION -> is_Some (out' !! name) -> is_Some (bk !! name)).
Proof.
  assert (Hn : forall chunk cfg, chunk <> DEFAULT_CONFIG_SECTION -> out' !! chunk = Some cfg -> servable chunk cfg).
  { intros chunk cfg Hne Hc. pose proof (section_served _ _ Hc) as Hs. rewrite decide_False in Hs by done. by destruct Hs. }
  destruct (servers_made (ServableConfigs order') ∅ servable_names) as (bk & E & Hout & Hin).
  { intros cfg (chunk & Hne & Hc)%servable_elem. pose proof (Hn _ _ Hne Hc) as Hs. by rewrite (sv_name _ _ Hs). }
  exists bk. split_and!; [done| |].
  - intros name s Hs. destruct (decide (name ∈ cf_Name <$> ServableConfigs order')) as [Hx|Hx]; [|by rewrite (Hout _ Hx) in Hs].
    apply list_elem_of_fmap in Hx as (cfg & -> & Hx). destruct (Hin _ Hx) as (s' & Hs' & Hsv).
    apply servable_elem in Hx as (chunk & Hne & Hc). pose proof (sv_name _ _ (Hn _ _ Hne Hc)) as Hname. rewrite Hname in *.
    split; [done|]. exists cfg. split; [done|]. congruence.
  - intros name Hne [cfg Hc]. destruct (Hin cfg) as (s & Hs & _); [apply servable_elem; by exists name|].
    rewrite (sv_name _ _ (Hn _ _ Hne Hc)) in Hs. eauto.
Qed.

(** The filters of a section in use are a group that was verified. *)
Lemma filter_verified (chunk : string) (cfg' : HasherConfig) (pr : PreReg) :
  out' !! chunk = Some cfg' -> chunk <> DEFAULT_CONFIG_SECTION -> cf_PreRegFilter cfg' = Some pr -> group_verified out pr.
Proof.
  intros Hc Hne Hf. destruct (out_lookup _ _ Hc) as (cfg & Ho & -> & _). destruct (section_lookup _ _ Ho) as (cfg0 & d & Hs & _ & Ep).
  assert (Hnone : cf_PreRegFilter cfg = None).
  { unfold HasherConf.one_section in Ep. rewrite bool_decide_eq_false_2 in Ep by done.
    by destruct (section_ok _ _ _ _ Ep (Hdecoded _ _ Hs)) as (_ & _ & _ & ? & _). }
  unfold assigned in Hf. destruct (last _) as [pr'|] eqn:El; [|congruence]. injection Hf as <-. apply last_Some_elem_of in El.
  apply list_elem_of_filter in El as [_ Hin]. destruct (filters_accepted _ _ _ Hverified) as [Hv _].
  rewrite Forall_forall in Hv. by apply Hv.
Qed.

(** The copies and the lists of a section. *)
Lemma section_replicated (chunk : string) (cfg0 cfg' : HasherConfig) :
  servers !! chunk = Some cfg0 -> out' !! chunk = Some cfg' -> chunk <> DEFAULT_CONFIG_SECTION ->
  cf_DevNullOut cfg0 = false -> 0 <= cf_Replicas cfg0 -> Forall (fun sec => server_lines (sl_Servers sec) <> []) (cf_ConfServerList cfg0) ->
  cf_DevNullOut cfg' = false /\ 1 <= cf_Replicas cfg' /\
  Forall2 (fun sec p => list_ok p /\ ps_ServerList p = server_lines (sl_Servers sec) /\ cf_Replicas cfg' <= Z.of_nat (length (ps_ServerList p)))
    (cf_ConfServerList cfg0) (cf_ServerLists cfg').
Proof.
  intros H0 Hc Hne Hdev Hr Hl. destruct (out_lookup _ _ Hc) as (cfg & Ho & -> & _).
  destruct (section_lookup _ _ Ho) as (cfg0' & d & H0' & _ & Ep). assert (cfg0' = cfg0) as -> by congruence.
  unfold HasherConf.one_section in Ep. rewrite bool_decide_eq_false_2 in Ep by done.
  destruct (section_ok _ _ _ _ Ep (Hdecoded _ _ H0)) as (_ & _ & Hdn & _ & m & Hps & Hrep).
  destruct (section_replicas d cfg0 m _ Hps Hdev Hr Hl) as [H1 Hf]. rewrite <- Hrep in H1, Hf.
  unfold assigned. destruct (last _); cbn; split_and!; try done; congruence.
Qed.

End start.

(** C39: Whatever order Go visits the sections and the groups in: when the
    configuration and the filters have been accepted and the sockets can be
    bound, a server is made for every section but the default one, and
    starts without a panic unless its accumulator names the default section
    as its backend, which passes all checks. *)
Theorem program_starts (servers out out' : HasherServers) (order order' : list (string * HasherConfig)) (prm : list PreReg) :
  map_Forall (fun _ => decoded) servers -> order ≡ₚ map_to_list servers -> order' ≡ₚ map_to_list out' ->
  parse_decoded url_Parse Compile SubexpNames servers order = Ok out -> VerifyAndAssignPreReg out prm = (out', None) ->
  exists bk, make_servers (fun _ => true) ∅ (ServableConfigs order') = Some bk /\
    (forall name, is_Some (bk !! name) <-> name <> DEFAULT_CONFIG_SECTION /\ is_Some (servers !! name)) /\
    forall name s, bk !! name = Some s ->
      start_wiring bk s = None <-> exists a, PreRegFilter s ≫= pr_Accumulator = Some a /\ ToBackend a = DEFAULT_CONFIG_SECTION.
Proof.
  intros Hd Ho Ho' Hp Hv. destruct (backends_made servers out out' order order' prm Hd Ho Ho' Hp Hv) as (bk & E & Hbk & Hall).
  exists bk. split; [done|]. destruct (filters_accepted _ _ _ Hv) as [_ Hout].
  assert (Hdom : forall name, is_Some (out' !! name) <-> is_Some (servers !! name)).
  { intros name. rewrite Hout, fmap_is_Some. unfold parse_decoded in Hp. destruct (servers !! DEFAULT_CONFIG_SECTION); [|done].
    apply (config_parsed servers) in Hp as [_ Hp]; [|done]. specialize (Hp name). destruct (servers !! name).
    - destruct Hp as (r & _ & ->). split; eauto.
    - rewrite Hp. split; by intros []. }
  assert (Hnames : forall name, is_Some (bk !! name) <-> name <> DEFAULT_CONFIG_SECTION /\ is_Some (servers !! name)).
  { intros name. split; [|intros [Hne Hs]; by apply Hall; [|apply Hdom]]. intros [s Hs].
    destruct (Hbk _ _ Hs) as (Hne & cfg & Hc & _). split; [done|]. apply Hdom. eauto. }
  split; [done|]. intros name s Hs. destruct (Hbk _ _ Hs) as (Hne & cfg & Hc & (_ & _ & _ & Hpf & _)).
  pose proof (start_needs_backend bk s) as Hst. cbn zeta in Hst. split.
  - intros En. rewrite En in Hst. destruct Hst as (a & Ha & Hb & Hn). exists a. split; [done|].
    destruct (decide (ToBackend a = DEFAULT_CONFIG_SECTION)) as [|Hna]; [done|]. exfalso.
    apply eq_None_not_Some in Hn. apply Hn, Hall; [done|]. rewrite Hpf in Ha. destruct (cf_PreRegFilter cfg) as [pr|] eqn:Ef; [|done].
    cbn in Ha. destruct (filter_verified servers out out' order prm Hd Ho Hp Hv _ _ _ Hc Hne Ef) as (_ & _ & Hacc). rewrite Ha in Hacc.
    destruct Hacc as [|[c Hacc]]; [done|]. rewrite Hout, Hacc. cbn. eauto.
  - intros (a & Ha & Eb). destruct (start_wiring bk s) as [s'|]; [|done]. rewrite Ha in Hst.
    destruct Hst as (a' & _ & _ & _ & _ & [Hb|[_ Hb]]); rewrite Eb in Hb; [done|]. by apply Hnames in Hb as [].
Qed.

(** C4: When a section that sends its lines on names at least one server
    in every list and asks for no negative number of copies, the points of
    the servers of a list do not collide and their URLs print as they are
    written, the server made for the section has a hasher for every list, in
    order, and for every key each of them names exactly as many servers of
    its list as there are copies to make, at least one and each once. *)
Theorem configured_servers (servers out out' : HasherServers) (order order' : list (string * HasherConfig)) (prm : list PreReg)
    (bk : gmap string Server) (name : string) (cfg0 cfg : HasherConfig) (s : Server) :
  map_Forall (fun _ => decoded) servers -> order ≡ₚ map_to_list servers -> order' ≡ₚ map_to_list out' ->
  parse_decoded url_Parse Compile SubexpNames servers order = Ok out -> VerifyAndAssignPreReg out prm = (out', None) ->
  make_servers (fun _ => true) ∅ (ServableConfigs order') = Some bk ->
  servers !! name = Some cfg0 -> out' !! name = Some cfg -> bk !! name = Some s ->
  cf_DevNullOut cfg0 = false -> 0 <= cf_Replicas cfg0 ->
  Forall (fun sec => server_lines (sl_Servers sec) <> []) (cf_ConfServerList cfg0) -> Forall (list_served Hash url_String cfg) (cf_ServerLists cfg) ->
  DevNullOut s = false /\ 1 <= srv_Replicas s /\ Forall (hasher_inv Hash) (Hashers s) /\
  Forall2 (fun sec h => forall key, GetN Hash (Hasher h) key (srv_Replicas s) <> None /\
    let l := named_servers Hash (srv_Replicas s) key h in
    NoDup l /\ (forall server, server ∈ l -> server ∈ server_lines (sl_Servers sec)) /\ Z.of_nat (length l) = srv_Replicas s)
    (cf_ConfServerList cfg0) (Hashers s).
Proof.
  intros Hd Ho Ho' Hp Hv Hm H0 Hc Hs Hdev Hr Hne Hserved.
  destruct (backends_made servers out out' order order' prm Hd Ho Ho' Hp Hv) as (bk' & E & Hbk & _). rewrite Hm in E. injection E as <-.
  destruct (Hbk _ _ Hs) as (Hnd & cfg1 & Hc1 & (_ & Hrep & Hdn & _ & Hmade)). assert (cfg1 = cfg) as -> by congruence.
  destruct (section_replicated servers out out' order prm Hd Ho Hp Hv name cfg0 cfg H0 Hc Hnd Hdev Hr Hne) as (Hdev' & H1 & Hl).
  rewrite Hrep. split; [congruence|]. split; [done|]. clear -Hl Hmade Hserved H1.
  revert Hmade Hserved. generalize (Hashers s). induction Hl as [|sec p secs ps (Hok & El & Hn) Hl IH]; intros hs Hmade Hserved.
  { apply Forall2_nil_inv_l in Hmade as ->. by split. }
  apply Forall2_cons_inv_l in Hmade as (h & hs' & (_ & Hi & Hk & Hring) & Hmade & ->). apply Forall_cons in Hserved as [Hls Hserved].
  destruct (IH hs' Hmade Hserved) as [Hinv Hf]. rewrite (flip_keys url_Parse url_String p Hok (ls_prints _ _ _ _ Hls)) in Hring.
  split; [by constructor|]. constructor; [|done]. intros key. rewrite <- El.
  apply (list_names Hash url_Parse url_String cfg p h _ key Hok Hls Hk Hring). lia.
Qed.

End sections.

(** ** What the configuration does at the edges, and witnesses *)

#[local] Existing Instance insertion_GoSort.

(** URLs that print as they are written, and those whose scheme is put into
    lower case when they are parsed. *)
Definition plain_Parse (s : string) : string + goerror := if (String.length s =? 0)%nat then inr (GoError "empty url") else inl s.
Definition plain_String (u : string) : string := u.
Definition lower_String (u : string) : string := ToLower u.

Definition empty_conf : HasherConfig (URL := string) (Regexp := unit) :=
  mkConf "" false 0 0 "" "" "" "" 0 0 0 "" 0 0 "" "" 0 0 0 0 0 [] 0 0 None false [] None None [] ∅ false.

Definition a_section (listen : string) (copies : Z) (lists : list HasherServerList) : HasherConfig (URL := string) (Regexp := unit) :=
  mkConf "" false 0 0 "" "statsd" "" listen 0 0 0 "" 0 copies "" "" 0 0 0 0 0 lists 0 0 None false [] None None [] ∅ false.

Definition three_servers : HasherServerList := mkList [] [" tcp://a:1 "; "tcp://b:1"; " "; "tcp://c:1"]%string ["a"; "b"; "-"; "c"]%string.

Definition sample_sections : gmap string (HasherConfig (URL := string) (Regexp := unit)) :=
  {[ "default" := empty_conf; "main" := a_section "" 2 [three_servers]; "back" := a_section "backend_only" 7 [three_servers] ]}%string.

Definition sample_groups : list (PreReg (Regexp := unit)) := [mkPreReg "main" "sample" "main" [PrefixFilter "bad" true "back"] None].

Abbreviation parse_sample servers := (parse_decoded plain_Parse (fun _ => Some tt) (fun _ => ["Key"%string]) servers (map_to_list servers)).
Abbreviation made_of out := (make_servers toy_hash lru_new plain_String (fun _ => true) ∅ (ServableConfigs (map_to_list out))).

Definition sample_out : gmap string (HasherConfig (URL := string) (Regexp := unit)) :=
  match parse_sample sample_sections with Ok out => out | _ => ∅ end.
Definition sample_verified : gmap string (HasherConfig (URL := string) (Regexp := unit)) := (VerifyAndAssignPreReg sample_out sample_groups).1.

Lemma sample_decoded : map_Forall (fun _ => decoded) sample_sections.
Proof.
  unfold sample_sections. apply map_Forall_insert_2; [done|]. apply map_Forall_insert_2; [done|]. by apply map_Forall_singleton.
Qed.

Lemma sample_parsed : parse_sample sample_sections = Ok sample_out.
Proof. vm_compute. reflexivity. Qed.

Lemma sample_accepted : VerifyAndAssignPreReg sample_out sample_groups = (sample_verified, None).
Proof. vm_compute. reflexivity. Qed.

Lemma program_starts_witness :
  exists bk, made_of sample_verified = Some bk /\ is_Some (bk !! "main"%string) /\ is_Some (bk !! "back"%string) /\ bk !! "default"%string = None /\
    forall s, bk !! "main"%string = Some s -> PreRegFilter s = Some (mkPreReg "main" "sample" "main" [PrefixFilter "bad" true "back"] None) ->
      start_wiring bk s <> None.
Proof.
  destruct (program_starts toy_hash lru_new plain_Parse plain_String (fun _ => Some tt) (fun _ => ["Key"%string]) lru_new_ok
    sample_sections sample_out sample_verified (map_to_list sample_sections) (map_to_list sample_verified) sample_groups
    sample_decoded (reflexivity _) (reflexivity _) sample_parsed sample_accepted) as (bk & E & Hn & Hs).
  exists bk. split; [exact E|]. split; [apply Hn; split; [discriminate|eexists; reflexivity]|]. split; [apply Hn; split; [discriminate|eexists; reflexivity]|].
  split; [apply eq_None_not_Some; intros Hd; apply Hn in Hd as [Hd _]; apply Hd; reflexivity|].
  intros s Hm Hf Hw. apply (Hs "main"%string s Hm) in Hw as (a & Ha & _). rewrite Hf in Ha. discriminate.
Defined.

(** The points of the three keys. *)
Lemma sample_served (cfg : HasherConfig (URL := string) (Regexp := unit)) :
  sample_verified !! "main"%string = Some cfg -> Forall (list_served toy_hash plain_String cfg) (cf_ServerLists cfg).
Proof.
  intros E. vm_compute in E. injection E as <-. constructor; [|constructor]. split; [|repeat constructor|done].
  set (c := conf_ring _ _). cbn [HashkeyList].
  assert (Hd : Forall (fun s => Forall (fun s' => s = s' \/ Forall (fun h => h ∉ points toy_hash c s') (points toy_hash c s))
    ["a"; "b"; "c"]%string) ["a"; "b"; "c"]%string).
  { apply (bool_decide_unpack _). vm_compute. exact I. }
  intros s s' h Hs Hs' Hh Hh'. rewrite elem_of_list_to_set in Hs, Hs'. rewrite Forall_forall in Hd.
  specialize (Hd s Hs). rewrite Forall_forall in Hd. destruct (Hd s' Hs') as [|Hd']; [done|].
  rewrite Forall_forall in Hd'. by destruct (Hd' h Hh).
Qed.

Lemma configured_servers_witness :
  exists bk s, made_of sample_verified = Some bk /\ bk !! "main"%string = Some s /\ srv_Replicas s = 2 /\ length (Hashers s) = 1%nat /\
    Forall (fun h => length (named_servers toy_hash 2 "web.hits" h) = 2%nat /\
      forall server, server ∈ named_servers toy_hash 2 "web.hits" h -> server ∈ ["tcp://a:1"; "tcp://b:1"; "tcp://c:1"]%string) (Hashers s).
Proof.
  assert (Hr : option_map srv_Replicas (made_of sample_verified ≫= fun bk => bk !! "main"%string) = Some 2) by (vm_compute; reflexivity).
  destruct (made_of sample_verified) as [bk|] eqn:Em; [|discriminate]. cbn [mbind option_bind] in Hr.
  destruct (bk !! "main"%string) as [s|] eqn:Es; [|discriminate]. injection Hr as Hr.
  assert (Hc : is_Some (sample_verified !! "main"%string)) by (vm_compute; eexists; reflexivity). destruct Hc as [cfg Ec].
  exists bk, s. split; [reflexivity|]. split; [exact Es|].
  destruct (configured_servers toy_hash lru_new plain_Parse plain_String (fun _ => Some tt) (fun _ => ["Key"%string]) lru_new_ok
    sample_sections sample_out sample_verified (map_to_list sample_sections) (map_to_list sample_verified) sample_groups bk "main"
    (a_section "" 2 [three_servers]) cfg s
    sample_decoded (reflexivity _) (reflexivity _) sample_parsed sample_accepted Em eq_refl Ec Es eq_refl (ltac:(done))
    (ltac:(by repeat constructor)) (sample_served cfg Ec)) as (_ & _ & _ & Hf).
  split; [exact Hr|]. rewrite Hr in Hf. cbn [cf_ConfServerList a_section] in Hf.
  split; [by apply Forall2_length in Hf|].
  apply Forall2_cons_inv_l in Hf as (h & hs & Hh & Hf & ->). apply Forall2_nil_inv_l in Hf as ->. constructor; [|constructor].
  destruct (Hh "web.hits"%string) as (_ & _ & Hin & Hl). split; [lia|]. exact Hin.
Defined.

(** A list without servers makes the count of the servers start again: three
    copies are asked of a list with one server. *)
Example blank_list_resets :
  let one := mkList [] ["tcp://a:1"]%string [] in
  let blank := mkList [] [" "]%string [] in
  let servers := {[ "default" := empty_conf; "main" := a_section "" 3 [one; blank; three_servers] ]}%string in
  match parse_sample servers with
  | Ok out => option_map (fun c => (cf_Replicas c, (fun p => length (ps_ServerList p)) <$> cf_ServerLists c)) (out !! "main"%string) = Some (3, [1; 0; 3]%nat)
  | _ => False
  end.
Proof. vm_compute. reflexivity. Qed.

(** A negative number of copies is kept, and the first line makes the
    server panic. *)
Example negative_copies_panic :
  let servers := {[ "default" := empty_conf; "main" := a_section "" (-1) [three_servers] ]}%string in
  match parse_sample servers with
  | Ok out => match made_of out with
              | Some bk => option_map (fun s => (srv_Replicas s, (fun h => GetN toy_hash (Hasher h) "web.hits" (srv_Replicas s)) <$> Hashers s))
                             (bk !! "main"%string) = Some (-1, [None])
              | None => False
              end
  | _ => False
  end.
Proof. vm_compute. reflexivity. Qed.

(** A URL that does not print as it is written is not found in the table of
    the keys: the key of the server is empty, and so is the server a line is
    sent to. *)
Example scheme_loses_server :
  let servers := {[ "default" := empty_conf; "main" := a_section "" 1 [mkList [] ["TCP://a:1"]%string ["a"]%string] ]}%string in
  match parse_sample servers with
  | Ok out => match make_servers toy_hash lru_new lower_String (fun _ => true) ∅ (ServableConfigs (map_to_list out)) with
              | Some bk => option_map (fun s => named_servers toy_hash 1 "web.hits" <$> Hashers s) (bk !! "main"%string) = Some [[""%string]]
              | None => False
              end
  | _ => False
  end.
Proof. vm_compute. reflexivity. Qed.

(** Filters for the default section are accepted, and no server has
    them. *)
Example default_filters_dropped :
  let prm := [mkPreReg "main" "sample" "default" [PrefixFilter "bad" true "main"] None] in
  let r := VerifyAndAssignPreReg sample_out prm in
  r.2 = None /\
  match made_of r.1 with
  | Some bk => forallb (fun x => match PreRegFilter x.2 with None => true | Some _ => false end) (map_to_list bk) = true
  | None => False
  end.
Proof. split; vm_compute; reflexivity. Qed.

(** An accumulator for the default section passes the checks, and its server
    panics when it starts. *)
Example default_backend_panics :
  let acc := mkAcc "default" "" "acc" false 10 [10] [] TAG_METRICS2 HASH_FNV false (GraphiteAcc (mkBin ∅ None false 10 TAG_METRICS2 HASH_FNV))
               GraphiteFormatter (TheGraphite (NewGraphiteSplitter ∅)) (TheGraphite (NewGraphiteSplitter ∅)) [] false false false in
  let r := VerifyAndAssignPreReg sample_out [mkPreReg "main" "sample" "main" [] (Some acc)] in
  r.2 = None /\
  match made_of r.1 with
  | Some bk => match bk !! "main"%string with Some s => start_wiring bk s = None | None => False end
  | None => False
  end.
Proof. split; vm_compute; reflexivity. Qed.
